(* ===== verification/_CoqProject ===== *)
-Q . S2P
Prelude.v
Keyed.v
Primitives.v
Ledger.v
LedgerVault.v
LedgerInv.v
LedgerSolvency.v
LedgerOps.v
LedgerProps.v
LedgerAudit.v
LedgerRedeem.v
LedgerSets.v
LedgerTheorems.v
U256.v
FixedPoint.v
FixedProps.v
FixedReal.v
FixedLog.v
FixedCost.v
FixedTheorems.v
Twap.v
Market.v
MarketObserve.v
MarketTrade.v
MarketLedger.v
MarketFlow.v
MarketSystem.v
MarketSolvency.v
MarketTheorems.v
Proposals.v
Epoch.v
EpochDecide.v
EpochCalls.v
EpochEngine.v
EpochClock.v
EpochSettle.v
EpochSystem.v
EpochInv.v
EpochOps.v
EpochSteps.v
EpochTick.v
EpochCohorts.v
EpochCheck.v
EpochBudget.v
EpochVaults.v
EpochJoint.v
EpochJointSystem.v
EpochDemo.v
EpochTheorems.v
Guardian.v
GuardianSystem.v
GuardianKeep.v
GuardianTheorems.v
Origins.v
OriginsTheorems.v
Attestor.v
AttestorInv.v
AttestorTheorems.v
Registry.v
RegistryInv.v
RegistryTheorems.v
ExecGuard.v
ExecCheck.v
ExecTheorems.v
Welfare.v
WelfareNum.v
WelfareInv.v
WelfareKeep.v
WelfareTheorems.v
Oracle.v
OracleInv.v
OracleKeep.v
OracleTheorems.v
Treasury.v
TreasuryInv.v
TreasuryTheorems.v
Constitution.v
ConstitutionInv.v
ConstitutionPallet.v
ConstitutionTheorems.v
