(* ===== verification/Prelude.v ===== *)
(** * Bleavit: a verification development of the functional cores

    Bleavit is a futarchy parachain: proposals are decided by conditional
    prediction markets on a welfare metric. Its logic is kept in pure Rust
    crates, [src/crates/<name>-core], which FRAME pallets ([src/pallets])
    wrap with storage, origins and weights. This development models those
    crates, function by function, and proves what makes them correct.

    ** The program and where it is modelled

    - Shared vocabulary, [crates/futarchy-primitives]: identifiers,
      instruments, vault states and kernel constants in [Primitives]; proposal
      states, classes, reasons and records in [Proposals].
    - Conditional ledger, [crates/conditional-ledger-core]: [Ledger]. The
      state is [LedgerState], six vectors as association lists in the order
      of the code ([Keyed] holds their lemmas). A vault escrows USDC; [split]
      turns USDC into a branch-USDC of each branch, [split_scalar] and
      [split_gate] turn branch-USDC into LONG/SHORT and YES/NO legs; [resolve],
      [settle_scalar], [settle_gate] and [void] move the vault on and
      [redeem_*] pay. [exec] is the table of public calls and [reachable] the
      states they lead to.
    - Fixed point and LMSR, [crates/futarchy-fixed]: [U256] (the two-word
      intermediate, with its bit-serial division) and [FixedPoint] (64.64
      arithmetic, exp2, log2, ln, the LMSR cost, price and trade formulas).
    - Market, [crates/market-core]: [Twap] (the two-word price integral) and
      [Market] (books, quotes, trades, seeding, the slew-limited observation,
      the table of books). A market calls its ledger through the trait
      [LedgerOps], here a class with laws ([MarketLedger]); [LedgerState] is
      the instance.
    - Epoch, [crates/epoch-core]: [Epoch] (data, parameters, the phase
      clock), [EpochDecide] (the decision engine), [EpochCalls] (every
      operation and the state checker), [EpochSystem] (the calls the pallet
      makes, what it checks before them and the two writes of its own, as a
      transition system). It calls a ledger and a welfare engine through two
      traits, here the classes [EpochLedger] and [WelfareOps]; [LedgerState]
      is the instance of the first ([EpochVaults]) and the second stays
      arbitrary.
    - Guardian, [crates/guardian-core]: [Guardian] (data, membership, the
      approval flow, every power, reviews, the state checker) and
      [GuardianSystem] (the calls with a clock that does not run back). What
      the powers act on is outside, as in the code: a dispatched power is an
      event.
    - Origins, [crates/origins-core]: [Origins], the safety filter: a walk
      over a call tree with a shared budget of depth and calls.
    - Attestors, [crates/attestor-core]: [Attestor] (records, challenges,
      strikes, removal, liabilities, the quorum the execution gate asks for).
    - Registries, [crates/registry-core]: [Registry] (filings, watchtower
      acknowledgements, challenges, the closing crank, epoch aggregates).
    - Execution guard, [crates/execution-guard-core]: [ExecGuard] (queue,
      dispatch check, execution, retries, runtime upgrades) against the traits
      [EpochHandoff], [GuardianView] and [AttestationView]; [ExecCheck] has
      the in-memory instances over [Guardian], [AttestorRegistry] and the
      epoch core, and the system of guard, epoch core and ledger.
    - Welfare, [crates/welfare-core]: [Welfare] (metric specs, snapshots,
      daily gates, settlement scores, the composites in fixed point).
    - Oracle, [crates/oracle-core]: [Oracle] (the reporting game with its
      doubling bonds, watchtowers, the closing crank, recomputation and
      adjudication, the money deadline, the reserve probe).
    - Treasury, [crates/futarchy-treasury-core]: [Treasury] (net asset value,
      rolling outflow meters, the keeper meter, budget lines, streams,
      issuance, Coretime quotes). The limits the pallet refreshes when it
      loads the treasury are a call of the system in [TreasuryInv].
    - Constitution, [crates/constitution-core]: [Constitution] (the typed
      parameter registry with the whole genesis table, rate limits, meters,
      capabilities, phase flags, the 168-byte release channel). Its pallet,
      [pallets/constitution], is [ConstitutionPallet]: storage as a finite
      map, the extrinsics with their origins and events, the writers of the
      sibling pallets, genesis and the state check. What the runtime
      configures is the class [ConstitutionConfig].

    ** Conventions

    [Prelude] has the shared notions. A fallible function returns [Result E R].
    A function on [&mut self] is a function of [ST S E R], that is
    [S -> Result E R * S]: it returns the state as the code left it, also when
    it fails half-way, and the callers' rollback ([atomically] in the ledger,
    the storage layer of the pallets) is written out ([atomic], [epoch_step]).
    A machine integer is a [Z] with the bound of its width ([U8] to [U128] are
    2^8 to 2^128): [checked_*] operations return [None] or an error outside it,
    [sat_*] saturate, [wrap] and the explicit shifts wrap. Account identifiers
    are any type with decidable equality.

    Parameters of the model are what the crates themselves do not define: the
    ledger seen by market and epoch (the trait's laws, discharged for
    [LedgerState]), the welfare engine seen by the epoch core and the handoff,
    guardian and attestations seen by the execution guard (no laws are
    assumed), and the SCALE encoding of a payload's calls ([PayloadCodec]).
    Events are part of the states, so statements may speak of them.

    ** Loops and fuel

    Iterations of the code are structural recursion on its vectors, or counted:
    [div_loop] has the 128 steps of the code, [log2_loop] the 64 bits of the
    mantissa, [exp2_frac_loop] the table of factors, [pow_loop] the 64 bits of
    a [u64] exponent, [settle_items] the length of the batch, [fit_budget] the
    slate. The boundary-by-boundary clock [walk] is a specification with fuel
    [S (now + 1)]: an epoch lasts at least one block, so the fuel is never
    used up ([catch_up_is_stepping] proves that the walk arrives). The closing
    crank of the oracle, [close_loop], has two iterations per round: each
    removes a round, moves past it or neutralises its money once
    ([crank_terminates] proves that this is enough from any state).

    ** What the theorems show

    - [LedgerTheorems]: the solvency invariant of every reachable
      state, that winning, voided and Baseline claims are always paid at their
      rate, agreement with the runtime checker, cash accounting by events,
      failure atomicity, the split/merge round trip, exact transfers, the
      lifecycle of a vault, deposits. [LedgerVault] holds the
      arithmetic of one vault, [LedgerInv] to [LedgerOps] the preservation.
    - [FixedTheorems]: exactness of multiplication and division,
      accuracy of exp2, log2, ln, LMSR cost and prices against the real
      functions (Standard Library reals), path independence, rounding.
    - [MarketTheorems]: a seeded book can deliver (up to an
      explicit rounding per trade, in full below one base unit), a trade is
      its quote and moves exactly the amounts it names, no cycle of trades
      extracts more than that rounding, observations are total and slew-bounded and not under
      the control of the trade that triggers them, the price integral is
      exact and its mean in range, the joint invariant of market and ledger,
      failure atomicity, the maker's loss bound.
    - [EpochTheorems]: the decision engine against an ordered table,
      constant-time catch-up of the clock against stepping, settlement in
      batches against one pass, the state checker against the invariant of
      all reachable states, at most one extension and one delay per proposal,
      and the joint system of epoch core and ledger, in which each vault
      follows its proposal. [EpochInv] to [EpochCohorts] carry the invariant,
      [EpochBudget] the allowances, [EpochVaults] to
      [EpochJointSystem] the refinement; [EpochDemo] is the run the witnesses
      use.
    - [GuardianTheorems]: a power is dispatched only with five approvals of
      seated members, powers are metered per proposal and per epoch, the
      checker accepts. [GuardianSystem] and [GuardianKeep] carry the
      invariant and the log.
    - [OriginsTheorems]: the filter against the declarative reading of
      [Origins].
    - [AttestorTheorems]: the quorum is exact, an ejection is final.
      [RegistryTheorems]: an aggregate is the measure of acknowledged or judged
      filings, taken when its epoch was closed. ([AttestorInv], [RegistryInv].)
    - [ExecTheorems]: at most one execution per proposal in the joint system
      (by [EpochJointSystem]: a vault out of trading stays out), the exact reading
      of the dispatch check and of what an execution does, and of the queue ([ExecCheck]).
    - [WelfareTheorems]: measurement is total and is the real formula up to a
      few units of 1e-9 ([WelfareNum] and [WelfareInv] have the error
      analysis), the settlement score is the exact floor and final,
      the gates are what was sampled, the checker accepts ([WelfareInv] to
      [WelfareKeep]). The gate is not monotone in the last unit: two floors
      are taken inside the smoothstep polynomial.
    - [OracleTheorems]: the closing crank terminates and is never blocked, a
      settled value is final and earned, a bond moves only by its owner's
      hand, the money deadline leaves no gap, the checker accepts.
      ([OracleInv], [OracleKeep].)
    - [TreasuryTheorems]: outflows and issuance within their windows, the
      books balance, streams vest linearly, a failed call leaves no
      trace, the checker accepts. ([TreasuryInv].)
    - [ConstitutionTheorems]: the registry stays typed and within its bounds,
      an update is admitted exactly on the published interval, changes need
      the authority of their class and are rate-limited over any run, the
      release channel keeps its owners apart, both state checkers accept, and
      the pallet refines the core. ([ConstitutionInv].)
    ** Not modelled

    - The pallets but the constitution's, the runtime, the node and the
      keeper: storage, weights, origins, custody of the assets and
      asynchronous I/O around the cores. What three pallets do to the state of
      their core is modelled: the flags the epoch pallet loads and the
      terminal proposals it does not persist ([load_flags],
      [reap_terminal]), the limits the treasury pallet refreshes
      ([refresh_limits]) and the recomputable components the oracle pallet
      declares ([note_recomputable]).
    - SCALE encodings, bounded vectors as types (their bounds are the checks
      that the code makes), benchmarking and test modules, and the
      floating-point conversions of [futarchy-fixed] behind [std].
    - The Python reference model, the TLA models and the frontend. *)

From stdpp Require Export base tactics decidable numbers list relations.
From Stdlib Require Export ZArith Lia.

#[global] Open Scope Z_scope.

Declare Scope bliwit_scope.
Delimit Scope bliwit_scope with bliwit.
#[global] Open Scope bliwit_scope.

(** ** Fallible values: Rust's [Result<A, E>] *)

Inductive Result (E A : Type) : Type :=
| Ok (a : A)
| Err (e : E).
Arguments Ok {E A} a.
Arguments Err {E A} e.

Definition rbind {E A B} (r : Result E A) (k : A -> Result E B) : Result E B :=
  match r with
  | Ok a => k a
  | Err e => Err e
  end.

Definition rmap {E A B} (f : A -> B) (r : Result E A) : Result E B :=
  match r with
  | Ok a => Ok (f a)
  | Err e => Err e
  end.

(** Rust's [map_err]. *)
Definition map_err {E F A} (f : E -> F) (r : Result E A) : Result F A :=
  match r with
  | Ok a => Ok a
  | Err e => Err (f e)
  end.

(** Rust's [Option::ok_or] and the crates' [ensure!] macro. *)
Definition ok_or {E A} (e : E) (o : option A) : Result E A :=
  match o with
  | Some a => Ok a
  | None => Err e
  end.

Definition ensure {E} (c : bool) (e : E) : Result E unit :=
  if c then Ok tt else Err e.

(** Rust's [Option::map_or]. *)
Definition map_or {A B} (d : B) (f : A -> B) (o : option A) : B :=
  match o with
  | Some a => f a
  | None => d
  end.

(** Rust's [Option::is_none]. *)
Definition is_none {A} (o : option A) : bool :=
  match o with
  | None => true
  | Some _ => false
  end.

Definition is_ok {E A} (r : Result E A) : bool :=
  match r with
  | Ok _ => true
  | Err _ => false
  end.

(** [for x in l { f(x)?; }] *)
Fixpoint for_each {E A} (f : A -> Result E unit) (l : list A) : Result E unit :=
  match l with
  | [] => Ok tt
  | x :: l => rbind (f x) (fun _ => for_each f l)
  end.

(** [iter.try_fold(init, f)] *)
Fixpoint try_fold {E A B} (f : B -> A -> Result E B) (acc : B) (l : list A) : Result E B :=
  match l with
  | [] => Ok acc
  | x :: l => rbind (f acc x) (fun acc => try_fold f acc l)
  end.

Notation "'let?' x ':=' r 'in' k" := (rbind r (fun x => k))
  (at level 10, x pattern, r at level 100, k at level 200) : bliwit_scope.
Notation "'do?' r 'in' k" := (rbind r (fun _ => k))
  (at level 10, r at level 100, k at level 200) : bliwit_scope.

(** ** Methods on [&mut self]: a state that survives an error *)

(** A method takes the state and returns its result with the state it leaves
    behind, also when it fails: a Rust method that returns [Err] has already
    performed the writes that precede the failing line. *)
Definition ST (S E A : Type) : Type := S -> Result E A * S.

Section state.
Context {S E : Type}.

Definition ret {A} (a : A) : ST S E A := fun s => (Ok a, s).

Definition throw {A} (e : E) : ST S E A := fun s => (Err e, s).

Definition lift {A} (r : Result E A) : ST S E A := fun s => (r, s).

Definition bind {A B} (m : ST S E A) (k : A -> ST S E B) : ST S E B :=
  fun s =>
    match m s with
    | (Ok a, s') => k a s'
    | (Err e, s') => (Err e, s')
    end.

Definition get : ST S E S := fun s => (Ok s, s).

Definition gets {A} (f : S -> A) : ST S E A := fun s => (Ok (f s), s).

Definition modify (f : S -> S) : ST S E unit := fun s => (Ok tt, f s).

(** A method on [&self] that returns a [Result]. *)
Definition reads {A} (f : S -> Result E A) : ST S E A := fun s => (f s, s).

(** [method().map_err(f)] *)
Definition map_err_st {F A} (f : E -> F) (m : ST S E A) : ST S F A :=
  fun s => let (r, s) := m s in (map_err f r, s).

(** The [atomically] combinator: the state of before the call is restored
    when the body fails. *)
Definition atomic {A} (m : ST S E A) : ST S E A :=
  fun s =>
    match m s with
    | (Ok a, s') => (Ok a, s')
    | (Err e, _) => (Err e, s)
    end.

End state.

Notation "'let!' x ':=' m 'in' k" := (bind m (fun x => k))
  (at level 10, x pattern, m at level 100, k at level 200) : bliwit_scope.
Notation "'do!' m 'in' k" := (bind m (fun _ => k))
  (at level 10, m at level 100, k at level 200) : bliwit_scope.

(** A method on one component of a pair, as a call that borrows one of two
    disjoint objects. *)
Definition zoom_fst {S T E A} (m : ST S E A) : ST (S * T) E A :=
  fun st => let (r, s) := m st.1 in (r, (s, st.2)).
Definition zoom_snd {S T E A} (m : ST T E A) : ST (S * T) E A :=
  fun st => let (r, t) := m st.2 in (r, (st.1, t)).

(** Iterating a method over a list, as [for x in l { self.f(x)?; }]. *)
Fixpoint for_each_st {S E A} (f : A -> ST S E unit) (l : list A) : ST S E unit :=
  match l with
  | [] => ret tt
  | x :: l => do! f x in for_each_st f l
  end.

(** ** Machine integers *)

(** An unsigned integer of w bits is a [Z] in [0, 2^w).  The moduli are kept
    as literals so that [lia] sees numbers. *)
Abbreviation U8 := 256 (only parsing).
Abbreviation U32 := 4294967296 (only parsing).
Abbreviation U64 := 18446744073709551616 (only parsing).
Abbreviation U128 := 340282366920938463463374607431768211456 (only parsing).

Abbreviation is_u8 x := (0 <= x < 256) (only parsing).
Abbreviation is_u32 x := (0 <= x < 4294967296) (only parsing).
Abbreviation is_u64 x := (0 <= x < 18446744073709551616) (only parsing).
Abbreviation is_u128 x := (0 <= x < 340282366920938463463374607431768211456) (only parsing).

(** The checked operations of an unsigned type with modulus [w]. *)
Definition checked_add (w a b : Z) : option Z :=
  if a + b <? w then Some (a + b) else None.

Definition checked_sub (a b : Z) : option Z :=
  if b <=? a then Some (a - b) else None.

Definition checked_mul (w a b : Z) : option Z :=
  if a * b <? w then Some (a * b) else None.

Definition checked_div (a b : Z) : option Z :=
  if b =? 0 then None else Some (a / b).

Definition checked_rem (a b : Z) : option Z :=
  if b =? 0 then None else Some (a mod b).

(** The operations that saturate, and the ones that wrap around. *)
Definition sat_add (w a b : Z) : Z := Z.min (a + b) (w - 1).
Definition sat_sub (a b : Z) : Z := Z.max (a - b) 0.
Definition sat_mul (w a b : Z) : Z := Z.min (a * b) (w - 1).
Definition wrap (w a : Z) : Z := a mod w.

Lemma checked_add_Some w a b c :
  checked_add w a b = Some c <-> c = a + b /\ a + b < w.
Proof. unfold checked_add. case_match; split; intros; simplify_eq; intuition (subst; auto; lia). Qed.

Lemma checked_add_None w a b : checked_add w a b = None <-> w <= a + b.
Proof. unfold checked_add. case_match; split; intros; simplify_eq; auto; lia. Qed.

Lemma checked_sub_Some a b c :
  checked_sub a b = Some c <-> c = a - b /\ b <= a.
Proof. unfold checked_sub. case_match; split; intros; simplify_eq; intuition (subst; auto; lia). Qed.

Lemma checked_sub_None a b : checked_sub a b = None <-> a < b.
Proof. unfold checked_sub. case_match; split; intros; simplify_eq; auto; lia. Qed.

Lemma checked_mul_Some w a b c :
  checked_mul w a b = Some c <-> c = a * b /\ a * b < w.
Proof. unfold checked_mul. case_match; split; intros; simplify_eq; intuition (subst; auto; lia). Qed.

Lemma checked_div_Some a b c :
  checked_div a b = Some c <-> c = a / b /\ b <> 0.
Proof. unfold checked_div. case_match; split; intros; simplify_eq; intuition (subst; auto; lia). Qed.

Lemma wrap_small w a : 0 <= a < w -> wrap w a = a.
Proof. apply Z.mod_small. Qed.

(** ** Fixed arrays [[A; 2]] *)

Definition arr2 (A : Type) : Type := (A * A)%type.

Definition arr2_get {A} (p : arr2 A) (i : nat) : A :=
  match i with
  | O => p.1
  | S _ => p.2
  end.

Definition arr2_set {A} (p : arr2 A) (i : nat) (x : A) : arr2 A :=
  match i with
  | O => (x, p.2)
  | S _ => (p.1, x)
  end.

(** ** Inversion of the monads *)

Section inversion.
Context {S E : Type}.

Lemma rbind_Ok {A B} (r : Result E A) (k : A -> Result E B) b :
  rbind r k = Ok b <-> exists a, r = Ok a /\ k a = Ok b.
Proof. destruct r; simpl; naive_solver. Qed.

Lemma rmap_Ok {A B} (f : A -> B) (r : Result E A) b :
  rmap f r = Ok b <-> exists a, r = Ok a /\ b = f a.
Proof. destruct r; simpl; naive_solver. Qed.

Lemma map_err_Ok {F A} (f : E -> F) (r : Result E A) a :
  map_err f r = Ok a <-> r = Ok a.
Proof. destruct r; simpl; naive_solver. Qed.

Lemma ok_or_Ok {A} (e : E) (o : option A) a : ok_or e o = Ok a <-> o = Some a.
Proof. destruct o; simpl; naive_solver. Qed.

Lemma ensure_Ok c (e : E) u : ensure c e = Ok u <-> c = true.
Proof. destruct c, u; simpl; naive_solver. Qed.

Lemma ensure_true c (e : E) : c = true -> ensure c e = Ok tt.
Proof. by intros ->. Qed.

Lemma bind_Ok {A B} (m : ST S E A) (k : A -> ST S E B) s b s' :
  bind m k s = (Ok b, s') <-> exists a s1, m s = (Ok a, s1) /\ k a s1 = (Ok b, s').
Proof. unfold bind. destruct (m s) as [[a|e] s1]; naive_solver. Qed.

Lemma bind_Err {A B} (m : ST S E A) (k : A -> ST S E B) s e s' :
  bind m k s = (Err e, s') <->
  m s = (Err e, s') \/ exists a s1, m s = (Ok a, s1) /\ k a s1 = (Err e, s').
Proof. unfold bind. destruct (m s) as [[a|e'] s1]; naive_solver. Qed.

Lemma bind_step {A B} (m : ST S E A) (k : A -> ST S E B) s a s1 :
  m s = (Ok a, s1) -> bind m k s = k a s1.
Proof. unfold bind. by intros ->. Qed.

Lemma bind_get {A} (k : S -> ST S E A) s : bind get k s = k s s.
Proof. done. Qed.

Lemma bind_modify {A} f (k : unit -> ST S E A) s : bind (modify f) k s = k tt (f s).
Proof. done. Qed.

Lemma ret_Ok {A} (a : A) (s : S) b s' :
  ret (E := E) a s = (Ok b, s') <-> b = a /\ s' = s.
Proof. unfold ret. naive_solver. Qed.

Lemma modify_Ok (f : S -> S) s u s' : modify (E := E) f s = (Ok u, s') <-> u = tt /\ s' = f s.
Proof. unfold modify. destruct u. naive_solver. Qed.

Lemma get_Ok (s : S) a s' : get (E := E) s = (Ok a, s') <-> a = s /\ s' = s.
Proof. unfold get. naive_solver. Qed.

Lemma gets_Ok {A} (f : S -> A) (s : S) a s' : gets (E := E) f s = (Ok a, s') <-> a = f s /\ s' = s.
Proof. unfold gets. naive_solver. Qed.

Lemma lift_Ok {A} (r : Result E A) (s : S) a s' :
  lift r s = (Ok a, s') <-> r = Ok a /\ s' = s.
Proof. unfold lift. naive_solver. Qed.

Lemma reads_Ok {A} (f : S -> Result E A) (s : S) a s' :
  reads f s = (Ok a, s') <-> f s = Ok a /\ s' = s.
Proof. unfold reads. split; [by intros [= -> ->]|by intros [-> ->]]. Qed.

Lemma lift_step {A B} (r : Result E A) (k : A -> ST S E B) (s : S) a :
  r = Ok a -> bind (lift r) k s = k a s.
Proof. by intros ->. Qed.

Lemma atomic_Ok {A} (m : ST S E A) s a s' :
  atomic m s = (Ok a, s') <-> m s = (Ok a, s').
Proof. unfold atomic. destruct (m s) as [[?|?] ?]; naive_solver. Qed.

Lemma atomic_Err {A} (m : ST S E A) s e s' : atomic m s = (Err e, s') -> s' = s.
Proof. unfold atomic. destruct (m s) as [[?|?] ?]; naive_solver. Qed.

Lemma map_err_st_Ok {F A} (f : E -> F) (m : ST S E A) s a s' :
  map_err_st f m s = (Ok a, s') <-> m s = (Ok a, s').
Proof. unfold map_err_st. destruct (m s) as [[?|?] ?]; naive_solver. Qed.

Lemma zoom_fst_Ok {T A} (m : ST S E A) (st : S * T) a st' :
  zoom_fst m st = (Ok a, st') <-> m st.1 = (Ok a, st'.1) /\ st'.2 = st.2.
Proof. unfold zoom_fst. destruct (m st.1) as [r s], st, st'. naive_solver. Qed.

Lemma zoom_snd_Ok {T A} (m : ST S E A) (st : T * S) a st' :
  zoom_snd m st = (Ok a, st') <-> m st.2 = (Ok a, st'.2) /\ st'.1 = st.1.
Proof. unfold zoom_snd. destruct (m st.2) as [r s], st, st'. naive_solver. Qed.

Lemma for_each_Ok {A} (f : A -> Result E unit) l u :
  for_each f l = Ok u <-> forall x, x ∈ l -> f x = Ok tt.
Proof.
  destruct u. induction l as [|y l IH]; simpl.
  - split; [intros _ x Hx; by apply elem_of_nil in Hx|done].
  - rewrite rbind_Ok. setoid_rewrite elem_of_cons. split.
    + intros ([] & Hy & Hl) x [->|Hx]; [done|by apply IH].
    + intros H. exists tt. split; [by apply H; left|]. apply IH. intros x Hx. apply H. by right.
Qed.

End inversion.

(** Case analysis on a successful run: the hypothesis [H], an equation whose
    right-hand side is [Ok _] or [(Ok _, _)], is taken apart down to the facts
    its guards and checked operations establish. *)
Ltac inv_pair H :=
  first [destruct H as [-> ->] | destruct H as [? ->] | destruct H as [? ?]].

Ltac inv_step H :=
  lazymatch type of H with
  | rbind _ _ = Ok _ => apply rbind_Ok in H; destruct H as (? & ? & H)
  | rmap _ _ = Ok _ => apply rmap_Ok in H; destruct H as (? & H & ?)
  | map_err _ _ = Ok _ => apply map_err_Ok in H
  | bind get _ _ = (Ok _, _) => rewrite bind_get in H
  | bind (modify _) _ _ = (Ok _, _) => rewrite bind_modify in H
  | bind _ _ _ = (Ok _, _) => apply bind_Ok in H; destruct H as (? & ? & ? & H)
  | atomic _ _ = (Ok _, _) => apply atomic_Ok in H
  | lift _ _ = (Ok _, _) => apply lift_Ok in H; (destruct H as [H ->] || destruct H as [H ?])
  | reads _ _ = (Ok _, _) => apply reads_Ok in H; (destruct H as [H ->] || destruct H as [H ?])
  | get _ = (Ok _, _) => apply get_Ok in H; inv_pair H
  | gets _ _ = (Ok _, _) => apply gets_Ok in H; inv_pair H
  | modify _ _ = (Ok _, _) => apply modify_Ok in H; inv_pair H
  | ret _ _ = (Ok _, _) => apply ret_Ok in H; inv_pair H
  | throw _ _ = (Ok _, _) => discriminate H
  | ensure _ _ = Ok _ => apply ensure_Ok in H
  | ok_or _ _ = Ok _ => apply ok_or_Ok in H
  | checked_add _ _ _ = Some _ => apply checked_add_Some in H; destruct H as [-> ?]
  | checked_sub _ _ = Some _ => apply checked_sub_Some in H; destruct H as [-> ?]
  | checked_mul _ _ _ = Some _ => apply checked_mul_Some in H; destruct H as [-> ?]
  | Ok _ = Ok _ => injection H as H
  | (_, _) = (_, _) => injection H as ? ?
  | Err _ = Ok _ => discriminate H
  | (Err _, _) = (Ok _, _) => discriminate H
  end.

Ltac inv_all :=
  repeat match goal with
  | H : rbind _ _ = Ok _ |- _ => inv_step H
  | H : rmap _ _ = Ok _ |- _ => inv_step H
  | H : map_err _ _ = Ok _ |- _ => inv_step H
  | H : bind _ _ _ = (Ok _, _) |- _ => inv_step H
  | H : atomic _ _ = (Ok _, _) |- _ => inv_step H
  | H : lift _ _ = (Ok _, _) |- _ => inv_step H
  | H : reads _ _ = (Ok _, _) |- _ => inv_step H
  | H : get _ = (Ok _, _) |- _ => inv_step H
  | H : gets _ _ = (Ok _, _) |- _ => inv_step H
  | H : modify _ _ = (Ok _, _) |- _ => inv_step H
  | H : ret _ _ = (Ok _, _) |- _ => inv_step H
  | H : throw _ _ = (Ok _, _) |- _ => inv_step H
  | H : ensure _ _ = Ok _ |- _ => inv_step H
  | H : ok_or _ _ = Ok _ |- _ => inv_step H
  | H : checked_add _ _ _ = Some _ |- _ => inv_step H
  | H : checked_sub _ _ = Some _ |- _ => inv_step H
  | H : checked_mul _ _ _ = Some _ |- _ => inv_step H
  | H : Ok _ = Ok _ |- _ => inv_step H
  | H : (Ok _, _) = (Ok _, _) |- _ => inv_step H
  | H : Err _ = Ok _ |- _ => inv_step H
  | H : (Err _, _) = (Ok _, _) |- _ => inv_step H
  end.

(** [a / b] bounds that [nia] needs. *)
Lemma div_bounds a b : 0 < b -> b * (a / b) <= a < b * (a / b) + b.
Proof. intros. pose proof (Z.mod_pos_bound a b). pose proof (Z.div_mod a b). lia. Qed.

(** Boolean tests in the hypotheses, as propositions. *)
Ltac to_prop :=
  repeat match goal with
  | H : (_ <? _) = true |- _ => apply Z.ltb_lt in H
  | H : (_ <? _) = false |- _ => apply Z.ltb_ge in H
  | H : (_ <=? _) = true |- _ => apply Z.leb_le in H
  | H : (_ <=? _) = false |- _ => apply Z.leb_gt in H
  | H : (_ =? _) = true |- _ => apply Z.eqb_eq in H
  | H : (_ =? _) = false |- _ => apply Z.eqb_neq in H
  | H : (_ && _) = true |- _ => apply andb_prop in H; destruct H
  | H : (_ || _) = false |- _ => apply orb_false_elim in H; destruct H
  | H : negb _ = true |- _ => apply negb_true_iff in H
  | H : negb _ = false |- _ => apply negb_false_iff in H
  | H : bool_decide _ = true |- _ => apply bool_decide_eq_true in H
  | H : bool_decide _ = false |- _ => apply bool_decide_eq_false in H
  end.

(** Case analysis on a decision of the goal (and of the goal only). *)
Ltac goal_decide :=
  match goal with |- context [decide ?P] => destruct (decide P) end.
