(* ===== verification/Keyed.v ===== *)
(** * Vectors of records searched by a key

    The cores keep their tables as [Vec]s of records and look them up with
    [iter().find(|r| r.key == k)], update them in place through
    [iter_mut().find(..)] and drop rows with [position(..)] then [remove(idx)].
    This file gives these three access patterns and the lemmas that all the
    components share: lookups after an update, key lists, and sums over a
    table (the conservation arguments are statements about such sums). *)

From S2P Require Import Prelude.

Section keyed.
Context {K V : Type} `{EqDecision K} (key : V -> K).

(** [l.iter().find(|v| key(v) == k)] *)
Fixpoint find_key (k : K) (l : list V) : option V :=
  match l with
  | [] => None
  | v :: l => if decide (key v = k) then Some v else find_key k l
  end.

(** [l.iter_mut().find(|v| key(v) == k)] followed by a write through the reference *)
Fixpoint alter_key (k : K) (f : V -> V) (l : list V) : list V :=
  match l with
  | [] => []
  | v :: l => if decide (key v = k) then f v :: l else v :: alter_key k f l
  end.

(** [l.remove(l.iter().position(|v| key(v) == k)?)] *)
Fixpoint remove_key (k : K) (l : list V) : list V :=
  match l with
  | [] => []
  | v :: l => if decide (key v = k) then l else v :: remove_key k l
  end.

Definition keys (l : list V) : list K := key <$> l.

Lemma find_key_Some k l v : find_key k l = Some v -> key v = k /\ v ∈ l.
Proof.
  induction l as [|w l IH]; simpl; [done|].
  case_decide; intros; simplify_eq; [by split; [|left]|].
  destruct IH; auto. split; [done|by right].
Qed.

Lemma find_key_None k l : find_key k l = None <-> k ∉ keys l.
Proof.
  unfold keys. induction l as [|w l IH]; simpl; [split; [intros _; apply not_elem_of_nil|done]|].
  rewrite not_elem_of_cons. case_decide; [naive_solver|]. rewrite IH. naive_solver.
Qed.

Lemma find_key_elem l v : NoDup (keys l) -> v ∈ l -> find_key (key v) l = Some v.
Proof.
  unfold keys. induction l as [|w l IH]; intros Hnd Hv; [by apply elem_of_nil in Hv|].
  rewrite fmap_cons, NoDup_cons in Hnd. destruct Hnd as [Hw Hnd].
  simpl. apply elem_of_cons in Hv as [->|Hv]; [by rewrite decide_True|].
  rewrite decide_False; [by apply IH|]. intros Heq. apply Hw. rewrite Heq.
  by apply list_elem_of_fmap_2.
Qed.

Lemma find_key_app k l1 l2 :
  find_key k (l1 ++ l2) = match find_key k l1 with Some v => Some v | None => find_key k l2 end.
Proof. induction l1 as [|w l1 IH]; simpl; [done|]. by case_decide. Qed.

Lemma keys_app l1 l2 : keys (l1 ++ l2) = keys l1 ++ keys l2.
Proof. apply fmap_app. Qed.

Lemma keys_alter k f l : (forall v, key (f v) = key v) -> keys (alter_key k f l) = keys l.
Proof.
  unfold keys. intros Hf. induction l as [|w l IH]; simpl; [done|].
  case_decide; simpl; f_equal; [apply Hf|apply IH].
Qed.

Lemma find_key_alter_eq k f l v :
  key (f v) = key v -> find_key k l = Some v -> find_key k (alter_key k f l) = Some (f v).
Proof.
  intros Hf. induction l as [|w l IH]; simpl; [done|].
  case_decide; intros; simplify_eq; simpl; [by rewrite decide_True|by rewrite decide_False; auto].
Qed.

Lemma find_key_alter_ne k k' f l :
  (forall v, key (f v) = key v) -> k <> k' -> find_key k' (alter_key k f l) = find_key k' l.
Proof.
  intros Hf Hne. induction l as [|w l IH]; simpl; [done|].
  case_decide; simpl; [|by rewrite IH].
  rewrite Hf. subst. by rewrite !decide_False.
Qed.

Lemma find_key_remove_ne k k' l : k <> k' -> find_key k' (remove_key k l) = find_key k' l.
Proof.
  intros Hne. induction l as [|w l IH]; simpl; [done|].
  case_decide; simpl; [|by rewrite IH]. subst. by rewrite decide_False.
Qed.

Lemma remove_sublist k l : sublist (remove_key k l) l.
Proof.
  induction l as [|w l IH]; simpl; [constructor|].
  case_decide; [by apply sublist_cons|by constructor].
Qed.

Lemma keys_remove_NoDup k l : NoDup (keys l) -> NoDup (keys (remove_key k l)).
Proof. intros H. eapply sublist_NoDup; [exact H|]. apply fmap_sublist, remove_sublist. Qed.

Lemma find_key_remove_eq k l : NoDup (keys l) -> find_key k (remove_key k l) = None.
Proof.
  unfold keys. induction l as [|w l IH]; simpl; [done|]. rewrite NoDup_cons. intros [Hw Hnd].
  case_decide; simpl; [by apply find_key_None; subst|].
  rewrite decide_False by done. auto.
Qed.

Lemma elem_of_remove k l v : v ∈ remove_key k l -> v ∈ l.
Proof. intros Hv. eapply elem_of_sublist; [exact Hv|apply remove_sublist]. Qed.

Lemma elem_of_alter k f l v :
  v ∈ alter_key k f l -> v ∈ l \/ exists w, find_key k l = Some w /\ v = f w.
Proof.
  induction l as [|w l IH]; simpl; [by left|].
  case_decide; rewrite !elem_of_cons; naive_solver.
Qed.

(** Rows other than the altered one, in a table without duplicate keys. *)
Lemma elem_of_alter_NoDup k f l v :
  NoDup (keys l) -> (forall w, key (f w) = key w) -> v ∈ alter_key k f l ->
  (key v <> k /\ v ∈ l) \/ exists w, find_key k l = Some w /\ v = f w.
Proof.
  intros Hnd Hf Hv.
  assert (Hnd' : NoDup (keys (alter_key k f l))) by by rewrite keys_alter.
  pose proof (find_key_elem _ _ Hnd' Hv) as Hfind.
  destruct (decide (key v = k)) as [Hk|Hk].
  - right. rewrite Hk in Hfind. destruct (find_key k l) as [w|] eqn:Hw.
    + rewrite (find_key_alter_eq k f l w) in Hfind by done. naive_solver.
    + apply find_key_None in Hw. exfalso. apply Hw. rewrite <- Hk.
      rewrite <- (keys_alter k f l) by done. by apply list_elem_of_fmap_2.
  - left. split; [done|]. rewrite (find_key_alter_ne k (key v) f l Hf (not_eq_sym Hk)) in Hfind.
    by apply find_key_Some in Hfind as [_ ?].
Qed.

(** [l.iter().map(m).sum()] *)
Fixpoint sum_by (m : V -> Z) (l : list V) : Z :=
  match l with
  | [] => 0
  | v :: l => m v + sum_by m l
  end.

Lemma sum_by_app m l1 l2 : sum_by m (l1 ++ l2) = sum_by m l1 + sum_by m l2.
Proof. induction l1 as [|w l1 IH]; simpl; lia. Qed.

Lemma sum_by_nonneg m l : (forall v, v ∈ l -> 0 <= m v) -> 0 <= sum_by m l.
Proof.
  induction l as [|w l IH]; simpl; intros H; [lia|].
  pose proof (H w ltac:(left)). pose proof (IH ltac:(intros; apply H; by right)). lia.
Qed.

Lemma sum_by_ge m l v : (forall v, v ∈ l -> 0 <= m v) -> v ∈ l -> m v <= sum_by m l.
Proof.
  induction l as [|w l IH]; intros H Hv; [by apply elem_of_nil in Hv|]. simpl.
  pose proof (H w ltac:(left)).
  pose proof (sum_by_nonneg m l ltac:(intros; apply H; by right)).
  apply elem_of_cons in Hv as [->|Hv]; [lia|].
  pose proof (IH ltac:(intros; apply H; by right) Hv). lia.
Qed.

Lemma sum_by_ext m m' l : (forall v, v ∈ l -> m v = m' v) -> sum_by m l = sum_by m' l.
Proof.
  induction l as [|w l IH]; simpl; intros H; [done|].
  rewrite (H w) by left. rewrite IH; [done|]. intros. apply H. by right.
Qed.

Lemma sum_by_zero m l : (forall v, v ∈ l -> m v = 0) -> sum_by m l = 0.
Proof.
  induction l as [|w l IH]; simpl; intros H; [done|].
  rewrite (H w) by left. rewrite IH; [done|]. intros. apply H. by right.
Qed.

Lemma sum_by_alter m k f l v :
  find_key k l = Some v -> sum_by m (alter_key k f l) = sum_by m l - m v + m (f v).
Proof.
  induction l as [|w l IH]; simpl; [done|].
  case_decide; intros; simplify_eq; simpl; [lia|]. rewrite IH by done. lia.
Qed.

Lemma sum_by_remove m k l v :
  find_key k l = Some v -> sum_by m (remove_key k l) = sum_by m l - m v.
Proof.
  induction l as [|w l IH]; simpl; [done|].
  case_decide; intros; simplify_eq; simpl; [lia|]. rewrite IH by done. lia.
Qed.

Lemma alter_key_id k l : alter_key k (fun v => v) l = l.
Proof. induction l as [|w l IH]; simpl; [done|]. case_decide; [done|by rewrite IH]. Qed.

Lemma alter_key_alter k f g l :
  (forall v, key (f v) = key v) -> alter_key k g (alter_key k f l) = alter_key k (fun v => g (f v)) l.
Proof.
  intros Hf. induction l as [|w l IH]; simpl; [done|].
  case_decide; simpl; [by rewrite decide_True; rewrite ?Hf|by rewrite decide_False, IH].
Qed.

Lemma alter_key_ext k f g l v :
  find_key k l = Some v -> f v = g v -> alter_key k f l = alter_key k g l.
Proof.
  induction l as [|w l IH]; simpl; [done|].
  case_decide; intros; simplify_eq; [congruence|]. by rewrite IH.
Qed.

Lemma alter_key_absent k f l : find_key k l = None -> alter_key k f l = l.
Proof. induction l as [|w l IH]; simpl; [done|]. case_decide; [done|]. intros. by rewrite IH. Qed.

End keyed.

(** Counting and summing the rows that satisfy a test. *)
Lemma length_filter_sum {V} (P : V -> Prop) `{forall v, Decision (P v)} (l : list V) :
  Z.of_nat (length (filter P l)) = sum_by (fun v => if decide (P v) then 1 else 0) l.
Proof.
  induction l as [|w l IH]; [done|]. rewrite filter_cons. simpl.
  case_decide; simpl length; lia.
Qed.

Lemma filter_sum {V} (P : V -> Prop) `{forall v, Decision (P v)} (m : V -> Z) (l : list V) :
  sum_by m (filter P l) = sum_by (fun v => if decide (P v) then m v else 0) l.
Proof.
  induction l as [|w l IH]; [done|]. rewrite filter_cons. simpl.
  case_decide; simpl; lia.
Qed.

(** A checked sum over a list succeeds when the total fits. *)
Lemma try_fold_sum {E V} (e : E) (w : Z) (m : V -> Z) (l : list V) acc :
  (forall v, v ∈ l -> 0 <= m v) -> 0 <= acc -> acc + sum_by m l < w ->
  try_fold (fun acc v => ok_or e (checked_add w acc (m v))) acc l = Ok (acc + sum_by m l).
Proof.
  revert acc. induction l as [|v l IH]; intros acc Hm Hacc Hlt; simpl in *; [f_equal; lia|].
  pose proof (Hm v ltac:(left)).
  pose proof (sum_by_nonneg m l ltac:(intros; apply Hm; by right)).
  destruct (checked_add w acc (m v)) as [c|] eqn:Hc; simpl.
  - apply checked_add_Some in Hc as [-> _]. rewrite IH; [f_equal; lia| |lia|lia].
    intros. apply Hm. by right.
  - apply checked_add_None in Hc. lia.
Qed.

Lemma try_fold_checked {E V} (e : E) (w : Z) (m : V -> Z) (l : list V) acc t :
  try_fold (fun acc v => ok_or e (checked_add w acc (m v))) acc l = Ok t -> t = acc + sum_by m l.
Proof.
  revert acc. induction l as [|v l IH]; intros acc; cbn; [intros [= ->]; lia|].
  destruct (checked_add w acc (m v)) eqn:Hc; cbn; [|done]. intros Ht.
  apply checked_add_Some in Hc as [-> _]. apply IH in Ht. lia.
Qed.

(** ** Pairwise checks *)

(** [for i in 0..n { for j in (i+1)..n { .. } }] *)
Fixpoint for_pairs {E T} (f : T -> T -> Result E unit) (l : list T) : Result E unit :=
  match l with
  | [] => Ok tt
  | x :: rest => do? for_each (f x) rest in for_pairs f rest
  end.

Lemma for_pairs_NoDup {E T K} `{EqDecision K} (f : T -> K) (e : E) l :
  for_pairs (fun x y => ensure (negb (bool_decide (f x = f y))) e) l = Ok tt <-> NoDup (f <$> l).
Proof.
  induction l as [|x l IH]; [split; [constructor|done]|].
  cbn [for_pairs]. rewrite fmap_cons, NoDup_cons, <- IH, rbind_Ok. split.
  - intros ([] & H1 & H2). split; [|done]. rewrite list_elem_of_fmap. intros (y & Ey & Hy).
    rewrite for_each_Ok in H1. specialize (H1 y Hy). rewrite ensure_Ok in H1.
    by rewrite bool_decide_eq_true_2 in H1.
  - intros [H1 H2]. exists tt. split; [|done]. apply for_each_Ok. intros y Hy.
    apply ensure_true. rewrite bool_decide_eq_false_2; [done|]. intros Ef. apply H1, list_elem_of_fmap. by exists y.
Qed.

(** ** Membership, filters and bounds *)

Lemma forallb_elem {T} (f : T -> bool) l : forallb f l = true <-> forall x, x ∈ l -> f x = true.
Proof. rewrite forallb_forall. by setoid_rewrite list_elem_of_In. Qed.

Lemma existsb_elem {T} (f : T -> bool) l : existsb f l = true <-> exists x, x ∈ l /\ f x = true.
Proof. rewrite existsb_exists. setoid_rewrite <- list_elem_of_In. done. Qed.

Lemma existsb_none {T} (f : T -> bool) l : existsb f l = false <-> forall x, x ∈ l -> f x = false.
Proof.
  rewrite <- not_true_iff_false, existsb_elem. split.
  - intros H x Hx. apply not_true_iff_false. naive_solver.
  - intros H (x & Hx & E). rewrite (H x Hx) in E. done.
Qed.

Lemma elem_of_keys {K V} (key : V -> K) k l : k ∈ keys key l <-> exists v, v ∈ l /\ key v = k.
Proof. unfold keys. rewrite list_elem_of_fmap. naive_solver. Qed.

Lemma elem_of_remove_ne {K V} `{EqDecision K} (key : V -> K) k l v :
  NoDup (keys key l) -> v ∈ l -> key v <> k -> v ∈ remove_key key k l.
Proof.
  intros Hn Hv Hk. eapply (find_key_Some key (key v)). rewrite find_key_remove_ne by done. by apply find_key_elem.
Qed.

Lemma elem_of_remove_key {K V} `{EqDecision K} (key : V -> K) k l v :
  NoDup (keys key l) -> v ∈ remove_key key k l -> v ∈ l /\ key v <> k.
Proof.
  intros Hn Hv. split; [by eapply elem_of_remove|]. intros E.
  pose proof (find_key_remove_eq key k l Hn) as Hf. apply find_key_None in Hf. apply Hf, elem_of_keys. eauto.
Qed.

Lemma keys_filter_NoDup {K V} (key : V -> K) (P : V -> Prop) `{forall v, Decision (P v)} l :
  NoDup (keys key l) -> NoDup (keys key (filter P l)).
Proof. intros Hn. eapply sublist_NoDup; [exact Hn|]. apply fmap_sublist, sublist_filter. Qed.

(** A row that replaces the row of its own key. *)
Lemma keys_alter_row {K V} `{EqDecision K} (key : V -> K) k v l :
  key v = k -> keys key (alter_key key k (fun _ => v) l) = keys key l.
Proof.
  intros Hv. unfold keys. induction l as [|w l IH]; cbn; [done|]. case_decide; cbn; congruence.
Qed.

Lemma length_alter_key {K V} `{EqDecision K} (key : V -> K) k f l : length (alter_key key k f l) = length l.
Proof. induction l as [|v l IH]; cbn; [done|]. case_decide; cbn; congruence. Qed.

Lemma forallb_none {V} (P : V -> Z) e l : forallb (fun v => negb (P v =? e)) l = true <-> e ∉ P <$> l.
Proof.
  rewrite forallb_forall, list_elem_of_fmap. setoid_rewrite <- list_elem_of_In.
  setoid_rewrite negb_true_iff. setoid_rewrite Z.eqb_neq. naive_solver.
Qed.

Lemma sum_by_le {V} (m : V -> Z) b l : (forall v, v ∈ l -> m v <= b) -> sum_by m l <= b * Z.of_nat (length l).
Proof.
  induction l as [|v l IH]; intros H; cbn [sum_by length]; [lia|].
  pose proof (H v ltac:(by left)). specialize (IH ltac:(intros; apply H; by right)). lia.
Qed.

Lemma fold_sat_add {V} (m : V -> Z) l acc :
  0 <= acc -> (forall v, v ∈ l -> 0 <= m v) -> acc + sum_by m l < U64 ->
  fold_left (fun acc v => sat_add U64 acc (m v)) l acc = acc + sum_by m l.
Proof.
  revert acc. induction l as [|v l IH]; intros acc Ha Hm Hlt; cbn [fold_left sum_by] in *; [lia|].
  pose proof (Hm v ltac:(by left)). pose proof (sum_by_nonneg m l ltac:(intros; apply Hm; by right)).
  unfold sat_add at 2. rewrite Z.min_l, IH by (try lia; intros; apply Hm; by right). lia.
Qed.

Lemma filter_alter_other {K V} `{EqDecision K} (key : V -> K) (P : V -> Prop) `{forall v, Decision (P v)} k f l :
  (forall v, v ∈ l -> key v = k -> ~ P v /\ ~ P (f v)) -> filter P (alter_key key k f l) = filter P l.
Proof.
  induction l as [|v l IH]; intros Hf; [done|]. cbn [alter_key]. case_decide as E.
  - destruct (Hf v ltac:(by left) E). by rewrite !filter_cons, !decide_False.
  - rewrite !filter_cons, IH; [done|]. intros w Hw. apply Hf. by right.
Qed.

Lemma filter_all_false {V} (P : V -> Prop) `{forall v, Decision (P v)} l :
  (forall v, v ∈ l -> ~ P v) -> filter P l = [].
Proof.
  induction l as [|v l IH]; intros Hf; [done|]. rewrite filter_cons, decide_False by (apply Hf; by left).
  apply IH. intros w Hw. apply Hf. by right.
Qed.

Lemma length_bounded {V} (f : V -> Z) l n :
  NoDup (f <$> l) -> (forall v, v ∈ l -> 0 <= f v < n) -> Z.of_nat (length l) <= Z.max 0 n.
Proof.
  intros Hn Hb. rewrite <- (length_fmap f l).
  assert (length (f <$> l) <= length (seqZ 0 n))%nat.
  { apply submseteq_length, NoDup_submseteq; [done|]. intros x (v & -> & Hv)%list_elem_of_fmap.
    apply elem_of_seqZ. specialize (Hb v Hv). lia. }
  rewrite length_seqZ in *. lia.
Qed.
