(* ===== verification/Primitives.v ===== *)
(** * Shared vocabulary of the cores (crates/futarchy-primitives)

    The identifiers, enumerations and kernel constants that the ledger and
    the market use.  Balances, ids and scores are [Z]s in the range of their
    Rust type. *)

From S2P Require Import Prelude.

Abbreviation Balance := Z (only parsing).
Abbreviation ProposalId := Z (only parsing).
Abbreviation EpochId := Z (only parsing).
Abbreviation MarketId := Z (only parsing).
Abbreviation MetricSpecVersion := Z (only parsing).
Abbreviation BlockNumber := Z (only parsing).
(** [[u8; 32]], only compared. *)
Abbreviation AccountId := Z (only parsing).
(** [FixedU64(u64)]: a 1e9-scaled score or price. *)
Abbreviation FixedU64 := Z (only parsing).

Inductive Branch : Type :=
| Accept
| Reject.

Inductive ScalarSide : Type :=
| SideLong
| SideShort.

Inductive GateType : Type :=
| Survival
| Security.

Inductive PositionKind : Type :=
| BranchUsdc
| Long
| Short
| GateYes (g : GateType)
| GateNo (g : GateType).

Inductive PositionId : Type :=
| PosProposal (proposal : ProposalId) (branch : Branch) (kind : PositionKind)
| PosBaseline (epoch : EpochId) (side : ScalarSide).

Inductive VaultState : Type :=
| Open
| Resolved (w : Branch)
| ScalarSettled (winner : Branch) (s : FixedU64)
| Voided
| VaultBaselineSettled (s : FixedU64).

Inductive TradeSide : Type :=
| BuyLong
| BuyShort
| SellLong
| SellShort.

Record QuoteView : Type := {
  qv_cost : Balance;
  qv_fee : Balance;
  qv_p_after_1e9 : FixedU64;
  qv_max_trade : Balance;
  qv_within_domain : bool;
  qv_evaluable : bool;
}.

#[export] Instance Branch_eq_dec : EqDecision Branch.
Proof. solve_decision. Defined.
#[export] Instance ScalarSide_eq_dec : EqDecision ScalarSide.
Proof. solve_decision. Defined.
#[export] Instance GateType_eq_dec : EqDecision GateType.
Proof. solve_decision. Defined.
#[export] Instance PositionKind_eq_dec : EqDecision PositionKind.
Proof. solve_decision. Defined.
#[export] Instance PositionId_eq_dec : EqDecision PositionId.
Proof. solve_decision. Defined.
#[export] Instance VaultState_eq_dec : EqDecision VaultState.
Proof. solve_decision. Defined.

(** Kernel constants ([kernel], [currency] modules of the crate). *)
Definition SCORE_SCALE : Z := 1000000000.
Definition USDC_CENT : Z := 10000.
Definition MIN_SPLIT_USDC : Z := USDC_CENT.
Definition MIN_TRANSFER_USDC : Z := USDC_CENT.
Definition MIN_TRADE_USDC : Z := 1000000.
Definition MAX_TRADE_RATIO : Z * Z := (1, 4).
Definition MKT_STALE_GAP_BLOCKS : Z := 50.
Definition POSITION_DEPOSIT_USDC : Z := 100000.
Definition LMSR_DOMAIN_BOUND : Z := 48.
