(* ===== verification/Ledger.v ===== *)
(** * The conditional ledger (crates/conditional-ledger-core)

    Data, state and every operation of the ledger, each a method on the state
    ([ST] of Prelude): a body that fails half-way has already written, and the
    public operations restore the old state through [atomically], as the code
    does.  Invariants and theorems are in LedgerVault, LedgerInv and
    LedgerProps. *)

From S2P Require Import Prelude Keyed Primitives.

Definition MAX_POSITIONS_PER_ACCOUNT : Z := 64.
Definition SCALE_1E9 : Z := SCORE_SCALE.

Record BranchSupply : Type := {
  bs_usdc : Balance;
  bs_scalar_sets : Balance;
  bs_gate_sets : arr2 Balance;
}.

Record VaultInfo : Type := {
  vi_escrowed : Balance;
  vi_branches : arr2 BranchSupply;
  vi_state : VaultState;
  vi_gate_outcomes : arr2 (option bool);
  vi_spec : MetricSpecVersion;
}.

Definition BranchSupply_zero : BranchSupply :=
  {| bs_usdc := 0; bs_scalar_sets := 0; bs_gate_sets := (0, 0) |}.

(** [VaultInfo::open] *)
Definition VaultInfo_open (spec : MetricSpecVersion) : VaultInfo :=
  {| vi_escrowed := 0;
     vi_branches := (BranchSupply_zero, BranchSupply_zero);
     vi_state := Open;
     vi_gate_outcomes := (None, None);
     vi_spec := spec |}.

Inductive BaselineState : Type :=
| BaselineOpen
| BaselineSettled (s : FixedU64).

Record BaselineVaultInfo : Type := {
  bv_escrowed : Balance;
  bv_sets : Balance;
  bv_state : BaselineState;
}.

(** [BaselineVaultInfo::open] *)
Definition BaselineVaultInfo_open : BaselineVaultInfo :=
  {| bv_escrowed := 0; bv_sets := 0; bv_state := BaselineOpen |}.

Inductive LedgerOrigin : Type :=
| Signed
| MarketAuthority
| ResolveAuthority
| SettleAuthority
| Root.

Inductive LedgerEvent : Type :=
| EvSplit (pid : ProposalId) (a : Balance)
| EvMerged (pid : ProposalId) (a : Balance)
| EvScalarSplit (pid : ProposalId) (b : Branch) (a : Balance)
| EvScalarMerged (pid : ProposalId) (b : Branch) (a : Balance)
| EvGateSplit (pid : ProposalId) (b : Branch) (g : GateType) (a : Balance)
| EvGateMerged (pid : ProposalId) (b : Branch) (g : GateType) (a : Balance)
| EvPositionTransferred (id : PositionId) (a : Balance)
| EvBaselineSplit (e : EpochId) (a : Balance)
| EvBaselineMerged (e : EpochId) (a : Balance)
| EvVaultResolved (pid : ProposalId) (w : Branch)
| EvVaultVoided (pid : ProposalId)
| EvScalarSettlementSet (pid : ProposalId) (w : Branch) (s : FixedU64)
| EvGateSettled (pid : ProposalId) (w : Branch) (g : GateType) (outcome : bool)
| EvBaselineSettled (e : EpochId) (s : FixedU64)
| EvRedeemed (pid : ProposalId) (a : Balance)
| EvScalarRedeemed (pid : ProposalId) (side : ScalarSide) (pay : Balance)
| EvScalarPairRedeemed (pid : ProposalId) (a : Balance)
| EvGateRedeemed (pid : ProposalId) (g : GateType) (a : Balance)
| EvVoidRedeemed (pid : ProposalId) (k : PositionKind) (a pay : Balance)
| EvBaselineRedeemed (e : EpochId) (side : ScalarSide) (pay : Balance)
| EvVaultReaped (pid : ProposalId) (a : Balance)
| EvBaselineVaultReaped (e : EpochId) (a : Balance).

Inductive LedgerError : Type :=
| BadOrigin
| UnknownVault
| UnknownBaselineVault
| WrongVaultState
| AmountTooSmall
| ArithmeticOverflow
| InsufficientPosition
| PositionCapExceeded
| InvalidScore
| GateAlreadySettled
| GateNotSettled
| TryStateViolation.

(** ** Small helpers of the crate *)

Definition position (pid : ProposalId) (b : Branch) (k : PositionKind) : PositionId :=
  PosProposal pid b k.

Definition baseline (e : EpochId) (side : ScalarSide) : PositionId := PosBaseline e side.

Definition bix (b : Branch) : nat := match b with Accept => 0%nat | Reject => 1%nat end.
Definition gix (g : GateType) : nat := match g with Survival => 0%nat | Security => 1%nat end.

Definition add (a b : Balance) : Result LedgerError Balance :=
  ok_or ArithmeticOverflow (checked_add U128 a b).
Definition sub (a b : Balance) : Result LedgerError Balance :=
  ok_or ArithmeticOverflow (checked_sub a b).

Definition mul_score (a s : Z) : Result LedgerError Balance :=
  rmap (fun v => v / SCALE_1E9) (ok_or ArithmeticOverflow (checked_mul U128 a s)).

Definition ensure_score (s : FixedU64) : Result LedgerError unit :=
  ensure (s <=? SCALE_1E9) InvalidScore.

Definition ensure_signed_or_market (o : LedgerOrigin) : Result LedgerError unit :=
  ensure (match o with Signed | MarketAuthority | Root => true | _ => false end) BadOrigin.

Definition ensure_settle (o : LedgerOrigin) : Result LedgerError unit :=
  ensure (match o with SettleAuthority | Root => true | _ => false end) BadOrigin.

Definition ensure_resolve (o : LedgerOrigin) : Result LedgerError unit :=
  ensure (match o with ResolveAuthority | Root => true | _ => false end) BadOrigin.

(** The state tests the operations [matches!] on. *)
Definition is_open (st : VaultState) : bool :=
  match st with Open => true | _ => false end.
Definition is_live (st : VaultState) : bool :=
  match st with Open | Resolved _ | Voided => true | _ => false end.
Definition is_voided (st : VaultState) : bool :=
  match st with Voided => true | _ => false end.
Definition is_base_open (st : BaselineState) : bool :=
  match st with BaselineOpen => true | _ => false end.

(** [1 - s] on the 1e9 grid, at the width of the code's [u128]. *)
Definition score_complement (s : FixedU64) : Z := wrap U128 (SCALE_1E9 - s).

Definition side_score (side : ScalarSide) (s : FixedU64) : Z :=
  match side with SideLong => s | SideShort => score_complement s end.

Definition side_kind (side : ScalarSide) : PositionKind :=
  match side with SideLong => Long | SideShort => Short end.

(** Canonical 14-instrument order of a proposal vault and the two legs of a
    Baseline vault. *)
Definition proposal_positions (proposal : ProposalId) : list PositionId :=
  (fun index =>
    let branch := if (index <? 7)%nat then Accept else Reject in
    let kind :=
      match (index mod 7)%nat with
      | 0%nat => BranchUsdc
      | 1%nat => Long
      | 2%nat => Short
      | 3%nat => GateYes Survival
      | 4%nat => GateNo Survival
      | 5%nat => GateYes Security
      | _ => GateNo Security
      end in
    position proposal branch kind) <$> seq 0 14.

Definition baseline_positions (e : EpochId) : list PositionId :=
  [baseline e SideLong; baseline e SideShort].

(** ** Field updates *)

Definition set_usdc (x : Balance) (bs : BranchSupply) : BranchSupply :=
  {| bs_usdc := x; bs_scalar_sets := bs_scalar_sets bs; bs_gate_sets := bs_gate_sets bs |}.
Definition set_scalar_sets (x : Balance) (bs : BranchSupply) : BranchSupply :=
  {| bs_usdc := bs_usdc bs; bs_scalar_sets := x; bs_gate_sets := bs_gate_sets bs |}.
Definition set_gate_set (i : nat) (x : Balance) (bs : BranchSupply) : BranchSupply :=
  {| bs_usdc := bs_usdc bs; bs_scalar_sets := bs_scalar_sets bs;
     bs_gate_sets := arr2_set (bs_gate_sets bs) i x |}.

Definition set_escrowed (x : Balance) (v : VaultInfo) : VaultInfo :=
  {| vi_escrowed := x; vi_branches := vi_branches v; vi_state := vi_state v;
     vi_gate_outcomes := vi_gate_outcomes v; vi_spec := vi_spec v |}.
Definition set_branch (i : nat) (f : BranchSupply -> BranchSupply) (v : VaultInfo) : VaultInfo :=
  {| vi_escrowed := vi_escrowed v;
     vi_branches := arr2_set (vi_branches v) i (f (arr2_get (vi_branches v) i));
     vi_state := vi_state v; vi_gate_outcomes := vi_gate_outcomes v; vi_spec := vi_spec v |}.
Definition set_state (st : VaultState) (v : VaultInfo) : VaultInfo :=
  {| vi_escrowed := vi_escrowed v; vi_branches := vi_branches v; vi_state := st;
     vi_gate_outcomes := vi_gate_outcomes v; vi_spec := vi_spec v |}.
Definition set_outcome (i : nat) (o : option bool) (v : VaultInfo) : VaultInfo :=
  {| vi_escrowed := vi_escrowed v; vi_branches := vi_branches v; vi_state := vi_state v;
     vi_gate_outcomes := arr2_set (vi_gate_outcomes v) i o; vi_spec := vi_spec v |}.

Definition set_bv_escrowed (x : Balance) (v : BaselineVaultInfo) : BaselineVaultInfo :=
  {| bv_escrowed := x; bv_sets := bv_sets v; bv_state := bv_state v |}.
Definition set_bv_sets (x : Balance) (v : BaselineVaultInfo) : BaselineVaultInfo :=
  {| bv_escrowed := bv_escrowed v; bv_sets := x; bv_state := bv_state v |}.
Definition set_bv_state (st : BaselineState) (v : BaselineVaultInfo) : BaselineVaultInfo :=
  {| bv_escrowed := bv_escrowed v; bv_sets := bv_sets v; bv_state := st |}.

(** ** Vault bodies: the closures the operations hand to [with_vault_mut] *)

Section vault_bodies.

(** Methods on [&mut VaultInfo] and [&mut BaselineVaultInfo]. *)
Local Abbreviation VM := (ST VaultInfo LedgerError).
Local Abbreviation BM := (ST BaselineVaultInfo LedgerError).

Definition vault_add_escrow (a : Balance) : VM unit :=
  let! v := get in
  let! e := lift (add (vi_escrowed v) a) in
  modify (set_escrowed e).

(** [v.escrowed = sub(v.escrowed, a)?]: the body of [pay_proposal]. *)
Definition vault_sub_escrow (a : Balance) : VM unit :=
  let! v := get in
  let! e := lift (sub (vi_escrowed v) a) in
  modify (set_escrowed e).

Definition vault_add_usdc (i : nat) (a : Balance) : VM unit :=
  let! v := get in
  let! u := lift (add (bs_usdc (arr2_get (vi_branches v) i)) a) in
  modify (set_branch i (set_usdc u)).

Definition vault_sub_usdc (i : nat) (a : Balance) : VM unit :=
  let! v := get in
  let! u := lift (sub (bs_usdc (arr2_get (vi_branches v) i)) a) in
  modify (set_branch i (set_usdc u)).

Definition vault_add_sets (i : nat) (a : Balance) : VM unit :=
  let! v := get in
  let! u := lift (add (bs_scalar_sets (arr2_get (vi_branches v) i)) a) in
  modify (set_branch i (set_scalar_sets u)).

Definition vault_sub_sets (i : nat) (a : Balance) : VM unit :=
  let! v := get in
  let! u := lift (sub (bs_scalar_sets (arr2_get (vi_branches v) i)) a) in
  modify (set_branch i (set_scalar_sets u)).

Definition vault_add_gates (i j : nat) (a : Balance) : VM unit :=
  let! v := get in
  let! u := lift (add (arr2_get (bs_gate_sets (arr2_get (vi_branches v) i)) j) a) in
  modify (set_branch i (set_gate_set j u)).

Definition vault_sub_gates (i j : nat) (a : Balance) : VM unit :=
  let! v := get in
  let! u := lift (sub (arr2_get (bs_gate_sets (arr2_get (vi_branches v) i)) j) a) in
  modify (set_branch i (set_gate_set j u)).

Definition ensure_vault (p : VaultState -> bool) (v : VaultInfo) : Result LedgerError unit :=
  ensure (p (vi_state v)) WrongVaultState.

Definition ensure_base (p : BaselineState -> bool) (v : BaselineVaultInfo) : Result LedgerError unit :=
  ensure (p (bv_state v)) WrongVaultState.

Definition split_vault (a : Balance) : VM unit :=
  do! reads (ensure_vault is_open) in
  do! vault_add_escrow a in
  do! vault_add_usdc 0 a in
  vault_add_usdc 1 a.

Definition merge_vault (a : Balance) : VM unit :=
  do! vault_sub_escrow a in
  do! vault_sub_usdc 0 a in
  vault_sub_usdc 1 a.

Definition split_scalar_vault (b : Branch) (a : Balance) : VM unit :=
  do! vault_sub_usdc (bix b) a in
  vault_add_sets (bix b) a.

Definition merge_scalar_vault (b : Branch) (a : Balance) : VM unit :=
  do! vault_add_usdc (bix b) a in
  vault_sub_sets (bix b) a.

Definition split_gate_vault (b : Branch) (g : GateType) (a : Balance) : VM unit :=
  do! vault_sub_usdc (bix b) a in
  vault_add_gates (bix b) (gix g) a.

Definition merge_gate_vault (b : Branch) (g : GateType) (a : Balance) : VM unit :=
  do! reads (ensure_vault is_live) in
  do! vault_add_usdc (bix b) a in
  vault_sub_gates (bix b) (gix g) a.

Definition resolve_vault (w : Branch) : VM unit :=
  do! reads (ensure_vault is_open) in
  modify (set_state (Resolved w)).

Definition void_vault : VM unit :=
  do! reads (ensure_vault (fun st => match st with Open | Resolved _ => true | _ => false end)) in
  modify (set_state Voided).

Definition settle_scalar_vault (s : FixedU64) : VM Branch :=
  let! v := get in
  match vi_state v with
  | Resolved w =>
      do! modify (set_state (ScalarSettled w s)) in
      ret w
  | _ => throw WrongVaultState
  end.

Definition settle_gate_vault (g : GateType) (outcome : bool) : VM Branch :=
  let! v := get in
  let! w :=
    match vi_state v with
    | Resolved w | ScalarSettled w _ => ret w
    | _ => throw WrongVaultState
    end in
  do! lift (ensure (match arr2_get (vi_gate_outcomes v) (gix g) with
                    | None => true
                    | Some _ => false
                    end) GateAlreadySettled) in
  do! modify (set_outcome (gix g) (Some outcome)) in
  ret w.

Definition base_sub_escrow (a : Balance) : BM unit :=
  let! v := get in
  let! e := lift (sub (bv_escrowed v) a) in
  modify (set_bv_escrowed e).

Definition base_sub_sets (a : Balance) : BM unit :=
  let! v := get in
  let! e := lift (sub (bv_sets v) a) in
  modify (set_bv_sets e).

Definition split_base (a : Balance) : BM unit :=
  do! reads (ensure_base is_base_open) in
  let! v := get in
  let! e := lift (add (bv_escrowed v) a) in
  do! modify (set_bv_escrowed e) in
  let! n := lift (add (bv_sets v) a) in
  modify (set_bv_sets n).

Definition merge_base (a : Balance) : BM unit :=
  do! reads (ensure_base is_base_open) in
  do! base_sub_escrow a in
  base_sub_sets a.

Definition settle_base (s : FixedU64) : BM unit :=
  do! reads (ensure_base is_base_open) in
  modify (set_bv_state (BaselineSettled s)).

End vault_bodies.

(** ** The ledger state *)

Record PositionRecord (A : Type) : Type := {
  pr_id : PositionId;
  pr_owner : A;
  pr_balance : Balance;
  pr_deposit : Balance;
}.
Arguments Build_PositionRecord {A}.
Arguments pr_id {A}.
Arguments pr_owner {A}.
Arguments pr_balance {A}.
Arguments pr_deposit {A}.

Record PositionCount (A : Type) : Type := {
  pc_owner : A;
  pc_count : Z;
}.
Arguments Build_PositionCount {A}.
Arguments pc_owner {A}.
Arguments pc_count {A}.

Record PositionTotal : Type := {
  pt_id : PositionId;
  pt_total : Balance;
}.

Record VaultRecord : Type := {
  vr_proposal : ProposalId;
  vr_info : VaultInfo;
}.

Record BaselineVaultRecord : Type := {
  br_epoch : EpochId;
  br_info : BaselineVaultInfo;
}.

Record LedgerState (A : Type) : Type := {
  ls_vaults : list VaultRecord;
  ls_baseline_vaults : list BaselineVaultRecord;
  ls_positions : list (PositionRecord A);
  ls_position_counts : list (PositionCount A);
  ls_position_totals : list PositionTotal;
  ls_deposits_held : Balance;
  ls_events : list LedgerEvent;
  ls_protocol_accounts : list A;
}.
Arguments Build_LedgerState {A}.
Arguments ls_vaults {A}.
Arguments ls_baseline_vaults {A}.
Arguments ls_positions {A}.
Arguments ls_position_counts {A}.
Arguments ls_position_totals {A}.
Arguments ls_deposits_held {A}.
Arguments ls_events {A}.
Arguments ls_protocol_accounts {A}.

Section ledger.
Context {A : Type} `{EqDecision A}.

Local Abbreviation LS := (LedgerState A).
Local Abbreviation LM := (ST (LedgerState A) LedgerError).

(** [LedgerState::new] *)
Definition LedgerState_new : LS :=
  {| ls_vaults := []; ls_baseline_vaults := []; ls_positions := []; ls_position_counts := [];
     ls_position_totals := []; ls_deposits_held := 0; ls_events := [];
     ls_protocol_accounts := [] |}.

Definition set_vaults (x : list VaultRecord) (s : LS) : LS :=
  {| ls_vaults := x; ls_baseline_vaults := ls_baseline_vaults s; ls_positions := ls_positions s;
     ls_position_counts := ls_position_counts s; ls_position_totals := ls_position_totals s;
     ls_deposits_held := ls_deposits_held s; ls_events := ls_events s;
     ls_protocol_accounts := ls_protocol_accounts s |}.
Definition set_bases (x : list BaselineVaultRecord) (s : LS) : LS :=
  {| ls_vaults := ls_vaults s; ls_baseline_vaults := x; ls_positions := ls_positions s;
     ls_position_counts := ls_position_counts s; ls_position_totals := ls_position_totals s;
     ls_deposits_held := ls_deposits_held s; ls_events := ls_events s;
     ls_protocol_accounts := ls_protocol_accounts s |}.
Definition set_positions (x : list (PositionRecord A)) (s : LS) : LS :=
  {| ls_vaults := ls_vaults s; ls_baseline_vaults := ls_baseline_vaults s; ls_positions := x;
     ls_position_counts := ls_position_counts s; ls_position_totals := ls_position_totals s;
     ls_deposits_held := ls_deposits_held s; ls_events := ls_events s;
     ls_protocol_accounts := ls_protocol_accounts s |}.
Definition set_counts (x : list (PositionCount A)) (s : LS) : LS :=
  {| ls_vaults := ls_vaults s; ls_baseline_vaults := ls_baseline_vaults s;
     ls_positions := ls_positions s; ls_position_counts := x;
     ls_position_totals := ls_position_totals s; ls_deposits_held := ls_deposits_held s;
     ls_events := ls_events s; ls_protocol_accounts := ls_protocol_accounts s |}.
Definition set_totals (x : list PositionTotal) (s : LS) : LS :=
  {| ls_vaults := ls_vaults s; ls_baseline_vaults := ls_baseline_vaults s;
     ls_positions := ls_positions s; ls_position_counts := ls_position_counts s;
     ls_position_totals := x; ls_deposits_held := ls_deposits_held s;
     ls_events := ls_events s; ls_protocol_accounts := ls_protocol_accounts s |}.
Definition set_deposits (x : Balance) (s : LS) : LS :=
  {| ls_vaults := ls_vaults s; ls_baseline_vaults := ls_baseline_vaults s;
     ls_positions := ls_positions s; ls_position_counts := ls_position_counts s;
     ls_position_totals := ls_position_totals s; ls_deposits_held := x;
     ls_events := ls_events s; ls_protocol_accounts := ls_protocol_accounts s |}.
Definition push_event (ev : LedgerEvent) : LM unit :=
  modify (fun s =>
  {| ls_vaults := ls_vaults s; ls_baseline_vaults := ls_baseline_vaults s;
     ls_positions := ls_positions s; ls_position_counts := ls_position_counts s;
     ls_position_totals := ls_position_totals s; ls_deposits_held := ls_deposits_held s;
     ls_events := ls_events s ++ [ev]; ls_protocol_accounts := ls_protocol_accounts s |}).

Definition pr_key (p : PositionRecord A) : PositionId * A := (pr_id p, pr_owner p).

Definition set_balance (x : Balance) (p : PositionRecord A) : PositionRecord A :=
  {| pr_id := pr_id p; pr_owner := pr_owner p; pr_balance := x; pr_deposit := pr_deposit p |}.

(** ** Construction and account registration *)

Definition create_vault (pid : ProposalId) (spec : MetricSpecVersion) : LM unit :=
  do! reads (fun s => ensure (forallb (fun v => negb (vr_proposal v =? pid)) (ls_vaults s))
                             TryStateViolation) in
  modify (fun s => set_vaults (ls_vaults s ++
    [{| vr_proposal := pid; vr_info := VaultInfo_open spec |}]) s).

Definition create_baseline_vault (epoch : EpochId) : LM unit :=
  do! reads (fun s => ensure (forallb (fun v => negb (br_epoch v =? epoch)) (ls_baseline_vaults s))
                             TryStateViolation) in
  modify (fun s => set_bases (ls_baseline_vaults s ++
    [{| br_epoch := epoch; br_info := BaselineVaultInfo_open |}]) s).

Definition add_protocol_account (who : A) : LM unit :=
  modify (fun s =>
    if bool_decide (who ∈ ls_protocol_accounts s) then s
    else {| ls_vaults := ls_vaults s; ls_baseline_vaults := ls_baseline_vaults s;
            ls_positions := ls_positions s; ls_position_counts := ls_position_counts s;
            ls_position_totals := ls_position_totals s; ls_deposits_held := ls_deposits_held s;
            ls_events := ls_events s; ls_protocol_accounts := ls_protocol_accounts s ++ [who] |}).

(** ** Table access *)

Definition with_vault {R} (pid : ProposalId) (f : VaultInfo -> R) (s : LS) : Result LedgerError R :=
  ok_or UnknownVault ((fun v => f (vr_info v)) <$> find_key vr_proposal pid (ls_vaults s)).

Definition with_vault_mut {R} (pid : ProposalId) (f : ST VaultInfo LedgerError R) : LM R :=
  fun s =>
    match find_key vr_proposal pid (ls_vaults s) with
    | None => (Err UnknownVault, s)
    | Some v =>
        let (r, info) := f (vr_info v) in
        (r, set_vaults (alter_key vr_proposal pid
              (fun v => {| vr_proposal := vr_proposal v; vr_info := info |}) (ls_vaults s)) s)
    end.

Definition with_base {R} (e : EpochId) (f : BaselineVaultInfo -> R) (s : LS) : Result LedgerError R :=
  ok_or UnknownBaselineVault
    ((fun v => f (br_info v)) <$> find_key br_epoch e (ls_baseline_vaults s)).

Definition with_base_mut {R} (e : EpochId) (f : ST BaselineVaultInfo LedgerError R) : LM R :=
  fun s =>
    match find_key br_epoch e (ls_baseline_vaults s) with
    | None => (Err UnknownBaselineVault, s)
    | Some v =>
        let (r, info) := f (br_info v) in
        (r, set_bases (alter_key br_epoch e
              (fun v => {| br_epoch := br_epoch v; br_info := info |}) (ls_baseline_vaults s)) s)
    end.

(** [with_vault(pid, |v| -> Result)??] *)
Definition check_vault {R} (pid : ProposalId) (f : VaultInfo -> Result LedgerError R) (s : LS)
    : Result LedgerError R :=
  let? r := with_vault pid f s in r.

Definition check_base {R} (e : EpochId) (f : BaselineVaultInfo -> Result LedgerError R) (s : LS)
    : Result LedgerError R :=
  let? r := with_base e f s in r.

Definition total (id : PositionId) (s : LS) : Balance :=
  map_or 0 pt_total (find_key pt_id id (ls_position_totals s)).

(** The balance of one holder, as [ensure_holds], [transfer_impl] and the
    market's [position_balance] read it. *)
Definition position_balance_of (id : PositionId) (owner : A) (s : LS) : Balance :=
  map_or 0 pr_balance (find_key pr_key (id, owner) (ls_positions s)).

Definition ensure_holds (id : PositionId) (owner : A) (a : Balance) (s : LS)
    : Result LedgerError unit :=
  ensure (a <=? position_balance_of id owner s) InsufficientPosition.

(** [count_mut(owner)] followed by a use [f] of the reference it returns: a
    missing row is pushed first, and stays also when [f] fails. *)
Definition count_mut {R} (owner : A) (f : ST Z LedgerError R) : LM R :=
  fun s =>
    let cs :=
      match find_key pc_owner owner (ls_position_counts s) with
      | Some _ => ls_position_counts s
      | None => ls_position_counts s ++ [{| pc_owner := owner; pc_count := 0 |}]
      end in
    let (r, n) := f (map_or 0 pc_count (find_key pc_owner owner cs)) in
    (r, set_counts (alter_key pc_owner owner
          (fun c => {| pc_owner := pc_owner c; pc_count := n |}) cs) s).

Definition add_total (id : PositionId) (a : Balance) : LM unit :=
  let! s := get in
  match find_key pt_id id (ls_position_totals s) with
  | Some t =>
      let! x := lift (add (pt_total t) a) in
      modify (fun s => set_totals (alter_key pt_id id
        (fun t => {| pt_id := pt_id t; pt_total := x |}) (ls_position_totals s)) s)
  | None =>
      modify (fun s => set_totals (ls_position_totals s ++ [{| pt_id := id; pt_total := a |}]) s)
  end.

Definition sub_total (id : PositionId) (a : Balance) : LM unit :=
  let! t := reads (fun s => ok_or TryStateViolation (find_key pt_id id (ls_position_totals s))) in
  let! x := lift (sub (pt_total t) a) in
  do! modify (fun s => set_totals (alter_key pt_id id
        (fun t => {| pt_id := pt_id t; pt_total := x |}) (ls_position_totals s)) s) in
  if x =? 0 then modify (fun s => set_totals (remove_key pt_id id (ls_position_totals s)) s)
  else ret tt.

(** The bookkeeping of a new deposit-backed position. *)
Definition take_deposit (owner : A) : LM unit :=
  do! count_mut owner
    (let! n := get in
     do! lift (ensure (n <? MAX_POSITIONS_PER_ACCOUNT) PositionCapExceeded) in
     modify (fun n => wrap U32 (n + 1))) in
  let! s := get in
  let! d := lift (add (ls_deposits_held s) POSITION_DEPOSIT_USDC) in
  modify (set_deposits d).

Definition mint (id : PositionId) (owner : A) (a : Balance) : LM unit :=
  if a =? 0 then ret tt else
  let! s := get in
  do! (match find_key pr_key (id, owner) (ls_positions s) with
       | Some p =>
           let! x := lift (add (pr_balance p) a) in
           modify (fun s => set_positions
             (alter_key pr_key (id, owner) (set_balance x) (ls_positions s)) s)
       | None =>
           let protocol := bool_decide (owner ∈ ls_protocol_accounts s) in
           do! (if protocol then ret tt else take_deposit owner) in
           modify (fun s => set_positions (ls_positions s ++
             [{| pr_id := id; pr_owner := owner; pr_balance := a;
                 pr_deposit := if protocol then 0 else POSITION_DEPOSIT_USDC |}]) s)
       end) in
  add_total id a.

(** The refund of the deposit of an emptied position. *)
Definition release_deposit (owner : A) (dep : Balance) : LM unit :=
  if 0 <? dep then
    let! s := get in
    let! d := lift (sub (ls_deposits_held s) dep) in
    do! modify (set_deposits d) in
    count_mut owner (modify (fun n => wrap U32 (n - 1)))
  else ret tt.

Definition burn (id : PositionId) (owner : A) (a : Balance) : LM unit :=
  if a =? 0 then ret tt else
  let! p := reads (fun s => ok_or InsufficientPosition
                              (find_key pr_key (id, owner) (ls_positions s))) in
  do! lift (ensure (a <=? pr_balance p) InsufficientPosition) in
  do! modify (fun s => set_positions
        (alter_key pr_key (id, owner) (set_balance (pr_balance p - a)) (ls_positions s)) s) in
  do! sub_total id a in
  if pr_balance p - a =? 0 then
    do! modify (fun s => set_positions (remove_key pr_key (id, owner) (ls_positions s)) s) in
    release_deposit owner (pr_deposit p)
  else ret tt.

Definition ensure_position_live (id : PositionId) (s : LS) : Result LedgerError unit :=
  match id with
  | PosProposal proposal _ _ => check_vault proposal (ensure_vault is_live) s
  | PosBaseline epoch _ => check_base epoch (ensure_base is_base_open) s
  end.

Definition settled (pid : ProposalId) (s : LS) : Result LedgerError (Branch * FixedU64) :=
  check_vault pid (fun v =>
    match vi_state v with
    | ScalarSettled winner s => Ok (winner, s)
    | _ => Err WrongVaultState
    end) s.

Definition settled_winner (pid : ProposalId) (s : LS) : Result LedgerError Branch :=
  rmap fst (settled pid s).

Definition pay_proposal (pid : ProposalId) (a : Balance) : LM unit :=
  with_vault_mut pid (vault_sub_escrow a).

Definition pay_baseline (e : EpochId) (a : Balance) : LM unit :=
  with_base_mut e (base_sub_escrow a).

End ledger.

(** ** The operations *)

Section operations.
Context {A : Type} `{EqDecision A}.

Local Abbreviation LM := (ST (LedgerState A) LedgerError).

Definition split_impl (origin : LedgerOrigin) (pid : ProposalId) (who : A) (a : Balance) : LM unit :=
  do! lift (ensure_signed_or_market origin) in
  do! lift (ensure (MIN_SPLIT_USDC <=? a) AmountTooSmall) in
  do! with_vault_mut pid (split_vault a) in
  do! mint (position pid Accept BranchUsdc) who a in
  do! mint (position pid Reject BranchUsdc) who a in
  push_event (EvSplit pid a).

Definition merge_impl (origin : LedgerOrigin) (pid : ProposalId) (who : A) (a : Balance) : LM unit :=
  do! lift (ensure_signed_or_market origin) in
  do! reads (check_vault pid (ensure_vault is_live)) in
  do! reads (ensure_holds (position pid Accept BranchUsdc) who a) in
  do! reads (ensure_holds (position pid Reject BranchUsdc) who a) in
  do! burn (position pid Accept BranchUsdc) who a in
  do! burn (position pid Reject BranchUsdc) who a in
  do! with_vault_mut pid (merge_vault a) in
  push_event (EvMerged pid a).

Definition split_scalar_impl (origin : LedgerOrigin) (pid : ProposalId) (b : Branch) (who : A)
    (a : Balance) : LM unit :=
  do! lift (ensure_signed_or_market origin) in
  do! reads (check_vault pid (ensure_vault is_open)) in
  do! burn (position pid b BranchUsdc) who a in
  do! with_vault_mut pid (split_scalar_vault b a) in
  do! mint (position pid b Long) who a in
  do! mint (position pid b Short) who a in
  push_event (EvScalarSplit pid b a).

Definition merge_scalar_impl (origin : LedgerOrigin) (pid : ProposalId) (b : Branch) (who : A)
    (a : Balance) : LM unit :=
  do! lift (ensure_signed_or_market origin) in
  do! reads (check_vault pid (ensure_vault is_live)) in
  do! reads (ensure_holds (position pid b Long) who a) in
  do! reads (ensure_holds (position pid b Short) who a) in
  do! burn (position pid b Long) who a in
  do! burn (position pid b Short) who a in
  do! with_vault_mut pid (merge_scalar_vault b a) in
  do! mint (position pid b BranchUsdc) who a in
  push_event (EvScalarMerged pid b a).

Definition split_gate_impl (origin : LedgerOrigin) (pid : ProposalId) (b : Branch) (g : GateType)
    (who : A) (a : Balance) : LM unit :=
  do! lift (ensure_signed_or_market origin) in
  do! reads (check_vault pid (ensure_vault is_open)) in
  do! burn (position pid b BranchUsdc) who a in
  do! with_vault_mut pid (split_gate_vault b g a) in
  do! mint (position pid b (GateYes g)) who a in
  do! mint (position pid b (GateNo g)) who a in
  push_event (EvGateSplit pid b g a).

Definition merge_gate_impl (origin : LedgerOrigin) (pid : ProposalId) (b : Branch) (g : GateType)
    (who : A) (a : Balance) : LM unit :=
  do! lift (ensure_signed_or_market origin) in
  do! reads (check_vault pid (ensure_vault is_live)) in
  do! reads (ensure_holds (position pid b (GateYes g)) who a) in
  do! reads (ensure_holds (position pid b (GateNo g)) who a) in
  do! burn (position pid b (GateYes g)) who a in
  do! burn (position pid b (GateNo g)) who a in
  do! with_vault_mut pid (merge_gate_vault b g a) in
  do! mint (position pid b BranchUsdc) who a in
  push_event (EvGateMerged pid b g a).

(** The remainder rule of Signed transfers: a remainder below the transfer
    minimum moves with the rest. *)
Definition swept_amount (origin : LedgerOrigin) (id : PositionId) (from : A) (a : Balance)
    (s : LedgerState A) : Balance :=
  match origin with
  | Signed =>
      if bool_decide (from ∈ ls_protocol_accounts s) then a
      else
        let balance := position_balance_of id from s in
        let remainder := sat_sub balance a in
        if (0 <? remainder) && (remainder <? MIN_TRANSFER_USDC) then balance else a
  | _ => a
  end.

Definition transfer_impl (origin : LedgerOrigin) (id : PositionId) (from to : A) (a : Balance)
    : LM unit :=
  do! lift (ensure_signed_or_market origin) in
  do! lift (ensure (0 <? a) AmountTooSmall) in
  let! s := get in
  let dest_exists :=
    match find_key pr_key (id, to) (ls_positions s) with Some _ => true | None => false end in
  do! (if negb dest_exists && negb (bool_decide (to ∈ ls_protocol_accounts s))
       then lift (ensure (MIN_TRANSFER_USDC <=? a) AmountTooSmall)
       else ret tt) in
  let a := swept_amount origin id from a s in
  do! reads (ensure_position_live id) in
  do! burn id from a in
  do! mint id to a in
  push_event (EvPositionTransferred id a).

Definition resolve (origin : LedgerOrigin) (pid : ProposalId) (w : Branch) : LM unit :=
  do! lift (ensure_resolve origin) in
  do! with_vault_mut pid (resolve_vault w) in
  push_event (EvVaultResolved pid w).

Definition void (origin : LedgerOrigin) (pid : ProposalId) : LM unit :=
  do! lift (ensure_resolve origin) in
  do! with_vault_mut pid void_vault in
  push_event (EvVaultVoided pid).

Definition settle_scalar (origin : LedgerOrigin) (pid : ProposalId) (s : FixedU64) : LM unit :=
  do! lift (ensure_settle origin) in
  do! lift (ensure_score s) in
  let! winner := with_vault_mut pid (settle_scalar_vault s) in
  push_event (EvScalarSettlementSet pid winner s).

Definition settle_gate (origin : LedgerOrigin) (pid : ProposalId) (g : GateType) (outcome : bool)
    : LM unit :=
  do! lift (ensure_settle origin) in
  let! winner := with_vault_mut pid (settle_gate_vault g outcome) in
  push_event (EvGateSettled pid winner g outcome).

Definition redeem_impl (pid : ProposalId) (who : A) (a : Balance) : LM unit :=
  let! w := reads (settled_winner pid) in
  do! burn (position pid w BranchUsdc) who a in
  do! with_vault_mut pid (vault_sub_usdc (bix w) a) in
  do! pay_proposal pid a in
  push_event (EvRedeemed pid a).

Definition redeem_scalar_impl (pid : ProposalId) (side : ScalarSide) (who : A) (a : Balance)
    : LM unit :=
  let! ws := reads (settled pid) in
  do! burn (position pid ws.1 (side_kind side)) who a in
  let! pay := lift (mul_score a (side_score side ws.2)) in
  do! pay_proposal pid pay in
  push_event (EvScalarRedeemed pid side pay).

Definition redeem_scalar_pair_impl (pid : ProposalId) (who : A) (a : Balance) : LM unit :=
  let! w := reads (settled_winner pid) in
  do! reads (ensure_holds (position pid w Long) who a) in
  do! reads (ensure_holds (position pid w Short) who a) in
  do! burn (position pid w Long) who a in
  do! burn (position pid w Short) who a in
  do! with_vault_mut pid (vault_sub_sets (bix w) a) in
  do! pay_proposal pid a in
  push_event (EvScalarPairRedeemed pid a).

Definition redeem_gate_impl (pid : ProposalId) (g : GateType) (who : A) (a : Balance) : LM unit :=
  let! w := reads (settled_winner pid) in
  let! outcome := reads (check_vault pid (fun v =>
      ok_or GateNotSettled (arr2_get (vi_gate_outcomes v) (gix g)))) in
  do! burn (position pid w (if outcome : bool then GateYes g else GateNo g)) who a in
  do! pay_proposal pid a in
  push_event (EvGateRedeemed pid g a).

Definition void_rate (kind : PositionKind) (a : Balance) : Balance :=
  match kind with BranchUsdc => a / 2 | _ => a / 4 end.

Definition redeem_void_impl (pid : ProposalId) (b : Branch) (kind : PositionKind) (who : A)
    (a : Balance) : LM unit :=
  do! reads (check_vault pid (ensure_vault is_voided)) in
  do! burn (position pid b kind) who a in
  do! (match kind with
       | BranchUsdc => with_vault_mut pid (vault_sub_usdc (bix b) a)
       | _ => ret tt
       end) in
  let pay := void_rate kind a in
  do! pay_proposal pid pay in
  push_event (EvVoidRedeemed pid kind a pay).

Definition split_baseline_impl (origin : LedgerOrigin) (epoch : EpochId) (who : A) (a : Balance)
    : LM unit :=
  do! lift (ensure_signed_or_market origin) in
  do! lift (ensure (MIN_SPLIT_USDC <=? a) AmountTooSmall) in
  do! with_base_mut epoch (split_base a) in
  do! mint (baseline epoch SideLong) who a in
  do! mint (baseline epoch SideShort) who a in
  push_event (EvBaselineSplit epoch a).

Definition merge_baseline_impl (origin : LedgerOrigin) (epoch : EpochId) (who : A) (a : Balance)
    : LM unit :=
  do! lift (ensure_signed_or_market origin) in
  do! reads (check_base epoch (ensure_base is_base_open)) in
  do! reads (ensure_holds (baseline epoch SideLong) who a) in
  do! reads (ensure_holds (baseline epoch SideShort) who a) in
  do! burn (baseline epoch SideLong) who a in
  do! burn (baseline epoch SideShort) who a in
  do! with_base_mut epoch (merge_base a) in
  push_event (EvBaselineMerged epoch a).

Definition settle_baseline (origin : LedgerOrigin) (epoch : EpochId) (s : FixedU64) : LM unit :=
  do! lift (ensure_settle origin) in
  do! lift (ensure_score s) in
  do! with_base_mut epoch (settle_base s) in
  push_event (EvBaselineSettled epoch s).

Definition base_settled (epoch : EpochId) (s : LedgerState A) : Result LedgerError FixedU64 :=
  check_base epoch (fun v =>
    match bv_state v with
    | BaselineSettled s => Ok s
    | _ => Err WrongVaultState
    end) s.

Definition redeem_baseline_impl (epoch : EpochId) (side : ScalarSide) (who : A) (a : Balance)
    : LM unit :=
  let! s := reads (base_settled epoch) in
  do! burn (baseline epoch side) who a in
  let! pay := lift (mul_score a (side_score side s)) in
  do! pay_baseline epoch pay in
  push_event (EvBaselineRedeemed epoch side pay).

Definition redeem_baseline_pair_impl (epoch : EpochId) (who : A) (a : Balance) : LM unit :=
  do! reads (base_settled epoch) in
  do! reads (ensure_holds (baseline epoch SideLong) who a) in
  do! reads (ensure_holds (baseline epoch SideShort) who a) in
  do! burn (baseline epoch SideLong) who a in
  do! burn (baseline epoch SideShort) who a in
  do! with_base_mut epoch (base_sub_sets a) in
  do! pay_baseline epoch a in
  push_event (EvBaselineRedeemed epoch SideLong a).

(** The public entry points: each body runs under [atomically]. *)
Definition split o pid who a : LM unit := atomic (split_impl o pid who a).
Definition merge o pid who a : LM unit := atomic (merge_impl o pid who a).
Definition split_scalar o pid b who a : LM unit := atomic (split_scalar_impl o pid b who a).
Definition merge_scalar o pid b who a : LM unit := atomic (merge_scalar_impl o pid b who a).
Definition split_gate o pid b g who a : LM unit := atomic (split_gate_impl o pid b g who a).
Definition merge_gate o pid b g who a : LM unit := atomic (merge_gate_impl o pid b g who a).
Definition transfer o id from to a : LM unit := atomic (transfer_impl o id from to a).
Definition redeem pid who a : LM unit := atomic (redeem_impl pid who a).
Definition redeem_scalar pid side who a : LM unit := atomic (redeem_scalar_impl pid side who a).
Definition redeem_scalar_pair pid who a : LM unit := atomic (redeem_scalar_pair_impl pid who a).
Definition redeem_gate pid g who a : LM unit := atomic (redeem_gate_impl pid g who a).
Definition redeem_void pid b k who a : LM unit := atomic (redeem_void_impl pid b k who a).
Definition split_baseline o e who a : LM unit := atomic (split_baseline_impl o e who a).
Definition merge_baseline o e who a : LM unit := atomic (merge_baseline_impl o e who a).
Definition redeem_baseline e side who a : LM unit := atomic (redeem_baseline_impl e side who a).
Definition redeem_baseline_pair e who a : LM unit := atomic (redeem_baseline_pair_impl e who a).

(** The market pallet's entry points: the same operations under
    [MarketAuthority]. *)
Definition do_split pid who a : LM unit := split MarketAuthority pid who a.
Definition do_transfer id from to a : LM unit := transfer MarketAuthority id from to a.
Definition do_split_scalar pid b who a : LM unit := split_scalar MarketAuthority pid b who a.
Definition do_split_gate pid b g who a : LM unit := split_gate MarketAuthority pid b g who a.
Definition do_split_baseline e who a : LM unit := split_baseline MarketAuthority e who a.
Definition do_merge pid who a : LM unit := merge MarketAuthority pid who a.
Definition do_merge_scalar pid b who a : LM unit := merge_scalar MarketAuthority pid b who a.
Definition do_merge_gate pid b g who a : LM unit := merge_gate MarketAuthority pid b g who a.
Definition do_merge_baseline e who a : LM unit := merge_baseline MarketAuthority e who a.

End operations.

(** ** The state checker *)

Section try_state.
Context {A : Type} `{EqDecision A}.

Local Abbreviation LS := (LedgerState A).

Definition check_branch_open (s : LS) (pid : ProposalId) (info : VaultInfo) (b : Branch)
    : Result LedgerError unit :=
  let bs := arr2_get (vi_branches info) (bix b) in
  let? x := add (bs_usdc bs) (bs_scalar_sets bs) in
  let? y := add (arr2_get (bs_gate_sets bs) 0) (arr2_get (bs_gate_sets bs) 1) in
  let? claims := add x y in
  do? ensure (claims =? vi_escrowed info) TryStateViolation in
  do? ensure (total (position pid b BranchUsdc) s =? bs_usdc bs) TryStateViolation in
  let long := total (position pid b Long) s in
  let short := total (position pid b Short) s in
  do? ensure ((long =? short) && (long =? bs_scalar_sets bs)) TryStateViolation in
  for_each (fun g =>
    let yes := total (position pid b (GateYes g)) s in
    let no := total (position pid b (GateNo g)) s in
    ensure ((yes =? no) && (yes =? arr2_get (bs_gate_sets bs) (gix g))) TryStateViolation)
    [Survival; Security].

Definition liability_settled (s : LS) (pid : ProposalId) (info : VaultInfo) (w : Branch)
    (score : FixedU64) : Result LedgerError Balance :=
  let liability := total (position pid w BranchUsdc) s in
  let long := total (position pid w Long) s in
  let short := total (position pid w Short) s in
  let pairs := Z.min long short in
  let? liability := add liability pairs in
  let? dl := sub long pairs in
  let? ml := mul_score dl score in
  let? liability := add liability ml in
  let? ds := sub short pairs in
  let? ms := mul_score ds (score_complement score) in
  let? liability := add liability ms in
  try_fold (fun liability g =>
    let yes := total (position pid w (GateYes g)) s in
    let no := total (position pid w (GateNo g)) s in
    add liability
      match arr2_get (vi_gate_outcomes info) (gix g) with
      | Some true => yes
      | Some false => no
      | None => Z.max yes no
      end) liability [Survival; Security].

(** [x/4 + y/4] of the unmatched remainders of a pair of legs. *)
Definition leg_leftovers (x y : Balance) : Result LedgerError Balance :=
  let pairs := Z.min x y in
  let? dx := sub x pairs in
  let? dy := sub y pairs in
  add (dx / 4) (dy / 4).

(** One branch of a voided vault: effective branch-USDC, and the leftovers
    added to the running sum. *)
Definition effective_branch (s : LS) (pid : ProposalId) (leftovers : Balance) (b : Branch)
    : Result LedgerError (Balance * Balance) :=
  let eff := total (position pid b BranchUsdc) s in
  let long := total (position pid b Long) s in
  let short := total (position pid b Short) s in
  let? eff := add eff (Z.min long short) in
  let? l := leg_leftovers long short in
  let? leftovers := add leftovers l in
  try_fold (fun acc g =>
    let yes := total (position pid b (GateYes g)) s in
    let no := total (position pid b (GateNo g)) s in
    let? eff := add acc.1 (Z.min yes no) in
    let? l := leg_leftovers yes no in
    let? leftovers := add acc.2 l in
    Ok (eff, leftovers)) (eff, leftovers) [Survival; Security].

Definition liability_voided (s : LS) (pid : ProposalId) : Result LedgerError Balance :=
  let? p0 := effective_branch s pid 0 Accept in
  let? p1 := effective_branch s pid p0.2 Reject in
  let e0 := p0.1 in
  let e1 := p1.1 in
  let cross := Z.min e0 e1 in
  let? d0 := sub e0 cross in
  let? liability := add cross (d0 / 2) in
  let? d1 := sub e1 cross in
  let? liability := add liability (d1 / 2) in
  add liability p1.2.

Definition check_vault_state (s : LS) (v : VaultRecord) : Result LedgerError unit :=
  let pid := vr_proposal v in
  let info := vr_info v in
  match vi_state info with
  | Open | Resolved _ => for_each (check_branch_open s pid info) [Accept; Reject]
  | ScalarSettled winner score =>
      let? liability := liability_settled s pid info winner score in
      ensure (liability <=? vi_escrowed info) TryStateViolation
  | Voided =>
      let? liability := liability_voided s pid in
      ensure (liability <=? vi_escrowed info) TryStateViolation
  | VaultBaselineSettled _ => Err TryStateViolation
  end.

Definition check_base_state (s : LS) (v : BaselineVaultRecord) : Result LedgerError unit :=
  let epoch := br_epoch v in
  let info := br_info v in
  let long := total (baseline epoch SideLong) s in
  let short := total (baseline epoch SideShort) s in
  match bv_state info with
  | BaselineOpen =>
      do? ensure (bv_escrowed info =? bv_sets info) TryStateViolation in
      ensure ((long =? short) && (long =? bv_sets info)) TryStateViolation
  | BaselineSettled score =>
      let pairs := Z.min long short in
      let? dl := sub long pairs in
      let? ml := mul_score dl score in
      let? ds := sub short pairs in
      let? ms := mul_score ds (score_complement score) in
      let? legs := add ml ms in
      let? liability := add pairs legs in
      ensure (liability <=? bv_escrowed info) TryStateViolation
  end.

Definition try_state_vault_conservation (s : LS) : Result LedgerError unit :=
  do? for_each (check_vault_state s) (ls_vaults s) in
  for_each (check_base_state s) (ls_baseline_vaults s).

Definition check_position (p : PositionRecord A) : Result LedgerError unit :=
  do? ensure (0 <? pr_balance p) TryStateViolation in
  ensure ((pr_deposit p =? 0) || (pr_deposit p =? POSITION_DEPOSIT_USDC)) TryStateViolation.

Definition check_count (s : LS) (c : PositionCount A) : Result LedgerError unit :=
  do? ensure (bool_decide (pc_owner c ∈ ls_protocol_accounts s)
              || (pc_count c <=? MAX_POSITIONS_PER_ACCOUNT)) PositionCapExceeded in
  let actual := wrap U32 (Z.of_nat (length
    (filter (fun p => pr_owner p = pc_owner c) (ls_positions s)))) in
  ensure (actual =? pc_count c) TryStateViolation.

Definition check_total (s : LS) (t : PositionTotal) : Result LedgerError unit :=
  let? actual := try_fold
    (fun acc p => ok_or ArithmeticOverflow (checked_add U128 acc (pr_balance p))) 0
    (filter (fun p => pr_id p = pt_id t) (ls_positions s)) in
  ensure (actual =? pt_total t) TryStateViolation.

Definition try_state (s : LS) : Result LedgerError unit :=
  do? for_each check_position (ls_positions s) in
  do? for_each (check_count s) (ls_position_counts s) in
  do? for_each (check_total s) (ls_position_totals s) in
  try_state_vault_conservation s.

End try_state.
