(* ===== verification/LedgerVault.v ===== *)
(** * What a vault owes: the arithmetic of one vault

    A vault is looked at together with its [claims]: for every branch and
    instrument, the outstanding supply of that instrument.  [vault_ok] is the
    well-formedness of the pair.  While the vault is Open or Resolved the
    books balance exactly; in the terminal states a linear bound holds
    between what the outstanding claims are worth and the escrow: in units of
    1/1e9 for a settled vault and of 1/4 for a voided one, which is what makes
    floor-rounded redemptions and re-assembled pairs payable in any order.
    Each lemma takes one vault body of Ledger with the change of the claims
    that the operation makes around it. *)

From S2P Require Import Prelude Keyed Primitives Ledger.

Definition claims : Type := Branch -> PositionKind -> Z.

(** [d] more units of one instrument outstanding. *)
Definition add_claim (b : Branch) (k : PositionKind) (d : Z) (c : claims) : claims :=
  fun b' k' => c b' k' + (if decide (b' = b /\ k' = k) then d else 0).

Definition gates_of (bs : BranchSupply) (g : GateType) : Z := arr2_get (bs_gate_sets bs) (gix g).
Definition branch_of (v : VaultInfo) (b : Branch) : BranchSupply :=
  arr2_get (vi_branches v) (bix b).
Definition outcome_of (v : VaultInfo) (g : GateType) : option bool :=
  arr2_get (vi_gate_outcomes v) (gix g).

(** The numbers stored in a branch fit their type. *)
Definition supply_bounds (bs : BranchSupply) : Prop :=
  is_u128 (bs_usdc bs) /\ is_u128 (bs_scalar_sets bs)
  /\ is_u128 (gates_of bs Survival) /\ is_u128 (gates_of bs Security).

(** A claim count never exceeds the counter that backs it, and branch-USDC
    is counted exactly in every state. *)
Definition branch_covered (bs : BranchSupply) (c : PositionKind -> Z) : Prop :=
  0 <= c BranchUsdc /\ 0 <= c Long /\ 0 <= c Short
  /\ 0 <= c (GateYes Survival) /\ 0 <= c (GateNo Survival)
  /\ 0 <= c (GateYes Security) /\ 0 <= c (GateNo Security)
  /\ c BranchUsdc = bs_usdc bs
  /\ c Long <= bs_scalar_sets bs /\ c Short <= bs_scalar_sets bs
  /\ c (GateYes Survival) <= gates_of bs Survival /\ c (GateNo Survival) <= gates_of bs Survival
  /\ c (GateYes Security) <= gates_of bs Security /\ c (GateNo Security) <= gates_of bs Security.

(** The books of a branch balance: every set counter equals both of its legs,
    and the branch's claims add up to the escrow. *)
Definition branch_exact (bs : BranchSupply) (c : PositionKind -> Z) (escrowed : Z) : Prop :=
  c Long = bs_scalar_sets bs /\ c Short = bs_scalar_sets bs
  /\ c (GateYes Survival) = gates_of bs Survival /\ c (GateNo Survival) = gates_of bs Survival
  /\ c (GateYes Security) = gates_of bs Security /\ c (GateNo Security) = gates_of bs Security
  /\ bs_usdc bs + bs_scalar_sets bs + gates_of bs Survival + gates_of bs Security = escrowed.

Definition gate_due (o : option bool) (yes no : Z) : Z :=
  match o with
  | Some true => yes
  | Some false => no
  | None => Z.max yes no
  end.

(** Yes and no supplies stay equal until the gate is settled. *)
Definition gate_paired (o : option bool) (yes no : Z) : Prop :=
  match o with
  | Some _ => True
  | None => yes = no
  end.

(** Worth of the winning branch's claims, in 1e-9 units. *)
Definition settled_due (v : VaultInfo) (c : PositionKind -> Z) (s : Z) : Z :=
  SCALE_1E9 * c BranchUsdc + s * c Long + (SCALE_1E9 - s) * c Short
  + SCALE_1E9 * gate_due (outcome_of v Survival) (c (GateYes Survival)) (c (GateNo Survival))
  + SCALE_1E9 * gate_due (outcome_of v Security) (c (GateYes Security)) (c (GateNo Security)).

(** Worth of a voided branch's claims, in quarters. *)
Definition voided_due (c : PositionKind -> Z) : Z :=
  2 * c BranchUsdc + c Long + c Short
  + c (GateYes Survival) + c (GateNo Survival)
  + c (GateYes Security) + c (GateNo Security).

Definition state_ok (v : VaultInfo) (c : claims) : Prop :=
  match vi_state v with
  | Open | Resolved _ =>
      branch_exact (branch_of v Accept) (c Accept) (vi_escrowed v)
      /\ branch_exact (branch_of v Reject) (c Reject) (vi_escrowed v)
  | ScalarSettled w s =>
      0 <= s <= SCALE_1E9
      /\ settled_due v (c w) s <= SCALE_1E9 * vi_escrowed v
      /\ gate_paired (outcome_of v Survival) (c w (GateYes Survival)) (c w (GateNo Survival))
      /\ gate_paired (outcome_of v Security) (c w (GateYes Security)) (c w (GateNo Security))
  | Voided => voided_due (c Accept) + voided_due (c Reject) <= 4 * vi_escrowed v
  | VaultBaselineSettled _ => False
  end.

Definition vault_ok (v : VaultInfo) (c : claims) : Prop :=
  is_u128 (vi_escrowed v)
  /\ supply_bounds (branch_of v Accept) /\ supply_bounds (branch_of v Reject)
  /\ branch_covered (branch_of v Accept) (c Accept)
  /\ branch_covered (branch_of v Reject) (c Reject)
  /\ state_ok v c.

(** Baseline vaults. *)
Definition base_ok (v : BaselineVaultInfo) (long short : Z) : Prop :=
  is_u128 (bv_escrowed v) /\ is_u128 (bv_sets v)
  /\ 0 <= long <= bv_sets v /\ 0 <= short <= bv_sets v
  /\ match bv_state v with
     | BaselineOpen => bv_escrowed v = bv_sets v /\ long = bv_sets v /\ short = bv_sets v
     | BaselineSettled s =>
         0 <= s <= SCALE_1E9
         /\ s * long + (SCALE_1E9 - s) * short <= SCALE_1E9 * bv_escrowed v
     end.

(** Claims are compared pointwise. *)
Definition claims_eq : relation claims := pointwise_relation Branch (pointwise_relation PositionKind eq).

#[export] Instance vault_ok_proper : Proper (eq ==> claims_eq ==> iff) vault_ok.
Proof.
  intros v ? <- c c' Hc. unfold vault_ok, state_ok, branch_covered, branch_exact, settled_due, voided_due.
  assert (forall b k, c b k = c' b k) as He by (intros; apply Hc).
  rewrite !He. destruct (vi_state v); rewrite ?He; reflexivity.
Qed.

(** Unfolds everything down to linear arithmetic over the stored numbers. *)
Ltac vault_simpl :=
  unfold vault_ok, state_ok, supply_bounds, branch_covered, branch_exact, settled_due, voided_due,
    gate_paired, gate_due, branch_of, outcome_of, gates_of, add_claim, SCALE_1E9, SCORE_SCALE,
    set_escrowed, set_branch, set_usdc, set_scalar_sets, set_gate_set, set_state, set_outcome,
    is_open, is_live, is_voided, ensure_vault in *;
  simpl in *.

Ltac vault_bodies :=
  unfold split_vault, merge_vault, split_scalar_vault, merge_scalar_vault, split_gate_vault,
    merge_gate_vault, resolve_vault, void_vault, settle_scalar_vault, settle_gate_vault,
    vault_add_escrow, vault_sub_escrow, vault_add_usdc, vault_sub_usdc, vault_add_sets,
    vault_sub_sets, vault_add_gates, vault_sub_gates, ensure_vault, add, sub in *.

(** Splits every enumeration a vault body looks at. *)
Ltac vault_cases :=
  repeat match goal with
  | v : VaultInfo |- _ => destruct v as [? [[? ? [? ?]] [? ? [? ?]]] [|[]|[] ?| |?] [? ?] ?]
  | b : Branch |- _ => destruct b
  | g : GateType |- _ => destruct g
  | k : PositionKind |- _ => destruct k
  end; simpl in *; try discriminate.

(** Inverts a vault body, splits every enumeration and leaves linear goals. *)
Ltac vault_crush :=
  intros; vault_bodies; inv_all; subst; vault_cases; inv_all; simplify_eq; vault_simpl;
  destruct_and?; repeat case_match; simplify_eq; try contradiction;
  rewrite ?Z.add_0_r; split_and?; try assumption; try exact I; try lia.

(** ** Complete sets: proposal vaults *)

Lemma split_vault_ok v v' c a :
  0 <= a -> split_vault a v = (Ok tt, v') -> vault_ok v c ->
  vault_ok v' (add_claim Reject BranchUsdc a (add_claim Accept BranchUsdc a c)).
Proof. vault_crush. Qed.

Lemma merge_vault_ok v v' c a :
  0 <= a <= c Accept BranchUsdc -> a <= c Reject BranchUsdc ->
  is_live (vi_state v) = true ->
  merge_vault a v = (Ok tt, v') -> vault_ok v c ->
  vault_ok v' (add_claim Reject BranchUsdc (- a) (add_claim Accept BranchUsdc (- a) c)).
Proof. vault_crush. Qed.

Lemma split_scalar_vault_ok v v' c b a :
  0 <= a -> is_open (vi_state v) = true ->
  split_scalar_vault b a v = (Ok tt, v') -> vault_ok v c ->
  vault_ok v' (add_claim b Short a (add_claim b Long a (add_claim b BranchUsdc (- a) c))).
Proof. vault_crush. Qed.

Lemma merge_scalar_vault_ok v v' c b a :
  0 <= a <= c b Long -> a <= c b Short -> is_live (vi_state v) = true ->
  merge_scalar_vault b a v = (Ok tt, v') -> vault_ok v c ->
  vault_ok v' (add_claim b BranchUsdc a (add_claim b Short (- a) (add_claim b Long (- a) c))).
Proof. vault_crush. Qed.

Lemma split_gate_vault_ok v v' c b g a :
  0 <= a -> is_open (vi_state v) = true ->
  split_gate_vault b g a v = (Ok tt, v') -> vault_ok v c ->
  vault_ok v' (add_claim b (GateNo g) a (add_claim b (GateYes g) a (add_claim b BranchUsdc (- a) c))).
Proof. vault_crush. Qed.

Lemma merge_gate_vault_ok v v' c b g a :
  0 <= a <= c b (GateYes g) -> a <= c b (GateNo g) ->
  merge_gate_vault b g a v = (Ok tt, v') -> vault_ok v c ->
  vault_ok v' (add_claim b BranchUsdc a (add_claim b (GateNo g) (- a) (add_claim b (GateYes g) (- a) c))).
Proof. vault_crush. Qed.

(** ** The lifecycle *)

Lemma resolve_vault_ok v v' c w :
  resolve_vault w v = (Ok tt, v') -> vault_ok v c -> vault_ok v' c.
Proof. vault_crush. Qed.

Lemma void_vault_ok v v' c :
  void_vault v = (Ok tt, v') -> vault_ok v c -> vault_ok v' c.
Proof. vault_crush. Qed.

Lemma settle_scalar_vault_ok v v' c s w :
  0 <= s <= SCALE_1E9 ->
  settle_scalar_vault s v = (Ok w, v') -> vault_ok v c -> vault_ok v' c.
Proof. vault_crush. Qed.

Lemma settle_gate_vault_ok v v' c g o w :
  settle_gate_vault g o v = (Ok w, v') -> vault_ok v c -> vault_ok v' c.
Proof. vault_crush. Qed.

(** ** Redemptions *)

Lemma score_complement_eq s : 0 <= s <= SCALE_1E9 -> score_complement s = SCALE_1E9 - s.
Proof. unfold score_complement, SCALE_1E9, SCORE_SCALE. intros. apply wrap_small. lia. Qed.

Lemma mul_score_Ok a s p : mul_score a s = Ok p <-> p = a * s / SCALE_1E9 /\ a * s < U128.
Proof.
  unfold mul_score. rewrite rmap_Ok. setoid_rewrite ok_or_Ok.
  setoid_rewrite checked_mul_Some. naive_solver.
Qed.

(** A floor-rounded payment is worth at most the exact one. *)
Lemma mul_score_le a s p : mul_score a s = Ok p -> SCALE_1E9 * p <= a * s.
Proof. intros [-> _]%mul_score_Ok. unfold SCALE_1E9, SCORE_SCALE. pose proof (div_bounds (a * s) 1000000000). lia. Qed.

Lemma mul_score_nonneg a s p : 0 <= a -> 0 <= s -> mul_score a s = Ok p -> 0 <= p.
Proof. intros Ha Hs [-> _]%mul_score_Ok. apply Z.div_pos; [nia|]. unfold SCALE_1E9, SCORE_SCALE. lia. Qed.

Lemma redeem_vault_ok v v' c w s a :
  0 <= a <= c w BranchUsdc -> vi_state v = ScalarSettled w s ->
  (do! vault_sub_usdc (bix w) a in vault_sub_escrow a) v = (Ok tt, v') -> vault_ok v c ->
  vault_ok v' (add_claim w BranchUsdc (- a) c).
Proof. vault_crush. Qed.

Lemma redeem_leg_vault_ok v v' c w s side a p :
  0 <= a <= c w (side_kind side) -> vi_state v = ScalarSettled w s ->
  mul_score a (side_score side s) = Ok p ->
  vault_sub_escrow p v = (Ok tt, v') -> vault_ok v c ->
  vault_ok v' (add_claim w (side_kind side) (- a) c).
Proof.
  intros Ha Hst Hp Hbody Hv.
  assert (Hs : 0 <= s <= SCALE_1E9) by (unfold vault_ok, state_ok in Hv; rewrite Hst in Hv; tauto).
  assert (Hsc : side_score side s = match side with SideLong => s | SideShort => SCALE_1E9 - s end)
    by (destruct side; [done|by apply score_complement_eq]).
  pose proof (mul_score_le _ _ _ Hp) as Hle.
  assert (Hpos : 0 <= p) by (apply (mul_score_nonneg a (side_score side s)); [lia|rewrite Hsc; destruct side; lia|done]).
  rewrite Hsc in Hle. clear Hp Hsc. destruct side; vault_crush.
Qed.

Lemma redeem_pair_vault_ok v v' c w s a :
  0 <= a <= c w Long -> a <= c w Short -> vi_state v = ScalarSettled w s ->
  (do! vault_sub_sets (bix w) a in vault_sub_escrow a) v = (Ok tt, v') -> vault_ok v c ->
  vault_ok v' (add_claim w Short (- a) (add_claim w Long (- a) c)).
Proof. vault_crush. Qed.

Lemma redeem_gate_vault_ok v v' c w s g (o : bool) a :
  0 <= a <= c w (if o then GateYes g else GateNo g) -> vi_state v = ScalarSettled w s ->
  outcome_of v g = Some o ->
  vault_sub_escrow a v = (Ok tt, v') -> vault_ok v c ->
  vault_ok v' (add_claim w (if o then GateYes g else GateNo g) (- a) c).
Proof. destruct o; vault_crush. Qed.

Lemma redeem_void_usdc_vault_ok v v' c b a :
  0 <= a <= c b BranchUsdc -> vi_state v = Voided ->
  (do! vault_sub_usdc (bix b) a in vault_sub_escrow (a / 2)) v = (Ok tt, v') -> vault_ok v c ->
  vault_ok v' (add_claim b BranchUsdc (- a) c).
Proof. intros. pose proof (div_bounds a 2). vault_crush. Qed.

Lemma redeem_void_leg_vault_ok v v' c b k a :
  k <> BranchUsdc -> 0 <= a <= c b k -> vi_state v = Voided ->
  vault_sub_escrow (a / 4) v = (Ok tt, v') -> vault_ok v c ->
  vault_ok v' (add_claim b k (- a) c).
Proof. intros. pose proof (div_bounds a 4). vault_crush. Qed.

(** ** What a Baseline vault owes

    The branch-free vault: one complete-set counter and two legs.  Same shape
    as LedgerVault, with the legs' supplies as two numbers. *)

Ltac base_crush :=
  intros; unfold split_base, merge_base, settle_base, base_sub_escrow, base_sub_sets, ensure_base,
    add, sub in *; inv_all; subst;
  repeat match goal with v : BaselineVaultInfo |- _ => destruct v as [? ? [|?]] end;
  unfold base_ok, set_bv_escrowed, set_bv_sets, set_bv_state, SCALE_1E9, SCORE_SCALE in *;
  simpl in *; try discriminate; inv_all; simplify_eq; simpl in *; nia.

Lemma split_base_ok v v' l s a :
  0 <= a -> split_base a v = (Ok tt, v') -> base_ok v l s -> base_ok v' (l + a) (s + a).
Proof. base_crush. Qed.

Lemma merge_base_ok v v' l s a :
  0 <= a -> merge_base a v = (Ok tt, v') -> base_ok v l s -> base_ok v' (l - a) (s - a).
Proof. base_crush. Qed.

Lemma settle_base_ok v v' l s score :
  0 <= score <= SCALE_1E9 -> settle_base score v = (Ok tt, v') -> base_ok v l s -> base_ok v' l s.
Proof. base_crush. Qed.

Lemma redeem_base_long_ok v v' l s score a p :
  0 <= a <= l -> bv_state v = BaselineSettled score ->
  mul_score a (side_score SideLong score) = Ok p ->
  base_sub_escrow p v = (Ok tt, v') -> base_ok v l s -> base_ok v' (l - a) s.
Proof.
  intros Ha Hst Hp. simpl in Hp. pose proof (mul_score_le _ _ _ Hp).
  intros. assert (Hs : 0 <= score <= SCALE_1E9) by (unfold base_ok in *; rewrite Hst in *; tauto).
  pose proof (mul_score_nonneg a score p ltac:(lia) ltac:(lia) Hp). base_crush.
Qed.

Lemma redeem_base_short_ok v v' l s score a p :
  0 <= a <= s -> bv_state v = BaselineSettled score ->
  mul_score a (side_score SideShort score) = Ok p ->
  base_sub_escrow p v = (Ok tt, v') -> base_ok v l s -> base_ok v' l (s - a).
Proof.
  intros Ha Hst Hp. simpl in Hp. pose proof (mul_score_le _ _ _ Hp).
  intros. assert (Hs : 0 <= score <= SCALE_1E9) by (unfold base_ok in *; rewrite Hst in *; tauto).
  rewrite score_complement_eq in * by done.
  pose proof (mul_score_nonneg a (SCALE_1E9 - score) p ltac:(lia) ltac:(lia) Hp). base_crush.
Qed.

Lemma redeem_base_pair_ok v v' l s score a :
  0 <= a <= l -> a <= s -> bv_state v = BaselineSettled score ->
  (do! base_sub_sets a in base_sub_escrow a) v = (Ok tt, v') -> base_ok v l s ->
  base_ok v' (l - a) (s - a).
Proof. base_crush. Qed.
