(* ===== verification/LedgerInv.v ===== *)
(** * The structural invariant of the ledger

    [Core] relates the five position tables: the per-instrument totals, the
    per-account counts and the deposit pot are exactly what the position rows
    add up to.  [mint] and [burn] keep it, and their effect on balances and
    totals is stated once for all the operations built from them. *)

From S2P Require Import Prelude Keyed Primitives Ledger.

Section core.
Context {A : Type} `{EqDecision A}.

Local Abbreviation LS := (LedgerState A).
Implicit Types (s : LS) (id : PositionId) (who o : A) (a : Z).

(** What the rows of one instrument add up to. *)
Definition supply_in (id : PositionId) (l : list (PositionRecord A)) : Z :=
  sum_by (fun p => if decide (pr_id p = id) then pr_balance p else 0) l.

Definition balance_in (id : PositionId) (o : A) (l : list (PositionRecord A)) : Z :=
  map_or 0 pr_balance (find_key pr_key (id, o) l).

(** Number of deposit-backed positions of an account. *)
Definition backed (o : A) (l : list (PositionRecord A)) : Z :=
  sum_by (fun p => if decide (pr_owner p = o /\ 0 < pr_deposit p) then 1 else 0) l.

Definition count_of (o : A) (l : list (PositionCount A)) : Z :=
  map_or 0 pc_count (find_key pc_owner o l).

Definition total_in (id : PositionId) (l : list PositionTotal) : Z :=
  map_or 0 pt_total (find_key pt_id id l).

(** The vault that an instrument belongs to exists. *)
Definition known_vault id s : Prop :=
  match id with
  | PosProposal pid _ _ => is_Some (find_key vr_proposal pid (ls_vaults s))
  | PosBaseline e _ => is_Some (find_key br_epoch e (ls_baseline_vaults s))
  end.

Definition position_ok s (p : PositionRecord A) : Prop :=
  0 < pr_balance p < U128
  /\ (pr_deposit p = POSITION_DEPOSIT_USDC
      \/ (pr_deposit p = 0 /\ pr_owner p ∈ ls_protocol_accounts s))
  /\ known_vault (pr_id p) s.

Record Core s : Prop := {
  core_vault_keys : NoDup (keys vr_proposal (ls_vaults s));
  core_base_keys : NoDup (keys br_epoch (ls_baseline_vaults s));
  core_pos_keys : NoDup (keys pr_key (ls_positions s));
  core_pos : forall p, p ∈ ls_positions s -> position_ok s p;
  core_tot_keys : NoDup (keys pt_id (ls_position_totals s));
  core_tot : forall id, total_in id (ls_position_totals s) = supply_in id (ls_positions s);
  core_tot_bound : forall t, t ∈ ls_position_totals s -> 0 < pt_total t < U128;
  core_cnt_keys : NoDup (keys pc_owner (ls_position_counts s));
  core_cnt : forall o, count_of o (ls_position_counts s) = backed o (ls_positions s);
  core_cnt_cap : forall o, backed o (ls_positions s) <= MAX_POSITIONS_PER_ACCOUNT;
  core_cnt_protocol : forall c, c ∈ ls_position_counts s -> pc_owner c ∉ ls_protocol_accounts s;
  core_dep : ls_deposits_held s = sum_by pr_deposit (ls_positions s);
  core_dep_bound : is_u128 (ls_deposits_held s);
}.

(** Everything but the position tables is as before. *)
Record Frame s s' : Prop := {
  frame_vaults : ls_vaults s' = ls_vaults s;
  frame_bases : ls_baseline_vaults s' = ls_baseline_vaults s;
  frame_events : ls_events s' = ls_events s;
  frame_protocol : ls_protocol_accounts s' = ls_protocol_accounts s;
}.

(** The effect of a change of [d] units of one holder's position. *)
Record Moved id who (d : Z) s s' : Prop := {
  moved_total : forall x, total x s' = total x s + (if decide (x = id) then d else 0);
  moved_balance : forall x o, position_balance_of x o s' =
    position_balance_of x o s + (if decide (x = id /\ o = who) then d else 0);
}.

Lemma Frame_refl s : Frame s s.
Proof. done. Qed.

Lemma Frame_trans s1 s2 s3 : Frame s1 s2 -> Frame s2 s3 -> Frame s1 s3.
Proof. intros [] []. split; congruence. Qed.

Lemma Moved_zero id who s : Moved id who 0 s s.
Proof. split; intros; case_decide; lia. Qed.

Lemma known_vault_frame id s s' : Frame s s' -> known_vault id s -> known_vault id s'.
Proof. intros [Hv Hb _ _]. destruct id; simpl; rewrite ?Hv, ?Hb; done. Qed.

(** ** The three side tables *)

Lemma add_total_spec id a s u s' :
  0 < a < U128 -> NoDup (keys pt_id (ls_position_totals s)) ->
  (forall t, t ∈ ls_position_totals s -> 0 < pt_total t < U128) ->
  add_total id a s = (Ok u, s') ->
  exists l, s' = set_totals l s /\ NoDup (keys pt_id l)
    /\ (forall x, total_in x l = total_in x (ls_position_totals s) + (if decide (x = id) then a else 0))
    /\ (forall t, t ∈ l -> 0 < pt_total t < U128).
Proof.
  intros Ha Hnd Hb H. unfold add_total in H. inv_all.
  destruct (find_key pt_id id (ls_position_totals _)) as [t|] eqn:Hf; inv_all; unfold add in *; inv_all; subst.
  - eexists. split; [done|]. split; [by rewrite keys_alter|]. split.
    + intros i. unfold total_in. case_decide as Hx.
      * subst i. by rewrite (find_key_alter_eq _ _ _ _ t), Hf by done.
      * rewrite find_key_alter_ne by (done || congruence). lia.
    + intros t' Ht'. apply elem_of_alter in Ht' as [?|(w & Hw & ->)]; [auto|]. simpl.
      apply find_key_Some in Hf as [_ Hin]. specialize (Hb _ Hin). lia.
  - eexists. split; [done|]. split.
    + rewrite keys_app. apply NoDup_app. split; [done|]. split; [|apply NoDup_singleton].
      intros i Hi. simpl. rewrite list_elem_of_singleton. intros ->. by apply find_key_None in Hf.
    + split.
      * intros i. unfold total_in. rewrite find_key_app. simpl.
        destruct (decide (i = id)) as [->|Hx]; [by rewrite Hf, decide_True|].
        rewrite decide_False by congruence. destruct (find_key pt_id i _); simpl; lia.
      * intros t. rewrite elem_of_app, list_elem_of_singleton. intros [?| ->]; [auto|done].
Qed.

Lemma sub_total_spec id a s u s' :
  0 < a -> NoDup (keys pt_id (ls_position_totals s)) ->
  (forall t, t ∈ ls_position_totals s -> 0 < pt_total t < U128) ->
  sub_total id a s = (Ok u, s') ->
  exists l, s' = set_totals l s /\ NoDup (keys pt_id l)
    /\ (forall x, total_in x l = total_in x (ls_position_totals s) + (if decide (x = id) then - a else 0))
    /\ (forall t, t ∈ l -> 0 < pt_total t < U128).
Proof.
  intros Ha Hnd Hb H. unfold sub_total, sub in H. inv_all.
  match goal with Hx : find_key _ _ _ = Some ?y |- _ => rename Hx into Hf, y into t end.
  assert (Hbt : 0 < pt_total t < U128) by (apply Hb; eapply find_key_Some; eauto).
  case_match eqn:Hz; inv_all; subst; simpl in *.
  - apply Z.eqb_eq in Hz. eexists. split; [done|].
    set (l := alter_key _ _ _ _).
    assert (Hl : NoDup (keys pt_id l)) by (subst l; by rewrite keys_alter).
    split; [by apply keys_remove_NoDup|]. split.
    + intros i. unfold total_in. case_decide as Hx.
      * subst i. rewrite find_key_remove_eq, Hf by done. simpl. lia.
      * rewrite find_key_remove_ne by congruence. subst l.
        rewrite find_key_alter_ne by (done || congruence). lia.
    + intros t' Ht'. pose proof (find_key_remove_eq pt_id id l Hl) as Hnone.
      apply find_key_None in Hnone.
      assert (pt_id t' <> id) by (intros <-; apply Hnone; by apply list_elem_of_fmap_2).
      apply elem_of_remove in Ht'. subst l.
      apply elem_of_alter in Ht' as [?|(w & Hw & ->)]; [auto|].
      apply find_key_Some in Hw as [Hw _]. simpl in *. congruence.
  - apply Z.eqb_neq in Hz. eexists. split; [done|]. split; [by rewrite keys_alter|]. split.
    + intros i. unfold total_in. case_decide as Hx.
      * subst i. rewrite (find_key_alter_eq _ _ _ _ t), Hf by done. simpl. lia.
      * rewrite find_key_alter_ne by (done || congruence). lia.
    + intros t' Ht'. apply elem_of_alter in Ht' as [?|(w & Hw & ->)]; [auto|]. simpl. lia.
Qed.

Lemma count_mut_spec {R} o (f : ST Z LedgerError R) s r s' :
  NoDup (keys pc_owner (ls_position_counts s)) ->
  count_mut o f s = (Ok r, s') ->
  exists n l, f (count_of o (ls_position_counts s)) = (Ok r, n)
    /\ s' = set_counts l s /\ NoDup (keys pc_owner l)
    /\ (forall x, count_of x l = if decide (x = o) then n else count_of x (ls_position_counts s))
    /\ (forall c, c ∈ l -> pc_owner c = o \/ c ∈ ls_position_counts s).
Proof.
  intros Hnd H. unfold count_mut in H.
  set (cs := match find_key _ _ _ with Some _ => _ | None => _ end) in H.
  assert (Hcs : NoDup (keys pc_owner cs)
    /\ (forall x, count_of x cs = count_of x (ls_position_counts s))
    /\ is_Some (find_key pc_owner o cs)
    /\ (forall c, c ∈ cs -> pc_owner c = o \/ c ∈ ls_position_counts s)).
  { subst cs. destruct (find_key pc_owner o (ls_position_counts s)) as [c|] eqn:Hf;
      [by rewrite Hf; eauto 8|].
    split.
    - rewrite keys_app. apply NoDup_app. split; [done|]. split; [|apply NoDup_singleton].
      intros i Hi. simpl. rewrite list_elem_of_singleton. intros ->. by apply find_key_None in Hf.
    - split; [|split].
      + intros x. unfold count_of. rewrite find_key_app. simpl.
        destruct (decide (o = x)) as [<-|?]; [by rewrite Hf|].
        by destruct (find_key pc_owner x _).
      + rewrite find_key_app, Hf. simpl. rewrite decide_True by done. eauto.
      + intros c. rewrite elem_of_app, list_elem_of_singleton. intros [?| ->]; auto. }
  destruct Hcs as (Hcs & Hcnt & [c Hc] & Hin). clearbody cs.
  fold (count_of o cs) in H. rewrite Hcnt in H.
  destruct (f _) as [r' n] eqn:Hn. simplify_eq. exists n. eexists.
  split; [done|]. split; [done|]. split; [by rewrite keys_alter|]. split.
  - intros x. unfold count_of. case_decide as Hx.
    + subst x. by rewrite (find_key_alter_eq _ _ _ _ c) by done.
    + rewrite find_key_alter_ne by (done || congruence). apply Hcnt.
  - intros c' Hc'. apply elem_of_alter in Hc' as [?|(w & Hw & ->)]; [auto|]. left. simpl.
    by apply find_key_Some in Hw as [? _].
Qed.
(** ** Position rows *)

Section rows.
Implicit Types (l : list (PositionRecord A)) (p : PositionRecord A).

Lemma push_rows l r :
  find_key pr_key (pr_key r) l = None -> NoDup (keys pr_key l) ->
  let l' := l ++ [r] in
  NoDup (keys pr_key l')
  /\ (forall x, supply_in x l' = supply_in x l + (if decide (x = pr_id r) then pr_balance r else 0))
  /\ (forall x o, balance_in x o l' =
       balance_in x o l + (if decide (x = pr_id r /\ o = pr_owner r) then pr_balance r else 0))
  /\ (forall o, backed o l' =
       backed o l + (if decide (o = pr_owner r /\ 0 < pr_deposit r) then 1 else 0))
  /\ sum_by pr_deposit l' = sum_by pr_deposit l + pr_deposit r.
Proof.
  intros Hf Hnd. split_and!.
  - rewrite keys_app. apply NoDup_app. split; [done|]. split; [|apply NoDup_singleton].
    intros i Hi. simpl. rewrite list_elem_of_singleton. intros ->. by apply find_key_None in Hf.
  - intros x. unfold supply_in. rewrite sum_by_app. simpl.
    destruct (decide (x = pr_id r)) as [->|?]; [rewrite decide_True by done|rewrite decide_False by congruence]; lia.
  - intros x o. unfold balance_in. rewrite find_key_app. simpl.
    destruct (decide (x = pr_id r /\ o = pr_owner r)) as [[-> ->]|Hne].
    + change (pr_key r) with (pr_id r, pr_owner r) in *. rewrite Hf. by rewrite decide_True by done.
    + destruct (find_key pr_key (x, o) l); [simpl; lia|].
      rewrite decide_False; [done|]. unfold pr_key. intros [= <- <-]. by apply Hne.
  - intros o. unfold backed. rewrite sum_by_app. simpl.
    destruct (decide (o = pr_owner r /\ 0 < pr_deposit r)) as [[-> ?]|?];
      [rewrite decide_True by done|rewrite decide_False by naive_solver]; lia.
  - rewrite sum_by_app. simpl. lia.
Qed.

Lemma set_balance_rows l id o p b :
  find_key pr_key (id, o) l = Some p -> NoDup (keys pr_key l) ->
  let l' := alter_key pr_key (id, o) (set_balance b) l in
  NoDup (keys pr_key l')
  /\ (forall x, supply_in x l' = supply_in x l + (if decide (x = id) then b - pr_balance p else 0))
  /\ (forall x o', balance_in x o' l' =
       balance_in x o' l + (if decide (x = id /\ o' = o) then b - pr_balance p else 0))
  /\ (forall o', backed o' l' = backed o' l)
  /\ sum_by pr_deposit l' = sum_by pr_deposit l
  /\ find_key pr_key (id, o) l' = Some (set_balance b p).
Proof.
  intros Hf Hnd. pose proof (find_key_Some _ _ _ _ Hf) as [[= Hid Ho] _]. split_and!.
  - by rewrite keys_alter.
  - intros x. unfold supply_in. rewrite (sum_by_alter _ _ _ _ _ p) by done. simpl. rewrite Hid.
    destruct (decide (x = id)) as [->|?]; [rewrite !decide_True by done|rewrite !decide_False by congruence]; lia.
  - intros x o'. unfold balance_in. destruct (decide (x = id /\ o' = o)) as [[-> ->]|Hne].
    + rewrite (find_key_alter_eq _ _ _ _ p), Hf by done. simpl. lia.
    + rewrite find_key_alter_ne by (done || (intros [= -> ->]; by apply Hne)). lia.
  - intros o'. unfold backed. rewrite (sum_by_alter _ _ _ _ _ p) by done. simpl. lia.
  - rewrite (sum_by_alter _ _ _ _ _ p) by done. simpl. lia.
  - by apply find_key_alter_eq.
Qed.

Lemma remove_rows l id o p :
  find_key pr_key (id, o) l = Some p -> pr_balance p = 0 -> NoDup (keys pr_key l) ->
  let l' := remove_key pr_key (id, o) l in
  NoDup (keys pr_key l')
  /\ (forall x, supply_in x l' = supply_in x l)
  /\ (forall x o', balance_in x o' l' = balance_in x o' l)
  /\ (forall o', backed o' l' =
       backed o' l - (if decide (o' = o /\ 0 < pr_deposit p) then 1 else 0))
  /\ sum_by pr_deposit l' = sum_by pr_deposit l - pr_deposit p.
Proof.
  intros Hf Hz Hnd. pose proof (find_key_Some _ _ _ _ Hf) as [[= Hid Ho] _]. split_and!.
  - by apply keys_remove_NoDup.
  - intros x. unfold supply_in. rewrite (sum_by_remove _ _ _ _ p) by done.
    case_decide; lia.
  - intros x o'. unfold balance_in. destruct (decide ((id, o) = (x, o'))) as [[= <- <-]|Hne].
    + rewrite find_key_remove_eq, Hf by done. simpl. lia.
    + by rewrite find_key_remove_ne.
  - intros o'. unfold backed. rewrite (sum_by_remove _ _ _ _ p) by done. rewrite Ho.
    destruct (decide (o' = o /\ 0 < pr_deposit p)) as [[-> ?]|?];
      [rewrite decide_True by done|rewrite decide_False by naive_solver]; lia.
  - by rewrite (sum_by_remove _ _ _ _ p) by done.
Qed.

Lemma backed_nonneg o l : 0 <= backed o l.
Proof. apply sum_by_nonneg. intros. case_decide; lia. Qed.

Lemma backed_pos o l id p :
  find_key pr_key (id, o) l = Some p -> 0 < pr_deposit p -> 0 < backed o l.
Proof.
  intros Hf Hd. pose proof (find_key_Some _ _ _ _ Hf) as [[= Hid Ho] Hin].
  set (m := fun p : PositionRecord A => if decide (pr_owner p = o /\ 0 < pr_deposit p) then 1 else 0).
  assert (Hge : m p <= sum_by m l) by (apply sum_by_ge; [intros; unfold m; case_decide; lia|done]).
  unfold backed. fold m. unfold m at 1 in Hge. rewrite decide_True in Hge by done. lia.
Qed.

End rows.

(** ** [mint] *)

Lemma take_deposit_spec o s u s' :
  NoDup (keys pc_owner (ls_position_counts s)) ->
  0 <= count_of o (ls_position_counts s) ->
  take_deposit o s = (Ok u, s') ->
  exists l, s' = set_deposits (ls_deposits_held s + POSITION_DEPOSIT_USDC) (set_counts l s)
    /\ NoDup (keys pc_owner l)
    /\ (forall x, count_of x l = count_of x (ls_position_counts s) + (if decide (x = o) then 1 else 0))
    /\ (forall c, c ∈ l -> pc_owner c = o \/ c ∈ ls_position_counts s)
    /\ count_of o (ls_position_counts s) < MAX_POSITIONS_PER_ACCOUNT
    /\ ls_deposits_held s + POSITION_DEPOSIT_USDC < U128.
Proof.
  intros Hnd Hpos H. unfold take_deposit in H.
  apply bind_Ok in H as (u1 & s1 & Hc & H).
  apply count_mut_spec in Hc as (n & l & Hf & -> & Hl & Hcnt & Hin); [|done].
  unfold add in *. inv_all. simplify_eq.
  to_prop. exists l. split_and!; try done.
  intros x. rewrite Hcnt. case_decide; [subst|lia].
  unfold MAX_POSITIONS_PER_ACCOUNT in *. apply wrap_small. lia.
Qed.

(** A state that differs from a well-formed one in its position tables only
    is well-formed when the tables are. *)
Lemma Core_tables s s' :
  Core s -> Frame s s' ->
  NoDup (keys pr_key (ls_positions s')) ->
  (forall p, p ∈ ls_positions s' -> position_ok s p) ->
  NoDup (keys pt_id (ls_position_totals s')) ->
  (forall id, total_in id (ls_position_totals s') = supply_in id (ls_positions s')) ->
  (forall t, t ∈ ls_position_totals s' -> 0 < pt_total t < U128) ->
  NoDup (keys pc_owner (ls_position_counts s')) ->
  (forall o, count_of o (ls_position_counts s') = backed o (ls_positions s')) ->
  (forall o, backed o (ls_positions s') <= MAX_POSITIONS_PER_ACCOUNT) ->
  (forall c, c ∈ ls_position_counts s' -> pc_owner c ∉ ls_protocol_accounts s) ->
  ls_deposits_held s' = sum_by pr_deposit (ls_positions s') ->
  is_u128 (ls_deposits_held s') ->
  Core s'.
Proof.
  intros [] Hfr ? Hpos **. pose proof Hfr as [Hv Hb _ Hp].
  split; rewrite ?Hv, ?Hb, ?Hp; try done.
  intros p Hin. destruct (Hpos p Hin) as (? & ? & ?). split_and!; [tauto|tauto| |].
  - by rewrite Hp.
  - by eapply known_vault_frame.
Qed.

Lemma dep_nonneg s p : Core s -> p ∈ ls_positions s -> 0 <= pr_deposit p.
Proof.
  intros HC Hp. destruct (core_pos _ HC _ Hp) as (_ & [->|[-> _]] & _);
    unfold POSITION_DEPOSIT_USDC; lia.
Qed.

Lemma mint_existing id who a p s u s' :
  Core s -> 0 < a < U128 -> find_key pr_key (id, who) (ls_positions s) = Some p ->
  pr_balance p + a < U128 ->
  add_total id a (set_positions (alter_key pr_key (id, who) (set_balance (pr_balance p + a))
    (ls_positions s)) s) = (Ok u, s') ->
  Core s' /\ Frame s s' /\ Moved id who a s s'.
Proof.
  intros HC Ha Hf Hlt H.
  apply add_total_spec in H as (l & -> & Hnd & Htot & Hbd); [|done|apply HC..].
  destruct (set_balance_rows _ _ _ _ (pr_balance p + a) Hf (core_pos_keys _ HC))
    as (Hk & Hsup & Hbal & Hbk & Hdep & _).
  assert (Hfr : Frame s (set_totals l (set_positions (alter_key pr_key (id, who)
    (set_balance (pr_balance p + a)) (ls_positions s)) s))) by done.
  split; [|split; [done|]].
  - eapply (Core_tables s); try done; simpl.
    + intros q Hq. apply elem_of_alter in Hq as [?|(w & Hw & ->)]; [by apply HC|].
      simplify_eq. apply find_key_Some in Hf as [_ Hin].
      destruct (core_pos _ HC _ Hin) as (? & ? & ?). split_and!; try done; simpl; lia.
    + intros x. rewrite Htot, Hsup, (core_tot _ HC). simpl. case_decide; lia.
    + apply HC.
    + intros o. rewrite Hbk. apply HC.
    + intros o. rewrite Hbk. apply HC.
    + apply HC.
    + rewrite Hdep. apply HC.
    + apply HC.
  - split; [exact Htot|]. intros x o. etrans; [apply Hbal|].
    change (position_balance_of x o s) with (balance_in x o (ls_positions s)). case_decide; lia.
Qed.

Lemma push_core id who a s s1 cs d dep u s' :
  Core s -> 0 < a < U128 -> known_vault id s ->
  find_key pr_key (id, who) (ls_positions s) = None ->
  s1 = set_deposits d (set_counts cs s) ->
  (dep = POSITION_DEPOSIT_USDC \/ (dep = 0 /\ who ∈ ls_protocol_accounts s)) ->
  d = ls_deposits_held s + dep -> d < U128 ->
  NoDup (keys pc_owner cs) ->
  (forall x, count_of x cs = count_of x (ls_position_counts s)
     + (if decide (x = who /\ 0 < dep) then 1 else 0)) ->
  (0 < dep -> count_of who (ls_position_counts s) < MAX_POSITIONS_PER_ACCOUNT) ->
  (forall c, c ∈ cs -> pc_owner c ∉ ls_protocol_accounts s) ->
  add_total id a (set_positions (ls_positions s1 ++
    [{| pr_id := id; pr_owner := who; pr_balance := a; pr_deposit := dep |}]) s1) = (Ok u, s') ->
  Core s' /\ Frame s s' /\ Moved id who a s s'.
Proof.
  intros HC Ha Hkv Hf -> Hdep -> Hlt Hcs Hcnt Hcap Hprot H.
  apply add_total_spec in H as (l & -> & Hnd & Htot & Hbd); [|done|apply HC..].
  set (r := {| pr_id := id; pr_owner := who; pr_balance := a; pr_deposit := dep |}).
  destruct (push_rows (ls_positions s) r Hf (core_pos_keys _ HC)) as (Hk & Hsup & Hbal & Hbk & Hsum).
  subst r. simpl in *. assert (0 <= dep) by (unfold POSITION_DEPOSIT_USDC in *; destruct Hdep as [->|[-> _]]; lia).
  split; [|split; [done|]].
  - eapply (Core_tables s); try done; simpl.
    + intros q. rewrite elem_of_app, list_elem_of_singleton. intros [?| ->]; [by apply HC|done].
    + intros x. rewrite Htot, Hsup, (core_tot _ HC). done.
    + intros o. rewrite Hcnt, Hbk, (core_cnt _ HC). done.
    + intros o. rewrite Hbk. pose proof (core_cnt_cap _ HC o). pose proof (core_cnt _ HC o).
      destruct (decide (o = who /\ 0 < dep)) as [[-> Hd]|_]; [|lia]. specialize (Hcap Hd). simpl in *. lia.
    + rewrite Hsum, (core_dep _ HC). done.
    + pose proof (core_dep_bound _ HC). lia.
  - split; [exact Htot|]. intros x o. apply Hbal.
Qed.

Lemma mint_spec id who a s u s' :
  Core s -> 0 <= a < U128 -> known_vault id s -> mint id who a s = (Ok u, s') ->
  Core s' /\ Frame s s' /\ Moved id who a s s'.
Proof.
  intros HC Ha Hkv H. unfold mint in H. case_match eqn:Hz; to_prop.
  { inv_all. simplify_eq. split_and!; [done|apply Frame_refl|apply Moved_zero]. }
  rewrite bind_get in H. apply bind_Ok in H as (u1 & s1 & Hp & H).
  destruct (find_key pr_key (id, who) _) as [p|] eqn:Hf.
  - unfold add in *. inv_all. simplify_eq. eapply mint_existing; eauto; lia.
  - destruct (bool_decide (who ∈ _)) eqn:Hb; to_prop; simpl in Hp.
    + inv_all. simplify_eq.
      eapply (push_core _ _ _ _ _ (ls_position_counts s) (ls_deposits_held s) 0);
        [exact HC|lia|done|done|by destruct s|by right|lia|apply HC|apply HC| | |apply HC|exact H].
      * intros x. rewrite decide_False by lia. lia.
      * lia.
    + apply bind_Ok in Hp as (u2 & s2 & Ht & Hp).
      apply take_deposit_spec in Ht as (l & -> & Hl & Hcnt & Hin & Hcap & Hd); [|apply HC|].
      2: { rewrite (core_cnt _ HC). apply backed_nonneg. }
      inv_all. simplify_eq.
      eapply (push_core _ _ _ _ _ l _ POSITION_DEPOSIT_USDC);
        [exact HC|lia|done|done|done|by left|done|done|done| |done| |exact H].
      * intros x. rewrite Hcnt. unfold POSITION_DEPOSIT_USDC.
        destruct (decide (x = who)); [rewrite decide_True by done|rewrite decide_False by tauto]; lia.
      * intros c Hc. destruct (Hin _ Hc) as [->|?]; [done|]. by apply HC.
Qed.
(** ** [burn] *)

Lemma release_deposit_spec o dep s u s' :
  NoDup (keys pc_owner (ls_position_counts s)) ->
  0 <= dep -> (0 < dep -> 0 < count_of o (ls_position_counts s) < U32) ->
  release_deposit o dep s = (Ok u, s') ->
  exists l, s' = set_counts l (set_deposits (ls_deposits_held s - dep) s)
    /\ NoDup (keys pc_owner l) /\ (0 < dep -> dep <= ls_deposits_held s)
    /\ (forall x, count_of x l = count_of x (ls_position_counts s)
         - (if decide (x = o /\ 0 < dep) then 1 else 0))
    /\ (forall c, c ∈ l -> c ∈ ls_position_counts s \/ (pc_owner c = o /\ 0 < dep)).
Proof.
  intros Hnd Hdep Hcnt H. unfold release_deposit in H. case_match eqn:Hd; to_prop.
  - rewrite bind_get in H. apply bind_Ok in H as (d & s1 & Hs & H). unfold sub in Hs. inv_all.
    apply count_mut_spec in H as (n & l & Hn & -> & Hl & Hx & Hin); [|done]. inv_all.
    exists l. split_and!; try done.
    + intros x. rewrite Hx. simpl in *.
      destruct (decide (x = o)) as [->|?];
        [rewrite decide_True by done|rewrite decide_False by tauto; lia].
      apply wrap_small. specialize (Hcnt Hd). lia.
    + intros c Hc. destruct (Hin _ Hc); auto.
  - inv_all. exists (ls_position_counts s). replace (ls_deposits_held s - dep) with (ls_deposits_held s) by lia.
    split_and!; try done; [by destruct s|lia| |auto].
    intros x. rewrite decide_False by lia. lia.
Qed.

Lemma burn_keep id who a p l s :
  Core s -> 0 < a -> find_key pr_key (id, who) (ls_positions s) = Some p ->
  a < pr_balance p ->
  NoDup (keys pt_id l) ->
  (forall x, total_in x l = total_in x (ls_position_totals s) + (if decide (x = id) then - a else 0)) ->
  (forall t, t ∈ l -> 0 < pt_total t < U128) ->
  let s' := set_totals l (set_positions (alter_key pr_key (id, who)
              (set_balance (pr_balance p - a)) (ls_positions s)) s) in
  Core s' /\ Frame s s' /\ Moved id who (- a) s s'.
Proof.
  intros HC Ha Hf Hlt Hnd Htot Hbd s'.
  destruct (set_balance_rows _ _ _ _ (pr_balance p - a) Hf (core_pos_keys _ HC))
    as (Hk & Hsup & Hbal & Hbk & Hdep & _).
  split; [|split; [done|]].
  - eapply (Core_tables s); try done; simpl.
    + intros q Hq. apply elem_of_alter in Hq as [?|(w & Hw & ->)]; [by apply HC|].
      simplify_eq. apply find_key_Some in Hf as [_ Hin].
      destruct (core_pos _ HC _ Hin) as (? & ? & ?). split_and!; try done; simpl; lia.
    + intros x. rewrite Htot, Hsup, (core_tot _ HC). case_decide; lia.
    + apply HC.
    + intros o. rewrite Hbk. apply HC.
    + intros o. rewrite Hbk. apply HC.
    + apply HC.
    + rewrite Hdep. apply HC.
    + apply HC.
  - split; [exact Htot|]. intros x o. etrans; [apply Hbal|].
    change (position_balance_of x o s) with (balance_in x o (ls_positions s)). case_decide; lia.
Qed.

Lemma burn_close id who a p l cs s :
  Core s -> 0 < a -> find_key pr_key (id, who) (ls_positions s) = Some p ->
  a = pr_balance p ->
  NoDup (keys pt_id l) ->
  (forall x, total_in x l = total_in x (ls_position_totals s) + (if decide (x = id) then - a else 0)) ->
  (forall t, t ∈ l -> 0 < pt_total t < U128) ->
  NoDup (keys pc_owner cs) ->
  (forall x, count_of x cs = count_of x (ls_position_counts s)
         - (if decide (x = who /\ 0 < pr_deposit p) then 1 else 0)) ->
  (forall c, c ∈ cs -> pc_owner c ∉ ls_protocol_accounts s) ->
  let s' := set_counts cs (set_deposits (ls_deposits_held s - pr_deposit p) (set_totals l
    (set_positions (remove_key pr_key (id, who) (alter_key pr_key (id, who)
              (set_balance (pr_balance p - a)) (ls_positions s))) s))) in
  Core s' /\ Frame s s' /\ Moved id who (- a) s s'.
Proof.
  intros HC Ha Hf Hlt Hnd Htot Hbd Hcs Hcnt Hprot s'.
  destruct (set_balance_rows _ _ _ _ (pr_balance p - a) Hf (core_pos_keys _ HC))
    as (Hk & Hsup & Hbal & Hbk & Hdep & Hf').
  destruct (remove_rows _ _ _ _ Hf' ltac:(simpl; lia) Hk) as (Hk2 & Hsup2 & Hbal2 & Hbk2 & Hdep2).
  simpl in Hbk2, Hdep2.
  pose proof (find_key_Some _ _ _ _ Hf) as [_ Hin].
  split; [|split; [done|]].
  - eapply (Core_tables s); try done; simpl.
    + intros q Hq. pose proof (find_key_elem _ _ _ Hk2 Hq) as Hq'.
      assert (Hne : pr_key q <> (id, who)).
      { intros Heq. rewrite Heq, find_key_remove_eq in Hq' by done. done. }
      apply elem_of_remove, elem_of_alter in Hq as [?|(w & Hw & ->)]; [by apply HC|].
      exfalso. apply Hne. simplify_eq. by apply find_key_Some in Hf as [? _].
    + intros x. rewrite Htot, Hsup2, Hsup, (core_tot _ HC). goal_decide; lia.
    + intros o. rewrite Hcnt, Hbk2, Hbk, (core_cnt _ HC). done.
    + intros o. rewrite Hbk2, Hbk. pose proof (core_cnt_cap _ HC o). goal_decide; lia.
    + rewrite Hdep2, Hdep, (core_dep _ HC). done.
    + pose proof (core_dep_bound _ HC). pose proof (core_dep _ HC).
      pose proof (dep_nonneg _ _ HC Hin).
      pose proof (sum_by_ge pr_deposit (ls_positions s) p ltac:(intros; by eapply dep_nonneg) Hin). lia.
  - split; [exact Htot|]. intros x o. etrans; [apply Hbal2|]. rewrite Hbal.
    change (position_balance_of x o s) with (balance_in x o (ls_positions s)). goal_decide; lia.
Qed.

Lemma count_bound o s : Core s -> 0 <= count_of o (ls_position_counts s) < U32.
Proof.
  intros HC. rewrite (core_cnt _ HC). pose proof (core_cnt_cap _ HC o).
  pose proof (backed_nonneg o (ls_positions s)). unfold MAX_POSITIONS_PER_ACCOUNT in *. lia.
Qed.

(** A deposit-backed owner has a count row, hence is not a protocol account. *)
Lemma backed_not_protocol id who p s :
  Core s -> find_key pr_key (id, who) (ls_positions s) = Some p -> 0 < pr_deposit p ->
  who ∉ ls_protocol_accounts s.
Proof.
  intros HC Hf Hd. pose proof (backed_pos _ _ _ _ Hf Hd) as Hpos. rewrite <- (core_cnt _ HC) in Hpos.
  unfold count_of in Hpos. destruct (find_key pc_owner who _) as [c|] eqn:Hc; [|simpl in Hpos; lia].
  apply find_key_Some in Hc as [<- Hin]. by apply HC.
Qed.

Lemma burn_spec id who a s u s' :
  Core s -> 0 <= a -> burn id who a s = (Ok u, s') ->
  Core s' /\ Frame s s' /\ Moved id who (- a) s s' /\ a <= position_balance_of id who s.
Proof.
  intros HC Ha H. unfold burn in H. case_match eqn:Hz; to_prop.
  { inv_all. subst a. split_and!; [done|apply Frame_refl|apply Moved_zero|].
    unfold position_balance_of. destruct (find_key _ _ _) as [p|] eqn:Hf; simpl; [|lia].
    apply find_key_Some in Hf as [_ Hin]. destruct (core_pos _ HC _ Hin). lia. }
  apply bind_Ok in H as (p & s0 & Hf & H). apply reads_Ok in Hf as [Hf ->]. apply ok_or_Ok in Hf.
  apply bind_Ok in H as (u0 & s0 & He & H). apply lift_Ok in He as [He ->]. apply ensure_Ok in He.
  to_prop. rewrite bind_modify in H.
  apply bind_Ok in H as (u1 & s1 & Ht & H).
  apply sub_total_spec in Ht as (l & -> & Hnd & Htot & Hbd); [|lia|apply HC..].
  simpl in Htot.
  assert (Hle : a <= position_balance_of id who s).
  { unfold position_balance_of. rewrite Hf. simpl. done. }
  pose proof (find_key_Some _ _ _ _ Hf) as [_ Hin].
  pose proof (dep_nonneg _ _ HC Hin) as Hdep.
  case_match eqn:Hb; to_prop.
  - rewrite bind_modify in H.
    apply release_deposit_spec in H as (cs & -> & Hcs & _ & Hcnt & Hcin); [|apply HC|done|].
    + assert (a = pr_balance p) by lia.
      destruct (burn_close id who a p l cs s) as (? & ? & ?); try done; [lia|].
      intros c Hc. destruct (Hcin _ Hc) as [?|[-> Hd]]; [by apply HC|by eapply backed_not_protocol].
    + intros Hd. simpl. pose proof (count_bound who s HC). split; [|lia].
      rewrite (core_cnt _ HC). by eapply backed_pos.
  - inv_all. destruct (burn_keep id who a p l s) as (? & ? & ?); try done; lia.
Qed.

End core.
