(* ===== verification/LedgerSolvency.v ===== *)
(** * The invariant of the whole ledger, and its preservation

    [Inv] joins the structural invariant [Core] with [vault_ok] / [base_ok]
    for every vault.  Each operation of Ledger keeps it: the operation's body
    is taken apart into its table steps, whose effects on the claims are
    composed and handed to the vault lemma of the operation. *)

From S2P Require Import Prelude Keyed Primitives Ledger LedgerVault LedgerInv.

Section solvency.
Context {A : Type} `{EqDecision A}.

Local Abbreviation LS := (LedgerState A).
Implicit Types (s : LS) (pid : ProposalId) (id : PositionId) (who o : A) (a : Z).

(** Outstanding supplies of a proposal vault. *)
Definition claims_of pid s : claims := fun b k => total (position pid b k) s.

Record Inv s : Prop := {
  inv_core : Core s;
  inv_vaults : forall v, v ∈ ls_vaults s -> vault_ok (vr_info v) (claims_of (vr_proposal v) s);
  inv_bases : forall v, v ∈ ls_baseline_vaults s ->
    base_ok (br_info v) (total (baseline (br_epoch v) SideLong) s)
                        (total (baseline (br_epoch v) SideShort) s);
}.

Definition put_vault pid (info : VaultInfo) s : LS :=
  set_vaults (alter_key vr_proposal pid
    (fun v => {| vr_proposal := vr_proposal v; vr_info := info |}) (ls_vaults s)) s.

Definition put_base (e : EpochId) (info : BaselineVaultInfo) s : LS :=
  set_bases (alter_key br_epoch e
    (fun v => {| br_epoch := br_epoch v; br_info := info |}) (ls_baseline_vaults s)) s.

(** ** Steps *)

Lemma with_vault_mut_Ok {R} pid (f : ST VaultInfo LedgerError R) s r s' :
  with_vault_mut pid f s = (Ok r, s') <->
  exists v info, find_key vr_proposal pid (ls_vaults s) = Some v
    /\ f (vr_info v) = (Ok r, info) /\ s' = put_vault pid info s.
Proof.
  unfold with_vault_mut, put_vault. destruct (find_key _ _ _) as [v|]; [|naive_solver].
  destruct (f (vr_info v)) as [r' info] eqn:Hf. split.
  - intros [= -> <-]. eauto 6.
  - intros (w & info' & [= <-] & Hf' & ->). rewrite Hf in Hf'. by simplify_eq.
Qed.

Lemma with_base_mut_Ok {R} e (f : ST BaselineVaultInfo LedgerError R) s r s' :
  with_base_mut e f s = (Ok r, s') <->
  exists v info, find_key br_epoch e (ls_baseline_vaults s) = Some v
    /\ f (br_info v) = (Ok r, info) /\ s' = put_base e info s.
Proof.
  unfold with_base_mut, put_base. destruct (find_key _ _ _) as [v|]; [|naive_solver].
  destruct (f (br_info v)) as [r' info] eqn:Hf. split.
  - intros [= -> <-]. eauto 6.
  - intros (w & info' & [= <-] & Hf' & ->). rewrite Hf in Hf'. by simplify_eq.
Qed.

Lemma check_vault_Ok {R} pid (f : VaultInfo -> Result LedgerError R) s r :
  check_vault pid f s = Ok r <->
  exists v, find_key vr_proposal pid (ls_vaults s) = Some v /\ f (vr_info v) = Ok r.
Proof. unfold check_vault, with_vault. destruct (find_key _ _ _); simpl; naive_solver. Qed.

Lemma check_base_Ok {R} e (f : BaselineVaultInfo -> Result LedgerError R) s r :
  check_base e f s = Ok r <->
  exists v, find_key br_epoch e (ls_baseline_vaults s) = Some v /\ f (br_info v) = Ok r.
Proof. unfold check_base, with_base. destruct (find_key _ _ _); simpl; naive_solver. Qed.

Lemma ensure_holds_Ok id who a s u :
  ensure_holds id who a s = Ok u <-> a <= position_balance_of id who s.
Proof. unfold ensure_holds. rewrite ensure_Ok. apply Z.leb_le. Qed.

Lemma settled_Ok pid s w score :
  settled pid s = Ok (w, score) <->
  exists v, find_key vr_proposal pid (ls_vaults s) = Some v /\ vi_state (vr_info v) = ScalarSettled w score.
Proof. unfold settled. rewrite check_vault_Ok. split; intros (v & ? & Hv); exists v; (split; [done|]); repeat case_match; naive_solver. Qed.

Lemma settled_winner_Ok pid s w :
  settled_winner pid s = Ok w <-> exists score, settled pid s = Ok (w, score).
Proof.
  unfold settled_winner. rewrite rmap_Ok. split; [intros ([w' score] & ? & ->); eauto|].
  intros (score & ?). eexists. split; [done|done].
Qed.

Lemma base_settled_Ok e s score :
  base_settled e s = Ok score <->
  exists v, find_key br_epoch e (ls_baseline_vaults s) = Some v /\ bv_state (br_info v) = BaselineSettled score.
Proof. unfold base_settled. rewrite check_base_Ok. split; intros (v & ? & Hv); exists v; (split; [done|]); repeat case_match; naive_solver. Qed.

Lemma Core_put_vault pid info s : Core s -> Core (put_vault pid info s).
Proof.
  intros HC. split; simpl; try apply HC.
  - rewrite keys_alter by done. apply HC.
  - intros p Hp. destruct (core_pos _ HC _ Hp) as (? & ? & Hk). split_and!; [tauto..|].
    destruct (pr_id p) as [pid' ? ?|]; simpl in *; [|done].
    destruct (decide (pid = pid')) as [->|?].
    + destruct Hk as [w Hw]. by erewrite find_key_alter_eq.
    + by rewrite find_key_alter_ne.
Qed.

Lemma Core_put_base e info s : Core s -> Core (put_base e info s).
Proof.
  intros HC. split; simpl; try apply HC.
  - rewrite keys_alter by done. apply HC.
  - intros p Hp. destruct (core_pos _ HC _ Hp) as (? & ? & Hk). split_and!; [tauto..|].
    destruct (pr_id p) as [|e' ?]; simpl in *; [done|].
    destruct (decide (e = e')) as [->|?].
    + destruct Hk as [w Hw]. by erewrite find_key_alter_eq.
    + by rewrite find_key_alter_ne.
Qed.

Lemma push_event_Ok ev s u s' :
  push_event ev s = (Ok u, s') -> Core s -> Core s' /\ ls_vaults s' = ls_vaults s
    /\ ls_baseline_vaults s' = ls_baseline_vaults s /\ (forall x, total x s' = total x s)
    /\ ls_events s' = ls_events s ++ [ev] /\ (forall x o, position_balance_of x o s' = position_balance_of x o s).
Proof. intros H HC. unfold push_event in H. inv_all. split_and!; try done. by destruct HC. Qed.

(** A holder's balance is part of the supply. *)
Lemma balance_le_total id who s : Core s -> position_balance_of id who s <= total id s.
Proof.
  intros HC. unfold total. fold (total_in id (ls_position_totals s)). rewrite (core_tot _ HC).
  assert (Hpos : forall p, p ∈ ls_positions s -> 0 <= (if decide (pr_id p = id) then pr_balance p else 0)).
  { intros p Hp. destruct (core_pos _ HC _ Hp). goal_decide; lia. }
  unfold position_balance_of. destruct (find_key _ _ _) as [p|] eqn:Hf; simpl.
  - apply find_key_Some in Hf as [[= Hid _] Hin].
    pose proof (sum_by_ge _ _ _ Hpos Hin) as Hge. simpl in Hge. rewrite decide_True in Hge by done. exact Hge.
  - by apply sum_by_nonneg.
Qed.

Lemma total_nonneg id s : Core s -> 0 <= total id s.
Proof.
  intros HC. unfold total. destruct (find_key _ _ _) as [t|] eqn:Hf; simpl; [|lia].
  apply find_key_Some in Hf as [_ Hin]. pose proof (core_tot_bound _ HC _ Hin). lia.
Qed.

(** ** Composition of effects on the claims *)

#[export] Instance claims_eq_equiv : Equivalence claims_eq.
Proof. unfold claims_eq. apply _. Qed.

#[export] Instance add_claim_proper b k d : Proper (claims_eq ==> claims_eq) (add_claim b k d).
Proof. intros c c' Hc b' k'. unfold add_claim. by rewrite (Hc b' k'). Qed.

Lemma claims_moved pid b k who d s s' :
  Moved (position pid b k) who d s s' ->
  claims_eq (claims_of pid s') (add_claim b k d (claims_of pid s)).
Proof.
  intros [Ht _] b' k'. unfold claims_of, add_claim. rewrite Ht. f_equal.
  destruct (decide (b' = b /\ k' = k)) as [[-> ->]|Hne]; [by rewrite decide_True|].
  rewrite decide_False; [done|]. intros [= -> ->]. by apply Hne.
Qed.

(** The other vaults do not notice. *)
Definition untouched (P : PositionId -> Prop) s s' : Prop :=
  forall x, ~ P x -> total x s' = total x s.

Definition of_vault pid (x : PositionId) : Prop := exists b k, x = position pid b k.
Definition of_base (e : EpochId) (x : PositionId) : Prop := exists side, x = baseline e side.

Lemma untouched_refl P s : untouched P s s.
Proof. done. Qed.

Lemma untouched_trans P s1 s2 s3 : untouched P s1 s2 -> untouched P s2 s3 -> untouched P s1 s3.
Proof. intros H1 H2 x Hx. rewrite H2, H1; done. Qed.

Lemma untouched_moved (P : PositionId -> Prop) id who d s s' :
  P id -> Moved id who d s s' -> untouched P s s'.
Proof. intros HP [Ht _] x Hx. rewrite Ht. rewrite decide_False; [lia|]. by intros ->. Qed.

Lemma Inv_vault_op pid v info s s' :
  Inv s -> Core s' -> find_key vr_proposal pid (ls_vaults s) = Some v ->
  ls_vaults s' = ls_vaults (put_vault pid info s) ->
  ls_baseline_vaults s' = ls_baseline_vaults s ->
  untouched (of_vault pid) s s' ->
  vault_ok info (claims_of pid s') -> Inv s'.
Proof.
  intros [HC Hv Hb] HC' Hf Hvs Hbs Hun Hok. split; [done| |].
  - intros w. rewrite Hvs. simpl. intros Hw.
    apply elem_of_alter_NoDup in Hw as [[Hne Hw]|(w' & Hw' & ->)]; [| |apply HC|done].
    + specialize (Hv _ Hw). eapply vault_ok_proper; [reflexivity| |exact Hv].
      intros b k. symmetry. symmetry. apply Hun. intros (b' & k' & [= ? _ _]). done.
    + simplify_eq. simpl. apply find_key_Some in Hf as [-> _]. done.
  - intros w. rewrite Hbs. intros Hw. rewrite !Hun by (intros (? & ? & [=])). by apply Hb.
Qed.

Lemma Inv_base_op e v info s s' :
  Inv s -> Core s' -> find_key br_epoch e (ls_baseline_vaults s) = Some v ->
  ls_vaults s' = ls_vaults s ->
  ls_baseline_vaults s' = ls_baseline_vaults (put_base e info s) ->
  untouched (of_base e) s s' ->
  base_ok info (total (baseline e SideLong) s') (total (baseline e SideShort) s') -> Inv s'.
Proof.
  intros [HC Hv Hb] HC' Hf Hvs Hbs Hun Hok. split; [done| |].
  - intros w. rewrite Hvs. intros Hw. eapply vault_ok_proper; [reflexivity| |by apply Hv].
    intros b k. apply Hun. intros (? & [=]).
  - intros w. rewrite Hbs. simpl. intros Hw.
    apply elem_of_alter_NoDup in Hw as [[Hne Hw]|(w' & Hw' & ->)]; [| |apply HC|done].
    + rewrite !Hun by (intros (? & [= ? _]); done). by apply Hb.
    + simplify_eq. simpl. apply find_key_Some in Hf as [-> _]. done.
Qed.

Lemma Inv_vault_at pid v s :
  Inv s -> find_key vr_proposal pid (ls_vaults s) = Some v -> vault_ok (vr_info v) (claims_of pid s).
Proof. intros HI Hf. apply find_key_Some in Hf as [<- Hin]. by apply HI. Qed.

Lemma Inv_base_at e v s :
  Inv s -> find_key br_epoch e (ls_baseline_vaults s) = Some v ->
  base_ok (br_info v) (total (baseline e SideLong) s) (total (baseline e SideShort) s).
Proof. intros HI Hf. apply find_key_Some in Hf as [<- Hin]. by apply HI. Qed.

(** Two consecutive writes to the same vault are one. *)
Lemma put_vault_twice pid i1 i2 s : put_vault pid i2 (put_vault pid i1 s) = put_vault pid i2 s.
Proof. unfold put_vault. simpl. by rewrite alter_key_alter. Qed.

Lemma put_base_twice e i1 i2 s : put_base e i2 (put_base e i1 s) = put_base e i2 s.
Proof. unfold put_base. simpl. by rewrite alter_key_alter. Qed.

Lemma with_vault_mut_fuse {R Q} pid (f : ST VaultInfo LedgerError R) (g : ST VaultInfo LedgerError Q)
    s s1 s2 r q :
  with_vault_mut pid f s = (Ok r, s1) -> with_vault_mut pid g s1 = (Ok q, s2) ->
  with_vault_mut pid (do! f in g) s = (Ok q, s2).
Proof.
  rewrite !with_vault_mut_Ok. intros (v & i1 & Hf & H1 & ->) (w & i2 & Hf2 & H2 & ->).
  simpl in Hf2. rewrite (find_key_alter_eq _ _ _ _ v) in Hf2 by done. simplify_eq. simpl in H2.
  exists v, i2. rewrite put_vault_twice. split_and!; try done. rewrite bind_Ok. eauto.
Qed.

Lemma with_base_mut_fuse {R Q} e (f : ST BaselineVaultInfo LedgerError R)
    (g : ST BaselineVaultInfo LedgerError Q) s s1 s2 r q :
  with_base_mut e f s = (Ok r, s1) -> with_base_mut e g s1 = (Ok q, s2) ->
  with_base_mut e (do! f in g) s = (Ok q, s2).
Proof.
  rewrite !with_base_mut_Ok. intros (v & i1 & Hf & H1 & ->) (w & i2 & Hf2 & H2 & ->).
  simpl in Hf2. rewrite (find_key_alter_eq _ _ _ _ v) in Hf2 by done. simplify_eq. simpl in H2.
  exists v, i2. rewrite put_base_twice. split_and!; try done. rewrite bind_Ok. eauto.
Qed.

Lemma known_put_vault id pid info s : known_vault id s -> known_vault id (put_vault pid info s).
Proof.
  destruct id as [pid' ? ?|]; simpl; [|done].
  destruct (decide (pid = pid')) as [->|?]; [|by rewrite find_key_alter_ne].
  intros [w Hw]. by erewrite find_key_alter_eq.
Qed.

Lemma known_put_base id e info s : known_vault id s -> known_vault id (put_base e info s).
Proof.
  destruct id as [|e' ?]; simpl; [done|].
  destruct (decide (e = e')) as [->|?]; [|by rewrite find_key_alter_ne].
  intros [w Hw]. by erewrite find_key_alter_eq.
Qed.

Lemma known_position pid b k s v :
  find_key vr_proposal pid (ls_vaults s) = Some v -> known_vault (position pid b k) s.
Proof. intros Hf. by exists v. Qed.

Lemma known_baseline e side s v :
  find_key br_epoch e (ls_baseline_vaults s) = Some v -> known_vault (baseline e side) s.
Proof. intros Hf. by exists v. Qed.

End solvency.

Create HintDb ledger.
#[export] Hint Resolve known_put_vault known_put_base known_vault_frame : ledger.
#[export] Hint Extern 2 (known_vault (position _ _ _) _) => eapply known_position; eassumption : ledger.
#[export] Hint Extern 2 (known_vault (baseline _ _) _) => eapply known_baseline; eassumption : ledger.

(** ** One step of a body, from a state known to be well-formed *)

Ltac step_vault H :=
  let v := fresh "v" in let info := fresh "info" in
  let Hf := fresh "Hfind" in let Hb := fresh "Hbody" in
  apply with_vault_mut_Ok in H as (v & info & Hf & Hb & ->).

Ltac step_base H :=
  let v := fresh "v" in let info := fresh "info" in
  let Hf := fresh "Hfind" in let Hb := fresh "Hbody" in
  apply with_base_mut_Ok in H as (v & info & Hf & Hb & ->).

(** Fuses double writes, then walks from the [Core] state on. *)
Ltac walk :=
  repeat match goal with
  | H1 : with_vault_mut ?pid _ ?s = (Ok _, ?s1), H2 : with_vault_mut ?pid _ ?s1 = (Ok _, _) |- _ =>
      pose proof (with_vault_mut_fuse _ _ _ _ _ _ _ _ H1 H2); clear H1 H2
  | H1 : with_base_mut ?pid _ ?s = (Ok _, ?s1), H2 : with_base_mut ?pid _ ?s1 = (Ok _, _) |- _ =>
      pose proof (with_base_mut_fuse _ _ _ _ _ _ _ _ H1 H2); clear H1 H2
  | H : check_vault _ _ _ = Ok _ |- _ =>
      let v := fresh "v" in apply check_vault_Ok in H; destruct H as (v & ? & ?)
  | H : check_base _ _ _ = Ok _ |- _ =>
      let v := fresh "v" in apply check_base_Ok in H; destruct H as (v & ? & ?)
  | H : ensure_vault _ _ = Ok _ |- _ => apply ensure_Ok in H
  | H : ensure_base _ _ = Ok _ |- _ => apply ensure_Ok in H
  | H : settled_winner _ _ = Ok _ |- _ => apply settled_winner_Ok in H; destruct H as [? H]
  | H : settled _ _ = Ok _ |- _ =>
      let v := fresh "v" in apply settled_Ok in H; destruct H as (v & ? & ?)
  | H : base_settled _ _ = Ok _ |- _ =>
      let v := fresh "v" in apply base_settled_Ok in H; destruct H as (v & ? & ?)
  | HC : Core ?s, H : ensure_holds ?id ?who _ ?s = Ok _ |- _ =>
      apply ensure_holds_Ok in H; pose proof (balance_le_total id who s HC)
  | HC : Core ?s, H : with_vault_mut _ _ ?s = (Ok _, _) |- _ =>
      step_vault H;
      match goal with _ : _ _ = (Ok _, ?info), Hf : find_key _ ?pid (ls_vaults s) = Some _ |- _ =>
        pose proof (Core_put_vault pid info s HC) end
  | HC : Core ?s, H : with_base_mut _ _ ?s = (Ok _, _) |- _ =>
      step_base H;
      match goal with _ : _ _ = (Ok _, ?info), Hf : find_key _ ?pid (ls_baseline_vaults s) = Some _ |- _ =>
        pose proof (Core_put_base pid info s HC) end
  | HC : Core ?s, H : mint _ _ _ ?s = (Ok _, _) |- _ =>
      let Hfr := fresh "Hfr" in let Hmv := fresh "Hmv" in
      apply mint_spec in H as (? & Hfr & Hmv); [|exact HC|lia|by eauto 10 with ledger]
  | HC : Core ?s, H : burn ?id ?who ?a ?s = (Ok _, _) |- _ =>
      let Hfr := fresh "Hfr" in let Hmv := fresh "Hmv" in let Hle := fresh "Hle" in
      apply burn_spec in H as (? & Hfr & Hmv & Hle); [|exact HC|lia];
      pose proof (balance_le_total id who s HC)
  | HC : Core ?s, H : push_event _ ?s = (Ok _, _) |- _ =>
      let Hv := fresh "Hv" in let Hbv := fresh "Hbv" in let Ht := fresh "Ht" in
      let Hev := fresh "Hev" in
      let Hpb := fresh "Hpb" in
      apply push_event_Ok in H as (? & Hv & Hbv & Ht & Hev & Hpb); [|exact HC]
  end.

(** Rewrites every later state's vault tables back to the first state's. *)
Ltac frames :=
  repeat match goal with
  | H : Frame ?s ?s' |- _ =>
      let Hv := fresh "Hv" in let Hb := fresh "Hb" in let He := fresh "He" in
      destruct H as [Hv Hb He _]; simpl in Hv, Hb, He
  end;
  repeat match goal with
  | H : ls_events ?s' = _ |- _ => is_var s'; progress simpl in H
  end;
  repeat match goal with
  | H : ls_vaults ?s' = _ |- _ => is_var s'; progress simpl in H
  | H : ls_baseline_vaults ?s' = _ |- _ => is_var s'; progress simpl in H
  end;
  repeat match goal with
  | H : ls_vaults ?s' = _ |- _ => is_var s'; rewrite H in *; clear H
  | H : ls_baseline_vaults ?s' = _ |- _ => is_var s'; rewrite H in *; clear H
  | H : ls_events ?s' = _ |- _ => is_var s'; rewrite H in *; clear H
  end;
  repeat match goal with
  | H1 : find_key vr_proposal ?k ?l = Some ?v, H2 : find_key vr_proposal ?k ?l = Some ?w |- _ =>
      rewrite H1 in H2; injection H2 as ->
  | H1 : find_key br_epoch ?k ?l = Some ?v, H2 : find_key br_epoch ?k ?l = Some ?w |- _ =>
      rewrite H1 in H2; injection H2 as ->
  end.

(** The supplies of the final state, as changes to those of the first. *)
Ltac claims_chain :=
  repeat match goal with
  | Ht : forall x, total x ?s' = total x ?s1 |- claims_eq (claims_of ?pid ?s') _ =>
      transitivity (claims_of pid s1); [intros ? ?; apply Ht|]; clear Ht
  | |- claims_eq (claims_of ?pid (put_vault _ _ ?s1)) ?c => change (claims_eq (claims_of pid s1) c)
  | M : Moved (position _ _ _) _ _ _ ?s' |- claims_eq (claims_of _ ?s') _ =>
      etrans; [apply (claims_moved _ _ _ _ _ _ _ M)|]; apply add_claim_proper
  end; reflexivity.

Ltac untouched_chain :=
  repeat match goal with
  | |- untouched ?P ?s (put_vault _ _ ?s1) => change (untouched P s s1)
  | |- untouched ?P ?s (put_base _ _ ?s1) => change (untouched P s s1)
  | Ht : forall x, total x ?s' = total x _ |- untouched _ _ ?s' =>
      eapply untouched_trans; [|intros ? ?; apply Ht]; clear Ht
  | M : Moved _ _ _ _ ?s' |- untouched _ _ ?s' =>
      eapply untouched_trans; [|eapply untouched_moved; [|exact M]; unfold of_vault, of_base; eauto]
  end; intros ? ?; reflexivity.

Ltac supply_lia := unfold claims_of in *; lia.

(** The end of a proposal operation: the vault lemma [lem] is applied to the
    one vault write, the other vaults are not touched. *)
Ltac finish_vault HI :=
  frames;
  lazymatch goal with
  | Hf : find_key vr_proposal ?pid (ls_vaults ?s) = Some ?v, Hb : _ (vr_info ?v) = (Ok _, ?info) |- _ =>
      pose proof (Inv_vault_at _ _ _ HI Hf);
      eapply (Inv_vault_op pid v info s _ HI); [assumption|exact Hf|simpl; congruence|simpl; congruence|untouched_chain|
        eapply vault_ok_proper; [reflexivity|claims_chain|]]
  end.

Ltac finish_base HI :=
  frames;
  lazymatch goal with
  | Hf : find_key br_epoch ?e (ls_baseline_vaults ?s) = Some ?v, Hb : _ (br_info ?v) = (Ok _, ?info) |- _ =>
      pose proof (Inv_base_at _ _ _ HI Hf);
      eapply (Inv_base_op e v info s _ HI); [assumption|exact Hf|simpl; congruence|simpl; congruence|untouched_chain|]
  end.
