(* ===== verification/LedgerOps.v ===== *)
(** * Every operation of the ledger keeps the invariant

    One lemma per operation body: it is opened into its table steps and the
    vault lemma of LedgerVault closes it. *)

From S2P Require Import Prelude Keyed Primitives Ledger LedgerVault LedgerInv LedgerSolvency.

(** Opens the body [f] of an operation and walks through it. *)
Ltac body H HI f :=
  pose proof (inv_core _ HI); unfold f, pay_proposal, pay_baseline in H; inv_all; to_prop; walk;
  repeat match goal with x : (_ * _)%type |- _ => destruct x; cbn [fst snd] in * end; walk;
  repeat match goal with x : unit |- _ => destruct x end.

Ltac close lem :=
  eapply lem;
  try lazymatch goal with
  | |- _ = _ => eassumption
  | |- vault_ok _ _ => eassumption
  | |- _ <> _ => assumption
  end; try supply_lia.

Section ops.
Context {A : Type} `{EqDecision A}.

Implicit Types (s : LedgerState A) (org : LedgerOrigin) (pid : ProposalId) (id : PositionId) (who : A) (a : Z).

(** ** Complete sets *)

Lemma split_Inv org pid who a s u s' :
  Inv s -> is_u128 a -> split_impl org pid who a s = (Ok u, s') -> Inv s'.
Proof. intros HI Ha H. body H HI @split_impl. finish_vault HI. close split_vault_ok. Qed.

Lemma merge_Inv org pid who a s u s' :
  Inv s -> is_u128 a -> merge_impl org pid who a s = (Ok u, s') -> Inv s'.
Proof. intros HI Ha H. body H HI @merge_impl. finish_vault HI. close merge_vault_ok. Qed.

Lemma split_scalar_Inv org pid b who a s u s' :
  Inv s -> is_u128 a -> split_scalar_impl org pid b who a s = (Ok u, s') -> Inv s'.
Proof. intros HI Ha H. body H HI @split_scalar_impl. finish_vault HI. close split_scalar_vault_ok. Qed.

Lemma merge_scalar_Inv org pid b who a s u s' :
  Inv s -> is_u128 a -> merge_scalar_impl org pid b who a s = (Ok u, s') -> Inv s'.
Proof. intros HI Ha H. body H HI @merge_scalar_impl. finish_vault HI. close merge_scalar_vault_ok. Qed.

Lemma split_gate_Inv org pid b g who a s u s' :
  Inv s -> is_u128 a -> split_gate_impl org pid b g who a s = (Ok u, s') -> Inv s'.
Proof. intros HI Ha H. body H HI @split_gate_impl. finish_vault HI. close split_gate_vault_ok. Qed.

Lemma merge_gate_Inv org pid b g who a s u s' :
  Inv s -> is_u128 a -> merge_gate_impl org pid b g who a s = (Ok u, s') -> Inv s'.
Proof. intros HI Ha H. body H HI @merge_gate_impl. finish_vault HI. close merge_gate_vault_ok. Qed.

(** ** Redemption *)

Lemma redeem_Inv pid who a s u s' :
  Inv s -> is_u128 a -> redeem_impl pid who a s = (Ok u, s') -> Inv s'.
Proof. intros HI Ha H. body H HI @redeem_impl. finish_vault HI. close redeem_vault_ok. Qed.

Lemma redeem_scalar_Inv pid side who a s u s' :
  Inv s -> is_u128 a -> redeem_scalar_impl pid side who a s = (Ok u, s') -> Inv s'.
Proof.
  intros HI Ha H. body H HI @redeem_scalar_impl. finish_vault HI. close redeem_leg_vault_ok.
Qed.

Lemma redeem_scalar_pair_Inv pid who a s u s' :
  Inv s -> is_u128 a -> redeem_scalar_pair_impl pid who a s = (Ok u, s') -> Inv s'.
Proof. intros HI Ha H. body H HI @redeem_scalar_pair_impl. finish_vault HI. close redeem_pair_vault_ok. Qed.

Lemma redeem_gate_Inv pid g who a s u s' :
  Inv s -> is_u128 a -> redeem_gate_impl pid g who a s = (Ok u, s') -> Inv s'.
Proof. intros HI Ha H. body H HI @redeem_gate_impl. inv_all. finish_vault HI. close redeem_gate_vault_ok. Qed.

Lemma redeem_void_Inv pid b k who a s u s' :
  Inv s -> is_u128 a -> redeem_void_impl pid b k who a s = (Ok u, s') -> Inv s'.
Proof.
  intros HI Ha H.
  assert (Hv : forall v, is_voided v = true -> v = Voided) by (by intros []).
  destruct (decide (k = BranchUsdc)) as [->|Hk].
  - body H HI @redeem_void_impl. finish_vault HI. close redeem_void_usdc_vault_ok. auto.
  - assert (Hm : forall T (x y : T), match k with BranchUsdc => x | _ => y end = y) by (by destruct k).
    unfold redeem_void_impl, void_rate in H. rewrite !Hm in H.
    body H HI @pay_proposal. finish_vault HI. close redeem_void_leg_vault_ok. auto.
Qed.
(** ** Baseline *)

(** Supplies of the final state computed from those of the first. *)
Ltac supplies :=
  repeat match goal with
  | Ht : forall x, total x ?s' = total x _ |- context [total _ ?s'] => rewrite !Ht; clear Ht
  | M : Moved _ _ _ _ ?s' |- context [total _ ?s'] => rewrite (moved_total _ _ _ _ _ M)
  | |- context [total ?x (put_base _ _ ?s)] => change (total x (put_base _ _ s)) with (total x s)
  | |- context [total ?x (put_vault _ _ ?s)] => change (total x (put_vault _ _ s)) with (total x s)
  end; unfold baseline in *; repeat goal_decide; try congruence;
  match goal with |- ?x = ?y => supply_lia end.

Lemma base_ok_cast v x y x' y' : base_ok v x y -> x' = x -> y' = y -> base_ok v x' y'.
Proof. by intros ? -> ->. Qed.

Ltac close_base lem :=
  eapply base_ok_cast; [eapply lem; try lazymatch goal with
    | |- _ = _ => eassumption | |- base_ok _ _ _ => eassumption end|supplies|supplies]; try supply_lia.

Lemma split_baseline_Inv org e who a s u s' :
  Inv s -> is_u128 a -> split_baseline_impl org e who a s = (Ok u, s') -> Inv s'.
Proof. intros HI Ha H. body H HI @split_baseline_impl. finish_base HI. close_base split_base_ok. Qed.

Lemma merge_baseline_Inv org e who a s u s' :
  Inv s -> is_u128 a -> merge_baseline_impl org e who a s = (Ok u, s') -> Inv s'.
Proof. intros HI Ha H. body H HI @merge_baseline_impl. finish_base HI. close_base merge_base_ok. Qed.

Lemma redeem_baseline_Inv e side who a s u s' :
  Inv s -> is_u128 a -> redeem_baseline_impl e side who a s = (Ok u, s') -> Inv s'.
Proof.
  intros HI Ha H. body H HI @redeem_baseline_impl. finish_base HI.
  destruct side.
  - close_base redeem_base_long_ok.
  - close_base redeem_base_short_ok.
Qed.

Lemma redeem_baseline_pair_Inv e who a s u s' :
  Inv s -> is_u128 a -> redeem_baseline_pair_impl e who a s = (Ok u, s') -> Inv s'.
Proof. intros HI Ha H. body H HI @redeem_baseline_pair_impl. finish_base HI. close_base redeem_base_pair_ok. Qed.

(** ** The lifecycle *)

Lemma resolve_Inv org pid w s u s' : Inv s -> resolve org pid w s = (Ok u, s') -> Inv s'.
Proof. intros HI H. body H HI @resolve. finish_vault HI. close resolve_vault_ok. Qed.

Lemma void_Inv org pid s u s' : Inv s -> void org pid s = (Ok u, s') -> Inv s'.
Proof. intros HI H. body H HI @void. finish_vault HI. close void_vault_ok. Qed.

Lemma settle_scalar_Inv org pid score s u s' :
  Inv s -> is_u64 score -> settle_scalar org pid score s = (Ok u, s') -> Inv s'.
Proof.
  intros HI Hs H. body H HI @settle_scalar. unfold ensure_score in *. inv_all. to_prop.
  finish_vault HI. close settle_scalar_vault_ok.
Qed.

Lemma settle_gate_Inv org pid g outcome s u s' :
  Inv s -> settle_gate org pid g outcome s = (Ok u, s') -> Inv s'.
Proof. intros HI H. body H HI @settle_gate. finish_vault HI. close settle_gate_vault_ok. Qed.

Lemma settle_baseline_Inv org e score s u s' :
  Inv s -> is_u64 score -> settle_baseline org e score s = (Ok u, s') -> Inv s'.
Proof.
  intros HI Hs H. body H HI @settle_baseline. unfold ensure_score in *. inv_all. to_prop.
  finish_base HI. close_base settle_base_ok.
Qed.

(** ** Transfers *)

Lemma position_live_known id s u : ensure_position_live id s = Ok u -> known_vault id s.
Proof.
  destruct id; simpl; rewrite ?check_vault_Ok, ?check_base_Ok; intros (v & Hf & _); by exists v.
Qed.

Lemma balance_bounds id who s : Core s -> is_u128 (position_balance_of id who s).
Proof.
  intros HC. unfold position_balance_of. destruct (find_key _ _ _) as [p|] eqn:Hf; simpl; [|lia].
  apply find_key_Some in Hf as [_ Hin]. destruct (core_pos _ HC _ Hin). lia.
Qed.

Lemma swept_amount_bounds org id from a s :
  Core s -> is_u128 a -> is_u128 (swept_amount org id from a s).
Proof.
  intros HC Ha. unfold swept_amount. destruct org; try done. case_match; [done|].
  pose proof (balance_bounds id from s HC). case_match; lia.
Qed.

(** A state with the same vaults and the same supplies. *)
Lemma Inv_same s s' :
  Inv s -> Core s' -> ls_vaults s' = ls_vaults s ->
  ls_baseline_vaults s' = ls_baseline_vaults s ->
  (forall x, total x s' = total x s) -> Inv s'.
Proof.
  intros [HC Hv Hb] HC' Hvs Hbs Ht. split; [done| |].
  - intros v. rewrite Hvs. intros Hin. eapply vault_ok_proper; [reflexivity| |by apply Hv].
    intros ? ?. apply Ht.
  - intros v. rewrite Hbs, !Ht. apply Hb.
Qed.

Lemma guard_Ok (c : bool) (r : Result LedgerError unit) s u s' :
  (if c then lift r else ret tt) s = (Ok u, s') -> s' = s.
Proof. by destruct c; intros [= _ ->]. Qed.

Lemma transfer_body_spec org id from to a s u s' :
  Core s -> is_u128 a -> transfer_impl org id from to a s = (Ok u, s') ->
  let m := swept_amount org id from a s in
  exists s1 s2, Core s' /\ Frame s s1 /\ Frame s1 s2 /\ Moved id from (- m) s s1 /\ Moved id to m s1 s2
    /\ m <= position_balance_of id from s /\ s' = (push_event (EvPositionTransferred id m) s2).2.
Proof.
  intros HC Ha H m. pose proof (swept_amount_bounds org id from a s HC Ha) as Hm.
  fold m in Hm. unfold transfer_impl in H. fold m in H. inv_all.
  match goal with Hx : (if _ then _ else _) _ = _ |- _ => apply guard_Ok in Hx as -> end.
  match goal with H1 : burn _ _ _ _ = _, H2 : mint _ _ _ _ = _ |- _ =>
    apply burn_spec in H1 as (HC1 & F1 & M1 & Hle); [|done|lia];
    apply mint_spec in H2 as (HC2 & F2 & M2); [|done|done|
      eapply known_vault_frame; [done|]; by eapply position_live_known] end.
  pose proof H as Hp. apply push_event_Ok in Hp as [HC3 _]; [|exact HC2].
  lazymatch type of M2 with Moved _ _ _ ?s1 ?s2 => exists s1, s2 end.
  split_and!; try assumption. subst m. by rewrite H.
Qed.

Lemma transfer_Inv org id from to a s u s' :
  Inv s -> is_u128 a -> transfer_impl org id from to a s = (Ok u, s') -> Inv s'.
Proof.
  intros HI Ha H. apply transfer_body_spec in H; [|apply HI|done].
  destruct H as (s1 & s2 & HC' & F1 & F2 & M1 & M2 & Hle & ->).
  eapply (Inv_same s); [done|done| | |]; simpl.
  - by rewrite (frame_vaults _ _ F2), (frame_vaults _ _ F1).
  - by rewrite (frame_bases _ _ F2), (frame_bases _ _ F1).
  - intros x. change (total x s2 = total x s).
    rewrite (moved_total _ _ _ _ _ M2), (moved_total _ _ _ _ _ M1). goal_decide; lia.
Qed.

End ops.
