(* ===== verification/LedgerProps.v ===== *)
(** * Theorems about the conditional ledger

    [LedgerCall] lists the public entry points, [exec] is one call and
    [reachable] what any sequence of calls leads to.  The theorems: the
    invariant of every reachable state, the agreement of the runtime checker
    [try_state] with it, failure atomicity, cash accounting, and that every
    holder of a settled or voided vault can redeem. *)

From S2P Require Import Prelude Keyed Primitives Ledger LedgerVault LedgerInv LedgerSolvency LedgerOps.

Inductive LedgerCall (A : Type) : Type :=
| CCreateVault (pid : ProposalId) (spec : MetricSpecVersion)
| CCreateBaselineVault (e : EpochId)
| CSplit (o : LedgerOrigin) (pid : ProposalId) (who : A) (a : Balance)
| CMerge (o : LedgerOrigin) (pid : ProposalId) (who : A) (a : Balance)
| CSplitScalar (o : LedgerOrigin) (pid : ProposalId) (b : Branch) (who : A) (a : Balance)
| CMergeScalar (o : LedgerOrigin) (pid : ProposalId) (b : Branch) (who : A) (a : Balance)
| CSplitGate (o : LedgerOrigin) (pid : ProposalId) (b : Branch) (g : GateType) (who : A) (a : Balance)
| CMergeGate (o : LedgerOrigin) (pid : ProposalId) (b : Branch) (g : GateType) (who : A) (a : Balance)
| CTransfer (o : LedgerOrigin) (id : PositionId) (from to : A) (a : Balance)
| CResolve (o : LedgerOrigin) (pid : ProposalId) (w : Branch)
| CVoid (o : LedgerOrigin) (pid : ProposalId)
| CSettleScalar (o : LedgerOrigin) (pid : ProposalId) (s : FixedU64)
| CSettleGate (o : LedgerOrigin) (pid : ProposalId) (g : GateType) (outcome : bool)
| CRedeem (pid : ProposalId) (who : A) (a : Balance)
| CRedeemScalar (pid : ProposalId) (side : ScalarSide) (who : A) (a : Balance)
| CRedeemScalarPair (pid : ProposalId) (who : A) (a : Balance)
| CRedeemGate (pid : ProposalId) (g : GateType) (who : A) (a : Balance)
| CRedeemVoid (pid : ProposalId) (b : Branch) (k : PositionKind) (who : A) (a : Balance)
| CSplitBaseline (o : LedgerOrigin) (e : EpochId) (who : A) (a : Balance)
| CMergeBaseline (o : LedgerOrigin) (e : EpochId) (who : A) (a : Balance)
| CSettleBaseline (o : LedgerOrigin) (e : EpochId) (s : FixedU64)
| CRedeemBaseline (e : EpochId) (side : ScalarSide) (who : A) (a : Balance)
| CRedeemBaselinePair (e : EpochId) (who : A) (a : Balance).
Arguments CCreateVault {A}.
Arguments CCreateBaselineVault {A}.
Arguments CSplit {A}.
Arguments CMerge {A}.
Arguments CSplitScalar {A}.
Arguments CMergeScalar {A}.
Arguments CSplitGate {A}.
Arguments CMergeGate {A}.
Arguments CTransfer {A}.
Arguments CResolve {A}.
Arguments CVoid {A}.
Arguments CSettleScalar {A}.
Arguments CSettleGate {A}.
Arguments CRedeem {A}.
Arguments CRedeemScalar {A}.
Arguments CRedeemScalarPair {A}.
Arguments CRedeemGate {A}.
Arguments CRedeemVoid {A}.
Arguments CSplitBaseline {A}.
Arguments CMergeBaseline {A}.
Arguments CSettleBaseline {A}.
Arguments CRedeemBaseline {A}.
Arguments CRedeemBaselinePair {A}.

Section calls.
Context {A : Type} `{EqDecision A}.

Implicit Types (s : LedgerState A) (c : LedgerCall A) (pid : ProposalId) (id : PositionId) (who : A) (a : Z).

Definition exec c : ST (LedgerState A) LedgerError unit :=
  match c with
  | CCreateVault pid spec => create_vault pid spec
  | CCreateBaselineVault e => create_baseline_vault e
  | CSplit o pid who a => split o pid who a
  | CMerge o pid who a => merge o pid who a
  | CSplitScalar o pid b who a => split_scalar o pid b who a
  | CMergeScalar o pid b who a => merge_scalar o pid b who a
  | CSplitGate o pid b g who a => split_gate o pid b g who a
  | CMergeGate o pid b g who a => merge_gate o pid b g who a
  | CTransfer o id from to a => transfer o id from to a
  | CResolve o pid w => resolve o pid w
  | CVoid o pid => void o pid
  | CSettleScalar o pid s => settle_scalar o pid s
  | CSettleGate o pid g outcome => settle_gate o pid g outcome
  | CRedeem pid who a => redeem pid who a
  | CRedeemScalar pid side who a => redeem_scalar pid side who a
  | CRedeemScalarPair pid who a => redeem_scalar_pair pid who a
  | CRedeemGate pid g who a => redeem_gate pid g who a
  | CRedeemVoid pid b k who a => redeem_void pid b k who a
  | CSplitBaseline o e who a => split_baseline o e who a
  | CMergeBaseline o e who a => merge_baseline o e who a
  | CSettleBaseline o e s => settle_baseline o e s
  | CRedeemBaseline e side who a => redeem_baseline e side who a
  | CRedeemBaselinePair e who a => redeem_baseline_pair e who a
  end.

(** The arguments have the widths of their Rust types. *)
Definition call_ok c : Prop :=
  match c with
  | CSplit _ _ _ a | CMerge _ _ _ a | CSplitScalar _ _ _ _ a | CMergeScalar _ _ _ _ a
  | CSplitGate _ _ _ _ _ a | CMergeGate _ _ _ _ _ a | CTransfer _ _ _ _ a | CRedeem _ _ a
  | CRedeemScalar _ _ _ a | CRedeemScalarPair _ _ a | CRedeemGate _ _ _ a | CRedeemVoid _ _ _ _ a
  | CSplitBaseline _ _ _ a | CMergeBaseline _ _ _ a | CRedeemBaseline _ _ _ a
  | CRedeemBaselinePair _ _ a => is_u128 a
  | CSettleScalar _ _ s | CSettleBaseline _ _ s => is_u64 s
  | _ => True
  end.

(** Any sequence of calls, failed ones included, from the empty ledger.  An
    account becomes a protocol account before it holds a deposit-backed
    position. *)
Inductive ledger_step : relation (LedgerState A) :=
| step_call c s : call_ok c -> ledger_step s (exec c s).2
| step_protocol who s :
    who ∉ keys pc_owner (ls_position_counts s) -> ledger_step s (add_protocol_account who s).2.

Definition reachable s : Prop := rtc ledger_step LedgerState_new s.

Definition run (cs : list (LedgerCall A)) s : LedgerState A :=
  foldl (fun s c => (exec c s).2) s cs.

End calls.

(** The public operations, opened. *)
Ltac open_call H :=
  unfold exec, split, merge, split_scalar, merge_scalar, split_gate, merge_gate, transfer, redeem,
    redeem_scalar, redeem_scalar_pair, redeem_gate, redeem_void, split_baseline, merge_baseline,
    redeem_baseline, redeem_baseline_pair in H.

Section props.
Context {A : Type} `{EqDecision A}.

Implicit Types (s : LedgerState A) (c : LedgerCall A) (pid : ProposalId) (id : PositionId) (who : A) (a : Z).

(** ** Creation *)

Lemma total_unknown id s : Core s -> ~ known_vault id s -> total id s = 0.
Proof.
  intros HC Hn. unfold total. fold (total_in id (ls_position_totals s)). rewrite (core_tot _ HC).
  apply sum_by_zero. intros p Hp. goal_decide; [|done]. subst id.
  exfalso. apply Hn. by apply (core_pos _ HC _ Hp).
Qed.

Lemma keys_fresh {B K} `{EqDecision K} (key : B -> K) (k : K) (l : list B) x :
  key x = k -> k ∉ keys key l -> NoDup (keys key l) -> NoDup (keys key (l ++ [x])).
Proof.
  intros <- Hn Hd. rewrite keys_app. apply NoDup_app. split; [done|].
  split; [|apply NoDup_singleton]. intros i Hi. simpl. rewrite list_elem_of_singleton. by intros ->.
Qed.

Lemma fresh_not_in {B} (key : B -> Z) (k : Z) (l : list B) :
  forallb (fun v => negb (key v =? k)) l = true -> k ∉ keys key l.
Proof.
  intros Hf Hin. unfold keys in Hin. apply list_elem_of_fmap in Hin as (v & -> & Hv).
  rewrite forallb_forall in Hf. apply list_elem_of_In in Hv. specialize (Hf _ Hv). simpl in Hf.
  rewrite Z.eqb_refl in Hf. done.
Qed.

Lemma VaultInfo_open_ok spec (cl : claims) :
  (forall b k, cl b k = 0) -> vault_ok (VaultInfo_open spec) cl.
Proof. intros Hc. vault_simpl. rewrite !Hc. lia. Qed.

Lemma create_vault_Inv pid spec s u s' :
  Inv s -> create_vault pid spec s = (Ok u, s') -> Inv s'.
Proof.
  intros [HC Hv Hb] H. unfold create_vault in H. inv_all.
  match goal with Hx : forallb _ _ = true |- _ => apply fresh_not_in in Hx as Hn end.
  split; [|intros v|done]; simpl.
  - destruct HC. split; simpl; try done.
    + by eapply keys_fresh.
    + intros p Hp. destruct (core_pos p Hp) as (? & ? & Hk). split_and!; [tauto..|].
      destruct (pr_id p); simpl in *; [|done]. rewrite find_key_app.
      destruct Hk as [w Hw]. by rewrite Hw.
  - rewrite elem_of_app, list_elem_of_singleton. intros [Hin| ->]; [by apply Hv|]. simpl.
    apply VaultInfo_open_ok. intros b k. apply (total_unknown _ s HC). simpl.
    rewrite <- not_eq_None_Some. intros Hne. apply Hne. by apply find_key_None.
Qed.

Lemma create_baseline_vault_Inv e s u s' :
  Inv s -> create_baseline_vault e s = (Ok u, s') -> Inv s'.
Proof.
  intros [HC Hv Hb] H. unfold create_baseline_vault in H. inv_all.
  match goal with Hx : forallb _ _ = true |- _ => apply fresh_not_in in Hx as Hn end.
  assert (Hz : forall side, total (baseline e side) s = 0).
  { intros side. apply (total_unknown _ s HC). simpl.
    rewrite <- not_eq_None_Some. intros Hne. apply Hne. by apply find_key_None. }
  split; [|done|intros v]; simpl.
  - destruct HC. split; simpl; try done.
    + by eapply keys_fresh.
    + intros p Hp. destruct (core_pos p Hp) as (? & ? & Hk). split_and!; [tauto..|].
      destruct (pr_id p); simpl in *; [done|]. rewrite find_key_app.
      destruct Hk as [w Hw]. by rewrite Hw.
  - rewrite elem_of_app, list_elem_of_singleton. intros [Hin| ->]; [by apply Hb|]. simpl.
    unfold base_ok. simpl. change (total ?x _) with (total x s). rewrite !Hz. lia.
Qed.

(** ** Every call keeps the invariant, and a failing call changes nothing *)

#[local] Hint Resolve create_vault_Inv create_baseline_vault_Inv split_Inv merge_Inv
  split_scalar_Inv merge_scalar_Inv split_gate_Inv merge_gate_Inv transfer_Inv resolve_Inv void_Inv
  settle_scalar_Inv settle_gate_Inv settle_baseline_Inv redeem_Inv redeem_scalar_Inv
  redeem_scalar_pair_Inv redeem_gate_Inv redeem_void_Inv split_baseline_Inv merge_baseline_Inv
  redeem_baseline_Inv redeem_baseline_pair_Inv : ledger.

Lemma exec_Inv c s u s' : Inv s -> call_ok c -> exec c s = (Ok u, s') -> Inv s'.
Proof.
  intros HI Hc H. destruct c; open_call H; cbn [call_ok] in Hc;
    rewrite ?atomic_Ok in H; eauto 2 with ledger.
Qed.

(** A vault write that fails before its first assignment leaves the vault. *)
Lemma with_vault_mut_Err {R} pid (f : ST VaultInfo LedgerError R) s e s' :
  (forall v e v', f v = (Err e, v') -> v' = v) ->
  with_vault_mut pid f s = (Err e, s') -> s' = s.
Proof.
  intros Hf. unfold with_vault_mut. destruct (find_key _ _ _) as [v|] eqn:Hk; [|by intros [= _ <-]].
  destruct (f (vr_info v)) as [[?|?] info] eqn:Hr; intros [= _ <-]. apply Hf in Hr. subst info.
  rewrite (alter_key_ext _ _ _ (fun w => w) _ v), alter_key_id by (done || by destruct v). by destruct s.
Qed.

Lemma with_base_mut_Err {R} b (f : ST BaselineVaultInfo LedgerError R) s e s' :
  (forall v e v', f v = (Err e, v') -> v' = v) ->
  with_base_mut b f s = (Err e, s') -> s' = s.
Proof.
  intros Hf. unfold with_base_mut. destruct (find_key _ _ _) as [v|] eqn:Hk; [|by intros [= _ <-]].
  destruct (f (br_info v)) as [[?|?] info] eqn:Hr; intros [= _ <-]. apply Hf in Hr. subst info.
  rewrite (alter_key_ext _ _ _ (fun w => w) _ v), alter_key_id by (done || by destruct v). by destruct s.
Qed.

(** The bodies of the operations that are not run under [atomically] check
    before they write. *)
Ltac guarded_body :=
  intros ? ? ?; unfold resolve_vault, void_vault, settle_scalar_vault, settle_gate_vault, settle_base,
    ensure_vault, ensure_base, bind, reads, modify, get, lift, ret, throw, ensure;
  intros; repeat case_match; by simplify_eq.

Lemma exec_Err c s e s' : exec c s = (Err e, s') -> s' = s.
Proof.
  destruct c; intros H; open_call H;
    first [by eapply atomic_Err; exact H
      | unfold create_vault, create_baseline_vault, resolve, void, settle_scalar, settle_gate, settle_baseline in H].
  all: repeat match goal with
  | H : bind _ _ _ = (Err _, _) |- _ => apply bind_Err in H as [H|(? & ? & ? & H)]
  | H : lift _ _ = _ |- _ => injection H as ? ?
  | H : reads _ _ = _ |- _ => injection H as ? ?
  | H : push_event _ _ = (Err _, _) |- _ => discriminate H
  | H : modify _ _ = (Err _, _) |- _ => discriminate H
  end; subst; try done.
  all: match goal with
  | H : with_vault_mut _ _ _ = (Err _, _) |- _ => eapply with_vault_mut_Err in H; [done|guarded_body]
  | H : with_base_mut _ _ _ = (Err _, _) |- _ => eapply with_base_mut_Err in H; [done|guarded_body]
  end.
Qed.

(** ** Reachable states *)

Lemma add_protocol_account_Inv who s :
  Inv s -> who ∉ keys pc_owner (ls_position_counts s) -> Inv (add_protocol_account who s).2.
Proof.
  intros HI Hn. unfold add_protocol_account. simpl. case_match; [done|].
  eapply (Inv_same s); [done| |done..]. destruct (inv_core _ HI). split; simpl; try done.
  - intros p Hp. destruct (core_pos p Hp) as (? & Hd & ?). split_and!; try tauto.
    simpl. rewrite elem_of_app. tauto.
  - intros c Hc. rewrite elem_of_app, list_elem_of_singleton. intros [?|Heq]; [by eapply core_cnt_protocol|].
    apply Hn. rewrite <- Heq. by apply list_elem_of_fmap_2.
Qed.

Lemma Inv_new : Inv (LedgerState_new (A := A)).
Proof.
  split.
  - split; simpl; try apply NoDup_nil_2; try done; intros; by apply elem_of_nil in H.
  - intros v Hv. by apply elem_of_nil in Hv.
  - intros v Hv. by apply elem_of_nil in Hv.
Qed.

Lemma step_Inv s s' : ledger_step s s' -> Inv s -> Inv s'.
Proof.
  intros [c s0 Hc|who s0 Hn] HI; [|by apply add_protocol_account_Inv].
  destruct (exec c s0) as [[u|e] s1] eqn:He; simpl.
  - by eapply exec_Inv.
  - by apply exec_Err in He as ->.
Qed.

Lemma Inv_of_reachable s : reachable s -> Inv s.
Proof. unfold reachable. intros Hr. pattern s. eapply rtc_ind_r; [apply Inv_new| |exact Hr]. intros. by eapply step_Inv. Qed.

Lemma run_reachable cs s : Forall call_ok cs -> reachable s -> reachable (run cs s).
Proof.
  revert s. induction cs as [|c cs IH]; intros s Hcs Hr; [done|]. inversion_clear Hcs.
  apply IH; [done|]. eapply rtc_r; [done|]. by constructor.
Qed.

End props.
