(* ===== verification/LedgerAudit.v ===== *)
(** * The runtime checker agrees with the invariant

    [try_state] recomputes every total, count and liability with checked
    arithmetic.  On a well-formed state whose escrows stay below 2^128 / 1e9
    it never overflows and accepts. *)

From S2P Require Import Prelude Keyed Primitives Ledger LedgerVault LedgerInv LedgerSolvency LedgerOps LedgerProps.

(** ** Checked arithmetic that does not overflow *)

Lemma add_small a b : a + b < U128 -> add a b = Ok (a + b).
Proof. intros. unfold add, checked_add. by rewrite (proj2 (Z.ltb_lt _ _)). Qed.

Lemma sub_small a b : b <= a -> sub a b = Ok (a - b).
Proof. intros. unfold sub, checked_sub. by rewrite (proj2 (Z.leb_le _ _)). Qed.

Lemma mul_score_small a s : a * s < U128 -> mul_score a s = Ok (a * s / SCALE_1E9).
Proof. intros. by rewrite mul_score_Ok. Qed.

(** The arguments are first bounded, then the step is evaluated. *)
Ltac checked_step :=
  first [rewrite add_small by lia | rewrite sub_small by lia]; cbn [rbind].

Section audit.
Context {A : Type} `{EqDecision A}.

Implicit Types (s : LedgerState A) (pid : ProposalId).

(** Escrows that the 1e9 scores can be multiplied with. *)
Definition escrow_fits s : Prop :=
  (forall v, v ∈ ls_vaults s -> SCALE_1E9 * vi_escrowed (vr_info v) < U128)
  /\ (forall v, v ∈ ls_baseline_vaults s -> SCALE_1E9 * bv_escrowed (br_info v) < U128).

(** ** Positions, counts, totals *)

Lemma check_position_ok s p : Core s -> p ∈ ls_positions s -> check_position p = Ok tt.
Proof.
  intros HC Hp. destruct (core_pos _ HC _ Hp) as (Hb & Hd & _). unfold check_position.
  rewrite ensure_true by (apply Z.ltb_lt; lia). cbn [rbind]. apply ensure_true.
  destruct Hd as [->|[-> _]]; done.
Qed.

Lemma check_count_ok s c : Core s -> c ∈ ls_position_counts s -> check_count s c = Ok tt.
Proof.
  intros HC Hc. unfold check_count.
  pose proof (core_cnt_protocol _ HC _ Hc) as Hn.
  pose proof (find_key_elem _ _ _ (core_cnt_keys _ HC) Hc) as Hf.
  pose proof (core_cnt _ HC (pc_owner c)) as Hcnt. unfold count_of in Hcnt. rewrite Hf in Hcnt. simpl in Hcnt.
  pose proof (core_cnt_cap _ HC (pc_owner c)) as Hcap.
  pose proof (backed_nonneg (pc_owner c) (ls_positions s)) as Hpos.
  rewrite ensure_true by (apply orb_true_iff; right; apply Z.leb_le; lia). cbn [rbind].
  apply ensure_true. apply Z.eqb_eq. rewrite length_filter_sum.
  rewrite (sum_by_ext _ (fun p => if decide (pr_owner p = pc_owner c /\ 0 < pr_deposit p) then 1 else 0)).
  - fold (backed (pc_owner c) (ls_positions s)). rewrite Hcnt.
    unfold MAX_POSITIONS_PER_ACCOUNT in *. apply wrap_small. lia.
  - intros p Hp. destruct (core_pos _ HC _ Hp) as (_ & Hd & _).
    destruct (decide (pr_owner p = pc_owner c)) as [He|?]; [|by rewrite decide_False by tauto].
    rewrite decide_True; [done|]. split; [done|]. destruct Hd as [->|[_ Hpr]]; [done|]. by rewrite He in Hpr.
Qed.

Lemma check_total_ok s t : Core s -> t ∈ ls_position_totals s -> check_total s t = Ok tt.
Proof.
  intros HC Ht. unfold check_total.
  pose proof (find_key_elem _ _ _ (core_tot_keys _ HC) Ht) as Hf.
  pose proof (core_tot _ HC (pt_id t)) as Htot. unfold total_in in Htot. rewrite Hf in Htot. simpl in Htot.
  pose proof (core_tot_bound _ HC _ Ht) as Hb.
  rewrite try_fold_sum; rewrite ?filter_sum; fold (supply_in (pt_id t) (ls_positions s)); [|..|lia].
  - cbn [rbind]. apply ensure_true, Z.eqb_eq. lia.
  - intros p [_ Hp]%list_elem_of_filter. destruct (core_pos _ HC _ Hp). lia.
  - lia.
Qed.

(** ** Liabilities *)

Lemma gate_liability o yes no :
  match o with Some true => yes | Some false => no | None => Z.max yes no end = gate_due o yes no.
Proof. done. Qed.

Lemma liability_settled_le s pid info w score :
  vault_ok info (claims_of pid s) -> vi_state info = ScalarSettled w score ->
  SCALE_1E9 * vi_escrowed info < U128 ->
  exists l, liability_settled s pid info w score = Ok l /\ l <= vi_escrowed info.
Proof.
  intros (He & _ & _ & Ha & Hr & Hst) Hs Hfit. unfold state_ok in Hst. rewrite Hs in Hst.
  destruct Hst as (Hsc & Hdue & _ & _).
  assert (Hc : branch_covered (branch_of info w) (claims_of pid s w)) by (by destruct w).
  clear Ha Hr Hs. unfold branch_covered, settled_due, claims_of in *. destruct_and!.
  unfold liability_settled. cbn [try_fold]. rewrite !gate_liability.
  change (arr2_get (vi_gate_outcomes info) (gix Survival)) with (outcome_of info Survival).
  change (arr2_get (vi_gate_outcomes info) (gix Security)) with (outcome_of info Security).
  rewrite score_complement_eq by done.
  set (g1 := gate_due (outcome_of info Survival) _ _) in *.
  set (g2 := gate_due (outcome_of info Security) _ _) in *.
  assert (0 <= g1) by (unfold g1, gate_due; destruct (outcome_of info Survival) as [[]|]; lia).
  assert (0 <= g2) by (unfold g2, gate_due; destruct (outcome_of info Security) as [[]|]; lia).
  clearbody g1 g2.
  set (u := total (position pid w BranchUsdc) s) in *.
  set (x := total (position pid w Long) s) in *. set (y := total (position pid w Short) s) in *.
  clearbody u x y. set (P := Z.min x y). assert (HP : 0 <= P <= x /\ P <= y) by lia. clearbody P.
  set (X := (x - P) * score). set (Y := (y - P) * (SCALE_1E9 - score)).
  assert (HX : 0 <= X) by (apply Z.mul_nonneg_nonneg; lia).
  assert (HY : 0 <= Y) by (apply Z.mul_nonneg_nonneg; lia).
  assert (Hsum : SCALE_1E9 * u + SCALE_1E9 * P + X + Y + SCALE_1E9 * g1 + SCALE_1E9 * g2
                 <= SCALE_1E9 * vi_escrowed info) by (unfold X, Y; lia).
  unfold SCALE_1E9, SCORE_SCALE in *.
  pose proof (div_bounds X 1000000000 ltac:(lia)). pose proof (div_bounds Y 1000000000 ltac:(lia)).
  repeat checked_step. rewrite mul_score_small by lia. cbn [rbind].
  unfold SCALE_1E9, SCORE_SCALE. fold X. repeat checked_step. rewrite mul_score_small by lia.
  cbn [rbind]. unfold SCALE_1E9, SCORE_SCALE. fold Y. repeat checked_step.
  eexists. split; [done|]. lia.
Qed.

Lemma leg_leftovers_small x y :
  0 <= x -> 0 <= y -> x + y < U128 ->
  exists l, leg_leftovers x y = Ok l /\ 0 <= l /\ 4 * l <= (x + y) - 2 * Z.min x y.
Proof.
  intros. unfold leg_leftovers.
  pose proof (div_bounds (x - Z.min x y) 4). pose proof (div_bounds (y - Z.min x y) 4).
  repeat checked_step. eexists. split; [done|]. lia.
Qed.

(** One branch: effective claims and leftovers, against its worth in quarters. *)
Lemma effective_branch_small s pid info left b :
  branch_covered (branch_of info b) (claims_of pid s b) -> 0 <= left ->
  2 * voided_due (claims_of pid s b) + 4 * left < U128 ->
  exists e l, effective_branch s pid left b = Ok (e, l) /\ 0 <= e /\ left <= l
    /\ 2 * e + 4 * (l - left) <= voided_due (claims_of pid s b).
Proof.
  intros Hc Hl Hlt. unfold effective_branch, branch_covered, voided_due, claims_of in *.
  cbn [try_fold].
  repeat match goal with |- context [total ?x s] => set (total x s) in * end.
  destruct_and!.
  repeat match goal with x := total _ _ |- _ => clearbody x end.
  repeat first [checked_step
    | match goal with |- context [leg_leftovers ?x ?y] =>
        destruct (leg_leftovers_small x y) as (? & -> & ? & ?); [lia..|]; cbn [rbind fst snd] end].
  do 2 eexists. split; [done|]. cbn [fst snd]. lia.
Qed.

Lemma liability_voided_le s pid info :
  vault_ok info (claims_of pid s) -> vi_state info = Voided ->
  SCALE_1E9 * vi_escrowed info < U128 ->
  exists l, liability_voided s pid = Ok l /\ l <= vi_escrowed info.
Proof.
  intros (He & _ & _ & Ha & Hr & Hst) Hs Hfit. unfold state_ok in Hst. rewrite Hs in Hst.
  unfold SCALE_1E9, SCORE_SCALE in *.
  assert (0 <= voided_due (claims_of pid s Accept)) by (unfold voided_due, branch_covered in *; lia).
  assert (0 <= voided_due (claims_of pid s Reject)) by (unfold voided_due, branch_covered in *; lia).
  destruct (effective_branch_small s pid info 0 Accept) as (e0 & l0 & Hr0 & ? & ? & ?); [done|lia|lia|].
  destruct (effective_branch_small s pid info l0 Reject) as (e1 & l1 & Hr1 & ? & ? & ?); [done|lia|lia|].
  unfold liability_voided. rewrite Hr0. cbn [rbind fst snd]. rewrite Hr1. cbn [rbind fst snd].
  pose proof (div_bounds (e0 - Z.min e0 e1) 2). pose proof (div_bounds (e1 - Z.min e0 e1) 2).
  repeat checked_step. eexists. split; [done|]. lia.
Qed.

(** ** Vaults *)

Lemma check_branch_open_ok s pid info b :
  supply_bounds (branch_of info b) ->
  branch_exact (branch_of info b) (claims_of pid s b) (vi_escrowed info) -> is_u128 (vi_escrowed info) ->
  branch_covered (branch_of info b) (claims_of pid s b) ->
  check_branch_open s pid info b = Ok tt.
Proof.
  intros Hb (Hl & Hsh & Hy1 & Hn1 & Hy2 & Hn2 & Hsum) He Hc.
  unfold supply_bounds, gates_of, branch_of, branch_covered in *. destruct_and!.
  unfold check_branch_open. unfold claims_of in *. simpl gix in *.
  repeat checked_step.
  rewrite ensure_true by (apply Z.eqb_eq; lia). cbn [rbind].
  rewrite ensure_true by (apply Z.eqb_eq; lia). cbn [rbind].
  rewrite ensure_true by (apply andb_true_iff; rewrite !Z.eqb_eq; lia). cbn [rbind for_each].
  rewrite ensure_true by (apply andb_true_iff; rewrite !Z.eqb_eq; simpl gix; lia). cbn [rbind for_each].
  rewrite ensure_true by (apply andb_true_iff; rewrite !Z.eqb_eq; simpl gix; lia). done.
Qed.

Lemma check_vault_state_ok s v :
  vault_ok (vr_info v) (claims_of (vr_proposal v) s) ->
  SCALE_1E9 * vi_escrowed (vr_info v) < U128 ->
  check_vault_state s v = Ok tt.
Proof.
  intros Hok Hfit. pose proof Hok as (He & Hba & Hbr & Hca & Hcr & Hst).
  unfold check_vault_state. unfold state_ok in Hst.
  destruct (vi_state (vr_info v)) as [|w|w score| |] eqn:Hs; [| | | |done].
  1-2: cbn [for_each]; rewrite !check_branch_open_ok by tauto; done.
  - destruct (liability_settled_le _ _ _ _ _ Hok Hs Hfit) as (l & -> & Hl). cbn [rbind].
    by apply ensure_true, Z.leb_le.
  - destruct (liability_voided_le _ _ _ Hok Hs Hfit) as (l & -> & Hl). cbn [rbind].
    by apply ensure_true, Z.leb_le.
Qed.

Lemma check_base_state_ok s v :
  base_ok (br_info v) (total (baseline (br_epoch v) SideLong) s)
    (total (baseline (br_epoch v) SideShort) s) ->
  SCALE_1E9 * bv_escrowed (br_info v) < U128 ->
  check_base_state s v = Ok tt.
Proof.
  intros (He & Hn & Hl & Hs & Hst) Hfit. unfold check_base_state.
  set (x := total (baseline _ SideLong) s) in *. set (y := total (baseline _ SideShort) s) in *.
  clearbody x y. destruct (bv_state (br_info v)) as [|score].
  - rewrite ensure_true by (apply Z.eqb_eq; lia). cbn [rbind].
    apply ensure_true, andb_true_iff. rewrite !Z.eqb_eq. lia.
  - destruct Hst as [Hsc Hdue]. rewrite score_complement_eq by done.
    set (P := Z.min x y). assert (HP : 0 <= P <= x /\ P <= y) by lia. clearbody P.
    set (X := (x - P) * score). set (Y := (y - P) * (SCALE_1E9 - score)).
    assert (HX : 0 <= X) by (apply Z.mul_nonneg_nonneg; lia).
    assert (HY : 0 <= Y) by (apply Z.mul_nonneg_nonneg; lia).
    assert (Hsum : SCALE_1E9 * P + X + Y <= SCALE_1E9 * bv_escrowed (br_info v)) by (unfold X, Y; lia).
    unfold SCALE_1E9, SCORE_SCALE in *.
    pose proof (div_bounds X 1000000000 ltac:(lia)). pose proof (div_bounds Y 1000000000 ltac:(lia)).
    repeat checked_step. rewrite mul_score_small by lia. cbn [rbind].
    repeat checked_step. rewrite mul_score_small by lia. cbn [rbind].
    unfold SCALE_1E9, SCORE_SCALE. fold X Y. repeat checked_step. apply ensure_true, Z.leb_le. lia.
Qed.

Lemma try_state_Inv s : Inv s -> escrow_fits s -> try_state s = Ok tt.
Proof.
  intros [HC Hv Hb] [Hfv Hfb]. unfold try_state, try_state_vault_conservation.
  assert (Hfor : forall T (f : T -> Result LedgerError unit) l,
    (forall x, x ∈ l -> f x = Ok tt) -> for_each f l = Ok tt) by (intros; by apply for_each_Ok).
  rewrite (Hfor _ check_position) by (intros; by eapply check_position_ok). cbn [rbind].
  rewrite (Hfor _ (check_count s)) by (intros; by apply check_count_ok). cbn [rbind].
  rewrite (Hfor _ (check_total s)) by (intros; by apply check_total_ok). cbn [rbind].
  rewrite (Hfor _ (check_vault_state s)) by (intros; apply check_vault_state_ok; auto). cbn [rbind].
  apply Hfor. intros. apply check_base_state_ok; auto.
Qed.

End audit.

(** ** Cash accounting

    The events of the ledger are a complete record of the money that enters
    and leaves the vaults: their sum is the escrow of all vaults. *)

(** The cash that an operation moved into the vaults, from its event. *)
Definition cash_of (ev : LedgerEvent) : Z :=
  match ev with
  | EvSplit _ a | EvBaselineSplit _ a => a
  | EvMerged _ a | EvBaselineMerged _ a => - a
  | EvRedeemed _ a | EvScalarPairRedeemed _ a | EvGateRedeemed _ _ a => - a
  | EvScalarRedeemed _ _ pay | EvVoidRedeemed _ _ _ pay | EvBaselineRedeemed _ _ pay => - pay
  | _ => 0
  end.

Section cash.
Context {A : Type} `{EqDecision A}.

Implicit Types (s : LedgerState A) (c : LedgerCall A) (pid : ProposalId) (id : PositionId) (who : A) (a : Z).

Definition escrowed s : Z :=
  sum_by (fun v => vi_escrowed (vr_info v)) (ls_vaults s)
  + sum_by (fun v => bv_escrowed (br_info v)) (ls_baseline_vaults s).

Definition cash_in s : Z := sum_by cash_of (ls_events s).

Definition balanced s : Prop := escrowed s = cash_in s.

Lemma vault_entry pid v info s s' ev :
  find_key vr_proposal pid (ls_vaults s) = Some v ->
  ls_vaults s' = ls_vaults (put_vault pid info s) ->
  ls_baseline_vaults s' = ls_baseline_vaults s ->
  ls_events s' = ls_events s ++ [ev] ->
  vi_escrowed info = vi_escrowed (vr_info v) + cash_of ev ->
  balanced s -> balanced s'.
Proof.
  intros Hf Hv Hb He Hd. unfold balanced, escrowed, cash_in. rewrite Hv, Hb, He, sum_by_app.
  simpl. rewrite (sum_by_alter _ _ _ _ _ v) by done. simpl. lia.
Qed.

Lemma base_entry e v info s s' ev :
  find_key br_epoch e (ls_baseline_vaults s) = Some v ->
  ls_vaults s' = ls_vaults s ->
  ls_baseline_vaults s' = ls_baseline_vaults (put_base e info s) ->
  ls_events s' = ls_events s ++ [ev] ->
  bv_escrowed info = bv_escrowed (br_info v) + cash_of ev ->
  balanced s -> balanced s'.
Proof.
  intros Hf Hv Hb He Hd. unfold balanced, escrowed, cash_in. rewrite Hv, Hb, He, sum_by_app.
  simpl. rewrite (sum_by_alter _ _ _ _ _ v) by done. simpl. lia.
Qed.

(** The escrow after a vault body, from the body. *)
Ltac escrow_of_body H :=
  unfold split_base, merge_base, settle_base, base_sub_escrow, base_sub_sets in H; vault_bodies;
  inv_all; subst; repeat case_match; inv_all; subst; simpl; lia.

Ltac entry H f :=
  match goal with HI : Inv _ |- _ => body H HI f end; frames;
  lazymatch goal with
  | Hf : find_key vr_proposal ?pid (ls_vaults ?s) = Some ?v, Hb : _ (vr_info ?v) = (Ok _, ?info) |- _ =>
      eapply (vault_entry pid v info s); [exact Hf|assumption|assumption|eassumption|
        escrow_of_body Hb|assumption]
  | Hf : find_key br_epoch ?e (ls_baseline_vaults ?s) = Some ?v, Hb : _ (br_info ?v) = (Ok _, ?info) |- _ =>
      eapply (base_entry e v info s); [exact Hf|assumption|assumption|eassumption|
        escrow_of_body Hb|assumption]
  end.

Lemma split_cash org pid who a s u s' :
  Inv s -> balanced s -> is_u128 a -> split_impl org pid who a s = (Ok u, s') -> balanced s'.
Proof. intros HI HB Ha H. entry H @split_impl. Qed.

Lemma merge_cash org pid who a s u s' :
  Inv s -> balanced s -> is_u128 a -> merge_impl org pid who a s = (Ok u, s') -> balanced s'.
Proof. intros HI HB Ha H. entry H @merge_impl. Qed.

Lemma split_scalar_cash org pid b who a s u s' :
  Inv s -> balanced s -> is_u128 a -> split_scalar_impl org pid b who a s = (Ok u, s') -> balanced s'.
Proof. intros HI HB Ha H. entry H @split_scalar_impl. Qed.

Lemma merge_scalar_cash org pid b who a s u s' :
  Inv s -> balanced s -> is_u128 a -> merge_scalar_impl org pid b who a s = (Ok u, s') -> balanced s'.
Proof. intros HI HB Ha H. entry H @merge_scalar_impl. Qed.

Lemma split_gate_cash org pid b g who a s u s' :
  Inv s -> balanced s -> is_u128 a -> split_gate_impl org pid b g who a s = (Ok u, s') -> balanced s'.
Proof. intros HI HB Ha H. entry H @split_gate_impl. Qed.

Lemma merge_gate_cash org pid b g who a s u s' :
  Inv s -> balanced s -> is_u128 a -> merge_gate_impl org pid b g who a s = (Ok u, s') -> balanced s'.
Proof. intros HI HB Ha H. entry H @merge_gate_impl. Qed.

Lemma redeem_cash pid who a s u s' :
  Inv s -> balanced s -> is_u128 a -> redeem_impl pid who a s = (Ok u, s') -> balanced s'.
Proof. intros HI HB Ha H. entry H @redeem_impl. Qed.

Lemma redeem_scalar_cash pid side who a s u s' :
  Inv s -> balanced s -> is_u128 a -> redeem_scalar_impl pid side who a s = (Ok u, s') -> balanced s'.
Proof. intros HI HB Ha H. entry H @redeem_scalar_impl. Qed.

Lemma redeem_scalar_pair_cash pid who a s u s' :
  Inv s -> balanced s -> is_u128 a -> redeem_scalar_pair_impl pid who a s = (Ok u, s') -> balanced s'.
Proof. intros HI HB Ha H. entry H @redeem_scalar_pair_impl. Qed.

Lemma redeem_gate_cash pid g who a s u s' :
  Inv s -> balanced s -> is_u128 a -> redeem_gate_impl pid g who a s = (Ok u, s') -> balanced s'.
Proof. intros HI HB Ha H. entry H @redeem_gate_impl. Qed.

Lemma redeem_void_cash pid b k who a s u s' :
  Inv s -> balanced s -> is_u128 a -> redeem_void_impl pid b k who a s = (Ok u, s') -> balanced s'.
Proof. intros HI HB Ha H. destruct k; entry H @redeem_void_impl. Qed.

Lemma split_baseline_cash org e who a s u s' :
  Inv s -> balanced s -> is_u128 a -> split_baseline_impl org e who a s = (Ok u, s') -> balanced s'.
Proof. intros HI HB Ha H. entry H @split_baseline_impl. Qed.

Lemma merge_baseline_cash org e who a s u s' :
  Inv s -> balanced s -> is_u128 a -> merge_baseline_impl org e who a s = (Ok u, s') -> balanced s'.
Proof. intros HI HB Ha H. entry H @merge_baseline_impl. Qed.

Lemma redeem_baseline_cash e side who a s u s' :
  Inv s -> balanced s -> is_u128 a -> redeem_baseline_impl e side who a s = (Ok u, s') -> balanced s'.
Proof. intros HI HB Ha H. entry H @redeem_baseline_impl. Qed.

Lemma redeem_baseline_pair_cash e who a s u s' :
  Inv s -> balanced s -> is_u128 a -> redeem_baseline_pair_impl e who a s = (Ok u, s') -> balanced s'.
Proof. intros HI HB Ha H. entry H @redeem_baseline_pair_impl. Qed.

(** The lifecycle moves no cash. *)
Lemma resolve_cash org pid w s u s' :
  Inv s -> balanced s -> resolve org pid w s = (Ok u, s') -> balanced s'.
Proof. intros HI HB H. entry H @resolve. Qed.

Lemma void_cash org pid s u s' :
  Inv s -> balanced s -> void org pid s = (Ok u, s') -> balanced s'.
Proof. intros HI HB H. entry H @void. Qed.

Lemma settle_scalar_cash org pid score s u s' :
  Inv s -> balanced s -> settle_scalar org pid score s = (Ok u, s') -> balanced s'.
Proof. intros HI HB H. entry H @settle_scalar. Qed.

Lemma settle_gate_cash org pid g outcome s u s' :
  Inv s -> balanced s -> settle_gate org pid g outcome s = (Ok u, s') -> balanced s'.
Proof. intros HI HB H. entry H @settle_gate. Qed.

Lemma settle_baseline_cash org e score s u s' :
  Inv s -> balanced s -> settle_baseline org e score s = (Ok u, s') -> balanced s'.
Proof. intros HI HB H. entry H @settle_baseline. Qed.

Lemma create_vault_cash pid spec s u s' :
  balanced s -> create_vault pid spec s = (Ok u, s') -> balanced s'.
Proof.
  intros HB H. unfold create_vault in H. inv_all. unfold balanced, escrowed, cash_in in *. simpl.
  rewrite sum_by_app. simpl. lia.
Qed.

Lemma create_baseline_vault_cash e s u s' :
  balanced s -> create_baseline_vault e s = (Ok u, s') -> balanced s'.
Proof.
  intros HB H. unfold create_baseline_vault in H. inv_all. unfold balanced, escrowed, cash_in in *. simpl.
  rewrite sum_by_app. simpl. lia.
Qed.

Lemma transfer_cash org id from to a s u s' :
  Inv s -> balanced s -> is_u128 a -> transfer_impl org id from to a s = (Ok u, s') -> balanced s'.
Proof.
  intros HI HB Ha H. apply transfer_body_spec in H; [|apply HI|done].
  destruct H as (s1 & s2 & _ & [] & [] & _ & _ & _ & ->).
  unfold balanced, escrowed, cash_in in *. simpl. rewrite sum_by_app. simpl.
  rewrite Z.add_0_r. congruence.
Qed.

#[local] Hint Resolve split_cash merge_cash split_scalar_cash merge_scalar_cash split_gate_cash
  merge_gate_cash transfer_cash redeem_cash redeem_scalar_cash redeem_scalar_pair_cash redeem_gate_cash
  redeem_void_cash split_baseline_cash merge_baseline_cash redeem_baseline_cash
  redeem_baseline_pair_cash resolve_cash void_cash settle_scalar_cash settle_gate_cash
  settle_baseline_cash create_vault_cash create_baseline_vault_cash : ledger.

Lemma exec_cash c s u s' : Inv s -> call_ok c -> balanced s -> exec c s = (Ok u, s') -> balanced s'.
Proof.
  intros HI Hc HB H. destruct c; open_call H; cbn [call_ok] in Hc;
    rewrite ?atomic_Ok in H; eauto 2 with ledger.
Qed.

Lemma step_balanced s s' : ledger_step s s' -> Inv s -> balanced s -> balanced s'.
Proof.
  intros [c s0 Hc|who s0 Hn] HI HB.
  - destruct (exec c s0) as [[u|e] s1] eqn:He; simpl; [by eapply exec_cash|].
    by apply exec_Err in He as ->.
  - unfold add_protocol_account. simpl. by case_match.
Qed.

Lemma balanced_of_reachable s : reachable s -> balanced s.
Proof.
  intros Hr. eapply (rtc_ind_r (R := ledger_step) balanced LedgerState_new); [done| |exact Hr].
  intros y z Hy Hstep HB. eapply step_balanced; [done| |done]. by apply Inv_of_reachable.
Qed.

End cash.
