(* ===== verification/LedgerRedeem.v ===== *)
(** * Redemption always succeeds

    In a settled or voided vault every holder can redeem any part of a
    position: the burn cannot fail on a well-formed state, and the escrow
    covers the payment because it covers all outstanding claims together. *)

From S2P Require Import Prelude Keyed Primitives Ledger LedgerVault LedgerInv LedgerSolvency LedgerOps LedgerProps LedgerAudit.

Section redeem.
Context {A : Type} `{EqDecision A}.

Implicit Types (s : LedgerState A) (pid : ProposalId) (id : PositionId) (who : A) (a : Z).

(** ** A burn within the balance succeeds *)

Lemma count_mut_modify who (f : Z -> Z) s :
  exists s', count_mut (A := A) who (modify f) s = (Ok tt, s').
Proof. unfold count_mut, modify. by eexists. Qed.

Lemma release_deposit_succeeds who dep s :
  0 <= dep <= ls_deposits_held s -> exists s', release_deposit who dep s = (Ok tt, s').
Proof.
  intros Hd. unfold release_deposit. case_match; [|by eexists].
  rewrite bind_get, (lift_step _ _ _ (ls_deposits_held s - dep)) by (apply sub_small; lia).
  rewrite bind_modify. apply count_mut_modify.
Qed.

Lemma sub_total_succeeds id a s t :
  find_key pt_id id (ls_position_totals s) = Some t -> a <= pt_total t ->
  exists l, sub_total id a s = (Ok tt, set_totals l s).
Proof.
  intros Hf Ha. unfold sub_total, bind at 1, reads. rewrite Hf. cbn [ok_or].
  rewrite (lift_step _ _ _ (pt_total t - a)) by (apply sub_small; lia). rewrite bind_modify.
  case_match; by eexists.
Qed.

Lemma burn_succeeds id who a s :
  Core s -> 0 <= a <= position_balance_of id who s -> exists s', burn id who a s = (Ok tt, s').
Proof.
  intros HC Ha. unfold burn. case_match eqn:Hz; [by eexists|]. to_prop.
  pose proof (balance_le_total id who s HC) as Hle.
  unfold position_balance_of in *.
  destruct (find_key pr_key (id, who) (ls_positions s)) as [p|] eqn:Hf; simpl in *; [|lia].
  unfold bind at 1, reads. rewrite Hf. cbn [ok_or].
  rewrite (lift_step _ _ _ tt) by (apply ensure_true, Z.leb_le; lia). rewrite bind_modify.
  set (s1 := set_positions _ s).
  destruct (find_key pt_id id (ls_position_totals s1)) as [t|] eqn:Ht.
  2: { unfold total in Hle. simpl in Ht. rewrite Ht in Hle. simpl in Hle. lia. }
  destruct (sub_total_succeeds id a s1 t Ht) as [l Hl].
  { unfold total in Hle. simpl in Ht. rewrite Ht in Hle. simpl in Hle. lia. }
  rewrite (bind_step _ _ _ _ _ Hl). case_match; [|by eexists]. rewrite bind_modify.
  apply release_deposit_succeeds. simpl.
  pose proof (find_key_Some _ _ _ _ Hf) as [_ Hin]. rewrite (core_dep _ HC).
  split; [by eapply dep_nonneg|]. apply (sum_by_ge pr_deposit); [|done]. intros. by eapply dep_nonneg.
Qed.

(** ** A burn, vault writes, and an event *)

(** The outcome of a redemption: one holder's position shrinks, one vault is
    rewritten, one event is appended. *)
Record Redeemed pid id who a (info : VaultInfo) (ev : LedgerEvent) s s' : Prop := {
  red_vaults : ls_vaults s' = ls_vaults (put_vault pid info s);
  red_balance : forall x o, position_balance_of x o s' =
    position_balance_of x o s + (if decide (x = id /\ o = who) then - a else 0);
  red_events : ls_events s' = ls_events s ++ [ev];
}.

Record RedeemedBase e id who a (info : BaselineVaultInfo) (ev : LedgerEvent) s s' : Prop := {
  redb_vaults : ls_baseline_vaults s' = ls_baseline_vaults (put_base e info s);
  redb_balance : forall x o, position_balance_of x o s' =
    position_balance_of x o s + (if decide (x = id /\ o = who) then - a else 0);
  redb_events : ls_events s' = ls_events s ++ [ev];
}.

Lemma with_vault_mut_step {R Q} pid (f : ST VaultInfo LedgerError R) (k : R -> ST (LedgerState A) LedgerError Q)
    s v r info :
  find_key vr_proposal pid (ls_vaults s) = Some v -> f (vr_info v) = (Ok r, info) ->
  bind (with_vault_mut pid f) k s = k r (put_vault pid info s).
Proof.
  intros Hf Hb. apply bind_step. apply with_vault_mut_Ok. by exists v, info.
Qed.

Lemma with_base_mut_step {R Q} e (f : ST BaselineVaultInfo LedgerError R)
    (k : R -> ST (LedgerState A) LedgerError Q) s v r info :
  find_key br_epoch e (ls_baseline_vaults s) = Some v -> f (br_info v) = (Ok r, info) ->
  bind (with_base_mut e f) k s = k r (put_base e info s).
Proof.
  intros Hf Hb. apply bind_step. apply with_base_mut_Ok. by exists v, info.
Qed.

Lemma put_vault_find pid info v s :
  find_key vr_proposal pid (ls_vaults s) = Some v ->
  find_key vr_proposal pid (ls_vaults (put_vault pid info s)) =
    Some {| vr_proposal := vr_proposal v; vr_info := info |}.
Proof. intros Hf. simpl. by rewrite (find_key_alter_eq _ _ _ _ v). Qed.

Lemma put_base_find e info v s :
  find_key br_epoch e (ls_baseline_vaults s) = Some v ->
  find_key br_epoch e (ls_baseline_vaults (put_base e info s)) =
    Some {| br_epoch := br_epoch v; br_info := info |}.
Proof. intros Hf. simpl. by rewrite (find_key_alter_eq _ _ _ _ v). Qed.

Lemma pay_out id who a pid v g1 g2 info1 info2 ev s :
  Core s -> 0 <= a <= position_balance_of id who s ->
  find_key vr_proposal pid (ls_vaults s) = Some v ->
  g1 (vr_info v) = (Ok tt, info1) -> g2 info1 = (Ok tt, info2) ->
  exists s', (do! burn id who a in do! with_vault_mut pid g1 in do! with_vault_mut pid g2 in push_event ev) s
      = (Ok tt, s') /\ Redeemed pid id who a info2 ev s s'.
Proof.
  intros HC Ha Hf Hg1 Hg2. destruct (burn_succeeds id who a s HC Ha) as [s1 Hs1].
  rewrite (bind_step _ _ _ _ _ Hs1).
  apply burn_spec in Hs1 as (HC1 & [Hv Hb He Hp] & [_ Hbal] & _); [|done|lia].
  rewrite (with_vault_mut_step _ _ _ _ v _ info1) by (by rewrite ?Hv).
  erewrite with_vault_mut_step; [|apply put_vault_find; by rewrite Hv|exact Hg2].
  rewrite put_vault_twice. eexists. split; [done|]. split; simpl.
  - by rewrite Hv.
  - exact Hbal.
  - by rewrite He.
Qed.

Lemma pay_out_one id who a pid v g info ev s :
  Core s -> 0 <= a <= position_balance_of id who s ->
  find_key vr_proposal pid (ls_vaults s) = Some v -> g (vr_info v) = (Ok tt, info) ->
  exists s', (do! burn id who a in do! with_vault_mut pid g in push_event ev) s = (Ok tt, s')
    /\ Redeemed pid id who a info ev s s'.
Proof.
  intros HC Ha Hf Hg. destruct (burn_succeeds id who a s HC Ha) as [s1 Hs1].
  rewrite (bind_step _ _ _ _ _ Hs1).
  apply burn_spec in Hs1 as (HC1 & [Hv Hb He Hp] & [_ Hbal] & _); [|done|lia].
  rewrite (with_vault_mut_step _ _ _ _ v _ info) by (by rewrite ?Hv).
  eexists. split; [done|]. split; simpl; [by rewrite Hv|exact Hbal|by rewrite He].
Qed.

Lemma pay_out_base id who a e v g info ev s :
  Core s -> 0 <= a <= position_balance_of id who s ->
  find_key br_epoch e (ls_baseline_vaults s) = Some v -> g (br_info v) = (Ok tt, info) ->
  exists s', (do! burn id who a in do! with_base_mut e g in push_event ev) s = (Ok tt, s')
    /\ RedeemedBase e id who a info ev s s'.
Proof.
  intros HC Ha Hf Hg. destruct (burn_succeeds id who a s HC Ha) as [s1 Hs1].
  rewrite (bind_step _ _ _ _ _ Hs1).
  apply burn_spec in Hs1 as (HC1 & [Hv Hb He Hp] & [_ Hbal] & _); [|done|lia].
  rewrite (with_base_mut_step _ _ _ _ v _ info) by (by rewrite ?Hb).
  eexists. split; [done|]. split; simpl; [by rewrite Hb|exact Hbal|by rewrite He].
Qed.

(** ** The escrow covers each payment *)

Lemma vault_sub_escrow_small p v :
  p <= vi_escrowed v -> vault_sub_escrow p v = (Ok tt, set_escrowed (vi_escrowed v - p) v).
Proof. intros. unfold vault_sub_escrow. rewrite bind_get. by rewrite (lift_step _ _ _ _ (sub_small _ _ H)). Qed.

Lemma base_sub_escrow_small p v :
  p <= bv_escrowed v -> base_sub_escrow p v = (Ok tt, set_bv_escrowed (bv_escrowed v - p) v).
Proof. intros. unfold base_sub_escrow. rewrite bind_get. by rewrite (lift_step _ _ _ _ (sub_small _ _ H)). Qed.

Lemma vault_sub_usdc_small i a v :
  a <= bs_usdc (arr2_get (vi_branches v) i) ->
  vault_sub_usdc i a v = (Ok tt, set_branch i (set_usdc (bs_usdc (arr2_get (vi_branches v) i) - a)) v).
Proof. intros. unfold vault_sub_usdc. rewrite bind_get. by rewrite (lift_step _ _ _ _ (sub_small _ _ H)). Qed.

(** [m] pays [p] out of the vault for [a] units of [who]'s position [id]. *)
Definition escrow_of pid s : Z :=
  map_or 0 (fun v => vi_escrowed (vr_info v)) (find_key vr_proposal pid (ls_vaults s)).

Definition base_escrow_of (e : EpochId) s : Z :=
  map_or 0 (fun v => bv_escrowed (br_info v)) (find_key br_epoch e (ls_baseline_vaults s)).

Definition pays (m : ST (LedgerState A) LedgerError unit) (escrow : LedgerState A -> Z)
    id who a (p : Z) s : Prop :=
  exists s', m s = (Ok tt, s') /\ escrow s' = escrow s - p
    /\ position_balance_of id who s' = position_balance_of id who s - a.

Lemma Redeemed_pays m pid id who a p v info ev s s' :
  m s = (Ok tt, s') -> find_key vr_proposal pid (ls_vaults s) = Some v ->
  Redeemed pid id who a info ev s s' -> vi_escrowed info = vi_escrowed (vr_info v) - p ->
  pays (atomic m) (escrow_of pid) id who a p s.
Proof.
  intros Hm Hf [Hv Hb _] Hp. exists s'. rewrite atomic_Ok. split_and!; [done| |].
  - unfold escrow_of. rewrite Hv, (put_vault_find _ _ _ _ Hf), Hf. exact Hp.
  - rewrite Hb, decide_True by done. lia.
Qed.

Lemma RedeemedBase_pays m e id who a p v info ev s s' :
  m s = (Ok tt, s') -> find_key br_epoch e (ls_baseline_vaults s) = Some v ->
  RedeemedBase e id who a info ev s s' -> bv_escrowed info = bv_escrowed (br_info v) - p ->
  pays (atomic m) (base_escrow_of e) id who a p s.
Proof.
  intros Hm Hf [Hv Hb _] Hp. exists s'. rewrite atomic_Ok. split_and!; [done| |].
  - unfold base_escrow_of. rewrite Hv, (put_base_find _ _ _ _ Hf), Hf. exact Hp.
  - rewrite Hb, decide_True by done. lia.
Qed.

Lemma settled_covers v (c : claims) w score :
  vault_ok v c -> vi_state v = ScalarSettled w score ->
  0 <= score <= SCALE_1E9 /\ 0 <= c w Long /\ 0 <= c w Short
  /\ c w BranchUsdc <= vi_escrowed v /\ c w BranchUsdc = bs_usdc (branch_of v w)
  /\ score * c w Long + (SCALE_1E9 - score) * c w Short <= SCALE_1E9 * vi_escrowed v
  /\ (forall g (o : bool), outcome_of v g = Some o ->
       c w (if o then GateYes g else GateNo g) <= vi_escrowed v).
Proof.
  intros (He & _ & _ & Ha & Hr & Hst) Hs. unfold state_ok in Hst. rewrite Hs in Hst.
  destruct Hst as (Hsc & Hdue & _ & _).
  assert (Hc : branch_covered (branch_of v w) (c w)) by (by destruct w).
  clear Ha Hr. unfold branch_covered, settled_due in *. destruct_and!.
  assert (0 <= score * c w Long) by (apply Z.mul_nonneg_nonneg; lia).
  assert (0 <= (SCALE_1E9 - score) * c w Short) by (apply Z.mul_nonneg_nonneg; lia).
  assert (forall o yes no, 0 <= yes -> 0 <= no -> 0 <= gate_due o yes no)
    as Hg by (intros [[]|]; simpl; lia).
  pose proof (Hg (outcome_of v Survival) (c w (GateYes Survival)) (c w (GateNo Survival))).
  pose proof (Hg (outcome_of v Security) (c w (GateYes Security)) (c w (GateNo Security))).
  unfold SCALE_1E9, SCORE_SCALE in *. split_and!; try lia.
  intros g o Ho. destruct g; rewrite Ho in *; destruct o; simpl in *; lia.
Qed.

Lemma settled_step pid s v w score :
  find_key vr_proposal pid (ls_vaults s) = Some v -> vi_state (vr_info v) = ScalarSettled w score ->
  settled pid s = Ok (w, score) /\ settled_winner pid s = Ok w.
Proof.
  intros Hf Hs. assert (settled pid s = Ok (w, score)) by (apply settled_Ok; eauto).
  split; [done|]. apply settled_winner_Ok. eauto.
Qed.

Lemma reads_step {R Q} (f : LedgerState A -> Result LedgerError R)
    (k : R -> ST (LedgerState A) LedgerError Q) s r :
  f s = Ok r -> bind (reads f) k s = k r s.
Proof. intros H. unfold bind, reads. by rewrite H. Qed.

Lemma redeem_pays pid who a s v w score :
  Inv s -> find_key vr_proposal pid (ls_vaults s) = Some v -> vi_state (vr_info v) = ScalarSettled w score ->
  0 <= a <= position_balance_of (position pid w BranchUsdc) who s ->
  pays (redeem pid who a) (escrow_of pid) (position pid w BranchUsdc) who a a s.
Proof.
  intros HI Hf Hs Ha. pose proof (inv_core _ HI) as HC.
  destruct (settled_covers _ _ _ _ (Inv_vault_at _ _ _ HI Hf) Hs) as (_ & _ & _ & Hle & Hu & _ & _).
  pose proof (balance_le_total (position pid w BranchUsdc) who s HC) as Hb.
  unfold claims_of, branch_of in *.
  destruct (pay_out (position pid w BranchUsdc) who a pid v (vault_sub_usdc (bix w) a) (vault_sub_escrow a)
    _ _ (EvRedeemed pid a) s HC Ha Hf (vault_sub_usdc_small (bix w) a (vr_info v) ltac:(lia))
    (vault_sub_escrow_small a (set_branch (bix w) _ (vr_info v)) ltac:(simpl; lia))) as (s' & Hr & HR).
  eapply Redeemed_pays; [|exact Hf|exact HR|done].
  unfold redeem_impl. rewrite (reads_step _ _ _ w) by (by apply (settled_step _ _ _ _ _ Hf Hs)). exact Hr.
Qed.

Lemma redeem_scalar_pays pid side who a s v w score :
  Inv s -> find_key vr_proposal pid (ls_vaults s) = Some v -> vi_state (vr_info v) = ScalarSettled w score ->
  SCALE_1E9 * vi_escrowed (vr_info v) < U128 ->
  0 <= a <= position_balance_of (position pid w (side_kind side)) who s ->
  pays (redeem_scalar pid side who a) (escrow_of pid) (position pid w (side_kind side)) who a
    (a * side_score side score / SCALE_1E9) s.
Proof.
  intros HI Hf Hs Hfit Ha. pose proof (inv_core _ HI) as HC.
  destruct (settled_covers _ _ _ _ (Inv_vault_at _ _ _ HI Hf) Hs) as (Hsc & Hl & Hsh & _ & _ & Hdue & _).
  pose proof (balance_le_total (position pid w (side_kind side)) who s HC) as Hb.
  unfold claims_of in *.
  assert (Hdue' : a * side_score side score <= SCALE_1E9 * vi_escrowed (vr_info v)).
  { destruct side; simpl in *; rewrite ?score_complement_eq by done; nia. }
  assert (Hp : a * side_score side score / SCALE_1E9 <= vi_escrowed (vr_info v))
    by (apply Z.div_le_upper_bound; [done|lia]).
  assert (Hm : mul_score a (side_score side score) = Ok (a * side_score side score / SCALE_1E9))
    by (apply mul_score_small; lia).
  destruct (pay_out_one (position pid w (side_kind side)) who a pid v
    (vault_sub_escrow (a * side_score side score / SCALE_1E9)) _
    (EvScalarRedeemed pid side (a * side_score side score / SCALE_1E9)) s HC Ha Hf
    (vault_sub_escrow_small _ (vr_info v) Hp)) as (s' & Hr & HR).
  eapply Redeemed_pays; [|exact Hf|exact HR|done].
  unfold redeem_scalar_impl. rewrite (reads_step _ _ _ (w, score)) by (by apply (settled_step _ _ _ _ _ Hf Hs)).
  simpl fst. simpl snd. rewrite Hm. exact Hr.
Qed.

Lemma redeem_gate_pays pid g (o : bool) who a s v w score :
  Inv s -> find_key vr_proposal pid (ls_vaults s) = Some v -> vi_state (vr_info v) = ScalarSettled w score ->
  outcome_of (vr_info v) g = Some o ->
  0 <= a <= position_balance_of (position pid w (if o then GateYes g else GateNo g)) who s ->
  pays (redeem_gate pid g who a) (escrow_of pid) (position pid w (if o then GateYes g else GateNo g)) who a a s.
Proof.
  intros HI Hf Hs Ho Ha. pose proof (inv_core _ HI) as HC.
  destruct (settled_covers _ _ _ _ (Inv_vault_at _ _ _ HI Hf) Hs) as (_ & _ & _ & _ & _ & _ & Hg).
  specialize (Hg g o Ho).
  pose proof (balance_le_total (position pid w (if o then GateYes g else GateNo g)) who s HC) as Hb.
  unfold claims_of in *.
  destruct (pay_out_one _ who a pid v (vault_sub_escrow a) _ (EvGateRedeemed pid g a) s HC Ha Hf
    (vault_sub_escrow_small a (vr_info v) ltac:(lia))) as (s' & Hr & HR).
  eapply Redeemed_pays; [|exact Hf|exact HR|done].
  unfold redeem_gate_impl. rewrite (reads_step _ _ _ w) by (by apply (settled_step _ _ _ _ _ Hf Hs)).
  rewrite (reads_step _ _ _ o); [exact Hr|]. apply check_vault_Ok. exists v. split; [done|].
  unfold outcome_of in Ho. by rewrite Ho.
Qed.

Lemma voided_covers v (c : claims) :
  vault_ok v c -> vi_state v = Voided ->
  (forall b, c b BranchUsdc = bs_usdc (branch_of v b))
  /\ (forall b k, 0 <= c b k) /\ (forall b k, void_rate k (c b k) <= vi_escrowed v).
Proof.
  intros (He & _ & _ & Ha & Hr & Hst) Hs. unfold state_ok in Hst. rewrite Hs in Hst.
  unfold branch_covered, voided_due in *. destruct_and!. split_and!.
  - by intros [].
  - by intros [] [| | |[]|[]].
  - intros b k. unfold void_rate.
    assert (forall x y, 2 * x <= 4 * y -> x / 2 <= y) as Hd2 by (intros x y; pose proof (div_bounds x 2); lia).
    assert (forall x y, x <= 4 * y -> x / 4 <= y) as Hd4 by (intros x y; pose proof (div_bounds x 4); lia).
    destruct b, k as [| | |[]|[]]; first [apply Hd2; lia|apply Hd4; lia].
Qed.

Lemma void_rate_mono k a b : a <= b -> void_rate k a <= void_rate k b.
Proof. intros. destruct k; simpl; by apply Z.div_le_mono. Qed.

Lemma redeem_void_pays pid b k who a s v :
  Inv s -> find_key vr_proposal pid (ls_vaults s) = Some v -> vi_state (vr_info v) = Voided ->
  0 <= a <= position_balance_of (position pid b k) who s ->
  pays (redeem_void pid b k who a) (escrow_of pid) (position pid b k) who a (void_rate k a) s.
Proof.
  intros HI Hf Hs Ha. pose proof (inv_core _ HI) as HC.
  destruct (voided_covers _ _ (Inv_vault_at _ _ _ HI Hf) Hs) as (Hu & _ & Hle).
  specialize (Hu b). specialize (Hle b k).
  pose proof (balance_le_total (position pid b k) who s HC) as Hb.
  unfold claims_of, branch_of in *.
  pose proof (void_rate_mono k a _ (Z.le_trans _ _ _ (proj2 Ha) Hb)) as Hm.
  assert (Hchk : check_vault pid (ensure_vault is_voided) s = Ok tt).
  { apply check_vault_Ok. exists v. split; [done|]. unfold ensure_vault. by rewrite Hs. }
  destruct (decide (k = BranchUsdc)) as [->|Hk].
  - edestruct (pay_out (position pid b BranchUsdc) who a pid v (vault_sub_usdc (bix b) a)
      (vault_sub_escrow (a / 2)) _ _ (EvVoidRedeemed pid BranchUsdc a (a / 2)) s HC Ha Hf
      (vault_sub_usdc_small (bix b) a (vr_info v) ltac:(lia))
      (vault_sub_escrow_small (a / 2) (set_branch (bix b) _ (vr_info v)) ltac:(simpl in *; lia))) as (s' & Hr & HR).
    eapply Redeemed_pays; [|exact Hf|exact HR|done].
    unfold redeem_void_impl. by rewrite (reads_step _ _ _ tt).
  - edestruct (pay_out_one (position pid b k) who a pid v
      (vault_sub_escrow (void_rate k a)) _ (EvVoidRedeemed pid k a (void_rate k a)) s HC Ha Hf
      (vault_sub_escrow_small (void_rate k a) (vr_info v) ltac:(lia))) as (s' & Hr & HR).
    eapply Redeemed_pays; [|exact Hf|exact HR|done].
    unfold redeem_void_impl. rewrite (reads_step _ _ _ tt) by done. rewrite <- Hr. by destruct k.
Qed.

Lemma redeem_baseline_pays e side who a s v score :
  Inv s -> find_key br_epoch e (ls_baseline_vaults s) = Some v -> bv_state (br_info v) = BaselineSettled score ->
  SCALE_1E9 * bv_escrowed (br_info v) < U128 ->
  0 <= a <= position_balance_of (baseline e side) who s ->
  pays (redeem_baseline e side who a) (base_escrow_of e) (baseline e side) who a
    (a * side_score side score / SCALE_1E9) s.
Proof.
  intros HI Hf Hs Hfit Ha. pose proof (inv_core _ HI) as HC.
  destruct (Inv_base_at _ _ _ HI Hf) as (_ & _ & Hl & Hsh & Hst). rewrite Hs in Hst.
  destruct Hst as [Hsc Hdue].
  pose proof (balance_le_total (baseline e side) who s HC) as Hb.
  assert (Hdue' : a * side_score side score <= SCALE_1E9 * bv_escrowed (br_info v)).
  { destruct side; simpl in *; rewrite ?score_complement_eq by done; nia. }
  assert (Hp : a * side_score side score / SCALE_1E9 <= bv_escrowed (br_info v))
    by (apply Z.div_le_upper_bound; [done|lia]).
  assert (Hm : mul_score a (side_score side score) = Ok (a * side_score side score / SCALE_1E9))
    by (apply mul_score_small; lia).
  destruct (pay_out_base (baseline e side) who a e v
    (base_sub_escrow (a * side_score side score / SCALE_1E9)) _
    (EvBaselineRedeemed e side (a * side_score side score / SCALE_1E9)) s HC Ha Hf
    (base_sub_escrow_small _ (br_info v) Hp)) as (s' & Hr & HR).
  eapply RedeemedBase_pays; [|exact Hf|exact HR|done].
  unfold redeem_baseline_impl. rewrite (reads_step _ _ _ score) by (apply base_settled_Ok; eauto).
  rewrite Hm. exact Hr.
Qed.

End redeem.
