(* ===== verification/LedgerSets.v ===== *)
(** * Complete sets, transfers, deposits and the vault lifecycle

    A complete set bought with [split] can always be sold back with [merge],
    and the pair leaves every book as it was; a transfer moves one holder's
    claim and leaves no dust; deposits are backed one to one; vault states
    only move forward. *)

From S2P Require Import Prelude Keyed Primitives Ledger LedgerVault LedgerInv LedgerSolvency LedgerOps LedgerProps LedgerAudit LedgerRedeem.

Section sets.
Context {A : Type} `{EqDecision A}.

Implicit Types (s : LedgerState A) (pid : ProposalId) (id : PositionId) (who : A) (a : Z).

(** The vault after [merge_vault a]. *)
Definition merged a (v : VaultInfo) : VaultInfo :=
  set_branch 1 (set_usdc (bs_usdc (branch_of v Reject) - a))
    (set_branch 0 (set_usdc (bs_usdc (branch_of v Accept) - a))
      (set_escrowed (vi_escrowed v - a) v)).

Lemma merge_vault_succeeds a v (c : claims) :
  vault_ok v c -> is_live (vi_state v) = true ->
  0 <= a <= c Accept BranchUsdc -> a <= c Reject BranchUsdc ->
  merge_vault a v = (Ok tt, merged a v).
Proof.
  intros (He & Hba & Hbr & Hca & Hcr & Hst) Hl Ha Hr.
  unfold branch_covered, supply_bounds in *. destruct_and!.
  assert (a <= vi_escrowed v).
  { unfold state_ok, branch_exact, voided_due in Hst. destruct (vi_state v); try done; lia. }
  unfold merge_vault, vault_sub_escrow, vault_sub_usdc, bind, get, lift, modify.
  rewrite sub_small by lia. unfold branch_of in *. simpl in *.
  rewrite sub_small by lia. simpl. by rewrite sub_small by lia.
Qed.

Lemma merge_succeeds org pid who a s v :
  Inv s -> ensure_signed_or_market org = Ok tt ->
  find_key vr_proposal pid (ls_vaults s) = Some v -> is_live (vi_state (vr_info v)) = true ->
  0 <= a <= position_balance_of (position pid Accept BranchUsdc) who s ->
  a <= position_balance_of (position pid Reject BranchUsdc) who s ->
  exists s1 s2 s', merge_impl org pid who a s = (Ok tt, s')
    /\ Moved (position pid Accept BranchUsdc) who (- a) s s1
    /\ Moved (position pid Reject BranchUsdc) who (- a) s1 s2
    /\ Frame s s1 /\ Frame s1 s2
    /\ s' = (push_event (EvMerged pid a) (put_vault pid (merged a (vr_info v)) s2)).2.
Proof.
  intros HI Ho Hf Hl Ha Hr. pose proof (inv_core _ HI) as HC.
  pose proof (balance_le_total (position pid Accept BranchUsdc) who s HC).
  pose proof (balance_le_total (position pid Reject BranchUsdc) who s HC).
  destruct (burn_succeeds _ _ _ _ HC Ha) as [s1 Hs1].
  pose proof Hs1 as Hb. apply burn_spec in Hb as (HC1 & F1 & M1 & _); [|done|lia].
  assert (Hr1 : a <= position_balance_of (position pid Reject BranchUsdc) who s1).
  { rewrite (moved_balance _ _ _ _ _ M1). rewrite decide_False by (unfold position; intros [? _]; congruence). lia. }
  destruct (burn_succeeds _ _ a _ HC1 (conj (proj1 Ha) Hr1)) as [s2 Hs2].
  pose proof Hs2 as Hb. apply burn_spec in Hb as (HC2 & F2 & M2 & _); [|done|lia].
  exists s1, s2. eexists. split_and!; [|exact M1|exact M2|exact F1|exact F2|reflexivity].
  unfold merge_impl. rewrite (lift_step _ _ _ tt) by done.
  rewrite (reads_step _ _ _ tt)
    by (apply check_vault_Ok; exists v; split; [done|by apply ensure_true]).
  rewrite (reads_step _ _ _ tt) by (apply ensure_holds_Ok; lia).
  rewrite (reads_step _ _ _ tt) by (apply ensure_holds_Ok; lia).
  rewrite (bind_step _ _ _ _ _ Hs1), (bind_step _ _ _ _ _ Hs2).
  rewrite (with_vault_mut_step _ _ _ _ v tt (merged a (vr_info v))); [done| |].
  - by rewrite (frame_vaults _ _ F2), (frame_vaults _ _ F1).
  - apply (merge_vault_succeeds _ _ (claims_of pid s)); [by apply Inv_vault_at|done|..];
      unfold claims_of; lia.
Qed.

Lemma split_vault_merged a v info :
  split_vault a v = (Ok tt, info) -> merged a info = v /\ vi_state info = Open.
Proof.
  intros H. vault_bodies. inv_all. subst.
  destruct v as [e [[u0 ss0 g0] [u1 ss1 g1]] st o sp]. simpl in *. destruct st; try done.
  unfold merged, set_branch, set_usdc, set_escrowed, branch_of. simpl. split; [|done].
  do 3 f_equal; try lia; f_equal; lia.
Qed.

(** [merge] undoes [split]. *)
Lemma split_then_merge org pid who a s s1 :
  Inv s -> is_u128 a -> split org pid who a s = (Ok tt, s1) ->
  exists s2, merge org pid who a s1 = (Ok tt, s2)
    /\ ls_vaults s2 = ls_vaults s /\ ls_baseline_vaults s2 = ls_baseline_vaults s
    /\ (forall x o, position_balance_of x o s2 = position_balance_of x o s)
    /\ (forall x, total x s2 = total x s).
Proof.
  intros HI Ha H. unfold split in H. rewrite atomic_Ok in H.
  pose proof (split_Inv _ _ _ _ _ _ _ HI Ha H) as HI1.
  body H HI @split_impl. destruct (split_vault_merged _ _ _ Hbody) as [Hm Hst].
  assert (Hb : forall x o, position_balance_of x o s1 = position_balance_of x o s
    + (if decide (x = position pid Accept BranchUsdc /\ o = who) then a else 0)
    + (if decide (x = position pid Reject BranchUsdc /\ o = who) then a else 0)).
  { intros x o. rewrite Hpb, (moved_balance _ _ _ _ _ Hmv0), (moved_balance _ _ _ _ _ Hmv). done. }
  assert (Htt : forall x, total x s1 = total x s
    + (if decide (x = position pid Accept BranchUsdc) then a else 0)
    + (if decide (x = position pid Reject BranchUsdc) then a else 0)).
  { intros x. rewrite Ht, (moved_total _ _ _ _ _ Hmv0), (moved_total _ _ _ _ _ Hmv). done. }
  pose proof (balance_bounds (position pid Accept BranchUsdc) who s (inv_core _ HI)).
  pose proof (balance_bounds (position pid Reject BranchUsdc) who s (inv_core _ HI)).
  assert (Hv1 : ls_vaults s1 = ls_vaults (put_vault pid info s))
    by (rewrite Hv, (frame_vaults _ _ Hfr0), (frame_vaults _ _ Hfr); done).
  destruct (merge_succeeds org pid who a s1 {| vr_proposal := vr_proposal v; vr_info := info |})
    as (t1 & t2 & s2 & Hmg & M1 & M2 & F1 & F2 & ->); try done.
  - rewrite Hv1. by apply put_vault_find.
  - simpl. by rewrite Hst.
  - rewrite Hb, decide_True, decide_False by (done || intros [? _]; unfold position in *; congruence). lia.
  - rewrite Hb, decide_False, decide_True by (done || intros [? _]; unfold position in *; congruence). lia.
  - exists (push_event (EvMerged pid a) (put_vault pid (vr_info v) t2)).2. simpl in Hmg. rewrite Hm in Hmg.
    unfold merge. rewrite atomic_Ok. split; [exact Hmg|]. simpl. split_and!.
    + rewrite (frame_vaults _ _ F2), (frame_vaults _ _ F1), Hv1. simpl. rewrite alter_key_alter by done.
      rewrite (alter_key_ext _ _ _ (fun w => w) _ v) by (done || by destruct v). apply alter_key_id.
    + by rewrite (frame_bases _ _ F2), (frame_bases _ _ F1), Hbv, (frame_bases _ _ Hfr0), (frame_bases _ _ Hfr).
    + intros x o. change (position_balance_of x o _) with (position_balance_of x o t2) at 1.
      rewrite (moved_balance _ _ _ _ _ M2), (moved_balance _ _ _ _ _ M1), Hb. repeat goal_decide; lia.
    + intros x. change (total x _) with (total x t2) at 1.
      rewrite (moved_total _ _ _ _ _ M2), (moved_total _ _ _ _ _ M1), Htt. repeat goal_decide; lia.
Qed.

(** ** Transfers *)

Lemma swept_amount_ge org id from a s : 0 <= a -> a <= swept_amount org id from a s.
Proof.
  intros Ha. unfold swept_amount. destruct org; try done; try lia. case_match; [lia|].
  unfold sat_sub. case_match; to_prop; lia.
Qed.

(** What a Signed transfer leaves behind is nothing or a transferable amount. *)
Lemma swept_amount_no_dust id from a s :
  from ∉ ls_protocol_accounts s -> 0 <= a <= position_balance_of id from s ->
  let rest := position_balance_of id from s - swept_amount Signed id from a s in
  rest = 0 \/ MIN_TRANSFER_USDC <= rest.
Proof.
  intros Hn Ha. unfold swept_amount. rewrite bool_decide_false by done. unfold sat_sub.
  destruct (_ && _) eqn:Hb; simpl; [lia|].
  apply andb_false_iff in Hb. rewrite !Z.ltb_ge in Hb. lia.
Qed.

Lemma transfer_effect org id from to a s u s' :
  Inv s -> is_u128 a -> transfer org id from to a s = (Ok u, s') ->
  let m := swept_amount org id from a s in
  a <= m <= position_balance_of id from s
  /\ (forall x o, position_balance_of x o s' = position_balance_of x o s
       - (if decide (x = id /\ o = from) then m else 0) + (if decide (x = id /\ o = to) then m else 0))
  /\ (forall x, total x s' = total x s)
  /\ (org = Signed -> from ∉ ls_protocol_accounts s -> from <> to ->
      position_balance_of id from s' = 0 \/ MIN_TRANSFER_USDC <= position_balance_of id from s').
Proof.
  intros HI Ha H m. unfold transfer in H. rewrite atomic_Ok in H.
  apply transfer_body_spec in H; [|apply HI|done].
  destruct H as (s1 & s2 & HC' & F1 & F2 & M1 & M2 & Hle & ->). fold m in M1, M2, Hle.
  pose proof (swept_amount_ge org id from a s ltac:(lia)) as Hge. fold m in Hge.
  assert (Hb : forall x o, position_balance_of x o (push_event (EvPositionTransferred id m) s2).2 =
    position_balance_of x o s
     - (if decide (x = id /\ o = from) then m else 0) + (if decide (x = id /\ o = to) then m else 0)).
  { intros x o. etrans; [apply (moved_balance _ _ _ _ _ M2)|]. rewrite (moved_balance _ _ _ _ _ M1).
    repeat goal_decide; lia. }
  split_and!; try done.
  - intros x. etrans; [apply (moved_total _ _ _ _ _ M2)|]. rewrite (moved_total _ _ _ _ _ M1).
    goal_decide; lia.
  - intros -> Hn Hne. rewrite Hb, decide_True by done. rewrite decide_False by (by intros [_ ->]).
    rewrite Z.add_0_r. apply swept_amount_no_dust; [done|lia].
Qed.

(** ** Deposits *)

(** Every row of a protocol account is free, every other row is backed by one
    deposit in the pot, and nobody holds more than the cap. *)
Lemma deposits_backed s who :
  Core s ->
  ls_deposits_held s = POSITION_DEPOSIT_USDC *
    sum_by (fun p => if decide (0 < pr_deposit p) then 1 else 0) (ls_positions s)
  /\ (who ∉ ls_protocol_accounts s ->
      Z.of_nat (length (filter (fun p => pr_owner p = who) (ls_positions s))) <= MAX_POSITIONS_PER_ACCOUNT).
Proof.
  intros HC. split.
  - rewrite (core_dep _ HC). pose proof (core_pos _ HC) as Hp. revert Hp.
    induction (ls_positions s) as [|p l IH]; simpl; intros Hp; [done|].
    rewrite IH by (intros; apply Hp; by right).
    destruct (Hp p ltac:(by left)) as (_ & [->|[-> _]] & _); unfold POSITION_DEPOSIT_USDC;
      goal_decide; lia.
  - intros Hn. rewrite length_filter_sum. etrans; [|apply (core_cnt_cap _ HC who)].
    apply Z.eq_le_incl, sum_by_ext. intros p Hp.
    destruct (core_pos _ HC _ Hp) as (_ & Hd & _).
    destruct (decide (pr_owner p = who)) as [<-|?]; [|by rewrite decide_False by tauto].
    rewrite decide_True; [done|]. split; [done|]. destruct Hd as [->|[_ ?]]; done.
Qed.

End sets.

(** ** The lifecycle of a vault

    Open -> Resolved -> ScalarSettled, or Voided from the first two; settled
    and voided vaults, and settled gates, never change state again. *)

(** [verdict] tells whether the resolve authority is calling: nobody else
    decides between the branches or voids. *)
Inductive state_next (verdict : bool) : VaultState -> VaultState -> Prop :=
| next_stay st : state_next verdict st st
| next_resolve w : verdict = true -> state_next verdict Open (Resolved w)
| next_settle w s : 0 <= s <= SCALE_1E9 -> state_next verdict (Resolved w) (ScalarSettled w s)
| next_void_open : verdict = true -> state_next verdict Open Voided
| next_void_resolved w : verdict = true -> state_next verdict (Resolved w) Voided.

(** How a vault may change in one call. *)
Record vault_next (verdict : bool) (v v' : VaultInfo) : Prop := {
  next_state : state_next verdict (vi_state v) (vi_state v');
  next_outcomes : forall g o, outcome_of v g = Some o -> outcome_of v' g = Some o;
  next_spec : vi_spec v' = vi_spec v;
}.

Lemma vault_next_refl verdict v : vault_next verdict v v.
Proof. split; [constructor|done|done]. Qed.

Section life.
Context {A : Type} `{EqDecision A}.

Implicit Types (s : LedgerState A) (c : LedgerCall A) (pid : ProposalId) (id : PositionId) (who : A) (a : Z).

(** Every vault is still there, and has moved forward if at all. *)
Definition evolves (verdict : bool) s s' : Prop :=
  forall pid v, find_key vr_proposal pid (ls_vaults s) = Some v ->
  exists v', find_key vr_proposal pid (ls_vaults s') = Some v' /\ vault_next verdict (vr_info v) (vr_info v').

Lemma evolves_same verdict s s' : ls_vaults s' = ls_vaults s -> evolves verdict s s'.
Proof. intros Hv pid v Hf. exists v. rewrite Hv. split; [done|apply vault_next_refl]. Qed.

Lemma evolves_put verdict pid v info s s' :
  find_key vr_proposal pid (ls_vaults s) = Some v ->
  ls_vaults s' = ls_vaults (put_vault pid info s) -> vault_next verdict (vr_info v) info -> evolves verdict s s'.
Proof.
  intros Hf Hv Hn pid' w Hw. rewrite Hv. simpl. destruct (decide (pid = pid')) as [<-|?].
  - rewrite Hf in Hw. injection Hw as <-. exists {| vr_proposal := vr_proposal v; vr_info := info |}.
    by rewrite (find_key_alter_eq _ _ _ _ v).
  - exists w. rewrite find_key_alter_ne by done. split; [done|apply vault_next_refl].
Qed.

Lemma state_next_stay verdict st st' : st' = st -> state_next verdict st st'.
Proof. intros ->. constructor. Qed.

(** The step of the vault, read off the vault body. *)
Ltac next_of_body H :=
  vault_bodies; unfold is_open, is_live in *; inv_all; subst; repeat case_match; inv_all; subst;
  (split; [simpl; repeat match goal with E : vi_state _ = _ |- _ => rewrite E end; try discriminate;
             first [by apply state_next_stay | constructor; first [done|lia]]
          |intros g0 o0 Ho; unfold outcome_of in *; simpl in *; try done
          |done]).

Ltac evolution H f :=
  match goal with HI : Inv _ |- _ => body H HI f end; frames;
  lazymatch goal with
  | Hf : find_key vr_proposal ?pid (ls_vaults ?s) = Some ?v, Hb : _ (vr_info ?v) = (Ok _, ?info) |- _ =>
      eapply (evolves_put _ pid v info s); [exact Hf|assumption|next_of_body Hb]
  | _ => apply evolves_same; assumption
  end.

Lemma split_life org pid who a s u s' :
  Inv s -> is_u128 a -> split_impl org pid who a s = (Ok u, s') -> evolves false s s'.
Proof. intros HI Ha H. evolution H @split_impl. Qed.

Lemma merge_life org pid who a s u s' :
  Inv s -> is_u128 a -> merge_impl org pid who a s = (Ok u, s') -> evolves false s s'.
Proof. intros HI Ha H. evolution H @merge_impl. Qed.

Lemma split_scalar_life org pid b who a s u s' :
  Inv s -> is_u128 a -> split_scalar_impl org pid b who a s = (Ok u, s') -> evolves false s s'.
Proof. intros HI Ha H. evolution H @split_scalar_impl. Qed.

Lemma merge_scalar_life org pid b who a s u s' :
  Inv s -> is_u128 a -> merge_scalar_impl org pid b who a s = (Ok u, s') -> evolves false s s'.
Proof. intros HI Ha H. evolution H @merge_scalar_impl. Qed.

Lemma split_gate_life org pid b g who a s u s' :
  Inv s -> is_u128 a -> split_gate_impl org pid b g who a s = (Ok u, s') -> evolves false s s'.
Proof. intros HI Ha H. evolution H @split_gate_impl. Qed.

Lemma merge_gate_life org pid b g who a s u s' :
  Inv s -> is_u128 a -> merge_gate_impl org pid b g who a s = (Ok u, s') -> evolves false s s'.
Proof. intros HI Ha H. evolution H @merge_gate_impl. Qed.

Lemma redeem_life pid who a s u s' :
  Inv s -> is_u128 a -> redeem_impl pid who a s = (Ok u, s') -> evolves false s s'.
Proof. intros HI Ha H. evolution H @redeem_impl. Qed.

Lemma redeem_scalar_life pid side who a s u s' :
  Inv s -> is_u128 a -> redeem_scalar_impl pid side who a s = (Ok u, s') -> evolves false s s'.
Proof. intros HI Ha H. evolution H @redeem_scalar_impl. Qed.

Lemma redeem_scalar_pair_life pid who a s u s' :
  Inv s -> is_u128 a -> redeem_scalar_pair_impl pid who a s = (Ok u, s') -> evolves false s s'.
Proof. intros HI Ha H. evolution H @redeem_scalar_pair_impl. Qed.

Lemma redeem_gate_life pid g who a s u s' :
  Inv s -> is_u128 a -> redeem_gate_impl pid g who a s = (Ok u, s') -> evolves false s s'.
Proof. intros HI Ha H. evolution H @redeem_gate_impl. Qed.

Lemma redeem_void_life pid b k who a s u s' :
  Inv s -> is_u128 a -> redeem_void_impl pid b k who a s = (Ok u, s') -> evolves false s s'.
Proof. intros HI Ha H. destruct k; evolution H @redeem_void_impl. Qed.

Lemma split_baseline_life org e who a s u s' :
  Inv s -> is_u128 a -> split_baseline_impl org e who a s = (Ok u, s') -> evolves false s s'.
Proof. intros HI Ha H. evolution H @split_baseline_impl. Qed.

Lemma merge_baseline_life org e who a s u s' :
  Inv s -> is_u128 a -> merge_baseline_impl org e who a s = (Ok u, s') -> evolves false s s'.
Proof. intros HI Ha H. evolution H @merge_baseline_impl. Qed.

Lemma redeem_baseline_life e side who a s u s' :
  Inv s -> is_u128 a -> redeem_baseline_impl e side who a s = (Ok u, s') -> evolves false s s'.
Proof. intros HI Ha H. evolution H @redeem_baseline_impl. Qed.

Lemma redeem_baseline_pair_life e who a s u s' :
  Inv s -> is_u128 a -> redeem_baseline_pair_impl e who a s = (Ok u, s') -> evolves false s s'.
Proof. intros HI Ha H. evolution H @redeem_baseline_pair_impl. Qed.

Lemma resolve_life org pid w s u s' :
  Inv s -> resolve org pid w s = (Ok u, s') -> evolves true s s'.
Proof. intros HI H. evolution H @resolve. Qed.

Lemma void_life org pid s u s' :
  Inv s -> void org pid s = (Ok u, s') -> evolves true s s'.
Proof. intros HI H. evolution H @void. Qed.

Lemma settle_gate_vault_next g outcome v w v' :
  settle_gate_vault g outcome v = (Ok w, v') -> vault_next false v v'.
Proof.
  intros H. unfold settle_gate_vault in H. rewrite bind_get in H.
  assert (exists w', w = w' /\ outcome_of v g = None /\ v' = set_outcome (gix g) (Some outcome) v)
    as (w' & -> & Ho & ->).
  { unfold outcome_of. destruct (vi_state v); inv_all; simpl in *;
      destruct (arr2_get (vi_gate_outcomes v) (gix g)); inv_all; eauto; done. }
  split; [constructor| |done]. intros g' o'. unfold outcome_of in *.
  destruct g, g'; simpl in *; congruence.
Qed.

Lemma settle_gate_life org pid g outcome s u s' :
  Inv s -> settle_gate org pid g outcome s = (Ok u, s') -> evolves false s s'.
Proof.
  intros HI H. body H HI @settle_gate. frames.
  eapply evolves_put; [exact Hfind|exact Hv|]. by eapply settle_gate_vault_next.
Qed.

Lemma settle_baseline_life org e score s u s' :
  Inv s -> settle_baseline org e score s = (Ok u, s') -> evolves false s s'.
Proof. intros HI H. evolution H @settle_baseline. Qed.

Lemma settle_scalar_life org pid score s u s' :
  Inv s -> is_u64 score -> settle_scalar org pid score s = (Ok u, s') -> evolves false s s'.
Proof.
  intros HI Hs H. body H HI @settle_scalar. unfold ensure_score in *. inv_all. to_prop. frames.
  eapply (evolves_put _ pid v info); [exact Hfind|exact Hv|next_of_body Hbody].
Qed.

Lemma create_vault_life pid spec s u s' : create_vault pid spec s = (Ok u, s') -> evolves false s s'.
Proof.
  intros H. unfold create_vault in H. inv_all. intros pid' v Hf. exists v. simpl.
  rewrite find_key_app, Hf. split; [done|apply vault_next_refl].
Qed.

Lemma create_baseline_vault_life e s u s' : create_baseline_vault e s = (Ok u, s') -> evolves false s s'.
Proof. intros H. unfold create_baseline_vault in H. inv_all. by apply evolves_same. Qed.

Lemma transfer_life org id from to a s u s' :
  Inv s -> is_u128 a -> transfer_impl org id from to a s = (Ok u, s') -> evolves false s s'.
Proof.
  intros HI Ha H. apply transfer_body_spec in H; [|apply HI|done].
  destruct H as (s1 & s2 & _ & [] & [] & _ & _ & _ & ->). apply evolves_same. simpl. congruence.
Qed.

#[local] Hint Resolve split_life merge_life split_scalar_life merge_scalar_life split_gate_life
  merge_gate_life transfer_life redeem_life redeem_scalar_life redeem_scalar_pair_life redeem_gate_life
  redeem_void_life split_baseline_life merge_baseline_life redeem_baseline_life
  redeem_baseline_pair_life resolve_life void_life settle_scalar_life settle_gate_life
  settle_baseline_life create_vault_life create_baseline_vault_life : ledger.

(** The calls of the resolve authority. *)
Definition is_verdict c : bool := match c with CResolve _ _ _ | CVoid _ _ => true | _ => false end.

Lemma exec_life c s u s' : Inv s -> call_ok c -> exec c s = (Ok u, s') -> evolves (is_verdict c) s s'.
Proof.
  intros HI Hc H. destruct c; open_call H; cbn [call_ok is_verdict] in *;
    rewrite ?atomic_Ok in H; eauto 2 with ledger.
Qed.

End life.
