(* ===== verification/LedgerTheorems.v ===== *)
(** * The properties of the conditional ledger

    Each theorem is followed by its witness, a concrete run of the ledger on
    which its hypotheses hold. *)

From S2P Require Import Prelude Keyed Primitives Ledger LedgerVault LedgerInv LedgerSolvency LedgerOps LedgerProps LedgerAudit LedgerRedeem LedgerSets.

(** ** Concrete runs used by the witnesses *)

(** Two traders, a proposal vault and a Baseline vault. *)
Definition demo_open : list (LedgerCall Z) :=
  [CCreateVault 1 3; CCreateBaselineVault 5;
   CSplit Signed 1 7 50000000; CSplit Signed 1 8 20000000;
   CSplitScalar Signed 1 Accept 7 30000000; CSplitGate Signed 1 Accept Survival 7 10000000;
   CTransfer Signed (position 1 Accept Long) 7 8 12345678;
   CSplitBaseline Signed 5 7 40000000].

Definition demo_settled : list (LedgerCall Z) :=
  demo_open ++ [CResolve ResolveAuthority 1 Accept; CSettleScalar SettleAuthority 1 333333333;
    CSettleGate SettleAuthority 1 Survival true; CSettleBaseline SettleAuthority 5 700000001].

Definition demo_voided : list (LedgerCall Z) := demo_open ++ [CVoid ResolveAuthority 1].

Definition demo_state (cs : list (LedgerCall Z)) : LedgerState Z := run cs LedgerState_new.

Definition demo_vault (cs : list (LedgerCall Z)) : VaultRecord :=
  default {| vr_proposal := 0; vr_info := VaultInfo_open 0 |}
    (find_key vr_proposal 1 (ls_vaults (demo_state cs))).

Definition demo_base (cs : list (LedgerCall Z)) : BaselineVaultRecord :=
  default {| br_epoch := 0; br_info := BaselineVaultInfo_open |}
    (find_key br_epoch 5 (ls_baseline_vaults (demo_state cs))).

Lemma demo_reachable cs : Forall call_ok cs -> reachable (demo_state cs).
Proof. intros Hcs. apply run_reachable; [done|]. apply rtc_refl. Qed.

Lemma demo_open_ok : Forall call_ok demo_open.
Proof. repeat constructor; simpl; lia. Qed.

Lemma demo_settled_ok : Forall call_ok demo_settled.
Proof. repeat constructor; simpl; lia. Qed.

Lemma demo_voided_ok : Forall call_ok demo_voided.
Proof. repeat constructor; simpl; lia. Qed.

#[export] Hint Resolve demo_open_ok demo_settled_ok demo_voided_ok demo_reachable : ledger.

Section theorems.
Context {A : Type} `{EqDecision A}.

Implicit Types (s : LedgerState A) (c : LedgerCall A) (pid : ProposalId) (id : PositionId) (who : A) (a : Z).

(** C1. Solvency invariant. Whatever calls have been made, the tables agree
    (totals, counts and deposits are what the positions add up to) and every
    vault's escrow covers what its outstanding claims are worth: exactly while
    it is Open or Resolved, as a linear bound once it is settled or voided. *)
Theorem reachable_solvent s : reachable s -> Inv s.
Proof. apply Inv_of_reachable. Qed.


(** Voided vaults pay. On a reachable state any holder of any instrument
    of a voided vault can redeem any part of it at the void rate: one half
    for branch-USDC and one quarter for every leg, rounded down. *)
Theorem voided_vault_pays s pid v b k who a :
  reachable s -> find_key vr_proposal pid (ls_vaults s) = Some v -> vi_state (vr_info v) = Voided ->
  0 <= a <= position_balance_of (position pid b k) who s ->
  pays (redeem_void pid b k who a) (escrow_of pid) (position pid b k) who a (void_rate k a) s.
Proof. intros Hr Hf Hs Ha. eapply redeem_void_pays; try done. by apply Inv_of_reachable. Qed.

(** Settled Baseline vaults pay the floor of the amount times the leg's
    score, to any holder and for any part of the position. *)
Theorem baseline_vault_pays s e v side score who a :
  reachable s -> find_key br_epoch e (ls_baseline_vaults s) = Some v ->
  bv_state (br_info v) = BaselineSettled score -> SCALE_1E9 * bv_escrowed (br_info v) < U128 ->
  0 <= a <= position_balance_of (baseline e side) who s ->
  pays (redeem_baseline e side who a) (base_escrow_of e) (baseline e side) who a
    (a * side_score side score / SCALE_1E9) s.
Proof. intros Hr Hf Hs Hfit Ha. eapply redeem_baseline_pays; try done. by apply Inv_of_reachable. Qed.

(** The runtime checker accepts: on every reachable state whose escrows
    can be multiplied by a 1e9 score, [try_state] recomputes all sums and
    liabilities without overflow and reports no violation. *)
Theorem try_state_accepts s : reachable s -> escrow_fits s -> try_state s = Ok tt.
Proof. intros Hr Hfit. apply try_state_Inv; [|done]. by apply Inv_of_reachable. Qed.

(** Cash accounting: the escrow of all vaults is the sum of what the
    event log says went in and out. *)
Theorem escrow_is_event_cash s : reachable s -> escrowed s = cash_in s.
Proof. intros Hr. by apply balanced_of_reachable. Qed.

(** Failure atomicity: a public call that returns an error has changed
    nothing, also for the operations that are not run under [atomically]. *)
Theorem failed_call_changes_nothing c s e s' : exec c s = (Err e, s') -> s' = s.
Proof. apply exec_Err. Qed.

(** C38. Round trip: after a [split] the same [merge] succeeds, and leaves the
    vaults, all balances and all supplies as they were. *)
Theorem split_merge_roundtrip org pid who a s s1 :
  reachable s -> is_u128 a -> split org pid who a s = (Ok tt, s1) ->
  exists s2, merge org pid who a s1 = (Ok tt, s2)
    /\ ls_vaults s2 = ls_vaults s /\ ls_baseline_vaults s2 = ls_baseline_vaults s
    /\ (forall x o, position_balance_of x o s2 = position_balance_of x o s)
    /\ (forall x, total x s2 = total x s).
Proof. intros Hr. apply split_then_merge. by apply Inv_of_reachable. Qed.

(** Transfers: exactly the swept amount, at least what was asked for,
    moves from one holder to the other; supplies stay; and a Signed transfer
    out of an ordinary account leaves nothing or at least the minimum. *)
Theorem transfer_moves_claim org id from to a s u s' :
  reachable s -> is_u128 a -> transfer org id from to a s = (Ok u, s') ->
  let m := swept_amount org id from a s in
  a <= m <= position_balance_of id from s
  /\ (forall x o, position_balance_of x o s' = position_balance_of x o s
       - (if decide (x = id /\ o = from) then m else 0) + (if decide (x = id /\ o = to) then m else 0))
  /\ (forall x, total x s' = total x s)
  /\ (org = Signed -> from ∉ ls_protocol_accounts s -> from <> to ->
      position_balance_of id from s' = 0 \/ MIN_TRANSFER_USDC <= position_balance_of id from s').
Proof. intros Hr. apply transfer_effect. by apply Inv_of_reachable. Qed.

(** C39. The lifecycle only moves forward: after any successful call every
    vault still exists, its state is the same or a successor (Open, Resolved,
    ScalarSettled; Voided from the first two), a settled gate keeps its
    outcome and the metric spec is the one it was created with. Only the
    resolve authority's calls resolve or void. *)
Theorem lifecycle_forward c s u s' :
  reachable s -> call_ok c -> exec c s = (Ok u, s') -> evolves (is_verdict c) s s'.
Proof. intros Hr. apply exec_life. by apply Inv_of_reachable. Qed.

(** Deposits: the pot holds one deposit for each deposit-backed
    position, and no ordinary account has more than 64 positions. *)
Theorem deposits_are_backed s who :
  reachable s ->
  ls_deposits_held s = POSITION_DEPOSIT_USDC *
    sum_by (fun p => if decide (0 < pr_deposit p) then 1 else 0) (ls_positions s)
  /\ (who ∉ ls_protocol_accounts s ->
      Z.of_nat (length (filter (fun p => pr_owner p = who) (ls_positions s))) <= MAX_POSITIONS_PER_ACCOUNT).
Proof. intros Hr. apply deposits_backed. by apply inv_core, Inv_of_reachable. Qed.

End theorems.

(** ** Witnesses *)

Lemma reachable_solvent_witness : Inv (demo_state demo_settled).
Proof. apply (reachable_solvent (demo_state demo_settled)). apply demo_reachable, demo_settled_ok. Defined.


Lemma voided_vault_pays_witness :
  pays (redeem_void 1 Accept Long 8 12345678) (escrow_of 1) (position 1 Accept Long) 8 12345678
    3086419 (demo_state demo_voided).
Proof.
  apply (voided_vault_pays (demo_state demo_voided) 1 (demo_vault demo_voided) Accept Long 8 12345678);
    [apply demo_reachable, demo_voided_ok|vm_compute; reflexivity|vm_compute; reflexivity|].
  vm_compute. split; discriminate.
Defined.

Lemma baseline_vault_pays_witness :
  pays (redeem_baseline 5 SideLong 7 40000000) (base_escrow_of 5) (baseline 5 SideLong) 7 40000000
    28000000 (demo_state demo_settled).
Proof.
  apply (baseline_vault_pays (demo_state demo_settled) 5 (demo_base demo_settled) SideLong 700000001 7 40000000);
    [apply demo_reachable, demo_settled_ok|vm_compute; reflexivity|vm_compute; reflexivity
    |vm_compute; reflexivity|].
  vm_compute. split; discriminate.
Defined.

Lemma try_state_accepts_witness : try_state (demo_state demo_settled) = Ok tt.
Proof.
  apply (try_state_accepts (demo_state demo_settled)); [apply demo_reachable, demo_settled_ok|].
  split; intros v Hv; vm_compute in Hv; apply list_elem_of_In in Hv; simpl in Hv;
    destruct Hv as [<-|[]]; vm_compute; reflexivity.
Defined.

Lemma escrow_is_event_cash_witness :
  escrowed (demo_state demo_settled) = 110000000
  /\ escrowed (demo_state demo_settled) = cash_in (demo_state demo_settled).
Proof.
  split; [vm_compute; reflexivity|]. apply (escrow_is_event_cash (demo_state demo_settled)).
  apply demo_reachable, demo_settled_ok.
Defined.

Lemma failed_call_changes_nothing_witness :
  (exec (CMerge Signed 1 8 30000000) (demo_state demo_open)).2 = demo_state demo_open.
Proof.
  apply (failed_call_changes_nothing (CMerge Signed 1 8 30000000) (demo_state demo_open) InsufficientPosition).
  vm_compute. reflexivity.
Defined.

Lemma split_merge_roundtrip_witness :
  exists s2, merge Signed 1 9 5000000 (split Signed 1 9 5000000 (demo_state demo_open)).2 = (Ok tt, s2)
    /\ ls_vaults s2 = ls_vaults (demo_state demo_open).
Proof.
  destruct (split_merge_roundtrip Signed 1 9 5000000 (demo_state demo_open)
    (split Signed 1 9 5000000 (demo_state demo_open)).2) as (s2 & Hm & Hv & _);
    [apply demo_reachable, demo_open_ok|lia|vm_compute; reflexivity|].
  exists s2. split; [exact Hm|exact Hv].
Defined.

(** This transfer of 19.999 of 20 USDC would leave 0.001: all of it moves. *)
Lemma transfer_moves_claim_witness :
  let s := demo_state demo_open in
  let s' := (transfer Signed (position 1 Reject BranchUsdc) 8 7 19999000 s).2 in
  position_balance_of (position 1 Reject BranchUsdc) 8 s' = 0
  /\ position_balance_of (position 1 Reject BranchUsdc) 7 s' = 70000000
  /\ total (position 1 Reject BranchUsdc) s' = total (position 1 Reject BranchUsdc) s.
Proof.
  destruct (transfer_moves_claim Signed (position 1 Reject BranchUsdc) 8 7 19999000 (demo_state demo_open) tt
    (transfer Signed (position 1 Reject BranchUsdc) 8 7 19999000 (demo_state demo_open)).2)
    as (_ & Hb & Ht & _); [apply demo_reachable, demo_open_ok|lia|vm_compute; reflexivity|].
  split; [|split; [|apply Ht]]; etrans; [apply Hb| |apply Hb|]; vm_compute; reflexivity.
Defined.

Lemma lifecycle_forward_witness :
  evolves true (demo_state demo_open) (exec (CResolve ResolveAuthority 1 Reject) (demo_state demo_open)).2.
Proof.
  apply (lifecycle_forward (CResolve ResolveAuthority 1 Reject) (demo_state demo_open) tt);
    [apply demo_reachable, demo_open_ok|exact I|vm_compute; reflexivity].
Defined.

Lemma deposits_are_backed_witness :
  ls_deposits_held (demo_state demo_open) = POSITION_DEPOSIT_USDC *
    sum_by (fun p => if decide (0 < pr_deposit p) then 1 else 0) (ls_positions (demo_state demo_open))
  /\ Z.of_nat (length (filter (fun p => pr_owner p = 7) (ls_positions (demo_state demo_open)))) = 8.
Proof.
  split; [|vm_compute; reflexivity].
  apply (deposits_are_backed (demo_state demo_open) 7). apply demo_reachable, demo_open_ok.
Defined.
