(* ===== verification/U256.v ===== *)
(** * 256-bit intermediates (crates/futarchy-fixed, [U256])

    A pair of [u128] limbs.  Every [u128] operation wraps as the machine's
    does; the theorems say that the limbs always hold the exact value. *)

From S2P Require Import Prelude.

Inductive FixedError : Type :=
| DivisionByZero
| Domain
| Overflow
| NonFinite.

(** Shifts of a [u128]. *)
Definition shl (a n : Z) : Z := wrap U128 (Z.shiftl a n).
Definition shr (a n : Z) : Z := Z.shiftr a n.

Record U256 : Type := { hi : Z; lo : Z }.

Definition val (x : U256) : Z := hi x * 2 ^ 128 + lo x.

Definition u256_ok (x : U256) : Prop := is_u128 (hi x) /\ is_u128 (lo x).

Definition U256_ZERO : U256 := {| hi := 0; lo := 0 |}.

Definition from_u128 (value : Z) : U256 := {| hi := 0; lo := value |}.

Definition shl64 (value : Z) : U256 := {| hi := shr value 64; lo := shl value 64 |}.

Definition MASK64 : Z := 2 ^ 64 - 1.

Definition mul_u128 (lhs rhs : Z) : U256 :=
  let a0 := Z.land lhs MASK64 in
  let a1 := shr lhs 64 in
  let b0 := Z.land rhs MASK64 in
  let b1 := shr rhs 64 in
  let p0 := wrap U128 (a0 * b0) in
  let p1 := wrap U128 (a0 * b1) in
  let p2 := wrap U128 (a1 * b0) in
  let p3 := wrap U128 (a1 * b1) in
  let carry := wrap U128 (shr p0 64 + Z.land p1 MASK64 + Z.land p2 MASK64) in
  {| lo := Z.lor (Z.land p0 MASK64) (shl carry 64);
     hi := wrap U128 (p3 + shr p1 64 + shr p2 64 + shr carry 64) |}.

Definition shr64_to_u128 (x : U256) : Result FixedError Z :=
  if negb (shr (hi x) 64 =? 0) then Err Overflow
  else Ok (Z.lor (shl (hi x) 64) (shr (lo x) 64)).

Definition shr_to_u128 (x : U256) (shift : Z) : Result FixedError Z :=
  if shift =? 0 then
    if negb (hi x =? 0) then Err Overflow else Ok (lo x)
  else if shift <? 128 then
    if negb (shr (hi x) shift =? 0) then Err Overflow
    else Ok (Z.lor (shr (lo x) shift) (shl (hi x) (128 - shift)))
  else if shift <? 256 then Ok (shr (hi x) (shift - 128))
  else Ok 0.

Definition bit (x : U256) (index : Z) : bool :=
  if index <? 128 then Z.land (shr (lo x) index) 1 =? 1
  else if index <? 256 then Z.land (shr (hi x) (index - 128)) 1 =? 1
  else false.

Definition shr_round_to_u128 (x : U256) (shift : Z) : Result FixedError Z :=
  let? truncated := shr_to_u128 x shift in
  if bit x (shift - 1) then ok_or Overflow (checked_add U128 truncated 1)
  else Ok truncated.

Definition gt (x y : U256) : bool :=
  (hi y <? hi x) || ((hi x =? hi y) && (lo y <? lo x)).

Definition shl1 (x : U256) : Result FixedError U256 :=
  if negb (shr (hi x) 127 =? 0) then Err Overflow
  else Ok {| hi := Z.lor (shl (hi x) 1) (shr (lo x) 127); lo := shl (lo x) 1 |}.

Definition ge_u128 (x : U256) (rhs : Z) : bool := negb (hi x =? 0) || (rhs <=? lo x).

(** [overflowing_sub] on the low limb, the borrow taken from the high one. *)
Definition sub_u128 (x : U256) (rhs : Z) : U256 :=
  {| lo := wrap U128 (lo x - rhs);
     hi := wrap U128 (hi x - (if lo x <? rhs then 1 else 0)) |}.

(** One turn of the long-division loop, for [bit] number [n]. *)
Definition div_step (x : U256) (divisor : Z) (n : nat) (st : U256 * Z) : Result FixedError (U256 * Z) :=
  let b := Z.of_nat n in
  let? rem := shl1 st.1 in
  let rem := if bit x b then {| hi := hi rem; lo := Z.lor (lo rem) 1 |} else rem in
  if ge_u128 rem divisor then
    let rem := sub_u128 rem divisor in
    if 128 <=? b then Err Overflow
    else Ok (rem, Z.lor st.2 (shl 1 b))
  else Ok (rem, st.2).

(** The loop [for bit in (0..n).rev()]. *)
Fixpoint div_loop (x : U256) (divisor : Z) (n : nat) (st : U256 * Z) : Result FixedError (U256 * Z) :=
  match n with
  | O => Ok st
  | S n => let? st := div_step x divisor n st in div_loop x divisor n st
  end.

Definition div_u128 (x : U256) (divisor : Z) : Result FixedError Z :=
  if divisor =? 0 then Err DivisionByZero
  else rmap snd (div_loop x divisor 256 (U256_ZERO, 0)).

(** ** Shifts and masks as arithmetic *)

Lemma shr_div a n : 0 <= n -> shr a n = a / 2 ^ n.
Proof. intros. unfold shr. by apply Z.shiftr_div_pow2. Qed.

Lemma shl_mul a n : 0 <= n -> shl a n = (a * 2 ^ n) mod U128.
Proof. intros. unfold shl, wrap. by rewrite Z.shiftl_mul_pow2. Qed.

Lemma land_mask a : Z.land a MASK64 = a mod 2 ^ 64.
Proof. change MASK64 with (Z.ones 64). by rewrite Z.land_ones. Qed.

(** A disjunction of a low part and a shifted high part is their sum. *)
Lemma lor_add a b n : 0 <= n -> 0 <= a < 2 ^ n -> Z.lor a (b * 2 ^ n) = a + b * 2 ^ n.
Proof.
  intros Hn Ha. rewrite <- Z.add_lor_land.
  replace (Z.land a (b * 2 ^ n)) with 0; [lia|].
  symmetry. apply Z.bits_inj'. intros i Hi. rewrite Z.land_spec, Z.bits_0.
  destruct (Z.lt_ge_cases i n).
  - rewrite Z.mul_pow2_bits_low by lia. apply andb_false_r.
  - rewrite <- (Z.mod_small a (2 ^ n)) by lia. rewrite Z.mod_pow2_bits_high by lia. done.
Qed.

Lemma bit_testbit x n : 0 <= n < 256 -> u256_ok x -> bit x n = Z.testbit (val x) n.
Proof.
  intros Hn [Hh Hl]. unfold bit, val, shr.
  assert (Hb : forall a i, 0 <= i -> (Z.land (Z.shiftr a i) 1 =? 1) = Z.testbit a i).
  { intros a i Hi. rewrite Z.testbit_odd. change 1 with (Z.ones 1) at 1. rewrite Z.land_ones by lia.
    rewrite Zmod_odd. by destruct (Z.odd _). }
  case_match eqn:H1; to_prop.
  - rewrite Hb by lia. rewrite <- (Z.mod_pow2_bits_low (_ + _) 128 n) by lia.
    rewrite Z.add_comm, Z_mod_plus_full, Z.mod_pow2_bits_low by lia. done.
  - case_match eqn:H2; to_prop; [|lia]. rewrite Hb by lia.
    replace n with (n - 128 + 128) at 2 by lia.
    rewrite <- Z.div_pow2_bits by lia.
    rewrite Z.div_add_l by lia. rewrite Z.div_small by lia. by rewrite Z.add_0_r.
Qed.

(** ** Multiplication *)

Lemma mul_u128_exact a b :
  is_u128 a -> is_u128 b -> u256_ok (mul_u128 a b) /\ val (mul_u128 a b) = a * b.
Proof.
  intros Ha Hb. unfold mul_u128, u256_ok, val. rewrite !land_mask, !shr_div by lia. cbn [hi lo].
  change (2 ^ 64) with 18446744073709551616. change (2 ^ 128) with U128.
  pose proof (Z.div_mod a U64 ltac:(lia)) as Ea. pose proof (Z.mod_pos_bound a U64 ltac:(lia)).
  pose proof (Z.div_mod b U64 ltac:(lia)) as Eb. pose proof (Z.mod_pos_bound b U64 ltac:(lia)).
  set (a0 := a mod U64) in *. set (a1 := a / U64) in *. set (b0 := b mod U64) in *. set (b1 := b / U64) in *.
  clearbody a0 a1 b0 b1.
  assert (Hp : forall x y, 0 <= x < U64 -> 0 <= y < U64 -> wrap U128 (x * y) = x * y /\ 0 <= x * y <= (U64 - 1) * (U64 - 1)).
  { intros x y Hx Hy. assert (0 <= x * y <= (U64 - 1) * (U64 - 1)) by nia. split; [apply wrap_small; lia|done]. }
  destruct (Hp a0 b0) as [-> B0]; [lia..|]. destruct (Hp a0 b1) as [-> B1]; [lia..|].
  destruct (Hp a1 b0) as [-> B2]; [lia..|]. destruct (Hp a1 b1) as [-> B3]; [lia..|].
  assert (Hab : a * b = a1 * b1 * U128 + (a0 * b1 + a1 * b0) * U64 + a0 * b0) by (subst a b; ring).
  set (p0 := a0 * b0) in *. set (p1 := a0 * b1) in *. set (p2 := a1 * b0) in *. set (p3 := a1 * b1) in *.
  assert (Hlt : a * b < U128 * U128) by nia. rewrite Hab in *.
  clearbody p0 p1 p2 p3. clear Ea Eb Hab Ha Hb Hp.
  pose proof (Z.div_mod p0 U64 ltac:(lia)). pose proof (Z.mod_pos_bound p0 U64 ltac:(lia)).
  pose proof (Z.div_mod p1 U64 ltac:(lia)). pose proof (Z.mod_pos_bound p1 U64 ltac:(lia)).
  pose proof (Z.div_mod p2 U64 ltac:(lia)). pose proof (Z.mod_pos_bound p2 U64 ltac:(lia)).
  set (q0 := p0 / U64) in *. set (r0 := p0 mod U64) in *. set (q1 := p1 / U64) in *.
  set (r1 := p1 mod U64) in *. set (q2 := p2 / U64) in *. set (r2 := p2 mod U64) in *.
  clearbody q0 r0 q1 r1 q2 r2.
  rewrite (wrap_small U128 (q0 + r1 + r2)) by lia. remember (q0 + r1 + r2) as c eqn:Hc.
  pose proof (Z.div_mod c U64 ltac:(lia)). pose proof (Z.mod_pos_bound c U64 ltac:(lia)).
  rewrite shl_mul by lia. change (2 ^ 64) with U64.
  replace (c * U64 mod U128) with (c mod U64 * U64)
    by (change U128 with (U64 * U64); rewrite Zmult_mod_distr_r; reflexivity).
  set (qc := c / U64) in *. set (rc := c mod U64) in *. clearbody qc rc.
  replace (Z.lor r0 (rc * U64)) with (r0 + rc * U64) by (symmetry; apply (lor_add r0 rc 64); lia).
  assert (0 <= p3 + q1 + q2 + qc < U128) by lia. rewrite wrap_small by done. lia.
Qed.

(** ** Shifts to the right *)

Lemma val_bounds x : u256_ok x -> 0 <= val x < 2 ^ 256.
Proof. intros [Hh Hl]. unfold val. change (2 ^ 256) with (U128 * U128). change (2 ^ 128) with U128. nia. Qed.

Lemma shr_to_u128_spec x n :
  u256_ok x -> 0 <= n ->
  shr_to_u128 x n = if val x / 2 ^ n <? U128 then Ok (val x / 2 ^ n) else Err Overflow.
Proof.
  intros Hok Hn. pose proof Hok as [Hh Hl]. unfold shr_to_u128.
  case_match eqn:H0; to_prop.
  { subst n. rewrite Z.div_1_r. unfold val. change (2 ^ 128) with U128.
    destruct (Z.eqb_spec (hi x) 0) as [Hz|Hz]; simpl.
    - rewrite Hz. rewrite (proj2 (Z.ltb_lt _ _)) by lia. done.
    - rewrite (proj2 (Z.ltb_ge _ _)) by lia. done. }
  destruct (n <? 128) eqn:H1; to_prop.
  - assert (Hp : 2 ^ 128 = 2 ^ n * 2 ^ (128 - n)) by (rewrite <- Z.pow_add_r by lia; f_equal; lia).
    assert (0 < 2 ^ n) by (apply Z.pow_pos_nonneg; lia).
    assert (0 < 2 ^ (128 - n)) by (apply Z.pow_pos_nonneg; lia).
    assert (Hd : val x / 2 ^ n = hi x * 2 ^ (128 - n) + lo x / 2 ^ n).
    { unfold val. rewrite Hp. replace (hi x * (2 ^ n * 2 ^ (128 - n))) with (hi x * 2 ^ (128 - n) * 2 ^ n) by ring.
      apply Z.div_add_l. lia. }
    assert (Hlb : 0 <= lo x / 2 ^ n < 2 ^ (128 - n)).
    { split; [apply Z.div_pos; lia|]. apply Z.div_lt_upper_bound; [done|]. rewrite <- Hp. apply Hl. }
    rewrite Hd, !shr_div by done.
    destruct (Z.eqb_spec (hi x / 2 ^ n) 0) as [Hz|Hz]; simpl.
    + apply Z.div_small_iff in Hz; [|lia]. assert (hi x < 2 ^ n) by lia.
      rewrite shl_mul by lia.
      assert (hi x * 2 ^ (128 - n) + lo x / 2 ^ n < U128) by (change U128 with (2 ^ 128); nia).
      rewrite Z.mod_small by nia. rewrite lor_add by lia.
      rewrite (proj2 (Z.ltb_lt _ _)) by done. f_equal. lia.
    + rewrite (proj2 (Z.ltb_ge _ _)); [done|].
      assert (2 ^ n <= hi x).
      { destruct (Z.le_gt_cases (2 ^ n) (hi x)); [done|]. exfalso. apply Hz. apply Z.div_small. lia. }
      change U128 with (2 ^ 128). nia.
  - assert (Hpos : 0 < 2 ^ (n - 128)) by (apply Z.pow_pos_nonneg; lia).
    assert (Hv : val x / 2 ^ n = hi x / 2 ^ (n - 128)).
    { replace n with (128 + (n - 128)) at 1 by lia. rewrite Z.pow_add_r, <- Z.div_div by lia.
      f_equal. unfold val. rewrite Z.div_add_l by lia. rewrite Z.div_small by lia. lia. }
    assert (Hb : 0 <= hi x / 2 ^ (n - 128) <= hi x).
    { split; [apply Z.div_pos; lia|]. apply Z.div_le_upper_bound; [done|]. nia. }
    rewrite Hv, (proj2 (Z.ltb_lt (hi x / _) _)) by lia.
    destruct (n <? 256) eqn:H2; to_prop; [by rewrite shr_div by lia|].
    f_equal. symmetry. apply Z.div_small. split; [lia|].
    eapply Z.lt_le_trans; [apply Hh|]. change U128 with (2 ^ 128). apply Z.pow_le_mono_r; lia.
Qed.

Lemma shr64_to_u128_spec x :
  u256_ok x -> shr64_to_u128 x = if val x / 2 ^ 64 <? U128 then Ok (val x / 2 ^ 64) else Err Overflow.
Proof.
  intros Hok. rewrite <- shr_to_u128_spec by done. unfold shr64_to_u128, shr_to_u128.
  change (64 =? 0) with false. change (64 <? 128) with true. change (128 - 64) with 64. cbv iota.
  by rewrite Z.lor_comm.
Qed.

(** Round half up: [floor(v / 2^n + 1/2)]. *)
Lemma round_half v n : 0 < n -> 0 <= v ->
  (v + 2 ^ (n - 1)) / 2 ^ n = v / 2 ^ n + (if Z.testbit v (n - 1) then 1 else 0).
Proof.
  intros Hn Hv. assert (Hp : 2 ^ n = 2 * 2 ^ (n - 1)) by (rewrite <- Z.pow_succ_r by lia; f_equal; lia).
  assert (H0 : 0 < 2 ^ (n - 1)) by (apply Z.pow_pos_nonneg; lia).
  rewrite Hp. set (h := 2 ^ (n - 1)) in *.
  assert (Hb : Z.testbit v (n - 1) = Z.odd (v / h)).
  { rewrite Z.testbit_odd, Z.shiftr_div_pow2 by lia. done. }
  rewrite Hb. pose proof (Z.div_mod v h ltac:(lia)). pose proof (Z.mod_pos_bound v h ltac:(lia)).
  set (q := v / h) in *. set (r := v mod h) in *.
  pose proof (Z.div2_odd q) as Hq. rewrite Z.div2_div in Hq.
  assert (Hv2 : v / (2 * h) = q / 2).
  { rewrite Z.mul_comm, <- Z.div_div by lia. done. }
  rewrite Hv2.
  destruct (Z.odd q) eqn:Ho; simpl in Hq.
  - symmetry. apply (Z.div_unique _ _ _ r); lia.
  - rewrite Z.add_0_r. symmetry. apply (Z.div_unique _ _ _ (h + r)); lia.
Qed.

Lemma shr_round_to_u128_spec x n :
  u256_ok x -> 0 < n <= 256 ->
  shr_round_to_u128 x n =
    if (val x + 2 ^ (n - 1)) / 2 ^ n <? U128 then Ok ((val x + 2 ^ (n - 1)) / 2 ^ n) else Err Overflow.
Proof.
  intros Hok Hn. pose proof (val_bounds x Hok). unfold shr_round_to_u128.
  rewrite shr_to_u128_spec, bit_testbit, round_half by (done || lia).
  destruct (val x / 2 ^ n <? U128) eqn:Hlt; to_prop; simpl.
  - destruct (Z.testbit (val x) (n - 1)).
    + unfold checked_add. by case_match.
    + rewrite Z.add_0_r. rewrite (proj2 (Z.ltb_lt _ _)) by done. done.
  - rewrite (proj2 (Z.ltb_ge _ _)); [done|]. case_match; lia.
Qed.

(** ** Division *)

(** The canonical limbs of a value. *)
Definition of_val (v : Z) : U256 := {| hi := v / U128; lo := v mod U128 |}.

Lemma of_val_ok v : 0 <= v < U128 * U128 -> u256_ok (of_val v) /\ val (of_val v) = v.
Proof.
  intros Hv. unfold u256_ok, val, of_val. cbn [hi lo]. change (2 ^ 128) with U128.
  pose proof (Z.div_mod v U128 ltac:(lia)). pose proof (Z.mod_pos_bound v U128 ltac:(lia)).
  assert (0 <= v / U128 < U128) by (split; [apply Z.div_pos; lia|apply Z.div_lt_upper_bound; lia]). lia.
Qed.

Lemma of_val_val x : u256_ok x -> of_val (val x) = x.
Proof.
  intros [Hh Hl]. unfold of_val, val. change (2 ^ 128) with U128. destruct x as [h l]. cbn [hi lo] in *.
  f_equal; symmetry; [apply (Z.div_unique _ _ _ l); lia|apply (Z.mod_unique _ _ h); lia].
Qed.

Lemma shl1_of_val v : 0 <= v < 2 ^ 255 -> shl1 (of_val v) = Ok (of_val (2 * v)).
Proof.
  intros Hv. unfold shl1, of_val. cbn [hi lo]. rewrite !shr_div, !shl_mul by lia.
  pose proof (Z.div_mod v U128 ltac:(lia)). pose proof (Z.mod_pos_bound v U128 ltac:(lia)).
  set (h := v / U128) in *. set (l := v mod U128) in *. clearbody h l. subst v.
  assert (Hh : 0 <= h < 2 ^ 127) by (change (2 ^ 255) with (2 ^ 127 * U128) in Hv; lia).
  rewrite (Z.div_small h) by done. simpl negb. cbv iota.
  pose proof (Z.div_mod l (2 ^ 127) ltac:(done)). pose proof (Z.mod_pos_bound l (2 ^ 127) ltac:(done)).
  assert (Hc : 0 <= l / 2 ^ 127 < 2) by (split; [apply Z.div_pos; lia|apply Z.div_lt_upper_bound; lia]).
  set (c := l / 2 ^ 127) in *. set (m := l mod 2 ^ 127) in *. clearbody c m.
  change (2 ^ 127) with 170141183460469231731687303715884105728 in *. change (2 ^ 1) with 2.
  assert (El : l * 2 mod U128 = 2 * m) by (symmetry; apply (Z.mod_unique _ _ c); lia).
  assert (Eh : h * 2 mod U128 = h * 2) by (apply Z.mod_small; lia).
  rewrite El, Eh, Z.lor_comm. change (h * 2) with (h * 2 ^ 1). rewrite (lor_add c h 1) by lia.
  change (2 ^ 1) with 2. do 2 f_equal.
  - apply (Z.div_unique _ _ _ (2 * m)); lia.
  - apply (Z.mod_unique _ _ (c + h * 2)); lia.
Qed.

Lemma lor_one a : 0 <= a -> Z.even a = true -> Z.lor a 1 = a + 1.
Proof.
  intros Ha He. apply Z.even_spec in He as [k ->].
  rewrite Z.lor_comm, (Z.mul_comm 2 k). change (k * 2) with (k * 2 ^ 1). rewrite lor_add by lia. lia.
Qed.

Lemma set_low_of_val v : 0 <= v -> Z.even v = true ->
  {| hi := hi (of_val v); lo := Z.lor (lo (of_val v)) 1 |} = of_val (v + 1).
Proof.
  intros Hv He. unfold of_val. cbn [hi lo].
  pose proof (Z.div_mod v U128 ltac:(lia)). pose proof (Z.mod_pos_bound v U128 ltac:(lia)).
  assert (Hm : Z.even (v mod U128) = true).
  { apply Z.even_spec in He as [k ->]. change U128 with (2 * 2 ^ 127).
    rewrite Z.mul_mod_distr_l by done. apply Z.even_spec. by eexists. }
  rewrite lor_one by (done || lia). apply Z.even_spec in Hm as [m Hm].
  f_equal; [apply (Z.div_unique _ _ _ (v mod U128 + 1)); lia|apply (Z.mod_unique _ _ (v / U128)); lia].
Qed.

Lemma ge_u128_of_val v d : 0 <= v -> 0 <= d < U128 -> ge_u128 (of_val v) d = (d <=? v).
Proof.
  intros Hv Hd. unfold ge_u128, of_val. cbn [hi lo].
  pose proof (Z.div_mod v U128 ltac:(lia)). pose proof (Z.mod_pos_bound v U128 ltac:(lia)).
  destruct (Z.eqb_spec (v / U128) 0) as [Hz|Hz]; simpl.
  - rewrite Hz in *. destruct (Z.leb_spec d (v mod U128)), (Z.leb_spec d v); done || lia.
  - symmetry. apply Z.leb_le. assert (0 <= v / U128) by (apply Z.div_pos; lia). lia.
Qed.

Lemma sub_u128_of_val v d : 0 <= d < U128 -> d <= v < U128 * U128 -> sub_u128 (of_val v) d = of_val (v - d).
Proof.
  intros Hd Hv. unfold sub_u128, of_val. cbn [hi lo].
  pose proof (Z.div_mod v U128 ltac:(lia)). pose proof (Z.mod_pos_bound v U128 ltac:(lia)).
  assert (0 <= v / U128 < U128) by (split; [apply Z.div_pos; lia|apply Z.div_lt_upper_bound; lia]).
  set (h := v / U128) in *. set (l := v mod U128) in *. clearbody h l. subst v. unfold wrap.
  destruct (Z.ltb_spec l d); f_equal.
  - rewrite Z.mod_small by lia. apply (Z.div_unique _ _ _ (l - d + U128)); lia.
  - transitivity (l - d + U128); [symmetry; apply (Z.mod_unique _ _ (-1)); lia|apply (Z.mod_unique _ _ (h - 1)); lia].
  - rewrite Z.mod_small by lia. apply (Z.div_unique _ _ _ (l - d)); lia.
  - rewrite (Z.mod_small (l - d)) by lia. apply (Z.mod_unique _ _ h); lia.
Qed.

(** One turn: from the first [256 - (n+1)] bits of the dividend to one more. *)
Lemma div_step_spec x d n H :
  u256_ok x -> 0 < d < U128 -> (n < 256)%nat -> H = val x / 2 ^ (Z.of_nat n + 1) ->
  let H' := val x / 2 ^ Z.of_nat n in
  div_step x d n (of_val (H mod d), H / d * 2 ^ (Z.of_nat n + 1)) =
    if (d <=? 2 * (H mod d) + (if Z.testbit (val x) (Z.of_nat n) then 1 else 0)) && (128 <=? Z.of_nat n)
    then Err Overflow else Ok (of_val (H' mod d), H' / d * 2 ^ Z.of_nat n).
Proof.
  intros Hok Hd Hn HH H'. pose proof (val_bounds x Hok) as Hv. set (b := Z.of_nat n) in *.
  set (t := if Z.testbit (val x) b then 1 else 0). assert (Ht : 0 <= t <= 1) by (unfold t; case_match; lia).
  assert (HH' : H' = 2 * H + t).
  { unfold H', t. rewrite HH.
    pose proof (Z.testbit_odd (val x) b) as Ho. rewrite Z.shiftr_div_pow2 in Ho by lia. rewrite Ho.
    rewrite Z.pow_add_r, <- Z.div_div by lia. change (2 ^ 1) with 2.
    pose proof (Z.div2_odd (val x / 2 ^ b)) as Hq. rewrite Z.div2_div in Hq. rewrite Hq at 1.
    destruct (Z.odd _); simpl Z.b2z; lia. }
  assert (HH0 : 0 <= H) by (rewrite HH; apply Z.div_pos; [lia|apply Z.pow_pos_nonneg; lia]).
  pose proof (Z.div_mod H d ltac:(lia)) as Ed. pose proof (Z.mod_pos_bound H d ltac:(lia)) as Hr.
  unfold div_step. cbn [fst snd]. set (r := H mod d) in *. set (q := H / d) in *. clearbody r q.
  rewrite shl1_of_val by (change (2 ^ 255) with (2 ^ 127 * U128); lia). cbn [rbind].
  rewrite bit_testbit by (done || lia). fold b.
  replace (if Z.testbit (val x) b then {| hi := hi (of_val (2 * r)); lo := Z.lor (lo (of_val (2 * r))) 1 |}
           else of_val (2 * r)) with (of_val (2 * r + t)).
  2: { unfold t. destruct (Z.testbit _ _); [|by rewrite Z.add_0_r].
       symmetry. apply set_low_of_val; [lia|]. by rewrite Z.even_mul. }
  rewrite ge_u128_of_val by lia. destruct (Z.leb_spec d (2 * r + t)) as [Hle|Hlt]; simpl andb.
  - destruct (128 <=? b) eqn:Hb; to_prop; [done|]. rewrite sub_u128_of_val by lia.
    assert (Hp : 2 ^ b < U128) by (change U128 with (2 ^ 128); apply Z.pow_lt_mono_r; lia).
    assert (0 < 2 ^ b) by (apply Z.pow_pos_nonneg; lia).
    rewrite shl_mul, Z.mul_1_l, (Z.mod_small (2 ^ b)) by lia.
    rewrite Z.lor_comm, lor_add by (rewrite ?Z.pow_add_r; lia).
    rewrite Z.pow_add_r by lia. change (2 ^ 1) with 2.
    replace (H' mod d) with (2 * r + t - d) by (apply (Z.mod_unique _ _ (2 * q + 1)); lia).
    replace (H' / d) with (2 * q + 1) by (apply (Z.div_unique _ _ _ (2 * r + t - d)); lia).
    do 2 f_equal. ring.
  - replace (H' mod d) with (2 * r + t) by (apply (Z.mod_unique _ _ (2 * q)); lia).
    replace (H' / d) with (2 * q) by (apply (Z.div_unique _ _ _ (2 * r + t)); lia).
    do 2 f_equal. rewrite Z.pow_add_r by lia. change (2 ^ 1) with 2. ring.
Qed.

Lemma div_loop_spec x d n :
  u256_ok x -> 0 < d < U128 -> (n <= 256)%nat ->
  let H := val x / 2 ^ Z.of_nat n in
  H / d * 2 ^ Z.of_nat n < U128 ->
  div_loop x d n (of_val (H mod d), H / d * 2 ^ Z.of_nat n) =
    if val x / d <? U128 then Ok (of_val (val x mod d), val x / d) else Err Overflow.
Proof.
  intros Hok Hd. pose proof (val_bounds x Hok) as Hv. induction n as [|n IH]; intros Hn.
  - intros H Hq. subst H. simpl Z.of_nat in *. change (2 ^ 0) with 1 in *. rewrite Z.div_1_r, Z.mul_1_r in *.
    rewrite (proj2 (Z.ltb_lt _ _)) by done. done.
  - set (b := Z.of_nat n) in *. replace (Z.of_nat (S n)) with (b + 1) by lia. intros H Hq.
    cbn [div_loop]. pose proof (div_step_spec x d n H Hok Hd ltac:(lia) eq_refl) as Hs.
    fold b in Hs. rewrite Hs. clear Hs. set (t := if Z.testbit _ _ then 1 else 0).
    set (H' := val x / 2 ^ b) in *. assert (0 < 2 ^ b) by (apply Z.pow_pos_nonneg; lia).
    assert (Hdec : val x = H' * 2 ^ b + val x mod 2 ^ b).
    { unfold H'. pose proof (Z.div_mod (val x) (2 ^ b) ltac:(lia)). lia. }
    pose proof (Z.mod_pos_bound (val x) (2 ^ b) ltac:(lia)) as Hmb.
    assert (HH : H' / 2 = H).
    { unfold H', H. rewrite Z.pow_add_r, Z.div_div by lia. done. }
    assert (HH' : H' = 2 * H + t).
    { rewrite <- HH. unfold t. rewrite Z.testbit_odd, Z.shiftr_div_pow2 by lia. fold H'.
      pose proof (Z.div2_odd H') as Ho. rewrite Z.div2_div in Ho. rewrite Ho at 1. by destruct (Z.odd H'). }
    assert (Ht : 0 <= t <= 1) by (unfold t; destruct (Z.testbit _ _); lia).
    assert (HH0 : 0 <= H) by (apply Z.div_pos; [lia|apply Z.pow_pos_nonneg; lia]).
    pose proof (Z.div_mod H d ltac:(lia)) as Ed. pose proof (Z.mod_pos_bound H d ltac:(lia)) as Hr.
    rewrite Z.pow_add_r in Hq by lia. change (2 ^ 1) with 2 in Hq.
    destruct (Z.leb_spec d (2 * (H mod d) + t)) as [Hle|Hlt]; simpl andb.
    + assert (EH : H' / d = 2 * (H / d) + 1)
        by (symmetry; apply (Z.div_unique _ _ _ (2 * (H mod d) + t - d)); lia).
      destruct (128 <=? b) eqn:Hb; to_prop; cbn [rbind].
      * rewrite (proj2 (Z.ltb_ge _ _)); [done|]. apply Z.div_le_lower_bound; [lia|].
        assert (0 <= H / d) by (apply Z.div_pos; lia).
        assert (U128 <= 2 ^ b) by (change U128 with (2 ^ 128); apply Z.pow_le_mono_r; lia).
        assert (d * 1 <= H') by nia. nia.
      * apply IH; [lia|]. fold H'. rewrite EH.
        assert (Hp : U128 = 2 ^ b * (2 * 2 ^ (127 - b))).
        { rewrite <- Z.pow_succ_r, <- Z.pow_add_r by lia. change U128 with (2 ^ 128). f_equal. lia. }
        assert (0 < 2 ^ (127 - b)) by (apply Z.pow_pos_nonneg; lia).
        assert (H / d < 2 ^ (127 - b)) by nia. nia.
    + assert (EH : H' / d = 2 * (H / d))
        by (symmetry; apply (Z.div_unique _ _ _ (2 * (H mod d) + t)); lia).
      cbn [rbind]. apply IH; [lia|]. fold H'. rewrite EH. lia.
Qed.

(** The quotient of the bitwise long division. *)
Lemma div_u128_spec x d :
  u256_ok x -> is_u128 d ->
  div_u128 x d =
    if d =? 0 then Err DivisionByZero
    else if val x / d <? U128 then Ok (val x / d) else Err Overflow.
Proof.
  intros Hok Hd. unfold div_u128. destruct (Z.eqb_spec d 0); [done|].
  pose proof (val_bounds x Hok) as Hv.
  pose proof (div_loop_spec x d 256 Hok ltac:(lia) ltac:(lia)) as Hl. cbn zeta in Hl.
  change (Z.of_nat 256) with 256 in Hl. rewrite (Z.div_small (val x) (2 ^ 256)) in Hl by done.
  rewrite Z.div_0_l, Z.mod_0_l, Z.mul_0_l in Hl by lia. change (of_val 0) with U256_ZERO in Hl.
  rewrite Hl by lia. by case_match.
Qed.
