(* ===== verification/FixedPoint.v ===== *)
(** * 64.64 fixed point and the LMSR formulas (crates/futarchy-fixed)

    A [FixedU64x64] is its raw [u128].  The exp2 / log2 kernels are evaluated
    with 96 fractional bits and rounded once; loops over the 64 fraction bits
    are structural. *)

From S2P Require Import Prelude Primitives U256.

Abbreviation FixedU64x64 := Z (only parsing).

Definition FRAC_BITS : Z := 64.
Definition ONE_RAW : Z := 2 ^ 64.
Definition LN_2 : FixedU64x64 := 12786308645202655660.
Definition GUARD_BITS : Z := 32.
Definition INTERNAL_FRAC_BITS : Z := FRAC_BITS + GUARD_BITS.
Definition ONE_Q96 : Z := 2 ^ 96.
Definition LN2_Q96 : Z := 54916777467707473351141471128.

Definition EXP2_FRAC_FACTORS_Q96 : list Z :=
  [112045541949572279837463876455;
   94218694570555024373110687280;
   86398923866664962375130072335;
   82735892943544661968409507608;
   80963033366431698391403892407;
   80090900639232773493759855183;
   79658363602065864296602447411;
   79442971854562650309779985388;
   79335494482037593178543608469;
   79281810334857995344526032841;
   79254981885274639038225885637;
   79241571065139888961741854322;
   79234866506068713947867698354;
   79231514439261175779748764725;
   79229838459036794155212045658;
   79229000482219122111440011082;
   79228581497133874770443338218;
   79228372005422143143813826733;
   79228267259773999700675265240;
   79228214887001858491551355114;
   79228188700628770505088420373;
   79228175607445472165130168567;
   79228169060854634408312904164;
   79228165787559418383175182041;
   79228164150911861083921604088;
   79228163332588095112623330337;
   79228162923426215296556284074;
   79228162718845276180918278822;
   79228162616554806821198155068;
   79228162565409572190862812835;
   79228162539836954888076321620;
   79228162527050646239778370987;
   79228162520657491916403219414;
   79228162517460914754909099563;
   79228162515862626174210403621;
   79228162515063481883873146647;
   79228162514663909738707540908;
   79228162514464123666125493726;
   79228162514364230629834659057;
   79228162514314284111689288953;
   79228162514289310852616615709;
   79228162514276824223080282038;
   79228162514270580908312115941;
   79228162514267459250928033077;
   79228162514265898422235991691;
   79228162514265118007889971010;
   79228162514264727800716960672;
   79228162514264532697130455504;
   79228162514264435145337202920;
   79228162514264386369440576628;
   79228162514264361981492263482;
   79228162514264349787518106909;
   79228162514264343690531028622;
   79228162514264340642037489479;
   79228162514264339117790719908;
   79228162514264338355667335122;
   79228162514264337974605642729;
   79228162514264337784074796532;
   79228162514264337688809373434;
   79228162514264337641176661885;
   79228162514264337617360306111;
   79228162514264337605452128223;
   79228162514264337599498039280;
   79228162514264337596520994808].

(** ** The Q96 kernels *)

Definition mul_q96_round (lhs rhs : Z) : Result FixedError Z :=
  shr_round_to_u128 (mul_u128 lhs rhs) INTERNAL_FRAC_BITS.

Definition round_q96_to_q64 (value_q96 : Z) : Z :=
  wrap U128 (shr value_q96 GUARD_BITS + Z.land (shr value_q96 (GUARD_BITS - 1)) 1).

(** The loop over the remaining factors, the first of which belongs to
    fraction bit [63 - i]. *)
Fixpoint exp2_frac_loop (frac : Z) (i : Z) (factors : list Z) (acc : Z) : Result FixedError Z :=
  match factors with
  | [] => Ok acc
  | factor :: factors =>
      let? acc :=
        if Z.land (shr frac (63 - i)) 1 =? 1 then mul_q96_round acc factor else Ok acc in
      exp2_frac_loop frac (i + 1) factors acc
  end.

Definition exp2_frac_q96 (frac : Z) : Result FixedError Z :=
  exp2_frac_loop frac 0 EXP2_FRAC_FACTORS_Q96 ONE_Q96.

Definition exp2_positive_raw (raw : Z) : Result FixedError Z :=
  let whole := shr raw FRAC_BITS in
  if 64 <=? whole then Err Overflow
  else
    let frac := Z.land raw (ONE_RAW - 1) in
    let? kernel := exp2_frac_q96 frac in
    ok_or Overflow (checked_mul U128 (round_q96_to_q64 kernel) (shl 1 whole)).

Definition exp2_negative_raw (raw : Z) : Result FixedError Z :=
  let whole := shr raw FRAC_BITS in
  let frac := Z.land raw (ONE_RAW - 1) in
  let? ks :=
    if frac =? 0 then Ok (ONE_Q96, whole)
    else
      let? k := exp2_frac_q96 (ONE_RAW - frac) in
      Ok (k, whole + 1) in
  let total_shift := ks.2 + GUARD_BITS in
  if 256 <=? total_shift then Ok 0
  else shr_round_to_u128 (from_u128 ks.1) total_shift.

(** [u128::leading_zeros] *)
Definition leading_zeros (raw : Z) : Z := if raw =? 0 then 128 else 127 - Z.log2 raw.

(** [n] turns of the squaring loop, [i] being the number of turns done. *)
Fixpoint log2_loop (n : nat) (i : Z) (norm fraction : Z) : Result FixedError (Z * Z) :=
  match n with
  | O => Ok (norm, fraction)
  | S n =>
      let? norm := mul_q96_round norm norm in
      if 2 * ONE_Q96 <=? norm
      then log2_loop n (i + 1) (shr (wrap U128 (norm + 1)) 1) (Z.lor fraction (shl 1 (63 - i)))
      else log2_loop n (i + 1) norm fraction
  end.

(** The mantissa in Q96, from the integer part of the logarithm. *)
Definition log2_normalize (raw integer : Z) : Result FixedError Z :=
  if integer <=? GUARD_BITS then Ok (shl raw (GUARD_BITS - integer))
  else
    let s := integer - GUARD_BITS in
    Ok (wrap U128 (shr raw s + Z.land (shr raw (s - 1)) 1)).

Definition log2_raw (raw : Z) : Result FixedError Z :=
  if raw =? 0 then Err Domain
  else
    let bit_index := 127 - leading_zeros raw in
    let integer := bit_index - FRAC_BITS in
    if integer <? 0 then Err Domain
    else
      let? norm := log2_normalize raw integer in
      let? nf := log2_loop 64 0 norm 0 in
      let? norm := mul_q96_round nf.1 nf.1 in
      let? fraction :=
        if 2 * ONE_Q96 <=? norm then ok_or Overflow (checked_add U128 nf.2 1) else Ok nf.2 in
      ok_or Overflow (checked_add U128 (shl integer FRAC_BITS) fraction).

(** ** The value type *)

Definition from_raw (raw : Z) : FixedU64x64 := raw.
Definition from_integer (value : Z) : FixedU64x64 := shl value FRAC_BITS.

Definition fx_add (a b : FixedU64x64) : Result FixedError FixedU64x64 :=
  ok_or Overflow (checked_add U128 a b).
Definition fx_sub (a b : FixedU64x64) : Result FixedError FixedU64x64 :=
  ok_or Domain (checked_sub a b).
Definition fx_mul (a b : FixedU64x64) : Result FixedError FixedU64x64 :=
  shr64_to_u128 (mul_u128 a b).
Definition fx_div (a b : FixedU64x64) : Result FixedError FixedU64x64 :=
  div_u128 (shl64 a) b.

Definition fx_exp2 (a : FixedU64x64) : Result FixedError FixedU64x64 := exp2_positive_raw a.

Definition fx_log2 (a : FixedU64x64) : Result FixedError FixedU64x64 :=
  if a =? 0 then Err Domain else log2_raw a.

Definition fx_ln (a : FixedU64x64) : Result FixedError FixedU64x64 :=
  if a =? 0 then Err Domain
  else
    let? log2 := log2_raw a in
    shr_round_to_u128 (mul_u128 log2 LN2_Q96) INTERNAL_FRAC_BITS.

Definition ln_one_plus (x : FixedU64x64) : Result FixedError FixedU64x64 :=
  let? y := fx_add ONE_RAW x in
  fx_ln y.

Definition round_charge_up (value : FixedU64x64) : Z :=
  let whole := shr value FRAC_BITS in
  let frac := Z.land value (ONE_RAW - 1) in
  wrap U128 (whole + if frac =? 0 then 0 else 1).

Definition round_payout_down (value : FixedU64x64) : Z := shr value FRAC_BITS.

(** ** LMSR *)

Definition ensure_lmsr_domain (q_l q_s b : FixedU64x64) : Result FixedError unit :=
  if b =? 0 then Err DivisionByZero
  else
    let diff := sat_sub (Z.max q_l q_s) (Z.min q_l q_s) in
    let bound := mul_u128 b LMSR_DOMAIN_BOUND in
    if gt (from_u128 diff) bound then Err Domain else Ok tt.

(** [exp(-|q_l - q_s| / b)], shared by the cost and the price. *)
Definition lmsr_exp_neg (q_l q_s b : FixedU64x64) : Result FixedError FixedU64x64 :=
  let? d := fx_sub (Z.max q_l q_s) (Z.min q_l q_s) in
  let? displacement := fx_div d b in
  let? x := fx_div displacement LN_2 in
  exp2_negative_raw x.

Definition lmsr_cost (q_l q_s b : FixedU64x64) : Result FixedError FixedU64x64 :=
  do? ensure_lmsr_domain q_l q_s b in
  let max_q := Z.max q_l q_s in
  let? exp_neg := lmsr_exp_neg q_l q_s b in
  let? log_term := ln_one_plus exp_neg in
  let? m := fx_mul b log_term in
  fx_add max_q m.

Definition lmsr_price_long (q_l q_s b : FixedU64x64) : Result FixedError FixedU64x64 :=
  do? ensure_lmsr_domain q_l q_s b in
  let? exp_neg := lmsr_exp_neg q_l q_s b in
  let? denom := fx_add ONE_RAW exp_neg in
  if q_s <=? q_l then fx_div ONE_RAW denom else fx_div exp_neg denom.

Definition lmsr_price_short (q_l q_s b : FixedU64x64) : Result FixedError FixedU64x64 :=
  let? p := lmsr_price_long q_l q_s b in
  fx_sub ONE_RAW p.

Definition logit_signed_magnitude (price : FixedU64x64) : Result FixedError (bool * FixedU64x64) :=
  if (price =? 0) || (ONE_RAW <=? price) then Err Domain
  else
    let? complement := fx_sub ONE_RAW price in
    if complement <=? price then
      let? ratio := fx_div price complement in
      let? l := fx_ln ratio in
      Ok (true, l)
    else
      let? ratio := fx_div complement price in
      let? l := fx_ln ratio in
      Ok (false, l).

Definition lmsr_displacement_between_prices (b p_from p_to : FixedU64x64)
    : Result FixedError FixedU64x64 :=
  let? from := logit_signed_magnitude p_from in
  let? to := logit_signed_magnitude p_to in
  let? displacement :=
    if Bool.eqb from.1 to.1 then fx_sub (Z.max from.2 to.2) (Z.min from.2 to.2)
    else fx_add from.2 to.2 in
  fx_mul displacement b.

Inductive LmsrSide : Type :=
| LmsrLong
| LmsrShort.

Definition lmsr_buy_cost (q_l q_s b : FixedU64x64) (side : LmsrSide) (amount : FixedU64x64)
    : Result FixedError FixedU64x64 :=
  let? before := lmsr_cost q_l q_s b in
  let? new :=
    match side with
    | LmsrLong => let? l := fx_add q_l amount in Ok (l, q_s)
    | LmsrShort => let? s := fx_add q_s amount in Ok (q_l, s)
    end in
  let? after := lmsr_cost new.1 new.2 b in
  fx_sub after before.

Definition lmsr_sell_proceeds (q_l q_s b : FixedU64x64) (side : LmsrSide) (amount : FixedU64x64)
    : Result FixedError FixedU64x64 :=
  let? before := lmsr_cost q_l q_s b in
  let? new :=
    match side with
    | LmsrLong => let? l := fx_sub q_l amount in Ok (l, q_s)
    | LmsrShort => let? s := fx_sub q_s amount in Ok (q_l, s)
    end in
  let? after := lmsr_cost new.1 new.2 b in
  fx_sub before after.
