(* ===== verification/FixedProps.v ===== *)
(** * Ranges and totality of the fixed-point functions

    Each function is given by its arithmetic, the range reductions are shown
    to stay in range, and the domain on which each function returns a result
    is stated exactly. *)

From S2P Require Import Prelude Primitives U256 FixedPoint.

(** ** The four operations *)

Lemma shl64_exact a : is_u128 a -> u256_ok (shl64 a) /\ val (shl64 a) = a * 2 ^ 64.
Proof.
  intros Ha. unfold shl64, u256_ok, val. cbn [hi lo]. rewrite shr_div, shl_mul by lia.
  change (2 ^ 128) with U128. change (2 ^ 64) with U64.
  replace (a * U64 mod U128) with (a mod U64 * U64)
    by (change U128 with (U64 * U64); rewrite Zmult_mod_distr_r; reflexivity).
  pose proof (Z.div_mod a U64 ltac:(lia)). pose proof (Z.mod_pos_bound a U64 ltac:(lia)).
  assert (0 <= a / U64 < U64) by (split; [apply Z.div_pos; lia|apply Z.div_lt_upper_bound; lia]). lia.
Qed.

Lemma from_u128_exact a : is_u128 a -> u256_ok (from_u128 a) /\ val (from_u128 a) = a.
Proof. intros Ha. unfold from_u128, u256_ok, val. cbn [hi lo]. lia. Qed.

Lemma fx_add_spec a b : fx_add a b = if a + b <? U128 then Ok (a + b) else Err Overflow.
Proof. unfold fx_add, checked_add. by case_match. Qed.

Lemma fx_sub_spec a b : fx_sub a b = if b <=? a then Ok (a - b) else Err Domain.
Proof. unfold fx_sub, checked_sub. by case_match. Qed.

Lemma fx_mul_spec a b :
  is_u128 a -> is_u128 b ->
  fx_mul a b = if a * b / 2 ^ 64 <? U128 then Ok (a * b / 2 ^ 64) else Err Overflow.
Proof.
  intros Ha Hb. destruct (mul_u128_exact a b Ha Hb) as [Hok Hv].
  unfold fx_mul. by rewrite shr64_to_u128_spec, Hv.
Qed.

Lemma fx_div_spec a b :
  is_u128 a -> is_u128 b ->
  fx_div a b =
    if b =? 0 then Err DivisionByZero
    else if a * 2 ^ 64 / b <? U128 then Ok (a * 2 ^ 64 / b) else Err Overflow.
Proof.
  intros Ha Hb. destruct (shl64_exact a Ha) as [Hok Hv].
  unfold fx_div. by rewrite div_u128_spec, Hv.
Qed.

Lemma u256_gt_spec x y : u256_ok x -> u256_ok y -> gt x y = (val y <? val x).
Proof.
  intros [Hx Hx'] [Hy Hy']. unfold gt, val. change (2 ^ 128) with U128.
  destruct (Z.ltb_spec (hi y) (hi x)), (Z.eqb_spec (hi x) (hi y)), (Z.ltb_spec (lo y) (lo x)),
    (Z.ltb_spec (hi y * U128 + lo y) (hi x * U128 + lo x)); simpl; try done; lia.
Qed.

Lemma ensure_lmsr_domain_spec q_l q_s b :
  is_u128 q_l -> is_u128 q_s -> is_u128 b ->
  ensure_lmsr_domain q_l q_s b =
    if b =? 0 then Err DivisionByZero
    else if 48 * b <? Z.abs (q_l - q_s) then Err Domain else Ok tt.
Proof.
  intros Hl Hs Hb. unfold ensure_lmsr_domain. case_match; [done|].
  destruct (mul_u128_exact b LMSR_DOMAIN_BOUND Hb ltac:(unfold LMSR_DOMAIN_BOUND; lia)) as [Hok Hv].
  unfold sat_sub. replace (Z.max (Z.max q_l q_s - Z.min q_l q_s) 0) with (Z.abs (q_l - q_s)) by lia.
  destruct (from_u128_exact (Z.abs (q_l - q_s)) ltac:(lia)) as [Hok' Hv'].
  rewrite u256_gt_spec, Hv, Hv' by done. unfold LMSR_DOMAIN_BOUND. by rewrite Z.mul_comm.
Qed.

(** ** Q96 multiplication *)

(** [round(a * b / 2^96)] *)
Definition mulr (a b : Z) : Z := (a * b + 2 ^ 95) / 2 ^ 96.

Lemma mul_q96_round_spec a b :
  is_u128 a -> is_u128 b ->
  mul_q96_round a b = if mulr a b <? U128 then Ok (mulr a b) else Err Overflow.
Proof.
  intros Ha Hb. destruct (mul_u128_exact a b Ha Hb) as [Hok Hv].
  unfold mul_q96_round. rewrite shr_round_to_u128_spec, Hv by (done || unfold INTERNAL_FRAC_BITS, FRAC_BITS, GUARD_BITS; lia).
  done.
Qed.

Lemma mulr_mono a b c : 0 <= c -> a <= b -> mulr a c <= mulr b c.
Proof. intros. unfold mulr. apply Z.div_le_mono; [done|]. nia. Qed.

Lemma mulr_ge a c : 0 <= a -> ONE_Q96 <= c -> a <= mulr a c.
Proof.
  intros. unfold mulr, ONE_Q96 in *. apply Z.div_le_lower_bound; [done|].
  assert (2 ^ 96 * a <= a * c) by nia. assert (0 <= 2 ^ 95) by done. lia.
Qed.

(** ** exp2 *)

Lemma factors_range f : f ∈ EXP2_FRAC_FACTORS_Q96 -> ONE_Q96 <= f < 2 * ONE_Q96.
Proof.
  assert (Hall : Forall (fun f => ONE_Q96 <= f < 2 * ONE_Q96) EXP2_FRAC_FACTORS_Q96).
  { unfold EXP2_FRAC_FACTORS_Q96, ONE_Q96. repeat constructor; done. }
  intros Hf. by apply (proj1 (Forall_forall _ _) Hall).
Qed.

(** The loop with every bit set. *)
Definition full_product (fs : list Z) (acc : Z) : Z := foldl mulr acc fs.

Lemma full_product_mono fs a b :
  (forall f, f ∈ fs -> 0 <= f) -> a <= b -> full_product fs a <= full_product fs b.
Proof.
  revert a b. induction fs as [|f fs IH]; intros a b Hf Hab; simpl; [done|].
  apply IH; [intros; apply Hf; by right|]. apply mulr_mono; [apply Hf; by left|done].
Qed.

Lemma full_product_ge fs a :
  (forall f, f ∈ fs -> ONE_Q96 <= f) -> 0 <= a -> a <= full_product fs a.
Proof.
  revert a. induction fs as [|f fs IH]; intros a Hf Ha; simpl; [done|].
  pose proof (mulr_ge a f Ha (Hf f ltac:(by left))). etrans; [done|].
  apply IH; [intros; apply Hf; by right|lia].
Qed.

Lemma exp2_frac_loop_range frac i fs acc :
  (forall f, f ∈ fs -> ONE_Q96 <= f < 2 * ONE_Q96) -> 0 <= acc ->
  full_product fs acc < 2 * ONE_Q96 ->
  exists v, exp2_frac_loop frac i fs acc = Ok v /\ acc <= v <= full_product fs acc.
Proof.
  revert i acc. induction fs as [|f fs IH]; intros i acc Hf Ha Hfull.
  - exists acc. simpl. split; [done|lia].
  - cbn [exp2_frac_loop full_product foldl] in *. fold (full_product fs (mulr acc f)) in *.
    pose proof (Hf f ltac:(by left)) as Hfr.
    assert (Hfs : forall g, g ∈ fs -> ONE_Q96 <= g < 2 * ONE_Q96) by (intros; apply Hf; by right).
    pose proof (mulr_ge acc f Ha (proj1 Hfr)) as Hge.
    assert (Hlo : forall g, g ∈ fs -> ONE_Q96 <= g) by (intros g Hg; by apply Hfs).
    assert (Hpos : forall g, g ∈ fs -> 0 <= g) by (intros g Hg; specialize (Hlo _ Hg); unfold ONE_Q96 in *; lia).
    pose proof (full_product_ge fs (mulr acc f) Hlo ltac:(lia)) as Hge2.
    destruct (_ =? 1).
    + rewrite mul_q96_round_spec by (unfold ONE_Q96 in *; lia).
      rewrite (proj2 (Z.ltb_lt _ _)) by (unfold ONE_Q96 in *; lia). cbn [rbind].
      destruct (IH (i + 1) (mulr acc f) Hfs ltac:(lia) Hfull) as (v & -> & Hv). exists v. split; [done|lia].
    + cbn [rbind]. pose proof (full_product_mono fs acc (mulr acc f) Hpos Hge).
      destruct (IH (i + 1) acc Hfs Ha ltac:(lia)) as (v & -> & Hv). exists v. split; [done|lia].
Qed.

(** The largest value of the kernel, for the fraction [2^64 - 1]. *)
Definition EXP2_FRAC_MAX : Z := Eval vm_compute in full_product EXP2_FRAC_FACTORS_Q96 ONE_Q96.

Lemma exp2_frac_range frac :
  exists v, exp2_frac_q96 frac = Ok v /\ ONE_Q96 <= v <= EXP2_FRAC_MAX.
Proof.
  apply exp2_frac_loop_range; [apply factors_range|done|]. vm_compute. reflexivity.
Qed.

Lemma round_q96_spec v :
  0 <= v < 2 ^ 127 -> round_q96_to_q64 v = (v + 2 ^ 31) / 2 ^ 32.
Proof.
  intros Hv. unfold round_q96_to_q64, GUARD_BITS.
  pose proof (round_half v 32 ltac:(lia) ltac:(lia)) as Hrh. change (32 - 1) with 31 in *.
  rewrite Hrh, !shr_div by lia.
  assert (Hb : Z.land (v / 2 ^ 31) 1 = if Z.testbit v 31 then 1 else 0).
  { rewrite Z.testbit_odd, Z.shiftr_div_pow2 by lia. change 1 with (Z.ones 1) at 1.
    rewrite Z.land_ones by lia. rewrite Zmod_odd. done. }
  rewrite Hb. apply wrap_small.
  assert (0 <= v / 2 ^ 32 < 2 ^ 95) by (split; [apply Z.div_pos; lia|apply Z.div_lt_upper_bound; lia]).
  case_match; lia.
Qed.

Lemma land_frac a : Z.land a (ONE_RAW - 1) = a mod 2 ^ 64.
Proof. apply land_mask. Qed.

(** exp2 returns a result exactly on [0, 64). *)
Lemma exp2_positive_total raw :
  0 <= raw < 2 ^ 70 ->
  exists k, exp2_frac_q96 (raw mod 2 ^ 64) = Ok k /\ ONE_Q96 <= k <= EXP2_FRAC_MAX
    /\ exp2_positive_raw raw = Ok ((k + 2 ^ 31) / 2 ^ 32 * 2 ^ (raw / 2 ^ 64))
    /\ ONE_RAW <= (k + 2 ^ 31) / 2 ^ 32 < 2 * ONE_RAW.
Proof.
  intros Hr. unfold exp2_positive_raw. rewrite shr_div, land_frac by done. change FRAC_BITS with 64.
  assert (Hw : 0 <= raw / 2 ^ 64 < 64) by (split; [apply Z.div_pos; lia|apply Z.div_lt_upper_bound; lia]).
  rewrite (proj2 (Z.leb_gt _ _)) by lia.
  destruct (exp2_frac_range (raw mod 2 ^ 64)) as (k & Hk & Hkr). exists k. rewrite Hk. cbn [rbind].
  assert (HM : EXP2_FRAC_MAX + 2 ^ 31 < 2 ^ 97) by done.
  assert (H97 : 2 ^ 97 = 2 * ONE_Q96) by done.
  rewrite round_q96_spec by (unfold ONE_Q96 in *; lia).
  assert (Hk64 : ONE_RAW <= (k + 2 ^ 31) / 2 ^ 32 < 2 * ONE_RAW).
  { unfold ONE_RAW, ONE_Q96 in *. split; [apply Z.div_le_lower_bound; lia|apply Z.div_lt_upper_bound; lia]. }
  split_and!; try done; try lia.
  set (w := raw / 2 ^ 64) in *. assert (0 < 2 ^ w) by (apply Z.pow_pos_nonneg; lia).
  assert (Hpw : 2 ^ w * 2 ^ (63 - w) = 2 ^ 63) by (rewrite <- Z.pow_add_r by lia; f_equal; lia).
  assert (0 < 2 ^ (63 - w)) by (apply Z.pow_pos_nonneg; lia).
  assert (2 ^ w <= 2 ^ 63) by nia.
  rewrite shl_mul, Z.mul_1_l, Z.mod_small by lia.
  unfold checked_mul. rewrite (proj2 (Z.ltb_lt _ _)); [done|].
  unfold ONE_RAW in *. change U128 with (2 * 2 ^ 64 * 2 ^ 63). nia.
Qed.

Lemma exp2_positive_overflow raw : 2 ^ 70 <= raw -> exp2_positive_raw raw = Err Overflow.
Proof.
  intros Hr. unfold exp2_positive_raw. rewrite shr_div by done. change FRAC_BITS with 64.
  rewrite (proj2 (Z.leb_le _ _)); [done|]. apply Z.div_le_lower_bound; [done|]. lia.
Qed.

(** exp2 of a negative exponent always returns, in [0, 1]. *)
Lemma exp2_negative_total raw :
  is_u128 raw ->
  exists k n, exp2_negative_raw raw = Ok (if 256 <=? n then 0 else (k + 2 ^ (n - 1)) / 2 ^ n)
    /\ (if 256 <=? n then 0 else (k + 2 ^ (n - 1)) / 2 ^ n) <= ONE_RAW
    /\ ((raw mod 2 ^ 64 = 0 /\ k = ONE_Q96 /\ n = raw / 2 ^ 64 + 32)
        \/ (raw mod 2 ^ 64 <> 0 /\ exp2_frac_q96 (2 ^ 64 - raw mod 2 ^ 64) = Ok k
            /\ ONE_Q96 <= k <= EXP2_FRAC_MAX /\ n = raw / 2 ^ 64 + 33)).
Proof.
  intros Hr. unfold exp2_negative_raw. rewrite shr_div, land_frac by done. change FRAC_BITS with 64.
  unfold GUARD_BITS, ONE_RAW.
  assert (Hw : 0 <= raw / 2 ^ 64) by (apply Z.div_pos; lia).
  assert (Hround : forall k n, 0 <= k < 2 ^ 97 -> 32 <= n -> k <= 2 ^ (64 + n) ->
    (if 256 <=? n then Ok 0 else shr_round_to_u128 (from_u128 k) n)
      = Ok (if 256 <=? n then 0 else (k + 2 ^ (n - 1)) / 2 ^ n)
    /\ (if 256 <=? n then 0 else (k + 2 ^ (n - 1)) / 2 ^ n) <= 2 ^ 64).
  { intros k n Hk Hn Hlt. destruct (256 <=? n) eqn:H256; to_prop; [done|].
    destruct (from_u128_exact k ltac:(lia)) as [Hok Hv].
    rewrite shr_round_to_u128_spec, Hv by (done || lia).
    assert (Hp : 2 ^ n = 2 * 2 ^ (n - 1)) by (rewrite <- Z.pow_succ_r by lia; f_equal; lia).
    assert (0 < 2 ^ (n - 1)) by (apply Z.pow_pos_nonneg; lia).
    assert (H64 : 2 ^ (64 + n) = 2 ^ 64 * 2 ^ n) by (rewrite Z.pow_add_r by lia; done).
    assert ((k + 2 ^ (n - 1)) / 2 ^ n < 2 ^ 64 + 1) by (apply Z.div_lt_upper_bound; lia).
    rewrite (proj2 (Z.ltb_lt _ _)) by lia. split; [done|lia]. }
  assert (HM : EXP2_FRAC_MAX < 2 ^ 97) by done.
  destruct (Z.eqb_spec (raw mod 2 ^ 64) 0) as [Hz|Hz]; cbn [rbind fst snd].
  - exists ONE_Q96, (raw / 2 ^ 64 + 32). edestruct Hround as [-> Hle]; [done|lia| |].
    + apply (Z.pow_le_mono_r 2 96 (64 + (raw / 2 ^ 64 + 32))); lia.
    + split_and!; [done|done|by left].
  - destruct (exp2_frac_range (2 ^ 64 - raw mod 2 ^ 64)) as (k & Hk & Hkr). rewrite Hk. cbn [rbind fst snd].
    exists k, (raw / 2 ^ 64 + 33). rewrite <- Z.add_assoc. change (1 + 32) with 33.
    destruct (Hround k (raw / 2 ^ 64 + 33)) as [-> Hle]; [unfold ONE_Q96 in *; lia|lia| |].
    + etrans; [|apply (Z.pow_le_mono_r 2 97 (64 + (raw / 2 ^ 64 + 33))); lia]. lia.
    + split_and!; [done|done|by right].
Qed.

(** ** log2 *)

(** The squaring loop on exact numbers: the last mantissa and the [n] bits. *)
Fixpoint log2_bits (n : nat) (norm : Z) : Z * Z :=
  match n with
  | O => (norm, 0)
  | S n =>
      let sq := mulr norm norm in
      if 2 * ONE_Q96 <=? sq
      then let r := log2_bits n ((sq + 1) / 2) in (r.1, 2 ^ Z.of_nat n + r.2)
      else log2_bits n sq
  end.

Definition mantissa_ok (norm : Z) : Prop := ONE_Q96 <= norm <= 2 * ONE_Q96.

Lemma mulr_mantissa norm : mantissa_ok norm -> ONE_Q96 <= mulr norm norm <= 4 * ONE_Q96.
Proof.
  unfold mantissa_ok. intros Hn. split.
  - etrans; [apply Hn|]. apply mulr_ge; [|apply Hn]. unfold ONE_Q96 in *; lia.
  - unfold mulr, ONE_Q96 in *. apply Z.lt_succ_r, Z.div_lt_upper_bound; [done|].
    assert (norm * norm <= (2 * 2 ^ 96) * (2 * 2 ^ 96)) by (apply Z.mul_le_mono_nonneg; lia). lia.
Qed.

Lemma halve_mantissa sq : 2 * ONE_Q96 <= sq <= 4 * ONE_Q96 -> mantissa_ok ((sq + 1) / 2).
Proof.
  unfold mantissa_ok, ONE_Q96. intros. split; [apply Z.div_le_lower_bound; lia|].
  apply Z.lt_succ_r, Z.div_lt_upper_bound; lia.
Qed.

Lemma log2_bits_range n norm :
  mantissa_ok norm -> mantissa_ok (log2_bits n norm).1 /\ 0 <= (log2_bits n norm).2 < 2 ^ Z.of_nat n.
Proof.
  revert norm. induction n as [|n IH]; intros norm Hn; cbn [log2_bits].
  - split; [done|simpl; lia].
  - assert (Hp : 2 ^ Z.of_nat (S n) = 2 * 2 ^ Z.of_nat n) by (rewrite Nat2Z.inj_succ, Z.pow_succ_r by lia; done).
    pose proof (mulr_mantissa norm Hn) as Hsq. cbv zeta. destruct (_ <=? _) eqn:Hc; to_prop.
    + destruct (IH ((mulr norm norm + 1) / 2)) as [? ?]; [apply halve_mantissa; lia|]. cbn [fst snd].
      split; [done|lia].
    + destruct (IH (mulr norm norm)) as [? ?]; [split; lia|]. split; [done|lia].
Qed.

Lemma log2_loop_spec n norm F :
  mantissa_ok norm -> (n <= 64)%nat -> 0 <= F -> F * 2 ^ Z.of_nat n < 2 ^ 64 ->
  log2_loop n (64 - Z.of_nat n) norm (F * 2 ^ Z.of_nat n) =
    Ok ((log2_bits n norm).1, F * 2 ^ Z.of_nat n + (log2_bits n norm).2).
Proof.
  revert norm F. induction n as [|n IH]; intros norm F Hn Hle HF Hlt; cbn [log2_loop log2_bits].
  - simpl. do 2 f_equal. lia.
  - assert (Hp : 2 ^ Z.of_nat (S n) = 2 * 2 ^ Z.of_nat n) by (rewrite Nat2Z.inj_succ, Z.pow_succ_r by lia; done).
    pose proof (mulr_mantissa norm Hn) as Hsq. assert (0 < 2 ^ Z.of_nat n) by (apply Z.pow_pos_nonneg; lia).
    rewrite mul_q96_round_spec by (unfold mantissa_ok, ONE_Q96 in *; lia).
    rewrite (proj2 (Z.ltb_lt _ _)) by (unfold ONE_Q96 in *; lia). cbn [rbind]. cbv zeta.
    replace (64 - Z.of_nat (S n) + 1) with (64 - Z.of_nat n) by lia.
    destruct (_ <=? _) eqn:Hc; to_prop.
    + rewrite shr_div, wrap_small by (unfold ONE_Q96 in *; lia). change (2 ^ 1) with 2.
      replace (63 - (64 - Z.of_nat (S n))) with (Z.of_nat n) by lia.
      assert (Hpn : 2 ^ Z.of_nat n < U128).
      { eapply Z.le_lt_trans; [apply (Z.pow_le_mono_r 2 _ 64); lia|done]. }
      rewrite shl_mul, Z.mul_1_l, Z.mod_small by lia.
      rewrite Z.lor_comm, lor_add by (rewrite ?Hp; lia). rewrite Hp.
      replace (2 ^ Z.of_nat n + F * (2 * 2 ^ Z.of_nat n)) with ((2 * F + 1) * 2 ^ Z.of_nat n) by ring.
      rewrite IH; [|apply halve_mantissa; lia|lia|lia|].
      * cbn [fst snd]. do 2 f_equal. ring.
      * (* the new bit is free: F * 2^(n+1) is a multiple of 2^(n+1) below 2^64 *)
        assert (H64 : 2 ^ 64 = 2 * 2 ^ Z.of_nat n * 2 ^ (63 - Z.of_nat n)).
        { rewrite <- Hp, <- Z.pow_add_r by lia. f_equal. lia. }
        assert (0 < 2 ^ (63 - Z.of_nat n)) by (apply Z.pow_pos_nonneg; lia).
        rewrite Hp in Hlt. assert (F < 2 ^ (63 - Z.of_nat n)) by nia. nia.
    + rewrite Hp. replace (F * (2 * 2 ^ Z.of_nat n)) with (2 * F * 2 ^ Z.of_nat n) by ring.
      rewrite IH; [|split; lia|lia|lia|lia]. done.
Qed.

(** The mantissa that the loop starts from. *)
Definition log2_mantissa (raw : Z) : Z :=
  let e := Z.log2 raw in
  if e <=? 96 then raw * 2 ^ (96 - e) else (raw + 2 ^ (e - 97)) / 2 ^ (e - 96).

Lemma log2_mantissa_ok raw : 0 < raw -> mantissa_ok (log2_mantissa raw).
Proof.
  intros Hr. destruct (Z.log2_spec raw Hr) as [Hlo Hhi]. pose proof (Z.log2_nonneg raw).
  unfold log2_mantissa, mantissa_ok, ONE_Q96. set (e := Z.log2 raw) in *. cbv zeta.
  rewrite Z.pow_succ_r in Hhi by lia. destruct (Z.leb_spec e 96).
  - assert (H96 : 2 ^ 96 = 2 ^ e * 2 ^ (96 - e)) by (rewrite <- Z.pow_add_r by lia; f_equal; lia).
    assert (0 < 2 ^ (96 - e)) by (apply Z.pow_pos_nonneg; lia). rewrite H96. nia.
  - assert (He : 2 ^ e = 2 ^ 96 * 2 ^ (e - 96)) by (rewrite <- Z.pow_add_r by lia; f_equal; lia).
    assert (Hh : 2 ^ (e - 96) = 2 * 2 ^ (e - 97)) by (rewrite <- Z.pow_succ_r by lia; f_equal; lia).
    assert (0 < 2 ^ (e - 97)) by (apply Z.pow_pos_nonneg; lia).
    split; [apply Z.div_le_lower_bound; lia|]. apply Z.lt_succ_r, Z.div_lt_upper_bound; lia.
Qed.

Lemma log2_normalize_spec raw :
  ONE_RAW <= raw < U128 -> log2_normalize raw (Z.log2 raw - 64) = Ok (log2_mantissa raw).
Proof.
  intros Hr. unfold log2_normalize, log2_mantissa, GUARD_BITS, ONE_RAW in *. cbv zeta.
  destruct (Z.log2_spec raw ltac:(lia)) as [Hlo Hhi].
  assert (He : 64 <= Z.log2 raw < 128).
  { split; [apply (Z.log2_le_pow2 raw 64); lia|apply (Z.log2_lt_pow2 raw 128); lia]. }
  set (e := Z.log2 raw) in *. rewrite Z.pow_succ_r in Hhi by lia.
  pose proof (log2_mantissa_ok raw ltac:(lia)) as Hm. unfold log2_mantissa, mantissa_ok, ONE_Q96 in Hm.
  fold e in Hm. cbv zeta in Hm.
  destruct (Z.leb_spec e 96), (Z.leb_spec (e - 64) 32); try lia.
  - replace (32 - (e - 64)) with (96 - e) by lia. rewrite shl_mul by lia.
    rewrite Z.mod_small by lia. done.
  - replace (e - 64 - 32) with (e - 96) by lia. replace (e - 97) with (e - 96 - 1) in * by lia.
    rewrite round_half in Hm |- * by lia. rewrite !shr_div by lia.
    assert (Hb : Z.land (raw / 2 ^ (e - 96 - 1)) 1 = if Z.testbit raw (e - 96 - 1) then 1 else 0).
    { rewrite Z.testbit_odd, Z.shiftr_div_pow2 by lia. change 1 with (Z.ones 1) at 2.
      rewrite Z.land_ones by lia. rewrite Zmod_odd. done. }
    rewrite Hb, wrap_small by lia. done.
Qed.

(** [log2] on its whole domain. *)
Lemma log2_raw_spec raw :
  ONE_RAW <= raw < U128 ->
  let r := log2_bits 64 (log2_mantissa raw) in
  log2_raw raw = Ok ((Z.log2 raw - 64) * 2 ^ 64 + r.2 + (if 2 * ONE_Q96 <=? mulr r.1 r.1 then 1 else 0)).
Proof.
  intros Hr r. unfold log2_raw, ONE_RAW in *.
  assert (He : 64 <= Z.log2 raw < 128).
  { split; [apply (Z.log2_le_pow2 raw 64); lia|apply (Z.log2_lt_pow2 raw 128); lia]. }
  rewrite (proj2 (Z.eqb_neq _ _)) by lia. unfold leading_zeros.
  rewrite (proj2 (Z.eqb_neq raw 0)) by lia. change FRAC_BITS with 64.
  replace (127 - (127 - Z.log2 raw) - 64) with (Z.log2 raw - 64) by lia.
  rewrite (proj2 (Z.ltb_ge _ _)) by lia. rewrite log2_normalize_spec by done. cbn [rbind].
  pose proof (log2_mantissa_ok raw ltac:(lia)) as Hm.
  pose proof (log2_loop_spec 64 (log2_mantissa raw) 0 Hm ltac:(lia) ltac:(lia) ltac:(done)) as Hl.
  change (64 - Z.of_nat 64) with 0 in Hl. rewrite Z.mul_0_l, Z.add_0_l in Hl. rewrite Hl. fold r.
  cbn [rbind fst snd]. destruct (log2_bits_range 64 _ Hm) as [Hm1 Hf]. fold r in Hm1, Hf.
  change (2 ^ Z.of_nat 64) with U64 in Hf.
  pose proof (mulr_mantissa r.1 Hm1) as Hsq.
  rewrite mul_q96_round_spec by (unfold mantissa_ok, ONE_Q96 in *; lia).
  rewrite (proj2 (Z.ltb_lt (mulr _ _) _)) by (unfold ONE_Q96 in *; lia). cbn [rbind].
  rewrite shl_mul by lia. change (2 ^ 64) with U64. rewrite Z.mod_small by lia.
  unfold checked_add. destruct (_ <=? _).
  - rewrite (proj2 (Z.ltb_lt (r.2 + 1) _)) by lia. cbn [ok_or rbind].
    rewrite (proj2 (Z.ltb_lt _ _)) by lia. cbn [ok_or]. f_equal. lia.
  - cbn [rbind]. rewrite (proj2 (Z.ltb_lt _ _)) by lia. cbn [ok_or]. f_equal. lia.
Qed.

Lemma log2_raw_domain raw : 0 <= raw < ONE_RAW -> log2_raw raw = Err Domain.
Proof.
  intros Hr. unfold log2_raw, ONE_RAW in *. destruct (Z.eqb_spec raw 0); [done|].
  unfold leading_zeros. rewrite (proj2 (Z.eqb_neq raw 0)) by lia. change FRAC_BITS with 64.
  assert (Z.log2 raw < 64) by (apply (Z.log2_lt_pow2 raw 64); lia).
  rewrite (proj2 (Z.ltb_lt _ _)) by lia. done.
Qed.

Lemma log2_raw_range raw :
  ONE_RAW <= raw < U128 -> exists v, log2_raw raw = Ok v
    /\ (Z.log2 raw - 64) * 2 ^ 64 <= v <= (Z.log2 raw - 63) * 2 ^ 64.
Proof.
  intros Hr. eexists. split; [by apply log2_raw_spec|].
  destruct (log2_bits_range 64 _ (log2_mantissa_ok raw ltac:(unfold ONE_RAW in *; lia))) as [_ Hf].
  change (2 ^ Z.of_nat 64) with (2 ^ 64) in Hf. case_match; lia.
Qed.

(** ** The LMSR formulas: totality, bounds and symmetry

    On the protocol domain [b > 0], [|q_L - q_S| <= 48 b] no intermediate
    overflows; the cost lies between [max q] and [max q + b ln 2], the two
    prices add up to one, and the leading side's price is at least one half. *)

(** ** ln *)

Lemma fx_ln_spec raw :
  ONE_RAW <= raw < U128 -> exists v, log2_raw raw = Ok v
    /\ fx_ln raw = Ok ((v * LN2_Q96 + 2 ^ 95) / 2 ^ 96).
Proof.
  intros Hr. destruct (log2_raw_range raw Hr) as (v & Hv & Hlo & Hhi). exists v. split; [done|].
  assert (He : 64 <= Z.log2 raw < 128).
  { unfold ONE_RAW in Hr. split; [apply (Z.log2_le_pow2 raw 64); lia|apply (Z.log2_lt_pow2 raw 128); lia]. }
  unfold fx_ln. rewrite (proj2 (Z.eqb_neq _ _)) by (unfold ONE_RAW in Hr; lia). rewrite Hv. cbn [rbind].
  destruct (mul_u128_exact v LN2_Q96 ltac:(lia) ltac:(unfold LN2_Q96; lia)) as [Hok Hval].
  rewrite shr_round_to_u128_spec, Hval by (done || unfold INTERNAL_FRAC_BITS, FRAC_BITS, GUARD_BITS; lia).
  change INTERNAL_FRAC_BITS with 96. change (96 - 1) with 95.
  rewrite (proj2 (Z.ltb_lt _ _)); [done|]. apply Z.div_lt_upper_bound; [done|]. unfold LN2_Q96. lia.
Qed.

Lemma fx_ln_domain raw : 0 <= raw < ONE_RAW -> fx_ln raw = Err Domain.
Proof. intros Hr. unfold fx_ln. case_match; [done|]. by rewrite log2_raw_domain. Qed.

(** [ln (1 + x)] for [x] in [0, 1] is in [0, LN_2]. *)
Lemma ln_one_plus_range x :
  0 <= x <= ONE_RAW -> exists l, ln_one_plus x = Ok l /\ 0 <= l <= LN_2.
Proof.
  intros Hx. unfold ln_one_plus. rewrite fx_add_spec. unfold ONE_RAW in *.
  rewrite (proj2 (Z.ltb_lt _ _)) by lia. cbn [rbind].
  destruct (Z.eq_dec x (2 ^ 64)) as [->|Hne]; [eexists; split; [vm_compute; reflexivity|]; split; done|].
  destruct (fx_ln_spec (2 ^ 64 + x)) as (v & Hv & Hl); [unfold ONE_RAW; lia|].
  destruct (log2_raw_range (2 ^ 64 + x)) as (v' & Hv' & Hr); [unfold ONE_RAW; lia|].
  rewrite Hv in Hv'. injection Hv' as <-.
  assert (He : Z.log2 (2 ^ 64 + x) = 64) by (apply Z.log2_unique; lia). rewrite He in Hr.
  eexists. split; [done|]. unfold LN_2, LN2_Q96. split; [apply Z.div_pos; lia|].
  apply Z.lt_succ_r, Z.div_lt_upper_bound; lia.
Qed.

(** ** Rounding at the currency boundary *)

Lemma round_payout_down_spec v : round_payout_down v = v / 2 ^ 64.
Proof. unfold round_payout_down. by rewrite shr_div. Qed.

Lemma round_charge_up_spec v : is_u128 v -> round_charge_up v = (v + (2 ^ 64 - 1)) / 2 ^ 64.
Proof.
  intros Hv. unfold round_charge_up. rewrite shr_div, land_frac by done. change FRAC_BITS with 64.
  change (2 ^ 64) with U64.
  pose proof (Z.div_mod v U64 ltac:(lia)). pose proof (Z.mod_pos_bound v U64 ltac:(lia)).
  assert (0 <= v / U64 < U64) by (split; [apply Z.div_pos; lia|apply Z.div_lt_upper_bound; lia]).
  destruct (Z.eqb_spec (v mod U64) 0) as [Hz|Hz]; rewrite wrap_small by lia.
  - apply (Z.div_unique _ _ _ (U64 - 1)); lia.
  - apply (Z.div_unique _ _ _ (v mod U64 - 1)); lia.
Qed.

(** ** The shared exponential *)

Definition lmsr_domain (q_l q_s b : Z) : Prop :=
  is_u128 q_l /\ is_u128 q_s /\ is_u128 b /\ 0 < b /\ Z.abs (q_l - q_s) <= 48 * b.

Lemma lmsr_domain_sym q_l q_s b : lmsr_domain q_l q_s b -> lmsr_domain q_s q_l b.
Proof. unfold lmsr_domain. lia. Qed.

Lemma ensure_lmsr_domain_ok q_l q_s b : lmsr_domain q_l q_s b -> ensure_lmsr_domain q_l q_s b = Ok tt.
Proof.
  intros (Hl & Hs & Hb & Hpos & Hd). rewrite ensure_lmsr_domain_spec by done.
  rewrite (proj2 (Z.eqb_neq _ _)), (proj2 (Z.ltb_ge _ _)) by lia. done.
Qed.

Lemma ensure_lmsr_domain_inv q_l q_s b u :
  is_u128 q_l -> is_u128 q_s -> is_u128 b ->
  ensure_lmsr_domain q_l q_s b = Ok u -> lmsr_domain q_l q_s b.
Proof.
  intros Hl Hs Hb. rewrite ensure_lmsr_domain_spec by done.
  destruct (Z.eqb_spec b 0), (Z.ltb_spec (48 * b) (Z.abs (q_l - q_s))); try done.
  unfold lmsr_domain. lia.
Qed.

Lemma lmsr_exp_neg_sym q_l q_s b : lmsr_exp_neg q_l q_s b = lmsr_exp_neg q_s q_l b.
Proof. unfold lmsr_exp_neg. by rewrite Z.max_comm, Z.min_comm. Qed.

(** The argument of [exp2_negative_raw]. *)
Definition lmsr_exponent (q_l q_s b : Z) : Z :=
  Z.abs (q_l - q_s) * 2 ^ 64 / b * 2 ^ 64 / LN_2.

Lemma lmsr_exp_neg_total q_l q_s b :
  lmsr_domain q_l q_s b ->
  is_u128 (lmsr_exponent q_l q_s b)
  /\ exists e, exp2_negative_raw (lmsr_exponent q_l q_s b) = Ok e
    /\ lmsr_exp_neg q_l q_s b = Ok e /\ 0 <= e <= ONE_RAW.
Proof.
  intros (Hl & Hs & Hb & Hpos & Hd). unfold lmsr_exp_neg. rewrite fx_sub_spec.
  rewrite (proj2 (Z.leb_le _ _)) by lia. cbn [rbind].
  replace (Z.max q_l q_s - Z.min q_l q_s) with (Z.abs (q_l - q_s)) by lia.
  rewrite fx_div_spec, (proj2 (Z.eqb_neq _ _)) by lia.
  assert (H1 : 0 <= Z.abs (q_l - q_s) * 2 ^ 64 / b <= 48 * 2 ^ 64).
  { split; [apply Z.div_pos; lia|]. apply Z.div_le_upper_bound; lia. }
  rewrite (proj2 (Z.ltb_lt _ _)) by lia. cbn [rbind].
  unfold lmsr_exponent. set (x := Z.abs (q_l - q_s) * 2 ^ 64 / b) in *.
  rewrite fx_div_spec by (unfold LN_2; lia). change (LN_2 =? 0) with false. cbv iota.
  assert (H2 : 0 <= x * 2 ^ 64 / LN_2 < U128).
  { unfold LN_2. split; [apply Z.div_pos; lia|]. apply Z.div_lt_upper_bound; lia. }
  rewrite (proj2 (Z.ltb_lt _ _)) by lia. cbn [rbind]. split; [done|].
  destruct (exp2_negative_total _ H2) as (k & n & -> & Hle & Hkn). eexists. split; [done|]. split; [done|].
  assert (0 <= x * 2 ^ 64 / LN_2 / 2 ^ 64) by (apply Z.div_pos; lia).
  split; [|done]. destruct (256 <=? n); [done|]. apply Z.div_pos; [|apply Z.pow_pos_nonneg; lia].
  assert (0 <= k) by (destruct Hkn as [(_ & -> & _)|(_ & _ & Hk & _)]; [done|unfold ONE_Q96 in Hk; lia]).
  assert (0 <= 2 ^ (n - 1)) by (apply Z.pow_nonneg; lia). lia.
Qed.

(** ** Cost *)

Lemma lmsr_cost_bounds q_l q_s b :
  lmsr_domain q_l q_s b ->
  exists m, 0 <= m <= b * LN_2 / 2 ^ 64
    /\ lmsr_cost q_l q_s b = if Z.max q_l q_s + m <? U128 then Ok (Z.max q_l q_s + m) else Err Overflow.
Proof.
  intros Hd. pose proof Hd as (Hl & Hs & Hb & Hpos & _). unfold lmsr_cost.
  rewrite ensure_lmsr_domain_ok by done. cbn [rbind].
  destruct (lmsr_exp_neg_total q_l q_s b Hd) as (_ & e & _ & -> & He). cbn [rbind].
  destruct (ln_one_plus_range e He) as (l & -> & Hlr). cbn [rbind].
  unfold LN_2 in *. rewrite fx_mul_spec by lia.
  assert (Hm : 0 <= b * l / 2 ^ 64 <= b * 12786308645202655660 / 2 ^ 64).
  { split; [apply Z.div_pos; nia|]. apply Z.div_le_mono; [done|]. nia. }
  assert (Hle : b * 12786308645202655660 / 2 ^ 64 <= b) by (apply Z.div_le_upper_bound; lia).
  rewrite (proj2 (Z.ltb_lt _ _)) by lia. cbn [rbind]. exists (b * l / 2 ^ 64). split; [done|].
  apply fx_add_spec.
Qed.

Lemma lmsr_cost_sym q_l q_s b :
  is_u128 q_l -> is_u128 q_s -> is_u128 b -> lmsr_cost q_l q_s b = lmsr_cost q_s q_l b.
Proof.
  intros Hl Hs Hb. unfold lmsr_cost. rewrite !ensure_lmsr_domain_spec by done.
  replace (Z.abs (q_s - q_l)) with (Z.abs (q_l - q_s)) by lia.
  rewrite (lmsr_exp_neg_sym q_s), (Z.max_comm q_s). done.
Qed.

(** ** Prices *)

Lemma price_halves e :
  0 <= e <= ONE_RAW ->
  let hi := ONE_RAW * 2 ^ 64 / (ONE_RAW + e) in
  let lo := e * 2 ^ 64 / (ONE_RAW + e) in
  fx_add ONE_RAW e = Ok (ONE_RAW + e)
  /\ fx_div ONE_RAW (ONE_RAW + e) = Ok hi /\ fx_div e (ONE_RAW + e) = Ok lo
  /\ 0 <= lo <= 2 ^ 63 /\ 2 ^ 63 <= hi <= ONE_RAW /\ ONE_RAW - 1 <= hi + lo <= ONE_RAW.
Proof.
  intros He hi lo. unfold ONE_RAW in *. rewrite fx_add_spec, (proj2 (Z.ltb_lt _ _)) by lia.
  assert (Hhi : 2 ^ 63 <= hi <= 2 ^ 64).
  { split; [apply Z.div_le_lower_bound; lia|apply Z.div_le_upper_bound; lia]. }
  assert (Hlo : 0 <= lo <= 2 ^ 63).
  { split; [apply Z.div_pos; lia|apply Z.div_le_upper_bound; lia]. }
  rewrite !fx_div_spec, (proj2 (Z.eqb_neq _ _)) by lia. fold hi lo.
  rewrite !(proj2 (Z.ltb_lt _ _)) by lia. split_and!; try done; try lia.
  - pose proof (div_bounds (2 ^ 64 * 2 ^ 64) (2 ^ 64 + e) ltac:(lia)) as H1. fold hi in H1.
    pose proof (div_bounds (e * 2 ^ 64) (2 ^ 64 + e) ltac:(lia)) as H2. fold lo in H2. nia.
  - pose proof (div_bounds (2 ^ 64 * 2 ^ 64) (2 ^ 64 + e) ltac:(lia)) as H1. fold hi in H1.
    pose proof (div_bounds (e * 2 ^ 64) (2 ^ 64 + e) ltac:(lia)) as H2. fold lo in H2. nia.
Qed.

Lemma lmsr_prices q_l q_s b :
  lmsr_domain q_l q_s b ->
  exists p, lmsr_price_long q_l q_s b = Ok p /\ lmsr_price_short q_l q_s b = Ok (ONE_RAW - p)
    /\ 0 <= p <= ONE_RAW
    /\ (q_s <= q_l -> 2 ^ 63 <= p) /\ (q_l < q_s -> p <= 2 ^ 63)
    /\ exists p', lmsr_price_long q_s q_l b = Ok p' /\ (q_l <> q_s -> ONE_RAW - 1 <= p + p' <= ONE_RAW).
Proof.
  intros Hd. pose proof (lmsr_domain_sym _ _ _ Hd) as Hd'.
  unfold lmsr_price_short, lmsr_price_long. rewrite !ensure_lmsr_domain_ok by done. cbn [rbind].
  rewrite (lmsr_exp_neg_sym q_s).
  destruct (lmsr_exp_neg_total q_l q_s b Hd) as (_ & e & _ & -> & He). cbn [rbind].
  destruct (price_halves e He) as (-> & Hhi & Hlo & Hr & Hsum). cbn [rbind].
  rewrite Hhi, Hlo. clear Hhi Hlo. set (h := ONE_RAW * 2 ^ 64 / _) in *. set (l := e * 2 ^ 64 / _) in *.
  clearbody h l. unfold ONE_RAW in *.
  destruct (Z.leb_spec q_s q_l), (Z.leb_spec q_l q_s); cbn [rbind]; eexists; rewrite ?fx_sub_spec;
    (split; [done|]); (split; [by rewrite (proj2 (Z.leb_le _ _)) by lia|]); (split; [lia|]);
    (split; [lia|]); (split; [lia|]); eexists; (split; [done|]); lia.
Qed.

(** ** Buying and selling as differences of costs *)

Definition shift_side (side : LmsrSide) (q_l q_s amount : Z) : Z * Z :=
  match side with LmsrLong => (q_l + amount, q_s) | LmsrShort => (q_l, q_s + amount) end.

Lemma lmsr_buy_cost_Ok q_l q_s b side amount c :
  lmsr_buy_cost q_l q_s b side amount = Ok c <->
  let q := shift_side side q_l q_s amount in
  exists c0 c1, lmsr_cost q_l q_s b = Ok c0 /\ lmsr_cost q.1 q.2 b = Ok c1 /\ c = c1 - c0 /\ c0 <= c1
    /\ (match side with LmsrLong => q.1 | LmsrShort => q.2 end) < U128.
Proof.
  unfold lmsr_buy_cost, shift_side. destruct (lmsr_cost q_l q_s b) as [c0|?]; cbn [rbind];
    [|split; [done|intros (? & ? & ? & _); done]].
  destruct side; rewrite fx_add_spec; cbn [fst snd];
    (destruct (_ <? _) eqn:Ho; cbn [rbind fst snd]; to_prop; [|split; [done|intros (? & ? & _ & _ & _ & _ & ?); lia]]);
    (destruct (lmsr_cost _ _ _) as [c1|?]; cbn [rbind]; [|split; [done|intros (? & ? & _ & ? & _); done]]);
    rewrite fx_sub_spec; (destruct (_ <=? _) eqn:Hc; to_prop; split;
      [intros [= <-]; exists c0, c1; auto with lia| intros (? & ? & [= <-] & [= <-] & -> & ? & ?); done
      |done|intros (? & ? & [= <-] & [= <-] & -> & ? & ?); lia]).
Qed.

Lemma lmsr_sell_proceeds_Ok q_l q_s b side amount c :
  lmsr_sell_proceeds q_l q_s b side amount = Ok c <->
  let q := shift_side side q_l q_s (- amount) in
  exists c0 c1, lmsr_cost q_l q_s b = Ok c0 /\ lmsr_cost q.1 q.2 b = Ok c1 /\ c = c0 - c1 /\ c1 <= c0
    /\ 0 <= (match side with LmsrLong => q.1 | LmsrShort => q.2 end).
Proof.
  unfold lmsr_sell_proceeds, shift_side. destruct (lmsr_cost q_l q_s b) as [c0|?]; cbn [rbind];
    [|split; [done|intros (? & ? & ? & _); done]].
  destruct side; rewrite fx_sub_spec; cbn [fst snd]; rewrite Z.add_opp_r;
    (destruct (_ <=? _) eqn:Ho; cbn [rbind fst snd]; to_prop; [|split; [done|intros (? & ? & _ & _ & _ & _ & ?); lia]]);
    (destruct (lmsr_cost _ _ _) as [c1|?]; cbn [rbind]; [|split; [done|intros (? & ? & _ & ? & _); done]]);
    rewrite fx_sub_spec; (destruct (_ <=? _) eqn:Hc; to_prop; split;
      [intros [= <-]; exists c0, c1; auto with lia| intros (? & ? & [= <-] & [= <-] & -> & ? & ?); done
      |done|intros (? & ? & [= <-] & [= <-] & -> & ? & ?); lia]).
Qed.

Lemma lmsr_cost_Ok_range q_l q_s b c :
  is_u128 q_l -> is_u128 q_s -> is_u128 b -> lmsr_cost q_l q_s b = Ok c ->
  lmsr_domain q_l q_s b /\ is_u128 c /\ Z.max q_l q_s <= c.
Proof.
  intros Hl Hs Hb H.
  assert (Hd : lmsr_domain q_l q_s b).
  { unfold lmsr_cost in H. apply rbind_Ok in H as (u & Hu & _). by eapply ensure_lmsr_domain_inv. }
  split; [done|]. destruct (lmsr_cost_bounds q_l q_s b Hd) as (m & Hm & Hc). rewrite Hc in H.
  destruct (Z.ltb_spec (Z.max q_l q_s + m) U128); [|done]. injection H as <-. lia.
Qed.
