(* ===== verification/FixedReal.v ===== *)
(** * Accuracy of exp2: the kernel against the real power

    [2^x] is [Rpower 2 x].  The table factors are checked against each other
    by exact integer squaring, which bounds their distance from the true
    roots of two; the error of the product is carried as a power of one
    step's error. *)

From Stdlib Require Import Reals Lra.
From S2P Require Import Prelude Primitives U256 FixedPoint FixedProps.

#[local] Open Scope R_scope.

(** ** Integers as reals *)

Lemma IZR_pow2 n : (0 <= n)%Z -> IZR (2 ^ n) = 2 ^ Z.to_nat n.
Proof. intros Hn. rewrite <- (Z2Nat.id n) at 1 by done. by rewrite <- pow_IZR. Qed.

Definition pw (n : Z) : R := IZR (2 ^ n).

Lemma pw_pos n : (0 <= n)%Z -> 0 < pw n.
Proof. intros. unfold pw. apply IZR_lt. by apply Z.pow_pos_nonneg. Qed.

Lemma pw_add a b : (0 <= a)%Z -> (0 <= b)%Z -> pw (a + b) = pw a * pw b.
Proof. intros. unfold pw. rewrite Z.pow_add_r by done. apply mult_IZR. Qed.

(** [floor (n / d)] within one unit below the quotient. *)
Lemma IZR_div n d : (0 < d)%Z -> IZR n / IZR d - 1 < IZR (n / d) <= IZR n / IZR d.
Proof.
  intros Hd. pose proof (div_bounds n d Hd) as [H1 H2].
  assert (HdR : 0 < IZR d) by (by apply IZR_lt).
  apply IZR_le in H1. apply IZR_lt in H2. rewrite plus_IZR in H2. rewrite mult_IZR in H1, H2. split.
  - apply (Rmult_lt_reg_l (IZR d)); [done|]. field_simplify; [|lra]. lra.
  - apply (Rmult_le_reg_l (IZR d)); [done|]. field_simplify; [|lra]. lra.
Qed.

(** Rounding to nearest: the quotient within one half. *)
Lemma IZR_round n k : (0 < k)%Z -> Rabs (IZR ((n + 2 ^ (k - 1)) / 2 ^ k) - IZR n / pw k) <= / 2.
Proof.
  intros Hk. assert (Hp : (2 ^ k = 2 * 2 ^ (k - 1))%Z) by (rewrite <- Z.pow_succ_r by lia; f_equal; lia).
  pose proof (pw_pos (k - 1) ltac:(lia)) as Hpos.
  pose proof (IZR_div (n + 2 ^ (k - 1)) (2 ^ k) ltac:(apply Z.pow_pos_nonneg; lia)) as Hd.
  unfold pw in *. rewrite plus_IZR, Hp, mult_IZR in Hd. rewrite Hp at 2. rewrite mult_IZR.
  rewrite Hp. set (h := IZR (2 ^ (k - 1))) in *.
  assert (E : (IZR n + h) / (2 * h) = IZR n / (2 * h) + / 2) by (field; lra).
  rewrite E in Hd. apply Rabs_le. lra.
Qed.

Lemma Rabs_inv x b : Rabs x <= b -> - b <= x <= b.
Proof. unfold Rabs. destruct (Rcase_abs x); lra. Qed.

(** ** Relative errors *)

(** [a] is [b] up to a relative error [e]. *)
Definition within (e a b : R) : Prop := (1 - e) * b <= a <= (1 + e) * b.

Lemma within_mul e1 e2 a1 a2 b1 b2 :
  0 <= e1 <= 1 -> 0 <= e2 <= 1 -> 0 <= b1 -> 0 <= b2 ->
  within e1 a1 b1 -> within e2 a2 b2 -> 
  (1 - e1) * (1 - e2) * (b1 * b2) <= a1 * a2 <= (1 + e1) * (1 + e2) * (b1 * b2).
Proof.
  unfold within. intros He1 He2 Hb1 Hb2 [L1 U1] [L2 U2].
  assert (0 <= (1 - e1) * b1) by (apply Rmult_le_pos; lra).
  assert (0 <= (1 - e2) * b2) by (apply Rmult_le_pos; lra).
  split.
  - replace ((1 - e1) * (1 - e2) * (b1 * b2)) with ((1 - e1) * b1 * ((1 - e2) * b2)) by ring.
    apply Rmult_le_compat; lra.
  - replace ((1 + e1) * (1 + e2) * (b1 * b2)) with ((1 + e1) * b1 * ((1 + e2) * b2)) by ring.
    apply Rmult_le_compat; lra.
Qed.

(** ** The table *)

(** [2^(2^-(i+1))] *)
Definition root (i : Z) : R := Rpower 2 (/ pw (i + 1)).

Lemma root_sq i : (-1 <= i)%Z -> root (i + 1) * root (i + 1) = root i.
Proof.
  intros Hi. unfold root. rewrite <- Rpower_plus. f_equal.
  rewrite (pw_add (i + 1) 1) by lia. change (pw 1) with 2.
  pose proof (pw_pos (i + 1) ltac:(lia)). field. lra.
Qed.

Lemma root_pos i : 0 < root i.
Proof. apply exp_pos. Qed.

(** Consecutive factors are squares of each other up to two units. *)
Fixpoint squares_ok (prev : Z) (fs : list Z) : bool :=
  match fs with
  | [] => true
  | f :: fs => (Z.abs (f * f - prev * 2 ^ 96) <=? 2 * prev)%Z && squares_ok f fs
  end.

Lemma factors_squares : squares_ok (2 ^ 97) EXP2_FRAC_FACTORS_Q96 = true.
Proof. vm_compute. reflexivity. Qed.

Definition D95 : R := / pw 95.

Lemma D95_range : 0 < D95 <= / 1000000.
Proof.
  unfold D95. split; [apply Rinv_0_lt_compat, pw_pos; lia|].
  apply Rinv_le_contravar; [lra|]. unfold pw. apply IZR_le. done.
Qed.

(** A square within [e] twice over is a root within [e]. *)
Lemma within_sqrt e g r :
  0 <= e < 1 -> 0 < g -> 0 < r -> 
  (1 - e) * (1 - e) * (r * r) <= g * g <= (1 + e) * (1 + e) * (r * r) -> within e g r.
Proof.
  intros He Hg Hr [HL HU]. unfold within. split.
  - apply Rsqr_incr_0_var; [|lra]. unfold Rsqr.
    replace ((1 - e) * r * ((1 - e) * r)) with ((1 - e) * (1 - e) * (r * r)) by ring. done.
  - apply Rsqr_incr_0_var; [|apply Rmult_le_pos; lra]. unfold Rsqr.
    replace ((1 + e) * r * ((1 + e) * r)) with ((1 + e) * (1 + e) * (r * r)) by ring. done.
Qed.

(** One table step. *)
Lemma square_step prev f r :
  (2 ^ 96 <= prev)%Z -> (0 < f)%Z -> 0 < r ->
  (Z.abs (f * f - prev * 2 ^ 96) <= 2 * prev)%Z ->
  within D95 (IZR prev / pw 96) (r * r) -> within D95 (IZR f / pw 96) r.
Proof.
  intros Hp Hf Hr Habs Hw. pose proof D95_range as HD.
  assert (Hpr : pw 96 <= IZR prev) by (unfold pw; by apply IZR_le).
  assert (H96 : 0 < pw 96) by (apply pw_pos; lia).
  assert (HfR : 0 < IZR f) by (by apply IZR_lt).
  assert (Hsq : within D95 (IZR f / pw 96 * (IZR f / pw 96)) (IZR prev / pw 96)).
  { assert (HdR : Rabs (IZR f * IZR f - IZR prev * pw 96) <= 2 * IZR prev).
    { unfold pw. rewrite <- !mult_IZR, <- minus_IZR, <- abs_IZR. by apply IZR_le. }
    apply Rabs_inv in HdR. unfold within, D95.
    replace (pw 95) with (pw 96 / 2)
      by (change 96%Z with (95 + 1)%Z; rewrite (pw_add 95 1) by lia; change (pw 1) with 2; field).
    split; apply (Rmult_le_reg_r (pw 96 * pw 96)); try nra; field_simplify; try lra; nra. }
  assert (Hg : 0 < IZR f / pw 96) by (apply Rdiv_lt_0_compat; lra).
  apply within_sqrt; [lra|done|done|]. unfold within in *.
  set (g2 := IZR f / pw 96 * (IZR f / pw 96)) in *. set (p := IZR prev / pw 96) in *.
  assert (0 < r * r) by nra. clearbody g2 p. split; nra.
Qed.

(** Every factor of the table is the root of two of its index. *)
Fixpoint table_ok (i : Z) (fs : list Z) : Prop :=
  match fs with
  | [] => True
  | f :: fs => within D95 (IZR f / pw 96) (root i) /\ table_ok (i + 1) fs
  end.

Lemma squares_table i prev fs :
  (-1 <= i)%Z -> (2 ^ 96 <= prev)%Z -> (forall f, f ∈ fs -> 2 ^ 96 <= f)%Z ->
  squares_ok prev fs = true -> within D95 (IZR prev / pw 96) (root i) -> table_ok (i + 1) fs.
Proof.
  revert i prev. induction fs as [|f fs IH]; intros i prev Hi Hp Hfs Hsq Hw; [done|].
  cbn [squares_ok] in Hsq. apply andb_true_iff in Hsq as [Hd Hsq]. apply Z.leb_le in Hd.
  pose proof (Hfs f ltac:(by left)) as Hf. cbn [table_ok].
  assert (within D95 (IZR f / pw 96) (root (i + 1))).
  { apply (square_step prev); [done|lia|apply root_pos|done|]. by rewrite root_sq. }
  split; [done|]. apply (IH (i + 1)%Z f); try done; [lia|]. intros; apply Hfs; by right.
Qed.

Lemma factors_table : table_ok 0 EXP2_FRAC_FACTORS_Q96.
Proof.
  apply (squares_table (-1) (2 ^ 97)); [done|done| |apply factors_squares|].
  - intros f Hf. by apply factors_range.
  - assert (E : IZR (2 ^ 97) / pw 96 = 2).
    { change (IZR (2 ^ 97)) with (pw (96 + 1)). rewrite (pw_add 96 1) by lia. change (pw 1) with 2.
      pose proof (pw_pos 96 ltac:(lia)). field. lra. }
    rewrite E. unfold root. change (pw (-1 + 1)) with 1. rewrite Rinv_1, Rpower_1 by lra.
    pose proof D95_range. unfold within. lra.
Qed.

(** ** The product *)

(** The error of one factor with its rounding. *)
Definition D94 : R := / pw 94.

Lemma D94_range : 0 < D94 <= / 1000000 /\ D94 = 2 * D95.
Proof.
  unfold D94, D95. split.
  - split; [apply Rinv_0_lt_compat, pw_pos; lia|].
    apply Rinv_le_contravar; [lra|]. unfold pw. apply IZR_le. done.
  - change 95%Z with (94 + 1)%Z. rewrite (pw_add 94 1) by lia. change (pw 1) with 2.
    pose proof (pw_pos 94 ltac:(lia)). field. lra.
Qed.

(** A rounded Q96 product, relative to the exact one. *)
Lemma mulr_within a b :
  (2 ^ 96 <= a)%Z -> (2 ^ 96 <= b)%Z ->
  within (/ pw 97) (IZR (mulr a b) / pw 96) (IZR a / pw 96 * (IZR b / pw 96)).
Proof.
  intros Ha Hb. pose proof (pw_pos 96 ltac:(lia)) as H96.
  assert (HaR : pw 96 <= IZR a) by (unfold pw; by apply IZR_le).
  assert (HbR : pw 96 <= IZR b) by (unfold pw; by apply IZR_le).
  pose proof (IZR_round (a * b) 96 ltac:(lia)) as Hr. change (96 - 1)%Z with 95%Z in Hr.
  fold (mulr a b) in Hr. rewrite mult_IZR in Hr. apply Rabs_inv in Hr.
  change 97%Z with (96 + 1)%Z. rewrite (pw_add 96 1) by lia. change (pw 1) with 2.
  assert (Hab : 1 <= IZR a / pw 96 * (IZR b / pw 96)).
  { replace 1 with (1 * 1) by ring. apply Rmult_le_compat; try lra;
      apply (Rmult_le_reg_r (pw 96)); try lra; field_simplify; lra. }
  set (x := IZR a / pw 96 * (IZR b / pw 96)) in *.
  assert (Ex : IZR a * IZR b / pw 96 = x * pw 96) by (unfold x; field; lra).
  rewrite Ex in Hr. clearbody x. clear Ex. unfold within.
  split; apply (Rmult_le_reg_r (pw 96)); try lra; field_simplify; try lra; nra.
Qed.

(** The power of two of the fraction bits from number [63 - i] down. *)
Definition tail_pow (frac i : Z) : R := Rpower 2 (IZR (frac mod 2 ^ (64 - i)) / pw 64).

Lemma tail_pow_pos frac i : 0 < tail_pow frac i.
Proof. apply exp_pos. Qed.

Lemma frac_bit frac i :
  (0 <= i < 64)%Z ->
  (frac mod 2 ^ (64 - i) = (if Z.land (shr frac (63 - i)) 1 =? 1 then 2 ^ (63 - i) else 0)
     + frac mod 2 ^ (64 - (i + 1)))%Z.
Proof.
  intros Hi. replace (64 - (i + 1))%Z with (63 - i)%Z by lia. rewrite shr_div by lia.
  change 1%Z with (Z.ones 1) at 1. rewrite Z.land_ones by lia. change (2 ^ 1)%Z with 2%Z.
  replace (64 - i)%Z with (63 - i + 1)%Z by lia. set (n := (63 - i)%Z) in *.
  assert (Hp : (0 < 2 ^ n)%Z) by (apply Z.pow_pos_nonneg; lia).
  rewrite Z.pow_add_r by lia. change (2 ^ 1)%Z with 2%Z. rewrite Z.rem_mul_r by lia.
  pose proof (Z.mod_pos_bound (frac / 2 ^ n) 2 ltac:(lia)).
  destruct (Z.eqb_spec ((frac / 2 ^ n) mod 2) 1) as [->|?]; [lia|].
  assert ((frac / 2 ^ n) mod 2 = 0)%Z as -> by lia. lia.
Qed.

Lemma tail_pow_bit frac i :
  (0 <= i < 64)%Z ->
  tail_pow frac i = (if (Z.land (shr frac (63 - i)) 1 =? 1)%Z then root i else 1) * tail_pow frac (i + 1).
Proof.
  intros Hi. unfold tail_pow, root. rewrite frac_bit by done. rewrite plus_IZR.
  destruct (_ =? _)%Z.
  - rewrite <- Rpower_plus. f_equal.
    assert (E : pw 64 = pw (63 - i) * pw (i + 1)) by (rewrite <- pw_add by lia; f_equal; lia).
    rewrite E. change (IZR (2 ^ (63 - i))) with (pw (63 - i)).
    pose proof (pw_pos (63 - i) ltac:(lia)). pose proof (pw_pos (i + 1) ltac:(lia)). field. lra.
  - rewrite Rmult_1_l, Rplus_0_l. done.
Qed.

Lemma factor_step acc f r :
  (2 ^ 96 <= acc)%Z -> (2 ^ 96 <= f)%Z -> 0 < r -> within D95 (IZR f / pw 96) r ->
  (1 - D94) * (IZR acc / pw 96 * r) <= IZR (mulr acc f) / pw 96 <= (1 + D94) * (IZR acc / pw 96 * r).
Proof.
  intros Ha Hf Hr Hw. pose proof (mulr_within acc f Ha Hf) as Hm. unfold within in *.
  pose proof (pw_pos 96 ltac:(lia)) as H96. destruct D94_range as [H94 E94]. pose proof D95_range as H95.
  assert (HaR : 0 < IZR acc / pw 96) by (apply Rdiv_lt_0_compat; [apply IZR_lt; lia|done]).
  set (a := IZR acc / pw 96) in *. set (g := IZR f / pw 96) in *. clearbody a g.
  assert (Hi : / pw 97 = D95 / 4).
  { unfold D95. change 97%Z with (95 + 2)%Z. rewrite (pw_add 95 2) by lia. change (pw 2) with 4.
    pose proof (pw_pos 95 ltac:(lia)). field. lra. }
  rewrite Hi in Hm. set (m := IZR (mulr acc f) / pw 96) in *. clearbody m.
  assert (Hag : (1 - D95) * (a * r) <= a * g <= (1 + D95) * (a * r)) by nra.
  assert (Har : 0 < a * r) by nra. set (x := a * r) in *. clearbody x. rewrite E94.
  set (y := a * g) in *. clearbody y. split; nra.
Qed.

Lemma loop_within frac i fs acc v :
  (0 <= i)%Z -> (i + Z.of_nat (length fs) = 64)%Z -> table_ok i fs ->
  (forall f, f ∈ fs -> (2 ^ 96 <= f < U128)%Z) -> (2 ^ 96 <= acc < U128)%Z ->
  exp2_frac_loop frac i fs acc = Ok v ->
  (1 - D94) ^ length fs * (IZR acc / pw 96 * tail_pow frac i) <= IZR v / pw 96
    <= (1 + D94) ^ length fs * (IZR acc / pw 96 * tail_pow frac i).
Proof.
  revert i acc. induction fs as [|f fs IH]; intros i acc Hi Hlen Htab Hfs Hacc H.
  - simpl in Hlen. injection H as <-. replace i with 64%Z by lia. unfold tail_pow.
    change (64 - 64)%Z with 0%Z. rewrite Z.mod_1_r. rewrite Rdiv_0_l, Rpower_O by lra. simpl. lra.
  - cbn [exp2_frac_loop] in H. apply rbind_Ok in H as (acc' & Hs & H). destruct Htab as [Hw Htab].
    pose proof (Hfs f ltac:(by left)) as Hf. destruct D94_range as [H94 _]. pose proof (pw_pos 96 ltac:(lia)) as H96.
    assert (HaR : 0 < IZR acc / pw 96) by (apply Rdiv_lt_0_compat; [apply IZR_lt; lia|done]).
    cbn [length] in *. rewrite (tail_pow_bit frac i) by lia.
    pose proof (tail_pow_pos frac (i + 1)) as HT. set (T := tail_pow frac (i + 1)) in *.
    assert (Hstep : (2 ^ 96 <= acc' < U128)%Z /\
      (1 - D94) * (IZR acc / pw 96 * (if (Z.land (shr frac (63 - i)) 1 =? 1)%Z then root i else 1))
        <= IZR acc' / pw 96 <= (1 + D94) * (IZR acc / pw 96 * (if (Z.land (shr frac (63 - i)) 1 =? 1)%Z then root i else 1))).
    { destruct (_ =? _)%Z.
      - rewrite mul_q96_round_spec in Hs by lia. destruct (_ <? _)%Z eqn:Hlt; [|done]. injection Hs as <-.
        apply Z.ltb_lt in Hlt. split; [|apply factor_step; try done; try lia; apply root_pos].
        split; [|done]. etrans; [apply Hacc|]. apply mulr_ge; [lia|apply Hf].
      - injection Hs as <-. split; [done|]. nra. }
    destruct Hstep as [Hacc' Hstep].
    destruct (IH (i + 1)%Z acc' ltac:(lia) ltac:(lia) Htab ltac:(intros; apply Hfs; by right) Hacc' H) as [IHl IHu].
    fold T in IHl, IHu. simpl.
    assert (Hl : 0 < (1 - D94) ^ length fs) by (apply pow_lt; lra).
    assert (Hu : 0 < (1 + D94) ^ length fs) by (apply pow_lt; lra).
    set (b := if (Z.land (shr frac (63 - i)) 1 =? 1)%Z then root i else 1) in *. set (x := IZR acc / pw 96) in *. set (x' := IZR acc' / pw 96) in *.
    split.
    + etrans; [|exact IHl].
      replace ((1 - D94) * (1 - D94) ^ length fs * (x * (b * T))) with ((1 - D94) ^ length fs * ((1 - D94) * (x * b) * T)) by ring.
      apply Rmult_le_compat_l; [lra|]. apply Rmult_le_compat_r; lra.
    + etrans; [exact IHu|].
      replace ((1 + D94) * (1 + D94) ^ length fs * (x * (b * T))) with ((1 + D94) ^ length fs * ((1 + D94) * (x * b) * T)) by ring.
      apply Rmult_le_compat_l; [lra|]. apply Rmult_le_compat_r; lra.
Qed.

(** 64 steps together lose at most 2^-87. *)
Definition D87 : R := / pw 87.

Lemma IZR_pow_nat z n : IZR z ^ n = IZR (z ^ Z.of_nat n).
Proof. apply pow_IZR. Qed.

Lemma pow64_up : (1 + D94) ^ 64 <= 1 + D87.
Proof.
  pose proof (pw_pos 94 ltac:(lia)) as H94. pose proof (pw_pos 87 ltac:(lia)) as H87.
  apply (Rmult_le_reg_r (pw 94 ^ 64)); [by apply pow_lt|]. rewrite <- Rpow_mult_distr.
  unfold D94, D87. replace ((1 + / pw 94) * pw 94) with (pw 94 + 1) by (field; lra).
  apply (Rmult_le_reg_r (pw 87)); [done|].
  replace ((1 + / pw 87) * pw 94 ^ 64 * pw 87) with ((pw 87 + 1) * pw 94 ^ 64) by (field; lra).
  unfold pw. rewrite <- !plus_IZR, !IZR_pow_nat, <- !mult_IZR. apply IZR_le. vm_compute. discriminate.
Qed.

Lemma pow64_down : 1 - D87 <= (1 - D94) ^ 64.
Proof.
  pose proof (pw_pos 94 ltac:(lia)) as H94. pose proof (pw_pos 87 ltac:(lia)) as H87.
  apply (Rmult_le_reg_r (pw 94 ^ 64)); [by apply pow_lt|]. rewrite <- Rpow_mult_distr.
  unfold D94, D87. replace ((1 - / pw 94) * pw 94) with (pw 94 - 1) by (field; lra).
  apply (Rmult_le_reg_r (pw 87)); [done|].
  replace ((1 - / pw 87) * pw 94 ^ 64 * pw 87) with ((pw 87 - 1) * pw 94 ^ 64) by (field; lra).
  unfold pw. rewrite <- !minus_IZR, !IZR_pow_nat, <- !mult_IZR. apply IZR_le. vm_compute. discriminate.
Qed.

(** The kernel is the power of two of its fraction, up to 2^-87. *)
Lemma exp2_frac_within frac k :
  (0 <= frac < 2 ^ 64)%Z -> exp2_frac_q96 frac = Ok k ->
  within D87 (IZR k / pw 96) (Rpower 2 (IZR frac / pw 64)).
Proof.
  intros Hf Hk. pose proof (pw_pos 96 ltac:(lia)) as H96.
  apply (loop_within frac 0 EXP2_FRAC_FACTORS_Q96 ONE_Q96) in Hk; [|done|done|apply factors_table| |done].
  2: { intros f Hin. pose proof (factors_range f Hin) as Hr. unfold ONE_Q96 in Hr. lia. }
  unfold tail_pow in Hk. change (64 - 0)%Z with 64%Z in Hk. rewrite Z.mod_small in Hk by done.
  change (length EXP2_FRAC_FACTORS_Q96) with 64%nat in Hk.
  change (IZR ONE_Q96) with (pw 96) in Hk. rewrite Rdiv_diag, Rmult_1_l in Hk by lra.
  set (T := Rpower 2 (IZR frac / pw 64)) in *. assert (HT : 0 < T) by apply exp_pos.
  pose proof pow64_up. pose proof pow64_down. unfold within. split.
  - etrans; [|apply Hk]. apply Rmult_le_compat_r; lra.
  - etrans; [apply Hk|]. apply Rmult_le_compat_r; lra.
Qed.

(** ** The two exponentials *)

Definition toR (raw : Z) : R := IZR raw / pw 64.

Lemma split_64 raw : (0 <= raw)%Z -> toR raw = IZR (raw / 2 ^ 64) + IZR (raw mod 2 ^ 64) / pw 64.
Proof.
  intros Hr. unfold toR. pose proof (pw_pos 64 ltac:(lia)) as H64.
  rewrite (Z.div_mod raw (2 ^ 64)) at 1 by done. rewrite plus_IZR, mult_IZR. fold (pw 64). field. lra.
Qed.

Lemma Rpower2_nat w : (0 <= w)%Z -> Rpower 2 (IZR w) = pw w.
Proof.
  intros Hw. unfold pw. rewrite IZR_pow2 by done. rewrite <- Rpower_pow by lra.
  f_equal. rewrite INR_IZR_INZ, Z2Nat.id by done. done.
Qed.

Lemma small_pow a b : (0 <= a <= b)%Z -> / pw b <= / pw a.
Proof.
  intros H. apply Rinv_le_contravar; [apply pw_pos; lia|]. unfold pw. apply IZR_le, Z.pow_le_mono_r; lia.
Qed.

Lemma half_pow a : (0 <= a)%Z -> / pw a = 2 * / pw (a + 1).
Proof.
  intros Ha. rewrite (pw_add a 1) by lia. change (pw 1) with 2. pose proof (pw_pos a Ha). field. lra.
Qed.

(** The fractional kernel, rounded to 64 bits. *)
Lemma kernel_within frac k :
  (0 <= frac < 2 ^ 64)%Z -> exp2_frac_q96 frac = Ok k -> (ONE_Q96 <= k)%Z ->
  within (/ pw 64) (toR ((k + 2 ^ 31) / 2 ^ 32)) (Rpower 2 (IZR frac / pw 64)).
Proof.
  intros Hf Hk Hk1. pose proof (exp2_frac_within frac k Hf Hk) as Hw.
  pose proof (IZR_round k 32 ltac:(lia)) as Hr. change (32 - 1)%Z with 31%Z in Hr. apply Rabs_inv in Hr.
  assert (HT : 1 <= Rpower 2 (IZR frac / pw 64)).
  { rewrite <- (Rpower_O 2) by lra. apply Rle_Rpower; [lra|].
    apply Rle_mult_inv_pos; [apply IZR_le; lia|apply pw_pos; lia]. }
  set (T := Rpower 2 (IZR frac / pw 64)) in *. clearbody T.
  unfold within, toR, D87 in *. set (r := IZR ((k + 2 ^ 31) / 2 ^ 32)) in *. clearbody r.
  pose proof (pw_pos 64 ltac:(lia)) as H64. pose proof (pw_pos 32 ltac:(lia)) as H32.
  assert (E : IZR k / pw 96 = IZR k / pw 32 / pw 64).
  { change 96%Z with (32 + 64)%Z. rewrite (pw_add 32 64) by lia. field. lra. }
  rewrite E in Hw. set (x := IZR k / pw 32) in *. clearbody x.
  pose proof (small_pow 66 87 ltac:(lia)) as H87. pose proof (half_pow 65 ltac:(lia)) as H65.
  change (65 + 1)%Z with 66%Z in H65. pose proof (half_pow 64 ltac:(lia)) as H64'.
  change (64 + 1)%Z with 65%Z in H64'. set (d := / pw 87) in *. set (h := / pw 66) in *.
  assert (Hh : 0 < h) by (apply Rinv_0_lt_compat, pw_pos; lia).
  unfold Rdiv in *. rewrite H64', H65 in *. clearbody d h. clear E. split; nra.
Qed.

(** C-level statement for [exp2]: relative error at most 2^-64. *)
Lemma exp2_accurate raw :
  (0 <= raw < 2 ^ 70)%Z ->
  exists r, fx_exp2 raw = Ok r /\ within (/ pw 64) (toR r) (Rpower 2 (toR raw)).
Proof.
  intros Hr. destruct (exp2_positive_total raw Hr) as (k & Hk & Hkr & He & _).
  eexists. split; [exact He|].
  pose proof (kernel_within (raw mod 2 ^ 64) k ltac:(apply Z.mod_pos_bound; lia) Hk (proj1 Hkr)) as Hw.
  assert (Hd : (0 <= raw / 2 ^ 64)%Z) by (apply Z.div_pos; lia).
  rewrite (split_64 raw), Rpower_plus, Rpower2_nat by lia.
  unfold toR in *. rewrite mult_IZR. fold (pw (raw / 2 ^ 64)).
  pose proof (pw_pos _ Hd) as Hp. set (T := Rpower 2 _) in *. set (r := IZR _) in *.
  unfold within in *. set (p := pw (raw / 2 ^ 64)) in *. clearbody p.
  replace (r * p / pw 64) with (p * (r / pw 64)) by (unfold Rdiv; ring). nra.
Qed.

(** The rounded shift of a kernel value, also past the last bit. *)
Lemma shift_round k n :
  (0 <= k < 2 ^ 97)%Z -> (32 <= n)%Z ->
  Rabs (IZR (if (256 <=? n)%Z then 0 else (k + 2 ^ (n - 1)) / 2 ^ n) - IZR k / pw n) <= / 2.
Proof.
  intros Hk Hn. destruct (Z.leb_spec 256 n) as [H256|H256]; [|apply IZR_round; lia].
  pose proof (pw_pos n ltac:(lia)) as Hp. apply Rabs_le.
  assert (0 <= IZR k / pw n) by (apply Rle_mult_inv_pos; [apply IZR_le; lia|done]).
  assert (IZR k / pw n <= / 2); [|lra].
  apply (Rmult_le_reg_r (pw n)); [done|]. unfold Rdiv. rewrite Rmult_assoc, Rinv_l, Rmult_1_r by lra.
  assert (IZR k <= pw 97) by (apply IZR_le; lia).
  assert (2 * pw 97 <= pw n); [|lra].
  change (2 * pw 97) with (pw 1 * pw 97). rewrite <- pw_add by lia. unfold pw. apply IZR_le, Z.pow_le_mono_r; lia.
Qed.

(** What the complement identity computes: a kernel value [k] for a power [T]
    of two in [1, 2], over [2^e]. *)
Lemma exp2_negative_shape raw :
  is_u128 raw ->
  exists k e T, exp2_negative_raw raw =
      Ok (if (256 <=? e + 32)%Z then 0 else (k + 2 ^ (e + 32 - 1)) / 2 ^ (e + 32))%Z
    /\ (0 <= k < 2 ^ 97)%Z /\ (0 <= e)%Z /\ 0 < T <= pw e
    /\ within D87 (IZR k / pw 96) T /\ Rpower 2 (- toR raw) = T / pw e.
Proof.
  intros Hr. destruct (exp2_negative_total raw Hr) as (k & n & He & _ & Hk).
  assert (Hd : (0 <= raw / 2 ^ 64)%Z) by (apply Z.div_pos; lia).
  pose proof (Z.mod_pos_bound raw (2 ^ 64) ltac:(lia)) as Hm.
  pose proof (pw_pos 96 ltac:(lia)) as H96. pose proof (pw_pos 64 ltac:(lia)) as H64.
  assert (HM : (EXP2_FRAC_MAX < 2 ^ 97)%Z) by done.
  destruct Hk as [(Hz & -> & ->)|(Hz & Hk & Hkr & ->)].
  - exists ONE_Q96, (raw / 2 ^ 64)%Z, 1. split_and!; [done|done|done|done|lra| | |].
    + change 1 with (pw 0). unfold pw. apply IZR_le, Z.pow_le_mono_r; lia.
    + change (IZR ONE_Q96) with (pw 96). rewrite Rdiv_diag by lra.
      assert (0 < D87) by (apply Rinv_0_lt_compat, pw_pos; lia). unfold within. lra.
    + rewrite split_64, Hz by lia. rewrite Rdiv_0_l, Rplus_0_r, Rpower_Ropp, Rpower2_nat by done. lra.
  - assert (Hc : IZR (2 ^ 64 - raw mod 2 ^ 64) / pw 64 = 1 - IZR (raw mod 2 ^ 64) / pw 64).
    { rewrite minus_IZR. fold (pw 64). field. lra. }
    assert (H0 : 0 <= IZR (raw mod 2 ^ 64) / pw 64) by (apply Rle_mult_inv_pos; [apply IZR_le; lia|lra]).
    exists k, (raw / 2 ^ 64 + 1)%Z, (Rpower 2 (IZR (2 ^ 64 - raw mod 2 ^ 64) / pw 64)).
    replace (raw / 2 ^ 64 + 1 + 32)%Z with (raw / 2 ^ 64 + 33)%Z by lia.
    split_and!; [done|unfold ONE_Q96 in Hkr; lia|lia|lia|apply exp_pos| |apply exp2_frac_within; [lia|done]|].
    + etrans; [apply (Rle_Rpower 2 _ 1); lra|]. rewrite Rpower_1 by lra.
      change 2 with (pw 1) at 1. unfold pw. apply IZR_le, Z.pow_le_mono_r; lia.
    + rewrite Hc, split_64 by lia. rewrite <- (Rpower2_nat (raw / 2 ^ 64 + 1)) by lia.
      unfold Rdiv at 2. rewrite <- Rpower_Ropp, <- Rpower_plus. f_equal. rewrite plus_IZR. lra.
Qed.

(** [exp2] of a negative exponent: absolute error at most one unit in the
    last place. *)
Lemma exp2_negative_accurate raw :
  is_u128 raw ->
  exists r, exp2_negative_raw raw = Ok r /\ Rabs (toR r - Rpower 2 (- toR raw)) <= / pw 64.
Proof.
  intros Hr. destruct (exp2_negative_shape raw Hr) as (k & e & T & He & Hk & He0 & HT & Hw & ->).
  eexists. split; [exact He|].
  pose proof (shift_round k (e + 32) Hk ltac:(lia)) as Hro. apply Rabs_inv in Hro. unfold within in Hw.
  unfold toR.
  set (r := IZR (if (256 <=? e + 32)%Z then 0 else (k + 2 ^ (e + 32 - 1)) / 2 ^ (e + 32))) in *. clearbody r.
  pose proof (pw_pos e He0) as Hpe. pose proof (pw_pos 64 ltac:(lia)) as H64. pose proof (pw_pos 32 ltac:(lia)) as H32.
  assert (Hie : 0 < / pw e) by (apply Rinv_0_lt_compat; lra).
  assert (Hi64 : 0 < / pw 64) by (apply Rinv_0_lt_compat; lra).
  assert (HD : 0 < D87 <= / pw 64 / 4).
  { unfold D87. split; [apply Rinv_0_lt_compat, pw_pos; lia|].
    replace (/ pw 64 / 4) with (/ pw 66); [apply small_pow; lia|].
    change 66%Z with (64 + 2)%Z. rewrite (pw_add 64 2) by lia. change (pw 2) with 4. field. lra. }
  assert (E : IZR k / pw (e + 32) / pw 64 = IZR k / pw 96 * / pw e).
  { rewrite (pw_add e 32) by lia. change 96%Z with (32 + 64)%Z. rewrite (pw_add 32 64) by lia. field. lra. }
  assert (HT1 : 0 < T * / pw e <= 1).
  { split; [nra|]. apply (Rmult_le_reg_r (pw e)); [done|]. rewrite Rmult_assoc, Rinv_l by lra. lra. }
  set (y := IZR k / pw (e + 32)) in *. set (x := IZR k / pw 96) in *. clearbody x y.
  unfold Rdiv in *. set (i := / pw 64) in *. set (j := / pw e) in *. clearbody i j.
  assert (Hx : - D87 <= x * j - T * j <= D87) by (split; nra).
  apply Rabs_le. split; nra.
Qed.
