(* ===== verification/FixedLog.v ===== *)
(** * Accuracy of log2 and ln

    Every turn of the squaring loop is one exact identity
    [2 log2 m = log2 (m^2)] up to two roundings; the errors are halved at
    every turn, so their sum stays below 2^-93.  The constant [LN2_Q96] is
    pinned by directed squaring of [1 + z <= exp z]. *)

From Stdlib Require Import Reals Lra.
From S2P Require Import Prelude Primitives U256 FixedPoint FixedProps FixedReal.

#[local] Open Scope R_scope.

Definition log2R (x : R) : R := ln x / ln 2.

Lemma ln2_pos : / 2 < ln 2.
Proof. exact ln_lt_2. Qed.

Lemma log2R_mult x y : 0 < x -> 0 < y -> log2R (x * y) = log2R x + log2R y.
Proof. intros. unfold log2R. rewrite ln_mult by done. lra. Qed.

Lemma log2R_2 : log2R 2 = 1.
Proof. pose proof ln2_pos. unfold log2R. field. lra. Qed.

Lemma log2R_1 : log2R 1 = 0.
Proof. unfold log2R. rewrite ln_1. lra. Qed.

Lemma log2R_le x y : 0 < x -> x <= y -> log2R x <= log2R y.
Proof.
  intros Hx Hy. pose proof ln2_pos. unfold log2R, Rdiv.
  apply Rmult_le_compat_r; [apply Rlt_le, Rinv_0_lt_compat; lra|].
  destruct (Rle_lt_or_eq_dec _ _ Hy) as [?| ->]; [|lra]. apply Rlt_le, ln_increasing; done.
Qed.

Lemma log2R_pw n : (0 <= n)%Z -> log2R (pw n) = IZR n.
Proof.
  intros Hn. pose proof ln2_pos. rewrite <- Rpower2_nat by done. unfold log2R, Rpower. rewrite ln_exp. field. lra.
Qed.

(** A relative error of [d] costs at most [4 d] in the logarithm. *)
Lemma log2R_near d x : 0 <= d <= / 4 -> 1 - d <= x <= 1 + d -> Rabs (log2R x) <= 4 * d.
Proof.
  intros Hd Hx. pose proof ln2_pos as H2.
  assert (Hln : Rabs (ln x) <= 2 * d).
  { assert (Hup : forall y, 0 < y -> ln y <= y - 1).
    { intros y Hy. pose proof (exp_ineq1_le (ln y)) as He. rewrite exp_ln in He by done. lra. }
    pose proof (Hup x ltac:(lra)) as H1. pose proof (Hup (/ x) ltac:(apply Rinv_0_lt_compat; lra)) as H3.
    rewrite ln_Rinv in H3 by lra. apply Rabs_le. split; [|lra].
    assert (/ x <= 1 + 2 * d); [|lra]. apply (Rmult_le_reg_r x); [lra|]. rewrite Rinv_l by lra. nra. }
  unfold log2R, Rdiv. rewrite Rabs_mult, (Rabs_right (/ ln 2)) by (apply Rle_ge, Rlt_le, Rinv_0_lt_compat; lra).
  assert (Hi : / ln 2 <= / / 2) by (apply Rinv_le_contravar; lra). rewrite Rinv_inv in Hi.
  assert (0 < / ln 2) by (apply Rinv_0_lt_compat; lra). pose proof (Rabs_pos (ln x)). nra.
Qed.

(** [a] within [d] of [b] means close logarithms. *)
Lemma log2R_within d a b :
  0 <= d <= / 4 -> 0 < b -> within d a b -> Rabs (log2R a - log2R b) <= 4 * d.
Proof.
  intros Hd Hb [HL HU]. assert (Ha : 0 < a) by nra.
  replace (log2R a - log2R b) with (log2R (a / b)).
  - apply log2R_near; [done|]. split; apply (Rmult_le_reg_r b); try done; replace (a / b * b) with a by (field; lra); lra.
  - unfold Rdiv. rewrite log2R_mult by (try apply Rinv_0_lt_compat; done).
    unfold log2R at 2. rewrite ln_Rinv by done. unfold log2R. lra.
Qed.

(** ** The loop *)

Definition mant (norm : Z) : R := IZR norm / pw 96.

Lemma mant_pos norm : (0 < norm)%Z -> 0 < mant norm.
Proof. intros. apply Rdiv_lt_0_compat; [by apply IZR_lt|apply pw_pos; lia]. Qed.

Lemma mant_range norm : mantissa_ok norm -> 1 <= mant norm <= 2.
Proof.
  intros [HL HU]. pose proof (pw_pos 96 ltac:(lia)) as H96. unfold mant.
  apply IZR_le in HL, HU. rewrite mult_IZR in HU. change (IZR ONE_Q96) with (pw 96) in *.
  split; apply (Rmult_le_reg_r (pw 96)); try done; replace (IZR norm / pw 96 * pw 96) with (IZR norm) by (field; lra); lra.
Qed.

Lemma log2_mant_range norm : mantissa_ok norm -> 0 <= log2R (mant norm) <= 1.
Proof.
  intros Hm. pose proof (mant_range norm Hm) as [HL HU]. pose proof log2R_1 as E1. pose proof log2R_2 as E2.
  pose proof (log2R_le 1 (mant norm)). pose proof (log2R_le (mant norm) 2). lra.
Qed.

Lemma quarter97 : 0 <= / pw 97 <= / 4.
Proof.
  split; [apply Rlt_le, Rinv_0_lt_compat, pw_pos; lia|]. change 4 with (pw 2). apply small_pow. lia.
Qed.

Lemma log2_square norm :
  mantissa_ok norm ->
  Rabs (log2R (mant (mulr norm norm)) - 2 * log2R (mant norm)) <= / pw 95.
Proof.
  intros Hm. pose proof (mant_range norm Hm) as HR.
  pose proof (mulr_within norm norm (proj1 Hm) (proj1 Hm)) as Hw. fold (mant norm) (mant (mulr norm norm)) in Hw.
  replace (2 * log2R (mant norm)) with (log2R (mant norm * mant norm)) by (rewrite log2R_mult by lra; lra).
  replace (/ pw 95) with (4 * / pw 97).
  - apply log2R_within; [apply quarter97|nra|done].
  - change 97%Z with (95 + 2)%Z. rewrite (pw_add 95 2) by lia. change (pw 2) with 4.
    pose proof (pw_pos 95 ltac:(lia)). field. lra.
Qed.

Lemma log2_halve sq :
  (2 * ONE_Q96 <= sq)%Z ->
  Rabs (log2R (mant ((sq + 1) / 2)) - (log2R (mant sq) - 1)) <= / pw 95.
Proof.
  intros Hs. pose proof (pw_pos 96 ltac:(lia)) as H96.
  assert (HsR : 2 * pw 96 <= IZR sq) by (change (pw 96) with (IZR ONE_Q96); rewrite <- mult_IZR; by apply IZR_le).
  pose proof (IZR_round sq 1 ltac:(lia)) as Hr. change (2 ^ (1 - 1))%Z with 1%Z in Hr. change (2 ^ 1)%Z with 2%Z in Hr.
  change (pw 1) with 2 in Hr. apply Rabs_inv in Hr.
  assert (Hms : 0 < mant sq / 2).
  { assert (0 < mant sq); [|lra]. apply mant_pos. unfold ONE_Q96 in Hs. lia. }
  assert (E : log2R (mant sq) - 1 = log2R (mant sq / 2)).
  { replace (mant sq) with (mant sq / 2 * 2) at 1 by lra. rewrite log2R_mult, log2R_2 by lra. lra. }
  rewrite E. replace (/ pw 95) with (4 * / pw 97).
  2: { change 97%Z with (95 + 2)%Z. rewrite (pw_add 95 2) by lia. change (pw 2) with 4.
       pose proof (pw_pos 95 ltac:(lia)). field. lra. }
  apply log2R_within; [apply quarter97|done|]. clear E Hms. unfold within, mant.
  change 97%Z with (96 + 1)%Z. rewrite (pw_add 96 1) by lia. change (pw 1) with 2.
  set (h := IZR ((sq + 1) / 2)) in *. set (x := IZR sq) in *. clearbody h x.
  assert (Hi : 0 < / pw 96) by (by apply Rinv_0_lt_compat).
  assert (Hp : pw 96 * / pw 96 = 1) by (by apply Rinv_r; lra).
  rewrite Rinv_mult. unfold Rdiv. set (i := / pw 96) in *. set (p := pw 96) in *. clearbody i p. split; nra.
Qed.

Lemma log2_bits_accurate n norm :
  mantissa_ok norm ->
  Rabs (pw (Z.of_nat n) * log2R (mant norm)
        - (IZR (log2_bits n norm).2 + log2R (mant (log2_bits n norm).1)))
    <= (pw (Z.of_nat n) - 1) * / pw 94.
Proof.
  revert norm. induction n as [|n IH]; intros norm Hm; cbn [log2_bits].
  - cbn [fst snd]. change (pw (Z.of_nat 0)) with 1. apply Rabs_le. lra.
  - rewrite Nat2Z.inj_succ, <- Z.add_1_r, (pw_add (Z.of_nat n) 1) by lia. change (pw 1) with 2.
    assert (HP : 1 <= pw (Z.of_nat n)) by (change 1 with (pw 0); unfold pw; apply IZR_le, Z.pow_le_mono_r; lia).
    pose proof (log2_square norm Hm) as Hsq. apply Rabs_inv in Hsq.
    pose proof (mulr_mantissa norm Hm) as Hmr. cbv zeta.
    assert (H94 : / pw 94 = 2 * / pw 95) by (apply (half_pow 94); lia).
    assert (H95 : 0 < / pw 95) by (apply Rinv_0_lt_compat, pw_pos; lia).
    set (P := pw (Z.of_nat n)) in *. rewrite H94 in *.
    destruct (Z.leb_spec (2 * ONE_Q96) (mulr norm norm)) as [Hc|Hc].
    + pose proof (log2_halve (mulr norm norm) Hc) as Hh. apply Rabs_inv in Hh.
      specialize (IH ((mulr norm norm + 1) / 2)%Z ltac:(apply halve_mantissa; lia)). apply Rabs_inv in IH.
      cbn [fst snd]. rewrite plus_IZR. fold (pw (Z.of_nat n)). fold P.
      set (f := IZR (log2_bits n ((mulr norm norm + 1) / 2)).2) in *.
      set (m' := log2R (mant (log2_bits n ((mulr norm norm + 1) / 2)).1)) in *.
      set (a := log2R (mant norm)) in *. set (b := log2R (mant (mulr norm norm))) in *.
      set (c := log2R (mant ((mulr norm norm + 1) / 2))) in *. set (d := / pw 95) in *.
      clearbody f m' a b c d P.
      assert (- (P * d) <= P * (b - 2 * a) <= P * d) by (split; nra).
      assert (- (P * d) <= P * (c - (b - 1)) <= P * d) by (split; nra).
      apply Rabs_le. lra.
    + specialize (IH (mulr norm norm) ltac:(split; lia)). apply Rabs_inv in IH.
      set (f := IZR (log2_bits n (mulr norm norm)).2) in *.
      set (m' := log2R (mant (log2_bits n (mulr norm norm)).1)) in *.
      set (a := log2R (mant norm)) in *. set (b := log2R (mant (mulr norm norm))) in *. set (d := / pw 95) in *.
      clearbody f m' a b d P. assert (- (P * d) <= P * (b - 2 * a) <= P * d) by (split; nra).
      assert (0 <= P * d) by nra. apply Rabs_le. lra.
Qed.

(** ** log2 *)

Lemma log2_mantissa_within raw :
  (0 < raw)%Z ->
  Rabs (log2R (mant (log2_mantissa raw)) - (log2R (toR raw) + 64 - IZR (Z.log2 raw))) <= / pw 95.
Proof.
  intros Hr. destruct (Z.log2_spec raw Hr) as [Hlo Hhi]. pose proof (Z.log2_nonneg raw) as He.
  pose proof (pw_pos 96 ltac:(lia)) as H96. pose proof (pw_pos 64 ltac:(lia)) as H64.
  set (e := Z.log2 raw) in *. pose proof (pw_pos e He) as Hpe.
  assert (HrR : pw e <= IZR raw) by (unfold pw; by apply IZR_le).
  assert (Hx : 1 <= IZR raw / pw e).
  { apply (Rmult_le_reg_r (pw e)); [done|]. replace (IZR raw / pw e * pw e) with (IZR raw) by (field; lra). lra. }
  assert (E : log2R (toR raw) + 64 - IZR e = log2R (IZR raw / pw e)).
  { unfold toR. replace (IZR raw / pw 64) with (IZR raw / pw e * (pw e / pw 64)) by (field; lra).
    rewrite log2R_mult by (try apply Rdiv_lt_0_compat; lra).
    replace (log2R (pw e / pw 64)) with (IZR e - 64); [lra|].
    pose proof (log2R_pw 64 ltac:(lia)) as E64. pose proof (log2R_pw e He) as Ee.
    replace (pw e) with (pw e / pw 64 * pw 64) in Ee by (field; lra).
    rewrite log2R_mult in Ee by (try apply Rdiv_lt_0_compat; lra). lra. }
  rewrite E. clear E. unfold log2_mantissa. fold e. cbv zeta.
  assert (H95 : 0 < / pw 95) by (apply Rinv_0_lt_compat, pw_pos; lia).
  destruct (Z.leb_spec e 96) as [Hc|Hc].
  - unfold mant. rewrite mult_IZR. fold (pw (96 - e)).
    replace (IZR raw * pw (96 - e) / pw 96) with (IZR raw / pw e).
    + apply Rabs_le. lra.
    + replace 96%Z with (e + (96 - e))%Z at 2 by lia. rewrite pw_add by lia.
      pose proof (pw_pos (96 - e) ltac:(lia)). field. lra.
  - replace (/ pw 95) with (4 * / pw 97).
    2: { change 97%Z with (95 + 2)%Z. rewrite (pw_add 95 2) by lia. change (pw 2) with 4.
         pose proof (pw_pos 95 ltac:(lia)). field. lra. }
    apply log2R_within; [apply quarter97|lra|].
    pose proof (IZR_round raw (e - 96) ltac:(lia)) as Hro. replace (e - 96 - 1)%Z with (e - 97)%Z in Hro by lia.
    apply Rabs_inv in Hro. unfold mant. set (M := IZR ((raw + 2 ^ (e - 97)) / 2 ^ (e - 96))) in *. clearbody M.
    assert (Ex : IZR raw / pw e = IZR raw / pw (e - 96) / pw 96).
    { replace e with (e - 96 + 96)%Z at 1 by lia. rewrite pw_add by lia.
      pose proof (pw_pos (e - 96) ltac:(lia)). field. lra. }
    rewrite Ex in *. set (x := IZR raw / pw (e - 96)) in *. clearbody x. clear Ex.
    change 97%Z with (96 + 1)%Z. rewrite (pw_add 96 1) by lia. change (pw 1) with 2.
    assert (Hi : 0 < / pw 96) by (by apply Rinv_0_lt_compat).
    unfold within, Rdiv in *. rewrite Rinv_mult. set (i := / pw 96) in *. clearbody i. split; nra.
Qed.

(** The 65th bit rounds the remaining logarithm to the nearest integer. *)
Lemma log2_last_bit norm :
  mantissa_ok norm ->
  Rabs (log2R (mant norm) - IZR (if (2 * ONE_Q96 <=? mulr norm norm)%Z then 1 else 0)) <= / 2 + / pw 96.
Proof.
  intros Hm. pose proof (log2_square norm Hm) as Hsq. pose proof (log2_mant_range norm Hm) as Hmr.
  pose proof (mulr_mantissa norm Hm) as Hmu. pose proof (pw_pos 96 ltac:(lia)) as H96.
  apply Rabs_inv in Hsq. rewrite (half_pow 95) in Hsq by lia. change (95 + 1)%Z with 96%Z in Hsq.
  assert (H2 : mant (2 * ONE_Q96) = 2).
  { unfold mant. rewrite mult_IZR. fold (pw 96). unfold ONE_Q96. fold (pw 96). field. lra. }
  assert (Hmono : forall a b, (0 < a)%Z -> (a <= b)%Z -> log2R (mant a) <= log2R (mant b)).
  { intros a b Ha Hab. apply log2R_le; [by apply mant_pos|]. unfold mant, Rdiv.
    apply Rmult_le_compat_r; [apply Rlt_le, Rinv_0_lt_compat; lra|by apply IZR_le]. }
  assert (Hone : (0 < ONE_Q96)%Z) by done.
  apply Rabs_le. destruct (Z.leb_spec (2 * ONE_Q96) (mulr norm norm)) as [Hc|Hc].
  - pose proof (Hmono (2 * ONE_Q96)%Z _ ltac:(lia) Hc) as Hg. rewrite H2, log2R_2 in Hg. lra.
  - pose proof (Hmono (mulr norm norm) (2 * ONE_Q96)%Z ltac:(lia) ltac:(lia)) as Hg.
    rewrite H2, log2R_2 in Hg. lra.
Qed.

(** The errors of the parts of the result add up. *)
Lemma log2_assemble (P i d e L L0 f b m : R) :
  P * i = 1 -> 0 < i <= 1 -> 0 < d ->
  - (2 * d) <= L0 - (L + 64 - e) <= 2 * d ->
  - ((P - 1) * (2 * (2 * d))) <= P * L0 - (f + m) <= (P - 1) * (2 * (2 * d)) ->
  - (/ 2 + d) <= m - b <= / 2 + d ->
  Rabs (((e - 64) * P + f + b) / P - L) <= i / 2 + 2 * (2 * (2 * (2 * d))).
Proof.
  intros E2 Hi Hd Hw Hb Hbit. assert (HP : 0 < P) by nra.
  assert (E1 : ((e - 64) * P + f + b) / P = e - 64 + (f + b) * i).
  { replace i with (/ P); [field; lra|]. apply (Rmult_eq_reg_l P); [|lra]. rewrite E2, Rinv_r by lra. done. }
  rewrite E1. clear E1.
  assert (Hfm : - (2 * (2 * d)) <= L0 - (f + m) * i <= 2 * (2 * d)).
  { replace L0 with (P * L0 * i) by (replace (P * L0 * i) with (L0 * (P * i)) by ring; rewrite E2; ring).
    split; nra. }
  assert (Hmb : - ((/ 2 + d) * i) <= (m - b) * i <= (/ 2 + d) * i) by (split; nra).
  apply Rabs_le. split; nra.
Qed.

Lemma pow_chain :
  / pw 65 = / pw 64 / 2 /\ / pw 92 = 2 * (2 * (2 * (2 * / pw 96))) /\ / pw 94 = 2 * (2 * / pw 96)
  /\ / pw 95 = 2 * / pw 96.
Proof.
  pose proof (half_pow 64 ltac:(lia)) as E64. pose proof (half_pow 92 ltac:(lia)) as E92.
  pose proof (half_pow 93 ltac:(lia)) as E93. pose proof (half_pow 94 ltac:(lia)) as E94.
  pose proof (half_pow 95 ltac:(lia)) as E95.
  change (64 + 1)%Z with 65%Z in *. change (92 + 1)%Z with 93%Z in *. change (93 + 1)%Z with 94%Z in *.
  change (94 + 1)%Z with 95%Z in *. change (95 + 1)%Z with 96%Z in *. lra.
Qed.

Lemma inv64_small : 0 < / pw 64 <= 1.
Proof.
  pose proof (pw_pos 64 ltac:(lia)). split; [by apply Rinv_0_lt_compat|]. rewrite <- Rinv_1.
  change 1 with (pw 0). apply (small_pow 0 64). lia.
Qed.

Lemma log2_accurate_fine raw :
  (ONE_RAW <= raw < U128)%Z ->
  exists r, log2_raw raw = Ok r /\ Rabs (toR r - log2R (toR raw)) <= / pw 65 + / pw 92.
Proof.
  intros Hr. assert (Hpos : (0 < raw)%Z) by (unfold ONE_RAW in Hr; lia).
  pose proof (log2_raw_spec raw Hr) as Hs. cbv zeta in Hs.
  pose proof (log2_mantissa_ok raw Hpos) as Hm. pose proof (log2_mantissa_within raw Hpos) as Hw.
  pose proof (log2_bits_accurate 64 _ Hm) as Hb. destruct (log2_bits_range 64 _ Hm) as [Hm' _].
  remember (log2_bits 64 (log2_mantissa raw)) as p eqn:Hp. clear Hp. change (Z.of_nat 64) with 64%Z in Hb.
  pose proof (log2_last_bit p.1 Hm') as Hbit. eexists. split; [exact Hs|].
  apply Rabs_inv in Hw, Hb, Hbit. destruct pow_chain as (E65 & E92 & E94 & E95).
  rewrite E95 in Hw. rewrite E94 in Hb. rewrite E65, E92. clear E65 E92 E94 E95.
  unfold toR at 1. rewrite !plus_IZR, mult_IZR, minus_IZR. fold (pw 64).
  pose proof (pw_pos 64 ltac:(lia)) as H64.
  eapply (log2_assemble (pw 64) (/ pw 64) (/ pw 96)); [apply Rinv_r; lra|apply inv64_small| |exact Hw|exact Hb|exact Hbit].
  apply Rinv_0_lt_compat, pw_pos. lia.
Qed.

(** ** ln 2 *)

(** [n] squarings, rounded down to multiples of [/ s]. *)
Fixpoint sq_down (s : Z) (n : nat) (a : Z) : Z :=
  match n with
  | O => a
  | S n => sq_down s n (a * a / s)
  end.

Lemma sq_down_exp s n a z :
  (0 < s)%Z -> (0 <= a)%Z -> IZR a / IZR s <= exp z ->
  IZR (sq_down s n a) / IZR s <= exp (pw (Z.of_nat n) * z).
Proof.
  intros Hs. assert (HsR : 0 < IZR s) by (by apply IZR_lt).
  revert a z. induction n as [|n IH]; intros a z Ha Hz; cbn [sq_down].
  - change (pw (Z.of_nat 0)) with 1. by rewrite Rmult_1_l.
  - replace (pw (Z.of_nat (S n)) * z) with (pw (Z.of_nat n) * (z + z)).
    + apply IH; [apply Z.div_pos; nia|]. rewrite exp_plus.
      destruct (IZR_div (a * a) s Hs) as [_ Hd]. rewrite mult_IZR in Hd.
      assert (HaR : 0 <= IZR a / IZR s) by (apply Rle_mult_inv_pos; [by apply IZR_le|done]).
      etrans; [apply (Rmult_le_compat_r (/ IZR s)); [apply Rlt_le, Rinv_0_lt_compat; lra|exact Hd]|].
      replace (IZR a * IZR a / IZR s * / IZR s) with (IZR a / IZR s * (IZR a / IZR s)) by (field; lra).
      pose proof (exp_pos z). apply Rmult_le_compat; lra.
    + rewrite Nat2Z.inj_succ, <- Z.add_1_r, (pw_add (Z.of_nat n) 1) by lia. change (pw 1) with 2. lra.
Qed.

(** [exp y] from below, for [y = m / 2^96], by [1 + y / 2^110 <= exp (y / 2^110)]. *)
Lemma exp_lower m :
  (0 <= 2 ^ 400 + m * 2 ^ 194)%Z ->
  IZR (sq_down (2 ^ 400) 110 (2 ^ 400 + m * 2 ^ 194)) / pw 400 <= exp (IZR m / pw 96).
Proof.
  intros Hm. pose proof (pw_pos 96 ltac:(lia)) as H96. pose proof (pw_pos 110 ltac:(lia)) as H110.
  pose proof (pw_pos 194 ltac:(lia)) as H194.
  replace (IZR m / pw 96) with (pw (Z.of_nat 110) * (IZR m / pw 96 / pw 110))
    by (change (Z.of_nat 110) with 110%Z; field; lra).
  refine (sq_down_exp (2 ^ 400) 110 (2 ^ 400 + m * 2 ^ 194) (IZR m / pw 96 / pw 110) _ Hm _);
    [apply Z.pow_pos_nonneg; lia|].
  etrans; [|apply exp_ineq1_le]. rewrite plus_IZR, mult_IZR. fold (pw 400). fold (pw 194).
  assert (E : pw 400 = pw 96 * pw 110 * pw 194) by (rewrite <- !pw_add by lia; reflexivity).
  rewrite E. apply Req_le. field. lra.
Qed.

Lemma sq_low_bound : (2 ^ 400 <= 2 * sq_down (2 ^ 400) 110 (2 ^ 400 + - (LN2_Q96 - 1) * 2 ^ 194))%Z.
Proof. vm_compute. discriminate. Qed.

Lemma sq_high_bound : (2 * 2 ^ 400 <= sq_down (2 ^ 400) 110 (2 ^ 400 + (LN2_Q96 + 1) * 2 ^ 194))%Z.
Proof. vm_compute. discriminate. Qed.

(** The constant is within one unit of its last place. *)
Lemma ln2_constant : (IZR LN2_Q96 - 1) / pw 96 <= ln 2 <= (IZR LN2_Q96 + 1) / pw 96.
Proof.
  pose proof (pw_pos 400 ltac:(lia)) as H400. split.
  - pose proof (exp_lower (- (LN2_Q96 - 1)) ltac:(by vm_compute)) as Hl.
    pose proof sq_low_bound as Hb. generalize dependent (sq_down (2 ^ 400) 110 (2 ^ 400 + - (LN2_Q96 - 1) * 2 ^ 194)).
    intros q Hl Hb. apply IZR_le in Hb. rewrite mult_IZR in Hb. fold (pw 400) in Hb.
    assert (Hq : / 2 <= IZR q / pw 400).
    { apply (Rmult_le_reg_r (pw 400)); [lra|]. replace (IZR q / pw 400 * pw 400) with (IZR q) by (field; lra). lra. }
    rewrite opp_IZR, minus_IZR in Hl. unfold Rdiv in Hl at 2. rewrite Ropp_mult_distr_l_reverse, exp_Ropp in Hl.
    fold ((IZR LN2_Q96 - 1) / pw 96) in Hl. generalize dependent ((IZR LN2_Q96 - 1) / pw 96). intros y Hl.
    pose proof (exp_pos y) as Hy. assert (He : exp y <= 2).
    { apply (Rmult_le_reg_r (/ exp y)); [by apply Rinv_0_lt_compat|]. rewrite Rinv_r by lra. lra. }
    rewrite <- (ln_exp y). destruct (Req_dec (exp y) 2) as [->|?]; [lra|]. apply Rlt_le, ln_increasing; lra.
  - pose proof (exp_lower (LN2_Q96 + 1) ltac:(by vm_compute)) as Hl.
    pose proof sq_high_bound as Hb. generalize dependent (sq_down (2 ^ 400) 110 (2 ^ 400 + (LN2_Q96 + 1) * 2 ^ 194)).
    intros q Hl Hb. apply IZR_le in Hb. rewrite mult_IZR in Hb. fold (pw 400) in Hb.
    assert (Hq : 2 <= IZR q / pw 400).
    { apply (Rmult_le_reg_r (pw 400)); [lra|]. replace (IZR q / pw 400 * pw 400) with (IZR q) by (field; lra). lra. }
    rewrite plus_IZR in Hl. generalize dependent ((IZR LN2_Q96 + 1) / pw 96). intros y Hl.
    assert (He : 2 <= exp y) by lra.
    rewrite <- (ln_exp y). destruct (Req_dec 2 (exp y)) as [->|?]; [lra|]. apply Rlt_le, ln_increasing; lra.
Qed.

(** ** ln *)

(** The errors of the product [log2 x * ln 2]. *)
Lemma ln_assemble (v L c l o i d : R) :
  0 < i -> 0 < d <= i / 1024 -> Rabs (v - L) <= i / 2 + d -> Rabs (o - v * c) <= i / 2 ->
  0 <= c <= 3 / 4 -> - (d / 16) <= c - l <= d / 16 -> 0 <= L <= 64 -> 
  Rabs (o - L * l) <= i.
Proof.
  intros Hi Hd Hv Ho Hc Hcl HL. apply Rabs_inv in Hv, Ho.
  assert (H1 : - (3 / 4 * (i / 2 + d)) <= (v - L) * c <= 3 / 4 * (i / 2 + d)) by (split; nra).
  assert (H2 : - (4 * d) <= L * (c - l) <= 4 * d) by (split; nra).
  apply Rabs_le. split; nra.
Qed.

Lemma ln_accurate_ulp raw :
  (ONE_RAW <= raw < U128)%Z ->
  exists r, fx_ln raw = Ok r /\ Rabs (toR r - ln (toR raw)) <= / pw 64.
Proof.
  intros Hr. destruct (fx_ln_spec raw Hr) as (v & Hv & Hl). eexists. split; [exact Hl|].
  destruct (log2_accurate_fine raw Hr) as (v' & Hv' & Hacc). rewrite Hv in Hv'. injection Hv' as <-.
  pose proof (pw_pos 64 ltac:(lia)) as H64. pose proof (pw_pos 96 ltac:(lia)) as H96. pose proof ln2_pos as H2.
  destruct pow_chain as (E65 & E92 & E94 & E95). rewrite E65 in Hacc.
  assert (Hln : ln (toR raw) = log2R (toR raw) * ln 2) by (unfold log2R; field; lra). rewrite Hln.
  assert (Hx : 1 <= toR raw <= pw 64).
  { unfold toR. destruct Hr as [HL HU]. apply IZR_le in HL. apply IZR_lt in HU.
    change (IZR ONE_RAW) with (pw 64) in HL. assert (EU : IZR U128 = pw 64 * pw 64) by (rewrite <- pw_add by lia; reflexivity).
    rewrite EU in HU. split; apply (Rmult_le_reg_r (pw 64)); try done;
      replace (IZR raw / pw 64 * pw 64) with (IZR raw) by (field; lra); lra. }
  pose proof (log2R_le 1 (toR raw) ltac:(lra) (proj1 Hx)) as HL0. rewrite log2R_1 in HL0.
  pose proof (log2R_le (toR raw) (pw 64) ltac:(lra) (proj2 Hx)) as HL1. rewrite (log2R_pw 64) in HL1 by lia.
  apply (ln_assemble (toR v) _ (IZR LN2_Q96 / pw 96) _ _ _ (/ pw 92)).
  - by apply Rinv_0_lt_compat.
  - split; [apply Rinv_0_lt_compat, pw_pos; lia|].
    replace (/ pw 64 / 1024) with (/ pw 74).
    + apply small_pow. lia.
    + change 74%Z with (64 + 10)%Z. rewrite (pw_add 64 10) by lia. change (pw 10) with 1024. field. lra.
  - exact Hacc.
  - pose proof (IZR_round (v * LN2_Q96) 96 ltac:(lia)) as Hro. change (96 - 1)%Z with 95%Z in Hro.
    apply Rabs_inv in Hro. rewrite mult_IZR in Hro. unfold toR.
    set (o := IZR ((v * LN2_Q96 + 2 ^ 95) / 2 ^ 96)) in *. clearbody o.
    replace (IZR v / pw 64 * (IZR LN2_Q96 / pw 96)) with (IZR v * IZR LN2_Q96 / pw 96 * / pw 64) by (field; lra).
    set (x := IZR v * IZR LN2_Q96 / pw 96) in *. clearbody x.
    assert (Hi : 0 < / pw 64) by (by apply Rinv_0_lt_compat). unfold Rdiv. apply Rabs_le. split; nra.
  - split; [apply Rle_mult_inv_pos; [apply IZR_le; done|done]|].
    apply (Rmult_le_reg_r (pw 96)); [done|]. replace (IZR LN2_Q96 / pw 96 * pw 96) with (IZR LN2_Q96) by (field; lra).
    apply (Rmult_le_reg_r 4); [lra|]. replace (3 / 4 * pw 96 * 4) with (3 * pw 96) by field.
    unfold pw. rewrite <- !mult_IZR. apply IZR_le. vm_compute. discriminate.
  - rewrite E92. pose proof ln2_constant as Hc. unfold Rdiv in *. rewrite Rmult_minus_distr_r, Rmult_plus_distr_r in Hc.
    rewrite !Rmult_1_l in Hc. lra.
  - lra.
Qed.
