(* ===== verification/FixedCost.v ===== *)
(** * Accuracy of the LMSR cost and price against the real formulas

    The reference functions are [lmsr_C] and [lmsr_P] on the reals; every
    fixed-point step of the code contributes a few units of 2^-64. *)

From Stdlib Require Import Reals Lra.
From S2P Require Import Prelude Primitives U256 FixedPoint FixedProps FixedReal FixedLog.

#[local] Open Scope R_scope.

(** The LMSR cost function and the price of the first asset. *)
Definition lmsr_C (q1 q2 b : R) : R := b * ln (exp (q1 / b) + exp (q2 / b)).
Definition lmsr_P (q1 q2 b : R) : R := exp (q1 / b) / (exp (q1 / b) + exp (q2 / b)).

(** One unit in the last place of 64.64. *)
Definition ulp : R := / pw 64.

Lemma ulp_pos : 0 < ulp.
Proof. apply Rinv_0_lt_compat, pw_pos. lia. Qed.

Lemma ulp_small : ulp <= / 1024.
Proof.
  unfold ulp. replace 1024 with (pw 10) by reflexivity. apply (small_pow 10 64). lia.
Qed.

Lemma lmsr_C_sym q1 q2 b : lmsr_C q1 q2 b = lmsr_C q2 q1 b.
Proof. unfold lmsr_C. by rewrite Rplus_comm. Qed.

(** The form the code evaluates. *)
Lemma lmsr_C_max q1 q2 b :
  0 < b -> lmsr_C q1 q2 b = q1 + b * ln (1 + exp (- ((q1 - q2) / b))).
Proof.
  intros Hb. unfold lmsr_C. pose proof (exp_pos (q1 / b)). pose proof (exp_pos (- ((q1 - q2) / b))).
  replace (exp (q1 / b) + exp (q2 / b)) with (exp (q1 / b) * (1 + exp (- ((q1 - q2) / b)))).
  - rewrite ln_mult, ln_exp by lra. field. lra.
  - rewrite Rmult_plus_distr_l, Rmult_1_r, <- exp_plus. do 2 f_equal. field. lra.
Qed.

Lemma lmsr_P_lead q1 q2 b :
  0 < b -> lmsr_P q1 q2 b = / (1 + exp (- ((q1 - q2) / b))).
Proof.
  intros Hb. unfold lmsr_P. pose proof (exp_pos (q1 / b)). pose proof (exp_pos (- ((q1 - q2) / b))).
  replace (exp (q1 / b) + exp (q2 / b)) with (exp (q1 / b) * (1 + exp (- ((q1 - q2) / b)))).
  - field. split; lra.
  - rewrite Rmult_plus_distr_l, Rmult_1_r, <- exp_plus. do 2 f_equal. field. lra.
Qed.

Lemma lmsr_P_compl q1 q2 b : lmsr_P q2 q1 b = 1 - lmsr_P q1 q2 b.
Proof. unfold lmsr_P. pose proof (exp_pos (q1 / b)). pose proof (exp_pos (q2 / b)). field. lra. Qed.

(** ** The functions used are 1-Lipschitz where they are used *)

Lemma exp_lipschitz u v d : 0 <= u -> 0 <= v -> Rabs (u - v) <= d -> Rabs (exp (- u) - exp (- v)) <= d.
Proof.
  assert (Hone : forall x y, 0 <= x -> x <= y -> 0 <= exp (- x) - exp (- y) <= y - x).
  { intros x y Hx Hxy. replace (- y) with (- x + (- (y - x))) by lra. rewrite exp_plus.
    pose proof (exp_ineq1_le (- (y - x))) as Hl. pose proof (exp_pos (- x)) as Hp.
    assert (Hu : exp (- x) <= 1) by (rewrite <- exp_0; destruct (Req_dec x 0) as [->|]; [rewrite Ropp_0; lra|];
      apply Rlt_le, exp_increasing; lra).
    assert (Hy : exp (- (y - x)) <= 1) by (rewrite <- exp_0; destruct (Req_dec y x) as [->|];
      [rewrite Rminus_diag, Ropp_0; lra|]; apply Rlt_le, exp_increasing; lra).
    split; nra. }
  intros Hu Hv Hd. apply Rabs_inv in Hd. apply Rabs_le. destruct (Rle_dec u v) as [H|H].
  - specialize (Hone u v Hu H). lra.
  - specialize (Hone v u Hv ltac:(lra)). lra.
Qed.

Lemma ln1p_lipschitz a c d : 0 <= a -> 0 <= c -> Rabs (a - c) <= d -> Rabs (ln (1 + a) - ln (1 + c)) <= d.
Proof.
  assert (Hone : forall x y, 0 <= x -> x <= y -> 0 <= ln (1 + y) - ln (1 + x) <= y - x).
  { intros x y Hx Hxy. split.
    - destruct (Req_dec x y) as [->|]; [lra|]. assert (ln (1 + x) < ln (1 + y)) by (apply ln_increasing; lra). lra.
    - assert (H : ln ((1 + y) / (1 + x)) <= y - x).
      { rewrite <- (ln_exp (y - x)).
        assert (Hle : (1 + y) / (1 + x) <= exp (y - x)).
        { etrans; [|apply (exp_ineq1_le (y - x))]. apply (Rmult_le_reg_r (1 + x)); [lra|].
          replace ((1 + y) / (1 + x) * (1 + x)) with (1 + y) by (field; lra). nra. }
        assert (0 < (1 + y) / (1 + x)) by (apply Rdiv_lt_0_compat; lra).
        destruct (Req_dec ((1 + y) / (1 + x)) (exp (y - x))) as [->|]; [lra|].
        apply Rlt_le, ln_increasing; lra. }
      unfold Rdiv in H. rewrite ln_mult, ln_Rinv in H; try lra. apply Rinv_0_lt_compat. lra. }
  intros Hu Hv Hd. apply Rabs_inv in Hd. apply Rabs_le. destruct (Rle_dec a c) as [H|H].
  - specialize (Hone a c Hu H). lra.
  - specialize (Hone c a Hv ltac:(lra)). lra.
Qed.

Lemma inv1p_lipschitz a c d : 0 <= a -> 0 <= c -> Rabs (a - c) <= d -> Rabs (/ (1 + a) - / (1 + c)) <= d.
Proof.
  intros Ha Hc Hd. apply Rabs_inv in Hd.
  pose proof (Rinv_0_lt_compat (1 + a) ltac:(lra)). pose proof (Rinv_0_lt_compat (1 + c) ltac:(lra)).
  assert (/ (1 + a) <= 1) by (rewrite <- Rinv_1; apply Rinv_le_contravar; lra).
  assert (/ (1 + c) <= 1) by (rewrite <- Rinv_1; apply Rinv_le_contravar; lra).
  replace (/ (1 + a) - / (1 + c)) with ((c - a) * (/ (1 + a) * / (1 + c))) by (field; lra).
  set (w := / (1 + a) * / (1 + c)) in *. assert (Hw : 0 <= w <= 1) by (unfold w; split; nra).
  clearbody w. apply Rabs_le. split; nra.
Qed.

(** ** The fixed-point steps *)

Lemma toR_nonneg a : (0 <= a)%Z -> 0 <= toR a.
Proof. intros. apply Rle_mult_inv_pos; [by apply IZR_le|apply pw_pos; lia]. Qed.

Lemma toR_le a c : (a <= c)%Z -> toR a <= toR c.
Proof.
  intros H. apply Rmult_le_compat_r; [apply Rlt_le, Rinv_0_lt_compat, pw_pos; lia|by apply IZR_le].
Qed.

Lemma toR_plus a c : toR (a + c) = toR a + toR c.
Proof. unfold toR. rewrite plus_IZR. lra. Qed.

Lemma toR_minus a c : toR (a - c) = toR a - toR c.
Proof. unfold toR. rewrite minus_IZR. lra. Qed.

Lemma toR_one : toR ONE_RAW = 1.
Proof. unfold toR. change (IZR ONE_RAW) with (pw 64). pose proof (pw_pos 64 ltac:(lia)). field. lra. Qed.

Lemma toR_scale n : toR n = IZR n * ulp.
Proof. reflexivity. Qed.

Lemma toR_div a c : (0 < c)%Z -> toR a / toR c - ulp < toR (a * 2 ^ 64 / c) <= toR a / toR c.
Proof.
  intros Hc. pose proof (IZR_div (a * 2 ^ 64) c Hc) as Hd. rewrite mult_IZR in Hd. fold (pw 64) in Hd.
  pose proof (pw_pos 64 ltac:(lia)) as Hp. assert (HcR : 0 < IZR c) by (by apply IZR_lt).
  replace (toR a / toR c) with (IZR a * pw 64 / IZR c * ulp) by (unfold toR, ulp; field; split; lra).
  rewrite (toR_scale (a * 2 ^ 64 / c)). pose proof ulp_pos as Hi. unfold Rdiv in *. generalize dependent ulp. intros i Hi.
  set (t := IZR a * pw 64 * / IZR c) in *. set (o := IZR (a * 2 ^ 64 / c)) in *. clearbody t o. split; nra.
Qed.

Lemma toR_mul a c : toR a * toR c - ulp < toR (a * c / 2 ^ 64) <= toR a * toR c.
Proof.
  pose proof (IZR_div (a * c) (2 ^ 64) ltac:(lia)) as Hd. rewrite mult_IZR in Hd. fold (pw 64) in Hd.
  pose proof (pw_pos 64 ltac:(lia)) as Hp.
  replace (toR a * toR c) with (IZR a * IZR c / pw 64 * ulp) by (unfold toR, ulp; field; lra).
  rewrite (toR_scale (a * c / 2 ^ 64)). pose proof ulp_pos as Hi. generalize dependent ulp. intros i Hi.
  set (t := IZR a * IZR c / pw 64) in *. set (o := IZR (a * c / 2 ^ 64)) in *. clearbody t o. split; nra.
Qed.

(** The public constant. *)
Lemma LN_2_accurate : Rabs (toR LN_2 - ln 2) <= ulp.
Proof.
  pose proof ln2_constant as [Hl Hu]. pose proof (pw_pos 64 ltac:(lia)) as Hp.
  assert (E : pw 96 = pw 64 * pw 32) by (apply (pw_add 64 32); lia).
  assert (H32 : 0 < pw 32) by (apply pw_pos; lia).
  assert (H1 : (LN_2 * 2 ^ 32 - 2 ^ 32 <= LN2_Q96 - 1)%Z) by (vm_compute; discriminate).
  assert (H2 : (LN2_Q96 + 1 <= LN_2 * 2 ^ 32 + 2 ^ 32)%Z) by (vm_compute; discriminate).
  apply IZR_le in H1, H2. rewrite !minus_IZR, mult_IZR in H1. rewrite !plus_IZR, mult_IZR in H2. fold (pw 32) in H1, H2.
  assert (HA : toR LN_2 - ulp <= (IZR LN2_Q96 - 1) / pw 96).
  { replace (toR LN_2 - ulp) with ((IZR LN_2 * pw 32 - pw 32) / pw 96) by (rewrite E; unfold toR, ulp; field; lra).
    apply Rmult_le_compat_r; [apply Rlt_le, Rinv_0_lt_compat, pw_pos; lia|done]. }
  assert (HB : (IZR LN2_Q96 + 1) / pw 96 <= toR LN_2 + ulp).
  { replace (toR LN_2 + ulp) with ((IZR LN_2 * pw 32 + pw 32) / pw 96) by (rewrite E; unfold toR, ulp; field; lra).
    apply Rmult_le_compat_r; [apply Rlt_le, Rinv_0_lt_compat, pw_pos; lia|done]. }
  apply Rabs_le. lra.
Qed.

(** From the displacement [D] to the exponent: [x ln 2] is [D] up to 102 ulp. *)
Lemma exponent_assemble (i D dis x L l2 : R) :
  0 < i <= / 1024 -> 0 <= D <= 48 -> / 2 < l2 <= 1 -> Rabs (L - l2) <= i ->
  D - i < dis <= D -> 0 <= dis -> dis / L - i < x <= dis / L ->
  Rabs (x * l2 - D) <= 102 * i.
Proof.
  intros Hi HD Hl HL Hdis Hd0 Hx. apply Rabs_inv in HL.
  assert (HL0 : / 2 - / 1024 < L) by lra.
  assert (Ht : Rabs (dis / L * l2 - dis) <= 98 * i).
  { replace (dis / L * l2 - dis) with (dis * (/ L) * (l2 - L)) by (field; lra).
    assert (HiL : 0 < / L <= 2.02) by (split; [apply Rinv_0_lt_compat; lra|];
      apply (Rmult_le_reg_r L); [lra|]; rewrite Rinv_l by lra; lra).
    assert (0 <= dis * / L <= 48 * 2.02) by (split; nra). apply Rabs_le. split; nra. }
  apply Rabs_inv in Ht. set (q := dis / L) in *. clearbody q. apply Rabs_le. split; nra.
Qed.

Lemma lmsr_exp_neg_accurate q_l q_s b :
  lmsr_domain q_l q_s b ->
  exists e, lmsr_exp_neg q_l q_s b = Ok e /\ (0 <= e <= ONE_RAW)%Z
    /\ Rabs (toR e - exp (- (toR (Z.abs (q_l - q_s)) / toR b))) <= 103 * ulp.
Proof.
  intros Hd. destruct (lmsr_exp_neg_total q_l q_s b Hd) as (Hx & e & He & Heq & Her).
  exists e. split; [done|]. split; [done|].
  destruct (exp2_negative_accurate _ Hx) as (e' & He' & Hacc). rewrite He in He'. injection He' as <-.
  destruct Hd as (Hl & Hs & Hb & Hpos & Hdist). unfold lmsr_exponent in *.
  set (d := Z.abs (q_l - q_s)) in *. assert (Hd0 : (0 <= d)%Z) by (unfold d; lia). clearbody d.
  pose proof (toR_div d b Hpos) as H1. pose proof (toR_div (d * 2 ^ 64 / b) LN_2 ltac:(done)) as H2.
  assert (Hdis0 : (0 <= d * 2 ^ 64 / b)%Z) by (apply Z.div_pos; lia).
  pose proof (toR_nonneg _ Hdis0) as Hdis0R. pose proof (toR_nonneg _ (proj1 Hx)) as Hx0.
  assert (HbR : 0 < toR b).
  { apply Rmult_lt_0_compat; [by apply IZR_lt|apply Rinv_0_lt_compat, pw_pos; lia]. }
  assert (HD : 0 <= toR d / toR b <= 48).
  { pose proof (toR_nonneg d Hd0). split; [apply Rle_mult_inv_pos; lra|].
    apply (Rmult_le_reg_r (toR b)); [done|]. replace (toR d / toR b * toR b) with (toR d) by (field; lra).
    apply toR_le in Hdist. rewrite (toR_scale (48 * b)), mult_IZR in Hdist. rewrite (toR_scale b). lra. }
  pose proof ulp_pos as Hi. pose proof ulp_small as Hi'. pose proof ln2_pos as Hl2.
  assert (Hl2' : ln 2 <= 1).
  { rewrite <- (ln_exp 1). apply Rlt_le, ln_increasing; [lra|]. pose proof (exp_ineq1 1 ltac:(lra)). lra. }
  pose proof (exponent_assemble ulp (toR d / toR b) _ _ (toR LN_2) (ln 2) ltac:(lra) HD ltac:(lra) LN_2_accurate H1 Hdis0R H2) as Hx2.
  set (x := toR (d * 2 ^ 64 / b * 2 ^ 64 / LN_2)) in *. clearbody x.
  assert (Hxl : 0 <= x * ln 2) by (apply Rmult_le_pos; lra).
  pose proof (exp_lipschitz _ _ _ Hxl (proj1 HD) Hx2) as Hexp.
  unfold Rpower in Hacc. rewrite Ropp_mult_distr_l_reverse in Hacc. fold ulp in Hacc.
  apply Rabs_inv in Hacc, Hexp. apply Rabs_le. lra.
Qed.

(** ** Cost and price *)

Lemma abs_gap q_l q_s : (0 <= q_l)%Z -> (0 <= q_s)%Z ->
  toR (Z.abs (q_l - q_s)) = toR (Z.max q_l q_s) - toR (Z.min q_l q_s).
Proof. intros. rewrite <- toR_minus. f_equal. lia. Qed.

Lemma lmsr_C_maxmin q_l q_s b :
  lmsr_C (toR q_l) (toR q_s) b = lmsr_C (toR (Z.max q_l q_s)) (toR (Z.min q_l q_s)) b.
Proof.
  destruct (Z.le_ge_cases q_l q_s).
  - rewrite Z.max_r, Z.min_l by done. apply lmsr_C_sym.
  - by rewrite Z.max_l, Z.min_r by done.
Qed.

Lemma ln_one_plus_accurate e :
  (0 <= e <= ONE_RAW)%Z ->
  exists l, ln_one_plus e = Ok l /\ (0 <= l <= LN_2)%Z /\ Rabs (toR l - ln (1 + toR e)) <= ulp.
Proof.
  intros He. destruct (ln_one_plus_range e He) as (l & Hl & Hlr). exists l. split; [done|]. split; [done|].
  unfold ln_one_plus in Hl. rewrite fx_add_spec in Hl. unfold ONE_RAW in He.
  rewrite (proj2 (Z.ltb_lt (ONE_RAW + e) _)) in Hl by (unfold ONE_RAW; lia). cbn [rbind] in Hl.
  destruct (ln_accurate_ulp (ONE_RAW + e)) as (l' & Hl' & Hacc); [unfold ONE_RAW; lia|].
  rewrite Hl in Hl'. injection Hl' as <-. by rewrite toR_plus, toR_one in Hacc.
Qed.

(** The cost is the LMSR cost up to [104 b + 1] units of the last place. *)
Lemma lmsr_cost_near q_l q_s b r :
  lmsr_domain q_l q_s b -> lmsr_cost q_l q_s b = Ok r ->
  Rabs (toR r - lmsr_C (toR q_l) (toR q_s) (toR b)) <= (104 * toR b + 1) * ulp.
Proof.
  intros Hd Hc. destruct (lmsr_exp_neg_accurate q_l q_s b Hd) as (e & He & Her & Hacc).
  destruct (ln_one_plus_accurate e Her) as (l & Hl & Hlr & Hlacc).
  unfold lmsr_cost in Hc. rewrite ensure_lmsr_domain_ok, He in Hc by done. cbn [rbind] in Hc.
  rewrite Hl in Hc. cbn [rbind] in Hc. destruct Hd as (Hql & Hqs & Hb & Hpos & Hdist).
  unfold LN_2 in Hlr. rewrite fx_mul_spec in Hc by lia. destruct (_ <? _)%Z; [|done]. cbn [rbind] in Hc.
  rewrite fx_add_spec in Hc. destruct (_ <? _)%Z; [|done]. injection Hc as <-.
  rewrite toR_plus, lmsr_C_maxmin, lmsr_C_max.
  2: { apply Rmult_lt_0_compat; [by apply IZR_lt|apply Rinv_0_lt_compat, pw_pos; lia]. }
  rewrite <- abs_gap by lia. pose proof (toR_mul b l) as Hm.
  assert (HE : 0 <= exp (- (toR (Z.abs (q_l - q_s)) / toR b))) by apply Rlt_le, exp_pos.
  pose proof (ln1p_lipschitz _ _ _ (toR_nonneg e (proj1 Her)) HE Hacc) as Hlip.
  set (t := ln (1 + exp _)) in *. pose proof ulp_pos as Hi. pose proof (toR_nonneg b ltac:(lia)) as HbR.
  apply Rabs_inv in Hlacc, Hlip. set (u := ulp) in *. clearbody u t.
  assert (Hlt : - (104 * u) <= toR l - t <= 104 * u) by lra.
  set (B := toR b) in *. set (l' := toR l) in *. clearbody B l'.
  assert (- (104 * u * B) <= B * (l' - t) <= 104 * u * B) by (split; nra).
  apply Rabs_le. lra.
Qed.

Lemma frac_lead e : (0 <= e <= ONE_RAW)%Z -> toR (ONE_RAW + e) = 1 + toR e.
Proof. intros. by rewrite toR_plus, toR_one. Qed.

(** A price is the LMSR price up to 104 units of the last place. *)
Lemma lmsr_price_near q_l q_s b :
  lmsr_domain q_l q_s b ->
  exists p, lmsr_price_long q_l q_s b = Ok p
    /\ Rabs (toR p - lmsr_P (toR q_l) (toR q_s) (toR b)) <= 104 * ulp.
Proof.
  intros Hd. destruct (lmsr_exp_neg_accurate q_l q_s b Hd) as (e & He & Her & Hacc).
  destruct (price_halves e Her) as (Ha & Hh & Hl & _ & _ & _). cbv zeta in *.
  unfold lmsr_price_long. rewrite ensure_lmsr_domain_ok, He by done. cbn [rbind]. rewrite Ha. cbn [rbind].
  destruct Hd as (Hql & Hqs & Hb & Hpos & Hdist).
  assert (HbR : 0 < toR b) by (apply Rmult_lt_0_compat; [by apply IZR_lt|apply Rinv_0_lt_compat, pw_pos; lia]).
  assert (HE : 0 <= exp (- (toR (Z.abs (q_l - q_s)) / toR b))) by apply Rlt_le, exp_pos.
  pose proof (toR_nonneg e (proj1 Her)) as He0.
  pose proof (inv1p_lipschitz _ _ _ He0 HE Hacc) as Hinv. pose proof ulp_pos as Hi.
  destruct (Z.leb_spec q_s q_l) as [Hle|Hlt].
  - eexists. split; [exact Hh|]. rewrite lmsr_P_lead by done. rewrite <- toR_minus.
    replace (Z.abs (q_l - q_s))%Z with (q_l - q_s)%Z in Hinv by lia.
    pose proof (toR_div ONE_RAW (ONE_RAW + e) ltac:(unfold ONE_RAW in *; lia)) as Hdv.
    rewrite frac_lead, toR_one in Hdv by done. unfold Rdiv in Hdv. rewrite Rmult_1_l in Hdv.
    apply Rabs_inv in Hinv. apply Rabs_le. lra.
  - eexists. split; [exact Hl|]. rewrite lmsr_P_compl, lmsr_P_lead by done. rewrite <- toR_minus.
    replace (Z.abs (q_l - q_s))%Z with (q_s - q_l)%Z in Hinv by lia.
    pose proof (toR_div e (ONE_RAW + e) ltac:(unfold ONE_RAW in *; lia)) as Hdv.
    rewrite frac_lead in Hdv by done.
    replace (toR e / (1 + toR e)) with (1 - / (1 + toR e)) in Hdv by (field; lra).
    apply Rabs_inv in Hinv. apply Rabs_le. lra.
Qed.
