(* ===== verification/FixedTheorems.v ===== *)
(** * The properties of the fixed-point arithmetic and the LMSR formulas

    Accuracy is stated against the real functions; each theorem with a
    hypothesis is followed by its witness. *)

From Stdlib Require Import Reals Lra.
From S2P Require Import Prelude Primitives U256 FixedPoint FixedProps FixedReal FixedLog FixedCost.

Definition demo_q : Z := 3 * 2 ^ 68.
Definition demo_b : Z := 5 * 2 ^ 67.

Lemma demo_domain : lmsr_domain demo_q (2 ^ 66) demo_b.
Proof. by vm_compute. Qed.

(** C37. Multiplication and division. The 256-bit product shifted down and
    the bitwise long division are the exact floors of [a b / 2^64] and
    [a 2^64 / b]; the only errors are a quotient that does not fit 128 bits
    and a zero divisor. *)
Theorem mul_div_exact a b :
  is_u128 a -> is_u128 b ->
  fx_mul a b = (if a * b / 2 ^ 64 <? U128 then Ok (a * b / 2 ^ 64) else Err Overflow)
  /\ fx_div a b = (if b =? 0 then Err DivisionByZero
                   else if a * 2 ^ 64 / b <? U128 then Ok (a * 2 ^ 64 / b) else Err Overflow).
Proof. intros Ha Hb. split; [by apply fx_mul_spec|by apply fx_div_spec]. Qed.

Lemma mul_div_exact_witness : fx_mul (3 * 2 ^ 64) (2 ^ 63) = Ok (3 * 2 ^ 63).
Proof. destruct (mul_div_exact (3 * 2 ^ 64) (2 ^ 63)) as [H _]; [done|done|]. rewrite H. reflexivity. Defined.

(** exp2. On [0, 64) it returns the power within a relative error of
    2^-64, at or above 64 it reports an overflow, and the negative kernel
    returns [2^-x] within 2^-64 for every [x]. *)
Theorem exp2_accuracy raw :
  is_u128 raw ->
  ((raw < 2 ^ 70)%Z -> exists r, fx_exp2 raw = Ok r /\ within (/ pw 64) (toR r) (Rpower 2 (toR raw)))
  /\ ((2 ^ 70 <= raw)%Z -> fx_exp2 raw = Err Overflow)
  /\ exists r, exp2_negative_raw raw = Ok r /\ (Rabs (toR r - Rpower 2 (- toR raw)) <= / pw 64)%R.
Proof.
  intros Hr. split_and!.
  - intros Hlt. apply exp2_accurate. destruct Hr. by split.
  - intros Hge. by apply exp2_positive_overflow.
  - by apply exp2_negative_accurate.
Qed.

Lemma exp2_accuracy_witness :
  exists r, fx_exp2 (5 * 2 ^ 63) = Ok r /\ within (/ pw 64) (toR r) (Rpower 2 (toR (5 * 2 ^ 63))).
Proof. apply (exp2_accuracy (5 * 2 ^ 63)); done. Defined.

(** Logarithms. Below one both report a domain error; from one upwards
    log2 and ln return the logarithm within one unit of the last place. *)
Theorem log_accuracy raw :
  is_u128 raw ->
  ((raw < ONE_RAW)%Z -> fx_log2 raw = Err Domain /\ fx_ln raw = Err Domain)
  /\ ((ONE_RAW <= raw)%Z ->
      (exists r, fx_log2 raw = Ok r /\ (Rabs (toR r - ln (toR raw) / ln 2) <= / pw 64)%R)
      /\ exists r, fx_ln raw = Ok r /\ (Rabs (toR r - ln (toR raw)) <= / pw 64)%R).
Proof.
  intros [Hlo Hhi]. split.
  - intros Hlt. split; [|by apply fx_ln_domain]. unfold fx_log2. case_match; [done|]. by apply log2_raw_domain.
  - intros Hge. split; [|by apply ln_accurate_ulp].
    unfold fx_log2. rewrite (proj2 (Z.eqb_neq raw 0)) by (unfold ONE_RAW in Hge; lia).
    destruct (log2_accurate_fine raw ltac:(done)) as (r & Hr & Hacc). exists r. split; [done|].
    fold (log2R (toR raw)). etrans; [exact Hacc|].
    pose proof (half_pow 64 ltac:(lia)) as E. change (64 + 1)%Z with 65%Z in E. rewrite E.
    pose proof (small_pow 66 92 ltac:(lia)) as H. pose proof (half_pow 65 ltac:(lia)) as E'.
    change (65 + 1)%Z with 66%Z in E'.
    pose proof (Rinv_0_lt_compat _ (pw_pos 64 ltac:(lia))). lra.
Qed.

Lemma log_accuracy_witness : exists r, fx_ln (10 * 2 ^ 64) = Ok r /\ (Rabs (toR r - ln (toR (10 * 2 ^ 64))) <= / pw 64)%R.
Proof. apply (log_accuracy (10 * 2 ^ 64)); done. Defined.

(** C36. LMSR cost. Inside the domain [|q_l - q_s| <= 48 b] the cost is
    returned unless it overflows 128 bits; it is the LMSR cost
    [b ln (e^(q_l/b) + e^(q_s/b))] up to [104 b + 1] units of the last place,
    symmetric, and lies between [max q] and [max q + b ln 2], which bounds the
    market maker's loss. Outside the domain it is refused. *)
Theorem lmsr_cost_accuracy q_l q_s b :
  is_u128 q_l -> is_u128 q_s -> is_u128 b ->
  (lmsr_domain q_l q_s b ->
    (exists m, 0 <= m <= b * LN_2 / 2 ^ 64
       /\ lmsr_cost q_l q_s b = if Z.max q_l q_s + m <? U128 then Ok (Z.max q_l q_s + m) else Err Overflow)
    /\ forall r, lmsr_cost q_l q_s b = Ok r ->
         (Rabs (toR r - lmsr_C (toR q_l) (toR q_s) (toR b)) <= (104 * toR b + 1) * ulp)%R)
  /\ (0 < b -> 48 * b < Z.abs (q_l - q_s) -> lmsr_cost q_l q_s b = Err Domain)
  /\ lmsr_cost q_l q_s b = lmsr_cost q_s q_l b.
Proof.
  intros Hl Hs Hb. split_and!.
  - intros Hd. split; [by apply lmsr_cost_bounds|]. intros r. by apply lmsr_cost_near.
  - intros Hpos Hfar. unfold lmsr_cost. rewrite ensure_lmsr_domain_spec by done.
    by rewrite (proj2 (Z.eqb_neq b 0)), (proj2 (Z.ltb_lt _ _)) by lia.
  - by apply lmsr_cost_sym.
Qed.

Lemma lmsr_cost_accuracy_witness : exists r, lmsr_cost demo_q (2 ^ 66) demo_b = Ok r
  /\ (Rabs (toR r - lmsr_C (toR demo_q) (toR (2 ^ 66)) (toR demo_b)) <= (104 * toR demo_b + 1) * ulp)%R.
Proof.
  destruct (lmsr_cost_accuracy demo_q (2 ^ 66) demo_b) as [H _]; [by vm_compute..|].
  destruct (H demo_domain) as [_ Hr]. eexists. split; [vm_compute; reflexivity|]. apply Hr. vm_compute. reflexivity.
Defined.

(** LMSR prices. Inside the domain both prices are returned, add up to
    exactly one, are the LMSR prices up to 104 units of the last place, and
    the side with more shares outstanding is worth at least one half. *)
Theorem lmsr_price_accuracy q_l q_s b :
  lmsr_domain q_l q_s b ->
  exists p, lmsr_price_long q_l q_s b = Ok p /\ lmsr_price_short q_l q_s b = Ok (ONE_RAW - p)
    /\ 0 <= p <= ONE_RAW
    /\ (q_s <= q_l -> 2 ^ 63 <= p) /\ (q_l < q_s -> p <= 2 ^ 63)
    /\ (Rabs (toR p - lmsr_P (toR q_l) (toR q_s) (toR b)) <= 104 * ulp)%R.
Proof.
  intros Hd. destruct (lmsr_prices q_l q_s b Hd) as (p & Hp & Hs & Hr & Hge & Hlt & _).
  destruct (lmsr_price_near q_l q_s b Hd) as (p' & Hp' & Hacc). rewrite Hp in Hp'. injection Hp' as <-.
  exists p. done.
Qed.

Lemma lmsr_price_accuracy_witness : exists p, lmsr_price_long demo_q (2 ^ 66) demo_b = Ok p /\ 2 ^ 63 <= p.
Proof.
  destruct (lmsr_price_accuracy demo_q (2 ^ 66) demo_b demo_domain) as (p & Hp & _ & _ & Hge & _).
  exists p. split; [exact Hp|]. apply Hge. by vm_compute.
Defined.

(** Path independence. Buying in two steps costs exactly what buying
    at once does, and selling what was bought returns exactly the cost. *)
Theorem lmsr_path_independent q_l q_s b side a a' c c' :
  0 <= a -> 0 <= q_l -> 0 <= q_s ->
  lmsr_buy_cost q_l q_s b side a = Ok c ->
  let q := shift_side side q_l q_s a in
  lmsr_sell_proceeds q.1 q.2 b side a = Ok c
  /\ (lmsr_buy_cost q.1 q.2 b side a' = Ok c' -> lmsr_buy_cost q_l q_s b side (a + a') = Ok (c + c')).
Proof.
  intros Ha Hl Hs Hbuy q. pose proof Hbuy as Hb. apply lmsr_buy_cost_Ok in Hb.
  destruct Hb as (c0 & c1 & H0 & H1 & -> & Hle & Hlt). split.
  - unfold lmsr_sell_proceeds. subst q. cbv zeta in H1. rewrite H1. cbn [rbind].
    destruct side; cbn [shift_side fst snd]; rewrite fx_sub_spec, (proj2 (Z.leb_le a _)) by lia; cbn [rbind fst snd];
      rewrite Z.add_simpl_r, H0; cbn [rbind]; by rewrite fx_sub_spec, (proj2 (Z.leb_le c0 c1)).
  - rewrite !lmsr_buy_cost_Ok. intros (d0 & d1 & Hd0 & Hd1 & -> & Hle' & Hlt'). cbv zeta in *.
    subst q. rewrite H1 in Hd0. injection Hd0 as <-. exists c0, d1. split; [done|].
    destruct side; cbn [shift_side fst snd] in *; rewrite Z.add_assoc; split_and!; (done || lia).
Qed.

Lemma lmsr_path_independent_witness : exists c, lmsr_buy_cost demo_q (2 ^ 66) demo_b LmsrShort (7 * 2 ^ 64) = Ok c
  /\ lmsr_sell_proceeds demo_q (2 ^ 66 + 7 * 2 ^ 64) demo_b LmsrShort (7 * 2 ^ 64) = Ok c.
Proof.
  eexists. split; [vm_compute; reflexivity|].
  apply (lmsr_path_independent demo_q (2 ^ 66) demo_b LmsrShort (7 * 2 ^ 64) 0 _ 0); done || (vm_compute; reflexivity).
Defined.

(** Rounding to whole units. A charge is rounded up and a payout down,
    so a charge covers the payout of the same amount, by less than one unit
    more on either side. *)
Theorem rounding_favours_pool v :
  is_u128 v ->
  round_charge_up v = (v + (2 ^ 64 - 1)) / 2 ^ 64 /\ round_payout_down v = v / 2 ^ 64
  /\ round_payout_down v * 2 ^ 64 <= v <= round_charge_up v * 2 ^ 64
  /\ round_charge_up v <= round_payout_down v + 1.
Proof.
  intros Hv. rewrite round_charge_up_spec, round_payout_down_spec by done. split; [done|]. split; [done|].
  change (2 ^ 64) with U64 in *.
  pose proof (div_bounds v U64 ltac:(lia)). pose proof (div_bounds (v + (U64 - 1)) U64 ltac:(lia)). lia.
Qed.

Lemma rounding_favours_pool_witness : round_charge_up (5 * 2 ^ 63) = 3 /\ round_payout_down (5 * 2 ^ 63) = 2.
Proof. destruct (rounding_favours_pool (5 * 2 ^ 63)) as (H1 & H2 & _); [done|]. rewrite H1, H2. done. Defined.
