(* ===== verification/Twap.v ===== *)
(** * The TWAP accumulator (crates/market-core, [TwapCumulative])

    A price-times-blocks integral in two [u128] limbs, its long division by a
    block count in base 2^64, and the reads over it.  [tw_val] is the number
    a pair of limbs stands for; the lemmas say every operation is the integer
    operation on it, or [None]. *)

From S2P Require Import Prelude Primitives U256.

Record TwapCumulative : Type := { tw_hi : Z; tw_lo : Z }.

Definition TWAP_ZERO : TwapCumulative := {| tw_hi := 0; tw_lo := 0 |}.

Definition from_low (lo : Z) : TwapCumulative := {| tw_hi := 0; tw_lo := lo |}.

(** [overflowing_add] and [overflowing_sub] on [u128]. *)
Definition overflowing_add (a b : Z) : Z * bool := (wrap U128 (a + b), U128 <=? a + b).
Definition overflowing_sub (a b : Z) : Z * bool := (wrap U128 (a - b), a <? b).

Definition tw_checked_add (x y : TwapCumulative) : option TwapCumulative :=
  let (lo, carry) := overflowing_add (tw_lo x) (tw_lo y) in
  hi ← checked_add U128 (tw_hi x) (tw_hi y);
  hi ← checked_add U128 hi (Z.b2z carry);
  Some {| tw_hi := hi; tw_lo := lo |}.

Definition checked_add_product (x : TwapCumulative) (observation blocks : Z) : option TwapCumulative :=
  product ← checked_mul U128 observation blocks;
  tw_checked_add x (from_low product).

Definition tw_checked_sub (x y : TwapCumulative) : option TwapCumulative :=
  let (lo, borrow) := overflowing_sub (tw_lo x) (tw_lo y) in
  hi ← checked_sub (tw_hi x) (tw_hi y);
  hi ← checked_sub hi (Z.b2z borrow);
  Some {| tw_hi := hi; tw_lo := lo |}.

(** [u64::try_from]. *)
Definition to_u64 (a : Z) : option Z := if a <? U64 then Some a else None.

Definition divide_word (remainder word divisor : Z) : option (Z * Z) :=
  let numerator := Z.lor (shl remainder 64) word in
  quotient ← checked_div numerator divisor;
  quotient ← to_u64 quotient;
  remainder ← checked_rem numerator divisor;
  remainder ← to_u64 remainder;
  Some (quotient, remainder).

Definition checked_div_by_blocks (x : TwapCumulative) (blocks : Z) : option TwapCumulative :=
  if blocks =? 0 then None
  else
    hi_hi ← to_u64 (shr (tw_hi x) 64);
    hi_lo ← to_u64 (Z.land (tw_hi x) (2 ^ 64 - 1));
    lo_hi ← to_u64 (shr (tw_lo x) 64);
    lo_lo ← to_u64 (Z.land (tw_lo x) (2 ^ 64 - 1));
    '(q_hi_hi, remainder) ← divide_word 0 hi_hi blocks;
    '(q_hi_lo, remainder) ← divide_word remainder hi_lo blocks;
    '(q_lo_hi, remainder) ← divide_word remainder lo_hi blocks;
    '(q_lo_lo, _) ← divide_word remainder lo_lo blocks;
    Some {| tw_hi := Z.lor (shl q_hi_hi 64) q_hi_lo; tw_lo := Z.lor (shl q_lo_hi 64) q_lo_lo |}.

Definition try_into_u64 (x : TwapCumulative) : option Z :=
  if negb (tw_hi x =? 0) then None else to_u64 (tw_lo x).

Definition accumulator_at_boundary (previous_block : BlockNumber) (previous_cumulative : TwapCumulative)
    (observation : FixedU64) (boundary : BlockNumber) : option TwapCumulative :=
  elapsed ← checked_sub boundary previous_block;
  checked_add_product previous_cumulative observation elapsed.

Definition twap_between (start stop : TwapCumulative) (blocks : BlockNumber) : option FixedU64 :=
  d ← tw_checked_sub stop start;
  q ← checked_div_by_blocks d blocks;
  try_into_u64 q.

Definition coverage_at_least (observations window interval required_pct : Z) : bool :=
  if (interval =? 0) || (100 <? required_pct) then false
  else
    let expected := window / interval in
    (0 <? expected)
    && (sat_mul U32 expected required_pct <=? sat_mul U32 observations 100).

(** ** Exactness *)

Definition tw_val (x : TwapCumulative) : Z := tw_hi x * U128 + tw_lo x.

Definition tw_ok (x : TwapCumulative) : Prop := is_u128 (tw_hi x) /\ is_u128 (tw_lo x).

Definition U256_MAX1 : Z := U128 * U128.

Lemma tw_val_inj x y : tw_ok x -> tw_ok y -> tw_val x = tw_val y -> x = y.
Proof.
  destruct x as [h l], y as [h' l']. unfold tw_ok, tw_val. simpl. intros [? ?] [? ?] He.
  assert (h = h') as -> by lia. f_equal. lia.
Qed.

Lemma tw_checked_add_spec x y :
  tw_ok x -> tw_ok y ->
  match tw_checked_add x y with
  | Some z => tw_ok z /\ tw_val z = tw_val x + tw_val y
  | None => U256_MAX1 <= tw_val x + tw_val y
  end.
Proof.
  destruct x as [h l], y as [h' l']. unfold tw_ok, tw_val, tw_checked_add, overflowing_add, U256_MAX1.
  cbn [tw_hi tw_lo]. intros [Hh Hl] [Hh' Hl']. unfold checked_add, wrap.
  destruct (Z.ltb_spec (h + h') U128); cbn [mbind option_bind]; [|lia].
  destruct (Z.leb_spec U128 (l + l')); cbn [Z.b2z]; match goal with |- context [?a <? ?w] => destruct (Z.ltb_spec a w) end;
    cbn [mbind option_bind tw_hi tw_lo]; try lia.
  - assert (E : (l + l') mod U128 = l + l' - U128) by (symmetry; apply (Z.mod_unique _ _ 1); lia).
    rewrite E. lia.
  - rewrite Z.mod_small by lia. lia.
Qed.

Lemma tw_checked_sub_spec x y :
  tw_ok x -> tw_ok y ->
  match tw_checked_sub x y with
  | Some z => tw_ok z /\ tw_val z = tw_val x - tw_val y
  | None => tw_val x < tw_val y
  end.
Proof.
  destruct x as [h l], y as [h' l']. unfold tw_ok, tw_val, tw_checked_sub, overflowing_sub.
  cbn [tw_hi tw_lo]. intros [Hh Hl] [Hh' Hl']. unfold checked_sub, wrap.
  destruct (Z.leb_spec h' h); cbn [mbind option_bind]; [|lia].
  destruct (Z.ltb_spec l l'); cbn [Z.b2z]; match goal with |- context [?a <=? ?w] => destruct (Z.leb_spec a w) end;
    cbn [mbind option_bind tw_hi tw_lo]; try lia.
  - assert (E : (l - l') mod U128 = l - l' + U128) by (symmetry; apply (Z.mod_unique _ _ (-1)); lia).
    rewrite E. lia.
  - rewrite Z.mod_small by lia. lia.
Qed.

Lemma from_low_val a : is_u128 a -> tw_ok (from_low a) /\ tw_val (from_low a) = a.
Proof. intros. unfold tw_ok, tw_val, from_low. simpl. lia. Qed.

Lemma checked_add_product_spec x o n :
  tw_ok x -> is_u64 o -> is_u64 n ->
  match checked_add_product x o n with
  | Some z => tw_ok z /\ tw_val z = tw_val x + o * n
  | None => U256_MAX1 <= tw_val x + o * n
  end.
Proof.
  intros Hx Ho Hn. unfold checked_add_product, checked_mul.
  assert (o * n < U128) by (change U128 with (U64 * U64); nia).
  rewrite (proj2 (Z.ltb_lt (o * n) U128)) by done. cbn [mbind option_bind].
  destruct (from_low_val (o * n)) as [Hok Hv]; [nia|].
  pose proof (tw_checked_add_spec x _ Hx Hok) as H'. rewrite Hv in H'. exact H'.
Qed.

(** ** Long division *)

Lemma to_u64_Some a : a < U64 -> to_u64 a = Some a.
Proof. intros. unfold to_u64. by rewrite (proj2 (Z.ltb_lt _ _)). Qed.

(** [hi << 64 | lo]. *)
Lemma join_words a b : is_u64 a -> is_u64 b -> Z.lor (shl a 64) b = a * U64 + b.
Proof.
  intros Ha Hb. unfold shl. rewrite Z.shiftl_mul_pow2 by lia. change (2 ^ 64) with U64.
  assert (a * U64 < U128) by (change U128 with (U64 * U64); nia).
  rewrite wrap_small by lia.
  rewrite <- Z.lxor_lor, <- Z.add_nocarry_lxor; [done|..];
    apply Z.bits_inj'; intros n Hn; rewrite Z.land_spec, Z.bits_0;
    change (a * U64) with (a * 2 ^ 64); rewrite <- Z.shiftl_mul_pow2, Z.shiftl_spec by lia;
    (destruct (Z.ltb_spec n 64); [rewrite Z.testbit_neg_r by lia; done|]);
    rewrite (Z.bits_above_log2 b n), andb_false_r; (done || lia || idtac);
    (destruct (Z.eq_dec b 0) as [->|]; [simpl; lia|]; apply (Z.lt_le_trans _ 64); [|lia];
     apply (Z.log2_lt_pow2 b 64); lia).
Qed.

Lemma divide_word_spec r w d :
  0 <= r < d -> is_u64 w -> d < U64 ->
  divide_word r w d = Some ((r * U64 + w) / d, (r * U64 + w) mod d).
Proof.
  intros Hr Hw Hd. unfold divide_word, checked_div, checked_rem. rewrite join_words by lia.
  rewrite (proj2 (Z.eqb_neq d 0)) by lia. cbn [mbind option_bind].
  assert ((r * U64 + w) / d < U64) by (apply Z.div_lt_upper_bound; nia).
  pose proof (Z.mod_pos_bound (r * U64 + w) d ltac:(lia)).
  by rewrite !to_u64_Some by lia.
Qed.

(** One step of the school method: bring down the next word. *)
Lemma long_step n w d :
  0 < d -> 0 <= n -> 0 <= w ->
  (n * U64 + w) / d = n / d * U64 + (n mod d * U64 + w) / d /\ (n * U64 + w) mod d = (n mod d * U64 + w) mod d.
Proof.
  intros Hd Hn Hw.
  assert (E : n * U64 + w = n mod d * U64 + w + n / d * U64 * d) by (pose proof (Z.div_mod n d ltac:(lia)); nia).
  rewrite E, Z.div_add, Z.mod_add by lia. split; [lia|done].
Qed.

Lemma checked_div_by_blocks_spec x d :
  tw_ok x -> 0 < d < U64 ->
  exists q, checked_div_by_blocks x d = Some q /\ tw_ok q /\ tw_val q = tw_val x / d.
Proof.
  intros [Hh Hl] Hd. unfold checked_div_by_blocks. rewrite (proj2 (Z.eqb_neq d 0)) by lia.
  unfold shr. rewrite !Z.shiftr_div_pow2 by lia. change (2 ^ 64 - 1) with (Z.ones 64).
  rewrite !Z.land_ones by lia. change (2 ^ 64) with U64.
  pose proof (Z.div_mod (tw_hi x) U64 ltac:(lia)) as Eh. pose proof (Z.div_mod (tw_lo x) U64 ltac:(lia)) as El.
  pose proof (Z.mod_pos_bound (tw_hi x) U64 ltac:(lia)) as Bh. pose proof (Z.mod_pos_bound (tw_lo x) U64 ltac:(lia)) as Bl.
  assert (Bhh : is_u64 (tw_hi x / U64)) by lia. assert (Bll : is_u64 (tw_lo x / U64)) by lia.
  rewrite !to_u64_Some by lia. cbn [mbind option_bind].
  unfold tw_val. assert (EV : tw_hi x * U128 + tw_lo x = (U64 * (tw_hi x / U64) + tw_hi x mod U64) * U128
    + (U64 * (tw_lo x / U64) + tw_lo x mod U64)) by (rewrite <- Eh, <- El; done). rewrite EV. clear EV.
  set (a := tw_hi x / U64) in *. set (b := tw_hi x mod U64) in *. set (c := tw_lo x / U64) in *.
  set (e := tw_lo x mod U64) in *. clearbody a b c e. clear Eh El Hh Hl x.
  replace ((U64 * a + b) * U128 + (U64 * c + e)) with (((a * U64 + b) * U64 + c) * U64 + e)
    by (change U128 with (U64 * U64); ring).
  rewrite divide_word_spec by lia. cbn [mbind option_bind]. rewrite Z.mul_0_l, Z.add_0_l.
  pose proof (Z.mod_pos_bound a d ltac:(lia)). rewrite divide_word_spec by lia. cbn [mbind option_bind].
  destruct (long_step a b d ltac:(lia) ltac:(lia) ltac:(lia)) as [Q1 M1]. rewrite <- M1.
  pose proof (Z.mod_pos_bound (a * U64 + b) d ltac:(lia)). rewrite divide_word_spec by lia. cbn [mbind option_bind].
  destruct (long_step (a * U64 + b) c d ltac:(lia) ltac:(lia) ltac:(lia)) as [Q2 M2]. rewrite <- M2.
  pose proof (Z.mod_pos_bound ((a * U64 + b) * U64 + c) d ltac:(lia)). rewrite divide_word_spec by lia. cbn [mbind option_bind].
  destruct (long_step ((a * U64 + b) * U64 + c) e d ltac:(lia) ltac:(lia) ltac:(lia)) as [Q3 _].
  rewrite Q3, Q2, Q1.
  assert (HQ : forall r w, 0 <= r < d -> is_u64 w -> is_u64 ((r * U64 + w) / d)).
  { intros r w Hr Hw. split; [apply Z.div_pos; lia|apply Z.div_lt_upper_bound; nia]. }
  assert (is_u64 (a / d)) by (split; [apply Z.div_pos; lia|apply Z.div_lt_upper_bound; nia]).
  pose proof (HQ (a mod d) b ltac:(lia) ltac:(lia)). pose proof (HQ ((a * U64 + b) mod d) c ltac:(lia) ltac:(lia)).
  pose proof (HQ (((a * U64 + b) * U64 + c) mod d) e ltac:(lia) ltac:(lia)).
  eexists. split; [done|]. unfold tw_ok. simpl. rewrite !join_words by done.
  change U128 with (U64 * U64). split; [nia|]. nia.
Qed.

Lemma try_into_u64_spec x : tw_ok x -> try_into_u64 x = if tw_val x <? U64 then Some (tw_val x) else None.
Proof.
  destruct x as [h l]. unfold tw_ok, tw_val, try_into_u64, to_u64. simpl. intros [Hh Hl].
  destruct (Z.eqb_spec h 0) as [->|]; simpl; [done|].
  by rewrite (proj2 (Z.ltb_ge (h * U128 + l) U64)) by lia.
Qed.

(** The read: exactly the floored mean, whenever it fits. *)
Lemma twap_between_spec x y n :
  tw_ok x -> tw_ok y -> 0 < n < U64 -> tw_val x <= tw_val y ->
  twap_between x y n =
    (let mean := (tw_val y - tw_val x) / n in if mean <? U64 then Some mean else None).
Proof.
  intros Hx Hy Hn Hle. unfold twap_between.
  pose proof (tw_checked_sub_spec y x Hy Hx) as Hs. destruct (tw_checked_sub y x) as [dd|]; [|lia].
  destruct Hs as [Hd Hv]. cbn [mbind option_bind].
  destruct (checked_div_by_blocks_spec dd n Hd Hn) as (q & -> & Hq & Hqv). cbn [mbind option_bind].
  by rewrite try_into_u64_spec, Hqv, Hv by done.
Qed.
