(* ===== verification/Market.v ===== *)
(** * The LMSR market (crates/market-core)

    Books, quotes, trades, seeding and observations.  A trade works on the
    book and on a ledger it only knows through [LedgerOps]; both survive a
    failing step as the code left them, and [MarketState] restores them.
    Constructors shared with the ledger's types carry the prefix [Err] or
    [Mk]. *)

From S2P Require Import Prelude Keyed Primitives Ledger U256 FixedPoint Twap.

Definition FEE_BPS : Z := 30.
Definition BPS_DENOM : Z := 10000.
Definition MIN_TRADE : Balance := MIN_TRADE_USDC.
Definition OBS_INTERVAL : Z := 10.
Definition STALE_GAP_BLOCKS : Z := MKT_STALE_GAP_BLOCKS.
Definition KAPPA_1E9 : Z := 5000000.
Definition PRICE_ONE_1E9 : Z := 1000000000.

Record MarketParams : Type := {
  mp_fee_bps : Z;
  mp_obs_interval : Z;
  mp_kappa_1e9 : Z;
  mp_stale_gap_blocks : Z;
}.

Definition MarketParams_default : MarketParams :=
  {| mp_fee_bps := FEE_BPS; mp_obs_interval := OBS_INTERVAL;
     mp_kappa_1e9 := KAPPA_1E9; mp_stale_gap_blocks := STALE_GAP_BLOCKS |}.

(** ** The ledger as the market sees it *)

Class LedgerOps (A L : Type) : Type := {
  lo_do_split : ProposalId -> A -> Balance -> ST L unit unit;
  lo_do_transfer : PositionId -> A -> A -> Balance -> ST L unit unit;
  lo_do_split_scalar : ProposalId -> Branch -> A -> Balance -> ST L unit unit;
  lo_do_split_gate : ProposalId -> Branch -> GateType -> A -> Balance -> ST L unit unit;
  lo_do_split_baseline : EpochId -> A -> Balance -> ST L unit unit;
  lo_do_merge : ProposalId -> A -> Balance -> ST L unit unit;
  lo_do_merge_scalar : ProposalId -> Branch -> A -> Balance -> ST L unit unit;
  lo_do_merge_gate : ProposalId -> Branch -> GateType -> A -> Balance -> ST L unit unit;
  lo_do_merge_baseline : EpochId -> A -> Balance -> ST L unit unit;
  lo_note_protocol_account : A -> L -> L;
  lo_position_balance : PositionId -> A -> L -> Balance;
}.

(** [.map_err(f)] after a method call. *)
Definition st_map_err {S E F R} (f : E -> F) (m : ST S E R) : ST S F R :=
  fun s => let (r, s') := m s in (map_err f r, s').

#[export] Instance LedgerState_ops {A} `{EqDecision A} : LedgerOps A (LedgerState A) := {
  lo_do_split pid who a := st_map_err (fun _ => tt) (do_split pid who a);
  lo_do_transfer id from to a := st_map_err (fun _ => tt) (do_transfer id from to a);
  lo_do_split_scalar pid b who a := st_map_err (fun _ => tt) (do_split_scalar pid b who a);
  lo_do_split_gate pid b g who a := st_map_err (fun _ => tt) (do_split_gate pid b g who a);
  lo_do_split_baseline e who a := st_map_err (fun _ => tt) (do_split_baseline e who a);
  lo_do_merge pid who a := st_map_err (fun _ => tt) (do_merge pid who a);
  lo_do_merge_scalar pid b who a := st_map_err (fun _ => tt) (do_merge_scalar pid b who a);
  lo_do_merge_gate pid b g who a := st_map_err (fun _ => tt) (do_merge_gate pid b g who a);
  lo_do_merge_baseline e who a := st_map_err (fun _ => tt) (do_merge_baseline e who a);
  lo_note_protocol_account who l := (add_protocol_account who l).2;
  lo_position_balance id who l := position_balance_of id who l;
}.

(** ** Data *)

Inductive BookKind : Type :=
| Decision (proposal : ProposalId) (branch : Branch)
| Gate (proposal : ProposalId) (branch : Branch) (gate : GateType)
| Baseline (epoch : EpochId).

Inductive MarketPhase : Type :=
| Trading
| Extended
| Closed
| Settled.

Inductive MarketError : Type :=
| ErrUnknownMarket
| ErrDuplicateMarket
| ErrDuplicateBaselineMarket
| ErrBadOrigin
| ErrNotTrading
| ErrAmountTooSmall
| ErrAmountTooLarge
| ErrSlippageExceeded
| ErrPriceBoundExceeded
| ErrArithmeticOverflow
| ErrLedger
| ErrTryStateViolation.

Record MarketBook (A : Type) : Type := {
  mb_id : MarketId;
  mb_kind : BookKind;
  mb_phase : MarketPhase;
  mb_account : A;
  mb_fees_account : A;
  mb_b : Balance;
  mb_q_long : Balance;
  mb_q_short : Balance;
  mb_fees_accrued : Balance;
  mb_last_quote_1e9 : FixedU64;
  mb_last_observation_1e9 : FixedU64;
  mb_last_observed_block : Z;
  mb_cumulative_price_blocks : TwapCumulative;
  mb_stale_events : Z;
}.
Arguments mb_id {A}.
Arguments mb_kind {A}.
Arguments mb_phase {A}.
Arguments mb_account {A}.
Arguments mb_fees_account {A}.
Arguments mb_b {A}.
Arguments mb_q_long {A}.
Arguments mb_q_short {A}.
Arguments mb_fees_accrued {A}.
Arguments mb_last_quote_1e9 {A}.
Arguments mb_last_observation_1e9 {A}.
Arguments mb_last_observed_block {A}.
Arguments mb_cumulative_price_blocks {A}.
Arguments mb_stale_events {A}.

(** [MarketBook::open] *)
Definition MarketBook_open {A} (id : MarketId) (kind : BookKind) (account fees_account : A) (b : Balance)
    : MarketBook A :=
  {| mb_id := id; mb_kind := kind; mb_phase := Trading; mb_account := account;
     mb_fees_account := fees_account; mb_b := b; mb_q_long := 0; mb_q_short := 0;
     mb_fees_accrued := 0; mb_last_quote_1e9 := 500000000; mb_last_observation_1e9 := 500000000;
     mb_last_observed_block := 0; mb_cumulative_price_blocks := TWAP_ZERO; mb_stale_events := 0 |}.

Inductive MarketEvent (A : Type) : Type :=
| MkMarketCreated (id : MarketId)
| MkBaselineMarketMapped (epoch : EpochId) (id : MarketId)
| MkSeeded (id : MarketId) (headroom : Balance)
| MkTraded (market : MarketId) (who : A) (side : TradeSide) (amount cost : Balance) (p_after : FixedU64)
| MkObserved (market : MarketId) (o_t : FixedU64)
| MkClosed (id : MarketId)
| MkReaped (id : MarketId).
Arguments MkMarketCreated {A}.
Arguments MkBaselineMarketMapped {A}.
Arguments MkSeeded {A}.
Arguments MkTraded {A}.
Arguments MkObserved {A}.
Arguments MkClosed {A}.
Arguments MkReaped {A}.

Record MarketState (A : Type) : Type := {
  ms_markets : list (MarketBook A);
  ms_baseline_market_of : list (EpochId * MarketId);
  ms_events : list (MarketEvent A);
}.
Arguments ms_markets {A}.
Arguments ms_baseline_market_of {A}.
Arguments ms_events {A}.

Definition MarketState_new {A} : MarketState A :=
  {| ms_markets := []; ms_baseline_market_of := []; ms_events := [] |}.

(** ** Arithmetic helpers *)

Definition map_fixed (e : FixedError) : MarketError :=
  match e with
  | Domain => ErrPriceBoundExceeded
  | Overflow | DivisionByZero | NonFinite => ErrArithmeticOverflow
  end.

Definition m_add (a b : Balance) : Result MarketError Balance :=
  ok_or ErrArithmeticOverflow (checked_add U128 a b).
Definition m_sub (a b : Balance) : Result MarketError Balance :=
  ok_or ErrArithmeticOverflow (checked_sub a b).

(** Base units (1e-6) to fixed point. *)
Definition fx (v : Balance) : Result MarketError FixedU64x64 :=
  let units := v / 1000000 in
  let? units := ok_or ErrArithmeticOverflow (to_u64 units) in
  map_err map_fixed (fx_add (from_integer units) (from_raw (shl (v mod 1000000) 64 / 1000000))).

Definition fixed_to_base_units_up (v : FixedU64x64) : Result MarketError Balance :=
  let? scaled := map_err map_fixed (fx_mul v (from_integer 1000000)) in
  Ok (round_charge_up scaled).

Definition fixed_to_base_units_down (v : FixedU64x64) : Result MarketError Balance :=
  let? scaled := map_err map_fixed (fx_mul v (from_integer 1000000)) in
  Ok (round_payout_down scaled).

Definition fee_up (cost fee_bps : Z) : Result MarketError Balance :=
  let? v := ok_or ErrArithmeticOverflow (checked_mul U128 cost fee_bps) in
  Ok (v / BPS_DENOM + Z.b2z (negb (v mod BPS_DENOM =? 0))).

Definition price_1e9_quantities (q_long q_short b : Balance) : Result MarketError FixedU64 :=
  let? ql := fx q_long in
  let? qs := fx q_short in
  let? fb := fx b in
  let? p := map_err map_fixed (lmsr_price_long ql qs fb) in
  let? x := ok_or ErrArithmeticOverflow (checked_mul U128 p PRICE_ONE_1E9) in
  Ok (wrap U64 (shr x 64)).

Definition price_1e9 {A} (m : MarketBook A) : Result MarketError FixedU64 :=
  price_1e9_quantities (mb_q_long m) (mb_q_short m) (mb_b m).

Definition quantities_within_domain (q_long q_short b : Balance) : bool :=
  if b =? 0 then false
  else
    let diff := Z.abs (q_long - q_short) in
    let bound := LMSR_DOMAIN_BOUND in
    let quotient := diff / b in
    (quotient <? bound) || ((quotient =? bound) && (diff mod b =? 0)).

Definition ensure_trade_phase (p : MarketPhase) : Result MarketError unit :=
  ensure (match p with Trading | Extended => true | _ => false end) ErrNotTrading.

Definition max_trade_amount (b : Balance) : Balance :=
  let (numerator, denominator) := MAX_TRADE_RATIO in
  match checked_mul U128 b numerator with
  | None => 0
  | Some scaled =>
      match checked_div scaled denominator with
      | None => 0
      | Some value => value
      end
  end.

Definition ensure_trade_bounds (b a : Balance) : Result MarketError unit :=
  do? ensure (MIN_TRADE <=? a) ErrAmountTooSmall in
  ensure (a <=? max_trade_amount b) ErrAmountTooLarge.

Definition lside (s : ScalarSide) : LmsrSide :=
  match s with SideLong => LmsrLong | SideShort => LmsrShort end.
Definition scalar_kind (s : ScalarSide) : PositionKind :=
  match s with SideLong => Long | SideShort => Short end.
Definition gate_kind (g : GateType) (s : ScalarSide) : PositionKind :=
  match s with SideLong => GateYes g | SideShort => GateNo g end.
Definition other (b : Branch) : Branch :=
  match b with Accept => Reject | Reject => Accept end.

(** ** Depth and loss measures *)

(** [.ok()] *)
Definition ok {E R} (r : Result E R) : option R := match r with Ok a => Some a | Err _ => None end.

Definition maker_loss_floor (b : Balance) : option Balance :=
  v ← ok (fx b);
  l ← ok (fx_mul v LN_2);
  ok (fixed_to_base_units_down l).

Definition contest_capital (q_long q_short : Balance) (quote_1e9 : FixedU64) : option Balance :=
  let p_long := Z.min quote_1e9 PRICE_ONE_1E9 in
  let p_short := PRICE_ONE_1E9 - p_long in
  x ← checked_mul U128 q_long p_long;
  y ← checked_mul U128 q_short p_short;
  marked ← checked_add U128 x y;
  Some (marked / PRICE_ONE_1E9).

Definition liquidity_hat (pol_depth pair_contest_capital : Balance) (flow_cap_1e9 : Z) (b_sum : Balance)
    : option Balance :=
  x ← checked_mul U128 b_sum flow_cap_1e9;
  ceiling ← checked_div x PRICE_ONE_1E9;
  checked_add U128 pol_depth (Z.min pair_contest_capital ceiling).

Definition seed_headroom (b : Balance) : Result MarketError Balance :=
  let? v := fx b in
  let? l := map_err map_fixed (fx_mul v LN_2) in
  fixed_to_base_units_up l.

Definition maker_loss_at_state (b q_long q_short : Balance) : Result MarketError Balance :=
  let? fb := fx b in
  let? initial := map_err map_fixed (lmsr_cost 0 0 fb) in
  let? ql := fx q_long in
  let? qs := fx q_short in
  let? fb := fx b in
  let? current := map_err map_fixed (lmsr_cost ql qs fb) in
  let? premium := map_err map_fixed (fx_sub current initial) in
  let? premium_held := fixed_to_base_units_up premium in
  let loss := default 0 (checked_sub (Z.max q_long q_short) premium_held) in
  let? headroom := seed_headroom b in
  if headroom <? loss then Err ErrTryStateViolation else Ok loss.

(** ** The slew clamp *)

Definition mul_1e9 (a b : Z) : Z := Z.min (a * b / PRICE_ONE_1E9) (U64 - 1).

(** [u128::div_ceil] *)
Definition div_ceil (a b : Z) : Z := (a + (b - 1)) / b.

Definition mul_1e9_up (a b : Z) : Z := Z.min (div_ceil (a * b) PRICE_ONE_1E9) (U64 - 1).

Definition POW_CAP : Z := PRICE_ONE_1E9 * PRICE_ONE_1E9.

(** The loop of both powers; 64 turns shift a [u64] exponent to zero. *)
Fixpoint pow_loop (mul : Z -> Z -> Z) (fuel : nat) (exp result factor : Z) : Z :=
  match fuel with
  | O => result
  | S fuel =>
      if 0 <? exp then
        let result := if Z.land exp 1 =? 1 then Z.min (mul result factor) POW_CAP else result in
        let exp := Z.shiftr exp 1 in
        let factor := if 0 <? exp then Z.min (mul factor factor) POW_CAP else factor in
        pow_loop mul fuel exp result factor
      else result
  end.

Definition pow_1e9 (base exp : Z) : Z := pow_loop mul_1e9 64 exp PRICE_ONE_1E9 (Z.min base POW_CAP).
Definition pow_1e9_up (base exp : Z) : Z := pow_loop mul_1e9_up 64 exp PRICE_ONE_1E9 (Z.min base POW_CAP).

(** [Ord::clamp]; Rust panics unless [lo <= hi], see [observation_bounds_ordered]. *)
Definition clamp (x lo hi : Z) : Z := if x <? lo then lo else if hi <? x then hi else x.

(** The bounds between which the next observation is clamped. *)
Definition slew_low (old kappa intervals : Z) : Z :=
  mul_1e9_up old (pow_1e9_up (PRICE_ONE_1E9 - kappa) intervals).
Definition slew_high (old kappa intervals : Z) : Z :=
  mul_1e9 old (pow_1e9 (PRICE_ONE_1E9 + kappa) intervals).

Section books.
Context {A : Type}.

Implicit Types (m : MarketBook A).

(** The writes of [observe_book], in the order of the code: the stale counter
    is written before the integral is known to fit. *)
Definition set_stale_events (n : Z) m : MarketBook A :=
  {| mb_id := mb_id m; mb_kind := mb_kind m; mb_phase := mb_phase m; mb_account := mb_account m;
     mb_fees_account := mb_fees_account m; mb_b := mb_b m; mb_q_long := mb_q_long m;
     mb_q_short := mb_q_short m; mb_fees_accrued := mb_fees_accrued m;
     mb_last_quote_1e9 := mb_last_quote_1e9 m; mb_last_observation_1e9 := mb_last_observation_1e9 m;
     mb_last_observed_block := mb_last_observed_block m;
     mb_cumulative_price_blocks := mb_cumulative_price_blocks m; mb_stale_events := n |}.

Definition set_observation (cumulative : TwapCumulative) (observation block : Z) m : MarketBook A :=
  {| mb_id := mb_id m; mb_kind := mb_kind m; mb_phase := mb_phase m; mb_account := mb_account m;
     mb_fees_account := mb_fees_account m; mb_b := mb_b m; mb_q_long := mb_q_long m;
     mb_q_short := mb_q_short m; mb_fees_accrued := mb_fees_accrued m;
     mb_last_quote_1e9 := mb_last_quote_1e9 m; mb_last_observation_1e9 := observation;
     mb_last_observed_block := block; mb_cumulative_price_blocks := cumulative;
     mb_stale_events := mb_stale_events m |}.

Definition set_quantities (q_long q_short : Balance) m : MarketBook A :=
  {| mb_id := mb_id m; mb_kind := mb_kind m; mb_phase := mb_phase m; mb_account := mb_account m;
     mb_fees_account := mb_fees_account m; mb_b := mb_b m; mb_q_long := q_long;
     mb_q_short := q_short; mb_fees_accrued := mb_fees_accrued m;
     mb_last_quote_1e9 := mb_last_quote_1e9 m; mb_last_observation_1e9 := mb_last_observation_1e9 m;
     mb_last_observed_block := mb_last_observed_block m;
     mb_cumulative_price_blocks := mb_cumulative_price_blocks m; mb_stale_events := mb_stale_events m |}.

Definition set_fees_accrued (f : Balance) m : MarketBook A :=
  {| mb_id := mb_id m; mb_kind := mb_kind m; mb_phase := mb_phase m; mb_account := mb_account m;
     mb_fees_account := mb_fees_account m; mb_b := mb_b m; mb_q_long := mb_q_long m;
     mb_q_short := mb_q_short m; mb_fees_accrued := f;
     mb_last_quote_1e9 := mb_last_quote_1e9 m; mb_last_observation_1e9 := mb_last_observation_1e9 m;
     mb_last_observed_block := mb_last_observed_block m;
     mb_cumulative_price_blocks := mb_cumulative_price_blocks m; mb_stale_events := mb_stale_events m |}.

Definition set_last_quote (p : FixedU64) m : MarketBook A :=
  {| mb_id := mb_id m; mb_kind := mb_kind m; mb_phase := mb_phase m; mb_account := mb_account m;
     mb_fees_account := mb_fees_account m; mb_b := mb_b m; mb_q_long := mb_q_long m;
     mb_q_short := mb_q_short m; mb_fees_accrued := mb_fees_accrued m;
     mb_last_quote_1e9 := p; mb_last_observation_1e9 := mb_last_observation_1e9 m;
     mb_last_observed_block := mb_last_observed_block m;
     mb_cumulative_price_blocks := mb_cumulative_price_blocks m; mb_stale_events := mb_stale_events m |}.

Definition set_phase (p : MarketPhase) m : MarketBook A :=
  {| mb_id := mb_id m; mb_kind := mb_kind m; mb_phase := p; mb_account := mb_account m;
     mb_fees_account := mb_fees_account m; mb_b := mb_b m; mb_q_long := mb_q_long m;
     mb_q_short := mb_q_short m; mb_fees_accrued := mb_fees_accrued m;
     mb_last_quote_1e9 := mb_last_quote_1e9 m; mb_last_observation_1e9 := mb_last_observation_1e9 m;
     mb_last_observed_block := mb_last_observed_block m;
     mb_cumulative_price_blocks := mb_cumulative_price_blocks m; mb_stale_events := mb_stale_events m |}.

Definition observe_book (params : MarketParams) (block : Z)
    : ST (MarketBook A) MarketError (option (MarketEvent A)) :=
  do! lift (ensure (0 <? mp_obs_interval params) ErrArithmeticOverflow) in
  do! lift (ensure (mp_kappa_1e9 params <=? PRICE_ONE_1E9) ErrArithmeticOverflow) in
  let! m := get in
  if block <? sat_add U64 (mb_last_observed_block m) (mp_obs_interval params) then ret None
  else
    let elapsed := sat_sub block (mb_last_observed_block m) in
    do! (if mp_stale_gap_blocks params <? elapsed
         then modify (set_stale_events (sat_add U8 (mb_stale_events m) 1))
         else ret tt) in
    let prev := mb_last_quote_1e9 m in
    let old := mb_last_observation_1e9 m in
    let intervals := Z.max (elapsed / mp_obs_interval params) 1 in
    let low := slew_low old (mp_kappa_1e9 params) intervals in
    do! lift (ok_or ErrArithmeticOverflow (checked_add U64 PRICE_ONE_1E9 (mp_kappa_1e9 params))) in
    let high := slew_high old (mp_kappa_1e9 params) intervals in
    let capped := clamp prev low high in
    let! c := lift (ok_or ErrArithmeticOverflow
                      (checked_add_product (mb_cumulative_price_blocks m) capped elapsed)) in
    do! modify (set_observation c capped block) in
    ret (Some (MkObserved (mb_id m) capped)).

(** ** Quotes *)

Definition quote (m : MarketBook A) (side : TradeSide) (amount : Balance) (fee_bps : Z)
    : Result MarketError QuoteView :=
  do? ensure_trade_phase (mb_phase m) in
  let? post :=
    match side with
    | BuyLong =>
        let? post_long := m_add (mb_q_long m) amount in
        let? ql := fx (mb_q_long m) in
        let? qs := fx (mb_q_short m) in
        let? fb := fx (mb_b m) in
        let? fa := fx amount in
        let? cost := map_err map_fixed (lmsr_buy_cost ql qs fb LmsrLong fa) in
        let? c := fixed_to_base_units_up cost in
        Ok (post_long, mb_q_short m, c)
    | BuyShort =>
        let? post_short := m_add (mb_q_short m) amount in
        let? ql := fx (mb_q_long m) in
        let? qs := fx (mb_q_short m) in
        let? fb := fx (mb_b m) in
        let? fa := fx amount in
        let? cost := map_err map_fixed (lmsr_buy_cost ql qs fb LmsrShort fa) in
        let? c := fixed_to_base_units_up cost in
        Ok (mb_q_long m, post_short, c)
    | SellLong =>
        let? post_long := m_sub (mb_q_long m) amount in
        let? ql := fx (mb_q_long m) in
        let? qs := fx (mb_q_short m) in
        let? fb := fx (mb_b m) in
        let? fa := fx amount in
        let? proceeds := map_err map_fixed (lmsr_sell_proceeds ql qs fb LmsrLong fa) in
        let? c := fixed_to_base_units_down proceeds in
        Ok (post_long, mb_q_short m, c)
    | SellShort =>
        let? post_short := m_sub (mb_q_short m) amount in
        let? ql := fx (mb_q_long m) in
        let? qs := fx (mb_q_short m) in
        let? fb := fx (mb_b m) in
        let? fa := fx amount in
        let? proceeds := map_err map_fixed (lmsr_sell_proceeds ql qs fb LmsrShort fa) in
        let? c := fixed_to_base_units_down proceeds in
        Ok (mb_q_long m, post_short, c)
    end in
  let '(post_long, post_short, cost) := post in
  let? p_after_1e9 := price_1e9_quantities post_long post_short (mb_b m) in
  let max_trade := max_trade_amount (mb_b m) in
  let within_domain := quantities_within_domain post_long post_short (mb_b m) in
  let? fee := fee_up cost fee_bps in
  Ok {| qv_cost := cost; qv_fee := fee; qv_p_after_1e9 := p_after_1e9;
        qv_max_trade := max_trade; qv_within_domain := within_domain; qv_evaluable := true |}.
End books.

(** ** The ledger moves of a trade *)

Section flows.
Context {A L : Type} `{LedgerOps A L}.

(** [.map_err(|_| Error::Ledger)?] *)
Definition ledger_call {R} (m : ST L unit R) : ST L MarketError R := st_map_err (fun _ => ErrLedger) m.

Definition buy_branch (pid : ProposalId) (branch : Branch) (side : ScalarSide) (who book fees : A)
    (amount cost fee : Balance) : ST L MarketError unit :=
  let! total := lift (m_add cost fee) in
  do! ledger_call (lo_do_split pid who total) in
  let mirror := other branch in
  do! ledger_call (lo_do_transfer (position pid branch BranchUsdc) who book cost) in
  do! (if 0 <? fee then
         do! ledger_call (lo_do_transfer (position pid branch BranchUsdc) who fees fee) in
         ledger_call (lo_do_transfer (position pid mirror BranchUsdc) who fees fee)
       else ret tt) in
  do! ledger_call (lo_do_split_scalar pid branch book cost) in
  ledger_call (lo_do_transfer (position pid branch (scalar_kind side)) book who amount).

Definition buy_gate (pid : ProposalId) (branch : Branch) (gate : GateType) (side : ScalarSide)
    (who book fees : A) (amount cost fee : Balance) : ST L MarketError unit :=
  let! total := lift (m_add cost fee) in
  do! ledger_call (lo_do_split pid who total) in
  let mirror := other branch in
  do! ledger_call (lo_do_transfer (position pid branch BranchUsdc) who book cost) in
  do! (if 0 <? fee then
         do! ledger_call (lo_do_transfer (position pid branch BranchUsdc) who fees fee) in
         ledger_call (lo_do_transfer (position pid mirror BranchUsdc) who fees fee)
       else ret tt) in
  do! ledger_call (lo_do_split_gate pid branch gate book cost) in
  ledger_call (lo_do_transfer (position pid branch (gate_kind gate side)) book who amount).

Definition buy_baseline (epoch : EpochId) (side : ScalarSide) (who book : A) (amount total : Balance)
    : ST L MarketError unit :=
  do! ledger_call (lo_do_split_baseline epoch who total) in
  do! ledger_call (lo_do_transfer (baseline epoch SideLong) who book total) in
  do! ledger_call (lo_do_transfer (baseline epoch SideShort) who book total) in
  ledger_call (lo_do_transfer (baseline epoch side) book who amount).

Definition merge_net_with_mirror (pid : ProposalId) (branch : Branch) (who : A) (net : Balance)
    : ST L MarketError unit :=
  let mirror := other branch in
  let! mirror_balance := gets (lo_position_balance (position pid mirror BranchUsdc) who) in
  let merge_amount := Z.min net mirror_balance in
  if 0 <? merge_amount then ledger_call (lo_do_merge pid who merge_amount) else ret tt.

Definition sell_branch (pid : ProposalId) (branch : Branch) (side : ScalarSide) (who book fees : A)
    (amount net fee : Balance) : ST L MarketError unit :=
  do! ledger_call (lo_do_transfer (position pid branch (scalar_kind side)) who book amount) in
  let! payout := lift (m_add net fee) in
  do! (if 0 <? payout then ledger_call (lo_do_merge_scalar pid branch book payout) else ret tt) in
  do! (if 0 <? fee
       then ledger_call (lo_do_transfer (position pid branch BranchUsdc) book fees fee) else ret tt) in
  do! (if 0 <? net
       then ledger_call (lo_do_transfer (position pid branch BranchUsdc) book who net) else ret tt) in
  merge_net_with_mirror pid branch who net.

Definition sell_gate (pid : ProposalId) (branch : Branch) (gate : GateType) (side : ScalarSide)
    (who book fees : A) (amount net fee : Balance) : ST L MarketError unit :=
  do! ledger_call (lo_do_transfer (position pid branch (gate_kind gate side)) who book amount) in
  let! payout := lift (m_add net fee) in
  do! (if 0 <? payout then ledger_call (lo_do_merge_gate pid branch gate book payout) else ret tt) in
  do! (if 0 <? fee
       then ledger_call (lo_do_transfer (position pid branch BranchUsdc) book fees fee) else ret tt) in
  do! (if 0 <? net
       then ledger_call (lo_do_transfer (position pid branch BranchUsdc) book who net) else ret tt) in
  merge_net_with_mirror pid branch who net.

Definition sell_baseline (epoch : EpochId) (side : ScalarSide) (who book : A) (amount net fee : Balance)
    : ST L MarketError unit :=
  do! ledger_call (lo_do_transfer (baseline epoch side) who book amount) in
  let! payout := lift (m_add net fee) in
  do! (if 0 <? payout then ledger_call (lo_do_merge_baseline epoch book payout) else ret tt) in
  if 0 <? net then
    do! ledger_call (lo_do_split_baseline epoch book net) in
    do! ledger_call (lo_do_transfer (baseline epoch SideLong) book who net) in
    ledger_call (lo_do_transfer (baseline epoch SideShort) book who net)
  else ret tt.

(** [ledger.note_protocol_account(..)] *)
Definition note_account (who : A) : ST L MarketError unit := modify (lo_note_protocol_account who).

Definition seed_book (m : MarketBook A) (treasury : A) : ST L MarketError Balance :=
  let! headroom := lift (seed_headroom (mb_b m)) in
  do! note_account (mb_account m) in
  do! note_account (mb_fees_account m) in
  do! (match mb_kind m with
       | Decision proposal branch =>
           do! ledger_call (lo_do_split proposal treasury headroom) in
           do! ledger_call (lo_do_transfer (position proposal branch BranchUsdc) treasury (mb_account m) headroom) in
           ledger_call (lo_do_split_scalar proposal branch (mb_account m) headroom)
       | Gate proposal branch gate =>
           do! ledger_call (lo_do_split proposal treasury headroom) in
           do! ledger_call (lo_do_transfer (position proposal branch BranchUsdc) treasury (mb_account m) headroom) in
           ledger_call (lo_do_split_gate proposal branch gate (mb_account m) headroom)
       | Baseline epoch =>
           do! ledger_call (lo_do_split_baseline epoch treasury headroom) in
           do! ledger_call (lo_do_transfer (baseline epoch SideLong) treasury (mb_account m) headroom) in
           ledger_call (lo_do_transfer (baseline epoch SideShort) treasury (mb_account m) headroom)
       end) in
  ret headroom.

(** The proposal and gate of an Accept/Reject pair of books. *)
Definition branch_pair (accept reject : BookKind) : Result MarketError (ProposalId * option GateType) :=
  match accept, reject with
  | Decision left_pid Accept, Decision right_pid Reject =>
      if left_pid =? right_pid then Ok (left_pid, None) else Err ErrTryStateViolation
  | Gate left_pid Accept left_gate, Gate right_pid Reject right_gate =>
      if (left_pid =? right_pid) && bool_decide (left_gate = right_gate)
      then Ok (left_pid, Some left_gate) else Err ErrTryStateViolation
  | _, _ => Err ErrTryStateViolation
  end.

Definition seed_branch_pair (accept reject : MarketBook A) (treasury : A) : ST L MarketError Balance :=
  do! lift (ensure (negb (mb_id accept =? mb_id reject) && (mb_b accept =? mb_b reject))
                   ErrTryStateViolation) in
  let! pg := lift (branch_pair (mb_kind accept) (mb_kind reject)) in
  let '(proposal, gate) := pg in
  let! headroom := lift (seed_headroom (mb_b accept)) in
  do! for_each_st (fun book => do! note_account (mb_account book) in note_account (mb_fees_account book))
        [accept; reject] in
  do! ledger_call (lo_do_split proposal treasury headroom) in
  do! for_each_st (fun bb : MarketBook A * Branch =>
        let (book, branch) := bb in
        do! ledger_call (lo_do_transfer (position proposal branch BranchUsdc) treasury (mb_account book) headroom) in
        match gate with
        | Some gate => ledger_call (lo_do_split_gate proposal branch gate (mb_account book) headroom)
        | None => ledger_call (lo_do_split_scalar proposal branch (mb_account book) headroom)
        end) [(accept, Accept); (reject, Reject)] in
  ret headroom.

(** ** Trades on one book *)

(** A step on the ledger, and a step on the book, of a trade on both. *)
Definition on_ledger {R} (f : ST L MarketError R) : ST (MarketBook A * L) MarketError R :=
  fun s => let (r, l) := f s.2 in (r, (s.1, l)).
Definition on_book {R} (f : ST (MarketBook A) MarketError R) : ST (MarketBook A * L) MarketError R :=
  fun s => let (r, m) := f s.1 in (r, (m, s.2)).

(** What a trade does to the book after the ledger has moved. *)
Definition trade_side (buying : bool) (side : ScalarSide) : TradeSide :=
  match side with
  | SideLong => if buying then BuyLong else SellLong
  | SideShort => if buying then BuyShort else SellShort
  end.

Definition settle_trade (params : MarketParams) (who : A) (buying : bool) (side : ScalarSide)
    (amount cost fee block : Z) : ST (MarketBook A) MarketError (list (MarketEvent A)) :=
  let! m := get in
  do! (match side with
       | SideLong =>
           let! q := lift ((if buying then m_add else m_sub) (mb_q_long m) amount) in
           modify (set_quantities q (mb_q_short m))
       | SideShort =>
           let! q := lift ((if buying then m_add else m_sub) (mb_q_short m) amount) in
           modify (set_quantities (mb_q_long m) q)
       end) in
  let! m := get in
  let! f := lift (m_add (mb_fees_accrued m) fee) in
  do! modify (set_fees_accrued f) in
  let! observed := observe_book params block in
  let! m := get in
  let! p := lift (price_1e9 m) in
  do! modify (set_last_quote p) in
  let events := match observed with Some event => [event] | None => [] end in
  ret (events ++ [MkTraded (mb_id m) who (trade_side buying side) amount cost p]).

Definition buy_book (params : MarketParams) (who : A) (side : ScalarSide) (amount max_cost : Balance)
    (block : Z) : ST (MarketBook A * L) MarketError (list (MarketEvent A)) :=
  let! s := get in
  let m := s.1 in
  do! lift (ensure_trade_phase (mb_phase m)) in
  do! lift (ensure_trade_bounds (mb_b m) amount) in
  let! cost_fx := lift (let? ql := fx (mb_q_long m) in
                        let? qs := fx (mb_q_short m) in
                        let? fb := fx (mb_b m) in
                        let? fa := fx amount in
                        map_err map_fixed (lmsr_buy_cost ql qs fb (lside side) fa)) in
  let! cost := lift (fixed_to_base_units_up cost_fx) in
  let! fee := lift (fee_up cost (mp_fee_bps params)) in
  let! total := lift (ok_or ErrArithmeticOverflow (checked_add U128 cost fee)) in
  do! lift (ensure (total <=? max_cost) ErrSlippageExceeded) in
  do! on_ledger
    (match mb_kind m with
     | Decision proposal branch =>
         buy_branch proposal branch side who (mb_account m) (mb_fees_account m) amount cost fee
     | Gate proposal branch gate =>
         buy_gate proposal branch gate side who (mb_account m) (mb_fees_account m) amount cost fee
     | Baseline epoch =>
         let! total := lift (ok_or ErrArithmeticOverflow (checked_add U128 cost fee)) in
         buy_baseline epoch side who (mb_account m) amount total
     end) in
  on_book (settle_trade params who true side amount cost fee block).

Definition sell_book (params : MarketParams) (who : A) (side : ScalarSide) (amount min_proceeds : Balance)
    (block : Z) : ST (MarketBook A * L) MarketError (list (MarketEvent A)) :=
  let! s := get in
  let m := s.1 in
  do! lift (ensure_trade_phase (mb_phase m)) in
  do! lift (ensure_trade_bounds (mb_b m) amount) in
  let! proceeds_fx := lift (let? ql := fx (mb_q_long m) in
                            let? qs := fx (mb_q_short m) in
                            let? fb := fx (mb_b m) in
                            let? fa := fx amount in
                            map_err map_fixed (lmsr_sell_proceeds ql qs fb (lside side) fa)) in
  let! proceeds := lift (fixed_to_base_units_down proceeds_fx) in
  let! fee := lift (fee_up proceeds (mp_fee_bps params)) in
  let! net := lift (m_sub proceeds fee) in
  do! lift (ensure (min_proceeds <=? net) ErrSlippageExceeded) in
  do! on_ledger
    (match mb_kind m with
     | Decision proposal branch =>
         sell_branch proposal branch side who (mb_account m) (mb_fees_account m) amount net fee
     | Gate proposal branch gate =>
         sell_gate proposal branch gate side who (mb_account m) (mb_fees_account m) amount net fee
     | Baseline epoch =>
         sell_baseline epoch side who (mb_account m) amount net fee
     end) in
  on_book (settle_trade params who false side amount proceeds fee block).
End flows.

(** ** The market table *)

Section market_state.
Context {A : Type} `{EqDecision A}.

Implicit Types (ms : MarketState A) (l : LedgerState A).

Definition set_markets (ml : list (MarketBook A)) ms : MarketState A :=
  {| ms_markets := ml; ms_baseline_market_of := ms_baseline_market_of ms; ms_events := ms_events ms |}.
Definition push_events (evs : list (MarketEvent A)) ms : MarketState A :=
  {| ms_markets := ms_markets ms; ms_baseline_market_of := ms_baseline_market_of ms;
     ms_events := ms_events ms ++ evs |}.
Definition map_baseline (epoch : EpochId) (id : MarketId) ms : MarketState A :=
  {| ms_markets := ms_markets ms;
     ms_baseline_market_of := ms_baseline_market_of ms ++ [(epoch, id)]; ms_events := ms_events ms |}.

Definition create_market (id : MarketId) (kind : BookKind) (account fees_account : A) (b : Balance)
    : ST (MarketState A) MarketError unit :=
  let! ms := get in
  do! lift (ensure (forallb (fun m => negb (mb_id m =? id)) (ms_markets ms)) ErrDuplicateMarket) in
  do! (match kind with
       | Baseline epoch =>
           do! lift (ensure (forallb (fun em => negb (em.1 =? epoch)) (ms_baseline_market_of ms))
                            ErrDuplicateBaselineMarket) in
           do! modify (map_baseline epoch id) in
           modify (push_events [MkBaselineMarketMapped epoch id])
       | _ => ret tt
       end) in
  do! modify (fun ms => set_markets (ms_markets ms ++ [MarketBook_open id kind account fees_account b]) ms) in
  modify (push_events [MkMarketCreated id]).

Definition market_seed (id : MarketId) (treasury : A) : ST (MarketState A * LedgerState A) MarketError Balance :=
  fun s =>
    match find_key mb_id id (ms_markets s.1) with
    | None => (Err ErrUnknownMarket, s)
    | Some m =>
        match seed_book m treasury s.2 with
        | (Ok headroom, l) => (Ok headroom, (push_events [MkSeeded id headroom] s.1, l))
        | (Err e, l) => (Err e, (s.1, l))
        end
    end.

(** [buy_book] or [sell_book] on [self.markets[idx]] in place. *)
Definition trade_inner (id : MarketId)
    (trade : ST (MarketBook A * LedgerState A) MarketError (list (MarketEvent A)))
    : ST (MarketState A * LedgerState A) MarketError unit :=
  fun s =>
    match find_key mb_id id (ms_markets s.1) with
    | None => (Err ErrUnknownMarket, s)
    | Some m =>
        let (r, ml) := trade (m, s.2) in
        let ms := set_markets (alter_key mb_id id (fun _ => ml.1) (ms_markets s.1)) s.1 in
        match r with
        | Ok events => (Ok tt, (push_events events ms, ml.2))
        | Err e => (Err e, (ms, ml.2))
        end
    end.

Definition buy_inner id who side amount max_cost block :=
  trade_inner id (buy_book MarketParams_default who side amount max_cost block).
Definition sell_inner id who side amount min_proceeds block :=
  trade_inner id (sell_book MarketParams_default who side amount min_proceeds block).

Definition buy id who side amount max_cost block : ST (MarketState A * LedgerState A) MarketError unit :=
  atomic (buy_inner id who side amount max_cost block).
Definition sell id who side amount min_proceeds block : ST (MarketState A * LedgerState A) MarketError unit :=
  atomic (sell_inner id who side amount min_proceeds block).

Definition close (id : MarketId) : ST (MarketState A) MarketError unit :=
  let! ms := get in
  do! lift (ok_or ErrUnknownMarket (find_key mb_id id (ms_markets ms))) in
  do! modify (fun ms => set_markets (alter_key mb_id id (set_phase Closed) (ms_markets ms)) ms) in
  modify (push_events [MkClosed id]).

Definition baseline_market (epoch : EpochId) ms : option MarketId :=
  snd <$> find_key fst epoch (ms_baseline_market_of ms).

(** [48 * b] wraps around in a release build. *)
Definition market_try_state ms : Result MarketError unit :=
  for_each (fun m : MarketBook A =>
    do? ensure (0 <? mb_b m) ErrTryStateViolation in
    let bound := wrap U128 (48 * mb_b m) in
    ensure (((mb_q_long m <=? bound) && (mb_q_short m <=? bound))
            || (Z.abs (mb_q_long m - mb_q_short m) <=? bound)) ErrPriceBoundExceeded)
    (ms_markets ms).
End market_state.
