(* ===== verification/MarketObserve.v ===== *)
(** * Observations: the slew clamp and the price integral

    The two powers bound the real powers from the safe side, so a recorded
    observation never leaves the envelope [(1 ± kappa)^k] around the previous
    one, and the integral grows by exactly the recorded price times the
    blocks elapsed. *)

From S2P Require Import Prelude Keyed Primitives Ledger U256 FixedPoint Twap Market.

Local Abbreviation S9 := 1000000000 (only parsing).

(** ** The powers *)

Section pow.
Context (mul : Z -> Z -> Z) (good : Z -> Prop).
Hypothesis good_mul : forall a b, good a -> good b -> good (Z.min (mul a b) POW_CAP).

Lemma half_lt exp n : 0 <= exp < 2 ^ Z.of_nat (S n) -> 0 <= exp / 2 < 2 ^ Z.of_nat n.
Proof.
  rewrite Nat2Z.inj_succ, Z.pow_succ_r by lia. intros H.
  split; [apply Z.div_pos; lia|apply Z.div_lt_upper_bound; lia].
Qed.

Lemma land_1 exp : (Z.land exp 1 =? 1) = Z.odd exp.
Proof.
  change 1 with (Z.ones 1). rewrite Z.land_ones by lia. change (2 ^ 1) with 2. change (Z.ones 1) with 1.
  rewrite Zmod_odd. by destruct (Z.odd exp).
Qed.

Lemma pow_loop_good n exp r f : good r -> good f -> good (pow_loop mul n exp r f).
Proof using good_mul.
  revert exp r f. induction n as [|n IH]; intros exp r f Hr Hf; cbn [pow_loop]; [done|].
  destruct (0 <? exp); [|done]. cbv zeta. apply IH; case_match; auto.
Qed.

(** [P r f e res] relates a state of the loop with its result. *)
Lemma pow_loop_rel (P : Z -> Z -> Z -> Z -> Prop) :
  (forall r f, P r f 0 r) ->
  (forall r f e res, good r -> good f -> 0 <= e -> P (Z.min (mul r f) POW_CAP) f (2 * e) res -> P r f (2 * e + 1) res) ->
  (forall r f e res, good r -> good f -> 0 < e -> P r (Z.min (mul f f) POW_CAP) e res -> P r f (2 * e) res) ->
  forall n exp r f, good r -> good f -> 0 <= exp < 2 ^ Z.of_nat n -> P r f exp (pow_loop mul n exp r f).
Proof using good_mul.
  intros H0 H1 H2. induction n as [|n IH]; intros exp r f Hr Hf He; cbn [pow_loop].
  - change (2 ^ Z.of_nat 0) with 1 in He. by replace exp with 0 by lia.
  - destruct (Z.ltb_spec 0 exp) as [Hpos|]; [|by replace exp with 0 by lia].
    cbv zeta. rewrite land_1. change (Z.shiftr exp 1) with (Z.div2 exp).
    pose proof (half_lt exp n He) as Hh. rewrite <- Z.div2_div in Hh. pose proof (Z.div2_odd exp) as Ho.
    set (e := Z.div2 exp) in *. clearbody e.
    set (o := Z.odd exp) in *. clearbody o. rewrite Ho.
    assert (Hstep : forall r, good r ->
      P r f (2 * e) (pow_loop mul n e r (if 0 <? e then Z.min (mul f f) POW_CAP else f))).
    { intros r' Hr'. destruct (Z.ltb_spec 0 e).
      - apply H2; auto.
      - replace e with 0 by lia. rewrite Z.mul_0_r. replace (pow_loop mul n 0 r' f) with r'; [apply H0|].
        by destruct n. }
    destruct o; cbn [Z.b2z]; [apply H1; [done..|lia|]|rewrite Z.add_0_r]; auto.
Qed.
End pow.

Lemma S9_pow_pos k : 0 <= k -> 0 < S9 ^ k.
Proof. intros. by apply Z.pow_pos_nonneg. Qed.

(** The upper power never exceeds the exact one. *)
Lemma pow_1e9_le base k :
  0 <= base -> is_u64 k -> pow_1e9 base k * S9 ^ k <= S9 * base ^ k.
Proof.
  intros Hb Hk. unfold pow_1e9.
  assert (Hm : forall a b, 0 <= a -> 0 <= b -> 0 <= Z.min (mul_1e9 a b) POW_CAP).
  { intros a b Ha Hb'. unfold mul_1e9, POW_CAP, PRICE_ONE_1E9. assert (0 <= a * b / S9) by (apply Z.div_pos; nia). lia. }
  assert (Hle : forall a b, 0 <= a -> 0 <= b -> Z.min (mul_1e9 a b) POW_CAP * S9 <= a * b).
  { intros a b Ha Hb'. unfold mul_1e9, PRICE_ONE_1E9. pose proof (div_bounds (a * b) S9 ltac:(lia)). lia. }
  set (f := Z.min base POW_CAP). assert (Hf : 0 <= f <= base) by (unfold f, POW_CAP, PRICE_ONE_1E9; lia).
  assert (HP : pow_loop mul_1e9 64 k S9 f * S9 ^ k <= S9 * f ^ k).
  { apply (pow_loop_rel mul_1e9 (fun x => 0 <= x) Hm (fun r f e res => 0 <= r -> 0 <= f -> 0 <= e -> res * S9 ^ e <= r * f ^ e));
      try lia.
    - intros r g e res Hr Hg He IH _ _ _. specialize (IH ltac:(auto) Hg ltac:(lia)). specialize (Hle r g Hr Hg).
      rewrite !Z.pow_add_r, !Z.pow_1_r by lia. assert (0 <= g ^ (2 * e)) by (apply Z.pow_nonneg; lia). nia.
    - intros r g e res Hr Hg He IH _ _ _. specialize (IH Hr ltac:(auto) ltac:(lia)). specialize (Hle g g Hg Hg).
      specialize (Hm g g Hg Hg). set (h := Z.min _ _) in *. clearbody h.
      assert (Hpw : (h * S9) ^ e <= (g * g) ^ e) by (apply Z.pow_le_mono_l; lia).
      rewrite !Z.pow_mul_r, !Z.pow_2_r by lia. rewrite !Z.pow_mul_l in Hpw |- *.
      pose proof (S9_pow_pos e ltac:(lia)). nia. }
  etrans; [exact HP|]. assert (f ^ k <= base ^ k) by (apply Z.pow_le_mono_l; lia). nia.
Qed.

(** The lower power is never below the exact one, for a base at most one. *)
Lemma mul_up_le a b : 0 <= a -> 0 <= b <= S9 -> mul_1e9_up a b <= a.
Proof.
  intros Ha Hb. unfold mul_1e9_up, div_ceil, PRICE_ONE_1E9.
  assert ((a * b + (S9 - 1)) / S9 <= a); [|lia]. apply Z.lt_succ_r, Z.div_lt_upper_bound; nia.
Qed.

Lemma mul_up_ge a b : 0 <= a < U64 -> 0 <= b <= S9 -> a * b <= mul_1e9_up a b * S9.
Proof.
  intros Ha Hb. pose proof (mul_up_le a b ltac:(lia) Hb) as Hle. unfold mul_1e9_up, div_ceil, PRICE_ONE_1E9 in *.
  pose proof (div_bounds (a * b + (S9 - 1)) S9 ltac:(lia)). destruct (Z.min_spec ((a * b + (S9 - 1)) / S9) (U64 - 1)); nia.
Qed.

Lemma mul_up_nonneg a b : 0 <= a -> 0 <= b -> 0 <= mul_1e9_up a b.
Proof.
  intros. unfold mul_1e9_up, div_ceil, PRICE_ONE_1E9. assert (0 <= (a * b + (S9 - 1)) / S9) by (apply Z.div_pos; nia). lia.
Qed.

Lemma pow_1e9_up_ge base k :
  0 <= base <= S9 -> is_u64 k -> 0 <= pow_1e9_up base k <= S9 /\ S9 * base ^ k <= pow_1e9_up base k * S9 ^ k.
Proof.
  intros Hb Hk. unfold pow_1e9_up.
  assert (Hm : forall a b, 0 <= a <= S9 -> 0 <= b <= S9 -> 0 <= Z.min (mul_1e9_up a b) POW_CAP <= S9).
  { intros a b Ha Hb'. pose proof (mul_up_le a b ltac:(lia) Hb'). pose proof (mul_up_nonneg a b ltac:(lia) ltac:(lia)).
    unfold POW_CAP, PRICE_ONE_1E9. lia. }
  assert (Hge : forall a b, 0 <= a <= S9 -> 0 <= b <= S9 -> a * b <= Z.min (mul_1e9_up a b) POW_CAP * S9).
  { intros a b Ha Hb'. pose proof (mul_up_le a b ltac:(lia) Hb'). rewrite Z.min_l by (unfold POW_CAP, PRICE_ONE_1E9; lia).
    apply mul_up_ge; lia. }
  replace (Z.min base POW_CAP) with base by (unfold POW_CAP, PRICE_ONE_1E9; lia).
  split; [by apply (pow_loop_good mul_1e9_up (fun x => 0 <= x <= S9) Hm)|].
  apply (pow_loop_rel mul_1e9_up (fun x => 0 <= x <= S9) Hm (fun r f e res => 0 <= r -> 0 <= f -> 0 <= e -> r * f ^ e <= res * S9 ^ e));
    try (unfold PRICE_ONE_1E9; lia).
  - intros r g e res Hr Hg He IH _ _ _. specialize (IH ltac:(by apply Hm) ltac:(lia) ltac:(lia)). specialize (Hge r g Hr Hg).
    rewrite !Z.pow_add_r, !Z.pow_1_r by lia. assert (0 <= g ^ (2 * e)) by (apply Z.pow_nonneg; lia). nia.
  - intros r g e res Hr Hg He IH _ _ _. specialize (IH ltac:(lia) ltac:(by apply Hm) ltac:(lia)). specialize (Hge g g Hg Hg).
    specialize (Hm g g Hg Hg). set (h := Z.min _ _) in *. clearbody h.
    assert (Hpw : (g * g) ^ e <= (h * S9) ^ e) by (apply Z.pow_le_mono_l; nia).
    rewrite !Z.pow_mul_r, !Z.pow_2_r by lia. rewrite !Z.pow_mul_l in Hpw |- *.
    pose proof (S9_pow_pos e ltac:(lia)). nia.
Qed.

(** The upper power is at least one, for a base at least one. *)
Lemma pow_1e9_ge base k : S9 <= base -> S9 <= pow_1e9 base k.
Proof.
  intros Hb. unfold pow_1e9. apply (pow_loop_good mul_1e9 (fun x => S9 <= x)).
  - intros a b Ha Hb'. unfold mul_1e9, POW_CAP, PRICE_ONE_1E9.
    assert (S9 <= a * b / S9) by (apply Z.div_le_lower_bound; nia). lia.
  - done.
  - unfold POW_CAP, PRICE_ONE_1E9. lia.
Qed.

(** ** The clamp *)

(** The bounds are ordered around the previous observation, so [clamp] never
    panics. *)
Lemma observation_bounds_ordered old kappa k :
  is_u64 old -> 0 <= kappa <= S9 -> is_u64 k ->
  0 <= slew_low old kappa k <= old /\ old <= slew_high old kappa k.
Proof.
  intros Ho Hk Hi. unfold slew_low, slew_high, PRICE_ONE_1E9.
  destruct (pow_1e9_up_ge (S9 - kappa) k ltac:(lia) Hi) as [Hp _].
  pose proof (pow_1e9_ge (S9 + kappa) k ltac:(lia)) as Hq. split.
  - split; [apply mul_up_nonneg; lia|apply mul_up_le; lia].
  - unfold mul_1e9, PRICE_ONE_1E9. assert (old <= old * pow_1e9 (S9 + kappa) k / S9) by (apply Z.div_le_lower_bound; nia).
    lia.
Qed.

(** They stay inside the exact envelope [(1 ± kappa)^k]. *)
Lemma observation_envelope old kappa k :
  is_u64 old -> 0 <= kappa <= S9 -> is_u64 k ->
  old * (S9 - kappa) ^ k <= slew_low old kappa k * S9 ^ k
  /\ slew_high old kappa k * S9 ^ k <= old * (S9 + kappa) ^ k.
Proof.
  intros Ho Hk Hi. unfold slew_low, slew_high, PRICE_ONE_1E9. pose proof (S9_pow_pos k ltac:(lia)) as HS. split.
  - destruct (pow_1e9_up_ge (S9 - kappa) k ltac:(lia) Hi) as [Hp Hge].
    pose proof (mul_up_ge old _ Ho Hp) as Hm. set (p := pow_1e9_up _ _) in *. set (l := mul_1e9_up _ _) in *.
    clearbody p l. nia.
  - pose proof (pow_1e9_le (S9 + kappa) k ltac:(lia) Hi) as Hle. pose proof (pow_1e9_ge (S9 + kappa) k ltac:(lia)) as Hq.
    set (p := pow_1e9 _ _) in *. clearbody p. unfold mul_1e9, PRICE_ONE_1E9.
    pose proof (div_bounds (old * p) S9 ltac:(lia)) as Hd.
    assert (Hm : Z.min (old * p / S9) (U64 - 1) * S9 <= old * p) by lia.
    set (h := Z.min _ _) in *. clearbody h. nia.
Qed.

Lemma clamp_bounds x lo hi : lo <= hi -> lo <= clamp x lo hi <= hi.
Proof. intros. unfold clamp. destruct (Z.ltb_spec x lo), (Z.ltb_spec hi x); lia. Qed.

Lemma clamp_inside x lo hi : lo <= x <= hi -> clamp x lo hi = x.
Proof. intros. unfold clamp. destruct (Z.ltb_spec x lo), (Z.ltb_spec hi x); lia. Qed.

(** ** One observation *)

Section observe.
Context {A : Type}.

Implicit Types (m : MarketBook A) (p : MarketParams).

Record params_ok p : Prop := {
  po_interval : 0 < mp_obs_interval p < U64;
  po_kappa : 0 <= mp_kappa_1e9 p <= S9;
  po_fee : 0 <= mp_fee_bps p <= BPS_DENOM;
}.

(** The observation state of a book. *)
Record obs_ok m : Prop := {
  oo_quote : 0 <= mb_last_quote_1e9 m <= S9;
  oo_obs : 0 <= mb_last_observation_1e9 m <= S9;
  oo_block : is_u64 (mb_last_observed_block m);
  oo_cum : tw_ok (mb_cumulative_price_blocks m);
  oo_cum_bound : tw_val (mb_cumulative_price_blocks m) <= S9 * mb_last_observed_block m;
  oo_stale : is_u8 (mb_stale_events m);
}.

(** The grid: nothing is recorded before the interval is over. *)
Definition observation_due p block m : bool :=
  negb (block <? sat_add U64 (mb_last_observed_block m) (mp_obs_interval p)).

Definition obs_intervals p block m : Z :=
  Z.max ((block - mb_last_observed_block m) / mp_obs_interval p) 1.

Definition obs_capped p block m : Z :=
  let old := mb_last_observation_1e9 m in
  let k := obs_intervals p block m in
  clamp (mb_last_quote_1e9 m) (slew_low old (mp_kappa_1e9 p) k) (slew_high old (mp_kappa_1e9 p) k).

Lemma observation_due_block p block m :
  params_ok p -> obs_ok m -> is_u64 block -> observation_due p block m = true ->
  mb_last_observed_block m <= block /\ is_u64 (obs_intervals p block m).
Proof.
  intros [Hi _ _] [_ _ Hb _ _ _] Hblk. unfold observation_due, sat_add, obs_intervals. intros Hd. to_prop.
  assert (mb_last_observed_block m <= block) by lia. split; [done|].
  assert ((block - mb_last_observed_block m) / mp_obs_interval p < U64) by (apply Z.div_lt_upper_bound; nia).
  assert (0 <= (block - mb_last_observed_block m) / mp_obs_interval p) by (apply Z.div_pos; lia). lia.
Qed.

Lemma obs_capped_bounds p block m :
  params_ok p -> obs_ok m -> is_u64 block -> observation_due p block m = true ->
  0 <= obs_capped p block m <= S9
  /\ let k := obs_intervals p block m in let old := mb_last_observation_1e9 m in
     old * (S9 - mp_kappa_1e9 p) ^ k <= obs_capped p block m * S9 ^ k <= old * (S9 + mp_kappa_1e9 p) ^ k.
Proof.
  intros Hp Ho Hblk Hd. destruct (observation_due_block p block m Hp Ho Hblk Hd) as [_ Hk]. cbv zeta.
  destruct Ho as [Hq Hob _ _ _ _], Hp as [_ Hka _]. set (k := obs_intervals p block m) in *.
  set (old := mb_last_observation_1e9 m) in *.
  destruct (observation_bounds_ordered old (mp_kappa_1e9 p) k) as [Hlo Hhi]; [lia..|].
  destruct (observation_envelope old (mp_kappa_1e9 p) k) as [Hel Heh]; [lia..|].
  unfold obs_capped. fold k old. set (lo := slew_low _ _ _) in *. set (hi := slew_high _ _ _) in *.
  pose proof (clamp_bounds (mb_last_quote_1e9 m) lo hi ltac:(lia)) as Hc. split.
  - unfold clamp in *. destruct (Z.ltb_spec (mb_last_quote_1e9 m) lo), (Z.ltb_spec hi (mb_last_quote_1e9 m)); lia.
  - pose proof (S9_pow_pos k ltac:(lia)). clearbody lo hi k old. nia.
Qed.

(** The book after a due observation. *)
Definition observed p block m (c : TwapCumulative) : MarketBook A :=
  set_observation c (obs_capped p block m) block
    (if mp_stale_gap_blocks p <? block - mb_last_observed_block m
     then set_stale_events (Z.min (mb_stale_events m + 1) 255) m else m).

Lemma observe_book_total p block m :
  params_ok p -> obs_ok m -> is_u64 block ->
  if observation_due p block m then
    exists c, observe_book p block m = (Ok (Some (MkObserved (mb_id m) (obs_capped p block m))), observed p block m c)
      /\ tw_ok c
      /\ tw_val c = tw_val (mb_cumulative_price_blocks m) + obs_capped p block m * (block - mb_last_observed_block m)
      /\ obs_ok (observed p block m c)
  else observe_book p block m = (Ok None, m).
Proof.
  intros Hp Ho Hblk. pose proof Hp as [Hi Hka _]. unfold observe_book.
  rewrite (lift_step _ _ _ tt) by (apply ensure_true, Z.ltb_lt; lia).
  rewrite (lift_step _ _ _ tt) by (apply ensure_true, Z.leb_le; unfold PRICE_ONE_1E9; lia).
  rewrite bind_get. destruct (observation_due p block m) eqn:Hd.
  2: { unfold observation_due in Hd. apply negb_false_iff in Hd. by rewrite Hd. }
  pose proof (observation_due_block p block m Hp Ho Hblk Hd) as [Hle Hk].
  pose proof (obs_capped_bounds p block m Hp Ho Hblk Hd) as [Hc _].
  unfold observation_due in Hd. apply negb_true_iff in Hd. rewrite Hd.
  assert (Hel : sat_sub block (mb_last_observed_block m) = block - mb_last_observed_block m) by (unfold sat_sub; lia).
  rewrite Hel. cbv zeta. fold (obs_intervals p block m). fold (obs_capped p block m).
  destruct Ho as [Hq Hob Hb Hcum Hcb Hst].
  pose proof (checked_add_product_spec _ (obs_capped p block m) (block - mb_last_observed_block m) Hcum ltac:(lia) ltac:(lia)) as Hadd.
  assert (Hfit : tw_val (mb_cumulative_price_blocks m) + obs_capped p block m * (block - mb_last_observed_block m)
      <= S9 * block) by nia.
  destruct (checked_add_product _ _ _) as [c|] eqn:Hsum; [|unfold U256_MAX1 in Hadd; lia].
  destruct Hadd as [Hcok Hcv]. exists c. unfold observed. split; [|split; [done|split; [done|]]].
  - destruct (_ <? block - _); [rewrite bind_modify|rewrite (bind_step _ _ _ tt m) by done];
      rewrite (lift_step _ _ _ (PRICE_ONE_1E9 + mp_kappa_1e9 p))
        by (apply ok_or_Ok, checked_add_Some; unfold PRICE_ONE_1E9; lia);
      rewrite (lift_step _ _ _ c) by done; rewrite bind_modify; done.
  - split; destruct (_ <? block - _); cbn; rewrite ?Hcv; (done || lia).
Qed.

End observe.


