(* ===== verification/MarketTrade.v ===== *)
(** * Trades: what a successful trade does, and that a quote predicts it *)

From S2P Require Import Prelude Keyed Primitives Ledger U256 FixedPoint FixedProps Twap Market MarketObserve.

(** ** Conversions *)

Lemma fx_spec v : is_u128 v -> fx v = if v / 1000000 <? U64 then Ok (v * 2 ^ 64 / 1000000) else Err ErrArithmeticOverflow.
Proof.
  intros Hv. unfold fx, to_u64, from_raw, from_integer, shl, FRAC_BITS. destruct (Z.ltb_spec (v / 1000000) U64); [|done].
  cbn [ok_or rbind]. rewrite !Z.shiftl_mul_pow2 by lia. change (2 ^ 64) with U64.
  pose proof (Z.mod_pos_bound v 1000000 ltac:(lia)). pose proof (Z.div_mod v 1000000 ltac:(lia)) as E.
  assert (0 <= v / 1000000) by (apply Z.div_pos; lia).
  rewrite !wrap_small by nia. rewrite fx_add_spec.
  assert (EQ : v / 1000000 * U64 + v mod 1000000 * U64 / 1000000 = v * U64 / 1000000).
  { rewrite E at 3. replace ((1000000 * (v / 1000000) + v mod 1000000) * U64)
      with (v / 1000000 * U64 * 1000000 + v mod 1000000 * U64) by ring.
    by rewrite Z.div_add_l by lia. }
  rewrite EQ, (proj2 (Z.ltb_lt _ U128)); [done|].
  apply Z.div_lt_upper_bound; [lia|]. change U128 with (U64 * U64). nia.
Qed.

Lemma fx_Ok v f : is_u128 v -> fx v = Ok f ->
  is_u128 f /\ 1000000 * f <= v * 2 ^ 64 < 1000000 * f + 1000000.
Proof.
  intros Hv. rewrite fx_spec by done. destruct (Z.ltb_spec (v / 1000000) U64); [|done]. intros [= <-].
  pose proof (div_bounds (v * 2 ^ 64) 1000000 ltac:(lia)). split; [|lia].
  pose proof (div_bounds v 1000000 ltac:(lia)). change (2 ^ 64) with U64 in *. change U128 with (U64 * U64) in *.
  split; [apply Z.div_pos; lia|]. apply Z.div_lt_upper_bound; [lia|]. nia.
Qed.

(** ** The domain of the stored quantities *)

Lemma quantities_within_domain_spec q_l q_s b :
  0 <= b -> quantities_within_domain q_l q_s b = true <-> 0 < b /\ Z.abs (q_l - q_s) <= 48 * b.
Proof.
  intros Hb. unfold quantities_within_domain, LMSR_DOMAIN_BOUND. destruct (Z.eqb_spec b 0) as [->|Hne]; [split; [done|lia]|].
  pose proof (div_bounds (Z.abs (q_l - q_s)) b ltac:(lia)) as Hd.
  pose proof (Z.div_mod (Z.abs (q_l - q_s)) b ltac:(lia)) as Hm.
  pose proof (Z.mod_pos_bound (Z.abs (q_l - q_s)) b ltac:(lia)) as Hb'.
  set (q := Z.abs (q_l - q_s) / b) in *. set (r := Z.abs (q_l - q_s) mod b) in *. clearbody q r.
  destruct (Z.ltb_spec q 48), (Z.eqb_spec q 48), (Z.eqb_spec r 0); simpl; split; intros; (done || nia).
Qed.

(** Rounding to fixed point does not lose a violation: the scale 2^64 / 10^6
    is more than one. *)
Lemma fx_domain q_l q_s b fl fs fb :
  is_u128 q_l -> is_u128 q_s -> is_u128 b ->
  fx q_l = Ok fl -> fx q_s = Ok fs -> fx b = Ok fb ->
  0 < fb -> Z.abs (fl - fs) <= 48 * fb -> 0 < b /\ Z.abs (q_l - q_s) <= 48 * b.
Proof.
  intros Hl Hs Hb El Es Eb Hpos Hd. apply fx_Ok in El as [_ El], Es as [_ Es], Eb as [_ Eb]; [|done..].
  change (2 ^ 64) with U64 in *. split; [lia|]. lia.
Qed.

Lemma price_1e9_quantities_Ok q_l q_s b p :
  is_u128 q_l -> is_u128 q_s -> is_u128 b ->
  price_1e9_quantities q_l q_s b = Ok p ->
  0 <= p <= 1000000000 /\ quantities_within_domain q_l q_s b = true /\ 48 * b < U128.
Proof.
  intros Hl Hs Hb H. unfold price_1e9_quantities in H.
  apply rbind_Ok in H as (fl & El & H). apply rbind_Ok in H as (fs & Es & H). apply rbind_Ok in H as (fb & Eb & H).
  apply rbind_Ok in H as (pr & Ep & H). apply map_err_Ok in Ep.
  destruct (fx_Ok _ _ Hl El) as [Hfl _], (fx_Ok _ _ Hs Es) as [Hfs _], (fx_Ok _ _ Hb Eb) as [Hfb _].
  assert (Hdom : lmsr_domain fl fs fb).
  { unfold lmsr_price_long in Ep. apply rbind_Ok in Ep as (u & Eu & _). by eapply ensure_lmsr_domain_inv. }
  destruct (lmsr_prices _ _ _ Hdom) as (p' & Ep' & _ & Hr & _). rewrite Ep in Ep'. injection Ep' as <-.
  split.
  - unfold ONE_RAW, PRICE_ONE_1E9 in *. change (2 ^ 64) with U64 in Hr.
    apply rbind_Ok in H as (x & Hx & H). apply ok_or_Ok, checked_mul_Some in Hx as [-> _].
    injection H as <-. unfold shr. rewrite Z.shiftr_div_pow2 by lia. change (2 ^ 64) with U64.
    assert (0 <= pr * 1000000000 / U64 <= 1000000000).
    { split; [apply Z.div_pos; lia|apply Z.div_le_upper_bound; lia]. }
    rewrite wrap_small; lia.
  - destruct Hdom as (_ & _ & _ & Hpos & Hd). split.
    + apply quantities_within_domain_spec; [lia|]. by eapply fx_domain.
    + rewrite fx_spec in Eb by done. destruct (Z.ltb_spec (b / 1000000) U64); [|done].
      pose proof (div_bounds b 1000000 ltac:(lia)). lia.
Qed.

Lemma fee_up_Ok cost bps fee :
  is_u128 cost -> 0 <= bps -> fee_up cost bps = Ok fee ->
  is_u128 fee /\ cost * bps <= fee * BPS_DENOM < cost * bps + BPS_DENOM.
Proof.
  intros Hc Hb H. unfold fee_up, BPS_DENOM in *. apply rbind_Ok in H as (v & Hv & H).
  apply ok_or_Ok, checked_mul_Some in Hv as [-> Hv]. injection H as <-.
  pose proof (Z.div_mod (cost * bps) 10000 ltac:(lia)). pose proof (Z.mod_pos_bound (cost * bps) 10000 ltac:(lia)).
  assert (0 <= cost * bps) by nia.
  destruct (Z.eqb_spec (cost * bps mod 10000) 0); cbn [negb Z.b2z]; lia.
Qed.

(** ** The book half of a trade *)

Section trade.
Context {A : Type}.

Implicit Types (m : MarketBook A) (p : MarketParams).

Lemma observe_book_quantities p block ql qs m :
  observe_book p block (set_quantities ql qs m) =
    (let (r, m') := observe_book p block m in (r, set_quantities ql qs m')).
Proof.
  unfold observe_book, bind, lift, get, ret, modify. destruct (ensure _ _); [|done].
  destruct (ensure _ _); [|done]. cbn [set_quantities mb_last_observed_block].
  destruct (_ <? _); [done|]. destruct (mp_stale_gap_blocks p <? _); cbn;
    (destruct (ok_or _ (checked_add _ _ _)); [|done]); (destruct (ok_or _ _); [|done]); done.
Qed.

Lemma observe_book_fees p block f m :
  observe_book p block (set_fees_accrued f m) =
    (let (r, m') := observe_book p block m in (r, set_fees_accrued f m')).
Proof.
  unfold observe_book, bind, lift, get, ret, modify. destruct (ensure _ _); [|done].
  destruct (ensure _ _); [|done]. cbn [set_fees_accrued mb_last_observed_block].
  destruct (_ <? _); [done|]. destruct (mp_stale_gap_blocks p <? _); cbn;
    (destruct (ok_or _ (checked_add _ _ _)); [|done]); (destruct (ok_or _ _); [|done]); done.
Qed.

(** The observation fields of a book after [observe_book], all else alike. *)
Lemma observe_book_same p block m r m' :
  observe_book p block m = (r, m') ->
  mb_id m' = mb_id m /\ mb_kind m' = mb_kind m /\ mb_phase m' = mb_phase m /\ mb_account m' = mb_account m
  /\ mb_fees_account m' = mb_fees_account m /\ mb_b m' = mb_b m /\ mb_q_long m' = mb_q_long m
  /\ mb_q_short m' = mb_q_short m /\ mb_fees_accrued m' = mb_fees_accrued m
  /\ mb_last_quote_1e9 m' = mb_last_quote_1e9 m.
Proof.
  unfold observe_book, bind, lift, get, ret, modify. destruct (ensure _ _); [|by intros [= _ <-]].
  destruct (ensure _ _); [|by intros [= _ <-]]. destruct (_ <? _); [by intros [= _ <-]|].
  destruct (mp_stale_gap_blocks p <? _); cbn;
    (destruct (ok_or _ (checked_add _ _ _)); [|by intros [= _ <-]]);
    (destruct (ok_or _ _); [|by intros [= _ <-]]); by intros [= _ <-].
Qed.

(** The quantities after a trade. *)
Definition post_quantities (buying : bool) (side : ScalarSide) (amount : Z) m : Z * Z :=
  let d := if buying then amount else - amount in
  match side with
  | SideLong => (mb_q_long m + d, mb_q_short m)
  | SideShort => (mb_q_long m, mb_q_short m + d)
  end.

Record TradeEffect p (who : A) buying side (amount cost fee block : Z) m (evs : list (MarketEvent A)) m' : Prop := {
  te_quantities : (mb_q_long m', mb_q_short m') = post_quantities buying side amount m;
  te_u128 : is_u128 (mb_q_long m) -> is_u128 (mb_q_short m) -> 0 <= amount ->
    is_u128 (mb_q_long m') /\ is_u128 (mb_q_short m');
  te_fees : mb_fees_accrued m' = mb_fees_accrued m + fee /\ mb_fees_accrued m' < U128;
  te_quote : price_1e9_quantities (mb_q_long m') (mb_q_short m') (mb_b m) = Ok (mb_last_quote_1e9 m');
  te_same : mb_id m' = mb_id m /\ mb_kind m' = mb_kind m /\ mb_phase m' = mb_phase m
    /\ mb_account m' = mb_account m /\ mb_fees_account m' = mb_fees_account m /\ mb_b m' = mb_b m;
  (** the observation is the one of the book before the trade *)
  te_observed : exists o mo, observe_book p block m = (Ok o, mo)
    /\ mb_last_observation_1e9 m' = mb_last_observation_1e9 mo
    /\ mb_last_observed_block m' = mb_last_observed_block mo
    /\ mb_cumulative_price_blocks m' = mb_cumulative_price_blocks mo
    /\ mb_stale_events m' = mb_stale_events mo
    /\ evs = match o with Some e => [e] | None => [] end
             ++ [MkTraded (mb_id m) who (trade_side buying side) amount cost (mb_last_quote_1e9 m')];
}.

Lemma settle_trade_Ok p who buying side amount cost fee block m evs m' :
  settle_trade p who buying side amount cost fee block m = (Ok evs, m') ->
  TradeEffect p who buying side amount cost fee block m evs m'.
Proof.
  intros H. unfold settle_trade in H. rewrite bind_get in H. apply bind_Ok in H as (u & m1 & Hq & H).
  assert (Hm1 : exists q, m1 = set_quantities q.1 q.2 m /\ q = post_quantities buying side amount m
    /\ (is_u128 (mb_q_long m) -> is_u128 (mb_q_short m) -> 0 <= amount -> is_u128 q.1 /\ is_u128 q.2)).
  { unfold post_quantities. destruct side; apply bind_Ok in Hq as (q & s1 & Hl & Hq); apply lift_Ok in Hl as [Hl ->];
      apply modify_Ok in Hq as [_ ->]; unfold m_add, m_sub in Hl; destruct buying; apply ok_or_Ok in Hl;
      (apply checked_add_Some in Hl as [-> ?] || apply checked_sub_Some in Hl as [-> ?]);
      [exists (mb_q_long m + amount, mb_q_short m)|exists (mb_q_long m - amount, mb_q_short m)
      |exists (mb_q_long m, mb_q_short m + amount)|exists (mb_q_long m, mb_q_short m - amount)];
      (split; [done|]); (split; [done|]); cbn; lia. }
  destruct Hm1 as ([ql qs] & -> & Hpost & Hr). cbn [fst snd] in *. rewrite bind_get in H.
  apply bind_Ok in H as (f & s1 & Hf & H). apply lift_Ok in Hf as [Hf ->]. unfold m_add in Hf.
  apply ok_or_Ok, checked_add_Some in Hf as [-> Hf]. rewrite bind_modify in H.
  apply bind_Ok in H as (o & m2 & Ho & H). rewrite observe_book_fees, observe_book_quantities in Ho.
  destruct (observe_book p block m) as [[o'|?] mo] eqn:Hobs; [|done]. injection Ho as -> <-.
  destruct (observe_book_same _ _ _ _ _ Hobs) as (E1 & E2 & E3 & E4 & E5 & E6 & E7 & E8 & E9 & E10).
  rewrite bind_get in H. apply bind_Ok in H as (pr & s2 & Hp & H). apply lift_Ok in Hp as [Hp ->].
  rewrite bind_modify in H. apply ret_Ok in H as [-> ->]. unfold price_1e9 in Hp. cbn in Hp.
  rewrite E6 in Hp. split.
  - exact Hpost.
  - exact Hr.
  - exact (conj eq_refl Hf).
  - exact Hp.
  - by rewrite <- E1, <- E2, <- E3, <- E4, <- E5, <- E6.
  - exists o, mo. rewrite <- E1. done.
Qed.


(** ** Both halves *)

Context {L : Type} `{LedgerOps A L}.

(** What the LMSR charges or pays for a trade, in base units. *)
Definition trade_cost (buying : bool) m side amount : Result MarketError Balance :=
  let? ql := fx (mb_q_long m) in
  let? qs := fx (mb_q_short m) in
  let? fb := fx (mb_b m) in
  let? fa := fx amount in
  let? c := map_err map_fixed ((if buying then lmsr_buy_cost else lmsr_sell_proceeds) ql qs fb (lside side) fa) in
  (if buying then fixed_to_base_units_up else fixed_to_base_units_down) c.

(** The ledger moves of a trade, by the kind of book. *)
Definition trade_flow (buying : bool) m (who : A) side (amount cost fee : Z) : ST L MarketError unit :=
  match mb_kind m with
  | Decision proposal branch =>
      if buying then buy_branch proposal branch side who (mb_account m) (mb_fees_account m) amount cost fee
      else sell_branch proposal branch side who (mb_account m) (mb_fees_account m) amount (cost - fee) fee
  | Gate proposal branch gate =>
      if buying then buy_gate proposal branch gate side who (mb_account m) (mb_fees_account m) amount cost fee
      else sell_gate proposal branch gate side who (mb_account m) (mb_fees_account m) amount (cost - fee) fee
  | Baseline epoch =>
      if buying then buy_baseline epoch side who (mb_account m) amount (cost + fee)
      else sell_baseline epoch side who (mb_account m) amount (cost - fee) fee
  end.

(** The bound of the caller: most to pay, least to receive. *)
Definition slippage_ok (buying : bool) (cost fee limit : Z) : Prop :=
  if buying then cost + fee <= limit /\ cost + fee < U128 else fee <= cost /\ limit <= cost - fee.

Definition trade_book (buying : bool) p who side amount limit block :
    ST (MarketBook A * L) MarketError (list (MarketEvent A)) :=
  (if buying then buy_book else sell_book) p who side amount limit block.

Ltac take_lift H v X :=
  apply bind_Ok in H as (v & ? & X & H); apply lift_Ok in X; destruct X as [X ->].

Lemma trade_cost_intro (buying : bool) m side amount c cost :
  (let? ql := fx (mb_q_long m) in
   let? qs := fx (mb_q_short m) in
   let? fb := fx (mb_b m) in
   let? fa := fx amount in
   map_err map_fixed ((if buying then lmsr_buy_cost else lmsr_sell_proceeds) ql qs fb (lside side) fa)) = Ok c ->
  (if buying then fixed_to_base_units_up else fixed_to_base_units_down) c = Ok cost ->
  trade_cost buying m side amount = Ok cost.
Proof.
  unfold trade_cost. intros Hc Hcost. destruct (fx _) as [ql|?]; [|done]. cbn [rbind] in *.
  destruct (fx _) as [qs|?]; [|done]. cbn [rbind] in *. destruct (fx _) as [fb|?]; [|done]. cbn [rbind] in *.
  destruct (fx _) as [fa|?]; [|done]. cbn [rbind] in *. rewrite Hc. exact Hcost.
Qed.

Ltac split_led H :=
  match type of H with (let (_, _) := ?f in _) = _ => destruct f eqn:? end; injection H as -> -> ->.

Lemma trade_book_Ok (buying : bool) p who side amount limit block m l evs m' l' :
  trade_book buying p who side amount limit block (m, l) = (Ok evs, (m', l')) <->
  exists cost fee,
    ensure_trade_phase (mb_phase m) = Ok tt
    /\ ensure_trade_bounds (mb_b m) amount = Ok tt
    /\ trade_cost buying m side amount = Ok cost
    /\ fee_up cost (mp_fee_bps p) = Ok fee
    /\ slippage_ok buying cost fee limit
    /\ trade_flow buying m who side amount cost fee l = (Ok tt, l')
    /\ settle_trade p who buying side amount cost fee block m = (Ok evs, m').
Proof.
  unfold trade_book, slippage_ok. split.
  - intros Hb. destruct buying; [unfold buy_book in Hb|unfold sell_book in Hb]; rewrite bind_get in Hb; cbn [fst snd] in Hb;
      take_lift Hb u1 Hph; take_lift Hb u2 Hbd; take_lift Hb c Hc; take_lift Hb cost Hcost; take_lift Hb fee Hfee;
      take_lift Hb tot Htot; take_lift Hb u3 Hsl; apply ensure_Ok in Hsl; to_prop;
      destruct u1, u2; apply bind_Ok in Hb as (u & [m1 l1] & Hled & Hbook);
      unfold on_ledger, on_book in *; cbn [fst snd] in *;
      destruct (settle_trade _ _ _ _ _ _ _ _ _) as [r2 m2] eqn:Hst; injection Hbook as -> -> ->;
      exists cost, fee; (split; [done|]); (split; [done|]); (split; [by eapply trade_cost_intro|]); (split; [done|]).
    + apply ok_or_Ok, checked_add_Some in Htot as [-> Htot]. split; [done|].
      unfold trade_flow. destruct (mb_kind m) eqn:Hk;
        [| |rewrite (lift_step _ _ _ (cost + fee)) in Hled by (by apply ok_or_Ok, checked_add_Some)];
        split_led Hled; by destruct u.
    + unfold m_sub in Htot. apply ok_or_Ok, checked_sub_Some in Htot as [-> Htot]. split; [done|].
      unfold trade_flow. destruct (mb_kind m) eqn:Hk; split_led Hled; by destruct u.
  - intros (cost & fee & Hph & Hbd & Hc & Hfee & Hsl & Hf & Hst). unfold trade_cost in Hc.
    apply rbind_Ok in Hc as (ql & El & Hc). apply rbind_Ok in Hc as (qs & Es & Hc).
    apply rbind_Ok in Hc as (fb & Eb & Hc). apply rbind_Ok in Hc as (fa & Ea & Hc). apply rbind_Ok in Hc as (c & Ec & Hc).
    destruct buying; [unfold buy_book|unfold sell_book]; rewrite bind_get; cbn [fst snd];
      (rewrite (lift_step _ _ _ tt) by done); (rewrite (lift_step _ _ _ tt) by done);
      (rewrite (lift_step _ _ _ c) by (by rewrite El, Es, Eb, Ea)); (rewrite (lift_step _ _ _ cost) by done);
      (rewrite (lift_step _ _ _ fee) by done).
    + rewrite (lift_step _ _ _ (cost + fee)) by (apply ok_or_Ok, checked_add_Some; lia).
      rewrite (lift_step _ _ _ tt) by (apply ensure_true; lia).
      rewrite (bind_step _ _ _ tt (m, l')).
      * unfold on_book. cbn [fst snd]. by rewrite Hst.
      * unfold on_ledger. cbn [fst snd]. unfold trade_flow in Hf. destruct (mb_kind m); [by rewrite Hf..|].
        rewrite (lift_step _ _ _ (cost + fee)) by (apply ok_or_Ok, checked_add_Some; lia). by rewrite Hf.
    + rewrite (lift_step _ _ _ (cost - fee)) by (apply ok_or_Ok, checked_sub_Some; lia).
      rewrite (lift_step _ _ _ tt) by (apply ensure_true; lia).
      rewrite (bind_step _ _ _ tt (m, l')).
      * unfold on_book. cbn [fst snd]. by rewrite Hst.
      * unfold on_ledger. cbn [fst snd]. unfold trade_flow in Hf. destruct (mb_kind m); by rewrite Hf.
Qed.
End trade.

(** ** A quote is what a trade does *)

Section quote.
Context {A L : Type} `{LedgerOps A L}.

Implicit Types (m : MarketBook A) (p : MarketParams).

(** The integers of a book are in range. *)
Record book_ok m : Prop := {
  bo_b : is_u128 (mb_b m);
  bo_long : is_u128 (mb_q_long m);
  bo_short : is_u128 (mb_q_short m);
  bo_fees : is_u128 (mb_fees_accrued m);
  bo_obs : obs_ok m;
}.

Definition post_fits (buying : bool) side amount m : Prop :=
  let q := post_quantities buying side amount m in 0 <= q.1 < U128 /\ 0 <= q.2 < U128.

Lemma quote_Ok (buying : bool) m side amount bps qv :
  book_ok m -> 0 <= amount ->
  quote m (trade_side buying side) amount bps = Ok qv <->
  exists cost fee pa,
    ensure_trade_phase (mb_phase m) = Ok tt
    /\ post_fits buying side amount m
    /\ trade_cost buying m side amount = Ok cost
    /\ (let q := post_quantities buying side amount m in
        price_1e9_quantities q.1 q.2 (mb_b m) = Ok pa
        /\ fee_up cost bps = Ok fee
        /\ qv = {| qv_cost := cost; qv_fee := fee; qv_p_after_1e9 := pa;
                   qv_max_trade := max_trade_amount (mb_b m);
                   qv_within_domain := quantities_within_domain q.1 q.2 (mb_b m); qv_evaluable := true |}).
Proof.
  intros [Hb Hl Hs _ _] Ha. unfold quote, trade_cost, post_fits, post_quantities, m_add, m_sub, checked_add, checked_sub.
  destruct (ensure_trade_phase _) as [[]|?]; cbn [rbind]; [|split; [done|intros (? & ? & ? & ? & _); done]].
  destruct buying, side; cbn [trade_side lside fst snd];
    (match goal with |- context [if ?t then _ else _] => destruct t eqn:Hfit end; cbn [ok_or rbind]; to_prop;
      [|split; [done|intros (? & ? & ? & _ & ? & _); lia]]);
    (destruct (fx (mb_q_long m)) as [ql|?]; cbn [rbind]; [|split; [done|intros (? & ? & ? & _ & _ & ? & _); done]]);
    (destruct (fx (mb_q_short m)) as [qs|?]; cbn [rbind]; [|split; [done|intros (? & ? & ? & _ & _ & ? & _); done]]);
    (destruct (fx (mb_b m)) as [fb|?]; cbn [rbind]; [|split; [done|intros (? & ? & ? & _ & _ & ? & _); done]]);
    (destruct (fx amount) as [fa|?]; cbn [rbind]; [|split; [done|intros (? & ? & ? & _ & _ & ? & _); done]]);
    (destruct (map_err _ _) as [c|?]; cbn [rbind]; [|split; [done|intros (? & ? & ? & _ & _ & ? & _); done]]);
    (match goal with |- context [rbind (?f c) _] => destruct (f c) as [cost|?]; cbn [rbind] end;
      [|split; [done|intros (? & ? & ? & _ & _ & ? & _); done]]);
    rewrite ?Z.add_opp_r;
    (destruct (price_1e9_quantities _ _ _) as [pa|?]; cbn [rbind]; [|split; [done|intros (? & ? & ? & _ & _ & _ & ? & _); done]]);
    (split; [intros Hq; apply rbind_Ok in Hq as (fee & Hfee & [= <-]); exists cost, fee, pa; split_and!; (done || lia)
            |intros (? & fee & ? & _ & _ & [= <-] & [= <-] & Hfee & ->); rewrite Hfee; done]).
Qed.

(** The book half succeeds when its integers fit. *)
Lemma settle_trade_total p who (buying : bool) side amount cost fee block m pa :
  params_ok p -> book_ok m -> is_u64 block -> 0 <= amount -> post_fits buying side amount m ->
  mb_fees_accrued m + fee < U128 ->
  (let q := post_quantities buying side amount m in price_1e9_quantities q.1 q.2 (mb_b m) = Ok pa) ->
  exists evs m', settle_trade p who buying side amount cost fee block m = (Ok evs, m').
Proof.
  intros Hp [Hb Hl Hs Hf Ho] Hblk Ha Hfit Hfee Hprice. cbv zeta in Hprice.
  unfold settle_trade. rewrite bind_get.
  set (q := post_quantities buying side amount m) in *.
  rewrite (bind_step _ _ _ tt (set_quantities q.1 q.2 m)).
  2: { unfold q, post_fits, post_quantities in *. cbv zeta in Hfit. unfold m_add, m_sub.
       destruct side, buying; cbn [fst snd] in *; rewrite ?Z.add_opp_r in *;
         (erewrite lift_step; [reflexivity|]); apply ok_or_Ok; (apply checked_add_Some || apply checked_sub_Some); lia. }
  rewrite bind_get, (lift_step _ _ _ (mb_fees_accrued m + fee))
    by (apply ok_or_Ok, checked_add_Some; done). rewrite bind_modify.
  unfold bind at 1. rewrite observe_book_fees, observe_book_quantities.
  pose proof (observe_book_total p block m Hp Ho Hblk) as Hobs.
  assert (Hex : exists o mo, observe_book p block m = (Ok o, mo))
    by (destruct (observation_due p block m); [destruct Hobs as (? & ? & _)|]; eauto).
  destruct Hex as (o & mo & Hom). rewrite Hom.
  destruct (observe_book_same _ _ _ _ _ Hom) as (_ & _ & _ & _ & _ & Eb & _).
  rewrite bind_get. unfold price_1e9. cbn [set_fees_accrued set_quantities mb_q_long mb_q_short mb_b]. rewrite Eb.
  rewrite (lift_step _ _ _ pa) by done. rewrite bind_modify. unfold ret. eauto.
Qed.

Lemma ensure_trade_bounds_Ok b a u :
  ensure_trade_bounds b a = Ok u <-> MIN_TRADE <= a <= max_trade_amount b.
Proof.
  unfold ensure_trade_bounds. rewrite rbind_Ok. setoid_rewrite ensure_Ok. split.
  - intros (v & H1 & H2). to_prop. lia.
  - intros [H1 H2]. exists tt. rewrite !Z.leb_le. done.
Qed.

Lemma fee_up_nonneg cost bps fee : is_u128 cost -> 0 <= bps -> fee_up cost bps = Ok fee -> 0 <= fee.
Proof. intros Hc Hb Hf. destruct (fee_up_Ok _ _ _ Hc Hb Hf). lia. Qed.

(** A trade succeeds exactly when its quote is Ok, admits it, meets the
    caller's limit, and the ledger can make the moves. *)
Lemma trade_iff_quote p who (buying : bool) side amount limit block m l l' :
  params_ok p -> book_ok m -> is_u64 block -> 0 <= amount ->
  (exists evs m', trade_book buying p who side amount limit block (m, l) = (Ok evs, (m', l')))
  <-> exists qv, quote m (trade_side buying side) amount (mp_fee_bps p) = Ok qv
      /\ MIN_TRADE <= amount <= qv_max_trade qv
      /\ slippage_ok buying (qv_cost qv) (qv_fee qv) limit
      /\ mb_fees_accrued m + qv_fee qv < U128
      /\ trade_flow buying m who side amount (qv_cost qv) (qv_fee qv) l = (Ok tt, l').
Proof.
  intros Hp Hm Hblk Ha. setoid_rewrite trade_book_Ok. setoid_rewrite quote_Ok; [|done..]. split.
  - intros (evs & m' & cost & fee & Hph & Hbd & Hc & Hfee & Hsl & Hf & Hst).
    apply settle_trade_Ok in Hst. destruct Hst as [Hq Hr Hfe Hpr _ _].
    eexists. split; [exists cost, fee, (mb_last_quote_1e9 m')|].
    + split; [done|]. unfold post_fits. rewrite <- Hq. cbn [fst snd]. split; [|done].
      apply Hr; [apply Hm..|done].
    + apply ensure_trade_bounds_Ok in Hbd. destruct Hfe as [Hfe1 Hfe2]. cbn. rewrite Hfe1 in Hfe2. done.
  - intros (qv & (cost & fee & pa & Hph & Hfit & Hc & Hpr & Hfee & ->) & Hbd & Hsl & Hff & Hf). cbn in *.
    destruct (settle_trade_total p who buying side amount cost fee block m pa Hp Hm Hblk Ha Hfit Hff Hpr) as (evs & m' & Hst).
    exists evs, m', cost, fee. split_and!; try done. by apply ensure_trade_bounds_Ok with (u := tt).
Qed.

(** What the trade leaves on the book is what the quote said. *)
Lemma trade_matches_quote p who (buying : bool) side amount limit block m l evs m' l' :
  params_ok p -> book_ok m -> 0 <= amount ->
  trade_book buying p who side amount limit block (m, l) = (Ok evs, (m', l')) ->
  exists qv, quote m (trade_side buying side) amount (mp_fee_bps p) = Ok qv
    /\ qv_within_domain qv = true /\ MIN_TRADE <= amount <= qv_max_trade qv
    /\ TradeEffect p who buying side amount (qv_cost qv) (qv_fee qv) block m evs m'
    /\ mb_last_quote_1e9 m' = qv_p_after_1e9 qv
    /\ slippage_ok buying (qv_cost qv) (qv_fee qv) limit
    /\ trade_flow buying m who side amount (qv_cost qv) (qv_fee qv) l = (Ok tt, l').
Proof.
  intros Hp Hm Ha. rewrite trade_book_Ok. intros (cost & fee & Hph & Hbd & Hc & Hfee & Hsl & Hf & Hst).
  apply settle_trade_Ok in Hst as He. pose proof He as [Hq Hr _ Hpr _ _].
  destruct (Hr ltac:(apply Hm) ltac:(apply Hm) Ha) as [Hl' Hs'].
  destruct (price_1e9_quantities_Ok _ _ _ _ Hl' Hs' ltac:(apply Hm) Hpr) as (_ & Hdom & _).
  eexists. rewrite quote_Ok by done. split; [exists cost, fee, (mb_last_quote_1e9 m')|].
  - unfold post_fits. rewrite <- Hq. done.
  - cbn [qv_cost qv_fee qv_p_after_1e9 qv_max_trade qv_within_domain]. apply ensure_trade_bounds_Ok in Hbd. done.
Qed.

(** Trades keep the book well-formed. *)
Lemma TradeEffect_book_ok p who (buying : bool) side amount cost fee block m evs m' :
  params_ok p -> book_ok m -> is_u64 block -> 0 <= amount -> 0 <= fee ->
  TradeEffect p who buying side amount cost fee block m evs m' -> book_ok m'.
Proof.
  intros Hp Hm Hblk Ha Hfee [Hq Hr [Hf1 Hf2] Hpr Hsame Hobs].
  destruct (Hr ltac:(apply Hm) ltac:(apply Hm) Ha) as [Hl' Hs'].
  destruct (price_1e9_quantities_Ok _ _ _ _ Hl' Hs' ltac:(apply Hm) Hpr) as (Hp9 & _ & _).
  destruct Hsame as (_ & _ & _ & _ & _ & Eb). destruct Hm as [Hb Hl Hs Hf Ho].
  split; rewrite ?Eb; try (done || lia).
  destruct Hobs as (o & mo & Hom & E1 & E2 & E3 & E4 & _).
  pose proof (observe_book_total p block m Hp Ho Hblk) as Hobs.
  assert (Hmo : obs_ok mo).
  { destruct (observation_due p block m); [destruct Hobs as (c & Hob & _ & _ & Hok)|]; congruence. }
  destruct Hmo as [_ O2 O3 O4 O5 O6]. split; rewrite ?E1, ?E2, ?E3, ?E4; done.
Qed.

End quote.
