(* ===== verification/MarketLedger.v ===== *)
(** * What the market relies on: the laws of [LedgerOps]

    [LedgerLaws] states, operation by operation, what a ledger promises to
    the market: an invariant that every call keeps, and the exact movement
    of balances of a successful call.  The in-memory ledger fulfils them with
    its reachability as the invariant, so that every theorem about reachable
    ledgers holds after any trade. *)

From S2P Require Import Prelude Keyed Primitives Ledger LedgerVault LedgerInv LedgerSolvency LedgerOps LedgerProps LedgerSets U256 FixedPoint Twap Market.

(** [d] units of [id] for [who]. *)
Definition credit {A} `{EqDecision A} (id : PositionId) (who : A) (d : Z) (x : PositionId) (o : A) : Z :=
  if decide (x = id /\ o = who) then d else 0.

Section laws.
Context {A L : Type} `{EqDecision A} `{!LedgerOps A L}.

(** The balances of [l'] are those of [l] and [d] more. *)
Definition moved_by (d : PositionId -> A -> Z) (l l' : L) : Prop :=
  forall x o, lo_position_balance x o l' = lo_position_balance x o l + d x o.

(** A call keeps the invariant; when it succeeds it moves [d]. *)
Definition keeps (inv : L -> Prop) (m : ST L unit unit) (d : PositionId -> A -> Z) : Prop :=
  forall l r l', inv l -> m l = (r, l') -> inv l' /\ (r = Ok tt -> moved_by d l l').

End laws.

Class LedgerLaws (A L : Type) `{EqDecision A} `{!LedgerOps A L} : Type := {
  lo_inv : L -> Prop;
  (** may become a protocol account *)
  lo_free : A -> L -> Prop;
  law_balance : forall x o l, lo_inv l -> is_u128 (lo_position_balance x o l);
  law_split : forall pid who a, is_u128 a ->
    keeps lo_inv (lo_do_split pid who a) (fun x o =>
      credit (position pid Accept BranchUsdc) who a x o + credit (position pid Reject BranchUsdc) who a x o);
  law_merge : forall pid who a, is_u128 a ->
    keeps lo_inv (lo_do_merge pid who a) (fun x o =>
      credit (position pid Accept BranchUsdc) who (- a) x o + credit (position pid Reject BranchUsdc) who (- a) x o);
  law_transfer : forall id from to a, is_u128 a ->
    keeps lo_inv (lo_do_transfer id from to a) (fun x o => credit id from (- a) x o + credit id to a x o);
  law_split_scalar : forall pid b who a, is_u128 a ->
    keeps lo_inv (lo_do_split_scalar pid b who a) (fun x o =>
      credit (position pid b BranchUsdc) who (- a) x o + credit (position pid b Long) who a x o
      + credit (position pid b Short) who a x o);
  law_merge_scalar : forall pid b who a, is_u128 a ->
    keeps lo_inv (lo_do_merge_scalar pid b who a) (fun x o =>
      credit (position pid b BranchUsdc) who a x o + credit (position pid b Long) who (- a) x o
      + credit (position pid b Short) who (- a) x o);
  law_split_gate : forall pid b g who a, is_u128 a ->
    keeps lo_inv (lo_do_split_gate pid b g who a) (fun x o =>
      credit (position pid b BranchUsdc) who (- a) x o + credit (position pid b (GateYes g)) who a x o
      + credit (position pid b (GateNo g)) who a x o);
  law_merge_gate : forall pid b g who a, is_u128 a ->
    keeps lo_inv (lo_do_merge_gate pid b g who a) (fun x o =>
      credit (position pid b BranchUsdc) who a x o + credit (position pid b (GateYes g)) who (- a) x o
      + credit (position pid b (GateNo g)) who (- a) x o);
  law_split_baseline : forall e who a, is_u128 a ->
    keeps lo_inv (lo_do_split_baseline e who a) (fun x o =>
      credit (baseline e SideLong) who a x o + credit (baseline e SideShort) who a x o);
  law_merge_baseline : forall e who a, is_u128 a ->
    keeps lo_inv (lo_do_merge_baseline e who a) (fun x o =>
      credit (baseline e SideLong) who (- a) x o + credit (baseline e SideShort) who (- a) x o);
  law_note : forall who l, lo_inv l -> lo_free who l ->
    lo_inv (lo_note_protocol_account who l)
    /\ (forall x o, lo_position_balance x o (lo_note_protocol_account who l) = lo_position_balance x o l)
    /\ (forall who', lo_free who' l -> lo_free who' (lo_note_protocol_account who l));
}.

(** ** The ledger's operations, as movements of balances *)

Section effects.
Context {A : Type} `{EqDecision A}.

Implicit Types (s : LedgerState A) (org : LedgerOrigin) (pid : ProposalId) (id : PositionId) (who : A) (a : Z).

Lemma moved_credit id who d s s' x o :
  Moved id who d s s' -> position_balance_of x o s' = position_balance_of x o s + credit id who d x o.
Proof. intros [_ Hb]. apply Hb. Qed.

(** Unwinds the final balances to the first state's. *)
Ltac balances :=
  intros x o;
  repeat match goal with
  | Hp : forall x o, position_balance_of x o ?s' = position_balance_of x o _ |- context [position_balance_of _ _ ?s'] =>
      rewrite Hp; clear Hp
  | M : Moved _ _ _ _ ?s' |- context [position_balance_of _ _ ?s'] => rewrite (moved_credit _ _ _ _ _ _ _ M); clear M
  | |- context [position_balance_of ?x ?o (put_base _ _ ?s)] =>
      change (position_balance_of x o (put_base _ _ s)) with (position_balance_of x o s)
  | |- context [position_balance_of ?x ?o (put_vault _ _ ?s)] =>
      change (position_balance_of x o (put_vault _ _ s)) with (position_balance_of x o s)
  end; lia.

Lemma split_effect org pid who a s u s' :
  Inv s -> is_u128 a -> split_impl org pid who a s = (Ok u, s') ->
  forall x o, position_balance_of x o s' = position_balance_of x o s
    + (credit (position pid Accept BranchUsdc) who a x o + credit (position pid Reject BranchUsdc) who a x o).
Proof. intros HI Ha H. body H HI @split_impl. balances. Qed.

Lemma merge_effect org pid who a s u s' :
  Inv s -> is_u128 a -> merge_impl org pid who a s = (Ok u, s') ->
  forall x o, position_balance_of x o s' = position_balance_of x o s
    + (credit (position pid Accept BranchUsdc) who (- a) x o + credit (position pid Reject BranchUsdc) who (- a) x o).
Proof. intros HI Ha H. body H HI @merge_impl. balances. Qed.

Lemma split_scalar_effect org pid b who a s u s' :
  Inv s -> is_u128 a -> split_scalar_impl org pid b who a s = (Ok u, s') ->
  forall x o, position_balance_of x o s' = position_balance_of x o s
    + (credit (position pid b BranchUsdc) who (- a) x o + credit (position pid b Long) who a x o
       + credit (position pid b Short) who a x o).
Proof. intros HI Ha H. body H HI @split_scalar_impl. balances. Qed.

Lemma merge_scalar_effect org pid b who a s u s' :
  Inv s -> is_u128 a -> merge_scalar_impl org pid b who a s = (Ok u, s') ->
  forall x o, position_balance_of x o s' = position_balance_of x o s
    + (credit (position pid b BranchUsdc) who a x o + credit (position pid b Long) who (- a) x o
       + credit (position pid b Short) who (- a) x o).
Proof. intros HI Ha H. body H HI @merge_scalar_impl. balances. Qed.

Lemma split_gate_effect org pid b g who a s u s' :
  Inv s -> is_u128 a -> split_gate_impl org pid b g who a s = (Ok u, s') ->
  forall x o, position_balance_of x o s' = position_balance_of x o s
    + (credit (position pid b BranchUsdc) who (- a) x o + credit (position pid b (GateYes g)) who a x o
       + credit (position pid b (GateNo g)) who a x o).
Proof. intros HI Ha H. body H HI @split_gate_impl. balances. Qed.

Lemma merge_gate_effect org pid b g who a s u s' :
  Inv s -> is_u128 a -> merge_gate_impl org pid b g who a s = (Ok u, s') ->
  forall x o, position_balance_of x o s' = position_balance_of x o s
    + (credit (position pid b BranchUsdc) who a x o + credit (position pid b (GateYes g)) who (- a) x o
       + credit (position pid b (GateNo g)) who (- a) x o).
Proof. intros HI Ha H. body H HI @merge_gate_impl. balances. Qed.

Lemma split_baseline_effect org e who a s u s' :
  Inv s -> is_u128 a -> split_baseline_impl org e who a s = (Ok u, s') ->
  forall x o, position_balance_of x o s' = position_balance_of x o s
    + (credit (baseline e SideLong) who a x o + credit (baseline e SideShort) who a x o).
Proof. intros HI Ha H. body H HI @split_baseline_impl. balances. Qed.

Lemma merge_baseline_effect org e who a s u s' :
  Inv s -> is_u128 a -> merge_baseline_impl org e who a s = (Ok u, s') ->
  forall x o, position_balance_of x o s' = position_balance_of x o s
    + (credit (baseline e SideLong) who (- a) x o + credit (baseline e SideShort) who (- a) x o).
Proof. intros HI Ha H. body H HI @merge_baseline_impl. balances. Qed.

(** A call of the market is a call of the ledger. *)
Lemma keeps_exec (c : LedgerCall A) (d : PositionId -> A -> Z) :
  call_ok c ->
  (forall s s', Inv s -> exec c s = (Ok tt, s') -> forall x o,
     position_balance_of x o s' = position_balance_of x o s + d x o) ->
  keeps reachable (st_map_err (fun _ => tt) (exec c)) d.
Proof.
  intros Hc Hd l r l' Hr. unfold st_map_err. destruct (exec c l) as [r0 l0] eqn:He. intros [= <- ->]. split.
  - eapply rtc_r; [exact Hr|]. pose proof (step_call c l Hc) as Hs. by rewrite He in Hs.
  - destruct r0 as [[]|?]; [|done]. intros _ x o. by apply Hd; [apply Inv_of_reachable|].
Qed.

#[export] Instance LedgerState_laws : LedgerLaws A (LedgerState A).
Proof.
  refine {| lo_inv := reachable; lo_free := fun who l => who ∉ keys pc_owner (ls_position_counts l) |}.
  - intros x o l Hr. apply balance_bounds, inv_core, Inv_of_reachable, Hr.
  - intros pid who a Ha. apply (keeps_exec (CSplit MarketAuthority pid who a) _ Ha).
    intros s s' HI H. simpl in H. unfold split in H. rewrite atomic_Ok in H. by eapply split_effect.
  - intros pid who a Ha. apply (keeps_exec (CMerge MarketAuthority pid who a) _ Ha).
    intros s s' HI H. simpl in H. unfold merge in H. rewrite atomic_Ok in H. by eapply merge_effect.
  - intros id from to a Ha. apply (keeps_exec (CTransfer MarketAuthority id from to a) _ Ha).
    intros s s' HI H x o. simpl in H. apply transfer_effect in H as (_ & Hb & _); [|done..]. rewrite Hb.
    unfold credit, swept_amount. repeat goal_decide; lia.
  - intros pid b who a Ha. apply (keeps_exec (CSplitScalar MarketAuthority pid b who a) _ Ha).
    intros s s' HI H. simpl in H. unfold split_scalar in H. rewrite atomic_Ok in H. by eapply split_scalar_effect.
  - intros pid b who a Ha. apply (keeps_exec (CMergeScalar MarketAuthority pid b who a) _ Ha).
    intros s s' HI H. simpl in H. unfold merge_scalar in H. rewrite atomic_Ok in H. by eapply merge_scalar_effect.
  - intros pid b g who a Ha. apply (keeps_exec (CSplitGate MarketAuthority pid b g who a) _ Ha).
    intros s s' HI H. simpl in H. unfold split_gate in H. rewrite atomic_Ok in H. by eapply split_gate_effect.
  - intros pid b g who a Ha. apply (keeps_exec (CMergeGate MarketAuthority pid b g who a) _ Ha).
    intros s s' HI H. simpl in H. unfold merge_gate in H. rewrite atomic_Ok in H. by eapply merge_gate_effect.
  - intros e who a Ha. apply (keeps_exec (CSplitBaseline MarketAuthority e who a) _ Ha).
    intros s s' HI H. simpl in H. unfold split_baseline in H. rewrite atomic_Ok in H. by eapply split_baseline_effect.
  - intros e who a Ha. apply (keeps_exec (CMergeBaseline MarketAuthority e who a) _ Ha).
    intros s s' HI H. simpl in H. unfold merge_baseline in H. rewrite atomic_Ok in H. by eapply merge_baseline_effect.
  - intros who l Hr Hf. simpl. split; [|split].
    + eapply rtc_r; [exact Hr|]. by apply step_protocol.
    + intros x o. unfold add_protocol_account. simpl. by case_match.
    + intros who' Hf'. unfold add_protocol_account. simpl. by case_match.
Defined.

End effects.
