(* ===== verification/MarketFlow.v ===== *)
(** * The ledger moves of a trade, proved against the interface

    For any ledger that fulfils [LedgerLaws]: every flow keeps its invariant,
    failed ones included, and a successful one moves exactly the balances
    written here. *)

From S2P Require Import Prelude Keyed Primitives Ledger U256 FixedPoint FixedProps Twap Market MarketObserve MarketTrade MarketLedger.

(** ** The instruments of a book *)

(** The leg of a book on one side. *)
Definition leg (k : BookKind) (side : ScalarSide) : PositionId :=
  match k with
  | Decision pid branch => position pid branch (scalar_kind side)
  | Gate pid branch gate => position pid branch (gate_kind gate side)
  | Baseline e => baseline e side
  end.

(** The proposal and branch whose branch-USDC a book trades in. *)
Definition money (k : BookKind) : option (ProposalId * Branch) :=
  match k with
  | Decision pid branch | Gate pid branch _ => Some (pid, branch)
  | Baseline _ => None
  end.

Section flow.
Context {A L : Type} `{EqDecision A} `{!LedgerOps A L} `{!LedgerLaws A L}.

Implicit Types (l : L) (who book fees : A) (amount cost fee net : Z).

(** ** The invariant *)

Definition preserves {E R} (m : ST L E R) : Prop := forall l r l', lo_inv l -> m l = (r, l') -> lo_inv l'.

Lemma preserves_bind {R Q} (m : ST L MarketError R) (k : R -> ST L MarketError Q) :
  preserves m -> (forall r l l', m l = (Ok r, l') -> preserves (k r)) -> preserves (bind m k).
Proof.
  intros Hm Hk l r l' Hl. unfold bind. destruct (m l) as [[a|e] l1] eqn:Hml.
  - intros Hr. eapply Hk; [exact Hml| |exact Hr]. by eapply Hm.
  - intros [= <- <-]. by eapply Hm.
Qed.

Lemma preserves_lift {R} (r : Result MarketError R) : preserves (lift r).
Proof. by intros l r' l' Hl [= _ <-]. Qed.

Lemma preserves_ret {R} (r : R) : preserves (ret (E := MarketError) r).
Proof. by intros l r' l' Hl [= _ <-]. Qed.

Lemma preserves_gets {R} (f : L -> R) : preserves (gets (E := MarketError) f).
Proof. by intros l r' l' Hl [= _ <-]. Qed.

Lemma preserves_if {R} (c : bool) (m1 m2 : ST L MarketError R) :
  (c = true -> preserves m1) -> (c = false -> preserves m2) -> preserves (if c then m1 else m2).
Proof. destruct c; auto. Qed.

Lemma preserves_call (m : ST L unit unit) d : keeps lo_inv m d -> preserves (ledger_call m).
Proof.
  intros Hm l r l' Hl. unfold ledger_call, st_map_err. destruct (m l) as [r0 l0] eqn:Hml. intros [= _ <-].
  by destruct (Hm _ _ _ Hl Hml).
Qed.

(** ** Balances *)

Lemma call_moves (m : ST L unit unit) d l u l' :
  keeps lo_inv m d -> lo_inv l -> ledger_call m l = (Ok u, l') -> lo_inv l' /\ moved_by d l l'.
Proof.
  intros Hm Hl. unfold ledger_call, st_map_err. destruct (m l) as [[[]|?] l0] eqn:Hml; [|done]. intros [= _ <-].
  destruct (Hm _ _ _ Hl Hml) as [? Hd]. auto.
Qed.

Lemma moved_by_trans d1 d2 l1 l2 l3 :
  moved_by d1 l1 l2 -> moved_by d2 l2 l3 -> moved_by (fun x o => d1 x o + d2 x o) l1 l3.
Proof. intros H1 H2 x o. rewrite H2, H1. lia. Qed.

Lemma moved_by_ext d d' l l' : (forall x o, d x o = d' x o) -> moved_by d l l' -> moved_by d' l l'.
Proof. intros Hd H1 x o. rewrite H1, Hd. done. Qed.

Lemma moved_by_refl l : moved_by (fun _ _ => 0) l l.
Proof. intros x o. lia. Qed.

Lemma m_add_Ok a b c : m_add a b = Ok c <-> c = a + b /\ a + b < U128.
Proof. unfold m_add. rewrite ok_or_Ok. apply checked_add_Some. Qed.

End flow.

Create HintDb market.
#[export] Hint Resolve preserves_lift preserves_ret preserves_gets : market.

(** The law of one call of the ledger. *)
Ltac ledger_law :=
  match goal with
  | |- keeps _ (lo_do_split _ _ _) _ => apply law_split
  | |- keeps _ (lo_do_merge _ _ _) _ => apply law_merge
  | |- keeps _ (lo_do_transfer _ _ _ _) _ => apply law_transfer
  | |- keeps _ (lo_do_split_scalar _ _ _ _) _ => apply law_split_scalar
  | |- keeps _ (lo_do_merge_scalar _ _ _ _) _ => apply law_merge_scalar
  | |- keeps _ (lo_do_split_gate _ _ _ _ _) _ => apply law_split_gate
  | |- keeps _ (lo_do_merge_gate _ _ _ _ _) _ => apply law_merge_gate
  | |- keeps _ (lo_do_split_baseline _ _ _) _ => apply law_split_baseline
  | |- keeps _ (lo_do_merge_baseline _ _ _) _ => apply law_merge_baseline
  end.

(** A flow is a sequence of calls with amounts in range. *)
Ltac flow_preserves :=
  repeat match goal with
  | H : lift (m_add _ _) _ = (Ok _, _) |- _ =>
      apply lift_Ok in H; destruct H as [H _]; apply m_add_Ok in H; destruct H as [-> ?]
  | |- preserves (bind _ _) => apply preserves_bind; [|intros ? ? ? ?]
  | |- preserves (if _ then _ else _) => apply preserves_if; intros ?; to_prop
  | |- preserves (ledger_call _) => eapply preserves_call; ledger_law; try lia
  | |- preserves _ => auto with market
  end.

(** Runs a successful flow, collecting the movements. *)
Ltac flow_moves H :=
  repeat first
  [ match type of H with
    | bind _ _ _ = (Ok _, _) => apply bind_Ok in H; destruct H as (? & ? & ?H & H)
    end
  | match goal with
    | H' : lift (m_add _ _) _ = (Ok _, _) |- _ =>
        apply lift_Ok in H'; destruct H' as [H' ->]; apply m_add_Ok in H'; destruct H' as [-> ?]
    | H' : bind _ _ _ = (Ok _, _) |- _ => apply bind_Ok in H'; destruct H' as (? & ? & ?H & H')
    | H' : ret _ _ = (Ok _, _) |- _ => apply ret_Ok in H'; destruct H' as [_ ->]
    | H' : gets _ _ = (Ok _, _) |- _ => apply gets_Ok in H'; destruct H' as [-> ->]
    | H' : (if ?c then _ else _) _ = (Ok _, _) |- _ => destruct c eqn:?; to_prop
    | Hl : lo_inv ?l, H' : ledger_call _ ?l = (Ok _, _) |- _ =>
        let Hi := fresh "Hinv" in let Hm := fresh "Hmoved" in
        eapply call_moves in H' as [Hi Hm]; [|ledger_law; lia|exact Hl]
    end ].

(** The final balance from the first one: credits are multiples of a unit. *)
Definition hit {A} `{EqDecision A} (id : PositionId) (who : A) (x : PositionId) (o : A) : Z := credit id who 1 x o.

Lemma credit_hit {A} `{EqDecision A} id (who : A) d x o : credit id who d x o = d * hit id who x o.
Proof. unfold hit, credit. goal_decide; lia. Qed.

(** Amounts a skipped call would have moved. *)
Ltac zeros :=
  repeat match goal with
  | Hz : ?f + ?g <= 0 |- _ => assert (f = 0) as -> by lia; assert (g = 0) as -> by lia; clear Hz
  | Hz : ?f <= 0 |- _ => is_var f; assert (f = 0) as -> by lia; clear Hz
  end.

(** The mirror branch-USDC is none of the positions moved so far. *)
Ltac mirror_kept :=
  repeat match goal with
  | M : moved_by _ _ ?l1 |- context [lo_position_balance _ _ ?l1] => rewrite M; clear M
  end;
  cbv beta; unfold credit, position;
  match goal with b : Branch |- _ => destruct b end; cbn [other scalar_kind gate_kind];
  repeat goal_decide; naive_solver (congruence || lia).

Ltac unwind :=
  let x := fresh "x" in let o := fresh "o" in
  intros x o;
  repeat match goal with
  | M : moved_by _ _ ?l' |- context [lo_position_balance _ _ ?l'] => rewrite M; clear M
  end;
  cbv beta zeta; rewrite ?credit_hit; zeros; unfold leg, position, baseline; cbn [money scalar_kind gate_kind other]; first [ring|exfalso; lia].

Section flow.
Context {A L : Type} `{EqDecision A} `{!LedgerOps A L} `{!LedgerLaws A L}.

Implicit Types (l : L) (who book fees : A) (amount cost fee net : Z).

Lemma buy_branch_preserves pid branch side who book fees amount cost fee :
  is_u128 amount -> is_u128 cost -> is_u128 fee ->
  preserves (buy_branch pid branch side who book fees amount cost fee).
Proof. intros. unfold buy_branch. flow_preserves. Qed.

Lemma buy_gate_preserves pid branch gate side who book fees amount cost fee :
  is_u128 amount -> is_u128 cost -> is_u128 fee ->
  preserves (buy_gate pid branch gate side who book fees amount cost fee).
Proof. intros. unfold buy_gate. flow_preserves. Qed.

Lemma buy_baseline_preserves e side who book amount total :
  is_u128 amount -> is_u128 total -> preserves (buy_baseline e side who book amount total).
Proof. intros. unfold buy_baseline. flow_preserves. Qed.

Lemma merge_net_preserves pid branch who net :
  is_u128 net -> preserves (merge_net_with_mirror pid branch who net).
Proof.
  intros Hn l r l' Hl. unfold merge_net_with_mirror, gets, bind. cbn [fst snd].
  pose proof (law_balance (position pid (other branch) BranchUsdc) who l Hl).
  destruct (0 <? _) eqn:Hm; [|by intros [= _ <-]]. intros Hr. to_prop.
  revert Hl Hr. eapply preserves_call. apply law_merge. lia.
Qed.

Lemma sell_branch_preserves pid branch side who book fees amount net fee :
  is_u128 amount -> is_u128 net -> is_u128 fee ->
  preserves (sell_branch pid branch side who book fees amount net fee).
Proof. intros. unfold sell_branch. flow_preserves; by apply merge_net_preserves. Qed.

Lemma sell_gate_preserves pid branch gate side who book fees amount net fee :
  is_u128 amount -> is_u128 net -> is_u128 fee ->
  preserves (sell_gate pid branch gate side who book fees amount net fee).
Proof. intros. unfold sell_gate. flow_preserves; by apply merge_net_preserves. Qed.

Lemma sell_baseline_preserves e side who book amount net fee :
  is_u128 amount -> is_u128 net -> is_u128 fee ->
  preserves (sell_baseline e side who book amount net fee).
Proof. intros. unfold sell_baseline. flow_preserves. Qed.

(** Legs handed from the book to the trader against both legs of a complete
    set put into the book. *)
Definition leg_moves k side who book amount set (x : PositionId) (o : A) : Z :=
  credit (leg k side) who amount x o + credit (leg k side) book (- amount) x o
  + credit (leg k SideLong) book set x o + credit (leg k SideShort) book set x o.

(** A buyer on a branch keeps the mirror branch-USDC of the cost; the fee is
    held by the fees account as complete sets. *)
Definition buy_moves k side who book fees amount cost fee (x : PositionId) (o : A) : Z :=
  match money k with
  | Some (pid, branch) =>
      leg_moves k side who book amount cost x o
      + credit (position pid (other branch) BranchUsdc) who cost x o
      + credit (position pid branch BranchUsdc) fees fee x o
      + credit (position pid (other branch) BranchUsdc) fees fee x o
  | None => leg_moves k side who book amount (cost + fee) x o
  end.

(** A seller is paid [net] in branch-USDC, of which [merged] units leave
    with as many of the mirror branch. *)
Definition sell_moves k side who book fees amount net fee merged (x : PositionId) (o : A) : Z :=
  leg_moves k side who book (- amount) (- (net + fee)) x o
  + match money k with
    | Some (pid, branch) =>
        credit (position pid branch BranchUsdc) who (net - merged) x o
        + credit (position pid (other branch) BranchUsdc) who (- merged) x o
        + credit (position pid branch BranchUsdc) fees fee x o
    | None => credit (leg k SideLong) who net x o + credit (leg k SideShort) who net x o
    end.

Lemma buy_flow_moves k side who book fees amount cost fee l u l' :
  is_u128 amount -> is_u128 cost -> is_u128 fee -> lo_inv l ->
  match k with
  | Decision pid branch => buy_branch pid branch side who book fees amount cost fee
  | Gate pid branch gate => buy_gate pid branch gate side who book fees amount cost fee
  | Baseline e => fun l => if cost + fee <? U128 then buy_baseline e side who book amount (cost + fee) l else (Err ErrLedger, l)
  end l = (Ok u, l') ->
  lo_inv l' /\ moved_by (buy_moves k side who book fees amount cost fee) l l'.
Proof.
  intros Ha Hc Hf Hl H. unfold buy_moves, leg_moves.
  destruct k as [pid branch|pid branch gate|e];
    [unfold buy_branch in H; destruct branch|unfold buy_gate in H; destruct branch
    |destruct (Z.ltb_spec (cost + fee) U128); [|done]; unfold buy_baseline in H];
    flow_moves H; (split; [assumption|]); cbn [money]; destruct side; unwind.
Qed.

Lemma merge_net_moves pid branch who net l u l' :
  is_u128 net -> lo_inv l -> merge_net_with_mirror pid branch who net l = (Ok u, l') ->
  lo_inv l' /\ moved_by (fun x o =>
    let merged := Z.min net (lo_position_balance (position pid (other branch) BranchUsdc) who l) in
    credit (position pid branch BranchUsdc) who (- merged) x o
    + credit (position pid (other branch) BranchUsdc) who (- merged) x o) l l'.
Proof.
  intros Hn Hl H. unfold merge_net_with_mirror in H. apply bind_Ok in H as (bal & l1 & Hg & H).
  apply gets_Ok in Hg as [-> ->]. pose proof (law_balance (position pid (other branch) BranchUsdc) who l Hl) as Hb.
  cbv zeta in *. set (bal := lo_position_balance (position pid (other branch) BranchUsdc) who l) in *.
  destruct (Z.ltb_spec 0 (Z.min net bal)).
  - eapply call_moves in H as [Hi Hm]; [|apply law_merge; lia|exact Hl]. split; [done|].
    destruct branch; unwind.
  - apply ret_Ok in H as [_ ->]. split; [done|]. replace (Z.min net bal) with 0 by lia.
    intros x o. rewrite !credit_hit. ring.
Qed.

(** What a sale merges away: the seller's mirror branch-USDC, up to what the
    sale pays. *)
Definition mirrored k who net l : Z :=
  match money k with
  | Some (pid, branch) => Z.min net (lo_position_balance (position pid (other branch) BranchUsdc) who l)
  | None => 0
  end.

Lemma mirrored_range k who net l : lo_inv l -> 0 <= net -> 0 <= mirrored k who net l <= net.
Proof.
  intros Hl Hn. unfold mirrored. destruct (money k) as [[pid branch]|]; [|lia].
  pose proof (law_balance (position pid (other branch) BranchUsdc) who l Hl). lia.
Qed.

Lemma sell_flow_moves k side who book fees amount net fee l u l' :
  is_u128 amount -> is_u128 net -> is_u128 fee -> lo_inv l ->
  match k with
  | Decision pid branch => sell_branch pid branch side who book fees amount net fee
  | Gate pid branch gate => sell_gate pid branch gate side who book fees amount net fee
  | Baseline e => sell_baseline e side who book amount net fee
  end l = (Ok u, l') ->
  lo_inv l' /\ moved_by (sell_moves k side who book fees amount net fee (mirrored k who net l)) l l'.
Proof.
  intros Ha Hn Hf Hl H. unfold sell_moves, leg_moves. pose proof (mirrored_range k who net l Hl ltac:(lia)) as Hmg.
  destruct k as [pid branch|pid branch gate|e];
    [unfold sell_branch in H|unfold sell_gate in H|unfold sell_baseline in H]; flow_moves H.
  all: try (match goal with Hx : merge_net_with_mirror _ _ _ _ ?l1 = _, Hi : lo_inv ?l1 |- _ =>
    assert (lo_position_balance (position pid (other branch) BranchUsdc) who l1
      = lo_position_balance (position pid (other branch) BranchUsdc) who l) as Hsame by mirror_kept;
    apply merge_net_moves in Hx as [? Hmm]; [|lia|exact Hi]; rewrite Hsame in Hmm; clear Hsame end).
  all: split; [assumption|]; unfold mirrored in *; cbn [money] in *.
  all: try (set (mg := Z.min net _) in *; clearbody mg).
  all: try destruct branch; destruct side; unwind.
Qed.
End flow.

(** ** Charges, payouts and the seed, in base units

    A charge is the difference of two LMSR costs rounded up to base units, a
    payout the difference rounded down; both are exact integers of the
    fixed-point costs. *)

Lemma scaled_spec v :
  is_u128 v -> fx_mul v (from_integer 1000000) = if v * 1000000 <? U128 then Ok (v * 1000000) else Err Overflow.
Proof.
  intros Hv. change (from_integer 1000000) with (1000000 * 2 ^ 64). rewrite fx_mul_spec by done.
  replace (v * (1000000 * 2 ^ 64)) with (v * 1000000 * 2 ^ 64) by ring. by rewrite Z.div_mul by done.
Qed.

Lemma units_up_Ok v r :
  is_u128 v -> fixed_to_base_units_up v = Ok r ->
  r = (v * 1000000 + (2 ^ 64 - 1)) / 2 ^ 64 /\ v * 1000000 <= r * 2 ^ 64 < v * 1000000 + 2 ^ 64 /\ is_u128 r.
Proof.
  intros Hv. unfold fixed_to_base_units_up. rewrite scaled_spec by done.
  destruct (Z.ltb_spec (v * 1000000) U128); [|done]. cbn [map_err rbind]. intros [= <-].
  rewrite round_charge_up_spec by lia. split; [done|]. change (2 ^ 64) with U64.
  pose proof (div_bounds (v * 1000000 + (U64 - 1)) U64 ltac:(lia)). lia.
Qed.

Lemma units_down_Ok v r :
  is_u128 v -> fixed_to_base_units_down v = Ok r ->
  r = v * 1000000 / 2 ^ 64 /\ r * 2 ^ 64 <= v * 1000000 < r * 2 ^ 64 + 2 ^ 64 /\ is_u128 r.
Proof.
  intros Hv. unfold fixed_to_base_units_down. rewrite scaled_spec by done.
  destruct (Z.ltb_spec (v * 1000000) U128); [|done]. cbn [map_err rbind]. intros [= <-].
  rewrite round_payout_down_spec. split; [done|]. change (2 ^ 64) with U64.
  pose proof (div_bounds (v * 1000000) U64 ltac:(lia)). lia.
Qed.

Section premium.
Context {A : Type}.

Implicit Types (m : MarketBook A).

(** The signed change of the book's LMSR cost in a trade, and how it rounds. *)
Lemma trade_cost_Ok (buying : bool) m side amount cost :
  book_ok m -> is_u128 amount -> trade_cost buying m side amount = Ok cost ->
  exists fl fs fb fa c0 c1,
    fx (mb_q_long m) = Ok fl /\ fx (mb_q_short m) = Ok fs /\ fx (mb_b m) = Ok fb /\ fx amount = Ok fa
    /\ lmsr_cost fl fs fb = Ok c0
    /\ (let q := shift_side (lside side) fl fs (if buying then fa else - fa) in
        lmsr_cost q.1 q.2 fb = Ok c1 /\ is_u128 q.1 /\ is_u128 q.2)
    /\ is_u128 cost
    /\ if buying then c0 <= c1 /\ (c1 - c0) * 1000000 <= cost * 2 ^ 64 < (c1 - c0) * 1000000 + 2 ^ 64
       else c1 <= c0 /\ cost * 2 ^ 64 <= (c0 - c1) * 1000000 < cost * 2 ^ 64 + 2 ^ 64.
Proof.
  intros [Hb Hl Hs _ _] Ha H. unfold trade_cost in H.
  apply rbind_Ok in H as (fl & El & H). apply rbind_Ok in H as (fs & Es & H). apply rbind_Ok in H as (fb & Eb & H).
  apply rbind_Ok in H as (fa & Ea & H). apply rbind_Ok in H as (c & Ec & H). apply map_err_Ok in Ec.
  destruct (fx_Ok _ _ Hl El) as [Hfl _], (fx_Ok _ _ Hs Es) as [Hfs _], (fx_Ok _ _ Hb Eb) as [Hfb _], (fx_Ok _ _ Ha Ea) as [Hfa _].
  exists fl, fs, fb, fa. destruct buying.
  - apply lmsr_buy_cost_Ok in Ec as (c0 & c1 & H0 & H1 & -> & Hle & Hlt). cbv zeta in *.
    assert (Hq : is_u128 (shift_side (lside side) fl fs fa).1 /\ is_u128 (shift_side (lside side) fl fs fa).2)
      by (destruct side; cbn [lside shift_side fst snd] in *; lia).
    destruct (lmsr_cost_Ok_range _ _ _ _ Hfl Hfs Hfb H0) as (_ & Hc0 & _).
    destruct (lmsr_cost_Ok_range _ _ _ _ (proj1 Hq) (proj2 Hq) Hfb H1) as (_ & Hc1 & _).
    apply units_up_Ok in H as (_ & Hr & Hu); [|lia]. exists c0, c1. done.
  - apply lmsr_sell_proceeds_Ok in Ec as (c0 & c1 & H0 & H1 & -> & Hle & Hlt). cbv zeta in *.
    assert (Hq : is_u128 (shift_side (lside side) fl fs (- fa)).1 /\ is_u128 (shift_side (lside side) fl fs (- fa)).2)
      by (destruct side; cbn [lside shift_side fst snd] in *; lia).
    destruct (lmsr_cost_Ok_range _ _ _ _ Hfl Hfs Hfb H0) as (_ & Hc0 & _).
    destruct (lmsr_cost_Ok_range _ _ _ _ (proj1 Hq) (proj2 Hq) Hfb H1) as (_ & Hc1 & _).
    apply units_down_Ok in H as (_ & Hr & Hu); [|lia]. exists c0, c1. done.
Qed.

End premium.

(** ** Trades on a ledger that keeps its laws *)

Section moves.
Context {A L : Type} `{EqDecision A} `{!LedgerOps A L} `{!LedgerLaws A L}.

Implicit Types (m : MarketBook A) (p : MarketParams) (l : L).

(** What a trade moves. *)
Definition trade_moves (buying : bool) m side (who : A) amount cost fee merged : PositionId -> A -> Z :=
  if buying then buy_moves (mb_kind m) side who (mb_account m) (mb_fees_account m) amount cost fee
  else sell_moves (mb_kind m) side who (mb_account m) (mb_fees_account m) amount (cost - fee) fee merged.

(** The complete sets of both branches that leave with a seller's mirror
    branch-USDC. *)
Definition merged_of (buying : bool) m (who : A) cost fee l : Z :=
  if buying then 0 else mirrored (mb_kind m) who (cost - fee) l.

Lemma trade_flow_moves (buying : bool) m (who : A) side amount cost fee limit l l' :
  is_u128 amount -> is_u128 cost -> is_u128 fee -> slippage_ok buying cost fee limit -> lo_inv l ->
  trade_flow buying m who side amount cost fee l = (Ok tt, l') ->
  lo_inv l' /\ moved_by (trade_moves buying m side who amount cost fee (merged_of buying m who cost fee l)) l l'.
Proof.
  intros Ha Hc Hf Hsl Hl H. unfold trade_moves, slippage_ok in *. destruct buying.
  - pose proof (buy_flow_moves (mb_kind m) side who (mb_account m) (mb_fees_account m) amount cost fee l tt l' Ha Hc Hf Hl) as Hm.
    unfold trade_flow in H. rewrite (proj2 (Z.ltb_lt (cost + fee) U128)) in Hm by lia.
    apply Hm. by destruct (mb_kind m).
  - apply (sell_flow_moves (mb_kind m) side who (mb_account m) (mb_fees_account m) amount (cost - fee) fee l tt l' Ha
      ltac:(lia) Hf Hl). unfold trade_flow in H. by destruct (mb_kind m).
Qed.

Lemma trade_flow_preserves (buying : bool) m (who : A) side amount cost fee limit :
  is_u128 amount -> is_u128 cost -> is_u128 fee -> slippage_ok buying cost fee limit ->
  preserves (trade_flow (L := L) buying m who side amount cost fee).
Proof.
  intros Ha Hc Hf Hsl. unfold trade_flow, slippage_ok in *. destruct (mb_kind m), buying.
  - by apply buy_branch_preserves.
  - apply sell_branch_preserves; lia.
  - by apply buy_gate_preserves.
  - apply sell_gate_preserves; lia.
  - apply buy_baseline_preserves; lia.
  - apply sell_baseline_preserves; lia.
Qed.

(** The book's holding of a leg and the shares outstanding add up to the
    pool, which a trade changes by its cost. *)
Definition pool m (side : ScalarSide) l : Z :=
  lo_position_balance (leg (mb_kind m) side) (mb_account m) l
  + match side with SideLong => mb_q_long m | SideShort => mb_q_short m end.

Definition pool_delta (buying : bool) m cost fee : Z :=
  if buying then match mb_kind m with Baseline _ => cost + fee | _ => cost end else - cost.

Lemma leg_inj k s s' : leg k s = leg k s' -> s = s'.
Proof. destruct k, s, s'; done. Qed.

Lemma leg_not_money k s pid b : money k = Some (pid, b) -> forall b', leg k s <> position pid b' BranchUsdc.
Proof. destruct k, s; done. Qed.

Lemma moves_pool (buying : bool) m side (who : A) amount cost fee merged s :
  who <> mb_account m -> mb_fees_account m <> mb_account m ->
  trade_moves buying m side who amount cost fee merged (leg (mb_kind m) s) (mb_account m)
  = pool_delta buying m cost fee - (if decide (s = side) then (if buying then amount else - amount) else 0).
Proof.
  intros Hw Hf. unfold trade_moves, pool_delta, buy_moves, sell_moves, leg_moves, credit.
  destruct buying, (mb_kind m), s, side; cbn [money leg scalar_kind gate_kind]; unfold position, baseline;
    repeat goal_decide;
    try match goal with Hn : ~ (?a = ?a /\ ?b = ?b) |- _ => by destruct Hn end;
    destruct_and?; (congruence || lia).
Qed.

End moves.
