(* ===== verification/MarketSystem.v ===== *)
(** * The market table and the ledger together

    [MarketCall] lists the entry points of [MarketState]; [sys_step] is one
    of them, or anything that happens to the ledger in between.  Every
    reachable pair keeps the ledger reachable and every book well-formed and
    inside the LMSR domain. *)

From S2P Require Import Prelude Keyed Primitives Ledger LedgerProps U256 FixedPoint FixedProps Twap Market MarketObserve MarketTrade MarketLedger MarketFlow.

Inductive MarketCall (A : Type) : Type :=
| MCreate (id : MarketId) (kind : BookKind) (account fees_account : A) (b : Balance)
| MSeed (id : MarketId) (treasury : A)
| MBuy (id : MarketId) (who : A) (side : ScalarSide) (amount max_cost : Balance) (block : Z)
| MSell (id : MarketId) (who : A) (side : ScalarSide) (amount min_proceeds : Balance) (block : Z)
| MClose (id : MarketId).
Arguments MCreate {A}.
Arguments MSeed {A}.
Arguments MBuy {A}.
Arguments MSell {A}.
Arguments MClose {A}.

(** A method of the table alone, on the pair. *)
Definition on_markets {S T R} (f : ST S MarketError R) : ST (S * T) MarketError R :=
  fun s => let (r, ms) := f s.1 in (r, (ms, s.2)).

Section system.
Context {A : Type} `{EqDecision A}.

Implicit Types (m : MarketBook A) (ms : MarketState A) (l : LedgerState A) (c : MarketCall A).

Definition mexec c : ST (MarketState A * LedgerState A) MarketError unit :=
  match c with
  | MCreate id kind account fees_account b => on_markets (create_market id kind account fees_account b)
  | MSeed id treasury => let! h := market_seed id treasury in ret tt
  | MBuy id who side amount max_cost block => buy id who side amount max_cost block
  | MSell id who side amount min_proceeds block => sell id who side amount min_proceeds block
  | MClose id => on_markets (close id)
  end.

(** Arguments in range; a seed makes protocol accounts of accounts that hold
    no deposit. *)
Definition mcall_ok c (s : MarketState A * LedgerState A) : Prop :=
  match c with
  | MCreate _ _ _ _ b => 0 < b < U128
  | MSeed id _ => forall m, find_key mb_id id (ms_markets s.1) = Some m ->
      lo_free (mb_account m) s.2 /\ lo_free (mb_fees_account m) s.2
  | MBuy _ _ _ amount _ block | MSell _ _ _ amount _ block => is_u128 amount /\ is_u64 block
  | MClose _ => True
  end.

Inductive sys_step : relation (MarketState A * LedgerState A) :=
| sys_market c s : mcall_ok c s -> sys_step s (mexec c s).2
| sys_ledger ms l l' : ledger_step l l' -> sys_step (ms, l) (ms, l').

Definition sys_reachable (s : MarketState A * LedgerState A) : Prop :=
  rtc sys_step (MarketState_new, LedgerState_new) s.

(** The domain of a book: fresh, or inside [|q_L - q_S| <= 48 b]. *)
Definition in_domain m : Prop :=
  0 < mb_b m
  /\ ((mb_q_long m = 0 /\ mb_q_short m = 0)
      \/ (48 * mb_b m < U128 /\ Z.abs (mb_q_long m - mb_q_short m) <= 48 * mb_b m)).

Definition sys_ok (s : MarketState A * LedgerState A) : Prop :=
  reachable s.2 /\ forall m, m ∈ ms_markets s.1 -> book_ok m /\ in_domain m.

Lemma MarketBook_open_ok id kind (account fees : A) b :
  0 < b < U128 -> book_ok (MarketBook_open id kind account fees b) /\ in_domain (MarketBook_open id kind account fees b).
Proof.
  intros Hb. split; [split|split]; simpl; try lia. split; simpl; try lia; done.
Qed.

Lemma mexec_seed id treasury s : (mexec (MSeed id treasury) s).2 = (market_seed id treasury s).2.
Proof. simpl. unfold bind. by destruct (market_seed id treasury s) as [[]]. Qed.

(** ** Seeding *)

Lemma seed_headroom_range b h : is_u128 b -> seed_headroom b = Ok h -> is_u128 h.
Proof.
  intros Hb H. unfold seed_headroom in H. apply rbind_Ok in H as (v & Hv & H). apply rbind_Ok in H as (x & Hx & H).
  apply map_err_Ok in Hx. destruct (fx_Ok _ _ Hb Hv) as [Hfv _].
  rewrite fx_mul_spec in Hx by (done || (unfold LN_2; lia)). destruct (Z.ltb_spec (v * LN_2 / 2 ^ 64) U128); [|done].
  injection Hx as <-. apply units_up_Ok in H as (_ & _ & ?); [done|]. split; [|done].
  apply Z.div_pos; unfold LN_2; lia.
Qed.

Lemma seed_flow_preserves {L} `{!LedgerOps A L} `{!LedgerLaws A L} m (treasury : A) (l : L) r (l' : L) :
  is_u128 (mb_b m) -> lo_inv l -> lo_free (mb_account m) l -> lo_free (mb_fees_account m) l ->
  seed_book m treasury l = (r, l') -> lo_inv l'.
Proof.
  intros Hb Hl Ha Hf H. unfold seed_book in H.
  destruct (seed_headroom (mb_b m)) as [h|e] eqn:Hh; [|by injection H as _ <-].
  pose proof (seed_headroom_range _ _ Hb Hh) as Hr.
  rewrite (lift_step _ _ _ h) in H by done. unfold note_account in H. rewrite !bind_modify in H.
  destruct (law_note (mb_account m) l Hl Ha) as (Hl1 & _ & Hfree).
  destruct (law_note (mb_fees_account m) _ Hl1 (Hfree _ Hf)) as (Hl2 & _).
  revert H. match goal with |- ?f ?l2 = _ -> _ => assert (Hp : preserves f) end; [|by apply Hp].
  apply preserves_bind; [|intros ? ? ? ?; apply preserves_ret].
  destruct (mb_kind m); flow_preserves.
Qed.

(** ** One call *)

Lemma create_market_Ok id kind (account fees : A) b ms u ms' :
  create_market id kind account fees b ms = (Ok u, ms') ->
  ms_markets ms' = ms_markets ms ++ [MarketBook_open id kind account fees b]
  /\ id ∉ keys mb_id (ms_markets ms).
Proof.
  intros H. unfold create_market in H. rewrite bind_get in H.
  apply bind_Ok in H as (u1 & s1 & Hd & H). apply lift_Ok in Hd as [Hd ->]. apply ensure_Ok in Hd.
  apply bind_Ok in H as (u2 & s2 & Hk & H). rewrite bind_modify in H. apply modify_Ok in H as [_ ->].
  assert (Hs2 : ms_markets s2 = ms_markets ms).
  { destruct kind; try (apply ret_Ok in Hk as [_ ->]; done).
    apply bind_Ok in Hk as (? & ? & Hl & Hk). apply lift_Ok in Hl as [_ ->]. rewrite bind_modify in Hk.
    apply modify_Ok in Hk as [_ ->]. done. }
  simpl. rewrite Hs2. split; [done|]. intros Hin. apply list_elem_of_fmap in Hin as (m & -> & Hm).
  rewrite forallb_forall in Hd. specialize (Hd m ltac:(by apply list_elem_of_In)). by rewrite Z.eqb_refl in Hd.
Qed.

Lemma create_market_Err_markets id kind (account fees : A) b ms e ms' :
  create_market id kind account fees b ms = (Err e, ms') -> ms' = ms.
Proof.
  unfold create_market. rewrite bind_get. intros H.
  apply bind_Err in H as [[= _ ->]|(u1 & s1 & Hd & H)]; [done|]. apply lift_Ok in Hd as [_ ->].
  apply bind_Err in H as [H|(u2 & s2 & Hk & H)]; [|by rewrite bind_modify in H].
  destruct kind; try done. apply bind_Err in H as [[= _ ->]|(? & ? & Hl & H)]; [done|]. by rewrite bind_modify in H.
Qed.

Lemma trade_inner_Ok id trade ms l u ms' l' :
  trade_inner (A := A) id trade (ms, l) = (Ok u, (ms', l')) ->
  exists m m' evs, find_key mb_id id (ms_markets ms) = Some m /\ trade (m, l) = (Ok evs, (m', l'))
    /\ ms' = push_events evs (set_markets (alter_key mb_id id (fun _ => m') (ms_markets ms)) ms).
Proof.
  unfold trade_inner. cbn [fst snd]. destruct (find_key mb_id id _) as [m|]; [|done].
  destruct (trade (m, l)) as [[evs|e] [m' l1]] eqn:Ht; [|done]. intros [= _ <- <-]. exists m, m', evs. done.
Qed.

Lemma params_default_ok : params_ok MarketParams_default.
Proof. split; simpl; unfold OBS_INTERVAL, KAPPA_1E9, FEE_BPS, BPS_DENOM; lia. Qed.

Lemma trade_ok (buying : bool) who side amount limit block m l evs m' l' :
  book_ok m -> reachable l -> is_u128 amount -> is_u64 block ->
  trade_book buying MarketParams_default who side amount limit block (m, l) = (Ok evs, (m', l')) ->
  book_ok m' /\ in_domain m' /\ reachable l'.
Proof.
  intros Hm Hl Ha Hblk Ht. pose proof params_default_ok as Hp. rewrite trade_book_Ok in Ht.
  destruct Ht as (cost & fee & _ & _ & Hc & Hfee & Hsl & Hflow & Hst).
  apply settle_trade_Ok in Hst.
  destruct (trade_cost_Ok buying m side amount cost Hm Ha Hc) as (fl & fs & fb & fa & c0 & c1 & _ & _ & Hfb & _ & _ & _ & Hcr & _).
  destruct (fee_up_Ok cost _ fee Hcr (proj1 (po_fee _ Hp)) Hfee) as [Hfr _].
  pose proof Hst as [Hq Hr _ Hpr Hsame _]. destruct (Hr ltac:(apply Hm) ltac:(apply Hm) ltac:(lia)) as [Hl' Hs'].
  split_and!.
  - eapply TradeEffect_book_ok; [exact Hp|exact Hm|exact Hblk| | |exact Hst]; lia.
  - destruct (price_1e9_quantities_Ok _ _ _ _ Hl' Hs' ltac:(apply Hm) Hpr) as (_ & Hd & H48).
    apply quantities_within_domain_spec in Hd; [|apply Hm]. destruct Hsame as (_ & _ & _ & _ & _ & Eb).
    unfold in_domain. rewrite Eb. split; [apply Hd|]. right. split; [done|apply Hd].
  - by eapply (trade_flow_preserves buying m who side amount cost fee limit) in Hflow.
Qed.

Lemma trade_call_ok (buying : bool) id who side amount limit block ms l u ms' l' :
  sys_ok (ms, l) -> is_u128 amount -> is_u64 block ->
  trade_inner id (trade_book buying MarketParams_default who side amount limit block) (ms, l) = (Ok u, (ms', l')) ->
  sys_ok (ms', l').
Proof.
  intros [Hl Hms] Ha Hblk H. apply trade_inner_Ok in H as (m & m' & evs & Hf & Ht & ->).
  pose proof (find_key_Some _ _ _ _ Hf) as [_ Hin]. destruct (Hms m Hin) as [Hm _].
  destruct (trade_ok _ _ _ _ _ _ _ _ _ _ _ Hm Hl Ha Hblk Ht) as (Hm' & Hd' & Hl'). split; [exact Hl'|].
  intros w Hw. simpl in Hw. apply elem_of_alter in Hw as [Hw|(? & _ & ->)]; [by apply Hms|done].
Qed.

Lemma mexec_ok c s : sys_ok s -> mcall_ok c s -> sys_ok (mexec c s).2.
Proof.
  intros Hs Hc. destruct s as [ms l]. destruct c as [id kind acc fees b|id tr|id who side a lim blk|id who side a lim blk|id]; simpl in Hc.
  - unfold mexec, on_markets. cbn [fst snd]. destruct (create_market _ _ _ _ _ ms) as [[u|e] ms'] eqn:Hcm; simpl.
    + apply create_market_Ok in Hcm as [Hms _]. split; [apply Hs|]. simpl. rewrite Hms. intros m.
      rewrite elem_of_app, list_elem_of_singleton. intros [Hm| ->]; [by apply Hs|by apply MarketBook_open_ok].
    + by apply create_market_Err_markets in Hcm as ->.
  - unfold mexec, market_seed, bind. cbn [fst snd]. destruct (find_key mb_id id _) as [m|] eqn:Hf; [|done].
    destruct (Hc m eq_refl) as [Hfa Hff]. pose proof (find_key_Some _ _ _ _ Hf) as [_ Hin].
    destruct Hs as [Hl Hms]. destruct (Hms m Hin) as [Hm _].
    destruct (seed_book m tr l) as [r l'] eqn:Hsb.
    pose proof (seed_flow_preserves m tr l r l' ltac:(apply Hm) Hl Hfa Hff Hsb) as Hl'. by destruct r.
  - unfold mexec, buy. destruct Hc as [Ha Hblk]. destruct (atomic _ _) as [[u|e] [ms' l']] eqn:Hb; simpl.
    + rewrite atomic_Ok in Hb. exact (trade_call_ok true id who side a lim blk ms l u ms' l' Hs Ha Hblk Hb).
    + by apply atomic_Err in Hb as ->.
  - unfold mexec, sell. destruct Hc as [Ha Hblk]. destruct (atomic _ _) as [[u|e] [ms' l']] eqn:Hb; simpl.
    + rewrite atomic_Ok in Hb. exact (trade_call_ok false id who side a lim blk ms l u ms' l' Hs Ha Hblk Hb).
    + by apply atomic_Err in Hb as ->.
  - unfold mexec, on_markets, close. cbn [fst snd]. rewrite bind_get. unfold bind, lift.
    destruct (ok_or _ _) as [m|e]; simpl; [|done]. split; [apply Hs|]. simpl. intros w Hw.
    apply elem_of_alter in Hw as [Hw|(m0 & Hf & ->)]; [by apply Hs|].
    pose proof (find_key_Some _ _ _ _ Hf) as [_ Hin]. destruct Hs as [_ Hms]. by destruct (Hms m0 Hin) as [[? ? ? ? []] ?].
Qed.

Lemma sys_ok_of_reachable s : sys_reachable s -> sys_ok s.
Proof.
  intros Hr. pattern s. eapply rtc_ind_r; [| |exact Hr].
  - split; [apply rtc_refl|]. simpl. intros m Hm. by apply elem_of_nil in Hm.
  - intros x y _ [c s0 Hc|ms l l' Hst] IH; [by apply mexec_ok|]. destruct IH as [Hl Hms].
    split; [by eapply rtc_r|done].
Qed.

(** The state checker accepts a table of books inside the domain. *)
Lemma market_try_state_ok ms : (forall m, m ∈ ms_markets ms -> book_ok m /\ in_domain m) -> market_try_state ms = Ok tt.
Proof.
  intros Hms. unfold market_try_state. apply for_each_Ok. intros m Hm. destruct (Hms m Hm) as [Hok [Hpos Hd]].
  rewrite ensure_true by (apply Z.ltb_lt; lia). cbn [rbind]. apply ensure_true. apply orb_true_iff.
  destruct Hd as [[-> ->]|[H48 Hd]].
  - left. unfold wrap. pose proof (Z.mod_pos_bound (48 * mb_b m) U128 ltac:(lia)). apply andb_true_iff. lia.
  - right. rewrite wrap_small by lia. lia.
Qed.

(** A failing trade leaves table and ledger as they were. *)
Lemma trade_call_Err c s e s' :
  match c with MBuy _ _ _ _ _ _ | MSell _ _ _ _ _ _ => True | _ => False end ->
  mexec c s = (Err e, s') -> s' = s.
Proof. destruct c; try done; intros _; apply atomic_Err. Qed.

End system.
