(* ===== verification/MarketSolvency.v ===== *)
(** * The seeded book can always deliver

    The premium the book has collected is, up to a few units of the last
    place per trade, at least the rise of the real LMSR cost; the cost at the
    start is [b ln 2], which is what the seed pays.  So the seed and the
    premium together cover the larger outstanding side, and neither a buy
    nor a payout can exhaust the legs the book holds. *)

From Stdlib Require Import Reals Lra.
From S2P Require Import Prelude Keyed Primitives Ledger U256 FixedPoint FixedProps FixedReal FixedLog FixedCost Twap Market MarketObserve MarketTrade MarketLedger MarketFlow.

#[local] Open Scope R_scope.

(** ** The real cost function *)

Lemma exp_le x y : x <= y -> exp x <= exp y.
Proof. intros [H| ->]; [by apply Rlt_le, exp_increasing|lra]. Qed.

Lemma lmsr_C_mono_shift q1 q2 q1' q2' b d :
  0 < b -> q1 <= q1' + d -> q2 <= q2' + d -> lmsr_C q1 q2 b <= lmsr_C q1' q2' b + d.
Proof.
  intros Hb H1 H2. unfold lmsr_C. pose proof (exp_pos (q1 / b)). pose proof (exp_pos (q2 / b)).
  pose proof (exp_pos (q1' / b)). pose proof (exp_pos (q2' / b)). pose proof (exp_pos (d / b)).
  assert (Hle : forall q q', q <= q' + d -> exp (q / b) <= exp (d / b) * exp (q' / b)).
  { intros q q' Hq. rewrite <- exp_plus. apply exp_le.
    apply (Rmult_le_reg_r b); [done|]. field_simplify; lra. }
  assert (Hln : ln (exp (q1 / b) + exp (q2 / b)) <= d / b + ln (exp (q1' / b) + exp (q2' / b))).
  { rewrite <- (ln_exp (d / b)). rewrite <- ln_mult by lra.
    pose proof (Hle _ _ H1). pose proof (Hle _ _ H2).
    assert (Hs : exp (q1 / b) + exp (q2 / b) <= exp (d / b) * (exp (q1' / b) + exp (q2' / b))) by lra.
    destruct Hs as [Hs| ->]; [apply Rlt_le, ln_increasing; lra|lra]. }
  replace (b * ln (exp (q1' / b) + exp (q2' / b)) + d) with (b * (d / b + ln (exp (q1' / b) + exp (q2' / b)))) by (field; lra).
  apply Rmult_le_compat_l; lra.
Qed.

Lemma lmsr_C_ge q1 q2 b : 0 < b -> q1 <= lmsr_C q1 q2 b.
Proof.
  intros Hb. rewrite lmsr_C_max by done. pose proof (exp_pos (- ((q1 - q2) / b))).
  assert (0 <= ln (1 + exp (- ((q1 - q2) / b)))); [|nra].
  rewrite <- ln_1. apply Rlt_le, ln_increasing; lra.
Qed.

Lemma lmsr_C_zero b : 0 < b -> lmsr_C 0 0 b = b * ln 2.
Proof. intros Hb. unfold lmsr_C. do 2 f_equal. rewrite Rdiv_0_l, exp_0. lra. Qed.

(** ** One trade *)

(** A quantity in USDC. *)
Definition usdc (v : Z) : R := IZR v / 1000000.

Lemma fx_near v f : is_u128 v -> fx v = Ok f -> usdc v - ulp < toR f <= usdc v.
Proof.
  intros Hv Hf. destruct (fx_Ok _ _ Hv Hf) as [_ [H1 H2]]. apply IZR_le in H1. apply IZR_lt in H2.
  rewrite plus_IZR in H2. rewrite !mult_IZR in H1, H2. fold (pw 64) in H1, H2.
  pose proof (pw_pos 64 ltac:(lia)) as Hp. unfold usdc, toR, ulp. set (w := pw 64) in *. clearbody w.
  split; apply (Rmult_lt_reg_r w) || apply (Rmult_le_reg_r w); try done.
  - replace ((IZR v / 1000000 - / w) * w) with (IZR v * w / 1000000 - 1) by (field; lra).
    replace (IZR f / w * w) with (IZR f) by (field; lra). lra.
  - replace (IZR f / w * w) with (IZR f) by (field; lra). lra.
Qed.

Definition signed (buying : bool) (v : Z) : Z := if buying then v else (- v)%Z.

(** The cost function of a book, in USDC. *)
Definition book_C {A} (fb : Z) (m : MarketBook A) : R := lmsr_C (usdc (mb_q_long m)) (usdc (mb_q_short m)) (toR fb).

Definition slack (fb : Z) : R := (208 * toR fb + 5) * ulp.

Lemma usdc_plus v w : usdc (v + w) = usdc v + usdc w.
Proof. unfold usdc. rewrite plus_IZR. lra. Qed.

Lemma usdc_opp v : usdc (- v) = - usdc v.
Proof. unfold usdc. rewrite opp_IZR. lra. Qed.

Lemma toR_pos f : (0 < f)%Z -> 0 < toR f.
Proof. intros. apply Rmult_lt_0_compat; [by apply IZR_lt|apply Rinv_0_lt_compat, pw_pos; lia]. Qed.

Section trade.
Context {A : Type}.

Implicit Types (m : MarketBook A).

Lemma trade_premium (buying : bool) m side amount cost fb m' :
  book_ok m -> is_u128 amount -> fx (mb_b m) = Ok fb -> trade_cost buying m side amount = Ok cost ->
  (mb_q_long m', mb_q_short m') = post_quantities buying side amount m ->
  book_C fb m' - book_C fb m - slack fb <= usdc (signed buying cost).
Proof.
  intros Hm Ha Hfb Hc Hq.
  destruct (trade_cost_Ok buying m side amount cost Hm Ha Hc)
    as (fl & fs & fb' & fa & c0 & c1 & El & Es & Eb & Ea & H0 & (H1 & Hs1 & Hs2) & Hcr & Hround).
  rewrite Hfb in Eb. injection Eb as <-. destruct Hm as [Hb Hl Hs _ _].
  pose proof (fx_near _ _ Hl El) as Nl. pose proof (fx_near _ _ Hs Es) as Ns. pose proof (fx_near _ _ Ha Ea) as Na.
  destruct (fx_Ok _ _ Hl El) as [Rl _], (fx_Ok _ _ Hs Es) as [Rs _], (fx_Ok _ _ Hb Hfb) as [Rb _].
  destruct (lmsr_cost_Ok_range _ _ _ _ Rl Rs Rb H0) as (D0 & _ & _).
  destruct (lmsr_cost_Ok_range _ _ _ _ Hs1 Hs2 Rb H1) as (D1 & _ & _).
  pose proof (lmsr_cost_near _ _ _ _ D0 H0) as A0. pose proof (lmsr_cost_near _ _ _ _ D1 H1) as A1.
  apply Rabs_inv in A0, A1. cbv zeta in A1. pose proof ulp_pos as Hu.
  assert (HbR : 0 < toR fb) by (apply toR_pos; apply D0).
  (* the charge against the two costs *)
  assert (Hcost : toR c1 - toR c0 <= usdc (signed buying cost)).
  { unfold signed, toR, usdc. pose proof (pw_pos 64 ltac:(lia)) as Hp.
    apply (Rmult_le_reg_r (pw 64 * 1000000)); [lra|].
    replace ((IZR c1 / pw 64 - IZR c0 / pw 64) * (pw 64 * 1000000)) with ((IZR c1 - IZR c0) * 1000000) by (field; lra).
    destruct buying.
    - replace (IZR cost / 1000000 * (pw 64 * 1000000)) with (IZR cost * pw 64) by field.
      destruct Hround as [_ [Hr _]]. apply IZR_le in Hr. rewrite !mult_IZR, minus_IZR in Hr. exact Hr.
    - rewrite opp_IZR. replace (- IZR cost / 1000000 * (pw 64 * 1000000)) with (- (IZR cost * pw 64)) by field.
      destruct Hround as [_ [Hr _]]. apply IZR_le in Hr. rewrite !mult_IZR, minus_IZR in Hr. fold (pw 64) in Hr. lra. }
  (* the costs against the real function *)
  assert (L0 : lmsr_C (toR fl) (toR fs) (toR fb) <= book_C fb m + 0) by (apply lmsr_C_mono_shift; lra).
  set (q := shift_side (lside side) fl fs (if buying then fa else (- fa)%Z)) in *.
  assert (L1 : book_C fb m' <= lmsr_C (toR q.1) (toR q.2) (toR fb) + 2 * ulp).
  { unfold book_C, post_quantities in *. destruct side, buying; cbn [lside shift_side fst snd] in q;
      injection Hq as -> ->; subst q; cbn [fst snd]; rewrite ?usdc_plus, ?usdc_opp, ?toR_plus;
      try (replace (toR (- fa)) with (- toR fa) by (unfold toR; rewrite opp_IZR; lra));
      apply lmsr_C_mono_shift; lra. }
  unfold slack. nra.
Qed.

End trade.

(** ** The seed *)

Lemma headroom_covers b fb h :
  is_u128 b -> fx b = Ok fb -> seed_headroom b = Ok h -> toR fb * ln 2 - (toR fb + 1) * ulp <= usdc h.
Proof.
  intros Hb Hfb H. unfold seed_headroom in H. rewrite Hfb in H. cbn [rbind] in H.
  destruct (fx_Ok _ _ Hb Hfb) as [Rb _]. rewrite fx_mul_spec in H by (done || (unfold LN_2; lia)).
  destruct (Z.ltb_spec (fb * LN_2 / 2 ^ 64) U128); [|done]. cbn [map_err rbind] in H.
  assert (Hx : is_u128 (fb * LN_2 / 2 ^ 64)) by (split; [apply Z.div_pos; unfold LN_2; lia|done]).
  apply units_up_Ok in H as (_ & [Hr _] & _); [|done].
  pose proof (toR_mul fb LN_2) as [Hm _]. pose proof LN_2_accurate as HL. apply Rabs_inv in HL.
  set (x := (fb * LN_2 / 2 ^ 64)%Z) in *. clearbody x.
  assert (Hux : toR x <= usdc h).
  { unfold toR, usdc. pose proof (pw_pos 64 ltac:(lia)) as Hp. apply (Rmult_le_reg_r (pw 64 * 1000000)); [lra|].
    replace (IZR x / pw 64 * (pw 64 * 1000000)) with (IZR x * 1000000) by (field; lra).
    replace (IZR h / 1000000 * (pw 64 * 1000000)) with (IZR h * pw 64) by field.
    apply IZR_le in Hr. rewrite !mult_IZR in Hr. exact Hr. }
  pose proof (toR_nonneg fb ltac:(lia)). pose proof ulp_pos. nra.
Qed.

(** ** Any number of trades *)

(** The rounding of one trade, in units of [2^-64] base units. *)
Definition rounding (b : Z) : Z := 208 * b + 5000000.

(** The rounding of [k] trades stays below one base unit. *)
Definition within_budget (b : Z) (k : nat) : Prop := (Z.of_nat k * rounding b < 2 ^ 64)%Z.

(** What is needed is held up to the rounding of [k] trades, and in full
    while that is below one base unit. *)
Definition covers (b : Z) (k : nat) (need held : Z) : Prop :=
  ((need - held) * 2 ^ 64 <= Z.of_nat k * rounding b /\ (within_budget b k -> need <= held))%Z.

Lemma covers_intro b k need held : ((need - held) * 2 ^ 64 <= Z.of_nat k * rounding b)%Z -> covers b k need held.
Proof. unfold covers, within_budget. intros H. split; [done|]. lia. Qed.

Lemma slack_units b fb :
  is_u128 b -> fx b = Ok fb -> 0 <= slack fb * (1000000 * pw 64) <= IZR (rounding b).
Proof.
  intros Hb Hfb. unfold slack, rounding. pose proof (fx_near _ _ Hb Hfb) as [_ Hnear].
  destruct (fx_Ok _ _ Hb Hfb) as [Rb _]. pose proof (toR_nonneg fb ltac:(lia)) as HB.
  rewrite plus_IZR, mult_IZR. pose proof (pw_pos 64 ltac:(lia)) as Hp. unfold ulp, usdc in *. set (w := pw 64) in *. clearbody w.
  replace ((208 * toR fb + 5) * / w * (1000000 * w)) with ((208 * toR fb + 5) * 1000000) by (field; lra). lra.
Qed.

(** A shortfall that is at most the slack of [k] trades, in base units. *)
Lemma slack_bound b fb k x :
  is_u128 b -> fx b = Ok fb -> usdc x <= INR k * slack fb -> (x * 2 ^ 64 <= Z.of_nat k * rounding b)%Z.
Proof.
  intros Hb Hfb Hx. apply le_IZR. rewrite !mult_IZR, <- INR_IZR_INZ. fold (pw 64).
  pose proof (slack_units b fb Hb Hfb) as [_ Hs]. pose proof (pos_INR k). pose proof (pw_pos 64 ltac:(lia)) as Hp.
  transitivity (INR k * (slack fb * (1000000 * pw 64))); [|by apply Rmult_le_compat_l].
  replace (IZR x * pw 64) with (usdc x * (1000000 * pw 64)) by (unfold usdc; field).
  replace (INR k * (slack fb * (1000000 * pw 64))) with (INR k * slack fb * (1000000 * pw 64)) by ring.
  apply Rmult_le_compat_r; lra.
Qed.

Section run.
Context {A L : Type} `{EqDecision A} `{!LedgerOps A L} `{!LedgerLaws A L}.

Implicit Types (m : MarketBook A) (p : MarketParams) (l : L).

(** The successful trades of a book, with whatever else happens to the
    ledger in between as long as the book's legs are not taken. *)
Inductive book_run p (m0 : MarketBook A) (l0 : L) : nat -> MarketBook A -> L -> Prop :=
| run_start : book_run p m0 l0 0 m0 l0
| run_trade n m l (buying : bool) who side amount limit block evs m' l' :
    book_run p m0 l0 n m l ->
    who <> mb_account m -> is_u128 amount -> is_u64 block ->
    trade_book buying p who side amount limit block (m, l) = (Ok evs, (m', l')) ->
    book_run p m0 l0 (S n) m' l'
| run_ledger n m l l' :
    book_run p m0 l0 n m l -> lo_inv l' ->
    (forall s, (lo_position_balance (leg (mb_kind m) s) (mb_account m) l
                <= lo_position_balance (leg (mb_kind m) s) (mb_account m) l')%Z) ->
    book_run p m0 l0 n m l'.

(** A book freshly opened and seeded. *)
Record seeded p m l : Prop := {
  sd_params : params_ok p;
  sd_book : book_ok m;
  sd_inv : lo_inv l;
  sd_accounts : mb_fees_account m <> mb_account m;
  sd_fresh : mb_q_long m = 0%Z /\ mb_q_short m = 0%Z;
  sd_b : exists fb h, fx (mb_b m) = Ok fb /\ (0 < fb)%Z /\ seed_headroom (mb_b m) = Ok h
         /\ forall s, (h <= lo_position_balance (leg (mb_kind m) s) (mb_account m) l)%Z;
}.

Lemma trade_step (buying : bool) p who side amount limit block m l evs m' l' :
  params_ok p -> book_ok m -> lo_inv l -> mb_fees_account m <> mb_account m ->
  who <> mb_account m -> is_u128 amount -> is_u64 block ->
  trade_book buying p who side amount limit block (m, l) = (Ok evs, (m', l')) ->
  exists cost fee, trade_cost buying m side amount = Ok cost /\ fee_up cost (mp_fee_bps p) = Ok fee
    /\ book_ok m' /\ lo_inv l'
    /\ (mb_q_long m', mb_q_short m') = post_quantities buying side amount m
    /\ (mb_kind m' = mb_kind m /\ mb_account m' = mb_account m /\ mb_fees_account m' = mb_fees_account m /\ mb_b m' = mb_b m)
    /\ forall s, (pool m' s l' = pool m s l + pool_delta buying m cost fee
                  /\ signed buying cost <= pool_delta buying m cost fee)%Z.
Proof.
  intros Hp Hm Hl Hacc Hw Ha Hblk Ht. rewrite trade_book_Ok in Ht.
  destruct Ht as (cost & fee & _ & _ & Hc & Hfee & Hsl & Hflow & Hst). apply settle_trade_Ok in Hst as He.
  destruct (trade_cost_Ok buying m side amount cost Hm Ha Hc) as (_ & _ & _ & _ & _ & _ & _ & _ & _ & _ & _ & _ & Hcr & _).
  destruct (fee_up_Ok cost _ fee Hcr (proj1 (po_fee _ Hp)) Hfee) as [Hfr _].
  destruct (trade_flow_moves buying m who side amount cost fee limit l l' Ha Hcr Hfr Hsl Hl Hflow) as (Hl' & Hmv).
  exists cost, fee. split_and!; try done.
  - eapply TradeEffect_book_ok; [exact Hp|exact Hm|exact Hblk| | |exact He]; lia.
  - by destruct He.
  - by destruct He as [_ _ _ _ (? & ? & ? & ? & ? & ?) _].
  - by destruct He as [_ _ _ _ (? & ? & ? & ? & ? & ?) _].
  - by destruct He as [_ _ _ _ (? & ? & ? & ? & ? & ?) _].
  - by destruct He as [_ _ _ _ (? & ? & ? & ? & ? & ?) _].
  - intros s. destruct He as [Hq _ _ _ (_ & Ek & _ & Eacc & _ & _) _]. split.
    + unfold pool. rewrite Ek, Eacc, (Hmv (leg (mb_kind m) s) (mb_account m)).
      rewrite (moves_pool buying m side who amount cost fee _ s Hw Hacc).
      unfold post_quantities in Hq. destruct s, side, buying; injection Hq as E1 E2; rewrite ?E1, ?E2; repeat goal_decide; (congruence || lia).
    + unfold signed, pool_delta. destruct buying, (mb_kind m); lia.
Qed.

(** What is kept: the legs and shares of either side are worth the seed and
    the rise of the cost function, up to the rounding. *)
Lemma run_covered p m0 l0 n m l fb h :
  seeded p m0 l0 -> fx (mb_b m0) = Ok fb -> seed_headroom (mb_b m0) = Ok h ->
  book_run p m0 l0 n m l ->
  book_ok m /\ lo_inv l /\ mb_fees_account m <> mb_account m /\ mb_b m = mb_b m0
  /\ exists P, (forall s, (h + P <= pool m s l)%Z) /\ book_C fb m - toR fb * ln 2 - INR n * slack fb <= usdc P.
Proof.
  intros [Hp Hm Hl Hacc [Hq0 Hq1] (fb' & h' & Ef & Hpos & Eh & Hseed)] Hfb Hh.
  rewrite Hfb in Ef. injection Ef as <-. rewrite Hh in Eh. injection Eh as <-.
  induction 1 as [|n m l buying who side amount limit block evs m' l' Hrun IH Hw Ha Hblk Ht|n m l l' Hrun IH Hl' Hmono].
  - split_and!; try done. exists 0%Z. split.
    + intros s. specialize (Hseed s). unfold pool. destruct s; lia.
    + unfold book_C. rewrite Hq0, Hq1. unfold usdc. rewrite Rdiv_0_l, lmsr_C_zero by (by apply toR_pos). simpl. lra.
  - destruct IH as (Hm1 & Hl1 & Hacc1 & Eb & P & HP & HC).
    destruct (trade_step buying p who side amount limit block m l evs m' l' Hp Hm1 Hl1 Hacc1 Hw Ha Hblk Ht)
      as (cost & fee & Hc & _ & Hm' & Hl' & Hq & (_ & Ea & Ef & Eb') & Hpool).
    split_and!; [done|done|congruence|congruence|]. exists (P + signed buying cost)%Z. split.
    + intros s. destruct (Hpool s) as [-> ?]. specialize (HP s). lia.
    + rewrite <- Eb in Hfb. pose proof (trade_premium buying m side amount cost fb m' Hm1 Ha Hfb Hc Hq) as Hpr.
      rewrite usdc_plus, S_INR. lra.
  - destruct IH as (Hm1 & Hl1 & Hacc1 & Eb & P & HP & HC). split_and!; try done. exists P. split; [|done].
    intros s. specialize (HP s). specialize (Hmono s). unfold pool in *. lia.
Qed.

(** The next trade at its quoted cost: the legs the book would hold after
    putting in (or taking out) the complete sets cover what it must deliver,
    up to the rounding of the trades and the seed. *)
Lemma book_can_deliver p m0 l0 n m l (buying : bool) side amount cost :
  seeded p m0 l0 -> book_run p m0 l0 n m l -> is_u128 amount -> trade_cost buying m side amount = Ok cost ->
  forall s, covers (mb_b m0) (n + 2)
    (if decide (s = side) then (if buying then amount else 0) else 0)
    (lo_position_balance (leg (mb_kind m) s) (mb_account m) l
       + (if decide (s = side) then (if buying then 0 else amount) else 0) + signed buying cost)%Z.
Proof.
  intros Hsd Hrun Ha Hc s. apply covers_intro.
  pose proof Hsd as [_ Hm0 _ _ _ (fb & h & Hfb & Hpos & Hh & _)].
  destruct (run_covered p m0 l0 n m l fb h Hsd Hfb Hh Hrun) as (Hm & Hl & _ & Eb & P & HP & HC).
  set (q := post_quantities buying side amount m) in *.
  set (m' := set_quantities q.1 q.2 m).
  assert (Hq : (mb_q_long m', mb_q_short m') = post_quantities buying side amount m) by (symmetry; apply surjective_pairing).
  pose proof Hfb as Hfb1. rewrite <- Eb in Hfb1.
  pose proof (trade_premium buying m side amount cost fb m' Hm Ha Hfb1 Hc Hq) as Hpr.
  pose proof (headroom_covers _ fb h ltac:(apply Hm0) Hfb Hh) as Hhead.
  pose proof (toR_pos fb Hpos) as HB. pose proof ulp_pos as Hu.
  (* the new cost is at least either new quantity *)
  set (q' := match s with SideLong => mb_q_long m' | SideShort => mb_q_short m' end).
  assert (Hge : usdc q' <= book_C fb m').
  { unfold q', book_C. destruct s; [by apply lmsr_C_ge|]. rewrite lmsr_C_sym. by apply lmsr_C_ge. }
  assert (Hint : ((q' - (h + P + signed buying cost)) * 2 ^ 64 <= Z.of_nat (n + 2) * rounding (mb_b m0))%Z).
  { apply (slack_bound _ fb); [by apply Hm0|done|]. unfold Z.sub. rewrite usdc_plus, usdc_opp, !usdc_plus.
    rewrite plus_INR. change (INR 2) with (1 + 1). unfold slack in *. nra. }
  specialize (HP s). unfold pool in HP. etransitivity; [|exact Hint]. apply Z.mul_le_mono_nonneg_r; [done|].
  subst q' m' q. cbn [set_quantities mb_q_long mb_q_short]. unfold post_quantities.
  destruct s, side, buying; cbn [fst snd] in *; repeat goal_decide; (congruence || lia).
Qed.

End run.

#[local] Close Scope R_scope.
#[local] Open Scope Z_scope.

(** ** Cycles of trades, the maker's loss and time-weighted means *)

Section cycles.
Context {A : Type}.

Implicit Types (m : MarketBook A).

(** [n] trades at their quoted costs, by anybody; [P] is what they paid in
    all, payouts counted negative. *)
Inductive priced_trades : nat -> Z -> MarketBook A -> MarketBook A -> Prop :=
| priced_nil m : book_ok m -> priced_trades 0 0 m m
| priced_cons n P m1 m2 m3 (buying : bool) side amount cost :
    priced_trades n P m1 m2 -> is_u128 amount ->
    trade_cost buying m2 side amount = Ok cost ->
    book_ok m3 -> mb_b m3 = mb_b m2 ->
    (mb_q_long m3, mb_q_short m3) = post_quantities buying side amount m2 ->
    priced_trades (S n) (P + signed buying cost) m1 m3.

Lemma priced_trades_ok n P m m' : priced_trades n P m m' -> book_ok m /\ book_ok m' /\ mb_b m' = mb_b m.
Proof. induction 1; naive_solver congruence. Qed.

Lemma priced_premium n P m m' fb :
  priced_trades n P m m' -> fx (mb_b m) = Ok fb ->
  (book_C fb m' - book_C fb m - INR n * slack fb <= usdc P)%R.
Proof.
  intros Hr. revert fb. induction Hr as [m Hm|n P m1 m2 m3 buying side amount cost Hr IH Ha Hc Hok Eb Hq]; intros fb Hfb.
  - unfold usdc. simpl. lra.
  - specialize (IH fb Hfb). destruct (priced_trades_ok _ _ _ _ Hr) as (_ & Hm2 & Eb2). rewrite <- Eb2 in Hfb.
    pose proof (trade_premium buying m2 side amount cost fb m3 Hm2 Ha Hfb Hc Hq).
    rewrite usdc_plus, S_INR. lra.
Qed.

(** A sequence that ends at the quantities it began with pays out no more than
    the rounding of its trades. *)
Lemma cycle_pays_nothing n P m m' fb :
  priced_trades n P m m' -> fx (mb_b m) = Ok fb ->
  mb_q_long m' = mb_q_long m -> mb_q_short m' = mb_q_short m ->
  covers (mb_b m) n 0 P.
Proof.
  intros Hr Hfb El Es. pose proof (priced_premium n P m m' fb Hr Hfb) as Hp.
  destruct (priced_trades_ok _ _ _ _ Hr) as (Hm & _ & _).
  assert (E : book_C fb m' = book_C fb m) by (unfold book_C; by rewrite El, Es).
  apply covers_intro, (slack_bound _ fb); [by apply Hm|done|]. unfold Z.sub. rewrite usdc_plus, usdc_opp.
  change (usdc 0) with (0 / 1000000)%R. lra.
Qed.

End cycles.

(** ** The maker's loss *)

Lemma lmsr_cost_zero fb :
  lmsr_domain 0 0 fb -> lmsr_cost 0 0 fb = Ok (fb * LN_2 / 2 ^ 64).
Proof.
  intros Hd. pose proof Hd as (_ & _ & Hb & Hpos & _). unfold lmsr_cost. rewrite ensure_lmsr_domain_ok by done. cbn [rbind].
  destruct (lmsr_exp_neg_total 0 0 fb Hd) as (_ & e & He & -> & _).
  assert (E : lmsr_exponent 0 0 fb = 0).
  { unfold lmsr_exponent. rewrite Z.sub_diag. simpl Z.abs. rewrite !Z.mul_0_l, Z.div_0_l by (unfold LN_2; lia). done. }
  rewrite E in He. assert (e = ONE_RAW) as -> by (vm_compute in He; injection He as <-; done).
  cbn [rbind]. replace (ln_one_plus ONE_RAW) with (Ok (E := FixedError) LN_2) by (vm_compute; done). cbn [rbind].
  rewrite fx_mul_spec by (done || (unfold LN_2; lia)).
  assert (fb * LN_2 / 2 ^ 64 <= fb) by (apply Z.div_le_upper_bound; unfold LN_2; lia).
  assert (0 <= fb * LN_2 / 2 ^ 64) by (apply Z.div_pos; unfold LN_2; lia).
  rewrite (proj2 (Z.ltb_lt _ _)) by lia. cbn [rbind]. rewrite fx_add_spec.
  change (Z.max 0 0) with 0. by rewrite Z.add_0_l, (proj2 (Z.ltb_lt _ _)) by lia.
Qed.

Lemma ensure_domain_zero fb ql qs c :
  is_u128 ql -> is_u128 qs -> is_u128 fb -> lmsr_cost ql qs fb = Ok c -> lmsr_domain 0 0 fb.
Proof.
  intros Hl Hs Hb H. destruct (lmsr_cost_Ok_range _ _ _ _ Hl Hs Hb H) as ((_ & _ & _ & Hpos & _) & _).
  unfold lmsr_domain. rewrite Z.sub_diag. simpl Z.abs. lia.
Qed.

(** The reconstructed loss never exceeds the seed: the check in the code
    cannot fire. *)
Lemma maker_loss_bounded b q_long q_short r :
  is_u128 b -> is_u128 q_long -> is_u128 q_short ->
  maker_loss_at_state b q_long q_short = r ->
  r <> Err ErrTryStateViolation
  /\ forall loss, r = Ok loss -> exists h, seed_headroom b = Ok h /\ 0 <= loss <= h /\ loss <= Z.max q_long q_short.
Proof.
  intros Hb Hl Hs <-. unfold maker_loss_at_state, seed_headroom.
  destruct (fx b) as [fb|e] eqn:Eb; [|rewrite fx_spec in Eb by done; destruct (_ <? _); [done|]; by injection Eb as <-].
  cbn [rbind]. destruct (map_err map_fixed (lmsr_cost 0 0 fb)) as [c0|e] eqn:E0.
  2: { split; [|done]. cbn [rbind]. destruct (lmsr_cost 0 0 fb) as [|[]]; try done; by injection E0 as <-. }
  cbn [rbind]. apply map_err_Ok in E0.
  destruct (fx q_long) as [fl|e] eqn:El; [|rewrite fx_spec in El by done; destruct (_ <? _); [done|]; by injection El as <-].
  destruct (fx q_short) as [fs|e] eqn:Es; [|rewrite fx_spec in Es by done; destruct (_ <? _); [done|]; by injection Es as <-].
  cbn [rbind].
  destruct (fx_Ok _ _ Hb Eb) as [Rb Nb], (fx_Ok _ _ Hl El) as [Rl Nl], (fx_Ok _ _ Hs Es) as [Rs Ns].
  destruct (map_err map_fixed (lmsr_cost fl fs fb)) as [c|e] eqn:E1.
  2: { split; [|done]. cbn [rbind]. destruct (lmsr_cost fl fs fb) as [|[]]; try done; by injection E1 as <-. }
  cbn [rbind]. apply map_err_Ok in E1.
  pose proof (ensure_domain_zero _ _ _ _ Rl Rs Rb E1) as Hd. rewrite (lmsr_cost_zero fb Hd) in E0. injection E0 as <-.
  destruct (lmsr_cost_Ok_range _ _ _ _ Rl Rs Rb E1) as (_ & Rc & Hmax).
  assert (Rx : is_u128 (fb * LN_2 / 2 ^ 64)).
  { split; [apply Z.div_pos; unfold LN_2; lia|]. apply Z.div_lt_upper_bound; [lia|]. unfold LN_2; lia. }
  rewrite fx_sub_spec. destruct (Z.leb_spec (fb * LN_2 / 2 ^ 64) c); cbn [map_err map_fixed rbind]; [|done].
  rewrite fx_mul_spec by (done || (unfold LN_2; lia)).
  rewrite (proj2 (Z.ltb_lt (fb * LN_2 / 2 ^ 64) U128)) by lia. cbn [map_err rbind].
  set (x := fb * LN_2 / 2 ^ 64) in *. clearbody x.
  destruct (fixed_to_base_units_up (c - x)) as [held|e] eqn:Eh; cbn [rbind].
  2: { split; [|done]. unfold fixed_to_base_units_up in Eh. rewrite scaled_spec in Eh by lia.
       destruct (_ <? _); [done|]. by injection Eh as <-. }
  destruct (fixed_to_base_units_up x) as [h|e] eqn:Ex; cbn [rbind].
  2: { split; [|done]. unfold fixed_to_base_units_up in Ex. rewrite scaled_spec in Ex by lia.
       destruct (_ <? _); [done|]. by injection Ex as <-. }
  apply units_up_Ok in Eh as (_ & Hheld & Rheld); [|lia]. apply units_up_Ok in Ex as (_ & Hh & Rh); [|done].
  change (2 ^ 64) with U64 in *.
  assert (Hloss : default 0 (checked_sub (Z.max q_long q_short) held) <= h
    /\ 0 <= default 0 (checked_sub (Z.max q_long q_short) held) <= Z.max q_long q_short).
  { unfold checked_sub. destruct (Z.leb_spec held (Z.max q_long q_short)); simpl; lia. }
  rewrite (proj2 (Z.ltb_ge h _)) by lia. split; [done|]. intros loss [= <-]. exists h. split; [done|]. lia.
Qed.

(** ** Time-weighted means *)

Section twap.
Context {A : Type}.

Implicit Types (m : MarketBook A) (p : MarketParams).

(** A book over time: an observation in [lo, hi] is recorded, or anything
    happens that leaves the observation fields alone (a trade's own effect). *)
Inductive twap_step p lo hi m : MarketBook A -> Prop :=
| twap_observe block r m' :
    is_u64 block -> observe_book p block m = (Ok r, m') ->
    (forall id o, r = Some (MkObserved id o) -> lo <= o <= hi) -> twap_step p lo hi m m'
| twap_other m' :
    obs_ok m' -> mb_last_observed_block m' = mb_last_observed_block m ->
    mb_cumulative_price_blocks m' = mb_cumulative_price_blocks m -> twap_step p lo hi m m'.

Definition cum m : Z := tw_val (mb_cumulative_price_blocks m).

Lemma twap_run_bounds p lo hi m m' :
  params_ok p -> obs_ok m -> rtc (twap_step p lo hi) m m' ->
  obs_ok m' /\ mb_last_observed_block m <= mb_last_observed_block m'
  /\ lo * (mb_last_observed_block m' - mb_last_observed_block m) <= cum m' - cum m
     <= hi * (mb_last_observed_block m' - mb_last_observed_block m).
Proof.
  intros Hp Hm Hr. revert Hm. induction Hr as [m|m1 m2 m3 Hs Hr IH]; intros Hm; [split; [done|lia]|].
  assert (H12 : obs_ok m2 /\ mb_last_observed_block m1 <= mb_last_observed_block m2
    /\ lo * (mb_last_observed_block m2 - mb_last_observed_block m1) <= cum m2 - cum m1
       <= hi * (mb_last_observed_block m2 - mb_last_observed_block m1)).
  { destruct Hs as [block r m' Hblk Ho Hrange|m' Hok Eb Ec].
    - pose proof (observe_book_total p block m1 Hp Hm Hblk) as Ht.
      destruct (observation_due p block m1) eqn:Hd.
      + destruct Ht as (c & Ho' & Hc & Hv & Hok). rewrite Ho in Ho'. injection Ho' as -> ->.
        specialize (Hrange _ _ eq_refl). destruct (observation_due_block p block m1 Hp Hm Hblk Hd) as [Hle _].
        split; [done|]. unfold cum, observed. destruct (_ <? block - _); cbn; rewrite Hv; nia.
      + rewrite Ho in Ht. injection Ht as -> ->. split; [done|lia].
    - unfold cum. rewrite Eb, Ec. split; [done|lia]. }
  destruct H12 as (Hm2 & Hle & Hc). destruct (IH Hm2) as (Hm3 & Hle' & Hc'). split; [done|]. lia.
Qed.

(** The mean read between two of its points lies in the same range. *)
Lemma twap_between_range p lo hi m m' :
  params_ok p -> obs_ok m -> rtc (twap_step p lo hi) m m' -> 0 <= lo -> hi < U64 ->
  mb_last_observed_block m < mb_last_observed_block m' ->
  exists mean, twap_between (mb_cumulative_price_blocks m) (mb_cumulative_price_blocks m')
      (mb_last_observed_block m' - mb_last_observed_block m) = Some mean /\ lo <= mean <= hi.
Proof.
  intros Hp Hm Hr Hlo Hhi Hlt. destruct (twap_run_bounds p lo hi m m' Hp Hm Hr) as (Hm' & _ & Hc).
  unfold cum in Hc. set (n := mb_last_observed_block m' - mb_last_observed_block m) in *.
  assert (Hn : 0 < n < U64) by (unfold n; destruct Hm, Hm'; lia).
  rewrite twap_between_spec; [|apply Hm|apply Hm'|done|nia]. cbv zeta.
  assert (Hmean : lo <= (tw_val (mb_cumulative_price_blocks m') - tw_val (mb_cumulative_price_blocks m)) / n <= hi).
  { split; [apply Z.div_le_lower_bound; lia|apply Z.div_le_upper_bound; lia]. }
  rewrite (proj2 (Z.ltb_lt _ U64)) by lia. eauto.
Qed.

End twap.
