(* ===== verification/MarketTheorems.v ===== *)
(** * The properties of the market

    Each theorem is followed by its witness, a concrete book or run on which
    its hypotheses hold. *)

From S2P Require Import Prelude Keyed Primitives Ledger LedgerInv LedgerSolvency LedgerOps LedgerProps U256 FixedPoint FixedProps Twap Market MarketObserve MarketTrade MarketLedger MarketFlow MarketSystem MarketSolvency.

(** ** A concrete market used by the witnesses *)

(** Traders 7 and 8, the treasury 100, a Decision book of 10 000 USDC. *)
Definition demo_markets : MarketState Z :=
  (create_market 1 (Decision 1 Accept) 900 901 10000000000 MarketState_new).2.

Definition demo_ledger0 : LedgerState Z := (create_vault 1 3 LedgerState_new).2.

Definition demo_book0 : MarketBook Z := MarketBook_open 1 (Decision 1 Accept) 900 901 10000000000.

Definition demo_seeded : MarketState Z * LedgerState Z :=
  Eval vm_compute in (market_seed 1 100 (demo_markets, demo_ledger0)).2.

(** Trader 7 buys 30 long shares. *)
Definition demo_bought : Result MarketError (list (MarketEvent Z)) * (MarketBook Z * LedgerState Z) :=
  Eval vm_compute in
    buy_book MarketParams_default 7 SideLong 30000000 100000000 40 (demo_book0, demo_seeded.2).

Lemma demo_seeded_eq : demo_seeded = (market_seed 1 100 (demo_markets, demo_ledger0)).2.
Proof. vm_compute. reflexivity. Qed.

Lemma demo_book0_ok : book_ok demo_book0.
Proof. by apply MarketBook_open_ok. Qed.

Lemma demo_sys_reachable : sys_reachable demo_seeded.
Proof.
  assert (HL : ledger_step (A := Z) LedgerState_new demo_ledger0) by (apply (step_call (CCreateVault 1 3)); done).
  assert (HM : sys_step (A := Z) (MarketState_new, demo_ledger0) (demo_markets, demo_ledger0)).
  { apply (sys_market (MCreate 1 (Decision 1 Accept) 900 901 10000000000) (MarketState_new, demo_ledger0)). simpl. lia. }
  eapply rtc_l; [by apply sys_ledger|]. eapply rtc_l; [exact HM|]. apply rtc_once.
  rewrite demo_seeded_eq, <- mexec_seed. apply (sys_market (MSeed 1 100) (demo_markets, demo_ledger0)).
  intros m _. split; apply not_elem_of_nil.
Qed.

Lemma demo_ledger_reachable : reachable demo_seeded.2.
Proof. apply (sys_ok_of_reachable _ demo_sys_reachable). Qed.

Lemma demo_seeded_ok : seeded MarketParams_default demo_book0 demo_seeded.2.
Proof.
  split; [apply params_default_ok|apply demo_book0_ok|apply demo_ledger_reachable|done|done|].
  eexists _, _. split; [vm_compute; reflexivity|]. split; [done|]. split; [vm_compute; reflexivity|].
  intros []; vm_compute; discriminate.
Qed.

Section theorems.
Context {A L : Type} `{EqDecision A} `{!LedgerOps A L} `{!LedgerLaws A L}.

Implicit Types (m : MarketBook A) (p : MarketParams) (l : L) (who : A).

(** C18. The seeded book can deliver. Take a freshly seeded book and any
    number [n] of successful trades on it, by anybody, against any ledger
    that keeps its laws. Then at the quoted cost of the next trade the legs the
    book holds cover what it has to hand over on a buy and the complete sets
    it has to merge on a sell, up to a shortfall of at most
    [(n + 2) (208 b + 5 USDC) / 2^64] base units; and they cover it in full
    while that rounding stays below one base unit (for millions of trades on
    a book of 10 000 USDC), so that neither fails for want of inventory. *)
Theorem seeded_book_delivers p m0 (l0 : L) n m l (buying : bool) side amount cost :
  seeded p m0 l0 -> book_run p m0 l0 n m l -> is_u128 amount -> trade_cost buying m side amount = Ok cost ->
  if buying
  then covers (mb_b m0) (n + 2) amount (lo_position_balance (leg (mb_kind m) side) (mb_account m) l + cost)
  else covers (mb_b m0) (n + 2) cost (lo_position_balance (leg (mb_kind m) side) (mb_account m) l + amount)
       /\ forall s, s <> side -> covers (mb_b m0) (n + 2) cost (lo_position_balance (leg (mb_kind m) s) (mb_account m) l).
Proof.
  intros Hsd Hrun Ha Hc. pose proof (book_can_deliver p m0 l0 n m l buying side amount cost Hsd Hrun Ha Hc) as Hd.
  assert (forall b k need held need' held', covers b k need held -> need' - held' = need - held -> covers b k need' held') as Hext.
  { intros b k need held need' held' [H1 H2] E. split; [by rewrite E|]. intros Hb%H2. lia. }
  unfold signed in Hd. destruct buying.
  - specialize (Hd side). rewrite !decide_True in Hd by done. eapply Hext; [exact Hd|lia].
  - split; [specialize (Hd side); rewrite !decide_True in Hd by done; eapply Hext; [exact Hd|lia]|].
    intros s Hs. specialize (Hd s). rewrite !decide_False in Hd by done. eapply Hext; [exact Hd|lia].
Qed.

(** A trade is its quote. Buying or selling succeeds exactly when the
    quote succeeds, admits the amount, meets the caller's limit, the fee
    counter does not overflow, and the ledger can make the moves; what is
    left on the book is the quantity, the fee and the price of the quote,
    inside the LMSR domain. *)
Theorem trade_is_quote p who (buying : bool) side amount limit block m l :
  params_ok p -> book_ok m -> is_u64 block -> 0 <= amount ->
  (forall l', (exists evs m', trade_book buying p who side amount limit block (m, l) = (Ok evs, (m', l')))
    <-> exists qv, quote m (trade_side buying side) amount (mp_fee_bps p) = Ok qv
        /\ MIN_TRADE <= amount <= qv_max_trade qv
        /\ slippage_ok buying (qv_cost qv) (qv_fee qv) limit
        /\ mb_fees_accrued m + qv_fee qv < U128
        /\ trade_flow buying m who side amount (qv_cost qv) (qv_fee qv) l = (Ok tt, l'))
  /\ forall evs m' l', trade_book buying p who side amount limit block (m, l) = (Ok evs, (m', l')) ->
       exists qv, quote m (trade_side buying side) amount (mp_fee_bps p) = Ok qv
         /\ qv_within_domain qv = true
         /\ (mb_q_long m', mb_q_short m') = post_quantities buying side amount m
         /\ mb_fees_accrued m' = mb_fees_accrued m + qv_fee qv
         /\ mb_last_quote_1e9 m' = qv_p_after_1e9 qv
         /\ last evs = Some (MkTraded (mb_id m) who (trade_side buying side) amount (qv_cost qv) (qv_p_after_1e9 qv)).
Proof.
  intros Hp Hm Hblk Ha. split; [intros l'; by apply trade_iff_quote|].
  intros evs m' l' Ht. destruct (trade_matches_quote p who buying side amount limit block m l evs m' l' Hp Hm Ha Ht)
    as (qv & Hqv & Hdom & _ & He & Ep & _ & _).
  exists qv. destruct He as [Hq _ [Hf _] _ _ (o & mo & _ & _ & _ & _ & _ & ->)].
  rewrite last_app, Ep. done.
Qed.

(** C33. What a trade moves. On a book whose account is neither the trader's
    nor the fees account, a successful trade moves exactly these balances,
    for every position and account: the leg from the book to the buyer (or
    back), complete sets worth the cost into (or out of) the book, the fee to
    the fees account, the mirror branch-USDC of the cost to a buyer, and from a
    seller exactly the mirror branch-USDC held before the sale, up to what the
    sale pays, merged with as much of the proceeds. A Baseline book has no
    mirror and keeps the fee of a buy itself. The legs the book holds plus the
    shares outstanding grow by the cost on a buy (on a Baseline book by the
    cost and the fee) and shrink by it on a sale, on both sides alike. *)
Theorem trade_moves_exactly p who (buying : bool) side amount limit block m l evs m' l' :
  params_ok p -> book_ok m -> lo_inv l -> is_u128 amount -> is_u64 block ->
  who <> mb_account m -> mb_fees_account m <> mb_account m ->
  trade_book buying p who side amount limit block (m, l) = (Ok evs, (m', l')) ->
  exists qv, quote m (trade_side buying side) amount (mp_fee_bps p) = Ok qv
    /\ lo_inv l' /\ 0 <= merged_of buying m who (qv_cost qv) (qv_fee qv) l <= qv_cost qv
    /\ (forall x o, lo_position_balance x o l' = lo_position_balance x o l
          + trade_moves buying m side who amount (qv_cost qv) (qv_fee qv)
              (merged_of buying m who (qv_cost qv) (qv_fee qv) l) x o)
    /\ forall s, pool m' s l' = pool m s l + pool_delta buying m (qv_cost qv) (qv_fee qv).
Proof.
  intros Hp Hm Hl Ha Hblk Hw Hacc Ht.
  destruct (trade_matches_quote p who buying side amount limit block m l evs m' l' Hp Hm ltac:(lia) Ht)
    as (qv & Hqv & _ & _ & He & _ & Hsl & Hf).
  destruct (trade_step buying p who side amount limit block m l evs m' l' Hp Hm Hl Hacc Hw Ha Hblk Ht)
    as (cost & fee & Hc & Hfee & _ & _ & _ & _ & Hpool).
  pose proof Hqv as Hq. rewrite quote_Ok in Hq by (done || lia). destruct Hq as (cost' & fee' & pa & _ & _ & Hc' & _ & Hfee' & ->).
  rewrite Hc in Hc'. injection Hc' as <-. rewrite Hfee in Hfee'. injection Hfee' as <-. cbn in *.
  destruct (trade_cost_Ok buying m side amount cost Hm Ha Hc) as (_ & _ & _ & _ & _ & _ & _ & _ & _ & _ & _ & _ & Hcr & _).
  destruct (fee_up_Ok cost _ fee Hcr (proj1 (po_fee _ Hp)) Hfee) as [Hfr _].
  destruct (trade_flow_moves buying m who side amount cost fee limit l l' Ha Hcr Hfr Hsl Hl Hf) as (Hl' & Hmv).
  eexists. split; [exact Hqv|]. split; [done|]. split; [|split; [exact Hmv|intros s; apply Hpool]].
  cbn. unfold merged_of, slippage_ok in *. destruct buying; [lia|].
  pose proof (mirrored_range (mb_kind m) who (cost - fee) l Hl). lia.
Qed.

(** C34. No free cycle. However many trades are made, by whomever, if the
    book ends at the quantities it began with, the payouts exceed the charges,
    before any fee, by at most [n (208 b + 5 USDC) / 2^64] base units; and
    not at all while that rounding of the [n] trades stays below one base unit. *)
Theorem no_free_cycle n P m m' fb :
  priced_trades n P m m' -> fx (mb_b m) = Ok fb ->
  mb_q_long m' = mb_q_long m -> mb_q_short m' = mb_q_short m ->
  - P * 2 ^ 64 <= Z.of_nat n * rounding (mb_b m) /\ (within_budget (mb_b m) n -> 0 <= P).
Proof. apply cycle_pays_nothing. Qed.

(** C35. Observations are total and slew-bounded. On a well-formed book,
    with legal parameters, [observe_book] never fails. Before the interval
    is over it records nothing and changes nothing; after it, it records a
    price in [0, 1] inside the exact envelope [(1 ± kappa)^k] around the
    previous observation, where the clamp bounds are ordered, and adds the
    price times the elapsed blocks to the integral. *)
Theorem observation_bounded p block m :
  params_ok p -> obs_ok m -> is_u64 block ->
  if observation_due p block m then
    exists m' o, observe_book p block m = (Ok (Some (MkObserved (mb_id m) o)), m') /\ obs_ok m'
      /\ mb_last_observation_1e9 m' = o /\ mb_last_observed_block m' = block
      /\ 0 <= o <= PRICE_ONE_1E9
      /\ (let k := obs_intervals p block m in let old := mb_last_observation_1e9 m in
          slew_low old (mp_kappa_1e9 p) k <= old <= slew_high old (mp_kappa_1e9 p) k
          /\ old * (PRICE_ONE_1E9 - mp_kappa_1e9 p) ^ k <= o * PRICE_ONE_1E9 ^ k <= old * (PRICE_ONE_1E9 + mp_kappa_1e9 p) ^ k)
      /\ tw_val (mb_cumulative_price_blocks m')
         = tw_val (mb_cumulative_price_blocks m) + o * (block - mb_last_observed_block m)
  else observe_book p block m = (Ok None, m).
Proof.
  intros Hp Hm Hblk. pose proof (observe_book_total p block m Hp Hm Hblk) as Ht.
  destruct (observation_due p block m) eqn:Hd; [|done]. destruct Ht as (c & Ho & _ & Hv & Hok).
  destruct (obs_capped_bounds p block m Hp Hm Hblk Hd) as [Hb He].
  destruct (observation_due_block p block m Hp Hm Hblk Hd) as [_ Hk].
  pose proof (observation_bounds_ordered (mb_last_observation_1e9 m) (mp_kappa_1e9 p) (obs_intervals p block m)
    ltac:(destruct Hm; lia) ltac:(apply Hp) Hk) as Hord.
  eexists _, _. split; [exact Ho|]. split; [exact Hok|]. unfold observed.
  destruct (_ <? block - _); (split; [done|]); (split; [done|]); (split; [exact Hb|]);
    (split; [split; [lia|exact He]|exact Hv]).
Qed.

(** A trade cannot move its own sample. The observation recorded while
    trading is the one the book before the trade would have recorded: it
    depends on the previous quote, not on the trade. *)
Theorem trade_keeps_own_sample p who (buying : bool) side amount limit block m l evs m' l' :
  trade_book buying p who side amount limit block (m, l) = (Ok evs, (m', l')) ->
  exists o mo, observe_book p block m = (Ok o, mo)
    /\ mb_last_observation_1e9 m' = mb_last_observation_1e9 mo
    /\ mb_last_observed_block m' = mb_last_observed_block mo
    /\ mb_cumulative_price_blocks m' = mb_cumulative_price_blocks mo.
Proof.
  rewrite trade_book_Ok. intros (cost & fee & _ & _ & _ & _ & _ & _ & Hst).
  apply settle_trade_Ok in Hst as [_ _ _ _ _ (o & mo & Ho & E1 & E2 & E3 & _)]. exists o, mo. done.
Qed.

(** The two-limb integral is a 256-bit integer. Addition, subtraction
    and the long division by a block count are exact on the value the limbs
    stand for, or report the overflow, underflow or zero divisor. *)
Theorem twap_limbs_exact x y d :
  tw_ok x -> tw_ok y -> 0 <= d < U64 ->
  match tw_checked_add x y with
  | Some z => tw_ok z /\ tw_val z = tw_val x + tw_val y
  | None => U128 * U128 <= tw_val x + tw_val y
  end
  /\ match tw_checked_sub x y with
     | Some z => tw_ok z /\ tw_val z = tw_val x - tw_val y
     | None => tw_val x < tw_val y
     end
  /\ match checked_div_by_blocks x d with
     | Some z => d <> 0 /\ tw_ok z /\ tw_val z = tw_val x / d
     | None => d = 0
     end.
Proof.
  intros Hx Hy Hd. split; [by apply tw_checked_add_spec|]. split; [by apply tw_checked_sub_spec|].
  destruct (decide (d = 0)) as [->|Hne]; [done|].
  destruct (checked_div_by_blocks_spec x d Hx ltac:(lia)) as (q & -> & Hq & Hv). done.
Qed.

(** The time-weighted mean stays in range. If every observation
    recorded between two points of a book's life lies in [lo, hi], the mean
    read between them exists and lies in [lo, hi]. *)
Theorem twap_mean_in_range p lo hi m m' :
  params_ok p -> obs_ok m -> rtc (twap_step p lo hi) m m' -> 0 <= lo -> hi < U64 ->
  mb_last_observed_block m < mb_last_observed_block m' ->
  exists mean, twap_between (mb_cumulative_price_blocks m) (mb_cumulative_price_blocks m')
      (mb_last_observed_block m' - mb_last_observed_block m) = Some mean /\ lo <= mean <= hi.
Proof. apply twap_between_range. Qed.

End theorems.

Section system.
Context {A : Type} `{EqDecision A}.

(** The market and the ledger together. After any sequence of market
    calls and ledger calls, the ledger is a reachable ledger (so it is
    solvent), every book is well-formed and inside [|q_L - q_S| <= 48 b],
    and the table's own checker accepts. *)
Theorem market_system_invariant (s : MarketState A * LedgerState A) :
  sys_reachable s ->
  reachable s.2 /\ Inv s.2 /\ (forall m, m ∈ ms_markets s.1 -> book_ok m /\ in_domain m)
  /\ market_try_state s.1 = Ok tt.
Proof.
  intros Hr. destruct (sys_ok_of_reachable s Hr) as [Hl Hms].
  split; [done|]. split; [by apply Inv_of_reachable|]. split; [done|]. by apply market_try_state_ok.
Qed.

(** Failed trades change nothing: a buy or sell that returns an error
    at any step leaves the table and the ledger as they were. *)
Theorem failed_trade_changes_nothing id (who : A) side amount limit block s e s' :
  buy id who side amount limit block s = (Err e, s') \/ sell id who side amount limit block s = (Err e, s') ->
  s' = s.
Proof. intros [H|H]; by apply atomic_Err in H. Qed.

End system.

(** The maker's loss is bounded by the seed. The loss reconstructed
    from any quantities is at most the seed headroom and the larger
    quantity, so the state violation it guards against is never reported. *)
Theorem maker_loss_within_seed b q_long q_short :
  is_u128 b -> is_u128 q_long -> is_u128 q_short ->
  maker_loss_at_state b q_long q_short <> Err ErrTryStateViolation
  /\ forall loss, maker_loss_at_state b q_long q_short = Ok loss ->
       exists h, seed_headroom b = Ok h /\ 0 <= loss <= h /\ loss <= Z.max q_long q_short.
Proof.
  intros Hb Hl Hs. destruct (maker_loss_bounded b q_long q_short _ Hb Hl Hs eq_refl) as [Hne Hok].
  split; [done|]. exact Hok.
Qed.

(** ** Witnesses *)

Definition demo_after : MarketBook Z := Eval vm_compute in demo_bought.2.1.
Definition demo_ledger1 : LedgerState Z := Eval vm_compute in demo_bought.2.2.
Definition demo_events : list (MarketEvent Z) :=
  Eval vm_compute in match demo_bought.1 with Ok evs => evs | Err _ => [] end.

Lemma demo_bought_Ok :
  trade_book true MarketParams_default 7 SideLong 30000000 100000000 40 (demo_book0, demo_seeded.2)
  = (Ok demo_events, (demo_after, demo_ledger1)).
Proof. vm_compute. reflexivity. Qed.

Lemma demo_run : book_run MarketParams_default demo_book0 demo_seeded.2 1 demo_after demo_ledger1.
Proof.
  apply (run_trade _ _ _ 0 demo_book0 demo_seeded.2 true 7 SideLong 30000000 100000000 40 demo_events);
    [apply run_start|done|lia|lia|exact demo_bought_Ok].
Qed.

Lemma demo_after_ok : book_ok demo_after.
Proof.
  split; try (vm_compute; split; [discriminate|reflexivity]).
  split; try (vm_compute; split; discriminate || reflexivity).
  - vm_compute. split; split; discriminate || reflexivity.
  - vm_compute. discriminate.
Qed.

(** The buyer sells half of the shares back. *)
Lemma seeded_book_delivers_witness : exists cost, trade_cost false demo_after SideLong 15000000 = Ok cost
  /\ cost <= lo_position_balance (leg (mb_kind demo_after) SideShort) (mb_account demo_after) demo_ledger1.
Proof.
  eexists. split; [vm_compute; reflexivity|].
  refine (proj2 (proj2 (seeded_book_delivers MarketParams_default demo_book0 demo_seeded.2 1 demo_after demo_ledger1
    false SideLong 15000000 _ _ _ _ _) SideShort _) _);
    [apply demo_seeded_ok|apply demo_run|done|vm_compute; reflexivity|done|done].
Defined.

Lemma trade_is_quote_witness : exists qv, quote demo_book0 BuyLong 30000000 FEE_BPS = Ok qv
  /\ mb_last_quote_1e9 demo_after = qv_p_after_1e9 qv.
Proof.
  destruct (trade_is_quote MarketParams_default 7 true SideLong 30000000 100000000 40 demo_book0 demo_seeded.2)
    as [_ H]; [apply params_default_ok|apply demo_book0_ok|done|done|].
  destruct (H _ _ _ demo_bought_Ok) as (qv & Hqv & _ & _ & _ & Ep & _). exists qv. split; [exact Hqv|exact Ep].
Defined.

(** The buyer, who holds the mirror branch-USDC of the purchase, sells half of
    the shares back: the whole payment is merged with it. *)
Definition demo_sold : Result MarketError (list (MarketEvent Z)) * (MarketBook Z * LedgerState Z) :=
  Eval vm_compute in sell_book MarketParams_default 7 SideLong 15000000 0 41 (demo_after, demo_ledger1).

Lemma trade_moves_exactly_witness : exists qv, quote demo_after SellLong 15000000 FEE_BPS = Ok qv
  /\ 0 < merged_of false demo_after 7 (qv_cost qv) (qv_fee qv) demo_ledger1
  /\ pool demo_sold.2.1 SideShort demo_sold.2.2 = pool demo_after SideShort demo_ledger1 - qv_cost qv
  /\ lo_position_balance (position 1 Reject BranchUsdc) 7 demo_sold.2.2
     = lo_position_balance (position 1 Reject BranchUsdc) 7 demo_ledger1
       - merged_of false demo_after 7 (qv_cost qv) (qv_fee qv) demo_ledger1.
Proof.
  destruct (trade_moves_exactly MarketParams_default 7 true SideLong 30000000 100000000 40 demo_book0 demo_seeded.2
    demo_events demo_after demo_ledger1) as (_ & _ & Hl & _);
    [apply params_default_ok|apply demo_book0_ok|apply demo_ledger_reachable|done|done|done|done|exact demo_bought_Ok|].
  eapply (trade_moves_exactly MarketParams_default 7 false SideLong 15000000 0 41 demo_after demo_ledger1)
    in Hl as (qv & Hqv & _ & _ & Hmv & Hpool);
    [|apply params_default_ok|apply demo_after_ok|done|done|done|done|vm_compute; reflexivity].
  exists qv. split; [exact Hqv|]. vm_compute in Hqv. injection Hqv as <-. split; [by vm_compute|]. split; [exact (Hpool SideShort)|].
  etransitivity; [exact (Hmv (position 1 Reject BranchUsdc) 7)|]. by vm_compute.
Defined.

(** Buy 30 USDC worth of shares and sell them again. *)
Lemma no_free_cycle_witness : exists c1 c2, trade_cost true demo_book0 SideLong 30000000 = Ok c1
  /\ trade_cost false demo_after SideLong 30000000 = Ok c2 /\ 0 <= c1 - c2.
Proof.
  eexists _, _. split; [vm_compute; reflexivity|]. split; [vm_compute; reflexivity|].
  refine (proj2 (no_free_cycle 2 _ demo_book0 (set_quantities 0 0 demo_after) _ _ _ _ _) _);
    [|vm_compute; reflexivity|done|done|done].
  eapply (priced_cons 1 _ demo_book0 demo_after _ false SideLong 30000000);
    [|done|vm_compute; reflexivity| |done|done].
  - change 15022485 with (0 + signed true 15022485).
    eapply (priced_cons 0 0 demo_book0 demo_book0 _ true SideLong 30000000);
      [apply priced_nil, demo_book0_ok|done|vm_compute; reflexivity|apply demo_after_ok|done|done].
  - pose proof demo_after_ok as [? _ _ ? ?]. by split.
Defined.

Lemma observation_bounded_witness : exists m' o,
  observe_book MarketParams_default 75 demo_after = (Ok (Some (MkObserved 1 o)), m') /\ 0 <= o <= PRICE_ONE_1E9.
Proof.
  pose proof (observation_bounded MarketParams_default 75 demo_after params_default_ok (bo_obs _ demo_after_ok)
    ltac:(lia)) as H.
  change (observation_due MarketParams_default 75 demo_after) with true in H. cbv iota in H.
  destruct H as (m' & o & Ho & _ & _ & _ & Hr & _). exists m', o. split; [exact Ho|exact Hr].
Defined.

Lemma trade_keeps_own_sample_witness : exists o mo,
  observe_book MarketParams_default 40 demo_book0 = (Ok o, mo)
  /\ mb_last_observation_1e9 demo_after = mb_last_observation_1e9 mo.
Proof.
  destruct (trade_keeps_own_sample MarketParams_default 7 true SideLong 30000000 100000000 40 demo_book0 demo_seeded.2
    demo_events demo_after demo_ledger1 demo_bought_Ok) as (o & mo & Ho & E & _).
  exists o, mo. split; [exact Ho|exact E].
Defined.

Lemma twap_limbs_exact_witness :
  checked_div_by_blocks {| tw_hi := 5; tw_lo := 7 |} 3 <> None
  /\ tw_checked_sub {| tw_hi := 5; tw_lo := 7 |} {| tw_hi := 4; tw_lo := 9 |} <> None.
Proof.
  destruct (twap_limbs_exact {| tw_hi := 5; tw_lo := 7 |} {| tw_hi := 4; tw_lo := 9 |} 3) as (_ & Hs & Hd);
    [done|done|lia|]. split.
  - intros E. rewrite E in Hd. done.
  - intros E. rewrite E in Hs. done.
Defined.

(** The book after the first trade, observed once more. *)
Lemma twap_mean_in_range_witness : exists mean,
  twap_between TWAP_ZERO (mb_cumulative_price_blocks demo_after) 40 = Some mean /\ 490000000 <= mean <= 510000000.
Proof.
  apply (twap_mean_in_range MarketParams_default 490000000 510000000 demo_book0 demo_after);
    [apply params_default_ok|apply demo_book0_ok| |lia|lia|by vm_compute].
  pose proof demo_bought_Ok as H. rewrite trade_book_Ok in H. destruct H as (cost & fee & _ & _ & _ & _ & _ & _ & Hst).
  apply settle_trade_Ok in Hst as [_ _ _ _ _ (o & mo & Ho & _ & E2 & E3 & _)].
  eapply rtc_l; [eapply (twap_observe _ _ _ _ 40); [lia|exact Ho|]|].
  - vm_compute in Ho. injection Ho as <- _. intros id x [= _ <-]. lia.
  - apply rtc_once, twap_other; [apply demo_after_ok|exact E2|exact E3].
Defined.

Lemma market_system_invariant_witness : Inv demo_seeded.2 /\ market_try_state demo_seeded.1 = Ok tt.
Proof. destruct (market_system_invariant demo_seeded demo_sys_reachable) as (_ & HI & _ & Ht). by split. Defined.

(** Trader 8 holds nothing to sell: the ledger refuses. *)
Definition demo_traded : MarketState Z * LedgerState Z :=
  Eval vm_compute in (buy 1 7 SideLong 30000000 100000000 40 demo_seeded).2.

Lemma failed_trade_changes_nothing_witness :
  (sell 1 8 SideLong 30000000 0 40 demo_traded).2 = demo_traded.
Proof.
  apply (failed_trade_changes_nothing 1 8 SideLong 30000000 0 40 demo_traded ErrLedger). right.
  vm_compute. reflexivity.
Defined.

Lemma maker_loss_within_seed_witness : exists loss h,
  maker_loss_at_state 10000000000 30000000 0 = Ok loss /\ seed_headroom 10000000000 = Ok h /\ loss <= h.
Proof.
  destruct (maker_loss_within_seed 10000000000 30000000 0) as [_ H]; [lia..|].
  destruct (H 14988750) as (h & Hh & Hle & _); [vm_compute; reflexivity|].
  exists 14988750, h. split; [vm_compute; reflexivity|]. split; [exact Hh|apply Hle].
Defined.
