(* ===== verification/Proposals.v ===== *)
(** * Proposals: the vocabulary of the decision cores (crates/futarchy-primitives)

    Classes, states, decision outcomes and the canonical proposal record that
    the epoch core drives through its lifecycle, with the kernel constants
    and bounds that core reads. Block numbers and epochs are [u32], ids [u64],
    balances [u128], scores 1e9-scaled [u64]. *)

From S2P Require Import Prelude Primitives.

Inductive ProposalClass : Type :=
| Param
| Treasury
| Code
| Meta
| Constitutional.

Inductive RejectReason : Type :=
| NotDecisionGrade
| GateVetoSurvival
| GateVetoSecurity
| HurdleNotMet
| ConvergenceFailed
| SecondExtensionFailed
| ProcessHold
| ConstitutionViolation
| ResourceConflict
| RateLimited
| VetoUpheldByReview
| StaleQueue
| PayloadReverted
| NotRatified
| SecuritySizing
| AttestationMissing
| RolloverExhausted.

Inductive ProposalState : Type :=
| Submitted
| Screening
| Qualified
| Trading
| Extended
| Queued
| Suspended
| Rerun
| Rejected (r : RejectReason)
| Executed
| FailedExecuted
| Measuring
| Settled
| Cancelled
| Expired.

Inductive EpochPhase : Type :=
| PhIntake
| PhQualify
| PhSeed
| PhTrade
| PhDecide
| PhReview
| PhExecute
| PhHousekeeping.

Inductive DecisionOutcome : Type :=
| Adopt
| RejectFor (r : RejectReason)
| Extend.

(** [H256]: only compared and passed on. *)
Abbreviation H256 := Z (only parsing).
(** A resource key [[u8; 8]] as its big-endian value: equality and order are
    those of the byte arrays. *)
Abbreviation ResourceKey := Z (only parsing).

Record RuntimeVersionConstraint : Type := {
  rv_spec_name : list Z;
  rv_spec_version : Z;
}.

(** The books of a proposal; the four gate books as a tuple. *)
Record MarketSet : Type := {
  mset_accept : MarketId;
  mset_reject : MarketId;
  mset_gates : option (MarketId * MarketId * MarketId * MarketId);
  mset_baseline : MarketId;
}.

Record Proposal (A : Type) : Type := {
  pp_id : ProposalId;
  pp_proposer : A;
  pp_class : ProposalClass;
  pp_state : ProposalState;
  pp_epoch : EpochId;
  pp_submitted_at : BlockNumber;
  pp_payload_hash : H256;
  pp_payload_len : Z;
  pp_ask : Balance;
  pp_bond : Balance;
  pp_resources : list ResourceKey;
  pp_metric_spec : MetricSpecVersion;
  pp_decide_at : BlockNumber;
  pp_rerun : bool;
  pp_extended : bool;
  pp_delayed_once : bool;
  pp_markets : option MarketSet;
  pp_maturity : option BlockNumber;
  pp_grace_end : option BlockNumber;
  pp_version_constraint : option RuntimeVersionConstraint;
  pp_decision : option DecisionOutcome;
}.
Arguments pp_id {A}. Arguments pp_proposer {A}. Arguments pp_class {A}. Arguments pp_state {A}.
Arguments pp_epoch {A}. Arguments pp_submitted_at {A}. Arguments pp_payload_hash {A}.
Arguments pp_payload_len {A}. Arguments pp_ask {A}. Arguments pp_bond {A}. Arguments pp_resources {A}.
Arguments pp_metric_spec {A}. Arguments pp_decide_at {A}. Arguments pp_rerun {A}. Arguments pp_extended {A}.
Arguments pp_delayed_once {A}. Arguments pp_markets {A}. Arguments pp_maturity {A}.
Arguments pp_grace_end {A}. Arguments pp_version_constraint {A}. Arguments pp_decision {A}.

Record CohortSummary : Type := {
  cs_epoch : EpochId;
  cs_s_1e9 : FixedU64;
  cs_baseline_twap_1e9 : FixedU64;
  cs_proposals : list (ProposalId * ProposalClass * DecisionOutcome);
  cs_voided : bool;
  cs_settled_at : BlockNumber;
}.

Record EpochStatusView : Type := {
  ev_index : EpochId;
  ev_phase : EpochPhase;
  ev_phase_start_block : BlockNumber;
  ev_next_boundary : BlockNumber;
  ev_dead_man_armed : bool;
  ev_ledger_frozen : bool;
  ev_phase_flags : Z;
}.

#[export] Instance ProposalClass_eq_dec : EqDecision ProposalClass.
Proof. solve_decision. Defined.
#[export] Instance RejectReason_eq_dec : EqDecision RejectReason.
Proof. solve_decision. Defined.
#[export] Instance ProposalState_eq_dec : EqDecision ProposalState.
Proof. solve_decision. Defined.
#[export] Instance EpochPhase_eq_dec : EqDecision EpochPhase.
Proof. solve_decision. Defined.
#[export] Instance DecisionOutcome_eq_dec : EqDecision DecisionOutcome.
Proof. solve_decision. Defined.

(** Kernel constants and bounds ([kernel], [bounds], [phase_offsets]). *)
Definition RECENT_COHORT_SUMMARIES : nat := 32.
Definition MAX_COHORT_PROPOSALS : nat := 12.
Definition MAX_NON_TERMINAL_COHORTS : nat := 4.
Definition MAX_RESOURCES_PER_PROPOSAL : nat := 8.
Definition INTAKE_QUEUE : nat := 64.
Definition MAX_LIVE_PROPOSALS : nat := 32.
Definition BLOCKS_PER_DAY : Z := 14400.
Definition MIN_EPOCH_LENGTH_BLOCKS : Z := 201600.
Definition DEC_EXTENSION_BLOCKS : Z := 43200.
Definition RERUN_HURDLE_BUMP_1E9 : Z := 10000000.
Definition SECURITY_FACTOR : Z := 3.
Definition GATE_P_MAX_CEILING_1E9 : Z := 100000000.
Definition STALE_EPOCH_BOUND_BLOCKS : Z := 100800.
Definition SETTLE_COHORT_MAX_ITEMS : Z := 100.
Definition DENOMINATOR : Z := 21.
Definition INTAKE_NUM : Z := 0.
Definition QUALIFY_NUM : Z := 3.
Definition SEED_NUM : Z := 4.
Definition TRADE_NUM : Z := 5.
Definition DECIDE_NUM : Z := 18.
Definition HOUSEKEEPING_NUM : Z := 20.

(** ** Writes to one field of a proposal *)

Section writes.
Context {A : Type}.

Implicit Types p : Proposal A.

Definition set_state (st : ProposalState) p : Proposal A :=
  {| pp_id := pp_id p; pp_proposer := pp_proposer p; pp_class := pp_class p; pp_state := st;
     pp_epoch := pp_epoch p; pp_submitted_at := pp_submitted_at p; pp_payload_hash := pp_payload_hash p;
     pp_payload_len := pp_payload_len p; pp_ask := pp_ask p; pp_bond := pp_bond p;
     pp_resources := pp_resources p; pp_metric_spec := pp_metric_spec p; pp_decide_at := pp_decide_at p;
     pp_rerun := pp_rerun p; pp_extended := pp_extended p; pp_delayed_once := pp_delayed_once p;
     pp_markets := pp_markets p; pp_maturity := pp_maturity p; pp_grace_end := pp_grace_end p;
     pp_version_constraint := pp_version_constraint p; pp_decision := pp_decision p |}.
Definition set_pp_epoch (e : EpochId) p : Proposal A :=
  {| pp_id := pp_id p; pp_proposer := pp_proposer p; pp_class := pp_class p; pp_state := pp_state p;
     pp_epoch := e; pp_submitted_at := pp_submitted_at p; pp_payload_hash := pp_payload_hash p;
     pp_payload_len := pp_payload_len p; pp_ask := pp_ask p; pp_bond := pp_bond p;
     pp_resources := pp_resources p; pp_metric_spec := pp_metric_spec p; pp_decide_at := pp_decide_at p;
     pp_rerun := pp_rerun p; pp_extended := pp_extended p; pp_delayed_once := pp_delayed_once p;
     pp_markets := pp_markets p; pp_maturity := pp_maturity p; pp_grace_end := pp_grace_end p;
     pp_version_constraint := pp_version_constraint p; pp_decision := pp_decision p |}.
Definition set_metric_spec (v : MetricSpecVersion) p : Proposal A :=
  {| pp_id := pp_id p; pp_proposer := pp_proposer p; pp_class := pp_class p; pp_state := pp_state p;
     pp_epoch := pp_epoch p; pp_submitted_at := pp_submitted_at p; pp_payload_hash := pp_payload_hash p;
     pp_payload_len := pp_payload_len p; pp_ask := pp_ask p; pp_bond := pp_bond p;
     pp_resources := pp_resources p; pp_metric_spec := v; pp_decide_at := pp_decide_at p;
     pp_rerun := pp_rerun p; pp_extended := pp_extended p; pp_delayed_once := pp_delayed_once p;
     pp_markets := pp_markets p; pp_maturity := pp_maturity p; pp_grace_end := pp_grace_end p;
     pp_version_constraint := pp_version_constraint p; pp_decision := pp_decision p |}.
Definition set_decide_at (b : BlockNumber) p : Proposal A :=
  {| pp_id := pp_id p; pp_proposer := pp_proposer p; pp_class := pp_class p; pp_state := pp_state p;
     pp_epoch := pp_epoch p; pp_submitted_at := pp_submitted_at p; pp_payload_hash := pp_payload_hash p;
     pp_payload_len := pp_payload_len p; pp_ask := pp_ask p; pp_bond := pp_bond p;
     pp_resources := pp_resources p; pp_metric_spec := pp_metric_spec p; pp_decide_at := b;
     pp_rerun := pp_rerun p; pp_extended := pp_extended p; pp_delayed_once := pp_delayed_once p;
     pp_markets := pp_markets p; pp_maturity := pp_maturity p; pp_grace_end := pp_grace_end p;
     pp_version_constraint := pp_version_constraint p; pp_decision := pp_decision p |}.
Definition set_rerun (v : bool) p : Proposal A :=
  {| pp_id := pp_id p; pp_proposer := pp_proposer p; pp_class := pp_class p; pp_state := pp_state p;
     pp_epoch := pp_epoch p; pp_submitted_at := pp_submitted_at p; pp_payload_hash := pp_payload_hash p;
     pp_payload_len := pp_payload_len p; pp_ask := pp_ask p; pp_bond := pp_bond p;
     pp_resources := pp_resources p; pp_metric_spec := pp_metric_spec p; pp_decide_at := pp_decide_at p;
     pp_rerun := v; pp_extended := pp_extended p; pp_delayed_once := pp_delayed_once p;
     pp_markets := pp_markets p; pp_maturity := pp_maturity p; pp_grace_end := pp_grace_end p;
     pp_version_constraint := pp_version_constraint p; pp_decision := pp_decision p |}.
Definition set_extended (v : bool) p : Proposal A :=
  {| pp_id := pp_id p; pp_proposer := pp_proposer p; pp_class := pp_class p; pp_state := pp_state p;
     pp_epoch := pp_epoch p; pp_submitted_at := pp_submitted_at p; pp_payload_hash := pp_payload_hash p;
     pp_payload_len := pp_payload_len p; pp_ask := pp_ask p; pp_bond := pp_bond p;
     pp_resources := pp_resources p; pp_metric_spec := pp_metric_spec p; pp_decide_at := pp_decide_at p;
     pp_rerun := pp_rerun p; pp_extended := v; pp_delayed_once := pp_delayed_once p;
     pp_markets := pp_markets p; pp_maturity := pp_maturity p; pp_grace_end := pp_grace_end p;
     pp_version_constraint := pp_version_constraint p; pp_decision := pp_decision p |}.
Definition set_delayed_once (v : bool) p : Proposal A :=
  {| pp_id := pp_id p; pp_proposer := pp_proposer p; pp_class := pp_class p; pp_state := pp_state p;
     pp_epoch := pp_epoch p; pp_submitted_at := pp_submitted_at p; pp_payload_hash := pp_payload_hash p;
     pp_payload_len := pp_payload_len p; pp_ask := pp_ask p; pp_bond := pp_bond p;
     pp_resources := pp_resources p; pp_metric_spec := pp_metric_spec p; pp_decide_at := pp_decide_at p;
     pp_rerun := pp_rerun p; pp_extended := pp_extended p; pp_delayed_once := v;
     pp_markets := pp_markets p; pp_maturity := pp_maturity p; pp_grace_end := pp_grace_end p;
     pp_version_constraint := pp_version_constraint p; pp_decision := pp_decision p |}.
Definition set_pp_markets (v : option MarketSet) p : Proposal A :=
  {| pp_id := pp_id p; pp_proposer := pp_proposer p; pp_class := pp_class p; pp_state := pp_state p;
     pp_epoch := pp_epoch p; pp_submitted_at := pp_submitted_at p; pp_payload_hash := pp_payload_hash p;
     pp_payload_len := pp_payload_len p; pp_ask := pp_ask p; pp_bond := pp_bond p;
     pp_resources := pp_resources p; pp_metric_spec := pp_metric_spec p; pp_decide_at := pp_decide_at p;
     pp_rerun := pp_rerun p; pp_extended := pp_extended p; pp_delayed_once := pp_delayed_once p;
     pp_markets := v; pp_maturity := pp_maturity p; pp_grace_end := pp_grace_end p;
     pp_version_constraint := pp_version_constraint p; pp_decision := pp_decision p |}.
Definition set_maturity (v : option BlockNumber) p : Proposal A :=
  {| pp_id := pp_id p; pp_proposer := pp_proposer p; pp_class := pp_class p; pp_state := pp_state p;
     pp_epoch := pp_epoch p; pp_submitted_at := pp_submitted_at p; pp_payload_hash := pp_payload_hash p;
     pp_payload_len := pp_payload_len p; pp_ask := pp_ask p; pp_bond := pp_bond p;
     pp_resources := pp_resources p; pp_metric_spec := pp_metric_spec p; pp_decide_at := pp_decide_at p;
     pp_rerun := pp_rerun p; pp_extended := pp_extended p; pp_delayed_once := pp_delayed_once p;
     pp_markets := pp_markets p; pp_maturity := v; pp_grace_end := pp_grace_end p;
     pp_version_constraint := pp_version_constraint p; pp_decision := pp_decision p |}.
Definition set_grace_end (v : option BlockNumber) p : Proposal A :=
  {| pp_id := pp_id p; pp_proposer := pp_proposer p; pp_class := pp_class p; pp_state := pp_state p;
     pp_epoch := pp_epoch p; pp_submitted_at := pp_submitted_at p; pp_payload_hash := pp_payload_hash p;
     pp_payload_len := pp_payload_len p; pp_ask := pp_ask p; pp_bond := pp_bond p;
     pp_resources := pp_resources p; pp_metric_spec := pp_metric_spec p; pp_decide_at := pp_decide_at p;
     pp_rerun := pp_rerun p; pp_extended := pp_extended p; pp_delayed_once := pp_delayed_once p;
     pp_markets := pp_markets p; pp_maturity := pp_maturity p; pp_grace_end := v;
     pp_version_constraint := pp_version_constraint p; pp_decision := pp_decision p |}.
Definition set_decision (v : option DecisionOutcome) p : Proposal A :=
  {| pp_id := pp_id p; pp_proposer := pp_proposer p; pp_class := pp_class p; pp_state := pp_state p;
     pp_epoch := pp_epoch p; pp_submitted_at := pp_submitted_at p; pp_payload_hash := pp_payload_hash p;
     pp_payload_len := pp_payload_len p; pp_ask := pp_ask p; pp_bond := pp_bond p;
     pp_resources := pp_resources p; pp_metric_spec := pp_metric_spec p; pp_decide_at := pp_decide_at p;
     pp_rerun := pp_rerun p; pp_extended := pp_extended p; pp_delayed_once := pp_delayed_once p;
     pp_markets := pp_markets p; pp_maturity := pp_maturity p; pp_grace_end := pp_grace_end p;
     pp_version_constraint := pp_version_constraint p; pp_decision := v |}.


End writes.
