(* ===== verification/Epoch.v ===== *)
(** * The epoch core: data, parameters and the phase clock (crates/epoch-core)

    The state machine that carries a proposal from submission to settlement.
    This file has its data, the live parameters with their validation, the
    phase arithmetic and the clock [sync_phase]; [EpochDecide] has the decision
    engine and [EpochCalls] the operations. *)

From stdpp Require Import sorting.
From S2P Require Import Prelude Keyed Primitives Proposals.

Definition DEFAULT_EPOCH_LENGTH : BlockNumber := 302400.
Definition MIN_EPOCH_LENGTH : BlockNumber := MIN_EPOCH_LENGTH_BLOCKS.
Definition PHASE_DENOM : BlockNumber := DENOMINATOR.
Definition MAX_INTAKE_QUEUE : nat := INTAKE_QUEUE.
Definition MAX_ACTIVE_PER_EPOCH : nat := MAX_COHORT_PROPOSALS.
Definition RECENT_COHORTS : nat := RECENT_COHORT_SUMMARIES.
Definition DECISION_EXTENSION : BlockNumber := DEC_EXTENSION_BLOCKS.
Definition STALE_EPOCH_BOUND : BlockNumber := STALE_EPOCH_BOUND_BLOCKS.
Definition ONE : Z := 1000000000.
Definition ONE_PP : Z := RERUN_HURDLE_BUMP_1E9.

Definition requires_gate_markets (class : ProposalClass) : bool :=
  match class with Param | Treasury | Code | Meta => true | Constitutional => false end.

Inductive EpochError : Type :=
| EpBadOrigin | EpBadPhase | EpIntakeFull | EpTooManyLiveProposals | EpTooManyResources
| EpUnknownProposal | EpBadState | EpDuplicateProposal | EpLockConflict | EpTooManyCohorts
| EpTooManyCohortProposals | EpBadEpochLength | EpBadParams | EpBadDecisionInput | EpBatchTooLarge
| EpArithmeticOverflow | EpLedger | EpExecutionGuard | EpWelfare | EpTryStateViolation.

(** ** Live parameters *)

(** [[T; 5]], indexed by the class, and [[T; 2]]. *)
Abbreviation per_class T := (T * T * T * T * T)%type (only parsing).
Definition per_class_list {T} (v : per_class T) : list T :=
  let '(a, b, c, d, e) := v in [a; b; c; d; e].

Record EpochParams : Type := {
  pa_epoch_length : BlockNumber;
  pa_epoch_slots : Z;
  pa_horizon_k : Z;
  pa_decision_window : BlockNumber;
  pa_trailing_window : BlockNumber;
  pa_delta : per_class FixedU64;
  pa_sigma : per_class FixedU64;
  pa_delta_max : FixedU64;
  pa_coverage_pct : Z;
  pa_v_min : per_class Balance;
  pa_gate_v_min : per_class Balance;
  pa_gate_p_max : FixedU64 * FixedU64;
  pa_gate_eps : FixedU64 * FixedU64;
  pa_gate_nb_coverage_pct : Z;
  pa_gate_nb_convergence : FixedU64;
  pa_timelock : per_class BlockNumber;
  pa_grace : per_class BlockNumber;
  pa_intake_max_per_account : Z;
  pa_intake_slash_pct : Z;
}.

Definition EpochParams_DEFAULT : EpochParams := {|
  pa_epoch_length := DEFAULT_EPOCH_LENGTH;
  pa_epoch_slots := 5;
  pa_horizon_k := 2;
  pa_decision_window := 43200;
  pa_trailing_window := 14400;
  pa_delta := (37500000, 37500000, 60000000, 90000000, ONE);
  pa_sigma := (3000000, 5000000, 8000000, 10000000, 0);
  pa_delta_max := 50000000;
  pa_coverage_pct := 95;
  pa_v_min := (100000000000, 250000000000, 600000000000, 1200000000000, 0);
  pa_gate_v_min := (10000000000, 25000000000, 60000000000, 120000000000, 0);
  pa_gate_p_max := (50000000, 50000000);
  pa_gate_eps := (20000000, 20000000);
  pa_gate_nb_coverage_pct := 98;
  pa_gate_nb_convergence := 10000000;
  pa_timelock := (28800, 43200, 100800, 201600, 0);
  pa_grace := (201600, 201600, 201600, 201600, 0);
  pa_intake_max_per_account := 4;
  pa_intake_slash_pct := 10;
|}.

(** The two [ensure!]s of [validate]. *)
Definition validate (p : EpochParams) : Result EpochError unit :=
  do? ensure
    ((MIN_EPOCH_LENGTH <=? pa_epoch_length p)
     && (pa_epoch_length p mod PHASE_DENOM =? 0)
     && (pa_decision_window p <=? sat_mul U32 (pa_epoch_length p) (DECIDE_NUM - TRADE_NUM) / PHASE_DENOM)
     && (pa_trailing_window p <=? pa_decision_window p)
     && (0 <? pa_epoch_slots p)
     && (pa_epoch_slots p <=? Z.of_nat MAX_ACTIVE_PER_EPOCH)
     && (0 <? pa_horizon_k p)
     && (pa_horizon_k p <=? Z.of_nat MAX_NON_TERMINAL_COHORTS)
     && (0 <? pa_intake_max_per_account p)
     && (pa_intake_max_per_account p <=? Z.of_nat MAX_INTAKE_QUEUE)
     && (pa_coverage_pct p <=? 100)
     && (pa_intake_slash_pct p <=? 100)
     && (pa_gate_nb_coverage_pct p <=? 100)
     && (pa_delta_max p <=? ONE)
     && (pa_gate_nb_convergence p <=? ONE)
     && forallb (fun v => v <=? GATE_P_MAX_CEILING_1E9) [(pa_gate_p_max p).1; (pa_gate_p_max p).2]
     && forallb (fun v => v <=? ONE) (per_class_list (pa_delta p))
     && forallb (fun v => v <=? ONE) (per_class_list (pa_sigma p))) EpBadParams in
  ensure
    (forallb (fun vg : Balance * Balance =>
        match checked_div vg.1 20 with Some lower => lower <=? vg.2 | None => false end
        && match checked_div vg.1 2 with Some upper => vg.2 <=? upper | None => false end)
      (take 4 (zip (per_class_list (pa_v_min p)) (per_class_list (pa_gate_v_min p))))) EpBadParams.

Definition by_class {T} (v : per_class T) (class : ProposalClass) : T :=
  let '(param, treasury, code, meta, constitutional) := v in
  match class with
  | Param => param
  | Treasury => treasury
  | Code => code
  | Meta => meta
  | Constitutional => constitutional
  end.

Definition class_delta (p : EpochParams) (class : ProposalClass) : Z := by_class (pa_delta p) class.
Definition class_sigma (p : EpochParams) (class : ProposalClass) : Z := by_class (pa_sigma p) class.
Definition class_timelock (p : EpochParams) (class : ProposalClass) : BlockNumber := by_class (pa_timelock p) class.
Definition class_grace (p : EpochParams) (class : ProposalClass) : BlockNumber := by_class (pa_grace p) class.

(** ** The seams to the ledger and to welfare *)

Inductive SettlementTarget : Type :=
| TargetProposal (pid : ProposalId) (has_gate_books : bool)
| TargetBaseline.

(** [trait LedgerOps] *)
Class EpochLedger (X : Type) : Type := {
  el_create_vault : ProposalId -> MetricSpecVersion -> ST X EpochError unit;
  el_resolve : ProposalId -> Branch -> ST X EpochError unit;
  el_void : ProposalId -> ST X EpochError unit;
}.

(** [trait WelfareOps] *)
Class WelfareOps (X : Type) : Type := {
  wo_compute_settlement : EpochId -> MetricSpecVersion -> SettlementTarget -> ST X EpochError FixedU64;
  wo_settle_baseline_void : EpochId -> ST X EpochError unit;
}.

(** ** Inputs of the calls *)

Record DecisionGuards : Type := {
  dg_preimage_ok : bool;
  dg_resource_locks_held : bool;
  dg_process_hold : bool;
}.

Inductive StaticCheckDisposition : Type :=
| Eligible
| SlashAll (r : RejectReason)
| Refund (r : RejectReason).

Record TickInputs : Type := {
  ti_static_check : StaticCheckDisposition;
  ti_preimage_ok : bool;
  ti_active_metric_spec_version : option MetricSpecVersion;
  ti_markets : option MarketSet;
  ti_review_window_closed : bool;
  ti_queue_reject_reason : option RejectReason;
  ti_retry_exhausted : bool;
}.

Inductive Origin : Type :=
| OrSigned
| OrKeeper
| OrRoot
| OrGuardianHold
| OrGuardianReview
| OrExecutionGuard
| OrVoidAuthority.

#[export] Instance Origin_eq_dec : EqDecision Origin.
Proof. solve_decision. Defined.

Inductive WelfareGrade : Type :=
| GradeOk
| GradeInsufficient
| GradeInvalid.

Record DecisionInputs : Type := {
  di_accept_full : FixedU64;
  di_reject_full : FixedU64;
  di_baseline_full : FixedU64;
  di_accept_trailing : FixedU64;
  di_reject_trailing : FixedU64;
  di_baseline_trailing : FixedU64;
  di_accept_spot : FixedU64;
  di_reject_spot : FixedU64;
  di_welfare_grade : WelfareGrade;
  di_baseline_grade_ok : bool;
  di_previous_settled_baseline_twap : option FixedU64;
  di_survival_grade_ok : bool;
  di_security_grade_ok : bool;
  di_gate_twaps : option (FixedU64 * FixedU64 * FixedU64 * FixedU64);
  di_measured_depth : Balance;
  di_published_flow_per_day : option Balance;
  di_in_cap_prize : option Balance;
  di_attestation_quorate : bool;
  di_constitution_queue_ok : bool;
}.

(** ** The state *)

Inductive CohortStatus : Type :=
| CMeasuring (until_epoch : EpochId)
| CAwaitingOracle
| CSettling (cursor : Z)
| CSettled
| CVoid.

#[export] Instance CohortStatus_eq_dec : EqDecision CohortStatus.
Proof. solve_decision. Defined.

Record CohortInfo : Type := {
  ci_epoch : EpochId;
  ci_proposals : list ProposalId;
  ci_status : CohortStatus;
}.

Record EpochInfo : Type := {
  ei_index : EpochId;
  ei_phase : EpochPhase;
  ei_phase_start_block : BlockNumber;
  ei_epoch_start_block : BlockNumber;
  ei_length : BlockNumber;
  ei_next_length : BlockNumber;
}.

Inductive EpochEvent : Type :=
| EpProposalSubmitted (pid : ProposalId)
| EpProposalWithdrawn (pid : ProposalId)
| EpScreeningStarted (pid : ProposalId)
| EpProposalCancelled (pid : ProposalId) (reason : RejectReason)
| EpProposalQualified (pid : ProposalId)
| EpProposalDeferred (pid : ProposalId)
| EpSlotsShrunk (epoch : EpochId) (requested funded : Z) (dropped : list ProposalId)
| EpMarketsOpened (pid : ProposalId)
| EpDecisionExtended (pid : ProposalId)
| EpProposalQueued (pid : ProposalId) (payload_hash : H256) (maturity : BlockNumber)
| EpProposalRejected (pid : ProposalId) (reason : RejectReason)
| EpProposalDelayed (pid : ProposalId) (justification_hash : H256)
| EpRerunScheduled (pid : ProposalId)
| EpRerunOpened (pid : ProposalId)
| EpMandateExpired (pid : ProposalId)
| EpExecutionFailed (pid : ProposalId) (reason : RejectReason)
| EpMeasurementStarted (cohort : EpochId)
| EpCohortSettled (epoch : EpochId) (s : FixedU64)
| EpCohortVoided (epoch : EpochId)
| EpBaselineCarried (pid : ProposalId) (epoch : EpochId)
| EpProposalForceRejected (pid : ProposalId) (reason : RejectReason)
| EpIntakeSlashed (pid : ProposalId) (reason : RejectReason) (amount : Balance)
| EpNoOp.

Record EpochState (A : Type) : Type := {
  es_epoch : EpochInfo;
  es_proposals : list (Proposal A);
  es_intake_queue : list ProposalId;
  es_cohorts : list CohortInfo;
  es_recent : list CohortSummary;
  es_resource_locks : list (ResourceKey * ProposalId);
  es_events : list EpochEvent;
  es_dead_man_armed : bool;
  es_dead_man_recovery_ready : bool;
  es_ledger_frozen : bool;
  es_phase_flags : Z;
  es_proposal_id_high_water : ProposalId;
  es_rollovers : list (ProposalId * Z);
  es_dead_man_paused_at : option BlockNumber;
  es_recovery_epoch : option EpochId;
  es_stale_epoch_cutoff : option ProposalId;
  es_baseline_carry : option (EpochId * Z);
  es_horizon_k : Z;
}.
Arguments es_epoch {A}. Arguments es_proposals {A}. Arguments es_intake_queue {A}.
Arguments es_cohorts {A}. Arguments es_recent {A}. Arguments es_resource_locks {A}.
Arguments es_events {A}. Arguments es_dead_man_armed {A}. Arguments es_dead_man_recovery_ready {A}.
Arguments es_ledger_frozen {A}. Arguments es_phase_flags {A}. Arguments es_proposal_id_high_water {A}.
Arguments es_rollovers {A}. Arguments es_dead_man_paused_at {A}. Arguments es_recovery_epoch {A}.
Arguments es_stale_epoch_cutoff {A}. Arguments es_baseline_carry {A}. Arguments es_horizon_k {A}.

Definition EpochState_new {A} : EpochState A := {|
  es_epoch := {| ei_index := 0; ei_phase := PhIntake; ei_phase_start_block := 0; ei_epoch_start_block := 0;
                 ei_length := DEFAULT_EPOCH_LENGTH; ei_next_length := DEFAULT_EPOCH_LENGTH |};
  es_proposals := []; es_intake_queue := []; es_cohorts := []; es_recent := []; es_resource_locks := [];
  es_events := []; es_dead_man_armed := false; es_dead_man_recovery_ready := false; es_ledger_frozen := false;
  es_phase_flags := 0; es_proposal_id_high_water := 0; es_rollovers := []; es_dead_man_paused_at := None;
  es_recovery_epoch := None; es_stale_epoch_cutoff := None; es_baseline_carry := None;
  es_horizon_k := pa_horizon_k EpochParams_DEFAULT;
|}.

(** ** Phase arithmetic *)

Definition phase_start_offset (phase : EpochPhase) (length : BlockNumber) : BlockNumber :=
  match phase with
  | PhIntake => 0
  | PhQualify => sat_mul U32 length QUALIFY_NUM / PHASE_DENOM
  | PhSeed => sat_mul U32 length SEED_NUM / PHASE_DENOM
  | PhTrade => sat_mul U32 length TRADE_NUM / PHASE_DENOM
  | PhDecide => sat_mul U32 length DECIDE_NUM / PHASE_DENOM
  | PhReview | PhExecute => sat_add U32 (sat_mul U32 length DECIDE_NUM / PHASE_DENOM) 1
  | PhHousekeeping => sat_mul U32 length HOUSEKEEPING_NUM / PHASE_DENOM
  end.

Definition phase_at (offset l : BlockNumber) : EpochPhase :=
  if offset <? sat_mul U32 l QUALIFY_NUM / PHASE_DENOM then PhIntake
  else if offset <? sat_mul U32 l SEED_NUM / PHASE_DENOM then PhQualify
  else if offset <? sat_mul U32 l TRADE_NUM / PHASE_DENOM then PhSeed
  else if offset <? sat_mul U32 l DECIDE_NUM / PHASE_DENOM then PhTrade
  else if offset <? sat_mul U32 l HOUSEKEEPING_NUM / PHASE_DENOM then PhDecide
  else PhHousekeeping.

Definition phase_len (p : EpochPhase) (l : BlockNumber) : BlockNumber :=
  match p with
  | PhIntake => sat_mul U32 l (QUALIFY_NUM - INTAKE_NUM) / PHASE_DENOM
  | PhQualify | PhSeed => l / PHASE_DENOM
  | PhTrade => sat_mul U32 l (DECIDE_NUM - TRADE_NUM) / PHASE_DENOM
  | PhDecide => sat_mul U32 l (HOUSEKEEPING_NUM - DECIDE_NUM) / PHASE_DENOM
  | PhReview | PhExecute => 0
  | PhHousekeeping => l / PHASE_DENOM
  end.

(** ** State predicates *)

Definition is_live_state (st : ProposalState) : bool :=
  match st with
  | Submitted | Screening | Cancelled | Settled | Rejected _ | Expired => false
  | _ => true
  end.

Definition is_terminal_state (st : ProposalState) : bool :=
  match st with Settled | Cancelled | Expired | Rejected _ => true | _ => false end.

Definition is_force_rejectable_state (st : ProposalState) : bool :=
  match st with
  | Executed | Measuring | Settled | Cancelled | Expired | Rejected _ => false
  | _ => true
  end.

(** ** Writes to one field of the state *)

Section epoch_state.
Context {A : Type}.

Implicit Types (s : EpochState A) (p : Proposal A).

Definition set_epoch (e : EpochInfo) s : EpochState A :=
  {| es_epoch := e; es_proposals := es_proposals s; es_intake_queue := es_intake_queue s;
     es_cohorts := es_cohorts s; es_recent := es_recent s; es_resource_locks := es_resource_locks s;
     es_events := es_events s; es_dead_man_armed := es_dead_man_armed s;
     es_dead_man_recovery_ready := es_dead_man_recovery_ready s; es_ledger_frozen := es_ledger_frozen s;
     es_phase_flags := es_phase_flags s; es_proposal_id_high_water := es_proposal_id_high_water s;
     es_rollovers := es_rollovers s; es_dead_man_paused_at := es_dead_man_paused_at s;
     es_recovery_epoch := es_recovery_epoch s; es_stale_epoch_cutoff := es_stale_epoch_cutoff s;
     es_baseline_carry := es_baseline_carry s; es_horizon_k := es_horizon_k s |}.
Definition set_proposals (l : list (Proposal A)) s : EpochState A :=
  {| es_epoch := es_epoch s; es_proposals := l; es_intake_queue := es_intake_queue s;
     es_cohorts := es_cohorts s; es_recent := es_recent s; es_resource_locks := es_resource_locks s;
     es_events := es_events s; es_dead_man_armed := es_dead_man_armed s;
     es_dead_man_recovery_ready := es_dead_man_recovery_ready s; es_ledger_frozen := es_ledger_frozen s;
     es_phase_flags := es_phase_flags s; es_proposal_id_high_water := es_proposal_id_high_water s;
     es_rollovers := es_rollovers s; es_dead_man_paused_at := es_dead_man_paused_at s;
     es_recovery_epoch := es_recovery_epoch s; es_stale_epoch_cutoff := es_stale_epoch_cutoff s;
     es_baseline_carry := es_baseline_carry s; es_horizon_k := es_horizon_k s |}.
Definition set_intake_queue (l : list ProposalId) s : EpochState A :=
  {| es_epoch := es_epoch s; es_proposals := es_proposals s; es_intake_queue := l;
     es_cohorts := es_cohorts s; es_recent := es_recent s; es_resource_locks := es_resource_locks s;
     es_events := es_events s; es_dead_man_armed := es_dead_man_armed s;
     es_dead_man_recovery_ready := es_dead_man_recovery_ready s; es_ledger_frozen := es_ledger_frozen s;
     es_phase_flags := es_phase_flags s; es_proposal_id_high_water := es_proposal_id_high_water s;
     es_rollovers := es_rollovers s; es_dead_man_paused_at := es_dead_man_paused_at s;
     es_recovery_epoch := es_recovery_epoch s; es_stale_epoch_cutoff := es_stale_epoch_cutoff s;
     es_baseline_carry := es_baseline_carry s; es_horizon_k := es_horizon_k s |}.
Definition set_cohorts (l : list CohortInfo) s : EpochState A :=
  {| es_epoch := es_epoch s; es_proposals := es_proposals s; es_intake_queue := es_intake_queue s;
     es_cohorts := l; es_recent := es_recent s; es_resource_locks := es_resource_locks s;
     es_events := es_events s; es_dead_man_armed := es_dead_man_armed s;
     es_dead_man_recovery_ready := es_dead_man_recovery_ready s; es_ledger_frozen := es_ledger_frozen s;
     es_phase_flags := es_phase_flags s; es_proposal_id_high_water := es_proposal_id_high_water s;
     es_rollovers := es_rollovers s; es_dead_man_paused_at := es_dead_man_paused_at s;
     es_recovery_epoch := es_recovery_epoch s; es_stale_epoch_cutoff := es_stale_epoch_cutoff s;
     es_baseline_carry := es_baseline_carry s; es_horizon_k := es_horizon_k s |}.
Definition set_recent (l : list CohortSummary) s : EpochState A :=
  {| es_epoch := es_epoch s; es_proposals := es_proposals s; es_intake_queue := es_intake_queue s;
     es_cohorts := es_cohorts s; es_recent := l; es_resource_locks := es_resource_locks s;
     es_events := es_events s; es_dead_man_armed := es_dead_man_armed s;
     es_dead_man_recovery_ready := es_dead_man_recovery_ready s; es_ledger_frozen := es_ledger_frozen s;
     es_phase_flags := es_phase_flags s; es_proposal_id_high_water := es_proposal_id_high_water s;
     es_rollovers := es_rollovers s; es_dead_man_paused_at := es_dead_man_paused_at s;
     es_recovery_epoch := es_recovery_epoch s; es_stale_epoch_cutoff := es_stale_epoch_cutoff s;
     es_baseline_carry := es_baseline_carry s; es_horizon_k := es_horizon_k s |}.
Definition set_resource_locks (l : list (ResourceKey * ProposalId)) s : EpochState A :=
  {| es_epoch := es_epoch s; es_proposals := es_proposals s; es_intake_queue := es_intake_queue s;
     es_cohorts := es_cohorts s; es_recent := es_recent s; es_resource_locks := l;
     es_events := es_events s; es_dead_man_armed := es_dead_man_armed s;
     es_dead_man_recovery_ready := es_dead_man_recovery_ready s; es_ledger_frozen := es_ledger_frozen s;
     es_phase_flags := es_phase_flags s; es_proposal_id_high_water := es_proposal_id_high_water s;
     es_rollovers := es_rollovers s; es_dead_man_paused_at := es_dead_man_paused_at s;
     es_recovery_epoch := es_recovery_epoch s; es_stale_epoch_cutoff := es_stale_epoch_cutoff s;
     es_baseline_carry := es_baseline_carry s; es_horizon_k := es_horizon_k s |}.
Definition set_events (l : list EpochEvent) s : EpochState A :=
  {| es_epoch := es_epoch s; es_proposals := es_proposals s; es_intake_queue := es_intake_queue s;
     es_cohorts := es_cohorts s; es_recent := es_recent s; es_resource_locks := es_resource_locks s;
     es_events := l; es_dead_man_armed := es_dead_man_armed s;
     es_dead_man_recovery_ready := es_dead_man_recovery_ready s; es_ledger_frozen := es_ledger_frozen s;
     es_phase_flags := es_phase_flags s; es_proposal_id_high_water := es_proposal_id_high_water s;
     es_rollovers := es_rollovers s; es_dead_man_paused_at := es_dead_man_paused_at s;
     es_recovery_epoch := es_recovery_epoch s; es_stale_epoch_cutoff := es_stale_epoch_cutoff s;
     es_baseline_carry := es_baseline_carry s; es_horizon_k := es_horizon_k s |}.
Definition set_dead_man_armed (v : bool) s : EpochState A :=
  {| es_epoch := es_epoch s; es_proposals := es_proposals s; es_intake_queue := es_intake_queue s;
     es_cohorts := es_cohorts s; es_recent := es_recent s; es_resource_locks := es_resource_locks s;
     es_events := es_events s; es_dead_man_armed := v;
     es_dead_man_recovery_ready := es_dead_man_recovery_ready s; es_ledger_frozen := es_ledger_frozen s;
     es_phase_flags := es_phase_flags s; es_proposal_id_high_water := es_proposal_id_high_water s;
     es_rollovers := es_rollovers s; es_dead_man_paused_at := es_dead_man_paused_at s;
     es_recovery_epoch := es_recovery_epoch s; es_stale_epoch_cutoff := es_stale_epoch_cutoff s;
     es_baseline_carry := es_baseline_carry s; es_horizon_k := es_horizon_k s |}.
Definition set_dead_man_recovery_ready (v : bool) s : EpochState A :=
  {| es_epoch := es_epoch s; es_proposals := es_proposals s; es_intake_queue := es_intake_queue s;
     es_cohorts := es_cohorts s; es_recent := es_recent s; es_resource_locks := es_resource_locks s;
     es_events := es_events s; es_dead_man_armed := es_dead_man_armed s; es_dead_man_recovery_ready := v;
     es_ledger_frozen := es_ledger_frozen s; es_phase_flags := es_phase_flags s;
     es_proposal_id_high_water := es_proposal_id_high_water s; es_rollovers := es_rollovers s;
     es_dead_man_paused_at := es_dead_man_paused_at s; es_recovery_epoch := es_recovery_epoch s;
     es_stale_epoch_cutoff := es_stale_epoch_cutoff s; es_baseline_carry := es_baseline_carry s;
     es_horizon_k := es_horizon_k s |}.
Definition set_ledger_frozen (v : bool) s : EpochState A :=
  {| es_epoch := es_epoch s; es_proposals := es_proposals s; es_intake_queue := es_intake_queue s;
     es_cohorts := es_cohorts s; es_recent := es_recent s; es_resource_locks := es_resource_locks s;
     es_events := es_events s; es_dead_man_armed := es_dead_man_armed s;
     es_dead_man_recovery_ready := es_dead_man_recovery_ready s; es_ledger_frozen := v;
     es_phase_flags := es_phase_flags s; es_proposal_id_high_water := es_proposal_id_high_water s;
     es_rollovers := es_rollovers s; es_dead_man_paused_at := es_dead_man_paused_at s;
     es_recovery_epoch := es_recovery_epoch s; es_stale_epoch_cutoff := es_stale_epoch_cutoff s;
     es_baseline_carry := es_baseline_carry s; es_horizon_k := es_horizon_k s |}.
Definition set_phase_flags (v : Z) s : EpochState A :=
  {| es_epoch := es_epoch s; es_proposals := es_proposals s; es_intake_queue := es_intake_queue s;
     es_cohorts := es_cohorts s; es_recent := es_recent s; es_resource_locks := es_resource_locks s;
     es_events := es_events s; es_dead_man_armed := es_dead_man_armed s;
     es_dead_man_recovery_ready := es_dead_man_recovery_ready s; es_ledger_frozen := es_ledger_frozen s;
     es_phase_flags := v; es_proposal_id_high_water := es_proposal_id_high_water s;
     es_rollovers := es_rollovers s; es_dead_man_paused_at := es_dead_man_paused_at s;
     es_recovery_epoch := es_recovery_epoch s; es_stale_epoch_cutoff := es_stale_epoch_cutoff s;
     es_baseline_carry := es_baseline_carry s; es_horizon_k := es_horizon_k s |}.
Definition set_high_water (v : ProposalId) s : EpochState A :=
  {| es_epoch := es_epoch s; es_proposals := es_proposals s; es_intake_queue := es_intake_queue s;
     es_cohorts := es_cohorts s; es_recent := es_recent s; es_resource_locks := es_resource_locks s;
     es_events := es_events s; es_dead_man_armed := es_dead_man_armed s;
     es_dead_man_recovery_ready := es_dead_man_recovery_ready s; es_ledger_frozen := es_ledger_frozen s;
     es_phase_flags := es_phase_flags s; es_proposal_id_high_water := v; es_rollovers := es_rollovers s;
     es_dead_man_paused_at := es_dead_man_paused_at s; es_recovery_epoch := es_recovery_epoch s;
     es_stale_epoch_cutoff := es_stale_epoch_cutoff s; es_baseline_carry := es_baseline_carry s;
     es_horizon_k := es_horizon_k s |}.
Definition set_rollovers (l : list (ProposalId * Z)) s : EpochState A :=
  {| es_epoch := es_epoch s; es_proposals := es_proposals s; es_intake_queue := es_intake_queue s;
     es_cohorts := es_cohorts s; es_recent := es_recent s; es_resource_locks := es_resource_locks s;
     es_events := es_events s; es_dead_man_armed := es_dead_man_armed s;
     es_dead_man_recovery_ready := es_dead_man_recovery_ready s; es_ledger_frozen := es_ledger_frozen s;
     es_phase_flags := es_phase_flags s; es_proposal_id_high_water := es_proposal_id_high_water s;
     es_rollovers := l; es_dead_man_paused_at := es_dead_man_paused_at s;
     es_recovery_epoch := es_recovery_epoch s; es_stale_epoch_cutoff := es_stale_epoch_cutoff s;
     es_baseline_carry := es_baseline_carry s; es_horizon_k := es_horizon_k s |}.
Definition set_paused_at (v : option BlockNumber) s : EpochState A :=
  {| es_epoch := es_epoch s; es_proposals := es_proposals s; es_intake_queue := es_intake_queue s;
     es_cohorts := es_cohorts s; es_recent := es_recent s; es_resource_locks := es_resource_locks s;
     es_events := es_events s; es_dead_man_armed := es_dead_man_armed s;
     es_dead_man_recovery_ready := es_dead_man_recovery_ready s; es_ledger_frozen := es_ledger_frozen s;
     es_phase_flags := es_phase_flags s; es_proposal_id_high_water := es_proposal_id_high_water s;
     es_rollovers := es_rollovers s; es_dead_man_paused_at := v; es_recovery_epoch := es_recovery_epoch s;
     es_stale_epoch_cutoff := es_stale_epoch_cutoff s; es_baseline_carry := es_baseline_carry s;
     es_horizon_k := es_horizon_k s |}.
Definition set_recovery_epoch (v : option EpochId) s : EpochState A :=
  {| es_epoch := es_epoch s; es_proposals := es_proposals s; es_intake_queue := es_intake_queue s;
     es_cohorts := es_cohorts s; es_recent := es_recent s; es_resource_locks := es_resource_locks s;
     es_events := es_events s; es_dead_man_armed := es_dead_man_armed s;
     es_dead_man_recovery_ready := es_dead_man_recovery_ready s; es_ledger_frozen := es_ledger_frozen s;
     es_phase_flags := es_phase_flags s; es_proposal_id_high_water := es_proposal_id_high_water s;
     es_rollovers := es_rollovers s; es_dead_man_paused_at := es_dead_man_paused_at s;
     es_recovery_epoch := v; es_stale_epoch_cutoff := es_stale_epoch_cutoff s;
     es_baseline_carry := es_baseline_carry s; es_horizon_k := es_horizon_k s |}.
Definition set_stale_cutoff (v : option ProposalId) s : EpochState A :=
  {| es_epoch := es_epoch s; es_proposals := es_proposals s; es_intake_queue := es_intake_queue s;
     es_cohorts := es_cohorts s; es_recent := es_recent s; es_resource_locks := es_resource_locks s;
     es_events := es_events s; es_dead_man_armed := es_dead_man_armed s;
     es_dead_man_recovery_ready := es_dead_man_recovery_ready s; es_ledger_frozen := es_ledger_frozen s;
     es_phase_flags := es_phase_flags s; es_proposal_id_high_water := es_proposal_id_high_water s;
     es_rollovers := es_rollovers s; es_dead_man_paused_at := es_dead_man_paused_at s;
     es_recovery_epoch := es_recovery_epoch s; es_stale_epoch_cutoff := v;
     es_baseline_carry := es_baseline_carry s; es_horizon_k := es_horizon_k s |}.
Definition set_baseline_carry (v : option (EpochId * Z)) s : EpochState A :=
  {| es_epoch := es_epoch s; es_proposals := es_proposals s; es_intake_queue := es_intake_queue s;
     es_cohorts := es_cohorts s; es_recent := es_recent s; es_resource_locks := es_resource_locks s;
     es_events := es_events s; es_dead_man_armed := es_dead_man_armed s;
     es_dead_man_recovery_ready := es_dead_man_recovery_ready s; es_ledger_frozen := es_ledger_frozen s;
     es_phase_flags := es_phase_flags s; es_proposal_id_high_water := es_proposal_id_high_water s;
     es_rollovers := es_rollovers s; es_dead_man_paused_at := es_dead_man_paused_at s;
     es_recovery_epoch := es_recovery_epoch s; es_stale_epoch_cutoff := es_stale_epoch_cutoff s;
     es_baseline_carry := v; es_horizon_k := es_horizon_k s |}.
Definition set_horizon_k (v : Z) s : EpochState A :=
  {| es_epoch := es_epoch s; es_proposals := es_proposals s; es_intake_queue := es_intake_queue s;
     es_cohorts := es_cohorts s; es_recent := es_recent s; es_resource_locks := es_resource_locks s;
     es_events := es_events s; es_dead_man_armed := es_dead_man_armed s;
     es_dead_man_recovery_ready := es_dead_man_recovery_ready s; es_ledger_frozen := es_ledger_frozen s;
     es_phase_flags := es_phase_flags s; es_proposal_id_high_water := es_proposal_id_high_water s;
     es_rollovers := es_rollovers s; es_dead_man_paused_at := es_dead_man_paused_at s;
     es_recovery_epoch := es_recovery_epoch s; es_stale_epoch_cutoff := es_stale_epoch_cutoff s;
     es_baseline_carry := es_baseline_carry s; es_horizon_k := v |}.

Definition push_event (ev : EpochEvent) s : EpochState A := set_events (es_events s ++ [ev]) s.

(** ** Lookups *)

Definition proposal (pid : ProposalId) s : Result EpochError (Proposal A) :=
  ok_or EpUnknownProposal (find_key pp_id pid (es_proposals s)).

(** A write through [self.proposal_mut(pid)?]. *)
Definition proposal_mut (pid : ProposalId) (f : Proposal A -> Proposal A) : ST (EpochState A) EpochError unit :=
  do! reads (proposal pid) in
  modify (fun s => set_proposals (alter_key pp_id pid f (es_proposals s)) s).

Definition phase_start (phase : EpochPhase) s : BlockNumber :=
  sat_add U32 (ei_epoch_start_block (es_epoch s)) (phase_start_offset phase (ei_length (es_epoch s))).

Definition next_boundary s : BlockNumber :=
  sat_add U32 (phase_start (ei_phase (es_epoch s)) s) (phase_len (ei_phase (es_epoch s)) (ei_length (es_epoch s))).

Definition status_view s : EpochStatusView := {|
  ev_index := ei_index (es_epoch s);
  ev_phase := ei_phase (es_epoch s);
  ev_phase_start_block := ei_phase_start_block (es_epoch s);
  ev_next_boundary := next_boundary s;
  ev_dead_man_armed := es_dead_man_armed s;
  ev_ledger_frozen := es_ledger_frozen s;
  ev_phase_flags := es_phase_flags s;
|}.

(** ** The clock *)

Definition stale_process_hold (pid : ProposalId) s : bool :=
  match es_stale_epoch_cutoff s with Some cutoff => pid <=? cutoff | None => false end.

Definition maybe_clear_stale_epoch s : EpochState A :=
  match es_stale_epoch_cutoff s with
  | Some cutoff =>
      if existsb (fun p => (pp_id p <=? cutoff) && is_force_rejectable_state (pp_state p)) (es_proposals s)
      then s else set_stale_cutoff None s
  | None => s
  end.

Definition latch_stale_epoch (now : BlockNumber) s : EpochState A :=
  let s :=
    if is_none (es_stale_epoch_cutoff s) && negb (es_dead_man_armed s) && is_none (es_dead_man_paused_at s)
       && is_none (es_recovery_epoch s) && (sat_add U32 (next_boundary s) STALE_EPOCH_BOUND <? now)
    then set_stale_cutoff (Some (es_proposal_id_high_water s)) s else s in
  maybe_clear_stale_epoch s.

(** The deadlines of a proposal that was held through a pause. *)
Definition resume_proposal (paused_for : BlockNumber) p : Proposal A :=
  let p :=
    match pp_state p with
    | Trading | Extended => set_decide_at (sat_add U32 (pp_decide_at p) paused_for) p
    | _ => p
    end in
  match pp_state p with
  | Queued | Suspended | FailedExecuted =>
      set_grace_end ((fun at_ => sat_add U32 at_ paused_for) <$> pp_grace_end p)
        (set_maturity ((fun at_ => sat_add U32 at_ paused_for) <$> pp_maturity p) p)
  | _ => p
  end.

(** The fresh epoch that recovery starts with. *)
Definition recovery_restart (now : BlockNumber) (e : EpochInfo) : EpochInfo := {|
  ei_index := sat_add U32 (ei_index e) 1;
  ei_phase := PhIntake;
  ei_phase_start_block := now;
  ei_epoch_start_block := now;
  ei_length := ei_next_length e;
  ei_next_length := ei_next_length e;
|}.

(** The first boundary, then the arithmetic catch-up over missed epochs. *)
Definition cross_epoch (now : BlockNumber) (e : EpochInfo) : EpochInfo :=
  let start := sat_add U32 (ei_epoch_start_block e) (ei_length e) in
  let index := sat_add U32 (ei_index e) 1 in
  let length := ei_next_length e in
  let additional := sat_sub now start / length in
  {| ei_index := sat_add U32 index additional;
     ei_phase := ei_phase e;
     ei_phase_start_block := ei_phase_start_block e;
     ei_epoch_start_block := sat_add U32 start (sat_mul U32 length additional);
     ei_length := length;
     ei_next_length := ei_next_length e |}.

(** Intake entries kept over a pause move to the current epoch. *)
Definition carry_intake (queue : list ProposalId) (current : EpochId) p : Proposal A :=
  if bool_decide (pp_state p = Submitted) && bool_decide (pp_id p ∈ queue) then set_pp_epoch current p else p.

Definition sync_phase (now : BlockNumber) s : EpochState A :=
  if (ei_length (es_epoch s) =? 0) || (ei_next_length (es_epoch s) =? 0) then s
  else
    let s := latch_stale_epoch now s in
    if es_dead_man_armed s && negb (es_dead_man_recovery_ready s) then
      match es_recovery_epoch s, es_dead_man_paused_at s with
      | Some _, _ => set_paused_at (Some now) (set_recovery_epoch None s)
      | None, None => set_paused_at (Some now) s
      | None, Some _ => s
      end
    else
      match es_dead_man_paused_at s with
      | Some paused_at =>
          let s := set_paused_at None s in
          let s := set_proposals (resume_proposal (sat_sub now paused_at) <$> es_proposals s) s in
          let s := set_epoch (recovery_restart now (es_epoch s)) s in
          set_recovery_epoch (Some (ei_index (es_epoch s))) s
      | None =>
          let recovery_epoch := es_recovery_epoch s in
          let e := es_epoch s in
          let crossed_epoch := sat_add U32 (ei_epoch_start_block e) (ei_length e) <=? now in
          let s := if crossed_epoch then set_epoch (cross_epoch now e) s else s in
          let recovered := match recovery_epoch with
                           | Some epoch => epoch <? ei_index (es_epoch s)
                           | None => false
                           end in
          let s :=
            if crossed_epoch && recovered then
              let s := set_recovery_epoch None s in
              set_proposals (carry_intake (es_intake_queue s) (ei_index (es_epoch s)) <$> es_proposals s) s
            else s in
          let e := es_epoch s in
          let phase := phase_at (sat_sub now (ei_epoch_start_block e)) (ei_length e) in
          if negb (bool_decide (phase = ei_phase e)) || crossed_epoch then
            set_epoch {| ei_index := ei_index e; ei_phase := phase; ei_phase_start_block := phase_start phase s;
                         ei_epoch_start_block := ei_epoch_start_block e; ei_length := ei_length e;
                         ei_next_length := ei_next_length e |} s
          else s
      end.

End epoch_state.
