(* ===== verification/EpochDecide.v ===== *)
(** * The epoch core: the decision engine (05 §5.4; crates/epoch-core, [decide_engine])

    Every [return Ok(..)] of the Rust function ends one of the stages below;
    a stage answers [Some] outcome to stop and [None] to go on. *)

From S2P Require Import Prelude Keyed Primitives Proposals Epoch.

Definition effective_baseline_twaps (i : DecisionInputs) : option (FixedU64 * FixedU64) :=
  if di_baseline_grade_ok i then Some (di_baseline_full i, di_baseline_trailing i)
  else (fun carried => (carried, carried)) <$> di_previous_settled_baseline_twap i.

Definition effective_reject_1e9 (reject baseline : FixedU64) (sigma_1e9 : Z) : Z :=
  Z.max reject (sat_sub baseline sigma_1e9).

(** [u64::abs_diff] *)
Definition abs_diff (a b : Z) : Z := Z.abs (a - b).

Definition decision_converged (i : DecisionInputs) (delta_max : FixedU64) : bool :=
  (abs_diff (di_accept_spot i) (di_accept_full i) <=? delta_max)
  && (abs_diff (di_reject_spot i) (di_reject_full i) <=? delta_max).

Definition attack_cost_hat (depth : Balance) (flow : option Balance) (decision_window : BlockNumber)
    : Result EpochError Balance :=
  let? l_half := ok_or EpArithmeticOverflow (checked_div depth 2) in
  let f := match flow with Some x => Z.min x l_half | None => l_half end in
  let t_dec := Z.max (decision_window / BLOCKS_PER_DAY) 1 in
  ok_or EpArithmeticOverflow (checked_mul U128 f t_dec).

(** Steps 3 and 4: the validity and then the veto of Survival, then the same
    of Security. *)
Definition gate_stage (class : ProposalClass) (has_gate_markets : bool) (i : DecisionInputs)
    (params : EpochParams) : option DecisionOutcome :=
  if has_gate_markets then
    match di_gate_twaps i with
    | None => Some (RejectFor NotDecisionGrade)
    | Some (s_adopt, s_reject, c_adopt, c_reject) =>
        let (s_p_max, c_p_max) := pa_gate_p_max params in
        let (s_eps, c_eps) := pa_gate_eps params in
        if negb (di_survival_grade_ok i) then Some (RejectFor NotDecisionGrade)
        else if (s_p_max <? s_adopt) || (sat_add U64 s_reject s_eps <? s_adopt) then
          Some (RejectFor GateVetoSurvival)
        else if negb (di_security_grade_ok i) then Some (RejectFor NotDecisionGrade)
        else if (c_p_max <? c_adopt) || (sat_add U64 c_reject c_eps <? c_adopt) then
          Some (RejectFor GateVetoSecurity)
        else None
    end
  else if requires_gate_markets class then Some (RejectFor NotDecisionGrade)
  else None.

(** Step 5: only a shortfall that time can remedy may spend the extension. *)
Definition welfare_stage (extended : bool) (i : DecisionInputs) : option DecisionOutcome :=
  match di_welfare_grade i with
  | GradeOk => None
  | GradeInsufficient => if extended then Some (RejectFor NotDecisionGrade) else Some Extend
  | GradeInvalid => Some (RejectFor NotDecisionGrade)
  end.

(** How often in a row the Baseline has been carried, and whether the tracker
    moves to this epoch. *)
Definition carry_count (carry : option (EpochId * Z)) (proposal_epoch : EpochId) : Z * bool :=
  match carry with
  | Some (epoch, count) =>
      if epoch <? proposal_epoch then
        (if sat_add U32 epoch 1 =? proposal_epoch then sat_add U8 count 1 else 1, true)
      else if proposal_epoch =? epoch then (count, false)
      else (1, false)
  | None => (1, true)
  end.

(** The hurdle on the full and trailing means, with convergence. *)
Definition hurdle_stage (class : ProposalClass) (rerun extended : bool) (i : DecisionInputs)
    (params : EpochParams) : option DecisionOutcome :=
  match effective_baseline_twaps i with
  | None => Some (RejectFor NotDecisionGrade)
  | Some (baseline_full, baseline_trailing) =>
      let delta := sat_add U64 (class_delta params class) (if rerun then ONE_PP else 0) in
      let r_eff := effective_reject_1e9 (di_reject_full i) baseline_full (class_sigma params class) in
      let full := sat_add U64 r_eff delta <=? di_accept_full i in
      let tail_eff := effective_reject_1e9 (di_reject_trailing i) baseline_trailing (class_sigma params class) in
      let tail := sat_add U64 tail_eff delta <=? di_accept_trailing i in
      let conv := decision_converged i (pa_delta_max params) in
      if full && tail && conv then None
      else
        Some (match xorb full tail, extended, conv with
              | true, false, _ => Extend
              | true, true, _ => RejectFor SecondExtensionFailed
              | false, _, true => RejectFor HurdleNotMet
              | false, _, false => RejectFor ConvergenceFailed
              end)
  end.

(** Security sizing, attestation and the constitution's queue. *)
Definition sizing_stage (class : ProposalClass) (i : DecisionInputs) (params : EpochParams)
    : Result EpochError DecisionOutcome :=
  match di_in_cap_prize i with
  | None => Ok (RejectFor SecuritySizing)
  | Some prize =>
      let? attack := attack_cost_hat (di_measured_depth i) (di_published_flow_per_day i) (pa_decision_window params) in
      Ok (if attack <? sat_mul U128 prize SECURITY_FACTOR then RejectFor SecuritySizing
          else if match class with Code | Meta => true | _ => false end && negb (di_attestation_quorate i)
               then RejectFor AttestationMissing
          else if negb (di_constitution_queue_ok i) then RejectFor RateLimited
          else Adopt)
  end.

Section engine.
Context {A : Type}.

Implicit Types (s : EpochState A) (p : Proposal A).

(** [p.markets.is_some_and(|markets| markets.gates.is_some())] *)
Definition has_gates p : bool :=
  match pp_markets p with Some ms => negb (is_none (mset_gates ms)) | None => false end.

(** An early [return Ok(out)]. *)
Definition or_return (stage : option DecisionOutcome) (k : ST (EpochState A) EpochError DecisionOutcome)
    : ST (EpochState A) EpochError DecisionOutcome :=
  match stage with Some out => ret out | None => k end.

(** A Baseline that is not decision-grade is replaced by the last settled
    one, at most once in a row where gates are at stake. *)
Definition baseline_stage (pid : ProposalId) (proposal_epoch : EpochId) (has_gate_markets : bool)
    (i : DecisionInputs) : ST (EpochState A) EpochError (option DecisionOutcome) :=
  if di_baseline_grade_ok i then ret None
  else
    match di_previous_settled_baseline_twap i with
    | None => ret (Some (RejectFor NotDecisionGrade))
    | Some _ =>
        let! s := get in
        let (consecutive, advances_tracker) := carry_count (es_baseline_carry s) proposal_epoch in
        do! (if advances_tracker : bool
             then modify (set_baseline_carry (Some (proposal_epoch, consecutive))) else ret tt) in
        do! modify (push_event (EpBaselineCarried pid proposal_epoch)) in
        ret (if has_gate_markets && (2 <=? consecutive) then Some (RejectFor NotDecisionGrade) else None)
    end.

Definition decide_engine (pid : ProposalId) (i : DecisionInputs) (params : EpochParams)
    : ST (EpochState A) EpochError DecisionOutcome :=
  let! p := reads (proposal pid) in
  do! lift (validate params) in
  do! lift (ensure (match pp_state p with Trading | Extended => true | _ => false end) EpBadState) in
  let class := pp_class p in
  or_return (gate_stage class (has_gates p) i params)
    (or_return (welfare_stage (pp_extended p) i)
      (let! carried := baseline_stage pid (pp_epoch p) (has_gates p) i in
       or_return carried
         (or_return (hurdle_stage class (pp_rerun p) (pp_extended p) i params)
           (lift (sizing_stage class i params))))).

End engine.
