(* ===== verification/EpochCalls.v ===== *)
(** * The epoch core: the operations (crates/epoch-core, [impl EpochState])

    Every public method of the state, in the order of the source, with its
    private helpers. Methods that call the ledger or welfare run on the pair
    of the state and the environment that implements the seam. *)

From stdpp Require Import sorting.
From S2P Require Import Prelude Keyed Primitives Proposals Epoch EpochDecide.

(** [ensure!(matches!(origin, ..), Error::BadOrigin)] *)
Definition ensure_origin (origin : Origin) (allowed : list Origin) : Result EpochError unit :=
  ensure (bool_decide (origin ∈ allowed)) EpBadOrigin.

(** [Self::fraction]: a percentage rounded up. *)
Definition fraction (amount : Balance) (percent : Z) : Result EpochError Balance :=
  let? whole := ok_or EpArithmeticOverflow (x ← checked_div amount 100; checked_mul U128 x percent) in
  let remainder := amount mod 100 in
  let? fractional := ok_or EpArithmeticOverflow
      (x ← checked_mul U128 remainder percent; y ← checked_add U128 x 99; checked_div y 100) in
  ok_or EpArithmeticOverflow (checked_add U128 whole fractional).

(** Candidates by descending bond, then ascending id. *)
Definition ranked_before (x y : Balance * ProposalId) : Prop :=
  y.1 < x.1 \/ (x.1 = y.1 /\ x.2 <= y.2).
#[export] Instance ranked_before_dec x y : Decision (ranked_before x y).
Proof. unfold ranked_before. apply _. Defined.

(** [sort_unstable] and [dedup] of a resource declaration. *)
Fixpoint dedup (l : list ResourceKey) : list ResourceKey :=
  match l with
  | [] => []
  | x :: l' =>
      match l' with
      | y :: _ => if x =? y then dedup l' else x :: dedup l'
      | [] => [x]
      end
  end.
Definition sorted_resources (l : list ResourceKey) : list ResourceKey := dedup (merge_sort Z.le l).

(** The prediction for [pid]: absent and unavailable alike are [None]. *)
Definition commitment_of (commitments : list (ProposalId * option Balance)) (pid : ProposalId) : option Balance :=
  mjoin (snd <$> find_key fst pid commitments).

(** [try_fold] of the commitments of a slate. *)
Fixpoint slate_total (commitments : list (ProposalId * option Balance)) (sum : Balance)
    (slate : list (Balance * ProposalId)) : option Balance :=
  match slate with
  | [] => Some sum
  | (_, pid) :: slate =>
      amount ← commitment_of commitments pid;
      sum ← checked_add U128 sum amount;
      slate_total commitments sum slate
  end.

(** The loop that pops the last-ranked entries until the rest fits the budget;
    the slate is given in reverse. *)
Fixpoint fit_budget (commitments : list (ProposalId * option Balance)) (budget : Balance)
    (rev_slate : list (Balance * ProposalId)) (dropped : list ProposalId)
    : list (Balance * ProposalId) * list ProposalId :=
  if match slate_total commitments 0 (rev rev_slate) with Some total => total <=? budget | None => false end
  then (rev rev_slate, dropped)
  else match rev_slate with
       | [] => ([], dropped)
       | (_, pid) :: rest => fit_budget commitments budget rest (dropped ++ [pid])
       end.

Section calls.
Context {A : Type} `{EqDecision A}.

Implicit Types (s : EpochState A) (p : Proposal A) (pid : ProposalId) (now : BlockNumber).

Abbreviation EM R := (ST (EpochState A) EpochError R).

(** ** Helpers *)

Definition drop_from_queue pid s : EpochState A :=
  set_intake_queue (filter (fun x => x <> pid) (es_intake_queue s)) s.
Definition drop_rollover pid s : EpochState A :=
  set_rollovers (filter (fun r => r.1 <> pid) (es_rollovers s)) s.
Definition release_locks pid s : EpochState A :=
  set_resource_locks (filter (fun r => r.2 <> pid) (es_resource_locks s)) s.

Definition cancel pid (reason : RejectReason) (slash : Balance) : EM unit :=
  do! proposal_mut pid (set_state Cancelled) in
  do! modify (drop_from_queue pid) in
  do! modify (drop_rollover pid) in
  do! modify (push_event (EpProposalCancelled pid reason)) in
  if 0 <? slash then modify (push_event (EpIntakeSlashed pid reason slash)) else ret tt.

Definition rollover_or_refund pid : EM unit :=
  let! s := get in
  let rolled := match find_key fst pid (es_rollovers s) with Some r => r.2 | None => 0 end in
  if rolled =? 0 then
    do! lift (ensure (length (es_rollovers s) <? MAX_INTAKE_QUEUE)%nat EpIntakeFull) in
    do! modify (fun s => set_rollovers (es_rollovers s ++ [(pid, 1)]) s) in
    let next_epoch := sat_add U32 (ei_index (es_epoch s)) 1 in
    do! proposal_mut pid (fun p => set_pp_epoch next_epoch (set_state Submitted p)) in
    do! (if bool_decide (pid ∈ es_intake_queue s) then ret tt
         else
           do! lift (ensure (length (es_intake_queue s) <? MAX_INTAKE_QUEUE)%nat EpIntakeFull) in
           modify (fun s => set_intake_queue (es_intake_queue s ++ [pid]) s)) in
    modify (push_event (EpProposalDeferred pid))
  else
    do! proposal_mut pid (set_state Cancelled) in
    do! modify (drop_from_queue pid) in
    do! modify (drop_rollover pid) in
    modify (push_event (EpProposalCancelled pid RolloverExhausted)).

Definition cohort_open (c : CohortInfo) : bool :=
  match ci_status c with CSettled | CVoid => false | _ => true end.

Definition ensure_can_start_measurement pid s : Result EpochError unit :=
  let? p := proposal pid s in
  match find_key ci_epoch (pp_epoch p) (es_cohorts s) with
  | Some cohort =>
      do? ensure (cohort_open cohort) EpBadState in
      ensure (bool_decide (pid ∈ ci_proposals cohort)
              || (length (ci_proposals cohort) <? MAX_ACTIVE_PER_EPOCH)%nat) EpTooManyCohortProposals
  | None =>
      ensure (length (filter (fun c => cohort_open c = true) (es_cohorts s)) <? MAX_NON_TERMINAL_COHORTS)%nat
             EpTooManyCohorts
  end.

Definition add_cohort_proposal pid (c : CohortInfo) : CohortInfo :=
  {| ci_epoch := ci_epoch c; ci_proposals := ci_proposals c ++ [pid]; ci_status := ci_status c |}.
Definition set_cohort_status (st : CohortStatus) (c : CohortInfo) : CohortInfo :=
  {| ci_epoch := ci_epoch c; ci_proposals := ci_proposals c; ci_status := st |}.

Definition start_measurement pid : EM unit :=
  let! p := reads (proposal pid) in
  let epoch := pp_epoch p in
  let! s := get in
  do! (match find_key ci_epoch epoch (es_cohorts s) with
       | Some c =>
           do! lift (ensure (cohort_open c) EpBadState) in
           if bool_decide (pid ∈ ci_proposals c) then ret tt
           else
             do! lift (ensure (length (ci_proposals c) <? MAX_ACTIVE_PER_EPOCH)%nat EpTooManyCohortProposals) in
             modify (fun s => set_cohorts (alter_key ci_epoch epoch (add_cohort_proposal pid) (es_cohorts s)) s)
       | None =>
           do! lift (ensure (length (filter (fun c => cohort_open c = true) (es_cohorts s))
                             <? MAX_NON_TERMINAL_COHORTS)%nat EpTooManyCohorts) in
           modify (fun s => set_cohorts (es_cohorts s ++
             [{| ci_epoch := epoch; ci_proposals := [pid];
                 ci_status := CMeasuring (sat_add U32 epoch (es_horizon_k s)) |}]) s)
       end) in
  do! modify (drop_rollover pid) in
  do! proposal_mut pid (set_state Measuring) in
  modify (push_event (EpMeasurementStarted epoch)).

Definition cohort_epoch_voided (epoch : EpochId) s : bool :=
  existsb (fun c => (ci_epoch c =? epoch) && bool_decide (ci_status c = CVoid)) (es_cohorts s)
  || existsb (fun c => (cs_epoch c =? epoch) && cs_voided c) (es_recent s).

(** The rows of a cohort summary; the bounded vector refuses a thirteenth. *)
Definition summary_rows s (pids : list ProposalId)
    : Result EpochError (list (ProposalId * ProposalClass * DecisionOutcome)) :=
  try_fold (fun rows pid =>
    let? p := proposal pid s in
    do? ensure (length rows <? MAX_COHORT_PROPOSALS)%nat EpTooManyCohortProposals in
    Ok (rows ++ [(pp_id p, pp_class p, default (RejectFor ProcessHold) (pp_decision p))])) [] pids.

Definition push_summary (epoch : EpochId) (sc baseline_twap : FixedU64) now (voided : bool)
    (summary_pids : list ProposalId) : EM unit :=
  let! rows := reads (fun s => summary_rows s summary_pids) in
  do! modify (fun s => if (length (es_recent s) =? RECENT_COHORTS)%nat
                       then set_recent (tail (es_recent s)) s else s) in
  modify (fun s => set_recent (es_recent s ++
    [{| cs_epoch := epoch; cs_s_1e9 := sc; cs_baseline_twap_1e9 := baseline_twap; cs_proposals := rows;
        cs_voided := voided; cs_settled_at := now |}]) s).

(** ** Intake and qualification *)

Definition set_next_epoch_length (origin : Origin) (len : BlockNumber) (params : EpochParams) : EM unit :=
  do! lift (ensure_origin origin [OrRoot]) in
  do! lift (ensure ((MIN_EPOCH_LENGTH <=? len) && (len mod PHASE_DENOM =? 0)
                    && (pa_decision_window params <=? sat_mul U32 len (DECIDE_NUM - TRADE_NUM) / PHASE_DENOM))
                   EpBadEpochLength) in
  modify (fun s => let e := es_epoch s in
    set_epoch {| ei_index := ei_index e; ei_phase := ei_phase e; ei_phase_start_block := ei_phase_start_block e;
                 ei_epoch_start_block := ei_epoch_start_block e; ei_length := ei_length e;
                 ei_next_length := len |} s).

Definition in_phase (ph : EpochPhase) s : bool := bool_decide (ei_phase (es_epoch s) = ph).

Definition submit (origin : Origin) (np : Proposal A) (params : EpochParams) : EM unit :=
  do! lift (ensure_origin origin [OrSigned]) in
  do! lift (validate params) in
  do! modify (set_horizon_k (pa_horizon_k params)) in
  let! s := get in
  let index := ei_index (es_epoch s) in
  do! lift (ensure (negb (es_dead_man_armed s) && is_none (es_dead_man_paused_at s)
                    && is_none (es_recovery_epoch s)) EpBadPhase) in
  do! lift (ensure (in_phase PhIntake s) EpBadPhase) in
  do! lift (ensure (length (es_intake_queue s) <? MAX_INTAKE_QUEUE)%nat EpIntakeFull) in
  do! lift (ensure (length (filter (fun p => pp_epoch p = index) (es_proposals s)) <? MAX_INTAKE_QUEUE)%nat
                   EpIntakeFull) in
  do! lift (ensure (length (filter (fun p => is_live_state (pp_state p) = true) (es_proposals s))
                    <? MAX_LIVE_PROPOSALS)%nat EpTooManyLiveProposals) in
  do! lift (ensure (Z.of_nat (length (filter (fun p => pp_epoch p = index /\ pp_proposer p = pp_proposer np)
                                             (es_proposals s)))
                    <? pa_intake_max_per_account params) EpIntakeFull) in
  do! lift (ensure (length (pp_resources np) <=? MAX_RESOURCES_PER_PROPOSAL)%nat EpTooManyResources) in
  do! lift (ensure (es_proposal_id_high_water s <? pp_id np) EpDuplicateProposal) in
  do! lift (ensure (bool_decide (pp_state np = Submitted)) EpBadState) in
  do! modify (set_high_water (pp_id np)) in
  do! modify (fun s => set_intake_queue (es_intake_queue s ++ [pp_id np]) s) in
  do! modify (push_event (EpProposalSubmitted (pp_id np))) in
  modify (fun s => set_proposals (es_proposals s ++ [np]) s).

Definition withdraw (origin : Origin) pid (who : A) : EM unit :=
  do! lift (ensure_origin origin [OrSigned]) in
  let! s := get in
  do! lift (ensure (in_phase PhIntake s) EpBadState) in
  let! p := reads (proposal pid) in
  do! lift (ensure (pp_epoch p =? ei_index (es_epoch s)) EpBadState) in
  do! lift (ensure (bool_decide (pp_state p = Submitted) && bool_decide (pp_proposer p = who)) EpBadState) in
  do! proposal_mut pid (set_state Cancelled) in
  do! modify (drop_from_queue pid) in
  do! modify (drop_rollover pid) in
  modify (push_event (EpProposalWithdrawn pid)).

(** Proposals of this epoch that hold a slot. *)
Definition holds_slot (index : EpochId) p : bool :=
  (pp_epoch p =? index)
  && match pp_state p with
     | Qualified | Trading | Extended | Queued | Suspended | Rerun => true
     | _ => false
     end.

(** The candidates of this epoch in some state, as (bond, id). *)
Definition candidates (st : ProposalState) s : list (Balance * ProposalId) :=
  (fun p => (pp_bond p, pp_id p)) <$>
    filter (fun p => pp_epoch p = ei_index (es_epoch s) /\ pp_state p = st) (es_proposals s).

Definition qualify (origin : Origin) pid (static_check : StaticCheckDisposition)
    (active_metric_spec_version : MetricSpecVersion) (params : EpochParams) : EM unit :=
  do! lift (ensure_origin origin [OrKeeper]) in
  do! lift (validate params) in
  do! modify (set_horizon_k (pa_horizon_k params)) in
  let! s := get in
  let index := ei_index (es_epoch s) in
  do! lift (ensure (is_none (es_recovery_epoch s)) EpBadPhase) in
  do! lift (ensure (in_phase PhQualify s) EpBadPhase) in
  let! p := reads (proposal pid) in
  do! lift (ensure (pp_epoch p =? index) EpBadState) in
  let active := length (filter (fun p => holds_slot index p = true) (es_proposals s)) in
  let resources := sorted_resources (pp_resources p) in
  do! lift (ensure (bool_decide (pp_state p = Submitted)) EpBadState) in
  do! modify (push_event (EpScreeningStarted pid)) in
  match static_check with
  | SlashAll reason => cancel pid reason (pp_bond p)
  | Refund reason => cancel pid reason 0
  | Eligible =>
      let remaining := (Z.to_nat (pa_epoch_slots params) - active)%nat in
      let ranking := merge_sort ranked_before (candidates Submitted s) in
      if (remaining =? 0)%nat || negb (bool_decide (pid ∈ (take remaining ranking).*2)) then
        rollover_or_refund pid
      else if negb (forallb (fun r => forallb (fun l => negb (l.1 =? r)) (es_resource_locks s)) resources) then
        rollover_or_refund pid
      else
        let e := es_epoch s in
        let decide_at := sat_add U32 (ei_epoch_start_block e) (sat_mul U32 (ei_length e) DECIDE_NUM / PHASE_DENOM) in
        do! modify (fun s => set_resource_locks (es_resource_locks s ++ ((fun r => (r, pid)) <$> resources)) s) in
        do! proposal_mut pid (fun p => set_decide_at decide_at
                                (set_metric_spec active_metric_spec_version (set_state Qualified p))) in
        do! modify (drop_from_queue pid) in
        do! modify (drop_rollover pid) in
        modify (push_event (EpProposalQualified pid))
  end.

(** One dropped proposal of the shrink. *)
Definition drop_slot pid : EM unit :=
  let! p := reads (proposal pid) in
  do! lift (ensure (bool_decide (pp_state p = Qualified)) EpBadState) in
  do! modify (release_locks pid) in
  do! proposal_mut pid (fun p => set_decide_at 0 (set_state Submitted p)) in
  rollover_or_refund pid.

Definition shrink_qualified_slots (origin : Origin) (budget : Balance)
    (commitments : list (ProposalId * option Balance)) : EM (list ProposalId) :=
  do! lift (ensure_origin origin [OrKeeper]) in
  let! s := get in
  do! lift (ensure (in_phase PhSeed s) EpBadPhase) in
  let slate := merge_sort ranked_before (candidates Qualified s) in
  let requested := Z.of_nat (length slate) in
  do! lift (ensure (requested <? U32) EpArithmeticOverflow) in
  let priced := filter (fun c => is_none (commitment_of commitments c.2) = false) slate in
  let unpriced := filter (fun c => is_none (commitment_of commitments c.2) = true) slate in
  let (funded, dropped) := fit_budget commitments budget (rev priced) unpriced.*2 in
  match dropped with
  | [] => ret []
  | _ =>
      do! for_each_st drop_slot dropped in
      let! s := get in
      do! modify (push_event (EpSlotsShrunk (ei_index (es_epoch s)) requested (Z.of_nat (length funded)) dropped)) in
      ret dropped
  end.

(** ** Guardian calls without an environment *)

Definition delay_once (origin : Origin) pid (h : H256) : EM unit :=
  do! lift (ensure_origin origin [OrGuardianHold]) in
  let! p := reads (proposal pid) in
  do! lift (ensure (bool_decide (pp_state p = Queued) && negb (pp_delayed_once p)) EpBadState) in
  do! proposal_mut pid (fun p => set_state Suspended (set_delayed_once true p)) in
  modify (push_event (EpProposalDelayed pid h)).

(** The queue timing is voided. *)
Definition clear_queue_timing p : Proposal A := set_decision None (set_grace_end None (set_maturity None p)).

Definition force_rerun (origin : Origin) pid now : EM unit :=
  do! lift (ensure_origin origin [OrGuardianHold]) in
  let! p := reads (proposal pid) in
  do! lift (ensure (match pp_state p with Trading | Extended | Queued => true | _ => false end
                    && negb (pp_rerun p) && negb (pp_delayed_once p)) EpBadState) in
  do! proposal_mut pid (fun p => clear_queue_timing (set_extended true (set_rerun true (set_state Extended p)))) in
  let! at_ := lift (ok_or EpArithmeticOverflow (checked_add U32 now DECISION_EXTENSION)) in
  proposal_mut pid (set_decide_at at_).

Definition schedule_rerun (origin : Origin) pid : EM unit :=
  do! lift (ensure_origin origin [OrKeeper]) in
  let! p := reads (proposal pid) in
  do! lift (ensure (bool_decide (pp_state p = Suspended)) EpBadState) in
  do! proposal_mut pid (fun p => clear_queue_timing (set_state Rerun p)) in
  modify (push_event (EpRerunScheduled pid)).

Definition open_rerun (origin : Origin) pid now : EM unit :=
  do! lift (ensure_origin origin [OrKeeper]) in
  let! s := get in
  do! lift (ensure (is_none (es_recovery_epoch s)) EpBadPhase) in
  do! lift (ensure (in_phase PhSeed s) EpBadPhase) in
  let! p := reads (proposal pid) in
  do! lift (ensure (bool_decide (pp_state p = Rerun)) EpBadState) in
  do! proposal_mut pid (fun p => set_decide_at (sat_add U32 now DECISION_EXTENSION)
                                   (set_extended true (set_rerun true (set_state Extended p)))) in
  modify (push_event (EpRerunOpened pid)).

Definition mark_failed_executed (origin : Origin) pid : EM unit :=
  do! lift (ensure_origin origin [OrExecutionGuard]) in
  let! p := reads (proposal pid) in
  do! lift (ensure (bool_decide (pp_state p = Queued)) EpBadState) in
  do! proposal_mut pid (set_state FailedExecuted) in
  modify (push_event (EpExecutionFailed pid PayloadReverted)).

(** The proposals that a cohort VOID affects: its members and every
    proposal of the epoch that is still before execution. *)
Definition void_affects (epoch : EpochId) p : bool :=
  (pp_epoch p =? epoch)
  && match pp_state p with
     | Qualified | Trading | Extended | Queued | Suspended | Rerun | FailedExecuted => true
     | _ => false
     end.

Definition void_affected_proposals (epoch : EpochId) s : Result EpochError (list ProposalId) :=
  let? cohort := ok_or EpBadState (find_key ci_epoch epoch (es_cohorts s)) in
  let affected := fold_left (fun affected p =>
    if void_affects epoch p && negb (bool_decide (pp_id p ∈ affected)) then affected ++ [pp_id p] else affected)
    (es_proposals s) (ci_proposals cohort) in
  do? ensure (length affected <=? MAX_ACTIVE_PER_EPOCH)%nat EpTooManyCohortProposals in
  Ok affected.

(** ** Calls that reach the ledger *)

Section with_ledger.
Context {X : Type} `{!EpochLedger X}.

Abbreviation EX R := (ST (EpochState A * X) EpochError R).

Definition open_markets (origin : Origin) pid (markets : MarketSet) : EX unit :=
  do! lift (ensure_origin origin [OrKeeper]) in
  let! s := zoom_fst get in
  do! lift (ensure (is_none (es_recovery_epoch s)) EpBadPhase) in
  do! lift (ensure (in_phase PhSeed s) EpBadPhase) in
  let! p := zoom_fst (reads (proposal pid)) in
  do! lift (ensure (match pp_state p with Qualified | Rerun => true | _ => false end) EpBadState) in
  do! lift (ensure (negb (requires_gate_markets (pp_class p)) || negb (is_none (mset_gates markets)))
                   EpBadDecisionInput) in
  do! (if bool_decide (pp_state p = Qualified) then zoom_snd (el_create_vault pid (pp_metric_spec p)) else ret tt) in
  do! zoom_fst (proposal_mut pid (fun p => set_state Trading (set_pp_markets (Some markets) p))) in
  zoom_fst (modify (push_event (EpMarketsOpened pid))).

(** T20: reject to the status quo, with a par void where there is a vault. *)
Definition force_reject_process_hold (origin : Origin) pid : EX unit :=
  do! lift (ensure_origin origin [OrKeeper; OrGuardianHold]) in
  let! p := zoom_fst (reads (proposal pid)) in
  if negb (is_force_rejectable_state (pp_state p)) then zoom_fst (modify (push_event EpNoOp))
  else
    do! (if is_none (pp_markets p) then ret tt else zoom_snd (el_void pid)) in
    zoom_fst
      (do! proposal_mut pid (set_state (Rejected ProcessHold)) in
       do! modify (drop_from_queue pid) in
       do! modify (drop_rollover pid) in
       do! modify (release_locks pid) in
       do! modify (push_event (EpProposalForceRejected pid ProcessHold)) in
       modify maybe_clear_stale_epoch).

Definition force_reject_if_cohort_void pid : EX bool :=
  let! p := zoom_fst (reads (proposal pid)) in
  let! s := zoom_fst get in
  if negb (cohort_epoch_voided (pp_epoch p) s) then ret false
  else
    do! force_reject_process_hold OrKeeper pid in
    do! zoom_fst (proposal_mut pid (set_decision (Some (RejectFor ProcessHold)))) in
    ret true.

Definition reject_to_measurement pid (r : RejectReason) : EX unit :=
  let! voided := force_reject_if_cohort_void pid in
  if voided : bool then ret tt
  else
    let! p := zoom_fst (reads (proposal pid)) in
    let has_markets := negb (is_none (pp_markets p)) in
    do! (if has_markets then
           do! zoom_fst (reads (ensure_can_start_measurement pid)) in
           zoom_snd (el_resolve pid Reject)
         else ret tt) in
    zoom_fst
      (do! modify (drop_rollover pid) in
       do! proposal_mut pid (set_state (Rejected r)) in
       do! proposal_mut pid (set_decision (Some (RejectFor r))) in
       do! modify (push_event (EpProposalRejected pid r)) in
       if has_markets then start_measurement pid else modify (release_locks pid)).

(** What follows an outcome of the engine. *)
Definition extend_proposal pid : EM unit :=
  let! p := reads (proposal pid) in
  do! lift (ensure (negb (pp_extended p)) EpBadState) in
  do! proposal_mut pid (fun p => set_state Extended (set_extended true p)) in
  let! at_ := lift (ok_or EpArithmeticOverflow (checked_add U32 (pp_decide_at p) DECISION_EXTENSION)) in
  do! proposal_mut pid (set_decide_at at_) in
  modify (push_event (EpDecisionExtended pid)).

Definition queue_proposal pid now (params : EpochParams) : EM unit :=
  let! p := reads (proposal pid) in
  let! maturity := lift (ok_or EpArithmeticOverflow (checked_add U32 now (class_timelock params (pp_class p)))) in
  do! proposal_mut pid (fun p => set_maturity (Some maturity) (set_state Queued p)) in
  let! grace_end := lift (ok_or EpArithmeticOverflow (checked_add U32 maturity (class_grace params (pp_class p)))) in
  do! proposal_mut pid (fun p => set_decision (Some Adopt) (set_grace_end (Some grace_end) p)) in
  modify (push_event (EpProposalQueued pid (pp_payload_hash p) maturity)).

(** The engine behind the guards of steps 1 and 2. *)
Definition decision_outcome pid (input : DecisionInputs) (guards : DecisionGuards) (params : EpochParams)
    : EM DecisionOutcome :=
  let! s := get in
  if negb (dg_preimage_ok guards) then ret (RejectFor ConstitutionViolation)
  else if negb (dg_resource_locks_held guards) then ret (RejectFor ResourceConflict)
  else if dg_process_hold guards || es_dead_man_armed s then ret (RejectFor ProcessHold)
  else decide_engine pid input params.

(** The parameters that every crank refreshes before it syncs the clock. *)
Definition refresh_params (params : EpochParams) s : EpochState A :=
  let s := set_horizon_k (pa_horizon_k params) s in
  let e := es_epoch s in
  set_epoch {| ei_index := ei_index e; ei_phase := ei_phase e; ei_phase_start_block := ei_phase_start_block e;
               ei_epoch_start_block := ei_epoch_start_block e; ei_length := ei_length e;
               ei_next_length := pa_epoch_length params |} s.

Definition decide_with (origin : Origin) pid now (input : DecisionInputs) (guards : DecisionGuards)
    (params : EpochParams) : EX DecisionOutcome :=
  do! lift (ensure_origin origin [OrKeeper]) in
  do! lift (validate params) in
  do! zoom_fst (modify (refresh_params params)) in
  do! zoom_fst (modify (sync_phase now)) in
  let! s := zoom_fst get in
  do! lift (ensure (is_none (es_recovery_epoch s)) EpBadPhase) in
  if es_ledger_frozen s || stale_process_hold pid s then
    do! force_reject_process_hold OrKeeper pid in
    ret (RejectFor ProcessHold)
  else
    let! voided := force_reject_if_cohort_void pid in
    if voided : bool then ret (RejectFor ProcessHold)
    else
      let! p := zoom_fst (reads (proposal pid)) in
      do! lift (ensure (pp_decide_at p <=? now) EpBadPhase) in
      let! out := zoom_fst (decision_outcome pid input guards params) in
      match out with
      | Extend => do! zoom_fst (extend_proposal pid) in ret out
      | Adopt => do! zoom_fst (queue_proposal pid now params) in ret out
      | RejectFor r =>
          do! reject_to_measurement pid r in
          do! (if bool_decide (r = NotDecisionGrade) || negb (dg_preimage_ok guards) then
                 let! p := zoom_fst (reads (proposal pid)) in
                 let! amount := lift (fraction (pp_bond p) (pa_intake_slash_pct params)) in
                 zoom_fst (modify (push_event (EpIntakeSlashed pid r amount)))
               else ret tt) in
          ret out
      end.

Definition epoch_decide (origin : Origin) pid now (input : DecisionInputs) : EX DecisionOutcome :=
  decide_with origin pid now input
    {| dg_preimage_ok := true; dg_resource_locks_held := true; dg_process_hold := false |} EpochParams_DEFAULT.

Definition veto_upheld (origin : Origin) pid : EX unit :=
  do! lift (ensure_origin origin [OrGuardianReview]) in
  let! p := zoom_fst (reads (proposal pid)) in
  do! lift (ensure (bool_decide (pp_state p = Suspended)) EpBadState) in
  reject_to_measurement pid VetoUpheldByReview.

(** [ensure_can_start_measurement], [ledger.resolve], [start_measurement] *)
Definition resolve_and_measure pid (w : Branch) (mark : EM unit) : EX unit :=
  do! zoom_fst (reads (ensure_can_start_measurement pid)) in
  do! zoom_snd (el_resolve pid w) in
  zoom_fst (do! mark in start_measurement pid).

Definition mark_executed (origin : Origin) pid : EX unit :=
  do! lift (ensure_origin origin [OrExecutionGuard]) in
  let! p := zoom_fst (reads (proposal pid)) in
  do! lift (ensure (match pp_state p with Queued | FailedExecuted => true | _ => false end) EpBadState) in
  let! voided := force_reject_if_cohort_void pid in
  if voided : bool then ret tt else resolve_and_measure pid Accept (ret tt).

Definition retry_exhausted_to_measurement (origin : Origin) pid : EX unit :=
  do! lift (ensure_origin origin [OrExecutionGuard]) in
  let! p := zoom_fst (reads (proposal pid)) in
  do! lift (ensure (bool_decide (pp_state p = FailedExecuted)) EpBadState) in
  let! voided := force_reject_if_cohort_void pid in
  if voided : bool then ret tt else resolve_and_measure pid Accept (ret tt).

Definition expire_or_stale_queue (origin : Origin) pid (reason : option RejectReason) : EX unit :=
  do! lift (ensure_origin origin [OrKeeper; OrExecutionGuard]) in
  let! p := zoom_fst (reads (proposal pid)) in
  do! lift (ensure (bool_decide (pp_state p = Queued)) EpBadState) in
  let! voided := force_reject_if_cohort_void pid in
  if voided : bool then ret tt
  else
    match reason with
    | Some ((StaleQueue | NotRatified | AttestationMissing) as r) => reject_to_measurement pid r
    | None =>
        resolve_and_measure pid Reject
          (do! proposal_mut pid (set_state Expired) in modify (push_event (EpMandateExpired pid)))
    | Some _ => throw EpBadDecisionInput
    end.

(** The best-ranked candidate: [max_by] on the reversed order. *)
Definition next_candidate s : option ProposalId :=
  snd <$> fold_left (fun best c =>
    match best with
    | Some b => if bool_decide (ranked_before c b) then Some c else best
    | None => Some c
    end) (candidates Submitted s) None.

Definition tick (origin : Origin) pid now (input : TickInputs) (params : EpochParams) : EX unit :=
  do! lift (ensure_origin origin [OrKeeper]) in
  do! lift (validate params) in
  do! zoom_fst (modify (refresh_params params)) in
  do! zoom_fst (modify (sync_phase now)) in
  let! s := zoom_fst get in
  let! p := zoom_fst (reads (proposal pid)) in
  let noop := zoom_fst (modify (push_event EpNoOp)) in
  if cohort_epoch_voided (pp_epoch p) s && is_force_rejectable_state (pp_state p) then
    force_reject_process_hold OrKeeper pid
  else if (es_ledger_frozen s || stale_process_hold pid s) && is_force_rejectable_state (pp_state p) then
    force_reject_process_hold OrKeeper pid
  else if es_dead_man_armed s || negb (is_none (es_recovery_epoch s)) then noop
  else
    match pp_state p with
    | Submitted =>
        if in_phase PhQualify s && (pp_epoch p =? ei_index (es_epoch s)) then
          do! lift (ensure (bool_decide (next_candidate s = Some pid)) EpBadState) in
          if negb (ti_preimage_ok input) then
            do! zoom_fst (modify (push_event (EpScreeningStarted pid))) in
            let! slash := lift (fraction (pp_bond p) (pa_intake_slash_pct params)) in
            zoom_fst (cancel pid NotDecisionGrade slash)
          else
            match ti_active_metric_spec_version input with
            | Some spec => zoom_fst (qualify OrKeeper pid (ti_static_check input) spec params)
            | None =>
                do! zoom_fst (modify (push_event (EpScreeningStarted pid))) in
                zoom_fst (cancel pid ProcessHold 0)
            end
        else noop
    | Qualified =>
        if in_phase PhSeed s then
          let! markets := lift (ok_or EpBadDecisionInput (ti_markets input)) in
          open_markets OrKeeper pid markets
        else noop
    | Suspended => if ti_review_window_closed input then zoom_fst (schedule_rerun OrKeeper pid) else noop
    | Rerun => if in_phase PhSeed s then zoom_fst (open_rerun OrKeeper pid now) else noop
    | Queued =>
        match ti_queue_reject_reason input with
        | Some reason => expire_or_stale_queue OrKeeper pid (Some reason)
        | None =>
            if match pp_grace_end p with Some end_ => end_ <? now | None => false end
            then expire_or_stale_queue OrKeeper pid None else noop
        end
    | FailedExecuted =>
        if ti_retry_exhausted input then retry_exhausted_to_measurement OrExecutionGuard pid else noop
    | _ => noop
    end.

End with_ledger.

(** ** Calls that reach welfare *)

Section with_welfare.
Context {X : Type} `{!WelfareOps X}.

Abbreviation EX R := (ST (EpochState A * X) EpochError R).

Definition finalize_epoch_baseline (origin : Origin) (epoch : EpochId) : EX unit :=
  do! lift (ensure_origin origin [OrSigned; OrKeeper]) in
  let! s := zoom_fst get in
  do! lift (ensure (epoch <? ei_index (es_epoch s)) EpBadState) in
  do! lift (ensure (negb (existsb (fun c => ci_epoch c =? epoch) (es_cohorts s))) EpBadState) in
  do! lift (ensure (negb (existsb (fun c => cs_epoch c =? epoch) (es_recent s))) EpBadState) in
  do! lift (ensure (negb (existsb (fun p => (pp_epoch p =? epoch) && negb (is_terminal_state (pp_state p)))
                                  (es_proposals s))) EpBadState) in
  zoom_snd (wo_settle_baseline_void epoch).

(** The target of item [item] of a cohort: its proposals, then the Baseline. *)
Definition settle_target s (pids : list ProposalId) (item : nat) : Result EpochError SettlementTarget :=
  match pids !! item with
  | Some pid => let? p := proposal pid s in Ok (TargetProposal pid (has_gates p))
  | None => Ok TargetBaseline
  end.

(** [for item in cursor..end]: [count] items from [item] on; the last score. *)
Fixpoint settle_items (epoch : EpochId) (spec : MetricSpecVersion) (pids : list ProposalId) (count item : nat)
    (score : option FixedU64) : EX (option FixedU64) :=
  match count with
  | O => ret score
  | S count =>
      let! target := zoom_fst (reads (fun s => settle_target s pids item)) in
      let! value := zoom_snd (wo_compute_settlement epoch spec target) in
      settle_items epoch spec pids count (S item) (Some value)
  end.

(** The cursor from which a cohort is settled. *)
Definition settle_cursor (c : CohortInfo) s : Result EpochError nat :=
  match ci_status c with
  | CMeasuring until_epoch =>
      do? ensure (sat_add U32 until_epoch 1 <=? ei_index (es_epoch s)) EpBadState in Ok O
  | CAwaitingOracle => Ok O
  | CSettling cursor => Ok (Z.to_nat cursor)
  | CSettled | CVoid => Err EpBadState
  end.

(** Archive and reap: the members leave the working set with the cohort. *)
Definition reap_cohort (epoch : EpochId) (pids : list ProposalId) s : EpochState A :=
  let s := set_cohorts (remove_key ci_epoch epoch (es_cohorts s)) s in
  let s := set_proposals (filter (fun p => pp_id p ∉ pids) (es_proposals s)) s in
  set_resource_locks (filter (fun r => r.2 ∉ pids) (es_resource_locks s)) s.

Definition settle_proposal p : Proposal A :=
  set_decision (Some (default Adopt (pp_decision p))) (set_state Settled p).

Definition settle_cohort (origin : Origin) (epoch : EpochId) (batch : Z) (baseline_twap : FixedU64) now
    : EX FixedU64 :=
  do! lift (ensure_origin origin [OrKeeper]) in
  do! lift (ensure ((0 <? batch) && (batch <=? SETTLE_COHORT_MAX_ITEMS)) EpBatchTooLarge) in
  let! s := zoom_fst get in
  do! lift (ensure (is_none (es_recovery_epoch s)) EpBadPhase) in
  do! lift (ensure (in_phase PhHousekeeping s) EpBadPhase) in
  let! cohort := lift (ok_or EpBadState (find_key ci_epoch epoch (es_cohorts s))) in
  let pids := ci_proposals cohort in
  let! first := lift (ok_or EpBadState (head pids)) in
  let! fp := zoom_fst (reads (proposal first)) in
  let spec := pp_metric_spec fp in
  do! lift (ensure (forallb (fun pid => match proposal pid s with
                                        | Ok p => pp_metric_spec p =? spec
                                        | Err _ => false
                                        end) pids) EpTryStateViolation) in
  let! cursor := lift (settle_cursor cohort s) in
  let total := S (length pids) in
  let end_ := Nat.min (cursor + Z.to_nat batch) total in
  let! score := settle_items epoch spec pids (end_ - cursor) cursor None in
  if (end_ <? total)%nat then
    do! zoom_fst (modify (fun s => set_cohorts
          (alter_key ci_epoch epoch (set_cohort_status (CSettling (Z.of_nat end_))) (es_cohorts s)) s)) in
    lift (ok_or EpWelfare score)
  else
    let! final_score := lift (ok_or EpWelfare score) in
    zoom_fst
      (do! for_each_st (fun pid => proposal_mut pid settle_proposal) pids in
       do! push_summary epoch final_score baseline_twap now false pids in
       do! modify (push_event (EpCohortSettled epoch final_score)) in
       do! modify (reap_cohort epoch pids) in
       ret final_score).

End with_welfare.

(** ** A cohort VOID reaches both *)

Section with_both.
Context {X Y : Type} `{!EpochLedger X} `{!WelfareOps Y}.

(** One affected proposal of the voided epoch: members keep their decision. *)
Definition void_proposal (members : list ProposalId) pid : EM unit :=
  do! (if bool_decide (pid ∈ members) then ret tt
       else
         do! proposal_mut pid (fun p => set_decision (Some (RejectFor ProcessHold))
                                          (set_state (Rejected ProcessHold) p)) in
         modify (push_event (EpProposalForceRejected pid ProcessHold))) in
  do! modify (drop_from_queue pid) in
  do! modify (drop_rollover pid) in
  modify (release_locks pid).

Definition void_vault pid : ST (EpochState A * X) EpochError unit :=
  let! p := zoom_fst (reads (proposal pid)) in
  if is_none (pp_markets p) then ret tt else zoom_snd (el_void pid).

Definition void_cohort (origin : Origin) (epoch : EpochId) now : ST (EpochState A * X * Y) EpochError unit :=
  do! lift (ensure_origin origin [OrVoidAuthority]) in
  let! s := zoom_fst (zoom_fst get) in
  let! cohort := lift (ok_or EpBadState (find_key ci_epoch epoch (es_cohorts s))) in
  do! lift (ensure (match ci_status cohort with CMeasuring _ | CAwaitingOracle => true | _ => false end)
                   EpBadState) in
  let! affected := lift (void_affected_proposals epoch s) in
  let members := ci_proposals cohort in
  do! zoom_fst (for_each_st void_vault affected) in
  do! zoom_fst (zoom_fst (for_each_st (void_proposal members) affected)) in
  do! zoom_fst (zoom_fst (modify (fun s => set_cohorts
        (alter_key ci_epoch epoch (set_cohort_status CVoid) (es_cohorts s)) s))) in
  do! zoom_snd (wo_settle_baseline_void epoch) in
  zoom_fst (zoom_fst
    (do! push_summary epoch 0 0 now true affected in
     do! modify (push_event (EpCohortVoided epoch)) in
     modify (reap_cohort epoch affected))).

End with_both.

(** ** The runtime checker *)

Definition no_dup_b {T} `{EqDecision T} (l : list T) : bool := bool_decide (NoDup l).

Definition check_proposal p : Result EpochError unit :=
  do? ensure (length (pp_resources p) <=? MAX_RESOURCES_PER_PROPOSAL)%nat EpTryStateViolation in
  match pp_state p with
  | Queued | Executed | FailedExecuted | Measuring | Settled =>
      ensure (negb (is_none (pp_markets p))) EpTryStateViolation
  | _ => Ok tt
  end.

Definition check_cohort s (c : CohortInfo) : Result EpochError unit :=
  do? ensure ((length (ci_proposals c) <=? MAX_ACTIVE_PER_EPOCH)%nat
              && forallb (fun pid => existsb (fun p => (pp_id p =? pid) && (pp_epoch p =? ci_epoch c)) (es_proposals s))
                         (ci_proposals c)) EpTryStateViolation in
  do? match ci_status c with
      | CSettling cursor => ensure (Z.to_nat cursor <=? S (length (ci_proposals c)))%nat EpTryStateViolation
      | _ => Ok tt
      end in
  match (pid ← head (ci_proposals c); find_key pp_id pid (es_proposals s)) with
  | Some first =>
      ensure (forallb (fun pid => existsb (fun p => (pp_id p =? pid) && (pp_metric_spec p =? pp_metric_spec first))
                                          (es_proposals s)) (ci_proposals c)) EpTryStateViolation
  | None => Ok tt
  end.

Definition epoch_try_state s : Result EpochError unit :=
  let intake := length (filter (fun p => pp_state p = Submitted \/ pp_state p = Screening) (es_proposals s)) in
  let live := length (filter (fun p => is_live_state (pp_state p) = true) (es_proposals s)) in
  let e := es_epoch s in
  do? ensure ((intake <=? MAX_INTAKE_QUEUE)%nat
              && (live <=? MAX_LIVE_PROPOSALS)%nat
              && (length (es_intake_queue s) <=? MAX_INTAKE_QUEUE)%nat
              && (length (es_recent s) <=? RECENT_COHORTS)%nat
              && (MIN_EPOCH_LENGTH <=? ei_length e)
              && (MIN_EPOCH_LENGTH <=? ei_next_length e)
              && (ei_length e mod PHASE_DENOM =? 0)
              && (ei_next_length e mod PHASE_DENOM =? 0)
              && (length (es_rollovers s) <=? MAX_INTAKE_QUEUE)%nat
              && match es_recovery_epoch s with Some recovery => recovery =? ei_index e | None => true end)
             EpTryStateViolation in
  do? ensure (no_dup_b (pp_id <$> es_proposals s)
              && no_dup_b (es_intake_queue s)
              && forallb (fun pid => existsb (fun p => (pp_id p =? pid) && bool_decide (pp_state p = Submitted))
                                             (es_proposals s)) (es_intake_queue s)) EpTryStateViolation in
  do? ensure ((length (es_cohorts s) <=? MAX_NON_TERMINAL_COHORTS)%nat
              && forallb cohort_open (es_cohorts s)) EpTryStateViolation in
  do? for_each check_proposal (es_proposals s) in
  do? ensure (forallb (fun r => (r.2 =? 1)
                 && existsb (fun p => (pp_id p =? r.1) && bool_decide (pp_state p = Submitted)) (es_proposals s))
                 (es_rollovers s)
              && no_dup_b (es_rollovers s).*1) EpTryStateViolation in
  do? for_each (check_cohort s) (es_cohorts s) in
  ensure (no_dup_b (es_resource_locks s).*1
          && forallb (fun r => existsb (fun p => pp_id p =? r.2) (es_proposals s)) (es_resource_locks s))
         EpTryStateViolation.

End calls.
