(* ===== verification/EpochEngine.v ===== *)
(** * The decision engine against its table

    The specification is the ordered table of the failing conditions of 05
    §5.4, over exact integers: the first row that applies decides, and a
    proposal to which no row applies is adopted. *)

From S2P Require Import Prelude Keyed Primitives Proposals Epoch EpochDecide.

(** A row applies or not, and says what is decided if it does. *)
Definition row : Type := (bool * DecisionOutcome)%type.

Fixpoint first_row (rows : list row) : DecisionOutcome :=
  match rows with
  | [] => Adopt
  | (applies, out) :: rows => if applies then out else first_row rows
  end.

Lemma first_row_app r1 r2 :
  first_row (r1 ++ r2) = if existsb fst r1 then first_row r1 else first_row r2.
Proof. induction r1 as [|[[] out] r1 IH]; simpl; [done..|exact IH]. Qed.

(** No row ever says [Adopt], so adoption means that none applies. *)
Lemma first_row_adopt rows :
  (forall r, r ∈ rows -> r.2 <> Adopt) -> first_row rows = Adopt <-> forall r, r ∈ rows -> r.1 = false.
Proof.
  induction rows as [|[[] out] rows IH]; intros Hr; simpl.
  - split; [|done]. intros _ r Hr'. by apply elem_of_nil in Hr'.
  - split.
    + intros ->. exfalso. by apply (Hr (true, Adopt)); [left|].
    + intros H. specialize (H (true, out) ltac:(left)). done.
  - rewrite IH by (intros; apply Hr; by right). setoid_rewrite elem_of_cons. naive_solver.
Qed.

Section table.
Context {A : Type}.

Implicit Types (s : EpochState A) (p : Proposal A) (i : DecisionInputs) (params : EpochParams).

(** A gate vetoes when the adopt mean exceeds the cap, or the reject mean by
    more than the margin. *)
Definition vetoes (p_max eps adopt reject : Z) : bool := (p_max <? adopt) || (reject + eps <? adopt).

Definition gate_rows p i params : list row :=
  if has_gates p then
    match di_gate_twaps i with
    | None => [(true, RejectFor NotDecisionGrade)]
    | Some (s_adopt, s_reject, c_adopt, c_reject) =>
        [ (negb (di_survival_grade_ok i), RejectFor NotDecisionGrade);
          (vetoes (pa_gate_p_max params).1 (pa_gate_eps params).1 s_adopt s_reject, RejectFor GateVetoSurvival);
          (negb (di_security_grade_ok i), RejectFor NotDecisionGrade);
          (vetoes (pa_gate_p_max params).2 (pa_gate_eps params).2 c_adopt c_reject, RejectFor GateVetoSecurity) ]
    end
  else [(requires_gate_markets (pp_class p), RejectFor NotDecisionGrade)].

Definition grade_rows p i : list row :=
  [ (match di_welfare_grade i with GradeInvalid => true | _ => false end, RejectFor NotDecisionGrade);
    (match di_welfare_grade i with GradeInsufficient => true | _ => false end,
     if pp_extended p then RejectFor NotDecisionGrade else Extend) ].

(** The Baseline is live, or it is carried: then for a gated proposal at most
    once in a row. *)
Definition baseline_rows p (carry : option (EpochId * Z)) i : list row :=
  [ (negb (di_baseline_grade_ok i) && is_none (di_previous_settled_baseline_twap i), RejectFor NotDecisionGrade);
    (negb (di_baseline_grade_ok i) && has_gates p && (2 <=? (carry_count carry (pp_epoch p)).1),
     RejectFor NotDecisionGrade) ].

(** The accept mean clears the better of the reject mean and the discounted
    Baseline, by the class's margin (one point more on a rerun). *)
Definition clears p i params (baseline accept reject : Z) : bool :=
  Z.max reject (baseline - class_sigma params (pp_class p)) + class_delta params (pp_class p)
    + (if pp_rerun p then ONE_PP else 0) <=? accept.

Definition hurdle_rows p i params : list row :=
  match effective_baseline_twaps i with
  | None => []
  | Some (baseline_full, baseline_trailing) =>
      let full := clears p i params baseline_full (di_accept_full i) (di_reject_full i) in
      let tail := clears p i params baseline_trailing (di_accept_trailing i) (di_reject_trailing i) in
      [ (xorb full tail, if pp_extended p then RejectFor SecondExtensionFailed else Extend);
        (negb (decision_converged i (pa_delta_max params)), RejectFor ConvergenceFailed);
        (negb full, RejectFor HurdleNotMet) ]
  end.

(** Manipulating the books must cost at least three times the prize. *)
Definition attack_cost i params : Z :=
  let half := di_measured_depth i / 2 in
  match di_published_flow_per_day i with Some flow => Z.min flow half | None => half end
  * Z.max (pa_decision_window params / BLOCKS_PER_DAY) 1.

Definition sizing_rows p i params : list row :=
  [ (match di_in_cap_prize i with
     | Some prize => attack_cost i params <? prize * SECURITY_FACTOR
     | None => true
     end, RejectFor SecuritySizing);
    (match pp_class p with Code | Meta => negb (di_attestation_quorate i) | _ => false end,
     RejectFor AttestationMissing);
    (negb (di_constitution_queue_ok i), RejectFor RateLimited) ].

Definition decision_table p carry i params : list row :=
  gate_rows p i params ++ grade_rows p i ++ baseline_rows p carry i ++ hurdle_rows p i params
  ++ sizing_rows p i params.

(** Measurements and parameters in the range that the shell supplies: scores
    and prices on the 1e9 grid, depths that keep the attack cost in [u128]. *)
Abbreviation on_grid v := (0 <= v <= ONE).

Record inputs_ok i params : Prop := {
  io_prices : forall v, v ∈ [di_accept_full i; di_reject_full i; di_baseline_full i; di_accept_trailing i;
                             di_reject_trailing i; di_baseline_trailing i] -> on_grid v;
  io_carried : forall v, di_previous_settled_baseline_twap i = Some v -> on_grid v;
  io_gates : forall a b c d, di_gate_twaps i = Some (a, b, c, d) -> on_grid a /\ on_grid b /\ on_grid c /\ on_grid d;
  io_eps : is_u64 (pa_gate_eps params).1 /\ is_u64 (pa_gate_eps params).2;
  io_delta : forall c, on_grid (class_delta params c) /\ on_grid (class_sigma params c);
  io_prize : forall v, di_in_cap_prize i = Some v -> is_u128 v;
  io_attack : 0 <= attack_cost i params < U128 - 1;
}.

Lemma vetoes_sat p_max eps adopt reject :
  on_grid adopt -> (p_max <? adopt) || (sat_add U64 reject eps <? adopt) = vetoes p_max eps adopt reject.
Proof.
  intros H. unfold vetoes, sat_add, ONE in *. f_equal.
  destruct (Z.ltb_spec (reject + eps) adopt), (Z.ltb_spec (Z.min (reject + eps) (U64 - 1)) adopt); (done || lia).
Qed.

Lemma clears_sat p i params baseline accept reject :
  on_grid accept -> on_grid reject -> on_grid baseline ->
  on_grid (class_delta params (pp_class p)) -> on_grid (class_sigma params (pp_class p)) ->
  (sat_add U64 (effective_reject_1e9 reject baseline (class_sigma params (pp_class p)))
     (sat_add U64 (class_delta params (pp_class p)) (if pp_rerun p then ONE_PP else 0)) <=? accept)
  = clears p i params baseline accept reject.
Proof.
  unfold clears, sat_add, effective_reject_1e9, sat_sub, ONE, ONE_PP, RERUN_HURDLE_BUMP_1E9. intros.
  set (d := class_delta params (pp_class p)) in *. set (sg := class_sigma params (pp_class p)) in *.
  destruct (pp_rerun p); apply eq_true_iff_eq; rewrite !Z.leb_le; lia.
Qed.

Lemma gate_stage_rows p i params :
  inputs_ok i params ->
  match gate_stage (pp_class p) (has_gates p) i params with
  | Some out => existsb fst (gate_rows p i params) = true /\ first_row (gate_rows p i params) = out
  | None => existsb fst (gate_rows p i params) = false
  end.
Proof.
  intros Hi. unfold gate_stage, gate_rows. destruct (has_gates p); [|by destruct (requires_gate_markets _)].
  destruct (di_gate_twaps i) as [[[[sa sr] ca] cr]|] eqn:Ht; [|done].
  destruct (io_gates _ _ Hi _ _ _ _ Ht) as (Hsa & Hsr & Hca & Hcr).
  destruct (pa_gate_p_max params) as [p1 p2], (pa_gate_eps params) as [e1 e2]. cbn [fst snd].
  rewrite !vetoes_sat by done.
  destruct (di_survival_grade_ok i), (di_security_grade_ok i), (vetoes p1 e1 sa sr), (vetoes p2 e2 ca cr); done.
Qed.

Lemma hurdle_stage_rows p i params b :
  inputs_ok i params -> effective_baseline_twaps i = Some b ->
  match hurdle_stage (pp_class p) (pp_rerun p) (pp_extended p) i params with
  | Some out => existsb fst (hurdle_rows p i params) = true /\ first_row (hurdle_rows p i params) = out
  | None => existsb fst (hurdle_rows p i params) = false
  end.
Proof.
  intros Hi Hb. unfold hurdle_stage, hurdle_rows. rewrite Hb. destruct b as [bf bt].
  assert (Hbb : on_grid bf /\ on_grid bt).
  { unfold effective_baseline_twaps in Hb. destruct (di_baseline_grade_ok i).
    - injection Hb as <- <-. split; apply (io_prices _ _ Hi); rewrite !elem_of_cons; tauto.
    - destruct (di_previous_settled_baseline_twap i) eqn:Hc; [|done]. injection Hb as <- <-.
      split; by apply (io_carried _ _ Hi). }
  destruct (io_delta _ _ Hi (pp_class p)) as [Hd Hs].
  rewrite !(clears_sat p i) by first [done|apply Hbb|apply (io_prices _ _ Hi); rewrite !elem_of_cons; tauto].
  destruct (clears p i params bf _ _), (clears p i params bt _ _), (pp_extended p), (decision_converged i _); done.
Qed.

Lemma attack_cost_hat_Ok i params :
  inputs_ok i params ->
  attack_cost_hat (di_measured_depth i) (di_published_flow_per_day i) (pa_decision_window params)
  = Ok (attack_cost i params).
Proof.
  intros Hi. pose proof (io_attack _ _ Hi) as H. unfold attack_cost_hat, attack_cost in *.
  cbn -[Z.div Z.max Z.min BLOCKS_PER_DAY]. unfold checked_mul.
  by destruct (di_published_flow_per_day i); rewrite (proj2 (Z.ltb_lt _ _)) by lia.
Qed.

Lemma sizing_stage_rows p i params :
  inputs_ok i params -> sizing_stage (pp_class p) i params = Ok (first_row (sizing_rows p i params)).
Proof.
  intros Hi. unfold sizing_stage, sizing_rows. destruct (di_in_cap_prize i) as [prize|] eqn:Hp; [|done].
  rewrite attack_cost_hat_Ok by done. cbn [rbind].
  assert (E : (attack_cost i params <? sat_mul U128 prize SECURITY_FACTOR)
              = (attack_cost i params <? prize * SECURITY_FACTOR)).
  { pose proof (io_attack _ _ Hi). unfold sat_mul. apply eq_true_iff_eq. rewrite !Z.ltb_lt. lia. }
  rewrite E. cbn [first_row]. destruct (attack_cost i params <? prize * SECURITY_FACTOR); [reflexivity|].
  destruct (pp_class p), (di_attestation_quorate i), (di_constitution_queue_ok i); done.
Qed.

(** What the engine leaves in the state: the carry tracker and its event. *)
Definition carried_state pid p i s : EpochState A :=
  if di_baseline_grade_ok i || is_none (di_previous_settled_baseline_twap i) then s
  else
    let cc := carry_count (es_baseline_carry s) (pp_epoch p) in
    push_event (EpBaselineCarried pid (pp_epoch p))
      (if cc.2 then set_baseline_carry (Some (pp_epoch p, cc.1)) s else s).

Lemma baseline_stage_eq pid p i s :
  baseline_stage pid (pp_epoch p) (has_gates p) i s
  = (Ok (if existsb fst (baseline_rows p (es_baseline_carry s) i) then Some (RejectFor NotDecisionGrade) else None),
     carried_state pid p i s).
Proof.
  unfold baseline_stage, carried_state, baseline_rows.
  destruct (di_baseline_grade_ok i), (di_previous_settled_baseline_twap i); [done..| |done].
  rewrite bind_get. destruct (carry_count _ _) as [n []] eqn:Hc; cbn; rewrite ?Hc;
    by destruct (has_gates p), (2 <=? n).
Qed.

(** The outcome does not depend on the rows behind the one that applies. *)
Lemma decide_engine_table pid i params s p :
  proposal pid s = Ok p -> validate params = Ok tt -> (pp_state p = Trading \/ pp_state p = Extended) ->
  inputs_ok i params ->
  exists s', decide_engine pid i params s
             = (Ok (first_row (decision_table p (es_baseline_carry s) i params)), s')
    /\ (s' = s \/ s' = carried_state pid p i s).
Proof.
  intros Hp Hv Hst Hi. unfold decide_engine, decision_table.
  rewrite (bind_step _ _ s p s) by (unfold reads; by rewrite Hp).
  rewrite (lift_step _ _ _ _ Hv).
  rewrite (lift_step _ _ _ tt) by (destruct Hst as [-> | ->]; done).
  rewrite !first_row_app.
  pose proof (gate_stage_rows p i params Hi) as Hg. destruct (gate_stage _ _ _ _) as [out|].
  { destruct Hg as [-> ->]. exists s. split; [done|by left]. }
  rewrite Hg. cbn [or_return]. clear Hg.
  assert (Hw : match welfare_stage (pp_extended p) i with
               | Some out => existsb fst (grade_rows p i) = true /\ first_row (grade_rows p i) = out
               | None => existsb fst (grade_rows p i) = false
               end).
  { unfold welfare_stage, grade_rows. by destruct (di_welfare_grade i), (pp_extended p). }
  destruct (welfare_stage _ _) as [out|].
  { destruct Hw as [-> ->]. exists s. split; [done|by left]. }
  rewrite Hw. cbn [or_return]. clear Hw.
  rewrite (bind_step _ _ _ _ _ (baseline_stage_eq pid p i s)).
  destruct (existsb fst (baseline_rows _ _ _)) eqn:Hb; cbn [or_return].
  { exists (carried_state pid p i s). split; [|by right]. f_equal. f_equal.
    unfold baseline_rows in *. cbn in *. by destruct (_ && is_none _), (_ && _ && _). }
  destruct (effective_baseline_twaps i) as [b|] eqn:He.
  - pose proof (hurdle_stage_rows p i params b Hi He) as Hh. destruct (hurdle_stage _ _ _ _ _) as [out|]; cbn [or_return].
    + destruct Hh as [-> ->]. eexists. split; [done|by right].
    + rewrite Hh. unfold lift. rewrite sizing_stage_rows by done. eexists. split; [done|by right].
  - exfalso. unfold effective_baseline_twaps, baseline_rows in *. cbn in Hb.
    by destruct (di_baseline_grade_ok i), (di_previous_settled_baseline_twap i).
Qed.

(** No row of the table says [Adopt]. *)
Lemma decision_table_rejects p carry i params r : r ∈ decision_table p carry i params -> r.2 <> Adopt.
Proof.
  unfold decision_table, gate_rows, grade_rows, baseline_rows, hurdle_rows, sizing_rows.
  intros Hr. repeat (apply elem_of_app in Hr as [Hr|Hr]); repeat case_match;
    repeat (apply elem_of_cons in Hr as [->|Hr]; [by simpl; repeat case_match|]); by apply elem_of_nil in Hr.
Qed.

End table.
