(* ===== verification/EpochClock.v ===== *)
(** * The clock: constant-time catch-up against stepping one epoch at a time

    The reference walks over the missed epochs one by one; [sync_phase] does it
    with one division. The phase boundaries partition the epoch. *)

From S2P Require Import Prelude Keyed Primitives Proposals Epoch.

(** ** Phases of one epoch *)

(** An epoch length as the core admits it, without saturation. *)
Record length_ok (l : BlockNumber) : Prop := {
  lo_pos : 0 < l;
  lo_multiple : l mod PHASE_DENOM = 0;
  lo_fits : l * 20 < U32;
}.

Lemma twentyfirsts l n : length_ok l -> 0 <= n <= 20 -> exists k, l = 21 * k /\ sat_mul U32 l n / PHASE_DENOM = n * k.
Proof.
  intros [Hp Hm Hf] Hn. unfold PHASE_DENOM, DENOMINATOR in *.
  exists (l / 21). pose proof (Z.div_mod l 21 ltac:(lia)) as E. split; [lia|].
  unfold sat_mul. rewrite Z.min_l by nia. rewrite E, Hm at 1.
  replace ((21 * (l / 21) + 0) * n) with (n * (l / 21) * 21) by ring. by rewrite Z.div_mul by lia.
Qed.

Lemma offsets_eq l k n : length_ok l -> l = 21 * k -> 0 <= n <= 20 -> sat_mul U32 l n / PHASE_DENOM = n * k.
Proof. intros Hl Hk Hn. destruct (twentyfirsts l n Hl Hn) as (k' & Hk' & ->). f_equal. lia. Qed.

Lemma length_div l k : l = 21 * k -> l / PHASE_DENOM = k.
Proof. intros ->. unfold PHASE_DENOM, DENOMINATOR. rewrite Z.mul_comm. by apply Z.div_mul. Qed.

(** The phase at an offset starts at or before it and ends after it. *)
Lemma phase_at_bounds l o :
  length_ok l -> 0 <= o < l ->
  let ph := phase_at o l in
  phase_start_offset ph l <= o < phase_start_offset ph l + phase_len ph l
  /\ phase_start_offset ph l + phase_len ph l <= l.
Proof.
  intros Hl Ho. destruct (twentyfirsts l 1 Hl ltac:(lia)) as (k & Hk & _).
  pose proof (length_div l k Hk) as Hd. pose proof (lo_pos l Hl).
  pose proof (fun n => offsets_eq l k n Hl Hk) as E.
  unfold phase_at, QUALIFY_NUM, SEED_NUM, TRADE_NUM, DECIDE_NUM, HOUSEKEEPING_NUM in *.
  rewrite !E by lia.
  destruct (Z.ltb_spec o (3 * k)); [|destruct (Z.ltb_spec o (4 * k)); [|destruct (Z.ltb_spec o (5 * k));
    [|destruct (Z.ltb_spec o (18 * k)); [|destruct (Z.ltb_spec o (20 * k))]]]];
    cbn [phase_start_offset phase_len];
    unfold QUALIFY_NUM, SEED_NUM, TRADE_NUM, DECIDE_NUM, HOUSEKEEPING_NUM, INTAKE_NUM in *;
    rewrite ?E, ?Hd by lia; lia.
Qed.

(** ** One epoch after another *)

Definition next_epoch (e : EpochInfo) : EpochInfo := {|
  ei_index := ei_index e + 1;
  ei_phase := ei_phase e;
  ei_phase_start_block := ei_phase_start_block e;
  ei_epoch_start_block := ei_epoch_start_block e + ei_length e;
  ei_length := ei_next_length e;
  ei_next_length := ei_next_length e;
|}.

(** The reference catch-up; [fuel] bounds the number of missed epochs. *)
Fixpoint walk (fuel : nat) (now : BlockNumber) (e : EpochInfo) : EpochInfo :=
  match fuel with
  | O => e
  | S fuel => if ei_epoch_start_block e + ei_length e <=? now then walk fuel now (next_epoch e) else e
  end.

(** A clock within the range of its counters at block [now]. *)
Record clock_fits (now : BlockNumber) (e : EpochInfo) : Prop := {
  cf_now : is_u32 now;
  cf_start : 0 <= ei_epoch_start_block e <= now;
  cf_length : 0 < ei_length e;
  cf_next : 0 < ei_next_length e;
  cf_span : ei_epoch_start_block e + ei_length e < U32;
  cf_index : 0 <= ei_index e /\ ei_index e + now < U32;
}.

(** From an epoch of the new length on, the walk is a division. *)
Lemma walk_uniform fuel now e :
  0 < ei_length e -> ei_next_length e = ei_length e -> ei_epoch_start_block e <= now ->
  now - ei_epoch_start_block e < Z.of_nat fuel ->
  let additional := (now - ei_epoch_start_block e) / ei_length e in
  walk fuel now e
  = {| ei_index := ei_index e + additional; ei_phase := ei_phase e;
       ei_phase_start_block := ei_phase_start_block e;
       ei_epoch_start_block := ei_epoch_start_block e + ei_length e * additional;
       ei_length := ei_length e; ei_next_length := ei_next_length e |}.
Proof.
  revert e. induction fuel as [|fuel IH]; intros e Hl Hn Hs Hf additional; [lia|].
  cbn [walk]. destruct (Z.leb_spec (ei_epoch_start_block e + ei_length e) now) as [Hle|Hgt].
  - rewrite IH; cbn [next_epoch ei_length ei_next_length ei_epoch_start_block ei_index ei_phase ei_phase_start_block];
      rewrite ?Hn; [|lia..].
    assert (E : additional = (now - (ei_epoch_start_block e + ei_length e)) / ei_length e + 1).
    { unfold additional.
      replace (now - ei_epoch_start_block e)
        with (now - (ei_epoch_start_block e + ei_length e) + 1 * ei_length e) by ring.
      rewrite Z.div_add by lia. lia. }
    rewrite E. f_equal; ring.
  - assert (E : additional = 0) by (apply Z.div_small; lia).
    rewrite E. destruct e; cbn in *. f_equal; lia.
Qed.

Lemma cross_epoch_walk now e :
  clock_fits now e -> ei_epoch_start_block e + ei_length e <= now ->
  cross_epoch now e = walk (S (Z.to_nat (now + 1))) now e.
Proof.
  intros [[Hn0 Hnow] [Hs0 Hs] Hl Hnx Hsp [Hi0 Hi]] Hle. cbn [walk]. rewrite (proj2 (Z.leb_le _ _)) by lia.
  set (start := ei_epoch_start_block e + ei_length e) in *.
  rewrite walk_uniform; cbn [next_epoch ei_length ei_next_length ei_epoch_start_block ei_index ei_phase
    ei_phase_start_block]; [|lia..].
  fold start. unfold cross_epoch, sat_add, sat_mul, sat_sub.
  rewrite (Z.min_l (ei_epoch_start_block e + ei_length e)) by (fold start; lia). fold start.
  rewrite (Z.max_l (now - start)) by lia. rewrite (Z.min_l (ei_index e + 1)) by lia.
  pose proof (div_bounds (now - start) (ei_next_length e) Hnx) as Hb.
  set (a := (now - start) / ei_next_length e) in *.
  assert (0 <= a) by (apply Z.div_pos; lia).
  assert (a <= now - start) by (apply Z.div_le_upper_bound; nia).
  rewrite (Z.min_l (ei_index e + 1 + a)) by lia. rewrite (Z.min_l (ei_next_length e * a)) by lia.
  rewrite Z.min_l by lia. done.
Qed.

(** Where the walk ends. *)
Lemma walk_contains fuel now e :
  0 < ei_length e -> 0 < ei_next_length e -> ei_epoch_start_block e <= now ->
  now - ei_epoch_start_block e < Z.of_nat fuel ->
  let e' := walk fuel now e in
  ei_epoch_start_block e' <= now < ei_epoch_start_block e' + ei_length e'
  /\ ei_next_length e' = ei_next_length e
  /\ (ei_length e' = ei_length e \/ ei_length e' = ei_next_length e)
  /\ ei_phase e' = ei_phase e /\ ei_phase_start_block e' = ei_phase_start_block e.
Proof.
  revert e. induction fuel as [|fuel IH]; intros e Hl Hn Hs Hf; [lia|]. cbn [walk].
  destruct (Z.leb_spec (ei_epoch_start_block e + ei_length e) now) as [Hle|Hgt].
  - destruct (IH (next_epoch e)) as (H1 & H2 & H3 & H4); cbn [next_epoch ei_length ei_next_length
      ei_epoch_start_block] in *; [lia..|]. split; [exact H1|]. split; [done|]. split; [|done].
    destruct H3 as [-> | ->]; by right.
  - cbv zeta. split_and!; try done; by left.
Qed.

Section sync.
Context {A : Type}.

Implicit Types s : EpochState A.

(** The clock of a state at rest: the recorded phase start is the boundary. *)
Record clock_ok (e : EpochInfo) : Prop := {
  ck_length : length_ok (ei_length e);
  ck_next : length_ok (ei_next_length e);
  ck_phase : ei_phase_start_block e = ei_epoch_start_block e + phase_start_offset (ei_phase e) (ei_length e);
}.

Definition running s : Prop :=
  es_dead_man_paused_at s = None /\ (es_dead_man_armed s = false \/ es_dead_man_recovery_ready s = true).

Lemma latch_fields now s :
  exists c, latch_stale_epoch now s = set_stale_cutoff c s.
Proof.
  unfold latch_stale_epoch, maybe_clear_stale_epoch.
  destruct (_ && _) eqn:E; [|]; cbn [es_stale_epoch_cutoff es_proposals set_stale_cutoff].
  - destruct (existsb _ _); by eexists.
  - destruct (es_stale_epoch_cutoff s) as [c|] eqn:Hc; [|exists None; destruct s; cbn in *; by rewrite Hc].
    destruct (existsb _ _); [exists (Some c); destruct s; cbn in *; by rewrite Hc|by exists None].
Qed.

(** In a running chain the clock after [sync_phase] is the walk's, with the
    phase and the boundary of the current block. *)
Lemma sync_phase_running now s :
  running s -> ei_length (es_epoch s) <> 0 -> ei_next_length (es_epoch s) <> 0 ->
  let e := es_epoch s in
  let crossed := sat_add U32 (ei_epoch_start_block e) (ei_length e) <=? now in
  let e1 := if crossed then cross_epoch now e else e in
  let ph := phase_at (sat_sub now (ei_epoch_start_block e1)) (ei_length e1) in
  es_epoch (sync_phase now s)
  = if negb (bool_decide (ph = ei_phase e1)) || crossed
    then {| ei_index := ei_index e1; ei_phase := ph;
            ei_phase_start_block := sat_add U32 (ei_epoch_start_block e1) (phase_start_offset ph (ei_length e1));
            ei_epoch_start_block := ei_epoch_start_block e1; ei_length := ei_length e1;
            ei_next_length := ei_next_length e1 |}
    else e1.
Proof.
  intros [Hp Ha] Hl Hn e crossed e1 ph. unfold sync_phase.
  rewrite (proj2 (Z.eqb_neq _ _) Hl), (proj2 (Z.eqb_neq _ _) Hn). cbn [orb].
  destruct (latch_fields now s) as [c ->].
  cbn [es_dead_man_armed es_dead_man_recovery_ready es_dead_man_paused_at es_recovery_epoch es_epoch set_stale_cutoff].
  rewrite Hp. replace (es_dead_man_armed s && negb (es_dead_man_recovery_ready s)) with false
    by (destruct Ha as [-> | ->]; [done|by rewrite andb_false_r]).
  fold e. fold crossed. unfold phase_start.
  destruct crossed eqn:Hc; cbn [andb set_epoch es_epoch es_intake_queue es_proposals set_stale_cutoff].
  - destruct (match es_recovery_epoch s with Some _ => _ | None => _ end);
      cbn [set_recovery_epoch set_proposals es_epoch set_epoch]; rewrite !orb_true_r; reflexivity.
  - fold ph. destruct (bool_decide _); done.
Qed.

(** The clock theorem's content: the epoch is the one that stepping would
    reach, the block lies in the recorded phase. *)
Lemma sync_phase_clock now s :
  running s -> clock_fits now (es_epoch s) -> clock_ok (es_epoch s) ->
  ei_epoch_start_block (walk (S (Z.to_nat (now + 1))) now (es_epoch s))
    + ei_length (walk (S (Z.to_nat (now + 1))) now (es_epoch s)) < U32 ->
  let w := walk (S (Z.to_nat (now + 1))) now (es_epoch s) in
  let e' := es_epoch (sync_phase now s) in
  clock_ok e'
  /\ ei_index e' = ei_index w /\ ei_epoch_start_block e' = ei_epoch_start_block w /\ ei_length e' = ei_length w
  /\ ei_epoch_start_block e' <= now < ei_epoch_start_block e' + ei_length e'
  /\ ei_phase_start_block e' <= now < next_boundary (sync_phase now s).
Proof.
  intros Hr Hf Hok Hfit. set (w := walk _ now (es_epoch s)) in *. cbv zeta.
  pose proof Hf as [[Hn0 Hnow] [Hs0 Hs] Hl Hnx Hsp [Hi0 Hi]].
  pose proof (walk_contains (S (Z.to_nat (now + 1))) now (es_epoch s) Hl Hnx Hs ltac:(lia))
    as (Hin & Hwn & Hwl & Hwp & Hwb). fold w in Hin, Hwn, Hwl, Hwp, Hwb.
  assert (Hlw : length_ok (ei_length w)) by (destruct Hwl as [-> | ->]; apply Hok).
  set (crossed := sat_add U32 (ei_epoch_start_block (es_epoch s)) (ei_length (es_epoch s)) <=? now).
  assert (Hcr : crossed = (ei_epoch_start_block (es_epoch s) + ei_length (es_epoch s) <=? now)).
  { unfold crossed, sat_add. by rewrite Z.min_l by lia. }
  assert (He1 : (if crossed then cross_epoch now (es_epoch s) else es_epoch s) = w).
  { rewrite Hcr. destruct (Z.leb_spec (ei_epoch_start_block (es_epoch s) + ei_length (es_epoch s)) now) as [Hle|Hgt].
    - by rewrite cross_epoch_walk.
    - unfold w. cbn [walk]. by rewrite (proj2 (Z.leb_gt _ _)) by lia. }
  pose proof (sync_phase_running now s Hr ltac:(lia) ltac:(lia)) as E. cbv zeta in E. fold crossed in E.
  rewrite He1 in E.
  assert (Hss : sat_sub now (ei_epoch_start_block w) = now - ei_epoch_start_block w) by (unfold sat_sub; lia).
  rewrite Hss in E.
  set (ph := phase_at (now - ei_epoch_start_block w) (ei_length w)) in *.
  pose proof (phase_at_bounds (ei_length w) (now - ei_epoch_start_block w) Hlw ltac:(lia)) as [Hb1 Hb2].
  fold ph in Hb1, Hb2.
  assert (Hsat : forall x, x <= ei_length w -> sat_add U32 (ei_epoch_start_block w) x = ei_epoch_start_block w + x).
  { intros x Hx. unfold sat_add. rewrite Z.min_l by lia. done. }
  assert (Hfields : let e' := es_epoch (sync_phase now s) in
     ei_index e' = ei_index w /\ ei_epoch_start_block e' = ei_epoch_start_block w /\ ei_length e' = ei_length w
     /\ ei_next_length e' = ei_next_length w /\ ei_phase e' = ph
     /\ ei_phase_start_block e' = ei_epoch_start_block w + phase_start_offset ph (ei_length w)).
  { cbv zeta. rewrite E. destruct (negb _ || crossed) eqn:Hch; cbn [ei_index ei_epoch_start_block ei_length
      ei_next_length ei_phase ei_phase_start_block]; [rewrite Hsat by lia; done|].
    apply orb_false_elim in Hch as [Hph Hc]. apply negb_false_iff, bool_decide_eq_true in Hph.
    rewrite Hc in He1. split_and!; try done. rewrite Hph, <- He1. apply Hok. }
  cbv zeta in Hfields. destruct Hfields as (F1 & F2 & F3 & F4 & F5 & F6).
  split; [|rewrite F1, F2, F3, F6; split_and!; try done; try lia].
  - split; rewrite ?F2, ?F3, ?F4, ?F5, ?F6; [done| |done]. rewrite Hwn. apply Hok.
  - unfold next_boundary, phase_start. rewrite F2, F3, F5. rewrite (Hsat (phase_start_offset ph (ei_length w))) by lia.
    unfold sat_add. rewrite Z.min_l by lia. lia.
Qed.

End sync.
