(* ===== verification/EpochSettle.v ===== *)
(** * Settlement in batches

    Settling a cohort item by item, in batches of any size, makes the calls to
    welfare in the same order and ends in the same state as one pass. *)

From S2P Require Import Prelude Keyed Primitives Proposals Epoch EpochDecide EpochCalls.

Section settle.
Context {A : Type} `{EqDecision A} {X : Type} `{!WelfareOps X}.

Implicit Types (s : EpochState A) (w : X) (pids : list ProposalId).

Abbreviation EM R := (ST (EpochState A) EpochError R).
Abbreviation EX R := (ST (EpochState A * X) EpochError R).

(** ** The pass over the items *)

Lemma settle_items_step epoch spec pids count item score s w :
  settle_items (A := A) epoch spec pids (S count) item score (s, w)
  = match settle_target s pids item with
    | Ok target =>
        match wo_compute_settlement epoch spec target w with
        | (Ok value, w') => settle_items epoch spec pids count (S item) (Some value) (s, w')
        | (Err e, w') => (Err e, (s, w'))
        end
    | Err e => (Err e, (s, w))
    end.
Proof.
  cbn [settle_items]. unfold bind, zoom_fst, zoom_snd, reads. cbn [fst snd].
  destruct (settle_target s pids item) as [t|e]; [|done].
  cbn [fst snd]. by destruct (wo_compute_settlement epoch spec t w) as [[v|e] w'].
Qed.

Lemma settle_items_state epoch spec pids count item score s w r st :
  settle_items epoch spec pids count item score (s, w) = (r, st) -> st.1 = s.
Proof.
  revert item score w. induction count as [|count IH]; intros item score w H; [by injection H as _ <-|].
  rewrite settle_items_step in H. destruct (settle_target _ _ _); [|by injection H as _ <-].
  destruct (wo_compute_settlement _ _ _ _) as [[v|e] w']; [by eapply IH|by injection H as _ <-].
Qed.

(** A pass may be cut anywhere. *)
Lemma settle_items_app epoch spec pids m n item score st :
  settle_items (A := A) epoch spec pids (m + n) item score st
  = bind (settle_items epoch spec pids m item score)
      (fun score => settle_items epoch spec pids n (item + m)%nat score) st.
Proof.
  destruct st as [s w]. revert item score w.
  induction m as [|m IH]; intros item score w; cbn [Nat.add]; [by rewrite Nat.add_0_r|].
  rewrite settle_items_step. unfold bind. rewrite settle_items_step.
  destruct (settle_target _ _ _); [|done]. destruct (wo_compute_settlement _ _ _ _) as [[v|e] w']; [|done].
  rewrite IH. unfold bind. by rewrite Nat.add_succ_r.
Qed.

Lemma settle_items_score epoch spec pids n item score st :
  settle_items (A := A) epoch spec pids (S n) item score st = settle_items epoch spec pids (S n) item None st.
Proof. destruct st as [s w]. by rewrite !settle_items_step. Qed.

Lemma settle_items_Some epoch spec pids n item score st r st' :
  settle_items (A := A) epoch spec pids (S n) item score st = (Ok r, st') -> exists v, r = Some v.
Proof.
  destruct st as [s w]. revert item score w. induction n as [|n IH]; intros item score w H; rewrite settle_items_step in H;
    destruct (settle_target _ _ _); try done; destruct (wo_compute_settlement _ _ _ _) as [[v|e] w']; try done.
  - injection H as <- <-. by exists v.
  - by apply IH in H.
Qed.

(** The targets are read off the proposals only. *)
Lemma settle_items_blind epoch spec pids n item score s s' w :
  es_proposals s' = es_proposals s ->
  settle_items epoch spec pids n item score (s', w)
  = let '(r, st) := settle_items epoch spec pids n item score (s, w) in (r, (s', st.2)).
Proof.
  intros E. revert item score w. induction n as [|n IH]; intros item score w; [done|].
  rewrite !settle_items_step.
  assert (Et : settle_target s' pids item = settle_target s pids item) by (unfold settle_target, proposal; by rewrite E).
  rewrite Et. clear Et. destruct (settle_target s pids item); [|done].
  destruct (wo_compute_settlement _ _ _ _) as [[v|e] w']; [apply IH|done].
Qed.

(** ** One call *)

(** What a call finds before it settles anything. *)
Record settle_ready s (epoch : EpochId) (c : CohortInfo) (spec : MetricSpecVersion) (cursor : nat) : Prop := {
  sr_recovery : es_recovery_epoch s = None;
  sr_phase : ei_phase (es_epoch s) = PhHousekeeping;
  sr_cohort : find_key ci_epoch epoch (es_cohorts s) = Some c;
  sr_first : exists first fp, head (ci_proposals c) = Some first /\ proposal first s = Ok fp /\ pp_metric_spec fp = spec;
  sr_specs : forallb (fun pid => match proposal pid s with Ok p => pp_metric_spec p =? spec | Err _ => false end)
               (ci_proposals c) = true;
  sr_cursor : settle_cursor c s = Ok cursor;
}.

Definition park (epoch : EpochId) (cursor : nat) s : EpochState A :=
  set_cohorts (alter_key ci_epoch epoch (set_cohort_status (CSettling (Z.of_nat cursor))) (es_cohorts s)) s.

Definition finish_cohort (epoch : EpochId) pids (sc baseline_twap : FixedU64) (now : BlockNumber) : EM FixedU64 :=
  do! for_each_st (fun pid => proposal_mut pid settle_proposal) pids in
  do! push_summary epoch sc baseline_twap now false pids in
  do! modify (push_event (EpCohortSettled epoch sc)) in
  do! modify (reap_cohort epoch pids) in
  ret sc.

Lemma settle_cohort_ready s w epoch c spec cursor batch twap now :
  settle_ready s epoch c spec cursor -> 0 < batch <= SETTLE_COHORT_MAX_ITEMS ->
  let pids := ci_proposals c in
  let total := S (length pids) in
  let end_ := Nat.min (cursor + Z.to_nat batch) total in
  settle_cohort OrKeeper epoch batch twap now (s, w)
  = bind (settle_items epoch spec pids (end_ - cursor) cursor None)
      (fun score =>
         if (end_ <? total)%nat
         then do! zoom_fst (modify (park epoch end_)) in lift (ok_or EpWelfare score)
         else let! final := lift (ok_or EpWelfare score) in
              zoom_fst (finish_cohort epoch pids final twap now)) (s, w).
Proof.
  intros [Hr Hp Hc (first & fp & Hh & Hf & Hs) Hall Hcur] Hb pids total end_. unfold settle_cohort.
  rewrite (lift_step _ _ _ tt) by done.
  rewrite (lift_step _ _ _ tt) by (apply ensure_true, andb_true_intro; split; [apply Z.ltb_lt|apply Z.leb_le]; lia).
  rewrite (bind_step _ _ _ s (s, w)) by done.
  rewrite (lift_step _ _ _ tt) by (by rewrite Hr).
  rewrite (lift_step _ _ _ tt) by (unfold in_phase; by rewrite Hp).
  rewrite (lift_step _ _ _ c) by (by rewrite Hc).
  rewrite (lift_step _ _ _ first) by (by rewrite Hh).
  rewrite (bind_step _ _ _ fp (s, w)) by (unfold zoom_fst, reads; cbn [fst snd]; by rewrite Hf).
  rewrite Hs, (lift_step _ _ _ tt) by (by rewrite Hall).
  rewrite (lift_step _ _ _ cursor) by done. done.
Qed.

Lemma park_ready s epoch c spec cursor cursor' :
  settle_ready s epoch c spec cursor ->
  settle_ready (park epoch cursor' s) epoch (set_cohort_status (CSettling (Z.of_nat cursor')) c) spec cursor'.
Proof.
  intros [Hr Hp Hc Hf Hall Hcur]. split; try done.
  - cbn [park set_cohorts es_cohorts]. by erewrite find_key_alter_eq.
  - unfold settle_cursor. cbn [set_cohort_status ci_status]. by rewrite Nat2Z.id.
Qed.

(** ** The last call does not see the cursor *)

Definition cohort_blind {R} (m : EM R) : Prop :=
  forall s l, m (set_cohorts l s) = ((m s).1, set_cohorts l (m s).2).

Lemma blind_bind {R R'} (m : EM R) (k : R -> EM R') :
  cohort_blind m -> (forall r, cohort_blind (k r)) -> cohort_blind (bind m k).
Proof.
  intros Hm Hk s l. unfold bind. rewrite Hm. destruct (m s) as [[r|e] s']; cbn [fst snd]; [apply Hk|done].
Qed.

Lemma blind_proposal_mut pid f : cohort_blind (proposal_mut (A := A) pid f).
Proof.
  intros s l. unfold proposal_mut, bind, reads, modify, proposal. cbn [es_proposals set_cohorts].
  destruct (find_key pp_id pid (es_proposals s)); done.
Qed.

Lemma blind_for_each {T} (f : T -> EM unit) (l : list T) :
  (forall x, cohort_blind (f x)) -> cohort_blind (for_each_st f l).
Proof. intros Hf. induction l as [|x l IH]; [done|]. by apply blind_bind. Qed.

Lemma summary_rows_blind l s pids : summary_rows (set_cohorts l s) pids = summary_rows s pids.
Proof. done. Qed.

Lemma blind_push_summary epoch sc twap now voided pids : cohort_blind (push_summary (A := A) epoch sc twap now voided pids).
Proof.
  unfold push_summary. apply blind_bind.
  - intros s l. unfold reads. by rewrite summary_rows_blind.
  - intros rows. apply blind_bind; [|done]. intros s l. unfold modify. cbn [es_recent set_cohorts fst snd].
    by destruct (_ =? _)%nat.
Qed.

Lemma remove_alter k f (l : list CohortInfo) :
  (forall c, ci_epoch (f c) = ci_epoch c) -> remove_key ci_epoch k (alter_key ci_epoch k f l) = remove_key ci_epoch k l.
Proof.
  intros Hf. induction l as [|c l IH]; cbn; [done|].
  destruct (decide (ci_epoch c = k)) as [E|E]; cbn; rewrite ?Hf; [by rewrite decide_True|].
  by rewrite decide_False, IH.
Qed.

Lemma finish_park epoch pids sc twap now cursor s :
  finish_cohort epoch pids sc twap now (park epoch cursor s)
  = match finish_cohort epoch pids sc twap now s with
    | (Ok v, s') => (Ok v, s')
    | (Err e, s') => (Err e, set_cohorts (es_cohorts (park epoch cursor s)) s')
    end.
Proof.
  set (m := do! for_each_st (fun pid => proposal_mut pid settle_proposal) pids in
            do! push_summary epoch sc twap now false pids in
            modify (push_event (EpCohortSettled epoch sc)) : EM unit).
  assert (Hm : forall s, finish_cohort epoch pids sc twap now s = bind m (fun _ => do! modify (reap_cohort epoch pids) in ret sc) s).
  { intros s1. unfold finish_cohort, m, bind. destruct (for_each_st _ _ _) as [[?|?] ?]; [|done].
    by destruct (push_summary _ _ _ _ _ _ _) as [[?|?] ?]. }
  assert (Hb : cohort_blind m).
  { apply blind_bind; [apply blind_for_each; intros; apply blind_proposal_mut|]. intros _.
    apply blind_bind; [apply blind_push_summary|done]. }
  assert (Hk : forall s s', m s = (Ok tt, s') -> es_cohorts s' = es_cohorts s).
  { intros s1 s2 H. pose proof (Hb s1 (es_cohorts s1)) as E.
    assert (Es : set_cohorts (es_cohorts s1) s1 = s1) by (by destruct s1). rewrite Es, H in E. cbn [fst snd] in E.
    injection E as E. rewrite E. done. }
  rewrite !Hm. unfold bind at 1 3. unfold park. rewrite Hb. specialize (Hk s).
  destruct (m s) as [[[]|e] s'] eqn:Es; cbn [fst snd]; [|done]. specialize (Hk s' eq_refl).
  unfold bind, modify, ret, reap_cohort. cbn [set_cohorts set_proposals set_resource_locks es_cohorts es_proposals
    es_resource_locks fst snd]. rewrite Hk, remove_alter by done. done.
Qed.

(** ** Any number of calls *)

(** A keeper's calls: batch size, Baseline mean and block of each. *)
Fixpoint settle_calls (epoch : EpochId) (calls : list (Z * FixedU64 * BlockNumber)) (last : Z * FixedU64 * BlockNumber)
    : EX FixedU64 :=
  match calls with
  | [] => let '(b, twap, now) := last in settle_cohort OrKeeper epoch b twap now
  | (b, twap, now) :: calls => do! settle_cohort OrKeeper epoch b twap now in settle_calls epoch calls last
  end.

Fixpoint batch_items (calls : list (Z * FixedU64 * BlockNumber)) : nat :=
  match calls with
  | [] => O
  | (b, _, _) :: calls => (Z.to_nat b + batch_items calls)%nat
  end.

(** The one-pass settlement from a cursor. *)
Definition settle_pass (epoch : EpochId) (c : CohortInfo) (spec : MetricSpecVersion) (cursor : nat)
    (twap : FixedU64) (now : BlockNumber) : EX FixedU64 :=
  let! score := settle_items epoch spec (ci_proposals c) (S (length (ci_proposals c)) - cursor) cursor None in
  let! final := lift (ok_or EpWelfare score) in
  zoom_fst (finish_cohort epoch (ci_proposals c) final twap now).

Lemma settle_calls_pass epoch calls b twap now s w c spec cursor v st :
  settle_ready s epoch c spec cursor ->
  (forall x, x ∈ calls -> 0 < x.1.1 <= SETTLE_COHORT_MAX_ITEMS) -> 0 < b <= SETTLE_COHORT_MAX_ITEMS ->
  (cursor + batch_items calls < S (length (ci_proposals c)) <= cursor + batch_items calls + Z.to_nat b)%nat ->
  settle_pass epoch c spec cursor twap now (s, w) = (Ok v, st) ->
  settle_calls epoch calls (b, twap, now) (s, w) = (Ok v, st).
Proof.
  revert s w c cursor. induction calls as [|[[b0 twap0] now0] calls IH]; intros s w c cursor Hrd Hall Hb Hsum Hpass.
  - cbn [settle_calls]. cbn [batch_items] in Hsum. rewrite (settle_cohort_ready s w epoch c spec cursor) by done.
    rewrite Nat.min_r by lia. rewrite (proj2 (Nat.ltb_ge _ _)) by lia. exact Hpass.
  - cbn [settle_calls]. cbn [batch_items] in Hsum.
    assert (Hb0 : 0 < b0 <= SETTLE_COHORT_MAX_ITEMS) by (apply (Hall (b0, twap0, now0)); by left).
    unfold bind at 1. rewrite (settle_cohort_ready s w epoch c spec cursor) by done.
    set (n0 := Z.to_nat b0) in *. set (total := S (length (ci_proposals c))) in *.
    rewrite Nat.min_l by lia. rewrite Nat.add_sub_swap, Nat.sub_diag by lia. cbn [Nat.add].
    rewrite (proj2 (Nat.ltb_lt _ _)) by lia.
    unfold settle_pass in Hpass. fold total in Hpass.
    replace (total - cursor)%nat with (n0 + (total - (cursor + n0)))%nat in Hpass by lia.
    unfold bind at 1 in Hpass. rewrite settle_items_app in Hpass. unfold bind at 1 in Hpass.
    unfold bind at 1.
    destruct (settle_items epoch spec (ci_proposals c) n0 cursor None (s, w)) as [[sc|e] [s1 w1]] eqn:E1; [|done].
    pose proof (settle_items_state _ _ _ _ _ _ _ _ _ _ E1) as Hs1. cbn in Hs1. subst s1.
    assert (exists sv, sc = Some sv) as [sv ->].
    { destruct n0 as [|n0'] eqn:En; [lia|]. by apply settle_items_Some in E1. }
    cbn [bind zoom_fst modify fst snd lift ok_or].
    unfold bind, zoom_fst, modify, lift. cbn [fst snd ok_or].
    apply (IH (park epoch (cursor + n0) s) w1 (set_cohort_status (CSettling (Z.of_nat (cursor + n0))) c) (cursor + n0)%nat).
    + by eapply park_ready.
    + intros x Hx. apply Hall. by right.
    + done.
    + cbn [set_cohort_status ci_proposals]. fold total. lia.
    + unfold settle_pass, bind. cbn [set_cohort_status ci_proposals]. fold total.
      rewrite (settle_items_blind _ _ _ _ _ _ s) by done.
      destruct (total - (cursor + n0))%nat as [|k] eqn:Ek; [lia|].
      rewrite settle_items_score in Hpass.
      destruct (settle_items epoch spec (ci_proposals c) (S k) (cursor + n0) None (s, w1)) as [[sc'|e] [s2 w2]] eqn:E2;
        [|done].
      pose proof (settle_items_state _ _ _ _ _ _ _ _ _ _ E2) as Hs2. cbn in Hs2. subst s2.
      cbn [snd]. unfold bind in Hpass. destruct (ok_or EpWelfare sc') as [final|e]; [|done].
      unfold lift in *. unfold zoom_fst in *. cbn [fst snd] in *. rewrite finish_park.
      by destruct (finish_cohort epoch (ci_proposals c) final twap now s) as [[v'|e] s3].
Qed.

End settle.
