(* ===== verification/EpochSystem.v ===== *)
(** * The epoch core as a transition system

    The calls that the FRAME shell makes into the core, with the origins it
    passes, what it checks before them, and the two writes of its own: the
    flags it loads from the guardian and constitution pallets, and the reaping
    of terminal proposals when it persists a state. A call that fails leaves
    no trace, because the shell stores a state only on success. *)

From S2P Require Import Prelude Keyed Primitives Proposals Epoch EpochDecide EpochCalls.

Section system.
Context {A : Type} `{EqDecision A} {X Y : Type} `{!EpochLedger X} `{!WelfareOps Y}.

Inductive EpochCall : Type :=
| CallSync (now : BlockNumber)
| CallSubmit (np : Proposal A) (params : EpochParams)
| CallWithdraw (pid : ProposalId) (who : A)
| CallTick (pid : ProposalId) (now : BlockNumber) (input : TickInputs) (params : EpochParams)
| CallShrink (budget : Balance) (commitments : list (ProposalId * option Balance))
| CallDecide (pid : ProposalId) (now : BlockNumber) (input : DecisionInputs) (guards : DecisionGuards)
    (params : EpochParams)
| CallSettle (epoch : EpochId) (batch : Z) (baseline_twap : FixedU64) (now : BlockNumber)
| CallSetLength (len : BlockNumber) (params : EpochParams)
| CallDelayOnce (pid : ProposalId) (h : H256)
| CallForceRerun (pid : ProposalId) (now : BlockNumber)
| CallVetoUpheld (pid : ProposalId)
| CallMarkExecuted (pid : ProposalId)
| CallMarkFailed (pid : ProposalId)
| CallRetryExhausted (pid : ProposalId)
| CallExpire (pid : ProposalId) (reason : option RejectReason)
| CallForceReject (pid : ProposalId)
| CallVoidCohort (epoch : EpochId) (now : BlockNumber)
| CallFinalize (epoch : EpochId)
| CallFlags (armed recovery_ready frozen : bool) (phase_flags : Z)
| CallReap.

(** Terminal proposals are not persisted, except that this epoch's
    cancellations keep counting against the admission limits. *)
Definition reap_terminal (s : EpochState A) : EpochState A :=
  set_proposals (filter (fun p => negb (is_terminal_state (pp_state p))
                                  || (bool_decide (pp_state p = Cancelled)
                                      && (pp_epoch p =? ei_index (es_epoch s))) = true) (es_proposals s)) s.

Definition load_flags (armed recovery_ready frozen : bool) (phase_flags : Z) (s : EpochState A) : EpochState A :=
  set_dead_man_armed armed (set_dead_man_recovery_ready recovery_ready
    (set_ledger_frozen frozen (set_phase_flags phase_flags s))).

(** A welfare call runs on the state and the second environment. *)
Definition on_welfare {R} (m : ST (EpochState A * Y) EpochError R) : ST (EpochState A * X * Y) EpochError R :=
  fun st => let (r, sy) := m (st.1.1, st.2) in (r, (sy.1, st.1.2, sy.2)).

Definition ignore {S R} (m : ST S EpochError R) : ST S EpochError unit := do! m in ret tt.

Definition epoch_exec (c : EpochCall) : ST (EpochState A * X * Y) EpochError unit :=
  match c with
  | CallSync now => zoom_fst (zoom_fst (modify (sync_phase now)))
  | CallSubmit np params => zoom_fst (zoom_fst (submit OrSigned np params))
  | CallWithdraw pid who => zoom_fst (zoom_fst (withdraw OrSigned pid who))
  | CallTick pid now input params => zoom_fst (tick OrKeeper pid now input params)
  | CallShrink budget commitments =>
      zoom_fst (zoom_fst (ignore (shrink_qualified_slots OrKeeper budget commitments)))
  | CallDecide pid now input guards params => zoom_fst (ignore (decide_with OrKeeper pid now input guards params))
  | CallSettle epoch batch twap now => on_welfare (ignore (settle_cohort OrKeeper epoch batch twap now))
  | CallSetLength len params => zoom_fst (zoom_fst (set_next_epoch_length OrRoot len params))
  | CallDelayOnce pid h => zoom_fst (zoom_fst (delay_once OrGuardianHold pid h))
  | CallForceRerun pid now => zoom_fst (zoom_fst (force_rerun OrGuardianHold pid now))
  | CallVetoUpheld pid => zoom_fst (veto_upheld OrGuardianReview pid)
  | CallMarkExecuted pid => zoom_fst (mark_executed OrExecutionGuard pid)
  | CallMarkFailed pid => zoom_fst (zoom_fst (mark_failed_executed OrExecutionGuard pid))
  | CallRetryExhausted pid => zoom_fst (retry_exhausted_to_measurement OrExecutionGuard pid)
  | CallExpire pid reason => zoom_fst (expire_or_stale_queue OrExecutionGuard pid reason)
  | CallForceReject pid => zoom_fst (force_reject_process_hold OrGuardianHold pid)
  | CallVoidCohort epoch now => void_cohort OrVoidAuthority epoch now
  | CallFinalize epoch => on_welfare (finalize_epoch_baseline OrSigned epoch)
  | CallFlags armed ready frozen flags => zoom_fst (zoom_fst (modify (load_flags armed ready frozen flags)))
  | CallReap => zoom_fst (zoom_fst (modify reap_terminal))
  end.

(** The metric spec that is active in an epoch: the registry activates specs
    at epoch boundaries. *)
Variable spec_of : EpochId -> MetricSpecVersion.

(** A proposal as the shell admits it: shaped like a fresh one. *)
Record fresh_proposal (s : EpochState A) (np : Proposal A) : Prop := {
  fp_epoch : pp_epoch np = ei_index (es_epoch s);
  fp_decide_at : pp_decide_at np = 0;
  fp_rerun : pp_rerun np = false;
  fp_extended : pp_extended np = false;
  fp_delayed : pp_delayed_once np = false;
  fp_markets : pp_markets np = None;
  fp_maturity : pp_maturity np = None;
  fp_grace : pp_grace_end np = None;
  fp_decision : pp_decision np = None;
}.

(** What the shell checks before a call. *)
Definition call_ok (c : EpochCall) (s : EpochState A) : Prop :=
  match c with
  | CallSubmit np _ => fresh_proposal s np
  | CallTick _ now input params =>
      forall v, ti_active_metric_spec_version input = Some v ->
        v = spec_of (ei_index (es_epoch (sync_phase now (refresh_params params s))))
  | CallDecide pid _ _ _ _ => exists p, proposal pid s = Ok p /\ is_none (pp_markets p) = false
  | _ => True
  end.

Inductive epoch_step (st st' : EpochState A * X * Y) : Prop :=
| epoch_step_call c : call_ok c st.1.1 -> epoch_exec c st = (Ok tt, st') -> epoch_step st st'.

(** States that the shell can reach from genesis, whatever the environments. *)
Inductive epoch_reachable : EpochState A * X * Y -> Prop :=
| reach_new x y : epoch_reachable (EpochState_new, x, y)
| reach_step st st' : epoch_reachable st -> epoch_step st st' -> epoch_reachable st'.

End system.
Arguments EpochCall : clear implicits.
