(* ===== verification/EpochInv.v ===== *)
(** * The invariant of the epoch state and the updates that keep it

    The invariant is stated on the lookup function of the proposal table, so
    that each kind of update (one proposal, all of them, a filtered table, a
    new row) is one lemma about lookups. *)

From stdpp Require Import sorting.
From S2P Require Import Prelude Keyed Primitives Proposals Epoch EpochDecide EpochCalls.

Lemma filter_all {V} (P : V -> Prop) `{forall v, Decision (P v)} (l : list V) :
  (forall v, v ∈ l -> P v) -> filter P l = l.
Proof.
  induction l as [|v l IH]; intros Hl; [done|]. rewrite filter_cons_True by (apply Hl; by left).
  f_equal. apply IH. intros w Hw. apply Hl. by right.
Qed.

(** ** Lookups of a table after an update *)

Section lookups.
Context {K V : Type} `{EqDecision K} (key : V -> K).

Lemma find_key_alter k f (l : list V) x :
  (forall v, find_key key k l = Some v -> key (f v) = k) ->
  find_key key x (alter_key key k f l) = if decide (x = k) then f <$> find_key key k l else find_key key x l.
Proof.
  intros Hf. induction l as [|v l IH]; cbn; [by destruct (decide _)|].
  cbn in Hf. destruct (decide (key v = k)) as [E|E].
  - cbn. rewrite (Hf v eq_refl). destruct (decide (x = k)) as [->|Hx].
    + by rewrite decide_True.
    + rewrite !decide_False by congruence. done.
  - cbn. rewrite IH by done. destruct (decide (key v = x)) as [E'|E']; [|done].
    by rewrite decide_False by congruence.
Qed.

Lemma find_key_fmap f (l : list V) x :
  (forall v, key (f v) = key v) -> find_key key x (f <$> l) = f <$> find_key key x l.
Proof.
  intros Hf. induction l as [|v l IH]; cbn; [done|]. rewrite Hf. by destruct (decide (key v = x)).
Qed.

Lemma find_key_filter (P : V -> Prop) `{forall v, Decision (P v)} (l : list V) x :
  NoDup (keys key l) ->
  find_key key x (filter P l) = match find_key key x l with
                                | Some v => if decide (P v) then Some v else None
                                | None => None
                                end.
Proof.
  unfold keys. induction l as [|v l IH]; intros Hnd; [done|].
  rewrite fmap_cons, NoDup_cons in Hnd. destruct Hnd as [Hv Hnd]. specialize (IH Hnd).
  rewrite filter_cons. cbn. destruct (decide (key v = x)) as [E|E].
  - destruct (decide (P v)); cbn; [by rewrite decide_True|]. rewrite IH.
    destruct (find_key key x l) as [w|] eqn:Hw; [|done].
    exfalso. apply Hv. apply find_key_Some in Hw as [Hk Hin]. rewrite E, <- Hk. by apply list_elem_of_fmap_2.
  - destruct (decide (P v)); cbn; rewrite ?decide_False by done; exact IH.
Qed.

Lemma find_key_is_elem (l : list V) v : NoDup (keys key l) -> v ∈ l <-> find_key key (key v) l = Some v.
Proof. intros Hnd. split; [by apply find_key_elem|by intros [_ H]%find_key_Some]. Qed.

Lemma keeps_key k f (l : list V) :
  (forall v, key (f v) = key v) -> forall v, find_key key k l = Some v -> key (f v) = k.
Proof. intros Hf v Hv. rewrite Hf. by apply find_key_Some in Hv as [? _]. Qed.

Lemma keys_alter_same k f (l : list V) :
  (forall v, find_key key k l = Some v -> key (f v) = k) -> keys key (alter_key key k f l) = keys key l.
Proof.
  unfold keys. intros Hf. induction l as [|v l IH]; cbn; [done|]. cbn in Hf.
  destruct (decide (key v = k)) as [E|E]; cbn; [by rewrite (Hf v eq_refl), E|].
  f_equal. by apply IH.
Qed.

End lookups.

Section inv.
Context {A : Type}.
Variable spec_of : EpochId -> MetricSpecVersion.

Implicit Types (s : EpochState A) (p : Proposal A) (pid : ProposalId).

(** ** Shapes *)

(** States in which a vault and books exist, or have not been opened yet. *)
Definition traded_state (st : ProposalState) : bool :=
  match st with
  | Trading | Extended | Queued | Suspended | Rerun | FailedExecuted | Measuring => true
  | _ => false
  end.
Definition early_state (st : ProposalState) : bool :=
  match st with Submitted | Qualified | Cancelled => true | _ => false end.

(** States that hold resource locks. *)
Definition lock_state (st : ProposalState) : bool :=
  match st with Qualified => true | _ => traded_state st end.

Definition rejected_state (st : ProposalState) : bool := match st with Rejected _ => true | _ => false end.

Record shape p : Prop := {
  sh_resources : (length (pp_resources p) <= MAX_RESOURCES_PER_PROPOSAL)%nat;
  sh_state : traded_state (pp_state p) = true \/ early_state (pp_state p) = true \/ rejected_state (pp_state p) = true;
  sh_traded : traded_state (pp_state p) = true -> is_none (pp_markets p) = false;
  sh_early : early_state (pp_state p) = true -> pp_markets p = None;
  sh_spec : lock_state (pp_state p) = true \/ is_none (pp_markets p) = false ->
    pp_metric_spec p = spec_of (pp_epoch p);
}.

(** ** The invariant, on the lookup function of the table *)

Abbreviation table := (ProposalId -> option (Proposal A)).

Definition in_state (lk : table) pid (st : ProposalState) : Prop := exists p, lk pid = Some p /\ pp_state p = st.

Record cohort_ok (lk : table) (c : CohortInfo) : Prop := {
  co_open : cohort_open c = true;
  co_nodup : NoDup (ci_proposals c);
  co_some : ci_proposals c <> [];
  co_len : (length (ci_proposals c) <= MAX_ACTIVE_PER_EPOCH)%nat;
  co_cursor : forall n, ci_status c = CSettling n -> (Z.to_nat n <= S (length (ci_proposals c)))%nat;
  co_members : forall pid, pid ∈ ci_proposals c ->
    exists p, lk pid = Some p /\ pp_state p = Measuring /\ pp_epoch p = ci_epoch c;
}.

Record epoch_len_ok (e : EpochInfo) : Prop := {
  el_index : ei_index e < U32;
  el_length : MIN_EPOCH_LENGTH <= ei_length e /\ ei_length e mod PHASE_DENOM = 0;
  el_next : MIN_EPOCH_LENGTH <= ei_next_length e /\ ei_next_length e mod PHASE_DENOM = 0;
}.

Record EI (e : EpochInfo) (lk : table) (queue : list ProposalId) (rolls : list (ProposalId * Z))
    (cohorts : list CohortInfo) (locks : list (ResourceKey * ProposalId)) (recent : list CohortSummary)
    (high : ProposalId) (recovery : option EpochId) (paused : option BlockNumber) : Prop := {
  ei_high : forall pid p, lk pid = Some p -> pid <= high;
  ei_shape : forall pid p, lk pid = Some p -> shape p;
  ei_queue_nodup : NoDup queue;
  ei_queue_len : (length queue <= MAX_INTAKE_QUEUE)%nat;
  ei_queue : forall pid, pid ∈ queue <-> in_state lk pid Submitted;
  ei_rolls_nodup : NoDup rolls.*1;
  ei_rolls : forall r, r ∈ rolls -> r.2 = 1 /\ in_state lk r.1 Submitted;
  ei_cohorts_nodup : NoDup (keys ci_epoch cohorts);
  ei_cohorts_len : (length cohorts <= MAX_NON_TERMINAL_COHORTS)%nat;
  ei_cohorts : forall c, c ∈ cohorts -> cohort_ok lk c;
  ei_measuring : forall pid p, lk pid = Some p -> pp_state p = Measuring ->
    exists c, find_key ci_epoch (pp_epoch p) cohorts = Some c /\ pid ∈ ci_proposals c;
  ei_locks_nodup : NoDup locks.*1;
  ei_locks : forall r, r ∈ locks -> exists p, lk r.2 = Some p /\ lock_state (pp_state p) = true;
  ei_recent : (length recent <= RECENT_COHORTS)%nat;
  ei_lengths : epoch_len_ok e;
  ei_recovery : forall r, recovery = Some r -> r = ei_index e;
  ei_paused : forall b, paused = Some b -> recovery = None;
}.

Definition lk s : table := fun pid => find_key pp_id pid (es_proposals s).

Record EInv s : Prop := {
  inv_ids : NoDup (keys pp_id (es_proposals s));
  inv_ei : EI (es_epoch s) (lk s) (es_intake_queue s) (es_rollovers s) (es_cohorts s) (es_resource_locks s)
             (es_recent s) (es_proposal_id_high_water s) (es_recovery_epoch s) (es_dead_man_paused_at s);
}.

Lemma lk_id s pid p : lk s pid = Some p -> pp_id p = pid.
Proof. by intros [H _]%find_key_Some. Qed.

Lemma proposal_Ok pid s p : proposal pid s = Ok p <-> lk s pid = Some p.
Proof. unfold proposal. apply ok_or_Ok. Qed.

Lemma elem_lk s p : EInv s -> p ∈ es_proposals s <-> lk s (pp_id p) = Some p.
Proof. intros Hi. apply find_key_is_elem, Hi. Qed.

(** ** Updates *)

(** One proposal that is in no cohort before or after. *)
Lemma EI_update e lk lk' queue queue' rolls rolls' cohorts locks locks' recent high recovery paused pid p p' :
  EI e lk queue rolls cohorts locks recent high recovery paused ->
  lk pid = Some p -> pp_state p <> Measuring -> pp_state p' <> Measuring -> shape p' ->
  (forall x, lk' x = if decide (x = pid) then Some p' else lk x) ->
  NoDup queue' -> (length queue' <= MAX_INTAKE_QUEUE)%nat ->
  (forall x, x ∈ queue' <-> (x = pid /\ pp_state p' = Submitted) \/ (x <> pid /\ x ∈ queue)) ->
  NoDup rolls'.*1 ->
  (forall r, r ∈ rolls' -> (r.1 <> pid /\ r ∈ rolls) \/ (r = (pid, 1) /\ pp_state p' = Submitted)) ->
  NoDup locks'.*1 ->
  (forall r, r ∈ locks' -> (r.2 = pid /\ lock_state (pp_state p') = true) \/ (r.2 <> pid /\ r ∈ locks)) ->
  EI e lk' queue' rolls' cohorts locks' recent high recovery paused.
Proof.
  intros [] Hp Hm Hm' Hsh Hlk Hqn Hql Hq Hrn Hr Hln Hl.
  assert (Hne : forall x q, lk x = Some q -> pp_state q = Measuring -> lk' x = Some q).
  { intros x q Hx Hs. rewrite Hlk. destruct (decide (x = pid)); [congruence|done]. }
  assert (Hin : forall x st, x <> pid -> in_state lk' x st <-> in_state lk x st).
  { intros x st Hx. unfold in_state. rewrite Hlk. by rewrite decide_False. }
  split; try done.
  - intros x q. rewrite Hlk. destruct (decide (x = pid)) as [->|]; [intros _|]; eauto.
  - intros x q. rewrite Hlk. destruct (decide (x = pid)) as [->|]; [by intros [= <-]|]; eauto.
  - intros x. rewrite Hq. destruct (decide (x = pid)) as [->|Hx].
    + unfold in_state. rewrite Hlk, decide_True by done. naive_solver.
    + rewrite (Hin x _ Hx), <- ei_queue0. naive_solver.
  - intros r Hr'. destruct (Hr r Hr') as [[Hne' Hr0]|[-> Hs]].
    + destruct (ei_rolls0 r Hr0). split; [done|]. by apply Hin.
    + split; [done|]. exists p'. cbn. by rewrite Hlk, decide_True.
  - intros c Hc. destruct (ei_cohorts0 c Hc). split; try done. intros x Hx.
    destruct (co_members0 x Hx) as (q & Hq' & Hs & He). exists q. split; [by apply Hne|done].
  - intros x q. rewrite Hlk. destruct (decide (x = pid)) as [->|]; [intros [= <-] ?; done|]. apply ei_measuring0.
  - intros r Hr'. destruct (Hl r Hr') as [[E Hs]|[Hne' Hr0]].
    + exists p'. by rewrite Hlk, E, decide_True.
    + destruct (ei_locks0 r Hr0) as (q & Hq' & Hs). exists q. by rewrite Hlk, decide_False.
Qed.

(** A proposal joins the cohort of its epoch. *)
Inductive joins pid (epoch : EpochId) (cohorts : list CohortInfo) : list CohortInfo -> Prop :=
| joins_again c : find_key ci_epoch epoch cohorts = Some c -> cohort_open c = true -> pid ∈ ci_proposals c ->
    joins pid epoch cohorts cohorts
| joins_old c : find_key ci_epoch epoch cohorts = Some c -> cohort_open c = true -> pid ∉ ci_proposals c ->
    (length (ci_proposals c) < MAX_ACTIVE_PER_EPOCH)%nat ->
    joins pid epoch cohorts (alter_key ci_epoch epoch (add_cohort_proposal pid) cohorts)
| joins_new k : find_key ci_epoch epoch cohorts = None ->
    (length (filter (fun c => cohort_open c = true) cohorts) < MAX_NON_TERMINAL_COHORTS)%nat ->
    joins pid epoch cohorts
      (cohorts ++ [{| ci_epoch := epoch; ci_proposals := [pid]; ci_status := CMeasuring k |}]).

Lemma joins_find pid epoch cohorts cohorts' x :
  joins pid epoch cohorts cohorts' ->
  (exists c, find_key ci_epoch epoch cohorts' = Some c /\ pid ∈ ci_proposals c)
  /\ (forall c, find_key ci_epoch x cohorts = Some c ->
       exists c', find_key ci_epoch x cohorts' = Some c' /\ forall y, y ∈ ci_proposals c -> y ∈ ci_proposals c').
Proof.
  intros Hj. destruct Hj as [c Hc Ho Hin|c Hc Ho Hin Hlen|k Hc Hlen].
  - split; [by exists c|]. intros c' Hc'. by exists c'.
  - pose proof (find_key_alter ci_epoch epoch (add_cohort_proposal pid) cohorts) as E. split.
    + exists (add_cohort_proposal pid c). rewrite E by (by apply keeps_key).
      rewrite decide_True, Hc by done. split; [done|]. cbn. apply elem_of_app. right. by left.
    + intros c' Hc'. rewrite E by (by apply keeps_key).
      destruct (decide (x = epoch)) as [->|Hne]; [|by exists c'].
      rewrite Hc' in Hc. injection Hc as <-. rewrite Hc'. eexists. split; [done|]. intros y Hy. cbn.
      apply elem_of_app. by left.
  - split.
    + eexists. rewrite find_key_app, Hc. cbn. rewrite decide_True by done. split; [done|]. by left.
    + intros c' Hc'. exists c'. rewrite find_key_app, Hc'. done.
Qed.

Lemma EI_measure e lk lk' queue rolls rolls' cohorts cohorts' locks recent high recovery paused pid p p' :
  EI e lk queue rolls cohorts locks recent high recovery paused ->
  lk pid = Some p -> pp_state p <> Submitted -> pp_state p' = Measuring -> shape p' -> pp_epoch p' = pp_epoch p ->
  (forall x, lk' x = if decide (x = pid) then Some p' else lk x) ->
  NoDup rolls'.*1 -> (forall r, r ∈ rolls' -> r.1 <> pid /\ r ∈ rolls) ->
  joins pid (pp_epoch p) cohorts cohorts' ->
  EI e lk' queue rolls' cohorts' locks recent high recovery paused.
Proof.
  intros [] Hp Hsub Hs' Hsh Hep Hlk Hrn Hr Hj.
  pose proof (fun x => joins_find pid (pp_epoch p) cohorts cohorts' x Hj) as Hfind.
  assert (Hold : forall c, cohort_ok lk c -> cohort_ok lk' c).
  { intros c []. split; try done. intros x Hx. destruct (co_members0 x Hx) as (q & Hq & Hs & He).
    destruct (decide (x = pid)) as [->|Hne].
    - exists p'. rewrite Hlk, decide_True by done. split; [done|]. split; [done|]. congruence.
    - exists q. by rewrite Hlk, decide_False. }
  split; try done.
  - intros x q. rewrite Hlk. destruct (decide (x = pid)) as [->|]; [intros _|]; eauto.
  - intros x q. rewrite Hlk. destruct (decide (x = pid)) as [->|]; [by intros [= <-]|]; eauto.
  - intros x. rewrite ei_queue0. unfold in_state. rewrite Hlk. destruct (decide (x = pid)) as [->|]; [|done].
    split; intros (q & Hq & Hs); congruence.
  - intros r Hr'. destruct (Hr r Hr') as [Hne Hr0]. destruct (ei_rolls0 r Hr0) as [? Hin]. split; [done|].
    unfold in_state. by rewrite Hlk, decide_False.
  - destruct Hj as [c|c Hc|k Hc]; [done| |].
    + rewrite keys_alter_same; [done|]. by apply keeps_key.
    + rewrite keys_app, NoDup_app. split; [done|]. split; [|apply NoDup_singleton].
      intros x Hx ->%list_elem_of_singleton. by apply find_key_None in Hc.
  - destruct Hj as [c|c Hc|k Hc Hlen]; [done| |].
    + assert (E : keys ci_epoch (alter_key ci_epoch (pp_epoch p) (add_cohort_proposal pid) cohorts) = keys ci_epoch cohorts).
      { by apply keys_alter_same, keeps_key. }
      apply (f_equal length) in E. unfold keys in E. rewrite !length_fmap in E. by rewrite E.
    + rewrite length_app. cbn. revert Hlen. rewrite filter_all; [lia|].
      intros c Hcin. by apply ei_cohorts0.
  - intros c' Hc'. destruct Hj as [c Hc Ho Hin|c Hc Ho Hin Hlen|k Hc Hlen].
    + by apply Hold, ei_cohorts0.
    + apply elem_of_alter in Hc' as [Hc'|(c1 & Hc1 & ->)]; [by apply Hold, ei_cohorts0|].
      rewrite Hc in Hc1. injection Hc1 as <-. pose proof (find_key_Some _ _ _ _ Hc) as [Hke Hcin].
      destruct (Hold c (ei_cohorts0 c Hcin)). split; cbn; try done.
      * apply NoDup_app. split; [done|]. split; [|apply NoDup_singleton].
        by intros x Hx ->%list_elem_of_singleton.
      * intros E. by apply app_eq_nil in E as [_ ?].
      * rewrite length_app. cbn. lia.
      * intros n Hn. specialize (co_cursor0 n Hn). rewrite length_app. lia.
      * intros x Hx. apply elem_of_app in Hx as [Hx| ->%list_elem_of_singleton]; [by apply co_members0|].
        exists p'. rewrite Hlk, decide_True by done. split; [done|]. split; [done|]. congruence.
    + apply elem_of_app in Hc' as [Hc'| ->%list_elem_of_singleton]; [by apply Hold, ei_cohorts0|].
      split; cbn; try done; [apply NoDup_singleton|unfold MAX_ACTIVE_PER_EPOCH, MAX_COHORT_PROPOSALS; lia|].
      intros x ->%list_elem_of_singleton. exists p'. rewrite Hlk, decide_True by done.
      split; [done|]. split; [done|]. congruence.
  - intros x q. rewrite Hlk. destruct (decide (x = pid)) as [->|Hne].
    + intros [= <-] _. rewrite Hep. apply (Hfind 0).
    + intros Hx Hs. destruct (ei_measuring0 x q Hx Hs) as (c & Hc & Hin).
      destruct (proj2 (Hfind (pp_epoch q)) c Hc) as (c' & Hc' & Hsub'). exists c'. split; [done|]. by apply Hsub'.
  - intros r Hr'. destruct (ei_locks0 r Hr') as (q & Hq & Hl). rewrite Hlk.
    destruct (decide (r.2 = pid)); [exists p'; by rewrite Hs'|by exists q].
Qed.

(** All proposals at once, in ways the invariant does not see. *)
Record harmless (f : Proposal A -> Proposal A) : Prop := {
  hl_id : forall p, pp_id (f p) = pp_id p;
  hl_state : forall p, pp_state (f p) = pp_state p;
  hl_markets : forall p, pp_markets (f p) = pp_markets p;
  hl_resources : forall p, pp_resources (f p) = pp_resources p;
  hl_spec : forall p, pp_metric_spec (f p) = pp_metric_spec p;
  hl_epoch : forall p, pp_state p <> Submitted -> pp_epoch (f p) = pp_epoch p;
}.

Lemma EI_map f e lk lk' queue rolls cohorts locks recent high recovery paused :
  harmless f -> (forall x, lk' x = f <$> lk x) ->
  EI e lk queue rolls cohorts locks recent high recovery paused ->
  EI e lk' queue rolls cohorts locks recent high recovery paused.
Proof.
  intros Hf Hlk [].
  assert (Hin : forall x st, in_state lk' x st <-> in_state lk x st).
  { intros x st. unfold in_state. rewrite Hlk. destruct (lk x) as [q|]; cbn; [|split; by intros (? & ? & _)].
    split; intros (q' & [= <-] & Hs); eexists; (split; [done|]); by rewrite (hl_state f Hf) in *. }
  split; try done.
  - intros x q. rewrite Hlk. destruct (lk x) as [q'|] eqn:Hx; [|done]. intros _. by apply (ei_high0 x q').
  - intros x q. rewrite Hlk. destruct (lk x) as [q'|] eqn:Hx; [|done]. intros [= <-].
    destruct (ei_shape0 x q' Hx). split; rewrite ?(hl_resources f Hf), ?(hl_state f Hf), ?(hl_markets f Hf), ?(hl_spec f Hf);
      try done.
    intros Hl. rewrite (hl_epoch f Hf); [auto|]. intros E.
    destruct Hl as [Hl|Hl]; [by rewrite E in Hl|]. by rewrite sh_early0 in Hl by by rewrite E.
  - intros x. by rewrite Hin.
  - intros r Hr. rewrite Hin. by apply ei_rolls0.
  - intros c Hc. destruct (ei_cohorts0 c Hc). split; try done. intros x Hx.
    destruct (co_members0 x Hx) as (q & Hq & Hs & He). exists (f q). rewrite Hlk, Hq. split; [done|].
    rewrite (hl_state f Hf), (hl_epoch f Hf) by congruence. done.
  - intros x q. rewrite Hlk. destruct (lk x) as [q'|] eqn:Hx; [|done]. intros [= <-]. rewrite (hl_state f Hf). intros Hs.
    rewrite (hl_epoch f Hf) by congruence. by apply (ei_measuring0 x).
  - intros r Hr. destruct (ei_locks0 r Hr) as (q & Hq & Hl). exists (f q). by rewrite Hlk, Hq, (hl_state f Hf).
Qed.

(** Terminal rows may be dropped. *)
Lemma EI_filter (P : Proposal A -> Prop) `{forall p, Decision (P p)} e lk lk' queue rolls cohorts locks recent high recovery paused :
  (forall p, pp_state p = Submitted \/ lock_state (pp_state p) = true -> P p) ->
  (forall x, lk' x = match lk x with Some p => if decide (P p) then Some p else None | None => None end) ->
  EI e lk queue rolls cohorts locks recent high recovery paused ->
  EI e lk' queue rolls cohorts locks recent high recovery paused.
Proof.
  intros HP Hlk [].
  assert (Hkeep : forall x q, lk x = Some q -> pp_state q = Submitted \/ lock_state (pp_state q) = true -> lk' x = Some q).
  { intros x q Hx Hs. by rewrite Hlk, Hx, decide_True by auto. }
  assert (Hback : forall x q, lk' x = Some q -> lk x = Some q).
  { intros x q. rewrite Hlk. destruct (lk x) as [q'|]; [|done]. by destruct (decide (P q')). }
  assert (Hin : forall x, in_state lk' x Submitted <-> in_state lk x Submitted).
  { intros x. split; intros (q & Hq & Hs); exists q; (split; [|done]); [by apply Hback|apply Hkeep; auto]. }
  split; try done.
  - eauto.
  - eauto.
  - intros x. by rewrite Hin.
  - intros r Hr. rewrite Hin. by apply ei_rolls0.
  - intros c Hc. destruct (ei_cohorts0 c Hc). split; try done. intros x Hx.
    destruct (co_members0 x Hx) as (q & Hq & Hs & He). exists q. split; [|done]. apply Hkeep; [done|]. right. by rewrite Hs.
  - intros x q Hx. apply (ei_measuring0 x). by apply Hback.
  - intros r Hr. destruct (ei_locks0 r Hr) as (q & Hq & Hl). exists q. split; [|done]. apply Hkeep; [done|by right].
Qed.

(** A new proposal. *)
Lemma EI_submit e lk lk' queue rolls cohorts locks recent high recovery paused np :
  EI e lk queue rolls cohorts locks recent high recovery paused ->
  high < pp_id np -> pp_state np = Submitted -> pp_markets np = None ->
  (length (pp_resources np) <= MAX_RESOURCES_PER_PROPOSAL)%nat -> (length queue < MAX_INTAKE_QUEUE)%nat ->
  (forall x, lk' x = if decide (x = pp_id np) then Some np else lk x) ->
  EI e lk' (queue ++ [pp_id np]) rolls cohorts locks recent (pp_id np) recovery paused.
Proof.
  intros [] Hid Hst Hmk Hres Hlen Hlk.
  assert (Hfresh : lk (pp_id np) = None).
  { destruct (lk (pp_id np)) as [q|] eqn:Hq; [|done]. pose proof (ei_high0 _ _ Hq). lia. }
  assert (Hkeep : forall x q, lk x = Some q -> lk' x = Some q).
  { intros x q Hx. rewrite Hlk, decide_False; [done|]. intros ->. congruence. }
  split; try done.
  - intros x q. rewrite Hlk. destruct (decide (x = pp_id np)) as [->|]; [intros; lia|].
    intros Hx. pose proof (ei_high0 x q Hx). lia.
  - intros x q. rewrite Hlk. destruct (decide (x = pp_id np)) as [->|]; [|apply ei_shape0]. intros [= <-].
    split; rewrite ?Hst, ?Hmk; cbn; try done; auto. by intros [|].
  - apply NoDup_app. split; [done|]. split; [|apply NoDup_singleton]. intros x Hx ->%list_elem_of_singleton.
    apply ei_queue0 in Hx as (q & Hq & _). congruence.
  - rewrite length_app. cbn. lia.
  - intros x. rewrite elem_of_app, list_elem_of_singleton, ei_queue0. unfold in_state. rewrite Hlk.
    destruct (decide (x = pp_id np)) as [->|Hx]; [|split; [by intros [?| ->]|by left]].
    split; [intros _; by exists np|by right].
  - intros r Hr. destruct (ei_rolls0 r Hr) as [? (q & Hq & Hs)]. split; [done|]. exists q. split; [by apply Hkeep|done].
  - intros c Hc. destruct (ei_cohorts0 c Hc). split; try done. intros x Hx.
    destruct (co_members0 x Hx) as (q & Hq & Hs & He). exists q. split; [by apply Hkeep|done].
  - intros x q. rewrite Hlk. destruct (decide (x = pp_id np)) as [->|]; [intros [= <-]; congruence|]. apply ei_measuring0.
  - intros r Hr. destruct (ei_locks0 r Hr) as (q & Hq & Hl). exists q. split; [by apply Hkeep|done].
Qed.

(** A cohort leaves with its members and other affected proposals. *)
Lemma EI_reap e lk lk' queue queue' rolls rolls' cohorts locks locks' recent recent' high recovery paused epoch c (pids : list ProposalId) :
  EI e lk queue rolls cohorts locks recent high recovery paused ->
  find_key ci_epoch epoch cohorts = Some c -> (forall x, x ∈ ci_proposals c -> x ∈ pids) ->
  (forall x p, x ∈ pids -> lk x = Some p -> pp_epoch p = epoch \/ pp_state p <> Measuring) ->
  (forall x, lk' x = if decide (x ∈ pids) then None else lk x) ->
  NoDup queue' -> (length queue' <= MAX_INTAKE_QUEUE)%nat -> (forall x, x ∈ queue' <-> x ∈ queue /\ x ∉ pids) ->
  NoDup rolls'.*1 -> (forall r, r ∈ rolls' -> r ∈ rolls /\ r.1 ∉ pids) ->
  NoDup locks'.*1 -> (forall r, r ∈ locks' -> r ∈ locks /\ r.2 ∉ pids) ->
  (length recent' <= RECENT_COHORTS)%nat ->
  EI e lk' queue' rolls' (remove_key ci_epoch epoch cohorts) locks' recent' high recovery paused.
Proof.
  intros [] Hc Hmem Hpids Hlk Hqn Hql Hq Hrn Hr Hln Hl Hrec.
  assert (Hback : forall x q, lk' x = Some q -> lk x = Some q /\ x ∉ pids).
  { intros x q. rewrite Hlk. by destruct (decide (x ∈ pids)). }
  assert (Hkeep : forall x, x ∉ pids -> lk' x = lk x) by (intros x Hx; by rewrite Hlk, decide_False).
  split; try done.
  - intros x q Hx. by apply (ei_high0 x q), Hback.
  - intros x q Hx. by apply (ei_shape0 x q), Hback.
  - intros x. rewrite Hq, ei_queue0. unfold in_state. split.
    + intros [(q & Hx & Hs) Hn]. exists q. by rewrite Hkeep.
    + intros (q & Hx & Hs). apply Hback in Hx as [Hx Hn]. split; [by exists q|done].
  - intros r Hr'. destruct (Hr r Hr') as [Hr0 Hn]. destruct (ei_rolls0 r Hr0) as [? Hin]. split; [done|].
    unfold in_state. by rewrite Hkeep.
  - by apply keys_remove_NoDup.
  - pose proof (sublist_length _ _ (remove_sublist ci_epoch epoch cohorts)). lia.
  - intros c' Hc'. pose proof (elem_of_remove ci_epoch epoch cohorts c' Hc') as Hin'.
    assert (Hne : ci_epoch c' <> epoch).
    { intros E. assert (Hnone := find_key_remove_eq ci_epoch epoch cohorts ei_cohorts_nodup0).
      apply find_key_None in Hnone. apply Hnone. apply list_elem_of_fmap. by exists c'. }
    destruct (ei_cohorts0 c' Hin'). split; try done. intros x Hx.
    destruct (co_members0 x Hx) as (q & Hq' & Hs & He). exists q. rewrite Hkeep; [done|].
    intros Hp. destruct (Hpids x q Hp Hq') as [He'|]; congruence.
  - intros x q Hx Hs. apply Hback in Hx as [Hx Hn]. destruct (ei_measuring0 x q Hx Hs) as (c' & Hc' & Hin).
    exists c'. split; [|done]. rewrite find_key_remove_ne; [done|]. intros E. rewrite <- E, Hc in Hc'.
    injection Hc' as <-. by apply Hn, Hmem.
  - intros r Hr'. destruct (Hl r Hr') as [Hr0 Hn]. destruct (ei_locks0 r Hr0) as (q & Hq' & Hs). exists q. by rewrite Hkeep.
Qed.

(** A cohort's cursor moves. *)
Lemma EI_park e lk queue rolls cohorts locks recent high recovery paused epoch c n :
  EI e lk queue rolls cohorts locks recent high recovery paused ->
  find_key ci_epoch epoch cohorts = Some c -> (n <= S (length (ci_proposals c)))%nat ->
  EI e lk queue rolls (alter_key ci_epoch epoch (set_cohort_status (CSettling (Z.of_nat n))) cohorts) locks recent high
    recovery paused.
Proof.
  intros [] Hc Hn. set (f := set_cohort_status (CSettling (Z.of_nat n))).
  assert (Hk : forall v, find_key ci_epoch epoch cohorts = Some v -> ci_epoch (f v) = epoch) by by apply keeps_key.
  split; try done.
  - by rewrite keys_alter_same.
  - assert (E := keys_alter_same ci_epoch epoch f cohorts Hk). apply (f_equal length) in E. unfold keys in E.
    rewrite !length_fmap in E. by rewrite E.
  - intros c' Hc'. apply elem_of_alter in Hc' as [Hc'|(c1 & Hc1 & ->)]; [by apply ei_cohorts0|].
    rewrite Hc in Hc1. injection Hc1 as <-. apply find_key_Some in Hc as [_ Hin]. destruct (ei_cohorts0 c Hin).
    split; cbn; try done. intros m [= <-]. by rewrite Nat2Z.id.
  - intros x q Hx Hs. destruct (ei_measuring0 x q Hx Hs) as (c' & Hc' & Hin). rewrite find_key_alter by done.
    destruct (decide (pp_epoch q = epoch)) as [E|]; [|by exists c']. rewrite <- E, Hc'. by exists (f c').
Qed.

Lemma EI_clock e e' lk queue rolls cohorts locks recent high recovery recovery' paused paused' :
  EI e lk queue rolls cohorts locks recent high recovery paused ->
  epoch_len_ok e' -> (forall r, recovery' = Some r -> r = ei_index e') ->
  (forall b, paused' = Some b -> recovery' = None) ->
  EI e' lk queue rolls cohorts locks recent high recovery' paused'.
Proof. intros []. by split. Qed.

End inv.

(** ** Every operation of the epoch core keeps the invariant

    Inversion of a successful call leaves the facts its guards establish; the
    state it leaves is one of the updates of [EpochInv]. *)

Section keep.
Context {A : Type} `{EqDecision A}.
Variable spec_of : EpochId -> MetricSpecVersion.

Implicit Types (s : EpochState A) (p : Proposal A) (pid : ProposalId).

Abbreviation EInv := (EInv spec_of).
Abbreviation shape := (shape spec_of).

Lemma proposal_mut_Ok pid f s u s' :
  proposal_mut pid f s = (Ok u, s') <->
  exists p, lk s pid = Some p /\ s' = set_proposals (alter_key pp_id pid f (es_proposals s)) s.
Proof.
  unfold proposal_mut, bind, reads, modify. destruct u. destruct (proposal pid s) as [p|e] eqn:Hp.
  - apply proposal_Ok in Hp. split; [intros [= <-]; by exists p|intros (q & _ & ->); done].
  - split; [done|]. intros (p & Hp' & _). apply proposal_Ok in Hp'. congruence.
Qed.

Lemma lk_alter s pid f p x :
  lk s pid = Some p -> pp_id (f p) = pp_id p ->
  find_key pp_id x (alter_key pp_id pid f (es_proposals s)) = if decide (x = pid) then Some (f p) else lk s x.
Proof.
  intros Hp Hf. rewrite find_key_alter; unfold lk in *; rewrite Hp; [by destruct (decide _)|].
  intros v [= <-]. rewrite Hf. by apply find_key_Some in Hp as [? _].
Qed.

Lemma keys_alter_props s pid f p :
  lk s pid = Some p -> pp_id (f p) = pp_id p ->
  keys pp_id (alter_key pp_id pid f (es_proposals s)) = keys pp_id (es_proposals s).
Proof.
  intros Hp Hf. apply keys_alter_same. unfold lk in Hp. rewrite Hp. intros v [= <-]. rewrite Hf.
  by apply find_key_Some in Hp as [? _].
Qed.

(** ** One proposal moves *)

(** What a call does to the queue, the rollovers and the locks. *)
Definition drop_if {T} (b : bool) (P : T -> Prop) `{forall x, Decision (P x)} (l : list T) : list T :=
  if b then filter P l else l.

Lemma NoDup_fst_filter {T} (P : T * Z -> Prop) `{forall x, Decision (P x)} (l : list (T * Z)) :
  NoDup l.*1 -> NoDup (filter P l).*1.
Proof. intros Hl. eapply sublist_NoDup; [exact Hl|]. apply fmap_sublist, sublist_filter. Qed.

Lemma NoDup_fst_filter' {T} (P : Z * T -> Prop) `{forall x, Decision (P x)} (l : list (Z * T)) :
  NoDup l.*1 -> NoDup (filter P l).*1.
Proof. intros Hl. eapply sublist_NoDup; [exact Hl|]. apply fmap_sublist, sublist_filter. Qed.

(** A proposal outside the cohorts moves to a state other than [Submitted];
    it leaves the queue if it was there, and the locks if it may not hold them. *)
Lemma EInv_move s s' pid f p (dropq dropl : bool) :
  EInv s -> lk s pid = Some p -> pp_id (f p) = pp_id p ->
  pp_state p <> Measuring -> pp_state (f p) <> Measuring -> pp_state (f p) <> Submitted -> shape (f p) ->
  (dropq = false -> pp_state p <> Submitted) ->
  (dropl = false -> lock_state (pp_state p) = true -> lock_state (pp_state (f p)) = true) ->
  es_proposals s' = alter_key pp_id pid f (es_proposals s) ->
  es_intake_queue s' = drop_if dropq (fun x => x <> pid) (es_intake_queue s) ->
  es_rollovers s' = drop_if dropq (fun r => r.1 <> pid) (es_rollovers s) ->
  es_resource_locks s' = drop_if dropl (fun r => r.2 <> pid) (es_resource_locks s) ->
  es_epoch s' = es_epoch s -> es_cohorts s' = es_cohorts s -> es_recent s' = es_recent s ->
  es_proposal_id_high_water s' = es_proposal_id_high_water s -> es_recovery_epoch s' = es_recovery_epoch s ->
  es_dead_man_paused_at s' = es_dead_man_paused_at s ->
  EInv s'.
Proof.
  intros [Hn Hi] Hp Hid Hm Hm' Hs' Hsh Hdq Hdl Ep Eq Er El E1 E2 E3 E4 E5 E6.
  split; [by rewrite Ep, (keys_alter_props s pid f p)|].
  rewrite Eq, Er, El, E1, E2, E3, E4, E5, E6. pose proof Hi as [].
  eapply (EI_update spec_of _ _ _ _ _ _ _ _ _ _ _ _ _ _ pid p (f p) Hi); [done..| | | | | | | |].
  - intros x. unfold lk at 1. rewrite Ep. by apply lk_alter.
  - destruct dropq; [by apply NoDup_filter|done].
  - destruct dropq; [|done]. cbn [drop_if]. pose proof (length_filter (fun x => x <> pid) (es_intake_queue s)). lia.
  - intros x. assert (Hin : x ∈ es_intake_queue s -> x = pid -> dropq = true).
    { intros Hx ->. apply ei_queue0 in Hx as (q & Hq & Hqs). destruct dropq; [done|]. exfalso. by apply Hdq; [|congruence]. }
    destruct dropq; cbn [drop_if]; [rewrite list_elem_of_filter; tauto|]. split; [|tauto].
    intros Hx. right. split; [|done]. intros E. by specialize (Hin Hx E).
  - destruct dropq; [by apply NoDup_fst_filter'|done].
  - intros r Hr. left. destruct dropq; cbn [drop_if] in Hr; [by apply list_elem_of_filter in Hr|].
    split; [|done]. intros E. destruct (ei_rolls0 r Hr) as [_ (q & Hq & Hqs)]. apply Hdq; congruence.
  - destruct dropl; [by apply NoDup_fst_filter|done].
  - intros r Hr. destruct dropl; cbn [drop_if] in Hr; [right; by apply list_elem_of_filter in Hr|].
    destruct (decide (r.2 = pid)) as [E|E]; [left|by right]. split; [done|].
    destruct (ei_locks0 r Hr) as (q & Hq & Hql). apply Hdl; congruence.
Qed.

(** A move that is only a rewrite of one proposal. *)
Lemma EInv_write s pid f p :
  EInv s -> lk s pid = Some p -> pp_id (f p) = pp_id p ->
  pp_state p <> Measuring -> pp_state p <> Submitted -> pp_state (f p) <> Measuring -> pp_state (f p) <> Submitted ->
  shape (f p) -> (lock_state (pp_state p) = true -> lock_state (pp_state (f p)) = true) ->
  EInv (set_proposals (alter_key pp_id pid f (es_proposals s)) s).
Proof. intros. by eapply (EInv_move s _ pid f p false false). Qed.

(** [EInv] reads neither the log nor the tracker nor the flags. *)
Lemma EInv_ext s s' :
  EInv s -> es_proposals s' = es_proposals s -> es_intake_queue s' = es_intake_queue s ->
  es_rollovers s' = es_rollovers s -> es_resource_locks s' = es_resource_locks s ->
  es_epoch s' = es_epoch s -> es_cohorts s' = es_cohorts s -> es_recent s' = es_recent s ->
  es_proposal_id_high_water s' = es_proposal_id_high_water s -> es_recovery_epoch s' = es_recovery_epoch s ->
  es_dead_man_paused_at s' = es_dead_man_paused_at s -> EInv s'.
Proof. intros [Hn Hi] Ep Eq Er El E1 E2 E3 E4 E5 E6. split; unfold lk; by rewrite Ep, ?Eq, ?Er, ?El, ?E1, ?E2, ?E3, ?E4, ?E5, ?E6. Qed.

(** The shape of a rewritten proposal. *)
Lemma shape_write p p' :
  shape p -> pp_resources p' = pp_resources p -> pp_markets p' = pp_markets p -> pp_metric_spec p' = pp_metric_spec p ->
  pp_epoch p' = pp_epoch p ->
  traded_state (pp_state p') = true \/ early_state (pp_state p') = true \/ rejected_state (pp_state p') = true ->
  (traded_state (pp_state p') = true -> traded_state (pp_state p) = true) ->
  (early_state (pp_state p') = true -> early_state (pp_state p) = true) ->
  (lock_state (pp_state p') = true -> lock_state (pp_state p) = true) ->
  shape p'.
Proof. intros [] Er Em Es Ee Hst Ht He Hl. split; rewrite ?Er, ?Em, ?Es, ?Ee; auto. intros [|]; auto. Qed.

Lemma lk_shape s pid p : EInv s -> lk s pid = Some p -> shape p.
Proof. intros [_ []]. eauto. Qed.

End keep.

(** Closes the side conditions of a move whose old state is known. *)
Ltac by_state :=
  cbn in *;
  repeat match goal with
  | H : pp_state ?p = _ |- context [pp_state ?p] => rewrite H
  | H : pp_state ?p = _, H' : context [pp_state ?p] |- _ => rewrite H in H'
  end; cbn in *; try done; auto.

(** ** Inversion *)

(** Two lookups of the same proposal, in states with the same table. *)
Ltac same_proposal :=
  repeat match goal with
  | H1 : lk ?s1 ?pid = Some ?p, H2 : lk ?s2 ?pid = Some ?q |- _ =>
      first [ constr_eq p q; constr_eq s1 s2; clear H2
            | let E := fresh in assert (E : Some q = Some p) by (exact (eq_trans (eq_sym H2) H1));
              injection E as E; subst q; clear H2 ]
  end.

Ltac inv_ep1 :=
  match goal with
  | H : zoom_fst _ _ = (Ok _, _) |- _ => apply zoom_fst_Ok in H; destruct H as [H ?]
  | H : zoom_snd _ _ = (Ok _, _) |- _ => apply zoom_snd_Ok in H; destruct H as [H ?]
  | H : ensure_origin _ _ = Ok _ |- _ => clear H
  | H : proposal _ _ = Ok _ |- _ => apply proposal_Ok in H
  | H : proposal_mut _ _ _ = (Ok _, _) |- _ => apply proposal_mut_Ok in H; destruct H as (? & ? & ?); subst
  | H : _ /\ _ |- _ => destruct H
  | u : unit |- _ => destruct u
  end.

Ltac to_prop_nat :=
  repeat match goal with
  | H : (_ <? _)%nat = true |- _ => apply Nat.ltb_lt in H
  | H : (_ <? _)%nat = false |- _ => apply Nat.ltb_ge in H
  | H : (_ <=? _)%nat = true |- _ => apply Nat.leb_le in H
  | H : (_ <=? _)%nat = false |- _ => apply Nat.leb_gt in H
  end.

Ltac inv_ep := repeat (inv_all; try inv_ep1); to_prop; to_prop_nat; same_proposal.
