(* ===== verification/EpochOps.v ===== *)
(** * The single-proposal calls keep the invariant *)

From stdpp Require Import sorting.
From S2P Require Import Prelude Keyed Primitives Proposals Epoch EpochDecide EpochCalls EpochInv.

Section ops.
Context {A : Type} `{EqDecision A}.
Variable spec_of : EpochId -> MetricSpecVersion.

Implicit Types (s : EpochState A) (p : Proposal A) (pid : ProposalId).

Abbreviation EInv := (EInv spec_of).
Abbreviation shape := (shape spec_of).

Ltac rewrite_shape := by eapply shape_write; [by eapply lk_shape|..]; by_state.

Lemma cancel_keeps pid reason slash s s' p :
  EInv s -> lk s pid = Some p -> pp_state p = Submitted -> cancel pid reason slash s = (Ok tt, s') -> EInv s'.
Proof.
  intros Hi Hp Hs H. unfold cancel in H. inv_ep.
  assert (Hm : EInv (drop_rollover pid (drop_from_queue pid
    (set_proposals (alter_key pp_id pid (set_state Cancelled) (es_proposals s)) s)))).
  { eapply (EInv_move spec_of s _ pid (set_state Cancelled) p true false); by_state. rewrite_shape. }
  destruct (0 <? slash); inv_ep; by eapply EInv_ext.
Qed.

(** Two writes to the same proposal are one. *)
Lemma es_set_proposals (l : list (Proposal A)) s : es_proposals (set_proposals l s) = l.
Proof. done. Qed.

Ltac merge_writes := repeat (rewrite es_set_proposals, alter_key_alter by done).

(** Applies [EInv_move] to the proposal that the call has rewritten. *)
Ltac moved q l :=
  match goal with
  | Hi : EpochInv.EInv _ ?s, Hp : lk ?s ?pid = Some ?p |- EpochInv.EInv _ ?s' =>
      lazymatch s' with
      | context [alter_key pp_id pid ?f _] =>
          eapply (EInv_move spec_of s s' pid f p q l);
            [exact Hi|exact Hp|by_state..]; try rewrite_shape
      end
  end.

Lemma withdraw_keeps origin pid who s s' : EInv s -> withdraw origin pid who s = (Ok tt, s') -> EInv s'.
Proof. intros Hi H. unfold withdraw in H. inv_ep. moved true false. Qed.

Lemma delay_once_keeps origin pid h s s' : EInv s -> delay_once origin pid h s = (Ok tt, s') -> EInv s'.
Proof. intros Hi H. unfold delay_once in H. inv_ep. moved false false. Qed.

Lemma schedule_rerun_keeps origin pid s s' : EInv s -> schedule_rerun origin pid s = (Ok tt, s') -> EInv s'.
Proof. intros Hi H. unfold schedule_rerun in H. inv_ep. moved false false. Qed.

Lemma open_rerun_keeps origin pid now s s' : EInv s -> open_rerun origin pid now s = (Ok tt, s') -> EInv s'.
Proof. intros Hi H. unfold open_rerun in H. inv_ep. moved false false. Qed.

Lemma mark_failed_keeps origin pid s s' : EInv s -> mark_failed_executed origin pid s = (Ok tt, s') -> EInv s'.
Proof. intros Hi H. unfold mark_failed_executed in H. inv_ep. moved false false. Qed.

Lemma force_rerun_keeps origin pid now s s' : EInv s -> force_rerun origin pid now s = (Ok tt, s') -> EInv s'.
Proof.
  intros Hi H. unfold force_rerun in H. inv_ep. merge_writes.
  destruct (pp_state x1) eqn:Hs; try done; moved false false.
Qed.

Lemma extend_keeps pid s s' p :
  EInv s -> lk s pid = Some p -> (pp_state p = Trading \/ pp_state p = Extended) ->
  extend_proposal pid s = (Ok tt, s') -> EInv s'.
Proof.
  intros Hi Hp Hs H. unfold extend_proposal in H. inv_ep. merge_writes.
  destruct Hs as [Hs|Hs]; moved false false.
Qed.

Lemma queue_keeps pid now params s s' p :
  EInv s -> lk s pid = Some p -> (pp_state p = Trading \/ pp_state p = Extended) ->
  queue_proposal pid now params s = (Ok tt, s') -> EInv s'.
Proof.
  intros Hi Hp Hs H. unfold queue_proposal in H. inv_ep. merge_writes.
  destruct Hs as [Hs|Hs]; moved false false.
Qed.

(** A deferral: the proposal is, or is again, in the queue. It may have been
    rewritten and have released its locks just before. *)
Lemma rollover_keeps pid f s0 s s' p0 :
  EInv s0 -> lk s0 pid = Some p0 -> (pp_state p0 = Submitted \/ pp_state p0 = Qualified) ->
  (forall p, pp_id (f p) = pp_id p) -> (forall p, pp_markets (f p) = pp_markets p) ->
  (forall p, pp_resources (f p) = pp_resources p) ->
  s = set_proposals (alter_key pp_id pid f (es_proposals s0)) (release_locks pid s0) ->
  rollover_or_refund pid s = (Ok tt, s') -> EInv s'.
Proof.
  intros Hi Hp Hs Hfi Hfm Hfr -> H. pose proof Hi as [Hn HEI]. pose proof HEI as [].
  pose proof (lk_shape spec_of s0 pid p0 Hi Hp) as Hsh.
  assert (Hmk : pp_markets p0 = None) by (apply (sh_early _ _ Hsh); by destruct Hs as [-> | ->]).
  unfold rollover_or_refund in H. inv_ep. destruct (_ =? 0) eqn:Hz; inv_ep.
  - assert (Hnone : forall r, r ∈ es_rollovers s0 -> r.1 <> pid).
    { intros r Hr E. pose proof (find_key_elem fst (es_rollovers s0) r ei_rolls_nodup Hr) as Hf.
      rewrite E in Hf. cbn in Hz. rewrite Hf in Hz. destruct (ei_rolls r Hr) as [E1 _]. lia. }
    set (p' := set_pp_epoch (sat_add U32 (ei_index (es_epoch s0)) 1) (set_state Submitted (f p0))).
    assert (Hsh' : shape p').
    { split; cbn; rewrite ?Hfr, ?Hfm, ?Hmk; [apply Hsh|by auto..|by intros [|]]. }
    match goal with HH : context [bool_decide (pid ∈ _)] |- _ => rename HH into Hqueue end.
    assert (Hq : es_proposals x4 = alter_key pp_id pid (fun p => set_pp_epoch (sat_add U32 (ei_index (es_epoch s0)) 1)
                   (set_state Submitted (f p))) (es_proposals s0)
      /\ es_rollovers x4 = es_rollovers s0 ++ [(pid, 1)]
      /\ es_resource_locks x4 = filter (fun r => r.2 <> pid) (es_resource_locks s0)
      /\ es_epoch x4 = es_epoch s0 /\ es_cohorts x4 = es_cohorts s0 /\ es_recent x4 = es_recent s0
      /\ es_proposal_id_high_water x4 = es_proposal_id_high_water s0
      /\ es_recovery_epoch x4 = es_recovery_epoch s0 /\ es_dead_man_paused_at x4 = es_dead_man_paused_at s0
      /\ NoDup (es_intake_queue x4) /\ (length (es_intake_queue x4) <= MAX_INTAKE_QUEUE)%nat
      /\ forall x, x ∈ es_intake_queue x4 <-> x = pid \/ x ∈ es_intake_queue s0).
    { destruct (bool_decide _) eqn:Hb in Hqueue; inv_ep; cbn in *; rewrite ?alter_key_alter by done; split_and!; try done.
      - intros x. split; [tauto|]. by intros [->|].
      - apply NoDup_app. split; [done|]. split; [|apply NoDup_singleton].
        by intros x Hx ->%list_elem_of_singleton.
      - rewrite length_app. cbn. lia.
      - intros x. rewrite elem_of_app, list_elem_of_singleton. tauto. }
    destruct Hq as (Ep & Er & El & E1 & E2 & E3 & E4 & E5 & E6 & Qn & Ql & Q).
    split; cbn [push_event set_events es_proposals es_intake_queue es_rollovers es_resource_locks es_epoch es_cohorts
      es_recent es_proposal_id_high_water es_recovery_epoch es_dead_man_paused_at].
    + rewrite Ep. rewrite (keys_alter_props s0 pid _ p0); [done|done|]. cbn. by rewrite Hfi.
    + rewrite Er, El, E1, E2, E3, E4, E5, E6.
      eapply (EI_update spec_of _ _ _ _ _ _ _ _ _ _ _ _ _ _ pid p0 p' HEI); try done.
      * by destruct Hs as [-> | ->].
      * intros x. unfold lk at 1. cbn [push_event set_events es_proposals]. rewrite Ep.
        apply (lk_alter s0 pid (fun p => set_pp_epoch (sat_add U32 (ei_index (es_epoch s0)) 1) (set_state Submitted (f p))));
          [done|cbn; by rewrite Hfi].
      * intros x. rewrite Q. cbn. destruct (decide (x = pid)); tauto.
      * rewrite fmap_app. apply NoDup_app. split; [done|]. split; [|apply NoDup_singleton].
        intros x Hx ->%list_elem_of_singleton. apply list_elem_of_fmap in Hx as (r & E & Hr). by apply (Hnone r Hr).
      * intros r [Hr|Hr]%elem_of_app; [left; split; [by apply Hnone|done]|].
        apply list_elem_of_singleton in Hr as ->. by right.
      * by apply NoDup_fst_filter.
      * intros r [Hr1 Hr2]%list_elem_of_filter. by right.
  - set (g := fun p => set_state Cancelled (f p)).
    eapply (EInv_move spec_of s0 _ pid g p0 true true); try done.
    + cbn. apply Hfi.
    + by destruct Hs as [-> | ->].
    + split; cbn; rewrite ?Hfr, ?Hfm, ?Hmk; [apply Hsh|by auto..|by intros [|]].
    + rewrite !es_set_proposals. cbn. by rewrite alter_key_alter.
Qed.


(** The locks of a state without the proposal's own. *)
Lemma no_locks s pid p r :
  EInv s -> lk s pid = Some p -> lock_state (pp_state p) = false -> r ∈ es_resource_locks s -> r.2 <> pid.
Proof. intros [_ []] Hp Hs Hr E. destruct (ei_locks r Hr) as (q & Hq & Hl). congruence. Qed.

Lemma release_nothing s pid p :
  EInv s -> lk s pid = Some p -> lock_state (pp_state p) = false ->
  set_proposals (alter_key pp_id pid (fun p => p) (es_proposals s)) (release_locks pid s) = s.
Proof.
  intros Hi Hp Hs. rewrite alter_key_id. unfold release_locks. rewrite filter_all; [by destruct s|].
  intros r. by eapply no_locks.
Qed.

Lemma rollover_submitted pid s s' p :
  EInv s -> lk s pid = Some p -> pp_state p = Submitted -> rollover_or_refund pid s = (Ok tt, s') -> EInv s'.
Proof.
  intros Hi Hp Hs H. eapply (rollover_keeps pid (fun p => p) s s s' p); try done; [by left|].
  symmetry. eapply release_nothing; [done..|]. by rewrite Hs.
Qed.

Lemma drop_slot_keeps pid s s' : EInv s -> drop_slot pid s = (Ok tt, s') -> EInv s'.
Proof.
  intros Hi H. unfold drop_slot in H. inv_ep.
  by eapply (rollover_keeps pid (fun p => set_decide_at 0 (set_state Submitted p)) s); [| |right|..].
Qed.

Lemma for_each_keeps {S E T} (P : S -> Prop) (f : T -> ST S E unit) (l : list T) (a b : S) :
  (forall x (a b : S), P a -> f x a = (Ok tt, b) -> P b) -> P a -> for_each_st f l a = (Ok tt, b) -> P b.
Proof.
  intros Hf. revert a. induction l as [|x l IH]; intros a Ha H; cbn in H; [by injection H as <-|].
  apply bind_Ok in H as ([] & c & H1 & H). eauto.
Qed.

Lemma shrink_keeps origin budget commitments s r s' :
  EInv s -> shrink_qualified_slots origin budget commitments s = (Ok r, s') -> EInv s'.
Proof.
  intros Hi H. unfold shrink_qualified_slots in H. inv_ep.
  destruct (fit_budget _ _ _ _) as [funded [|x0 dropped]]; inv_ep; [done|].
  apply (EInv_ext spec_of x1); [|done..]. eapply (for_each_keeps EInv); [intros; by eapply drop_slot_keeps|exact Hi|done].
Qed.

(** Deduplicated resources, none of them locked, make new locks. *)
Lemma dedup_elem x l : x ∈ dedup l -> x ∈ l.
Proof.
  induction l as [|y l IH]; [done|]. cbn. destruct l as [|z l']; [done|].
  destruct (y =? z); [intros Hx; right; by apply IH|].
  intros [->|Hx]%elem_of_cons; [by left|]. right. by apply IH.
Qed.

Lemma dedup_NoDup l : Sorted Z.le l -> NoDup (dedup l).
Proof.
  intros Hl. apply Sorted_StronglySorted in Hl; [|intros a b c; lia].
  induction Hl as [|y l Hl IH Hy]; cbn; [constructor|]. destruct l as [|z l']; [apply NoDup_singleton|].
  destruct (Z.eqb_spec y z) as [->|Hne]; [done|]. apply NoDup_cons. split; [|done].
  intros Hin%dedup_elem. rewrite Forall_forall in Hy. pose proof (Hy z ltac:(by left)).
  apply elem_of_cons in Hin as [->|Hin]; [done|].
  apply StronglySorted_inv in Hl as [_ Hl]. rewrite Forall_forall in Hl. specialize (Hl y Hin). lia.
Qed.

Lemma sorted_resources_NoDup l : NoDup (sorted_resources l).
Proof. apply dedup_NoDup, Sorted_merge_sort. intros a b; lia. Qed.

Lemma qualify_keeps origin pid check spec params s s' :
  EInv s -> spec = spec_of (ei_index (es_epoch s)) -> qualify origin pid check spec params s = (Ok tt, s') -> EInv s'.
Proof.
  intros Hi Hspec H. unfold qualify in H. inv_ep.
  set (s1 := push_event (EpScreeningStarted pid) (set_horizon_k (pa_horizon_k params) s)) in *.
  assert (Hi1 : EInv s1) by by eapply EInv_ext.
  destruct check; [|by eapply (cancel_keeps _ _ _ s1)..].
  destruct (_ || _) in H; [by eapply (rollover_submitted _ s1)|].
  destruct (negb _) eqn:Hlocks in H; [by eapply (rollover_submitted _ s1)|]. inv_ep.
  rename select (Proposal A) into p. rename select (lk _ pid = _) into Hp. rename select (pp_state p = _) into Hs.
  rename select (pp_epoch p = _) into He.
  set (resources := sorted_resources (pp_resources p)) in *.
  pose proof Hi1 as [Hn1 HEI]. pose proof HEI as [].
  pose proof (lk_shape spec_of s pid p Hi Hp) as Hsh.
  match goal with |- context [alter_key pp_id pid ?g _] => set (f := g) end.
  assert (Hsh' : shape (f p)).
  { split; cbn; [apply Hsh|by auto|done|intros _; apply (sh_early _ _ Hsh); by rewrite Hs|].
    intros _. by rewrite He. }
  split; [exact (eq_ind_r NoDup Hn1 (keys_alter_props s1 pid f p Hp eq_refl))|].
  eapply (EI_update spec_of _ _ _ _ _ _ _ _ _ _ _ _ _ _ pid p (f p) HEI); try done.
  - by rewrite Hs.
  - intros x. by apply (lk_alter s1 pid f p).
  - by apply NoDup_filter.
  - cbn. pose proof (length_filter (fun x => x <> pid) (es_intake_queue s)). unfold s1 in *. cbn in *. lia.
  - intros x. cbn. rewrite list_elem_of_filter. split; [right; tauto|]. intros [[_ E]|?]; [done|tauto].
  - by apply NoDup_fst_filter'.
  - intros r [Hr1 Hr2]%list_elem_of_filter. by left.
  - cbn. rewrite fmap_app. apply NoDup_app. split; [done|].
    assert (E : ((fun r => (r, pid)) <$> resources).*1 = resources).
    { rewrite <- list_fmap_compose. cbn. apply list_fmap_id. }
    rewrite E. split; [|apply sorted_resources_NoDup].
    intros k Hk Hin. apply list_elem_of_fmap in Hk as (r & -> & Hr).
    rewrite forallb_forall in Hlocks. specialize (Hlocks r.1). rewrite <- list_elem_of_In in Hlocks.
    specialize (Hlocks Hin). rewrite forallb_forall in Hlocks. specialize (Hlocks r). rewrite <- list_elem_of_In in Hlocks.
    specialize (Hlocks Hr). rewrite Z.eqb_refl in Hlocks. done.
  - intros r [Hr|Hr]%elem_of_app.
    + right. split; [|done]. eapply (no_locks s1 pid p r Hi1); [done| |done]. by rewrite Hs.
    + left. apply list_elem_of_fmap in Hr as (k & -> & _). done.
Qed.

End ops.
