(* ===== verification/EpochSteps.v ===== *)
(** * The calls that reach the ledger keep the invariant

    Forced rejection, measurement, the decision crank and the tick. The ledger
    is arbitrary: only the epoch half of the state is followed. *)

From S2P Require Import Prelude Keyed Primitives Proposals Epoch EpochDecide EpochCalls EpochEngine EpochClock EpochInv EpochOps.

(** The ledger's part of a call leaves the epoch state alone. *)
Lemma ledger_when {S X} (b : bool) (m : ST X EpochError unit) (st st' : S * X) :
  (if b then zoom_snd m else ret tt) st = (Ok tt, st') -> st'.1 = st.1.
Proof. destruct b; intros H; inv_ep; done. Qed.

Lemma ledger_unless {S X} (b : bool) (m : ST X EpochError unit) (st st' : S * X) :
  (if b then ret tt else zoom_snd m) st = (Ok tt, st') -> st'.1 = st.1.
Proof. destruct b; intros H; inv_ep; done. Qed.

(** Replaces the epoch half of each intermediate state by what it is. *)
Ltac chase :=
  repeat match goal with
  | H : (if _ then zoom_snd _ else ret tt) _ = (Ok tt, _) |- _ => apply ledger_when in H
  | H : (if _ then ret tt else zoom_snd _) _ = (Ok tt, _) |- _ => apply ledger_unless in H
  end;
  repeat match goal with
  | E : fst ?x = _, H : context [fst ?x] |- _ => is_var x; lazymatch H with E => fail | _ => rewrite E in H end
  | E : fst ?x = _ |- context [fst ?x] => is_var x; rewrite E
  | E : snd ?x = _ |- _ => is_var x; clear E
  end; same_proposal.

Tactic Notation "named" ident(q) ident(Hq) :=
  match goal with Hl : lk _ _ = Some ?x |- _ => rename x into q; rename Hl into Hq end.

Section steps.
Context {A : Type} `{EqDecision A}.
Variable spec_of : EpochId -> MetricSpecVersion.

Implicit Types (s : EpochState A) (p : Proposal A) (pid : ProposalId).

Abbreviation EInv := (EInv spec_of).
Abbreviation shape := (shape spec_of).

(** ** Harmless rewrites *)

(** Every row rewritten harmlessly. *)
Lemma EInv_fmap f s :
  harmless f -> EInv s -> EInv (set_proposals (f <$> es_proposals s) s).
Proof.
  intros Hf [Hn Hi]. assert (Hl : forall x, lk (set_proposals (f <$> es_proposals s) s) x = f <$> lk s x).
  { intros x. apply find_key_fmap, Hf. }
  split; [|by apply (EI_map spec_of f _ (lk s))].
  cbn. unfold keys. rewrite <- list_fmap_compose. erewrite list_fmap_ext; [exact Hn|]. intros; apply Hf.
Qed.

(** One row rewritten harmlessly. *)
Lemma EInv_touch f s pid p :
  harmless f -> EInv s -> lk s pid = Some p ->
  EInv (set_proposals (alter_key pp_id pid f (es_proposals s)) s).
Proof.
  intros Hf [Hn Hi] Hp. split.
  - exact (eq_ind_r NoDup Hn (keys_alter_props s pid f p Hp (hl_id f Hf p))).
  - apply (EI_map spec_of (fun p => if decide (pp_id p = pid) then f p else p) _ (lk s)); [|intros x|done].
    + destruct Hf. split; intros q; try intros Hq; destruct (decide _); auto.
    + unfold lk at 1. cbn. rewrite (lk_alter s pid f p x Hp (hl_id f Hf p)).
      destruct (lk s x) as [q|] eqn:Hx; cbn.
      * rewrite (lk_id s x q Hx). destruct (decide (x = pid)) as [->|]; [congruence|done].
      * by destruct (decide (x = pid)) as [->|]; [congruence|].
Qed.

Lemma harmless_decision d : harmless (A := A) (set_decision d).
Proof. by split. Qed.

Lemma clear_stale_keeps s : EInv s -> EInv (maybe_clear_stale_epoch s).
Proof.
  intros Hi. unfold maybe_clear_stale_epoch. destruct (es_stale_epoch_cutoff s); [|done].
  destruct (existsb _ _); [done|]. by eapply EInv_ext.
Qed.

(** ** Joining a cohort *)

Lemma start_measurement_Ok pid s s' :
  start_measurement pid s = (Ok tt, s') ->
  exists p cohorts, lk s pid = Some p /\ joins pid (pp_epoch p) (es_cohorts s) cohorts
    /\ s' = push_event (EpMeasurementStarted (pp_epoch p))
              (set_proposals (alter_key pp_id pid (set_state Measuring) (es_proposals s))
                (drop_rollover pid (set_cohorts cohorts s))).
Proof.
  intros H. unfold start_measurement in H. inv_ep.
  match goal with Hl : lk s pid = Some ?q |- _ => rename q into p; rename Hl into Hp end.
  destruct (find_key ci_epoch (pp_epoch p) (es_cohorts s)) as [c|] eqn:Hc; inv_ep.
  - destruct (bool_decide (pid ∈ ci_proposals c)) eqn:Hb; inv_ep.
    + exists p, (es_cohorts s). split; [done|]. split; [by eapply joins_again|]. by destruct s.
    + exists p. eexists. split; [done|]. by split; [by eapply joins_old|].
  - exists p. eexists. split; [done|]. by split; [by apply joins_new|].
Qed.

(** Writes to the fields that measurement does not read. *)
Record quiet (f : Proposal A -> Proposal A) : Prop := {
  qt_id : forall p, pp_id (f p) = pp_id p;
  qt_markets : forall p, pp_markets (f p) = pp_markets p;
  qt_resources : forall p, pp_resources (f p) = pp_resources p;
  qt_spec : forall p, pp_metric_spec (f p) = pp_metric_spec p;
  qt_epoch : forall p, pp_epoch (f p) = pp_epoch p;
}.

Lemma filter_filter_id {T} (P : T -> Prop) `{forall x, Decision (P x)} (l : list T) : filter P (filter P l) = filter P l.
Proof. apply filter_all. by intros v [? _]%list_elem_of_filter. Qed.

(** A proposal with books is measured, after writes of its own. *)
Lemma measured_keeps pid f p s s1 s' :
  EInv s -> lk s pid = Some p -> pp_state p <> Submitted -> is_none (pp_markets p) = false -> quiet f ->
  es_proposals s1 = alter_key pp_id pid f (es_proposals s) ->
  filter (fun r => r.1 <> pid) (es_rollovers s1) = filter (fun r => r.1 <> pid) (es_rollovers s) ->
  es_intake_queue s1 = es_intake_queue s -> es_resource_locks s1 = es_resource_locks s ->
  es_epoch s1 = es_epoch s -> es_cohorts s1 = es_cohorts s -> es_recent s1 = es_recent s ->
  es_proposal_id_high_water s1 = es_proposal_id_high_water s -> es_recovery_epoch s1 = es_recovery_epoch s ->
  es_dead_man_paused_at s1 = es_dead_man_paused_at s ->
  start_measurement pid s1 = (Ok tt, s') -> EInv s'.
Proof.
  intros Hi Hp Hs Hm [] Ep Er Eq El E1 E2 E3 E4 E5 E6 H.
  apply start_measurement_Ok in H as (q & cohorts & Hq & Hj & ->).
  assert (q = f p) as ->.
  { unfold lk in Hq. rewrite Ep, (lk_alter s pid f p pid Hp), decide_True in Hq by auto. by injection Hq. }
  pose proof Hi as [Hn HEI]. pose proof HEI as [].
  pose proof (lk_shape spec_of s pid p Hi Hp) as Hsh.
  set (g := fun p => set_state Measuring (f p)).
  assert (Eg : alter_key pp_id pid (set_state Measuring) (es_proposals s1) = alter_key pp_id pid g (es_proposals s)).
  { by rewrite Ep, alter_key_alter. }
  assert (Hg : pp_id (g p) = pp_id p) by (cbn; auto).
  split; cbn [push_event set_events set_proposals drop_rollover set_rollovers set_cohorts es_proposals
    es_epoch es_intake_queue es_rollovers es_cohorts es_resource_locks es_recent es_proposal_id_high_water
    es_recovery_epoch es_dead_man_paused_at].
  - rewrite Eg. exact (eq_ind_r NoDup Hn (keys_alter_props s pid g p Hp Hg)).
  - rewrite Er, Eq, El, E1, E3, E4, E5, E6. rewrite qt_epoch0, E2 in Hj.
    eapply (EI_measure spec_of _ (lk s) _ _ _ _ _ _ _ _ _ _ _ pid p (g p) HEI); try done.
    + split; cbn; rewrite ?qt_markets0, ?qt_resources0, ?qt_spec0, ?qt_epoch0; try done; [apply Hsh|by left|].
      intros _. apply (sh_spec _ _ Hsh). by right.
    + cbn. by rewrite qt_epoch0.
    + intros x. unfold lk at 1. cbn [es_proposals set_events set_proposals]. rewrite Eg. by apply lk_alter.
    + by apply NoDup_fst_filter'.
    + intros r [??]%list_elem_of_filter. done.
Qed.

(** ** Calls with a ledger *)

Section with_ledger.
Context {X : Type} `{!EpochLedger X}.

Implicit Types st : EpochState A * X.

Ltac moved q l :=
  match goal with
  | Hi : EpochInv.EInv _ ?s, Hp : lk ?s ?pid = Some ?p |- EpochInv.EInv _ ?s' =>
      lazymatch s' with
      | context [alter_key pp_id pid ?f _] =>
          eapply (EInv_move spec_of s s' pid f p q l);
            [exact Hi|exact Hp|by_state..]; try by eapply shape_write; [by eapply lk_shape|..]; by_state
      end
  end.

Lemma open_markets_keeps origin pid markets st st' :
  EInv st.1 -> open_markets origin pid markets st = (Ok tt, st') -> EInv st'.1.
Proof.
  intros Hi H. unfold open_markets in H. inv_ep. chase.
  named p Hp.
  pose proof (lk_shape spec_of st.1 pid p Hi Hp) as Hsh.
  set (f := fun p => set_state Trading (set_pp_markets (Some markets) p)).
  assert (Hfs : shape (f p)).
  { split; cbn; try done; [apply Hsh|by left|]. intros _. apply (sh_spec _ _ Hsh).
    left. by destruct (pp_state p). }
  eapply (EInv_move spec_of st.1 _ pid f p false false); try done;
    intros *; destruct (pp_state p); done.
Qed.

(** A forced rejection of a proposal that may be rejected, or nothing. *)
Lemma force_keeps origin pid st st' :
  EInv st.1 -> force_reject_process_hold origin pid st = (Ok tt, st') ->
  EInv st'.1 /\ exists p, lk st'.1 pid = Some p.
Proof.
  intros Hi H. unfold force_reject_process_hold in H. inv_ep. chase.
  named p Hp.
  destruct (negb _) eqn:Hf; inv_ep; chase.
  { split; [by eapply EInv_ext|by exists p]. }
  set (f := set_state (Rejected ProcessHold)).
  match goal with |- context [maybe_clear_stale_epoch ?s] => set (s1 := s) end.
  assert (Hi1 : EInv s1).
  { assert (Hne : pp_state p <> Measuring) by (intros E; by rewrite E in Hf).
    eapply (EInv_move spec_of st.1 s1 pid f p true true); try done.
    eapply shape_write; [by eapply lk_shape|..]; cbn; auto; done. }
  split; [by apply clear_stale_keeps|]. exists (f p).
  assert (E : es_proposals (maybe_clear_stale_epoch s1) = alter_key pp_id pid f (es_proposals st.1)).
  { unfold maybe_clear_stale_epoch. destruct (es_stale_epoch_cutoff s1); [destruct (existsb _ _)|]; done. }
  unfold lk. rewrite E. rewrite (lk_alter st.1 pid f p) by done. by rewrite decide_True.
Qed.

Lemma force_void_keeps pid b st st' :
  EInv st.1 -> force_reject_if_cohort_void pid st = (Ok b, st') ->
  EInv st'.1 /\ (b = false -> st'.1 = st.1).
Proof.
  intros Hi H. unfold force_reject_if_cohort_void in H. inv_ep. chase.
  destruct (negb _); inv_ep; chase.
  { done. }
  match goal with H : force_reject_process_hold _ _ _ = _ |- _ => apply force_keeps in H as [Hi' [p' Hp']]; [|by chase] end.
  split; [|done]. chase. eapply EInv_touch; [apply harmless_decision|done|done].
Qed.

Lemma with_books s pid p : EInv s -> lk s pid = Some p -> is_none (pp_markets p) = false -> pp_state p <> Submitted.
Proof. intros Hi Hp Hm Hs. pose proof (lk_shape spec_of s pid p Hi Hp) as []. by rewrite sh_early in Hm by by rewrite Hs. Qed.

Ltac unless_voided :=
  match goal with
  | Hi : EpochInv.EInv _ _, H : force_reject_if_cohort_void _ _ = (Ok ?b, ?st) |- _ =>
      apply force_void_keeps in H as [? Hsame]; [|by chase];
      destruct b; [inv_ep; by chase|specialize (Hsame eq_refl)]; inv_ep; chase
  end.

Lemma reject_keeps pid r p st st' :
  EInv st.1 -> lk st.1 pid = Some p -> is_none (pp_markets p) = false ->
  reject_to_measurement pid r st = (Ok tt, st') -> EInv st'.1.
Proof.
  intros Hi Hp Hm H. unfold reject_to_measurement in H. inv_ep. unless_voided.
  rewrite Hm in *. cbn [negb] in *. inv_ep. chase.
  eapply (measured_keeps pid (fun p => set_decision (Some (RejectFor r)) (set_state (Rejected r) p)) p st.1);
    [done|done|by eapply with_books|done|by split|..]; [..|eassumption]; try done.
  - cbn. by rewrite alter_key_alter.
  - apply filter_filter_id.
Qed.

Lemma resolve_keeps pid w mark p st st' :
  EInv st.1 -> lk st.1 pid = Some p -> is_none (pp_markets p) = false ->
  (mark = ret tt \/ mark = (do! proposal_mut pid (set_state Expired) in modify (push_event (EpMandateExpired pid)))) ->
  resolve_and_measure pid w mark st = (Ok tt, st') -> EInv st'.1.
Proof.
  intros Hi Hp Hm Hk H. unfold resolve_and_measure in H. inv_ep. chase.
  destruct Hk as [-> | ->]; inv_ep; chase.
  - eapply (measured_keeps pid (fun p => p) p st.1); [done|done|by eapply with_books|done|by split|..]; [..|eassumption]; try done.
    by rewrite alter_key_id.
  - eapply (measured_keeps pid (set_state Expired) p st.1); [done|done|by eapply with_books|done|by split|..]; [..|eassumption]; done.
Qed.

(** A proposal in one of the later states has books. *)
Lemma traded_books s pid p :
  EInv s -> lk s pid = Some p -> traded_state (pp_state p) = true -> is_none (pp_markets p) = false.
Proof. intros Hi Hp. apply (sh_traded spec_of p), (lk_shape spec_of s pid p Hi Hp). Qed.

Lemma veto_keeps origin pid st st' : EInv st.1 -> veto_upheld origin pid st = (Ok tt, st') -> EInv st'.1.
Proof.
  intros Hi H. unfold veto_upheld in H. inv_ep. chase. named p Hp.
  eapply (reject_keeps pid); [|..|eassumption]; chase; [done|done|].
  eapply (traded_books st.1); [done..|by_state].
Qed.

Lemma mark_executed_keeps origin pid st st' : EInv st.1 -> mark_executed origin pid st = (Ok tt, st') -> EInv st'.1.
Proof.
  intros Hi H. unfold mark_executed in H. inv_ep. chase. named p Hp. unless_voided.
  eapply (resolve_keeps pid); [..|eassumption]; chase; [done|done| |by left].
  eapply (traded_books st.1); [done..|]. by destruct (pp_state p).
Qed.

Lemma retry_keeps origin pid st st' :
  EInv st.1 -> retry_exhausted_to_measurement origin pid st = (Ok tt, st') -> EInv st'.1.
Proof.
  intros Hi H. unfold retry_exhausted_to_measurement in H. inv_ep. chase. named p Hp. unless_voided.
  eapply (resolve_keeps pid); [..|eassumption]; chase; [done|done| |by left].
  eapply (traded_books st.1); [done..|by_state].
Qed.

Lemma expire_keeps origin pid reason st st' :
  EInv st.1 -> expire_or_stale_queue origin pid reason st = (Ok tt, st') -> EInv st'.1.
Proof.
  intros Hi H. unfold expire_or_stale_queue in H. inv_ep. chase. named p Hp. unless_voided.
  assert (Hb : is_none (pp_markets p) = false) by (eapply (traded_books st.1); [done..|by_state]).
  destruct reason as [[]|]; inv_ep;
    try (eapply (reject_keeps pid); [..|eassumption]; by chase).
  eapply (resolve_keeps pid); [..|eassumption]; chase; [done|done|done|by right].
Qed.

End with_ledger.
End steps.
