(* ===== verification/EpochTick.v ===== *)
(** * The clock, the decision crank and the tick keep the invariant *)

From S2P Require Import Prelude Keyed Primitives Proposals Epoch EpochDecide EpochCalls EpochEngine EpochClock EpochInv EpochOps EpochSteps.

Section tick.
Context {A : Type} `{EqDecision A}.
Variable spec_of : EpochId -> MetricSpecVersion.

Implicit Types (s : EpochState A) (p : Proposal A) (pid : ProposalId).

Abbreviation EInv := (EInv spec_of).
Abbreviation shape := (shape spec_of).

(** ** The clock *)

(** Only the epoch record, the recovery and the pause move. *)
Lemma EInv_clock s s' :
  EInv s -> es_proposals s' = es_proposals s -> es_intake_queue s' = es_intake_queue s ->
  es_rollovers s' = es_rollovers s -> es_resource_locks s' = es_resource_locks s ->
  es_cohorts s' = es_cohorts s -> es_recent s' = es_recent s ->
  es_proposal_id_high_water s' = es_proposal_id_high_water s ->
  epoch_len_ok (es_epoch s') -> (forall r, es_recovery_epoch s' = Some r -> r = ei_index (es_epoch s')) ->
  (forall b, es_dead_man_paused_at s' = Some b -> es_recovery_epoch s' = None) -> EInv s'.
Proof.
  intros [Hn Hi] Ep Eq Er El E2 E3 E4 Hl Hr Hpa. split; unfold lk; rewrite ?Ep, ?Eq, ?Er, ?El, ?E2, ?E3, ?E4; [done|].
  by eapply (EI_clock spec_of).
Qed.

Lemma harmless_resume n : harmless (A := A) (resume_proposal n).
Proof. split; intros p; try intros Hp; unfold resume_proposal; destruct (pp_state p) eqn:E; cbn; rewrite ?E; done. Qed.

Lemma harmless_carry q i : harmless (A := A) (carry_intake q i).
Proof.
  split; intros p; unfold carry_intake; destruct (bool_decide (pp_state p = Submitted)) eqn:E; cbn; try done;
    destruct (bool_decide (pp_id p ∈ q)); try done.
  intros Hp. by apply bool_decide_eq_true in E.
Qed.

Lemma cross_epoch_len now e : epoch_len_ok e -> epoch_len_ok (cross_epoch now e).
Proof.
  intros [Hi Hl Hn]. split; [|exact Hn..]. unfold cross_epoch, sat_add. cbn [ei_index]. by apply Z.min_lt_iff; right.
Qed.

Lemma cross_epoch_index now e : epoch_len_ok e -> ei_index e <= ei_index (cross_epoch now e).
Proof.
  intros [Hi Hl Hn]. cbn. assert (0 <= sat_sub now (sat_add U32 (ei_epoch_start_block e) (ei_length e)) / ei_next_length e).
  { apply Z.div_pos; [unfold sat_sub; lia|]. assert (0 < MIN_EPOCH_LENGTH) by done. lia. }
  unfold sat_add in *. lia.
Qed.

Lemma sync_keeps now s : EInv s -> EInv (sync_phase now s).
Proof.
  intros Hi. unfold sync_phase. destruct (_ || _); [done|]. destruct (latch_fields now s) as [c ->].
  assert (Hi0 : EInv (set_stale_cutoff c s)) by by eapply EInv_ext.
  clear Hi. revert Hi0. generalize (set_stale_cutoff c s). clear s c. intros s Hi. pose proof Hi as [_ []].
  destruct (_ && negb _).
  - destruct (es_recovery_epoch s) eqn:Hr; [|destruct (es_dead_man_paused_at s) eqn:Hp]; [|done|];
      eapply (EInv_clock s); try done; cbn [set_paused_at es_recovery_epoch]; by rewrite Hr.
  - destruct (es_dead_man_paused_at s) as [at_|] eqn:Hp.
    + eapply (EInv_clock (set_proposals (resume_proposal (sat_sub now at_) <$> es_proposals s) s)); try done.
      * apply EInv_fmap; [apply harmless_resume|done].
      * destruct ei_lengths. split; cbn; [|done..]. unfold sat_add. lia.
      * by intros r [= <-].
    + set (crossed := _ <=? now).
      set (s1 := if crossed then set_epoch (cross_epoch now (es_epoch s)) s else s).
      set (recovered := match es_recovery_epoch s with Some _ => _ | None => false end).
      set (s2 := if crossed && recovered then _ else s1).
      assert (H2 : EInv s2).
      { pose proof (cross_epoch_len now _ ei_lengths) as Hle. pose proof (cross_epoch_index now _ ei_lengths) as Hidx.
        unfold s2, recovered, s1. destruct crossed; [|done]. cbn [andb set_epoch es_epoch].
        destruct (es_recovery_epoch s) as [r|] eqn:Hr; [destruct (Z.ltb_spec r (ei_index (cross_epoch now (es_epoch s))))|].
        - eapply (EInv_fmap spec_of (carry_intake _ _)); [apply harmless_carry|]. eapply (EInv_clock s); try done.
        - eapply (EInv_clock s); try done; cbn [set_epoch es_recovery_epoch es_epoch es_dead_man_paused_at].
          + rewrite Hr. intros r' [= <-]. specialize (ei_recovery r eq_refl). lia.
          + by rewrite Hp.
        - eapply (EInv_clock s); try done; cbn [set_epoch es_recovery_epoch es_epoch es_dead_man_paused_at]; by rewrite ?Hr. }
      clearbody s2. clear -H2. pose proof H2 as [_ []]. destruct (_ || _); [|done].
      eapply (EInv_clock s2); try done. by destruct ei_lengths.
Qed.

Lemma refresh_keeps params s : validate params = Ok tt -> EInv s -> EInv (refresh_params params s).
Proof.
  intros Hv Hi. unfold validate in Hv. inv_ep. pose proof Hi as [_ []]. eapply (EInv_clock s); try done.
  destruct ei_lengths. split; cbn; [done..|]. split; [|done]. done.
Qed.

(** ** The engine writes only its carry counter *)

Lemma or_return_Ok (o : option DecisionOutcome) (m : ST (EpochState A) EpochError DecisionOutcome) s out s' :
  or_return o m s = (Ok out, s') -> (s' = s \/ m s = (Ok out, s')).
Proof. unfold or_return. destruct o; intros Hm; [|by right]. inv_all. by left. Qed.

(** [s'] is [s] up to its log and the carry counter. *)
Definition framed s s' : Prop := exists c l, s' = set_events l (set_baseline_carry c s).

Lemma framed_refl s : framed s s.
Proof. exists (es_baseline_carry s), (es_events s). by destruct s. Qed.

Lemma carried_framed pid p i s : framed s (carried_state pid p i s).
Proof.
  pose proof (framed_refl s). unfold carried_state. destruct (_ || _); [done|].
  destruct (carry_count _ _) as [n []]; cbn [snd fst]; [by eexists _, _|].
  exists (es_baseline_carry s). eexists. by destruct s.
Qed.

Lemma decide_engine_frame pid i params s out s' :
  decide_engine pid i params s = (Ok out, s') ->
  framed s s' /\ exists p, lk s pid = Some p /\ (pp_state p = Trading \/ pp_state p = Extended).
Proof.
  intros H. unfold decide_engine in H. inv_ep.
  match goal with Hl : lk _ _ = Some ?q |- _ => rename q into p; rename Hl into Hp end.
  split; [|exists p; split; [done|]; destruct (pp_state p); auto; done].
  pose proof (framed_refl s) as Hs.
  apply or_return_Ok in H as [->|H]; [done|]. apply or_return_Ok in H as [->|H]; [done|]. inv_ep.
  rewrite baseline_stage_eq in *. inv_ep.
  pose proof (carried_framed pid p i s) as Hc. subst.
  apply or_return_Ok in H as [->|H]; [done|]. apply or_return_Ok in H as [->|H]; [done|]. inv_ep. done.
Qed.

Lemma outcome_frame pid i guards params s out s' :
  decision_outcome pid i guards params s = (Ok out, s') ->
  framed s s'
  /\ ((exists r, out = RejectFor r) \/ exists p, lk s pid = Some p /\ (pp_state p = Trading \/ pp_state p = Extended)).
Proof.
  intros H. unfold decision_outcome in H. inv_ep. pose proof (framed_refl s) as Hs.
  destruct (negb (dg_preimage_ok guards)); inv_ep; [by eauto|].
  destruct (negb (dg_resource_locks_held guards)); inv_ep; [by eauto|].
  destruct (dg_process_hold guards || es_dead_man_armed s); inv_ep; [by eauto|].
  apply decide_engine_frame in H. tauto.
Qed.

(** The clock and the refresh rewrite proposals harmlessly. *)
Lemma sync_proposals now s :
  exists f, harmless f /\ (forall p, pp_decision (f p) = pp_decision p)
    /\ es_proposals (sync_phase now s) = f <$> es_proposals s.
Proof.
  assert (Hid : exists f, harmless (A := A) f /\ (forall p, pp_decision (f p) = pp_decision p)
    /\ es_proposals s = f <$> es_proposals s).
  { exists (fun p => p). split; [by split|by rewrite list_fmap_id]. }
  unfold sync_phase. destruct (_ || _); [done|]. destruct (latch_fields now s) as [c ->].
  destruct (_ && negb _); cbn [es_recovery_epoch es_dead_man_paused_at set_stale_cutoff].
  - destruct (es_recovery_epoch s), (es_dead_man_paused_at s); done.
  - destruct (es_dead_man_paused_at s) as [at_|].
    + eexists. split; [apply (harmless_resume (sat_sub now at_))|]. split; [|done].
      intros p. unfold resume_proposal. destruct (pp_state p) eqn:E; cbn; by rewrite ?E.
    + set (crossed := _ <=? now). rewrite (andb_comm crossed).
      set (recovered := match es_recovery_epoch s with Some _ => _ | None => _ end).
      destruct recovered, crossed; cbn [andb]; rewrite ?orb_true_r.
      * eexists. split; [apply harmless_carry|]. split; [|done]. intros p. unfold carry_intake. by destruct (_ && _).
      * by destruct (_ || false).
      * done.
      * by destruct (_ || false).
Qed.

Lemma synced_proposal now params s pid p :
  lk s pid = Some p -> exists q, lk (sync_phase now (refresh_params params s)) pid = Some q
    /\ pp_state q = pp_state p /\ pp_markets q = pp_markets p.
Proof.
  intros Hp. destruct (sync_proposals now (refresh_params params s)) as (f & Hf & _ & E).
  exists (f p). unfold lk in *. rewrite E, find_key_fmap by apply Hf.
  change (es_proposals (refresh_params params s)) with (es_proposals s). rewrite Hp. destruct Hf. split_and!; auto.
Qed.

Lemma EInv_event e s : EInv s -> EInv (push_event e s).
Proof. intros Hi. by apply (EInv_ext spec_of s). Qed.

(** ** The decision crank *)

Section with_ledger.
Context {X : Type} `{!EpochLedger X}.

Implicit Types st : EpochState A * X.

Lemma decide_keeps origin pid now i guards params out p st st' :
  EInv st.1 -> lk st.1 pid = Some p -> is_none (pp_markets p) = false ->
  decide_with origin pid now i guards params st = (Ok out, st') -> EInv st'.1.
Proof.
  intros Hi Hp Hm H. unfold decide_with in H. inv_ep. chase.
  match goal with H : es_recovery_epoch ?s = None |- _ => idtac | H : is_none (es_recovery_epoch ?s) = true |- _ => subst s end.
  destruct (synced_proposal now params st.1 pid p Hp) as (q & Hq & Hqs & Hqm).
  assert (Hi1 : EInv (sync_phase now (refresh_params params st.1))) by by apply sync_keeps, refresh_keeps.
  match goal with H : ?x.1 = sync_phase _ _, H' : _ ?x = (Ok out, _) |- _ => rename x into st1; rename H into E1 end.
  rewrite <- E1 in Hq, Hi1. clear Hi Hp E1. rewrite <- Hqm in Hm.
  destruct (_ || _); inv_ep; chase.
  { match goal with H : force_reject_process_hold _ _ _ = _ |- _ => by apply force_keeps with (spec_of := spec_of) in H as [? _] end. }
  match goal with H : force_reject_if_cohort_void _ _ = (Ok ?b, _) |- _ =>
    apply force_void_keeps with (spec_of := spec_of) in H as [? Hsame]; [|done]; destruct b; [by inv_ep|] end.
  specialize (Hsame eq_refl). inv_ep. chase. named q Hq.
  match goal with H : decision_outcome _ _ _ _ _ = (Ok ?o, ?x.1) |- _ =>
    rename x into st2, o into out2; apply outcome_frame in H as [(c & l & Hs1) Hout] end.
  assert (Hi2 : EInv st2.1) by (rewrite Hs1; by eapply EInv_ext).
  assert (Hq2 : lk st2.1 pid = Some q) by by rewrite Hs1.
  clear Hs1. destruct out2 as [|r|]; inv_ep.
  - destruct Hout as [[? [=]]|(p' & Hp' & Hst)]. replace p' with q in Hst by congruence.
    by eapply (queue_keeps spec_of pid now params st2.1).
  - match goal with H : reject_to_measurement _ _ _ = _ |- _ =>
      eapply (reject_keeps spec_of pid) in H; [|exact Hi2|exact Hq2|exact Hm] end.
    destruct (_ || _); inv_ep; chase; first [by apply EInv_event|done].
  - destruct Hout as [[? [=]]|(p' & Hp' & Hst)]. replace p' with q in Hst by congruence.
    by eapply (extend_keeps spec_of pid st2.1).
Qed.

(** ** The tick *)

Lemma noop_keeps st st' : EInv st.1 -> zoom_fst (E := EpochError) (modify (push_event EpNoOp)) st = (Ok tt, st') -> EInv st'.1.
Proof. intros Hi H. inv_ep. chase. by apply EInv_event. Qed.

Lemma tick_keeps origin pid now input params st st' :
  EInv st.1 ->
  (forall v, ti_active_metric_spec_version input = Some v ->
     v = spec_of (ei_index (es_epoch (sync_phase now (refresh_params params st.1))))) ->
  tick origin pid now input params st = (Ok tt, st') -> EInv st'.1.
Proof.
  intros Hi Hspec H. unfold tick in H. inv_ep. chase.
  match goal with H : ?s = sync_phase _ _ |- _ => is_var s; subst s end.
  assert (Hi1 : EInv (sync_phase now (refresh_params params st.1))) by by apply sync_keeps, refresh_keeps.
  named p Hp. match type of H with _ ?x = _ => rename x into st1 end.
  match goal with E0 : st1.1 = _ |- _ => rename E0 into E end.
  revert Hspec Hi1 Hp H E. generalize (sync_phase now (refresh_params params st.1)). intros s Hspec Hs Hp H E. rewrite <- E in Hs.
  destruct (_ && _); [by apply (force_keeps spec_of) in H as [? _]|].
  destruct (_ && _); [by apply (force_keeps spec_of) in H as [? _]|].
  destruct (_ || _); [by eapply noop_keeps|].
  destruct (pp_state p) eqn:Hst; try by eapply noop_keeps.
  - destruct (_ && _); [|by eapply noop_keeps]. inv_ep. chase.
    destruct (negb (ti_preimage_ok input)); [|destruct (ti_active_metric_spec_version input) as [v|]]; inv_ep; chase.
    + eapply (cancel_keeps spec_of); [by apply (EInv_event (EpScreeningStarted pid))|done|done|eassumption].
    + eapply (qualify_keeps spec_of); [exact Hs|by apply Hspec|eassumption].
    + eapply (cancel_keeps spec_of); [by apply (EInv_event (EpScreeningStarted pid))|done|done|eassumption].
  - destruct (in_phase _ _); [|by eapply noop_keeps]. inv_ep. by eapply open_markets_keeps; [|eassumption]; chase.
  - destruct (ti_queue_reject_reason input) as [r|]; [by eapply expire_keeps|].
    match type of H with (if ?b then _ else _) _ = _ => destruct b end; [by eapply expire_keeps|by eapply noop_keeps].
  - destruct (ti_review_window_closed input); [|by eapply noop_keeps]. inv_ep. chase.
    by eapply (schedule_rerun_keeps spec_of).
  - destruct (in_phase _ _); [|by eapply noop_keeps]. inv_ep. chase. by eapply (open_rerun_keeps spec_of).
  - destruct (ti_retry_exhausted input); [by eapply retry_keeps|by eapply noop_keeps].
Qed.

End with_ledger.
End tick.
