(* ===== verification/EpochCohorts.v ===== *)
(** * Settlement, cohort VOID, intake and persistence keep the invariant

    and with them every step of the transition system. *)

From S2P Require Import Prelude Keyed Primitives Proposals Epoch EpochDecide EpochCalls EpochEngine EpochClock EpochSettle EpochSystem EpochInv EpochOps EpochSteps EpochTick.

Section cohorts.
Context {A : Type} `{EqDecision A}.
Variable spec_of : EpochId -> MetricSpecVersion.

Implicit Types (s : EpochState A) (p : Proposal A) (pid : ProposalId).

Abbreviation EInv := (EInv spec_of).

(** ** Rows that are about to leave may be written to *)

Lemma filter_alter_out (P : Proposal A -> Prop) `{forall p, Decision (P p)} pid f (l : list (Proposal A)) :
  (forall p, pp_id p = pid -> ~ P p) -> (forall p, pp_id p = pid -> ~ P (f p)) ->
  filter P (alter_key pp_id pid f l) = filter P l.
Proof.
  intros Ho Hf. induction l as [|p l IH]; cbn; [done|]. destruct (decide (pp_id p = pid)) as [E|E].
  - rewrite !filter_cons, !decide_False by auto. done.
  - rewrite !filter_cons, IH. done.
Qed.

Lemma sublist_elem {T} (l' l : list T) x : sublist l' l -> x ∈ l' -> x ∈ l.
Proof. intros Hs Hx. by eapply elem_of_submseteq; [|apply sublist_submseteq]. Qed.

(** A working set without [pids], in which the rest is as before. *)
Record cleared (pids : list ProposalId) s s' : Prop := {
  cl_props : filter (fun p => pp_id p ∉ pids) (es_proposals s') = filter (fun p => pp_id p ∉ pids) (es_proposals s);
  cl_queue : forall x, x ∉ pids -> x ∈ es_intake_queue s' <-> x ∈ es_intake_queue s;
  cl_queue_sub : sublist (es_intake_queue s') (es_intake_queue s);
  cl_rolls : sublist (es_rollovers s') (es_rollovers s);
  cl_locks : sublist (es_resource_locks s') (es_resource_locks s);
  cl_epoch : es_epoch s' = es_epoch s;
  cl_cohorts : es_cohorts s' = es_cohorts s;
  cl_recent : es_recent s' = es_recent s;
  cl_high : es_proposal_id_high_water s' = es_proposal_id_high_water s;
  cl_recovery : es_recovery_epoch s' = es_recovery_epoch s;
  cl_paused : es_dead_man_paused_at s' = es_dead_man_paused_at s;
}.

Lemma cleared_refl pids s : cleared pids s s.
Proof. by split. Qed.

Lemma cleared_trans pids s1 s2 s3 : cleared pids s1 s2 -> cleared pids s2 s3 -> cleared pids s1 s3.
Proof.
  intros [] []. split; try congruence; try by etrans.
  intros x Hx. rewrite cl_queue1 by done. auto.
Qed.

Lemma settled_cleared pid s s' :
  proposal_mut pid settle_proposal s = (Ok tt, s') -> forall pids, pid ∈ pids -> cleared pids s s'.
Proof.
  intros Hs pids Hin. inv_ep. split; try done. cbn. apply filter_alter_out; cbn; intros p -> Hn; by apply Hn.
Qed.

Lemma for_each_cleared {E} (f : ProposalId -> ST (EpochState A) E unit) pids :
  (forall pid s s', pid ∈ pids -> f pid s = (Ok tt, s') -> cleared pids s s') ->
  forall l s s', l ⊆ pids -> for_each_st f l s = (Ok tt, s') -> cleared pids s s'.
Proof.
  intros Hf. induction l as [|pid l IH]; intros s s' Hl H; cbn in H; [injection H as <-; apply cleared_refl|].
  apply bind_Ok in H as ([] & s1 & H1 & H2). eapply cleared_trans.
  - eapply Hf; [|exact H1]. apply Hl. by left.
  - eapply IH; [|exact H2]. intros x Hx. apply Hl. by right.
Qed.

(** Reaping a cohort after clearing it. *)
Lemma reap_keeps epoch c pids s s1 (recent : list CohortSummary) :
  EInv s -> cleared pids s s1 -> find_key ci_epoch epoch (es_cohorts s) = Some c ->
  (forall x, x ∈ ci_proposals c -> x ∈ pids) ->
  (forall x p, x ∈ pids -> lk s x = Some p -> pp_epoch p = epoch \/ pp_state p <> Measuring) ->
  (forall x, x ∈ pids -> x ∉ es_intake_queue s1) -> (forall r, r ∈ es_rollovers s1 -> r.1 ∉ pids) ->
  (length recent <= RECENT_COHORTS)%nat ->
  forall s2, es_proposals s2 = filter (fun p => pp_id p ∉ pids) (es_proposals s1) ->
  es_resource_locks s2 = filter (fun r => r.2 ∉ pids) (es_resource_locks s1) ->
  es_intake_queue s2 = es_intake_queue s1 -> es_rollovers s2 = es_rollovers s1 -> es_epoch s2 = es_epoch s1 ->
  es_cohorts s2 = remove_key ci_epoch epoch (es_cohorts s) -> es_recent s2 = recent ->
  es_proposal_id_high_water s2 = es_proposal_id_high_water s1 -> es_recovery_epoch s2 = es_recovery_epoch s1 ->
  es_dead_man_paused_at s2 = es_dead_man_paused_at s1 ->
  EInv s2.
Proof.
  intros [Hn HEI] Hcl Hc Hmem Hpids Hq Hr Hrec s2 Ep El Eq Er E1 E2 E3 E4 E5 E6. pose proof HEI as []. destruct Hcl.
  split.
  - rewrite Ep, cl_props0. by apply keys_filter_NoDup.
  - rewrite El, Eq, Er, E1, E2, E3, E4, E5, E6, cl_epoch0, cl_high0, cl_recovery0, cl_paused0.
    eapply (EI_reap spec_of _ (lk s) _ _ _ _ _ _ _ _ _ _ _ _ _ epoch c pids HEI); try done.
    + intros x. unfold lk. rewrite Ep, cl_props0, find_key_filter by done.
      destruct (find_key pp_id x (es_proposals s)) as [p|] eqn:Hx; [|by destruct (decide _)].
      apply lk_id in Hx as ->. destruct (decide (x ∈ pids)); [by rewrite decide_False by auto|by rewrite decide_True].
    + eapply sublist_NoDup; [exact ei_queue_nodup|done].
    + etrans; [by apply sublist_length|done].
    + intros x. destruct (decide (x ∈ pids)) as [Hx|Hx].
      * split; [by intros ?%Hq|by intros [_ ?]].
      * rewrite cl_queue0 by done. tauto.
    + eapply sublist_NoDup; [exact ei_rolls_nodup|]. by apply fmap_sublist.
    + intros r Hr'. split; [|by apply Hr]. by eapply sublist_elem.
    + eapply sublist_NoDup; [exact ei_locks_nodup|]. apply fmap_sublist. etrans; [apply sublist_filter|done].
    + intros r [Hr1 Hr2]%list_elem_of_filter. split; [|done]. by eapply sublist_elem.
Qed.

(** ** Settlement *)

Lemma push_summary_Ok epoch sc twap now voided pids s s' :
  (length (es_recent s) <= RECENT_COHORTS)%nat ->
  push_summary epoch sc twap now voided pids s = (Ok tt, s') ->
  exists recent, s' = set_recent recent s /\ (length recent <= RECENT_COHORTS)%nat.
Proof.
  intros Hl H. unfold push_summary in H. inv_ep. destruct (_ =? _)%nat eqn:E; eexists; (split; [by destruct s|]);
    cbn; rewrite length_app; cbn.
  - apply Nat.eqb_eq in E. destruct (es_recent s); [done|]. cbn in *. lia.
  - apply Nat.eqb_neq in E. lia.
Qed.

Section with_welfare.
Context {Y : Type} `{!WelfareOps Y}.

Implicit Types st : EpochState A * Y.

Lemma settle_keeps origin epoch batch twap now st out st' :
  EInv st.1 -> settle_cohort origin epoch batch twap now st = (Ok out, st') -> EInv st'.1.
Proof.
  intros Hi H. unfold settle_cohort in H. inv_ep. chase.
  match goal with H : settle_items _ _ _ _ _ _ ?x = _ |- _ => destruct x as [s w]; apply settle_items_state in H end.
  subst. cbn [fst snd] in *. chase. rename select CohortInfo into c. set (pids := ci_proposals c) in *.
  pose proof Hi as [_ HEI]. pose proof HEI as [].
  match goal with H : find_key ci_epoch epoch _ = Some c |- _ => rename H into Hc end.
  pose proof (find_key_Some _ _ _ _ Hc) as [Hce Hcin].
  destruct (_ <? _)%nat eqn:He; inv_ep; chase.
  - destruct Hi as [Hn _]. split; [exact Hn|]. eapply (EI_park spec_of _ _ _ _ _ _ _ _ _ _ epoch c); [done|done|].
    fold pids. lia.
  - match goal with H : for_each_st _ _ _ = (Ok _, ?x) |- _ =>
      rename x into s1; apply (for_each_cleared _ pids) in H as Hcl; [|by intros; eapply settled_cleared|done] end.
    match goal with H : push_summary _ _ _ _ _ _ _ = _ |- _ =>
      apply push_summary_Ok in H as (recent & Hrecent & Hrl); [|rewrite (cl_recent _ _ _ Hcl); by chase] end.
    assert (Hmem : forall x, x ∈ pids -> exists p, lk st.1 x = Some p /\ pp_state p = Measuring /\ pp_epoch p = epoch).
    { intros y Hy. destruct (co_members _ _ (ei_cohorts c Hcin) y Hy) as (p & ? & ? & E). exists p. by rewrite E. }
    assert (Hsub : forall x (ps : ProposalState), x ∈ pids -> in_state (lk st.1) x ps -> ps = Measuring).
    { intros y ps Hy (p & Hp & <-). destruct (Hmem y Hy) as (q & Hq & Hqs & _). congruence. }
    eapply (reap_keeps epoch c pids st.1 s1 recent Hi Hcl Hc); subst; try done.
    + intros y p Hy Hp. left. destruct (Hmem y Hy) as (q & Hq & _ & ?). congruence.
    + intros y Hy Hin. apply (sublist_elem _ _ _ (cl_queue_sub _ _ _ Hcl)), ei_queue in Hin. by specialize (Hsub y _ Hy Hin).
    + intros r Hr Hin. apply (sublist_elem _ _ _ (cl_rolls _ _ _ Hcl)), ei_rolls in Hr as [_ Hr]. by specialize (Hsub _ _ Hin Hr).
    + cbn. by rewrite (cl_cohorts _ _ _ Hcl).
Qed.

Lemma finalize_frame origin epoch st u st' :
  finalize_epoch_baseline origin epoch st = (Ok u, st') -> st'.1 = st.1.
Proof. intros H. unfold finalize_epoch_baseline in H. inv_ep. by chase. Qed.

End with_welfare.

(** ** Cohort VOID *)

Lemma void_cleared members pid s s' :
  void_proposal members pid s = (Ok tt, s') ->
  (forall pids, pid ∈ pids -> cleared pids s s')
  /\ pid ∉ es_intake_queue s' /\ (forall r, r ∈ es_rollovers s' -> r.1 <> pid).
Proof.
  intros H. unfold void_proposal in H. inv_ep.
  destruct (bool_decide (pid ∈ members)); inv_ep.
  all: split; [|split; [by intros [??]%list_elem_of_filter|by intros r [??]%list_elem_of_filter]].
  all: intros pids Hin; split; try done; cbn; try apply sublist_filter.
  all: try (intros x Hx; rewrite list_elem_of_filter; split; [tauto|intros ?; split; [congruence|done]]).
  apply filter_alter_out; cbn; intros p -> Hn; by apply Hn.
Qed.

(** Every processed proposal has left the queue and the rollovers. *)
Lemma voids_cleared members pids :
  forall l s s', l ⊆ pids -> for_each_st (void_proposal members) l s = (Ok tt, s') ->
  cleared pids s s' /\ (forall x, x ∈ l -> x ∉ es_intake_queue s')
  /\ (forall x r, x ∈ l -> r ∈ es_rollovers s' -> r.1 <> x).
Proof.
  induction l as [|pid l IH]; intros s s' Hl H; cbn in H.
  { injection H as <-. split; [apply cleared_refl|]. split; [by intros x ?%elem_of_nil|by intros x r ?%elem_of_nil]. }
  apply bind_Ok in H as ([] & s1 & H1 & H2).
  apply void_cleared in H1 as (Hc1 & Hq1 & Hr1).
  destruct (IH s1 s') as (Hc2 & Hq2 & Hr2); [intros x Hx; apply Hl; by right|done|].
  split; [eapply cleared_trans; [apply Hc1, Hl; by left|done]|]. split.
  - intros x [->|Hx]%elem_of_cons; [|by apply Hq2]. intros Hx.
    apply Hq1. by eapply sublist_elem; [apply Hc2|].
  - intros x r [->|Hx]%elem_of_cons Hr; [|by apply Hr2]. apply Hr1.
    by eapply sublist_elem; [apply Hc2|].
Qed.

Lemma affected_elems epoch (l : list (Proposal A)) acc x :
  x ∈ fold_left (fun affected p =>
        if void_affects epoch p && negb (bool_decide (pp_id p ∈ affected)) then affected ++ [pp_id p] else affected) l acc ->
  x ∈ acc \/ exists p, p ∈ l /\ pp_id p = x /\ pp_epoch p = epoch.
Proof.
  revert acc. induction l as [|p l IH]; intros acc Hx; [by left|].
  apply IH in Hx as [Hx|(q & Hq & ?)]; [|right; exists q; split; [by right|done]].
  destruct (void_affects epoch p && _) eqn:Hv; [|by left].
  apply elem_of_app in Hx as [Hx|Hx%list_elem_of_singleton]; [by left|]. right. exists p. split; [by left|].
  unfold void_affects in Hv. split; [done|]. to_prop. done.
Qed.

Lemma affected_members epoch (l : list (Proposal A)) acc x :
  x ∈ acc ->
  x ∈ fold_left (fun affected p =>
        if void_affects epoch p && negb (bool_decide (pp_id p ∈ affected)) then affected ++ [pp_id p] else affected) l acc.
Proof.
  revert acc. induction l as [|p l IH]; intros acc Hx; [done|]. apply IH. case_match; [|done]. apply elem_of_app. by left.
Qed.

Section with_both.
Context {X Y : Type} `{!EpochLedger X} `{!WelfareOps Y}.

Implicit Types st : EpochState A * X * Y.

Lemma void_vaults_frame l (sx sx' : EpochState A * X) u : for_each_st void_vault l sx = (Ok u, sx') -> sx'.1 = sx.1.
Proof.
  revert sx. induction l as [|pid l IH]; intros sx Hs; cbn in Hs; [by injection Hs as _ <-|].
  apply bind_Ok in Hs as ([] & s1 & H1 & H2). rewrite (IH _ H2). unfold void_vault in H1. inv_ep. by chase.
Qed.

Lemma void_keeps origin epoch now st st' :
  EInv st.1.1 -> void_cohort origin epoch now st = (Ok tt, st') -> EInv st'.1.1.
Proof.
  intros Hi H. unfold void_cohort in H. inv_ep.
  rename select CohortInfo into c. rename select (list ProposalId) into pids.
  repeat match goal with x : EpochState A * X * Y |- _ => destruct x as [[? ?] ?] end. cbn [fst snd] in *. subst.
  match goal with H : for_each_st void_vault _ _ = _ |- _ => apply void_vaults_frame in H; cbn [fst] in H; subst end.
  match goal with H : for_each_st (void_proposal _) _ ?s0 = (_, ?t) |- _ =>
    rename s0 into s, t into s1; eapply (voids_cleared _ pids) in H as (Hcl & Hvq & Hvr); [|done] end.
  match goal with H : find_key ci_epoch epoch _ = Some c |- _ => rename H into Hc end.
  match goal with H : void_affected_proposals _ _ = _ |- _ => unfold void_affected_proposals in H; rewrite Hc in H; inv_ep end.
  match goal with H : Some c = Some _ |- _ => injection H as <- end.
  match goal with H : (_, _) = (set_cohorts _ _, _) |- _ => injection H as -> -> end.
  match goal with H : fold_left _ _ _ = pids |- _ => rename H into Hpids end.
  match goal with H : push_summary _ _ _ _ _ _ _ = _ |- _ =>
    apply push_summary_Ok in H as (recent & -> & Hrl); [|cbn; rewrite (cl_recent _ _ _ Hcl); by apply Hi] end.
  pose proof Hi as [_ HEI]. pose proof HEI as [].
  eapply (reap_keeps epoch c pids s s1 recent Hi Hcl Hc); try done.
  - intros z Hz. rewrite <- Hpids. by apply affected_members.
  - intros z p Hx Hp. rewrite <- Hpids in Hx. apply affected_elems in Hx as [Hx|(q & Hq & Hqid & Hqe)].
    + apply find_key_Some in Hc as [Hce Hcin]. destruct (co_members _ _ (ei_cohorts c Hcin) z Hx) as (q & Hq & _ & He).
      left. rewrite <- Hce, <- He. congruence.
    + left. apply (elem_lk spec_of s q Hi) in Hq. rewrite Hqid in Hq. congruence.
  - intros r Hr Hin. by apply (Hvr r.1 r Hin Hr).
  - cbn. rewrite remove_alter by done. by rewrite (cl_cohorts _ _ _ Hcl).
Qed.

End with_both.

(** ** Intake and persistence *)

Lemma submit_keeps origin np params s s' :
  EInv s -> fresh_proposal s np -> submit origin np params s = (Ok tt, s') -> EInv s'.
Proof.
  intros Hi Hf H. unfold submit in H. inv_ep. cbn in *. pose proof Hi as [Hn HEI].
  assert (Hfresh : lk s (pp_id np) = None).
  { destruct (lk s (pp_id np)) as [q|] eqn:Hq; [|done]. pose proof (ei_high _ _ _ _ _ _ _ _ _ _ _ HEI _ _ Hq). lia. }
  split.
  - change (NoDup (keys pp_id (es_proposals s ++ [np]))). rewrite keys_app, NoDup_app. split; [done|]. split; [|apply NoDup_singleton].
    intros x Hx ->%list_elem_of_singleton. by apply find_key_None in Hfresh.
  - cbn. eapply (EI_submit spec_of _ (lk s)); try done; [apply Hf|].
    intros x. unfold lk at 1. cbn. rewrite find_key_app. fold (lk s x). cbn. destruct (decide (x = pp_id np)) as [->|Hx].
    + rewrite Hfresh. by rewrite decide_True.
    + destruct (lk s x); [done|]. by rewrite decide_False by congruence.
Qed.

Lemma set_length_keeps origin len params s s' :
  EInv s -> set_next_epoch_length origin len params s = (Ok tt, s') -> EInv s'.
Proof.
  intros Hi H. unfold set_next_epoch_length in H. inv_ep. pose proof Hi as [_ []].
  eapply (EInv_clock spec_of s); try done. destruct ei_lengths. by split.
Qed.

Lemma reap_terminal_keeps s : EInv s -> EInv (reap_terminal s).
Proof.
  intros [Hn HEI]. unfold reap_terminal. split; cbn; [by apply keys_filter_NoDup|].
  eapply (EI_filter spec_of); [| |exact HEI].
  2: { intros x. unfold lk. cbn [set_proposals es_proposals]. by rewrite find_key_filter. }
  intros p Hp. cbv beta. assert (is_terminal_state (pp_state p) = false) as ->; [|done].
  destruct Hp as [->|Hp]; [done|]. by destruct (pp_state p).
Qed.

Section system.
Context {X Y : Type} `{!EpochLedger X} `{!WelfareOps Y}.

Implicit Types st : EpochState A * X * Y.

Lemma ignore_Ok {S R} (m : ST S EpochError R) (t t' : S) : ignore m t = (Ok tt, t') -> exists r, m t = (Ok r, t').
Proof. intros Hm. unfold ignore in Hm. inv_all. by eexists. Qed.

Lemma on_welfare_Ok {R} (m : ST (EpochState A * Y) EpochError R) st r st' :
  on_welfare m st = (Ok r, st') ->
  exists y, m (st.1.1, st.2) = (Ok r, (st'.1.1, y)) /\ st'.1.2 = st.1.2.
Proof.
  unfold on_welfare. destruct (m (st.1.1, st.2)) as [r0 [s0 y]]. intros [= -> <-]. by exists y.
Qed.

(** Every step of the shell keeps the invariant. *)
Lemma step_keeps st st' : EInv st.1.1 -> epoch_step spec_of st st' -> EInv st'.1.1.
Proof.
  intros Hi [c Hok H]. destruct c; cbn [epoch_exec call_ok] in *;
    try (apply on_welfare_Ok in H as (y & H & _));
    repeat match goal with H : zoom_fst _ _ = (Ok _, _) |- _ => apply zoom_fst_Ok in H as [H _] end;
    try (apply ignore_Ok in H as [r H]).
  - inv_all. by apply sync_keeps.
  - by eapply submit_keeps.
  - by eapply (withdraw_keeps spec_of).
  - by eapply (tick_keeps spec_of).
  - by eapply (shrink_keeps spec_of).
  - destruct Hok as (p & Hp & Hm). apply proposal_Ok in Hp. by eapply (decide_keeps spec_of).
  - by apply settle_keeps in H.
  - by eapply set_length_keeps.
  - by eapply (delay_once_keeps spec_of).
  - by eapply (force_rerun_keeps spec_of).
  - by eapply (veto_keeps spec_of).
  - by eapply (mark_executed_keeps spec_of).
  - by eapply (mark_failed_keeps spec_of).
  - by eapply (retry_keeps spec_of).
  - by eapply (expire_keeps spec_of).
  - by eapply (force_keeps spec_of).
  - by eapply void_keeps.
  - apply finalize_frame in H. cbn in H. by rewrite H.
  - inv_all. by eapply (EInv_ext spec_of st.1.1).
  - inv_all. by apply reap_terminal_keeps.
Qed.

Lemma genesis_keeps : EInv (EpochState_new (A := A)).
Proof.
  split; [constructor|]. split; cbn; try done; try (by apply NoDup_nil); try (intros * Hx; by apply elem_of_nil in Hx).
  - lia.
  - intros pid. split; [by intros ?%elem_of_nil|by intros (p & ? & _)].
  - lia.
  - lia.
Qed.

Lemma reachable_keeps st : epoch_reachable spec_of st -> EInv st.1.1.
Proof. induction 1 as [x y|st st' _ IH Hs]; [apply genesis_keeps|by eapply step_keeps]. Qed.

End system.

End cohorts.
