(* ===== verification/EpochCheck.v ===== *)
(** * The runtime checker of the epoch core against the invariant

    On a state with the invariant, the checker passes exactly when the number
    of live proposals is within its bound. *)

From S2P Require Import Prelude Keyed Primitives Proposals Epoch EpochDecide EpochCalls EpochInv.

Section check.
Context {A : Type} `{EqDecision A}.
Variable spec_of : EpochId -> MetricSpecVersion.

Implicit Types (s : EpochState A) (p : Proposal A) (pid : ProposalId).

Abbreviation EInv := (EInv spec_of).

Definition live_count s : nat := length (filter (fun p => is_live_state (pp_state p) = true) (es_proposals s)).

(** [existsb] over the table, as a lookup. *)
Lemma existsb_row s pid (f : Proposal A -> bool) p :
  lk s pid = Some p -> f p = true -> existsb (fun p => (pp_id p =? pid) && f p) (es_proposals s) = true.
Proof.
  intros [Hid Hin]%find_key_Some Hf. apply existsb_exists. exists p. rewrite <- list_elem_of_In. split; [done|].
  by rewrite Hid, Z.eqb_refl, Hf.
Qed.

Lemma NoDup_length_sub {T} (l l' : list T) : NoDup l -> (forall x, x ∈ l -> x ∈ l') -> (length l <= length l')%nat.
Proof. intros Hn Hs. by apply submseteq_length, NoDup_submseteq. Qed.

(** The submitted proposals are those of the queue. *)
Lemma intake_bound s :
  EInv s -> (length (filter (fun p => pp_state p = Submitted \/ pp_state p = Screening) (es_proposals s))
             <= length (es_intake_queue s))%nat.
Proof.
  intros Hi. pose proof Hi as [Hn []]. rewrite <- (length_fmap pp_id). apply NoDup_length_sub.
  - by apply (keys_filter_NoDup pp_id).
  - intros x (p & -> & [Hp Hin]%list_elem_of_filter)%list_elem_of_fmap. apply ei_queue. exists p.
    apply (elem_lk spec_of s p Hi) in Hin. split; [done|]. destruct Hp as [?|Hp]; [done|].
    destruct (sh_state _ _ (ei_shape _ _ Hin)) as [E|[E|E]]; by rewrite Hp in E.
Qed.

Lemma rollovers_bound s : EInv s -> (length (es_rollovers s) <= length (es_intake_queue s))%nat.
Proof.
  intros [Hn []]. rewrite <- (length_fmap fst). apply NoDup_length_sub; [done|].
  intros x (r & -> & Hr)%list_elem_of_fmap. by apply ei_queue, ei_rolls.
Qed.

Lemma proposal_passes s p : EInv s -> p ∈ es_proposals s -> check_proposal p = Ok tt.
Proof.
  intros Hi Hin. apply (elem_lk spec_of s p Hi) in Hin. pose proof (lk_shape spec_of s _ p Hi Hin) as [].
  unfold check_proposal. rewrite ensure_true by by apply Nat.leb_le. cbn [rbind].
  destruct (pp_state p) eqn:E; try done; rewrite ?sh_traded by done; try done;
    destruct sh_state as [Hs|[Hs|Hs]]; done.
Qed.

Lemma cohort_passes s c : EInv s -> c ∈ es_cohorts s -> check_cohort s c = Ok tt.
Proof.
  intros Hi Hc. pose proof Hi as [Hn []]. pose proof (ei_cohorts c Hc) as [].
  unfold check_cohort. rewrite ensure_true; cbn [rbind].
  2: { apply andb_true_intro. split; [by apply Nat.leb_le|]. apply forallb_forall. intros x Hx%list_elem_of_In.
       destruct (co_members x Hx) as (p & Hp & _ & He). eapply (existsb_row s x (fun p => pp_epoch p =? ci_epoch c)); [done|lia]. }
  assert (E : match ci_status c with
              | CSettling cursor => ensure (Z.to_nat cursor <=? S (length (ci_proposals c)))%nat EpTryStateViolation
              | _ => Ok tt end = Ok tt).
  { destruct (ci_status c) as [k| |n| |] eqn:Hs; try done. by apply ensure_true, Nat.leb_le, co_cursor. }
  rewrite E. cbn [rbind]. destruct (ci_proposals c) as [|first l] eqn:Hl; [done|]. cbn [head mbind option_bind].
  destruct (co_members first ltac:(left)) as (q & Hq & Hqs & Hqe). unfold lk in Hq. rewrite Hq. fold (lk s first) in Hq.
  apply ensure_true, forallb_forall. intros x Hx%list_elem_of_In. destruct (co_members x Hx) as (p & Hp & Hps & Hpe).
  eapply (existsb_row s x (fun p => pp_metric_spec p =? pp_metric_spec q)); [done|].
  rewrite (sh_spec _ _ (ei_shape _ _ Hp)) by (left; by rewrite Hps).
  rewrite (sh_spec _ _ (ei_shape _ _ Hq)) by (left; by rewrite Hqs). rewrite Hpe, Hqe. apply Z.eqb_refl.
Qed.

Lemma for_each_all {E T} (f : T -> Result E unit) (l : list T) :
  (forall x, x ∈ l -> f x = Ok tt) -> for_each f l = Ok tt.
Proof.
  induction l as [|x l IH]; intros Hf; [done|]. cbn. rewrite Hf by by left. cbn. apply IH. intros y Hy. apply Hf. by right.
Qed.

Lemma try_state_live s : EInv s -> epoch_try_state s = Ok tt <-> (live_count s <= MAX_LIVE_PROPOSALS)%nat.
Proof.
  intros Hi. pose proof (intake_bound s Hi) as Hib. pose proof (rollovers_bound s Hi) as Hrb.
  pose proof Hi as [Hn []]. pose proof ei_lengths as [_ [Hl1 Hl2] [Hl3 Hl4]].
  unfold epoch_try_state. cbv zeta. fold (live_count s). split.
  - intros Ht. inv_ep. done.
  - intros Hlive. rewrite ensure_true; cbn [rbind].
    2: { rewrite !andb_true_iff, !Nat.leb_le, !Z.leb_le, !Z.eqb_eq. split_and!; try done; try lia.
         destruct (es_recovery_epoch s) as [r|] eqn:Hr; [|done]. apply Z.eqb_eq. auto. }
    rewrite ensure_true; cbn [rbind].
    2: { unfold no_dup_b. rewrite !andb_true_iff, !bool_decide_eq_true. split_and!; try done.
         apply forallb_forall. intros x Hx%list_elem_of_In. apply ei_queue in Hx as (p & Hp & Hs).
         eapply (existsb_row s x (fun p => bool_decide (pp_state p = Submitted))); [done|by rewrite bool_decide_eq_true]. }
    rewrite ensure_true; cbn [rbind].
    2: { rewrite andb_true_iff, Nat.leb_le. split; [done|]. apply forallb_forall. intros c Hc%list_elem_of_In.
         apply ei_cohorts, Hc. }
    rewrite for_each_all by (intros; by apply (proposal_passes s)). cbn [rbind].
    rewrite ensure_true; cbn [rbind].
    2: { unfold no_dup_b. rewrite andb_true_iff, bool_decide_eq_true. split; [|done].
         apply forallb_forall. intros r Hr%list_elem_of_In. apply ei_rolls in Hr as [-> (p & Hp & Hs)]. cbn.
         eapply (existsb_row s r.1 (fun p => bool_decide (pp_state p = Submitted))); [done|by rewrite bool_decide_eq_true]. }
    rewrite for_each_all by (intros; by apply cohort_passes). cbn [rbind].
    apply ensure_true. unfold no_dup_b. rewrite andb_true_iff, bool_decide_eq_true. split; [done|].
    apply forallb_forall. intros r Hr%list_elem_of_In. apply ei_locks in Hr as (p & Hp & _).
    apply existsb_exists. exists p. rewrite <- list_elem_of_In. apply find_key_Some in Hp as [Hp Hin].
    split; [done|]. by rewrite Hp, Z.eqb_refl.
Qed.

End check.
