(* ===== verification/EpochBudget.v ===== *)
(** * One-shot flags: each allowance of a proposal is used at most once

    A flag of a proposal ([extended], [delayed_once]) guards an event of the
    log. The budget of a proposal counts the events that name it, its rows
    without the flag, and one for an id not yet admitted; no operation
    increases it. The proof follows the structure of the operations. *)

From S2P Require Import Prelude Keyed Primitives Proposals Epoch EpochDecide EpochCalls EpochEngine EpochClock EpochSettle EpochSystem EpochInv EpochSteps EpochTick.

Section budget.
Context {A : Type} `{EqDecision A}.

(** The flag, and the proposal whose allowance an event uses. *)
Variable flag : Proposal A -> bool.
Variable uses : EpochEvent -> option ProposalId.

Implicit Types (s : EpochState A) (p : Proposal A) (pid x : ProposalId).

Definition used x s : nat := length (filter (fun e => uses e = Some x) (es_events s)).
Definition open_row x p : bool := (pp_id p =? x) && negb (flag p).
Definition open_rows x (l : list (Proposal A)) : nat := length (filter (fun p => open_row x p = true) l).
Definition budget x s : nat :=
  (used x s + open_rows x (es_proposals s) + (if (es_proposal_id_high_water s <? x)%Z then 1 else 0))%nat.

(** Whatever it returns, the method spends and does not earn. *)
Definition spends {R} (m : ST (EpochState A) EpochError R) : Prop :=
  forall s, forall x, (budget x (m s).2 <= budget x s)%nat.

Definition spends_fst {X R} (m : ST (EpochState A * X) EpochError R) : Prop :=
  forall st, forall x, (budget x (m st).2.1 <= budget x st.1)%nat.

(** ** Composition *)

Lemma spends_bind {R R'} (m : ST (EpochState A) EpochError R) (k : R -> ST (EpochState A) EpochError R') :
  spends m -> (forall r, spends (k r)) -> spends (bind m k).
Proof.
  intros Hm Hk s x. unfold bind. specialize (Hm s x). destruct (m s) as [[r|e] s1]; cbn in *; [|done].
  specialize (Hk r s1 x). lia.
Qed.

Lemma spends_bind_fst {X R R'} (m : ST (EpochState A * X) EpochError R) (k : R -> ST (EpochState A * X) EpochError R') :
  spends_fst m -> (forall r, spends_fst (k r)) -> spends_fst (bind m k).
Proof.
  intros Hm Hk s x. unfold bind. specialize (Hm s x). destruct (m s) as [[r|e] s1]; cbn in *; [|done].
  specialize (Hk r s1 x). lia.
Qed.

Lemma spends_zoom {X R} (m : ST (EpochState A) EpochError R) : spends m -> spends_fst (X := X) (zoom_fst m).
Proof. intros Hm st x. unfold zoom_fst. specialize (Hm st.1 x). destruct (m st.1). done. Qed.

Lemma spends_zoom_snd {X R} (m : ST X EpochError R) : spends_fst (zoom_snd m).
Proof. intros st x. unfold zoom_snd. by destruct (m st.2). Qed.

Lemma spends_for_each {T} (f : T -> ST (EpochState A) EpochError unit) (l : list T) :
  (forall y, spends (f y)) -> spends (for_each_st f l).
Proof. intros Hf. induction l as [|y l IH]; [by intros s x|]. by apply spends_bind. Qed.

Lemma spends_for_each_fst {X T} (f : T -> ST (EpochState A * X) EpochError unit) (l : list T) :
  (forall y, spends_fst (f y)) -> spends_fst (for_each_st f l).
Proof. intros Hf. induction l as [|y l IH]; [by intros s x|]. by apply spends_bind_fst. Qed.

Lemma spends_modify f : (forall s x, (budget x (f s) <= budget x s)%nat) -> spends (modify f).
Proof. intros Hf s x. apply Hf. Qed.

Lemma spends_reads {R} (f : EpochState A -> Result EpochError R) : spends (reads f).
Proof. intros s x. unfold reads. by destruct (f s). Qed.

Lemma spends_lift {R} (r : Result EpochError R) : spends (lift r).
Proof. by intros s x. Qed.

Lemma spends_get : spends (get (E := EpochError)).
Proof. by intros s x. Qed.

Lemma spends_ret {R} (r : R) : spends (ret r).
Proof. by intros s x. Qed.

Lemma spends_throw {R} (e : EpochError) : spends (throw (A := R) e).
Proof. by intros s x. Qed.

Lemma spends_lift_fst {X R} (r : Result EpochError R) : spends_fst (X := X) (lift r).
Proof. by intros s x. Qed.

Lemma spends_ret_fst {X R} (r : R) : spends_fst (X := X) (ret r).
Proof. by intros s x. Qed.

Lemma spends_throw_fst {X R} (e : EpochError) : spends_fst (X := X) (throw (A := R) e).
Proof. by intros s x. Qed.

(** ** Writes *)

(** An event that uses nothing. *)
Lemma budget_event e s x : uses e = None -> budget x (push_event e s) = budget x s.
Proof.
  intros He. unfold budget, used, push_event. cbn [es_events es_proposals es_proposal_id_high_water set_events set_proposals].
  rewrite filter_app, filter_cons_False by congruence. by rewrite app_nil_r.
Qed.

(** Rows that keep their id and do not lose the flag. *)
Definition one_way (f : Proposal A -> Proposal A) : Prop :=
  forall p, pp_id (f p) = pp_id p /\ (flag p = true -> flag (f p) = true).

Lemma open_rows_fmap f x l : one_way f -> (open_rows x (f <$> l) <= open_rows x l)%nat.
Proof.
  intros Hf. unfold open_rows, open_row. induction l as [|p l IH]; [done|]. cbn [fmap list_fmap].
  rewrite !filter_cons. destruct (Hf p) as [-> Hfl].
  destruct (pp_id p =? x), (flag p), (flag (f p)); cbn [andb negb length]; try (by specialize (Hfl eq_refl));
    repeat (destruct (decide _); try done); cbn [length]; lia.
Qed.

Lemma open_rows_alter f x pid l : one_way f -> (open_rows x (alter_key pp_id pid f l) <= open_rows x l)%nat.
Proof.
  intros Hf. unfold open_rows, open_row. induction l as [|p l IH]; [done|]. cbn [alter_key].
  destruct (decide (pp_id p = pid)); rewrite !filter_cons; [|destruct (decide _); cbn [length]; lia].
  destruct (Hf p) as [-> Hfl].
  destruct (pp_id p =? x), (flag p), (flag (f p)); cbn [andb negb length]; try (by specialize (Hfl eq_refl));
    repeat (destruct (decide _); try done); cbn [length]; lia.
Qed.

(** Setting the flag of a row without it frees one. *)
Lemma open_rows_set f pid p l :
  one_way f -> find_key pp_id pid l = Some p -> flag p = false -> flag (f p) = true ->
  forall x, (open_rows x (alter_key pp_id pid f l) + (if decide (x = pid) then 1 else 0) <= open_rows x l)%nat.
Proof.
  intros Hf Hp Hfl Hft x. destruct (decide (x = pid)) as [->|Hx].
  2: { rewrite Nat.add_0_r. by apply open_rows_alter. }
  unfold open_rows, open_row. induction l as [|q l IH]; [done|]. cbn in Hp. cbn [alter_key].
  destruct (decide (pp_id q = pid)) as [E|E].
  - injection Hp as ->. rewrite !filter_cons. destruct (Hf p) as [-> _]. rewrite Hfl, Hft, E, Z.eqb_refl.
    cbn [andb negb]. rewrite decide_False, decide_True by done. cbn [length]. lia.
  - specialize (IH Hp). rewrite !filter_cons, (proj2 (Z.eqb_neq _ _) E).
    cbn [andb]. rewrite !decide_False by done. exact IH.
Qed.

Lemma open_rows_filter (P : Proposal A -> Prop) `{forall p, Decision (P p)} x l :
  (open_rows x (filter P l) <= open_rows x l)%nat.
Proof.
  unfold open_rows. induction l as [|p l IH]; [done|]. rewrite (filter_cons P). rewrite (filter_cons _ p l).
  destruct (decide (P p)), (decide (open_row x p = true)); rewrite ?filter_cons, ?decide_True, ?decide_False by done;
    cbn; lia.
Qed.

Lemma budget_rows s l x :
  (open_rows x l <= open_rows x (es_proposals s))%nat -> (budget x (set_proposals l s) <= budget x s)%nat.
Proof. unfold budget, used. cbn [es_events es_proposals es_proposal_id_high_water set_events set_proposals]. lia. Qed.

Lemma spends_mut pid f : one_way f -> spends (proposal_mut pid f).
Proof.
  intros Hf s x. unfold proposal_mut, bind, reads, modify. destruct (proposal pid s); cbn; [|done].
  by apply budget_rows, open_rows_alter.
Qed.

(** The guarded use of an allowance: no flag, then the flag and its event. *)
Lemma spends_use pid f e p s x :
  one_way f -> find_key pp_id pid (es_proposals s) = Some p -> flag p = false -> flag (f p) = true ->
  uses e = Some pid ->
  (budget x (push_event e (set_proposals (alter_key pp_id pid f (es_proposals s)) s)) <= budget x s)%nat.
Proof.
  intros Hf Hp Hfl Hft He. pose proof (open_rows_set f pid p _ Hf Hp Hfl Hft x) as Hr.
  unfold budget, used, push_event. cbn [es_events es_proposals es_proposal_id_high_water set_events set_proposals].
  rewrite filter_app, length_app, filter_cons, He.
  destruct (decide (x = pid)) as [->|Hx]; [rewrite decide_True by done|rewrite decide_False by congruence]; cbn [length filter list_filter] in *; lia.
Qed.

End budget.

(** ** No operation of the epoch core earns an allowance

    The one extension and the one delay of a proposal, over every operation
    of the epoch core and every step of the shell. *)

(** The allowances of a proposal. *)
Inductive Allowance := Extension | Delay.

Section once.
Context {A : Type} `{EqDecision A}.
Variable a : Allowance.

Definition flag_of (p : Proposal A) : bool := match a with Extension => pp_extended p | Delay => pp_delayed_once p end.
Definition uses_of (e : EpochEvent) : option ProposalId :=
  match a, e with
  | Extension, EpDecisionExtended pid => Some pid
  | Delay, EpProposalDelayed pid _ => Some pid
  | _, _ => None
  end.

Implicit Types (s : EpochState A) (p : Proposal A) (pid x : ProposalId).

Abbreviation budget := (budget flag_of uses_of).
Abbreviation spends := (spends flag_of uses_of).
Abbreviation spends_fst := (spends_fst flag_of uses_of).
Abbreviation one_way := (one_way flag_of).

(** Same rows, same events, same high water. *)
Lemma budget_same s s' x :
  es_events s' = es_events s -> es_proposals s' = es_proposals s ->
  es_proposal_id_high_water s' = es_proposal_id_high_water s -> budget x s' = budget x s.
Proof. intros E1 E2 E3. unfold budget, used. by rewrite E1, E2, E3. Qed.

Ltac way := intros ?; unfold flag_of; destruct a; by cbn.

Ltac spend :=
  repeat match goal with
  | |- forall _, _ => intros ?
  | |- EpochBudget.spends _ _ (let _ := _ in _) => cbv zeta
  | |- EpochBudget.spends _ _ (bind _ _) => apply spends_bind
  | |- EpochBudget.spends _ _ (lift _) => apply spends_lift
  | |- EpochBudget.spends _ _ (reads _) => apply spends_reads
  | |- EpochBudget.spends _ _ get => apply spends_get
  | |- EpochBudget.spends _ _ (ret _) => apply spends_ret
  | |- EpochBudget.spends _ _ (throw _) => apply spends_throw
  | |- EpochBudget.spends _ _ (for_each_st _ _) => apply spends_for_each
  | |- EpochBudget.spends _ _ (proposal_mut _ _) => apply spends_mut; way
  | |- EpochBudget.spends _ _ (modify (push_event _)) =>
      apply spends_modify; intros; apply Nat.eq_le_incl, budget_event; unfold uses_of; by destruct a
  | |- EpochBudget.spends _ _ (modify _) =>
      apply spends_modify; intros; apply Nat.eq_le_incl, budget_same; done
  | |- EpochBudget.spends _ _ (if ?b then _ else _) => destruct b
  | |- EpochBudget.spends _ _ (match ?b with _ => _ end) => destruct b
  | |- EpochBudget.spends_fst _ _ (bind _ _) => apply spends_bind_fst
  | |- EpochBudget.spends_fst _ _ (lift _) => apply spends_lift_fst
  | |- EpochBudget.spends_fst _ _ (ret _) => apply spends_ret_fst
  | |- EpochBudget.spends_fst _ _ (throw _) => apply spends_throw_fst
  | |- EpochBudget.spends_fst _ _ (zoom_fst _) => apply spends_zoom
  | |- EpochBudget.spends_fst _ _ (zoom_snd _) => apply spends_zoom_snd
  | |- EpochBudget.spends_fst _ _ (for_each_st _ _) => apply spends_for_each_fst
  | |- EpochBudget.spends_fst _ _ (if ?b then _ else _) => destruct b
  | |- EpochBudget.spends_fst _ _ (match ?b with _ => _ end) => destruct b
  end.

(** ** Operations without an environment *)

Lemma cancel_spends pid reason slash : spends (cancel pid reason slash).
Proof. unfold cancel. spend. Qed.

Lemma rollover_spends pid : spends (rollover_or_refund pid).
Proof. unfold rollover_or_refund. spend. Qed.

Lemma qualify_spends origin pid check spec params : spends (qualify origin pid check spec params).
Proof. unfold qualify. spend; first [apply cancel_spends|apply rollover_spends]. Qed.

Lemma shrink_spends origin budget commitments : spends (shrink_qualified_slots origin budget commitments).
Proof. unfold shrink_qualified_slots, drop_slot. spend. apply rollover_spends. Qed.

Lemma withdraw_spends origin pid who : spends (withdraw origin pid who).
Proof. unfold withdraw. spend. Qed.

Lemma set_length_spends origin len params : spends (set_next_epoch_length origin len params).
Proof. unfold set_next_epoch_length. spend. Qed.

Lemma force_rerun_spends origin pid now : spends (force_rerun origin pid now).
Proof. unfold force_rerun. spend. Qed.

Lemma schedule_rerun_spends origin pid : spends (schedule_rerun origin pid).
Proof. unfold schedule_rerun. spend. Qed.

Lemma open_rerun_spends origin pid now : spends (open_rerun origin pid now).
Proof. unfold open_rerun. spend. Qed.

Lemma mark_failed_spends origin pid : spends (mark_failed_executed origin pid).
Proof. unfold mark_failed_executed. spend. Qed.

Lemma start_measurement_spends pid : spends (start_measurement pid).
Proof. unfold start_measurement. spend. Qed.

Lemma queue_spends pid now params : spends (queue_proposal pid now params).
Proof. unfold queue_proposal. spend. Qed.

(** ** The two uses *)

Lemma extend_spends pid : spends (extend_proposal pid).
Proof.
  intros s x. unfold extend_proposal.
  unfold bind at 1, reads at 1. destruct (proposal pid s) as [p|] eqn:Hp; [|done].
  unfold proposal in Hp. apply ok_or_Ok in Hp.
  unfold bind at 1. unfold lift at 1, ensure. destruct (negb (pp_extended p)) eqn:Hn; [|done]. apply negb_true_iff in Hn.
  set (f := fun p => set_state Extended (set_extended true p)).
  assert (Hf : one_way f) by way.
  unfold bind at 1. unfold proposal_mut at 1, bind at 1, reads at 1, modify at 1, proposal. rewrite Hp. cbn [ok_or].
  set (s1 := set_proposals _ s).
  assert (H1 : (budget x s1 <= budget x s)%nat) by by apply budget_rows, open_rows_alter.
  unfold bind at 1, lift. destruct (ok_or _ _) as [at_|]; [|exact H1].
  unfold bind, proposal_mut, bind, reads, modify. destruct (proposal pid s1); [|exact H1]. cbn [snd].
  set (g := set_decide_at at_). assert (Hg : one_way g) by way.
  destruct (decide (uses_of (EpDecisionExtended pid) = Some pid)) as [Hu|Hu].
  - assert (Hflag : flag_of p = false /\ flag_of (f p) = true) by (unfold uses_of, flag_of in *; by destruct a).
    etrans; [|apply (spends_use flag_of uses_of pid f (EpDecisionExtended pid) p s x Hf Hp); [apply Hflag|apply Hflag|done]].
    change (push_event ?e (set_proposals ?l ?t)) with (set_proposals l (push_event e t)).
    by apply budget_rows, open_rows_alter.
  - rewrite budget_event by (unfold uses_of in *; by destruct a). etrans; [by apply budget_rows, open_rows_alter|done].
Qed.

Lemma delay_spends origin pid h : spends (delay_once origin pid h).
Proof.
  intros s x. unfold delay_once.
  unfold bind at 1, lift at 1. destruct (ensure_origin _ _); [|done].
  unfold bind at 1, reads at 1. destruct (proposal pid s) as [p|] eqn:Hp; [|done].
  unfold proposal in Hp. apply ok_or_Ok in Hp.
  unfold bind at 1. unfold lift at 1, ensure. destruct (_ && negb _) eqn:Hn; [|done].
  apply andb_prop in Hn as [_ Hn%negb_true_iff].
  set (f := fun p => set_state Suspended (set_delayed_once true p)).
  assert (Hf : one_way f) by way.
  unfold bind, proposal_mut, bind, reads, modify, proposal. rewrite Hp. cbn [ok_or snd].
  destruct (decide (uses_of (EpProposalDelayed pid h) = Some pid)) as [Hu|Hu].
  - apply (spends_use flag_of uses_of pid f _ p s x Hf Hp); [..|done]; unfold uses_of, flag_of in *; by destruct a.
  - rewrite budget_event by (unfold uses_of in *; by destruct a). by apply budget_rows, open_rows_alter.
Qed.

(** ** The clock, the engine and intake *)

Lemma sync_budget now s x : (budget x (sync_phase now s) <= budget x s)%nat.
Proof.
  assert (Hres : forall n, one_way (resume_proposal n)).
  { intros n p. unfold resume_proposal, flag_of. destruct a, (pp_state p) eqn:E; cbn; by rewrite ?E. }
  assert (Hcar : forall q i, one_way (carry_intake q i)).
  { intros q i p. unfold carry_intake, flag_of. destruct a, (_ && _); by cbn. }
  unfold sync_phase. destruct (_ || _); [done|]. destruct (latch_fields now s) as [c ->].
  etrans; [|apply Nat.eq_le_incl, (budget_same s (set_stale_cutoff c s)); done].
  generalize (set_stale_cutoff c s). clear s c. intros s.
  destruct (_ && negb _).
  - destruct (es_recovery_epoch s), (es_dead_man_paused_at s); (apply Nat.eq_le_incl, budget_same; done).
  - destruct (es_dead_man_paused_at s) as [at_|].
    + etrans; [|apply (budget_rows _ _ s (resume_proposal (sat_sub now at_) <$> es_proposals s)), open_rows_fmap, Hres].
      by apply Nat.eq_le_incl, budget_same.
    + set (crossed := _ <=? now). set (recovered := match es_recovery_epoch s with Some _ => _ | None => _ end).
      set (s1 := if crossed then _ else s).
      assert (H1 : budget x s1 = budget x s) by (unfold s1; destruct crossed; [by apply budget_same|done]).
      set (s2 := if crossed && recovered then _ else s1).
      assert (H2 : (budget x s2 <= budget x s)%nat).
      { unfold s2. destruct (_ && _); [|lia]. rewrite <- H1.
        etrans; [|apply Nat.eq_le_incl, (budget_same s1 (set_recovery_epoch None s1)); done].
        apply budget_rows, open_rows_fmap, Hcar. }
      clearbody s2. destruct (_ || _); [|done]. etrans; [|exact H2]. by apply Nat.eq_le_incl, budget_same.
Qed.

Lemma refresh_budget params s x : budget x (refresh_params params s) = budget x s.
Proof. by apply budget_same. Qed.

Lemma sync_spends now : spends (modify (sync_phase now)).
Proof. apply spends_modify. intros. apply sync_budget. Qed.

Lemma outcome_spends pid i guards params : spends (decision_outcome pid i guards params).
Proof.
  unfold decision_outcome, decide_engine, or_return, baseline_stage. spend.
Qed.

Lemma push_summary_spends epoch sc twap now voided pids : spends (push_summary epoch sc twap now voided pids).
Proof.
  unfold push_summary. spend. apply spends_modify. intros s x. apply Nat.eq_le_incl. destruct (_ =? _)%nat; by apply budget_same.
Qed.

Lemma reap_spends epoch pids : spends (modify (reap_cohort epoch pids)).
Proof.
  apply spends_modify. intros s x. unfold reap_cohort.
  etrans; [apply Nat.eq_le_incl, budget_same; done|]. etrans; [apply budget_rows, open_rows_filter|].
  apply Nat.eq_le_incl. by apply budget_same.
Qed.

Lemma clear_stale_spends : spends (modify maybe_clear_stale_epoch).
Proof.
  apply spends_modify. intros s x. apply Nat.eq_le_incl. unfold maybe_clear_stale_epoch.
  destruct (es_stale_epoch_cutoff s); [|done]. destruct (existsb _ _); [done|by apply budget_same].
Qed.

(** ** Calls with a ledger or with welfare *)

Section env.
Context {X : Type} `{!EpochLedger X} `{!WelfareOps X}.

Lemma open_markets_spends origin pid markets : spends_fst (open_markets origin pid markets).
Proof. unfold open_markets. spend. Qed.

Lemma force_spends origin pid : spends_fst (force_reject_process_hold origin pid).
Proof. unfold force_reject_process_hold. spend. apply clear_stale_spends. Qed.

Lemma force_void_spends pid : spends_fst (force_reject_if_cohort_void pid).
Proof. unfold force_reject_if_cohort_void. spend. apply force_spends. Qed.

Lemma reject_spends pid r : spends_fst (reject_to_measurement pid r).
Proof. unfold reject_to_measurement. spend; first [apply force_void_spends|apply start_measurement_spends]. Qed.

Lemma resolve_spends pid w mark : spends mark -> spends_fst (resolve_and_measure pid w mark).
Proof. intros Hm. unfold resolve_and_measure. spend; [exact Hm|apply start_measurement_spends]. Qed.

Lemma decide_spends origin pid now i guards params : spends_fst (decide_with origin pid now i guards params).
Proof.
  unfold decide_with. spend;
    first [apply sync_spends|apply force_spends|apply force_void_spends|apply outcome_spends|apply extend_spends
          |apply queue_spends|apply reject_spends].
Qed.

Lemma veto_spends origin pid : spends_fst (veto_upheld origin pid).
Proof. unfold veto_upheld. spend. apply reject_spends. Qed.

Lemma mark_executed_spends origin pid : spends_fst (mark_executed origin pid).
Proof. unfold mark_executed. spend; [apply force_void_spends|apply resolve_spends; spend]. Qed.

Lemma retry_spends origin pid : spends_fst (retry_exhausted_to_measurement origin pid).
Proof. unfold retry_exhausted_to_measurement. spend; [apply force_void_spends|apply resolve_spends; spend]. Qed.

Lemma expire_spends origin pid reason : spends_fst (expire_or_stale_queue origin pid reason).
Proof.
  unfold expire_or_stale_queue. spend; first [apply force_void_spends|apply reject_spends|apply resolve_spends; spend].
Qed.

Lemma tick_spends origin pid now input params : spends_fst (tick origin pid now input params).
Proof.
  unfold tick. spend;
    first [apply sync_spends|apply force_spends|apply cancel_spends|apply qualify_spends|apply open_markets_spends
          |apply expire_spends|apply schedule_rerun_spends|apply open_rerun_spends|apply retry_spends].
Qed.

Lemma settle_items_spends epoch spec pids count item score :
  spends_fst (settle_items epoch spec pids count item score).
Proof. revert item score. induction count as [|count IH]; intros item score; cbn [settle_items]; spend. apply IH. Qed.

Lemma settle_spends origin epoch batch twap now : spends_fst (settle_cohort origin epoch batch twap now).
Proof.
  unfold settle_cohort. spend; first [apply settle_items_spends|apply push_summary_spends|apply reap_spends].
Qed.

End env.

(** Admission opens one row, of an id above the high water. *)
Lemma submit_spends origin np params s x :
  flag_of np = false -> (budget x (submit origin np params s).2 <= budget x s)%nat.
Proof.
  intros Hnp. destruct (submit origin np params s) as [[[]|e] s'] eqn:H; cbn [snd].
  - unfold submit in H. inv_ep. rewrite budget_same with (s := push_event (EpProposalSubmitted (pp_id np))
      (set_high_water (pp_id np) (set_proposals (es_proposals s ++ [np]) s))) by done.
    rewrite budget_event by (unfold uses_of; by destruct a).
    unfold budget, used, open_rows. cbn [set_high_water set_proposals es_events es_proposals es_proposal_id_high_water].
    assert (E : open_row flag_of x np = (pp_id np =? x)) by (unfold open_row; by rewrite Hnp, andb_true_r).
    rewrite filter_app, length_app, filter_cons. cbn in *.
    destruct (Z.eqb_spec (pp_id np) x) as [Heq|Hne].
    + rewrite decide_True by done. cbn [length]. rewrite Heq, Z.ltb_irrefl. rewrite (proj2 (Z.ltb_lt _ _)) by lia. lia.
    + rewrite decide_False by congruence. cbn [length].
      destruct (Z.ltb_spec (pp_id np) x), (Z.ltb_spec (es_proposal_id_high_water s) x); lia.
  - unfold submit in H.
    assert (Hs : s' = s \/ s' = set_horizon_k (pa_horizon_k params) s).
    { unfold bind at 1, lift at 1 in H. destruct (ensure_origin _ _); [|injection H as _ <-; by left].
      unfold bind at 1, lift at 1 in H. destruct (validate params); [|injection H as _ <-; by left]. right.
      rewrite bind_modify, bind_get in H.
      repeat (unfold bind at 1, lift at 1 in H; destruct (ensure _ _) in H; [|by injection H as _ <-]). done. }
    destruct Hs as [->| ->]; [done|]. by apply Nat.eq_le_incl, budget_same.
Qed.

Section system.
Context {X Y : Type} `{!EpochLedger X} `{!WelfareOps Y}.
Variable spec_of : EpochId -> MetricSpecVersion.

Definition spends_both {R} (m : ST (EpochState A * X * Y) EpochError R) : Prop :=
  forall st x, (budget x (m st).2.1.1 <= budget x st.1.1)%nat.

Lemma both_bind {R R'} (m : ST (EpochState A * X * Y) EpochError R) (k : R -> ST (EpochState A * X * Y) EpochError R') :
  spends_both m -> (forall r, spends_both (k r)) -> spends_both (bind m k).
Proof.
  intros Hm Hk s x. unfold bind. specialize (Hm s x). destruct (m s) as [[r|e] s1]; cbn in *; [|done].
  specialize (Hk r s1 x). lia.
Qed.

Lemma both_zoom {R} (m : ST (EpochState A * X) EpochError R) : spends_fst m -> spends_both (zoom_fst m).
Proof. intros Hm st x. unfold zoom_fst. specialize (Hm st.1 x). by destruct (m st.1). Qed.

Lemma both_zoom_snd {R} (m : ST Y EpochError R) : spends_both (zoom_snd m).
Proof. intros st x. unfold zoom_snd. by destruct (m st.2). Qed.

Lemma both_welfare {R} (m : ST (EpochState A * Y) EpochError R) : spends_fst m -> spends_both (on_welfare m).
Proof. intros Hm st x. unfold on_welfare. specialize (Hm (st.1.1, st.2) x). by destruct (m _). Qed.

Lemma both_lift {R} (r : Result EpochError R) : spends_both (lift r).
Proof. by intros st x. Qed.

Lemma void_spends origin epoch now : spends_both (void_cohort origin epoch now).
Proof.
  unfold void_cohort, void_vault, void_proposal.
  repeat first [apply both_bind; [|intros]|apply both_lift|apply both_zoom_snd|apply both_zoom]; spend;
    first [apply push_summary_spends|apply reap_spends].
Qed.

Lemma ignore_spends {R} (m : ST (EpochState A) EpochError R) : spends m -> spends (ignore m).
Proof. intros Hm. unfold ignore. spend. exact Hm. Qed.

Lemma ignore_spends_fst {Z R} (m : ST (EpochState A * Z) EpochError R) : spends_fst m -> spends_fst (ignore m).
Proof. intros Hm. unfold ignore. spend. exact Hm. Qed.

(** No step of the shell earns an allowance. *)
Lemma step_spends st st' : epoch_step spec_of st st' -> forall x, (budget x st'.1.1 <= budget x st.1.1)%nat.
Proof.
  intros [c Hok Hc] x. assert (E : st' = (epoch_exec c st).2) by by rewrite Hc.
  enough (Hs : (budget x (epoch_exec c st).2.1.1 <= budget x st.1.1)%nat) by by rewrite E.
  clear E Hc st'. revert st Hok x.
  assert (Hself : forall c, (forall np params, c <> CallSubmit np params) -> spends_both (epoch_exec c)).
  { intros c' Hc. destruct c'; cbn [epoch_exec]; try by exfalso; eapply Hc.
    all: try apply void_spends; try apply both_welfare; try apply both_zoom; try apply spends_zoom;
      try apply ignore_spends; try apply ignore_spends_fst.
    all: first [apply sync_spends|apply withdraw_spends|apply tick_spends|apply shrink_spends|apply decide_spends
      |apply settle_spends|apply set_length_spends|apply delay_spends|apply force_rerun_spends|apply veto_spends
      |apply mark_executed_spends|apply mark_failed_spends|apply retry_spends|apply expire_spends|apply force_spends
      |by unfold finalize_epoch_baseline; spend|by spend
      |apply spends_modify; intros; apply budget_rows, open_rows_filter]. }
  intros st Hok x. destruct c; try by apply Hself.
  cbn [epoch_exec call_ok] in *. apply both_zoom, spends_zoom. intros s y. apply submit_spends.
  unfold flag_of. destruct a; apply Hok.
Qed.

Lemma used_once (st : EpochState A * X * Y) pid : epoch_reachable spec_of st -> (used uses_of pid st.1.1 <= 1)%nat.
Proof.
  intros Hr. enough (budget pid st.1.1 <= 1)%nat by (unfold EpochBudget.budget in *; lia).
  induction Hr as [y z|st st' _ IH Hs]; [|pose proof (step_spends _ _ Hs pid); lia].
  unfold EpochBudget.budget. cbn. case_match; lia.
Qed.

End system.

End once.
