(* ===== verification/EpochVaults.v ===== *)
(** * The epoch core on a ledger: a vault follows its proposal

    [EpochLedgerLaws] states what the epoch core relies on from the ledger, on
    the view of each proposal's vault: its state and its metric spec. The
    invariant [vaults_follow] ties that view to the state of the proposal. *)

From S2P Require Import Prelude Keyed Primitives Ledger LedgerVault LedgerInv LedgerSolvency LedgerOps LedgerProps LedgerSets Proposals Epoch EpochDecide EpochCalls EpochEngine EpochClock EpochSettle EpochSystem EpochInv EpochOps EpochSteps EpochTick EpochCohorts.

(** The vaults of a ledger. *)
Abbreviation vault_view := (ProposalId -> option (VaultState * MetricSpecVersion)).

(** [V] with the vault of [pid] in state [v]. *)
Definition put (pid : ProposalId) (v : VaultState * MetricSpecVersion) (V : vault_view) : vault_view :=
  fun q => if decide (q = pid) then Some v else V q.

Class EpochLedgerLaws (X : Type) `{!EpochLedger X} : Type := {
  el_inv : X -> Prop;
  vault_of : X -> vault_view;
  law_create pid spec x x' : el_inv x -> el_create_vault pid spec x = (Ok tt, x') ->
    el_inv x' /\ vault_of x pid = None /\ forall q, vault_of x' q = put pid (Open, spec) (vault_of x) q;
  law_resolve pid w x x' : el_inv x -> el_resolve pid w x = (Ok tt, x') ->
    el_inv x' /\ exists spec, vault_of x pid = Some (Open, spec)
      /\ forall q, vault_of x' q = put pid (Resolved w, spec) (vault_of x) q;
  law_void pid x x' : el_inv x -> el_void pid x = (Ok tt, x') ->
    el_inv x' /\ exists st spec, vault_of x pid = Some (st, spec) /\ (st = Open \/ exists w, st = Resolved w)
      /\ forall q, vault_of x' q = put pid (Voided, spec) (vault_of x) q;
}.

(** ** The conditional ledger fulfils the laws *)

(** [.map_err(|_| Error::Ledger)] *)
Definition ledger_err {S R} (m : ST S LedgerError R) : ST S EpochError R :=
  fun s => let (r, s') := m s in (map_err (fun _ => EpLedger) r, s').

Lemma ledger_err_Ok {S R} (m : ST S LedgerError R) s r s' : ledger_err m s = (Ok r, s') <-> m s = (Ok r, s').
Proof.
  unfold ledger_err. destruct (m s) as [[r0|e] s0]; cbn; split; congruence.
Qed.

Section ledger.
Context {A : Type} `{EqDecision A}.

#[export] Instance ledger_state_epoch_ops : EpochLedger (LedgerState A) := {|
  el_create_vault pid spec := ledger_err (create_vault pid spec);
  el_resolve pid w := ledger_err (resolve ResolveAuthority pid w);
  el_void pid := ledger_err (void ResolveAuthority pid);
|}.

Definition vault_state_of (l : LedgerState A) : vault_view :=
  fun pid => (fun v => (vi_state (vr_info v), vi_spec (vr_info v))) <$> find_key vr_proposal pid (ls_vaults l).

Lemma put_vault_view pid info v (l l' : LedgerState A) :
  find_key vr_proposal pid (ls_vaults l) = Some v -> ls_vaults l' = ls_vaults (put_vault pid info l) ->
  forall q, vault_state_of l' q = put pid (vi_state info, vi_spec info) (vault_state_of l) q.
Proof.
  intros Hv E q. unfold vault_state_of, put. rewrite E. cbn. destruct (decide (q = pid)) as [->|Hq].
  - by rewrite (find_key_alter_eq _ _ _ _ v).
  - by rewrite find_key_alter_ne by done.
Qed.

Lemma ledger_step_call c (x x' : LedgerState A) : reachable x -> LedgerProps.call_ok c -> exec c x = (Ok tt, x') -> reachable x'.
Proof. intros Hr Hc Hx. eapply rtc_r; [exact Hr|]. replace x' with (exec c x).2 by (by rewrite Hx). by constructor. Qed.

Lemma ledger_create pid spec (x x' : LedgerState A) :
  reachable x -> create_vault pid spec x = (Ok tt, x') ->
  reachable x' /\ vault_state_of x pid = None /\ forall q, vault_state_of x' q = put pid (Open, spec) (vault_state_of x) q.
Proof.
  intros Hr Hx. split; [by eapply (ledger_step_call (CCreateVault pid spec))|].
  unfold create_vault in Hx. inv_all.
  match goal with H : forallb _ _ = true |- _ => rename H into Hall end.
  assert (Hnone : find_key vr_proposal pid (ls_vaults x) = None).
  { apply find_key_None. intros (v & -> & Hv)%list_elem_of_fmap. rewrite forallb_forall in Hall.
    specialize (Hall v). rewrite <- list_elem_of_In in Hall. specialize (Hall Hv). lia. }
  split; [unfold vault_state_of; by rewrite Hnone|].
  intros q. unfold vault_state_of, put. cbn. rewrite find_key_app.
  destruct (decide (q = pid)) as [->|Hq].
  - rewrite Hnone. cbn. by rewrite decide_True.
  - destruct (find_key vr_proposal q (ls_vaults x)); [done|]. cbn. by rewrite decide_False by congruence.
Qed.

Lemma ledger_resolve pid w (x x' : LedgerState A) :
  reachable x -> resolve ResolveAuthority pid w x = (Ok tt, x') ->
  reachable x' /\ exists spec, vault_state_of x pid = Some (Open, spec)
    /\ forall q, vault_state_of x' q = put pid (Resolved w, spec) (vault_state_of x) q.
Proof.
  intros Hr Hx. split; [by eapply (ledger_step_call (CResolve ResolveAuthority pid w))|].
  pose proof (Inv_of_reachable _ Hr) as HI. body Hx HI @resolve.
  unfold resolve_vault, ensure_vault in Hbody. inv_all. subst.
  match goal with H : is_open _ = true |- _ => rename H into Ho end.
  assert (Hst : vi_state (vr_info v) = Open) by (by destruct (vi_state (vr_info v))).
  exists (vi_spec (vr_info v)). split; [unfold vault_state_of; by rewrite Hfind; cbn; rewrite Hst|].
  exact (put_vault_view pid _ v x x' Hfind Hv).
Qed.

Lemma ledger_void pid (x x' : LedgerState A) :
  reachable x -> void ResolveAuthority pid x = (Ok tt, x') ->
  reachable x' /\ exists st spec, vault_state_of x pid = Some (st, spec) /\ (st = Open \/ exists w, st = Resolved w)
    /\ forall q, vault_state_of x' q = put pid (Voided, spec) (vault_state_of x) q.
Proof.
  intros Hr Hx. split; [by eapply (ledger_step_call (LedgerProps.CVoid ResolveAuthority pid))|].
  pose proof (Inv_of_reachable _ Hr) as HI. body Hx HI @void.
  unfold Ledger.void_vault, ensure_vault in Hbody. inv_all. subst.
  assert (Ho : match vi_state (vr_info v) with Open | Resolved _ => true | _ => false end = true) by assumption.
  exists (vi_state (vr_info v)), (vi_spec (vr_info v)). split; [unfold vault_state_of; by rewrite Hfind|].
  split; [destruct (vi_state (vr_info v)); eauto; done|].
  exact (put_vault_view pid _ v x x' Hfind Hv).
Qed.

#[export] Program Instance ledger_state_epoch_laws : EpochLedgerLaws (LedgerState A) := {|
  el_inv := reachable;
  vault_of := vault_state_of;
|}.
Next Obligation. intros pid spec x x' Hr Hx. apply ledger_err_Ok in Hx. by apply ledger_create. Qed.
Next Obligation. intros pid w x x' Hr Hx. apply ledger_err_Ok in Hx. by apply ledger_resolve. Qed.
Next Obligation. intros pid x x' Hr Hx. apply ledger_err_Ok in Hx. by apply ledger_void. Qed.

End ledger.

(** ** Each vault follows its proposal

    The joint invariant of the epoch core and its ledger, over every operation
    of the epoch core. *)

(** A cohort of the epoch was voided. *)
Definition voided_epoch (recent : list CohortSummary) (epoch : EpochId) : bool :=
  existsb (fun c => (cs_epoch c =? epoch) && cs_voided c) recent.

(** What the vault of a measured proposal may say: the accept branch wins only
    if the decision was to adopt. *)
Definition verdict_ok (d : option DecisionOutcome) (w : Branch) : Prop := w = Accept -> d = Some Adopt.

Section follow.
Context {A : Type} `{EqDecision A}.

Implicit Types (s : EpochState A) (p : Proposal A) (pid : ProposalId) (V : vault_view).

Definition backed V (recent : list CohortSummary) p : Prop :=
  is_none (pp_markets p) = false ->
  match pp_state p with
  | Trading | Extended | Suspended | Rerun => V (pp_id p) = Some (Open, pp_metric_spec p)
  | Queued | FailedExecuted => V (pp_id p) = Some (Open, pp_metric_spec p) /\ pp_decision p = Some Adopt
  | Measuring =>
      (exists w, verdict_ok (pp_decision p) w
         /\ (V (pp_id p) = Some (Resolved w, pp_metric_spec p)
             \/ exists sc, V (pp_id p) = Some (ScalarSettled w sc, pp_metric_spec p)))
      /\ voided_epoch recent (pp_epoch p) = false
  | Rejected _ => V (pp_id p) = Some (Voided, pp_metric_spec p)
  | _ => True
  end.

Definition follows V s : Prop := forall pid p, lk s pid = Some p -> backed V (es_recent s) p.

(** ** Updates *)

Lemma follows_same V s s' :
  follows V s -> es_proposals s' = es_proposals s -> es_recent s' = es_recent s -> follows V s'.
Proof. intros Hj Ep Er pid p Hp. unfold lk in *. rewrite Ep in Hp. rewrite Er. by apply (Hj pid). Qed.

Lemma follows_ext V V' s : (forall q, V' q = V q) -> follows V s -> follows V' s.
Proof. intros E Hj pid p Hp. specialize (Hj pid p Hp). unfold backed in *. by rewrite !E. Qed.

Lemma follows_move V s s' pid f p :
  follows V s -> lk s pid = Some p -> pp_id (f p) = pp_id p ->
  es_proposals s' = alter_key pp_id pid f (es_proposals s) -> es_recent s' = es_recent s ->
  backed V (es_recent s) (f p) -> follows V s'.
Proof.
  intros Hj Hp Hf Ep Er Hb x q Hq. rewrite Er. unfold lk in Hq. rewrite Ep, (lk_alter s pid f p x Hp Hf) in Hq.
  destruct (decide (x = pid)); [by injection Hq as <-|by apply (Hj x)].
Qed.

(** The vault moves with its proposal. *)
Lemma follows_put V V' s s' pid f p v :
  follows V s -> lk s pid = Some p -> pp_id (f p) = pp_id p ->
  (forall q, V' q = put pid v V q) ->
  es_proposals s' = alter_key pp_id pid f (es_proposals s) -> es_recent s' = es_recent s ->
  backed V' (es_recent s) (f p) -> follows V' s'.
Proof.
  intros Hj Hp Hf HV Ep Er Hb x q Hq. rewrite Er. unfold lk in Hq. rewrite Ep, (lk_alter s pid f p x Hp Hf) in Hq.
  destruct (decide (x = pid)) as [->|Hx]; [by injection Hq as <-|].
  specialize (Hj x q Hq). apply lk_id in Hq. unfold backed in *. rewrite !HV. unfold put.
  rewrite !decide_False by congruence. done.
Qed.

(** Dropped rows. *)
Lemma follows_filter V s s' (P : Proposal A -> Prop) `{forall p, Decision (P p)} :
  NoDup (keys pp_id (es_proposals s)) -> follows V s -> es_proposals s' = filter P (es_proposals s) ->
  es_recent s' = es_recent s -> follows V s'.
Proof.
  intros Hn Hj Ep Er x q Hq. rewrite Er. unfold lk in Hq. rewrite Ep, find_key_filter in Hq by done.
  destruct (find_key pp_id x (es_proposals s)) as [q'|] eqn:Hx; [|done]. destruct (decide (P q')); [|done].
  injection Hq as <-. by apply (Hj x).
Qed.

(** A proposal without books is backed. *)
Lemma backed_early V recent p : is_none (pp_markets p) = true -> backed V recent p.
Proof. intros Hm Hm'. congruence. Qed.

(** ** Operations without a ledger *)

Variable spec_of : EpochId -> MetricSpecVersion.
Abbreviation EInv := (EInv spec_of).

Lemma early_books s pid p :
  EInv s -> lk s pid = Some p -> early_state (pp_state p) = true -> is_none (pp_markets p) = true.
Proof. intros Hi Hp Hs. by rewrite (sh_early _ _ (lk_shape spec_of s pid p Hi Hp)). Qed.

Ltac merge := repeat (cbn [es_proposals set_proposals]; rewrite alter_key_alter by done).

(** Applies [follows_move] to the proposal that the call has rewritten. *)
Ltac follow :=
  match goal with
  | Hj : follows ?V ?s, Hp : lk ?s ?pid = Some ?p |- follows ?V ?s' =>
      lazymatch s' with
      | context [alter_key pp_id pid ?f _] =>
          pose proof (Hj pid p Hp) as Hb;
          eapply (follows_move V s s' pid f p); [exact Hj|exact Hp|done|done|done|];
          unfold backed in *; cbn in *
      end
  end.

Lemma cancel_follows V pid reason slash s s' p :
  EInv s -> lk s pid = Some p -> pp_state p = Submitted -> cancel pid reason slash s = (Ok tt, s') ->
  follows V s -> follows V s'.
Proof.
  intros Hi Hp Hs H Hj. unfold cancel in H. inv_ep.
  assert (Hm : follows V (drop_rollover pid (drop_from_queue pid
    (set_proposals (alter_key pp_id pid (set_state Cancelled) (es_proposals s)) s)))) by by follow.
  destruct (0 <? slash); inv_ep; by eapply follows_same.
Qed.

Lemma withdraw_follows V origin pid who s s' :
  withdraw origin pid who s = (Ok tt, s') -> follows V s -> follows V s'.
Proof. intros H Hj. unfold withdraw in H. inv_ep. by follow. Qed.

Lemma delay_once_follows V origin pid h s s' :
  delay_once origin pid h s = (Ok tt, s') -> follows V s -> follows V s'.
Proof.
  intros H Hj. unfold delay_once in H. inv_ep. follow. rename select (pp_state _ = Queued) into Hs. rewrite Hs in Hb.
  intros Hm. by apply Hb.
Qed.

(** The state of the rewritten proposal, in its backing. *)
Ltac from_state :=
  match goal with
  | Hs : pp_state ?p = _, Hb : context [pp_state ?p] |- _ =>
      rewrite Hs in Hb; cbn in Hb; let Hm := fresh in intros Hm; first [by apply Hb|by destruct (Hb Hm)]
  end.

Lemma schedule_rerun_follows V origin pid s s' :
  schedule_rerun origin pid s = (Ok tt, s') -> follows V s -> follows V s'.
Proof. intros H Hj. unfold schedule_rerun in H. inv_ep. follow. from_state. Qed.

Lemma open_rerun_follows V origin pid now s s' :
  open_rerun origin pid now s = (Ok tt, s') -> follows V s -> follows V s'.
Proof. intros H Hj. unfold open_rerun in H. inv_ep. follow. from_state. Qed.

Lemma mark_failed_follows V origin pid s s' :
  mark_failed_executed origin pid s = (Ok tt, s') -> follows V s -> follows V s'.
Proof. intros H Hj. unfold mark_failed_executed in H. inv_ep. follow. from_state. Qed.

Lemma force_rerun_follows V origin pid now s s' :
  force_rerun origin pid now s = (Ok tt, s') -> follows V s -> follows V s'.
Proof.
  intros H Hj. unfold force_rerun in H. inv_ep. merge.
  match goal with Hl : lk s pid = Some ?q |- _ => rename q into p end.
  destruct (pp_state p) eqn:Hs; try done; follow; from_state.
Qed.

Lemma extend_follows V pid s s' p :
  lk s pid = Some p -> (pp_state p = Trading \/ pp_state p = Extended) ->
  extend_proposal pid s = (Ok tt, s') -> follows V s -> follows V s'.
Proof. intros Hp Hs H Hj. unfold extend_proposal in H. inv_ep. merge. destruct Hs; follow; from_state. Qed.

Lemma queue_follows V pid now params s s' p :
  lk s pid = Some p -> (pp_state p = Trading \/ pp_state p = Extended) ->
  queue_proposal pid now params s = (Ok tt, s') -> follows V s -> follows V s'.
Proof.
  intros Hp Hs H Hj. unfold queue_proposal in H. inv_ep. merge.
  destruct Hs as [Hs|Hs]; follow; rewrite Hs in Hb; intros Hm; by split; [apply Hb|].
Qed.

(** Applies [follows_move] to a proposal without books. *)
Ltac follow_early :=
  match goal with
  | Hj : follows ?V ?s, Hp : lk ?s ?pid = Some ?p |- follows ?V ?s' =>
      lazymatch s' with
      | context [alter_key pp_id pid ?f _] =>
          eapply (follows_move V s s' pid f p); [exact Hj|exact Hp|done|done|done|by apply backed_early]
      end
  end.

Lemma rollover_follows V pid s s' p :
  lk s pid = Some p -> is_none (pp_markets p) = true -> rollover_or_refund pid s = (Ok tt, s') ->
  follows V s -> follows V s'.
Proof.
  intros Hp Hm H Hj. unfold rollover_or_refund in H. inv_ep. destruct (_ =? 0); inv_ep.
  - match goal with H : context [bool_decide (pid ∈ _)] |- _ => rename H into Hq end.
    destruct (bool_decide _); inv_ep; follow_early.
  - follow_early.
Qed.

Lemma drop_slot_follows V pid s s' :
  EInv s -> drop_slot pid s = (Ok tt, s') -> follows V s -> follows V s'.
Proof.
  intros Hi H Hj. unfold drop_slot in H. inv_ep. named p Hp.
  assert (Hm : is_none (pp_markets p) = true).
  { eapply early_books; [done..|]. by match goal with E : pp_state p = _ |- _ => rewrite E end. }
  match goal with H : rollover_or_refund _ ?s1 = _ |- _ =>
    eapply (rollover_follows V pid s1 s' (set_decide_at 0 (set_state Submitted p))); [|done|exact H|] end.
  - unfold lk. cbn [es_proposals set_proposals]. rewrite (lk_alter s pid _ p) by done. by rewrite decide_True.
  - follow_early.
Qed.

Lemma shrink_follows V origin budget commitments s r s' :
  EInv s -> shrink_qualified_slots origin budget commitments s = (Ok r, s') -> follows V s -> follows V s'.
Proof.
  intros Hi H Hj. unfold shrink_qualified_slots in H. inv_ep.
  destruct (fit_budget _ _ _ _) as [funded [|x0 dropped]]; inv_ep; [done|].
  eapply (follows_same V x1); [|done..].
  eapply (for_each_keeps (fun s => EInv s /\ follows V s)); [|split; [exact Hi|exact Hj]|eassumption].
  intros pid a b [Hia Hja] Hx. split; [by eapply drop_slot_keeps|by eapply drop_slot_follows].
Qed.

Lemma qualify_follows V origin pid check spec params s s' :
  EInv s -> qualify origin pid check spec params s = (Ok tt, s') -> follows V s -> follows V s'.
Proof.
  intros Hi H Hj. unfold qualify in H. inv_ep. named p Hp.
  match goal with Hs : pp_state p = Submitted |- _ => rename Hs into Hst end.
  assert (Hm : is_none (pp_markets p) = true) by (eapply early_books; [done..|by rewrite Hst]).
  set (s1 := push_event (EpScreeningStarted pid) (set_horizon_k (pa_horizon_k params) s)) in *.
  assert (Hi1 : EInv s1) by by apply (EInv_ext spec_of s).
  assert (Hj1 : follows V s1) by by eapply follows_same.
  destruct check; [|by eapply (cancel_follows V _ _ _ s1)..].
  destruct (_ || _); [by eapply (rollover_follows V _ s1)|].
  destruct (negb _); [by eapply (rollover_follows V _ s1)|]. inv_ep.
  change (lk s pid = Some p) in Hp. follow_early.
Qed.

Lemma submit_follows V origin np params s s' :
  submit origin np params s = (Ok tt, s') -> fresh_proposal s np -> follows V s -> follows V s'.
Proof.
  intros H Hf Hj. unfold submit in H. inv_ep. intros x q Hq. unfold lk in Hq. cbn in *. rewrite find_key_app in Hq.
  destruct (find_key pp_id x (es_proposals s)) as [q'|] eqn:Hx; [injection Hq as <-; by apply (Hj x)|].
  cbn in Hq. destruct (decide _); [|done]. injection Hq as <-. apply backed_early. by rewrite (fp_markets _ _ Hf).
Qed.

End follow.
