(* ===== verification/EpochJoint.v ===== *)
(** * Each vault follows its proposal: the calls that reach the ledger

    Against the laws of [EpochLedgerLaws]; then the joint system, in which the
    ledger also moves on its own. *)

From S2P Require Import Prelude Keyed Primitives Ledger Proposals Epoch EpochDecide EpochCalls EpochEngine EpochClock EpochSettle EpochSystem EpochInv EpochOps EpochSteps EpochTick EpochCohorts EpochVaults.

(** A conditional call of the ledger. *)
Lemma ledger_when_both {S X} (b : bool) (m : ST X EpochError unit) (st st' : S * X) :
  (if b then zoom_snd m else ret tt) st = (Ok tt, st') ->
  st'.1 = st.1 /\ (if b then m else ret tt) st.2 = (Ok tt, st'.2).
Proof. destruct b; intros Hm; inv_all; [by apply zoom_snd_Ok in Hm as [-> ->]|done]. Qed.

Lemma ledger_unless_both {S X} (b : bool) (m : ST X EpochError unit) (st st' : S * X) :
  (if b then ret tt else zoom_snd m) st = (Ok tt, st') ->
  st'.1 = st.1 /\ (if b then ret tt else m) st.2 = (Ok tt, st'.2).
Proof. destruct b; intros Hm; inv_all; [done|by apply zoom_snd_Ok in Hm as [-> ->]]. Qed.

(** The clock keeps the summaries. *)
Lemma sync_recent {A} now (s : EpochState A) : es_recent (sync_phase now s) = es_recent s.
Proof.
  unfold sync_phase. destruct (_ || _); [done|]. destruct (latch_fields now s) as [c ->].
  destruct (_ && negb _); cbn [es_recovery_epoch es_dead_man_paused_at set_stale_cutoff].
  - by destruct (es_recovery_epoch s), (es_dead_man_paused_at s).
  - destruct (es_dead_man_paused_at s) as [at_|]; [done|].
    set (crossed := _ <=? now). destruct (crossed && _), crossed, (_ || _); done.
Qed.

Section joint.
Context {A : Type} `{EqDecision A} {X : Type} `{!EpochLedger X} `{!EpochLedgerLaws X}.
Variable spec_of : EpochId -> MetricSpecVersion.

Implicit Types (s : EpochState A) (p : Proposal A) (pid : ProposalId) (st : EpochState A * X).

Abbreviation EInv := (EInv spec_of).

Definition sound st : Prop := el_inv st.2 /\ follows (vault_of st.2) st.1.

(** Takes the states of a call apart. *)
Ltac pairs :=
  repeat match goal with
  | H : (if _ then zoom_snd _ else ret tt) _ = (Ok tt, _) |- _ => apply ledger_when_both in H as [? H]
  | H : (if _ then ret tt else zoom_snd _) _ = (Ok tt, _) |- _ => apply ledger_unless_both in H as [? H]
  end;
  repeat match goal with x : EpochState A * X |- _ => destruct x end; cbn [fst snd] in *; subst; same_proposal.

Lemma sound_state s s' (x : X) : (follows (vault_of x) s -> follows (vault_of x) s') -> sound (s, x) -> sound (s', x).
Proof. intros Hs [Hx Hj]. split; [done|by apply Hs]. Qed.

Lemma put_eq pid v V : put pid v V pid = Some v.
Proof. unfold put. by rewrite decide_True. Qed.

Lemma open_markets_sound origin pid markets st st' :
  EInv st.1 -> sound st -> open_markets origin pid markets st = (Ok tt, st') -> sound st'.
Proof.
  intros Hi [Hx Hj] H. unfold open_markets in H. inv_ep. pairs. named p Hp.
  match goal with H : (if bool_decide _ then _ else _) _ = _ |- _ => rename H into Hc end.
  destruct (bool_decide (pp_state p = Qualified)) eqn:Hb; inv_ep; pairs.
  - match goal with H : el_create_vault _ _ _ = _ |- _ => apply law_create in H as (Hx' & _ & HV); [|done] end.
    split; [done|]. cbn [fst snd].
    eapply (follows_put (vault_of _) _ _ _ pid (fun p => set_state Trading (set_pp_markets (Some markets) p)) p);
      [exact Hj|exact Hp|done|exact HV|done|done|].
    intros _. cbn. rewrite (lk_id _ _ _ Hp), HV, put_eq. done.
  - split; [done|]. cbn [fst snd]. pose proof (Hj pid p Hp) as Hbk.
    eapply (follows_move _ _ _ pid (fun p => set_state Trading (set_pp_markets (Some markets) p)) p);
      [exact Hj|exact Hp|done|done|done|].
    assert (Hs : pp_state p = Rerun) by (destruct (pp_state p); done).
    unfold backed in *. rewrite Hs in Hbk. intros _. cbn. apply Hbk.
    eapply (traded_books spec_of); [exact Hi|exact Hp|by rewrite Hs].
Qed.

(** The vault of a proposal with books has its metric spec. *)
Lemma backed_spec s V pid p v spec :
  EInv s -> follows V s -> lk s pid = Some p -> is_none (pp_markets p) = false -> V pid = Some (v, spec) ->
  spec = pp_metric_spec p.
Proof.
  intros Hi Hj Hp Hm Hv. specialize (Hj pid p Hp Hm). rewrite (lk_id _ _ _ Hp), Hv in Hj.
  pose proof (lk_shape spec_of _ pid p Hi Hp) as Hsh.
  destruct (pp_state p) eqn:Hps; try (by injection Hj); try (by destruct Hj as [[= _ ->] _]);
    try (by rewrite (sh_early _ _ Hsh) in Hm by by rewrite Hps);
    try (by destruct (sh_state _ _ Hsh) as [E|[E|E]]; rewrite Hps in E).
  by destruct Hj as [(w & _ & [[= _ ->]|(sc & [= _ ->])]) _].
Qed.

(** What a forced rejection leaves. *)
Lemma force_sound origin pid st st' :
  EInv st.1 -> sound st -> force_reject_process_hold origin pid st = (Ok tt, st') ->
  sound st' /\ es_recent st'.1 = es_recent st.1
  /\ exists p p', lk st.1 pid = Some p /\ lk st'.1 pid = Some p'
       /\ (p' = set_state (Rejected ProcessHold) p \/ p' = p /\ is_force_rejectable_state (pp_state p) = false).
Proof.
  intros Hi [Hx Hj] H. unfold force_reject_process_hold in H. inv_ep. pairs. named p Hp.
  destruct (negb _) eqn:Hf; inv_ep; pairs.
  { split; [split; [done|by eapply follows_same]|]. split; [done|]. exists p, p. by auto. }
  match goal with |- context [maybe_clear_stale_epoch ?t] => set (s1 := t) end.
  assert (Hc : es_proposals (maybe_clear_stale_epoch s1) = es_proposals s1
            /\ es_recent (maybe_clear_stale_epoch s1) = es_recent s1).
  { unfold maybe_clear_stale_epoch. destruct (es_stale_epoch_cutoff s1); [destruct (existsb _ _)|]; done. }
  destruct Hc as [Hc1 Hc2]. split; [|split; [by rewrite Hc2|]].
  2: { exists p, (set_state (Rejected ProcessHold) p). split; [done|]. split; [|by left]. unfold lk. rewrite Hc1.
       unfold s1. cbn [push_event set_events release_locks set_resource_locks drop_rollover set_rollovers drop_from_queue
         set_intake_queue set_proposals es_proposals].
       rewrite (lk_alter _ pid (set_state (Rejected ProcessHold)) p) by done. by rewrite decide_True. }
  match goal with H : (if is_none _ then _ else _) _ = _ |- _ => rename H into Hv end.
  destruct (is_none (pp_markets p)) eqn:Hm; inv_ep; pairs.
  - split; [done|]. cbn [fst snd]. eapply follows_same; [|exact Hc1|exact Hc2].
    eapply (follows_move _ _ _ pid (set_state (Rejected ProcessHold)) p); [exact Hj|exact Hp|done|done|done|].
    by apply backed_early.
  - match goal with H : el_void _ _ = _ |- _ => apply law_void in H as (Hx' & st0 & spec & Hst & _ & HV); [|done] end.
    split; [done|]. cbn [fst snd]. eapply follows_same; [|exact Hc1|exact Hc2].
    eapply (follows_put (vault_of _) _ _ _ pid (set_state (Rejected ProcessHold)) p);
      [exact Hj|exact Hp|done|exact HV|done|done|].
    intros _. cbn. rewrite (lk_id _ _ _ Hp), HV, put_eq.
    by rewrite (backed_spec _ _ _ p _ _ Hi Hj Hp Hm Hst).
Qed.

(** Only a summary records a void: the cohorts at hand are open. *)
Lemma voided_recent s epoch : EInv s -> cohort_epoch_voided epoch s = voided_epoch (es_recent s) epoch.
Proof.
  intros [_ []]. unfold cohort_epoch_voided, voided_epoch.
  replace (existsb (fun c => (ci_epoch c =? epoch) && bool_decide (ci_status c = CVoid)) (es_cohorts s)) with false; [done|].
  symmetry. apply not_true_is_false. intros (c & Hc%list_elem_of_In & Hv)%existsb_exists.
  apply andb_prop in Hv as [_ Hv%bool_decide_eq_true]. pose proof (co_open _ _ (ei_cohorts c Hc)) as Ho.
  unfold cohort_open in Ho. by rewrite Hv in Ho.
Qed.

Lemma force_void_sound pid b st st' :
  EInv st.1 -> sound st -> force_reject_if_cohort_void pid st = (Ok b, st') ->
  sound st' /\ (b = false -> st' = st
    /\ exists p, lk st.1 pid = Some p /\ voided_epoch (es_recent st.1) (pp_epoch p) = false).
Proof.
  intros Hi Hs H. unfold force_reject_if_cohort_void in H. inv_ep. pairs. named p Hp.
  destruct (negb _) eqn:Hv; inv_ep; pairs.
  - split; [done|]. intros _. split; [done|]. exists p. split; [done|].
    match goal with E : cohort_epoch_voided _ _ = false |- _ => by rewrite voided_recent in E by done end.
  - split; [|done].
    match goal with E : cohort_epoch_voided _ _ = true |- _ => rewrite voided_recent in E by done; rename E into Hvo end.
    match goal with H : force_reject_process_hold _ _ ?t = _ |- _ =>
      apply force_sound in H as ([Hx' Hj'] & Hr & q & p' & Hq & Hp' & Hpp); [|done|done] end.
    cbn [fst snd] in *. rewrite Hp in Hq. injection Hq as <-.
    split; [done|]. cbn [fst snd].
    eapply (follows_move _ _ _ pid (set_decision (Some (RejectFor ProcessHold))) p'); [exact Hj'|exact Hp'|done|done|done|].
    pose proof (Hj' pid p' Hp') as Hb. unfold backed in *. intros Hm. specialize (Hb Hm).
    destruct Hpp as [->|[-> Hn]]; [done|]. cbn. destruct (pp_state p); try done.
    destruct Hb as [_ Hb]. rewrite Hr in Hb. congruence.
Qed.

(** A resolved proposal joins its cohort. *)
Lemma measured_follows V V' pid w spec f p s s1 s' :
  EInv s -> follows V s -> lk s pid = Some p -> is_none (pp_markets p) = false ->
  voided_epoch (es_recent s) (pp_epoch p) = false ->
  V pid = Some (Open, spec) -> (forall q, V' q = put pid (Resolved w, spec) V q) ->
  quiet f -> verdict_ok (pp_decision (f p)) w ->
  es_proposals s1 = alter_key pp_id pid f (es_proposals s) -> es_recent s1 = es_recent s ->
  start_measurement pid s1 = (Ok tt, s') -> follows V' s'.
Proof.
  intros Hi Hj Hp Hm Hvo HV HV' [] Hd Ep Er H.
  apply start_measurement_Ok in H as (q & cohorts & _ & _ & ->).
  eapply (follows_put V V' s _ pid (fun p => set_state Measuring (f p)) p _ Hj Hp); [cbn; auto|exact HV'| |exact Er|].
  - cbn. by rewrite Ep, alter_key_alter.
  - intros _. cbn. rewrite qt_epoch, qt_spec, qt_id, (lk_id _ _ _ Hp), HV', put_eq.
    rewrite (backed_spec s V pid p _ _ Hi Hj Hp Hm HV). split; [|done]. exists w. split; [done|by left].
Qed.

Lemma reject_sound pid r p st st' :
  EInv st.1 -> sound st -> lk st.1 pid = Some p -> is_none (pp_markets p) = false ->
  reject_to_measurement pid r st = (Ok tt, st') -> sound st'.
Proof.
  intros Hi Hs Hp Hm H. unfold reject_to_measurement in H. inv_ep.
  match goal with H : force_reject_if_cohort_void _ _ = _ |- _ => apply force_void_sound in H as [Hs' Hsame]; [|done|done] end.
  match goal with H : (if ?b then _ else _) _ = _ |- _ => destruct b; [by inv_ep|] end.
  destruct (Hsame eq_refl) as (-> & p' & Hp' & Hvo). inv_ep. pairs. named p Hp.
  rewrite Hm in *. cbn [negb] in *. inv_ep. pairs. destruct Hs as [Hx Hj].
  match goal with H : el_resolve _ _ _ = _ |- _ => apply law_resolve in H as (Hx' & spec & HV & HV'); [|done] end.
  split; [done|]. cbn [fst snd].
  eapply (measured_follows _ _ pid Reject spec (fun p => set_decision (Some (RejectFor r)) (set_state (Rejected r) p)) p);
    [exact Hi|exact Hj|done|done|done|exact HV|exact HV'|by split|done| | |eassumption]; [|done].
  cbn. by rewrite alter_key_alter.
Qed.

Lemma resolve_sound pid w mark p st st' :
  EInv st.1 -> sound st -> lk st.1 pid = Some p -> is_none (pp_markets p) = false ->
  voided_epoch (es_recent st.1) (pp_epoch p) = false -> verdict_ok (pp_decision p) w ->
  (mark = ret tt \/ mark = (do! proposal_mut pid (set_state Expired) in modify (push_event (EpMandateExpired pid)))) ->
  resolve_and_measure pid w mark st = (Ok tt, st') -> sound st'.
Proof.
  intros Hi [Hx Hj] Hp Hm Hvo Hd Hk H. unfold resolve_and_measure in H. inv_ep. pairs.
  match goal with H : el_resolve _ _ _ = _ |- _ => apply law_resolve in H as (Hx' & spec & HV & HV'); [|done] end.
  split; [done|]. cbn [fst snd]. destruct Hk as [-> | ->]; inv_ep.
  - eapply (measured_follows _ _ pid w spec (fun p => p) p);
      [exact Hi|exact Hj|done|done|done|exact HV|exact HV'|by split|done| | |eassumption]; [|done].
    by rewrite alter_key_id.
  - eapply (measured_follows _ _ pid w spec (set_state Expired) p);
      [exact Hi|exact Hj|done|done|done|exact HV|exact HV'|by split|done| | |eassumption]; done.
Qed.

(** A proposal of the queue, or that failed to execute: its books, its decision. *)
Lemma queued_facts V s pid p :
  EInv s -> follows V s -> lk s pid = Some p -> (pp_state p = Queued \/ pp_state p = FailedExecuted) ->
  is_none (pp_markets p) = false /\ verdict_ok (pp_decision p) Accept.
Proof.
  intros Hi Hj Hp Hs. assert (Hm : is_none (pp_markets p) = false).
  { eapply (traded_books spec_of); [exact Hi|exact Hp|]. by destruct Hs as [-> | ->]. }
  split; [done|]. intros _. specialize (Hj pid p Hp Hm). destruct Hs as [Hs|Hs]; rewrite Hs in Hj; apply Hj.
Qed.

(** Splits on the cohort's void, and keeps the case where it is not. *)
Ltac unless_voided_sound :=
  match goal with H : force_reject_if_cohort_void _ _ = (Ok ?b, _) |- _ =>
    let Hsame := fresh "Hsame" in let q := fresh "q" in let Hq := fresh "Hq" in let Hvo := fresh "Hvo" in
    apply force_void_sound in H as [? Hsame]; [|done|done];
    destruct b; [inv_ep; simplify_eq; done|]; let E := fresh "E" in destruct (Hsame eq_refl) as (E & q & Hq & Hvo); clear Hsame;
    first [injection E as -> ->|subst]; cbn [fst snd] in *; inv_ep; same_proposal
  end.

Lemma veto_sound origin pid st st' : EInv st.1 -> sound st -> veto_upheld origin pid st = (Ok tt, st') -> sound st'.
Proof.
  intros Hi Hs H. unfold veto_upheld in H. inv_ep. pairs. named p Hp.
  eapply (reject_sound pid); [..|eassumption]; [done|done|exact Hp|].
  eapply (traded_books spec_of); [exact Hi|exact Hp|by_state].
Qed.

Lemma mark_executed_sound origin pid st st' :
  EInv st.1 -> sound st -> mark_executed origin pid st = (Ok tt, st') -> sound st'.
Proof.
  intros Hi Hs H. unfold mark_executed in H. inv_ep. pairs. named p Hp. unless_voided_sound. named p Hp.
  destruct (queued_facts _ _ pid p Hi (proj2 Hs) Hp) as [Hm Hd]; [destruct (pp_state p); auto; done|].
  eapply (resolve_sound pid); [..|eassumption]; [done|done|exact Hp|done|done|done|by left].
Qed.

Lemma retry_sound origin pid st st' :
  EInv st.1 -> sound st -> retry_exhausted_to_measurement origin pid st = (Ok tt, st') -> sound st'.
Proof.
  intros Hi Hs H. unfold retry_exhausted_to_measurement in H. inv_ep. pairs. named p Hp. unless_voided_sound. named p Hp.
  destruct (queued_facts _ _ pid p Hi (proj2 Hs) Hp) as [Hm Hd]; [by right|].
  eapply (resolve_sound pid); [..|eassumption]; [done|done|exact Hp|done|done|done|by left].
Qed.

Lemma expire_sound origin pid reason st st' :
  EInv st.1 -> sound st -> expire_or_stale_queue origin pid reason st = (Ok tt, st') -> sound st'.
Proof.
  intros Hi Hs H. unfold expire_or_stale_queue in H. inv_ep. pairs. named p Hp. unless_voided_sound. named p Hp.
  destruct (queued_facts _ _ pid p Hi (proj2 Hs) Hp) as [Hm Hd]; [by left|].
  destruct reason as [[]|]; inv_ep;
    try (eapply (reject_sound pid); [..|eassumption]; [done|done|exact Hp|done]).
  eapply (resolve_sound pid); [..|eassumption]; [done|done|exact Hp|done|done|done|by right].
Qed.

(** ** The cranks *)

Lemma sync_follows V now s : follows V s -> follows V (sync_phase now s).
Proof.
  intros Hj x q Hq. destruct (sync_proposals now s) as (f & Hf & Hd & E).
  unfold lk in Hq. rewrite E, find_key_fmap in Hq by apply Hf.
  destruct (find_key pp_id x (es_proposals s)) as [p|] eqn:Hp; [|done]. injection Hq as <-.
  specialize (Hj x p Hp). rewrite sync_recent. unfold backed in *. destruct Hf.
  rewrite hl_markets, hl_state, hl_id, hl_spec, Hd.
  intros Hm. specialize (Hj Hm). destruct (pp_state p) eqn:Hs; try done. rewrite hl_epoch by congruence. done.
Qed.

Lemma refreshed_follows V now params s : follows V s -> follows V (sync_phase now (refresh_params params s)).
Proof. intros Hj. by apply sync_follows, (follows_same V s). Qed.

Lemma sound_event e s (x : X) : sound (s, x) -> sound (push_event e s, x).
Proof. intros [Hx Hj]. split; [done|]. by eapply follows_same. Qed.

(** Takes a state apart by its two halves. *)
Ltac halves :=
  repeat match goal with x : EpochState A * X |- _ => destruct x end; cbn [fst snd] in *; subst.

Lemma decide_sound origin pid now i guards params out p st st' :
  EInv st.1 -> sound st -> lk st.1 pid = Some p -> is_none (pp_markets p) = false ->
  decide_with origin pid now i guards params st = (Ok out, st') -> sound st'.
Proof.
  intros Hi [Hx Hj] Hp Hm H. unfold decide_with in H. inv_ep.
  match goal with Hv : validate params = Ok tt |- _ => rename Hv into Hval end.
  destruct (synced_proposal now params st.1 pid p Hp) as (q & Hq & Hqs & Hqm).
  assert (Hi1 : EInv (sync_phase now (refresh_params params st.1))) by by apply sync_keeps, refresh_keeps.
  pose proof (refreshed_follows _ now params st.1 Hj) as Hj1. clear Hj Hi Hp. rewrite <- Hqm in Hm. clear Hqm Hqs.
  destruct st as [s0 x0]. halves.
  revert Hi1 Hq Hj1 H. generalize (sync_phase now (refresh_params params s0)). intros s Hi1 Hq Hj1 H.
  assert (Hs : sound (s, x0)) by done.
  destruct (_ || _); inv_ep.
  { halves. match goal with H : force_reject_process_hold _ _ _ = _ |- _ => by apply force_sound in H as [? _] end. }
  unless_voided_sound. halves. same_proposal. named q Hq.
  match goal with H : decision_outcome _ _ _ _ _ = (Ok ?o, ?t) |- _ =>
    rename t into s1, o into out2; apply (outcome_frame spec_of) in H as [(c & l & Hs1) Hout] end.
  assert (Hi2 : EInv s1) by (rewrite Hs1; by eapply EInv_ext).
  assert (Hj2 : follows (vault_of x0) s1) by (rewrite Hs1; by eapply follows_same).
  assert (Hq2 : lk s1 pid = Some q) by by rewrite Hs1.
  clear Hs1. destruct out2 as [|r|]; inv_ep; halves.
  - destruct Hout as [[? [=]]|(p' & Hp' & Hst)]. replace p' with q in Hst by congruence.
    eapply sound_state; [by eapply (queue_follows (vault_of x0) pid now params s1)|done].
  - match goal with H : reject_to_measurement _ _ _ = _ |- _ =>
      eapply (reject_sound pid _ q) in H; [|exact Hi2|done|exact Hq2|exact Hm] end.
    destruct (_ || _); inv_ep; halves; first [by apply sound_event|done].
  - destruct Hout as [[? [=]]|(p' & Hp' & Hst)]. replace p' with q in Hst by congruence.
    eapply sound_state; [by eapply (extend_follows (vault_of x0) pid s1)|done].
Qed.

(** A part of a call that stays in the epoch state. *)
Lemma sound_zoom (m : ST (EpochState A) EpochError unit) st st' :
  (forall s', m st.1 = (Ok tt, s') -> follows (vault_of st.2) st.1 -> follows (vault_of st.2) s') ->
  sound st -> zoom_fst m st = (Ok tt, st') -> sound st'.
Proof. intros Hm [Hx Hj] H. inv_ep. halves. split; [done|by apply Hm]. Qed.

Lemma tick_sound origin pid now input params st st' :
  EInv st.1 -> sound st -> tick origin pid now input params st = (Ok tt, st') -> sound st'.
Proof.
  intros Hi [Hx Hj] H. unfold tick in H. inv_ep.
  match goal with Hv : validate params = Ok tt |- _ => rename Hv into Hval end.
  assert (Hi1 : EInv (sync_phase now (refresh_params params st.1))) by by apply sync_keeps, refresh_keeps.
  pose proof (refreshed_follows _ now params st.1 Hj) as Hj1. clear Hj Hi.
  destruct st as [s0 x0]. halves. named p Hp.
  revert Hi1 Hp Hj1 H. generalize (sync_phase now (refresh_params params s0)). intros s Hi1 Hp Hj1 H.
  assert (Hs : sound (s, x0)) by done.
  assert (Hnoop : forall st', zoom_fst (E := EpochError) (modify (push_event EpNoOp)) (s, x0) = (Ok tt, st') -> sound st').
  { intros st1 Hn. inv_ep. halves. by apply sound_event. }
  destruct (_ && _); [by apply force_sound in H as [? _]|].
  destruct (_ && _); [by apply force_sound in H as [? _]|].
  destruct (_ || _); [by apply Hnoop|].
  destruct (pp_state p) eqn:Hst; try by apply Hnoop.
  - destruct (_ && _); [|by apply Hnoop]. inv_ep. halves.
    destruct (negb (ti_preimage_ok input)); [|destruct (ti_active_metric_spec_version input) as [v|]]; inv_ep; halves.
    + eapply sound_state; [eapply (cancel_follows spec_of (vault_of x0) pid _ _ (push_event (EpScreeningStarted pid) s)); [|exact Hp|exact Hst|eassumption]|].
      * by apply (EInv_event spec_of (EpScreeningStarted pid)).
      * by apply sound_event.
    + eapply sound_state; [by eapply (qualify_follows spec_of)|done].
    + eapply sound_state; [eapply (cancel_follows spec_of (vault_of x0) pid _ _ (push_event (EpScreeningStarted pid) s)); [|exact Hp|exact Hst|eassumption]|].
      * by apply (EInv_event spec_of (EpScreeningStarted pid)).
      * by apply sound_event.
  - destruct (in_phase _ _); [|by apply Hnoop]. inv_ep. halves. by eapply open_markets_sound; [| |eassumption].
  - destruct (ti_queue_reject_reason input) as [r|]; [by eapply expire_sound; [| |eassumption]|].
    match type of H with (if ?b then _ else _) _ = _ => destruct b end;
      [by eapply expire_sound; [| |eassumption]|by apply Hnoop].
  - destruct (ti_review_window_closed input); [|by apply Hnoop]. eapply sound_zoom; [|exact Hs|exact H].
    intros s' Hx'. by eapply schedule_rerun_follows.
  - destruct (in_phase _ _); [|by apply Hnoop]. eapply sound_zoom; [|exact Hs|exact H].
    intros s' Hx'. by eapply open_rerun_follows.
  - destruct (ti_retry_exhausted input); [by eapply retry_sound; [| |eassumption]|by apply Hnoop].
Qed.

End joint.
