(* ===== verification/EpochJointSystem.v ===== *)
(** * The joint system of the epoch core and its ledger

    The shell's calls into the epoch core, and between them anything that the
    ledger does on its own. *)

From S2P Require Import Prelude Keyed Primitives Ledger LedgerProps LedgerSets Proposals Epoch EpochDecide EpochCalls EpochEngine EpochClock EpochSettle EpochSystem EpochInv EpochOps EpochSteps EpochTick EpochCohorts EpochVaults EpochJoint.

Section system.
Context {A : Type} `{EqDecision A} {X Y : Type} `{!EpochLedger X} `{!EpochLedgerLaws X} `{!WelfareOps Y}.
Variable spec_of : EpochId -> MetricSpecVersion.

Implicit Types (s : EpochState A) (p : Proposal A) (pid : ProposalId) (st : EpochState A * X * Y).

Abbreviation EInv := (EInv spec_of).

(** ** Summaries *)

Lemma push_summary_recent epoch sc twap now voided pids s s' :
  push_summary epoch sc twap now voided pids s = (Ok tt, s') ->
  es_proposals s' = es_proposals s
  /\ forall x, voided_epoch (es_recent s') x = true ->
       voided_epoch (es_recent s) x = true \/ (x = epoch /\ voided = true).
Proof.
  intros H. unfold push_summary in H. inv_ep. split; [by destruct (_ =? _)%nat|].
  intros y. unfold voided_epoch. cbn. rewrite existsb_app. intros [Hx|Hx]%orb_prop.
  - left. destruct (_ =? _)%nat; [|done]. cbn in Hx. destruct (es_recent s); [done|]. cbn in *. by rewrite Hx, orb_true_r.
  - right. cbn in Hx. rewrite orb_false_r in Hx. apply andb_prop in Hx as [Hx ?]. split; [lia|done].
Qed.

(** Rows that stay follow, whatever happened to the others. *)
Lemma follows_rest V V' s s' (pids : list ProposalId) :
  NoDup (keys pp_id (es_proposals s)) -> follows V s ->
  es_proposals s' = filter (fun p => pp_id p ∉ pids) (es_proposals s) ->
  (forall q, q ∉ pids -> V' q = V q) ->
  (forall pid p, lk s pid = Some p -> pid ∉ pids -> pp_state p = Measuring ->
     voided_epoch (es_recent s) (pp_epoch p) = false -> voided_epoch (es_recent s') (pp_epoch p) = false) ->
  follows V' s'.
Proof.
  intros Hn Hj Ep HV Hr pid p Hp. unfold lk in Hp. rewrite Ep, find_key_filter in Hp by done.
  destruct (find_key pp_id pid (es_proposals s)) as [q|] eqn:Hq; [|done].
  destruct (decide (pp_id q ∉ pids)) as [Hout|]; [|done]. injection Hp as <-.
  pose proof (Hj pid q Hq) as Hb. unfold backed in *. rewrite !(HV (pp_id q)) by done. intros Hm. specialize (Hb Hm).
  destruct (pp_state q) eqn:Hs; try done. destruct Hb as [Hw Hv]. split; [done|].
  eapply Hr; [exact Hq| |done|done]. by rewrite <- (lk_id s pid q Hq).
Qed.

(** ** Settlement *)

Lemma settle_follows V origin epoch batch twap now (sy sy' : EpochState A * Y) out :
  EInv sy.1 -> follows V sy.1 -> settle_cohort origin epoch batch twap now sy = (Ok out, sy') -> follows V sy'.1.
Proof.
  intros Hi Hj H. unfold settle_cohort in H. inv_ep. chase.
  match goal with H : settle_items _ _ _ _ _ _ ?x = _ |- _ => destruct x as [s w]; apply settle_items_state in H end.
  subst. cbn [fst snd] in *. chase. rename select CohortInfo into c. set (pids := ci_proposals c) in *.
  destruct (_ <? _)%nat eqn:He; inv_ep; chase; [by eapply follows_same|].
  match goal with H : for_each_st _ _ _ = (Ok _, ?x) |- _ =>
    rename x into s1; apply (for_each_cleared _ pids) in H as Hcl; [|by intros; eapply settled_cleared|done] end.
  match goal with H : push_summary _ _ _ _ _ _ _ = _ |- _ => apply push_summary_recent in H as [Ep Hrec] end.
  eapply (follows_rest V V sy.1 _ pids); [apply Hi|exact Hj| |done|].
  - cbn. by rewrite Ep, (cl_props _ _ _ Hcl).
  - intros pid p _ _ _ Hv. cbn. apply not_true_is_false. intros [Hv'|[_ ?]]%Hrec; [|done].
    rewrite (cl_recent _ _ _ Hcl) in Hv'. congruence.
Qed.

(** ** Cohort VOID *)

Lemma voids_view l (sx sx' : EpochState A * X) u :
  el_inv sx.2 -> for_each_st void_vault l sx = (Ok u, sx') ->
  sx'.1 = sx.1 /\ el_inv sx'.2 /\ forall q, q ∉ l -> vault_of sx'.2 q = vault_of sx.2 q.
Proof.
  revert sx. induction l as [|pid l IH]; intros [s x] Hx Hs; cbn in Hs; [by injection Hs as _ <-|].
  apply bind_Ok in Hs as ([] & [s1 x1] & H1 & H2). unfold void_vault in H1. inv_ep.
  repeat match goal with y : EpochState A * X |- _ => lazymatch y with sx' => fail | _ => destruct y end end.
  match goal with H : (if ?b then ret tt else zoom_snd _) _ = _ |- _ =>
    apply ledger_unless_both in H as [E Hb]; destruct b end; cbn [fst snd] in *; inv_ep; subst.
  - apply IH in H2 as (E1 & Hx1 & HV1); [|done]. split; [done|]. split; [done|].
    intros q [_ Hql]%not_elem_of_cons. by apply HV1.
  - match goal with H : el_void _ _ = _ |- _ => apply law_void in H as (Hx' & st0 & spec & _ & _ & HV); [|done] end.
    apply IH in H2 as (E1 & Hx1 & HV1); [|done]. cbn [fst snd] in *. split; [done|]. split; [done|].
    intros q [Hq Hql]%not_elem_of_cons. rewrite HV1, HV by done. unfold put. by rewrite decide_False.
Qed.

Lemma void_cohort_sound origin epoch now st st' :
  EInv st.1.1 -> sound st.1 -> void_cohort origin epoch now st = (Ok tt, st') -> sound st'.1.
Proof.
  intros Hi [Hx Hj] H. unfold void_cohort in H. inv_ep.
  rename select CohortInfo into c. rename select (list ProposalId) into pids.
  repeat match goal with x : EpochState A * X * Y |- _ => destruct x as [[? ?] ?] end. cbn [fst snd] in *. subst.
  match goal with H : for_each_st void_vault _ _ = _ |- _ => apply voids_view in H as (E & Hx' & HV); [|done] end.
  cbn [fst snd] in *. subst.
  match goal with H : for_each_st (void_proposal _) _ ?s0 = (_, ?t) |- _ =>
    rename s0 into s, t into s1; pose proof (voids_cleared spec_of (ci_proposals c) pids _ _ _ ltac:(done) H) as (Hcl & Hvq & Hvr) end.
  match goal with H : find_key ci_epoch epoch _ = Some c |- _ => rename H into Hc end.
  match goal with H : void_affected_proposals _ _ = _ |- _ => unfold void_affected_proposals in H; rewrite Hc in H; inv_ep end.
  match goal with H : Some c = Some _ |- _ => injection H as <- end.
  match goal with H : (_, _) = (set_cohorts _ _, _) |- _ => injection H as -> -> end.
  match goal with H : fold_left _ _ _ = pids |- _ => rename H into Hpids end.
  match goal with H : push_summary _ _ _ _ _ _ _ = _ |- _ => apply push_summary_recent in H as [Ep Hrec] end.
  split; [done|]. cbn [fst snd].
  eapply (follows_rest _ _ s _ pids); [apply Hi|exact Hj| |exact HV|].
  - cbn. rewrite Ep. cbn. by rewrite (cl_props _ _ _ Hcl).
  - intros pid p Hp Hout Hs Hv. cbn. apply not_true_is_false. intros [Hv'|[He _]]%Hrec.
    + cbn [es_recent set_cohorts] in Hv'. rewrite (cl_recent _ _ _ Hcl) in Hv'. congruence.
    + destruct (ei_measuring _ _ _ _ _ _ _ _ _ _ _ (inv_ei _ _ Hi) pid p Hp Hs) as (c' & Hc' & Hin).
      rewrite He in Hc'. rewrite Hc in Hc'. injection Hc' as <-.
      apply Hout. rewrite <- Hpids. by apply affected_members.
Qed.

(** ** The joint system *)

(** From [V] to [V'] existing vaults at most take a score. *)
Definition calm (V V' : vault_view) : Prop :=
  forall pid v spec, V pid = Some (v, spec) ->
  exists v', V' pid = Some (v', spec) /\ (v' = v \/ exists w sc, v = Resolved w /\ v' = ScalarSettled w sc).

Lemma follows_calm V V' s : calm V V' -> follows V s -> follows V' s.
Proof.
  intros Hc Hj pid p Hp Hm. specialize (Hj pid p Hp Hm).
  assert (Hopen : V (pp_id p) = Some (Open, pp_metric_spec p) -> V' (pp_id p) = Some (Open, pp_metric_spec p)).
  { intros Hv. destruct (Hc _ _ _ Hv) as (v' & Hv' & [->|(? & ? & ? & _)]); done. }
  destruct (pp_state p); try done; try by apply Hopen.
  all: try by (destruct Hj; split; [by apply Hopen|]).
  all: try by destruct (Hc _ _ _ Hj) as (v' & Hv' & [->|(? & ? & ? & _)]).
  - destruct Hj as [(w & Hd & Hw) Hv]. split; [|done]. exists w. split; [done|].
    destruct Hw as [Hw|[sc Hw]]; destruct (Hc _ _ _ Hw) as (v' & Hv' & [->|(w' & sc' & [= <-] & ->)]); eauto.
Qed.

Variable env : X -> X -> Prop.

(** Calls of the shell, and moves of the ledger. *)
Inductive joint_step st st' : Prop :=
| joint_epoch : epoch_step spec_of st st' -> joint_step st st'
| joint_ledger x' : env st.1.2 x' -> st' = (st.1.1, x', st.2) -> joint_step st st'.

Inductive joint_reachable : EpochState A * X * Y -> Prop :=
| joint_new x y : el_inv x -> joint_reachable (EpochState_new, x, y)
| joint_next st st' : joint_reachable st -> joint_step st st' -> joint_reachable st'.

Lemma zoom2_sound (m : ST (EpochState A) EpochError unit) st st' :
  (forall V s', m st.1.1 = (Ok tt, s') -> follows V st.1.1 -> follows V s') ->
  sound st.1 -> zoom_fst (zoom_fst m) st = (Ok tt, st') -> sound st'.1.
Proof.
  intros Hm Hs H. apply zoom_fst_Ok in H as [H _]. eapply sound_zoom; [|exact Hs|exact H]. intros s' Hs'. by apply Hm.
Qed.

Lemma epoch_step_sound st st' : EInv st.1.1 -> sound st.1 -> epoch_step spec_of st st' -> sound st'.1.
Proof.
  intros Hi Hs [c Hok H]. pose proof Hi as [Hn _].
  destruct c; cbn [epoch_exec call_ok] in *;
    try (eapply zoom2_sound; [|exact Hs|exact H]; intros V s' Hm Hj; try apply ignore_Ok in Hm as [r Hm]).
  - inv_all. by apply sync_follows.
  - by eapply submit_follows.
  - by eapply withdraw_follows.
  - apply zoom_fst_Ok in H as [H _]. by eapply (tick_sound spec_of).
  - by eapply (shrink_follows spec_of).
  - apply zoom_fst_Ok in H as [H _]. apply ignore_Ok in H as [r H]. destruct Hok as (p & Hp & Hm).
    apply proposal_Ok in Hp. by eapply (decide_sound spec_of).
  - apply on_welfare_Ok in H as (y & H & E). apply ignore_Ok in H as [r H].
    destruct Hs as [Hx Hj]. split; rewrite E; [done|].
    by eapply (settle_follows _ _ _ _ _ _ (st.1.1, st.2) (st'.1.1, y)).
  - unfold set_next_epoch_length in Hm. inv_ep. by eapply follows_same.
  - by eapply delay_once_follows.
  - by eapply force_rerun_follows.
  - apply zoom_fst_Ok in H as [H _]. by eapply (veto_sound spec_of).
  - apply zoom_fst_Ok in H as [H _]. by eapply (mark_executed_sound spec_of).
  - by eapply mark_failed_follows.
  - apply zoom_fst_Ok in H as [H _]. by eapply (retry_sound spec_of).
  - apply zoom_fst_Ok in H as [H _]. by eapply (expire_sound spec_of).
  - apply zoom_fst_Ok in H as [H _]. by eapply (force_sound spec_of).
  - by eapply void_cohort_sound.
  - apply on_welfare_Ok in H as (y & H & E). apply finalize_frame in H. cbn in H. destruct Hs as [Hx Hj].
    split; rewrite E; [done|]. by rewrite H.
  - inv_all. by eapply follows_same.
  - inv_all. by eapply follows_filter.
Qed.

Hypothesis env_calm : forall x x', el_inv x -> env x x' -> el_inv x' /\ calm (vault_of x) (vault_of x').

Lemma joint_keeps st : joint_reachable st -> EInv st.1.1 /\ sound st.1.
Proof.
  induction 1 as [x y Hx|st st' _ [Hi Hs] Hstep].
  - split; [apply genesis_keeps|]. split; [done|]. by intros pid p ?.
  - destruct Hstep as [Hstep|x' Hx' ->]; [split; [by eapply step_keeps|by eapply epoch_step_sound]|].
    split; [done|]. destruct Hs as [Hx Hj]. destruct (env_calm _ _ Hx Hx') as [Hx2 Hc]. split; [done|].
    by eapply follows_calm.
Qed.

End system.

(** ** With the conditional ledger *)

Section ledger.
Context {A : Type} `{EqDecision A}.

(** What happens on the ledger between the shell's calls: any public call but
    the resolve authority's, and new protocol accounts. *)
Inductive ledger_own (l l' : LedgerState A) : Prop :=
| own_call c : LedgerProps.call_ok c -> is_verdict c = false -> l' = (exec c l).2 -> ledger_own l l'
| own_protocol who : who ∉ keys pc_owner (ls_position_counts l) -> l' = (add_protocol_account who l).2 -> ledger_own l l'.

Lemma calm_refl V : calm V V.
Proof. intros pid v spec Hv. exists v. auto. Qed.

Lemma ledger_own_calm (l l' : LedgerState A) :
  reachable l -> ledger_own l l' -> reachable l' /\ calm (vault_state_of l) (vault_state_of l').
Proof.
  intros Hr [c Hok Hv ->|who Hw ->].
  - split; [eapply rtc_r; [exact Hr|by constructor]|].
    destruct (exec c l) as [[u|e] l2] eqn:E; [|apply exec_Err in E as ->; apply calm_refl].
    destruct u. pose proof (exec_life c l tt l2 (Inv_of_reachable _ Hr) Hok E) as Hev. rewrite Hv in Hev.
    intros pid v spec Hf. unfold vault_state_of in Hf. cbn [snd].
    destruct (find_key vr_proposal pid (ls_vaults l)) as [r|] eqn:Hfr; [|done]. injection Hf as <- <-.
    destruct (Hev pid r Hfr) as (r' & Hr' & [Hs _ Hsp]). exists (vi_state (vr_info r')).
    unfold vault_state_of. rewrite Hr'. cbn. rewrite Hsp. split; [done|].
    inversion Hs; try done; [by left|right; eauto].
  - split; [eapply rtc_r; [exact Hr|by constructor]|].
    assert (E : vault_state_of (add_protocol_account who l).2 = vault_state_of l).
    { unfold vault_state_of, add_protocol_account, modify. cbn. by destruct (bool_decide _). }
    rewrite E. apply calm_refl.
Qed.

End ledger.

(** ** A vault that left the open state never reopens

    Whatever the epoch core, the ledger and the settlement do afterwards: the
    core creates a vault only where there is none. [closes] is stated for
    every method of the core that can reach the ledger and composed along its
    structure. *)

Section closed.
Context {A : Type} `{EqDecision A} {X Y : Type} `{!EpochLedger X} `{!EpochLedgerLaws X} `{!WelfareOps Y}.

Definition closed_vault (V : vault_view) (pid : ProposalId) : Prop :=
  exists v spec, V pid = Some (v, spec) /\ v <> Open.

(** Vaults closed in [x] are closed in [x']. *)
Definition stays_closed (x x' : X) : Prop :=
  el_inv x -> el_inv x' /\ forall pid, closed_vault (vault_of x) pid -> closed_vault (vault_of x') pid.

Lemma stays_closed_refl x : stays_closed x x.
Proof. by split. Qed.

Lemma stays_closed_trans x1 x2 x3 : stays_closed x1 x2 -> stays_closed x2 x3 -> stays_closed x1 x3.
Proof. intros H1 H2 Hx. destruct (H1 Hx) as [Hx2 Hc1]. destruct (H2 Hx2) as [Hx3 Hc2]. auto. Qed.

Definition closes {R} (m : ST (EpochState A * X) EpochError R) : Prop :=
  forall st r st', m st = (Ok r, st') -> stays_closed st.2 st'.2.

Lemma closes_bind {R R'} (m : ST (EpochState A * X) EpochError R) (k : R -> ST (EpochState A * X) EpochError R') :
  closes m -> (forall r, closes (k r)) -> closes (bind m k).
Proof.
  intros Hm Hk st r st' (a & st1 & H1 & H2)%bind_Ok. eapply stays_closed_trans; [by eapply Hm|by eapply Hk].
Qed.

Lemma closes_zoom {R} (m : ST (EpochState A) EpochError R) : closes (zoom_fst m).
Proof. intros st r st' [_ E]%zoom_fst_Ok. rewrite E. apply stays_closed_refl. Qed.

Lemma closes_lift {R} (r : Result EpochError R) : closes (lift r).
Proof. intros st r' st' [_ ->]%lift_Ok. apply stays_closed_refl. Qed.

Lemma closes_ret {R} (r : R) : closes (ret r).
Proof. intros st r' st' [_ ->]%ret_Ok. apply stays_closed_refl. Qed.

Lemma closes_throw {R} (e : EpochError) : closes (throw (A := R) e).
Proof. by intros st r st' [=]. Qed.

Lemma closes_for_each {T} (f : T -> ST (EpochState A * X) EpochError unit) l :
  (forall y, closes (f y)) -> closes (for_each_st f l).
Proof. intros Hf. induction l as [|y l IH]; [apply closes_ret|by apply closes_bind]. Qed.

Lemma closed_put V V' pid v spec q :
  (forall q, V' q = put pid (v, spec) V q) -> v <> Open \/ V pid = None -> closed_vault V q -> closed_vault V' q.
Proof.
  intros HV Hv (w & sp & Hq & Hw). unfold closed_vault. rewrite HV. unfold put. destruct (decide (q = pid)) as [->|]; [|eauto].
  destruct Hv as [Hv|Hn]; [eauto|congruence].
Qed.

Lemma closes_create pid spec : closes (zoom_snd (el_create_vault pid spec)).
Proof.
  intros st [] st' [Hx _]%zoom_snd_Ok Hi. destruct (law_create _ _ _ _ Hi Hx) as (Hi' & Hn & HV).
  split; [done|]. intros q. eapply closed_put; [exact HV|by right].
Qed.

Lemma closes_resolve pid w : closes (zoom_snd (el_resolve pid w)).
Proof.
  intros st [] st' [Hx _]%zoom_snd_Ok Hi. destruct (law_resolve _ _ _ _ Hi Hx) as (Hi' & spec & _ & HV).
  split; [done|]. intros q. eapply closed_put; [exact HV|by left].
Qed.

Lemma closes_void pid : closes (zoom_snd (el_void pid)).
Proof.
  intros st [] st' [Hx _]%zoom_snd_Ok Hi. destruct (law_void _ _ _ Hi Hx) as (Hi' & v & spec & _ & _ & HV).
  split; [done|]. intros q. eapply closed_put; [exact HV|by left].
Qed.

Ltac closing :=
  repeat match goal with
  | |- forall _, _ => intros ?
  | |- closes (let _ := _ in _) => cbv zeta
  | |- closes (bind _ _) => apply closes_bind
  | |- closes (lift _) => apply closes_lift
  | |- closes (ret _) => apply closes_ret
  | |- closes (throw _) => apply closes_throw
  | |- closes (for_each_st _ _) => apply closes_for_each
  | |- closes (zoom_fst _) => apply closes_zoom
  | |- closes (zoom_snd (el_create_vault _ _)) => apply closes_create
  | |- closes (zoom_snd (el_resolve _ _)) => apply closes_resolve
  | |- closes (zoom_snd (el_void _)) => apply closes_void
  | |- closes (if ?b then _ else _) => destruct b
  | |- closes (match ?b with _ => _ end) => destruct b
  end.

(** ** The methods that reach the ledger *)

Lemma open_markets_closes origin pid markets : closes (open_markets origin pid markets).
Proof. unfold open_markets. closing. Qed.

Lemma force_reject_closes origin pid : closes (force_reject_process_hold origin pid).
Proof. unfold force_reject_process_hold. closing. Qed.

Lemma force_void_closes pid : closes (force_reject_if_cohort_void pid).
Proof. unfold force_reject_if_cohort_void. closing. apply force_reject_closes. Qed.

Lemma resolve_measure_closes pid w mark : closes (resolve_and_measure pid w mark).
Proof. unfold resolve_and_measure. closing. Qed.

Lemma reject_closes pid r : closes (reject_to_measurement pid r).
Proof. unfold reject_to_measurement. closing. apply force_void_closes. Qed.

Ltac deeper :=
  closing; first [apply force_reject_closes | apply force_void_closes | apply reject_closes
                 | apply resolve_measure_closes | apply open_markets_closes].

Lemma veto_closes origin pid : closes (veto_upheld origin pid).
Proof. unfold veto_upheld. deeper. Qed.

Lemma mark_executed_closes origin pid : closes (mark_executed origin pid).
Proof. unfold mark_executed. deeper. Qed.

Lemma retry_closes origin pid : closes (retry_exhausted_to_measurement origin pid).
Proof. unfold retry_exhausted_to_measurement. deeper. Qed.

Lemma expire_closes origin pid reason : closes (expire_or_stale_queue origin pid reason).
Proof. unfold expire_or_stale_queue. deeper. Qed.

Lemma decide_closes origin pid now i guards params : closes (decide_with origin pid now i guards params).
Proof. unfold decide_with. deeper. Qed.

Lemma tick_closes origin pid now i params : closes (tick origin pid now i params).
Proof.
  unfold tick. closing;
    first [apply force_reject_closes | apply open_markets_closes | apply expire_closes | apply retry_closes].
Qed.

Lemma void_vault_closes pid : closes (void_vault pid).
Proof. unfold void_vault. closing. Qed.

(** ** Every step *)

Lemma fst_closes {R} (m : ST (EpochState A * X) EpochError R) (st st' : EpochState A * X * Y) r :
  closes m -> zoom_fst m st = (Ok r, st') -> stays_closed st.1.2 st'.1.2.
Proof. intros Hm [H _]%zoom_fst_Ok. by eapply Hm. Qed.

Lemma on_welfare_closes {R} (m : ST (EpochState A * Y) EpochError R) (st st' : EpochState A * X * Y) r :
  on_welfare m st = (Ok r, st') -> stays_closed st.1.2 st'.1.2.
Proof. intros H. apply on_welfare_Ok in H as (y & _ & E). rewrite E. apply stays_closed_refl. Qed.

Lemma zoom2_frame {R} (m : ST (EpochState A) EpochError R) (st st' : EpochState A * X * Y) r :
  zoom_fst (zoom_fst m) st = (Ok r, st') -> st'.1.2 = st.1.2.
Proof. by intros [[_ E]%zoom_fst_Ok _]%zoom_fst_Ok. Qed.

Lemma void_cohort_closes origin epoch now (st st' : EpochState A * X * Y) :
  void_cohort origin epoch now st = (Ok tt, st') -> stays_closed st.1.2 st'.1.2.
Proof.
  intros H. unfold void_cohort in H. inv_all.
  repeat match goal with H : zoom_fst (zoom_fst _) _ = _ |- _ => apply zoom2_frame in H end.
  match goal with H : zoom_snd _ _ = _ |- _ => apply zoom_snd_Ok in H as [_ Ew] end.
  match goal with H : zoom_fst _ _ = _ |- _ => apply fst_closes in H; [rename H into Hv|apply closes_for_each, void_vault_closes] end.
  assert (st'.1.2 = x10.1.2) as -> by (rewrite Ew in *; congruence). by match goal with E : x2.1.2 = _ |- _ => rewrite <- E end.
Qed.

Lemma epoch_exec_closes c (st st' : EpochState A * X * Y) :
  epoch_exec c st = (Ok tt, st') -> stays_closed st.1.2 st'.1.2.
Proof.
  intros H. destruct c; cbn [epoch_exec] in H; try (by eapply on_welfare_closes);
    try (by eapply fst_closes; [apply closes_zoom|exact H]); try (by eapply void_cohort_closes);
    (eapply fst_closes; [|exact H]; unfold ignore; closing);
    first [apply tick_closes|apply decide_closes|apply veto_closes|apply mark_executed_closes|apply retry_closes
          |apply expire_closes|apply force_reject_closes].
Qed.

(** A vault that settles is not reopened by the ledger either. *)
Lemma calm_closed (V V' : vault_view) pid : calm V V' -> closed_vault V pid -> closed_vault V' pid.
Proof.
  intros Hc (v & spec & Hv & Hne). destruct (Hc _ _ _ Hv) as (v' & Hv' & Hs). exists v', spec. split; [done|].
  destruct Hs as [->|(w & sc & _ & ->)]; done.
Qed.

Lemma joint_step_closes spec_of (env : X -> X -> Prop) (st st' : EpochState A * X * Y) :
  (forall x x', el_inv x -> env x x' -> el_inv x' /\ calm (vault_of x) (vault_of x')) ->
  joint_step spec_of env st st' -> stays_closed st.1.2 st'.1.2.
Proof.
  intros Hcalm [[c _ H]|x' Hx' ->]; [by eapply epoch_exec_closes|].
  intros Hx. destruct (Hcalm _ _ Hx Hx') as [Hi Hc]. split; [done|]. intros pid. by apply calm_closed.
Qed.

End closed.
