(* ===== verification/EpochDemo.v ===== *)
(** * A proposal's life, as a concrete run

    The shell's calls from genesis with the conditional ledger underneath: two
    submissions, qualification, books, an extension, adoption, a delay and a
    rerun, execution, settlement. The states are what the witnesses use. *)

From S2P Require Import Prelude Keyed Primitives Ledger LedgerProps Proposals Epoch EpochDecide EpochCalls EpochSystem EpochInv EpochVaults EpochJointSystem.

(** Welfare that always scores one half. *)
#[export] Instance half_welfare : WelfareOps unit := {|
  wo_compute_settlement _ _ _ := ret 500000000;
  wo_settle_baseline_void _ := ret tt;
|}.

Abbreviation DemoState := (EpochState Z * LedgerState Z * unit)%type.

Definition demo_spec (_ : EpochId) : MetricSpecVersion := 3.

(** Calls in order; a failed one leaves the state as it was. *)
Definition call_epoch (st : DemoState) (c : EpochCall Z) : DemoState :=
  match epoch_exec c st with (Ok _, st') => st' | (Err _, _) => st end.
Definition run_epoch (cs : list (EpochCall Z)) (st : DemoState) : DemoState := foldl call_epoch st cs.

Fixpoint calls_ok (cs : list (EpochCall Z)) (st : DemoState) : Prop :=
  match cs with
  | [] => True
  | c :: cs => call_ok demo_spec c st.1.1 /\ calls_ok cs (call_epoch st c)
  end.

Lemma run_epoch_reachable cs st :
  calls_ok cs st -> epoch_reachable demo_spec st -> epoch_reachable demo_spec (run_epoch cs st).
Proof.
  revert st. induction cs as [|c cs IH]; intros st Hc Hr; [done|]. destruct Hc as [Hc Hcs].
  cbn. apply IH; [done|]. unfold call_epoch in *. destruct (epoch_exec c st) as [[[]|e] st'] eqn:E; [|done].
  eapply reach_step; [exact Hr|]. by econstructor.
Qed.

Lemma run_joint_reachable env cs st :
  calls_ok cs st -> joint_reachable demo_spec env st -> joint_reachable demo_spec env (run_epoch cs st).
Proof.
  revert st. induction cs as [|c cs IH]; intros st Hc Hr; [done|]. destruct Hc as [Hc Hcs].
  cbn. apply IH; [done|]. unfold call_epoch in *. destruct (epoch_exec c st) as [[[]|e] st'] eqn:E; [|done].
  eapply joint_next; [exact Hr|]. apply joint_epoch. by econstructor.
Qed.

Definition demo_proposal (pid : ProposalId) (who : Z) (bond : Balance) (resources : list ResourceKey) : Proposal Z := {|
  pp_id := pid; pp_proposer := who; pp_class := Param; pp_state := Submitted; pp_epoch := 0; pp_submitted_at := 10;
  pp_payload_hash := 77; pp_payload_len := 32; pp_ask := 0; pp_bond := bond; pp_resources := resources;
  pp_metric_spec := 0; pp_decide_at := 0; pp_rerun := false; pp_extended := false; pp_delayed_once := false;
  pp_markets := None; pp_maturity := None; pp_grace_end := None; pp_version_constraint := None; pp_decision := None;
|}.

Definition demo_tick : TickInputs := {|
  ti_static_check := Eligible; ti_preimage_ok := true; ti_active_metric_spec_version := Some 3;
  ti_markets := Some {| mset_accept := 1; mset_reject := 2; mset_gates := Some (3, 4, 5, 6); mset_baseline := 7 |};
  ti_review_window_closed := true; ti_queue_reject_reason := None; ti_retry_exhausted := false;
|}.

(** Inputs on which the engine adopts; [grade] may ask for an extension. *)
Definition demo_inputs (grade : WelfareGrade) : DecisionInputs := {|
  di_accept_full := 600000000; di_reject_full := 500000000; di_baseline_full := 500000000;
  di_accept_trailing := 600000000; di_reject_trailing := 500000000; di_baseline_trailing := 500000000;
  di_accept_spot := 600000000; di_reject_spot := 500000000; di_welfare_grade := grade; di_baseline_grade_ok := true;
  di_previous_settled_baseline_twap := None; di_survival_grade_ok := true; di_security_grade_ok := true;
  di_gate_twaps := Some (10000000, 10000000, 10000000, 10000000); di_measured_depth := 1000000;
  di_published_flow_per_day := None; di_in_cap_prize := Some 100; di_attestation_quorate := true;
  di_constitution_queue_ok := true;
|}.

Definition demo_guards : DecisionGuards :=
  {| dg_preimage_ok := true; dg_resource_locks_held := true; dg_process_hold := false |}.

Definition tick_at (pid now : Z) : EpochCall Z := CallTick pid now demo_tick EpochParams_DEFAULT.
Definition decide_at (pid now : Z) (grade : WelfareGrade) : EpochCall Z :=
  CallDecide pid now (demo_inputs grade) demo_guards EpochParams_DEFAULT.

(** To the open books of proposal 1; proposal 2 stays in the queue. *)
Definition demo_to_trading : list (EpochCall Z) :=
  [CallSubmit (demo_proposal 1 7 1000 [5; 4; 5]) EpochParams_DEFAULT;
   CallSubmit (demo_proposal 2 8 500 [4]) EpochParams_DEFAULT;
   tick_at 1 43200; tick_at 1 57600; CallSync 72000].

(** Extended once, then adopted. *)
Definition demo_to_queued : list (EpochCall Z) :=
  demo_to_trading ++ [decide_at 1 259200 GradeInsufficient; decide_at 1 302400 GradeOk].

Definition demo_to_measuring : list (EpochCall Z) := demo_to_queued ++ [CallMarkExecuted 1].

Definition demo_genesis : DemoState := (EpochState_new, LedgerState_new, tt).
Definition demo_trading : DemoState := Eval vm_compute in run_epoch demo_to_trading demo_genesis.
Definition demo_queued : DemoState := Eval vm_compute in run_epoch demo_to_queued demo_genesis.
Definition demo_measuring : DemoState := Eval vm_compute in run_epoch demo_to_measuring demo_genesis.

(** Three epochs later, in housekeeping. *)
Definition demo_to_late : list (EpochCall Z) := demo_to_measuring ++ [CallSync 1195200].
Definition demo_late : DemoState := Eval vm_compute in run_epoch demo_to_late demo_genesis.

Lemma demo_queued_ok : calls_ok demo_to_queued demo_genesis.
Proof.
  vm_compute. repeat split; try (by intros v [= <-]); eexists; by split.
Qed.
