(* ===== verification/EpochTheorems.v ===== *)
(** * The properties of the epoch core

    Each theorem with its witness on the run of [EpochDemo]. *)

From S2P Require Import Prelude Keyed Primitives Ledger LedgerSets LedgerProps Proposals Epoch EpochDecide EpochCalls EpochEngine EpochClock EpochSettle EpochSystem EpochInv EpochCohorts EpochCheck EpochBudget EpochVaults EpochJoint EpochJointSystem EpochDemo.

Section theorems.
Context {A : Type} `{EqDecision A}.

Implicit Types (s : EpochState A) (p : Proposal A) (pid : ProposalId).

(** C5. The decision engine is the ordered table of the decision function:
    on measurements in range it returns the outcome of the first row that
    applies, for any parameters that validate, and it adopts exactly when no
    row applies. It writes nothing but its carry counter. *)
Theorem decision_is_first_row pid i params s p :
  proposal pid s = Ok p -> validate params = Ok tt -> (pp_state p = Trading \/ pp_state p = Extended) ->
  inputs_ok i params ->
  let table := decision_table p (es_baseline_carry s) i params in
  (exists s', decide_engine pid i params s = (Ok (first_row table), s') /\ (s' = s \/ s' = carried_state pid p i s))
  /\ (first_row table = Adopt <-> forall r, r ∈ table -> r.1 = false).
Proof.
  intros Hp Hv Hs Hi table. split; [by apply decide_engine_table|].
  apply first_row_adopt. intros r Hr. by eapply decision_table_rejects.
Qed.

(** C16. Catching up is constant-time: in a running chain, however many
    epochs were missed, [sync_phase] leaves the epoch that stepping over the
    boundaries one by one would reach; the current block lies in that epoch,
    at or after the recorded phase start and before the next boundary. *)
Theorem catch_up_is_stepping now s :
  running s -> clock_fits now (es_epoch s) -> clock_ok (es_epoch s) ->
  ei_epoch_start_block (walk (S (Z.to_nat (now + 1))) now (es_epoch s))
    + ei_length (walk (S (Z.to_nat (now + 1))) now (es_epoch s)) < U32 ->
  let w := walk (S (Z.to_nat (now + 1))) now (es_epoch s) in
  let e := es_epoch (sync_phase now s) in
  clock_ok e
  /\ ei_index e = ei_index w /\ ei_epoch_start_block e = ei_epoch_start_block w /\ ei_length e = ei_length w
  /\ ei_epoch_start_block e <= now < ei_epoch_start_block e + ei_length e
  /\ ei_phase_start_block e <= now < next_boundary (sync_phase now s).
Proof. apply sync_phase_clock. Qed.

(** C15. Settlement may be cut into batches: when settling all items of a
    cohort in one pass succeeds, any sequence of keeper calls whose batches
    are within the limit and whose last one reaches the end succeeds with the
    same score and leaves the same state, here and in welfare. *)
Theorem batches_settle_as_one_pass {Y} `{!WelfareOps Y} epoch calls b twap now s (w : Y) c spec cursor v st :
  settle_ready s epoch c spec cursor ->
  (forall x, x ∈ calls -> 0 < x.1.1 <= SETTLE_COHORT_MAX_ITEMS) -> 0 < b <= SETTLE_COHORT_MAX_ITEMS ->
  (cursor + batch_items calls < S (length (ci_proposals c)) <= cursor + batch_items calls + Z.to_nat b)%nat ->
  settle_pass epoch c spec cursor twap now (s, w) = (Ok v, st) ->
  settle_calls epoch calls (b, twap, now) (s, w) = (Ok v, st).
Proof. apply settle_calls_pass. Qed.

Context {X Y : Type} `{!EpochLedger X} `{!WelfareOps Y}.
Variable spec_of : EpochId -> MetricSpecVersion.

(** C27. The runtime checker and the live bound: in every state that the
    shell's calls can reach, whatever the ledger and welfare do, the checker
    passes exactly when at most [MAX_LIVE_PROPOSALS] proposals are live. All
    its other clauses hold always: the queue is the submitted proposals, the
    rollovers are among them, cohorts are open, their members measured and of
    one metric spec, locks are unique and held, the lengths admissible. *)
Theorem checker_is_live_bound (st : EpochState A * X * Y) :
  epoch_reachable spec_of st ->
  epoch_try_state st.1.1 = Ok tt <-> (live_count st.1.1 <= MAX_LIVE_PROPOSALS)%nat.
Proof. intros Hr. apply (try_state_live spec_of). by eapply reachable_keeps. Qed.

(** C32. Allowances are used once: in every reachable state the log has at
    most one extension and at most one delay of each proposal, across
    reruns, deferrals, failed calls and cohort voids. *)
Theorem one_extension_one_delay (st : EpochState A * X * Y) pid :
  epoch_reachable spec_of st ->
  (used (uses_of Extension) pid st.1.1 <= 1)%nat /\ (used (uses_of Delay) pid st.1.1 <= 1)%nat.
Proof. intros Hr. split; by eapply used_once. Qed.

(** C2. Each vault follows its proposal: in the joint system of the epoch
    core and the conditional ledger, where traders, settlement and protocol
    accounts act on the ledger between the shell's calls, the ledger stays
    reachable by its own calls (so that its solvency holds), and each
    proposal with books has a vault of its metric spec that is open until the
    decision, resolved once it is measured, to the accept branch only if the
    decision was to adopt, and voided after a forced rejection. *)
Theorem vault_follows_proposal (st : EpochState A * LedgerState A * Y) :
  joint_reachable spec_of ledger_own st -> reachable st.1.2 /\ follows (vault_state_of st.1.2) st.1.1.
Proof.
  intros Hr. exact (proj2 (joint_keeps (X := LedgerState A) spec_of (ledger_own (A := A)) ledger_own_calm st Hr)).
Qed.

End theorems.

(** ** Witnesses *)

Lemma demo_queued_reachable : epoch_reachable demo_spec demo_queued.
Proof. apply (run_epoch_reachable demo_to_queued demo_genesis); [apply demo_queued_ok|constructor]. Qed.

Lemma demo_inputs_ok : inputs_ok (demo_inputs GradeOk) EpochParams_DEFAULT.
Proof.
  split.
  - intros v Hv. repeat (apply elem_of_cons in Hv as [->|Hv]; [by vm_compute|]). by apply elem_of_nil in Hv.
  - done.
  - intros a b c d [= <- <- <- <-]. by vm_compute.
  - by vm_compute.
  - by intros [].
  - intros v [= <-]. by vm_compute.
  - by vm_compute.
Qed.

Definition demo_row : Proposal Z :=
  Eval vm_compute in default (demo_proposal 0 0 0 []) (find_key pp_id 1 (es_proposals demo_trading.1.1)).

Lemma decision_is_first_row_witness :
  (decide_engine 1 (demo_inputs GradeOk) EpochParams_DEFAULT demo_trading.1.1).1 = Ok Adopt
  /\ forall r, r ∈ decision_table demo_row None (demo_inputs GradeOk) EpochParams_DEFAULT -> r.1 = false.
Proof.
  destruct (decision_is_first_row 1 (demo_inputs GradeOk) EpochParams_DEFAULT demo_trading.1.1 demo_row) as
    [(s' & E & _) Ha]; [by vm_compute|by vm_compute|by left|apply demo_inputs_ok|].
  assert (Hrow : first_row (decision_table demo_row None (demo_inputs GradeOk) EpochParams_DEFAULT) = Adopt)
    by (vm_compute; reflexivity).
  split; [rewrite E; cbn [fst]; f_equal; exact Hrow|]. apply Ha. exact Hrow.
Defined.

(** A clock with epochs of 42 and then 21 blocks, looked at in block 200. *)
Definition demo_clock : EpochState Z := set_epoch {|
  ei_index := 5; ei_phase := PhTrade; ei_phase_start_block := 110; ei_epoch_start_block := 100;
  ei_length := 42; ei_next_length := 21 |} EpochState_new.

Lemma catch_up_is_stepping_witness :
  ei_index (es_epoch (sync_phase 200 demo_clock)) = 8
  /\ ei_phase_start_block (es_epoch (sync_phase 200 demo_clock)) <= 200 < next_boundary (sync_phase 200 demo_clock).
Proof.
  destruct (catch_up_is_stepping 200 demo_clock) as (_ & E & _ & _ & _ & Hb).
  - split; [done|by right] || (split; [done|by left]).
  - split; vm_compute; done.
  - split; [split; vm_compute; done|split; vm_compute; done|vm_compute; reflexivity].
  - vm_compute. done.
  - split; [rewrite E; vm_compute; reflexivity|exact Hb].
Defined.

Definition demo_cohort : CohortInfo := {| ci_epoch := 0; ci_proposals := [1]; ci_status := CMeasuring 2 |}.

Lemma batches_settle_as_one_pass_witness :
  (settle_calls 0 [(1, 480000000, 1195200)] (1, 490000000, 1195300) (demo_late.1.1, tt)).1 = Ok 500000000.
Proof.
  destruct (settle_pass 0 demo_cohort 3 0 490000000 1195300 (demo_late.1.1, tt)) as [[v|e] st] eqn:E;
    [|vm_compute in E; done].
  rewrite (batches_settle_as_one_pass 0 [(1, 480000000, 1195200)] 1 490000000 1195300 demo_late.1.1 tt demo_cohort 3 0 v st).
  - vm_compute in E. by injection E as <- _.
  - split; try (vm_compute; reflexivity). exists 1. eexists. by vm_compute.
  - intros x ->%list_elem_of_singleton. by vm_compute.
  - by vm_compute.
  - cbn. lia.
  - exact E.
Defined.

Lemma checker_is_live_bound_witness : epoch_try_state demo_queued.1.1 = Ok tt.
Proof. apply (checker_is_live_bound demo_spec demo_queued demo_queued_reachable). apply Nat.leb_le. by vm_compute. Defined.

Lemma one_extension_one_delay_witness :
  used (uses_of Extension) 1 demo_queued.1.1 = 1%nat /\ (used (uses_of Delay) 1 demo_queued.1.1 <= 1)%nat.
Proof.
  destruct (one_extension_one_delay demo_spec demo_queued 1 demo_queued_reachable) as [_ Hd].
  split; [by vm_compute|exact Hd].
Defined.

(** A trader splits into the books before the execution. *)
Definition demo_split : DemoState :=
  Eval vm_compute in (demo_queued.1.1, (exec (CSplit Signed 1 7 50000000) demo_queued.1.2).2, tt).
Definition demo_executed : DemoState := Eval vm_compute in run_epoch [CallMarkExecuted 1] demo_split.

Lemma demo_executed_joint : joint_reachable demo_spec ledger_own demo_executed.
Proof.
  apply (run_joint_reachable ledger_own [CallMarkExecuted 1] demo_split); [done|].
  eapply joint_next; [|eapply (joint_ledger _ _ demo_queued); [|reflexivity]].
  - apply (run_joint_reachable ledger_own demo_to_queued demo_genesis); [apply demo_queued_ok|].
    apply joint_new. apply rtc_refl.
  - apply (own_call _ _ (CSplit Signed 1 7 50000000)); by vm_compute.
Qed.

Definition demo_measured_row : Proposal Z :=
  Eval vm_compute in default (demo_proposal 0 0 0 []) (find_key pp_id 1 (es_proposals demo_executed.1.1)).

Lemma vault_follows_proposal_witness :
  reachable demo_executed.1.2
  /\ exists w, verdict_ok (Some Adopt) w /\ (vault_state_of demo_executed.1.2 1 = Some (Resolved w, 3)
       \/ exists sc, vault_state_of demo_executed.1.2 1 = Some (ScalarSettled w sc, 3)).
Proof.
  destruct (vault_follows_proposal demo_spec demo_executed demo_executed_joint) as [Hr Hf].
  split; [exact Hr|]. exact (proj1 (Hf 1 demo_measured_row ltac:(vm_compute; reflexivity) eq_refl)).
Defined.
