(* ===== verification/Guardian.v ===== *)
(** * The guardian council (crates/guardian-core)

    Seven bonded members hold a closed list of powers. An action is proposed
    by a member and dispatched by the fifth approval, within three days; its
    use is metered by allowances, and each dispatch opens a review that must
    be ratified before its deadline or the approvers are slashed. *)

From S2P Require Import Prelude Keyed Primitives Proposals.

Abbreviation ActionId := Z (only parsing).

Definition GUARDIAN_SEATS : nat := 7.
Definition GUARDIAN_THRESHOLD : Z := 5.
Definition GUARDIAN_BOND : Balance := 50000000000000000.
Definition ACTION_EXPIRY_BLOCKS : BlockNumber := 43200.
Definition REVIEW_DEADLINE_EPOCHS : EpochId := 2.
Definition REVIEW_SLASH_PERCENT : Z := 50.
Definition PLAYBOOK_FREEZE_WINDOW_BLOCKS : BlockNumber := 201600.
Definition HOLD_MAX_BLOCKS : BlockNumber := PLAYBOOK_FREEZE_WINDOW_BLOCKS.
Definition FORCE_RERUN_WINDOW_BLOCKS : BlockNumber := DEC_EXTENSION_BLOCKS.
Definition DELAY_ONCE_ALLOWANCE_PER_EPOCH : Z := 2.
Definition FORCE_RERUN_ALLOWANCE_PER_EPOCH : Z := 1.
Definition PAUSE_INTAKE_ALLOWANCE_WINDOW_EPOCHS : EpochId := 4.
Definition PAUSE_INTAKE_ALLOWANCE : Z := 1.
Definition LEDGER_FREEZE_RENEWALS : Z := 1.
(** The bounds written as literals in [propose_action], [dispatch] and [try_state]. *)
Definition MAX_PENDING : nat := 64.
Definition MAX_REVIEWS : nat := 128.
Definition MAX_PLAYBOOKS : nat := 6.

Inductive GuardianOrigin : Type :=
| GoSigned
| GoConstitutionalValues
| GoGuardianHold
| GoEmergencyPlaybook.

Inductive ProposalStatus : Type :=
| StTrading
| StExtended
| StQueued
| StExecuted
| StRerun
| StOther.

Definition rerunnable (st : ProposalStatus) : bool :=
  match st with StTrading | StExtended | StQueued => true | _ => false end.

Inductive PlaybookId : Type :=
| Depeg
| Migration
| OracleVoid
| HaltIntake
| Reserve
| LedgerFreeze.

Definition ALL_PLAYBOOKS : list PlaybookId := [Depeg; Migration; OracleVoid; HaltIntake; Reserve; LedgerFreeze].

Inductive PlaybookTrigger : Type :=
| DepegMedian
| MigrationHalt
| OracleDeadlock
| GateBreach
| DeadMan
| VoidInFlight
| ReserveHealth
| LedgerDrift.

Inductive GuardianPower : Type :=
| PauseIntake (until : BlockNumber)
| DelayOnce (pid : ProposalId)
| ForceRerun (pid : ProposalId)
| ActivatePlaybook (id : PlaybookId) (trigger : PlaybookTrigger) (expiry : BlockNumber) (target : option EpochId)
| SuspendOnGate.

Record ActionTarget : Type := {
  at_pid : option ProposalId;
  at_playbook : option PlaybookId;
}.

Record PendingAction : Type := {
  pa_id : ActionId;
  pa_proposer : AccountId;
  pa_power : GuardianPower;
  pa_justification_hash : H256;
  pa_created_at : BlockNumber;
  pa_expires_at : BlockNumber;
  pa_dispatched : bool;
}.

Record ReviewRecord : Type := {
  rv_action_id : ActionId;
  rv_deadline_epoch : EpochId;
  rv_ratified : bool;
  rv_recall_scheduled : bool;
  rv_approvers : list AccountId;
  rv_approver_count : Z;
}.

Record ActivePlaybook : Type := {
  ap_id : PlaybookId;
  ap_expiry : BlockNumber;
  ap_renewals_used : Z;
}.

Inductive GuardianEvent : Type :=
| GuMembersSet (members : list AccountId)
| GuActionProposed (action_id : ActionId) (power : GuardianPower)
| GuActionApproved (action_id : ActionId) (who : AccountId) (approvals : Z)
| GuGuardianAction (action_id : ActionId) (power : GuardianPower) (target : ActionTarget) (justification_hash : H256)
| GuForceRerun (pid : ProposalId) (justification_hash : H256) (window_end : BlockNumber)
| GuPlaybookActivated (id : PlaybookId) (trigger : PlaybookTrigger) (expiry : BlockNumber)
| GuPlaybookRenewed (id : PlaybookId)
| GuPlaybookExpired (id : PlaybookId)
| GuReviewScheduled (action : ActionId)
| GuActionRatified (action : ActionId)
| GuReviewFailed (action : ActionId) (slashed_each : Balance).

Inductive GuardianError : Type :=
| GuBadOrigin
| GuNotMember
| GuDuplicateMember
| GuDuplicateApproval
| GuActionNotFound
| GuActionExpired
| GuAlreadyDispatched
| GuTooManyPending
| GuTooManyApprovals
| GuTooManyReviews
| GuTooManyActivePlaybooks
| GuThresholdNotMet
| GuAllowanceExhausted
| GuDurationTooLong
| GuTriggerInactive
| GuBadPlaybookTrigger
| GuBadPlaybookTarget
| GuAlreadyRerun
| GuNotRerunnable
| GuReviewNotFound
| GuAlreadyRatified
| GuRenewalNotAllowed
| GuPlaybookAlreadyActive
| GuOverflow.

Record TriggerState : Type := {
  tr_depeg : bool;
  tr_migration_halt : bool;
  tr_oracle_deadlock : bool;
  tr_gate_breach : bool;
  tr_dead_man : bool;
  tr_void_in_flight : bool;
  tr_reserve_health : bool;
  tr_ledger_drift : bool;
}.

Record Guardian : Type := {
  gu_members : list (option AccountId);
  gu_member_bonds : list Balance;
  gu_pending : list PendingAction;
  gu_approvals : list (ActionId * AccountId);
  gu_reviews : list ReviewRecord;
  gu_active_playbooks : list ActivePlaybook;
  gu_rerun_used : list ProposalId;
  gu_delay_used_this_epoch : Z;
  gu_force_rerun_used_this_epoch : Z;
  gu_pause_used_epoch_window_start : EpochId;
  gu_pause_used_in_window : Z;
  gu_current_epoch : EpochId;
  gu_review_deadline_epochs : EpochId;
  gu_next_action_id : ActionId;
  gu_events : list GuardianEvent;
}.

Record DispatchContext : Type := {
  dc_proposal_status : ProposalStatus;
  dc_in_rerun : bool;
  dc_triggers : TriggerState;
}.

#[export] Instance GuardianOrigin_eq_dec : EqDecision GuardianOrigin.
Proof. solve_decision. Defined.
#[export] Instance ProposalStatus_eq_dec : EqDecision ProposalStatus.
Proof. solve_decision. Defined.
#[export] Instance PlaybookId_eq_dec : EqDecision PlaybookId.
Proof. solve_decision. Defined.
#[export] Instance PlaybookTrigger_eq_dec : EqDecision PlaybookTrigger.
Proof. solve_decision. Defined.
#[export] Instance GuardianPower_eq_dec : EqDecision GuardianPower.
Proof. solve_decision. Defined.

(** ** Free functions *)

Definition trigger_none : TriggerState := {|
  tr_depeg := false; tr_migration_halt := false; tr_oracle_deadlock := false; tr_gate_breach := false;
  tr_dead_man := false; tr_void_in_flight := false; tr_reserve_health := false; tr_ledger_drift := false |}.

Definition is_active (ts : TriggerState) (trigger : PlaybookTrigger) : bool :=
  match trigger with
  | DepegMedian => tr_depeg ts
  | MigrationHalt => tr_migration_halt ts
  | OracleDeadlock => tr_oracle_deadlock ts
  | GateBreach => tr_gate_breach ts
  | DeadMan => tr_dead_man ts
  | VoidInFlight => tr_void_in_flight ts
  | ReserveHealth => tr_reserve_health ts
  | LedgerDrift => tr_ledger_drift ts
  end.

Definition validate_members (members : list AccountId) : Result GuardianError unit :=
  for_pairs (fun x y => ensure (negb (bool_decide (x = y))) GuDuplicateMember) members.

Definition validate_seats (members : list (option AccountId)) : Result GuardianError unit :=
  for_pairs (fun x y => match x with
                        | Some _ => ensure (negb (bool_decide (x = y))) GuDuplicateMember
                        | None => Ok tt
                        end) members.

Definition target_of (power : GuardianPower) : ActionTarget :=
  match power with
  | DelayOnce pid | ForceRerun pid => {| at_pid := Some pid; at_playbook := None |}
  | ActivatePlaybook id _ _ _ => {| at_pid := None; at_playbook := Some id |}
  | _ => {| at_pid := None; at_playbook := None |}
  end.

Definition trigger_matches (id : PlaybookId) (trigger : PlaybookTrigger) : bool :=
  match id, trigger with
  | Depeg, DepegMedian
  | Migration, MigrationHalt
  | OracleVoid, OracleDeadlock
  | HaltIntake, (GateBreach | DeadMan | VoidInFlight)
  | Reserve, ReserveHealth
  | LedgerFreeze, LedgerDrift => true
  | _, _ => false
  end.

(** ** Writes to the fields of the council *)

Definition set_gu_members (x : list (option AccountId)) (g : Guardian) : Guardian := {| g with gu_members := x |}.
Definition set_member_bonds (x : list Balance) (g : Guardian) : Guardian := {| g with gu_member_bonds := x |}.
Definition set_pending (x : list PendingAction) (g : Guardian) : Guardian := {| g with gu_pending := x |}.
Definition set_approvals (x : list (ActionId * AccountId)) (g : Guardian) : Guardian := {| g with gu_approvals := x |}.
Definition set_reviews (x : list ReviewRecord) (g : Guardian) : Guardian := {| g with gu_reviews := x |}.
Definition set_active_playbooks (x : list ActivePlaybook) (g : Guardian) : Guardian := {| g with gu_active_playbooks := x |}.
Definition set_rerun_used (x : list ProposalId) (g : Guardian) : Guardian := {| g with gu_rerun_used := x |}.
Definition set_delay_used (x : Z) (g : Guardian) : Guardian := {| g with gu_delay_used_this_epoch := x |}.
Definition set_force_rerun_used (x : Z) (g : Guardian) : Guardian := {| g with gu_force_rerun_used_this_epoch := x |}.
Definition set_pause_window_start (x : EpochId) (g : Guardian) : Guardian :=
  {| g with gu_pause_used_epoch_window_start := x |}.
Definition set_pause_used (x : Z) (g : Guardian) : Guardian := {| g with gu_pause_used_in_window := x |}.
Definition set_current_epoch (x : EpochId) (g : Guardian) : Guardian := {| g with gu_current_epoch := x |}.
Definition set_review_deadline_epochs (x : EpochId) (g : Guardian) : Guardian := {| g with gu_review_deadline_epochs := x |}.
Definition set_next_action_id (x : ActionId) (g : Guardian) : Guardian := {| g with gu_next_action_id := x |}.
Definition set_gu_events (x : list GuardianEvent) (g : Guardian) : Guardian := {| g with gu_events := x |}.

Definition set_expiry (x : BlockNumber) (p : ActivePlaybook) : ActivePlaybook := {| p with ap_expiry := x |}.
Definition count_renewal (p : ActivePlaybook) : ActivePlaybook :=
  {| p with ap_renewals_used := sat_add U8 (ap_renewals_used p) 1 |}.

(** ** State helpers *)

Abbreviation GM R := (ST Guardian GuardianError R).

Definition gu_push (ev : GuardianEvent) (g : Guardian) : Guardian :=
  set_gu_events (gu_events g ++ [ev]) g.

Definition ensure_values (origin : GuardianOrigin) : Result GuardianError unit :=
  ensure (bool_decide (origin = GoConstitutionalValues)) GuBadOrigin.

Definition is_member (who : AccountId) (g : Guardian) : bool := bool_decide (Some who ∈ gu_members g).

Definition ensure_member (who : AccountId) (g : Guardian) : Result GuardianError unit :=
  ensure (is_member who g) GuNotMember.

Definition approvers_of (id : ActionId) (g : Guardian) : list AccountId :=
  (filter (fun x => x.1 = id) (gu_approvals g)).*2.

Definition approval_count (id : ActionId) (g : Guardian) : Z := wrap U8 (Z.of_nat (length (approvers_of id g))).

(** The first seven approvers, in an array padded with the zero account. *)
Definition approver_snapshot (id : ActionId) (g : Guardian) : list AccountId * Z :=
  let l := take GUARDIAN_SEATS (approvers_of id g) in
  (l ++ replicate (GUARDIAN_SEATS - length l) 0, Z.of_nat (length l)).

(** The review that a dispatch opens. *)
Definition review_of (id : ActionId) (g : Guardian) : ReviewRecord := {|
  rv_action_id := id;
  rv_deadline_epoch := sat_add U32 (gu_current_epoch g) (gu_review_deadline_epochs g);
  rv_ratified := false;
  rv_recall_scheduled := false;
  rv_approvers := (approver_snapshot id g).1;
  rv_approver_count := (approver_snapshot id g).2 |}.

(** Only dispatched actions survive a change of seats. *)
Definition clear_workflow (g : Guardian) : Guardian :=
  set_approvals [] (set_pending (filter (fun a => pa_dispatched a = true) (gu_pending g)) g).

Definition mark_dispatched (a : PendingAction) : PendingAction := {| a with pa_dispatched := true |}.
Definition mark_ratified (r : ReviewRecord) : ReviewRecord := {| r with rv_ratified := true |}.
Definition mark_recall (r : ReviewRecord) : ReviewRecord := {| r with rv_recall_scheduled := true |}.

(** [if let Err(err) = m { undo; return Err(err) }] *)
Definition or_undo {R} (m : GM R) (undo : Guardian -> Guardian) : GM R :=
  fun g => match m g with
           | (Err e, g') => (Err e, undo g')
           | r => r
           end.

(** ** Council *)

Definition Guardian_new (members : list AccountId) : Result GuardianError Guardian :=
  do? validate_members members in
  Ok {| gu_members := Some <$> members; gu_member_bonds := replicate GUARDIAN_SEATS GUARDIAN_BOND;
        gu_pending := []; gu_approvals := []; gu_reviews := []; gu_active_playbooks := []; gu_rerun_used := [];
        gu_delay_used_this_epoch := 0; gu_force_rerun_used_this_epoch := 0;
        gu_pause_used_epoch_window_start := 0; gu_pause_used_in_window := 0; gu_current_epoch := 0;
        gu_review_deadline_epochs := REVIEW_DEADLINE_EPOCHS; gu_next_action_id := 0; gu_events := [] |}.

Definition gu_set_epoch (epoch : EpochId) (g : Guardian) : Guardian :=
  if epoch =? gu_current_epoch g then g
  else (set_force_rerun_used 0 (set_delay_used 0 (set_current_epoch epoch g))).

Definition set_members (origin : GuardianOrigin) (members : list AccountId) : GM unit :=
  do! lift (ensure_values origin) in
  do! lift (validate_members members) in
  do! modify (fun g => set_member_bonds (replicate GUARDIAN_SEATS GUARDIAN_BOND) (set_gu_members (Some <$> members) g)) in
  do! modify clear_workflow in
  modify (gu_push (GuMembersSet members)).

Definition recalled (approvers : list AccountId) (member : option AccountId) : bool :=
  match member with Some who => bool_decide (who ∈ approvers) | None => false end.

Definition recall_members (origin : GuardianOrigin) (approvers : list AccountId) : GM unit :=
  do! lift (ensure_values origin) in
  do! modify (fun g =>
        set_member_bonds (zip_with (fun m b => if recalled approvers m then 0 else b) (gu_members g) (gu_member_bonds g))
          (set_gu_members ((fun m => if recalled approvers m then None else m) <$> gu_members g) g)) in
  modify clear_workflow.

(** ** Proposing and approving *)

Definition propose_action (who : AccountId) (power : GuardianPower) (justification_hash : H256)
    (now : BlockNumber) : GM ActionId :=
  do! reads (ensure_member who) in
  do! reads (fun g => ensure (length (gu_pending g) <? MAX_PENDING)%nat GuTooManyPending) in
  let! id := gets gu_next_action_id in
  let! next := lift (ok_or GuOverflow (checked_add U32 id 1)) in
  do! modify (fun g => set_next_action_id next g) in
  let! expires_at := lift (ok_or GuOverflow (checked_add U32 now ACTION_EXPIRY_BLOCKS)) in
  do! modify (fun g => set_pending (gu_pending g ++
        [{| pa_id := id; pa_proposer := who; pa_power := power; pa_justification_hash := justification_hash;
            pa_created_at := now; pa_expires_at := expires_at; pa_dispatched := false |}]) g) in
  do! modify (fun g => set_approvals (gu_approvals g ++ [(id, who)]) g) in
  do! modify (gu_push (GuActionProposed id power)) in
  ret id.

(** The meters and conditions of each power. *)
Definition check_and_consume (power : GuardianPower) (now : BlockNumber) (ctx : DispatchContext) : GM unit :=
  match power with
  | PauseIntake until =>
      do! lift (ensure ((now <=? until) && (until <=? sat_add U32 now HOLD_MAX_BLOCKS)) GuDurationTooLong) in
      do! modify (fun g =>
            if PAUSE_INTAKE_ALLOWANCE_WINDOW_EPOCHS
               <=? sat_sub (gu_current_epoch g) (gu_pause_used_epoch_window_start g)
            then (set_pause_used 0 (set_pause_window_start (gu_current_epoch g) g))
            else g) in
      do! reads (fun g => ensure (gu_pause_used_in_window g <? PAUSE_INTAKE_ALLOWANCE) GuAllowanceExhausted) in
      modify (fun g => set_pause_used (sat_add U8 (gu_pause_used_in_window g) 1) g)
  | DelayOnce pid =>
      do! lift (ensure (bool_decide (dc_proposal_status ctx = StQueued)) GuNotRerunnable) in
      do! reads (fun g => ensure (negb (dc_in_rerun ctx) && negb (bool_decide (pid ∈ gu_rerun_used g)))
                                 GuAlreadyRerun) in
      do! reads (fun g => ensure (gu_delay_used_this_epoch g <? DELAY_ONCE_ALLOWANCE_PER_EPOCH)
                                 GuAllowanceExhausted) in
      modify (fun g => set_rerun_used (gu_rerun_used g ++ [pid])
        (set_delay_used (sat_add U8 (gu_delay_used_this_epoch g) 1) g))
  | ForceRerun pid =>
      do! lift (ensure (rerunnable (dc_proposal_status ctx)) GuNotRerunnable) in
      do! reads (fun g => ensure (negb (dc_in_rerun ctx) && negb (bool_decide (pid ∈ gu_rerun_used g)))
                                 GuAlreadyRerun) in
      do! reads (fun g => ensure (gu_force_rerun_used_this_epoch g <? FORCE_RERUN_ALLOWANCE_PER_EPOCH)
                                 GuAllowanceExhausted) in
      modify (fun g => set_rerun_used (gu_rerun_used g ++ [pid])
        (set_force_rerun_used (sat_add U8 (gu_force_rerun_used_this_epoch g) 1) g))
  | ActivatePlaybook id trigger expiry target =>
      do! lift (ensure ((now <=? expiry) && (expiry <=? sat_add U32 now HOLD_MAX_BLOCKS)) GuDurationTooLong) in
      do! lift (ensure (trigger_matches id trigger) GuBadPlaybookTrigger) in
      do! lift (ensure (match id, target with
                        | OracleVoid, Some _ => true
                        | OracleVoid, None => false
                        | _, None => true
                        | _, Some _ => false
                        end) GuBadPlaybookTarget) in
      lift (ensure (is_active (dc_triggers ctx) trigger) GuTriggerInactive)
  | SuspendOnGate => lift (ensure (tr_gate_breach (dc_triggers ctx)) GuTriggerInactive)
  end.

(** One record per playbook: a running freeze is refused, any other running
    playbook is extended in place, a new one needs a slot. *)
Definition check_slot (power : GuardianPower) (g : Guardian) : Result GuardianError unit :=
  match power with
  | ActivatePlaybook id _ _ _ =>
      if existsb (fun p => bool_decide (ap_id p = id)) (gu_active_playbooks g)
      then ensure (negb (bool_decide (id = LedgerFreeze))) GuPlaybookAlreadyActive
      else ensure (length (gu_active_playbooks g) <? MAX_PLAYBOOKS)%nat GuTooManyActivePlaybooks
  | _ => Ok tt
  end.

Definition upsert_playbook (id : PlaybookId) (expiry : BlockNumber) (l : list ActivePlaybook) : list ActivePlaybook :=
  match find_key ap_id id l with
  | Some _ => alter_key ap_id id (set_expiry expiry) l
  | None => l ++ [{| ap_id := id; ap_expiry := expiry; ap_renewals_used := 0 |}]
  end.

(** [action] is [self.pending[idx]]. *)
Definition dispatch (action : PendingAction) (now : BlockNumber) (ctx : DispatchContext) : GM unit :=
  let id := pa_id action in
  let power := pa_power action in
  do! reads (fun g => ensure (length (gu_reviews g) <? MAX_REVIEWS)%nat GuTooManyReviews) in
  do! reads (check_slot power) in
  do! check_and_consume power now ctx in
  do! modify (fun g => set_pending (alter_key pa_id id mark_dispatched (gu_pending g)) g) in
  do! modify (gu_push (GuGuardianAction id power (target_of power) (pa_justification_hash action))) in
  do! (match power with
       | ForceRerun pid =>
           let! window_end := lift (ok_or GuOverflow (checked_add U32 now FORCE_RERUN_WINDOW_BLOCKS)) in
           modify (gu_push (GuForceRerun pid (pa_justification_hash action) window_end))
       | _ => ret tt
       end) in
  do! (match power with
       | ActivatePlaybook pb trigger expiry _ =>
           do! modify (fun g => set_active_playbooks (upsert_playbook pb expiry (gu_active_playbooks g)) g) in
           modify (gu_push (GuPlaybookActivated pb trigger expiry))
       | _ => ret tt
       end) in
  do! modify (fun g => set_reviews (gu_reviews g ++ [review_of id g]) g) in
  modify (gu_push (GuReviewScheduled id)).

Definition drop_approval (id : ActionId) (who : AccountId) (g : Guardian) : Guardian :=
  set_approvals (filter (fun x => ~ (x.1 = id /\ x.2 = who)) (gu_approvals g)) g.

Definition approve_action (who : AccountId) (id : ActionId) (now : BlockNumber) (ctx : DispatchContext) : GM bool :=
  do! reads (ensure_member who) in
  let! action := reads (fun g => ok_or GuActionNotFound (find_key pa_id id (gu_pending g))) in
  do! lift (ensure (now <=? pa_expires_at action) GuActionExpired) in
  do! lift (ensure (negb (pa_dispatched action)) GuAlreadyDispatched) in
  do! reads (fun g => ensure (negb (existsb (fun x => (x.1 =? id) && (x.2 =? who)) (gu_approvals g)))
                             GuDuplicateApproval) in
  do! modify (fun g => set_approvals (gu_approvals g ++ [(id, who)]) g) in
  let! approvals := gets (approval_count id) in
  let! dispatched :=
    if GUARDIAN_THRESHOLD <=? approvals
    then do! or_undo (dispatch action now ctx) (drop_approval id who) in ret true
    else ret false in
  do! modify (gu_push (GuActionApproved id who approvals)) in
  ret dispatched.

(** ** Reviews *)

Definition ratify_action (origin : GuardianOrigin) (action_id : ActionId) : GM unit :=
  do! lift (ensure_values origin) in
  let! review := reads (fun g => ok_or GuReviewNotFound (find_key rv_action_id action_id (gu_reviews g))) in
  do! lift (ensure (negb (rv_ratified review)) GuAlreadyRatified) in
  do! modify (fun g => set_reviews (alter_key rv_action_id action_id mark_ratified (gu_reviews g)) g) in
  modify (gu_push (GuActionRatified action_id)).

(** Slash the first seat of [approver], when there is one. *)
Definition slash_seat (members : list (option AccountId)) (bonds : list Balance) (x : AccountId * Balance)
    : list Balance :=
  match list_find (fun m => m = Some x.1) members with
  | Some (index, _) => alter (fun b => sat_sub b x.2) index bonds
  | None => bonds
  end.

Definition review_due (epoch : EpochId) (r : ReviewRecord) : bool :=
  negb (rv_ratified r) && negb (rv_recall_scheduled r) && (rv_deadline_epoch r <? epoch).

Definition mark_review_failed (action_id : ActionId) (epoch : EpochId) (actual_slashes : list Balance) : GM unit :=
  let! review := reads (fun g => ok_or GuReviewNotFound (find_key rv_action_id action_id (gu_reviews g))) in
  do! lift (ensure (review_due epoch review) GuReviewNotFound) in
  do! modify (fun g => set_reviews (alter_key rv_action_id action_id mark_recall (gu_reviews g)) g) in
  modify (fun g => set_member_bonds (fold_left (slash_seat (gu_members g))
    (zip (take (Z.to_nat (rv_approver_count review)) (rv_approvers review)) actual_slashes) (gu_member_bonds g)) g).

Definition nominal_slash : Balance := sat_mul U128 GUARDIAN_BOND REVIEW_SLASH_PERCENT / 100.

Definition enforce_reviews (epoch : EpochId) : GM unit :=
  let! due := gets (fun g => rv_action_id <$> filter (fun r => review_due epoch r = true) (gu_reviews g)) in
  for_each_st (fun action =>
    do! mark_review_failed action epoch (replicate GUARDIAN_SEATS nominal_slash) in
    modify (gu_push (GuReviewFailed action nominal_slash))) due.

(** ** Playbooks *)

Definition renew_playbook (origin : GuardianOrigin) (id : PlaybookId) (now : BlockNumber) : GM unit :=
  do! lift (ensure_values origin) in
  do! lift (ensure (bool_decide (id = LedgerFreeze)) GuRenewalNotAllowed) in
  let! active := reads (fun g => ok_or GuRenewalNotAllowed (find_key ap_id id (gu_active_playbooks g))) in
  do! lift (ensure (ap_renewals_used active <? LEDGER_FREEZE_RENEWALS) GuRenewalNotAllowed) in
  do! modify (fun g => set_active_playbooks (alter_key ap_id id count_renewal (gu_active_playbooks g)) g) in
  let! expiry := lift (ok_or GuOverflow (checked_add U32 now HOLD_MAX_BLOCKS)) in
  do! modify (fun g => set_active_playbooks (alter_key ap_id id (set_expiry expiry) (gu_active_playbooks g)) g) in
  modify (gu_push (GuPlaybookRenewed id)).

Definition expire_playbooks (now : BlockNumber) (g : Guardian) : Guardian :=
  let expired := filter (fun p => ap_expiry p <= now) (gu_active_playbooks g) in
  set_active_playbooks (filter (fun p => now < ap_expiry p) (gu_active_playbooks g))
    (set_gu_events (gu_events g ++ ((fun p => GuPlaybookExpired (ap_id p)) <$> expired)) g).

(** ** Reaping *)

(** Failed reviews of delays whose veto referendum is still live. *)
Definition veto_actions (veto_live : ActionId -> bool) (g : Guardian) : list ActionId :=
  pa_id <$> filter (fun a =>
    match pa_power a with DelayOnce _ => true | _ => false end
    && existsb (fun r => (rv_action_id r =? pa_id a) && rv_recall_scheduled r) (gu_reviews g)
    && veto_live (pa_id a) = true) (gu_pending g).

Definition review_live (g : Guardian) (id : ActionId) : bool :=
  existsb (fun r => (rv_action_id r =? id) && negb (rv_ratified r) && negb (rv_recall_scheduled r)) (gu_reviews g).

Definition action_terminal (now : BlockNumber) (vetoes : list ActionId) (g : Guardian) (a : PendingAction) : bool :=
  (pa_dispatched a && negb (review_live g (pa_id a)) && negb (bool_decide (pa_id a ∈ vetoes)))
  || (negb (pa_dispatched a) && (pa_expires_at a <? now)).

Definition review_terminal (vetoes : list ActionId) (r : ReviewRecord) : bool :=
  rv_ratified r || (rv_recall_scheduled r && negb (bool_decide (rv_action_id r ∈ vetoes))).

Definition reap_terminal_with_veto (now : BlockNumber) (veto_live : ActionId -> bool) (g : Guardian) : Guardian :=
  let vetoes := veto_actions veto_live g in
  let reaped := pa_id <$> filter (fun a => action_terminal now vetoes g a = true) (gu_pending g) in
  set_reviews (filter (fun r => review_terminal vetoes r = false) (gu_reviews g))
    (set_approvals (filter (fun x => x.1 ∉ reaped) (gu_approvals g))
      (set_pending (filter (fun a => action_terminal now vetoes g a = false) (gu_pending g)) g)).

Definition gu_reap_terminal (now : BlockNumber) (g : Guardian) : Guardian :=
  reap_terminal_with_veto now (fun _ => true) g.

Definition close_failed_review (origin : GuardianOrigin) (action_id : ActionId) : GM unit :=
  do! lift (ensure_values origin) in
  do! reads (fun g => ensure (existsb (fun r => (rv_action_id r =? action_id) && rv_recall_scheduled r)
                                      (gu_reviews g)) GuReviewNotFound) in
  do! reads (fun g => ensure (existsb (fun a => (pa_id a =? action_id)
                                         && match pa_power a with DelayOnce _ => true | _ => false end)
                                      (gu_pending g)) GuReviewNotFound) in
  modify (fun g =>
    set_approvals (filter (fun x => x.1 <> action_id) (gu_approvals g))
      (set_pending (filter (fun a => pa_id a <> action_id) (gu_pending g))
        (set_reviews (filter (fun r => rv_action_id r <> action_id) (gu_reviews g)) g))).

(** ** The runtime checker *)

Definition guardian_try_state (g : Guardian) : Result GuardianError unit :=
  do? validate_seats (gu_members g) in
  do? ensure (length (gu_pending g) <=? MAX_PENDING)%nat GuTooManyPending in
  do? ensure (length (gu_reviews g) <=? MAX_REVIEWS)%nat GuTooManyReviews in
  do? ensure (length (gu_active_playbooks g) <=? MAX_PLAYBOOKS)%nat GuTooManyActivePlaybooks in
  do? for_pairs (fun p q => ensure (negb (bool_decide (ap_id p = ap_id q))) GuPlaybookAlreadyActive)
                (gu_active_playbooks g) in
  for_each (fun x =>
    do? ensure (existsb (fun a => pa_id a =? x.1) (gu_pending g)) GuActionNotFound in
    ensure_member x.2 g) (gu_approvals g).
