(* ===== verification/GuardianSystem.v ===== *)
(** * The guardian council as a transition system

    The calls of the guardian pallet: a step is a successful call at a block
    that is not earlier than the one before, because the shell rolls a failed
    call back. The epoch and the live review deadline are loaded from other
    pallets before a call. *)

From S2P Require Import Prelude Keyed Primitives Proposals Guardian.

Inductive GuardianCall : Type :=
| GSetMembers (members : list AccountId)
| GRecall (approvers : list AccountId)
| GPropose (who : AccountId) (power : GuardianPower) (h : H256)
| GApprove (who : AccountId) (id : ActionId) (ctx : DispatchContext)
| GRatify (id : ActionId)
| GReviewFailed (id : ActionId) (slashes : list Balance)
| GEnforce (epoch : EpochId)
| GRenew (id : PlaybookId)
| GExpire
| GReap (veto_live : ActionId -> bool)
| GCloseReview (id : ActionId)
| GSetEpoch (epoch : EpochId)
| GSetDeadline (epochs : EpochId).

Definition guardian_exec (c : GuardianCall) (now : BlockNumber) : ST Guardian GuardianError unit :=
  match c with
  | GSetMembers ms => set_members GoConstitutionalValues ms
  | GRecall ws => recall_members GoConstitutionalValues ws
  | GPropose who power h => do! propose_action who power h now in ret tt
  | GApprove who id ctx => do! approve_action who id now ctx in ret tt
  | GRatify id => ratify_action GoConstitutionalValues id
  | GReviewFailed id slashes => let! e := gets gu_current_epoch in mark_review_failed id e slashes
  | GEnforce epoch => enforce_reviews epoch
  | GRenew id => renew_playbook GoConstitutionalValues id now
  | GExpire => modify (expire_playbooks now)
  | GReap veto_live => modify (reap_terminal_with_veto now veto_live)
  | GCloseReview id => close_failed_review GoConstitutionalValues id
  | GSetEpoch epoch => modify (gu_set_epoch epoch)
  | GSetDeadline epochs => modify (set_review_deadline_epochs epochs)
  end.

(** What the types of the code guarantee: seats come in sevens. *)
Definition guardian_call_ok (c : GuardianCall) : Prop :=
  match c with
  | GSetMembers ms => length ms = GUARDIAN_SEATS
  | _ => True
  end.

Definition guardian_step (x y : BlockNumber * Guardian) : Prop :=
  x.1 <= y.1 /\ exists c, guardian_call_ok c /\ guardian_exec c y.1 x.2 = (Ok tt, y.2).

Definition guardian_genesis (x : BlockNumber * Guardian) : Prop :=
  exists members, length members = GUARDIAN_SEATS /\ Guardian_new members = Ok x.2.

Definition guardian_reachable (x : BlockNumber * Guardian) : Prop :=
  exists x0, guardian_genesis x0 /\ rtc guardian_step x0 x.

(** A run during which the epoch does not change. *)
Definition same_epoch_step (x y : BlockNumber * Guardian) : Prop :=
  guardian_step x y /\ gu_current_epoch y.2 = gu_current_epoch x.2.

(** ** What the log says *)

Definition rerun_of (ev : GuardianEvent) : option ProposalId :=
  match ev with
  | GuGuardianAction _ (DelayOnce pid) _ _ | GuGuardianAction _ (ForceRerun pid) _ _ => Some pid
  | _ => None
  end.
Definition reruns (evs : list GuardianEvent) : list ProposalId := omap rerun_of evs.

Definition is_delay (ev : GuardianEvent) : bool :=
  match ev with GuGuardianAction _ (DelayOnce _) _ _ => true | _ => false end.
Definition is_force (ev : GuardianEvent) : bool :=
  match ev with GuGuardianAction _ (ForceRerun _) _ _ => true | _ => false end.
Definition delays (evs : list GuardianEvent) : Z := Z.of_nat (length (filter (fun ev => is_delay ev = true) evs)).
Definition forces (evs : list GuardianEvent) : Z := Z.of_nat (length (filter (fun ev => is_force ev = true) evs)).

(** The actions dispatched so far. *)
Definition action_of (ev : GuardianEvent) : option ActionId :=
  match ev with GuGuardianAction id _ _ _ => Some id | _ => None end.
Definition dispatched_ids (evs : list GuardianEvent) : list ActionId := omap action_of evs.

(** ** The invariant of the guardian council

    In four parts, each a predicate of the fields it is about, so that an
    operation leaves the parts it does not touch to computation: the seats,
    the workflow of actions, approvals and reviews, the meters, and the
    running playbooks. *)

(** ** The log *)

Lemma reruns_app l k : reruns (l ++ k) = reruns l ++ reruns k.
Proof. apply omap_app. Qed.
Lemma dispatched_ids_app l k : dispatched_ids (l ++ k) = dispatched_ids l ++ dispatched_ids k.
Proof. apply omap_app. Qed.
Lemma delays_app l k : delays (l ++ k) = delays l + delays k.
Proof. unfold delays. rewrite filter_app, length_app. lia. Qed.
Lemma forces_app l k : forces (l ++ k) = forces l + forces k.
Proof. unfold forces. rewrite filter_app, length_app. lia. Qed.

#[export] Hint Rewrite reruns_app dispatched_ids_app delays_app forces_app : guardian_log.

(** ** Pairwise checks *)

(** The occupied seats. *)
Definition seated (members : list (option AccountId)) : list AccountId := omap id members.

Lemma elem_of_seated who members : who ∈ seated members <-> Some who ∈ members.
Proof.
  unfold seated. rewrite list_elem_of_omap. split; [intros (m & Hm & E)|]; [|intros Hm; by exists (Some who)].
  cbn in E. by subst.
Qed.

Lemma validate_seats_NoDup members : validate_seats members = Ok tt <-> NoDup (seated members).
Proof.
  unfold validate_seats. induction members as [|m l IH]; [split; [constructor|done]|].
  cbn [for_pairs]. rewrite rbind_Ok. destruct m as [who|]; cbn [seated omap list_omap id].
  - rewrite NoDup_cons, <- IH. change (list_omap _ _ _ l) with (seated l). rewrite elem_of_seated. split.
    + intros ([] & H1 & H2). split; [|done]. intros Hw. rewrite for_each_Ok in H1. specialize (H1 _ Hw).
      rewrite ensure_Ok in H1. by rewrite bool_decide_eq_true_2 in H1.
    + intros [H1 H2]. exists tt. split; [|done]. apply for_each_Ok. intros y Hy. apply ensure_true.
      rewrite bool_decide_eq_false_2; [done|]. by intros <-.
  - rewrite <- IH. split; [by intros ([] & _ & H)|]. intros H. exists tt. split; [|done]. by apply for_each_Ok.
Qed.

(** ** The parts *)

Record seats_ok (members : list (option AccountId)) (bonds : list Balance) : Prop := {
  so_members : length members = GUARDIAN_SEATS;
  so_bonds : length bonds = GUARDIAN_SEATS;
  so_distinct : NoDup (seated members);
}.

(** A review names at least five distinct approvers and at most seven. *)
Record review_ok (r : ReviewRecord) : Prop := {
  ro_length : length (rv_approvers r) = GUARDIAN_SEATS;
  ro_count : GUARDIAN_THRESHOLD <= rv_approver_count r <= Z.of_nat GUARDIAN_SEATS;
  ro_distinct : NoDup (take (Z.to_nat (rv_approver_count r)) (rv_approvers r));
}.

Record work_ok (members : list (option AccountId)) (pending : list PendingAction)
    (approvals : list (ActionId * AccountId)) (reviews : list ReviewRecord) (next : ActionId)
    (done : list ActionId) : Prop := {
  wo_pending_ids : NoDup (pa_id <$> pending);
  wo_pending_next : forall a, a ∈ pending -> pa_id a < next;
  wo_pending_length : (length pending <= MAX_PENDING)%nat;
  wo_approvals : NoDup approvals;
  wo_approvals_pending : forall x, x ∈ approvals -> x.1 ∈ pa_id <$> pending;
  wo_approvals_seated : forall x, x ∈ approvals -> Some x.2 ∈ members;
  wo_reviews_length : (length reviews <= MAX_REVIEWS)%nat;
  wo_reviews : forall r, r ∈ reviews -> review_ok r;
  wo_done : NoDup done;
  wo_done_next : forall i, i ∈ done -> i < next;
  wo_done_flag : forall a, a ∈ pending -> pa_dispatched a = true <-> pa_id a ∈ done;
}.

Record meters_ok (log : list ProposalId) (rerun_used : list ProposalId) (delay force pause : Z) : Prop := {
  mo_log : log = rerun_used;
  mo_distinct : NoDup rerun_used;
  mo_delay : 0 <= delay <= DELAY_ONCE_ALLOWANCE_PER_EPOCH;
  mo_force : 0 <= force <= FORCE_RERUN_ALLOWANCE_PER_EPOCH;
  mo_pause : 0 <= pause <= PAUSE_INTAKE_ALLOWANCE;
}.

Record books_ok (now : BlockNumber) (l : list ActivePlaybook) : Prop := {
  bo_ids : NoDup (ap_id <$> l);
  bo_length : (length l <= MAX_PLAYBOOKS)%nat;
  bo_expiry : forall p, p ∈ l -> ap_expiry p <= now + HOLD_MAX_BLOCKS;
}.

Record GInv (now : BlockNumber) (g : Guardian) : Prop := {
  gi_seats : seats_ok (gu_members g) (gu_member_bonds g);
  gi_work : work_ok (gu_members g) (gu_pending g) (gu_approvals g) (gu_reviews g) (gu_next_action_id g)
                    (dispatched_ids (gu_events g));
  gi_meters : meters_ok (reruns (gu_events g)) (gu_rerun_used g) (gu_delay_used_this_epoch g)
                (gu_force_rerun_used_this_epoch g) (gu_pause_used_in_window g);
  gi_books : books_ok now (gu_active_playbooks g);
}.

(** ** The workflow *)

Lemma NoDup_fmap_filter {T K} (f : T -> K) (P : T -> Prop) `{forall x, Decision (P x)} l :
  NoDup (f <$> l) -> NoDup (f <$> filter P l).
Proof. intros Hl. eapply sublist_NoDup; [exact Hl|]. apply fmap_sublist, sublist_filter. Qed.

Section workflow.
Context (ms : list (option AccountId)) (pend : list PendingAction) (appr : list (ActionId * AccountId)).
Context (revs : list ReviewRecord) (next : ActionId) (fin : list ActionId).
Hypothesis W : work_ok ms pend appr revs next fin.

(** What is left of the actions and approvals when some actions are dropped. *)
Lemma work_filter ms' (P : PendingAction -> Prop) `{forall a, Decision (P a)}
    (Q : ActionId * AccountId -> Prop) `{forall x, Decision (Q x)} :
  (forall x, x ∈ appr -> Q x -> Some x.2 ∈ ms') ->
  (forall x a, x ∈ appr -> Q x -> a ∈ pend -> pa_id a = x.1 -> P a) ->
  work_ok ms' (filter P pend) (filter Q appr) revs next fin.
Proof.
  intros Hms Hq. destruct W. split; try done.
  - by apply NoDup_fmap_filter.
  - intros a [_ Ha]%list_elem_of_filter. by apply wo_pending_next0.
  - etrans; [apply length_filter|done].
  - by apply NoDup_filter.
  - intros x [Hx Hin]%list_elem_of_filter. specialize (wo_approvals_pending0 x Hin).
    apply list_elem_of_fmap in wo_approvals_pending0 as (a & E & Ha).
    apply list_elem_of_fmap. exists a. split; [done|]. apply list_elem_of_filter. split; [|done]. by eapply Hq.
  - intros x [Hx Hin]%list_elem_of_filter. by apply Hms.
  - intros a [_ Ha]%list_elem_of_filter. by apply wo_done_flag0.
Qed.

Lemma work_clear ms' (P : PendingAction -> Prop) `{forall a, Decision (P a)} :
  work_ok ms' (filter P pend) [] revs next fin.
Proof.
  replace (@nil (ActionId * AccountId)) with (filter (fun _ : ActionId * AccountId => False) appr).
  - by apply work_filter.
  - clear. induction appr as [|x l IH]; [done|]. rewrite filter_cons_False; tauto.
Qed.

Lemma work_reviews_filter (P : ReviewRecord -> Prop) `{forall r, Decision (P r)} :
  work_ok ms pend appr (filter P revs) next fin.
Proof.
  destruct W. split; try done.
  - etrans; [apply length_filter|done].
  - intros r [_ Hr]%list_elem_of_filter. by apply wo_reviews0.
Qed.

Lemma work_reviews_alter id (f : ReviewRecord -> ReviewRecord) :
  (forall r, review_ok r -> review_ok (f r)) -> work_ok ms pend appr (alter_key rv_action_id id f revs) next fin.
Proof.
  intros Hf. destruct W. split; try done.
  - rewrite length_alter_key; done.
  - intros r Hr. apply elem_of_alter in Hr as [Hr|(r0 & [_ Hr]%find_key_Some & ->)]; eauto.
Qed.

Lemma work_propose a who :
  pa_id a = next -> pa_dispatched a = false -> Some who ∈ ms -> (length pend < MAX_PENDING)%nat ->
  work_ok ms (pend ++ [a]) (appr ++ [(next, who)]) revs (next + 1) fin.
Proof.
  intros Ea Hd Hw Hl. destruct W.
  assert (Hfresh : next ∉ pa_id <$> pend).
  { intros (b & E & Hb)%list_elem_of_fmap. specialize (wo_pending_next0 b Hb). lia. }
  split; try done.
  - rewrite fmap_app. apply NoDup_app. split_and!; [done| |apply NoDup_singleton].
    intros i Hi [= ->]%list_elem_of_singleton. by rewrite Ea in Hi.
  - intros b [Hb| ->%list_elem_of_singleton]%elem_of_app; [specialize (wo_pending_next0 b Hb)|]; lia.
  - rewrite length_app. cbn. lia.
  - apply NoDup_app. split_and!; [done| |apply NoDup_singleton].
    intros x Hx ->%list_elem_of_singleton. by specialize (wo_approvals_pending0 _ Hx).
  - intros x Hx. rewrite fmap_app. apply elem_of_app.
    apply elem_of_app in Hx as [Hx| ->%list_elem_of_singleton]; [by left; auto|right]. cbn. rewrite Ea. by left.
  - intros x [Hx| ->%list_elem_of_singleton]%elem_of_app; [by auto|done].
  - intros i Hi. specialize (wo_done_next0 i Hi). lia.
  - intros b [Hb| ->%list_elem_of_singleton]%elem_of_app; [by auto|].
    rewrite Hd, Ea. split; [done|]. intros Hi. specialize (wo_done_next0 _ Hi). lia.
Qed.

Lemma work_approve id a who :
  find_key pa_id id pend = Some a -> Some who ∈ ms -> (id, who) ∉ appr ->
  work_ok ms pend (appr ++ [(id, who)]) revs next fin.
Proof.
  intros [Ea Ha]%find_key_Some Hw Hn. destruct W. split; try done.
  - apply NoDup_app. split_and!; [done| |apply NoDup_singleton]. by intros x Hx ->%list_elem_of_singleton.
  - intros x [Hx| ->%list_elem_of_singleton]%elem_of_app; [by auto|].
    apply list_elem_of_fmap. by exists a.
  - intros x [Hx| ->%list_elem_of_singleton]%elem_of_app; by auto.
Qed.

Lemma work_dispatch id a r :
  find_key pa_id id pend = Some a -> pa_dispatched a = false -> (length revs < MAX_REVIEWS)%nat -> review_ok r ->
  work_ok ms (alter_key pa_id id mark_dispatched pend) appr (revs ++ [r]) next (fin ++ [id]).
Proof.
  intros Hfind Hd Hl Hr. destruct W. pose proof Hfind as [Ea Ha]%find_key_Some.
  assert (Hids : pa_id <$> alter_key pa_id id mark_dispatched pend = pa_id <$> pend) by by apply keys_alter.
  assert (Hnot : id ∉ fin). { rewrite <- Ea, <- wo_done_flag0 by done. by rewrite Hd. }
  split; try done.
  - by rewrite Hids.
  - intros b Hb. apply elem_of_alter in Hb as [Hb|(b0 & [_ Hb]%find_key_Some & ->)]; exact (wo_pending_next0 _ Hb).
  - by rewrite length_alter_key.
  - intros x Hx. rewrite Hids. by apply wo_approvals_pending0.
  - rewrite length_app. cbn. lia.
  - intros r' [Hr'| ->%list_elem_of_singleton]%elem_of_app; auto.
  - apply NoDup_app. split_and!; [done| |apply NoDup_singleton]. by intros i Hi ->%list_elem_of_singleton.
  - intros i [Hi| ->%list_elem_of_singleton]%elem_of_app; [by auto|]. rewrite <- Ea. by apply wo_pending_next0.
  - intros b Hb. rewrite elem_of_app, list_elem_of_singleton.
    apply elem_of_alter_NoDup in Hb; [|done|done]. destruct Hb as [[Hb Hne]|(b0 & [Eb _]%find_key_Some & ->)].
    + rewrite wo_done_flag0 by done. naive_solver.
    + cbn. naive_solver.
Qed.

(** The approvers of an action are distinct members. *)
Lemma approvers_distinct id : NoDup (filter (fun x => x.1 = id) appr).*2.
Proof.
  destruct W. apply NoDup_fmap_2_strong; [|by apply NoDup_filter].
  intros [i w] [j v] [Hi _]%list_elem_of_filter [Hj _]%list_elem_of_filter. cbn in *. by intros ->; subst.
Qed.

Lemma approvers_seated id who : who ∈ (filter (fun x => x.1 = id) appr).*2 -> Some who ∈ ms.
Proof.
  intros ([i w] & -> & [_ Hx]%list_elem_of_filter)%list_elem_of_fmap. by apply (wo_approvals_seated _ _ _ _ _ _ W).
Qed.

Lemma approvers_bounded id :
  length ms = GUARDIAN_SEATS -> (length (filter (fun x => x.1 = id) appr).*2 <= GUARDIAN_SEATS)%nat.
Proof.
  intros <-. rewrite <- (length_fmap Some). apply submseteq_length, NoDup_submseteq.
  - apply NoDup_fmap_2; [apply _|apply approvers_distinct].
  - intros m (w & -> & Hw)%list_elem_of_fmap. by eapply approvers_seated.
Qed.

End workflow.
