(* ===== verification/GuardianKeep.v ===== *)
(** * Every call of the guardian keeps the invariant *)

From S2P Require Import Prelude Keyed Primitives Proposals Guardian GuardianSystem.

(** ** What a dispatch consumes *)

Definition power_pids (power : GuardianPower) : list ProposalId :=
  match power with DelayOnce pid | ForceRerun pid => [pid] | _ => [] end.
Definition power_delay (power : GuardianPower) : Z := match power with DelayOnce _ => 1 | _ => 0 end.
Definition power_force (power : GuardianPower) : Z := match power with ForceRerun _ => 1 | _ => 0 end.

(** The meters before and after. *)
Record consumed (power : GuardianPower) (g g' : Guardian) : Prop := {
  cn_rerun : gu_rerun_used g' = gu_rerun_used g ++ power_pids power;
  cn_fresh : forall pid, pid ∈ power_pids power -> pid ∉ gu_rerun_used g;
  cn_delay : gu_delay_used_this_epoch g' = gu_delay_used_this_epoch g + power_delay power;
  cn_delay_max : 0 < power_delay power -> gu_delay_used_this_epoch g' <= DELAY_ONCE_ALLOWANCE_PER_EPOCH;
  cn_force : gu_force_rerun_used_this_epoch g' = gu_force_rerun_used_this_epoch g + power_force power;
  cn_force_max : 0 < power_force power -> gu_force_rerun_used_this_epoch g' <= FORCE_RERUN_ALLOWANCE_PER_EPOCH;
  cn_pause : 0 <= gu_pause_used_in_window g <= PAUSE_INTAKE_ALLOWANCE ->
             0 <= gu_pause_used_in_window g' <= PAUSE_INTAKE_ALLOWANCE;
}.

(** All other fields. *)
Record same_but_meters (g g' : Guardian) : Prop := {
  sm_members : gu_members g' = gu_members g;
  sm_bonds : gu_member_bonds g' = gu_member_bonds g;
  sm_pending : gu_pending g' = gu_pending g;
  sm_approvals : gu_approvals g' = gu_approvals g;
  sm_reviews : gu_reviews g' = gu_reviews g;
  sm_books : gu_active_playbooks g' = gu_active_playbooks g;
  sm_epoch : gu_current_epoch g' = gu_current_epoch g;
  sm_deadline : gu_review_deadline_epochs g' = gu_review_deadline_epochs g;
  sm_next : gu_next_action_id g' = gu_next_action_id g;
  sm_events : gu_events g' = gu_events g;
}.

Ltac meters := unfold DELAY_ONCE_ALLOWANCE_PER_EPOCH, FORCE_RERUN_ALLOWANCE_PER_EPOCH, PAUSE_INTAKE_ALLOWANCE in *.

Lemma check_and_consume_Ok power now ctx g u g' :
  check_and_consume power now ctx g = (Ok u, g') -> consumed power g g' /\ same_but_meters g g'.
Proof.
  unfold check_and_consume, sat_add. meters. intros H.
  destruct power; inv_all; subst; to_prop; try case_match; (split; [|by split]);
    split; cbn in *; meters; rewrite ?app_nil_r; try done; try lia;
    try (by intros ? []%elem_of_nil); by intros ? ->%list_elem_of_singleton.
Qed.

(** What a dispatch writes to the log. *)
Definition dispatch_events (a : PendingAction) (now : BlockNumber) : list GuardianEvent :=
  [GuGuardianAction (pa_id a) (pa_power a) (target_of (pa_power a)) (pa_justification_hash a)]
  ++ match pa_power a with
     | ForceRerun pid => [GuForceRerun pid (pa_justification_hash a) (now + FORCE_RERUN_WINDOW_BLOCKS)]
     | ActivatePlaybook pb trigger expiry _ => [GuPlaybookActivated pb trigger expiry]
     | _ => []
     end
  ++ [GuReviewScheduled (pa_id a)].

Lemma dispatch_events_logged a now :
  let evs := dispatch_events a now in
  dispatched_ids evs = [pa_id a] /\ reruns evs = power_pids (pa_power a)
  /\ delays evs = power_delay (pa_power a) /\ forces evs = power_force (pa_power a).
Proof. unfold dispatch_events. by destruct (pa_power a). Qed.

Definition books_of (power : GuardianPower) (l : list ActivePlaybook) : list ActivePlaybook :=
  match power with ActivatePlaybook pb _ expiry _ => upsert_playbook pb expiry l | _ => l end.

(** A successful dispatch: the action is marked, the review opened, the
    meters consumed, the playbook recorded; nothing else changes. *)
Record dispatched (a : PendingAction) (now : BlockNumber) (g g' : Guardian) : Prop := {
  dp_members : gu_members g' = gu_members g;
  dp_bonds : gu_member_bonds g' = gu_member_bonds g;
  dp_pending : gu_pending g' = alter_key pa_id (pa_id a) mark_dispatched (gu_pending g);
  dp_approvals : gu_approvals g' = gu_approvals g;
  dp_reviews : gu_reviews g' = gu_reviews g ++ [review_of (pa_id a) g];
  dp_books : gu_active_playbooks g' = books_of (pa_power a) (gu_active_playbooks g);
  dp_epoch : gu_current_epoch g' = gu_current_epoch g;
  dp_next : gu_next_action_id g' = gu_next_action_id g;
  dp_events : gu_events g' = gu_events g ++ dispatch_events a now;
  dp_consumed : consumed (pa_power a) g g';
  dp_review_slot : (length (gu_reviews g) < MAX_REVIEWS)%nat;
  dp_check_slot : check_slot (pa_power a) g = Ok tt;
  dp_expiry : match pa_power a with
              | ActivatePlaybook _ _ expiry _ => expiry <= now + HOLD_MAX_BLOCKS
              | _ => True
              end;
}.

Lemma consumed_ext power g g1 g' :
  gu_rerun_used g' = gu_rerun_used g1 -> gu_delay_used_this_epoch g' = gu_delay_used_this_epoch g1 ->
  gu_force_rerun_used_this_epoch g' = gu_force_rerun_used_this_epoch g1 ->
  gu_pause_used_in_window g' = gu_pause_used_in_window g1 -> consumed power g g1 -> consumed power g g'.
Proof. intros E1 E2 E3 E4 []. split; rewrite ?E1, ?E2, ?E3, ?E4; done. Qed.

Lemma playbook_expiry power now ctx g u g' :
  check_and_consume power now ctx g = (Ok u, g') ->
  match power with ActivatePlaybook _ _ expiry _ => expiry <= now + HOLD_MAX_BLOCKS | _ => True end.
Proof.
  destruct power; try done. cbn [check_and_consume]. intros H. inv_all. to_prop. unfold sat_add in *. lia.
Qed.

Lemma review_of_ext id g g' :
  gu_approvals g' = gu_approvals g -> gu_current_epoch g' = gu_current_epoch g ->
  gu_review_deadline_epochs g' = gu_review_deadline_epochs g -> review_of id g' = review_of id g.
Proof. unfold review_of, approver_snapshot, approvers_of. by intros -> -> ->. Qed.

Lemma dispatch_Ok a now ctx g u g' : dispatch a now ctx g = (Ok u, g') -> dispatched a now g g'.
Proof.
  unfold dispatch. intros H. inv_all.
  match goal with H : check_and_consume _ _ _ _ = _ |- _ => rename H into Hc end.
  match goal with H : (_ <? _)%nat = true |- _ => apply Nat.ltb_lt in H end.
  pose proof (playbook_expiry _ _ _ _ _ _ Hc) as Hx.
  apply check_and_consume_Ok in Hc as [Hc Hs]. destruct Hs.
  destruct (pa_power a) eqn:Ep; cbv beta iota in *; inv_all; subst; split; rewrite ?Ep; cbn;
    unfold dispatch_events; rewrite ?Ep, <- ?app_assoc; cbn; try congruence; try done;
    try (by destruct x1); try (by eapply consumed_ext; [..|exact Hc]);
    rewrite sm_reviews0; do 2 f_equal; by apply review_of_ext.
Qed.

(** ** The single calls *)

Lemma keep_time now now' g : now <= now' -> GInv now g -> GInv now' g.
Proof.
  intros Hle [Hs Hw Hm [? ? He]]. split; [done|done|done|]. split; [done|done|].
  intros p Hp. specialize (He p Hp). lia.
Qed.

Lemma seats_recall ms bonds (f : option AccountId -> bool) :
  seats_ok ms bonds ->
  seats_ok ((fun m => if f m then None else m) <$> ms) (zip_with (fun m b => if f m then 0 else b) ms bonds).
Proof.
  intros [Hm Hb Hd]. split.
  - by rewrite length_fmap.
  - rewrite length_zip_with_l; lia.
  - eapply sublist_NoDup; [exact Hd|]. clear. induction ms as [|m ms IH]; [constructor|].
    cbn [fmap list_fmap]. destruct (f m), m; cbn; first [exact IH|by apply sublist_cons|by apply sublist_skip].
Qed.

Lemma fresh_seats members :
  length members = GUARDIAN_SEATS -> validate_members members = Ok tt ->
  seats_ok (Some <$> members) (replicate GUARDIAN_SEATS GUARDIAN_BOND).
Proof.
  intros Hl Hv. split.
  - by rewrite length_fmap.
  - by rewrite length_replicate.
  - apply (for_pairs_NoDup (fun x => x) GuDuplicateMember) in Hv. rewrite list_fmap_id in Hv.
    enough (seated (Some <$> members) = members) as -> by done.
    clear. induction members as [|x l IH]; [done|]. cbn. by f_equal.
Qed.

Lemma council_genesis_keeps members g now :
  length members = GUARDIAN_SEATS -> Guardian_new members = Ok g -> GInv now g.
Proof.
  unfold Guardian_new. intros Hl H. inv_all. subst. destruct x.
  split; cbn.
  - by apply fresh_seats.
  - split; cbn; first [apply NoDup_nil_2|unfold MAX_PENDING, MAX_REVIEWS; lia|by intros ? Hx%elem_of_nil].
  - split; [done|apply NoDup_nil_2|..]; cbn; unfold DELAY_ONCE_ALLOWANCE_PER_EPOCH,
      FORCE_RERUN_ALLOWANCE_PER_EPOCH, PAUSE_INTAKE_ALLOWANCE; lia.
  - split; cbn; [constructor|unfold MAX_PLAYBOOKS; lia|]. intros ? Hx. by apply elem_of_nil in Hx.
Qed.

Lemma set_members_keeps origin members g u g' now :
  length members = GUARDIAN_SEATS -> GInv now g -> set_members origin members g = (Ok u, g') -> GInv now g'.
Proof.
  unfold set_members. intros Hl [Hs Hw Hm Hb] H. inv_all. subst.
  split; cbn; autorewrite with guardian_log; cbn; rewrite ?app_nil_r; try done.
  - by apply fresh_seats; [|match goal with x : unit |- _ => destruct x end].
  - by eapply work_clear.
Qed.

Lemma recall_members_keeps origin ws g u g' now :
  GInv now g -> recall_members origin ws g = (Ok u, g') -> GInv now g'.
Proof.
  unfold recall_members. intros [Hs Hw Hm Hb] H. inv_all. subst. split; cbn; try done.
  - by apply seats_recall.
  - by eapply work_clear.
Qed.

Lemma propose_action_keeps who power h t g id g' now :
  GInv now g -> propose_action who power h t g = (Ok id, g') -> GInv now g'.
Proof.
  unfold propose_action, ensure_member, is_member. intros [Hs Hw Hm Hb] H. inv_all. subst. to_prop.
  split; cbn; autorewrite with guardian_log; cbn; rewrite ?app_nil_r; try done.
  apply work_propose; [done|done|done|done|]. by apply Nat.ltb_lt.
Qed.

Lemma approvers_count id g :
  length (gu_members g) = GUARDIAN_SEATS ->
  work_ok (gu_members g) (gu_pending g) (gu_approvals g) (gu_reviews g) (gu_next_action_id g)
          (dispatched_ids (gu_events g)) ->
  (length (approvers_of id g) <= GUARDIAN_SEATS)%nat /\ approval_count id g = Z.of_nat (length (approvers_of id g)).
Proof.
  intros Hl Hw. pose proof (approvers_bounded _ _ _ _ _ _ Hw id Hl) as Hb. split; [done|].
  unfold GUARDIAN_SEATS in Hb. fold (approvers_of id g) in Hb. unfold approval_count. rewrite wrap_small; lia.
Qed.

(** The review names exactly those who approved. *)
Lemma review_of_names id g :
  (length (approvers_of id g) <= GUARDIAN_SEATS)%nat ->
  take (Z.to_nat (rv_approver_count (review_of id g))) (rv_approvers (review_of id g)) = approvers_of id g.
Proof.
  intros Hb. unfold review_of, approver_snapshot. cbn [rv_approvers rv_approver_count fst snd].
  rewrite (take_ge (approvers_of id g)) by done. by rewrite Nat2Z.id, take_app_length.
Qed.

Lemma review_of_ok id g :
  length (gu_members g) = GUARDIAN_SEATS ->
  work_ok (gu_members g) (gu_pending g) (gu_approvals g) (gu_reviews g) (gu_next_action_id g)
          (dispatched_ids (gu_events g)) ->
  GUARDIAN_THRESHOLD <= approval_count id g -> review_ok (review_of id g).
Proof.
  intros Hl Hw Hc. destruct (approvers_count id g Hl Hw) as [Hb E]. rewrite E in Hc.
  pose proof (approvers_distinct _ _ _ _ _ _ Hw id) as Hd. fold (approvers_of id g) in Hd.
  split.
  - unfold review_of, approver_snapshot. cbn. rewrite length_app, length_replicate, length_take.
    unfold GUARDIAN_SEATS in *. lia.
  - unfold review_of, approver_snapshot. cbn [rv_approver_count fst snd]. rewrite length_take.
    unfold GUARDIAN_SEATS in *. lia.
  - by rewrite review_of_names.
Qed.

Lemma upsert_keeps now id expiry l :
  books_ok now l -> expiry <= now + HOLD_MAX_BLOCKS ->
  (id ∉ ap_id <$> l -> (length l < MAX_PLAYBOOKS)%nat) -> books_ok now (upsert_playbook id expiry l).
Proof.
  intros [Hi Hl He] Hx Hs. unfold upsert_playbook. destruct (find_key ap_id id l) as [p|] eqn:Ef.
  - split.
    + change (NoDup (keys ap_id (alter_key ap_id id (fun p => {| p with ap_expiry := expiry |}) l))).
      by rewrite keys_alter.
    + by rewrite length_alter_key.
    + intros q [Hq|(q0 & _ & ->)]%elem_of_alter; [by apply He|done].
  - apply find_key_None in Ef. split.
    + rewrite fmap_app. apply NoDup_app. split_and!; [done| |apply NoDup_singleton].
      by intros x Hin ->%list_elem_of_singleton.
    + rewrite length_app. specialize (Hs Ef). cbn. lia.
    + intros q [Hq| ->%list_elem_of_singleton]%elem_of_app; [by apply He|done].
Qed.

Lemma check_slot_room id trigger expiry target g u :
  check_slot (ActivatePlaybook id trigger expiry target) g = Ok u -> id ∉ ap_id <$> gu_active_playbooks g ->
  (length (gu_active_playbooks g) < MAX_PLAYBOOKS)%nat.
Proof.
  cbn. intros H Hn. case_match; inv_all; [|by apply Nat.ltb_lt]. exfalso.
  match goal with H : existsb _ _ = true |- _ => apply existsb_exists in H as (p & Hp & Ep) end.
  to_prop. apply Hn, list_elem_of_fmap. exists p. split; [done|]. by apply list_elem_of_In.
Qed.

Lemma dispatch_keeps a now g g' :
  GInv now g -> find_key pa_id (pa_id a) (gu_pending g) = Some a -> pa_dispatched a = false ->
  GUARDIAN_THRESHOLD <= approval_count (pa_id a) g -> dispatched a now g g' -> GInv now g'.
Proof.
  intros [Hs Hw Hm Hb] Hfind Hd Hc [].
  destruct (dispatch_events_logged a now) as (Ei & Er & _ & _).
  split; rewrite ?dp_members0, ?dp_bonds0, ?dp_pending0, ?dp_approvals0, ?dp_reviews0, ?dp_books0, ?dp_next0, ?dp_events0,
    ?reruns_app, ?dispatched_ids_app, ?Ei, ?Er; try done.
  - apply work_dispatch with a; try done. apply review_of_ok; [by destruct Hs|done|done].
  - destruct Hm, dp_consumed0. split; [congruence|rewrite cn_rerun0|..|by apply cn_pause0].
    + apply NoDup_app. split_and!; [done| |by destruct (pa_power a); cbn; repeat constructor; intros ?%elem_of_nil].
      intros x Hx Hp. by apply (cn_fresh0 x).
    + meters. unfold power_delay in *. destruct (pa_power a); cbn in *; lia.
    + meters. unfold power_force in *. destruct (pa_power a); cbn in *; lia.
  - unfold books_of. destruct (pa_power a) as [| | |id trigger expiry target|] eqn:Ep; try done.
    apply upsert_keeps; [done|done|by eapply check_slot_room].
Qed.

Lemma or_undo_Ok {R} (m : ST Guardian GuardianError R) undo g r g' :
  or_undo m undo g = (Ok r, g') -> m g = (Ok r, g').
Proof. unfold or_undo. by destruct (m g) as [[] ?]. Qed.

(** The state in which the vote of [who] is recorded. *)
Definition voted (who : AccountId) (id : ActionId) (g : Guardian) : Guardian :=
  set_approvals (gu_approvals g ++ [(id, who)]) g.

(** An approval, taken apart: who may vote, and what the fifth vote does. *)
Record approval (who : AccountId) (id : ActionId) (now : BlockNumber) (g : Guardian) (a : PendingAction)
    (b : bool) (g' : Guardian) : Prop := {
  ap_member : Some who ∈ gu_members g;
  ap_action : find_key pa_id id (gu_pending g) = Some a;
  ap_alive : now <= pa_expires_at a;
  ap_open : pa_dispatched a = false;
  ap_once : (id, who) ∉ gu_approvals g;
  ap_threshold : b = (GUARDIAN_THRESHOLD <=? approval_count id (voted who id g));
  ap_result : exists g1, g' = gu_push (GuActionApproved id who (approval_count id (voted who id g))) g1
    /\ if b then dispatched a now (voted who id g) g1 else g1 = voted who id g;
}.

Lemma approve_action_Ok who id now ctx g b g' :
  approve_action who id now ctx g = (Ok b, g') -> exists a, approval who id now g a b g'.
Proof.
  unfold approve_action, ensure_member, is_member. fold (voted who id g). intros H. inv_all. subst. to_prop.
  match goal with H : find_key _ _ _ = Some ?a |- _ => exists a end.
  change (set_approvals (gu_approvals g ++ [(id, who)]) g) with (voted who id g) in *.
  match goal with H : existsb _ _ = false |- _ => rename H into He end.
  assert (Hn : (id, who) ∉ gu_approvals g).
  { intros Hin. apply list_elem_of_In in Hin. apply not_true_iff_false in He. apply He, existsb_exists.
    exists (id, who). split; [done|]. cbn. by rewrite !Z.eqb_refl. }
  match goal with H : (if _ then _ else _) _ = _ |- _ => rename H into Ht end.
  destruct (GUARDIAN_THRESHOLD <=? approval_count id (voted who id g)) eqn:Eb; inv_all; subst.
  - match goal with H : or_undo _ _ _ = _ |- _ => apply or_undo_Ok, dispatch_Ok in H end.
    split; try done; by eexists.
  - split; try done; by eexists.
Qed.

Lemma voted_keeps who id a g now :
  GInv now g -> Some who ∈ gu_members g -> find_key pa_id id (gu_pending g) = Some a ->
  (id, who) ∉ gu_approvals g -> GInv now (voted who id g).
Proof. intros [Hs Hw Hm Hb] Hwho Ha Hn. split; cbn; try done. by eapply work_approve. Qed.

(** Events that are no dispatch do not matter to the invariant. *)
Lemma push_keeps ev g now :
  action_of ev = None -> rerun_of ev = None -> GInv now g -> GInv now (gu_push ev g).
Proof.
  intros Ea Er [Hs Hw Hm Hb]. unfold gu_push.
  split; cbn; rewrite ?reruns_app, ?dispatched_ids_app; cbn; rewrite ?Ea, ?Er, ?app_nil_r; done.
Qed.

Lemma approve_action_keeps who id now ctx g b g' :
  GInv now g -> approve_action who id now ctx g = (Ok b, g') -> GInv now g'.
Proof.
  intros Hi H. apply approve_action_Ok in H as (a & []). destruct ap_result0 as (g1 & -> & Hr).
  apply push_keeps; [done|done|]. pose proof (voted_keeps who id a g now Hi ap_member0 ap_action0 ap_once0) as Hv.
  destruct b; [|by subst]. symmetry in ap_threshold0. to_prop.
  pose proof (find_key_Some _ _ _ _ ap_action0) as [<- _]. by eapply dispatch_keeps.
Qed.

Lemma review_mark_ok (f : ReviewRecord -> ReviewRecord) r :
  rv_approvers (f r) = rv_approvers r -> rv_approver_count (f r) = rv_approver_count r -> review_ok r -> review_ok (f r).
Proof. intros E1 E2 []. split; by rewrite ?E1, ?E2. Qed.

Lemma ratify_action_keeps origin id g u g' now :
  GInv now g -> ratify_action origin id g = (Ok u, g') -> GInv now g'.
Proof.
  unfold ratify_action. intros [Hs Hw Hm Hb] H. inv_all. subst. apply push_keeps; [done|done|].
  split; cbn; try done. apply work_reviews_alter; [done|]. intros r. by apply review_mark_ok.
Qed.

Lemma slash_bonds_length members pairs bonds :
  length (fold_left (slash_seat members) pairs bonds) = length bonds.
Proof.
  revert bonds. induction pairs as [|x pairs IH]; intros bonds; [done|]. cbn. rewrite IH.
  unfold slash_seat. destruct (list_find _ _) as [[i ?]|]; [|done]. apply length_alter.
Qed.

Lemma mark_review_failed_keeps id epoch slashes g u g' now :
  GInv now g -> mark_review_failed id epoch slashes g = (Ok u, g') -> GInv now g'.
Proof.
  unfold mark_review_failed. intros [[Hl Hb' Hd] Hw Hm Hb] H. inv_all. subst. split; cbn; try done.
  - split; try done. by rewrite slash_bonds_length.
  - apply work_reviews_alter; [done|]. intros r. by apply review_mark_ok.
Qed.

Lemma enforce_reviews_keeps epoch g u g' now :
  GInv now g -> enforce_reviews epoch g = (Ok u, g') -> GInv now g'.
Proof.
  unfold enforce_reviews. intros Hi H. inv_step H. inv_all. subst.
  match type of H with for_each_st _ ?due _ = _ => revert H; generalize due end.
  intros l H. revert g Hi H. induction l as [|id l IH]; intros g Hi H; cbn [for_each_st] in H; inv_all; subst; [done|].
  eapply IH; [|eassumption]. apply push_keeps; [done|done|]. by eapply mark_review_failed_keeps.
Qed.

Lemma books_alter now id f l :
  (forall p, ap_id (f p) = ap_id p) -> (forall p, p ∈ l -> ap_expiry (f p) <= now + HOLD_MAX_BLOCKS) ->
  books_ok now l -> books_ok now (alter_key ap_id id f l).
Proof.
  intros Hf He [Hi Hl Hx]. split.
  - change (NoDup (keys ap_id (alter_key ap_id id f l))). by rewrite keys_alter.
  - by rewrite length_alter_key.
  - intros p [Hp|(q & [_ Hq]%find_key_Some & ->)]%elem_of_alter; auto.
Qed.

Lemma renew_playbook_keeps origin id g u g' now :
  GInv now g -> renew_playbook origin id now g = (Ok u, g') -> GInv now g'.
Proof.
  unfold renew_playbook. intros [Hs Hw Hm Hb] H. inv_all. subst. apply push_keeps; [done|done|].
  split; cbn; try done. apply books_alter; [done|done|]. apply books_alter; [done|by destruct Hb|done].
Qed.

Lemma log_quiet (f : GuardianEvent -> option Z) l :
  (forall ev, ev ∈ l -> f ev = None) -> omap f l = [].
Proof.
  induction l as [|ev l IH]; intros H; [done|]. cbn. rewrite H by left. apply IH. intros ev' Hin. apply H. by right.
Qed.

Lemma expire_playbooks_keeps g now : GInv now g -> GInv now (expire_playbooks now g).
Proof.
  intros [Hs Hw Hm [Hi Hl Hx]]. unfold expire_playbooks.
  split; cbn; rewrite ?reruns_app, ?dispatched_ids_app; unfold reruns, dispatched_ids in *;
    rewrite ?(log_quiet _ (_ <$> _)), ?app_nil_r; try done;
    try (by intros ev (p & -> & _)%list_elem_of_fmap).
  split.
  - by apply NoDup_fmap_filter.
  - etrans; [apply length_filter|done].
  - intros p [_ Hp]%list_elem_of_filter. by apply Hx.
Qed.

Lemma council_reap_keeps veto_live g now t : GInv now g -> GInv now (reap_terminal_with_veto t veto_live g).
Proof.
  intros [Hs Hw Hm Hb]. unfold reap_terminal_with_veto. split; cbn; try done.
  apply work_reviews_filter. eapply work_filter; [done|..].
  - intros x Hx _. by apply (wo_approvals_seated _ _ _ _ _ _ Hw).
  - intros x a Hx Hr Ha E. apply not_true_iff_false. intros Ht. apply Hr.
    apply list_elem_of_fmap. exists a. split; [done|]. by apply list_elem_of_filter.
Qed.

Lemma close_failed_review_keeps origin id g u g' now :
  GInv now g -> close_failed_review origin id g = (Ok u, g') -> GInv now g'.
Proof.
  unfold close_failed_review. intros [Hs Hw Hm Hb] H. inv_all. subst. split; cbn; try done.
  eapply work_filter; [by apply work_reviews_filter|..].
  - intros y Hy _. by apply (wo_approvals_seated _ _ _ _ _ _ Hw).
  - intros y a _ Hy _ ->. done.
Qed.

Lemma set_epoch_keeps epoch g now : GInv now g -> GInv now (gu_set_epoch epoch g).
Proof.
  intros [Hs Hw Hm Hb]. unfold gu_set_epoch. destruct (_ =? _); split; cbn; try done.
  destruct Hm. split; try done; meters; lia.
Qed.

(** ** Reachable states *)

Lemma guardian_step_keeps x y : GInv x.1 x.2 -> guardian_step x y -> GInv y.1 y.2.
Proof.
  intros Hi (Hle & c & Hok & H). apply (keep_time _ _ _ Hle) in Hi. destruct c; cbn [guardian_exec] in H; inv_all; subst.
  - by eapply set_members_keeps.
  - by eapply recall_members_keeps.
  - by eapply propose_action_keeps.
  - by eapply approve_action_keeps.
  - by eapply ratify_action_keeps.
  - by eapply mark_review_failed_keeps.
  - by eapply enforce_reviews_keeps.
  - by eapply renew_playbook_keeps.
  - by apply expire_playbooks_keeps.
  - by apply council_reap_keeps.
  - by eapply close_failed_review_keeps.
  - by apply set_epoch_keeps.
  - by destruct Hi.
Qed.

Lemma guardian_reachable_keeps x : guardian_reachable x -> GInv x.1 x.2.
Proof.
  intros (x0 & (ms & Hl & Hg) & Hr).
  assert (H0 : GInv x0.1 x0.2) by (by eapply council_genesis_keeps).
  clear Hg. induction Hr as [|x y z Hxy _ IH]; [done|]. apply IH. by eapply guardian_step_keeps.
Qed.

(** ** What a step of the guardian adds to the log

    A step either dispatches one action, by the rules of [approval], or
    dispatches nothing and leaves the meters of the epoch alone. *)

(** Nothing is dispatched, and the meters and the epoch stay. *)
Record undispatched (g g' : Guardian) : Prop := {
  qu_events : exists evs, gu_events g' = gu_events g ++ evs /\ forall ev, ev ∈ evs -> action_of ev = None;
  qu_delay : gu_delay_used_this_epoch g' = gu_delay_used_this_epoch g;
  qu_force : gu_force_rerun_used_this_epoch g' = gu_force_rerun_used_this_epoch g;
  qu_epoch : gu_current_epoch g' = gu_current_epoch g;
}.

#[export] Instance undispatched_preorder : PreOrder undispatched.
Proof.
  split.
  - intros g. split; try done. exists []. split; [by rewrite app_nil_r|]. intros ev Hev. by apply elem_of_nil in Hev.
  - intros g1 g2 g3 [(e1 & E1 & H1) ? ? ?] [(e2 & E2 & H2) ? ? ?]. split; try congruence.
    exists (e1 ++ e2). split; [by rewrite E2, E1, app_assoc|]. intros ev [?|?]%elem_of_app; auto.
Qed.

Lemma quiet_push ev g : action_of ev = None -> undispatched g (gu_push ev g).
Proof. intros H. split; try done. exists [ev]. split; [done|]. by intros ? ->%list_elem_of_singleton. Qed.

(** A write to the other fields. *)
Lemma quiet_write g g' :
  gu_events g' = gu_events g -> gu_delay_used_this_epoch g' = gu_delay_used_this_epoch g ->
  gu_force_rerun_used_this_epoch g' = gu_force_rerun_used_this_epoch g ->
  gu_current_epoch g' = gu_current_epoch g -> undispatched g g'.
Proof.
  intros E ? ? ?. split; try done. exists []. split; [by rewrite app_nil_r|]. intros ev Hev. by apply elem_of_nil in Hev.
Qed.

#[export] Hint Resolve quiet_push quiet_write : guardian_quiet.

Ltac quietly :=
  first [by apply quiet_write | etransitivity; [|by apply quiet_push]; by apply quiet_write].

Lemma quiet_reviews epoch l g u g' :
  for_each_st (fun action =>
    do! mark_review_failed action epoch (replicate GUARDIAN_SEATS nominal_slash) in
    modify (gu_push (GuReviewFailed action nominal_slash))) l g = (Ok u, g') -> undispatched g g'.
Proof.
  revert g. induction l as [|id l IH]; intros g H; cbn [for_each_st] in H.
  - inv_all. subst. reflexivity.
  - unfold mark_review_failed at 1 in H. inv_all. subst. etransitivity; [|by eapply IH]. quietly.
Qed.

Lemma log_quiet_app {T} (f : GuardianEvent -> option T) g g' :
  undispatched g g' -> (forall ev, action_of ev = None -> f ev = None) -> omap f (gu_events g') = omap f (gu_events g).
Proof.
  intros [(evs & E & Hq) _ _ _] Hf. rewrite E, omap_app.
  enough (omap f evs = []) as -> by apply app_nil_r.
  clear E. induction evs as [|ev evs IH]; [done|]. cbn. rewrite Hf by (apply Hq; left).
  apply IH. intros ev' Hin. apply Hq. by right.
Qed.

Lemma guardian_step_cases x y :
  guardian_step x y ->
  undispatched x.2 y.2
  \/ (gu_events y.2 = gu_events x.2 /\ gu_current_epoch y.2 <> gu_current_epoch x.2)
  \/ exists who id a, approval who id y.1 x.2 a true y.2.
Proof.
  intros (_ & c & _ & H). destruct c; cbn [guardian_exec] in H.
  - left. unfold set_members in H. inv_all. quietly.
  - left. unfold recall_members in H. inv_all. quietly.
  - left. unfold propose_action in H. inv_all. quietly.
  - inv_all.
    match goal with H : approve_action _ _ _ _ _ = (Ok ?b, _) |- _ =>
      apply approve_action_Ok in H as (a & Ha); destruct b end.
    + right. right. eauto.
    + left. destruct Ha. destruct ap_result0 as (g1 & E & Hg). rewrite E, Hg. quietly.
  - left. unfold ratify_action in H. inv_all. quietly.
  - left. unfold mark_review_failed in H. inv_all. quietly.
  - left. unfold enforce_reviews in H. inv_step H. inv_all. by eapply quiet_reviews.
  - left. unfold renew_playbook in H. inv_all. quietly.
  - left. inv_all. unfold expire_playbooks. split; try done. eexists. split; [done|].
    by intros ev (p & -> & _)%list_elem_of_fmap.
  - left. inv_all. by apply quiet_write.
  - left. unfold close_failed_review in H. inv_all. by apply quiet_write.
  - inv_all. unfold gu_set_epoch. destruct (epoch =? _) eqn:E; [left; reflexivity|right; left]. to_prop. done.
  - left. inv_all. by apply quiet_write.
Qed.

(** ** Within one epoch *)

Lemma quiet_counts evs : (forall ev, ev ∈ evs -> action_of ev = None) -> delays evs = 0 /\ forces evs = 0.
Proof.
  unfold delays, forces. induction evs as [|ev evs IH]; intros Hq; [done|].
  assert (Hev : action_of ev = None) by (apply Hq; left).
  rewrite !filter_cons_False; [apply IH; intros ev' Hin; apply Hq; by right|by destruct ev as [| | |? []| | | | | | |]..].
Qed.

Lemma same_epoch_meters x y :
  same_epoch_step x y ->
  delays (gu_events y.2) - gu_delay_used_this_epoch y.2 = delays (gu_events x.2) - gu_delay_used_this_epoch x.2
  /\ forces (gu_events y.2) - gu_force_rerun_used_this_epoch y.2
     = forces (gu_events x.2) - gu_force_rerun_used_this_epoch x.2.
Proof.
  intros [Hs He]. apply guardian_step_cases in Hs as [[(evs & E & Hq) Hd Hf _]|[[_ Hne]|(who & id & a & Ha)]]; [|done|].
  - destruct (quiet_counts evs Hq) as [Ed Ef]. rewrite E, Hd, Hf, delays_app, forces_app, Ed, Ef. split; lia.
  - destruct Ha. destruct ap_result0 as (g1 & -> & []). destruct dp_consumed0.
    destruct (dispatch_events_logged a y.1) as (_ & _ & Ed & Ef).
    cbn. rewrite dp_events0. rewrite !delays_app, !forces_app, Ed, Ef, cn_delay0, cn_force0. cbn.
    change (delays [_]) with 0. change (forces [_]) with 0. lia.
Qed.

Lemma run_meters x y :
  rtc same_epoch_step x y ->
  delays (gu_events y.2) - gu_delay_used_this_epoch y.2 = delays (gu_events x.2) - gu_delay_used_this_epoch x.2
  /\ forces (gu_events y.2) - gu_force_rerun_used_this_epoch y.2
     = forces (gu_events x.2) - gu_force_rerun_used_this_epoch x.2.
Proof.
  induction 1 as [x|x y z Hxy _ IH]; [done|]. apply same_epoch_meters in Hxy. lia.
Qed.

Lemma same_epoch_run_reachable x y : guardian_reachable x -> rtc same_epoch_step x y -> guardian_reachable y.
Proof.
  intros (x0 & Hg & Hr) Hxy. exists x0. split; [done|]. etrans; [exact Hr|].
  eapply rtc_subrel; [|exact Hxy]. by intros ? ? [? _].
Qed.
