(* ===== verification/GuardianTheorems.v ===== *)
(** * The properties of the guardian council

    Each theorem with its witness on a run of a council of seven. *)

From S2P Require Import Prelude Keyed Primitives Proposals Guardian GuardianSystem GuardianKeep.

(** C29. Five of seven: in every step from a reachable state either nothing
    is dispatched, or one action is, that was never dispatched before, by at
    least five distinct members who are seated now and voted for it; they are
    the approvers that the review names, and the review is due after the live
    deadline. No other call dispatches anything. *)
Theorem dispatch_needs_five x y :
  guardian_reachable x -> guardian_step x y ->
  dispatched_ids (gu_events y.2) = dispatched_ids (gu_events x.2)
  \/ exists id ws r,
       dispatched_ids (gu_events y.2) = dispatched_ids (gu_events x.2) ++ [id]
       /\ id ∉ dispatched_ids (gu_events x.2)
       /\ NoDup ws /\ (5 <= length ws <= 7)%nat /\ (forall w, w ∈ ws -> Some w ∈ gu_members x.2)
       /\ gu_reviews y.2 = gu_reviews x.2 ++ [r]
       /\ rv_action_id r = id /\ take (Z.to_nat (rv_approver_count r)) (rv_approvers r) = ws
       /\ rv_deadline_epoch r = sat_add U32 (gu_current_epoch x.2) (gu_review_deadline_epochs x.2).
Proof.
  intros Hi%guardian_reachable_keeps Hs. apply (keep_time _ y.1) in Hi; [|by destruct Hs].
  apply guardian_step_cases in Hs as [Hq|[[E _]|(who & id & a & Ha)]].
  - left. by apply (log_quiet_app action_of).
  - left. by rewrite E.
  - right. destruct Ha. destruct ap_result as (g1 & -> & []).
    pose proof (voted_keeps _ _ _ _ _ Hi ap_member ap_action ap_once) as [Hseats Hw _ _].
    pose proof (find_key_Some _ _ _ _ ap_action) as [Eid Hin].
    destruct (dispatch_events_logged a y.1) as (Ei & _ & _ & _).
    set (g := voted who id x.2) in *. destruct (approvers_count id g (so_members _ _ Hseats) Hw) as [Hb Ec].
    symmetry in ap_threshold. to_prop. unfold GUARDIAN_THRESHOLD, GUARDIAN_SEATS in *.
    exists id, (approvers_of id g), (review_of id g). rewrite Eid in *.
    change (gu_events (gu_push ?ev g1)) with (gu_events g1 ++ [ev]). cbn [gu_push gu_reviews set_gu_events].
    rewrite dp_events, dp_reviews, !dispatched_ids_app, Ei, app_nil_r. split_and!; try done; [|..].
    + intros Hdone. assert (pa_dispatched a = true); [|congruence].
      apply (wo_done_flag _ _ _ _ _ _ Hw a Hin). by rewrite Eid.
    + by apply (approvers_distinct _ _ _ _ _ _ Hw).
    + lia.
    + intros w. by apply (approvers_seated _ _ _ _ _ _ Hw).
    + by apply review_of_names.
Qed.

(** Metered powers: over the whole life of the council no proposal is
    delayed or rerun more than once; within an epoch at most two delays and
    one forced rerun are dispatched, from whatever state the epoch is looked
    at; and no playbook runs beyond the freeze window from now on. *)
Theorem powers_are_metered x :
  guardian_reachable x ->
  NoDup (reruns (gu_events x.2))
  /\ (forall y, rtc same_epoch_step x y ->
        delays (gu_events y.2) - delays (gu_events x.2) <= 2 /\ forces (gu_events y.2) - forces (gu_events x.2) <= 1)
  /\ (forall p, p ∈ gu_active_playbooks x.2 -> ap_expiry p <= x.1 + HOLD_MAX_BLOCKS).
Proof.
  intros Hx. pose proof (guardian_reachable_keeps _ Hx) as [_ _ [] []]. split_and!; [by rewrite mo_log| |done].
  intros y Hr. pose proof (same_epoch_run_reachable _ _ Hx Hr) as Hy.
  apply guardian_reachable_keeps in Hy as [_ _ [_ _ Hd Hf _] _]. apply run_meters in Hr. meters. lia.
Qed.

(** The state checker of the guardian accepts every reachable state. *)
Theorem guardian_checker_accepts x : guardian_reachable x -> guardian_try_state x.2 = Ok tt.
Proof.
  intros Hx. apply guardian_reachable_keeps in Hx as [[] [] _ []]. unfold guardian_try_state.
  rewrite (proj2 (validate_seats_NoDup _)) by done. cbn [rbind].
  rewrite !(ensure_true (_ <=? _)%nat) by (by apply Nat.leb_le). cbn [rbind].
  rewrite (proj2 (for_pairs_NoDup ap_id GuPlaybookAlreadyActive _)) by done. cbn [rbind].
  apply for_each_Ok. intros [id who] Hin.
  specialize (wo_approvals_pending _ Hin) as (a & E & Ha)%list_elem_of_fmap.
  rewrite ensure_true; [|apply existsb_exists; exists a; rewrite <- list_elem_of_In; split; [done|by apply Z.eqb_eq]].
  apply ensure_true, bool_decide_eq_true_2. by apply (wo_approvals_seated (id, who)).
Qed.

(** ** Witnesses *)

(** A run of calls at given blocks; [None] when one fails. *)
Fixpoint guardian_run (calls : list (BlockNumber * GuardianCall)) (x : BlockNumber * Guardian)
    : option (BlockNumber * Guardian) :=
  match calls with
  | [] => Some x
  | (now, c) :: rest =>
      if x.1 <=? now
      then match guardian_exec c now x.2 with (Ok _, g) => guardian_run rest (now, g) | _ => None end
      else None
  end.

Lemma guardian_run_steps calls x y :
  Forall (fun c => guardian_call_ok c.2) calls -> guardian_run calls x = Some y -> rtc guardian_step x y.
Proof.
  revert x. induction calls as [|[now c] rest IH]; intros x Hok H; cbn in H; [by injection H as ->|].
  inversion_clear Hok. destruct (x.1 <=? now) eqn:Ht; [|done]. to_prop.
  destruct (guardian_exec c now x.2) as [[[]|e] g] eqn:E; [|done].
  apply rtc_l with (now, g); [|by apply IH]. split; [done|]. by exists c.
Qed.

Definition demo_council : list AccountId := [1; 2; 3; 4; 5; 6; 7].
Definition demo_ctx : DispatchContext :=
  {| dc_proposal_status := StQueued; dc_in_rerun := false; dc_triggers := trigger_none |}.
Definition demo_votes : list (BlockNumber * GuardianCall) :=
  [(10, GPropose 1 (DelayOnce 9) 77); (11, GApprove 2 0 demo_ctx); (12, GApprove 3 0 demo_ctx);
   (13, GApprove 4 0 demo_ctx)].
Definition demo_elected : BlockNumber * Guardian :=
  Eval vm_compute in match Guardian_new demo_council with
                     | Ok g => (0, g)
                     | Err _ => (0, Build_Guardian [] [] [] [] [] [] [] 0 0 0 0 0 0 0 [])
                     end.
Definition demo_voted : BlockNumber * Guardian :=
  Eval vm_compute in default demo_elected (guardian_run demo_votes demo_elected).
Definition demo_dispatched : BlockNumber * Guardian :=
  Eval vm_compute in default demo_elected (guardian_run [(14, GApprove 6 0 demo_ctx)] demo_voted).

Lemma demo_voted_reachable : guardian_reachable demo_voted.
Proof.
  exists demo_elected. split; [by exists demo_council|].
  apply (guardian_run_steps demo_votes); [by repeat constructor|by vm_compute].
Qed.

Lemma demo_dispatch_step : guardian_step demo_voted demo_dispatched.
Proof. split; [by vm_compute|]. exists (GApprove 6 0 demo_ctx). split; [done|by vm_compute]. Qed.

Lemma dispatch_needs_five_witness :
  dispatched_ids (gu_events demo_dispatched.2) = [0]
  /\ exists r, gu_reviews demo_dispatched.2 = [r]
       /\ NoDup (take (Z.to_nat (rv_approver_count r)) (rv_approvers r)) /\ rv_deadline_epoch r = 2.
Proof.
  destruct (dispatch_needs_five demo_voted demo_dispatched demo_voted_reachable demo_dispatch_step)
    as [E|(id & ws & r & E & _ & Hws & _ & _ & Hr & _ & Ht & Hd)]; [vm_compute in E; discriminate E|].
  split; [by vm_compute|]. exists r. split; [exact Hr|]. split; [by rewrite Ht|exact Hd].
Defined.

Lemma demo_dispatched_reachable : guardian_reachable demo_dispatched.
Proof.
  destruct demo_voted_reachable as (x0 & Hg & Hr). exists x0. split; [exact Hg|].
  eapply rtc_r; [exact Hr|apply demo_dispatch_step].
Qed.

Lemma powers_are_metered_witness :
  reruns (gu_events demo_dispatched.2) = [9] /\ NoDup (reruns (gu_events demo_dispatched.2))
  /\ delays (gu_events demo_dispatched.2) - delays (gu_events demo_voted.2) <= 2.
Proof.
  split; [by vm_compute|].
  split; [exact (proj1 (powers_are_metered _ demo_dispatched_reachable))|].
  apply (proj1 (proj2 (powers_are_metered _ demo_voted_reachable)) demo_dispatched).
  apply rtc_once. split; [apply demo_dispatch_step|by vm_compute].
Defined.

Lemma guardian_checker_accepts_witness : guardian_try_state demo_dispatched.2 = Ok tt.
Proof. exact (guardian_checker_accepts _ demo_dispatched_reachable). Defined.
