(* ===== verification/Origins.v ===== *)
(** * Custom origins and the safety filter (crates/origins-core)

    Which origin may dispatch which call, also through the wrappers that carry
    calls inside calls: batches, weights, proxies, multisigs, the scheduler
    and sudo. The walk over a call tree spends a budget of nesting levels and
    of calls; a batch of top-level calls shares one budget. *)

From S2P Require Import Prelude Keyed Primitives Proposals.

Definition MAX_NESTED_LEVELS : Z := 4.
Definition MAX_NESTED_CALLS : Z := 16.

Inductive ClassOrigin : Type :=
| FutarchyParam
| FutarchyTreasury
| FutarchyCode
| FutarchyMeta
| ConstitutionalValues
| OracleResolution
| GuardianHold
| EmergencyPlaybook.

#[export] Instance ClassOrigin_eq_dec : EqDecision ClassOrigin.
Proof. solve_decision. Defined.

Definition from_proposal_class (class : ProposalClass) : option ClassOrigin :=
  match class with
  | Param => Some FutarchyParam
  | Treasury => Some FutarchyTreasury
  | Code => Some FutarchyCode
  | Meta => Some FutarchyMeta
  | Constitutional => None
  end.

Inductive CallDomain : Type :=
| DomPublic
| DomNobody
| DomParam
| DomTreasury
| DomCode
| DomMeta
| DomConstitutionalValues
| DomOracleResolution
| DomGuardianHold
| DomEmergencyPlaybook
| DomInternalRoot.

#[export] Instance CallDomain_eq_dec : EqDecision CallDomain.
Proof. solve_decision. Defined.

Definition is_privileged (d : CallDomain) : bool :=
  match d with DomPublic | DomNobody => false | _ => true end.

Definition allowed_for (d : CallDomain) (origin : option ClassOrigin) : bool :=
  match d with
  | DomPublic => true
  | DomNobody | DomInternalRoot => false
  | DomParam => bool_decide (origin = Some FutarchyParam)
  | DomTreasury => bool_decide (origin = Some FutarchyTreasury)
  | DomCode => bool_decide (origin = Some FutarchyCode)
  | DomMeta => bool_decide (origin = Some FutarchyMeta)
  | DomConstitutionalValues => bool_decide (origin = Some ConstitutionalValues)
  | DomOracleResolution => bool_decide (origin = Some OracleResolution)
  | DomGuardianHold => bool_decide (origin = Some GuardianHold)
  | DomEmergencyPlaybook => bool_decide (origin = Some EmergencyPlaybook)
  end.

(** [BoxedCall] is a call on the heap. *)
Inductive RuntimeCall : Type :=
| Leaf (d : CallDomain)
| UtilityBatch (calls : list RuntimeCall)
| UtilityBatchAll (calls : list RuntimeCall)
| UtilityForceBatch (calls : list RuntimeCall)
| UtilityDispatchAs (inner : RuntimeCall)
| UtilityAsDerivative (inner : RuntimeCall)
| UtilityWithWeight (inner : RuntimeCall)
| Proxy (inner : RuntimeCall)
| ProxyAnnounced (inner : RuntimeCall)
| MultisigAsMulti (inner : RuntimeCall)
| MultisigAsMultiThreshold1 (inner : RuntimeCall)
| MultisigApproveAsMulti
| Scheduler (origin : ClassOrigin) (call : RuntimeCall)
| Sudo (inner : RuntimeCall).

Inductive OriginsError : Type :=
| OrNobodyCall
| OrBadOrigin
| OrPrivilegedWrapper
| OrDispatchAsDenied
| OrSchedulerDenied
| OrTooDeep
| OrTooManyCalls.

Record Budget : Type := {
  bu_depth : Z;
  bu_calls : Z;
}.

Definition budget_root : Budget := {| bu_depth := 0; bu_calls := 0 |}.

Definition set_depth (x : Z) (b : Budget) : Budget := {| bu_depth := x; bu_calls := bu_calls b |}.
Definition set_calls (x : Z) (b : Budget) : Budget := {| bu_depth := bu_depth b; bu_calls := x |}.

Abbreviation Walk A := (ST Budget OriginsError A).

Definition enter : Walk unit :=
  let! depth := gets bu_depth in
  let! depth := lift (ok_or OrTooDeep (checked_add U32 depth 1)) in
  do! modify (set_depth depth) in
  lift (ensure (depth <=? MAX_NESTED_LEVELS) OrTooDeep).

Definition leave (b : Budget) : Budget := set_depth (sat_sub (bu_depth b) 1) b.

Definition count_call : Walk unit :=
  let! calls := gets bu_calls in
  let! calls := lift (ok_or OrTooManyCalls (checked_add U32 calls 1)) in
  do! modify (set_calls calls) in
  lift (ensure (calls <=? MAX_NESTED_CALLS) OrTooManyCalls).

Definition schedulable (origin : ClassOrigin) : bool :=
  match origin with ConstitutionalValues | OracleResolution => true | _ => false end.

Definition check_leaf (origin : option ClassOrigin) (proxyish : bool) (d : CallDomain) : Result OriginsError unit :=
  match d with
  | DomNobody => Err OrNobodyCall
  | _ =>
      if is_privileged d && proxyish then Err OrPrivilegedWrapper
      else if allowed_for d origin then Ok tt
      else Err OrBadOrigin
  end.

Section walk.
Variable validate_inner : option ClassOrigin -> RuntimeCall -> bool -> Walk unit.

(** Leaves the level only when every call passes. *)
Definition validate_many (origin : option ClassOrigin) (calls : list RuntimeCall) (proxyish : bool) : Walk unit :=
  do! enter in
  do! for_each_st (fun call => validate_inner origin call proxyish) calls in
  modify leave.

(** Leaves the level in either case. *)
Definition validate_wrapped (origin : option ClassOrigin) (call : RuntimeCall) (proxyish : bool) : Walk unit :=
  do! enter in
  fun b => let (result, b) := validate_inner origin call proxyish b in (result, leave b).

End walk.

Fixpoint validate_inner (origin : option ClassOrigin) (call : RuntimeCall) (proxyish : bool) {struct call} : Walk unit :=
  do! count_call in
  match call with
  | Leaf d => lift (check_leaf origin proxyish d)
  | UtilityBatch calls | UtilityBatchAll calls | UtilityForceBatch calls =>
      validate_many validate_inner origin calls proxyish
  | UtilityWithWeight inner => validate_wrapped validate_inner origin inner proxyish
  | Proxy inner | ProxyAnnounced inner | MultisigAsMulti inner | MultisigAsMultiThreshold1 inner =>
      validate_wrapped validate_inner origin inner true
  | MultisigApproveAsMulti => ret tt
  | UtilityDispatchAs _ | UtilityAsDerivative _ => throw OrDispatchAsDenied
  | Scheduler o inner =>
      do! lift (ensure (schedulable o) OrSchedulerDenied) in
      validate_wrapped validate_inner (Some o) inner proxyish
  | Sudo inner => validate_wrapped validate_inner origin inner proxyish
  end.

Definition filter_validate (origin : option ClassOrigin) (call : RuntimeCall) : Result OriginsError unit :=
  (validate_inner origin call false budget_root).1.

Definition validate_batch (origin : option ClassOrigin) (calls : list RuntimeCall) : Result OriginsError unit :=
  (for_each_st (fun call => validate_inner origin call false) calls budget_root).1.

Definition filter_contains (call : RuntimeCall) : bool := is_ok (filter_validate None call).
Definition filter_contains_for (origin : ClassOrigin) (call : RuntimeCall) : bool := is_ok (filter_validate (Some origin) call).

(** ** What the safety filter accepts

    The declarative reading of the filter: the nodes a call tree visits, each
    with the origin it would be dispatched from and whether a proxy or a
    multisig is above it; what a node may be; the levels and calls of a tree.
    The walk of the source succeeds exactly on the trees whose nodes are all
    permitted and that fit the budget, and it adds their calls to the budget. *)

(** The calls directly inside a call. *)
Definition children (c : RuntimeCall) : list RuntimeCall :=
  match c with
  | Leaf _ | MultisigApproveAsMulti => []
  | UtilityBatch calls | UtilityBatchAll calls | UtilityForceBatch calls => calls
  | UtilityDispatchAs i | UtilityAsDerivative i | UtilityWithWeight i | Proxy i | ProxyAnnounced i
  | MultisigAsMulti i | MultisigAsMultiThreshold1 i | Scheduler _ i | Sudo i => [i]
  end.

(** The origin and the flag the children of a call are dispatched with. *)
Definition child_origin (o : option ClassOrigin) (c : RuntimeCall) : option ClassOrigin :=
  match c with Scheduler o' _ => Some o' | _ => o end.

Definition child_flag (p : bool) (c : RuntimeCall) : bool :=
  match c with
  | Proxy _ | ProxyAnnounced _ | MultisigAsMulti _ | MultisigAsMultiThreshold1 _ => true
  | _ => p
  end.

(** [visits o p c o' p' n]: dispatching [c] from [o], under a proxy when [p],
    reaches the node [n] from [o'], under a proxy when [p']. *)
Inductive visits (o : option ClassOrigin) (p : bool) (c : RuntimeCall)
    : option ClassOrigin -> bool -> RuntimeCall -> Prop :=
| visits_here : visits o p c o p c
| visits_child c' o' p' n :
    c' ∈ children c -> visits (child_origin o c) (child_flag p c) c' o' p' n -> visits o p c o' p' n.

(** What a visited node may be. A privileged domain is dispatched by its own
    origin, never under a proxy; nothing switches origin but the scheduler,
    and only to the two origins it may carry. *)
Definition node_ok (o : option ClassOrigin) (p : bool) (n : RuntimeCall) : Prop :=
  match n with
  | Leaf d => d <> DomNobody /\ allowed_for d o = true /\ (is_privileged d = true -> p = false)
  | UtilityDispatchAs _ | UtilityAsDerivative _ => False
  | Scheduler o' _ => o' = ConstitutionalValues \/ o' = OracleResolution
  | _ => True
  end.

Definition permitted (o : option ClassOrigin) (p : bool) (c : RuntimeCall) : Prop :=
  forall o' p' n, visits o p c o' p' n -> node_ok o' p' n.

Definition max_list (l : list Z) : Z := foldr Z.max 0 l.

(** Levels of wrappers, and calls, the call itself included. *)
Fixpoint call_levels (c : RuntimeCall) : Z :=
  match c with
  | Leaf _ | MultisigApproveAsMulti => 0
  | UtilityBatch calls | UtilityBatchAll calls | UtilityForceBatch calls => 1 + max_list (map call_levels calls)
  | UtilityDispatchAs i | UtilityAsDerivative i | UtilityWithWeight i | Proxy i | ProxyAnnounced i
  | MultisigAsMulti i | MultisigAsMultiThreshold1 i | Scheduler _ i | Sudo i => 1 + call_levels i
  end.

Fixpoint call_count (c : RuntimeCall) : Z :=
  match c with
  | Leaf _ | MultisigApproveAsMulti => 1
  | UtilityBatch calls | UtilityBatchAll calls | UtilityForceBatch calls => 1 + sum_by call_count calls
  | UtilityDispatchAs i | UtilityAsDerivative i | UtilityWithWeight i | Proxy i | ProxyAnnounced i
  | MultisigAsMulti i | MultisigAsMultiThreshold1 i | Scheduler _ i | Sudo i => 1 + call_count i
  end.

Lemma call_tree_ind (P : RuntimeCall -> Prop) :
  (forall c, (forall c', c' ∈ children c -> P c') -> P c) -> forall c, P c.
Proof.
  intros H. fix IH 1. intros c. apply H. intros c' Hin.
  destruct c as [d|calls|calls|calls|i|i|i|i|i|i|i| |o i|i]; cbn [children] in Hin.
  1,12: destruct (proj1 (elem_of_nil c') Hin).
  4-12: apply list_elem_of_singleton in Hin as ->; apply IH.
  all: revert c' Hin; induction calls as [|x calls IHl]; intros c' Hin; [destruct (proj1 (elem_of_nil c') Hin)|].
  all: apply elem_of_cons in Hin as [->|Hin]; [apply IH|by apply IHl].
Qed.

Lemma permitted_iff o p c :
  permitted o p c <->
  node_ok o p c /\ forall c', c' ∈ children c -> permitted (child_origin o c) (child_flag p c) c'.
Proof.
  split.
  - intros H. split; [apply H; constructor|]. intros c' Hc o' p' n Hn. apply H. by econstructor.
  - intros [Hh Hc] o' p' n Hn. destruct Hn as [|c' o' p' n Hin Hn]; [done|]. by apply (Hc c').
Qed.

Lemma max_list_le l b : 0 <= b -> max_list l <= b <-> forall x, x ∈ l -> x <= b.
Proof.
  intros Hb. induction l as [|y l IH]; cbn.
  - split; [intros _ x []%elem_of_nil|done].
  - rewrite Z.max_lub_iff, IH. setoid_rewrite elem_of_cons. naive_solver.
Qed.

Lemma max_list_nonneg l : 0 <= max_list l.
Proof. unfold max_list. induction l; cbn; lia. Qed.

Lemma call_count_pos c : 1 <= call_count c.
Proof.
  induction c as [c IH] using call_tree_ind.
  destruct c as [d|calls|calls|calls|i|i|i|i|i|i|i| |o i|i]; cbn [call_count children] in *; try lia.
  4-12: specialize (IH i ltac:(by left)); lia.
  all: pose proof (sum_by_nonneg call_count calls); enough (0 <= sum_by call_count calls) by lia.
  all: apply sum_by_nonneg; intros v Hv; specialize (IH v Hv); lia.
Qed.

Lemma call_levels_nonneg c : 0 <= call_levels c.
Proof.
  induction c as [c IH] using call_tree_ind.
  destruct c as [d|calls|calls|calls|i|i|i|i|i|i|i| |o i|i]; cbn [call_levels children] in *; try lia.
  4-12: specialize (IH i ltac:(by left)); lia.
  all: pose proof (max_list_nonneg (map call_levels calls)); lia.
Qed.

(** ** The walk *)

Definition budget_ok (b : Budget) : Prop :=
  0 <= bu_depth b <= MAX_NESTED_LEVELS /\ 0 <= bu_calls b <= MAX_NESTED_CALLS.

(** A walk that succeeds when [ok] holds and [levels] more levels and [calls]
    more calls fit the budget; it spends the calls and gives the levels back. *)
Definition accepts (w : Walk unit) (ok : Prop) (levels calls : Z) : Prop :=
  forall b b', budget_ok b ->
    w b = (Ok tt, b') <->
    ok /\ bu_depth b + levels <= MAX_NESTED_LEVELS /\ bu_calls b + calls <= MAX_NESTED_CALLS
    /\ b' = set_calls (bu_calls b + calls) b.

Lemma accepts_iff w ok ok' l n : (ok <-> ok') -> accepts w ok l n -> accepts w ok' l n.
Proof. intros E H b b' Hb. by rewrite (H b b' Hb), E. Qed.

Lemma count_call_Ok b u b' :
  budget_ok b -> count_call b = (Ok u, b') <->
  bu_calls b + 1 <= MAX_NESTED_CALLS /\ b' = set_calls (bu_calls b + 1) b.
Proof.
  unfold budget_ok, MAX_NESTED_CALLS, MAX_NESTED_LEVELS. intros Hb. destruct b as [dp cl], u. cbn in *.
  unfold count_call, bind, gets, lift, modify, checked_add, ensure, MAX_NESTED_CALLS, set_calls. cbn.
  destruct (_ <? _) eqn:E1; to_prop; [|lia]. cbn. destruct (_ <=? _) eqn:E2; to_prop; cbn.
  - split; [by intros [= <-]|by intros [_ ->]].
  - split; [done|lia].
Qed.

Lemma enter_Ok b u b' :
  budget_ok b -> enter b = (Ok u, b') <->
  bu_depth b + 1 <= MAX_NESTED_LEVELS /\ b' = set_depth (bu_depth b + 1) b.
Proof.
  unfold budget_ok, MAX_NESTED_CALLS, MAX_NESTED_LEVELS. intros Hb. destruct b as [dp cl], u. cbn in *.
  unfold enter, bind, gets, lift, modify, checked_add, ensure, MAX_NESTED_LEVELS, set_depth. cbn.
  destruct (_ <? _) eqn:E1; to_prop; [|lia]. cbn. destruct (_ <=? _) eqn:E2; to_prop; cbn.
  - split; [by intros [= <-]|by intros [_ ->]].
  - split; [done|lia].
Qed.

Lemma leave_entered b n : budget_ok b -> leave (set_calls n (set_depth (bu_depth b + 1) b)) = set_calls n b.
Proof.
  intros [Hd _]. unfold leave, set_calls, set_depth, sat_sub. cbn. f_equal. lia.
Qed.

Lemma accepts_ret ok r : (r = Ok tt <-> ok) -> accepts (lift r) ok 0 0.
Proof.
  intros E b b' [Hd Hc]. rewrite lift_Ok, E. destruct b as [dp cl]. unfold set_calls. cbn in *.
  rewrite !Z.add_0_r. naive_solver.
Qed.

Lemma accepts_counted w ok l n :
  0 <= n -> accepts w ok l n -> accepts (bind count_call (fun _ => w)) ok l (1 + n).
Proof.
  intros Hn H b b' Hb. rewrite bind_Ok. split.
  - intros (u & b1 & Hc & Hw). apply count_call_Ok in Hc as [Hle ->]; [|done].
    apply H in Hw as (? & ? & ? & ->); [|destruct Hb; split; cbn; lia].
    cbn in *. split_and!; [done..|lia|]. unfold set_calls. cbn. f_equal. lia.
  - intros (? & ? & ? & ->). exists tt, (set_calls (bu_calls b + 1) b). split.
    + apply count_call_Ok; [done|]. split; [lia|done].
    + apply H; [destruct Hb; split; cbn; lia|]. cbn. split_and!; [done..|lia|].
      unfold set_calls. cbn. f_equal. lia.
Qed.

Lemma accepts_wrapped f o c p ok l n :
  0 <= l -> accepts (f o c p) ok l n -> accepts (validate_wrapped f o c p) ok (1 + l) n.
Proof.
  intros Hl H b b' Hb. unfold validate_wrapped. rewrite bind_Ok. split.
  - intros (u & b1 & Hc & Hw). apply enter_Ok in Hc as [Hle ->]; [|done].
    set (b1 := set_depth _ b) in *. destruct (f o c p b1) as [r b2] eqn:E. injection Hw as -> <-.
    apply H in E as (? & Hd & ? & ->); [|destruct Hb; split; cbn; lia].
    cbn in *. split_and!; [done|lia|done|]. by apply leave_entered.
  - intros (? & ? & ? & ->). exists tt, (set_depth (bu_depth b + 1) b). split.
    + apply enter_Ok; [done|]. split; [lia|done].
    + set (b1 := set_depth _ b). destruct (f o c p b1) as [r b2] eqn:E.
      assert (f o c p b1 = (Ok tt, set_calls (bu_calls b1 + n) b1)) as E'.
      { apply H; [destruct Hb; split; cbn; lia|]. cbn. split_and!; [done|lia|done|done]. }
      rewrite E in E'. injection E' as -> ->. f_equal. by apply leave_entered.
Qed.

Lemma accepts_list f (ok : RuntimeCall -> Prop) calls :
  (forall c, c ∈ calls -> accepts (f c) (ok c) (call_levels c) (call_count c)) ->
  accepts (for_each_st f calls) (forall c, c ∈ calls -> ok c) (max_list (map call_levels calls)) (sum_by call_count calls).
Proof.
  induction calls as [|c calls IH]; intros H.
  - intros b b' [Hd Hc]. cbn. rewrite ret_Ok. destruct b as [dp cl]. unfold set_calls. cbn in *.
    rewrite !Z.add_0_r. split; [|naive_solver]. intros [_ ->]. split_and!; try lia; [|done]. by intros c []%elem_of_nil.
  - pose proof (H c ltac:(by left)) as Hc. specialize (IH ltac:(intros; apply H; by right)).
    pose proof (call_count_pos c). intros b b' Hb. cbn [for_each_st map sum_by].
    change (max_list (call_levels c :: ?l)) with (call_levels c `max` max_list l).
    assert (0 <= sum_by call_count calls) by (apply sum_by_nonneg; intros v _; pose proof (call_count_pos v); lia).
    rewrite bind_Ok. setoid_rewrite elem_of_cons. split.
    + intros ([] & b1 & Hw1 & Hw2). apply Hc in Hw1 as (? & ? & ? & ->); [|done].
      apply IH in Hw2 as (? & ? & ? & ->); [|destruct Hb; split; cbn; lia]. cbn in *.
      split_and!; [naive_solver|lia..|]. unfold set_calls. cbn. f_equal. lia.
    + intros (Hok & ? & ? & ->). exists tt, (set_calls (bu_calls b + call_count c) b). split.
      * apply Hc; [done|]. split_and!; [auto|lia..|done].
      * apply IH; [destruct Hb; split; cbn; lia|]. cbn. split_and!; [auto|lia..|].
        unfold set_calls. cbn. f_equal. lia.
Qed.

Lemma accepts_many f o calls p (ok : RuntimeCall -> Prop) :
  (forall c, c ∈ calls -> accepts (f o c p) (ok c) (call_levels c) (call_count c)) ->
  accepts (validate_many f o calls p) (forall c, c ∈ calls -> ok c)
    (1 + max_list (map call_levels calls)) (sum_by call_count calls).
Proof.
  intros H b b' Hb. pose proof (max_list_nonneg (map call_levels calls)).
  pose proof (accepts_list (fun c => f o c p) ok calls H) as Hl.
  unfold validate_many. rewrite bind_Ok. split.
  - intros (u & b1 & He & (? & b2 & Hf & Hm)%bind_Ok). apply modify_Ok in Hm as [_ ->].
    destruct x. apply enter_Ok in He as [Hle ->]; [|done].
    apply Hl in Hf as (? & ? & ? & ->); [|destruct Hb; split; cbn; lia].
    cbn in *. split_and!; [done|lia|done|]. by apply leave_entered.
  - intros (? & ? & ? & ->). set (b1 := set_depth (bu_depth b + 1) b).
    exists tt, b1. split; [apply enter_Ok; [done|]; split; [lia|done]|].
    apply bind_Ok. exists tt, (set_calls (bu_calls b1 + sum_by call_count calls) b1). split.
    + apply Hl; [destruct Hb; split; cbn; lia|]. cbn. split_and!; [done|lia|done|done].
    + apply modify_Ok. split; [done|]. symmetry. by apply leave_entered.
Qed.

Lemma check_leaf_Ok o p d : check_leaf o p d = Ok tt <-> permitted o p (Leaf d).
Proof.
  rewrite permitted_iff. cbn [children node_ok].
  assert (forall c', c' ∈ [] -> permitted (child_origin o (Leaf d)) (child_flag p (Leaf d)) c')
    by (intros ? []%elem_of_nil).
  unfold check_leaf. destruct d, p; cbn; try case_bool_decide; naive_solver.
Qed.

Lemma permitted_child o p c i :
  children c = [i] -> node_ok o p c -> permitted (child_origin o c) (child_flag p c) i <-> permitted o p c.
Proof.
  intros E Hn. rewrite (permitted_iff o p c), E. setoid_rewrite list_elem_of_singleton. naive_solver.
Qed.

Lemma permitted_batch o p c calls :
  children c = calls -> node_ok o p c -> child_origin o c = o -> child_flag p c = p ->
  (forall c', c' ∈ calls -> permitted o p c') <-> permitted o p c.
Proof. intros E Hn Ho Hp. rewrite (permitted_iff o p c), E, Ho, Hp. naive_solver. Qed.

Lemma accepts_denied e ok l n : ~ ok -> accepts (throw e) ok l n.
Proof. intros Hn b b' _. split; [done|naive_solver]. Qed.

Lemma schedulable_iff o : schedulable o = true <-> o = ConstitutionalValues \/ o = OracleResolution.
Proof. destruct o; cbn; naive_solver. Qed.

Lemma accepts_scheduled o w ok l n :
  accepts w ok l n ->
  accepts (bind (lift (ensure (schedulable o) OrSchedulerDenied)) (fun _ => w)) (schedulable o = true /\ ok) l n.
Proof.
  intros H b b' Hb. destruct (schedulable o); cbn.
  - change (bind (lift (Ok tt)) (fun _ => w) b) with (w b). rewrite (H b b' Hb). naive_solver.
  - split; [done|naive_solver].
Qed.

(** The walk of the source accepts exactly the permitted trees that fit. *)
Lemma walk_accepts c o p :
  accepts (validate_inner o c p) (permitted o p c) (call_levels c) (call_count c).
Proof.
  revert o p. induction c as [c IH] using call_tree_ind. intros o p.
  pose proof (fun calls (E : children c = calls) => accepts_many validate_inner o calls p (permitted o p)) as Hb.
  destruct c as [d|calls|calls|calls|i|i|i|i|i|i|i| |o' i|i]; cbn [validate_inner call_levels call_count children] in *.
  all: try (pose proof (IH i ltac:(by left)) as IHi; pose proof (call_count_pos i); pose proof (call_levels_nonneg i)).
  all: try assert (0 <= sum_by call_count calls) by (apply sum_by_nonneg; intros v _; pose proof (call_count_pos v); lia).
  1: change 1 with (1 + 0).
  12: change 1 with (1 + 0).
  all: apply accepts_counted; [lia|].
  1: apply accepts_ret, check_leaf_Ok.
  1-3: eapply accepts_iff; [apply permitted_batch; done|apply accepts_many; intros; by apply IH].
  1-2: apply accepts_denied; by intros [[] _]%permitted_iff.
  1-5: eapply accepts_iff; [by apply permitted_child|by apply accepts_wrapped].
  - apply (accepts_ret _ (Ok tt)). rewrite permitted_iff. cbn. split; [|done].
    intros _. split; [done|]. by intros c []%elem_of_nil.
  - eapply accepts_iff; [|by apply accepts_scheduled, accepts_wrapped].
    rewrite (permitted_iff o p), schedulable_iff. cbn [node_ok children child_origin child_flag].
    setoid_rewrite list_elem_of_singleton. naive_solver.
  - eapply accepts_iff; [by apply permitted_child|by apply accepts_wrapped].
Qed.

(** The batch of a payload, from the root. *)
Lemma batch_accepts origin calls :
  validate_batch origin calls = Ok tt <->
    (forall c o p n, c ∈ calls -> visits origin false c o p n -> node_ok o p n)
    /\ (forall c, c ∈ calls -> call_levels c <= 4)
    /\ sum_by call_count calls <= 16.
Proof.
  pose proof (accepts_list (fun c => validate_inner origin c false) (permitted origin false) calls
      (fun c _ => walk_accepts c origin false) budget_root) as H.
  unfold validate_batch. transitivity (exists b, for_each_st (fun c => validate_inner origin c false) calls budget_root = (Ok tt, b)).
  { destruct (for_each_st _ calls budget_root) as [r b]. cbn. split; [by intros ->; exists b|by intros [? [= -> _]]]. }
  setoid_rewrite (fun b => H b ltac:(done)). cbn [bu_depth bu_calls budget_root].
  assert (0 + max_list (map call_levels calls) <= MAX_NESTED_LEVELS <-> forall c, c ∈ calls -> call_levels c <= 4) as E.
  { rewrite Z.add_0_l, max_list_le by done. setoid_rewrite list_elem_of_fmap. naive_solver. }
  setoid_rewrite E. unfold permitted, MAX_NESTED_CALLS. rewrite Z.add_0_l. split; [naive_solver|].
  intros (Hp & Hl & Hc). eexists. split_and!; [naive_solver|done..].
Qed.
