(* ===== verification/OriginsTheorems.v ===== *)
(** * The property of the safety filter

    The walk with its budget, against the declarative reading of
    [Origins]. *)

From S2P Require Import Prelude Keyed Primitives Proposals Origins.

(** The filter is exact: a payload of top-level calls is accepted from an
    origin if and only if every node its calls visit, through any wrappers, is
    permitted to the origin it would be dispatched from there (a privileged
    domain only to its own origin and never under a proxy or multisig, no
    origin switch but by the scheduler to the two origins it may carry), no
    call nests more than four wrappers, and the payload has at most sixteen
    calls in all. A single call is the payload of one. *)
Theorem filter_is_exact origin calls :
  (validate_batch origin calls = Ok tt <->
    (forall c o p n, c ∈ calls -> visits origin false c o p n -> node_ok o p n)
    /\ (forall c, c ∈ calls -> call_levels c <= 4)
    /\ sum_by call_count calls <= 16)
  /\ forall c, filter_validate origin c = validate_batch origin [c].
Proof.
  split.
  - apply batch_accepts.
  - intros c. unfold filter_validate, validate_batch. cbn [for_each_st]. unfold bind.
    by destruct (validate_inner origin c false budget_root) as [[[]|e] b].
Qed.

(** ** Witness: a scheduler entry of the values track inside a batch *)

Definition demo_payload : list RuntimeCall :=
  [UtilityBatchAll [Leaf DomPublic; UtilityWithWeight (Leaf DomTreasury)];
   Scheduler ConstitutionalValues (Sudo (Leaf DomConstitutionalValues))].

Lemma filter_is_exact_witness :
  validate_batch (Some FutarchyTreasury) demo_payload = Ok tt
  /\ node_ok (Some ConstitutionalValues) false (Leaf DomConstitutionalValues)
  /\ filter_validate (Some FutarchyTreasury) (Proxy (UtilityBatch [Leaf DomTreasury])) = Err OrPrivilegedWrapper.
Proof.
  destruct (filter_is_exact (Some FutarchyTreasury) demo_payload) as [E _].
  split; [by vm_compute|]. split; [|by vm_compute].
  destruct E as [E _]. destruct E as [Hn _]; [by vm_compute|].
  apply (Hn (Scheduler ConstitutionalValues (Sudo (Leaf DomConstitutionalValues)))); [by right; left|].
  apply (visits_child _ _ _ (Sudo (Leaf DomConstitutionalValues))); [by left|].
  apply (visits_child _ _ _ (Leaf DomConstitutionalValues)); [by left|apply visits_here].
Defined.
