(* ===== verification/Attestor.v ===== *)
(** * The attestor registry (crates/attestor-core)

    Bonded members attest to the artifacts of a proposal; an attestation can
    be challenged within its window, and a challenge resolved against it
    slashes the attestor and, on the second strike, ejects them and revokes
    their records. A proposal needs a quorum of attestations whose windows
    have closed. The callbacks that say whether a proposal was executed or is
    terminal are arguments. *)

From S2P Require Import Prelude Keyed Primitives Proposals.

Abbreviation AttestationId := Z (only parsing).

Definition MIN_MEMBERS : Z := 3.
Definition QUORUM : Z := 2.
Definition ATTESTOR_BOND : Balance := 25000000000000000.
Definition CHALLENGE_WINDOW_BLOCKS : BlockNumber := 43200.
Definition CHALLENGE_BOND : Balance := ATTESTOR_BOND / 2.
Definition FALSE_EJECTION_THRESHOLD : Z := 2.

Record AttestorParams : Type := {
  atp_bond : Balance;
  atp_challenge_window : BlockNumber;
}.

Definition attestor_params_default : AttestorParams :=
  {| atp_bond := ATTESTOR_BOND; atp_challenge_window := CHALLENGE_WINDOW_BLOCKS |}.

Definition half_ceil (value : Balance) : Balance := sat_add U128 (value / 2) (value mod 2).

Inductive AttestorOrigin : Type :=
| AoSigned
| AoConstitutionalValues
| AoRatifyTrack.

Inductive ChallengeStatus : Type :=
| ChOpen (challenger : AccountId) (evidence_hash : H256) (bond : Balance)
| ChUpheld
| ChRejected.

#[export] Instance ChallengeStatus_eq_dec : EqDecision ChallengeStatus.
Proof. solve_decision. Defined.

Record AttestorInfo : Type := {
  ai_account : AccountId;
  ai_bond : Balance;
  ai_false_count : Z;
  ai_active : bool;
}.

Record Attestation : Type := {
  att_id : AttestationId;
  att_pid : ProposalId;
  att_artifact_hash : H256;
  att_statement_hash : H256;
  att_attestor : AccountId;
  att_submitted_at : BlockNumber;
  att_challenge_deadline : BlockNumber;
  att_challenge : option ChallengeStatus;
}.

Record AttestorLiability : Type := {
  al_account : AccountId;
  al_bond : Balance;
  al_false_count : Z;
  al_ejected : bool;
}.

Record AttestationRevocation : Type := {
  ar_attestation_id : AttestationId;
  ar_pid : ProposalId;
  ar_attestor : AccountId;
  ar_cause_hash : H256;
}.

Inductive AttestorEvent : Type :=
| AtMembersSet (members : list AccountId)
| AtAttestationSubmitted (attestation_id : AttestationId) (pid : ProposalId) (artifact_hash : H256) (attestor : AccountId)
| AtAttestationChallenged (attestation_id : AttestationId) (challenger : AccountId) (evidence_hash : H256)
| AtChallengeResolved (attestation_id : AttestationId) (upheld : bool) (loser : AccountId) (slashed : Balance)
| AtAttestorEjected (who : AccountId)
| AtAttestorRemovedForCause (who : AccountId) (cause_hash : H256)
| AtAttestationRevoked (attestation_id : AttestationId) (pid : ProposalId) (attestor : AccountId) (cause_hash : H256).

Inductive AttestorError : Type :=
| AtBadOrigin
| AtNotMember
| AtDuplicateMember
| AtTooFewMembers
| AtAttestationNotFound
| AtDuplicateAttestation
| AtChallengeWindowClosed
| AtChallengeAlreadyOpen
| AtChallengeBondTooSmall
| AtChallengeStillOpen
| AtQuorumMissing
| AtNoOpenChallenge
| AtEjectedMemberActive
| AtLiabilityExists
| AtLiabilityNotFound
| AtProposalNotTerminal
| AtChallengeOpen
| AtReapNotAllowed
| AtTooManyLiabilities
| AtTooManyRevocations
| AtOverflow.

Record AttestorRegistry : Type := {
  rg_members : list AttestorInfo;
  rg_liabilities : list AttestorLiability;
  rg_attestations : list Attestation;
  rg_revocations : list AttestationRevocation;
  rg_next_attestation_id : AttestationId;
  rg_events : list AttestorEvent;
}.

Definition set_rg_members x g := {| g with rg_members := x |}.
Definition set_liabilities x g := {| g with rg_liabilities := x |}.
Definition set_attestations x g := {| g with rg_attestations := x |}.
Definition set_revocations x g := {| g with rg_revocations := x |}.
Definition set_next_attestation_id x g := {| g with rg_next_attestation_id := x |}.
Definition set_rg_events x g := {| g with rg_events := x |}.

Abbreviation AM A := (ST AttestorRegistry AttestorError A).

Definition rg_push (e : AttestorEvent) (g : AttestorRegistry) : AttestorRegistry :=
  set_rg_events (rg_events g ++ [e]) g.

Definition set_challenge (c : ChallengeStatus) (a : Attestation) : Attestation := {| a with att_challenge := Some c |}.

Definition challenge_open (a : Attestation) : bool :=
  match att_challenge a with Some (ChOpen _ _ _) => true | _ => false end.

(** ** Queries *)

Definition is_active_member (who : AccountId) (g : AttestorRegistry) : bool :=
  existsb (fun m => (ai_account m =? who) && ai_active m) (rg_members g).

Definition ensure_active_member (who : AccountId) (g : AttestorRegistry) : Result AttestorError unit :=
  ensure (is_active_member who g) AtNotMember.

Definition active_member_count (g : AttestorRegistry) : Z :=
  Z.of_nat (length (filter (fun m => ai_active m = true) (rg_members g))).

Definition attestation_counts (a : Attestation) (now : BlockNumber) : bool :=
  match att_challenge a with
  | None | Some ChUpheld => att_challenge_deadline a <? now
  | Some ChRejected | Some (ChOpen _ _ _) => false
  end.

Definition has_unsettled_liability (who : AccountId) (now : BlockNumber) (g : AttestorRegistry) : bool :=
  existsb (fun a =>
    match att_challenge a with
    | Some (ChOpen _ _ _) => true
    | None => now <=? att_challenge_deadline a
    | Some ChUpheld | Some ChRejected => false
    end) (filter (fun a => att_attestor a = who) (rg_attestations g)).

Definition bond_basis (who : AccountId) (g : AttestorRegistry) : option Balance :=
  match find_key ai_account who (rg_members g) with
  | Some m => Some (ai_bond m)
  | None => al_bond <$> find_key al_account who (rg_liabilities g)
  end.

Definition is_revoked (id : AttestationId) (g : AttestorRegistry) : bool :=
  existsb (fun r => ar_attestation_id r =? id) (rg_revocations g).

Definition attests_to (pid : ProposalId) (artifact_hash : H256) (a : Attestation) : Prop :=
  att_pid a = pid /\ att_artifact_hash a = artifact_hash.

#[export] Instance attests_to_dec pid artifact_hash a : Decision (attests_to pid artifact_hash a).
Proof. unfold attests_to. apply _. Defined.

(** The loop of both quorum tests: the attestors counted so far, and the
    records it skips. *)
Definition count_distinct (skip : Attestation -> bool) (now : BlockNumber) (records : list Attestation) : list AccountId :=
  fold_left (fun distinct a =>
    if bool_decide (att_attestor a ∈ distinct) || skip a then distinct
    else if attestation_counts a now then distinct ++ [att_attestor a]
    else distinct) records [].

Definition has_quorum (pid : ProposalId) (artifact_hash : H256) (now : BlockNumber) (g : AttestorRegistry) : bool :=
  if active_member_count g <? MIN_MEMBERS then false
  else
    QUORUM <=? Z.of_nat (length (count_distinct
      (fun a => negb (is_active_member (att_attestor a) g) || is_revoked (att_id a) g) now
      (filter (attests_to pid artifact_hash) (rg_attestations g)))).

Definition has_record_quorum (pid : ProposalId) (artifact_hash : H256) (now : BlockNumber) (g : AttestorRegistry) : bool :=
  QUORUM <=? Z.of_nat (length (count_distinct (fun a => is_revoked (att_id a) g) now
    (filter (attests_to pid artifact_hash) (rg_attestations g)))).

Definition require_quorum (pid : ProposalId) (artifact_hash : H256) (now : BlockNumber) (g : AttestorRegistry)
    : Result AttestorError unit :=
  ensure (has_quorum pid artifact_hash now g) AtQuorumMissing.

(** ** The roster *)

Definition validate_and_infos (members : list AccountId) (attestor_bond : Balance)
    : Result AttestorError (list AttestorInfo) :=
  do? ensure (MIN_MEMBERS <=? Z.of_nat (length members)) AtTooFewMembers in
  do? for_pairs (fun x y => ensure (negb (bool_decide (x = y))) AtDuplicateMember) members in
  Ok ((fun account => {| ai_account := account; ai_bond := attestor_bond; ai_false_count := 0; ai_active := true |})
        <$> members).

Definition AttestorRegistry_new (members : list AccountId) (params : AttestorParams)
    : Result AttestorError AttestorRegistry :=
  let? infos := validate_and_infos members (atp_bond params) in
  Ok {| rg_members := infos; rg_liabilities := []; rg_attestations := []; rg_revocations := [];
        rg_next_attestation_id := 0; rg_events := [] |}.

(** A continuing member keeps its strikes. *)
Definition carry_strikes (previous : list AttestorInfo) (info : AttestorInfo) : AttestorInfo :=
  match find_key ai_account (ai_account info) previous with
  | Some p => {| ai_account := ai_account info; ai_bond := ai_bond info; ai_false_count := ai_false_count p;
                 ai_active := ai_false_count p <? FALSE_EJECTION_THRESHOLD |}
  | None => info
  end.

Definition liability_of (p : AttestorInfo) : AttestorLiability :=
  {| al_account := ai_account p; al_bond := ai_bond p; al_false_count := ai_false_count p;
     al_ejected := negb (ai_active p) |}.

(** The departing members that still back a record. *)
Definition departs_liable (infos : list AttestorInfo) (now : BlockNumber) (g : AttestorRegistry) (p : AttestorInfo) : bool :=
  negb (existsb (fun i => ai_account i =? ai_account p) infos || negb (has_unsettled_liability (ai_account p) now g)).

Definition attestor_set_members (origin : AttestorOrigin) (members : list AccountId) (now : BlockNumber)
    (params : AttestorParams) : AM unit :=
  do! lift (ensure (match origin with AoConstitutionalValues => true | _ => false end) AtBadOrigin) in
  let! fresh := lift (validate_and_infos members (atp_bond params)) in
  let! g := get in
  let infos := carry_strikes (rg_members g) <$> fresh in
  do! lift (for_each (fun i =>
    ensure (negb (existsb (fun l => al_account l =? ai_account i) (rg_liabilities g))) AtLiabilityExists) infos) in
  let departing := filter (fun p => departs_liable infos now g p = true) (rg_members g) in
  do! modify (set_liabilities (rg_liabilities g ++ (liability_of <$> departing))) in
  do! modify (set_rg_members infos) in
  modify (rg_push (AtMembersSet members)).

(** ** Attestations *)

Definition attest (who : AccountId) (pid : ProposalId) (artifact_hash statement_hash : H256) (now : BlockNumber)
    (params : AttestorParams) : AM AttestationId :=
  do! reads (ensure_active_member who) in
  let! g := get in
  do! lift (ensure (negb (existsb (fun a => (att_pid a =? pid) && (att_artifact_hash a =? artifact_hash)
                                             && (att_attestor a =? who)) (rg_attestations g))) AtDuplicateAttestation) in
  let id := rg_next_attestation_id g in
  let! next := lift (ok_or AtOverflow (checked_add U32 id 1)) in
  do! modify (set_next_attestation_id next) in
  let! deadline := lift (ok_or AtOverflow (checked_add U32 now (atp_challenge_window params))) in
  do! modify (fun g => set_attestations (rg_attestations g ++
    [{| att_id := id; att_pid := pid; att_artifact_hash := artifact_hash; att_statement_hash := statement_hash;
        att_attestor := who; att_submitted_at := now; att_challenge_deadline := deadline; att_challenge := None |}]) g) in
  do! modify (rg_push (AtAttestationSubmitted id pid artifact_hash who)) in
  ret id.

Definition challenge_attestation (challenger : AccountId) (id : AttestationId) (evidence_hash : H256) (bond : Balance)
    (now : BlockNumber) : AM unit :=
  let! g := get in
  let! a := lift (ok_or AtAttestationNotFound (find_key att_id id (rg_attestations g))) in
  let! stored_bond := lift (ok_or AtNotMember (bond_basis (att_attestor a) g)) in
  do! lift (ensure (half_ceil stored_bond <=? bond) AtChallengeBondTooSmall) in
  do! lift (ensure (now <=? att_challenge_deadline a) AtChallengeWindowClosed) in
  do! lift (ensure (bool_decide (att_challenge a = None)) AtChallengeAlreadyOpen) in
  do! modify (set_attestations (alter_key att_id id (set_challenge (ChOpen challenger evidence_hash bond)) (rg_attestations g))) in
  modify (rg_push (AtAttestationChallenged id challenger evidence_hash)).

(** [is_executed] filters the records a revocation reaches. *)
Definition revocable (is_executed : ProposalId -> bool) (who : AccountId) (g : AttestorRegistry) (a : Attestation) : bool :=
  bool_decide (att_attestor a = who) && negb (is_executed (att_pid a))
  && negb (match att_challenge a with Some ChRejected => true | _ => false end)
  && negb (is_revoked (att_id a) g).

Definition revoke_records (who : AccountId) (cause_hash : H256) (is_executed : ProposalId -> bool) : AM unit :=
  let! g := get in
  let records := filter (fun a => revocable is_executed who g a = true) (rg_attestations g) in
  for_each_st (fun a =>
    do! modify (fun g => set_revocations (rg_revocations g ++
      [{| ar_attestation_id := att_id a; ar_pid := att_pid a; ar_attestor := who; ar_cause_hash := cause_hash |}]) g) in
    modify (rg_push (AtAttestationRevoked (att_id a) (att_pid a) who cause_hash))) records.

Definition strike (slashed : Balance) (m : AttestorInfo) : AttestorInfo :=
  let count := sat_add U8 (ai_false_count m) 1 in
  {| ai_account := ai_account m; ai_bond := sat_sub (ai_bond m) slashed; ai_false_count := count;
     ai_active := if FALSE_EJECTION_THRESHOLD <=? count then false else ai_active m |}.

Definition strike_liability (slashed : Balance) (l : AttestorLiability) : AttestorLiability :=
  let count := sat_add U8 (al_false_count l) 1 in
  {| al_account := al_account l; al_bond := sat_sub (al_bond l) slashed; al_false_count := count;
     al_ejected := if FALSE_EJECTION_THRESHOLD <=? count then true else al_ejected l |}.

(** The strike lands on the member's row or on the retained liability; the
    result is whether it ejects. *)
Definition strike_attestor (attestor : AccountId) (slashed : Balance) : AM bool :=
  let! g := get in
  match find_key ai_account attestor (rg_members g) with
  | Some m =>
      do! modify (set_rg_members (alter_key ai_account attestor (strike slashed) (rg_members g))) in
      ret (FALSE_EJECTION_THRESHOLD <=? ai_false_count (strike slashed m))
  | None =>
      match find_key al_account attestor (rg_liabilities g) with
      | Some l =>
          do! modify (set_liabilities (alter_key al_account attestor (strike_liability slashed) (rg_liabilities g))) in
          ret (FALSE_EJECTION_THRESHOLD <=? al_false_count (strike_liability slashed l))
      | None => throw AtNotMember
      end
  end.

Definition resolve_challenge_with (origin : AttestorOrigin) (id : AttestationId) (attestation_upheld : bool)
    (is_executed : ProposalId -> bool) : AM unit :=
  do! lift (ensure (match origin with AoRatifyTrack => true | _ => false end) AtBadOrigin) in
  let! g := get in
  let! a := lift (ok_or AtAttestationNotFound (find_key att_id id (rg_attestations g))) in
  let! (challenger, bond) := lift (match att_challenge a with
                                    | Some (ChOpen challenger _ bond) => Ok (challenger, bond)
                                    | _ => Err AtNoOpenChallenge
                                    end) in
  let loser := if attestation_upheld then challenger else att_attestor a in
  let! slashed := lift (if attestation_upheld then Ok (half_ceil bond)
                        else rmap half_ceil (ok_or AtNotMember (bond_basis loser g))) in
  do! (if attestation_upheld
       then modify (set_attestations (alter_key att_id id (set_challenge ChUpheld) (rg_attestations g)))
       else
         do! modify (set_attestations (alter_key att_id id (set_challenge ChRejected) (rg_attestations g))) in
         let! ejected := strike_attestor (att_attestor a) slashed in
         if ejected : bool then
           do! modify (rg_push (AtAttestorEjected (att_attestor a))) in
           revoke_records (att_attestor a) 0 is_executed
         else ret tt) in
  modify (rg_push (AtChallengeResolved id attestation_upheld loser slashed)).

Definition resolve_challenge (origin : AttestorOrigin) (id : AttestationId) (attestation_upheld : bool) : AM unit :=
  resolve_challenge_with origin id attestation_upheld (fun _ => false).

Definition remove_for_cause (origin : AttestorOrigin) (who : AccountId) (cause_hash : H256)
    (is_executed : ProposalId -> bool) : AM unit :=
  do! lift (ensure (match origin with AoConstitutionalValues => true | _ => false end) AtBadOrigin) in
  let! g := get in
  let! m := lift (ok_or AtNotMember (find_key ai_account who (rg_members g))) in
  do! modify (set_rg_members (remove_key ai_account who (rg_members g))) in
  do! modify (set_liabilities (rg_liabilities g ++
    [{| al_account := who; al_bond := ai_bond m; al_false_count := ai_false_count m; al_ejected := true |}])) in
  do! revoke_records who cause_hash is_executed in
  modify (rg_push (AtAttestorRemovedForCause who cause_hash)).

Definition reap_attestation (id : AttestationId) (now : BlockNumber) (is_terminal : ProposalId -> bool)
    : AM (option AttestorLiability) :=
  let! g := get in
  let! a := lift (ok_or AtAttestationNotFound (find_key att_id id (rg_attestations g))) in
  do! lift (ensure (is_terminal (att_pid a)) AtProposalNotTerminal) in
  do! lift (ensure (negb (challenge_open a)) AtChallengeOpen) in
  do! lift (ensure (negb (bool_decide (att_challenge a = None)) || (att_challenge_deadline a <? now)) AtReapNotAllowed) in
  do! modify (set_attestations (remove_key att_id id (rg_attestations g))) in
  do! modify (set_revocations (filter (fun r => ar_attestation_id r <> id) (rg_revocations g))) in
  let! g := get in
  let who := att_attestor a in
  if existsb (fun r => att_attestor r =? who) (rg_attestations g)
     || existsb (fun r => ar_attestor r =? who) (rg_revocations g)
  then ret None
  else
    match find_key al_account who (rg_liabilities g) with
    | Some l =>
        do! modify (set_liabilities (remove_key al_account who (rg_liabilities g))) in
        ret (Some l)
    | None => ret None
    end.

(** ** The state checker *)

Fixpoint check_liabilities (members : list AttestorInfo) (ls : list AttestorLiability) : Result AttestorError unit :=
  match ls with
  | [] => Ok tt
  | l :: rest =>
      do? ensure (negb (existsb (fun m => ai_account m =? al_account l) members)) AtLiabilityExists in
      do? for_each (fun l' => ensure (negb (bool_decide (al_account l = al_account l'))) AtLiabilityExists) rest in
      check_liabilities members rest
  end.

Definition attestor_try_state (g : AttestorRegistry) : Result AttestorError unit :=
  do? for_pairs (fun x y => ensure (negb (bool_decide (ai_account x = ai_account y))) AtDuplicateMember) (rg_members g) in
  do? for_each (fun m => ensure ((ai_false_count m <? FALSE_EJECTION_THRESHOLD) || negb (ai_active m)) AtEjectedMemberActive)
        (rg_members g) in
  do? check_liabilities (rg_members g) (rg_liabilities g) in
  do? for_each (fun a =>
        if challenge_open a
        then ensure (bool_decide (is_Some (bond_basis (att_attestor a) g))) AtNotMember
        else Ok tt) (rg_attestations g) in
  for_each (fun r =>
    ensure (existsb (fun a => (att_id a =? ar_attestation_id r) && (att_pid a =? ar_pid r)
                              && (att_attestor a =? ar_attestor r)) (rg_attestations g)) AtAttestationNotFound)
    (rg_revocations g).
