(* ===== verification/AttestorInv.v ===== *)
(** * The attestor registry as a transition system, and its invariant

    The calls, a step per successful call, and the well-formedness of the
    tables: unique accounts and ids, members and liabilities disjoint, ejected
    members inactive, a slash basis behind every open challenge and a record
    behind every revocation. Also what a successful revocation does. *)

From S2P Require Import Prelude Keyed Primitives Proposals Attestor.

Inductive AttestorCall : Type :=
| ASetMembers (origin : AttestorOrigin) (members : list AccountId) (now : BlockNumber) (params : AttestorParams)
| AAttest (who : AccountId) (pid : ProposalId) (artifact_hash statement_hash : H256) (now : BlockNumber)
    (params : AttestorParams)
| AChallenge (challenger : AccountId) (id : AttestationId) (evidence_hash : H256) (bond : Balance) (now : BlockNumber)
| AResolve (origin : AttestorOrigin) (id : AttestationId) (upheld : bool) (is_executed : ProposalId -> bool)
| ARemove (origin : AttestorOrigin) (who : AccountId) (cause_hash : H256) (is_executed : ProposalId -> bool)
| AReap (id : AttestationId) (now : BlockNumber) (is_terminal : ProposalId -> bool).

Definition attestor_exec (c : AttestorCall) : AM unit :=
  match c with
  | ASetMembers o ms now p => attestor_set_members o ms now p
  | AAttest who pid h st now p => let! _ := attest who pid h st now p in ret tt
  | AChallenge who id e b now => challenge_attestation who id e b now
  | AResolve o id up ex => resolve_challenge_with o id up ex
  | ARemove o who cause ex => remove_for_cause o who cause ex
  | AReap id now t => let! _ := reap_attestation id now t in ret tt
  end.

Definition attestor_step (g g' : AttestorRegistry) : Prop := exists c, attestor_exec c g = (Ok tt, g').

Definition attestor_reachable (g : AttestorRegistry) : Prop :=
  exists members params g0, AttestorRegistry_new members params = Ok g0 /\ rtc attestor_step g0 g.

(** An account whose bond can still be slashed. *)
Definition rostered (who : AccountId) (g : AttestorRegistry) : Prop :=
  who ∈ keys ai_account (rg_members g) \/ who ∈ keys al_account (rg_liabilities g).

Record attestor_ok (g : AttestorRegistry) : Prop := {
  ao_members : NoDup (keys ai_account (rg_members g));
  ao_liabilities : NoDup (keys al_account (rg_liabilities g));
  ao_disjoint : forall who, who ∈ keys al_account (rg_liabilities g) -> who ∉ keys ai_account (rg_members g);
  ao_strikes : forall m, m ∈ rg_members g -> ai_false_count m < FALSE_EJECTION_THRESHOLD \/ ai_active m = false;
  ao_ids : NoDup (keys att_id (rg_attestations g));
  ao_next : forall a, a ∈ rg_attestations g -> att_id a < rg_next_attestation_id g;
  ao_basis : forall a, a ∈ rg_attestations g -> challenge_open a = true -> rostered (att_attestor a) g;
  ao_revoked : forall r, r ∈ rg_revocations g -> exists a, a ∈ rg_attestations g
    /\ att_id a = ar_attestation_id r /\ att_pid a = ar_pid r /\ att_attestor a = ar_attestor r;
}.

(** ** Reading the tables *)

Lemma is_revoked_iff id g : is_revoked id g = true <-> exists r, r ∈ rg_revocations g /\ ar_attestation_id r = id.
Proof. unfold is_revoked. rewrite existsb_elem. by setoid_rewrite Z.eqb_eq. Qed.

Lemma bond_basis_iff who g : is_Some (bond_basis who g) <-> rostered who g.
Proof.
  unfold bond_basis, rostered. destruct (find_key ai_account who (rg_members g)) as [m|] eqn:E.
  - apply find_key_Some in E as [Em Hm]. split; [|by eexists]. intros _. left. apply elem_of_keys. eauto.
  - apply find_key_None in E. rewrite fmap_is_Some. destruct (find_key al_account who _) as [l|] eqn:El.
    + apply find_key_Some in El as [El Hl]. split; [|by eexists]. intros _. right. apply elem_of_keys. eauto.
    + apply find_key_None in El. split; [by intros [? [=]]|naive_solver].
Qed.

(** ** Revocations *)

Definition revocations_of (is_executed : ProposalId -> bool) (who : AccountId) (cause : H256) (g : AttestorRegistry)
    : list AttestationRevocation :=
  (fun a => {| ar_attestation_id := att_id a; ar_pid := att_pid a; ar_attestor := who; ar_cause_hash := cause |})
  <$> filter (fun a => revocable is_executed who g a = true) (rg_attestations g).

Record revoked_from (revs : list AttestationRevocation) (g g' : AttestorRegistry) : Prop := {
  rf_members : rg_members g' = rg_members g;
  rf_liabilities : rg_liabilities g' = rg_liabilities g;
  rf_attestations : rg_attestations g' = rg_attestations g;
  rf_next : rg_next_attestation_id g' = rg_next_attestation_id g;
  rf_revocations : rg_revocations g' = rg_revocations g ++ revs;
  rf_events : forall w, AtAttestorEjected w ∈ rg_events g' -> AtAttestorEjected w ∈ rg_events g;
}.

Lemma revoke_records_revokes who cause ex g g' :
  revoke_records who cause ex g = (Ok tt, g') -> revoked_from (revocations_of ex who cause g) g g'.
Proof.
  unfold revoke_records. rewrite bind_get. unfold revocations_of.
  generalize (filter (fun a => revocable ex who g a = true) (rg_attestations g)) as l.
  intros l. revert g. induction l as [|a l IH]; intros g H; cbn [for_each_st] in H.
  - inv_all. constructor; [done..|by rewrite app_nil_r|done].
  - inv_all. apply IH in H as [Hm Hl Ha Hn Hr He]. constructor; [done..| |].
    + rewrite Hr. cbn. by rewrite <- app_assoc.
    + intros w [Hw|Hw%list_elem_of_singleton]%He%elem_of_app; done.
Qed.

Lemma revocations_of_spec ex who cause g r :
  r ∈ revocations_of ex who cause g ->
  exists a, a ∈ rg_attestations g /\ att_id a = ar_attestation_id r /\ att_pid a = ar_pid r /\ att_attestor a = ar_attestor r.
Proof.
  intros (a & -> & [Hr Ha]%list_elem_of_filter)%list_elem_of_fmap. exists a. split_and!; try done.
  unfold revocable in Hr. to_prop. done.
Qed.

Lemma revoked_from_ok ex who cause g g' :
  attestor_ok g -> revoked_from (revocations_of ex who cause g) g g' -> attestor_ok g'.
Proof.
  intros [] [Em El Ea En Er _]. constructor; unfold rostered; rewrite ?Em, ?El, ?Ea, ?En; try done.
  intros r. rewrite Er, elem_of_app. intros [Hr|Hr]; [auto|by eapply revocations_of_spec].
Qed.

(** The records of [who] that no execution protects are void afterwards. *)
Lemma revoked_from_void ex who cause g g' a :
  revoked_from (revocations_of ex who cause g) g g' ->
  a ∈ rg_attestations g -> att_attestor a = who -> ex (att_pid a) = false ->
  is_revoked (att_id a) g' = true \/ att_challenge a = Some ChRejected.
Proof.
  intros Hf Ha Hw Hex. destruct (revocable ex who g a) eqn:Hr.
  - left. apply is_revoked_iff. exists {| ar_attestation_id := att_id a; ar_pid := att_pid a; ar_attestor := who; ar_cause_hash := cause |}.
    split; [|done]. rewrite (rf_revocations _ _ _ Hf), elem_of_app. right. apply list_elem_of_fmap.
    exists a. split; [done|]. by apply list_elem_of_filter.
  - unfold revocable in Hr. rewrite bool_decide_eq_true_2, Hex in Hr by done. cbn in Hr.
    apply andb_false_iff in Hr as [Hr|Hr]; to_prop.
    + right. destruct (att_challenge a) as [[]|]; done.
    + left. apply is_revoked_iff in Hr as (r & Hin & E). apply is_revoked_iff. exists r. split; [|done].
      rewrite (rf_revocations _ _ _ Hf), elem_of_app. by left.
Qed.

(** ** Every call of the attestor registry keeps its invariant

    The same case analysis shows that a void record (revoked, or rejected by a
    challenge) stays void for the rest of the registry's life. *)

(** An id that was given out and whose record, if still kept, is void. *)
Definition spent (id : AttestationId) (g : AttestorRegistry) : Prop :=
  id < rg_next_attestation_id g
  /\ forall a, a ∈ rg_attestations g -> att_id a = id -> is_revoked id g = true \/ att_challenge a = Some ChRejected.

Definition registry_keeps (g g' : AttestorRegistry) : Prop :=
  attestor_ok g -> attestor_ok g' /\ forall id, spent id g -> spent id g'.

Lemma registry_keeps_trans g1 g2 g3 : registry_keeps g1 g2 -> registry_keeps g2 g3 -> registry_keeps g1 g3.
Proof. intros H1 H2 Hg. destruct (H1 Hg) as [Hg2 Hs]. destruct (H2 Hg2) as [Hg3 Hs2]. auto. Qed.

Lemma rg_push_keeps e g : registry_keeps g (rg_push e g).
Proof. intros []. split; [|done]. by constructor. Qed.

Lemma revoke_records_keeps who cause ex g u g' : revoke_records who cause ex g = (Ok u, g') -> registry_keeps g g'.
Proof.
  destruct u. intros H Hg. apply revoke_records_revokes in H. split; [by eapply revoked_from_ok|].
  destruct H as [_ _ Ea En Er _]. intros id [Hlt Hv]. split; [by rewrite En|]. rewrite Ea. intros a Ha Eid.
  destruct (Hv a Ha Eid) as [Hr|Hr]; [left|by right].
  apply is_revoked_iff in Hr as (r & Hin & E). apply is_revoked_iff. exists r. rewrite Er, elem_of_app. auto.
Qed.

Lemma revoked_from_spent who cause ex g g' a :
  attestor_ok g -> revoked_from (revocations_of ex who cause g) g g' ->
  a ∈ rg_attestations g -> att_attestor a = who -> ex (att_pid a) = false -> spent (att_id a) g'.
Proof.
  intros [] Hf Ha Hw Hex. split; [rewrite (rf_next _ _ _ Hf); by apply ao_next0|].
  rewrite (rf_attestations _ _ _ Hf). intros b Hb E.
  assert (b = a) as ->.
  { pose proof (find_key_elem att_id _ _ ao_ids0 Hb). pose proof (find_key_elem att_id _ _ ao_ids0 Ha). congruence. }
  by eapply revoked_from_void.
Qed.

(** ** The status of one attestation *)

Lemma set_challenge_keeps id c a g :
  find_key att_id id (rg_attestations g) = Some a ->
  att_challenge a <> Some ChRejected ->
  (challenge_open (set_challenge c a) = true -> rostered (att_attestor a) g) ->
  registry_keeps g (set_attestations (alter_key att_id id (set_challenge c) (rg_attestations g)) g).
Proof.
  intros Hf Hnr Hb [].
  assert (forall b, b ∈ alter_key att_id id (set_challenge c) (rg_attestations g) ->
            (b ∈ rg_attestations g /\ att_id b <> id) \/ (b = set_challenge c a)) as Hcase.
  { intros b [[]|(w & Hw & ->)]%elem_of_alter_NoDup; [auto| |done..]. right. congruence. }
  pose proof (find_key_Some _ _ _ _ Hf) as [Ea Ha]. split.
  - constructor; cbn [set_attestations rg_attestations rg_members rg_liabilities rg_revocations]; try done.
    + by rewrite keys_alter.
    + intros b [[Hb' _]| ->]%Hcase; [auto|]. by apply (ao_next0 a).
    + intros b [[Hb' _]| ->]%Hcase; [by apply ao_basis0|done].
    + intros r (b & Hb' & E)%ao_revoked0. destruct (decide (att_id b = id)) as [Ei|Ei].
      * exists (set_challenge c b). split; [|done].
        assert (b = a) as -> by (pose proof (find_key_elem att_id _ _ ao_ids0 Hb') as E2; rewrite Ei in E2; congruence).
        apply (find_key_Some att_id id). by apply find_key_alter_eq.
      * exists b. split; [|done]. apply (find_key_Some att_id (att_id b)).
        rewrite find_key_alter_ne by done. by apply find_key_elem.
  - intros i [Hlt Hv]. split; [done|]. cbn [set_attestations rg_attestations]. intros b Hin Ei.
    change (is_revoked i (set_attestations ?l g)) with (is_revoked i g).
    destruct (Hcase b Hin) as [[Hb' _]| ->]; [auto|].
    destruct (Hv a Ha Ei); [by left|done].
Qed.

(** ** The calls *)

Lemma attest_keeps who pid h st now p g id g' : attest who pid h st now p g = (Ok id, g') -> registry_keeps g g'.
Proof.
  unfold attest. intros H. inv_all.
  eapply registry_keeps_trans; [|apply rg_push_keeps]. intros [].
  cbn [set_attestations set_next_attestation_id rg_attestations]. split.
  - constructor; cbn [set_attestations set_next_attestation_id rg_attestations rg_members rg_liabilities rg_revocations
                      rg_next_attestation_id]; try done.
    + rewrite keys_app. apply NoDup_app. split_and!; [done| |apply NoDup_singleton].
      intros i Hi Hn. apply list_elem_of_singleton in Hn as ->. apply elem_of_keys in Hi as (a & Ha & E).
      specialize (ao_next0 a Ha). cbn in *. lia.
    + intros a [Ha| ->%list_elem_of_singleton]%elem_of_app; [specialize (ao_next0 a Ha); lia|cbn; lia].
    + intros a [Ha| ->%list_elem_of_singleton]%elem_of_app; [by apply ao_basis0|done].
    + intros r (a & Ha & E)%ao_revoked0. exists a. rewrite elem_of_app. auto.
  - intros i [Hlt Hv]. split; [cbn; lia|]. cbn [set_attestations rg_attestations].
    intros a [Ha| ->%list_elem_of_singleton]%elem_of_app Ei; [by apply Hv|]. cbn in *. lia.
Qed.

Lemma challenge_attestation_keeps who id e b now g u g' :
  challenge_attestation who id e b now g = (Ok u, g') -> registry_keeps g g'.
Proof.
  unfold challenge_attestation. intros H. inv_all. to_prop.
  eapply registry_keeps_trans; [|apply rg_push_keeps]. eapply set_challenge_keeps; [done|congruence|].
  intros _. apply bond_basis_iff. eauto.
Qed.

Lemma strike_attestor_keeps who s g e g' : strike_attestor who s g = (Ok e, g') -> registry_keeps g g'.
Proof.
  unfold strike_attestor. intros H. rewrite bind_get in H.
  destruct (find_key ai_account who (rg_members g)) as [m|] eqn:Em;
    [|destruct (find_key al_account who (rg_liabilities g)) as [l|] eqn:El; [|done]].
  all: inv_all; intros []; split; [|done].
  all: constructor; unfold rostered; cbn [set_rg_members set_liabilities rg_members rg_liabilities];
    rewrite ?keys_alter by done; try done.
  intros m' [Hm|(w & Hw & ->)]%elem_of_alter; [auto|].
  cbn. destruct (_ <=? _) eqn:E; to_prop; [by right|left; lia].
Qed.

Lemma strike_attestor_frame who s g e g' :
  strike_attestor who s g = (Ok e, g') -> rg_attestations g' = rg_attestations g /\ rg_events g' = rg_events g.
Proof.
  unfold strike_attestor. intros H. rewrite bind_get in H.
  destruct (find_key ai_account who (rg_members g)) as [m|];
    [|destruct (find_key al_account who (rg_liabilities g)) as [l|]; [|done]]; by inv_all.
Qed.

Lemma resolve_challenge_keeps o id up ex g u g' : resolve_challenge_with o id up ex g = (Ok u, g') -> registry_keeps g g'.
Proof.
  unfold resolve_challenge_with. intros H. inv_all.
  destruct (att_challenge _) as [[ch ev bo| |]|] eqn:Ec; inv_all; try done.
  subst. cbv beta iota in *. inv_all. eapply registry_keeps_trans; [|apply rg_push_keeps].
  destruct up; inv_all; [eapply set_challenge_keeps; [done|congruence|done]|].
  eapply registry_keeps_trans; [eapply (set_challenge_keeps _ ChRejected); [done|congruence|done]|].
  eapply registry_keeps_trans; [by eapply strike_attestor_keeps|].
  match goal with H : (if ?e then _ else _) _ = _ |- _ => destruct e end; inv_all; [|by split].
  eapply registry_keeps_trans; [apply rg_push_keeps|by eapply revoke_records_keeps].
Qed.

Lemma validate_and_infos_Ok members bond infos :
  validate_and_infos members bond = Ok infos ->
  NoDup members /\ MIN_MEMBERS <= Z.of_nat (length members) /\ keys ai_account infos = members
  /\ forall m, m ∈ infos -> ai_false_count m = 0.
Proof.
  unfold validate_and_infos. intros H. inv_all. to_prop. subst.
  match goal with H : for_pairs _ _ = Ok ?u |- _ => destruct u; apply (for_pairs_NoDup (fun x : AccountId => x)) in H; rewrite list_fmap_id in H end.
  split_and!; [done..| |].
  - unfold keys. rewrite <- list_fmap_compose. apply list_fmap_id.
  - by intros m (w & -> & _)%list_elem_of_fmap.
Qed.

Lemma keys_carry previous infos : keys ai_account (carry_strikes previous <$> infos) = keys ai_account infos.
Proof.
  unfold keys. rewrite <- list_fmap_compose. apply list_fmap_ext. intros _ i _. cbn.
  unfold carry_strikes. by destruct (find_key _ _ _).
Qed.

Lemma departs_liable_open infos now g p a :
  a ∈ rg_attestations g -> challenge_open a = true -> att_attestor a = ai_account p ->
  ai_account p ∉ keys ai_account infos -> departs_liable infos now g p = true.
Proof.
  intros Ha Ho Ep Hn. unfold departs_liable. apply negb_true_iff, orb_false_iff. split.
  - apply existsb_none. intros i Hi. apply Z.eqb_neq. intros E. apply Hn, elem_of_keys. eauto.
  - apply negb_false_iff, existsb_elem. exists a. split; [by apply list_elem_of_filter|].
    unfold challenge_open in Ho. by destruct (att_challenge a) as [[]|].
Qed.

Lemma departs_liable_gone infos now g p : departs_liable infos now g p = true -> ai_account p ∉ keys ai_account infos.
Proof.
  unfold departs_liable. intros [H _]%negb_true_iff%orb_false_iff (i & Hi & E)%elem_of_keys.
  rewrite existsb_none in H. specialize (H i Hi). to_prop. done.
Qed.

Lemma attestor_roster_keeps o ms now p g u g' : attestor_set_members o ms now p g = (Ok u, g') -> registry_keeps g g'.
Proof.
  unfold attestor_set_members. intros H. inv_all. eapply registry_keeps_trans; [|apply rg_push_keeps].
  match goal with H : validate_and_infos _ _ = Ok ?l |- _ => rename l into fresh; apply validate_and_infos_Ok in H as (Hms & _ & Ef & Hz) end.
  set (infos := carry_strikes _ <$> fresh) in *. set (dep := filter _ _).
  assert (keys ai_account infos = ms) as Ei by (unfold infos; by rewrite keys_carry).
  intros []. split; [|done].
  assert (keys al_account (liability_of <$> dep) = keys ai_account dep) as Ed
    by (unfold keys; by rewrite <- list_fmap_compose).
  assert (forall who, who ∈ keys al_account (rg_liabilities g) -> who ∉ ms) as Hold.
  { intros who (l & Hl & El)%elem_of_keys. rewrite <- Ei. intros (i & Hi & E)%elem_of_keys.
    match goal with H : for_each _ _ = Ok _ |- _ => rewrite for_each_Ok in H; specialize (H i Hi); rewrite ensure_Ok in H end.
    to_prop. rewrite existsb_none in *. specialize (H2 l Hl). to_prop. congruence. }
  assert (forall who, who ∈ keys ai_account dep -> who ∈ keys ai_account (rg_members g) /\ who ∉ ms) as Hdep.
  { intros who (q & [Hq Hin]%list_elem_of_filter & <-)%elem_of_keys.
    split; [apply elem_of_keys; eauto|]. rewrite <- Ei. by eapply departs_liable_gone. }
  constructor; unfold rostered;
    cbn [set_rg_members set_liabilities rg_members rg_liabilities rg_attestations rg_revocations rg_next_attestation_id];
    rewrite ?Ei, ?keys_app, ?Ed; try done.
  - apply NoDup_app. split_and!; [done| |].
    + intros who Hl Hd. apply Hdep in Hd as [Hd _]. by eapply ao_disjoint0.
    + eapply sublist_NoDup; [exact ao_members0|]. apply fmap_sublist, sublist_filter.
  - intros who [Hl|Hd]%elem_of_app; [by apply Hold|by apply Hdep].
  - intros m (i & -> & Hi)%list_elem_of_fmap. unfold carry_strikes.
    destruct (find_key ai_account _ _) as [q|] eqn:Eq; [|left; rewrite Hz by done; done].
    cbn. destruct (_ <? _) eqn:El; to_prop; [by left|by right].
  - intros a Ha Ho. destruct (decide (att_attestor a ∈ ms)) as [Hin|Hin]; [by left|right]. apply elem_of_app.
    destruct (ao_basis0 a Ha Ho) as [(q & Hq & E)%elem_of_keys|Hl]; [right|by left].
    apply elem_of_keys. exists q. split; [|done]. apply list_elem_of_filter. split; [|done].
    eapply departs_liable_open; [done..|by symmetry|]. by rewrite Ei, E.
Qed.

(** A member removed for cause leaves a liability behind. *)
Lemma seize_member_keeps who m g :
  find_key ai_account who (rg_members g) = Some m ->
  registry_keeps g (set_liabilities (rg_liabilities g ++
    [{| al_account := who; al_bond := ai_bond m; al_false_count := ai_false_count m; al_ejected := true |}])
    (set_rg_members (remove_key ai_account who (rg_members g)) g)).
Proof.
  intros [Em Hm]%find_key_Some []. split; [|done].
  assert (who ∈ keys ai_account (rg_members g)) as Hwho by (apply elem_of_keys; eauto).
  constructor; unfold rostered;
    cbn [set_rg_members set_liabilities rg_members rg_liabilities rg_attestations rg_revocations rg_next_attestation_id];
    rewrite ?keys_app; try done.
  - by apply keys_remove_NoDup.
  - apply NoDup_app. split_and!; [done| |apply NoDup_singleton].
    intros w Hl ->%list_elem_of_singleton. by eapply ao_disjoint0.
  - intros w [Hl| ->%list_elem_of_singleton]%elem_of_app (q & Hq & E)%elem_of_keys.
    + apply elem_of_remove in Hq. eapply ao_disjoint0; [done|]. apply elem_of_keys. eauto.
    + by apply elem_of_remove_key in Hq as [_ Hne].
  - intros m' Hm'%elem_of_remove. by apply ao_strikes0.
  - intros a Ha Ho. destruct (ao_basis0 a Ha Ho) as [(q & Hq & E)%elem_of_keys|Hl]; [|right; set_solver].
    destruct (decide (att_attestor a = who)) as [->|Hne]; [right; set_solver|left].
    apply elem_of_keys. exists q. split; [|done]. apply elem_of_remove_ne; [done..|congruence].
Qed.

Lemma remove_for_cause_keeps o who cause ex g u g' : remove_for_cause o who cause ex g = (Ok u, g') -> registry_keeps g g'.
Proof.
  unfold remove_for_cause. intros H. inv_all. eapply registry_keeps_trans; [|apply rg_push_keeps].
  eapply registry_keeps_trans; [by apply (seize_member_keeps who)|by eapply revoke_records_keeps].
Qed.

Lemma drop_liability_keeps who g :
  (forall a, a ∈ rg_attestations g -> att_attestor a <> who) ->
  registry_keeps g (set_liabilities (remove_key al_account who (rg_liabilities g)) g).
Proof.
  intros Hn []. split; [|done].
  constructor; unfold rostered; cbn [set_liabilities rg_members rg_liabilities rg_attestations rg_revocations]; try done.
  - by apply keys_remove_NoDup.
  - intros w (l & Hl%elem_of_remove & E)%elem_of_keys. apply ao_disjoint0, elem_of_keys. eauto.
  - intros a Ha Ho. destruct (ao_basis0 a Ha Ho) as [Hl|(l & Hl & E)%elem_of_keys]; [by left|right].
    apply elem_of_keys. exists l. split; [|done]. apply elem_of_remove_ne; [done..|].
    rewrite E. by apply Hn.
Qed.

Lemma drop_record_keeps id g :
  registry_keeps g (set_revocations (filter (fun r => ar_attestation_id r <> id) (rg_revocations g))
    (set_attestations (remove_key att_id id (rg_attestations g)) g)).
Proof.
  intros []. split.
  - constructor; unfold rostered; cbn [set_attestations set_revocations rg_members rg_liabilities rg_attestations
                                       rg_revocations rg_next_attestation_id]; try done.
    + by apply keys_remove_NoDup.
    + intros a Ha%elem_of_remove. by apply ao_next0.
    + intros a Ha%elem_of_remove. by apply ao_basis0.
    + intros r [Hne Hr]%list_elem_of_filter. destruct (ao_revoked0 r Hr) as (a & Ha & E & ?).
      exists a. split; [|done]. apply elem_of_remove_ne; [done..|congruence].
  - intros i [Hlt Hv]. split; [done|]. cbn [set_attestations set_revocations rg_attestations].
    intros a Ha Ei. apply elem_of_remove_key in Ha as [Ha Hne]; [|done].
    destruct (Hv a Ha Ei) as [(r & Hr & Er)%is_revoked_iff|Hr]; [left|by right].
    apply is_revoked_iff. exists r. split; [|done]. apply list_elem_of_filter. split; [congruence|done].
Qed.

Lemma reap_attestation_keeps id now t g r g' : reap_attestation id now t g = (Ok r, g') -> registry_keeps g g'.
Proof.
  unfold reap_attestation. intros H. inv_all. eapply registry_keeps_trans; [apply (drop_record_keeps id)|].
  destruct (_ || _) eqn:Hp in H; inv_all; [by split|].
  destruct (find_key _ _ _) as [l|] in H; inv_all; [|by split].
  to_prop. apply drop_liability_keeps. intros a Ha E.
  match goal with H : existsb _ (rg_attestations _) = false |- _ => rewrite existsb_none in H; specialize (H a Ha) end.
  by to_prop.
Qed.

Lemma attestor_step_keeps g g' : attestor_step g g' -> registry_keeps g g'.
Proof.
  intros [c H]. destruct c; cbn [attestor_exec] in H; inv_all;
    eauto using attestor_roster_keeps, attest_keeps, challenge_attestation_keeps, resolve_challenge_keeps,
      remove_for_cause_keeps, reap_attestation_keeps.
Qed.

Lemma attestor_run_keeps g g' : rtc attestor_step g g' -> registry_keeps g g'.
Proof.
  induction 1; [by split|]. eapply registry_keeps_trans; [by apply attestor_step_keeps|done].
Qed.

Lemma attestor_step_reachable g g' : attestor_reachable g -> attestor_step g g' -> attestor_reachable g'.
Proof. intros (ms & p & g0 & Hn & Hr) Hs. exists ms, p, g0. split; [done|]. by eapply rtc_r. Qed.

Lemma attestor_reachable_ok g : attestor_reachable g -> attestor_ok g.
Proof.
  intros (ms & p & g0 & Hn & Hr). apply attestor_run_keeps in Hr. apply Hr. clear Hr g.
  unfold AttestorRegistry_new in Hn. inv_all. subst.
  match goal with H : validate_and_infos _ _ = _ |- _ => apply validate_and_infos_Ok in H as (Hms & _ & Ef & Hz) end.
  constructor; cbn -[keys]; try rewrite Ef; try done; try (by apply NoDup_nil_2); try (by intros ? []%elem_of_nil).
  intros m Hm. left. by rewrite Hz.
Qed.
