(* ===== verification/AttestorTheorems.v ===== *)
(** * The properties of the attestor registry

    Each theorem with its witness on a registry of four members. *)

From S2P Require Import Prelude Keyed Primitives Proposals Attestor AttestorInv.

(** A record of [g] that a quorum may count at [now]. *)
Definition counted (now : BlockNumber) (g : AttestorRegistry) (a : Attestation) : Prop :=
  a ∈ rg_attestations g /\ is_revoked (att_id a) g = false
  /\ (att_challenge a = None \/ att_challenge a = Some ChUpheld) /\ att_challenge_deadline a < now.

Lemma attestation_counts_iff a now :
  attestation_counts a now = true <->
  (att_challenge a = None \/ att_challenge a = Some ChUpheld) /\ att_challenge_deadline a < now.
Proof. unfold attestation_counts. rewrite <- Z.ltb_lt. destruct (att_challenge a) as [[]|]; naive_solver. Qed.

Lemma count_distinct_spec skip now records :
  NoDup (count_distinct skip now records)
  /\ forall w, w ∈ count_distinct skip now records <->
       exists a, a ∈ records /\ att_attestor a = w /\ skip a = false /\ attestation_counts a now = true.
Proof.
  unfold count_distinct.
  enough (forall acc, NoDup acc ->
    let d := fold_left (fun distinct a => if bool_decide (att_attestor a ∈ distinct) || skip a then distinct
               else if attestation_counts a now then distinct ++ [att_attestor a] else distinct) records acc in
    NoDup d /\ forall w, w ∈ d <-> w ∈ acc \/ exists a, a ∈ records /\ att_attestor a = w /\ skip a = false
                                                     /\ attestation_counts a now = true) as H.
  { destruct (H [] ltac:(by apply NoDup_nil_2)) as [Hn Hw]. split; [done|]. intros w. rewrite Hw, elem_of_nil. naive_solver. }
  induction records as [|a l IH]; cbn; intros acc Hacc.
  - split; [done|]. intros w. setoid_rewrite elem_of_nil. naive_solver.
  - setoid_rewrite elem_of_cons. destruct (bool_decide _ || _) eqn:E1; [|destruct (attestation_counts a now) eqn:E2].
    + destruct (IH acc Hacc) as [Hn Hw]. split; [done|]. intros w. rewrite Hw. split; [naive_solver|].
      intros [?|(b & [->|Hb] & Ew & Es & Ec)]; [by left| |right; by exists b].
      subst w. rewrite Es, orb_false_r in E1. to_prop. by left.
    + to_prop. destruct (IH (acc ++ [att_attestor a])) as [Hn Hw].
      { apply NoDup_app. split_and!; [done| |apply NoDup_singleton]. by intros x Hx ->%list_elem_of_singleton. }
      split; [done|]. intros w. rewrite Hw, elem_of_app, list_elem_of_singleton. split.
      * intros [[?| ->]|(b & ? & ?)]; [by left|right; exists a; by auto|right; exists b; by auto].
      * intros [?|(b & [->|Hb] & <- & ?)]; [by left; left|by left; right|right; by exists b].
    + destruct (IH acc Hacc) as [Hn Hw]. split; [done|]. intros w. rewrite Hw. split.
      * intros [?|(b & ? & ?)]; [by left|right; exists b; by auto].
      * intros [?|(b & [->|Hb] & <- & ? & Ec)]; [by left|congruence|right; by exists b].
Qed.

Lemma two_distinct {T} (l : list T) :
  NoDup l -> 2 <= Z.of_nat (length l) <-> exists x y, x ∈ l /\ y ∈ l /\ x <> y.
Proof.
  intros Hn. split.
  - destruct l as [|x [|y l]]; cbn; try lia. intros _. exists x, y.
    rewrite !NoDup_cons in Hn. set_solver.
  - intros (x & y & Hx & Hy & Hne). destruct l as [|a [|b l]]; [by apply elem_of_nil in Hx| |cbn; lia].
    apply list_elem_of_singleton in Hx, Hy. congruence.
Qed.

Lemma quorum_iff skip now pid h g :
  (QUORUM <=? Z.of_nat (length (count_distinct (fun a => skip a || is_revoked (att_id a) g) now
     (filter (attests_to pid h) (rg_attestations g))))) = true <->
  exists a b, counted now g a /\ counted now g b /\ att_attestor a <> att_attestor b
    /\ attests_to pid h a /\ attests_to pid h b /\ skip a = false /\ skip b = false.
Proof.
  unfold QUORUM. rewrite Z.leb_le. destruct (count_distinct_spec (fun a => skip a || is_revoked (att_id a) g) now
    (filter (attests_to pid h) (rg_attestations g))) as [Hn Hw].
  rewrite (two_distinct _ Hn). setoid_rewrite Hw. setoid_rewrite list_elem_of_filter.
  setoid_rewrite attestation_counts_iff. setoid_rewrite orb_false_iff. unfold counted. split.
  - intros (x & y & (a & Ha) & (b & Hb) & Hne). exists a, b. naive_solver.
  - intros (a & b & H). exists (att_attestor a), (att_attestor b). split_and!; [exists a|exists b|]; naive_solver.
Qed.

(** C30. The quorum is exact: the gate opens on an artifact of a proposal if and
    only if at least three members are active and two distinct active members
    each have a record for that artifact that is not revoked, whose challenge,
    if it had one, was upheld, and whose window has closed. The execute-time
    quorum over the committed records is the same without the roster. *)
Theorem quorum_is_exact pid h now g :
  (has_quorum pid h now g = true <->
     MIN_MEMBERS <= active_member_count g
     /\ exists a b, counted now g a /\ counted now g b /\ att_attestor a <> att_attestor b
          /\ attests_to pid h a /\ attests_to pid h b
          /\ is_active_member (att_attestor a) g = true /\ is_active_member (att_attestor b) g = true)
  /\ (has_record_quorum pid h now g = true <->
       exists a b, counted now g a /\ counted now g b /\ att_attestor a <> att_attestor b
          /\ attests_to pid h a /\ attests_to pid h b).
Proof.
  split.
  - unfold has_quorum. destruct (_ <? _) eqn:E; to_prop; [split; [done|lia]|].
    rewrite quorum_iff. setoid_rewrite negb_false_iff. split; [by intros ?|by intros [_ ?]].
  - unfold has_record_quorum. etransitivity; [exact (quorum_iff (fun _ => false) now pid h g)|]. split.
    + intros (a & b & ? & ? & ? & ? & ? & _). by exists a, b.
    + intros (a & b & ? & ? & ? & ? & ?). exists a, b. by split_and!.
Qed.

(** What a removal for cause, or a second strike, does to the records. *)
Lemma revoke_spends g who cause ex u g' a :
  attestor_ok g -> revoke_records who cause ex g = (Ok u, g') ->
  a ∈ rg_attestations g -> att_attestor a = who -> ex (att_pid a) = false -> spent (att_id a) g'.
Proof. destruct u. intros Hg H%revoke_records_revokes. by apply (revoked_from_spent who cause ex g). Qed.

Lemma removal_spends g g1 who cause ex a u :
  attestor_ok g -> remove_for_cause AoConstitutionalValues who cause ex g = (Ok u, g1) ->
  a ∈ rg_attestations g -> att_attestor a = who -> ex (att_pid a) = false -> spent (att_id a) g1.
Proof.
  unfold remove_for_cause. intros Hg H Ha Hw Hex. inv_all.
  change (spent (att_id a) (rg_push _ ?s)) with (spent (att_id a) s).
  eapply revoke_spends; [|done|done..]. by apply (seize_member_keeps who).
Qed.

Lemma second_strike_spends g g1 id who ex a u :
  attestor_ok g -> resolve_challenge_with AoRatifyTrack id false ex g = (Ok u, g1) ->
  AtAttestorEjected who ∈ rg_events g1 -> AtAttestorEjected who ∉ rg_events g ->
  a ∈ rg_attestations g -> att_attestor a = who -> ex (att_pid a) = false -> spent (att_id a) g1.
Proof.
  unfold resolve_challenge_with. intros Hg H Hev Hnew Ha Hw Hex. inv_all.
  destruct (att_challenge _) as [[ch ev bo| |]|] eqn:Ec; inv_all; try done.
  subst. cbv beta iota in *. inv_all. apply elem_of_app in Hev as [Hev|Hev%list_elem_of_singleton]; [|done].
  match goal with H : strike_attestor _ _ _ = (Ok ?e, ?s) |- _ => pose proof (strike_attestor_frame _ _ _ _ _ H) as [Ea Ee];
    apply strike_attestor_keeps in H; rename H into Hs, s into g2; destruct e; inv_all; [|by rewrite Ee in Hev] end.
  assert (att_attestor a = att_attestor x1) as Ew.
  { pose proof H3 as Hr. destruct x3. apply revoke_records_revokes in Hr. apply (rf_events _ _ _ Hr) in Hev.
    apply elem_of_app in Hev as [Hev|[= E]%list_elem_of_singleton]; [by rewrite Ee in Hev|done]. }
  apply (set_challenge_keeps id ChRejected x1) in Hg as Hg'; [|done|congruence|done].
  destruct Hg' as [Hg1 _]. destruct (Hs Hg1) as [Hg2 _].
  assert (exists b, b ∈ rg_attestations g2 /\ att_id b = att_id a /\ att_attestor b = att_attestor a /\ att_pid b = att_pid a)
    as (b & Hb & Eid & Eb & Ep).
  { rewrite Ea. cbn [set_attestations rg_attestations]. destruct Hg.
    pose proof (find_key_elem att_id _ _ ao_ids Ha) as Hfa. destruct (decide (att_id a = id)) as [E|E].
    - exists (set_challenge ChRejected a). split; [|done]. apply (find_key_Some att_id id).
      apply find_key_alter_eq; [done|congruence].
    - exists a. split; [|done]. apply (find_key_Some att_id (att_id a)). by rewrite find_key_alter_ne. }
  change (spent (att_id a) (rg_push _ ?s)) with (spent (att_id a) s). rewrite <- Eid.
  eapply (revoke_spends (rg_push _ g2)); [by apply rg_push_keeps|exact H3|done|congruence|congruence].
Qed.

(** Ejection is final: when a reachable registry removes a member for
    cause, or resolves a second strike against one, every record the member
    had for a proposal not yet executed is void in every later state: no
    quorum ever counts a record of that id again, whatever calls follow. *)
Theorem ejection_is_final g g1 c who ex a :
  attestor_reachable g -> attestor_exec c g = (Ok tt, g1) ->
  (exists cause, c = ARemove AoConstitutionalValues who cause ex)
  \/ (exists id, c = AResolve AoRatifyTrack id false ex /\ AtAttestorEjected who ∈ rg_events g1
        /\ AtAttestorEjected who ∉ rg_events g) ->
  a ∈ rg_attestations g -> att_attestor a = who -> ex (att_pid a) = false ->
  forall g2 now a', rtc attestor_step g1 g2 -> att_id a' = att_id a -> ~ counted now g2 a'.
Proof.
  intros Hg Hc Hwhy Ha Hw Hex g2 now a' Hr Eid (Hin & Hnr & Hok & _).
  pose proof (attestor_step_reachable _ _ Hg (ex_intro _ _ Hc)) as Hg1%attestor_reachable_ok.
  apply attestor_reachable_ok in Hg.
  assert (spent (att_id a) g1) as Hs.
  { destruct Hwhy as [[cause ->]|(id & -> & Hev & Hnew)]; [eapply removal_spends; [exact Hg|exact Hc|done..]|eapply second_strike_spends; [exact Hg|exact Hc|done..]]. }
  destruct (attestor_run_keeps _ _ Hr Hg1) as [_ Hk]. destruct (Hk _ Hs) as [_ Hv].
  destruct (Hv a' Hin Eid) as [E|E]; [congruence|]. rewrite E in Hok. naive_solver.
Qed.

Lemma check_liabilities_ok members ls :
  NoDup (keys al_account ls) -> (forall who, who ∈ keys al_account ls -> who ∉ keys ai_account members) ->
  check_liabilities members ls = Ok tt.
Proof.
  intros Hn Hd. induction ls as [|l ls IH]; [done|]. cbn [check_liabilities].
  unfold keys in Hn. rewrite fmap_cons, NoDup_cons in Hn. destruct Hn as [Hl Hn].
  rewrite ensure_true; cbn [rbind].
  2:{ apply negb_true_iff, existsb_none. intros m Hm. apply Z.eqb_neq. intros E.
      apply (Hd (al_account l)); [by left|]. apply elem_of_keys. eauto. }
  rewrite (proj2 (for_each_Ok _ ls tt)); cbn [rbind].
  2:{ intros l' Hl'. apply ensure_true. rewrite bool_decide_eq_false_2; [done|]. intros E. apply Hl.
      apply list_elem_of_fmap. eauto. }
  apply IH; [done|]. intros who Hw. apply Hd. by right.
Qed.

(** The state checker of the registry accepts every reachable state. *)
Theorem attestor_checker_accepts g : attestor_reachable g -> attestor_try_state g = Ok tt.
Proof.
  intros []%attestor_reachable_ok. unfold attestor_try_state.
  rewrite (proj2 (for_pairs_NoDup ai_account AtDuplicateMember _)) by done. cbn [rbind].
  rewrite (proj2 (for_each_Ok _ (rg_members g) tt)); cbn [rbind].
  2:{ intros m Hm. apply ensure_true, orb_true_iff. rewrite negb_true_iff, Z.ltb_lt. by apply ao_strikes. }
  rewrite check_liabilities_ok by done. cbn [rbind].
  rewrite (proj2 (for_each_Ok _ (rg_attestations g) tt)); cbn [rbind].
  2:{ intros a Ha. destruct (challenge_open a) eqn:Ho; [|done]. apply ensure_true, bool_decide_eq_true_2, bond_basis_iff. auto. }
  apply for_each_Ok. intros r (a & Ha & Ei & Ep & Ew)%ao_revoked. apply ensure_true, existsb_elem.
  exists a. split; [done|]. by rewrite Ei, Ep, Ew, !Z.eqb_refl.
Qed.

(** ** Witnesses *)

Definition demo_roster : list AccountId := [1; 2; 3; 4].
Definition demo_registry : AttestorRegistry :=
  Eval vm_compute in
    match AttestorRegistry_new demo_roster attestor_params_default with
    | Ok g => g
    | Err _ => Build_AttestorRegistry [] [] [] [] 0 []
    end.

(** The state after a list of calls that all succeed. *)
Fixpoint attestor_run (calls : list AttestorCall) (g : AttestorRegistry) : option AttestorRegistry :=
  match calls with
  | [] => Some g
  | c :: rest => match attestor_exec c g with (Ok _, g) => attestor_run rest g | _ => None end
  end.

Lemma attestor_run_steps calls g g' : attestor_run calls g = Some g' -> rtc attestor_step g g'.
Proof.
  revert g. induction calls as [|c calls IH]; intros g H; cbn [attestor_run] in H; [by injection H as ->|].
  destruct (attestor_exec c g) as [[[]|e] g1] eqn:E; [|done]. apply rtc_l with g1; [by exists c|by apply IH].
Qed.

Definition demo_attested_calls : list AttestorCall :=
  [AAttest 1 9 55 0 100 attestor_params_default; AAttest 2 9 55 0 101 attestor_params_default;
   AAttest 3 9 55 0 102 attestor_params_default].
Definition demo_attested : AttestorRegistry :=
  Eval vm_compute in default demo_registry (attestor_run demo_attested_calls demo_registry).
Definition demo_removal : AttestorCall := ARemove AoConstitutionalValues 2 77 (fun _ => false).
Definition demo_removed : AttestorRegistry := (attestor_exec demo_removal demo_attested).2.

Lemma demo_attested_reachable : attestor_reachable demo_attested.
Proof.
  exists demo_roster, attestor_params_default, demo_registry. split; [by vm_compute|].
  apply (attestor_run_steps demo_attested_calls). by vm_compute.
Qed.

Definition demo_record : Attestation :=
  {| att_id := 1; att_pid := 9; att_artifact_hash := 55; att_statement_hash := 0; att_attestor := 2;
     att_submitted_at := 101; att_challenge_deadline := 43301; att_challenge := None |}.

Lemma ejection_is_final_witness :
  counted 50000 demo_attested demo_record /\ ~ counted 50000 demo_removed demo_record
  /\ has_quorum 9 55 50000 demo_removed = true.
Proof.
  split; [|split; [|by vm_compute]].
  - split_and!; [right; left|by vm_compute|by left|by vm_compute].
  - apply (ejection_is_final demo_attested demo_removed demo_removal 2 (fun _ => false) demo_record);
      [apply demo_attested_reachable|by vm_compute|by left; exists 77|by right; left|done|done|apply rtc_refl|done].
Defined.

Lemma attestor_checker_accepts_witness : attestor_try_state demo_attested = Ok tt.
Proof. exact (attestor_checker_accepts _ demo_attested_reachable). Defined.

(** Two elections bring an ejected attestor back without its strikes: dropped
    once its records are settled, it leaves no liability and no trace. *)
Definition demo_strikes : list AttestorCall :=
  [AAttest 2 9 55 0 100 attestor_params_default; AAttest 2 8 44 0 100 attestor_params_default;
   AChallenge 5 0 1 ATTESTOR_BOND 101; AChallenge 5 1 1 ATTESTOR_BOND 101;
   AResolve AoRatifyTrack 0 false (fun _ => false); AResolve AoRatifyTrack 1 false (fun _ => false)].
Definition demo_elections : list AttestorCall :=
  [ASetMembers AoConstitutionalValues [1; 3; 4] 102 attestor_params_default;
   ASetMembers AoConstitutionalValues [1; 2; 3; 4] 103 attestor_params_default].

Example reelection_clears_strikes :
  is_active_member 2 (default demo_registry (attestor_run demo_strikes demo_registry)) = false
  /\ is_active_member 2 (default demo_registry (attestor_run (demo_strikes ++ demo_elections) demo_registry)) = true
  /\ find_key ai_account 2 (rg_members (default demo_registry (attestor_run (demo_strikes ++ demo_elections) demo_registry)))
     = Some {| ai_account := 2; ai_bond := ATTESTOR_BOND; ai_false_count := 0; ai_active := true |}.
Proof. split_and!; by vm_compute. Qed.
