(* ===== verification/Registry.v ===== *)
(** * The incident and milestone registries (crates/registry-core)

    Bonded filings per epoch, acknowledged by watchtowers or challenged within
    their window; a crank closes the windows, and closing an epoch derives its
    aggregate, a component of welfare in [0, 1] on the 1e9 grid. *)

From S2P Require Import Prelude Keyed Primitives Proposals Attestor.

Abbreviation FilingId := Z (only parsing).

Definition MAX_FILINGS_PER_EPOCH : Z := 64.
Definition MAX_LIVE_EPOCHS : nat := 4.
Definition MAX_AGGREGATES : nat := 4.
Definition REG_CLOSE_BATCH : Z := 20.
Definition REG_WINDOW_BLOCKS : BlockNumber := CHALLENGE_WINDOW_BLOCKS.
Definition REG_EXT_WINDOW_BLOCKS : BlockNumber := 28800.
Definition REG_BOND_INCIDENT : Balance := 5000000000.
Definition REG_BOND_MILESTONE : Balance := 2500000000.
Definition WT_QUORUM : Z := 2.
Definition MILESTONE_TARGET_POINTS : Z := 100.
Definition REG_ONE : Z := 1000000000.

Inductive RegistryKind : Type :=
| Incident
| Milestone.

Inductive FilingClass : Type :=
| S1
| S2
| S3
| Scope (s : Z).

Inductive FilingState : Type :=
| Filed (window_end : BlockNumber) (extended : bool) (acks : Z)
| FlChallenged (round : Z) (window_end : BlockNumber) (challenger : AccountId) (evidence_hash : H256)
| FlUpheld
| FlRejected.

#[export] Instance FilingState_eq_dec : EqDecision FilingState.
Proof. solve_decision. Defined.

Record Filing : Type := {
  fl_who : AccountId;
  fl_class : FilingClass;
  fl_points : Z;
  fl_evidence_hash : H256;
  fl_bond : Balance;
  fl_state : FilingState;
  fl_spec_version : MetricSpecVersion;
}.

Inductive RegistryEvent : Type :=
| RgIncidentFiled (epoch : EpochId) (filing_id : FilingId) (who : AccountId) (class : FilingClass)
    (evidence_hash : H256) (bond : Balance)
| RgMilestoneFiled (epoch : EpochId) (filing_id : FilingId) (who : AccountId) (class : FilingClass) (points : Z)
    (evidence_hash : H256) (bond : Balance)
| RgIncidentChallenged (epoch : EpochId) (filing_id : FilingId) (challenger : AccountId) (evidence_hash : H256)
    (bond : Balance)
| RgMilestoneChallenged (epoch : EpochId) (filing_id : FilingId) (challenger : AccountId) (evidence_hash : H256)
    (bond : Balance)
| RgIncidentUpheld (epoch : EpochId) (filing_id : FilingId)
| RgIncidentRejected (epoch : EpochId) (filing_id : FilingId)
| RgMilestoneAccepted (epoch : EpochId) (filing_id : FilingId)
| RgMilestoneRejected (epoch : EpochId) (filing_id : FilingId)
| RgFilingBondSlashed (epoch : EpochId) (filing_id : FilingId) (loser : AccountId)
    (amount challenger_share insurance_share : Balance)
| RgRegistryEpochClosed (kind : RegistryKind) (epoch : EpochId) (aggregate : FixedU64)
| RgWindowAcknowledged (epoch : EpochId) (filing_id : FilingId) (watchtower : AccountId)
| RgWindowExtended (epoch : EpochId) (filing_id : FilingId) (new_deadline : BlockNumber).

Inductive RegistryError : Type :=
| RgEpochFull
| RgTooManyLiveEpochs
| RgTooManyAggregates
| RgWindowClosed
| RgWindowOpen
| RgAlreadyChallenged
| RgAlreadyFinal
| RgSpecVersionMismatch
| RgBondBelowMinimum
| RgFilingNotFound
| RgDuplicateAck
| RgBatchTooLarge
| RgInvalidClass
| RgOverflow
| RgNotRegistered
| RgAlreadyQuorum
| RgMilestoneTargetUnset.

Record FileInput : Type := {
  fi_who : AccountId;
  fi_now : BlockNumber;
  fi_epoch : EpochId;
  fi_class : FilingClass;
  fi_points : Z;
  fi_evidence_hash : H256;
  fi_spec_version : MetricSpecVersion;
  fi_expected_spec : MetricSpecVersion;
  fi_filing_window_end : BlockNumber;
}.

Abbreviation FilingKey := (Z * Z)%type (only parsing).

Record Registry : Type := {
  re_kind : RegistryKind;
  re_filings : list (FilingKey * Filing);
  re_filing_count : list (EpochId * Z);
  re_aggregates : list (EpochId * FixedU64);
  re_events : list RegistryEvent;
  re_ack_records : list (EpochId * FilingId * AccountId);
  re_bond_incident : Balance;
  re_bond_milestone : Balance;
  re_milestone_target : Z;
}.

Definition set_filings x r := {| r with re_filings := x |}.
Definition set_filing_count x r := {| r with re_filing_count := x |}.
Definition set_aggregates x r := {| r with re_aggregates := x |}.
Definition set_re_events x r := {| r with re_events := x |}.
Definition set_ack_records x r := {| r with re_ack_records := x |}.

Abbreviation RM A := (ST Registry RegistryError A).

Definition re_push (e : RegistryEvent) (r : Registry) : Registry := set_re_events (re_events r ++ [e]) r.

Definition Registry_new (kind : RegistryKind) : Registry :=
  {| re_kind := kind; re_filings := []; re_filing_count := []; re_aggregates := []; re_events := [];
     re_ack_records := []; re_bond_incident := REG_BOND_INCIDENT; re_bond_milestone := REG_BOND_MILESTONE;
     re_milestone_target := MILESTONE_TARGET_POINTS |}.

(** ** Helpers *)

Definition required_bond (r : Registry) : Balance :=
  match re_kind r with Incident => re_bond_incident r | Milestone => re_bond_milestone r end.

Definition validate_class (class : FilingClass) (r : Registry) : Result RegistryError unit :=
  match re_kind r, class with
  | Incident, (S1 | S2 | S3) => Ok tt
  | Milestone, Scope _ => Ok tt
  | _, _ => Err RgInvalidClass
  end.

(** The shared read of [filing_mut]; the write goes through [alter_key]. *)
Definition filing_at (epoch : EpochId) (id : FilingId) (r : Registry) : Result RegistryError Filing :=
  rmap snd (ok_or RgFilingNotFound (find_key fst (epoch, id) (re_filings r))).

Definition set_fl_state (s : FilingState) (f : Filing) : Filing := {| f with fl_state := s |}.

Definition put_filing_state (epoch : EpochId) (id : FilingId) (s : FilingState) (r : Registry) : Registry :=
  set_filings (alter_key fst (epoch, id) (fun kf => (kf.1, set_fl_state s kf.2)) (re_filings r)) r.

Definition verdict_state (uphold : bool) : FilingState := if uphold then FlUpheld else FlRejected.

Definition is_final (f : Filing) : bool :=
  match fl_state f with FlUpheld | FlRejected => true | _ => false end.

Definition terminal_event (kind : RegistryKind) (epoch : EpochId) (id : FilingId) (uphold : bool) : RegistryEvent :=
  match kind, uphold with
  | Incident, true => RgIncidentUpheld epoch id
  | Incident, false => RgIncidentRejected epoch id
  | Milestone, true => RgMilestoneAccepted epoch id
  | Milestone, false => RgMilestoneRejected epoch id
  end.

Definition push_terminal_event (epoch : EpochId) (id : FilingId) (uphold : bool) (r : Registry) : Registry :=
  re_push (terminal_event (re_kind r) epoch id uphold) r.

Definition push_slash (epoch : EpochId) (id : FilingId) (loser : AccountId) (amount : Balance) (r : Registry) : Registry :=
  let challenger_share := sat_mul U128 amount 40 / 100 in
  re_push (RgFilingBondSlashed epoch id loser amount challenger_share (sat_sub amount challenger_share)) r.

(** The upheld filings of an epoch. *)
Definition upheld_in (epoch : EpochId) (r : Registry) : list (FilingKey * Filing) :=
  filter (fun kf => kf.1.1 = epoch /\ fl_state kf.2 = FlUpheld) (re_filings r).

Definition severity (class : FilingClass) : Z :=
  match class with S1 => REG_ONE | S2 => 400000000 | S3 => 100000000 | Scope _ => 0 end.

(** The [u64] sum does not overflow: an epoch has at most 64 filings. *)
Definition incident_aggregate (epoch : EpochId) (r : Registry) : FixedU64 :=
  sat_sub REG_ONE (sum_by (fun kf => severity (fl_class kf.2)) (upheld_in epoch r)).

Definition milestone_aggregate (epoch : EpochId) (r : Registry) : Result RegistryError FixedU64 :=
  let points := fold_left (fun acc kf => sat_add U64 acc (fl_points kf.2)) (upheld_in epoch r) 0 in
  let target := re_milestone_target r in
  do? ensure (0 <? target) RgMilestoneTargetUnset in
  Ok (Z.min (sat_mul U64 points REG_ONE / target) REG_ONE).

Definition aggregate (epoch : EpochId) (r : Registry) : option FixedU64 :=
  snd <$> find_key fst epoch (re_aggregates r).

(** ** The operations *)

Definition filed_event (kind : RegistryKind) (i : FileInput) (id : FilingId) (bond : Balance) : RegistryEvent :=
  match kind with
  | Incident => RgIncidentFiled (fi_epoch i) id (fi_who i) (fi_class i) (fi_evidence_hash i) bond
  | Milestone => RgMilestoneFiled (fi_epoch i) id (fi_who i) (fi_class i) (fi_points i) (fi_evidence_hash i) bond
  end.

(** The [filing_count] row of the epoch, opened when there is none. *)
Definition open_count (epoch : EpochId) : RM unit :=
  let! r := get in
  if forallb (fun ec => negb (ec.1 =? epoch)) (re_filing_count r) then
    do! lift (ensure (length (re_filing_count r) <? MAX_LIVE_EPOCHS)%nat RgTooManyLiveEpochs) in
    modify (set_filing_count (re_filing_count r ++ [(epoch, 0)]))
  else ret tt.

Definition file (i : FileInput) : RM FilingId :=
  do! lift (ensure (fi_now i <=? fi_filing_window_end i) RgWindowClosed) in
  do! lift (ensure (fi_spec_version i =? fi_expected_spec i) RgSpecVersionMismatch) in
  let! r := get in
  do! lift (ensure (forallb (fun ea => negb (ea.1 =? fi_epoch i)) (re_aggregates r)) RgAlreadyFinal) in
  do! lift (validate_class (fi_class i) r) in
  do! lift (match re_kind r with
            | Milestone => ensure (0 <? re_milestone_target r) RgMilestoneTargetUnset
            | Incident => Ok tt
            end) in
  let bond := required_bond r in
  do! lift (ensure (0 <? bond) RgBondBelowMinimum) in
  do! open_count (fi_epoch i) in
  let! r := get in
  let! count := lift (ok_or RgOverflow (find_key fst (fi_epoch i) (re_filing_count r))) in
  do! lift (ensure (count.2 <? MAX_FILINGS_PER_EPOCH) RgEpochFull) in
  let filing_id := count.2 in
  let! next := lift (ok_or RgOverflow (checked_add U32 count.2 1)) in
  do! modify (set_filing_count (alter_key fst (fi_epoch i) (fun ec => (ec.1, next)) (re_filing_count r))) in
  let filing := {| fl_who := fi_who i; fl_class := fi_class i; fl_points := fi_points i;
                   fl_evidence_hash := fi_evidence_hash i; fl_bond := bond;
                   fl_state := Filed (sat_add U32 (fi_now i) REG_WINDOW_BLOCKS) false 0;
                   fl_spec_version := fi_spec_version i |} in
  do! modify (set_filings (re_filings r ++ [((fi_epoch i, filing_id), filing)])) in
  do! modify (re_push (filed_event (re_kind r) i filing_id bond)) in
  ret filing_id.

Definition ack_observed (who : AccountId) (now : BlockNumber) (is_registered_watchtower : bool) (epoch : EpochId)
    (id : FilingId) : RM unit :=
  do! lift (ensure is_registered_watchtower RgNotRegistered) in
  let! r := get in
  do! lift (ensure (negb (bool_decide ((epoch, id, who) ∈ re_ack_records r))) RgDuplicateAck) in
  let! f := lift (filing_at epoch id r) in
  let! s := lift (match fl_state f with
                  | Filed window_end extended acks =>
                      do? ensure (now <=? window_end) RgWindowClosed in
                      do? ensure (acks <? WT_QUORUM) RgAlreadyQuorum in
                      Ok (Filed window_end extended (sat_add U8 acks 1))
                  | FlChallenged _ _ _ _ => Err RgAlreadyChallenged
                  | _ => Err RgAlreadyFinal
                  end) in
  do! modify (put_filing_state epoch id s) in
  do! modify (set_ack_records (re_ack_records r ++ [(epoch, id, who)])) in
  modify (re_push (RgWindowAcknowledged epoch id who)).

Definition challenged_event (kind : RegistryKind) (epoch : EpochId) (id : FilingId) (who : AccountId)
    (evidence_hash : H256) (bond : Balance) : RegistryEvent :=
  match kind with
  | Incident => RgIncidentChallenged epoch id who evidence_hash bond
  | Milestone => RgMilestoneChallenged epoch id who evidence_hash bond
  end.

Definition challenge_filing (who : AccountId) (now : BlockNumber) (epoch : EpochId) (id : FilingId)
    (evidence_hash : H256) : RM unit :=
  let! r := get in
  let! f := lift (filing_at epoch id r) in
  let! window_end := lift (match fl_state f with
                           | Filed window_end _ _ => Ok window_end
                           | FlChallenged _ _ _ _ => Err RgAlreadyChallenged
                           | _ => Err RgAlreadyFinal
                           end) in
  do! lift (ensure (now <=? window_end) RgWindowClosed) in
  do! modify (put_filing_state epoch id (FlChallenged 2 (sat_add U32 now REG_WINDOW_BLOCKS) who evidence_hash)) in
  modify (re_push (challenged_event (re_kind r) epoch id who evidence_hash (fl_bond f))).

Definition registry_resolve (epoch : EpochId) (id : FilingId) (uphold : bool) : RM unit :=
  let! r := get in
  let! f := lift (filing_at epoch id r) in
  let! challenger := lift (match fl_state f with
                           | FlChallenged _ _ challenger _ => Ok challenger
                           | _ => Err RgWindowOpen
                           end) in
  do! modify (put_filing_state epoch id (verdict_state uphold)) in
  let loser := if uphold then challenger else fl_who f in
  do! modify (push_terminal_event epoch id uphold) in
  modify (push_slash epoch id loser (fl_bond f)).

(** What the crank does to a filing: its state, an extended deadline to
    report, a verdict; [None] when it is skipped. *)
Definition crank_filing (now : BlockNumber) (s : FilingState) : option (FilingState * option BlockNumber * option bool) :=
  match s with
  | Filed window_end extended acks =>
      if now <=? window_end then None
      else if WT_QUORUM <=? acks then Some (s, None, Some true)
      else if negb extended then
        let new_end := sat_add U32 window_end REG_EXT_WINDOW_BLOCKS in
        if new_end <? now then Some (Filed new_end true acks, None, Some false)
        else Some (Filed new_end true acks, Some new_end, None)
      else Some (s, None, Some false)
  | _ => None
  end.

Definition conclude (epoch : EpochId) (id : FilingId) (verdict : option bool) : RM unit :=
  match verdict with
  | Some uphold =>
      let! r := get in
      do! lift (filing_at epoch id r) in
      do! modify (put_filing_state epoch id (verdict_state uphold)) in
      modify (push_terminal_event epoch id uphold)
  | None => ret tt
  end.

(** The loop over the keys taken before it starts, with its [break]. *)
Fixpoint crank_keys (now : BlockNumber) (batch processed : Z) (ks : list FilingKey) : RM unit :=
  match ks with
  | [] => ret tt
  | (epoch, id) :: ks =>
      if batch <=? processed then ret tt
      else
        let! r := get in
        let! f := lift (filing_at epoch id r) in
        match crank_filing now (fl_state f) with
        | None => crank_keys now batch processed ks
        | Some (s, extend_to, verdict) =>
            do! modify (put_filing_state epoch id s) in
            do! match extend_to with
                | Some new_deadline => modify (re_push (RgWindowExtended epoch id new_deadline))
                | None => ret tt
                end in
            do! conclude epoch id verdict in
            crank_keys now batch (processed + 1) ks
        end
  end.

Definition crank_close (now : BlockNumber) (batch : Z) : RM unit :=
  do! lift (ensure (batch <=? REG_CLOSE_BATCH) RgBatchTooLarge) in
  let! r := get in
  crank_keys now batch 0 (keys fst (re_filings r)).

Definition close_epoch (epoch : EpochId) (now filing_window_end : BlockNumber) : RM FixedU64 :=
  do! lift (ensure (filing_window_end <? now) RgWindowOpen) in
  let! r := get in
  do! lift (ensure (forallb (fun ea => negb (ea.1 =? epoch)) (re_aggregates r)) RgAlreadyFinal) in
  do! lift (ensure (forallb (fun kf => is_final kf.2) (filter (fun kf => kf.1.1 = epoch) (re_filings r))) RgWindowOpen) in
  let! value := lift (match re_kind r with
                      | Incident => Ok (incident_aggregate epoch r)
                      | Milestone => milestone_aggregate epoch r
                      end) in
  do! lift (ensure (length (re_aggregates r) <? MAX_AGGREGATES)%nat RgTooManyAggregates) in
  do! modify (set_aggregates (re_aggregates r ++ [(epoch, value)])) in
  do! modify (set_filing_count (filter (fun ec => ec.1 <> epoch) (re_filing_count r))) in
  do! modify (re_push (RgRegistryEpochClosed (re_kind r) epoch value)) in
  ret value.

Definition reap_epoch (epoch : EpochId) : RM unit :=
  let! r := get in
  do! lift (ensure (existsb (fun ea => ea.1 =? epoch) (re_aggregates r)) RgWindowOpen) in
  do! modify (set_filings (filter (fun kf => kf.1.1 <> epoch) (re_filings r))) in
  do! modify (set_ack_records (filter (fun a => a.1.1 <> epoch) (re_ack_records r))) in
  modify (set_aggregates (filter (fun ea => ea.1 <> epoch) (re_aggregates r))).

(** ** The state checker *)

Definition registry_try_state (r : Registry) : Result RegistryError unit :=
  do? ensure (length (re_filing_count r) <=? MAX_LIVE_EPOCHS)%nat RgTooManyLiveEpochs in
  do? ensure (length (re_aggregates r) <=? MAX_AGGREGATES)%nat RgTooManyAggregates in
  do? for_each (fun ec =>
    do? ensure (ec.2 <=? MAX_FILINGS_PER_EPOCH) RgEpochFull in
    let actual := wrap U32 (Z.of_nat (length (filter (fun kf => kf.1.1 = ec.1) (re_filings r)))) in
    ensure (actual <=? ec.2) RgOverflow) (re_filing_count r) in
  for_each (fun kf =>
    do? ensure (0 <? fl_bond kf.2) RgBondBelowMinimum in
    do? validate_class (fl_class kf.2) r in
    let live := existsb (fun ec => ec.1 =? kf.1.1) (re_filing_count r) in
    let closed := existsb (fun ea => ea.1 =? kf.1.1) (re_aggregates r) in
    do? ensure (negb (Bool.eqb live closed)) RgOverflow in
    if closed then ensure (is_final kf.2) RgWindowOpen else Ok tt) (re_filings r).
