(* ===== verification/RegistryInv.v ===== *)
(** * The registries as a transition system, and their invariant

    The calls with the pallet's refresh of the live parameters, and what holds
    of the tables between two calls: one row per filing and epoch, filings of
    live or of closed epochs, acknowledgments that match the records kept,
    upheld filings that were seen or judged. *)

From S2P Require Import Prelude Keyed Primitives Proposals Attestor AttestorInv Registry.

Inductive RegistryCall : Type :=
| RFile (i : FileInput)
| RAck (who : AccountId) (now : BlockNumber) (is_registered : bool) (epoch : EpochId) (id : FilingId)
| RChallenge (who : AccountId) (now : BlockNumber) (epoch : EpochId) (id : FilingId) (evidence_hash : H256)
| RResolve (epoch : EpochId) (id : FilingId) (uphold : bool)
| RCrank (now : BlockNumber) (batch : Z)
| RClose (epoch : EpochId) (now filing_window_end : BlockNumber)
| RReap (epoch : EpochId)
(** The parameters the pallet sets on every load. *)
| RRefresh (bond_incident bond_milestone : Balance) (milestone_target : Z).

Definition set_params (bi bm : Balance) (t : Z) (r : Registry) : Registry :=
  {| re_kind := re_kind r; re_filings := re_filings r; re_filing_count := re_filing_count r;
     re_aggregates := re_aggregates r; re_events := re_events r; re_ack_records := re_ack_records r;
     re_bond_incident := bi; re_bond_milestone := bm; re_milestone_target := t |}.

Definition registry_exec (c : RegistryCall) : RM unit :=
  match c with
  | RFile i => let! _ := file i in ret tt
  | RAck who now reg e id => ack_observed who now reg e id
  | RChallenge who now e id h => challenge_filing who now e id h
  | RResolve e id up => registry_resolve e id up
  | RCrank now batch => crank_close now batch
  | RClose e now w => let! _ := close_epoch e now w in ret tt
  | RReap e => reap_epoch e
  | RRefresh bi bm t => modify (set_params bi bm t)
  end.

(** Points are [u16]; the rest of an input is free. *)
Definition registry_call_ok (c : RegistryCall) : Prop :=
  match c with RFile i => 0 <= fi_points i < 65536 | _ => True end.

Definition registry_step (r r' : Registry) : Prop :=
  exists c, registry_call_ok c /\ registry_exec c r = (Ok tt, r').

Definition registry_reachable (r : Registry) : Prop := exists kind, rtc registry_step (Registry_new kind) r.

(** ** The invariant *)

(** The acknowledgments recorded for a filing. *)
Definition acks_of (k : FilingKey) (acks : list (FilingKey * AccountId)) : list (FilingKey * AccountId) :=
  filter (fun a => a.1 = k) acks.

Definition ack_count (k : FilingKey) (acks : list (FilingKey * AccountId)) : Z := Z.of_nat (length (acks_of k acks)).

(** The loser's bond goes whole to the two recipients, at most 40% of it to
    the counterparty. *)
Definition slash_conserves (e : RegistryEvent) : Prop :=
  match e with
  | RgFilingBondSlashed _ _ _ amount challenger insurance =>
      0 <= challenger /\ 0 <= insurance /\ challenger + insurance = amount /\ 100 * challenger <= 40 * amount
  | _ => True
  end.

Definition judged (k : FilingKey) (r : Registry) : Prop :=
  exists loser amount c i, RgFilingBondSlashed k.1 k.2 loser amount c i ∈ re_events r.

Definition points_in (epoch : EpochId) (r : Registry) : Z := sum_by (fun kf => fl_points kf.2) (upheld_in epoch r).

(** The measure of an epoch at the present target: what its upheld filings take
    away from 1, or the share of the target they reach. *)
Definition measures (epoch : EpochId) (v : FixedU64) (r : Registry) : Prop :=
  match re_kind r with
  | Incident => v = Z.max 0 (REG_ONE - sum_by (fun kf => severity (fl_class kf.2)) (upheld_in epoch r))
  | Milestone => 0 < re_milestone_target r /\ v = Z.min REG_ONE (points_in epoch r * REG_ONE / re_milestone_target r)
  end.

Record registry_ok (r : Registry) : Prop := {
  ro_keys : NoDup (keys fst (re_filings r));
  ro_counts : NoDup (keys fst (re_filing_count r));
  ro_aggregates : NoDup (keys fst (re_aggregates r));
  ro_live : (length (re_filing_count r) <= MAX_LIVE_EPOCHS)%nat;
  ro_closed : (length (re_aggregates r) <= MAX_AGGREGATES)%nat;
  ro_apart : forall e, e ∈ keys fst (re_filing_count r) -> e ∉ keys fst (re_aggregates r);
  ro_cap : forall ec, ec ∈ re_filing_count r -> 0 <= ec.2 <= MAX_FILINGS_PER_EPOCH;
  ro_ids : forall kf ec, kf ∈ re_filings r -> ec ∈ re_filing_count r -> ec.1 = kf.1.1 -> kf.1.2 < ec.2;
  ro_nonneg : forall kf, kf ∈ re_filings r -> 0 <= kf.1.2 < MAX_FILINGS_PER_EPOCH;
  ro_stage : forall kf, kf ∈ re_filings r ->
    kf.1.1 ∈ keys fst (re_filing_count r) \/ (kf.1.1 ∈ keys fst (re_aggregates r) /\ is_final kf.2 = true);
  ro_row : forall kf, kf ∈ re_filings r ->
    0 < fl_bond kf.2 /\ validate_class (fl_class kf.2) r = Ok tt /\ 0 <= fl_points kf.2 < 65536;
  ro_acks : NoDup (re_ack_records r);
  ro_acks_known : forall a, a ∈ re_ack_records r -> a.1 ∈ keys fst (re_filings r);
  ro_acks_count : forall kf we ext n, kf ∈ re_filings r -> fl_state kf.2 = Filed we ext n -> n = ack_count kf.1 (re_ack_records r);
  ro_upheld : forall kf, kf ∈ re_filings r -> fl_state kf.2 = FlUpheld ->
    WT_QUORUM <= ack_count kf.1 (re_ack_records r) \/ judged kf.1 r;
  ro_slashes : forall e, e ∈ re_events r -> slash_conserves e;
}.

Lemma registry_new_ok kind : registry_ok (Registry_new kind).
Proof.
  constructor; cbn; try (by apply NoDup_nil_2); try lia; try (intros ? ?%elem_of_nil; done).
  - by intros kf ec ?%elem_of_nil.
  - by intros kf we ext n ?%elem_of_nil.
Qed.

(** ** Filters and updates *)

(** Filings of one epoch are told apart by their ids. *)
Lemma epoch_length_bounded P `{forall kf : FilingKey * Filing, Decision (P kf)} e r n :
  registry_ok r -> (forall kf, P kf -> kf.1.1 = e) ->
  (forall kf, kf ∈ re_filings r -> kf.1.1 = e -> 0 <= kf.1.2 < n) ->
  Z.of_nat (length (filter P (re_filings r))) <= Z.max 0 n.
Proof.
  intros [] HP Hb. apply (length_bounded (fun kf => kf.1.2)).
  - assert (NoDup (filter P (re_filings r))) as Hn by (apply NoDup_filter; by apply (NoDup_fmap_1 fst)).
    apply NoDup_fmap_2_strong; [|done].
    intros kf kf' [H1 Hin1]%list_elem_of_filter [H2 Hin2]%list_elem_of_filter E.
    pose proof (find_key_elem fst _ _ ro_keys0 Hin1) as F1. pose proof (find_key_elem fst _ _ ro_keys0 Hin2) as F2.
    apply HP in H1, H2. assert (kf.1 = kf'.1) as Ek by (destruct kf as [[] ?], kf' as [[] ?]; cbn in *; congruence).
    rewrite Ek in F1. congruence.
  - intros kf [H1 Hin]%list_elem_of_filter. auto.
Qed.

(** At most 64, so that a sum over them is small. *)
Lemma epoch_filings_bound P `{forall kf : FilingKey * Filing, Decision (P kf)} e r :
  registry_ok r -> (forall kf, P kf -> kf.1.1 = e) ->
  Z.of_nat (length (filter P (re_filings r))) <= MAX_FILINGS_PER_EPOCH.
Proof.
  intros Hr HP. change MAX_FILINGS_PER_EPOCH with (Z.max 0 MAX_FILINGS_PER_EPOCH).
  apply (epoch_length_bounded P e r); [done..|]. intros kf Hin _. by apply (ro_nonneg _ Hr).
Qed.

(** ** Every call of the registries keeps their invariant *)

Lemma re_push_keeps e r : slash_conserves e -> registry_ok r -> registry_ok (re_push e r).
Proof.
  intros He []. constructor; try done.
  - intros kf Hin Hs. destruct (ro_upheld0 kf Hin Hs) as [|(l & a & c & i & Hj)]; [by left|right].
    exists l, a, c, i. cbn. apply elem_of_app. by left.
  - intros ev [Hev| ->%list_elem_of_singleton]%elem_of_app; auto.
Qed.

Lemma filing_at_Ok e id r f :
  filing_at e id r = Ok f <-> find_key fst (e, id) (re_filings r) = Some ((e, id), f).
Proof.
  unfold filing_at. rewrite rmap_Ok. setoid_rewrite ok_or_Ok. split.
  - intros ([k g] & Hf & ->). by pose proof (find_key_Some _ _ _ _ Hf) as [Ek _]; cbn in Ek; subst.
  - intros Hf. by eexists.
Qed.

(** Every change of the state of a filing: the filing is not final, what it
    becomes is justified by the acknowledgments or by a verdict. *)
Lemma put_state_keeps e id f s acks r :
  registry_ok r -> find_key fst (e, id) (re_filings r) = Some ((e, id), f) -> is_final f = false ->
  NoDup acks -> (forall a, a ∈ acks -> a ∈ re_ack_records r \/ a.1 = (e, id)) ->
  (forall k, k <> (e, id) -> ack_count k acks = ack_count k (re_ack_records r)) ->
  (forall we ext n, s = Filed we ext n -> n = ack_count (e, id) acks) ->
  (s = FlUpheld -> WT_QUORUM <= ack_count (e, id) acks \/ judged (e, id) r) ->
  registry_ok (set_ack_records acks (put_filing_state e id s r)).
Proof.
  intros [] Hf Hnf Hna Hak Hac Hs Hu. pose proof (find_key_Some _ _ _ _ Hf) as [_ Hin].
  set (upd := fun kf : FilingKey * Filing => (kf.1, set_fl_state s kf.2)).
  assert (forall kf, kf ∈ alter_key fst (e, id) upd (re_filings r) ->
            (kf.1 <> (e, id) /\ kf ∈ re_filings r) \/ kf = ((e, id), set_fl_state s f)) as Hcase.
  { intros kf [|(w & Hw & ->)]%elem_of_alter_NoDup; [by left| |done..]. right. rewrite Hf in Hw. by injection Hw as <-. }
  assert (e ∈ keys fst (re_filing_count r)) as He.
  { destruct (ro_stage0 _ Hin) as [|[_ Hfin]]; [done|]. cbn in Hfin. congruence. }
  assert (keys fst (alter_key fst (e, id) upd (re_filings r)) = keys fst (re_filings r)) as Ek by by apply keys_alter.
  constructor; cbn [set_ack_records put_filing_state set_filings re_filings re_filing_count re_aggregates re_events
                    re_ack_records]; fold upd; try done.
  - by rewrite Ek.
  - intros kf ec [[_ Hkf]| ->]%Hcase Hec E; [by apply ro_ids0|]. by apply (ro_ids0 ((e, id), f)).
  - intros kf [[_ Hkf]| ->]%Hcase; [by apply ro_nonneg0|]. by apply (ro_nonneg0 ((e, id), f)).
  - intros kf [[_ Hkf]| ->]%Hcase; [by apply ro_stage0|by left].
  - intros kf [[_ Hkf]| ->]%Hcase; [by apply ro_row0|]. by apply (ro_row0 ((e, id), f)).
  - intros a Ha. rewrite Ek. destruct (Hak a Ha) as [Ha'| ->]; [by apply ro_acks_known0|].
    apply elem_of_keys. by eexists.
  - intros kf we ext n [[Hne Hkf]| ->]%Hcase Hst; [rewrite Hac by done; by eapply ro_acks_count0|by eapply Hs].
  - intros kf [[Hne Hkf]| ->]%Hcase Hst; [rewrite Hac by done; by apply ro_upheld0|by apply Hu].
Qed.

(** The same, with the acknowledgments left alone. *)
Lemma put_state_keeps' e id f s r :
  registry_ok r -> find_key fst (e, id) (re_filings r) = Some ((e, id), f) -> is_final f = false ->
  (forall we ext n, s = Filed we ext n -> n = ack_count (e, id) (re_ack_records r)) ->
  (s = FlUpheld -> WT_QUORUM <= ack_count (e, id) (re_ack_records r) \/ judged (e, id) r) ->
  registry_ok (put_filing_state e id s r).
Proof. intros Hr Hf Hn Hs Hu. apply (put_state_keeps e id f s (re_ack_records r) r); try done; [by destruct Hr|auto]. Qed.

Lemma ack_count_snoc k acks a :
  ack_count k (acks ++ [a]) = ack_count k acks + (if decide (a.1 = k) then 1 else 0).
Proof.
  unfold ack_count, acks_of. rewrite filter_app, length_app, filter_cons, filter_nil.
  case_decide; cbn [length]; lia.
Qed.

Lemma ack_observed_keeps who now reg e id r u r' :
  ack_observed who now reg e id r = (Ok u, r') -> registry_ok r -> registry_ok r'.
Proof.
  unfold ack_observed. intros H Hr. inv_all. apply re_push_keeps; [done|].
  match goal with H : filing_at _ _ _ = Ok ?g |- _ => rename g into f; apply filing_at_Ok in H; rename H into Hf end.
  pose proof (find_key_Some _ _ _ _ Hf) as [_ Hin].
  destruct (fl_state f) as [we ext n| | |] eqn:Hst; inv_all; try done. subst. to_prop.
  assert (n = ack_count (e, id) (re_ack_records r)) as -> by (by eapply (ro_acks_count _ Hr ((e, id), f))).
  apply (put_state_keeps e id f); try done.
  - unfold is_final. by rewrite Hst.
  - destruct Hr. apply NoDup_app. split_and!; [done| |apply NoDup_singleton]. by intros a Ha ->%list_elem_of_singleton.
  - intros a [Ha| ->%list_elem_of_singleton]%elem_of_app; [by left|by right].
  - intros k Hk. rewrite ack_count_snoc. cbn. rewrite decide_False by congruence. lia.
  - intros ? ? ? [= <- <- <-]. rewrite ack_count_snoc, decide_True by done. unfold sat_add, WT_QUORUM in *. lia.
Qed.

Lemma challenge_filing_keeps who now e id h r u r' :
  challenge_filing who now e id h r = (Ok u, r') -> registry_ok r -> registry_ok r'.
Proof.
  unfold challenge_filing. intros H Hr. inv_all. apply re_push_keeps; [by destruct (re_kind _)|].
  match goal with H : filing_at _ _ _ = Ok ?g |- _ => rename g into f; apply filing_at_Ok in H end.
  apply (put_state_keeps' e id f); try done. unfold is_final. by destruct (fl_state f).
Qed.

Lemma slash_shares amount : 0 < amount ->
  let c := sat_mul U128 amount 40 / 100 in
  0 <= c /\ 0 <= sat_sub amount c /\ c + sat_sub amount c = amount /\ 100 * c <= 40 * amount.
Proof.
  intros Ha c. assert (0 <= sat_mul U128 amount 40 <= 40 * amount) by (unfold sat_mul; lia).
  pose proof (div_bounds (sat_mul U128 amount 40) 100 ltac:(lia)) as Hd. change (_ / 100) with c in Hd.
  assert (0 <= c) by (apply Z.div_pos; lia). unfold sat_sub. lia.
Qed.

Lemma registry_resolve_keeps e id up r u r' :
  registry_resolve e id up r = (Ok u, r') -> registry_ok r -> registry_ok r'.
Proof.
  unfold registry_resolve. intros H Hr. inv_all.
  match goal with H : filing_at _ _ _ = Ok ?g |- _ => rename g into f; apply filing_at_Ok in H; rename H into Hf end.
  pose proof (find_key_Some _ _ _ _ Hf) as [_ Hin]. cbn in Hin.
  set (loser := if up then _ else _).
  change (push_slash e id loser (fl_bond f) (push_terminal_event e id up (put_filing_state e id (verdict_state up) r)))
    with (put_filing_state e id (verdict_state up) (push_slash e id loser (fl_bond f) (push_terminal_event e id up r))).
  apply (put_state_keeps' e id f); try done.
  - apply re_push_keeps; [|apply re_push_keeps; [by destruct (re_kind r), up|done]].
    apply slash_shares. by apply (ro_row _ Hr) in Hin as [? _].
  - unfold is_final. by destruct (fl_state f).
  - by destruct up.
  - intros _. right. do 4 eexists. apply elem_of_app. right. by apply list_elem_of_singleton.
Qed.

Lemma crank_filing_keeps e id f now s ext_to verdict r :
  registry_ok r -> find_key fst (e, id) (re_filings r) = Some ((e, id), f) ->
  crank_filing now (fl_state f) = Some (s, ext_to, verdict) ->
  registry_ok (put_filing_state e id s r)
  /\ (exists we ext n, s = Filed we ext n) /\ (verdict = Some true -> WT_QUORUM <= ack_count (e, id) (re_ack_records r)).
Proof.
  intros Hr Hf H. pose proof (find_key_Some _ _ _ _ Hf) as [_ Hin].
  destruct (fl_state f) as [we ext n| | |] eqn:Hst; try done.
  pose proof (ro_acks_count _ Hr ((e, id), f) we ext n Hin Hst) as En.
  assert (exists we' ext', s = Filed we' ext' n) as (we' & ext' & ->).
  { cbn in H. repeat case_match; simplify_eq; eauto. }
  split; [|split; [eauto|]].
  - apply (put_state_keeps' e id f); try done; [unfold is_final; by rewrite Hst|]. intros ? ? ? [= <- <- <-]. exact En.
  - intros ->. cbn in En, H. rewrite <- En. repeat case_match; simplify_eq; to_prop; done.
Qed.

Lemma conclude_keeps e id verdict r u r' :
  conclude e id verdict r = (Ok u, r') ->
  (verdict = Some true -> WT_QUORUM <= ack_count (e, id) (re_ack_records r)) ->
  (forall f, find_key fst (e, id) (re_filings r) = Some ((e, id), f) -> is_final f = false) ->
  registry_ok r -> registry_ok r'.
Proof.
  unfold conclude. intros H Hq Hnf Hr. destruct verdict as [up|]; inv_all; [|done].
  match goal with H : filing_at _ _ _ = Ok ?g |- _ => rename g into f; apply filing_at_Ok in H end.
  unfold push_terminal_event. apply re_push_keeps; [by destruct (re_kind _), up|].
  apply (put_state_keeps' e id f); auto; destruct up; try done. intros _. left. auto.
Qed.

Lemma find_put e id s r f :
  find_key fst (e, id) (re_filings r) = Some ((e, id), f) ->
  find_key fst (e, id) (re_filings (put_filing_state e id s r)) = Some ((e, id), set_fl_state s f).
Proof. exact (find_key_alter_eq fst (e, id) (fun kf => (kf.1, set_fl_state s kf.2)) _ ((e, id), f) eq_refl). Qed.

Lemma crank_keys_keeps now batch n ks r u r' :
  crank_keys now batch n ks r = (Ok u, r') -> registry_ok r -> registry_ok r'.
Proof.
  revert n r. induction ks as [|[e id] ks IH]; intros n r H Hr; cbn [crank_keys] in H; [by inv_all|].
  destruct (batch <=? n); inv_all; [done|].
  match goal with H : filing_at _ _ _ = Ok ?g |- _ => rename g into f; apply filing_at_Ok in H; rename H into Hf end.
  destruct (crank_filing now (fl_state f)) as [[[s ext_to] verdict]|] eqn:Hc; [|by eapply IH].
  destruct (crank_filing_keeps _ _ _ _ _ _ _ _ Hr Hf Hc) as (Hr1 & (we & ext & k & ->) & Hq). inv_all.
  assert (forall r1, re_filings r1 = re_filings (put_filing_state e id (Filed we ext k) r) ->
            forall g, find_key fst (e, id) (re_filings r1) = Some ((e, id), g) -> is_final g = false) as Hnf.
  { intros r1 -> g Hg. rewrite (find_put _ _ _ _ _ Hf) in Hg. by injection Hg as <-. }
  eapply IH; [done|].
  destruct ext_to; inv_all;
    match goal with H : conclude _ _ _ _ = _ |- _ => apply (conclude_keeps _ _ _ _ _ _ H); [done|by apply Hnf|] end;
    [by apply re_push_keeps|done].
Qed.

Lemma crank_close_keeps now batch r u r' : crank_close now batch r = (Ok u, r') -> registry_ok r -> registry_ok r'.
Proof. unfold crank_close. intros H. inv_all. by eapply crank_keys_keeps. Qed.

(** ** Filing, closing, reaping *)

Lemma open_count_keeps e r u r' :
  open_count e r = (Ok u, r') -> registry_ok r -> e ∉ keys fst (re_aggregates r) ->
  registry_ok r' /\ exists counts, r' = set_filing_count counts r.
Proof.
  unfold open_count. intros H Hr Hne. rewrite bind_get in H. destruct (forallb _ _) eqn:Hall; inv_all.
  2:{ split; [done|]. exists (re_filing_count r). by destruct r. }
  split; [|by eexists]. apply forallb_none in Hall. match goal with H : (_ <? _)%nat = true |- _ => apply Nat.ltb_lt in H end.
  destruct Hr. constructor; cbn [set_filing_count re_filings re_filing_count re_aggregates re_events re_ack_records];
    rewrite ?keys_app; try done.
  - apply NoDup_app. split_and!; [done| |apply NoDup_singleton]. by intros k Hk ->%list_elem_of_singleton.
  - rewrite length_app. cbn. lia.
  - intros k [Hk| ->%list_elem_of_singleton]%elem_of_app; auto.
  - intros ec [Hec| ->%list_elem_of_singleton]%elem_of_app; [auto|cbn; unfold MAX_FILINGS_PER_EPOCH; lia].
  - intros kf ec Hkf [Hec| ->%list_elem_of_singleton]%elem_of_app E; [auto|]. cbn in E. exfalso.
    destruct (ro_stage0 kf Hkf) as [Hs|[Hs _]]; rewrite <- E in Hs; [by apply Hall|by apply Hne].
  - intros kf Hkf. destruct (ro_stage0 kf Hkf); [left; rewrite elem_of_app; by left|by right].
Qed.

(** A new filing takes the next id of its epoch. *)
Lemma add_filing_keeps e n f we r :
  registry_ok r -> find_key fst e (re_filing_count r) = Some (e, n) -> n < MAX_FILINGS_PER_EPOCH ->
  0 < fl_bond f -> validate_class (fl_class f) r = Ok tt -> 0 <= fl_points f < 65536 ->
  fl_state f = Filed we false 0 ->
  registry_ok (set_filings (re_filings r ++ [((e, n), f)])
    (set_filing_count (alter_key fst e (fun ec => (ec.1, n + 1)) (re_filing_count r)) r)).
Proof.
  intros Hr Hc Hn Hb Hv Hp Hst. pose proof (find_key_Some _ _ _ _ Hc) as [_ Hce]. destruct Hr.
  assert (forall ec, ec ∈ alter_key fst e (fun ec => (ec.1, n + 1)) (re_filing_count r) ->
            (ec.1 <> e /\ ec ∈ re_filing_count r) \/ ec = (e, n + 1)) as Hcase.
  { intros ec [|(w & Hw & ->)]%elem_of_alter_NoDup; [by left| |done..]. right. rewrite Hc in Hw. by injection Hw as <-. }
  assert (e ∈ keys fst (re_filing_count r)) as He by (apply elem_of_keys; by eexists).
  assert ((e, n) ∉ keys fst (re_filings r)) as Hfresh.
  { intros (kf & Hkf & E)%elem_of_keys. assert (kf.1.2 < n) by (apply (ro_ids0 kf (e, n)); [done..|by rewrite E]).
    rewrite E in *. cbn in *. lia. }
  pose proof (ro_cap0 _ Hce). constructor;
    cbn [set_filings set_filing_count re_filings re_filing_count re_aggregates re_events re_ack_records];
    rewrite ?keys_app, ?keys_alter by done; try done.
  - apply NoDup_app. split_and!; [done| |apply NoDup_singleton]. by intros k Hk ->%list_elem_of_singleton.
  - by rewrite length_alter_key.
  - intros ec [[_ Hec]| ->]%Hcase; [auto|cbn in *; lia].
  - intros kf ec [Hkf| ->%list_elem_of_singleton]%elem_of_app [[Hne Hec]| ->]%Hcase E; cbn in *; [auto| |done|lia].
    assert (kf.1.2 < n) by (apply (ro_ids0 kf (e, n)); done). lia.
  - intros kf [Hkf| ->%list_elem_of_singleton]%elem_of_app; [auto|cbn in *; lia].
  - intros kf [Hkf| ->%list_elem_of_singleton]%elem_of_app; [auto|by left].
  - intros kf [Hkf| ->%list_elem_of_singleton]%elem_of_app; [by apply ro_row0|done].
  - intros a Ha. apply elem_of_app. left. auto.
  - intros kf we' ext k [Hkf| ->%list_elem_of_singleton]%elem_of_app E; [by eapply ro_acks_count0|].
    cbn in E. rewrite Hst in E. injection E as <- <- <-. unfold ack_count, acks_of.
    rewrite filter_all_false; [done|]. intros a Ha Ek. cbn in Ek. apply Hfresh. rewrite <- Ek. by apply ro_acks_known0.
  - intros kf [Hkf| ->%list_elem_of_singleton]%elem_of_app E; [by apply ro_upheld0|]. cbn in E. congruence.
Qed.

Lemma filed_conserves kind i id b : slash_conserves (filed_event kind i id b).
Proof. by destruct kind. Qed.

Lemma file_keeps i r id r' :
  file i r = (Ok id, r') -> 0 <= fi_points i < 65536 -> registry_ok r -> registry_ok r'.
Proof.
  unfold file. intros H Hp Hr. inv_all. apply re_push_keeps; [by apply filed_conserves|]. to_prop.
  match goal with H : forallb _ _ = true |- _ => apply forallb_none in H end.
  match goal with H : open_count _ _ = _ |- _ => apply open_count_keeps in H as (Hr' & counts & ->); [|done..] end.
  match goal with H : find_key _ _ _ = Some ?c |- _ => pose proof (find_key_Some _ _ _ _ H) as [Ec _]; destruct c as [e0 n] end.
  cbn in Ec. subst e0.
  match goal with H : validate_class _ _ = Ok ?u |- _ => destruct u end. by eapply add_filing_keeps.
Qed.

Lemma upheld_bounds e r (m : FilingKey * Filing -> Z) b :
  registry_ok r -> 0 <= b -> (forall kf, kf ∈ re_filings r -> 0 <= m kf <= b) ->
  0 <= sum_by m (upheld_in e r) <= b * MAX_FILINGS_PER_EPOCH.
Proof.
  intros Hr Hb Hm. assert (forall kf, kf ∈ upheld_in e r -> 0 <= m kf <= b) as Hm'
    by (intros kf [_ Hin]%list_elem_of_filter; auto).
  pose proof (sum_by_nonneg m (upheld_in e r) ltac:(intros; by apply Hm')).
  pose proof (sum_by_le m b (upheld_in e r) ltac:(intros; by apply Hm')).
  pose proof (epoch_filings_bound (fun kf => kf.1.1 = e /\ fl_state kf.2 = FlUpheld) e r Hr ltac:(by intros ? [])).
  unfold upheld_in in *. nia.
Qed.

Lemma close_measures e r v :
  registry_ok r ->
  match re_kind r with Incident => Ok (incident_aggregate e r) | Milestone => milestone_aggregate e r end = Ok v ->
  measures e v r.
Proof.
  intros Hr H. unfold measures. destruct (re_kind r) eqn:Ek.
  - injection H as <-. unfold incident_aggregate, sat_sub. lia.
  - unfold milestone_aggregate in H. inv_all. to_prop. split; [done|].
    pose proof (upheld_bounds e r (fun kf => fl_points kf.2) 65535 Hr ltac:(lia)
      ltac:(intros kf Hkf; destruct (ro_row _ Hr kf Hkf) as (_ & _ & ?); lia)) as Hb.
    fold (points_in e r) in Hb. unfold MAX_FILINGS_PER_EPOCH in Hb. subst v.
    rewrite (fold_sat_add (fun kf => fl_points kf.2)); rewrite ?Z.add_0_l.
    + fold (points_in e r). unfold sat_mul, REG_ONE. rewrite (Z.min_l (_ * _)) by lia. apply Z.min_comm.
    + lia.
    + intros kf [_ Hkf]%list_elem_of_filter. by apply (ro_row _ Hr).
    + fold (points_in e r). lia.
Qed.

Lemma close_epoch_keeps e now w r v r' : close_epoch e now w r = (Ok v, r') -> registry_ok r -> registry_ok r'.
Proof.
  unfold close_epoch. intros H Hr. inv_all. apply re_push_keeps; [done|]. to_prop.
  match goal with H : forallb _ (re_aggregates r) = true |- _ => apply forallb_none in H; rename H into Hnew end.
  match goal with H : forallb _ (filter _ _) = true |- _ => rewrite forallb_forall in H; rename H into Hfin end.
  match goal with H : (_ <? _)%nat = true |- _ => apply Nat.ltb_lt in H end.
  destruct Hr. constructor; cbn [set_filing_count set_aggregates re_filings re_filing_count re_aggregates re_events re_ack_records];
    rewrite ?keys_app; try done.
  - by apply keys_filter_NoDup.
  - apply NoDup_app. split_and!; [done| |apply NoDup_singleton]. by intros k Hk ->%list_elem_of_singleton.
  - etransitivity; [apply length_filter|done].
  - rewrite length_app. cbn. lia.
  - intros k (ec & [Hne Hec]%list_elem_of_filter & E)%elem_of_keys [Ha|Ha%list_elem_of_singleton]%elem_of_app; [|cbn in Ha; congruence].
    revert Ha. apply ro_apart0, elem_of_keys. eauto.
  - intros ec [_ Hec]%list_elem_of_filter. auto.
  - intros kf ec Hkf [_ Hec]%list_elem_of_filter. auto.
  - intros kf Hkf. destruct (decide (kf.1.1 = e)) as [E|E].
    + right. split; [apply elem_of_app; right; by apply list_elem_of_singleton|].
      apply Hfin, list_elem_of_In, list_elem_of_filter. done.
    + destruct (ro_stage0 kf Hkf) as [(ec & Hec & Ee)%elem_of_keys|[Ha ?]]; [left|right; rewrite elem_of_app; auto].
      apply elem_of_keys. exists ec. split; [|done]. apply list_elem_of_filter. split; [congruence|done].
Qed.

Lemma reap_epoch_keeps e r u r' : reap_epoch e r = (Ok u, r') -> registry_ok r -> registry_ok r'.
Proof.
  unfold reap_epoch. intros H Hr. inv_all. destruct Hr.
  assert (forall k, k.1 <> e -> ack_count k (filter (fun a => a.1.1 <> e) (re_ack_records r)) = ack_count k (re_ack_records r)) as Hac.
  { intros k Hk. unfold ack_count, acks_of. rewrite list_filter_filter. do 2 f_equal. apply list_filter_iff. naive_solver. }
  constructor; cbn [set_filings set_ack_records set_aggregates re_filings re_filing_count re_aggregates re_events re_ack_records];
    try done.
  - by apply keys_filter_NoDup.
  - by apply keys_filter_NoDup.
  - etransitivity; [apply length_filter|done].
  - intros k Hk (ea & [_ Hea]%list_elem_of_filter & <-)%elem_of_keys. apply (ro_apart0 _ Hk), elem_of_keys. eauto.
  - intros kf ec [_ Hkf]%list_elem_of_filter. auto.
  - intros kf [_ Hkf]%list_elem_of_filter. auto.
  - intros kf [Hne Hkf]%list_elem_of_filter. destruct (ro_stage0 kf Hkf) as [|[(ea & Hea & E)%elem_of_keys ?]]; [by left|right].
    split; [|done]. apply elem_of_keys. exists ea. split; [|done]. apply list_elem_of_filter. split; [congruence|done].
  - intros kf [_ Hkf]%list_elem_of_filter. auto.
  - by apply NoDup_filter.
  - intros a [Hne Ha]%list_elem_of_filter. apply ro_acks_known0 in Ha as (kf & Hkf & E)%elem_of_keys.
    apply elem_of_keys. exists kf. split; [|done]. apply list_elem_of_filter. split; [by rewrite E|done].
  - intros kf we ext n [Hne Hkf]%list_elem_of_filter Hst. rewrite Hac by done. by eapply ro_acks_count0.
  - intros kf [Hne Hkf]%list_elem_of_filter Hst. rewrite Hac by done. by apply ro_upheld0.
Qed.

Lemma registry_step_keeps r r' : registry_step r r' -> registry_ok r -> registry_ok r'.
Proof.
  intros (c & Hc & H) Hr. destruct c; cbn [registry_exec registry_call_ok] in *; inv_all;
    eauto using file_keeps, ack_observed_keeps, challenge_filing_keeps, registry_resolve_keeps, crank_close_keeps,
      close_epoch_keeps, reap_epoch_keeps.
  by destruct Hr.
Qed.

Lemma registry_reachable_ok r : registry_reachable r -> registry_ok r.
Proof.
  intros (kind & Hr). cut (registry_ok (Registry_new kind)); [|apply registry_new_ok].
  induction Hr; eauto using registry_step_keeps.
Qed.
