(* ===== verification/RegistryTheorems.v ===== *)
(** * The properties of the incident and milestone registries

    Each theorem with its witness on a registry of incidents. *)

From S2P Require Import Prelude Keyed Primitives Proposals Attestor AttestorInv Registry RegistryInv.

(** ** The filings of a closed epoch stay *)

Definition filings_of (e : EpochId) (r : Registry) : list (FilingKey * Filing) :=
  filter (fun kf => kf.1.1 = e) (re_filings r).

Definition all_final (e : EpochId) (r : Registry) : Prop :=
  forall kf, kf ∈ re_filings r -> kf.1.1 = e -> is_final kf.2 = true.

Lemma closed_is_final r ea : registry_ok r -> ea ∈ re_aggregates r -> all_final ea.1 r.
Proof.
  intros Hr Hea kf Hkf E. destruct (ro_stage _ Hr kf Hkf) as [Hs|[_ ?]]; [|done]. exfalso.
  apply (ro_apart _ Hr _ Hs). rewrite E. apply elem_of_keys. eauto.
Qed.

(** What the calls other than its closing and its reaping keep of an epoch
    whose filings are final. *)
Definition epoch_kept (e : EpochId) (r r' : Registry) : Prop :=
  re_kind r' = re_kind r /\ re_aggregates r' = re_aggregates r /\ filings_of e r' = filings_of e r.

#[local] Instance epoch_kept_trans e : Transitive (epoch_kept e).
Proof. intros r1 r2 r3 (? & ? & ?) (? & ? & ?). split_and!; congruence. Qed.

Lemma all_final_kept e r r' : epoch_kept e r r' -> all_final e r -> all_final e r'.
Proof.
  intros (_ & _ & Ef) H kf Hkf E. apply H; [|done].
  assert (kf ∈ filings_of e r') as Hin by by apply list_elem_of_filter. rewrite Ef in Hin.
  by apply list_elem_of_filter in Hin as [_ ?].
Qed.

Lemma open_elsewhere e e' id r f :
  all_final e r -> filing_at e' id r = Ok f -> is_final f = false -> e' <> e.
Proof.
  intros Hfin Hf%filing_at_Ok Hn ->. apply find_key_Some in Hf as [_ Hin]. specialize (Hfin _ Hin eq_refl).
  cbn in Hfin. congruence.
Qed.

Lemma put_kept e e' id s r : e' <> e -> epoch_kept e r (put_filing_state e' id s r).
Proof.
  intros Hne. split_and!; [done..|]. unfold filings_of. apply filter_alter_other. intros [[] g] _ [= -> ->]. cbn. naive_solver.
Qed.

Lemma conclude_kept e e' id v r u r' : e' <> e -> conclude e' id v r = (Ok u, r') -> epoch_kept e r r'.
Proof. unfold conclude. intros Hne H. destruct v; inv_all; [by apply put_kept|done]. Qed.

Lemma crank_keys_kept e now batch n ks r u r' :
  crank_keys now batch n ks r = (Ok u, r') -> all_final e r -> epoch_kept e r r'.
Proof.
  revert n r. induction ks as [|[e' id] ks IH]; intros n r H Hfin; cbn [crank_keys] in H; [by inv_all|].
  destruct (batch <=? n); inv_all; [done|].
  match goal with H : filing_at _ _ _ = Ok ?g |- _ => rename g into f, H into Hf end.
  destruct (crank_filing now (fl_state f)) as [[[s o] v]|] eqn:Hc; [|by eapply IH].
  assert (e' <> e) as Hne. { eapply open_elsewhere; [done..|]. unfold is_final. by destruct (fl_state f). }
  inv_all. match goal with H : crank_keys _ _ _ _ ?r1 = _ |- _ => assert (epoch_kept e r r1) as Hk; [|apply IH in H] end.
  - etransitivity; [by apply (put_kept e e' id s)|]. destruct o; inv_all;
      match goal with H : conclude _ _ _ ?r0 = _ |- _ => exact (conclude_kept e e' id v r0 _ _ Hne H) end.
  - by etransitivity.
  - by eapply all_final_kept.
Qed.

(** A call that does not reap the epoch keeps its aggregate and its filings. *)
Lemma aggregates_kept c r r' ea :
  registry_ok r -> registry_exec c r = (Ok tt, r') -> c <> RReap ea.1 -> ea ∈ re_aggregates r ->
  ea ∈ re_aggregates r' /\ re_kind r' = re_kind r /\ filings_of ea.1 r' = filings_of ea.1 r.
Proof.
  intros Hr H Hc Hea. pose proof (closed_is_final _ _ Hr Hea) as Hfin.
  assert (epoch_kept ea.1 r r' -> ea ∈ re_aggregates r' /\ re_kind r' = re_kind r /\ filings_of ea.1 r' = filings_of ea.1 r)
    as Hkept by (intros (? & -> & ?); done).
  destruct c; cbn [registry_exec] in H.
  - apply Hkept. unfold file, open_count in H. inv_all.
    match goal with H : forallb _ (re_aggregates r) = true |- _ => apply forallb_none in H; rename H into Hnew end.
    assert (fi_epoch i <> ea.1) as Hne by (intros E; apply Hnew; rewrite E; apply elem_of_keys; eauto).
    match goal with H : (if ?b then _ else _) _ = _ |- _ => destruct b end; inv_all; (split_and!; [done..|]);
      unfold filings_of; cbn; by rewrite filter_app, (filter_cons _ _ []), decide_False, filter_nil, app_nil_r.
  - apply Hkept. unfold ack_observed in H. inv_all. apply put_kept. eapply open_elsewhere; [done..|].
    unfold is_final. by destruct (fl_state _).
  - apply Hkept. unfold challenge_filing in H. inv_all. apply put_kept. eapply open_elsewhere; [done..|].
    unfold is_final. by destruct (fl_state _).
  - apply Hkept. unfold registry_resolve in H. inv_all. apply put_kept. eapply open_elsewhere; [done..|].
    unfold is_final. by destruct (fl_state _).
  - apply Hkept. unfold crank_close in H. inv_all. by eapply crank_keys_kept.
  - unfold close_epoch in H. inv_all. split_and!; [|done..]. apply elem_of_app. by left.
  - unfold reap_epoch in H. inv_all. split_and!; [|done|].
    + apply list_elem_of_filter. split; [congruence|done].
    + unfold filings_of. cbn. rewrite list_filter_filter. apply list_filter_iff. intros kf.
      split; [by intros []|]. intros E. split; [done|congruence].
  - by inv_all.
Qed.

Lemma measures_range e v r : registry_ok r -> measures e v r -> 0 <= v <= REG_ONE.
Proof.
  intros Hr. unfold measures, REG_ONE. destruct (re_kind r).
  - intros ->. pose proof (sum_by_nonneg (fun kf => severity (fl_class kf.2)) (upheld_in e r)
      ltac:(intros [k f] _; cbn; destruct (fl_class f); cbn; unfold REG_ONE; lia)). lia.
  - intros (Ht & ->).
    pose proof (upheld_bounds e r (fun kf => fl_points kf.2) 65535 Hr ltac:(lia)
      ltac:(intros kf Hkf; destruct (ro_row _ Hr kf Hkf) as (_ & _ & ?); lia)) as Hb.
    fold (points_in e r) in Hb. pose proof (Z.div_pos (points_in e r * 1000000000) (re_milestone_target r)). lia.
Qed.

(** ** Every aggregate has its closing *)

(** The registry [r1] in which the epoch was closed, and its filings since. *)
Definition closed_from (e : EpochId) (v : FixedU64) (r1 r : Registry) : Prop :=
  registry_reachable r1 /\ e ∉ keys fst (re_aggregates r1) /\ measures e v r1
  /\ re_kind r = re_kind r1 /\ filings_of e r = filings_of e r1
  /\ exists now w r2, close_epoch e now w r1 = (Ok v, r2) /\ rtc registry_step r2 r.

Lemma close_epoch_Ok e now w r v r' :
  registry_ok r -> close_epoch e now w r = (Ok v, r') ->
  e ∉ keys fst (re_aggregates r) /\ measures e v r /\ re_aggregates r' = re_aggregates r ++ [(e, v)]
  /\ re_kind r' = re_kind r /\ re_filings r' = re_filings r.
Proof.
  unfold close_epoch. intros Hr H. inv_all. split_and!; try done; [by apply forallb_none|by apply close_measures].
Qed.

Lemma crank_keys_aggregates now batch n ks r u r' :
  crank_keys now batch n ks r = (Ok u, r') -> re_aggregates r' = re_aggregates r.
Proof.
  revert n r. induction ks as [|[e id] ks IH]; intros n r H; cbn [crank_keys] in H; [by inv_all|].
  destruct (batch <=? n); inv_all; [done|]. destruct (crank_filing _ _) as [[[s o] v]|]; [|by eapply IH].
  inv_all. match goal with H : crank_keys _ _ _ _ _ = _ |- _ => rewrite (IH _ _ H) end.
  unfold conclude in *. destruct o, v; inv_all; done.
Qed.

(** An aggregate after a call was there before or is of the epoch it closes. *)
Lemma call_aggregates c r r' ea :
  registry_exec c r = (Ok tt, r') -> ea ∈ re_aggregates r' ->
  ea ∈ re_aggregates r
  \/ exists e now w v, c = RClose e now w /\ close_epoch e now w r = (Ok v, r') /\ ea = (e, v).
Proof.
  intros H Hea. destruct c; cbn [registry_exec] in H.
  - left. unfold file, open_count in H. inv_all. match goal with H : (if ?b then _ else _) _ = _ |- _ => destruct b end; by inv_all.
  - left. unfold ack_observed in H. by inv_all.
  - left. unfold challenge_filing in H. by inv_all.
  - left. unfold registry_resolve in H. by inv_all.
  - left. unfold crank_close in H. inv_all. by erewrite <- crank_keys_aggregates.
  - inv_all. match goal with H : close_epoch _ _ _ _ = (Ok ?v, _) |- _ => rename H into Hclose, v into v0 end.
    assert (ea ∈ re_aggregates r ++ [(epoch, v0)]) as Hin.
    { unfold close_epoch in Hclose. inv_all. exact Hea. }
    apply elem_of_app in Hin as [|Hin%list_elem_of_singleton]; [by left|right]. naive_solver.
  - left. unfold reap_epoch in H. inv_all. by apply list_elem_of_filter in Hea as [_ ?].
  - left. by inv_all.
Qed.

Lemma reap_epoch_keys e r u r' : reap_epoch e r = (Ok u, r') -> e ∉ keys fst (re_aggregates r').
Proof. unfold reap_epoch. intros H. inv_all. cbn -[keys]. by intros (ea & [Hne _]%list_elem_of_filter & E)%elem_of_keys. Qed.

Lemma aggregates_are_closed r ea :
  registry_reachable r -> ea ∈ re_aggregates r -> exists r1, closed_from ea.1 ea.2 r1 r.
Proof.
  intros [kind Hrun]. revert r Hrun ea.
  apply (rtc_ind_r (fun r => forall ea, ea ∈ re_aggregates r -> exists r1, closed_from ea.1 ea.2 r1 r));
    [by intros ea ?%elem_of_nil|].
  intros r r' Hrun Hstep IH ea Hea. assert (registry_ok r) as Hr by (apply registry_reachable_ok; by exists kind).
  pose proof (registry_step_keeps _ _ Hstep Hr) as Hr'. destruct Hstep as (c & Hc & H).
  destruct (call_aggregates _ _ _ _ H Hea) as [Hin|(e & now & w & v & -> & Hclose & ->)].
  - destruct (IH _ Hin) as (r1 & Hr1 & Hnew & Hm & Ek & Ef & now & w & r2 & Hclose & Hlater).
    destruct (aggregates_kept c r r' ea) as (_ & Ek' & Ef'); [done|done| |done|].
    { intros ->. pose proof (reap_epoch_keys ea.1 r tt r' H) as Hk. apply Hk, elem_of_keys. eauto. }
    exists r1. split_and!; try done; [congruence..|]. exists now, w, r2. split; [done|]. eapply rtc_r; [done|by exists c].
  - destruct (close_epoch_Ok _ _ _ _ _ _ Hr Hclose) as (Hnew & Hm & Ha & Ek & Ef). exists r. split_and!; try done.
    + by exists kind.
    + unfold filings_of. by rewrite Ef.
    + by exists now, w, r'.
Qed.

(** C31. Aggregates are earned: in every reachable registry a closed epoch's
    aggregate is in [0, 1] and was computed when the epoch was closed, in a
    reachable registry that had no aggregate for it, exactly as the measure of
    the filings upheld there: 1 less their severities, at least 0, or their
    points over the milestone target in force at that moment, at most 1. The epoch's filings have not
    changed since and are all final; each upheld one was acknowledged by two
    distinct watchtowers or judged on a challenge whose bond was slashed; and
    no call but the reaping of that epoch takes the aggregate away or changes
    it. *)
Theorem aggregates_are_earned r ea :
  registry_reachable r -> ea ∈ re_aggregates r ->
  0 <= ea.2 <= REG_ONE
  /\ (exists r1, registry_reachable r1 /\ ea.1 ∉ keys fst (re_aggregates r1) /\ measures ea.1 ea.2 r1
        /\ re_kind r = re_kind r1 /\ filings_of ea.1 r = filings_of ea.1 r1
        /\ exists now w r2, close_epoch ea.1 now w r1 = (Ok ea.2, r2) /\ rtc registry_step r2 r)
  /\ (forall kf, kf ∈ re_filings r -> kf.1.1 = ea.1 -> is_final kf.2 = true)
  /\ (forall kf, kf ∈ upheld_in ea.1 r ->
        judged kf.1 r
        \/ exists ws, NoDup ws /\ WT_QUORUM <= Z.of_nat (length ws) /\ forall w, w ∈ ws -> (kf.1, w) ∈ re_ack_records r)
  /\ (forall c r', registry_exec c r = (Ok tt, r') -> c <> RReap ea.1 ->
        ea ∈ re_aggregates r' /\ forall v, (ea.1, v) ∈ re_aggregates r' -> registry_call_ok c -> v = ea.2).
Proof.
  intros Hreach Hea. pose proof (registry_reachable_ok _ Hreach) as Hr. pose proof Hr as [].
  assert (forall r', registry_ok r' -> ea ∈ re_aggregates r' -> forall v, (ea.1, v) ∈ re_aggregates r' -> v = ea.2) as Huniq.
  { intros r' Hr' Hin v Hv. pose proof (find_key_elem fst _ _ (RegistryInv.ro_aggregates _ Hr') Hin) as F1.
    pose proof (find_key_elem fst _ _ (RegistryInv.ro_aggregates _ Hr') Hv) as F2. cbn in F1, F2. rewrite F1 in F2.
    by injection F2 as ->. }
  destruct (aggregates_are_closed r ea Hreach Hea) as (r1 & Hclosed).
  split; [by eapply measures_range; [apply registry_reachable_ok|]; apply Hclosed|].
  split_and!; [by exists r1|by apply closed_is_final|..].
  - intros kf [[_ Hst] Hkf]%list_elem_of_filter. destruct (ro_upheld kf Hkf Hst) as [Hq|]; [right|by left].
    exists (snd <$> acks_of kf.1 (re_ack_records r)). rewrite length_fmap. split_and!; [|done|].
    + apply NoDup_fmap_2_strong; [|by apply NoDup_filter].
      intros [k1 w1] [k2 w2] [E1 _]%list_elem_of_filter [E2 _]%list_elem_of_filter. cbn in *. congruence.
    + intros w ([k w'] & -> & [E Hin]%list_elem_of_filter)%list_elem_of_fmap. cbn in *. by subst.
  - intros c r' Hc Hne. destruct (aggregates_kept _ _ _ _ Hr Hc Hne Hea) as (Hin & _). split; [done|].
    intros v Hv Hcok. apply (Huniq r'); [|done..]. eapply registry_step_keeps; [by exists c|done].
Qed.

(** The filings of a live epoch have distinct ids below its count. *)
Lemma epoch_ids r ec :
  registry_ok r -> ec ∈ re_filing_count r ->
  Z.of_nat (length (filter (fun kf => kf.1.1 = ec.1) (re_filings r))) <= ec.2.
Proof.
  intros Hr Hec. pose proof (ro_cap _ Hr ec Hec). replace ec.2 with (Z.max 0 ec.2) by lia.
  apply (epoch_length_bounded _ ec.1 r); [done..|]. intros kf Hin E. split; [by apply (ro_nonneg _ Hr)|].
  by apply (ro_ids _ Hr).
Qed.

(** The state checker of a registry accepts every reachable state, and
    every slashed bond was split without remainder, at most 40% of it to the
    counterparty. *)
Theorem registry_checker_accepts r :
  registry_reachable r ->
  registry_try_state r = Ok tt /\ forall e, e ∈ re_events r -> slash_conserves e.
Proof.
  intros Hr%registry_reachable_ok. pose proof Hr as []. split; [|done]. unfold registry_try_state.
  rewrite !(ensure_true (_ <=? _)%nat) by (by apply Nat.leb_le). cbn [rbind].
  rewrite (proj2 (for_each_Ok _ (re_filing_count r) tt)); cbn [rbind].
  2:{ intros ec Hec. rewrite ensure_true by (apply Z.leb_le, (ro_cap ec Hec)). cbn [rbind]. apply ensure_true, Z.leb_le.
      pose proof (epoch_filings_bound (fun kf => kf.1.1 = ec.1) ec.1 r Hr ltac:(done)) as Hb.
      rewrite wrap_small by (unfold MAX_FILINGS_PER_EPOCH in Hb; lia). by apply epoch_ids. }
  apply for_each_Ok. intros kf Hkf. destruct (ro_row kf Hkf) as (Hb & -> & _).
  rewrite ensure_true by by apply Z.ltb_lt. cbn [rbind].
  assert (forall {V} (l : list (Z * V)), existsb (fun v => v.1 =? kf.1.1) l = true <-> kf.1.1 ∈ keys fst l) as Hex.
  { intros V l. rewrite existsb_elem, elem_of_keys. by setoid_rewrite Z.eqb_eq. }
  destruct (ro_stage kf Hkf) as [Hs|[Hs Hfin]].
  - rewrite (proj2 (Hex _ _) Hs). destruct (existsb _ (re_aggregates r)) eqn:E; [|done].
    apply Hex in E. by apply ro_apart in E.
  - rewrite (proj2 (Hex _ _) Hs). destruct (existsb _ (re_filing_count r)) eqn:E; [|by rewrite Hfin].
    apply Hex in E. by apply ro_apart in E.
Qed.

(** ** Witnesses *)

Definition demo_filing (who : AccountId) (class : FilingClass) : FileInput :=
  {| fi_who := who; fi_now := 10; fi_epoch := 5; fi_class := class; fi_points := 0; fi_evidence_hash := 0;
     fi_spec_version := 1; fi_expected_spec := 1; fi_filing_window_end := 1000 |}.

(** Two incidents: one seen by two watchtowers, one challenged and thrown out. *)
Definition demo_incidents : list RegistryCall :=
  [RFile (demo_filing 1 S2); RFile (demo_filing 2 S1); RAck 7 20 true 5 0; RAck 8 21 true 5 0;
   RChallenge 3 22 5 1 99; RResolve 5 1 false; RCrank 50000 20; RClose 5 50001 1000].

Fixpoint registry_run (calls : list RegistryCall) (r : Registry) : option Registry :=
  match calls with
  | [] => Some r
  | c :: rest => match registry_exec c r with (Ok _, r) => registry_run rest r | _ => None end
  end.

Lemma registry_run_steps calls r r' :
  Forall registry_call_ok calls -> registry_run calls r = Some r' -> rtc registry_step r r'.
Proof.
  revert r. induction calls as [|c calls IH]; intros r Hok H; cbn [registry_run] in H; [by injection H as ->|].
  inversion_clear Hok. destruct (registry_exec c r) as [[[]|e] r1] eqn:E; [|done].
  apply rtc_l with r1; [by exists c|by apply IH].
Qed.

Definition demo_closed : Registry :=
  Eval vm_compute in default (Registry_new Incident) (registry_run demo_incidents (Registry_new Incident)).

Lemma demo_closed_reachable : registry_reachable demo_closed.
Proof.
  exists Incident. apply (registry_run_steps demo_incidents); [by repeat constructor|by vm_compute].
Qed.

(** A milestone of 10 points against a target of 40, which is raised later. *)
Definition demo_milestones : list RegistryCall :=
  [RRefresh 1000 1000 40;
   RFile {| fi_who := 1; fi_now := 10; fi_epoch := 5; fi_class := Scope 3; fi_points := 10; fi_evidence_hash := 0;
            fi_spec_version := 1; fi_expected_spec := 1; fi_filing_window_end := 1000 |};
   RAck 7 20 true 5 0; RAck 8 21 true 5 0; RCrank 50000 20; RClose 5 50001 1000; RRefresh 1000 1000 80].

Definition demo_reached : Registry :=
  Eval vm_compute in default (Registry_new Milestone) (registry_run demo_milestones (Registry_new Milestone)).

Lemma demo_reached_reachable : registry_reachable demo_reached.
Proof.
  exists Milestone. apply (registry_run_steps demo_milestones); [by repeat constructor|by vm_compute].
Qed.

Lemma aggregates_are_earned_witness :
  re_aggregates demo_closed = [(5, 600000000)] /\ length (upheld_in 5 demo_closed) = 1%nat
  /\ (forall kf, kf ∈ re_filings demo_closed -> kf.1.1 = 5 -> is_final kf.2 = true)
  /\ re_aggregates demo_reached = [(5, 250000000)]
  /\ exists r1, measures 5 250000000 r1 /\ filings_of 5 demo_reached = filings_of 5 r1.
Proof.
  split_and!; [done|by vm_compute| |done|].
  - apply (aggregates_are_earned demo_closed (5, 600000000) demo_closed_reachable). by left.
  - destruct (aggregates_are_earned demo_reached (5, 250000000) demo_reached_reachable ltac:(by left))
      as (_ & (r1 & _ & _ & Hm & _ & Hf & _) & _). by exists r1.
Defined.

Lemma registry_checker_accepts_witness : registry_try_state demo_closed = Ok tt.
Proof. apply (registry_checker_accepts demo_closed demo_closed_reachable). Defined.
