(* ===== verification/ExecGuard.v ===== *)
(** * The execution guard (crates/execution-guard-core)

    Adopted proposals wait in a queue; anyone may execute one once it is
    mature, with the calls whose hash was committed, if the ordered dispatch
    checks pass. Success hands the proposal to the epoch core for measurement;
    a revert opens a retry window. The epoch core, the attestor registry and
    the guardian are seen through interfaces. The wire encoding of the calls
    is third-party code and a parameter. *)

From S2P Require Import Prelude Keyed Primitives Proposals Guardian Origins Attestor.

Definition MAX_QUEUE : nat := 32.
Definition MAX_EXECUTION_RECORDS : nat := 256.
Definition MAX_CALLS : nat := 16.
Definition MAX_PAYLOAD_BYTES : Z := 65536.
Definition MAX_DECLARED_DOMAINS : nat := 16.
Definition MAX_RESOURCE_LOCKS : nat := 8.
Definition DESCRIPTOR_LEAD_TIME : BlockNumber := 43200.
Definition RETRY_WINDOW : BlockNumber := 43200.

(** ** Content hashes *)

(** The 32 bytes as one big-endian number: equality is that of the arrays. *)
Definition h256_of (bytes : list Z) : H256 := fold_left (fun acc b => acc * 256 + b) bytes 0.

Definition le_bytes64 (n : Z) : list Z := map (fun i => Z.land (Z.shiftr n (8 * i)) 255) (seqZ 0 8).

(** [u8::rotate_left] *)
Definition rotl8 (b k : Z) : Z := Z.lor (Z.land (Z.shiftl b k) 255) (Z.shiftr b (8 - k)).

Definition xor_at (i : nat) (b : Z) (out : list Z) : list Z := alter (fun x => Z.lxor x b) i out.

Definition content_hash (bytes : list Z) : H256 :=
  let out := replicate 32 0 in
  let out := fold_left (fun out ib => xor_at (24 + ib.1) ib.2 out) (imap pair (le_bytes64 (Z.of_nat (length bytes)))) out in
  let out := fold_left (fun out ib => xor_at (ib.1 mod 24) (rotl8 ib.2 (Z.of_nat (ib.1 / 24 mod 8))) out) (imap pair bytes) out in
  h256_of out.

(** ** Data *)

Inductive GuardOrigin : Type :=
| GdSigned
| GdEpochDecision
| GdRatifyTrack
| GdSystem.

Inductive GuardDomain : Type :=
| GdPublic
| GdParam
| GdTreasury
| GdCode
| GdMeta
| GdInternalRootAuthorizeUpgrade
| GdInternalRootApplyUpgrade.

#[export] Instance GuardDomain_eq_dec : EqDecision GuardDomain.
Proof. solve_decision. Defined.
#[export] Instance RuntimeVersionConstraint_eq_dec : EqDecision RuntimeVersionConstraint.
Proof. solve_decision. Defined.

Definition origin_domain (d : GuardDomain) : CallDomain :=
  match d with
  | GdPublic => DomPublic
  | GdParam => DomParam
  | GdTreasury => DomTreasury
  | GdCode => DomCode
  | GdMeta => DomMeta
  | GdInternalRootAuthorizeUpgrade | GdInternalRootApplyUpgrade => DomInternalRoot
  end.

(** [[u8; 4]] errors are only passed on. *)
Record DispatchCall : Type := {
  dc_domain : GuardDomain;
  dc_encoded_len : Z;
  dc_declared_weight : Z;
  dc_call : RuntimeCall;
  dc_succeeds : bool;
  dc_error : Z;
  dc_upgrade_hash : option H256;
  dc_target_spec_version : option Z;
}.

Record Payload : Type := {
  pl_hash : H256;
  pl_calls : list DispatchCall;
}.

Inductive DispatchOutcomeCode : Type :=
| OutcomeOk
| OutcomeFailed (call_index : Z) (error : Z).

Record ExecutionRecord : Type := {
  er_pid : ProposalId;
  er_payload_hash : H256;
  er_class : ProposalClass;
  er_executed_at : BlockNumber;
  er_result : DispatchOutcomeCode;
}.

Inductive RatificationStatus : Type :=
| RatNotRequired
| RatNoPassedRecord
| RatPassed (referendum : Z).

Record QueuedExecution : Type := {
  qe_pid : ProposalId;
  qe_payload_hash : H256;
  qe_payload_len : Z;
  qe_class : ProposalClass;
  qe_maturity : BlockNumber;
  qe_grace_end : BlockNumber;
  qe_version_constraint : RuntimeVersionConstraint;
  qe_meters_declared : list ResourceKey;
  qe_ratify_ref : option Z;
  qe_ratification_passed : bool;
  qe_attestation_id : option AttestationId;
  qe_pre_upgrade_checkpoint : option (H256 * H256);
  qe_cancelled : bool;
  qe_declared_domains : list GuardDomain;
  qe_failed_at : option BlockNumber;
}.

Definition set_ratify_ref (x : option Z) (q : QueuedExecution) := {| q with qe_ratify_ref := x |}.
Definition set_ratification_passed (x : bool) (q : QueuedExecution) := {| q with qe_ratification_passed := x |}.
Definition set_failed_at (x : option BlockNumber) (q : QueuedExecution) := {| q with qe_failed_at := x |}.

Record PendingUpgrade : Type := {
  pu_hash : H256;
  pu_authorized_at : BlockNumber;
  pu_applicable_at : BlockNumber;
  pu_target_spec_version : Z;
}.

Record UpgradeAuthorization : Type := {
  ua_hash : H256;
  ua_target_spec_version : Z;
  ua_applicable_at : BlockNumber;
}.

Record QueuedExecutionView : Type := {
  qv_pid : ProposalId;
  qv_class : ProposalClass;
  qv_payload_hash : H256;
  qv_maturity : BlockNumber;
  qv_grace_end : BlockNumber;
  qv_version_constraint : RuntimeVersionConstraint;
  qv_cancelled : bool;
  qv_ratification : RatificationStatus;
  qv_meters_clear : bool;
}.

Inductive GuardEvent : Type :=
| GdEnqueued (pid : ProposalId) (maturity : BlockNumber)
| GdRatified (pid : ProposalId) (referendum_index : Z)
| GdExecuted (pid : ProposalId) (record : ExecutionRecord)
| GdExecutionFailed (pid : ProposalId) (outcome : DispatchOutcomeCode)
| GdRejected (pid : ProposalId) (reason : RejectReason)
| GdUpgradeAuthorized (code_hash : H256) (authorized_at applicable_at : BlockNumber)
| GdUpgradeApplied (code_hash : H256) (spec_version : Z)
| GdPreimageUnpinned (pid : ProposalId) (payload_hash : H256).

Inductive GuardError : Type :=
| GdBadOrigin
| GdQueueFull
| GdNotFound
| GdCancelled
| GdNotMature
| GdGraceExpired
| GdBadPreimage
| GdStaleQueue
| GdNotRatified
| GdAttestationMissing
| GdCapabilityDenied
| GdMetersBlocked
| GdResourceLockMissing
| GdGuardianHold
| GdGateSuspended
| GdFreezeActive
| GdPayloadTooLarge
| GdTooManyCalls
| GdTooManyDomains
| GdTooManyLocks
| GdBadDomainDeclaration
| GdSafetyFilter
| GdDispatchFailed
| GdBadUpgradePayload
| GdPendingUpgradeExists
| GdNoPendingUpgrade
| GdDescriptorLeadTime
| GdUpgradeHashMismatch
| GdUpgradeVersionMismatch
| GdRetryWindowOpen
| GdOverflow.

Record ExecutionGuard : Type := {
  eg_queue : list QueuedExecution;
  eg_records : list ExecutionRecord;
  eg_pending_upgrade : option PendingUpgrade;
  eg_current_spec : RuntimeVersionConstraint;
  eg_held_resources : list (ProposalId * ResourceKey);
  eg_gate_suspended : bool;
  eg_hard_gate_breach : bool;
  eg_dead_man_freeze : bool;
  eg_migration_halt : bool;
  eg_events : list GuardEvent;
}.

Definition set_eg_queue x g := {| g with eg_queue := x |}.
Definition set_records x g := {| g with eg_records := x |}.
Definition set_pending_upgrade x g := {| g with eg_pending_upgrade := x |}.
Definition set_current_spec x g := {| g with eg_current_spec := x |}.
Definition set_held_resources x g := {| g with eg_held_resources := x |}.
Definition set_eg_events x g := {| g with eg_events := x |}.

Definition ExecutionGuard_new (spec : RuntimeVersionConstraint) : ExecutionGuard :=
  {| eg_queue := []; eg_records := []; eg_pending_upgrade := None; eg_current_spec := spec; eg_held_resources := [];
     eg_gate_suspended := false; eg_hard_gate_breach := false; eg_dead_man_freeze := false; eg_migration_halt := false;
     eg_events := [] |}.

Abbreviation XM A := (ST ExecutionGuard GuardError A).

Definition eg_push (e : GuardEvent) (g : ExecutionGuard) : ExecutionGuard := set_eg_events (eg_events g ++ [e]) g.

(** ** Interfaces *)

(** [trait EpochHandoff] *)
Class EpochHandoff (H : Type) : Type := {
  eh_mark_executed : ProposalId -> ST H GuardError unit;
  eh_mark_failed_executed : ProposalId -> ST H GuardError unit;
  eh_retry_exhausted : ProposalId -> ST H GuardError unit;
  eh_reject_or_stale : ProposalId -> RejectReason -> ST H GuardError unit;
}.

(** [trait AttestationView] *)
Class AttestationView (T : Type) : Type := {
  av_present_and_quorate : ProposalId -> H256 -> AttestationId -> BlockNumber -> T -> bool;
}.

(** [trait GuardianView] *)
Class GuardianView (T : Type) : Type := {
  gv_rerun_held : ProposalId -> T -> bool;
  gv_gate_suspended : T -> bool;
  gv_ledger_freeze_active : BlockNumber -> T -> bool;
}.

(** [struct InMemoryAttestations] *)
#[export] Instance in_memory_attestations : AttestationView AttestorRegistry := {|
  av_present_and_quorate pid payload_hash id now t :=
    existsb (fun a => att_id a =? id) (rg_attestations t) && has_quorum pid payload_hash now t;
|}.

(** [struct InMemoryGuardian], with the flag it carries *)
#[export] Instance in_memory_guardian : GuardianView (Guardian * bool) := {|
  gv_rerun_held pid t := bool_decide (pid ∈ gu_rerun_used t.1);
  gv_gate_suspended t := t.2;
  gv_ledger_freeze_active now t :=
    existsb (fun p => match ap_id p with LedgerFreeze => now <? ap_expiry p | _ => false end) (gu_active_playbooks t.1);
|}.

(** ** Queue *)

Definition requires_ratification (class : ProposalClass) : bool :=
  match class with Code | Meta | Constitutional => true | _ => false end.

Definition is_upgrade_class (class : ProposalClass) : bool :=
  match class with Code | Meta => true | _ => false end.

Definition domain_allowed (class : ProposalClass) (d : GuardDomain) : bool :=
  match d with
  | GdPublic => true
  | GdParam => match class with Param => true | _ => false end
  | GdTreasury => match class with Treasury => true | _ => false end
  | GdCode => match class with Code => true | _ => false end
  | GdMeta => match class with Meta => true | _ => false end
  | GdInternalRootAuthorizeUpgrade | GdInternalRootApplyUpgrade => is_upgrade_class class
  end.

Definition enqueue (origin : GuardOrigin) (item : QueuedExecution) : XM unit :=
  do! lift (ensure (match origin with GdEpochDecision => true | _ => false end) GdBadOrigin) in
  let item := set_failed_at None item in
  let! g := get in
  do! lift (ensure (length (eg_queue g) <? MAX_QUEUE)%nat GdQueueFull) in
  do! lift (ensure (length (qe_meters_declared item) <=? MAX_RESOURCE_LOCKS)%nat GdTooManyLocks) in
  do! lift (ensure (length (qe_declared_domains item) <=? MAX_DECLARED_DOMAINS)%nat GdTooManyDomains) in
  do! lift (ensure (negb (existsb (fun q => qe_pid q =? qe_pid item) (eg_queue g))) GdQueueFull) in
  do! modify (eg_push (GdEnqueued (qe_pid item) (qe_maturity item))) in
  modify (set_eg_queue (eg_queue g ++ [item])).

Definition queued (pid : ProposalId) (g : ExecutionGuard) : Result GuardError QueuedExecution :=
  ok_or GdNotFound (find_key qe_pid pid (eg_queue g)).

Definition queue_mut (pid : ProposalId) (f : QueuedExecution -> QueuedExecution) (g : ExecutionGuard) : ExecutionGuard :=
  set_eg_queue (alter_key qe_pid pid f (eg_queue g)) g.

Definition binds (q : QueuedExecution) (referendum_index : Z) : bool :=
  match qe_ratify_ref q with None => true | Some i => i =? referendum_index end.

Definition bind_ratification (pid : ProposalId) (referendum_index : Z) : XM unit :=
  let! q := reads (queued pid) in
  do! lift (ensure (binds q referendum_index) GdNotRatified) in
  modify (queue_mut pid (set_ratify_ref (Some referendum_index))).

Definition ratify (origin : GuardOrigin) (pid : ProposalId) (referendum_index : Z) : XM unit :=
  do! lift (ensure (match origin with GdRatifyTrack => true | _ => false end) GdBadOrigin) in
  let! q := reads (queued pid) in
  do! lift (ensure (binds q referendum_index) GdNotRatified) in
  do! modify (queue_mut pid (fun q => set_ratification_passed true (set_ratify_ref (Some referendum_index) q))) in
  modify (eg_push (GdRatified pid referendum_index)).

Definition drop_queued (pid : ProposalId) (g : ExecutionGuard) : ExecutionGuard :=
  set_eg_queue (filter (fun q => qe_pid q <> pid) (eg_queue g)) g.

Definition drop_resources (pid : ProposalId) (g : ExecutionGuard) : ExecutionGuard :=
  set_held_resources (filter (fun or => or.1 <> pid) (eg_held_resources g)) g.

Definition dequeue_terminal (pid : ProposalId) (g : ExecutionGuard) : ExecutionGuard :=
  let g :=
    match find_key qe_pid pid (eg_queue g) with
    | Some q => eg_push (GdPreimageUnpinned pid (qe_payload_hash q)) (drop_queued pid g)
    | None => g
    end in
  drop_resources pid g.

Definition dequeue_for_rerun (pid : ProposalId) (g : ExecutionGuard) : ExecutionGuard :=
  drop_resources pid (drop_queued pid g).

(** [rotate_left(1)] then [pop] drops the oldest record. *)
Definition push_record (r : ExecutionRecord) (g : ExecutionGuard) : ExecutionGuard :=
  set_records ((if (length (eg_records g) =? MAX_EXECUTION_RECORDS)%nat then tail (eg_records g) else eg_records g) ++ [r]) g.

Definition record_of (q : QueuedExecution) (pid : ProposalId) (now : BlockNumber) (outcome : DispatchOutcomeCode) : ExecutionRecord :=
  {| er_pid := pid; er_payload_hash := qe_payload_hash q; er_class := qe_class q; er_executed_at := now;
     er_result := outcome |}.

(** ** Upgrades *)

Definition applied (pending : PendingUpgrade) (code_hash : H256) (g : ExecutionGuard) : ExecutionGuard :=
  let spec := eg_current_spec g in
  eg_push (GdUpgradeApplied code_hash (pu_target_spec_version pending))
    (set_current_spec {| rv_spec_name := rv_spec_name spec; rv_spec_version := pu_target_spec_version pending |}
      (set_pending_upgrade None g)).

Definition complete_upgrade_application (origin : GuardOrigin) (code_hash : H256) (observed_spec_version : Z)
    (now : BlockNumber) : XM unit :=
  do! lift (ensure (match origin with GdSigned => true | _ => false end) GdBadOrigin) in
  let! pending := reads (fun g => ok_or GdNoPendingUpgrade (eg_pending_upgrade g)) in
  do! lift (ensure (pu_applicable_at pending <=? now) GdDescriptorLeadTime) in
  do! lift (ensure (pu_hash pending =? code_hash) GdUpgradeHashMismatch) in
  do! lift (ensure (observed_spec_version =? pu_target_spec_version pending) GdUpgradeVersionMismatch) in
  modify (applied pending code_hash).

Definition apply_authorized_upgrade (origin : GuardOrigin) (code : list Z) (observed_spec_version : Z)
    (now : BlockNumber) : XM unit :=
  do! lift (ensure (match origin with GdSigned => true | _ => false end) GdBadOrigin) in
  let! pending := reads (fun g => ok_or GdNoPendingUpgrade (eg_pending_upgrade g)) in
  do! lift (ensure (pu_applicable_at pending <=? now) GdDescriptorLeadTime) in
  let code_hash := content_hash code in
  do! lift (ensure (pu_hash pending =? code_hash) GdUpgradeHashMismatch) in
  do! lift (ensure (observed_spec_version =? pu_target_spec_version pending) GdUpgradeVersionMismatch) in
  modify (applied pending code_hash).

(** [version.checked_add(1).is_some_and(|expected| expected == target)] *)
Definition follows_version (version target : Z) : bool :=
  match checked_add U32 version 1 with Some expected => expected =? target | None => false end.

Definition complete_recovery_application (code_hash : H256) (target_spec_version : Z) : XM unit :=
  let! g := get in
  do! match eg_pending_upgrade g with
      | Some pending =>
          do! lift (ensure (follows_version (pu_target_spec_version pending) target_spec_version) GdUpgradeVersionMismatch) in
          modify (set_pending_upgrade None)
      | None =>
          lift (ensure (follows_version (rv_spec_version (eg_current_spec g)) target_spec_version) GdUpgradeVersionMismatch)
      end in
  do! modify (set_current_spec {| rv_spec_name := rv_spec_name (eg_current_spec g); rv_spec_version := target_spec_version |}) in
  modify (eg_push (GdUpgradeApplied code_hash target_spec_version)).

(** ** Execution *)

(** The SCALE encodings of the committed fields. *)
Class PayloadCodec : Type := {
  enc_domain : GuardDomain -> list Z;
  enc_u32 : Z -> list Z;
  enc_u64 : Z -> list Z;
  enc_call : RuntimeCall -> list Z;
  enc_upgrade_hash : option H256 -> list Z;
  enc_target : option Z -> list Z;
}.

Definition hash_payload `{!PayloadCodec} (calls : list DispatchCall) : H256 :=
  content_hash (concat (map (fun c =>
    enc_domain (dc_domain c) ++ enc_u32 (dc_encoded_len c) ++ enc_u64 (dc_declared_weight c) ++ enc_call (dc_call c)
    ++ enc_upgrade_hash (dc_upgrade_hash c) ++ enc_target (dc_target_spec_version c)) calls)).

Section execution.
Context `{!PayloadCodec} {G T : Type} `{!GuardianView G} `{!AttestationView T}.

Definition filter_err (e : OriginsError) : GuardError :=
  match e with OrTooManyCalls => GdTooManyCalls | _ => GdSafetyFilter end.

Definition check_dispatch_time_with (q : QueuedExecution) (guardian : G) (attestors : T) (payload : Payload)
    (now : BlockNumber) (g : ExecutionGuard) : Result GuardError unit :=
  do? ensure (negb (qe_cancelled q)) GdCancelled in
  do? ensure (qe_maturity q <=? now) GdNotMature in
  do? match qe_failed_at q with
      | None => ensure (now <=? qe_grace_end q) GdGraceExpired
      | Some f => ensure (now <=? sat_add U32 f RETRY_WINDOW) GdGraceExpired
      end in
  do? ensure ((hash_payload (pl_calls payload) =? qe_payload_hash q) && (qe_payload_len q <=? MAX_PAYLOAD_BYTES)) GdBadPreimage in
  do? ensure (bool_decide (qe_version_constraint q = eg_current_spec g)) GdStaleQueue in
  do? (if requires_ratification (qe_class q) then ensure (qe_ratification_passed q) GdNotRatified else Ok tt) in
  do? (if is_upgrade_class (qe_class q) then
         let? id := ok_or GdAttestationMissing (qe_attestation_id q) in
         ensure (av_present_and_quorate (qe_pid q) (qe_payload_hash q) id now attestors) GdAttestationMissing
       else Ok tt) in
  do? ensure (forallb (fun r => bool_decide ((qe_pid q, r) ∈ eg_held_resources g)) (qe_meters_declared q)) GdResourceLockMissing in
  do? ensure (negb (gv_rerun_held (qe_pid q) guardian)) GdGuardianHold in
  do? ensure (negb (gv_gate_suspended guardian)) GdGateSuspended in
  do? ensure (negb (gv_ledger_freeze_active now guardian)) GdFreezeActive in
  do? ensure (negb (eg_hard_gate_breach g) && negb (eg_dead_man_freeze g) && negb (eg_migration_halt g)) GdFreezeActive in
  do? ensure (length (pl_calls payload) <=? MAX_CALLS)%nat GdTooManyCalls in
  let? total_len := try_fold (fun acc c => ok_or GdOverflow (checked_add U32 acc (dc_encoded_len c))) 0 (pl_calls payload) in
  do? ensure ((total_len =? qe_payload_len q) && (total_len <=? MAX_PAYLOAD_BYTES)) GdPayloadTooLarge in
  let? class_origin := ok_or GdCapabilityDenied (from_proposal_class (qe_class q)) in
  do? for_each (fun c =>
        do? ensure (bool_decide (dc_domain c ∈ qe_declared_domains q)) GdBadDomainDeclaration in
        ensure (domain_allowed (qe_class q) (dc_domain c)) GdCapabilityDenied) (pl_calls payload) in
  map_err filter_err (validate_batch (Some class_origin) (map dc_call (pl_calls payload))).

(** The first call that does not succeed, with its index as [u8]. *)
Fixpoint first_failing (i : Z) (calls : list DispatchCall) : option DispatchOutcomeCode :=
  match calls with
  | [] => None
  | c :: calls => if dc_succeeds c then first_failing (i + 1) calls else Some (OutcomeFailed (wrap U8 i) (dc_error c))
  end.

Definition dispatch_batch (q : QueuedExecution) (payload : Payload) (now : BlockNumber) : XM DispatchOutcomeCode :=
  match first_failing 0 (pl_calls payload) with
  | Some outcome => ret outcome
  | None =>
      match head (filter (fun c => dc_domain c = GdInternalRootAuthorizeUpgrade) (pl_calls payload)) with
      | None => ret OutcomeOk
      | Some upgrade =>
          do! lift (ensure (is_upgrade_class (qe_class q)) GdBadUpgradePayload) in
          do! reads (fun g => ensure (is_none (eg_pending_upgrade g)) GdPendingUpgradeExists) in
          let! hash := lift (ok_or GdBadUpgradePayload (dc_upgrade_hash upgrade)) in
          let! target := lift (ok_or GdBadUpgradePayload (dc_target_spec_version upgrade)) in
          let! applicable_at := lift (ok_or GdOverflow (checked_add U32 now DESCRIPTOR_LEAD_TIME)) in
          do! modify (set_pending_upgrade (Some {| pu_hash := hash; pu_authorized_at := now;
                        pu_applicable_at := applicable_at; pu_target_spec_version := target |})) in
          do! modify (eg_push (GdUpgradeAuthorized hash now applicable_at)) in
          ret OutcomeOk
      end
  end.

End execution.

Section handoff.
Context {H : Type} `{!EpochHandoff H}.

Abbreviation HX A := (ST (ExecutionGuard * H) GuardError A).

Definition record_upgrade (pending : option PendingUpgrade) (g : ExecutionGuard) : ExecutionGuard :=
  match pending with
  | Some p => eg_push (GdUpgradeAuthorized (pu_hash p) (pu_authorized_at p) (pu_applicable_at p)) (set_pending_upgrade (Some p) g)
  | None => g
  end.

Definition complete_prevalidated (origin : GuardOrigin) (pid : ProposalId) (outcome : DispatchOutcomeCode)
    (now : BlockNumber) (upgrade : option UpgradeAuthorization) : HX unit :=
  do! lift (ensure (match origin with GdSigned => true | _ => false end) GdBadOrigin) in
  let! q := zoom_fst (reads (queued pid)) in
  let! pending := match upgrade with
                  | Some u =>
                      do! lift (ensure (is_upgrade_class (qe_class q)) GdBadUpgradePayload) in
                      do! zoom_fst (reads (fun g => ensure (is_none (eg_pending_upgrade g)) GdPendingUpgradeExists)) in
                      ret (Some {| pu_hash := ua_hash u; pu_authorized_at := now; pu_applicable_at := ua_applicable_at u;
                                   pu_target_spec_version := ua_target_spec_version u |})
                  | None => ret None
                  end in
  match outcome with
  | OutcomeOk =>
      do! zoom_snd (eh_mark_executed pid) in
      let record := record_of q pid now outcome in
      zoom_fst
        (do! modify (push_record record) in
         do! modify (drop_queued pid) in
         do! modify (drop_resources pid) in
         do! modify (record_upgrade pending) in
         do! modify (eg_push (GdPreimageUnpinned pid (qe_payload_hash q))) in
         modify (eg_push (GdExecuted pid record)))
  | OutcomeFailed _ _ =>
      let first_failure := is_none (qe_failed_at q) in
      do! (if first_failure then zoom_snd (eh_mark_failed_executed pid) else ret tt) in
      zoom_fst
        (do! modify (push_record (record_of q pid now outcome)) in
         do! (if first_failure then modify (queue_mut pid (set_failed_at (Some now))) else ret tt) in
         modify (eg_push (GdExecutionFailed pid outcome)))
  end.

Definition execute_with `{!PayloadCodec} {G T : Type} `{!GuardianView G} `{!AttestationView T} (origin : GuardOrigin)
    (guardian : G) (attestors : T) (pid : ProposalId) (payload : Payload) (now : BlockNumber) : HX unit :=
  do! lift (ensure (match origin with GdSigned => true | _ => false end) GdBadOrigin) in
  let! q := zoom_fst (reads (queued pid)) in
  do! zoom_fst (reads (check_dispatch_time_with q guardian attestors payload now)) in
  let! outcome := zoom_fst (dispatch_batch q payload now) in
  complete_prevalidated origin pid outcome now None.

Definition expire_failed_execution_with (origin : GuardOrigin) (pid : ProposalId) (now : BlockNumber) : HX unit :=
  do! lift (ensure (match origin with GdSigned => true | _ => false end) GdBadOrigin) in
  let! q := zoom_fst (reads (queued pid)) in
  let! failed_at := lift (ok_or GdNotFound (qe_failed_at q)) in
  do! lift (ensure (sat_add U32 failed_at RETRY_WINDOW <? now) GdRetryWindowOpen) in
  do! zoom_snd (eh_retry_exhausted pid) in
  zoom_fst (modify (dequeue_terminal pid)).

Definition reject_stale_or_unratified_with (pid : ProposalId) (reason : RejectReason) : HX unit :=
  do! lift (ensure (match reason with StaleQueue | NotRatified | AttestationMissing => true | _ => false end) GdStaleQueue) in
  do! zoom_snd (eh_reject_or_stale pid reason) in
  zoom_fst
    (do! modify (dequeue_terminal pid) in
     modify (eg_push (GdRejected pid reason))).

End handoff.

(** ** Views and the state checker *)

Definition ratification_status (q : QueuedExecution) : RatificationStatus :=
  if requires_ratification (qe_class q) then
    match qe_ratify_ref q with
    | Some referendum => if qe_ratification_passed q then RatPassed referendum else RatNoPassedRecord
    | None => RatNoPassedRecord
    end
  else RatNotRequired.

Definition guard_view (g : ExecutionGuard) : list QueuedExecutionView :=
  map (fun q => {| qv_pid := qe_pid q; qv_class := qe_class q; qv_payload_hash := qe_payload_hash q;
                   qv_maturity := qe_maturity q; qv_grace_end := qe_grace_end q;
                   qv_version_constraint := qe_version_constraint q; qv_cancelled := qe_cancelled q;
                   qv_ratification := ratification_status q; qv_meters_clear := true |}) (eg_queue g).

Definition guard_try_state (g : ExecutionGuard) : Result GuardError unit :=
  do? ensure (length (eg_queue g) <=? MAX_QUEUE)%nat GdQueueFull in
  do? ensure (length (eg_records g) <=? MAX_EXECUTION_RECORDS)%nat GdQueueFull in
  for_each (fun q =>
    do? ensure (qe_payload_len q <=? MAX_PAYLOAD_BYTES) GdPayloadTooLarge in
    do? ensure (length (qe_meters_declared q) <=? MAX_RESOURCE_LOCKS)%nat GdTooManyLocks in
    ensure (length (qe_declared_domains q) <=? MAX_DECLARED_DOMAINS)%nat GdTooManyDomains) (eg_queue g).
