(* ===== verification/ExecCheck.v ===== *)
(** * What the dispatch-time check demands

    The declarative reading of the guard's ordered check, and the exactness of
    the code's. The order of the checks decides only which error is reported. *)

From S2P Require Import Prelude Keyed Primitives Ledger Proposals Epoch EpochDecide EpochCalls EpochEngine EpochClock EpochSettle EpochSystem EpochInv EpochOps EpochSteps EpochTick EpochCohorts EpochVaults EpochJoint EpochJointSystem Guardian Origins Attestor ExecGuard.

Section check.
Context `{!PayloadCodec} {G T : Type} `{!GuardianView G} `{!AttestationView T}.

(** The last block at which a queued proposal may still be executed: the end
    of the grace period, or of the retry window once it failed. *)
Definition last_chance (q : QueuedExecution) : BlockNumber :=
  match qe_failed_at q with
  | None => qe_grace_end q
  | Some f => sat_add U32 f RETRY_WINDOW
  end.

(** The calls are the committed ones and of the committed size. *)
Definition committed (q : QueuedExecution) (payload : Payload) : Prop :=
  hash_payload (pl_calls payload) = qe_payload_hash q
  /\ sum_by dc_encoded_len (pl_calls payload) = qe_payload_len q
  /\ qe_payload_len q <= MAX_PAYLOAD_BYTES.

(** Every call, and every call inside it, is one the class may make, from
    declared domains. *)
Definition capable (q : QueuedExecution) (payload : Payload) : Prop :=
  exists origin, from_proposal_class (qe_class q) = Some origin
  /\ (forall c, c ∈ pl_calls payload -> dc_domain c ∈ qe_declared_domains q /\ domain_allowed (qe_class q) (dc_domain c) = true)
  /\ (forall c o p n, c ∈ map dc_call (pl_calls payload) -> visits (Some origin) false c o p n -> node_ok o p n)
  /\ (forall c, c ∈ map dc_call (pl_calls payload) -> call_levels c <= 4)
  /\ sum_by call_count (map dc_call (pl_calls payload)) <= 16.

Record executable (q : QueuedExecution) (guardian : G) (attestors : T) (payload : Payload) (now : BlockNumber)
    (g : ExecutionGuard) : Prop := {
  ex_live : qe_cancelled q = false;
  ex_window : qe_maturity q <= now <= last_chance q;
  ex_committed : committed q payload;
  ex_version : qe_version_constraint q = eg_current_spec g;
  ex_ratified : requires_ratification (qe_class q) = true -> qe_ratification_passed q = true;
  ex_attested : is_upgrade_class (qe_class q) = true ->
    exists id, qe_attestation_id q = Some id
      /\ av_present_and_quorate (qe_pid q) (qe_payload_hash q) id now attestors = true;
  ex_locked : forall r, r ∈ qe_meters_declared q -> (qe_pid q, r) ∈ eg_held_resources g;
  ex_guardian : gv_rerun_held (qe_pid q) guardian = false /\ gv_gate_suspended guardian = false
    /\ gv_ledger_freeze_active now guardian = false;
  ex_flags : eg_hard_gate_breach g = false /\ eg_dead_man_freeze g = false /\ eg_migration_halt g = false;
  ex_capable : capable q payload;
}.

Lemma total_len_iff calls t :
  (forall c, c ∈ calls -> 0 <= dc_encoded_len c) -> t <= MAX_PAYLOAD_BYTES ->
  try_fold (fun acc c => ok_or GdOverflow (checked_add U32 acc (dc_encoded_len c))) 0 calls = Ok t
  <-> sum_by dc_encoded_len calls = t.
Proof.
  intros Hn Ht. split.
  - by intros ->%try_fold_checked.
  - intros E. rewrite try_fold_sum; [f_equal; lia|done|lia|].
    rewrite E. unfold MAX_PAYLOAD_BYTES in *. lia.
Qed.

Lemma length_le_calls (calls : list RuntimeCall) : Z.of_nat (length calls) <= sum_by call_count calls.
Proof. induction calls as [|c l IH]; cbn [length sum_by]; [lia|]. pose proof (call_count_pos c). lia. Qed.

Lemma rbind_unit {E R} (m : Result E unit) (k : Result E R) x : rbind m (fun _ => k) = Ok x <-> m = Ok tt /\ k = Ok x.
Proof. destruct m as [[]|e]; cbn; naive_solver. Qed.

Lemma if_ensure_iff {E} (b : bool) (m : Result E unit) (P : Prop) :
  (m = Ok tt <-> P) -> (if b then m else Ok tt) = Ok tt <-> (b = true -> P).
Proof. destruct b; naive_solver. Qed.

Lemma attested_iff q (attestors : T) now :
  (let? id := ok_or GdAttestationMissing (qe_attestation_id q) in
   ensure (av_present_and_quorate (qe_pid q) (qe_payload_hash q) id now attestors) GdAttestationMissing) = Ok tt
  <-> exists id, qe_attestation_id q = Some id
      /\ av_present_and_quorate (qe_pid q) (qe_payload_hash q) id now attestors = true.
Proof.
  destruct (qe_attestation_id q) as [id|]; cbn; [rewrite ensure_Ok|]; naive_solver.
Qed.

Lemma capable_iff q payload :
  (let? class_origin := ok_or GdCapabilityDenied (from_proposal_class (qe_class q)) in
   do? for_each (fun c =>
        do? ensure (bool_decide (dc_domain c ∈ qe_declared_domains q)) GdBadDomainDeclaration in
        ensure (domain_allowed (qe_class q) (dc_domain c)) GdCapabilityDenied) (pl_calls payload) in
   map_err filter_err (validate_batch (Some class_origin) (map dc_call (pl_calls payload)))) = Ok tt
  <-> capable q payload.
Proof.
  unfold capable. destruct (from_proposal_class (qe_class q)) as [o|]; cbn [ok_or rbind]; [|naive_solver].
  rewrite rbind_unit, for_each_Ok, map_err_Ok, batch_accepts. setoid_rewrite rbind_unit. setoid_rewrite ensure_Ok.
  setoid_rewrite bool_decide_eq_true. naive_solver.
Qed.

Lemma window_iff q now :
  match qe_failed_at q with
  | None => ensure (now <=? qe_grace_end q) GdGraceExpired
  | Some f => ensure (now <=? sat_add U32 f RETRY_WINDOW) GdGraceExpired
  end = Ok tt <-> now <= last_chance q.
Proof. unfold last_chance. destruct (qe_failed_at q); by rewrite ensure_Ok, Z.leb_le. Qed.

Lemma sized_iff q payload (k : Result GuardError unit) :
  (forall c, c ∈ pl_calls payload -> 0 <= dc_encoded_len c) ->
  (let? total_len := try_fold (fun acc c => ok_or GdOverflow (checked_add U32 acc (dc_encoded_len c))) 0 (pl_calls payload) in
   do? ensure ((total_len =? qe_payload_len q) && (total_len <=? MAX_PAYLOAD_BYTES)) GdPayloadTooLarge in k) = Ok tt
  <-> (sum_by dc_encoded_len (pl_calls payload) = qe_payload_len q /\ qe_payload_len q <= MAX_PAYLOAD_BYTES) /\ k = Ok tt.
Proof.
  intros Hn. rewrite rbind_Ok. setoid_rewrite rbind_unit. setoid_rewrite ensure_Ok.
  setoid_rewrite andb_true_iff. setoid_rewrite Z.eqb_eq. setoid_rewrite Z.leb_le. split.
  - intros (t & Ht & [-> Hle] & Hk). by rewrite total_len_iff in Ht.
  - intros [[E Hle] Hk]. exists (qe_payload_len q). by rewrite total_len_iff.
Qed.

(** The check of the code is that reading. *)
Lemma check_exact q guardian attestors payload now g :
  (forall c, c ∈ pl_calls payload -> 0 <= dc_encoded_len c) ->
  check_dispatch_time_with q guardian attestors payload now g = Ok tt
  <-> executable q guardian attestors payload now g.
Proof.
  intros Hn. unfold check_dispatch_time_with.
  rewrite !rbind_unit, (sized_iff q payload _ Hn), capable_iff, window_iff, !ensure_Ok.
  rewrite (if_ensure_iff _ _ _ (attested_iff _ _ _)), (if_ensure_iff _ _ _ (ensure_Ok _ _ _)).
  rewrite !andb_true_iff, !negb_true_iff, Z.eqb_eq, !Z.leb_le, Nat.leb_le, bool_decide_eq_true.
  rewrite forallb_elem. setoid_rewrite bool_decide_eq_true. split.
  - intros (Hl & Hm & Hw & [Hh Hs] & Hv & Hr & Ha & Hk & Hg & Hg' & Hz & [[Hf Hf'] Hf''] & _ & [Hsum _] & Hc).
    by constructor.
  - intros [Hl [Hm Hw] (Hh & Hsum & Hs) Hv Hr Ha Hk (Hg & Hg' & Hz) (Hf & Hf' & Hf'') Hc]. split_and!; try done.
    destruct Hc as (o & _ & _ & _ & _ & Hn'). pose proof (length_le_calls (map dc_call (pl_calls payload))) as Hle.
    rewrite length_map in Hle. unfold MAX_CALLS. lia.
Qed.

End check.

(** ** What an execution does *)

(** [None] when every call succeeds; else the first that does not. *)
Lemma first_failing_None i calls : first_failing i calls = None <-> forall c, c ∈ calls -> dc_succeeds c = true.
Proof.
  revert i. induction calls as [|c l IH]; intros i; cbn.
  - split; [by intros _ c ?%elem_of_nil|done].
  - destruct (dc_succeeds c) eqn:E; [rewrite IH|]; split; intros Hall; [|intros d Hd; apply Hall; by right|done|].
    + intros d [->|Hd]%elem_of_cons; auto.
    + by rewrite Hall in E by left.
Qed.

Lemma first_failing_Some i calls outcome :
  first_failing i calls = Some outcome <->
  exists pre c post, calls = pre ++ c :: post /\ (forall c', c' ∈ pre -> dc_succeeds c' = true) /\ dc_succeeds c = false
    /\ outcome = OutcomeFailed (wrap U8 (i + Z.of_nat (length pre))) (dc_error c).
Proof.
  revert i. induction calls as [|c l IH]; intros i; cbn.
  - split; [done|]. by intros ([|] & ? & ? & ? & _).
  - destruct (dc_succeeds c) eqn:E.
    + rewrite IH. split.
      * intros (pre & d & post & -> & Hp & Hd & ->). exists (c :: pre), d, post. split_and!; [done| |done|].
        -- intros c' [->|Hin]%elem_of_cons; auto.
        -- cbn [length]. f_equal. f_equal. lia.
      * intros ([|c' pre] & d & post & Heq & Hp & Hd & ->); simplify_eq/=; [congruence|].
        exists pre, d, post. split_and!; [done| |done|f_equal; f_equal; lia]. intros c'' Hin. apply Hp. by right.
    + split.
      * intros [= <-]. exists [], c, l. split_and!; [done|by intros ? ?%elem_of_nil|done|]. cbn. by rewrite Z.add_0_r.
      * intros ([|c' pre] & d & post & Heq & Hp & Hd & ->); simplify_eq/=; [by rewrite Z.add_0_r|].
        rewrite (Hp c') in E; [done|by left].
Qed.

(** ** The execution guard on the epoch core and the ledger

    The in-memory handoff of the guard to the epoch core, and the system of
    the guard, the epoch core, its ledger and welfare: the guard's calls, the
    shell's calls into the epoch core and the ledger's own life, interleaved
    in any order. *)

Section handoff.
Context {A : Type} `{EqDecision A} {X : Type} `{!EpochLedger X}.

(** [struct InMemoryEpochHandoff] *)
#[export] Instance in_memory_handoff : EpochHandoff (EpochState A * X) := {|
  eh_mark_executed pid := map_err_st (fun _ => GdDispatchFailed) (mark_executed OrExecutionGuard pid);
  eh_mark_failed_executed pid := map_err_st (fun _ => GdDispatchFailed) (zoom_fst (mark_failed_executed OrExecutionGuard pid));
  eh_retry_exhausted pid := map_err_st (fun _ => GdDispatchFailed) (retry_exhausted_to_measurement OrExecutionGuard pid);
  eh_reject_or_stale pid reason :=
    map_err_st (fun _ => GdStaleQueue) (expire_or_stale_queue OrExecutionGuard pid (Some reason));
|}.

Abbreviation HX R := (ST (ExecutionGuard * (EpochState A * X)) GuardError R).

(** The entry points over the in-memory adapters. *)
Definition execute `{!PayloadCodec} (origin : GuardOrigin) (guardian : Guardian) (attestors : AttestorRegistry)
    (pid : ProposalId) (payload : Payload) (now : BlockNumber) : HX unit :=
  fun st => execute_with origin (guardian, eg_gate_suspended st.1) attestors pid payload now st.

Definition expire_failed_execution (origin : GuardOrigin) (pid : ProposalId) (now : BlockNumber) : HX unit :=
  expire_failed_execution_with origin pid now.

Definition reject_stale_or_unratified (pid : ProposalId) (reason : RejectReason) : HX unit :=
  reject_stale_or_unratified_with pid reason.

End handoff.

Ltac split_states :=
  repeat match goal with x : (EpochState _ * _)%type |- _ => destruct x end; cbn [fst snd] in *; simplify_eq.

Ltac inv_zoom :=
  match goal with
  | H : zoom_fst _ _ = (Ok _, _) |- _ => apply zoom_fst_Ok in H; destruct H as [H ?]
  | H : zoom_snd _ _ = (Ok _, _) |- _ => apply zoom_snd_Ok in H; destruct H as [H ?]
  | H : map_err_st _ _ _ = (Ok _, _) |- _ => apply map_err_st_Ok in H
  | x : (ExecutionGuard * _)%type |- _ => destruct x
  | x : unit |- _ => destruct x
  end.

(** A successful run of a call of the guard, down to its parts. *)
Ltac inv_guard :=
  repeat (inv_all; cbn [fst snd eh_mark_executed eh_mark_failed_executed eh_retry_exhausted eh_reject_or_stale
                        in_memory_handoff] in *; try inv_zoom); simplify_eq.

Section system.
Context {A : Type} `{EqDecision A} {X Y : Type} `{!EpochLedger X} `{!EpochLedgerLaws X} `{!WelfareOps Y} `{!PayloadCodec}.
Variable spec_of : EpochId -> MetricSpecVersion.
Variable env : X -> X -> Prop.

(** Calls that concern the guard alone, with the pallet's writes to its flags
    and resource locks. *)
Inductive GuardOwnCall : Type :=
| XEnqueue (origin : GuardOrigin) (item : QueuedExecution)
| XBind (pid : ProposalId) (referendum : Z)
| XRatify (origin : GuardOrigin) (pid : ProposalId) (referendum : Z)
| XDequeueTerminal (pid : ProposalId)
| XDequeueRerun (pid : ProposalId)
| XApply (origin : GuardOrigin) (code : list Z) (observed : Z) (now : BlockNumber)
| XCompleteUpgrade (origin : GuardOrigin) (code_hash : H256) (observed : Z) (now : BlockNumber)
| XRecovery (code_hash : H256) (target : Z)
| XSetLocks (locks : list (ProposalId * ResourceKey))
| XSetFlags (gate hard dead migration : bool).

Definition set_guard_flags (gate hard dead migration : bool) (g : ExecutionGuard) : ExecutionGuard :=
  {| eg_queue := eg_queue g; eg_records := eg_records g; eg_pending_upgrade := eg_pending_upgrade g;
     eg_current_spec := eg_current_spec g; eg_held_resources := eg_held_resources g; eg_gate_suspended := gate;
     eg_hard_gate_breach := hard; eg_dead_man_freeze := dead; eg_migration_halt := migration; eg_events := eg_events g |}.

Definition guard_own (c : GuardOwnCall) : ST ExecutionGuard GuardError unit :=
  match c with
  | XEnqueue o item => enqueue o item
  | XBind pid r => bind_ratification pid r
  | XRatify o pid r => ratify o pid r
  | XDequeueTerminal pid => modify (dequeue_terminal pid)
  | XDequeueRerun pid => modify (dequeue_for_rerun pid)
  | XApply o code observed now => apply_authorized_upgrade o code observed now
  | XCompleteUpgrade o h observed now => complete_upgrade_application o h observed now
  | XRecovery h target => complete_recovery_application h target
  | XSetLocks locks => modify (set_held_resources locks)
  | XSetFlags gate hard dead migration => modify (set_guard_flags gate hard dead migration)
  end.

(** Calls that hand over to the epoch core. *)
Inductive GuardJointCall : Type :=
| XExecute (origin : GuardOrigin) (guardian : Guardian) (attestors : AttestorRegistry) (pid : ProposalId)
    (payload : Payload) (now : BlockNumber)
| XComplete (origin : GuardOrigin) (pid : ProposalId) (outcome : DispatchOutcomeCode) (now : BlockNumber)
    (upgrade : option UpgradeAuthorization)
| XExpire (origin : GuardOrigin) (pid : ProposalId) (now : BlockNumber)
| XReject (pid : ProposalId) (reason : RejectReason).

Definition guard_joint (c : GuardJointCall) : ST (ExecutionGuard * (EpochState A * X)) GuardError unit :=
  match c with
  | XExecute o gu att pid payload now => execute o gu att pid payload now
  | XComplete o pid outcome now up => complete_prevalidated o pid outcome now up
  | XExpire o pid now => expire_failed_execution o pid now
  | XReject pid reason => reject_stale_or_unratified pid reason
  end.

Abbreviation SystemState := (ExecutionGuard * (EpochState A * X * Y))%type (only parsing).

Inductive guard_step (st st' : SystemState) : Prop :=
| step_own c g' : guard_own c st.1 = (Ok tt, g') -> st' = (g', st.2) -> guard_step st st'
| step_guard c g' sx' : guard_joint c (st.1, st.2.1) = (Ok tt, (g', sx')) -> st' = (g', (sx', st.2.2)) -> guard_step st st'
| step_world w' : joint_step spec_of env st.2 w' -> st' = (st.1, w') -> guard_step st st'.

Inductive guard_reachable : SystemState -> Prop :=
| guard_new spec x y : el_inv x -> guard_reachable (ExecutionGuard_new spec, (EpochState_new, x, y))
| guard_next st st' : guard_reachable st -> guard_step st st' -> guard_reachable st'.

(** ** Marking an execution closes an open vault *)

Lemma rejected_void_closes pid p s x (st' : EpochState A * X) u :
  el_inv x -> lk s pid = Some p -> is_none (pp_markets p) = false -> is_force_rejectable_state (pp_state p) = true ->
  force_reject_process_hold OrKeeper pid (s, x) = (Ok u, st') -> closed_vault (vault_of st'.2) pid.
Proof.
  intros Hx Hp Hb Hf Hm. unfold force_reject_process_hold in Hm. inv_ep. split_states. same_proposal.
  rewrite Hf, Hb in *. cbn [negb] in *. inv_ep. split_states.
  match goal with Hv : el_void _ _ = _ |- _ => apply law_void in Hv as (_ & v & spec & _ & _ & HV); [|done] end.
  exists Voided, spec. rewrite HV. unfold put. by rewrite decide_True.
Qed.

Lemma mark_executed_opens pid (sx sx' : EpochState A * X) :
  EInv spec_of sx.1 -> sound sx -> mark_executed OrExecutionGuard pid sx = (Ok tt, sx') ->
  (exists spec, vault_of sx.2 pid = Some (Open, spec)) /\ closed_vault (vault_of sx'.2) pid.
Proof.
  intros Hi Hs Hm. destruct sx as [s x]. unfold mark_executed in Hm. inv_ep. split_states. rename select (Proposal A) into p.
  match goal with Hp : lk s pid = Some p |- _ => rename Hp into Hp0 end.
  assert (pp_state p = Queued \/ pp_state p = FailedExecuted) as Hst by (destruct (pp_state p); auto; done).
  destruct Hs as [Hx Hf]. cbn [fst snd] in *.
  destruct (queued_facts spec_of (vault_of x) s pid p Hi Hf Hp0 Hst) as [Hbooks _].
  pose proof (Hf pid p Hp0 Hbooks) as Hb. rewrite (lk_id _ _ _ Hp0) in Hb.
  split; [exists (pp_metric_spec p); by destruct Hst as [E|E]; rewrite E in Hb; destruct Hb|].
  match goal with Hv : force_reject_if_cohort_void _ _ = _ |- _ => unfold force_reject_if_cohort_void in Hv; inv_ep; split_states end.
  same_proposal. destruct (negb _); inv_ep; split_states.
  - unfold resolve_and_measure in Hm. inv_ep. split_states.
    match goal with Hr : el_resolve _ _ _ = _ |- _ => apply law_resolve in Hr as (_ & spec & _ & HV); [|done] end.
    exists (Resolved Accept), spec. rewrite HV. unfold put. by rewrite decide_True.
  - match goal with Hr : force_reject_process_hold _ _ _ = _ |- _ => eapply rejected_void_closes in Hr; [|done..|]; [done|] end.
    by destruct Hst as [-> | ->].
Qed.

(** ** What the guard's calls do *)

Definition executed (l : list GuardEvent) : list ProposalId :=
  omap (fun e => match e with GdExecuted pid _ => Some pid | _ => None end) l.

Lemma executed_app l l' : executed (l ++ l') = executed l ++ executed l'.
Proof. apply omap_app. Qed.

Lemma guard_own_quiet c g g' : guard_own c g = (Ok tt, g') -> executed (eg_events g') = executed (eg_events g).
Proof.
  intros Hc. destruct c; cbn [guard_own] in Hc.
  - unfold enqueue in Hc. inv_all. cbn. by rewrite executed_app, app_nil_r.
  - unfold bind_ratification in Hc. by inv_all.
  - unfold ratify in Hc. inv_all. cbn. by rewrite executed_app, app_nil_r.
  - inv_all. unfold dequeue_terminal. destruct (find_key _ _ _); cbn; by rewrite ?executed_app, ?app_nil_r.
  - by inv_all.
  - unfold apply_authorized_upgrade in Hc. inv_all. cbn. by rewrite executed_app, app_nil_r.
  - unfold complete_upgrade_application in Hc. inv_all. cbn. by rewrite executed_app, app_nil_r.
  - unfold complete_recovery_application in Hc. inv_all.
    match goal with Hr : match ?o with _ => _ end _ = _ |- _ => destruct o end; inv_all; cbn; by rewrite executed_app, app_nil_r.
  - by inv_all.
  - by inv_all.
Qed.

(** A handoff to the epoch core is one of the shell's calls. *)
Definition hands_over (sx sx' : EpochState A * X) : Prop :=
  sx' = sx \/ exists c, (forall s, call_ok spec_of c s) /\ forall y : Y, epoch_exec c (sx, y) = (Ok tt, (sx', y)).

Lemma zoom_hands (m : ST (EpochState A * X) EpochError unit) c sx sx' :
  (forall s, call_ok spec_of c s) -> epoch_exec (Y := Y) c = zoom_fst m -> m sx = (Ok tt, sx') -> hands_over sx sx'.
Proof.
  intros Hok E Hm. right. exists c. split; [done|]. intros y. rewrite E. by apply zoom_fst_Ok.
Qed.

(** One joint call: an execution is marked and logged, once; or nothing is. *)
Inductive joint_effect (g g' : ExecutionGuard) (sx sx' : EpochState A * X) : Prop :=
| effect_executed pid : mark_executed OrExecutionGuard pid sx = (Ok tt, sx') ->
    executed (eg_events g') = executed (eg_events g) ++ [pid] -> joint_effect g g' sx sx'
| effect_quiet : executed (eg_events g') = executed (eg_events g) -> hands_over sx sx' -> joint_effect g g' sx sx'.

Lemma complete_effect o pid outcome now up g g' sx sx' u :
  complete_prevalidated o pid outcome now up (g, sx) = (Ok u, (g', sx')) -> joint_effect g g' sx sx'.
Proof.
  intros Hc. unfold complete_prevalidated in Hc. inv_guard.
  assert ((e, p) = (g, sx)) as [= -> ->]. { clear Hc. destruct up; inv_guard; done. }
  destruct outcome as [|i err]; inv_guard.
  - eapply effect_executed; [done|]. destruct x3; cbn; by rewrite !executed_app, ?app_nil_r.
  - destruct (is_none _); inv_guard.
    + apply effect_quiet; [cbn; by rewrite executed_app, app_nil_r|].
      apply (zoom_hands (zoom_fst (mark_failed_executed OrExecutionGuard pid)) (CallMarkFailed pid)); [done..|].
      by apply zoom_fst_Ok.
    + apply effect_quiet; [cbn; by rewrite executed_app, app_nil_r|by left].
Qed.

Lemma dispatch_quiet `{!PayloadCodec} q payload now g outcome g' :
  dispatch_batch q payload now g = (Ok outcome, g') -> executed (eg_events g') = executed (eg_events g).
Proof.
  intros Hd. unfold dispatch_batch in Hd. destruct (first_failing _ _); [by inv_all|].
  destruct (head _); inv_all; [|done]. cbn. by rewrite executed_app, app_nil_r.
Qed.

Lemma guard_joint_effect c g g' sx sx' :
  guard_joint c (g, sx) = (Ok tt, (g', sx')) -> joint_effect g g' sx sx'.
Proof.
  intros Hc. destruct c; cbn [guard_joint] in Hc.
  - unfold execute, execute_with in Hc. inv_guard.
    match goal with Hd : dispatch_batch _ _ _ _ = _ |- _ => apply dispatch_quiet in Hd; rename Hd into Eq end.
    match goal with Hp : complete_prevalidated _ _ _ _ _ _ = _ |- _ => apply complete_effect in Hp end.
    match goal with He : joint_effect _ _ _ _ |- _ => destruct He as [p Hm E|E Hh]; rewrite Eq in E; [by eapply effect_executed|by apply effect_quiet] end.
  - by eapply complete_effect.
  - unfold expire_failed_execution, expire_failed_execution_with in Hc. inv_guard. apply effect_quiet.
    + unfold dequeue_terminal. destruct (find_key _ _ _); cbn; by rewrite ?executed_app, ?app_nil_r.
    + by apply (zoom_hands (retry_exhausted_to_measurement OrExecutionGuard pid) (CallRetryExhausted pid)).
  - unfold reject_stale_or_unratified, reject_stale_or_unratified_with in Hc. inv_guard. apply effect_quiet.
    + unfold dequeue_terminal. destruct (find_key _ _ _); cbn; by rewrite ?executed_app, ?app_nil_r.
    + by apply (zoom_hands (expire_or_stale_queue OrExecutionGuard pid (Some reason)) (CallExpire pid (Some reason))).
Qed.

(** ** The invariant *)

Hypothesis env_calm : forall x x', el_inv x -> env x x' -> el_inv x' /\ calm (vault_of x) (vault_of x').

(** The world is one the joint system reaches; an execution is logged at most
    once per proposal, and its vault is closed. *)
Record guard_ok (st : SystemState) : Prop := {
  go_world : joint_reachable spec_of env st.2;
  go_once : NoDup (executed (eg_events st.1));
  go_closed : forall pid, pid ∈ executed (eg_events st.1) -> closed_vault (vault_of st.2.1.2) pid;
}.

Lemma joint_inv (w : EpochState A * X * Y) : joint_reachable spec_of env w -> el_inv w.1.2.
Proof. intros Hw. by destruct (joint_keeps spec_of env env_calm w Hw) as [_ [? _]]. Qed.

Lemma guard_world_moves g g' (w w' : EpochState A * X * Y) :
  guard_ok (g, w) -> executed (eg_events g') = executed (eg_events g) ->
  joint_reachable spec_of env w' -> stays_closed w.1.2 w'.1.2 -> guard_ok (g', w').
Proof.
  intros [Hw Hn Hc] E Hw' Hs. destruct (Hs (joint_inv _ Hw)) as [_ Hs']. constructor; cbn [fst snd] in *; [done| |].
  - by rewrite E.
  - intros pid Hin. rewrite E in Hin. auto.
Qed.

Lemma hands_over_moves sx sx' (y : Y) :
  joint_reachable spec_of env (sx, y) -> hands_over sx sx' ->
  joint_reachable spec_of env (sx', y) /\ stays_closed sx.2 sx'.2.
Proof.
  intros Hw [->|(c & Hok & Hc)]; [split; [done|apply stays_closed_refl]|]. split.
  - eapply joint_next; [exact Hw|]. apply joint_epoch. econstructor; [apply Hok|apply Hc].
  - apply (epoch_exec_closes (Y := Y) c (sx, y) (sx', y)), Hc.
Qed.

Lemma guard_step_ok st st' : guard_ok st -> guard_step st st' -> guard_ok st'.
Proof.
  intros Hg Hs. destruct st as [g [[s x] y]]. destruct Hs as [c g' Hc ->|c g' sx' Hc ->|w' Hw ->]; cbn [fst snd] in *.
  - eapply guard_world_moves; [exact Hg|by eapply guard_own_quiet|apply Hg|apply stays_closed_refl].
  - apply guard_joint_effect in Hc as [pid Hm E|E Hh].
    + pose proof (go_world _ Hg) as Hr. destruct (joint_keeps spec_of env env_calm _ Hr) as [Hi Hso].
      destruct (mark_executed_opens pid (s, x) sx' Hi Hso Hm) as [[spec Ho] Hcl].
      destruct (hands_over_moves (s, x) sx' y Hr) as [Hw' Hk].
      { by apply (zoom_hands (mark_executed OrExecutionGuard pid) (CallMarkExecuted pid)). }
      destruct (Hk (joint_inv _ Hr)) as [_ Hk']. destruct Hg as [_ Hn Hc]. cbn [fst snd] in *.
      constructor; cbn [fst snd]; [done|rewrite E..].
      * apply NoDup_app. split_and!; [done| |apply NoDup_singleton].
        intros q Hq ->%list_elem_of_singleton. destruct (Hc _ Hq) as (v & sp & Hv & Hne). congruence.
      * intros q [Hq| ->%list_elem_of_singleton]%elem_of_app; [by apply Hk', Hc|done].
    + destruct (hands_over_moves (s, x) sx' y (go_world _ Hg) Hh) as [Hw' Hk].
      by eapply guard_world_moves.
  - eapply guard_world_moves; [exact Hg|done|by eapply joint_next; [apply Hg|]|].
    by eapply (joint_step_closes spec_of env (s, x, y) w').
Qed.

Lemma guard_reachable_ok st : guard_reachable st -> guard_ok st.
Proof.
  induction 1 as [spec x y Hx|st st' _ IH Hs]; [|by eapply guard_step_ok].
  constructor; cbn; [by apply joint_new|apply NoDup_nil_2|by intros ? ?%elem_of_nil].
Qed.

End system.

(** ** What an execution does

    The two outcomes of a successful [execute], against any handoff: every
    call succeeded and the proposal leaves the queue, executed; or one call
    failed, and the proposal waits for a retry from its first failure. *)

Section generic.
Context {codec : PayloadCodec} {S G T : Type} `{!EpochHandoff S} `{!GuardianView G} `{!AttestationView T}.

(** What a run of the guard's [execute] did with the queued [q]. *)
Inductive execution (q : QueuedExecution) (payload : Payload) (now : BlockNumber) (g g' : ExecutionGuard) (h h' : S) : Prop :=
| execution_success :
    (forall c, c ∈ pl_calls payload -> dc_succeeds c = true) ->
    eh_mark_executed (qe_pid q) h = (Ok tt, h') ->
    qe_pid q ∉ keys qe_pid (eg_queue g') ->
    executed (eg_events g') = executed (eg_events g) ++ [qe_pid q] ->
    last (eg_records g') = Some (record_of q (qe_pid q) now OutcomeOk) ->
    execution q payload now g g' h h'
| execution_reverted pre c post :
    pl_calls payload = pre ++ c :: post ->
    (forall c', c' ∈ pre -> dc_succeeds c' = true) -> dc_succeeds c = false ->
    (if qe_failed_at q then h' = h else eh_mark_failed_executed (qe_pid q) h = (Ok tt, h')) ->
    find_key qe_pid (qe_pid q) (eg_queue g') = Some (set_failed_at (Some (default now (qe_failed_at q))) q) ->
    eg_pending_upgrade g' = eg_pending_upgrade g ->
    executed (eg_events g') = executed (eg_events g) ->
    last (eg_records g') = Some (record_of q (qe_pid q) now (OutcomeFailed (Z.of_nat (length pre)) (dc_error c))) ->
    execution q payload now g g' h h'.

Lemma dispatch_run q payload now g outcome g1 :
  dispatch_batch q payload now g = (Ok outcome, g1) ->
  eg_queue g1 = eg_queue g /\ executed (eg_events g1) = executed (eg_events g)
  /\ match first_failing 0 (pl_calls payload) with
     | Some o => outcome = o /\ eg_pending_upgrade g1 = eg_pending_upgrade g
     | None => outcome = OutcomeOk
     end.
Proof.
  intros Hd. unfold dispatch_batch in Hd. destruct (first_failing _ _); [by inv_all|].
  destruct (head _); inv_all; [|done]. cbn. by rewrite executed_app, app_nil_r.
Qed.

Lemma last_record r g : last (eg_records (push_record r g)) = Some r.
Proof. unfold push_record. cbn. apply last_snoc. Qed.

Lemma queued_find pid g q : queued pid g = Ok q <-> find_key qe_pid pid (eg_queue g) = Some q.
Proof. unfold queued. destruct (find_key _ _ _); cbn; naive_solver. Qed.

Lemma dropped pid l : pid ∉ keys qe_pid (filter (fun q => qe_pid q <> pid) l).
Proof. intros (q & [Hne _]%list_elem_of_filter & E)%elem_of_keys. congruence. Qed.

Lemma complete_success origin q now g g' h h' u :
  complete_prevalidated origin (qe_pid q) OutcomeOk now None (g, h) = (Ok u, (g', h')) ->
  find_key qe_pid (qe_pid q) (eg_queue g) = Some q ->
  eh_mark_executed (qe_pid q) h = (Ok tt, h')
  /\ qe_pid q ∉ keys qe_pid (eg_queue g')
  /\ executed (eg_events g') = executed (eg_events g) ++ [qe_pid q]
  /\ last (eg_records g') = Some (record_of q (qe_pid q) now OutcomeOk).
Proof.
  intros Hc Hq. unfold complete_prevalidated in Hc. inv_guard.
  match goal with Hx : queued _ _ = _ |- _ => rewrite queued_find, Hq in Hx; injection Hx as <- end.
  split_and!; [done|apply dropped| |apply last_record].
  cbn. by rewrite !executed_app, app_nil_r.
Qed.

Lemma complete_reverted origin q i err now g g' h h' u :
  complete_prevalidated origin (qe_pid q) (OutcomeFailed i err) now None (g, h) = (Ok u, (g', h')) ->
  find_key qe_pid (qe_pid q) (eg_queue g) = Some q ->
  (if qe_failed_at q then h' = h else eh_mark_failed_executed (qe_pid q) h = (Ok tt, h'))
  /\ find_key qe_pid (qe_pid q) (eg_queue g') = Some (set_failed_at (Some (default now (qe_failed_at q))) q)
  /\ eg_pending_upgrade g' = eg_pending_upgrade g
  /\ executed (eg_events g') = executed (eg_events g)
  /\ last (eg_records g') = Some (record_of q (qe_pid q) now (OutcomeFailed i err)).
Proof.
  intros Hc Hq. unfold complete_prevalidated in Hc. inv_guard.
  match goal with Hx : queued _ _ = _ |- _ => rewrite queued_find, Hq in Hx; injection Hx as <- end.
  destruct (qe_failed_at q) as [f|] eqn:Hf; cbn [is_none] in *; inv_guard; cbn [default]; split_and!; try done.
  - cbn. rewrite Hq. destruct q. cbn in *. by subst.
  - cbn. by rewrite executed_app, app_nil_r.
  - apply last_record.
  - cbn. by rewrite (find_key_alter_eq _ _ _ _ q).
  - cbn. by rewrite executed_app, app_nil_r.
  - apply last_record.
Qed.

(** Sixteen calls at most: the index of a call is its own. *)
Lemma call_index q payload pre c post :
  capable q payload -> pl_calls payload = pre ++ c :: post -> wrap U8 (0 + Z.of_nat (length pre)) = Z.of_nat (length pre).
Proof.
  intros (o & _ & _ & _ & _ & Hn) E. pose proof (length_le_calls (map dc_call (pl_calls payload))) as Hle.
  rewrite length_map, E, length_app in Hle. cbn in Hle. rewrite E in Hn. unfold wrap. rewrite Z.mod_small; lia.
Qed.

Lemma execute_runs origin guardian attestors pid payload now g h g' h' :
  (forall c, c ∈ pl_calls payload -> 0 <= dc_encoded_len c) ->
  execute_with origin guardian attestors pid payload now (g, h) = (Ok tt, (g', h')) ->
  exists q, find_key qe_pid pid (eg_queue g) = Some q /\ executable q guardian attestors payload now g
    /\ execution q payload now g g' h h'.
Proof.
  intros Hn He. unfold execute_with in He. inv_guard. rename select QueuedExecution into q.
  match goal with Hx : queued _ _ = _ |- _ => apply queued_find in Hx; rename Hx into Hq end.
  match goal with Hx : check_dispatch_time_with _ _ _ _ _ _ = _ |- _ => apply check_exact in Hx; [|done]; rename Hx into Hex end.
  exists q. split_and!; [done..|]. pose proof Hq as [<- _]%find_key_Some.
  match goal with Hx : dispatch_batch _ _ _ _ = _ |- _ => apply dispatch_run in Hx as (Eq & Ee & Hf) end.
  rewrite <- Eq in Hq.
  destruct (first_failing 0 (pl_calls payload)) as [o|] eqn:Hff.
  - destruct Hf as [-> Ep]. apply first_failing_Some in Hff as (pre & c & post & E & Hp & Hc & ->).
    rewrite (call_index q payload pre c post) in He by (try done; apply Hex).
    apply complete_reverted in He as (? & ? & Hpend & Hev & ?); [|done].
    rewrite Ep in Hpend. rewrite Ee in Hev. by eapply execution_reverted.
  - subst. apply complete_success in He as (? & ? & Hev & ?); [|done]. rewrite Ee in Hev.
    apply execution_success; try done. by apply (first_failing_None 0).
Qed.

End generic.

(** ** The queue of the guard

    Proposals are queued once, within the bounds of the queue, of the locks
    and of the domains; the log of executions keeps its length. *)

Record queue_ok (l : list QueuedExecution) : Prop := {
  qo_once : NoDup (keys qe_pid l);
  qo_length : (length l <= MAX_QUEUE)%nat;
  qo_items : forall q, q ∈ l ->
    (length (qe_meters_declared q) <= MAX_RESOURCE_LOCKS)%nat /\ (length (qe_declared_domains q) <= MAX_DECLARED_DOMAINS)%nat;
}.

Record stored_ok (g : ExecutionGuard) : Prop := {
  so_queue : queue_ok (eg_queue g);
  so_records : (length (eg_records g) <= MAX_EXECUTION_RECORDS)%nat;
}.

(** An update that leaves a queued proposal's identity and declarations. *)
Definition same_declared (f : QueuedExecution -> QueuedExecution) : Prop :=
  forall q, qe_pid (f q) = qe_pid q /\ qe_meters_declared (f q) = qe_meters_declared q
    /\ qe_declared_domains (f q) = qe_declared_domains q.

Lemma queue_ok_snoc l q :
  queue_ok l -> (length l < MAX_QUEUE)%nat -> (forall q', q' ∈ l -> qe_pid q' <> qe_pid q) ->
  (length (qe_meters_declared q) <= MAX_RESOURCE_LOCKS)%nat -> (length (qe_declared_domains q) <= MAX_DECLARED_DOMAINS)%nat ->
  queue_ok (l ++ [q]).
Proof.
  intros [Hn Hl Hi] Hlt Hq Hm Hd. constructor.
  - unfold keys. rewrite fmap_app. apply NoDup_app. split_and!; [done| |apply NoDup_singleton].
    intros k Hk ->%list_elem_of_singleton. apply list_elem_of_fmap in Hk as (q' & E & Hin). by apply (Hq q').
  - rewrite length_app. cbn. lia.
  - intros q' [Hin| ->%list_elem_of_singleton]%elem_of_app; auto.
Qed.

Lemma queue_ok_filter (P : QueuedExecution -> Prop) `{!forall q, Decision (P q)} l : queue_ok l -> queue_ok (filter P l).
Proof.
  intros [Hn Hl Hi]. constructor; [by apply keys_filter_NoDup|pose proof (length_filter P l); lia|].
  intros q [_ Hq]%list_elem_of_filter. auto.
Qed.

Lemma queue_ok_alter pid f l : same_declared f -> queue_ok l -> queue_ok (alter_key qe_pid pid f l).
Proof.
  intros Hf [Hn Hl Hi]. constructor; [|by rewrite length_alter_key|].
  - rewrite keys_alter; [done|]. intros; apply Hf.
  - intros q Hq. apply elem_of_alter in Hq as [Hq|(q' & [_ Hq']%find_key_Some & ->)]; [auto|].
    destruct (Hf q') as (_ & -> & ->). auto.
Qed.

(** ** The parts of the calls *)

Create HintDb guard.

Lemma stored_push e g : stored_ok g -> stored_ok (eg_push e g).
Proof. by intros [? ?]; constructor. Qed.

Lemma stored_drop pid g : stored_ok g -> stored_ok (drop_queued pid g).
Proof. intros [? ?]. constructor; [by apply queue_ok_filter|done]. Qed.

Lemma stored_resources pid g : stored_ok g -> stored_ok (drop_resources pid g).
Proof. by intros [? ?]; constructor. Qed.

Lemma stored_mut pid f g : same_declared f -> stored_ok g -> stored_ok (queue_mut pid f g).
Proof. intros Hf [? ?]. constructor; [by apply queue_ok_alter|done]. Qed.

Lemma stored_record r g : stored_ok g -> stored_ok (push_record r g).
Proof.
  intros [? Hr]. constructor; [done|]. unfold push_record. cbn. rewrite length_app. cbn.
  destruct (Nat.eqb_spec (length (eg_records g)) MAX_EXECUTION_RECORDS); [|lia].
  destruct (eg_records g); cbn in *; unfold MAX_EXECUTION_RECORDS in *; lia.
Qed.

Lemma stored_upgrade p g : stored_ok g -> stored_ok (record_upgrade p g).
Proof. intros [? ?]. by destruct p; constructor. Qed.

Lemma stored_applied p h g : stored_ok g -> stored_ok (applied p h g).
Proof. by intros [? ?]; constructor. Qed.

#[local] Hint Resolve stored_push stored_drop stored_resources stored_mut stored_record stored_upgrade stored_applied : guard.

Lemma stored_terminal pid g : stored_ok g -> stored_ok (dequeue_terminal pid g).
Proof. intros Hg. unfold dequeue_terminal. destruct (find_key _ _ _); auto with guard. Qed.
#[local] Hint Resolve stored_terminal : guard.

Lemma enqueue_stored o item g g' : stored_ok g -> enqueue o item g = (Ok tt, g') -> stored_ok g'.
Proof.
  intros [Hq Hr] He. unfold enqueue in He. inv_all. constructor; [|done]. cbn.
  apply queue_ok_snoc; [done|by apply Nat.ltb_lt| |by apply Nat.leb_le..].
  intros q' Hq'. match goal with H : negb (existsb _ _) = true |- _ => rewrite negb_true_iff, existsb_none in H; by apply H, Z.eqb_neq in Hq' end.
Qed.

Lemma guard_own_stored c g g' : stored_ok g -> guard_own c g = (Ok tt, g') -> stored_ok g'.
Proof.
  intros Hg Hc. destruct c; cbn [guard_own] in Hc.
  - by eapply enqueue_stored.
  - unfold bind_ratification in Hc. inv_all. by apply stored_mut.
  - unfold ratify in Hc. inv_all. by apply stored_push, stored_mut.
  - inv_all. auto with guard.
  - inv_all. unfold dequeue_for_rerun. auto with guard.
  - unfold apply_authorized_upgrade in Hc. inv_all. auto with guard.
  - unfold complete_upgrade_application in Hc. inv_all. auto with guard.
  - unfold complete_recovery_application in Hc. inv_all.
    match goal with Hr : match ?o with _ => _ end _ = _ |- _ => destruct o end; inv_all; destruct Hg; by constructor.
  - inv_all. destruct Hg. by constructor.
  - inv_all. destruct Hg. by constructor.
Qed.

Section system.
Context {A : Type} `{EqDecision A} {X Y : Type} `{!EpochLedger X} `{!EpochLedgerLaws X} `{!WelfareOps Y} `{!PayloadCodec}.

Lemma complete_stored o pid outcome now up g g' (sx sx' : EpochState A * X) u :
  stored_ok g -> complete_prevalidated o pid outcome now up (g, sx) = (Ok u, (g', sx')) -> stored_ok g'.
Proof.
  intros Hg Hc. unfold complete_prevalidated in Hc. inv_guard.
  assert ((e, p) = (g, sx)) as [= -> ->]. { clear Hc. destruct up; inv_guard; done. }
  destruct outcome as [|i err]; inv_guard.
  - auto 8 with guard.
  - destruct (is_none _); inv_guard; [|auto with guard]. apply stored_push, stored_mut; [done|auto with guard].
Qed.

Lemma dispatch_stored q payload now g outcome g' :
  stored_ok g -> dispatch_batch q payload now g = (Ok outcome, g') -> stored_ok g'.
Proof.
  intros Hg Hd. unfold dispatch_batch in Hd. destruct (first_failing _ _); [by inv_all|].
  destruct (head _); inv_all; [|done]. destruct Hg. by constructor.
Qed.

Lemma guard_joint_stored c g g' (sx sx' : EpochState A * X) :
  stored_ok g -> guard_joint c (g, sx) = (Ok tt, (g', sx')) -> stored_ok g'.
Proof.
  intros Hg Hc. destruct c; cbn [guard_joint] in Hc.
  - unfold execute, execute_with in Hc. inv_guard.
    match goal with Hd : dispatch_batch _ _ _ _ = _ |- _ => apply dispatch_stored in Hd; [|done] end.
    by eapply complete_stored.
  - by eapply complete_stored.
  - unfold expire_failed_execution, expire_failed_execution_with in Hc. inv_guard. auto with guard.
  - unfold reject_stale_or_unratified, reject_stale_or_unratified_with in Hc. inv_guard. auto with guard.
Qed.

Lemma guard_reachable_stored spec_of env (st : ExecutionGuard * (EpochState A * X * Y)) :
  guard_reachable spec_of env st -> stored_ok st.1.
Proof.
  induction 1 as [spec x y Hx|st st' _ IH Hs].
  - constructor; [constructor|]; cbn; [apply NoDup_nil_2|unfold MAX_QUEUE; lia|by intros ? ?%elem_of_nil|unfold MAX_EXECUTION_RECORDS; lia].
  - destruct st as [g [sx y]]. destruct Hs as [c g' Hc ->|c g' sx' Hc ->|w' _ ->]; cbn [fst snd] in *; [| |done].
    + by eapply guard_own_stored.
    + by eapply guard_joint_stored.
Qed.

End system.

(** The checker on such a state depends on the committed sizes alone. *)
Lemma guard_checker g :
  stored_ok g -> guard_try_state g = Ok tt <-> forall q, q ∈ eg_queue g -> qe_payload_len q <= MAX_PAYLOAD_BYTES.
Proof.
  intros [[_ Hl Hi] Hr]. unfold guard_try_state.
  apply Nat.leb_le in Hl as ->. apply Nat.leb_le in Hr as ->. cbn [ensure rbind].
  rewrite for_each_Ok. split; intros Hall q Hq; specialize (Hall q Hq).
  - inv_all. by apply Z.leb_le.
  - destruct (Hi q Hq) as [Hm Hd]. apply Z.leb_le in Hall as ->. apply Nat.leb_le in Hm as ->.
    cbn [ensure rbind]. by rewrite (proj2 (Nat.leb_le _ _) Hd).
Qed.
