(* ===== verification/ExecTheorems.v ===== *)
(** * The properties of the execution guard

    Against any handoff, guardian and attestor registry; and with the epoch
    core and the conditional ledger underneath. *)

From S2P Require Import Prelude Keyed Primitives Ledger LedgerProps Proposals Epoch EpochDecide EpochCalls EpochEngine EpochSystem EpochInv EpochVaults EpochJoint EpochJointSystem EpochDemo Guardian Origins Attestor ExecGuard ExecCheck.

(** C17. Execution is gated exactly: against any guardian, attestor registry
    and epoch core, the ordered dispatch check passes if and only if the
    proposal is live, inside its window, given the very calls whose hash and
    size were committed, on the committed runtime version, ratified and
    attested when its class demands it, in possession of its locks, held by
    no guardian or freeze, and every call, at every level of its wrappers, is
    one its class may make; and a successful [execute] is that of such a
    proposal: either every call succeeded and it left the queue, handed to the
    epoch core as executed, or the first failing call is on record and it
    stays for a retry counted from its first failure. *)
Theorem execution_is_exact `{!PayloadCodec} {S G T : Type} `{!EpochHandoff S} `{!GuardianView G} `{!AttestationView T}
    origin (guardian : G) (attestors : T) pid payload now g (h : S) :
  (forall c, c ∈ pl_calls payload -> 0 <= dc_encoded_len c) ->
  (forall q, check_dispatch_time_with q guardian attestors payload now g = Ok tt
             <-> executable q guardian attestors payload now g)
  /\ forall g' h', execute_with origin guardian attestors pid payload now (g, h) = (Ok tt, (g', h')) ->
     exists q, find_key qe_pid pid (eg_queue g) = Some q /\ executable q guardian attestors payload now g
       /\ execution q payload now g g' h h'.
Proof.
  intros Hn. split; [intros q; by apply check_exact|]. intros g' h'. by apply execute_runs.
Qed.

(** C4. At most once: on the guard, the epoch core and the ledger together,
    in any interleaving of their calls, a proposal is logged as executed at
    most once, whatever is queued again or retried, and from then on its
    conditional vault is out of trading for good. *)
Theorem executed_at_most_once {A : Type} `{EqDecision A} {Y : Type} `{!WelfareOps Y} `{!PayloadCodec} spec_of
    (st : ExecutionGuard * (EpochState A * LedgerState A * Y)) :
  guard_reachable spec_of ledger_own st ->
  NoDup (executed (eg_events st.1))
  /\ forall pid, pid ∈ executed (eg_events st.1) ->
     exists v spec, vault_state_of st.2.1.2 pid = Some (v, spec) /\ v <> Open.
Proof.
  intros Hr%guard_reachable_ok; [|exact ledger_own_calm]. by destruct Hr.
Qed.

(** C40. The queue is sound: in every reachable state no proposal is queued
    twice, the queue, each proposal's locks and domains, and the execution
    log are within their bounds; so the state checker accepts it exactly when
    no queued proposal committed to more than 64 KiB, which queueing does not
    check. *)
Theorem guard_queue_is_sound {A : Type} `{EqDecision A} {Y : Type} `{!WelfareOps Y} `{!PayloadCodec} spec_of
    (st : ExecutionGuard * (EpochState A * LedgerState A * Y)) :
  guard_reachable spec_of ledger_own st ->
  NoDup (keys qe_pid (eg_queue st.1)) /\ (length (eg_queue st.1) <= 32)%nat /\ (length (eg_records st.1) <= 256)%nat
  /\ (guard_try_state st.1 = Ok tt <-> forall q, q ∈ eg_queue st.1 -> qe_payload_len q <= 65536).
Proof.
  intros Hr%guard_reachable_stored. split_and!; [apply Hr|apply (qo_length _ (so_queue _ Hr))|apply Hr|by apply guard_checker].
Qed.

(** ** Witnesses: proposal 1 reverts, then executes *)

(** Little-endian integers, variant indices and option tags. *)
#[local] Instance demo_codec : PayloadCodec := {|
  enc_domain d := [match d with GdPublic => 0 | GdParam => 1 | GdTreasury => 2 | GdCode => 3 | GdMeta => 4
                   | GdInternalRootAuthorizeUpgrade => 5 | GdInternalRootApplyUpgrade => 6 end];
  enc_u32 n := take 4 (le_bytes64 n);
  enc_u64 n := le_bytes64 n;
  enc_call c := [call_count c; call_levels c];
  enc_upgrade_hash o := match o with Some h => [1; h] | None => [0] end;
  enc_target o := match o with Some t => 1 :: le_bytes64 t | None => [0] end;
|}.

Definition demo_dispatch (succeeds : bool) : DispatchCall := {|
  dc_domain := GdParam; dc_encoded_len := 20; dc_declared_weight := 5; dc_call := UtilityBatchAll [Leaf DomParam];
  dc_succeeds := succeeds; dc_error := 9; dc_upgrade_hash := None; dc_target_spec_version := None;
|}.

Definition demo_batch (succeeds : bool) : Payload := {| pl_hash := 0; pl_calls := [demo_dispatch true; demo_dispatch succeeds] |}.

Definition demo_version : RuntimeVersionConstraint := {| rv_spec_name := [1]; rv_spec_version := 3 |}.

Definition demo_item : QueuedExecution := {|
  qe_pid := 1; qe_payload_hash := hash_payload (pl_calls (demo_batch true)); qe_payload_len := 40; qe_class := Param;
  qe_maturity := 320000; qe_grace_end := 360000; qe_version_constraint := demo_version; qe_meters_declared := [5];
  qe_ratify_ref := None; qe_ratification_passed := false; qe_attestation_id := None; qe_pre_upgrade_checkpoint := None;
  qe_cancelled := false; qe_declared_domains := [GdParam]; qe_failed_at := None;
|}.

Definition exec_council : list AccountId := [1; 2; 3; 4; 5; 6; 7].
Definition demo_guardian : Guardian :=
  Eval vm_compute in match Guardian_new exec_council with
                     | Ok g => g
                     | Err _ => Build_Guardian [] [] [] [] [] [] [] 0 0 0 0 0 0 0 []
                     end.
Definition demo_attestors : AttestorRegistry :=
  Eval vm_compute in match AttestorRegistry_new [1; 2; 3; 4] attestor_params_default with
                     | Ok r => r
                     | Err _ => Build_AttestorRegistry [] [] [] [] 0 []
                     end.

Abbreviation DemoSystem := (ExecutionGuard * DemoState)%type.

Definition demo_guarded : DemoSystem := (ExecutionGuard_new demo_version, demo_queued).

(** A guard call; a failed one leaves the state as it was. *)
Definition run_own (c : GuardOwnCall) (st : DemoSystem) : DemoSystem :=
  match guard_own c st.1 with (Ok _, g) => (g, st.2) | (Err _, _) => st end.
Definition run_joint (c : GuardJointCall) (st : DemoSystem) : DemoSystem :=
  match guard_joint c (st.1, st.2.1) with (Ok _, (g, sx)) => (g, (sx, st.2.2)) | (Err _, _) => st end.

Definition demo_execute (succeeds : bool) (now : BlockNumber) : GuardJointCall :=
  XExecute GdSigned demo_guardian demo_attestors 1 (demo_batch succeeds) now.

Definition demo_locked : DemoSystem :=
  Eval vm_compute in run_own (XSetLocks [(1, 5)]) (run_own (XEnqueue GdEpochDecision demo_item) demo_guarded).
Definition demo_reverted : DemoSystem := Eval vm_compute in run_joint (demo_execute false 330000) demo_locked.
Definition demo_retried : DemoSystem := Eval vm_compute in run_joint (demo_execute true 370000) demo_reverted.

Lemma run_own_reachable c st : guard_reachable demo_spec ledger_own st -> guard_reachable demo_spec ledger_own (run_own c st).
Proof.
  intros Hr. unfold run_own. destruct (guard_own c st.1) as [[[]|e] g] eqn:E; [|done].
  eapply guard_next; [exact Hr|]. by eapply step_own.
Qed.

Lemma run_joint_reach c st : guard_reachable demo_spec ledger_own st -> guard_reachable demo_spec ledger_own (run_joint c st).
Proof.
  intros Hr. unfold run_joint. destruct (guard_joint c (st.1, st.2.1)) as [[[]|e] [g sx]] eqn:E; [|done].
  eapply guard_next; [exact Hr|]. by eapply step_guard.
Qed.

Lemma world_reachable g (w w' : DemoState) :
  guard_reachable demo_spec ledger_own (g, w) -> joint_step demo_spec ledger_own w w' ->
  guard_reachable demo_spec ledger_own (g, w').
Proof. intros Hr Hs. eapply guard_next; [exact Hr|]. by eapply step_world. Qed.

Lemma joint_world (w : DemoState) : joint_reachable demo_spec ledger_own w -> guard_reachable demo_spec ledger_own (ExecutionGuard_new demo_version, w).
Proof. induction 1 as [x y Hx|w w' _ IH Hs]; [by apply guard_new|by eapply world_reachable]. Qed.

Lemma demo_queued_joint : joint_reachable demo_spec ledger_own demo_queued.
Proof.
  apply (run_joint_reachable ledger_own demo_to_queued demo_genesis); [apply demo_queued_ok|apply joint_new, rtc_refl].
Qed.

Lemma demo_locked_reachable : guard_reachable demo_spec ledger_own demo_locked.
Proof.
  apply (run_own_reachable (XSetLocks [(1, 5)]) (run_own (XEnqueue GdEpochDecision demo_item) demo_guarded)).
  apply (run_own_reachable (XEnqueue GdEpochDecision demo_item) demo_guarded).
  apply joint_world, demo_queued_joint.
Qed.

Lemma demo_retried_reachable : guard_reachable demo_spec ledger_own demo_retried.
Proof.
  apply (run_joint_reach (demo_execute true 370000) demo_reverted).
  apply (run_joint_reach (demo_execute false 330000) demo_locked), demo_locked_reachable.
Qed.

Lemma executed_at_most_once_witness :
  executed (eg_events demo_reverted.1) = [] /\ executed (eg_events demo_retried.1) = [1]
  /\ exists v spec, vault_state_of demo_retried.2.1.2 1 = Some (v, spec) /\ v <> Open.
Proof.
  destruct (executed_at_most_once demo_spec demo_retried demo_retried_reachable) as [_ Hc].
  split_and!; [by vm_compute..|]. apply Hc. vm_compute. by left.
Defined.

Lemma execution_is_exact_witness :
  exists q, find_key qe_pid 1 (eg_queue demo_reverted.1) = Some q
    /\ executable q (demo_guardian, false) demo_attestors (demo_batch true) 370000 demo_reverted.1
    /\ execution q (demo_batch true) 370000 demo_reverted.1 demo_retried.1 demo_reverted.2.1 demo_retried.2.1.
Proof.
  destruct (execution_is_exact GdSigned (demo_guardian, false) demo_attestors 1 (demo_batch true) 370000
              demo_reverted.1 demo_reverted.2.1) as [_ He].
  - intros c Hc. repeat (apply elem_of_cons in Hc as [->|Hc]; [by vm_compute|]). by apply elem_of_nil in Hc.
  - apply He. by vm_compute.
Defined.

Lemma guard_queue_is_sound_witness :
  guard_try_state demo_locked.1 = Ok tt.
Proof.
  destruct (guard_queue_is_sound demo_spec demo_locked demo_locked_reachable) as (_ & _ & _ & E).
  apply E. intros q Hq. vm_compute in Hq. apply elem_of_cons in Hq as [->|Hq]; [done|by apply elem_of_nil in Hq].
Defined.

(** Queueing itself accepts any committed size. *)
Lemma oversize_is_queued : exists item g g',
  enqueue GdEpochDecision item g = (Ok tt, g') /\ guard_try_state g = Ok tt /\ guard_try_state g' = Err GdPayloadTooLarge.
Proof.
  exists {| demo_item with qe_payload_len := 65537 |}, (ExecutionGuard_new demo_version). eexists. by vm_compute.
Qed.
