(* ===== verification/Welfare.v ===== *)
(** * Welfare measurement (crates/welfare-core)

    Registered metric specs, per-epoch welfare snapshots, daily gate samples
    and the settlement score of a cohort. Values are on the 1e9 grid; the
    weighted geometric means are evaluated in 64.64 fixed point. *)

From S2P Require Import Prelude Keyed Primitives U256 FixedPoint.

Abbreviation MetricId := Z (only parsing).

Definition WELFARE_ONE : Z := 1000000000.
Definition EPSILON : FixedU64 := 1.
Definition EPSILON_PILLAR : FixedU64 := 10000000.
Definition MAX_METRIC_SPECS : nat := 16.
Definition MAX_SNAPSHOTS : nat := 20.
Definition MAX_GATE_FLAGS : nat := MAX_SNAPSHOTS.
Definition MAX_DAILY_GATE_SAMPLES : Z := 64.
Definition MAX_COMPONENTS_PER_SPEC : nat := 16.
Definition HISTORY_PRIORS : nat := 12.
Definition THETA_S_LO : FixedU64 := 900000000.
Definition THETA_S_HI : FixedU64 := 980000000.
Definition THETA_C_LO : FixedU64 := 850000000.
Definition THETA_C_HI : FixedU64 := 950000000.
Definition W_P : FixedU64 := 600000000.
Definition W_A : FixedU64 := 400000000.

(** ** Data *)

Inductive WelfareError : Type :=
| WfBadOrigin
| WfTooManyMetricSpecs
| WfTooManySnapshots
| WfTooManyComponents
| WfTooManyGateFlags
| WfDuplicateSpecVersion
| WfSpecNotFound
| WfBadActivationEpoch
| WfSpecNotActive
| WfMissingMetricDiscipline
| WfBadEpsilonFloor
| WfBadSourceClass
| WfBadWeightSum
| WfValueOutOfRange
| WfMissingComponent
| WfDuplicateComponent
| WfDuplicateSnapshot
| WfArithmeticOverflow
| WfTryStateViolation
| WfGateWindowUnsampled.

Record WelfareParams : Type := {
  wp_theta_s_lo : FixedU64;
  wp_theta_s_hi : FixedU64;
  wp_theta_c_lo : FixedU64;
  wp_theta_c_hi : FixedU64;
  wp_w_p : FixedU64;
  wp_w_a : FixedU64;
}.

Definition WelfareParams_DEFAULT : WelfareParams := {|
  wp_theta_s_lo := THETA_S_LO; wp_theta_s_hi := THETA_S_HI; wp_theta_c_lo := THETA_C_LO; wp_theta_c_hi := THETA_C_HI;
  wp_w_p := W_P; wp_w_a := W_A;
|}.

Definition in_range (lo hi x : Z) : bool := (lo <=? x) && (x <=? hi).

Definition wp_validate (p : WelfareParams) : Result WelfareError unit :=
  do? ensure ((THETA_S_LO <=? wp_theta_s_lo p) && (wp_theta_s_lo p <? wp_theta_s_hi p) && (wp_theta_s_hi p <=? WELFARE_ONE)
      && (THETA_C_LO <=? wp_theta_c_lo p) && (wp_theta_c_lo p <? wp_theta_c_hi p) && (wp_theta_c_hi p <=? WELFARE_ONE))
      WfValueOutOfRange in
  do? ensure (in_range 300000000 700000000 (wp_w_p p) && in_range 300000000 700000000 (wp_w_a p)) WfValueOutOfRange in
  ensure (match checked_add U64 (wp_w_p p) (wp_w_a p) with Some sum => sum =? WELFARE_ONE | None => false end) WfBadWeightSum.

Inductive Pillar : Type :=
| PillarS
| PillarCOnchain
| PillarCAttested
| PillarP
| PillarA.

Inductive SourceClass : Type :=
| Onchain
| RelayDerived
| Attested.

#[export] Instance Pillar_eq_dec : EqDecision Pillar.
Proof. solve_decision. Defined.

Record MetricSpec : Type := {
  ms_id : MetricId;
  ms_version : MetricSpecVersion;
  ms_pillar : Pillar;
  ms_weight : FixedU64;
  ms_epsilon_floor : FixedU64;
  ms_activation_epoch : EpochId;
  ms_source : SourceClass;
  ms_formula_ref : list Z;
  ms_units : list Z;
  ms_repr : list Z;
  ms_cadence_blocks : Z;
  ms_sanity_min : FixedU64;
  ms_sanity_max : FixedU64;
  ms_has_normalization_rule : bool;
  ms_has_missing_data_rule : bool;
  ms_has_gaming_vectors : bool;
  ms_has_challenge_procedure : bool;
  ms_prior_bounds : list FixedU64;
}.

Record ComponentValue : Type := {
  cv_id : MetricId;
  cv_value : FixedU64;
}.

Record Snapshot : Type := {
  sn_epoch : EpochId;
  sn_spec_version : MetricSpecVersion;
  sn_s_pillar : FixedU64;
  sn_c_onchain : FixedU64;
  sn_c_attested : FixedU64;
  sn_p_pillar : FixedU64;
  sn_a_pillar : FixedU64;
  sn_gate_s : FixedU64;
  sn_gate_c : FixedU64;
  sn_welfare : FixedU64;
  sn_components : list ComponentValue;
}.

(** [day_bitmap: [u32; 2]] *)
Record GateBreachFlags : Type := {
  gb_s_breached : bool;
  gb_c_breached : bool;
  gb_day_bitmap : arr2 Z;
}.

#[export] Instance GateBreachFlags_eq_dec : EqDecision GateBreachFlags.
Proof. solve_decision. Defined.

Definition GateBreachFlags_none : GateBreachFlags := {| gb_s_breached := false; gb_c_breached := false; gb_day_bitmap := (0, 0) |}.

Inductive WelfareEvent : Type :=
| WfMetricSpecRegistered (version : MetricSpecVersion)
| WfSnapshotRecorded (epoch : EpochId) (spec_version : MetricSpecVersion) (welfare : FixedU64)
| WfGateBreachRecorded (epoch : EpochId) (day : Z) (s_breached c_breached : bool)
| WfSettlementComputed (epoch : EpochId) (spec_version : MetricSpecVersion) (score : FixedU64).

Inductive Registration : Type :=
| RegGenesis
| RegLive (current_epoch : EpochId).

Record WelfareState : Type := {
  ws_specs : list (MetricSpecVersion * list MetricSpec);
  ws_snapshots : list Snapshot;
  ws_gate_flags : list (EpochId * GateBreachFlags);
  ws_events : list WelfareEvent;
}.

Definition set_ws_specs x s := {| s with ws_specs := x |}.
Definition set_snapshots x s := {| s with ws_snapshots := x |}.
Definition set_gate_flags x s := {| s with ws_gate_flags := x |}.
Definition set_ws_events x s := {| s with ws_events := x |}.

Definition WelfareState_new : WelfareState := {| ws_specs := []; ws_snapshots := []; ws_gate_flags := []; ws_events := [] |}.

Definition ws_push (e : WelfareEvent) (s : WelfareState) : WelfareState := set_ws_events (ws_events s ++ [e]) s.

Record WelfareView : Type := {
  wv_epoch : EpochId;
  wv_spec_version : MetricSpecVersion;
  wv_s_pillar_1e9 : FixedU64;
  wv_c_onchain_1e9 : FixedU64;
  wv_c_attested_1e9 : FixedU64;
  wv_p_pillar_1e9 : FixedU64;
  wv_a_pillar_1e9 : FixedU64;
  wv_gate_s_1e9 : FixedU64;
  wv_gate_c_1e9 : FixedU64;
  wv_w_current_1e9 : FixedU64;
  wv_s_breached : bool;
  wv_c_breached : bool;
  wv_reserve_flag : bool;
  wv_active_spec_available : bool;
}.

(** ** Arithmetic on the grid *)

Definition mul_down (a b : FixedU64) : FixedU64 := wrap U64 (a * b / WELFARE_ONE).

Definition q64_from_1e9 (v : Z) : FixedU64x64 := from_raw (shl v 64 / WELFARE_ONE).

Definition q64_to_1e9_down (v : FixedU64x64) : FixedU64 := wrap U64 (shr (wrap U128 (v * WELFARE_ONE)) 64).

(** The low halves of the raw factors decide whether the product was cut. *)
Definition mul_ceil_q64 (a b : FixedU64x64) : Result WelfareError FixedU64x64 :=
  let? floor := map_err (fun _ => WfArithmeticOverflow) (fx_mul a b) in
  let truncated := negb (wrap U64 (wrap U64 a * wrap U64 b) =? 0) in
  if truncated then map_err (fun _ => WfArithmeticOverflow) (fx_add floor (from_raw 1)) else Ok floor.

Definition exp2_inverse_down (exponent : FixedU64x64) : Result WelfareError FixedU64 :=
  if exponent =? 0 then Ok WELFARE_ONE
  else
    let? denom := map_err (fun _ => WfArithmeticOverflow) (fx_exp2 exponent) in
    let? term := map_err (fun _ => WfArithmeticOverflow) (fx_div ONE_RAW denom) in
    Ok (q64_to_1e9_down term).

(** [log2(1/value)] *)
Definition inverse_log (value : FixedU64) : Result WelfareError FixedU64x64 :=
  let? inv := map_err (fun _ => WfArithmeticOverflow) (fx_div ONE_RAW (q64_from_1e9 value)) in
  map_err (fun _ => WfArithmeticOverflow) (fx_log2 inv).

Definition value_for (id : MetricId) (components : list ComponentValue) : Result WelfareError FixedU64 :=
  let? found := try_fold (fun found c =>
      if cv_id c =? id then
        do? ensure (is_none found) WfDuplicateComponent in
        do? ensure (cv_value c <=? WELFARE_ONE) WfValueOutOfRange in
        Ok (Some (cv_value c))
      else Ok found) None components in
  ok_or WfMissingComponent found.

Definition of_pillars (pillars : list Pillar) (specs : list MetricSpec) : list MetricSpec :=
  filter (fun m => ms_pillar m ∈ pillars) specs.

Definition geo_step (components : list ComponentValue) (renormalize : option Z) (exponent : FixedU64x64) (m : MetricSpec)
    : Result WelfareError FixedU64x64 :=
  let? v := value_for (ms_id m) components in
  let value := Z.max v (ms_epsilon_floor m) in
  if (ms_weight m =? 0) || (WELFARE_ONE <=? value) then Ok exponent
  else
    do? ensure (0 <? value) WfValueOutOfRange in
    let? log := inverse_log value in
    let weight := q64_from_1e9 (ms_weight m) in
    let? weight :=
      match renormalize with
      | Some total =>
          do? ensure (0 <? total) WfBadWeightSum in
          map_err (fun _ => WfArithmeticOverflow) (fx_div weight (q64_from_1e9 total))
      | None => Ok weight
      end in
    let? term := mul_ceil_q64 log weight in
    map_err (fun _ => WfArithmeticOverflow) (fx_add exponent term).

Definition weighted_geo (specs : list MetricSpec) (components : list ComponentValue) (pillars : list Pillar)
    (renormalize : option Z) : Result WelfareError FixedU64 :=
  let? exponent := try_fold (geo_step components renormalize) 0 (of_pillars pillars specs) in
  exp2_inverse_down exponent.

(** One factor of [geo_pair]; [None] when the pair is zero. *)
Definition pair_step (exponent : option FixedU64x64) (vw : FixedU64 * FixedU64) : Result WelfareError (option FixedU64x64) :=
  match exponent with
  | None => Ok None
  | Some exponent =>
      if (vw.2 =? 0) || (WELFARE_ONE <=? vw.1) then Ok (Some exponent)
      else if vw.1 =? 0 then Ok None
      else
        let? log := inverse_log vw.1 in
        let? term := mul_ceil_q64 log (q64_from_1e9 vw.2) in
        let? exponent := map_err (fun _ => WfArithmeticOverflow) (fx_add exponent term) in
        Ok (Some exponent)
  end.

Definition geo_pair (first second : FixedU64 * FixedU64) : Result WelfareError FixedU64 :=
  let? exponent := try_fold pair_step (Some 0) [first; second] in
  match exponent with
  | Some exponent => exp2_inverse_down exponent
  | None => Ok 0
  end.

(** Smoothstep between the thresholds. *)
Definition gate (x lo hi : FixedU64) : Result WelfareError FixedU64 :=
  do? ensure ((lo <? hi) && (hi <=? WELFARE_ONE) && (x <=? WELFARE_ONE)) WfValueOutOfRange in
  if x <=? lo then Ok 0
  else if hi <=? x then Ok WELFARE_ONE
  else
    let t := wrap U64 ((x - lo) * WELFARE_ONE / (hi - lo)) in
    let t2 := wrap U64 (t * t / WELFARE_ONE) in
    let three_minus_2t := 3 * WELFARE_ONE - 2 * t in
    Ok (wrap U64 (t2 * three_minus_2t / WELFARE_ONE)).

Definition compute_welfare (s c p a : FixedU64) (params : WelfareParams) : Result WelfareError FixedU64 :=
  do? wp_validate params in
  let? gs := gate s (wp_theta_s_lo params) (wp_theta_s_hi params) in
  let? gc := gate c (wp_theta_c_lo params) (wp_theta_c_hi params) in
  let? pa := geo_pair (p, wp_w_p params) (a, wp_w_a params) in
  Ok (mul_down (mul_down gs gc) pa).

Definition ord_clamp (x lo hi : Z) : Z := if x <? lo then lo else if hi <? x then hi else x.

Definition settlement_score (w1 w2 : FixedU64) : Result WelfareError FixedU64 :=
  let a := ord_clamp w1 EPSILON WELFARE_ONE in
  let b := ord_clamp w2 EPSILON WELFARE_ONE in
  let? product := ok_or WfArithmeticOverflow (checked_mul U128 a b) in
  let root := Z.sqrt product in
  if root <? U64 then Ok root else Err WfArithmeticOverflow.

(** ** Pillars *)

Definition source_matches_pillar (spec : MetricSpec) : bool :=
  match ms_pillar spec, ms_source spec with
  | (PillarS | PillarCOnchain), (Onchain | RelayDerived) => true
  | (PillarCAttested | PillarA), Attested => true
  | PillarP, Onchain => true
  | _, _ => false
  end.

Record Pillars : Type := {
  pi_s : FixedU64;
  pi_c_onchain : FixedU64;
  pi_c_attested : FixedU64;
  pi_c_settlement : FixedU64;
  pi_p : FixedU64;
  pi_a : FixedU64;
}.

(** The survival pillar is the worst of its components. *)
Definition s_pillar (specs : list MetricSpec) (components : list ComponentValue) : Result WelfareError FixedU64 :=
  try_fold (fun acc m => let? v := value_for (ms_id m) components in Ok (Z.min acc v)) WELFARE_ONE
    (filter (fun m => ms_pillar m = PillarS) specs).

Definition compute_pillars (specs : list MetricSpec) (components : list ComponentValue) (incident : FixedU64)
    : Result WelfareError Pillars :=
  let? s := s_pillar specs components in
  let? c_onchain := weighted_geo specs components [PillarCOnchain] None in
  let? c_attested_geo := weighted_geo specs components [PillarCAttested] None in
  let c_attested := mul_down incident c_attested_geo in
  let? c_joint := weighted_geo specs components [PillarCOnchain; PillarCAttested] None in
  let c_settlement := mul_down incident c_joint in
  let? p := weighted_geo specs components [PillarP] None in
  let? a := weighted_geo specs components [PillarA] None in
  Ok {| pi_s := s; pi_c_onchain := c_onchain; pi_c_attested := c_attested; pi_c_settlement := c_settlement; pi_p := p;
        pi_a := a |}.

Definition weight_sum (pillars : list Pillar) (specs : list MetricSpec) : Result WelfareError Z :=
  try_fold (fun acc s => ok_or WfArithmeticOverflow (checked_add U64 acc (ms_weight s))) 0 (of_pillars pillars specs).

Definition compute_daily_gates (specs : list MetricSpec) (components : list ComponentValue)
    : Result WelfareError (FixedU64 * FixedU64) :=
  let? s := s_pillar specs components in
  let? onchain_sum := weight_sum [PillarCOnchain] specs in
  let? c_daily := weighted_geo specs components [PillarCOnchain] (Some onchain_sum) in
  Ok (s, c_daily).

(** ** Operations *)

Abbreviation WM A := (ST WelfareState WelfareError A).

Definition ws_spec (version : MetricSpecVersion) (s : WelfareState) : Result WelfareError (list MetricSpec) :=
  ok_or WfSpecNotFound (option_map snd (find_key fst version (ws_specs s))).

Definition ws_snapshot (epoch : EpochId) (version : MetricSpecVersion) (s : WelfareState) : Result WelfareError Snapshot :=
  ok_or WfMissingComponent
    (head (filter (fun x => sn_epoch x = epoch /\ sn_spec_version x = version) (ws_snapshots s))).

(** The stable sort by id. *)
Fixpoint insert_by_id (x : MetricSpec) (l : list MetricSpec) : list MetricSpec :=
  match l with
  | [] => [x]
  | y :: l' => if ms_id x <=? ms_id y then x :: l else y :: insert_by_id x l'
  end.

Definition sort_by_id (l : list MetricSpec) : list MetricSpec := foldr insert_by_id [] l.

(** One turn of the check of [register_metric_spec], after the id [prev]. *)
Definition check_spec (version : MetricSpecVersion) (min_activation : EpochId) (prev : option MetricId) (spec : MetricSpec)
    : Result WelfareError (option MetricId) :=
  do? ensure (ms_version spec =? version) WfSpecNotFound in
  do? ensure (min_activation <=? ms_activation_epoch spec) WfBadActivationEpoch in
  do? ensure ((ms_weight spec <=? WELFARE_ONE) && (ms_sanity_min spec <=? ms_sanity_max spec)
      && (ms_sanity_max spec <=? WELFARE_ONE)) WfValueOutOfRange in
  do? ensure (ms_epsilon_floor spec =? EPSILON_PILLAR) WfBadEpsilonFloor in
  do? ensure (source_matches_pillar spec) WfBadSourceClass in
  do? ensure (ms_has_normalization_rule spec && ms_has_missing_data_rule spec && ms_has_gaming_vectors spec
      && ms_has_challenge_procedure spec) WfMissingMetricDiscipline in
  do? ensure (match prev with None => true | Some p => p <? ms_id spec end) WfDuplicateComponent in
  Ok (Some (ms_id spec)).

Definition register_metric_spec (registration : Registration) (version : MetricSpecVersion) (specs : list MetricSpec) : WM unit :=
  let! w := get in
  do! lift (ensure (length (ws_specs w) <? MAX_METRIC_SPECS)%nat WfTooManyMetricSpecs) in
  do! lift (ensure (forallb (fun vs => negb (vs.1 =? version)) (ws_specs w)) WfDuplicateSpecVersion) in
  do! lift (ensure (negb (length specs =? 0)%nat && (length specs <=? MAX_COMPONENTS_PER_SPEC)%nat) WfTooManyComponents) in
  let specs := sort_by_id specs in
  let! min_activation := lift (match registration with
                               | RegGenesis => Ok 1
                               | RegLive current_epoch => ok_or WfBadActivationEpoch (checked_add U32 current_epoch 2)
                               end) in
  let! _ := lift (try_fold (check_spec version min_activation) None specs) in
  let! c := lift (weight_sum [PillarCOnchain; PillarCAttested] specs) in
  do! lift (ensure (c =? WELFARE_ONE) WfBadWeightSum) in
  let! p := lift (weight_sum [PillarP] specs) in
  do! lift (ensure (p =? WELFARE_ONE) WfBadWeightSum) in
  let! a := lift (weight_sum [PillarA] specs) in
  do! lift (ensure (a =? WELFARE_ONE) WfBadWeightSum) in
  do! modify (set_ws_specs (ws_specs w ++ [(version, specs)])) in
  modify (ws_push (WfMetricSpecRegistered version)).

Definition record_snapshot (epoch : EpochId) (spec_version : MetricSpecVersion) (components : list ComponentValue)
    (incident_multiplier : FixedU64) (params : WelfareParams) : WM FixedU64 :=
  do! lift (wp_validate params) in
  let! specs := reads (ws_spec spec_version) in
  do! lift (ensure (forallb (fun spec => ms_activation_epoch spec <=? epoch) specs) WfSpecNotActive) in
  let! w := get in
  do! lift (ensure (length (ws_snapshots w) <? MAX_SNAPSHOTS)%nat WfTooManySnapshots) in
  do! lift (ensure (length components <=? MAX_COMPONENTS_PER_SPEC)%nat WfTooManyComponents) in
  do! lift (ensure (incident_multiplier <=? WELFARE_ONE) WfValueOutOfRange) in
  do! lift (ensure (forallb (fun s => negb (sn_epoch s =? epoch) || negb (sn_spec_version s =? spec_version)) (ws_snapshots w))
       WfDuplicateSnapshot) in
  let! pillars := lift (compute_pillars specs components incident_multiplier) in
  let! welfare := lift (compute_welfare (pi_s pillars) (pi_c_settlement pillars) (pi_p pillars) (pi_a pillars) params) in
  let! gate_s := lift (gate (pi_s pillars) (wp_theta_s_lo params) (wp_theta_s_hi params)) in
  let! gate_c := lift (gate (pi_c_settlement pillars) (wp_theta_c_lo params) (wp_theta_c_hi params)) in
  do! modify (set_snapshots (ws_snapshots w ++
        [{| sn_epoch := epoch; sn_spec_version := spec_version; sn_s_pillar := pi_s pillars;
            sn_c_onchain := pi_c_onchain pillars; sn_c_attested := pi_c_attested pillars; sn_p_pillar := pi_p pillars;
            sn_a_pillar := pi_a pillars; sn_gate_s := gate_s; sn_gate_c := gate_c; sn_welfare := welfare;
            sn_components := components |}])) in
  do! modify (ws_push (WfSnapshotRecorded epoch spec_version welfare)) in
  ret welfare.

(** The flags after a day that breached as given. *)
Definition flag_day (day : Z) (s_breach c_breach : bool) (flags : GateBreachFlags) : Result WelfareError GateBreachFlags :=
  let? bitmap :=
    if s_breach || c_breach then
      let word := Z.to_nat (day / 32) in
      do? ensure (word <? 2)%nat WfValueOutOfRange in
      Ok (arr2_set (gb_day_bitmap flags) word (Z.lor (arr2_get (gb_day_bitmap flags) word) (Z.shiftl 1 (day mod 32))))
    else Ok (gb_day_bitmap flags) in
  Ok {| gb_s_breached := gb_s_breached flags || s_breach; gb_c_breached := gb_c_breached flags || c_breach;
        gb_day_bitmap := bitmap |}.

Definition record_daily_gate (epoch : EpochId) (day : Z) (spec_version : MetricSpecVersion) (components : list ComponentValue)
    (params : WelfareParams) : WM (GateBreachFlags * bool) :=
  do! lift (wp_validate params) in
  let! specs := reads (ws_spec spec_version) in
  do! lift (ensure (forallb (fun spec => ms_activation_epoch spec <=? epoch) specs) WfSpecNotActive) in
  do! lift (ensure (day <? MAX_DAILY_GATE_SAMPLES) WfValueOutOfRange) in
  do! lift (ensure (length components <=? MAX_COMPONENTS_PER_SPEC)%nat WfTooManyComponents) in
  let! daily := lift (compute_daily_gates specs components) in
  let s_breach := daily.1 <? wp_theta_s_lo params in
  let c_breach := daily.2 <? wp_theta_c_lo params in
  let! w := get in
  let found := find_key fst epoch (ws_gate_flags w) in
  let before := map_or GateBreachFlags_none snd found in
  let! flags := lift (flag_day day s_breach c_breach before) in
  let changed := negb (bool_decide (flags = before)) in
  do! (if is_none found then
         do! lift (ensure (length (ws_gate_flags w) <? MAX_GATE_FLAGS)%nat WfTooManyGateFlags) in
         modify (set_gate_flags (ws_gate_flags w ++ [(epoch, flags)]))
       else modify (set_gate_flags (alter_key fst epoch (fun ef => (ef.1, flags)) (ws_gate_flags w)))) in
  do! modify (ws_push (WfGateBreachRecorded epoch day s_breach c_breach)) in
  ret (flags, changed).

Definition compute_settlement (cohort_epoch : EpochId) (spec_version : MetricSpecVersion) : WM FixedU64 :=
  let! first_epoch := lift (ok_or WfArithmeticOverflow (checked_add U32 cohort_epoch 1)) in
  let! second_epoch := lift (ok_or WfArithmeticOverflow (checked_add U32 cohort_epoch 2)) in
  let! w1 := reads (fun s => rmap sn_welfare (ws_snapshot first_epoch spec_version s)) in
  let! w2 := reads (fun s => rmap sn_welfare (ws_snapshot second_epoch spec_version s)) in
  let! score := lift (settlement_score w1 w2) in
  do! modify (ws_push (WfSettlementComputed cohort_epoch spec_version score)) in
  ret score.

Definition gate_breach (epoch : EpochId) (s : WelfareState) : GateBreachFlags :=
  map_or GateBreachFlags_none snd (find_key fst epoch (ws_gate_flags s)).

Definition current_view (epoch : EpochId) (spec_version : MetricSpecVersion) (reserve_flag : bool) (st : WelfareState)
    : Result WelfareError WelfareView :=
  let? s := ws_snapshot epoch spec_version st in
  let flags := gate_breach epoch st in
  Ok {| wv_epoch := epoch; wv_spec_version := spec_version; wv_s_pillar_1e9 := sn_s_pillar s;
        wv_c_onchain_1e9 := sn_c_onchain s; wv_c_attested_1e9 := sn_c_attested s; wv_p_pillar_1e9 := sn_p_pillar s;
        wv_a_pillar_1e9 := sn_a_pillar s; wv_gate_s_1e9 := sn_gate_s s; wv_gate_c_1e9 := sn_gate_c s;
        wv_w_current_1e9 := sn_welfare s; wv_s_breached := gb_s_breached flags; wv_c_breached := gb_c_breached flags;
        wv_reserve_flag := reserve_flag; wv_active_spec_available := true |}.

Definition gate_window_sampled (epoch : EpochId) (s : WelfareState) : bool :=
  existsb (fun ef => ef.1 =? epoch) (ws_gate_flags s).

Definition gate_window_outcomes (cohort_epoch : EpochId) (s : WelfareState) : Result WelfareError (bool * bool) :=
  let? first_epoch := ok_or WfArithmeticOverflow (checked_add U32 cohort_epoch 1) in
  let? second_epoch := ok_or WfArithmeticOverflow (checked_add U32 cohort_epoch 2) in
  do? ensure (gate_window_sampled first_epoch s && gate_window_sampled second_epoch s) WfGateWindowUnsampled in
  let first := gate_breach first_epoch s in
  let second := gate_breach second_epoch s in
  Ok (gb_s_breached first || gb_s_breached second, gb_c_breached first || gb_c_breached second).

Definition prune_before (cutoff_epoch : EpochId) (s : WelfareState) : WelfareState :=
  set_gate_flags (filter (fun ef => cutoff_epoch <= ef.1) (ws_gate_flags s))
    (set_snapshots (filter (fun x => cutoff_epoch <= sn_epoch x) (ws_snapshots s)) s).

(** ** The state checker *)

Definition check_stored_spec (version : MetricSpecVersion) (prev : option MetricId) (spec : MetricSpec)
    : Result WelfareError (option MetricId) :=
  do? ensure ((ms_version spec =? version) && (ms_weight spec <=? WELFARE_ONE) && (ms_epsilon_floor spec =? EPSILON_PILLAR)
      && (ms_sanity_min spec <=? ms_sanity_max spec) && (ms_sanity_max spec <=? WELFARE_ONE)
      && ms_has_normalization_rule spec && ms_has_missing_data_rule spec && ms_has_gaming_vectors spec
      && ms_has_challenge_procedure spec && source_matches_pillar spec
      && match prev with None => true | Some p => p <? ms_id spec end) WfTryStateViolation in
  Ok (Some (ms_id spec)).

Definition sums_to_one (pillars : list Pillar) (specs : list MetricSpec) : bool :=
  match weight_sum pillars specs with Ok n => n =? WELFARE_ONE | Err _ => false end.

Definition check_spec_set (seen : list (MetricSpecVersion * list MetricSpec)) (vs : MetricSpecVersion * list MetricSpec)
    : Result WelfareError unit :=
  do? ensure (forallb (fun p => negb (p.1 =? vs.1)) seen) WfTryStateViolation in
  do? ensure (negb (length vs.2 =? 0)%nat && (length vs.2 <=? MAX_COMPONENTS_PER_SPEC)%nat) WfTryStateViolation in
  let? _ := try_fold (check_stored_spec vs.1) None vs.2 in
  ensure (sums_to_one [PillarCOnchain; PillarCAttested] vs.2 && sums_to_one [PillarP] vs.2 && sums_to_one [PillarA] vs.2)
    WfTryStateViolation.

Definition check_snapshot (seen : list Snapshot) (s : Snapshot) : Result WelfareError unit :=
  do? ensure (forallb (fun x => negb (sn_epoch x =? sn_epoch s) || negb (sn_spec_version x =? sn_spec_version s)) seen
      && (length (sn_components s) <=? MAX_COMPONENTS_PER_SPEC)%nat) WfTryStateViolation in
  ensure (forallb (fun v => v <=? WELFARE_ONE)
    [sn_s_pillar s; sn_c_onchain s; sn_c_attested s; sn_p_pillar s; sn_a_pillar s; sn_gate_s s; sn_gate_c s; sn_welfare s])
    WfTryStateViolation.

Definition check_gate_flags (seen : list (EpochId * GateBreachFlags)) (ef : EpochId * GateBreachFlags) : Result WelfareError unit :=
  ensure (forallb (fun p => negb (p.1 =? ef.1)) seen) WfTryStateViolation.

(** [for (index, x) in l.iter().enumerate()], with [l[..index]]. *)
Fixpoint for_prefixes {E T} (f : list T -> T -> Result E unit) (seen l : list T) : Result E unit :=
  match l with
  | [] => Ok tt
  | x :: l => do? f seen x in for_prefixes f (seen ++ [x]) l
  end.

Definition welfare_try_state (s : WelfareState) : Result WelfareError unit :=
  do? ensure ((length (ws_specs s) <=? MAX_METRIC_SPECS)%nat && (length (ws_snapshots s) <=? MAX_SNAPSHOTS)%nat
      && (length (ws_gate_flags s) <=? MAX_GATE_FLAGS)%nat) WfTryStateViolation in
  do? for_prefixes check_spec_set [] (ws_specs s) in
  do? for_prefixes check_snapshot [] (ws_snapshots s) in
  for_prefixes check_gate_flags [] (ws_gate_flags s).
