(* ===== verification/WelfareNum.v ===== *)
(** * The arithmetic of welfare, on integers

    Every grid operation stays in [0, 1e9] and none of the fixed-point steps
    overflows, so the composites are total. *)

From Stdlib Require Import Reals Lra.
From S2P Require Import Prelude Keyed Primitives U256 FixedPoint FixedProps FixedReal FixedLog FixedCost Welfare.

Abbreviation on_grid x := (0 <= x <= WELFARE_ONE) (only parsing).

Lemma wrap_grid x : on_grid x -> wrap U64 x = x.
Proof. intros H. unfold wrap, WELFARE_ONE in *. apply Z.mod_small. lia. Qed.

Lemma mul_down_spec a b : on_grid a -> on_grid b -> mul_down a b = a * b / WELFARE_ONE /\ 0 <= mul_down a b <= Z.min a b.
Proof.
  intros Ha Hb. assert (0 <= a * b / WELFARE_ONE <= Z.min a b) as H.
  { unfold WELFARE_ONE in *. split; [apply Z.div_pos; nia|]. apply Z.div_le_upper_bound; [done|]. nia. }
  unfold mul_down. rewrite wrap_grid by lia. done.
Qed.

Lemma q64_spec v : on_grid v -> q64_from_1e9 v = v * 2 ^ 64 / WELFARE_ONE /\ 18446744073 * v <= q64_from_1e9 v <= ONE_RAW.
Proof.
  intros Hv. unfold q64_from_1e9, from_raw, ONE_RAW. rewrite shl_mul by lia.
  rewrite Z.mod_small by (unfold WELFARE_ONE in *; lia). split; [done|]. unfold WELFARE_ONE in *. split.
  - apply Z.div_le_lower_bound; lia.
  - apply Z.div_le_upper_bound; lia.
Qed.

(** [1/v] as a raw number, and its logarithm. *)
Definition inverse_raw (v : Z) : Z := 2 ^ 128 / q64_from_1e9 v.

Lemma inverse_raw_range v :
  1 <= v < WELFARE_ONE -> ONE_RAW <= inverse_raw v < 2 ^ 94 /\ (EPSILON_PILLAR <= v -> inverse_raw v < 2 ^ 71).
Proof.
  intros Hv. unfold inverse_raw. destruct (q64_spec v ltac:(lia)) as (_ & Hq1 & Hq2). set (q := q64_from_1e9 v) in *.
  unfold ONE_RAW, EPSILON_PILLAR in *. clearbody q. split_and!.
  - apply Z.div_le_lower_bound; lia.
  - apply Z.div_lt_upper_bound; lia.
  - intros He. apply Z.div_lt_upper_bound; lia.
Qed.

Lemma inverse_log_total v :
  1 <= v < WELFARE_ONE ->
  exists l, inverse_log v = Ok l /\ log2_raw (inverse_raw v) = Ok l
    /\ 0 <= l <= 30 * 2 ^ 64 /\ (EPSILON_PILLAR <= v -> l <= 7 * 2 ^ 64).
Proof.
  intros Hv. destruct (inverse_raw_range v Hv) as [[Hi Hi'] He].
  destruct (q64_spec v ltac:(lia)) as (_ & Hq1 & Hq2).
  assert (1 <= Z.log2 (inverse_raw v) - 63 <= 30) as Hl.
  { unfold ONE_RAW in *. split; [pose proof (proj1 (Z.log2_le_pow2 (inverse_raw v) 64 ltac:(lia)) Hi); lia|].
    pose proof (proj1 (Z.log2_lt_pow2 (inverse_raw v) 94 ltac:(lia)) Hi'). lia. }
  destruct (log2_raw_range (inverse_raw v)) as (l & Hl1 & Hl2); [unfold ONE_RAW in *; lia|].
  exists l. split_and!; try lia; [|done|].
  - unfold inverse_log. rewrite fx_div_spec by (unfold ONE_RAW in *; lia).
    rewrite (proj2 (Z.eqb_neq _ 0)) by lia. change (ONE_RAW * 2 ^ 64 / q64_from_1e9 v) with (inverse_raw v).
    rewrite (proj2 (Z.ltb_lt _ _)) by lia. cbn [map_err rbind]. unfold fx_log2.
    rewrite (proj2 (Z.eqb_neq _ 0)) by (unfold ONE_RAW in *; lia). by rewrite Hl1.
  - intros Hp. specialize (He Hp). pose proof (proj1 (Z.log2_lt_pow2 (inverse_raw v) 71 ltac:(unfold ONE_RAW in *; lia)) He).
    nia.
Qed.

(** The ceiling of the product. *)
Lemma mul_ceil_spec a b :
  0 <= a < 2 ^ 70 -> 0 <= b < 2 ^ 66 -> mul_ceil_q64 a b = Ok ((a * b + (2 ^ 64 - 1)) / 2 ^ 64).
Proof.
  intros Ha Hb. unfold mul_ceil_q64. rewrite fx_mul_spec by lia.
  assert (0 <= a * b < 2 ^ 136) by nia. change (2 ^ 64) with U64.
  pose proof (Z.div_mod (a * b) U64 ltac:(lia)). pose proof (Z.mod_pos_bound (a * b) U64 ltac:(lia)).
  assert (0 <= a * b / U64 < 2 ^ 72) by (split; [apply Z.div_pos; lia|apply Z.div_lt_upper_bound; lia]).
  rewrite (proj2 (Z.ltb_lt _ _)) by lia. cbn [map_err rbind]. unfold wrap. rewrite <- Zmult_mod.
  destruct (Z.eqb_spec ((a * b) mod U64) 0) as [E|E]; cbn [negb].
  - f_equal. apply (Z.div_unique _ _ _ (U64 - 1)); lia.
  - rewrite fx_add_spec. unfold from_raw. rewrite (proj2 (Z.ltb_lt _ _)) by lia. cbn [map_err]. f_equal.
    apply (Z.div_unique _ _ _ ((a * b) mod U64 - 1)); lia.
Qed.

Lemma exp2_inverse_total e :
  0 <= e < 2 ^ 70 ->
  exists r, exp2_inverse_down e = Ok r /\ on_grid r
    /\ (e = 0 -> r = WELFARE_ONE)
    /\ (e <> 0 -> exists d, fx_exp2 e = Ok d /\ ONE_RAW <= d /\ r = 2 ^ 128 / d * WELFARE_ONE / 2 ^ 64).
Proof.
  intros He. unfold exp2_inverse_down. destruct (Z.eqb_spec e 0) as [->|Hne].
  { exists WELFARE_ONE. split; [done|]. split; [done|]. split; done. }
  destruct (exp2_positive_total e He) as (k & _ & _ & Hx & Hk). unfold fx_exp2. rewrite Hx.
  set (d := (k + 2 ^ 31) / 2 ^ 32 * 2 ^ (e / 2 ^ 64)) in *. cbn [map_err rbind].
  assert (0 <= e / 2 ^ 64 < 64) as Hw by (split; [apply Z.div_pos; lia|apply Z.div_lt_upper_bound; lia]).
  assert (ONE_RAW <= d < U128) as Hd.
  { assert (1 <= 2 ^ (e / 2 ^ 64) <= 2 ^ 63) by (split; [apply (Z.pow_le_mono_r 2 0); lia|apply Z.pow_le_mono_r; lia]).
    subst d. unfold ONE_RAW in *. set (h := (k + 2 ^ 31) / 2 ^ 32) in *. clearbody h. set (w := 2 ^ (e / 2 ^ 64)) in *. clearbody w.
    nia. }
  rewrite fx_div_spec by (unfold ONE_RAW in *; lia). rewrite (proj2 (Z.eqb_neq d 0)) by (unfold ONE_RAW in *; lia).
  change (ONE_RAW * 2 ^ 64) with (2 ^ 128).
  assert (0 <= 2 ^ 128 / d <= ONE_RAW) as Ht.
  { unfold ONE_RAW in *. split; [apply Z.div_pos; lia|apply Z.div_le_upper_bound; lia]. }
  rewrite (proj2 (Z.ltb_lt _ _)) by (unfold ONE_RAW in *; lia). cbn [map_err rbind].
  assert (on_grid (2 ^ 128 / d * WELFARE_ONE / 2 ^ 64)) as Hr.
  { unfold ONE_RAW, WELFARE_ONE in *. split; [apply Z.div_pos; lia|apply Z.div_le_upper_bound; lia]. }
  exists (2 ^ 128 / d * WELFARE_ONE / 2 ^ 64). split; [|split; [exact Hr|split; [done|]]].
  - unfold q64_to_1e9_down. rewrite (wrap_small U128) by (unfold ONE_RAW, WELFARE_ONE in *; lia).
    by rewrite shr_div, wrap_grid.
  - intros _. exists d. split; [done|]. split; [apply Hd|done].
Qed.

(** ** Smoothstep *)

Definition smooth (t : Z) : Z := t * t / WELFARE_ONE * (3 * WELFARE_ONE - 2 * t) / WELFARE_ONE.

Lemma smooth_grid t : on_grid t -> on_grid (t * t / WELFARE_ONE) /\ on_grid (smooth t).
Proof.
  intros Ht. unfold smooth, WELFARE_ONE in *. pose proof (Z.div_mod (t * t) 1000000000 ltac:(lia)) as Hd.
  pose proof (Z.mod_pos_bound (t * t) 1000000000 ltac:(lia)). set (t2 := t * t / 1000000000) in *. clearbody t2.
  assert (t * t <= 1000000000 * 1000000000) as Hsq by (apply Z.mul_le_mono_nonneg; lia).
  assert (0 <= t * t) as Hsq0 by (apply Z.mul_nonneg_nonneg; lia).
  assert (0 <= t2 <= 1000000000) as H2 by lia. split; [done|]. split; [apply Z.div_pos; [apply Z.mul_nonneg_nonneg; lia|lia]|].
  apply Z.div_le_upper_bound; [lia|].
  assert (0 <= (1000000000 - t) * (1000000000 - t) * (1000000000 + 2 * t)) as Hp
    by (apply Z.mul_nonneg_nonneg; [apply Z.mul_nonneg_nonneg|]; lia).
  assert (t2 * 1000000000 * (3000000000 - 2 * t) <= t * t * (3000000000 - 2 * t)) as Hle
    by (apply Z.mul_le_mono_nonneg_r; lia).
  replace (3 * 1000000000) with 3000000000 by done. lia.
Qed.

Lemma gate_spec x lo hi :
  0 <= lo < hi -> hi <= WELFARE_ONE -> on_grid x ->
  exists g, gate x lo hi = Ok g /\ on_grid g /\ (x <= lo -> g = 0) /\ (hi <= x -> g = WELFARE_ONE)
    /\ (lo < x < hi -> g = smooth ((x - lo) * WELFARE_ONE / (hi - lo))).
Proof.
  intros Hlo Hhi Hx. unfold gate. rewrite !(proj2 (Z.ltb_lt _ _)), !(proj2 (Z.leb_le _ _)) by lia. cbn [ensure andb rbind].
  destruct (Z.leb_spec x lo). { exists 0. unfold WELFARE_ONE in *. split; [done|]. repeat split; lia. }
  destruct (Z.leb_spec hi x). { exists WELFARE_ONE. unfold WELFARE_ONE in *. split; [done|]. repeat split; lia. }
  set (t := (x - lo) * WELFARE_ONE / (hi - lo)).
  assert (on_grid t) as Ht.
  { unfold t, WELFARE_ONE. split; [apply Z.div_pos; lia|apply Z.div_le_upper_bound; nia]. }
  destruct (smooth_grid t Ht) as [H2 Hs]. rewrite (wrap_grid t Ht), (wrap_grid _ H2). exists (smooth t).
  split; [unfold smooth in *; by rewrite wrap_grid|]. split; [exact Hs|]. split; [lia|]. split; [lia|done].
Qed.

(** ** The settlement score *)

Lemma ord_clamp_spec x lo hi : lo <= hi -> ord_clamp x lo hi = Z.max lo (Z.min x hi).
Proof. intros. unfold ord_clamp. repeat case_match; lia. Qed.

Definition floored (w : FixedU64) : Z := Z.max EPSILON (Z.min w WELFARE_ONE).

Lemma settlement_spec w1 w2 : settlement_score w1 w2 = Ok (Z.sqrt (floored w1 * floored w2)).
Proof.
  unfold settlement_score. rewrite !ord_clamp_spec by (unfold EPSILON, WELFARE_ONE; lia). fold (floored w1) (floored w2).
  assert (1 <= floored w1 <= 1000000000 /\ 1 <= floored w2 <= 1000000000) as [H1 H2]
    by (unfold floored, EPSILON, WELFARE_ONE; lia).
  unfold checked_mul. rewrite (proj2 (Z.ltb_lt _ _)) by nia. cbn [ok_or rbind].
  rewrite (proj2 (Z.ltb_lt _ _)); [done|].
  pose proof (Z.sqrt_le_mono (floored w1 * floored w2) (1000000000 * 1000000000) ltac:(nia)) as H.
  rewrite Z.sqrt_square in H by lia. lia.
Qed.

Lemma floored_range w : 1 <= floored w <= WELFARE_ONE.
Proof. unfold floored, EPSILON, WELFARE_ONE. lia. Qed.

Lemma floored_mono w w' : w <= w' -> floored w <= floored w'.
Proof. unfold floored. lia. Qed.

(** ** The components of a spec *)

Definition component (components : list ComponentValue) (id : MetricId) : Z :=
  default 0 (cv_value <$> head (filter (fun c => cv_id c = id) components)).

Lemma value_for_fold id components found :
  try_fold (fun found c =>
      if cv_id c =? id then
        do? ensure (is_none found) WfDuplicateComponent in
        do? ensure (cv_value c <=? WELFARE_ONE) WfValueOutOfRange in
        Ok (Some (cv_value c))
      else Ok found) found components =
  match found, filter (fun c => cv_id c = id) components with
  | _, [] => Ok found
  | None, [c] => if cv_value c <=? WELFARE_ONE then Ok (Some (cv_value c)) else Err WfValueOutOfRange
  | None, c :: _ => if cv_value c <=? WELFARE_ONE then Err WfDuplicateComponent else Err WfValueOutOfRange
  | Some _, _ :: _ => Err WfDuplicateComponent
  end.
Proof.
  revert found. induction components as [|c l IH]; intros found; [by destruct found|].
  rewrite filter_cons. cbn [try_fold]. destruct (decide (cv_id c = id)) as [E|E].
  - rewrite (proj2 (Z.eqb_eq _ _)) by done. destruct found; [done|]. cbn [is_none ensure rbind].
    destruct (Z.leb_spec (cv_value c) WELFARE_ONE); cbn [ensure rbind]; [|by destruct (filter _ l)].
    rewrite IH. by destruct (filter _ l).
  - rewrite (proj2 (Z.eqb_neq _ _)) by done. cbn [rbind]. apply IH.
Qed.

(** A component is read if it is there once, on the grid. *)
Definition reported (components : list ComponentValue) (id : MetricId) : Prop :=
  exists c, filter (fun c => cv_id c = id) components = [c] /\ cv_value c <= WELFARE_ONE.

Lemma value_for_Ok id components v :
  value_for id components = Ok v <-> reported components id /\ v = component components id.
Proof.
  unfold value_for, reported, component. rewrite value_for_fold.
  destruct (filter _ components) as [|c [|c' l]]; cbn.
  - split; [done|]. by intros [(? & ? & _) _].
  - destruct (Z.leb_spec (cv_value c) WELFARE_ONE); cbn; split.
    + intros [= <-]. split; [by exists c|done].
    + by intros [_ ->].
    + done.
    + intros [(d & [= <-] & ?) _]. lia.
  - split; [by destruct (_ <=? _)|]. by intros [(? & ? & _) _].
Qed.

Lemma component_grid components id :
  Forall (fun c => 0 <= cv_value c) components -> reported components id -> on_grid (component components id).
Proof.
  intros Hn (c & E & Hc). unfold component. rewrite E. cbn. split; [|done].
  assert (c ∈ filter (fun c => cv_id c = id) components) as [_ Hin]%list_elem_of_filter by (rewrite E; by left).
  by apply (proj1 (Forall_forall _ _) Hn).
Qed.

(** ** Accuracy of the composites

    Each factor of a weighted geometric mean enters the exponent with an error
    proportional to its weight; the weights sum to at most one, so the
    composite is the real one up to two units of the grid. *)

#[local] Open Scope R_scope.

Definition unitR : R := 1000000000.

(** A grid value. *)
Definition gridR (v : Z) : R := IZR v / unitR.

Lemma ulp_value : ulp = / 18446744073709551616.
Proof. unfold ulp, pw. by replace (2 ^ 64)%Z with 18446744073709551616%Z by done. Qed.

Lemma gridR_one : gridR WELFARE_ONE = 1.
Proof. unfold gridR, unitR, WELFARE_ONE. lra. Qed.

Lemma gridR_range v : on_grid v -> 0 <= gridR v <= 1.
Proof.
  intros [H1 H2]. apply IZR_le in H1, H2. unfold gridR, unitR, WELFARE_ONE in *. lra.
Qed.

Lemma toR_q64 v : on_grid v -> gridR v - ulp < toR (q64_from_1e9 v) <= gridR v.
Proof.
  intros Hv. destruct (q64_spec v Hv) as [-> _].
  pose proof (IZR_div (v * 2 ^ 64) WELFARE_ONE ltac:(done)) as Hd. rewrite mult_IZR in Hd. fold (pw 64) in Hd.
  pose proof (pw_pos 64 ltac:(lia)) as Hp. unfold toR, gridR, unitR, ulp. unfold WELFARE_ONE in *.
  set (z := IZR (v * 2 ^ 64 / 1000000000)) in *. set (x := IZR v) in *. clearbody z x.
  assert (x / 1000000000 = x * pw 64 / 1000000000 / pw 64) as -> by (field; lra).
  unfold Rdiv in *. set (i := / pw 64) in *. assert (0 < i) by (by apply Rinv_0_lt_compat).
  set (y := x * pw 64 * / 1000000000) in *. clearbody y i. split; nra.
Qed.

(** Inverting a value cut to 64 bits. *)
Lemma inverse_within x q y :
  / 1000000000 <= x < 1 -> x - ulp < q <= x -> 1 / q - ulp < y <= 1 / q -> within (6 / 100000000000) y (/ x).
Proof.
  rewrite ulp_value. intros Hx Hq Hy.
  assert (0 < q) as Hq0 by lra. assert (0 < / x) by (apply Rinv_0_lt_compat; lra).
  assert (/ x <= / q) by (apply Rinv_le_contravar; lra).
  assert (1 <= / x) as H1 by (rewrite <- Rinv_1; apply Rinv_le_contravar; lra).
  split; [lra|].
  assert (/ q <= (1 + 6 / 100000000000) * / x); [|lra].
  apply (Rmult_le_reg_r (q * x)); [nra|].
  replace (/ q * (q * x)) with x by (field; lra).
  replace ((1 + 6 / 100000000000) * / x * (q * x)) with ((1 + 6 / 100000000000) * q) by (field; lra).
  lra.
Qed.

Lemma log_error_small : / pw 65 + / pw 92 <= ulp.
Proof.
  pose proof (half_pow 64 ltac:(lia)) as E. change (64 + 1)%Z with 65%Z in E. unfold ulp. rewrite E.
  pose proof (small_pow 65 92 ltac:(lia)). lra.
Qed.

(** The inverse of a grid value and its logarithm. *)
Lemma inverse_log_accurate v l :
  (1 <= v < WELFARE_ONE)%Z -> inverse_log v = Ok l -> Rabs (toR l - log2R (/ gridR v)) <= 3 / 10000000000.
Proof.
  intros Hv Hl. destruct (inverse_log_total v Hv) as (l' & Hl' & Hlog & _). rewrite Hl' in Hl. injection Hl as ->.
  destruct (inverse_raw_range v Hv) as [[Hi Hi'] _].
  destruct (log2_accurate_fine (inverse_raw v)) as (r & Hr & Hacc); [lia|]. rewrite Hlog in Hr. injection Hr as <-.
  destruct (q64_spec v ltac:(lia)) as (_ & Hq1 & _).
  pose proof (toR_q64 v ltac:(lia)) as Hq.
  pose proof (toR_div ONE_RAW (q64_from_1e9 v) ltac:(lia)) as Hd. rewrite toR_one in Hd.
  change (ONE_RAW * 2 ^ 64 / q64_from_1e9 v)%Z with (inverse_raw v) in Hd.
  assert (/ 1000000000 <= gridR v < 1) as Hx.
  { destruct Hv as [H1 H2]. apply IZR_le in H1. apply IZR_lt in H2. unfold gridR, unitR, WELFARE_ONE in *. lra. }
  pose proof (inverse_within _ _ _ Hx Hq Hd) as Hw.
  apply log2R_within in Hw; [|lra|apply Rinv_0_lt_compat; lra].
  pose proof log_error_small as He. rewrite ulp_value in He.
  apply Rabs_inv in Hw, Hacc. apply Rabs_le. lra.
Qed.

(** ** One factor *)

(** The weight of a factor, of a total. *)
Definition shareR (w total : Z) : R := IZR w / IZR total.

(** The weight the code computes: cut to 64 bits, and divided when the total is
    not one. *)
Definition weight_close (wt w total : Z) : Prop :=
  (0 <= wt /\ wt * total <= w * 2 ^ 65)%Z
  /\ Rabs (toR wt - shareR w total) <= 6 / 100000000000 * shareR w total + ulp.

Lemma full_weight w : on_grid w -> weight_close (q64_from_1e9 w) w WELFARE_ONE.
Proof.
  intros Hw. pose proof (toR_q64 w Hw) as Hr. destruct (q64_spec w Hw) as (E & Hq1 & _).
  pose proof (gridR_range w Hw) as Hg. split.
  - rewrite E. pose proof (Z.mul_div_le (w * 2 ^ 64) WELFARE_ONE ltac:(done)). unfold WELFARE_ONE in *. lia.
  - change (shareR w WELFARE_ONE) with (gridR w). apply Rabs_le. lra.
Qed.

Lemma ratio_close W T a b :
  / 1000000000 <= W <= T -> T <= 1 -> W - ulp < a <= W -> T - ulp < b <= T ->
  Rabs (a / b - W / T) <= 6 / 100000000000 * (W / T).
Proof.
  rewrite ulp_value. intros HW HT Ha Hb. assert (0 < b) by lra. assert (0 < a) by lra.
  apply Rabs_le. split.
  - assert ((1 - 6 / 100000000000) * (W / T) <= a / b); [|lra].
    apply (Rmult_le_reg_r (b * T)); [nra|].
    replace ((1 - 6 / 100000000000) * (W / T) * (b * T)) with ((1 - 6 / 100000000000) * W * b) by (field; lra).
    replace (a / b * (b * T)) with (a * T) by (field; lra). nra.
  - assert (a / b <= (1 + 6 / 100000000000) * (W / T)); [|lra].
    apply (Rmult_le_reg_r (b * T)); [nra|].
    replace ((1 + 6 / 100000000000) * (W / T) * (b * T)) with ((1 + 6 / 100000000000) * b * W) by (field; lra).
    replace (a / b * (b * T)) with (T * a) by (field; lra). nra.
Qed.

Lemma shared_weight w total wt :
  (1 <= w <= total)%Z -> (total <= WELFARE_ONE)%Z ->
  fx_div (q64_from_1e9 w) (q64_from_1e9 total) = Ok wt -> weight_close wt w total.
Proof.
  intros Hw Ht Hd. destruct (q64_spec w ltac:(lia)) as (Ew & Hw1 & Hw2). destruct (q64_spec total ltac:(lia)) as (Et & Ht1 & Ht2).
  rewrite fx_div_spec in Hd by (unfold ONE_RAW in *; lia). rewrite (proj2 (Z.eqb_neq _ 0)) in Hd by lia.
  destruct (Z.ltb_spec (q64_from_1e9 w * 2 ^ 64 / q64_from_1e9 total) U128); [|done]. injection Hd as <-.
  split.
  - split; [apply Z.div_pos; lia|]. 
    pose proof (Z.mul_div_le (q64_from_1e9 w * 2 ^ 64) (q64_from_1e9 total) ltac:(lia)) as H1.
    pose proof (Z.mul_div_le (w * 2 ^ 64) WELFARE_ONE ltac:(done)) as H2. rewrite <- Ew in H2.
    set (z := (q64_from_1e9 w * 2 ^ 64 / q64_from_1e9 total)%Z) in *.
    assert (0 <= z)%Z by (apply Z.div_pos; lia).
    clearbody z. unfold WELFARE_ONE in *. nia.
  - pose proof (toR_q64 w ltac:(lia)) as Hwr. pose proof (toR_q64 total ltac:(lia)) as Htr.
    pose proof (toR_div (q64_from_1e9 w) (q64_from_1e9 total) ltac:(lia)) as Hz.
    assert (shareR w total = gridR w / gridR total) as ->.
    { unfold shareR, gridR, unitR. field. apply not_0_IZR. lia. }
    assert (/ 1000000000 <= gridR w <= gridR total /\ gridR total <= 1) as [HW HT].
    { destruct Hw as [H1 H2]. apply IZR_le in H1, H2, Ht. unfold gridR, unitR, WELFARE_ONE in *. lra. }
    pose proof (ratio_close _ _ _ _ HW HT Hwr Htr) as Hr. apply Rabs_inv in Hr. apply Rabs_le. lra.
Qed.

Lemma term_close lr L wr W c :
  0 <= lr <= 7 -> Rabs (lr - L) <= 3 / 10000000000 -> Rabs (wr - W) <= 6 / 100000000000 * W + ulp -> 0 <= W ->
  Rabs (c - lr * wr) <= ulp -> Rabs (c - W * L) <= 8 / 10000000000 * W + 8 * ulp.
Proof.
  intros Hl HL HW HW0 Hc. apply Rabs_inv in HL, HW, Hc. pose proof ulp_pos.
  assert (- (7 * (6 / 100000000000 * W + ulp)) <= lr * (wr - W) <= 7 * (6 / 100000000000 * W + ulp)) by (split; nra).
  assert (- (3 / 10000000000 * W) <= W * (lr - L) <= 3 / 10000000000 * W) by (split; nra).
  apply Rabs_le. lra.
Qed.

Lemma toR_whole n : toR (n * 2 ^ 64) = IZR n.
Proof. unfold toR. rewrite mult_IZR. fold (pw 64). pose proof (pw_pos 64 ltac:(lia)). field. lra. Qed.

Lemma toR_ceil a b : Rabs (toR ((a * b + (2 ^ 64 - 1)) / 2 ^ 64) - toR a * toR b) <= ulp.
Proof.
  pose proof (IZR_div (a * b + (2 ^ 64 - 1)) (2 ^ 64) ltac:(lia)) as Hd.
  rewrite plus_IZR, mult_IZR, minus_IZR in Hd. fold (pw 64) in Hd.
  pose proof (pw_pos 64 ltac:(lia)) as Hp. assert (1 <= pw 64) as H1 by (unfold pw; apply IZR_le; lia).
  rewrite toR_scale, (toR_scale a), (toR_scale b). unfold ulp. set (c := IZR ((a * b + (2 ^ 64 - 1)) / 2 ^ 64)) in *. clearbody c.
  set (p := pw 64) in *. set (n := IZR a * IZR b) in *.
  replace (c * / p - IZR a * / p * (IZR b * / p)) with ((c - n / p) * / p) by (unfold n; field; lra).
  rewrite Rabs_mult, (Rabs_right (/ p)) by (apply Rle_ge, Rlt_le, Rinv_0_lt_compat; lra).
  rewrite <- (Rmult_1_l (/ p)) at 2. apply Rmult_le_compat_r; [apply Rlt_le, Rinv_0_lt_compat; lra|].
  assert ((n + (p - 1)) / p = n / p + 1 - / p) as E by (field; lra). rewrite E in Hd.
  assert (/ p <= 1) by (rewrite <- Rinv_1; apply Rinv_le_contravar; lra).
  assert (0 < / p) by (apply Rinv_0_lt_compat; lra). apply Rabs_le. lra.
Qed.

(** The term of a factor in the exponent. *)
Lemma factor_term v w total wt :
  (EPSILON_PILLAR <= v < WELFARE_ONE)%Z -> (1 <= w <= total)%Z -> weight_close wt w total ->
  exists l c, inverse_log v = Ok l /\ mul_ceil_q64 l wt = Ok c /\ (0 <= c)%Z
    /\ (c * total <= 14 * w * 2 ^ 64 + total)%Z
    /\ Rabs (toR c - shareR w total * log2R (/ gridR v)) <= 8 / 10000000000 * shareR w total + 8 * ulp.
Proof.
  intros Hv Hw [[Hwt Hwt'] Hclose].
  assert (1 <= v < WELFARE_ONE)%Z as Hv1 by (unfold EPSILON_PILLAR in *; lia).
  destruct (inverse_log_total v Hv1) as (l & Hl & _ & Hlr & Hl7). specialize (Hl7 (proj1 Hv)).
  pose proof (inverse_log_accurate v l Hv1 Hl) as Hacc.
  assert (wt < 2 ^ 66)%Z as Hwt2 by nia.
  exists l, ((l * wt + (2 ^ 64 - 1)) / 2 ^ 64)%Z. split; [done|]. split; [apply mul_ceil_spec; lia|].
  split; [apply Z.div_pos; nia|]. split.
  - pose proof (Z.mul_div_le (l * wt + (2 ^ 64 - 1)) (2 ^ 64) ltac:(done)) as Hd.
    set (c := ((l * wt + (2 ^ 64 - 1)) / 2 ^ 64)%Z) in *. clearbody c.
    assert (l * wt <= 7 * 2 ^ 64 * wt)%Z by (apply Z.mul_le_mono_nonneg_r; lia).
    assert (c <= 7 * wt + 1)%Z as Hc by lia. nia.
  - apply (term_close (toR l) (log2R (/ gridR v)) (toR wt) (shareR w total)); [|done|done| |by apply toR_ceil].
    + apply toR_le in Hl7. rewrite toR_whole in Hl7. split; [apply toR_nonneg; lia|done].
    + unfold shareR. destruct Hw as [H1 H2]. apply IZR_le in H1, H2. apply Rle_mult_inv_pos; lra.
Qed.

(** ** The exponent *)

(** The value that enters a composite. *)
Definition floored_component (components : list ComponentValue) (m : MetricSpec) : Z :=
  Z.max (component components (ms_id m)) EPSILON_PILLAR.

(** What a stored spec and a reported component give a composite with [total]. *)
Record factor_ok (components : list ComponentValue) (total : Z) (m : MetricSpec) : Prop := {
  fo_reported : reported components (ms_id m);
  fo_grid : (0 <= component components (ms_id m) <= WELFARE_ONE)%Z;
  fo_floor : ms_epsilon_floor m = EPSILON_PILLAR;
  fo_weight : (0 <= ms_weight m <= total)%Z;
}.

Definition term_of (components : list ComponentValue) (total : Z) (m : MetricSpec) : R :=
  shareR (ms_weight m) total * log2R (/ gridR (floored_component components m)).

Definition sumR (l : list R) : R := foldr Rplus 0 l.

Lemma toR_zero : toR 0 = 0.
Proof. unfold toR. apply Rdiv_0_l. Qed.

Lemma shareR_zero total : shareR 0 total = 0.
Proof. unfold shareR. apply Rdiv_0_l. Qed.

Lemma shareR_nonneg w total : (0 <= w)%Z -> (1 <= total)%Z -> 0 <= shareR w total.
Proof. intros. apply Rle_mult_inv_pos; [apply IZR_le; lia|apply IZR_lt; lia]. Qed.

Lemma step_weight w total :
  (1 <= w <= total)%Z -> (total <= WELFARE_ONE)%Z ->
  exists wt, fx_div (q64_from_1e9 w) (q64_from_1e9 total) = Ok wt /\ weight_close wt w total.
Proof.
  intros Hw Ht. destruct (q64_spec w ltac:(lia)) as (Ew & Hw1 & Hw2). destruct (q64_spec total ltac:(lia)) as (Et & Ht1 & Ht2).
  destruct (fx_div (q64_from_1e9 w) (q64_from_1e9 total)) as [wt|e] eqn:Hd; [exists wt; split; [done|by apply shared_weight]|].
  exfalso. rewrite fx_div_spec in Hd by (unfold ONE_RAW in *; lia). rewrite (proj2 (Z.eqb_neq _ 0)) in Hd by lia.
  rewrite (proj2 (Z.ltb_lt _ _)) in Hd; [done|]. apply Z.div_lt_upper_bound; [lia|]. unfold ONE_RAW in *. nia.
Qed.

Lemma geo_step_spec components ren total exponent m :
  ren = None /\ total = WELFARE_ONE \/ ren = Some total ->
  (1 <= total <= WELFARE_ONE)%Z -> factor_ok components total m ->
  exists c, (0 <= c)%Z /\ (c * total <= 14 * ms_weight m * 2 ^ 64 + total)%Z
    /\ Rabs (toR c - term_of components total m) <= 8 / 10000000000 * shareR (ms_weight m) total + 8 * ulp
    /\ (exponent + c < U128 -> geo_step components ren exponent m = Ok (exponent + c))%Z.
Proof.
  intros Hren Ht [Hrep Hg He Hw]. unfold geo_step, term_of, floored_component.
  rewrite (proj2 (value_for_Ok _ _ _) (conj Hrep eq_refl)). cbn [rbind]. rewrite He.
  set (v := Z.max (component components (ms_id m)) EPSILON_PILLAR).
  assert (EPSILON_PILLAR <= v <= WELFARE_ONE)%Z as Hv by (unfold v, EPSILON_PILLAR, WELFARE_ONE in *; lia).
  pose proof ulp_pos as Hu.
  destruct (Z.eqb_spec (ms_weight m) 0) as [E0|E0]; [|destruct (Z.leb_spec WELFARE_ONE v) as [E1|E1]]; cbn [orb].
  - exists 0%Z. rewrite E0. split; [done|]. split; [lia|]. split; [|intros _; f_equal; lia].
    rewrite shareR_zero, toR_zero, Rmult_0_l, Rminus_0_r, Rabs_R0. lra.
  - exists 0%Z. split; [done|]. split; [lia|]. split; [|intros _; f_equal; lia].
    assert (v = WELFARE_ONE) as -> by lia. rewrite gridR_one, Rinv_1, log2R_1, toR_zero, Rmult_0_r, Rminus_0_r, Rabs_R0.
    pose proof (shareR_nonneg (ms_weight m) total ltac:(lia) ltac:(lia)). lra.
  - assert (exists wt, match ren with
       | Some total => do? ensure (0 <? total)%Z WfBadWeightSum in
                       map_err (fun _ => WfArithmeticOverflow) (fx_div (q64_from_1e9 (ms_weight m)) (q64_from_1e9 total))
       | None => Ok (q64_from_1e9 (ms_weight m)) end = Ok wt /\ weight_close wt (ms_weight m) total) as (wt & Ewt & Hwt).
    { destruct Hren as [[-> ->]| ->]; [exists (q64_from_1e9 (ms_weight m)); split; [done|apply full_weight; lia]|].
      destruct (step_weight (ms_weight m) total) as (wt & Hd & Hc); [lia|lia|]. exists wt.
      rewrite (proj2 (Z.ltb_lt _ _)) by lia. cbn [ensure rbind]. by rewrite Hd. }
    destruct (factor_term v (ms_weight m) total wt) as (l & c & Hl & Hc & Hc0 & Hb & Hacc); [lia|lia|done|].
    exists c. split; [done|]. split; [done|]. split; [done|]. intros Hlt.
    rewrite (proj2 (Z.ltb_lt 0 v)) by (unfold EPSILON_PILLAR in *; lia). cbn [ensure rbind].
    rewrite Hl. cbn [rbind]. rewrite Ewt. cbn [rbind]. rewrite Hc. cbn [rbind].
    rewrite fx_add_spec, (proj2 (Z.ltb_lt _ _)) by done. done.
Qed.

Lemma exponent_spec components ren total l exponent :
  ren = None /\ total = WELFARE_ONE \/ ren = Some total ->
  (1 <= total <= WELFARE_ONE)%Z -> Forall (factor_ok components total) l -> (0 <= exponent)%Z ->
  (exponent * total + 14 * sum_by ms_weight l * 2 ^ 64 + Z.of_nat (length l) * total < 2 ^ 70 * total)%Z ->
  exists e, try_fold (geo_step components ren) exponent l = Ok (exponent + e)%Z
    /\ (0 <= e)%Z /\ (e * total <= 14 * sum_by ms_weight l * 2 ^ 64 + Z.of_nat (length l) * total)%Z
    /\ Rabs (toR e - sumR (map (term_of components total) l))
         <= 8 / 10000000000 * sumR (map (fun m => shareR (ms_weight m) total) l) + 8 * INR (length l) * ulp.
Proof.
  intros Hren Ht Hl. revert exponent. induction Hl as [|m l Hm Hl IH]; intros exponent He Hb.
  - exists 0%Z. cbn [try_fold map sumR foldr length sum_by INR]. split; [f_equal; lia|]. split; [done|]. split; [lia|].
    rewrite toR_zero, Rminus_0_r, Rabs_R0. lra.
  - cbn [sum_by length] in Hb. rewrite Nat2Z.inj_succ in Hb.
    destruct (geo_step_spec components ren total exponent m Hren Ht Hm) as (c & Hc0 & Hcb & Hcacc & Hstep).
    assert (0 <= sum_by ms_weight l)%Z as Hs.
    { apply sum_by_nonneg. intros x Hx. destruct (proj1 (Forall_forall _ _) Hl x Hx) as [_ _ _ ?]. lia. }
    destruct (IH (exponent + c)%Z) as (e & Hf & He0 & Heb & Heacc); [lia|lia|].
    exists (c + e)%Z. cbn [try_fold]. rewrite Hstep by nia. cbn [rbind]. rewrite Hf.
    cbn [sum_by length]. rewrite Nat2Z.inj_succ, S_INR. split; [f_equal; lia|]. split; [lia|]. split; [lia|].
    cbn [map]. unfold sumR in *. cbn [foldr]. rewrite toR_plus. apply Rabs_inv in Hcacc, Heacc. apply Rabs_le. lra.
Qed.

(** ** The composite *)

(** [x1^w1 * x2^w2 * ..] *)
Definition geo_mean (l : list (R * R)) : R := foldr (fun xw acc => Rpower xw.1 xw.2 * acc) 1 l.

Definition factor (components : list ComponentValue) (total : Z) (m : MetricSpec) : R * R :=
  (gridR (floored_component components m), shareR (ms_weight m) total).

Lemma ln2_le_1 : ln 2 <= 1.
Proof.
  pose proof (exp_ineq1_le 1) as H. rewrite <- (ln_exp 1). destruct (Rle_lt_or_eq_dec _ _ H) as [Hlt|Heq].
  - apply Rlt_le, ln_increasing; lra.
  - right. f_equal. lra.
Qed.

Lemma power_term x w : 0 < x -> Rpower x w = Rpower 2 (- (w * log2R (/ x))).
Proof.
  intros Hx. pose proof ln2_pos. unfold Rpower, log2R. rewrite ln_Rinv by done. f_equal. field. lra.
Qed.

Lemma pow2_close e E d : 0 <= e -> 0 <= E -> Rabs (e - E) <= d -> Rabs (Rpower 2 (- e) - Rpower 2 (- E)) <= d.
Proof.
  intros He HE Hd. pose proof ln2_pos. pose proof ln2_le_1. unfold Rpower. rewrite !Ropp_mult_distr_l_reverse.
  apply exp_lipschitz; [nra|nra|]. replace (e * ln 2 - E * ln 2) with ((e - E) * ln 2) by lra.
  rewrite Rabs_mult, (Rabs_right (ln 2)) by lra. pose proof (Rabs_pos (e - E)). nra.
Qed.

Lemma inverse_close D P : 1 <= P -> within ulp D P -> Rabs (1 / D - / P) <= 2 * ulp.
Proof.
  intros HP [H1 H2]. pose proof ulp_pos. pose proof ulp_small.
  assert (P / 2 <= D) as HD by nra. assert (0 < D) by lra.
  replace (1 / D - / P) with ((P - D) * / (D * P)) by (field; lra).
  assert (0 < / (D * P)) as Hi by (apply Rinv_0_lt_compat; nra).
  rewrite Rabs_mult, (Rabs_right (/ (D * P))) by lra.
  assert (Rabs (P - D) <= ulp * P) as Hd by (apply Rabs_le; lra).
  apply (Rmult_le_reg_r (D * P)); [nra|]. rewrite Rmult_assoc, Rinv_l by nra. rewrite Rmult_1_r.
  assert (ulp * P * 1 <= ulp * P * (2 * D)) by (apply Rmult_le_compat_l; nra). lra.
Qed.

Lemma exp2_inverse_accurate e r :
  (0 <= e < 2 ^ 70)%Z -> exp2_inverse_down e = Ok r -> Rabs (gridR r - Rpower 2 (- toR e)) <= / unitR + 3 * ulp.
Proof.
  intros He Hr. destruct (exp2_inverse_total e He) as (r' & Hr' & Hg & H0 & H1). rewrite Hr in Hr'. injection Hr' as <-.
  assert (0 < / unitR) as Hun by (unfold unitR; lra). pose proof ulp_pos as Hu.
  destruct (Z.eq_dec e 0) as [->|Hne].
  { rewrite H0 by done. rewrite gridR_one, toR_zero, Ropp_0, Rpower_O by lra. rewrite Rminus_diag, Rabs_R0. lra. }
  destruct (H1 Hne) as (d & Hd & Hd1 & ->). destruct (exp2_accurate e He) as (d' & Hd' & Hw). rewrite Hd in Hd'. injection Hd' as <-.
  rewrite Rpower_Ropp. fold ulp in Hw. set (P := Rpower 2 (toR e)) in *.
  assert (1 <= P) as HP.
  { unfold P. rewrite <- (Rpower_O 2) by lra. apply Rle_Rpower; [lra|]. apply toR_nonneg. lia. }
  assert (0 < d)%Z as Hdpos by (unfold ONE_RAW in *; lia).
  pose proof (toR_div ONE_RAW d Hdpos) as Ht. rewrite toR_one in Ht. change (ONE_RAW * 2 ^ 64)%Z with (2 ^ 128)%Z in Ht.
  assert (Rabs (1 / toR d - / P) <= 2 * ulp) as Hinv by (apply inverse_close; done).
  set (t := (2 ^ 128 / d)%Z) in *.
  assert (toR t - / unitR < gridR (t * WELFARE_ONE / 2 ^ 64) <= toR t) as Hf.
  { pose proof (IZR_div (t * WELFARE_ONE) (2 ^ 64) ltac:(lia)) as Hz. rewrite mult_IZR in Hz. fold (pw 64) in Hz.
    unfold gridR, toR, unitR in *. unfold WELFARE_ONE in Hz. pose proof (pw_pos 64 ltac:(lia)).
    replace (IZR t * 1000000000 / pw 64) with (IZR t / pw 64 * 1000000000) in Hz by (field; lra).
    unfold WELFARE_ONE. lra. }
  apply Rabs_inv in Hinv. apply Rabs_le. lra.
Qed.

Lemma term_nonneg components total m : (1 <= total)%Z -> factor_ok components total m -> 0 <= term_of components total m /\ 0 < gridR (floored_component components m).
Proof.
  intros Ht [_ Hg _ Hw]. unfold term_of.
  assert (EPSILON_PILLAR <= floored_component components m <= WELFARE_ONE)%Z as Hv
    by (unfold floored_component, EPSILON_PILLAR, WELFARE_ONE in *; lia).
  set (v := floored_component components m) in *.
  assert (/ 100 <= gridR v <= 1) as Hx.
  { destruct Hv as [H1 H2]. apply IZR_le in H1, H2. unfold gridR, unitR, EPSILON_PILLAR, WELFARE_ONE in *. lra. }
  split; [|lra]. apply Rmult_le_pos; [apply shareR_nonneg; lia|].
  rewrite <- log2R_1. apply log2R_le; [lra|]. rewrite <- Rinv_1. apply Rinv_le_contravar; lra.
Qed.

Lemma geo_mean_power components total l :
  (1 <= total)%Z -> Forall (factor_ok components total) l ->
  0 <= sumR (map (term_of components total) l)
  /\ geo_mean (map (factor components total) l) = Rpower 2 (- sumR (map (term_of components total) l)).
Proof.
  intros Ht. induction 1 as [|m l Hm _ [IH0 IH]]; cbn [map].
  - unfold sumR, geo_mean. cbn. split; [lra|]. rewrite Ropp_0, Rpower_O; lra.
  - destruct (term_nonneg components total m Ht Hm) as [H0 Hpos].
    unfold geo_mean, sumR in *. cbn [foldr]. split; [lra|]. rewrite IH. unfold factor. cbn [fst snd].
    rewrite power_term by done. fold (term_of components total m). rewrite <- Rpower_plus. f_equal. lra.
Qed.

Lemma sum_shares total l :
  (1 <= total)%Z -> (sum_by ms_weight l <= total)%Z -> sumR (map (fun m => shareR (ms_weight m) total) l) <= 1.
Proof.
  intros Ht Hs. assert (sumR (map (fun m => shareR (ms_weight m) total) l) = shareR (sum_by ms_weight l) total) as ->.
  { clear Hs. induction l as [|m l IH]; cbn [map sum_by]; [by rewrite shareR_zero|]. unfold sumR in *. cbn [foldr].
    rewrite IH. unfold shareR. rewrite plus_IZR. lra. }
  unfold shareR. apply IZR_le in Hs. assert (0 < IZR total) by (apply IZR_lt; lia).
  apply (Rmult_le_reg_r (IZR total)); [done|]. unfold Rdiv. rewrite Rmult_assoc, Rinv_l by lra. lra.
Qed.

(** A composite is returned, on the grid, and is the real one up to two
    units. *)
Lemma weighted_geo_accurate specs components pillars ren total :
  ren = None /\ total = WELFARE_ONE \/ ren = Some total ->
  (1 <= total <= WELFARE_ONE)%Z -> (length specs <= MAX_COMPONENTS_PER_SPEC)%nat ->
  Forall (factor_ok components total) (of_pillars pillars specs) ->
  (sum_by ms_weight (of_pillars pillars specs) <= total)%Z ->
  exists r, weighted_geo specs components pillars ren = Ok r /\ on_grid r
    /\ Rabs (gridR r - geo_mean (map (factor components total) (of_pillars pillars specs))) <= 2 / unitR.
Proof.
  intros Hren Ht Hlen Hf Hs. unfold weighted_geo. set (l := of_pillars pillars specs) in *.
  assert (length l <= 16)%nat as Hl16.
  { unfold l, of_pillars. etrans; [apply length_filter|exact Hlen]. }
  destruct (exponent_spec components ren total l 0 Hren Ht Hf) as (e & He & He0 & Heb & Hacc); [done|nia|].
  rewrite He. cbn [rbind]. rewrite Z.add_0_l.
  assert (e < 2 ^ 70)%Z as He70 by nia.
  destruct (exp2_inverse_total e ltac:(lia)) as (r & Hr & Hg & _). exists r. split; [done|]. split; [done|].
  pose proof (exp2_inverse_accurate e r ltac:(lia) Hr) as Hclose.
  destruct (geo_mean_power components total l ltac:(lia) Hf) as [HE0 ->].
  pose proof (sum_shares total l ltac:(lia) Hs) as Hsh.
  assert (INR (length l) <= 16) as Hn by (apply (le_INR _ 16) in Hl16; by rewrite (INR_IZR_INZ 16) in Hl16).
  pose proof (pow2_close (toR e) _ _ (toR_nonneg e He0) HE0 Hacc) as Hp.
  rewrite ulp_value in *. unfold unitR in *. apply Rabs_inv in Hclose, Hp. apply Rabs_le. lra.
Qed.

(** ** Accuracy of the welfare score

    Gates, the pair composite and their product, against the real formula. *)

(** ** The pair composite *)

Lemma pair_term_close lr L wr W c :
  0 <= lr <= 30 -> Rabs (lr - L) <= 3 / 10000000000 -> Rabs (wr - W) <= ulp -> 0 <= W ->
  Rabs (c - lr * wr) <= ulp -> Rabs (c - W * L) <= 3 / 10000000000 * W + 31 * ulp.
Proof.
  intros Hl HL HW HW0 Hc. apply Rabs_inv in HL, HW, Hc. pose proof ulp_pos.
  assert (- (30 * ulp) <= lr * (wr - W) <= 30 * ulp) by (split; nra).
  assert (- (3 / 10000000000 * W) <= W * (lr - L) <= 3 / 10000000000 * W) by (split; nra).
  apply Rabs_le. lra.
Qed.

Lemma pair_step_spec v w e :
  (1 <= v <= WELFARE_ONE)%Z -> on_grid w -> (0 <= e < 2 ^ 69)%Z ->
  exists c, (0 <= c)%Z /\ (c <= 30 * q64_from_1e9 w + 1)%Z /\ pair_step (Some e) (v, w) = Ok (Some (e + c)%Z)
    /\ Rabs (toR c - gridR w * log2R (/ gridR v)) <= 3 / 10000000000 * gridR w + 31 * ulp.
Proof.
  intros Hv Hw He. unfold pair_step. cbn [fst snd]. pose proof ulp_pos as Hu. pose proof (gridR_range w Hw) as Hgw.
  destruct (q64_spec w Hw) as (_ & Hq1 & Hq2).
  destruct (Z.eqb_spec w 0) as [E0|E0]; [|destruct (Z.leb_spec WELFARE_ONE v) as [E1|E1]]; cbn [orb].
  - exists 0%Z. split; [done|]. split; [lia|]. split; [by rewrite Z.add_0_r|]. rewrite E0, toR_zero.
    unfold gridR at 1 3. rewrite Rdiv_0_l, Rmult_0_l, Rminus_0_r, Rabs_R0. lra.
  - exists 0%Z. split; [done|]. split; [lia|]. split; [by rewrite Z.add_0_r|].
    assert (v = WELFARE_ONE) as -> by lia. rewrite gridR_one, Rinv_1, log2R_1, toR_zero, Rmult_0_r, Rminus_0_r, Rabs_R0. lra.
  - rewrite (proj2 (Z.eqb_neq v 0)) by lia.
    destruct (inverse_log_total v ltac:(lia)) as (l & Hl & _ & Hlr & _). rewrite Hl. cbn [rbind].
    unfold ONE_RAW in *. rewrite mul_ceil_spec by lia. cbn [rbind].
    set (c := ((l * q64_from_1e9 w + (2 ^ 64 - 1)) / 2 ^ 64)%Z).
    assert (0 <= c <= 30 * q64_from_1e9 w + 1)%Z as Hc.
    { assert (l * q64_from_1e9 w <= 30 * 2 ^ 64 * q64_from_1e9 w)%Z by (apply Z.mul_le_mono_nonneg_r; lia).
      unfold c. split; [apply Z.div_pos; nia|]. apply Z.div_le_upper_bound; lia. }
    exists c. split; [lia|]. split; [lia|]. split.
    { rewrite fx_add_spec, (proj2 (Z.ltb_lt _ _)) by lia. done. }
    apply (pair_term_close (toR l) _ (toR (q64_from_1e9 w))); [|apply inverse_log_accurate; [lia|done]| |lra|apply toR_ceil].
    + destruct Hlr as [H0 H30]. apply toR_le in H30. rewrite toR_whole in H30. split; [by apply toR_nonneg|done].
    + pose proof (toR_q64 w Hw). apply Rabs_le. lra.
Qed.

Lemma pair_power v w : (1 <= v <= WELFARE_ONE)%Z -> on_grid w ->
  0 <= gridR w * log2R (/ gridR v) /\ Rpower (gridR v) (gridR w) = Rpower 2 (- (gridR w * log2R (/ gridR v))).
Proof.
  intros Hv Hw. assert (0 < gridR v <= 1) as Hx.
  { destruct Hv as [H1 H2]. apply IZR_le in H1, H2. unfold gridR, unitR, WELFARE_ONE in *. lra. }
  split; [|apply power_term, Hx]. apply Rmult_le_pos; [apply gridR_range, Hw|].
  rewrite <- log2R_1. apply log2R_le; [lra|]. rewrite <- Rinv_1. apply Rinv_le_contravar; lra.
Qed.

(** [x1^w1 * x2^w2] for weights that add up to one. *)
Lemma geo_pair_accurate p wp a wa :
  (1 <= p <= WELFARE_ONE)%Z -> (1 <= a <= WELFARE_ONE)%Z -> on_grid wp -> on_grid wa -> (wp + wa = WELFARE_ONE)%Z ->
  exists r, geo_pair (p, wp) (a, wa) = Ok r /\ on_grid r
    /\ Rabs (gridR r - Rpower (gridR p) (gridR wp) * Rpower (gridR a) (gridR wa)) <= 2 / unitR.
Proof.
  intros Hp Ha Hwp Hwa Hsum. unfold geo_pair. cbn [try_fold].
  destruct (q64_spec wp Hwp) as (_ & _ & Hq1). destruct (q64_spec wa Hwa) as (_ & _ & Hq2). unfold ONE_RAW in *.
  destruct (pair_step_spec p wp 0 Hp Hwp ltac:(done)) as (c1 & Hc1 & Hb1 & -> & Hacc1). cbn [rbind]. rewrite Z.add_0_l.
  destruct (pair_step_spec a wa c1 Ha Hwa ltac:(lia)) as (c2 & Hc2 & Hb2 & -> & Hacc2). cbn [rbind].
  destruct (exp2_inverse_total (c1 + c2) ltac:(lia)) as (r & Hr & Hg & _). exists r. split; [done|]. split; [done|].
  pose proof (exp2_inverse_accurate (c1 + c2) r ltac:(lia) Hr) as Hclose.
  destruct (pair_power p wp Hp Hwp) as [H1 ->]. destruct (pair_power a wa Ha Hwa) as [H2 ->].
  rewrite <- Rpower_plus. set (e1 := gridR wp * _) in *. set (e2 := gridR wa * _) in *.
  assert (gridR wp + gridR wa = 1) as Hone.
  { apply (f_equal IZR) in Hsum. rewrite plus_IZR in Hsum. unfold gridR, unitR, WELFARE_ONE in *. lra. }
  assert (Rabs (toR (c1 + c2) - (e1 + e2)) <= 3 / 10000000000 + 62 * ulp) as Hexp.
  { rewrite toR_plus. apply Rabs_inv in Hacc1, Hacc2. apply Rabs_le. nra. }
  pose proof (pow2_close _ _ _ (toR_nonneg (c1 + c2) ltac:(lia)) (Rplus_le_le_0_compat _ _ H1 H2) Hexp) as Hpow.
  replace (- (e1 + e2)) with (- e1 + - e2) in Hpow by lra.
  rewrite ulp_value in *. unfold unitR in *. apply Rabs_inv in Hclose, Hpow. apply Rabs_le. lra.
Qed.

Lemma geo_pair_zero p wp a wa :
  on_grid p -> on_grid a -> (0 < wp <= WELFARE_ONE)%Z -> (0 < wa <= WELFARE_ONE)%Z -> p = 0%Z \/ a = 0%Z ->
  geo_pair (p, wp) (a, wa) = Ok 0%Z.
Proof.
  intros Hp Ha Hwp Hwa Hz. unfold geo_pair. cbn [try_fold].
  destruct (Z.eq_dec p 0) as [->|Hp0].
  { unfold pair_step at 1. cbn [fst snd]. rewrite (proj2 (Z.eqb_neq wp 0)) by lia. done. }
  destruct Hz as [?| ->]; [done|].
  destruct (pair_step_spec p wp 0 ltac:(lia) ltac:(lia) ltac:(done)) as (c1 & Hc1 & Hb1 & -> & _). cbn [rbind].
  unfold pair_step. cbn [fst snd]. rewrite (proj2 (Z.eqb_neq wa 0)) by lia. done.
Qed.

(** ** The gate *)

Definition smoothR (t : R) : R := t * t * (3 - 2 * t).

(** The real gate between the thresholds. *)
Definition gateR (x lo hi : R) : R :=
  if Rle_dec x lo then 0 else if Rle_dec hi x then 1 else smoothR ((x - lo) / (hi - lo)).

Lemma smooth_lipschitz t u : 0 <= t <= 1 -> 0 <= u <= 1 -> Rabs (smoothR t - smoothR u) <= 3 / 2 * Rabs (t - u).
Proof.
  intros Ht Hu. unfold smoothR.
  replace (t * t * (3 - 2 * t) - u * u * (3 - 2 * u)) with ((t - u) * (3 * (t + u) - 2 * (t * t + t * u + u * u))) by ring.
  rewrite Rabs_mult, Rmult_comm. apply Rmult_le_compat_r; [apply Rabs_pos|]. apply Rabs_le.
  pose proof (Rle_0_sqr (t - u)) as H1. pose proof (Rle_0_sqr (t + u - 1)) as H2. unfold Rsqr in *.
  assert (t * t <= t) by nra. assert (u * u <= u) by nra. split; nra.
Qed.

Lemma gridR_div n d : (0 < d)%Z -> IZR n / IZR d / unitR - / unitR < gridR (n / d) <= IZR n / IZR d / unitR.
Proof. intros Hd. pose proof (IZR_div n d Hd). unfold gridR, unitR. lra. Qed.

Lemma smooth_accurate t : on_grid t -> Rabs (gridR (smooth t) - smoothR (gridR t)) <= 4 / unitR.
Proof.
  intros Ht. destruct (smooth_grid t Ht) as [H2 _]. unfold smooth. set (t2 := (t * t / WELFARE_ONE)%Z) in *.
  pose proof (gridR_div (t * t) WELFARE_ONE ltac:(done)) as Hd. fold t2 in Hd.
  pose proof (gridR_div (t2 * (3 * WELFARE_ONE - 2 * t)) WELFARE_ONE ltac:(done)) as Hs.
  pose proof (gridR_range t Ht) as Hx.
  assert (IZR (t * t) / IZR WELFARE_ONE / unitR = gridR t * gridR t) as E1.
  { rewrite mult_IZR. unfold gridR, unitR, WELFARE_ONE. field. }
  assert (IZR (t2 * (3 * WELFARE_ONE - 2 * t)) / IZR WELFARE_ONE / unitR = gridR t2 * (3 - 2 * gridR t)) as E2.
  { rewrite mult_IZR, minus_IZR, !mult_IZR. unfold gridR, unitR, WELFARE_ONE. field. }
  rewrite E1 in Hd. rewrite E2 in Hs. unfold smoothR. set (g2 := gridR t2) in *. set (x := gridR t) in *.
  set (u := / unitR) in *. assert (4 / unitR = 4 * u) as -> by (unfold u; lra).
  assert (0 <= (x * x - g2) * (3 - 2 * x) <= u * 3) by (split; nra). apply Rabs_le. lra.
Qed.

(** The gate of the code is the real one up to six units. *)
Lemma gate_accurate x lo hi g :
  (0 <= lo < hi)%Z -> (hi <= WELFARE_ONE)%Z -> on_grid x -> gate x lo hi = Ok g ->
  Rabs (gridR g - gateR (gridR x) (gridR lo) (gridR hi)) <= 6 / unitR.
Proof.
  intros Hlo Hhi Hx Hg. destruct (gate_spec x lo hi Hlo Hhi Hx) as (g' & Hg' & Hgr & H0 & H1 & Hs).
  rewrite Hg in Hg'. injection Hg' as <-. unfold gateR.
  assert (forall a b, (a <= b)%Z <-> gridR a <= gridR b) as Hle.
  { intros a b. unfold gridR, unitR. split; [intros Hab%IZR_le; lra|intros Hab; apply le_IZR; lra]. }
  assert (0 < / unitR) as Hu by (unfold unitR; lra).
  destruct (Rle_dec (gridR x) (gridR lo)) as [H|H]; [|destruct (Rle_dec (gridR hi) (gridR x)) as [H'|H']].
  - rewrite H0 by (by apply Hle). unfold gridR. rewrite Rdiv_0_l, Rminus_diag, Rabs_R0. lra.
  - rewrite H1 by (by apply Hle). rewrite gridR_one, Rminus_diag, Rabs_R0. lra.
  - rewrite <- Hle in H. rewrite <- Hle in H'. rewrite Hs by lia. set (t := ((x - lo) * WELFARE_ONE / (hi - lo))%Z).
    assert (on_grid t) as Ht.
    { unfold t, WELFARE_ONE in *. split; [apply Z.div_pos; lia|apply Z.div_le_upper_bound; nia]. }
    pose proof (gridR_div ((x - lo) * WELFARE_ONE) (hi - lo) ltac:(lia)) as Hd. fold t in Hd.
    set (tau := (gridR x - gridR lo) / (gridR hi - gridR lo)).
    assert (IZR ((x - lo) * WELFARE_ONE) / IZR (hi - lo) / unitR = tau) as E.
    { unfold tau, gridR, unitR, WELFARE_ONE. rewrite mult_IZR, !minus_IZR. field.
      assert (IZR lo < IZR hi) by (apply IZR_lt; lia). lra. }
    rewrite E in Hd.
    pose proof (smooth_accurate t Ht) as Hsm. pose proof (gridR_range t Ht) as Hgt.
    assert (0 <= tau <= 1) as Htau.
    { rewrite Hle in H, H'. unfold tau. split; [apply Rle_mult_inv_pos; lra|].
      apply (Rmult_le_reg_r (gridR hi - gridR lo)); [lra|]. unfold Rdiv. rewrite Rmult_assoc, Rinv_l by lra. lra. }
    pose proof (smooth_lipschitz (gridR t) tau Hgt Htau) as Hl.
    assert (Rabs (gridR t - tau) <= / unitR) as Ha by (apply Rabs_le; lra).
    apply Rabs_inv in Hsm, Hl. unfold unitR in *. apply Rabs_le. lra.
Qed.

(** ** The score *)

Definition welfare_params_ok (params : WelfareParams) : Prop := wp_validate params = Ok tt.

Lemma params_facts params :
  welfare_params_ok params ->
  (THETA_S_LO <= wp_theta_s_lo params < wp_theta_s_hi params)%Z /\ (wp_theta_s_hi params <= WELFARE_ONE)%Z
  /\ (THETA_C_LO <= wp_theta_c_lo params < wp_theta_c_hi params)%Z /\ (wp_theta_c_hi params <= WELFARE_ONE)%Z
  /\ (300000000 <= wp_w_p params <= 700000000)%Z /\ (300000000 <= wp_w_a params <= 700000000)%Z
  /\ (wp_w_p params + wp_w_a params = WELFARE_ONE)%Z.
Proof.
  unfold welfare_params_ok, wp_validate, in_range. intros H. inv_all.
  destruct (checked_add _ _ _) as [sum|] eqn:Hc; [|done]. apply checked_add_Some in Hc as [-> _]. lia.
Qed.

(** The welfare of the pillars, in real numbers. *)
Definition welfareR (s c p a : R) (params : WelfareParams) : R :=
  gateR s (gridR (wp_theta_s_lo params)) (gridR (wp_theta_s_hi params))
  * gateR c (gridR (wp_theta_c_lo params)) (gridR (wp_theta_c_hi params))
  * (Rpower p (gridR (wp_w_p params)) * Rpower a (gridR (wp_w_a params))).

Lemma mul_down_accurate a b : on_grid a -> on_grid b -> gridR a * gridR b - / unitR < gridR (mul_down a b) <= gridR a * gridR b.
Proof.
  intros Ha Hb. destruct (mul_down_spec a b Ha Hb) as [-> _].
  pose proof (gridR_div (a * b) WELFARE_ONE ltac:(done)) as Hd.
  assert (IZR (a * b) / IZR WELFARE_ONE / unitR = gridR a * gridR b) as E.
  { rewrite mult_IZR. unfold gridR, unitR, WELFARE_ONE. field. }
  by rewrite E in Hd.
Qed.

Lemma gateR_range x lo hi : lo < hi -> 0 <= gateR x lo hi <= 1.
Proof.
  intros Hlt. unfold gateR. destruct (Rle_dec x lo); [lra|]. destruct (Rle_dec hi x); [lra|].
  assert (0 <= (x - lo) / (hi - lo) <= 1) as Ht.
  { split; [apply Rle_mult_inv_pos; lra|]. apply (Rmult_le_reg_r (hi - lo)); [lra|].
    unfold Rdiv. rewrite Rmult_assoc, Rinv_l by lra. lra. }
  set (t := (x - lo) / (hi - lo)) in *. unfold smoothR. assert (0 <= t * t <= t) by nra.
  assert (0 <= (1 - t) * (1 - t) * (1 + 2 * t)) by (apply Rmult_le_pos; nra). split; nra.
Qed.

(** The product of three factors known up to errors. *)
Lemma product_close u gs gc pa Gs Gc PA w1 w2 :
  0 <= u -> 0 <= gs <= 1 -> 0 <= gc <= 1 -> 0 <= pa <= 1 -> 0 <= Gs <= 1 -> 0 <= Gc <= 1 -> 0 <= PA <= 1 ->
  Rabs (gs - Gs) <= 6 * u -> Rabs (gc - Gc) <= 6 * u -> Rabs (pa - PA) <= 2 * u ->
  gs * gc - u <= w1 <= gs * gc -> w1 * pa - u <= w2 <= w1 * pa ->
  Rabs (w2 - Gs * Gc * PA) <= 16 * u.
Proof.
  intros Hu Hgs Hgc Hpa HGs HGc HPA E1 E2 E3 H1 H2. apply Rabs_inv in E1, E2, E3.
  assert (- (12 * u) <= gs * gc - Gs * Gc <= 12 * u) as E12.
  { replace (gs * gc - Gs * Gc) with ((gs - Gs) * gc + Gs * (gc - Gc)) by ring.
    assert (- (6 * u) <= (gs - Gs) * gc <= 6 * u) by (split; nra).
    assert (- (6 * u) <= Gs * (gc - Gc) <= 6 * u) by (split; nra). lra. }
  assert (0 <= Gs * Gc <= 1) by (split; nra).
  assert (- (2 * u) <= Gs * Gc * (pa - PA) <= 2 * u) by (split; nra).
  assert (- (13 * u) <= (w1 - Gs * Gc) * pa <= 13 * u) by (split; nra).
  replace (w2 - Gs * Gc * PA) with ((w2 - w1 * pa) + (w1 - Gs * Gc) * pa + Gs * Gc * (pa - PA)) by ring.
  apply Rabs_le. lra.
Qed.

Lemma Rpower_unit x w : 0 < x <= 1 -> 0 <= w -> 0 <= Rpower x w <= 1.
Proof.
  intros Hx Hw. split; [apply Rlt_le, exp_pos|]. unfold Rpower. rewrite <- exp_0.
  assert (ln x <= 0) as Hln.
  { rewrite <- ln_1. destruct (Rle_lt_or_eq_dec x 1 (proj2 Hx)) as [Hlt| ->]; [|lra]. apply Rlt_le, ln_increasing; lra. }
  destruct (Rle_lt_or_eq_dec (w * ln x) 0 ltac:(nra)) as [Hlt|Heq]; [by apply Rlt_le, exp_increasing|rewrite Heq; lra].
Qed.

Lemma compute_welfare_spec s c p a params :
  welfare_params_ok params -> on_grid s -> on_grid c -> on_grid p -> on_grid a ->
  exists w, compute_welfare s c p a params = Ok w /\ on_grid w
    /\ ((s <= wp_theta_s_lo params \/ c <= wp_theta_c_lo params \/ p = 0 \/ a = 0)%Z -> w = 0%Z)
    /\ ((1 <= p)%Z -> (1 <= a)%Z -> Rabs (gridR w - welfareR (gridR s) (gridR c) (gridR p) (gridR a) params) <= 16 / unitR).
Proof.
  intros Hok Hs Hc Hp Ha. destruct (params_facts params Hok) as (Hsl & Hsh & Hcl & Hch & Hwp & Hwa & Hsum).
  unfold THETA_S_LO, THETA_C_LO in *.
  destruct (gate_spec s (wp_theta_s_lo params) (wp_theta_s_hi params)) as (gs & Hgs & Hgsr & Hgs0 & _); [lia|lia|done|].
  destruct (gate_spec c (wp_theta_c_lo params) (wp_theta_c_hi params)) as (gc & Hgc & Hgcr & Hgc0 & _); [lia|lia|done|].
  assert (exists pa, geo_pair (p, wp_w_p params) (a, wp_w_a params) = Ok pa /\ on_grid pa /\ ((p = 0 \/ a = 0)%Z -> pa = 0%Z)
    /\ ((1 <= p)%Z -> (1 <= a)%Z ->
        Rabs (gridR pa - Rpower (gridR p) (gridR (wp_w_p params)) * Rpower (gridR a) (gridR (wp_w_a params))) <= 2 / unitR))
    as (pa & Hpa & Hpar & Hpa0 & Hpacc).
  { destruct (Z.eq_dec p 0) as [Ep|Ep]; [|destruct (Z.eq_dec a 0) as [Ea|Ea]].
    1, 2: exists 0%Z; split; [apply geo_pair_zero; (done || lia || tauto || unfold WELFARE_ONE; lia)|];
      split; [done|]; split; [done|]; intros; lia.
    destruct (geo_pair_accurate p (wp_w_p params) a (wp_w_a params)) as (pa & H1 & H2 & H3);
      [lia|lia|unfold WELFARE_ONE; lia|unfold WELFARE_ONE; lia|done|].
    exists pa. split; [done|]. split; [done|]. split; [lia|done]. }
  destruct (mul_down_spec gs gc Hgsr Hgcr) as [_ Hm1]. 
  assert (on_grid (mul_down gs gc)) as Hm1r by lia.
  destruct (mul_down_spec (mul_down gs gc) pa Hm1r Hpar) as [_ Hm2].
  exists (mul_down (mul_down gs gc) pa). unfold compute_welfare. unfold welfare_params_ok in Hok. rewrite Hok. cbn [rbind].
  rewrite Hgs. cbn [rbind]. rewrite Hgc. cbn [rbind]. rewrite Hpa. cbn [rbind]. split; [done|]. split; [lia|]. split.
  - intros [H|[H|H]]; [specialize (Hgs0 H)|specialize (Hgc0 H)|specialize (Hpa0 H)]; lia.
  - intros Hp1 Ha1. specialize (Hpacc Hp1 Ha1).
    assert (0 <= wp_theta_s_lo params < wp_theta_s_hi params)%Z as Hs2 by lia. assert (0 <= wp_theta_c_lo params < wp_theta_c_hi params)%Z as Hc2 by lia.
    pose proof (gate_accurate s _ _ gs Hs2 Hsh Hs Hgs) as E1. pose proof (gate_accurate c _ _ gc Hc2 Hch Hc Hgc) as E2.
    pose proof (mul_down_accurate gs gc Hgsr Hgcr) as E3. pose proof (mul_down_accurate _ pa Hm1r Hpar) as E4.
    unfold welfareR. replace (16 / unitR) with (16 * / unitR) by (unfold unitR; lra).
    assert (forall lo hi, (lo < hi)%Z -> gridR lo < gridR hi) as Hlt
      by (intros ? ? H; apply IZR_lt in H; unfold gridR, unitR; lra).
    assert (forall v, (1 <= v)%Z -> on_grid v -> 0 < gridR v <= 1) as Hunit.
    { intros v H1 H2. pose proof (gridR_range v H2). apply IZR_le in H1. unfold gridR, unitR in *. lra. }
    pose proof (Rpower_unit _ _ (Hunit p Hp1 Hp) (proj1 (gridR_range (wp_w_p params) ltac:(unfold WELFARE_ONE; lia)))) as R1.
    pose proof (Rpower_unit _ _ (Hunit a Ha1 Ha) (proj1 (gridR_range (wp_w_a params) ltac:(unfold WELFARE_ONE; lia)))) as R2.
    eapply (product_close (/ unitR) (gridR gs) (gridR gc) (gridR pa)); try (by apply gridR_range); try (apply gateR_range, Hlt; lia).
    + unfold unitR. lra.
    + split; nra.
    + unfold unitR in *. lra.
    + unfold unitR in *. lra.
    + unfold unitR in *. lra.
    + split; [apply Rlt_le, E3|apply E3].
    + split; [apply Rlt_le, E4|apply E4].
Qed.
