(* ===== verification/WelfareInv.v ===== *)
(** * The invariant of the welfare state

    Specs are registered once, complete and with weights that add up to one;
    an epoch is measured once per version, on the grid; its gate flags are
    what its daily samples said. *)

From Stdlib Require Import Reals Lra.
From S2P Require Import Prelude Keyed Primitives U256 FixedPoint FixedReal Welfare WelfareNum.

(** ** Calls *)

Inductive WelfareCall : Type :=
| WRegister (registration : Registration) (version : MetricSpecVersion) (specs : list MetricSpec)
| WSnapshot (epoch : EpochId) (version : MetricSpecVersion) (components : list ComponentValue) (incident : FixedU64)
    (params : WelfareParams)
| WDaily (epoch : EpochId) (day : Z) (version : MetricSpecVersion) (components : list ComponentValue) (params : WelfareParams)
| WSettle (cohort_epoch : EpochId) (version : MetricSpecVersion)
| WPrune (cutoff_epoch : EpochId).

Definition ignore_result {S E A} (m : ST S E A) : ST S E unit := do! m in ret tt.

Definition welfare_exec (c : WelfareCall) : WM unit :=
  match c with
  | WRegister r v specs => register_metric_spec r v specs
  | WSnapshot e v comps inc params => ignore_result (record_snapshot e v comps inc params)
  | WDaily e day v comps params => ignore_result (record_daily_gate e day v comps params)
  | WSettle e v => ignore_result (compute_settlement e v)
  | WPrune cutoff => modify (prune_before cutoff)
  end.

Definition values_typed (comps : list ComponentValue) : Prop := Forall (fun c => 0 <= cv_value c) comps.

(** The unsigned arguments are not negative. *)
Definition welfare_typed (c : WelfareCall) : Prop :=
  match c with
  | WRegister _ _ specs => Forall (fun m => 0 <= ms_weight m) specs
  | WSnapshot _ _ comps inc _ => values_typed comps /\ 0 <= inc
  | WDaily _ day _ comps _ => values_typed comps /\ 0 <= day
  | _ => True
  end.

Definition welfare_step (w w' : WelfareState) : Prop :=
  exists c, welfare_typed c /\ welfare_exec c w = (Ok tt, w').

Definition welfare_reachable (w : WelfareState) : Prop := rtc welfare_step WelfareState_new w.

(** ** The invariant *)

Record spec_set_ok (version : MetricSpecVersion) (specs : list MetricSpec) : Prop := {
  so_some : (1 <= length specs <= MAX_COMPONENTS_PER_SPEC)%nat;
  so_checked : exists last, try_fold (check_stored_spec version) None specs = Ok last;
  so_typed : Forall (fun m => 0 <= ms_weight m) specs;
  so_c : sums_to_one [PillarCOnchain; PillarCAttested] specs = true;
  so_p : sums_to_one [PillarP] specs = true;
  so_a : sums_to_one [PillarA] specs = true;
}.

Record snapshot_ok (s : Snapshot) : Prop := {
  no_components : (length (sn_components s) <= MAX_COMPONENTS_PER_SPEC)%nat;
  no_grid : Forall (fun v => on_grid v)
    [sn_s_pillar s; sn_c_onchain s; sn_c_attested s; sn_p_pillar s; sn_a_pillar s; sn_gate_s s; sn_gate_c s; sn_welfare s];
}.

Definition snapshot_key (s : Snapshot) : EpochId * MetricSpecVersion := (sn_epoch s, sn_spec_version s).

Record WInv (w : WelfareState) : Prop := {
  wi_versions : NoDup (keys fst (ws_specs w)) /\ (length (ws_specs w) <= MAX_METRIC_SPECS)%nat;
  wi_specs : forall version specs, (version, specs) ∈ ws_specs w -> spec_set_ok version specs;
  wi_epochs : NoDup (keys snapshot_key (ws_snapshots w)) /\ (length (ws_snapshots w) <= MAX_SNAPSHOTS)%nat;
  wi_snapshots : Forall snapshot_ok (ws_snapshots w);
  wi_flags : NoDup (keys fst (ws_gate_flags w)) /\ (length (ws_gate_flags w) <= MAX_GATE_FLAGS)%nat;
}.

(** ** Stored specs *)

Lemma check_spec_stored version min prev m r :
  check_spec version min prev m = Ok r -> check_stored_spec version prev m = Ok r.
Proof.
  unfold check_spec, check_stored_spec. intros H. inv_all. rewrite ?andb_true_iff in *. destruct_and!.
  rewrite ensure_true; [by cbn; f_equal|]. rewrite !andb_true_iff. by repeat split.
Qed.

Lemma try_fold_impl {E A B} (f g : B -> A -> Result E B) l acc r :
  (forall acc x r, x ∈ l -> f acc x = Ok r -> g acc x = Ok r) -> try_fold f acc l = Ok r -> try_fold g acc l = Ok r.
Proof.
  revert acc. induction l as [|x l IH]; intros acc Himp; cbn; [done|].
  destruct (f acc x) as [acc'|e] eqn:E'; cbn; [|done]. intros Hf. rewrite (Himp acc x acc' ltac:(by left) E'). cbn.
  apply IH; [|done]. intros ? y ? Hy. apply Himp. by right.
Qed.

Lemma try_fold_each {E A B} (f : B -> A -> Result E B) l acc r :
  try_fold f acc l = Ok r -> forall x, x ∈ l -> exists acc1 acc2, f acc1 x = Ok acc2.
Proof.
  revert acc. induction l as [|y l IH]; intros acc; cbn; [by intros _ x ?%elem_of_nil|].
  destruct (f acc y) as [acc'|e] eqn:Ef; cbn; [|done]. intros Hf x [->|Hx]%elem_of_cons; eauto.
Qed.

(** What the checks of a stored spec say. *)
Lemma stored_spec version specs m :
  spec_set_ok version specs -> m ∈ specs ->
  0 <= ms_weight m <= WELFARE_ONE /\ ms_epsilon_floor m = EPSILON_PILLAR /\ source_matches_pillar m = true /\ ms_version m = version.
Proof.
  intros [_ [last Hl] Ht _ _ _] Hm. destruct (try_fold_each _ _ _ _ Hl m Hm) as (p1 & p2 & Hc).
  pose proof (proj1 (Forall_forall _ _) Ht m Hm). unfold check_stored_spec in Hc. inv_all.
  rewrite ?andb_true_iff in *. destruct_and!. repeat split; (done || lia).
Qed.

Lemma weight_sum_is pillars specs n : weight_sum pillars specs = Ok n -> n = sum_by ms_weight (of_pillars pillars specs).
Proof. intros H%try_fold_checked. lia. Qed.

Lemma sums_to_one_is pillars specs : sums_to_one pillars specs = true -> sum_by ms_weight (of_pillars pillars specs) = WELFARE_ONE.
Proof.
  unfold sums_to_one. destruct (weight_sum pillars specs) as [n|e] eqn:E; [|done]. apply weight_sum_is in E. lia.
Qed.

Lemma elem_of_pillars pillars specs m : m ∈ of_pillars pillars specs <-> m ∈ specs /\ ms_pillar m ∈ pillars.
Proof. unfold of_pillars. rewrite list_elem_of_filter. tauto. Qed.

(** The weights of some of the pillars of a vector sum to at most its total. *)
Lemma sum_of_pillars pillars pillars' specs :
  (forall m, m ∈ specs -> 0 <= ms_weight m) -> (forall p, p ∈ pillars -> p ∈ pillars') ->
  0 <= sum_by ms_weight (of_pillars pillars specs) <= sum_by ms_weight (of_pillars pillars' specs).
Proof.
  intros Hn Hp. unfold of_pillars. rewrite !filter_sum. induction specs as [|m l IH]; cbn; [lia|].
  pose proof (Hn m ltac:(by left)). specialize (IH ltac:(intros; apply Hn; by right)).
  repeat case_decide; try lia. exfalso. auto.
Qed.

(** A vector of pillars a composite may be taken over. *)
Definition vector (pillars : list Pillar) : Prop :=
  (forall p, p ∈ pillars -> p ∈ [PillarCOnchain; PillarCAttested]) \/ pillars = [PillarP] \/ pillars = [PillarA].

Lemma vector_sum version specs pillars :
  spec_set_ok version specs -> vector pillars -> 0 <= sum_by ms_weight (of_pillars pillars specs) <= WELFARE_ONE.
Proof.
  intros Ho Hv. assert (forall m, m ∈ specs -> 0 <= ms_weight m) as Hn by (apply Forall_forall, Ho).
  destruct Hv as [Hs|[->| ->]].
  - pose proof (sum_of_pillars pillars _ specs Hn Hs). pose proof (sums_to_one_is _ _ (so_c _ _ Ho)). lia.
  - pose proof (sums_to_one_is _ _ (so_p _ _ Ho)) as ->. done.
  - pose proof (sums_to_one_is _ _ (so_a _ _ Ho)) as ->. done.
Qed.

Lemma factors_ok version specs comps pillars total :
  spec_set_ok version specs -> values_typed comps -> (forall m, m ∈ of_pillars pillars specs -> reported comps (ms_id m)) ->
  (forall m, m ∈ of_pillars pillars specs -> ms_weight m <= total) ->
  Forall (factor_ok comps total) (of_pillars pillars specs).
Proof.
  intros Ho Hc Hr Hw. apply Forall_forall. intros m Hm. pose proof Hm as [Hin _]%elem_of_pillars.
  destruct (stored_spec version specs m Ho Hin) as (Hwm & He & _).
  constructor; [auto|by apply component_grid; auto|done|]. specialize (Hw m Hm). lia.
Qed.

(** A composite over a vector of stored specs. *)
Lemma vector_geo version specs comps pillars :
  spec_set_ok version specs -> values_typed comps -> vector pillars ->
  (forall m, m ∈ of_pillars pillars specs -> reported comps (ms_id m)) ->
  exists r, weighted_geo specs comps pillars None = Ok r /\ on_grid r
    /\ (Rabs (gridR r - geo_mean (map (factor comps WELFARE_ONE) (of_pillars pillars specs))) <= 2 / unitR)%R.
Proof.
  intros Ho Hc Hv Hr. apply weighted_geo_accurate; [by left|done|apply Ho| |].
  - eapply factors_ok; [done|done|done|]. intros m [Hm _]%elem_of_pillars. by apply (stored_spec version specs).
  - by apply (vector_sum version specs).
Qed.

(** ** Success means that the components were there *)

Lemma geo_reported specs comps pillars ren r :
  weighted_geo specs comps pillars ren = Ok r -> forall m, m ∈ of_pillars pillars specs -> reported comps (ms_id m).
Proof.
  unfold weighted_geo. intros H m Hm. apply rbind_Ok in H as (e & He & _).
  destruct (try_fold_each _ _ _ _ He m Hm) as (e1 & e2 & Hs). unfold geo_step in Hs.
  apply rbind_Ok in Hs as (v & Hv & _). by apply value_for_Ok in Hv as [? _].
Qed.

Lemma s_pillar_spec specs comps :
  values_typed comps ->
  (forall m, m ∈ specs -> ms_pillar m = PillarS -> reported comps (ms_id m)) ->
  exists s, s_pillar specs comps = Ok s /\ on_grid s.
Proof.
  intros Hc Hr. unfold s_pillar.
  assert (forall acc l, on_grid acc -> (forall m, m ∈ l -> reported comps (ms_id m)) ->
    exists s, try_fold (fun acc m => let? v := value_for (ms_id m) comps in Ok (Z.min acc v)) acc l = Ok s /\ on_grid s) as Hgen.
  { intros acc l. revert acc. induction l as [|m l IH]; intros acc Ha Hl; cbn [try_fold]; [by exists acc|].
    assert (reported comps (ms_id m)) as Hm by (apply Hl; by left).
    rewrite (proj2 (value_for_Ok _ _ _) (conj Hm eq_refl)). cbn [rbind].
    pose proof (component_grid comps (ms_id m) Hc Hm). apply IH; [lia|]. intros m' Hm'. apply Hl. by right. }
  apply Hgen; [unfold WELFARE_ONE; lia|]. intros m [Hp Hin]%list_elem_of_filter. auto.
Qed.

Lemma s_pillar_reported specs comps s :
  s_pillar specs comps = Ok s -> forall m, m ∈ specs -> ms_pillar m = PillarS -> reported comps (ms_id m).
Proof.
  unfold s_pillar. intros H m Hm Hp. destruct (try_fold_each _ _ _ _ H m) as (a1 & a2 & Hs); [by apply list_elem_of_filter|].
  apply rbind_Ok in Hs as (v & Hv & _). by apply value_for_Ok in Hv as [? _].
Qed.

(** ** The pillars of an epoch and the gates of a day

    From a stored spec and components that report it, every pillar is
    computed, on the grid, and is its real composite up to the grid. *)

(** The real composite of some pillars, with weights taken of [total]. *)
Definition compositeR (specs : list MetricSpec) (comps : list ComponentValue) (pillars : list Pillar) (total : Z) : R :=
  geo_mean (map (factor comps total) (of_pillars pillars specs)).

Definition closeR (units : R) (r : Z) (x : R) : Prop := (Rabs (gridR r - x) <= units / unitR)%R.

Definition onchain_weight (specs : list MetricSpec) : Z := sum_by ms_weight (of_pillars [PillarCOnchain] specs).

Record pillars_accurate (specs : list MetricSpec) (comps : list ComponentValue) (incident : FixedU64) (pi : Pillars) : Prop := {
  pa_s : s_pillar specs comps = Ok (pi_s pi) /\ on_grid (pi_s pi);
  pa_c_onchain : on_grid (pi_c_onchain pi) /\ closeR 2 (pi_c_onchain pi) (compositeR specs comps [PillarCOnchain] WELFARE_ONE);
  pa_c_attested : on_grid (pi_c_attested pi)
    /\ closeR 3 (pi_c_attested pi) (gridR incident * compositeR specs comps [PillarCAttested] WELFARE_ONE);
  pa_c_settlement : on_grid (pi_c_settlement pi)
    /\ closeR 3 (pi_c_settlement pi) (gridR incident * compositeR specs comps [PillarCOnchain; PillarCAttested] WELFARE_ONE);
  pa_p : on_grid (pi_p pi) /\ closeR 2 (pi_p pi) (compositeR specs comps [PillarP] WELFARE_ONE);
  pa_a : on_grid (pi_a pi) /\ closeR 2 (pi_a pi) (compositeR specs comps [PillarA] WELFARE_ONE);
}.

Lemma incident_close incident r x :
  on_grid incident -> on_grid r -> closeR 2 r x -> on_grid (mul_down incident r) /\ closeR 3 (mul_down incident r) (gridR incident * x).
Proof.
  intros Hi Hr Hc. destruct (mul_down_spec incident r Hi Hr) as [_ Hm]. split; [lia|].
  pose proof (mul_down_accurate incident r Hi Hr) as Hd. pose proof (gridR_range incident Hi) as Hg.
  unfold closeR, unitR in *. apply Rabs_inv in Hc. apply Rabs_le.
  assert (- (2 / 1000000000) <= gridR incident * (gridR r - x) <= 2 / 1000000000)%R by (split; nra). lra.
Qed.

Lemma vector_onchain : vector [PillarCOnchain].
Proof. left. intros p ->%list_elem_of_singleton. by left. Qed.

Lemma vector_attested : vector [PillarCAttested].
Proof. left. intros p ->%list_elem_of_singleton. by right; left. Qed.

Lemma vector_joint : vector [PillarCOnchain; PillarCAttested].
Proof. by left. Qed.

Lemma compute_pillars_accurate version specs comps incident :
  spec_set_ok version specs -> values_typed comps -> on_grid incident ->
  (forall m, m ∈ specs -> reported comps (ms_id m)) ->
  exists pi, compute_pillars specs comps incident = Ok pi /\ pillars_accurate specs comps incident pi.
Proof.
  intros Ho Hc Hi Hr. assert (forall pillars m, m ∈ of_pillars pillars specs -> reported comps (ms_id m)) as Hr'
    by (intros pillars m [Hm _]%elem_of_pillars; auto).
  destruct (s_pillar_spec specs comps Hc (fun m Hm _ => Hr m Hm)) as (s & Es & Hs).
  destruct (vector_geo version specs comps _ Ho Hc vector_onchain (Hr' _)) as (c1 & E1 & H1 & A1).
  destruct (vector_geo version specs comps _ Ho Hc vector_attested (Hr' _)) as (c2 & E2 & H2 & A2).
  destruct (vector_geo version specs comps _ Ho Hc vector_joint (Hr' _)) as (c3 & E3 & H3 & A3).
  destruct (vector_geo version specs comps [PillarP] Ho Hc ltac:(by right; left) (Hr' _)) as (p & E4 & H4 & A4).
  destruct (vector_geo version specs comps [PillarA] Ho Hc ltac:(by right; right) (Hr' _)) as (a & E5 & H5 & A5).
  unfold compute_pillars. rewrite Es. cbn [rbind]. rewrite E1. cbn [rbind]. rewrite E2. cbn [rbind]. rewrite E3.
  cbn [rbind]. rewrite E4. cbn [rbind]. rewrite E5. cbn [rbind]. eexists. split; [done|].
  constructor; cbn; (done || by apply incident_close).
Qed.

Lemma all_pillars p : p ∈ [PillarS] \/ p ∈ [PillarCOnchain; PillarCAttested] \/ p ∈ [PillarP] \/ p ∈ [PillarA].
Proof. destruct p; set_solver. Qed.

Lemma compute_pillars_reported specs comps incident pi :
  compute_pillars specs comps incident = Ok pi -> forall m, m ∈ specs -> reported comps (ms_id m).
Proof.
  unfold compute_pillars. intros H m Hm. inv_all.
  assert (forall pillars r, weighted_geo specs comps pillars None = Ok r -> ms_pillar m ∈ pillars -> reported comps (ms_id m)) as Hg.
  { intros pillars r Hr Hp. eapply geo_reported; [exact Hr|]. by apply elem_of_pillars. }
  destruct (all_pillars (ms_pillar m)) as [Hp|[Hp|[Hp|Hp]]].
  - apply list_elem_of_singleton in Hp. by eapply s_pillar_reported.
  - eapply Hg; [|exact Hp]. eassumption.
  - eapply Hg; [|exact Hp]. eassumption.
  - eapply Hg; [|exact Hp]. eassumption.
Qed.

(** ** The gates of a day *)

Lemma zero_weights specs comps pillars ren exponent :
  (forall m, m ∈ of_pillars pillars specs -> reported comps (ms_id m) /\ ms_weight m = 0) ->
  try_fold (geo_step comps ren) exponent (of_pillars pillars specs) = Ok exponent.
Proof.
  generalize (of_pillars pillars specs). intros l Hl. induction l as [|m l IH]; cbn [try_fold]; [done|].
  destruct (Hl m ltac:(by left)) as [Hr Hw]. unfold geo_step at 1.
  rewrite (proj2 (value_for_Ok _ _ _) (conj Hr eq_refl)). cbn [rbind]. rewrite Hw. cbn [Z.eqb orb rbind].
  apply IH. intros m' Hm'. apply Hl. by right.
Qed.

(** The on-chain part of the vector, renormalised; one where no on-chain
    component has a weight. *)
Definition daily_c (specs : list MetricSpec) (comps : list ComponentValue) : R :=
  if Z.eq_dec (onchain_weight specs) 0 then 1%R else compositeR specs comps [PillarCOnchain] (onchain_weight specs).

Lemma daily_gates_accurate version specs comps :
  spec_set_ok version specs -> values_typed comps ->
  (forall m, m ∈ specs -> ms_pillar m ∈ [PillarS; PillarCOnchain] -> reported comps (ms_id m)) ->
  exists s c, compute_daily_gates specs comps = Ok (s, c) /\ s_pillar specs comps = Ok s /\ on_grid s
    /\ on_grid c /\ closeR 2 c (daily_c specs comps).
Proof.
  intros Ho Hc Hr. destruct (s_pillar_spec specs comps Hc) as (s & Es & Hs).
  { intros m Hm Hp. apply Hr; [done|]. rewrite Hp. by left. }
  assert (forall m, m ∈ of_pillars [PillarCOnchain] specs -> reported comps (ms_id m)) as Hro.
  { intros m [Hm Hp]%elem_of_pillars. apply Hr; [done|]. set_solver. }
  assert (forall m, m ∈ of_pillars [PillarCOnchain] specs -> 0 <= ms_weight m) as Hn.
  { intros m [Hm _]%elem_of_pillars. apply (stored_spec version specs m Ho Hm). }
  pose proof (vector_sum version specs _ Ho vector_onchain) as Hsum. fold (onchain_weight specs) in Hsum.
  assert (weight_sum [PillarCOnchain] specs = Ok (onchain_weight specs)) as Ew.
  { unfold weight_sum. rewrite (try_fold_sum _ U64 ms_weight); [done|done|done|].
    fold (onchain_weight specs). unfold WELFARE_ONE in Hsum. lia. }
  unfold compute_daily_gates. rewrite Es. cbn [rbind]. rewrite Ew. cbn [rbind]. unfold daily_c.
  destruct (Z.eq_dec (onchain_weight specs) 0) as [E0|E0].
  - assert (weighted_geo specs comps [PillarCOnchain] (Some (onchain_weight specs)) = Ok WELFARE_ONE) as ->.
    { unfold weighted_geo. rewrite zero_weights; [done|]. intros m Hm. split; [auto|].
      pose proof (sum_by_ge ms_weight _ m Hn Hm) as Hle. fold (onchain_weight specs) in Hle. pose proof (Hn m Hm). lia. }
    exists s, WELFARE_ONE. split; [done|]. split; [done|]. split; [done|]. split; [done|].
    unfold closeR. rewrite gridR_one. unfold unitR. rewrite Rminus_diag, Rabs_R0. lra.
  - destruct (weighted_geo_accurate specs comps [PillarCOnchain] (Some (onchain_weight specs)) (onchain_weight specs))
      as (c & Ec & Hg & Hacc); [by right|lia|apply Ho| |done|].
    + eapply factors_ok; [done|done|done|]. intros m Hm. by apply sum_by_ge.
    + exists s, c. by rewrite Ec.
Qed.

Lemma daily_gates_reported specs comps sc :
  compute_daily_gates specs comps = Ok sc ->
  forall m, m ∈ specs -> ms_pillar m ∈ [PillarS; PillarCOnchain] -> reported comps (ms_id m).
Proof.
  unfold compute_daily_gates. intros H m Hm Hp. inv_all. apply elem_of_cons in Hp as [Hp|Hp].
  - by eapply s_pillar_reported.
  - eapply geo_reported; [eassumption|]. by apply elem_of_pillars.
Qed.
