(* ===== verification/WelfareKeep.v ===== *)
(** * Every call keeps the invariant

    A snapshot is taken exactly when it is allowed, and then nothing can fail;
    the state checker accepts what the invariant says. *)

From Stdlib Require Import Reals.
From S2P Require Import Prelude Keyed Primitives U256 FixedPoint FixedReal Welfare WelfareNum WelfareInv.

Lemma ws_spec_elem version w specs : ws_spec version w = Ok specs -> (version, specs) ∈ ws_specs w.
Proof.
  unfold ws_spec. destruct (find_key fst version (ws_specs w)) as [[v s]|] eqn:E; cbn; [|done]. intros [= ->].
  apply find_key_Some in E as [<- E]. done.
Qed.

Lemma ws_snapshot_elem e v w s :
  ws_snapshot e v w = Ok s -> s ∈ ws_snapshots w /\ sn_epoch s = e /\ sn_spec_version s = v.
Proof.
  unfold ws_snapshot. destruct (filter _ _) as [|x l] eqn:E; cbn; [done|]. intros [= ->].
  assert (s ∈ filter (fun x => sn_epoch x = e /\ sn_spec_version x = v) (ws_snapshots w)) as Hin by (rewrite E; by left).
  apply list_elem_of_filter in Hin. tauto.
Qed.

(** ** Snapshots *)

(** When an epoch may be measured under a version, from some components. *)
Record snapshot_allowed (w : WelfareState) (epoch : EpochId) (version : MetricSpecVersion) (comps : list ComponentValue)
    (incident : FixedU64) (params : WelfareParams) (specs : list MetricSpec) : Prop := {
  al_params : welfare_params_ok params;
  al_spec : ws_spec version w = Ok specs;
  al_active : forall m, m ∈ specs -> ms_activation_epoch m <= epoch;
  al_room : (length (ws_snapshots w) < MAX_SNAPSHOTS)%nat;
  al_few : (length comps <= MAX_COMPONENTS_PER_SPEC)%nat;
  al_incident : incident <= WELFARE_ONE;
  al_new : (epoch, version) ∉ keys snapshot_key (ws_snapshots w);
  al_reported : forall m, m ∈ specs -> reported comps (ms_id m);
}.

Lemma new_snapshot epoch version l :
  forallb (fun s => negb (sn_epoch s =? epoch) || negb (sn_spec_version s =? version)) l = true
  <-> (epoch, version) ∉ keys snapshot_key l.
Proof.
  rewrite forallb_elem. setoid_rewrite elem_of_keys. unfold snapshot_key. split.
  - intros H (s & Hs & [= <- <-]). specialize (H s Hs). lia.
  - intros H s Hs. destruct (Z.eqb_spec (sn_epoch s) epoch), (Z.eqb_spec (sn_spec_version s) version); try done.
    exfalso. apply H. exists s. split; [done|]. by subst.
Qed.

Lemma record_snapshot_allowed w epoch version comps incident params welfare w' :
  record_snapshot epoch version comps incident params w = (Ok welfare, w') ->
  exists specs, snapshot_allowed w epoch version comps incident params specs.
Proof.
  unfold record_snapshot. intros H. inv_all. rename select (list MetricSpec) into specs.
  repeat match goal with x : unit |- _ => destruct x end.
  match goal with Hf : forallb _ specs = true |- _ => rewrite forallb_elem in Hf; rename Hf into Hact end.
  match goal with Hf : forallb _ _ = true |- _ => rewrite new_snapshot in Hf end.
  exists specs. constructor; try done.
  - intros m Hm. by apply Z.leb_le, Hact.
  - by apply Nat.ltb_lt.
  - by apply Nat.leb_le.
  - by apply Z.leb_le.
  - by eapply compute_pillars_reported.
Qed.

(** What the snapshot says. *)
Definition snapshot_of (epoch : EpochId) (version : MetricSpecVersion) (comps : list ComponentValue) (pi : Pillars)
    (gate_s gate_c welfare : FixedU64) : Snapshot :=
  {| sn_epoch := epoch; sn_spec_version := version; sn_s_pillar := pi_s pi; sn_c_onchain := pi_c_onchain pi;
     sn_c_attested := pi_c_attested pi; sn_p_pillar := pi_p pi; sn_a_pillar := pi_a pi; sn_gate_s := gate_s;
     sn_gate_c := gate_c; sn_welfare := welfare; sn_components := comps |}.

Definition with_snapshot (s : Snapshot) (w : WelfareState) : WelfareState :=
  ws_push (WfSnapshotRecorded (sn_epoch s) (sn_spec_version s) (sn_welfare s)) (set_snapshots (ws_snapshots w ++ [s]) w).

(** The snapshot of an allowed measurement: accurate pillars, their gates and
    their welfare. *)
Record snapshot_accurate (specs : list MetricSpec) (incident : FixedU64) (params : WelfareParams) (pi : Pillars) (s : Snapshot) : Prop := {
  sa_pillars : pillars_accurate specs (sn_components s) incident pi;
  sa_fields : s = snapshot_of (sn_epoch s) (sn_spec_version s) (sn_components s) pi (sn_gate_s s) (sn_gate_c s) (sn_welfare s);
  sa_gates : on_grid (sn_gate_s s) /\ on_grid (sn_gate_c s)
    /\ gate (pi_s pi) (wp_theta_s_lo params) (wp_theta_s_hi params) = Ok (sn_gate_s s)
    /\ gate (pi_c_settlement pi) (wp_theta_c_lo params) (wp_theta_c_hi params) = Ok (sn_gate_c s);
  sa_welfare : on_grid (sn_welfare s)
    /\ compute_welfare (pi_s pi) (pi_c_settlement pi) (pi_p pi) (pi_a pi) params = Ok (sn_welfare s);
}.

Lemma record_snapshot_runs w epoch version comps incident params specs :
  spec_set_ok version specs -> values_typed comps -> 0 <= incident ->
  snapshot_allowed w epoch version comps incident params specs ->
  exists pi s, snapshot_accurate specs incident params pi s
    /\ sn_epoch s = epoch /\ sn_spec_version s = version /\ sn_components s = comps
    /\ record_snapshot epoch version comps incident params w = (Ok (sn_welfare s), with_snapshot s w).
Proof.
  intros Ho Hc Hi [Hp Hs Hact Hroom Hfew Hinc Hnew Hrep].
  destruct (compute_pillars_accurate version specs comps incident Ho Hc ltac:(lia) Hrep) as (pi & Epi & Hpi).
  destruct (compute_welfare_spec (pi_s pi) (pi_c_settlement pi) (pi_p pi) (pi_a pi) params Hp) as (wf & Ew & Hw & _);
    [apply Hpi|apply Hpi|apply Hpi|apply Hpi|].
  destruct (params_facts params Hp) as (Hsl & Hsh & Hcl & Hch & _). unfold THETA_S_LO, THETA_C_LO in *.
  destruct (gate_spec (pi_s pi) (wp_theta_s_lo params) (wp_theta_s_hi params)) as (gs & Egs & Hgs & _); [lia|lia|apply Hpi|].
  destruct (gate_spec (pi_c_settlement pi) (wp_theta_c_lo params) (wp_theta_c_hi params)) as (gc & Egc & Hgc & _); [lia|lia|apply Hpi|].
  exists pi, (snapshot_of epoch version comps pi gs gc wf). split; [by constructor|]. split_and!; [done..|].
  unfold record_snapshot, bind, lift, reads, get, modify, ret. unfold welfare_params_ok in Hp. rewrite Hp. cbn [fst snd].
  rewrite Hs, (ensure_true (forallb _ specs)).
  2: { apply forallb_elem. intros m Hm. by apply Z.leb_le, Hact. }
  rewrite (ensure_true (_ <? _)%nat) by (by apply Nat.ltb_lt). rewrite (ensure_true (_ <=? _)%nat) by (by apply Nat.leb_le).
  rewrite (ensure_true (_ <=? _)) by (by apply Z.leb_le). rewrite (ensure_true (forallb _ _)) by (by apply new_snapshot).
  by rewrite Epi, Ew, Egs, Egc.
Qed.

(** ** The daily gates

    A day's sample adds its breach to the epoch's flags: the flags are the
    union of the samples, day by day. *)

(** A sample: the day and what it breached. *)
Record Sample : Type := {
  sp_day : Z;
  sp_s : bool;
  sp_c : bool;
}.

Definition sp_breach (x : Sample) : bool := sp_s x || sp_c x.

(** The samples of an epoch in the log. *)
Definition samples (epoch : EpochId) (l : list WelfareEvent) : list Sample :=
  omap (fun e => match e with
                 | WfGateBreachRecorded e' day s c => if decide (e' = epoch) then Some {| sp_day := day; sp_s := s; sp_c := c |} else None
                 | _ => None
                 end) l.

Lemma samples_app epoch l l' : samples epoch (l ++ l') = samples epoch l ++ samples epoch l'.
Proof. apply omap_app. Qed.

(** The bit of a day. *)
Definition day_breached (flags : GateBreachFlags) (day : Z) : bool :=
  Z.testbit (arr2_get (gb_day_bitmap flags) (Z.to_nat (day / 32))) (day mod 32).

Definition day_ok (day : Z) : Prop := 0 <= day < MAX_DAILY_GATE_SAMPLES.

Lemma word_of day : day_ok day -> (Z.to_nat (day / 32) < 2)%nat /\ 0 <= day mod 32 < 32 /\ 0 <= day / 32 < 2.
Proof.
  unfold day_ok, MAX_DAILY_GATE_SAMPLES. intros H. pose proof (Z.mod_pos_bound day 32 ltac:(lia)).
  assert (0 <= day / 32 < 2) by (split; [apply Z.div_pos; lia|apply Z.div_lt_upper_bound; lia]). lia.
Qed.

Lemma arr2_get_set (p : arr2 Z) i j x : (i < 2)%nat -> (j < 2)%nat -> arr2_get (arr2_set p i x) j = if decide (i = j) then x else arr2_get p j.
Proof. intros Hi Hj. destruct i as [|[|]], j as [|[|]], p; try lia; by cbn. Qed.

Lemma flag_day_spec day s c flags :
  day_ok day ->
  exists flags', flag_day day s c flags = Ok flags'
    /\ gb_s_breached flags' = gb_s_breached flags || s /\ gb_c_breached flags' = gb_c_breached flags || c
    /\ forall d, day_ok d -> day_breached flags' d = day_breached flags d || ((s || c) && (d =? day)).
Proof.
  intros Hd. destruct (word_of day Hd) as (Hw & Hm & Hq). unfold flag_day.
  destruct (s || c) eqn:E; cbn [rbind].
  - rewrite (ensure_true (_ <? 2)%nat) by (by apply Nat.ltb_lt). cbn [rbind]. eexists. split; [done|].
    split; [done|]. split; [done|]. intros d Hd'. unfold day_breached. cbn [gb_day_bitmap].
    destruct (word_of d Hd') as (Hw' & Hm' & Hq'). rewrite arr2_get_set by done. cbn [andb].
    pose proof (Z.div_mod day 32 ltac:(lia)). pose proof (Z.div_mod d 32 ltac:(lia)).
    destruct (decide (Z.to_nat (day / 32) = Z.to_nat (d / 32))) as [Ew|Ew].
    + rewrite <- Ew, Z.lor_spec, Z.shiftl_1_l, Z.pow2_bits_eqb by lia. f_equal.
      destruct (Z.eqb_spec (day mod 32) (d mod 32)), (Z.eqb_spec d day); try done; lia.
    + destruct (Z.eqb_spec d day) as [->|]; [done|]. by rewrite orb_false_r.
  - eexists. split; [done|]. split; [done|]. split; [done|]. intros d _. cbn [andb]. by rewrite orb_false_r.
Qed.

(** What the flags say about a list of samples, added to earlier flags. *)
Record flags_say (before after : GateBreachFlags) (l : list Sample) : Prop := {
  fs_s : gb_s_breached after = gb_s_breached before || existsb sp_s l;
  fs_c : gb_c_breached after = gb_c_breached before || existsb sp_c l;
  fs_days : forall d, day_ok d -> day_breached after d = day_breached before d || existsb (fun x => sp_breach x && (d =? sp_day x)) l;
}.

Lemma flags_say_nil f : flags_say f f [].
Proof. constructor; cbn; intros; by rewrite orb_false_r. Qed.

Lemma flags_say_snoc f f' f'' l x :
  flags_say f f' l -> flags_say f' f'' [x] -> flags_say f f'' (l ++ [x]).
Proof.
  intros [H1 H2 H3] [J1 J2 J3]. constructor.
  - by rewrite J1, H1, existsb_app, orb_assoc.
  - by rewrite J2, H2, existsb_app, orb_assoc.
  - intros d Hd. by rewrite (J3 d Hd), (H3 d Hd), existsb_app, orb_assoc.
Qed.

(** ** One sample *)

Definition put_flags (epoch : EpochId) (f : GateBreachFlags) (l : list (EpochId * GateBreachFlags)) : list (EpochId * GateBreachFlags) :=
  if find_key fst epoch l then alter_key fst epoch (fun ef => (ef.1, f)) l else l ++ [(epoch, f)].

Lemma find_put_eq epoch f l : find_key fst epoch (put_flags epoch f l) = Some (epoch, f).
Proof.
  unfold put_flags. destruct (find_key fst epoch l) as [ef|] eqn:E.
  - rewrite (find_key_alter_eq _ _ _ _ ef); [|done|done]. by apply find_key_Some in E as [<- _].
  - rewrite find_key_app, E. cbn. by rewrite decide_True.
Qed.

Lemma find_put_ne epoch e f l : e <> epoch -> find_key fst e (put_flags epoch f l) = find_key fst e l.
Proof.
  intros Hne. unfold put_flags. destruct (find_key fst epoch l).
  - by rewrite find_key_alter_ne.
  - rewrite find_key_app. destruct (find_key fst e l); [done|]. cbn. by rewrite decide_False.
Qed.

Lemma put_flags_NoDup epoch f l : NoDup (keys fst l) -> NoDup (keys fst (put_flags epoch f l)).
Proof.
  intros Hn. unfold put_flags. destruct (find_key fst epoch l) eqn:E; [by rewrite keys_alter|].
  rewrite keys_app. apply NoDup_app. split_and!; [done| |apply NoDup_singleton].
  intros k Hk ->%list_elem_of_singleton. by apply find_key_None in E.
Qed.

(** A successful sample: what the day's gates were, and what is stored. *)
Record sampled_day (epoch : EpochId) (version : MetricSpecVersion) (comps : list ComponentValue) (params : WelfareParams)
    (f : GateBreachFlags) (x : Sample) (w w' : WelfareState) : Prop := {
  sd_valid : welfare_params_ok params;
  sd_gates : exists specs s c, ws_spec version w = Ok specs /\ compute_daily_gates specs comps = Ok (s, c)
    /\ sp_s x = (s <? wp_theta_s_lo params) /\ sp_c x = (c <? wp_theta_c_lo params);
  sd_day : day_ok (sp_day x);
  sd_flags : flags_say (gate_breach epoch w) f [x];
  sd_room : epoch ∉ keys fst (ws_gate_flags w) -> (length (ws_gate_flags w) < MAX_GATE_FLAGS)%nat;
  sd_stored : w' = ws_push (WfGateBreachRecorded epoch (sp_day x) (sp_s x) (sp_c x))
                    (set_gate_flags (put_flags epoch f (ws_gate_flags w)) w);
}.

Lemma record_daily_gate_runs w epoch day version comps params out w' :
  0 <= day -> record_daily_gate epoch day version comps params w = (Ok out, w') ->
  exists x, sp_day x = day /\ sampled_day epoch version comps params out.1 x w w'.
Proof.
  intros Hday H. unfold record_daily_gate in H. inv_all. repeat match goal with x : unit |- _ => destruct x end.
  rename select (list MetricSpec) into specs. rename select GateBreachFlags into f. rename select WelfareState into w1.
  match goal with Hd : (day <? _) = true |- _ => apply Z.ltb_lt in Hd end.
  assert (day_ok day) as Hok by (unfold day_ok; lia).
  match goal with Hg : compute_daily_gates specs comps = Ok ?p |- _ => destruct p as [s c] end. cbn [fst snd] in *.
  exists {| sp_day := day; sp_s := s <? wp_theta_s_lo params; sp_c := c <? wp_theta_c_lo params |}. split; [done|].
  match goal with Hf : flag_day _ _ _ _ = Ok f |- _ => rename Hf into Hflag end.
  destruct (flag_day_spec day (s <? wp_theta_s_lo params) (c <? wp_theta_c_lo params)
              (map_or GateBreachFlags_none snd (find_key fst epoch (ws_gate_flags w))) Hok) as (f' & Hf' & Hs & Hcc & Hdays).
  rewrite Hflag in Hf'. injection Hf' as <-.
  match goal with Hp : (if is_none _ then _ else _) w = _ |- _ => rename Hp into Hput end.
  assert (w1 = set_gate_flags (put_flags epoch f (ws_gate_flags w)) w
    /\ (epoch ∉ keys fst (ws_gate_flags w) -> (length (ws_gate_flags w) < MAX_GATE_FLAGS)%nat)) as [-> Hroom].
  { unfold put_flags. destruct (find_key fst epoch (ws_gate_flags w)) as [ef|] eqn:E; cbn [is_none] in Hput; inv_all.
    - split; [done|]. intros Hn. apply find_key_None in Hn. congruence.
    - split; [done|]. intros _. by apply Nat.ltb_lt. }
  constructor; cbn [sp_day sp_s sp_c fst snd]; [done|by exists specs, s, c|done| |done|done].
  constructor; cbn; [by rewrite orb_false_r|by rewrite orb_false_r|].
  intros d Hd. rewrite (Hdays d Hd), orb_false_r. done.
Qed.

(** ** The flags of an epoch over a run *)

Lemma gate_breach_put epoch e f w ev :
  gate_breach e (ws_push ev (set_gate_flags (put_flags epoch f (ws_gate_flags w)) w)) = if decide (e = epoch) then f else gate_breach e w.
Proof.
  unfold gate_breach. cbn [ws_push set_ws_events set_gate_flags ws_gate_flags]. destruct (decide (e = epoch)) as [->|Hne].
  - by rewrite find_put_eq.
  - by rewrite find_put_ne.
Qed.

Lemma sampled_iff epoch w : gate_window_sampled epoch w = true <-> epoch ∈ keys fst (ws_gate_flags w).
Proof.
  unfold gate_window_sampled. rewrite existsb_elem, elem_of_keys. split; intros (ef & H & E); exists ef; (split; [done|lia]).
Qed.

Lemma elem_of_put epoch e f l : e ∈ keys fst (put_flags epoch f l) <-> e = epoch \/ e ∈ keys fst l.
Proof.
  unfold put_flags. destruct (find_key fst epoch l) as [ef|] eqn:E.
  - rewrite keys_alter by done. split; [by right|]. intros [->|?]; [|done]. apply find_key_Some in E as [<- E].
    apply elem_of_keys. eauto.
  - rewrite keys_app, elem_of_app. cbn. rewrite list_elem_of_singleton. tauto.
Qed.

(** One call, seen from an epoch that it does not prune. *)
Record epoch_kept (epoch : EpochId) (w w' : WelfareState) (l : list WelfareEvent) : Prop := {
  ek_events : ws_events w' = ws_events w ++ l;
  ek_flags : flags_say (gate_breach epoch w) (gate_breach epoch w') (samples epoch l);
  ek_sampled : epoch ∈ keys fst (ws_gate_flags w') <-> epoch ∈ keys fst (ws_gate_flags w) \/ samples epoch l <> [];
  ek_days : Forall (fun x => day_ok (sp_day x)) (samples epoch l);
  ek_snapshots : forall s, s ∈ ws_snapshots w -> sn_epoch s = epoch -> s ∈ ws_snapshots w';
}.

Lemma epoch_kept_quiet epoch w w' l :
  ws_events w' = ws_events w ++ l -> samples epoch l = [] -> find_key fst epoch (ws_gate_flags w') = find_key fst epoch (ws_gate_flags w) ->
  (forall s, s ∈ ws_snapshots w -> sn_epoch s = epoch -> s ∈ ws_snapshots w') -> epoch_kept epoch w w' l.
Proof.
  intros He Hs Hf Hsn. constructor; [done| | |by rewrite Hs|done]; rewrite Hs.
  - unfold gate_breach. rewrite Hf. apply flags_say_nil.
  - pose proof (find_key_None fst epoch (ws_gate_flags w')) as N'. pose proof (find_key_None fst epoch (ws_gate_flags w)) as N.
    rewrite Hf in N'. destruct (decide (epoch ∈ keys fst (ws_gate_flags w'))), (decide (epoch ∈ keys fst (ws_gate_flags w))); tauto.
Qed.

Lemma find_filter_key epoch cutoff (l : list (EpochId * GateBreachFlags)) :
  cutoff <= epoch -> find_key fst epoch (filter (fun ef => cutoff <= ef.1) l) = find_key fst epoch l.
Proof.
  intros Hc. induction l as [|ef l IH]; [done|]. rewrite filter_cons. cbn [find_key]. case_decide; cbn [find_key]; case_decide; try done.
  subst. lia.
Qed.

Definition keeps_epoch (c : WelfareCall) (epoch : EpochId) : Prop :=
  match c with WPrune cutoff => cutoff <= epoch | _ => True end.

Lemma call_keeps_epoch c epoch w w' :
  welfare_typed c -> keeps_epoch c epoch -> welfare_exec c w = (Ok tt, w') -> exists l, epoch_kept epoch w w' l.
Proof.
  intros Ht Hk H. destruct c as [reg v specs|e v comps inc params|e day v comps params|e v|cutoff]; cbn [welfare_exec] in H.
  - unfold register_metric_spec in H. inv_all. eexists. by apply epoch_kept_quiet.
  - unfold ignore_result in H. inv_all. match goal with Hr : record_snapshot _ _ _ _ _ _ = _ |- _ => unfold record_snapshot in Hr; inv_all end.
    eexists. apply epoch_kept_quiet; [done|done|done|]. cbn. intros s Hs _. apply elem_of_app. by left.
  - unfold ignore_result in H. inv_all. match goal with Hr : record_daily_gate _ _ _ _ _ _ = _ |- _ => apply record_daily_gate_runs in Hr; [|apply Ht] end.
    match goal with Hr : ex _ |- _ => destruct Hr as (y & <- & [_ _ Hd Hf _ ->]) end.
    eexists. constructor; [done| | | |done].
    + rewrite gate_breach_put. cbn [samples omap list_omap]. case_decide as E.
      * subst. rewrite decide_True by done. by destruct y.
      * rewrite decide_False by done. apply flags_say_nil.
    + cbn [ws_push set_ws_events set_gate_flags ws_gate_flags]. rewrite elem_of_put. cbn [samples omap list_omap].
      destruct (decide (e = epoch)); naive_solver.
    + cbn [samples omap list_omap]. case_decide; [|done]. by apply Forall_singleton.
  - unfold ignore_result in H. inv_all. match goal with Hr : compute_settlement _ _ _ = _ |- _ => unfold compute_settlement in Hr; inv_all end.
    eexists. by apply epoch_kept_quiet.
  - inv_all. exists []. cbn in Hk. apply epoch_kept_quiet; [by rewrite app_nil_r|done| |].
    + cbn. by apply find_filter_key.
    + cbn. intros s Hs E. apply list_elem_of_filter. split; [lia|done].
Qed.

Lemma epoch_kept_trans epoch w w' w'' l l' : epoch_kept epoch w w' l -> epoch_kept epoch w' w'' l' -> epoch_kept epoch w w'' (l ++ l').
Proof.
  intros [H1 H2 H3 H4 H5] [J1 J2 J3 J4 J5]. constructor.
  - by rewrite J1, H1, app_assoc.
  - rewrite samples_app. destruct H2 as [A1 A2 A3], J2 as [B1 B2 B3]. constructor.
    + by rewrite B1, A1, existsb_app, orb_assoc.
    + by rewrite B2, A2, existsb_app, orb_assoc.
    + intros d Hd. by rewrite (B3 d Hd), (A3 d Hd), existsb_app, orb_assoc.
  - rewrite J3, H3, samples_app. destruct (samples epoch l), (samples epoch l'); naive_solver.
  - rewrite samples_app. by apply Forall_app.
  - auto.
Qed.

(** Calls that prune nothing from [epoch] on. *)
Definition welfare_step_from (epoch : EpochId) (w w' : WelfareState) : Prop :=
  exists c, welfare_typed c /\ keeps_epoch c epoch /\ welfare_exec c w = (Ok tt, w').

Lemma run_keeps_epoch epoch e w w' : epoch <= e -> rtc (welfare_step_from epoch) w w' -> exists l, epoch_kept e w w' l.
Proof.
  intros He. induction 1 as [w|w w1 w' (c & Ht & Hk & Hc) _ (l' & IH)].
  - exists []. apply epoch_kept_quiet; [by rewrite app_nil_r|done..|auto].
  - destruct (call_keeps_epoch c e w w1 Ht) as (l & Hl); [destruct c; cbn in *; (done || lia)|done|].
    eexists. by eapply epoch_kept_trans.
Qed.

(** ** The invariant, kept; the checker, satisfied *)

(** ** The sort *)

Lemma insert_perm x l : insert_by_id x l ≡ₚ x :: l.
Proof.
  induction l as [|y l IH]; cbn; [done|]. case_match; [done|]. rewrite IH. apply Permutation_swap.
Qed.

Lemma sort_perm l : sort_by_id l ≡ₚ l.
Proof. induction l as [|x l IH]; cbn; [done|]. by rewrite insert_perm, IH. Qed.

(** ** Registration *)

Lemma register_spec_ok reg version specs w w' :
  Forall (fun m => 0 <= ms_weight m) specs -> register_metric_spec reg version specs w = (Ok tt, w') ->
  (length (ws_specs w) < MAX_METRIC_SPECS)%nat /\ version ∉ keys fst (ws_specs w)
  /\ spec_set_ok version (sort_by_id specs)
  /\ w' = ws_push (WfMetricSpecRegistered version) (set_ws_specs (ws_specs w ++ [(version, sort_by_id specs)]) w).
Proof.
  intros Ht H. unfold register_metric_spec in H. inv_all.
  repeat match goal with x : unit |- _ => destruct x end.
  match goal with Hf : forallb _ (ws_specs w) = true |- _ => rewrite forallb_elem in Hf; rename Hf into Hnew end.
  match goal with Hf : try_fold (check_spec _ _) _ _ = _ |- _ => rename Hf into Hall end.
  match goal with Hl : negb _ && _ = true |- _ => rewrite andb_true_iff, negb_true_iff, Nat.eqb_neq, Nat.leb_le in Hl; rename Hl into Hlen end.
  split; [by apply Nat.ltb_lt|]. split.
  { intros (vs & Hin & E)%elem_of_keys. specialize (Hnew vs Hin). subst. by rewrite Z.eqb_refl in Hnew. }
  split; [|done]. constructor.
  - rewrite (Permutation_length (sort_perm specs)). lia.
  - eexists. eapply try_fold_impl; [|exact Hall]. intros acc m r _. apply check_spec_stored.
  - by rewrite sort_perm.
  - unfold sums_to_one. match goal with Hw : weight_sum _ _ = _ |- _ => by rewrite Hw end.
  - unfold sums_to_one. match goal with Hw : weight_sum [PillarP] _ = _ |- _ => by rewrite Hw end.
  - unfold sums_to_one. match goal with Hw : weight_sum [PillarA] _ = _ |- _ => by rewrite Hw end.
Qed.

(** ** Every call *)

Lemma NoDup_keys_snoc {K V} (key : V -> K) l v : NoDup (keys key l) -> key v ∉ keys key l -> NoDup (keys key (l ++ [v])).
Proof.
  intros Hn Hv. unfold keys. rewrite fmap_app. apply NoDup_app. split_and!; [done| |apply NoDup_singleton].
  by intros k Hk ->%list_elem_of_singleton.
Qed.

Lemma register_keeps reg version specs w w' :
  WInv w -> Forall (fun m => 0 <= ms_weight m) specs -> register_metric_spec reg version specs w = (Ok tt, w') -> WInv w'.
Proof.
  intros [[Hv Hvl] Hs He Hsn Hf] Ht H. destruct (register_spec_ok _ _ _ _ _ Ht H) as (Hlen & Hnew & Hok & ->).
  constructor; cbn; [|intros v l|done|done|done].
  - split; [by apply NoDup_keys_snoc|]. rewrite length_app. cbn. lia.
  - rewrite elem_of_app, list_elem_of_singleton. intros [Hin|[= -> ->]]; [by apply Hs|done].
Qed.

Lemma accurate_ok specs incident params pi s :
  (length (sn_components s) <= MAX_COMPONENTS_PER_SPEC)%nat -> snapshot_accurate specs incident params pi s -> snapshot_ok s.
Proof.
  intros Hl [Hp Hf (Hg1 & Hg2 & _) [Hw _]]. constructor; [done|]. rewrite Hf. cbn.
  destruct Hp as [[_ ?] [? _] [? _] _ [? _] [? _]]. repeat (apply Forall_cons; split; [done|]). by apply Forall_nil.
Qed.

Lemma snapshot_keeps epoch version comps incident params welfare w w' :
  WInv w -> values_typed comps -> 0 <= incident ->
  record_snapshot epoch version comps incident params w = (Ok welfare, w') -> WInv w'.
Proof.
  intros Hi Hc Hinc H. destruct (record_snapshot_allowed _ _ _ _ _ _ _ _ H) as (specs & Hal).
  pose proof (wi_specs _ Hi version specs (ws_spec_elem _ _ _ (al_spec _ _ _ _ _ _ _ Hal))) as Ho.
  destruct (record_snapshot_runs w epoch version comps incident params specs Ho Hc Hinc Hal) as (pi & s & Ha & Ee & Ev & Ecs & E).
  rewrite E in H. injection H as <- <-. destruct Hi as [Hv Hs [He Hel] Hsn Hf]. destruct Hal as [_ _ _ Hroom Hfew _ Hnew _].
  constructor; cbn; [done|done| | |done].
  - split; [apply NoDup_keys_snoc; [done|]|rewrite length_app; cbn; lia]. unfold snapshot_key. by rewrite Ee, Ev.
  - apply Forall_app. split; [done|]. apply Forall_singleton. eapply accurate_ok; [by rewrite Ecs|exact Ha].
Qed.

Lemma length_put epoch f l :
  (epoch ∉ keys fst l -> (length l < MAX_GATE_FLAGS)%nat) -> (length l <= MAX_GATE_FLAGS)%nat ->
  (length (put_flags epoch f l) <= MAX_GATE_FLAGS)%nat.
Proof.
  intros Hroom Hl. unfold put_flags. destruct (find_key fst epoch l) eqn:E; [by rewrite length_alter_key|].
  apply find_key_None in E. specialize (Hroom E). rewrite length_app. cbn. lia.
Qed.

Lemma daily_keeps epoch day version comps params out w w' :
  WInv w -> 0 <= day -> record_daily_gate epoch day version comps params w = (Ok out, w') -> WInv w'.
Proof.
  intros [Hv Hs He Hsn [Hf Hfl]] Hd H. apply record_daily_gate_runs in H as (x & _ & [_ _ _ _ Hroom ->]); [|done].
  constructor; cbn; [done|done|done|done|]. split; [by apply put_flags_NoDup|by apply length_put].
Qed.

Lemma welfare_step_keeps w w' : WInv w -> welfare_step w w' -> WInv w'.
Proof.
  intros Hi (c & Ht & H). destruct c as [reg v specs|e v comps inc params|e day v comps params|e v|cutoff]; cbn [welfare_exec] in H.
  - by eapply register_keeps.
  - unfold ignore_result in H. inv_all. destruct Ht. by eapply snapshot_keeps.
  - unfold ignore_result in H. inv_all. destruct Ht. by eapply daily_keeps.
  - unfold ignore_result in H. inv_all. match goal with Hr : compute_settlement _ _ _ = _ |- _ => unfold compute_settlement in Hr; inv_all end.
    destruct Hi. by constructor.
  - inv_all. destruct Hi as [Hv Hs [He Hel] Hsn [Hf Hfl]]. constructor; cbn; [done|done| | |].
    + split; [by apply keys_filter_NoDup|]. etrans; [apply length_filter|done].
    + apply Forall_forall. intros s [_ Hin]%list_elem_of_filter. by apply (proj1 (Forall_forall _ _) Hsn).
    + split; [by apply keys_filter_NoDup|]. etrans; [apply length_filter|done].
Qed.

Lemma WInv_new : WInv WelfareState_new.
Proof.
  constructor; cbn; [split; [apply NoDup_nil_2|lia]|by intros ? ? ?%elem_of_nil|split; [apply NoDup_nil_2|lia]|constructor|
    split; [apply NoDup_nil_2|lia]].
Qed.

Lemma welfare_reachable_inv w : welfare_reachable w -> WInv w.
Proof.
  unfold welfare_reachable. intros Hr. apply (rtc_ind_r WInv WelfareState_new) in Hr; [done|apply WInv_new|].
  intros x y _ Hs Hi. by eapply welfare_step_keeps.
Qed.

(** ** The checker *)

Lemma for_prefixes_Ok {E T} (f : list T -> T -> Result E unit) seen l :
  (forall pre x post, l = pre ++ x :: post -> f (seen ++ pre) x = Ok tt) -> for_prefixes f seen l = Ok tt.
Proof.
  revert seen. induction l as [|x l IH]; intros seen H; cbn; [done|].
  pose proof (H [] x l eq_refl) as Hx. rewrite app_nil_r in Hx. rewrite Hx. cbn. apply IH.
  intros pre y post ->. rewrite <- app_assoc. apply (H (x :: pre) y post). done.
Qed.

Lemma key_not_before {K V} (key : V -> K) pre x post : NoDup (keys key (pre ++ x :: post)) -> forall y, y ∈ pre -> key y <> key x.
Proof.
  unfold keys. rewrite fmap_app. intros (_ & Hn & _)%NoDup_app y Hy E. apply (Hn (key y)); [by apply list_elem_of_fmap_2|].
  rewrite E. cbn. by left.
Qed.

Lemma welfare_checker w : WInv w -> welfare_try_state w = Ok tt.
Proof.
  intros [[Hv Hvl] Hs [He Hel] Hsn [Hf Hfl]]. unfold welfare_try_state.
  rewrite ensure_true by (rewrite !andb_true_iff; repeat split; by apply Nat.leb_le). cbn [rbind].
  rewrite for_prefixes_Ok; [cbn [rbind]; rewrite for_prefixes_Ok; [cbn [rbind]; apply for_prefixes_Ok|]|].
  - intros pre x post E. unfold check_gate_flags. apply ensure_true, forallb_elem. cbn. intros y Hy. rewrite E in Hf.
    pose proof (key_not_before fst pre x post Hf y Hy). lia.
  - intros pre x post E. unfold check_snapshot. cbn [app].
    assert (x ∈ ws_snapshots w) as Hin by (rewrite E; set_solver).
    destruct (proj1 (Forall_forall _ _) Hsn x Hin) as [Hc Hg]. rewrite E in He.
    rewrite (ensure_true (_ && _)); [cbn [rbind]|].
    + apply ensure_true, forallb_elem. intros v Hvin. apply Z.leb_le. by apply (proj1 (Forall_forall _ _) Hg).
    + rewrite andb_true_iff, Nat.leb_le, forallb_elem. split; [|done]. intros y Hy.
      pose proof (key_not_before snapshot_key pre x post He y Hy) as Hne. unfold snapshot_key in Hne.
      destruct (Z.eqb_spec (sn_epoch y) (sn_epoch x)), (Z.eqb_spec (sn_spec_version y) (sn_spec_version x)); try done. congruence.
  - intros pre [v l] post E. unfold check_spec_set. cbn [app fst snd].
    assert ((v, l) ∈ ws_specs w) as Hin by (rewrite E; set_solver). rewrite E in Hv.
    destruct (Hs v l Hin) as [Hl [r Hr] _ Hc Hp Ha].
    rewrite (ensure_true (forallb _ _)); [cbn [rbind]|].
    + rewrite ensure_true by (rewrite andb_true_iff, negb_true_iff, Nat.eqb_neq, Nat.leb_le; lia). cbn [rbind].
      rewrite Hr. cbn [rbind]. apply ensure_true. by rewrite Hc, Hp, Ha.
    + apply forallb_elem. intros y Hy. pose proof (key_not_before fst pre (v, l) post Hv y Hy) as Hne. cbn in Hne. lia.
Qed.
