(* ===== verification/WelfareTheorems.v ===== *)
(** * The properties of the welfare core *)

From Stdlib Require Import Reals Lra.
From S2P Require Import Prelude Keyed Primitives U256 FixedPoint FixedReal FixedLog FixedCost Welfare WelfareNum WelfareInv WelfareKeep.

(** The components are floored at one percent, so the composites are, too. *)
Lemma composite_floor comps total l :
  (1 <= total)%Z -> Forall (factor_ok comps total) l -> (sum_by ms_weight l <= total)%Z ->
  (/ 100 <= geo_mean (map (factor comps total) l))%R.
Proof.
  intros Ht Hf Hs. pose proof (sum_shares total l Ht Hs) as Hsh.
  assert (Rpower (/ 100) (sumR (map (fun m => shareR (ms_weight m) total) l)) <= geo_mean (map (factor comps total) l))%R as Hle.
  { clear Hs Hsh. induction Hf as [|m l Hm _ IH]; cbn [map]; unfold sumR, geo_mean in *; cbn [foldr].
    - rewrite Rpower_O; lra.
    - rewrite Rpower_plus. destruct Hm as [_ Hg _ Hw]. unfold factor at 1 2. cbn [fst snd].
      assert (/ 100 <= gridR (floored_component comps m))%R as Hx.
      { assert (EPSILON_PILLAR <= floored_component comps m)%Z as H1 by (unfold floored_component; lia).
        apply IZR_le in H1. unfold gridR, unitR, EPSILON_PILLAR in *. lra. }
      apply Rmult_le_compat; [apply Rlt_le, exp_pos..| |done].
      apply Rle_Rpower_l; [apply shareR_nonneg; lia|lra]. }
  assert (/ 100 <= Rpower (/ 100) (sumR (map (fun m => shareR (ms_weight m) total) l)))%R; [|lra].
  set (sh := sumR _) in *. unfold Rpower. rewrite <- (exp_ln (/ 100)) at 1 by lra.
  assert (ln (/ 100) < 0)%R as Hln by (rewrite <- ln_1; apply ln_increasing; lra).
  destruct (Rle_lt_or_eq_dec (ln (/ 100)) (sh * ln (/ 100))) as [Hlt|Heq]; [nra|by apply Rlt_le, exp_increasing|rewrite <- Heq; lra].
Qed.

Lemma composite_positive specs comps pillars version r :
  spec_set_ok version specs -> values_typed comps -> vector pillars -> (forall m, m ∈ specs -> reported comps (ms_id m)) ->
  closeR 2 r (compositeR specs comps pillars WELFARE_ONE) -> 1 <= r.
Proof.
  intros Ho Hc Hv Hr Hclose.
  pose proof (composite_floor comps WELFARE_ONE (of_pillars pillars specs) ltac:(done)) as Hf.
  destruct (vector_sum version specs pillars Ho Hv) as [_ Hsum].
  specialize (Hf ltac:(eapply factors_ok; [done|done|intros m [Hm _]%elem_of_pillars; auto|intros m [Hm _]%elem_of_pillars; by apply (stored_spec version specs)])).
  specialize (Hf Hsum). unfold closeR, compositeR in *. apply Rabs_inv in Hclose. unfold gridR, unitR in *.
  assert (0 < IZR r)%R as Hpos by lra. apply lt_IZR in Hpos. lia.
Qed.

(** C11. Measurement is total and is the formula. In every reachable state an
    epoch can be measured exactly when the parameters are valid, the version
    is registered and active, there is room, the epoch is new and every
    component of the spec is reported once, on the grid: no arithmetic step
    fails. The snapshot's survival pillar is the worst of its components, its
    composites are the real weighted geometric means up to two units of 1e-9
    (three with the incident multiplier), and its welfare is on the grid,
    zero behind a closed gate, and within sixteen units of the real product
    of the two smoothstep gates and the productivity-attention mean. *)
Theorem measurement_is_the_formula w epoch version comps incident params :
  welfare_reachable w -> values_typed comps -> 0 <= incident ->
  ((exists welfare w', record_snapshot epoch version comps incident params w = (Ok welfare, w'))
    <-> exists specs, snapshot_allowed w epoch version comps incident params specs)
  /\ forall welfare w', record_snapshot epoch version comps incident params w = (Ok welfare, w') ->
     exists specs pi s, ws_spec version w = Ok specs /\ snapshot_accurate specs incident params pi s
       /\ w' = with_snapshot s w /\ welfare = sn_welfare s /\ 0 <= welfare <= WELFARE_ONE
       /\ (pi_s pi <= wp_theta_s_lo params \/ pi_c_settlement pi <= wp_theta_c_lo params -> welfare = 0)
       /\ closeR 16 welfare (welfareR (gridR (pi_s pi)) (gridR (pi_c_settlement pi)) (gridR (pi_p pi)) (gridR (pi_a pi)) params).
Proof.
  intros Hw Hc Hinc. pose proof (welfare_reachable_inv w Hw) as Hi.
  assert (forall specs, snapshot_allowed w epoch version comps incident params specs -> spec_set_ok version specs) as Hspec.
  { intros specs Hal. apply (wi_specs _ Hi), ws_spec_elem, Hal. }
  split.
  - split.
    + intros (wf & w' & H). by eapply record_snapshot_allowed.
    + intros (specs & Hal). destruct (record_snapshot_runs w epoch version comps incident params specs (Hspec _ Hal) Hc Hinc Hal)
        as (pi & s & _ & _ & _ & _ & E). eauto.
  - intros wf w' H. destruct (record_snapshot_allowed _ _ _ _ _ _ _ _ H) as (specs & Hal).
    destruct (record_snapshot_runs w epoch version comps incident params specs (Hspec _ Hal) Hc Hinc Hal)
      as (pi & s & Ha & _ & _ & Ecs & E).
    rewrite E in H. injection H as <- <-. exists specs, pi, s. split; [apply Hal|]. split; [done|]. split; [done|]. split; [done|].
    pose proof Ha as [Hpi _ _ [Hg Ew]]. rewrite Ecs in Hpi.
    destruct (compute_welfare_spec (pi_s pi) (pi_c_settlement pi) (pi_p pi) (pi_a pi) params) as (wf & Ew' & _ & Hz & Hacc);
      [apply Hal|apply Hpi|apply Hpi|apply Hpi|apply Hpi|].
    rewrite Ew in Ew'. injection Ew' as <-. split; [done|]. split; [intros [?|?]; apply Hz; tauto|].
    assert (forall m, m ∈ specs -> reported comps (ms_id m)) as Hrep by apply Hal.
    apply Hacc; (eapply composite_positive; [by apply Hspec|done| |exact Hrep|apply Hpi]).
    + by right; left.
    + by right; right.
Qed.

Lemma ws_snapshot_unique w s epoch version :
  WInv w -> s ∈ ws_snapshots w -> snapshot_key s = (epoch, version) -> ws_snapshot epoch version w = Ok s.
Proof.
  intros Hi Hin Hk. unfold ws_snapshot. injection Hk as He Hv.
  destruct (filter (fun x => sn_epoch x = epoch /\ sn_spec_version x = version) (ws_snapshots w)) as [|x l] eqn:E; cbn.
  - exfalso. assert (s ∈ filter (fun x => sn_epoch x = epoch /\ sn_spec_version x = version) (ws_snapshots w)) as Hf
      by by apply list_elem_of_filter. rewrite E in Hf. by apply elem_of_nil in Hf.
  - f_equal. assert (x ∈ filter (fun x => sn_epoch x = epoch /\ sn_spec_version x = version) (ws_snapshots w)) as Hf
      by (rewrite E; by left). apply list_elem_of_filter in Hf as [[Hxe Hxv] Hx].
    assert (snapshot_key x = snapshot_key s) as Hkk by (unfold snapshot_key; congruence).
    pose proof (find_key_elem snapshot_key _ x (proj1 (wi_epochs _ Hi)) Hx) as F1.
    pose proof (find_key_elem snapshot_key _ s (proj1 (wi_epochs _ Hi)) Hin) as F2. rewrite Hkk in F1. congruence.
Qed.

Lemma from_reachable epoch w w' : welfare_reachable w -> rtc (welfare_step_from epoch) w w' -> welfare_reachable w'.
Proof.
  unfold welfare_reachable. intros Hw Hr. etrans; [exact Hw|]. eapply rtc_subrel; [|exact Hr].
  intros x y (c & Hc & _ & E). by exists c.
Qed.

Lemma settlement_runs w cohort version s1 s2 score :
  WInv w -> cohort + 2 < U32 -> s1 ∈ ws_snapshots w -> s2 ∈ ws_snapshots w ->
  snapshot_key s1 = (cohort + 1, version) -> snapshot_key s2 = (cohort + 2, version) ->
  settlement_score (sn_welfare s1) (sn_welfare s2) = Ok score -> (compute_settlement cohort version w).1 = Ok score.
Proof.
  intros Hi Hlt H1 H2 K1 K2 Hs. unfold compute_settlement, bind, lift, reads, modify, ret, checked_add.
  rewrite !(proj2 (Z.ltb_lt _ _)) by lia. cbn [ok_or].
  rewrite (ws_snapshot_unique w s1 _ _ Hi H1 K1). cbn [rmap]. rewrite (ws_snapshot_unique w s2 _ _ Hi H2 K2). cbn [rmap].
  by rewrite Hs.
Qed.

(** C28. Settlement is the geometric mean, exactly and for good: the score of
    a cohort is the floor of the square root of the product of its two
    floored epoch welfares, between the two, so exact where they agree; and a
    score that was computed stays the score in every
    later state that has not pruned the two epochs. *)
Theorem settlement_is_final w cohort version score w1 w' :
  welfare_reachable w -> compute_settlement cohort version w = (Ok score, w1) ->
  (exists s1 s2, s1 ∈ ws_snapshots w /\ s2 ∈ ws_snapshots w /\ snapshot_key s1 = (cohort + 1, version)
     /\ snapshot_key s2 = (cohort + 2, version)
     /\ let a := floored (sn_welfare s1) in let b := floored (sn_welfare s2) in
        score * score <= a * b < (score + 1) * (score + 1) /\ Z.min a b <= score <= Z.max a b)
  /\ (rtc (welfare_step_from (cohort + 1)) w1 w' -> (compute_settlement cohort version w').1 = Ok score).
Proof.
  intros Hw H. pose proof H as Hrun. unfold compute_settlement in H. inv_all.
  rename select (settlement_score _ _ = _) into Hs. rename x2 into s1. rename x0 into s2.
  repeat match goal with Hr : ws_snapshot _ _ _ = Ok _ |- _ => apply ws_snapshot_elem in Hr as (? & ? & ?) end. subst.
  split.
  - exists s1, s2. unfold snapshot_key. split; [done|]. split; [done|]. split; [congruence|]. split; [congruence|].
    cbv zeta. rewrite settlement_spec in Hs. injection Hs as <-.
    pose proof (floored_range (sn_welfare s1)). pose proof (floored_range (sn_welfare s2)).
    set (a := floored (sn_welfare s1)) in *. set (b := floored (sn_welfare s2)) in *.
    pose proof (Z.sqrt_spec (a * b) ltac:(nia)) as Hsq. cbv zeta in Hsq. rewrite <- Z.add_1_r in Hsq.
    pose proof (Z.sqrt_nonneg (a * b)). set (r := Z.sqrt (a * b)) in *. clearbody r. split; [lia|].
    split; [apply Z.nlt_ge; intros Hlt; nia|apply Z.nlt_ge; intros Hlt; nia].
  - intros Hrun'. set (w1 := ws_push _ w) in *.
    assert (welfare_reachable w1) as Hw1.
    { eapply rtc_r; [exact Hw|]. exists (WSettle cohort (sn_spec_version s1)). split; [done|].
      cbn. unfold ignore_result, bind, ret. by rewrite Hrun. }
    assert (welfare_reachable w') as Hw'.
    { by eapply from_reachable. }
    destruct (run_keeps_epoch (cohort + 1) (cohort + 1) _ _ ltac:(lia) Hrun') as (l1 & [_ _ _ _ K1]).
    destruct (run_keeps_epoch (cohort + 1) (cohort + 2) _ _ ltac:(lia) Hrun') as (l2 & [_ _ _ _ K2]).
    apply (settlement_runs _ _ _ s1 s2); [by apply welfare_reachable_inv|lia|by apply K1|by apply K2| | |done].
    + unfold snapshot_key. congruence.
    + unfold snapshot_key. congruence.
Qed.

Lemma unsampled_none epoch w : gate_window_sampled epoch w = false -> gate_breach epoch w = GateBreachFlags_none.
Proof.
  intros H. unfold gate_breach. destruct (find_key fst epoch (ws_gate_flags w)) as [ef|] eqn:E; [|done].
  assert (epoch ∈ keys fst (ws_gate_flags w)) as Hin%sampled_iff; [|congruence].
  apply find_key_Some in E as [<- E]. apply elem_of_keys. eauto.
Qed.

Lemma day_breached_none d : day_breached GateBreachFlags_none d = false.
Proof. unfold day_breached. cbn [gb_day_bitmap GateBreachFlags_none]. destruct (Z.to_nat _); apply Z.testbit_0_l. Qed.

Lemma sampled_after epoch w w' l :
  epoch ∈ keys fst (ws_gate_flags w') <-> epoch ∈ keys fst (ws_gate_flags w) \/ samples epoch l <> [] ->
  gate_window_sampled epoch w = false -> gate_window_sampled epoch w' = match samples epoch l with [] => false | _ => true end.
Proof.
  intros H Hn. apply not_true_iff_false in Hn. rewrite sampled_iff in Hn.
  destruct (samples epoch l); [apply not_true_iff_false|]; rewrite sampled_iff, H; naive_solver.
Qed.

(** The gates are what was sampled. A recorded day breaches a gate
    exactly when the day's survival pillar, or its on-chain composite
    renormalised to weight one and computed up to two units of 1e-9, is below
    the threshold. Whatever else happens, as long as the window is not pruned
    the outcome of a cohort is refused if one of its two epochs was never
    sampled, and else is the disjunction of all its samples; and the bitmap
    of an epoch has exactly the bits of its breached days. *)
Theorem gates_are_samples w w' cohort :
  welfare_reachable w -> cohort + 2 < U32 ->
  gate_window_sampled (cohort + 1) w = false -> gate_window_sampled (cohort + 2) w = false ->
  rtc (welfare_step_from (cohort + 1)) w w' ->
  (exists l, ws_events w' = ws_events w ++ l
    /\ let first := samples (cohort + 1) l in let second := samples (cohort + 2) l in
       gate_window_outcomes cohort w' =
         match first, second with
         | [], _ | _, [] => Err WfGateWindowUnsampled
         | _, _ => Ok (existsb sp_s (first ++ second), existsb sp_c (first ++ second))
         end
       /\ forall day, day_ok day ->
          day_breached (gate_breach (cohort + 1) w') day = existsb (fun x => sp_breach x && (day =? sp_day x)) first)
  /\ forall epoch day version comps params out w1,
     values_typed comps -> 0 <= day -> record_daily_gate epoch day version comps params w' = (Ok out, w1) ->
     exists x specs s c, samples epoch (drop (length (ws_events w')) (ws_events w1)) = [x] /\ sp_day x = day
       /\ ws_spec version w' = Ok specs /\ s_pillar specs comps = Ok s /\ closeR 2 c (daily_c specs comps)
       /\ sp_s x = (s <? wp_theta_s_lo params) /\ sp_c x = (c <? wp_theta_c_lo params).
Proof.
  intros Hw Hlt H1 H2 Hrun. assert (welfare_reachable w') as Hw' by by eapply from_reachable. split.
  - destruct (run_keeps_epoch (cohort + 1) (cohort + 1) _ _ ltac:(lia) Hrun) as (l & [E1 F1 S1 _ _]).
    destruct (run_keeps_epoch (cohort + 1) (cohort + 2) _ _ ltac:(lia) Hrun) as (l2 & [E2 F2 S2 _ _]).
    assert (l2 = l) as -> by (rewrite E1 in E2; by apply app_inv_head in E2). exists l. split; [done|]. cbv zeta.
    rewrite (unsampled_none _ _ H1) in F1. rewrite (unsampled_none _ _ H2) in F2. destruct F1 as [A1 A2 A3], F2 as [B1 B2 _].
    split; [|intros day Hday; by rewrite (A3 day Hday), day_breached_none].
    apply sampled_after in S1; [|done]. apply sampled_after in S2; [|done].
    unfold gate_window_outcomes, checked_add. rewrite !(proj2 (Z.ltb_lt _ _)) by lia. cbn [ok_or rbind].
    rewrite S1, S2, A1, A2, B1, B2, !existsb_app. by destruct (samples (cohort + 1) l), (samples (cohort + 2) l).
  - intros epoch day version comps params out w1 Hc Hday H. apply record_daily_gate_runs in H as (x & <- & Hd); [|done].
    destruct Hd as [_ (specs & s & c & Hs & Hg & Es & Ec) _ _ _ ->]. exists x, specs, s, c.
    assert (spec_set_ok version specs) as Ho.
    { by apply (wi_specs _ (welfare_reachable_inv _ Hw')), ws_spec_elem. }
    destruct (daily_gates_accurate version specs comps Ho Hc) as (s' & c' & Hg' & Hs' & _ & _ & Hacc).
    { intros m Hm Hp. by eapply daily_gates_reported. }
    rewrite Hg in Hg'. injection Hg' as <- <-. split_and!; try done.
    cbn [ws_push set_ws_events set_gate_flags ws_events]. rewrite drop_app_length.
    cbn. rewrite decide_True by done. by destruct x.
Qed.

(** The state checker of the welfare core accepts every reachable
    state. *)
Theorem welfare_checker_accepts w : welfare_reachable w -> welfare_try_state w = Ok tt.
Proof. intros Hw. by apply welfare_checker, welfare_reachable_inv. Qed.

(** ** Witnesses: one registration, two epochs, some days *)

Definition demo_metric (id : MetricId) (pillar : Pillar) (weight : FixedU64) (source : SourceClass) : MetricSpec := {|
  ms_id := id; ms_version := 1; ms_pillar := pillar; ms_weight := weight; ms_epsilon_floor := EPSILON_PILLAR;
  ms_activation_epoch := 1; ms_source := source; ms_formula_ref := []; ms_units := []; ms_repr := []; ms_cadence_blocks := 100;
  ms_sanity_min := 0; ms_sanity_max := WELFARE_ONE; ms_has_normalization_rule := true; ms_has_missing_data_rule := true;
  ms_has_gaming_vectors := true; ms_has_challenge_procedure := true; ms_prior_bounds := replicate HISTORY_PRIORS 0;
|}.

Definition demo_specs : list MetricSpec :=
  [demo_metric 5 PillarA WELFARE_ONE Attested; demo_metric 1 PillarS 0 Onchain; demo_metric 2 PillarCOnchain 600000000 RelayDerived;
   demo_metric 3 PillarCAttested 400000000 Attested; demo_metric 4 PillarP WELFARE_ONE Onchain].

Definition demo_components (s c : FixedU64) : list ComponentValue :=
  map (fun iv => {| cv_id := iv.1; cv_value := iv.2 |}) [(4, 800000000); (1, s); (2, c); (3, 930000000); (5, 700000000)].

Fixpoint welfare_run (cs : list WelfareCall) (w : WelfareState) : option WelfareState :=
  match cs with
  | [] => Some w
  | c :: cs => match welfare_exec c w with (Ok _, w) => welfare_run cs w | (Err _, _) => None end
  end.

Lemma welfare_run_steps epoch cs w w' :
  Forall (fun c => welfare_typed c /\ keeps_epoch c epoch) cs -> welfare_run cs w = Some w' -> rtc (welfare_step_from epoch) w w'.
Proof.
  intros Hcs. revert w. induction Hcs as [|c cs [Ht Hk] _ IH]; intros w; cbn; [intros [= ->]; apply rtc_refl|].
  destruct (welfare_exec c w) as [[[]|e] w1] eqn:E; [|done]. intros Hr. eapply rtc_l; [|by apply IH]. by exists c.
Qed.

Definition demo_register : list WelfareCall := [WRegister RegGenesis 1 demo_specs].
Definition demo_days : list WelfareCall :=
  [WDaily 1 0 1 (demo_components 950000000 960000000) WelfareParams_DEFAULT;
   WDaily 1 40 1 (demo_components 880000000 960000000) WelfareParams_DEFAULT;
   WSnapshot 1 1 (demo_components 970000000 960000000) 990000000 WelfareParams_DEFAULT;
   WDaily 2 3 1 (demo_components 950000000 840000000) WelfareParams_DEFAULT;
   WSnapshot 2 1 (demo_components 960000000 940000000) WELFARE_ONE WelfareParams_DEFAULT].

Definition demo_registered : WelfareState := Eval vm_compute in default WelfareState_new (welfare_run demo_register WelfareState_new).
Definition demo_measured : WelfareState := Eval vm_compute in default WelfareState_new (welfare_run demo_days demo_registered).
Definition demo_scored : WelfareState := Eval vm_compute in (welfare_exec (WSettle 0 1) demo_measured).2.
Definition demo_pruned : WelfareState := Eval vm_compute in (welfare_exec (WPrune 1) demo_scored).2.

Lemma demo_registered_reachable : welfare_reachable demo_registered.
Proof.
  apply (from_reachable 0 WelfareState_new); [apply rtc_refl|]. apply (welfare_run_steps 0 demo_register); [|by vm_compute].
  apply Forall_singleton. split; [|done]. by compute_done.
Qed.

Lemma demo_days_run : rtc (welfare_step_from 1) demo_registered demo_measured.
Proof.
  apply (welfare_run_steps 1 demo_days); [|by vm_compute].
  repeat (apply Forall_cons; split; [split; [|done]; try (split; [by compute_done|done])|]). by apply Forall_nil.
Qed.

Lemma demo_measured_reachable : welfare_reachable demo_measured.
Proof. eapply from_reachable; [apply demo_registered_reachable|apply demo_days_run]. Qed.

Definition demo_snapshot : Snapshot :=
  Eval vm_compute in default (Build_Snapshot 0 0 0 0 0 0 0 0 0 0 []) (head (ws_snapshots demo_measured)).

Lemma measurement_is_the_formula_witness :
  exists specs pi s, ws_spec 1 demo_registered = Ok specs
    /\ sn_welfare s = sn_welfare demo_snapshot
    /\ closeR 16 (sn_welfare s)
         (welfareR (gridR (pi_s pi)) (gridR (pi_c_settlement pi)) (gridR (pi_p pi)) (gridR (pi_a pi)) WelfareParams_DEFAULT).
Proof.
  destruct (measurement_is_the_formula demo_registered 1 1 (demo_components 970000000 960000000) 990000000 WelfareParams_DEFAULT
    demo_registered_reachable) as [_ H]; [by compute_done|lia|].
  edestruct H as (specs & pi & s & Hs & _ & _ & E & _ & _ & Hc); [vm_compute; reflexivity|].
  exists specs, pi, s. split; [exact Hs|]. rewrite <- E. split; [by vm_compute|exact Hc].
Defined.

Lemma settlement_is_final_witness :
  (compute_settlement 0 1 demo_pruned).1 = (compute_settlement 0 1 demo_measured).1
  /\ is_ok (compute_settlement 0 1 demo_pruned).1 = true.
Proof.
  destruct (settlement_is_final demo_measured 0 1 650597314 demo_scored demo_pruned) as [_ H];
    [apply demo_measured_reachable|by vm_compute|].
  split; [|by vm_compute]. rewrite H; [by vm_compute|].
  apply (welfare_run_steps 1 [WPrune 1]); [|by vm_compute]. by apply Forall_singleton.
Defined.

Lemma gates_are_samples_witness :
  gate_window_outcomes 0 demo_measured = Ok (true, true)
  /\ day_breached (gate_breach 1 demo_measured) 40 = true /\ day_breached (gate_breach 1 demo_measured) 0 = false.
Proof.
  destruct (gates_are_samples demo_registered demo_measured 0 demo_registered_reachable) as [(l & E & Hg & Hd) _];
    [lia|by vm_compute|by vm_compute|apply demo_days_run|].
  assert (l = drop 1 (ws_events demo_measured)) as -> by (rewrite E; done).
  split; [rewrite Hg; by vm_compute|]. split; (rewrite Hd; [by vm_compute|by vm_compute]).
Defined.

Lemma welfare_checker_accepts_witness : welfare_try_state demo_measured = Ok tt.
Proof. exact (welfare_checker_accepts _ demo_measured_reachable). Defined.

(** Between the thresholds the floors of the smoothstep show: one step more
    survival can be worth one unit less. *)
Lemma gate_dips : exists x y,
  gate x THETA_S_LO THETA_S_HI = Ok y /\ gate (x + 1) THETA_S_LO THETA_S_HI = Ok (y - 1).
Proof. exists 901999317, 1842501. by vm_compute. Qed.
