(* ===== verification/Oracle.v ===== *)
(** * The oracle (crates/oracle-core)

    Bonded reporters report the components of an epoch; a report stands when
    its window closes with a quorum of watchtowers and no challenge, a
    challenged one climbs a ladder of doubling bonds up to adjudication, and
    what is open at the money deadline settles neutrally. Also the liveness
    discipline of the watchtowers and the reserve probe.

    The code addresses a game by the struct [RoundKey] and by the triple of
    its fields; both are the triple here. *)

From S2P Require Import Prelude Keyed Primitives Proposals Origins.

Abbreviation MetricId := Z (only parsing).

Definition MAX_REPORTERS : nat := 64.
Definition MAX_WATCHTOWERS : nat := 16.
Definition MAX_ROUNDS : nat := 128.
Definition MAX_COMPONENT_VALUES : nat := 128.
Definition MAX_ACK_RECORDS : nat := MAX_WATCHTOWERS * MAX_ROUNDS.
Definition ORC_WINDOW_BLOCKS : BlockNumber := 43200.
Definition ORC_EXT_WINDOW_BLOCKS : BlockNumber := 28800.
Definition RES_PROBE_INTERVAL : BlockNumber := 14400.
Definition RES_PROBE_TIMEOUT : BlockNumber := 600.
Definition MAX_RESERVE_PROBE_QUERY_ID : Z := 2 ^ 63 - 1.
Definition ORC_ROUNDS : Z := 3.
Definition ORC_ROUND_CAP_MIN : Z := 2.
Definition ORC_ROUND_CAP_MAX : Z := 4.
Definition ORC_BOND_FLOOR : Balance := 10000000000.
Definition ORC_BOND_BPS : Z := 250.
Definition ORC_REPORTER_STAKE : Balance := 100000000000.
Definition WT_STAKE : Balance := 25000000000.
Definition ORC_WT_QUORUM : Z := 2.
Definition RES_FAIL_THRESHOLD : Z := 2.
Definition RES_RECOVER_THRESHOLD : Z := 3.
Definition RES_PROBE_AMOUNT : Balance := 100000.
Definition ORC_MAX_PROOF_BYTES : nat := Z.to_nat 262144.
Definition COMPONENT_VALUE_MAX : Z := 1000000000.

Record OracleParams : Type := {
  op_window : BlockNumber;
  op_rounds : Z;
  op_bond_floor : Balance;
  op_bond_bps : Z;
  op_reporter_stake : Balance;
  op_watchtower_stake : Balance;
  op_watchtower_quorum : Z;
  op_probe_interval : BlockNumber;
  op_probe_timeout : BlockNumber;
  op_fail_threshold : Z;
  op_recover_threshold : Z;
  op_probe_amount : Balance;
}.

Definition oracle_params_default : OracleParams :=
  {| op_window := ORC_WINDOW_BLOCKS; op_rounds := ORC_ROUNDS; op_bond_floor := ORC_BOND_FLOOR;
     op_bond_bps := ORC_BOND_BPS; op_reporter_stake := ORC_REPORTER_STAKE; op_watchtower_stake := WT_STAKE;
     op_watchtower_quorum := ORC_WT_QUORUM; op_probe_interval := RES_PROBE_INTERVAL;
     op_probe_timeout := RES_PROBE_TIMEOUT; op_fail_threshold := RES_FAIL_THRESHOLD;
     op_recover_threshold := RES_RECOVER_THRESHOLD; op_probe_amount := RES_PROBE_AMOUNT |}.

Definition reserve_probe_config_valid (p : OracleParams) : bool :=
  (0 <? op_probe_interval p) && (0 <? op_probe_timeout p) && (0 <? op_probe_amount p)
  && (0 <? op_fail_threshold p) && (0 <? op_recover_threshold p).

Record ReporterInfo : Type := {
  rp_stake : Balance;
  rp_registered_at : BlockNumber;
  rp_offenses : Z;
}.

Record WatchtowerInfo : Type := {
  wt_stake : Balance;
  wt_registered_at : BlockNumber;
  wt_inactive_epochs : Z;
}.

Inductive SettlePath : Type :=
| Unchallenged
| Recomputed
| PathAdjudicated
| ChallengerDefault
| PathNeutral.

#[export] Instance SettlePath_eq_dec : EqDecision SettlePath.
Proof. solve_decision. Defined.

Record SettledComponent : Type := {
  sc_value : FixedU64;
  sc_path : SettlePath;
  sc_flagged : bool;
}.

(** Component, epoch, frozen spec version. *)
Definition RoundKey : Type := MetricId * EpochId * MetricSpecVersion.

#[export] Instance RoundKey_eq_dec : EqDecision RoundKey.
Proof. unfold RoundKey. apply _. Defined.

Definition rk_component (k : RoundKey) : MetricId := k.1.1.
Definition rk_epoch (k : RoundKey) : EpochId := k.1.2.
Definition rk_spec_version (k : RoundKey) : MetricSpecVersion := k.2.

Record RoundState : Type := {
  rd_component : MetricId;
  rd_epoch : EpochId;
  rd_round : Z;
  rd_spec_version : MetricSpecVersion;
  rd_reporter : AccountId;
  rd_value : FixedU64;
  rd_evidence_hash : H256;
  rd_bond : Balance;
  rd_challenge_deadline : BlockNumber;
  rd_extended : bool;
  rd_challenger : option AccountId;
  rd_counter_value : option FixedU64;
  rd_acks : Z;
  rd_report_hash : H256;
  rd_stake_at_risk : Balance;
  rd_cumulative_reporter_bond : Balance;
  rd_cumulative_challenger_bond : Balance;
}.

Definition round_key (r : RoundState) : RoundKey := (rd_component r, rd_epoch r, rd_spec_version r).

Record StoredRoundSchedule : Type := {
  rs_round_one_bond : Balance;
  rs_round_cap : Z;
}.

Record BondSettlement : Type := {
  bs_reporter : AccountId;
  bs_challenger : option AccountId;
  bs_reporter_bond : Balance;
  bs_challenger_bond : Balance;
  bs_reporter_wins : bool;
}.

Record ReserveHealth : Type := {
  rh_consecutive_fails : Z;
  rh_consecutive_passes : Z;
  rh_unhealthy : bool;
  rh_last_query_id : Z;
  rh_last_probe_at : BlockNumber;
  rh_pending_since : option BlockNumber;
}.

Inductive OracleEvent : Type :=
| OcReporterRegistered (who : AccountId) (stake : Balance)
| OcReported (component : MetricId) (epoch : EpochId) (round : Z) (reporter : AccountId) (value : FixedU64)
    (evidence_hash : H256) (bond : Balance)
| OcChallenged (component : MetricId) (epoch : EpochId) (round : Z) (challenger : AccountId)
    (counter_value : FixedU64) (evidence_hash : H256) (bond : Balance)
| OcRoundEscalated (component : MetricId) (epoch : EpochId) (round : Z) (new_bond : Balance)
| OcRecomputeProven (component : MetricId) (epoch : EpochId) (value : FixedU64) (prover : AccountId)
| OcAdjudicationRequested (component : MetricId) (epoch : EpochId) (referendum : Z)
| OcAdjudicated (component : MetricId) (epoch : EpochId) (value : FixedU64)
| OcComponentSettled (component : MetricId) (epoch : EpochId) (value : FixedU64) (path : SettlePath)
| OcNeutralSettlement (component : MetricId) (epoch : EpochId) (carried_value : FixedU64) (flagged_epochs : Z)
| OcWindowAcknowledged (component : MetricId) (epoch : EpochId) (round : Z) (watchtower : AccountId)
| OcWindowExtended (component : MetricId) (epoch : EpochId) (round : Z) (new_deadline : BlockNumber)
| OcQuorumFailed (component : MetricId) (epoch : EpochId) (round : Z)
| OcReporterSlashed (who : AccountId) (amount : Balance) (offense : Z)
| OcReporterEjected (who : AccountId)
| OcWatchtowerRegistered (who : AccountId) (stake : Balance)
| OcWatchtowerInactive (who : AccountId) (epoch : EpochId)
| OcWatchtowerSlashed (who : AccountId) (amount : Balance)
| OcReserveProbeSent (query_id : Z)
| OcReserveProbeResult (query_id : Z) (passed : bool)
| OcReserveUnhealthy
| OcReserveRecovered.

Inductive OracleError : Type :=
| OeBadOrigin
| OeAlreadyRegistered
| OeNotRegistered
| OeTooManyReporters
| OeTooManyWatchtowers
| OeWindowClosed
| OeWindowOpen
| OeBondBelowMinimum
| OeSpecVersionMismatch
| OeAlreadyFinal
| OeAlreadyChallenged
| OeQuorumPending
| OeRoundNotFound
| OeRoundLimit
| OeDuplicateAck
| OeReserveUnhealthy
| OeProbeTooEarly
| OeUnknownQuery
| OeOverflow
| OeNotRecomputable
| OeProofTooLarge
| OeEvidenceMismatch
| OeBadProof
| OeValueOutOfBounds.

Record ReportInput : Type := {
  in_who : AccountId;
  in_now : BlockNumber;
  in_component : MetricId;
  in_epoch : EpochId;
  in_spec_version : MetricSpecVersion;
  in_value : FixedU64;
  in_evidence_hash : H256;
  in_stake_at_risk : Balance;
  in_report_window_end : BlockNumber;
  in_expected_spec : MetricSpecVersion;
}.

Definition in_key (i : ReportInput) : RoundKey := (in_component i, in_epoch i, in_spec_version i).

Record AckRecord : Type := {
  ac_key : RoundKey;
  ac_round : Z;
  ac_who : AccountId;
  ac_hash : H256;
}.

#[export] Instance AckRecord_eq_dec : EqDecision AckRecord.
Proof. solve_decision. Defined.

Record Oracle : Type := {
  oc_reporters : list (AccountId * ReporterInfo);
  oc_watchtowers : list (AccountId * WatchtowerInfo);
  oc_rounds : list RoundState;
  oc_round_schedules : list (RoundKey * StoredRoundSchedule);
  oc_component_values : list (RoundKey * SettledComponent);
  oc_reserve_health : ReserveHealth;
  oc_events : list OracleEvent;
  oc_ack_records : list AckRecord;
  oc_recomputable_components : list (MetricId * MetricSpecVersion);
  oc_watchtower_active : list AccountId;
  oc_bond_settlements : list BondSettlement;
  oc_money_settled : list RoundKey;
}.

Definition reserve_health_default : ReserveHealth :=
  {| rh_consecutive_fails := 0; rh_consecutive_passes := 0; rh_unhealthy := false; rh_last_query_id := 0;
     rh_last_probe_at := 0; rh_pending_since := None |}.

Definition oracle_default : Oracle :=
  {| oc_reporters := []; oc_watchtowers := []; oc_rounds := []; oc_round_schedules := []; oc_component_values := [];
     oc_reserve_health := reserve_health_default; oc_events := []; oc_ack_records := [];
     oc_recomputable_components := []; oc_watchtower_active := []; oc_bond_settlements := []; oc_money_settled := [] |}.

Definition set_reporters x o := {| o with oc_reporters := x |}.
Definition set_watchtowers x o := {| o with oc_watchtowers := x |}.
Definition set_rounds x o := {| o with oc_rounds := x |}.
Definition set_round_schedules x o := {| o with oc_round_schedules := x |}.
Definition set_component_values x o := {| o with oc_component_values := x |}.
Definition set_reserve_health x o := {| o with oc_reserve_health := x |}.
Definition set_oc_events x o := {| o with oc_events := x |}.
Definition set_oc_ack_records x o := {| o with oc_ack_records := x |}.
Definition set_watchtower_active x o := {| o with oc_watchtower_active := x |}.
Definition set_bond_settlements x o := {| o with oc_bond_settlements := x |}.
Definition set_money_settled x o := {| o with oc_money_settled := x |}.

Abbreviation OM A := (ST Oracle OracleError A).

Definition oc_push (e : OracleEvent) (o : Oracle) : Oracle := set_oc_events (oc_events o ++ [e]) o.

(** ** Queries *)

Definition is_reporter (who : AccountId) (o : Oracle) : bool := existsb (fun a => a.1 =? who) (oc_reporters o).
Definition is_watchtower (who : AccountId) (o : Oracle) : bool := existsb (fun a => a.1 =? who) (oc_watchtowers o).

(** Rust's [iter().position(..)]. *)
Fixpoint position {A} (f : A -> bool) (l : list A) : option nat :=
  match l with
  | [] => None
  | x :: l => if f x then Some 0%nat else S <$> position f l
  end.

Definition find_round (key : RoundKey) (o : Oracle) : option nat :=
  position (fun r => bool_decide (round_key r = key)) (oc_rounds o).

Definition round_schedule_index (key : RoundKey) (o : Oracle) : option nat :=
  position (fun s => bool_decide (s.1 = key)) (oc_round_schedules o).

Definition round_schedule (key : RoundKey) (o : Oracle) : Result OracleError StoredRoundSchedule :=
  ok_or OeRoundNotFound (snd <$> find_key fst key (oc_round_schedules o)).

Definition has_value (key : RoundKey) (o : Oracle) : bool :=
  existsb (fun v => bool_decide (v.1 = key)) (oc_component_values o).

(** [self.rounds[idx]]: the indices come from [find_round] or the loop bound,
    so the error stands for a panic that does not happen. *)
Definition round_at (idx : nat) (o : Oracle) : Result OracleError RoundState :=
  ok_or OeRoundNotFound (oc_rounds o !! idx).

Definition update_round (idx : nat) (f : RoundState -> RoundState) (o : Oracle) : Oracle :=
  set_rounds (alter f idx (oc_rounds o)) o.

Definition drop_acks (key : RoundKey) (o : Oracle) : Oracle :=
  set_oc_ack_records (filter (fun a => ac_key a <> key) (oc_ack_records o)) o.

(** ** Arithmetic of the bonds *)

Definition ceil_div (value divisor : Balance) : Balance :=
  if divisor =? 0 then value
  else if value mod divisor =? 0 then value / divisor
  else sat_add U128 (value / divisor) 1.

(** [1u128.checked_shl(n)]. *)
Definition checked_shl_one (w n : Z) : option Z := if n <? w then Some (Z.shiftl 1 n) else None.

(** [u128::div_ceil]. *)
Definition div_ceil (a b : Z) : Z := if a mod b =? 0 then a / b else a / b + 1.

Definition within (lo hi x : Z) : bool := (lo <=? x) && (x <=? hi).

Definition round_bond (stake_at_risk : Balance) (round : Z) (params : OracleParams) : Result OracleError Balance :=
  do? ensure (within ORC_ROUND_CAP_MIN ORC_ROUND_CAP_MAX (op_rounds params)) OeRoundNotFound in
  do? ensure (within 1 (op_rounds params) round) OeRoundNotFound in
  let? product := ok_or OeOverflow (checked_mul U128 stake_at_risk (op_bond_bps params)) in
  let scaled := div_ceil product 10000 in
  let b1 := Z.max (op_bond_floor params) scaled in
  let? multiplier := ok_or OeOverflow (checked_shl_one 128 (sat_sub round 1)) in
  ok_or OeOverflow (checked_mul U128 b1 multiplier).

Definition stored_round_bond (round_one_bond : Balance) (round round_cap : Z) : Result OracleError Balance :=
  do? ensure (within ORC_ROUND_CAP_MIN ORC_ROUND_CAP_MAX round_cap) OeRoundNotFound in
  do? ensure (within 1 round_cap round) OeRoundNotFound in
  let? multiplier := ok_or OeOverflow (checked_shl_one 128 (sat_sub round 1)) in
  ok_or OeOverflow (checked_mul U128 round_one_bond multiplier).

Definition can_admit_attested_component (delta_s_max_bps : Z) (params : OracleParams) : bool :=
  if negb (within ORC_ROUND_CAP_MIN ORC_ROUND_CAP_MAX (op_rounds params)) then false
  else
    match checked_shl_one 32 (op_rounds params) with
    | None => false
    | Some round_multiplier => delta_s_max_bps <=? sat_mul U32 (sat_sub round_multiplier 1) (op_bond_bps params)
    end.

(** ** Hashes

    A hash is a number of 32 bytes, the byte [i] at the bits from [8 i]. *)

Definition le_byte (x : Z) (i : nat) : Z := Z.land (Z.shiftr x (8 * Z.of_nat i)) 255.

Definition xor_byte (i : nat) (b : Z) (h : H256) : H256 := Z.lxor h (Z.shiftl b (8 * Z.of_nat i)).

Definition rotate_left8 (b k : Z) : Z := Z.lor (Z.land (Z.shiftl b k) 255) (Z.shiftr b (8 - k)).

Fixpoint xor_payload (i : nat) (payload : list Z) (out : H256) : H256 :=
  match payload with
  | [] => out
  | b :: payload =>
      xor_payload (S i) payload (xor_byte (i mod 24) (rotate_left8 b (Z.of_nat (i / 24) mod 8)) out)
  end.

Definition hash_evidence (payload : list Z) : H256 :=
  let len := Z.of_nat (length payload) in
  let out := fold_left (fun out i => xor_byte (24 + i) (le_byte len i) out) (seq 0 8) 0 in
  xor_payload 0 payload out.

Definition from_le_bytes (bytes : list Z) : Z := fold_right (fun b acc => b + 256 * acc) 0 bytes.

Definition recompute_value (proof : list Z) : Result OracleError FixedU64 :=
  let? bytes := ok_or OeBadProof (if (8 <=? length proof)%nat then Some (take 8 proof) else None) in
  let raw := from_le_bytes bytes in
  do? ensure (raw <=? COMPONENT_VALUE_MAX) OeBadProof in
  Ok raw.

Definition hash_report (component : MetricId) (epoch : EpochId) (round : Z) (value : FixedU64) (evidence_hash : H256) : H256 :=
  let out := xor_byte 0 (le_byte component 0) evidence_hash in
  let out := xor_byte 1 (le_byte component 1) out in
  let out := xor_byte 2 (le_byte epoch 0) out in
  let out := xor_byte 3 (le_byte epoch 1) out in
  let out := xor_byte 4 (le_byte epoch 2) out in
  let out := xor_byte 5 (le_byte epoch 3) out in
  let out := xor_byte 6 round out in
  fold_left (fun out i => xor_byte (8 + i) (le_byte value i) out) (seq 0 8) out.

(** ** Registration *)

Definition register_reporter (who : AccountId) (now : BlockNumber) (params : OracleParams) : OM unit :=
  let! o := get in
  do! lift (ensure (negb (is_reporter who o)) OeAlreadyRegistered) in
  do! lift (ensure (length (oc_reporters o) <? MAX_REPORTERS)%nat OeTooManyReporters) in
  do! modify (set_reporters (oc_reporters o ++
    [(who, {| rp_stake := op_reporter_stake params; rp_registered_at := now; rp_offenses := 0 |})])) in
  modify (oc_push (OcReporterRegistered who (op_reporter_stake params))).

Definition deregister_reporter (who : AccountId) : OM unit :=
  let! o := get in
  do! lift (ensure (negb (existsb (fun r => rd_reporter r =? who) (oc_rounds o))) OeWindowOpen) in
  let! pos := lift (ok_or OeNotRegistered (position (fun a => a.1 =? who) (oc_reporters o))) in
  modify (set_reporters (delete pos (oc_reporters o))).

Definition mark_watchtower_active (who : AccountId) (o : Oracle) : Oracle :=
  if negb (bool_decide (who ∈ oc_watchtower_active o)) then set_watchtower_active (oc_watchtower_active o ++ [who]) o
  else o.

Definition register_watchtower (who : AccountId) (now : BlockNumber) (params : OracleParams) : OM unit :=
  let! o := get in
  do! lift (ensure (negb (is_watchtower who o)) OeAlreadyRegistered) in
  do! lift (ensure (length (oc_watchtowers o) <? MAX_WATCHTOWERS)%nat OeTooManyWatchtowers) in
  do! modify (set_watchtowers (oc_watchtowers o ++
    [(who, {| wt_stake := op_watchtower_stake params; wt_registered_at := now; wt_inactive_epochs := 0 |})])) in
  do! modify (oc_push (OcWatchtowerRegistered who (op_watchtower_stake params))) in
  modify (mark_watchtower_active who).

(** ** The reporting game *)

Definition report (i : ReportInput) (params : OracleParams) : OM unit :=
  let! o := get in
  do! lift (ensure (is_reporter (in_who i) o) OeNotRegistered) in
  do! lift (ensure (in_now i <=? in_report_window_end i) OeWindowClosed) in
  do! lift (ensure (in_spec_version i =? in_expected_spec i) OeSpecVersionMismatch) in
  do! lift (ensure (in_value i <=? COMPONENT_VALUE_MAX) OeValueOutOfBounds) in
  do! lift (ensure (is_none (find_round (in_key i) o)) OeAlreadyFinal) in
  do! lift (ensure (negb (has_value (in_key i) o)) OeAlreadyFinal) in
  do! lift (ensure (length (oc_rounds o) <? MAX_ROUNDS)%nat OeRoundLimit) in
  let! bond := lift (round_bond (in_stake_at_risk i) 1 params) in
  do! lift (rmap (fun _ => tt) (stored_round_bond bond (op_rounds params) (op_rounds params))) in
  let report_hash := hash_report (in_component i) (in_epoch i) 1 (in_value i) (in_evidence_hash i) in
  do! modify (set_rounds (oc_rounds o ++
    [{| rd_component := in_component i; rd_epoch := in_epoch i; rd_round := 1; rd_spec_version := in_spec_version i;
        rd_reporter := in_who i; rd_value := in_value i; rd_evidence_hash := in_evidence_hash i; rd_bond := bond;
        rd_challenge_deadline := sat_add U32 (in_now i) (op_window params); rd_extended := false;
        rd_challenger := None; rd_counter_value := None; rd_acks := 0; rd_report_hash := report_hash;
        rd_stake_at_risk := in_stake_at_risk i; rd_cumulative_reporter_bond := bond;
        rd_cumulative_challenger_bond := 0 |}])) in
  do! modify (fun o => set_round_schedules (oc_round_schedules o ++
    [(in_key i, {| rs_round_one_bond := bond; rs_round_cap := op_rounds params |})]) o) in
  modify (oc_push (OcReported (in_component i) (in_epoch i) 1 (in_who i) (in_value i) (in_evidence_hash i) bond)).

Definition take_challenge (who : AccountId) (counter_value : FixedU64) (r : RoundState) : RoundState :=
  {| r with rd_challenger := Some who; rd_counter_value := Some counter_value |}.

Definition set_challenger_bond (total : Balance) (r : RoundState) : RoundState :=
  {| r with rd_cumulative_challenger_bond := total |}.

Definition oracle_challenge (who : AccountId) (now : BlockNumber) (key : RoundKey) (counter_value : FixedU64)
    (evidence_hash : H256) : OM unit :=
  let! o := get in
  let! idx := lift (ok_or OeRoundNotFound (find_round key o)) in
  do! lift (ensure (counter_value <=? COMPONENT_VALUE_MAX) OeValueOutOfBounds) in
  let! r := lift (round_at idx o) in
  do! lift (ensure (now <? rd_challenge_deadline r) OeWindowClosed) in
  do! lift (ensure (is_none (rd_counter_value r)) OeAlreadyChallenged) in
  do! lift (match rd_challenger r with
            | Some existing => ensure (existing =? who) OeNotRegistered
            | None => Ok tt
            end) in
  do! modify (update_round idx (take_challenge who counter_value)) in
  let! total := lift (ok_or OeOverflow (checked_add U128 (rd_cumulative_challenger_bond r) (rd_bond r))) in
  do! modify (update_round idx (set_challenger_bond total)) in
  modify (oc_push (OcChallenged (rk_component key) (rk_epoch key) (rd_round r) who counter_value evidence_hash (rd_bond r))).

Definition next_report (next_round : Z) (value : FixedU64) (evidence_hash : H256) (next_bond : Balance)
    (deadline : BlockNumber) (report_hash : H256) (r : RoundState) : RoundState :=
  {| r with rd_round := next_round; rd_value := value; rd_evidence_hash := evidence_hash; rd_bond := next_bond;
            rd_challenge_deadline := deadline; rd_counter_value := None; rd_acks := 0; rd_report_hash := report_hash |}.

Definition set_reporter_bond (total : Balance) (r : RoundState) : RoundState :=
  {| r with rd_cumulative_reporter_bond := total |}.

Definition counter_report (who : AccountId) (now : BlockNumber) (key : RoundKey) (value : FixedU64)
    (evidence_hash : H256) (params : OracleParams) : OM unit :=
  let! o := get in
  let! idx := lift (ok_or OeRoundNotFound (find_round key o)) in
  let! schedule := lift (round_schedule key o) in
  let! r := lift (round_at idx o) in
  do! lift (ensure (rd_reporter r =? who) OeNotRegistered) in
  do! lift (ensure (negb (is_none (rd_counter_value r))) OeQuorumPending) in
  do! lift (ensure (now <? rd_challenge_deadline r) OeWindowClosed) in
  do! lift (ensure (rd_round r <? rs_round_cap schedule) OeWindowOpen) in
  do! lift (ensure (value <=? COMPONENT_VALUE_MAX) OeValueOutOfBounds) in
  let! next_round := lift (ok_or OeOverflow (checked_add U8 (rd_round r) 1)) in
  let! next_bond := lift (stored_round_bond (rs_round_one_bond schedule) next_round (rs_round_cap schedule)) in
  let report_hash := hash_report (rk_component key) (rk_epoch key) next_round value evidence_hash in
  do! modify (update_round idx
    (next_report next_round value evidence_hash next_bond (sat_add U32 now (op_window params)) report_hash)) in
  let! total := lift (ok_or OeOverflow (checked_add U128 (rd_cumulative_reporter_bond r) next_bond)) in
  do! modify (update_round idx (set_reporter_bond total)) in
  do! modify (drop_acks key) in
  modify (oc_push (OcRoundEscalated (rk_component key) (rk_epoch key) next_round next_bond)).

Definition ack_round (r : RoundState) : RoundState := {| r with rd_acks := sat_add U8 (rd_acks r) 1 |}.

Definition oracle_ack_observed (who : AccountId) (now : BlockNumber) (key : RoundKey) (round : Z) (report_hash : H256)
    : OM unit :=
  let! o := get in
  do! lift (ensure (is_watchtower who o) OeNotRegistered) in
  let! idx := lift (ok_or OeRoundNotFound (find_round key o)) in
  let! r := lift (round_at idx o) in
  do! lift (ensure ((rd_round r =? round) && (rd_report_hash r =? report_hash)) OeRoundNotFound) in
  do! lift (ensure (now <? rd_challenge_deadline r) OeWindowClosed) in
  let ack := {| ac_key := key; ac_round := round; ac_who := who; ac_hash := report_hash |} in
  do! lift (ensure (negb (bool_decide (ack ∈ oc_ack_records o))) OeDuplicateAck) in
  do! modify (set_oc_ack_records (oc_ack_records o ++ [ack])) in
  do! modify (update_round idx ack_round) in
  do! modify (oc_push (OcWindowAcknowledged (rk_component key) (rk_epoch key) round who)) in
  modify (mark_watchtower_active who).

(** ** Liveness of the watchtowers *)

(** What the sweep makes of one watchtower: its new row, the events, and
    whether it is ejected. *)
Definition sweep_one (ended_epoch : EpochId) (had_open_round : bool) (active : list AccountId)
    (w : AccountId * WatchtowerInfo) : (AccountId * WatchtowerInfo) * list OracleEvent * bool :=
  let who := w.1 in
  let info := w.2 in
  if bool_decide (who ∈ active) then ((who, {| info with wt_inactive_epochs := 0 |}), [], false)
  else if negb had_open_round then ((who, {| info with wt_inactive_epochs := 0 |}), [], false)
  else
    let inactive := sat_add U8 (wt_inactive_epochs info) 1 in
    let info := {| info with wt_inactive_epochs := inactive |} in
    if 2 <=? inactive then
      let amount := ceil_div (wt_stake info) 10 in
      ((who, {| info with wt_stake := sat_sub (wt_stake info) amount |}),
       [OcWatchtowerInactive who ended_epoch; OcWatchtowerSlashed who amount], true)
    else ((who, info), [OcWatchtowerInactive who ended_epoch], false).

Definition sweep_watchtower_liveness (ended_epoch : EpochId) (had_open_round : bool) : OM unit :=
  let! o := get in
  let swept := sweep_one ended_epoch had_open_round (oc_watchtower_active o) <$> oc_watchtowers o in
  let ejected := (fun s => s.1.1.1) <$> filter (fun s => s.2 = true) swept in
  do! modify (set_watchtowers ((fun s => s.1.1) <$> swept)) in
  do! modify (fun o => set_oc_events (oc_events o ++ concat ((fun s => s.1.2) <$> swept)) o) in
  do! for_each_st (fun who => modify (fun o => set_watchtowers (filter (fun a => a.1 <> who) (oc_watchtowers o)) o)) ejected in
  modify (set_watchtower_active []).

(** ** Closing a round *)

Definition settle_at (idx : nat) (value : FixedU64) (path : SettlePath) (flagged reporter_wins : bool) : OM unit :=
  let! o := get in
  let! r := lift (round_at idx o) in
  let key := round_key r in
  let! schedule_idx := lift (ok_or OeRoundNotFound (round_schedule_index key o)) in
  do! modify (set_rounds (delete idx (oc_rounds o))) in
  do! modify (fun o => set_round_schedules (delete schedule_idx (oc_round_schedules o)) o) in
  do! modify (fun o => set_bond_settlements (oc_bond_settlements o ++
    [{| bs_reporter := rd_reporter r; bs_challenger := rd_challenger r;
        bs_reporter_bond := rd_cumulative_reporter_bond r; bs_challenger_bond := rd_cumulative_challenger_bond r;
        bs_reporter_wins := reporter_wins |}]) o) in
  do! modify (drop_acks key) in
  let! o := get in
  do! (if negb (has_value key o) then
         do! lift (ensure (length (oc_component_values o) <? MAX_COMPONENT_VALUES)%nat OeAlreadyFinal) in
         do! modify (set_component_values (oc_component_values o ++
           [(key, {| sc_value := value; sc_path := path; sc_flagged := flagged |})])) in
         modify (oc_push (OcComponentSettled (rd_component r) (rd_epoch r) value path))
       else ret tt) in
  modify (fun o => set_money_settled (filter (fun stored => stored <> key) (oc_money_settled o)) o).

(** [max_by_key] keeps the last of equal maxima. *)
Definition later (best : option (RoundKey * SettledComponent)) (v : RoundKey * SettledComponent)
    : option (RoundKey * SettledComponent) :=
  match best with
  | None => Some v
  | Some b =>
      if (rk_epoch v.1 <? rk_epoch b.1)
         || ((rk_epoch v.1 =? rk_epoch b.1) && (rk_spec_version v.1 <? rk_spec_version b.1))
      then Some b else Some v
  end.

Definition earlier_of (component : MetricId) (epoch : EpochId) (v : RoundKey * SettledComponent) : Prop :=
  rk_component v.1 = component /\ rk_epoch v.1 < epoch.

#[export] Instance earlier_of_dec component epoch v : Decision (earlier_of component epoch v).
Proof. unfold earlier_of. apply _. Defined.

Definition last_valid_value (component : MetricId) (epoch : EpochId) (o : Oracle) : FixedU64 :=
  match fold_left later (filter (earlier_of component epoch) (oc_component_values o)) None with
  | Some v => sc_value v.2
  | None => COMPONENT_VALUE_MAX / 2
  end.

Definition neutral_at (idx : nat) (carried_value : FixedU64) (flagged_epochs : Z) : OM unit :=
  let! o := get in
  let! r := lift (round_at idx o) in
  let key := round_key r in
  if bool_decide (key ∈ oc_money_settled o) then ret tt
  else
    do! lift (ensure (length (oc_component_values o) <? MAX_COMPONENT_VALUES)%nat OeAlreadyFinal) in
    do! modify (oc_push (OcNeutralSettlement (rd_component r) (rd_epoch r) carried_value flagged_epochs)) in
    do! modify (fun o => set_component_values (oc_component_values o ++
      [(key, {| sc_value := carried_value; sc_path := PathNeutral; sc_flagged := true |})]) o) in
    do! modify (oc_push (OcComponentSettled (rd_component r) (rd_epoch r) carried_value PathNeutral)) in
    modify (fun o => set_money_settled (oc_money_settled o ++ [key]) o).

Definition neutral_no_report (component : MetricId) (epoch : EpochId) (spec_version : MetricSpecVersion) : OM unit :=
  let! o := get in
  do! lift (ensure (length (oc_component_values o) <? MAX_COMPONENT_VALUES)%nat OeAlreadyFinal) in
  let carried := last_valid_value component epoch o in
  do! modify (drop_acks (component, epoch, spec_version)) in
  do! modify (fun o => set_component_values (oc_component_values o ++
    [((component, epoch, spec_version), {| sc_value := carried; sc_path := PathNeutral; sc_flagged := true |})]) o) in
  do! modify (oc_push (OcNeutralSettlement component epoch carried 1)) in
  modify (oc_push (OcComponentSettled component epoch carried PathNeutral)).

(** One iteration of the closing crank at index [i]: the next index, and
    whether a round counts as processed. *)
Definition close_one (now : BlockNumber) (params : OracleParams) (i : nat) : OM (nat * bool) :=
  let! o := get in
  let! r := lift (round_at i o) in
  let key := round_key r in
  if bool_decide (key ∈ oc_money_settled o) then
    let! below_cap := lift (match rd_counter_value r with
                            | Some _ => rmap (fun s => rd_round r <? rs_round_cap s) (round_schedule key o)
                            | None => Ok false
                            end) in
    match rd_counter_value r with
    | Some value =>
        if below_cap : bool then do! settle_at i value ChallengerDefault true false in ret (i, true)
        else ret (S i, false)
    | None => do! settle_at i (rd_value r) Unchallenged true true in ret (i, true)
    end
  else if now <? rd_challenge_deadline r then ret (S i, false)
  else
    let! schedule := lift (round_schedule key o) in
    match rd_counter_value r with
    | None =>
        if op_watchtower_quorum params <=? rd_acks r then
          do! settle_at i (rd_value r) Unchallenged false true in ret (i, true)
        else if negb (rd_extended r) then
          let deadline := sat_add U32 now ORC_EXT_WINDOW_BLOCKS in
          do! modify (update_round i (fun r => {| r with rd_extended := true; rd_challenge_deadline := deadline |})) in
          do! modify (oc_push (OcWindowExtended (rd_component r) (rd_epoch r) (rd_round r) deadline)) in
          ret (S i, true)
        else
          do! modify (oc_push (OcQuorumFailed (rd_component r) (rd_epoch r) (rd_round r))) in
          let! carried := gets (last_valid_value (rd_component r) (rd_epoch r)) in
          do! neutral_at i carried 1 in ret (i, true)
    | Some value =>
        if rd_round r <? rs_round_cap schedule then
          do! settle_at i value ChallengerDefault false false in ret (i, true)
        else ret (S i, true)
    end.

(** The loop of the crank; [None] when the fuel runs out, which
    [close_loop_terminates] excludes for the fuel of [crank_round_close]. *)
Fixpoint close_loop (fuel : nat) (now : BlockNumber) (params : OracleParams) (batch i processed : nat) (o : Oracle)
    : option (Result OracleError unit * Oracle) :=
  if (i <? length (oc_rounds o))%nat && (processed <? batch)%nat then
    match fuel with
    | O => None
    | S fuel =>
        match close_one now params i o with
        | (Ok (i', counts), o') => close_loop fuel now params batch i' (if counts : bool then S processed else processed) o'
        | (Err e, o') => Some (Err e, o')
        end
    end
  else Some (Ok tt, o).

Definition crank_round_close (now : BlockNumber) (batch : nat) (params : OracleParams) : OM unit := fun o =>
  match close_loop (2 * length (oc_rounds o)) now params batch 0 0 o with
  | Some r => r
  | None => (Ok tt, o)
  end.

Definition set_offenses (x : Z) (i : ReporterInfo) : ReporterInfo := {| i with rp_offenses := x |}.
Definition cut_stake (amount : Balance) (i : ReporterInfo) : ReporterInfo :=
  {| i with rp_stake := sat_sub (rp_stake i) amount |}.

Definition record_offense (who : AccountId) (o : Oracle) : Oracle :=
  match find_key fst who (oc_reporters o) with
  | None => o
  | Some (_, info) =>
      let offense := sat_add U8 (rp_offenses info) 1 in
      let slash_amount := ceil_div (rp_stake info) 2 in
      let o := set_reporters (alter_key fst who (fun a => (a.1, set_offenses offense a.2)) (oc_reporters o)) o in
      let o :=
        if offense =? 2 then
          oc_push (OcReporterSlashed who slash_amount offense)
            (set_reporters (alter_key fst who (fun a => (a.1, cut_stake slash_amount a.2)) (oc_reporters o)) o)
        else o in
      if 3 <=? offense then
        oc_push (OcReporterEjected who) (set_reporters (filter (fun a => a.1 <> who) (oc_reporters o)) o)
      else o
  end.

Definition record_reporter_offense (who : AccountId) : OM unit := modify (record_offense who).

Definition recompute_proof (prover : AccountId) (key : RoundKey) (proof : list Z) : OM unit :=
  let! o := get in
  do! lift (ensure (length proof <=? ORC_MAX_PROOF_BYTES)%nat OeProofTooLarge) in
  do! lift (ensure (bool_decide ((rk_component key, rk_spec_version key) ∈ oc_recomputable_components o)) OeNotRecomputable) in
  let! idx := lift (ok_or OeRoundNotFound (find_round key o)) in
  let! r := lift (round_at idx o) in
  do! lift (ensure (hash_evidence proof =? rd_evidence_hash r) OeEvidenceMismatch) in
  let! value := lift (recompute_value proof) in
  do! (if negb (value =? rd_value r) then record_reporter_offense (rd_reporter r) else ret tt) in
  do! modify (oc_push (OcRecomputeProven (rk_component key) (rk_epoch key) value prover)) in
  settle_at idx value Recomputed false (value =? rd_value r).

Definition request_adjudication (key : RoundKey) (referendum : Z) : OM unit :=
  let! o := get in
  let! idx := lift (ok_or OeRoundNotFound (find_round key o)) in
  let! schedule := lift (round_schedule key o) in
  let! r := lift (round_at idx o) in
  do! lift (ensure (rs_round_cap schedule <=? rd_round r) OeWindowOpen) in
  do! lift (ensure (negb (is_none (rd_challenger r)) && negb (is_none (rd_counter_value r))) OeQuorumPending) in
  modify (oc_push (OcAdjudicationRequested (rk_component key) (rk_epoch key) referendum)).

Definition adjudicate (origin : ClassOrigin) (key : RoundKey) (value : FixedU64) (reporter_wrong : bool) : OM unit :=
  do! lift (ensure (bool_decide (origin = OracleResolution)) OeBadOrigin) in
  do! lift (ensure (value <=? COMPONENT_VALUE_MAX) OeValueOutOfBounds) in
  let! o := get in
  let! idx := lift (ok_or OeRoundNotFound (find_round key o)) in
  let! schedule := lift (round_schedule key o) in
  let! r := lift (round_at idx o) in
  do! lift (ensure (rs_round_cap schedule <=? rd_round r) OeWindowOpen) in
  do! lift (ensure (negb (is_none (rd_challenger r)) && negb (is_none (rd_counter_value r))) OeQuorumPending) in
  do! (if reporter_wrong then record_reporter_offense (rd_reporter r) else ret tt) in
  do! modify (oc_push (OcAdjudicated (rk_component key) (rk_epoch key) value)) in
  settle_at idx value PathAdjudicated false (negb reporter_wrong).

Definition force_neutralize_expired (epoch : EpochId) (expected : list (MetricId * MetricSpecVersion)) : OM unit :=
  let! o := get in
  let keys := round_key <$> filter (fun r => rd_epoch r = epoch) (oc_rounds o) in
  do! for_each_st (fun key =>
    let! o := get in
    match find_round key o with
    | Some idx => neutral_at idx (last_valid_value (rk_component key) epoch o) 1
    | None => ret tt
    end) keys in
  for_each_st (fun cv : MetricId * MetricSpecVersion =>
    let! o := get in
    if negb (has_value (cv.1, epoch, cv.2) o) then neutral_no_report cv.1 epoch cv.2 else ret tt) expected.

(** ** The reserve probe *)

Definition set_health (f : ReserveHealth -> ReserveHealth) (o : Oracle) : Oracle :=
  set_reserve_health (f (oc_reserve_health o)) o.

Definition send_probe (id : Z) (now : BlockNumber) (h : ReserveHealth) : ReserveHealth :=
  {| h with rh_last_query_id := id; rh_last_probe_at := now; rh_pending_since := Some now |}.

Definition crank_reserve_probe (now : BlockNumber) (params : OracleParams) : OM Z :=
  let! h := gets oc_reserve_health in
  do! lift (ensure ((rh_last_query_id h =? 0)
                    || (sat_add U32 (rh_last_probe_at h) (op_probe_interval params) <=? now)) OeProbeTooEarly) in
  do! lift (ensure (rh_last_query_id h <? MAX_RESERVE_PROBE_QUERY_ID) OeOverflow) in
  let! query_id := lift (ok_or OeOverflow (checked_add U64 (rh_last_query_id h) 1)) in
  do! modify (set_health (send_probe query_id now)) in
  do! modify (oc_push (OcReserveProbeSent query_id)) in
  ret query_id.

(** The consecutive counters and the latch. *)
Definition score_fails (scored : Z) (params : OracleParams) (o : Oracle) : Oracle :=
  let h := oc_reserve_health o in
  let fails := sat_add U8 (rh_consecutive_fails h) scored in
  let h := {| h with rh_consecutive_fails := fails; rh_consecutive_passes := 0 |} in
  if negb (rh_unhealthy h) && (op_fail_threshold params <=? fails)
  then oc_push OcReserveUnhealthy (set_reserve_health {| h with rh_unhealthy := true |} o)
  else set_reserve_health h o.

Definition score_pass (params : OracleParams) (o : Oracle) : Oracle :=
  let h := oc_reserve_health o in
  let passes := sat_add U8 (rh_consecutive_passes h) 1 in
  let h := {| h with rh_consecutive_passes := passes; rh_consecutive_fails := 0 |} in
  if rh_unhealthy h && (op_recover_threshold params <=? passes)
  then oc_push OcReserveRecovered (set_reserve_health {| h with rh_unhealthy := false |} o)
  else set_reserve_health h o.

Definition apply_probe_result (query_id : Z) (passed : bool) (params : OracleParams) (o : Oracle) : Oracle :=
  let o := set_health (fun h => {| h with rh_pending_since := None |}) o in
  let o := if passed then score_pass params o else score_fails 1 params o in
  oc_push (OcReserveProbeResult query_id passed) o.

Definition reserve_probe_result (now : BlockNumber) (query_id : Z) (passed : bool) (params : OracleParams) : OM unit :=
  let! h := gets oc_reserve_health in
  do! lift (ensure (query_id =? rh_last_query_id h) OeUnknownQuery) in
  let! since := lift (ok_or OeUnknownQuery (rh_pending_since h)) in
  let effective := passed && reserve_probe_config_valid params && (now <? sat_add U32 since (op_probe_timeout params)) in
  modify (apply_probe_result query_id effective params).

Definition crank_probe_timeout (now : BlockNumber) (params : OracleParams) : OM unit :=
  let! h := gets oc_reserve_health in
  let! since := lift (ok_or OeUnknownQuery (rh_pending_since h)) in
  do! lift (ensure (sat_add U32 since (op_probe_timeout params) <=? now) OeWindowOpen) in
  modify (apply_probe_result (rh_last_query_id h) false params).

Definition note_missed_reserve_probes (missed : Z) (params : OracleParams) (o : Oracle) : Oracle :=
  if missed =? 0 then o else score_fails (Z.min missed 255) params o.

(** ** The state checker *)

(** The records that count for the round as it stands. *)
Definition ack_counts (r : RoundState) (a : AckRecord) : Prop :=
  ac_key a = round_key r /\ ac_round a = rd_round r /\ ac_hash a = rd_report_hash r.

#[export] Instance ack_counts_dec r a : Decision (ack_counts r a).
Proof. unfold ack_counts. apply _. Defined.

Definition check_round (o : Oracle) (r : RoundState) : Result OracleError unit :=
  let? schedule := round_schedule (round_key r) o in
  do? ensure (within ORC_ROUND_CAP_MIN ORC_ROUND_CAP_MAX (rs_round_cap schedule)) OeRoundNotFound in
  do? ensure (within 1 (rs_round_cap schedule) (rd_round r)) OeRoundNotFound in
  let? bond := stored_round_bond (rs_round_one_bond schedule) (rd_round r) (rs_round_cap schedule) in
  do? ensure (rd_bond r =? bond) OeBondBelowMinimum in
  do? (if has_value (round_key r) o then ensure (bool_decide (round_key r ∈ oc_money_settled o)) OeAlreadyFinal else Ok tt) in
  ensure (rd_acks r =? Z.of_nat (length (filter (ack_counts r) (oc_ack_records o)))) OeQuorumPending.

Definition oracle_try_state (o : Oracle) : Result OracleError unit :=
  do? ensure (rh_last_query_id (oc_reserve_health o) <=? MAX_RESERVE_PROBE_QUERY_ID) OeOverflow in
  do? ensure (length (oc_reporters o) <=? MAX_REPORTERS)%nat OeTooManyReporters in
  do? ensure (length (oc_watchtowers o) <=? MAX_WATCHTOWERS)%nat OeTooManyWatchtowers in
  do? ensure (length (oc_rounds o) <=? MAX_ROUNDS)%nat OeRoundLimit in
  do? ensure (length (oc_round_schedules o) =? length (oc_rounds o))%nat OeRoundLimit in
  do? ensure (length (oc_component_values o) <=? MAX_COMPONENT_VALUES)%nat OeAlreadyFinal in
  do? ensure (length (oc_ack_records o) <=? MAX_ACK_RECORDS)%nat OeRoundLimit in
  do? ensure (length (oc_money_settled o) <=? MAX_ROUNDS)%nat OeRoundLimit in
  do? ensure (length (oc_watchtower_active o) <=? MAX_WATCHTOWERS)%nat OeTooManyWatchtowers in
  do? for_each (fun who => ensure (is_watchtower who o) OeNotRegistered) (oc_watchtower_active o) in
  do? for_each (check_round o) (oc_rounds o) in
  do? for_each (fun s => ensure (negb (is_none (find_round s.1 o))) OeRoundNotFound) (oc_round_schedules o) in
  for_each (fun key =>
    do? ensure (negb (is_none (find_round key o))) OeRoundNotFound in
    ensure (has_value key o) OeRoundNotFound) (oc_money_settled o).
