(* ===== verification/OracleInv.v ===== *)
(** * The oracle as a transition system, and its invariant

    A step is a successful call. The games are kept as five tables: the rounds
    and their schedules in the same order, the settled values, the games whose
    money is settled but whose bonds are not, and the acknowledgements of the
    rounds as they stand. *)

From S2P Require Import Prelude Keyed Primitives Proposals Origins Oracle.

(** ** Tables updated by index *)

Lemma filter_all_true {V} (P : V -> Prop) `{forall v, Decision (P v)} (l : list V) : (forall v, v ∈ l -> P v) -> filter P l = l.
Proof.
  induction l as [|v l IH]; intros H'; [done|]. rewrite filter_cons_True by (apply H'; left). f_equal.
  apply IH. intros w Hw. apply H'. by right.
Qed.

Section indexed.
Context {K V : Type} `{EqDecision K} (key : V -> K).

Lemma position_Some (f : V -> bool) l i : position f l = Some i -> exists v, l !! i = Some v /\ f v = true.
Proof.
  revert i. induction l as [|v l IH]; intros i; [done|]. cbn. destruct (f v) eqn:E; [intros [= <-]; eauto|].
  destruct (position f l) as [j|]; [|done]. intros [= <-]. cbn. eauto.
Qed.

Lemma position_None (f : V -> bool) l : position f l = None <-> forall v, v ∈ l -> f v = false.
Proof.
  induction l as [|v l IH]; cbn; [split; [by intros _ ? ?%elem_of_nil|done]|]. destruct (f v) eqn:E.
  - split; [done|]. intros H. rewrite (H v) in E by left. done.
  - rewrite fmap_None, IH. setoid_rewrite elem_of_cons. naive_solver.
Qed.

Lemma position_key k l i : position (fun v => bool_decide (key v = k)) l = Some i -> exists v, l !! i = Some v /\ key v = k.
Proof. intros (v & Hv & E%bool_decide_eq_true)%position_Some. eauto. Qed.

Lemma position_key_None k l : position (fun v => bool_decide (key v = k)) l = None <-> k ∉ keys key l.
Proof.
  rewrite position_None, elem_of_keys. setoid_rewrite bool_decide_eq_false. naive_solver.
Qed.

Lemma keys_lookup_inj l i j v w : NoDup (keys key l) -> l !! i = Some v -> l !! j = Some w -> key v = key w -> i = j.
Proof.
  intros Hn Hi Hj E. eapply NoDup_lookup; [exact Hn|..]; unfold keys; rewrite list_lookup_fmap.
  - by rewrite Hi.
  - by rewrite Hj, E.
Qed.

Lemma position_NoDup l i v :
  NoDup (keys key l) -> l !! i = Some v -> position (fun w => bool_decide (key w = key v)) l = Some i.
Proof.
  intros Hn Hi. destruct (position _ l) as [j|] eqn:E.
  - apply position_key in E as (w & Hw & E). f_equal. by eapply keys_lookup_inj.
  - apply position_key_None in E. exfalso. apply E, elem_of_keys. exists v. split; [by eapply list_elem_of_lookup_2|done].
Qed.

Lemma keys_delete l i : keys key (delete i l) = delete i (keys key l).
Proof. apply list_fmap_delete. Qed.

Lemma NoDup_delete {A} (l : list A) i : NoDup l -> NoDup (delete i l).
Proof. intros. eapply sublist_NoDup; [done|]. apply sublist_delete. Qed.

Lemma elem_of_delete l i v w :
  NoDup (keys key l) -> l !! i = Some v -> w ∈ delete i l <-> w ∈ l /\ key w <> key v.
Proof.
  intros Hn Hi. pose proof (list_elem_of_split_length l i v Hi) as (l1 & l2 & -> & ->). clear Hi.
  rewrite delete_middle. unfold keys in Hn. rewrite fmap_app, fmap_cons, NoDup_app, NoDup_cons in Hn.
  destruct Hn as (_ & Hd & Hv & _). rewrite !elem_of_app, elem_of_cons. split.
  - intros [H|H]; (split; [tauto|]); intros E.
    + eapply (Hd (key w)); [by apply list_elem_of_fmap_2|]. rewrite E. left.
    + apply Hv. rewrite <- E. by apply list_elem_of_fmap_2.
  - intros [[H|[->|H]] Hne]; [tauto|done|tauto].
Qed.

Lemma elem_of_alter_idx l i f v w :
  NoDup (keys key l) -> l !! i = Some v -> w ∈ alter f i l <-> w = f v \/ (w ∈ l /\ key w <> key v).
Proof.
  intros Hn Hi. pose proof (list_elem_of_split_length l i v Hi) as (l1 & l2 & -> & ->). clear Hi.
  replace (length l1) with (length l1 + 0)%nat by lia. rewrite alter_app_r. cbn.
  unfold keys in Hn. rewrite fmap_app, fmap_cons, NoDup_app, NoDup_cons in Hn.
  destruct Hn as (_ & Hd & Hv & _). rewrite !elem_of_app, !elem_of_cons. split.
  - intros [H|[->|H]]; [right; split; [tauto|]|by left|right; split; [tauto|]]; intros E.
    + eapply (Hd (key w)); [by apply list_elem_of_fmap_2|]. rewrite E. left.
    + apply Hv. rewrite <- E. by apply list_elem_of_fmap_2.
  - intros [->|[[H|[->|H]] Hne]]; tauto.
Qed.

Lemma keys_alter_idx l i f : (forall v, l !! i = Some v -> key (f v) = key v) -> keys key (alter f i l) = keys key l.
Proof.
  intros Hf. unfold keys. apply list_eq. intros j. rewrite !list_lookup_fmap. destruct (decide (i = j)) as [<-|Hne].
  - rewrite list_lookup_alter_eq. destruct (l !! i) as [v|] eqn:E; [|done]. cbn. by rewrite Hf.
  - by rewrite list_lookup_alter_ne.
Qed.

End indexed.

(** ** The invariant of the games *)

(** The records of the round as it stands. *)
Definition acks_for (r : RoundState) (acks : list AckRecord) : list AckRecord := filter (ack_counts r) acks.

(** What the ladder of doubling bonds has cost the two sides by round [n]. *)
Definition ladder (b1 n : Z) : Z := b1 * (2 ^ n - 1).

Record round_ok (r : RoundState) (s : StoredRoundSchedule) : Prop := {
  ro_cap : ORC_ROUND_CAP_MIN <= rs_round_cap s <= ORC_ROUND_CAP_MAX;
  ro_round : 1 <= rd_round r <= rs_round_cap s;
  ro_base : 0 <= rs_round_one_bond s;
  ro_fits : rs_round_one_bond s * 2 ^ (rs_round_cap s - 1) < U128;
  ro_bond : rd_bond r = rs_round_one_bond s * 2 ^ (rd_round r - 1);
  ro_reporter_bonds : rd_cumulative_reporter_bond r = ladder (rs_round_one_bond s) (rd_round r);
  ro_challenger_bonds : rd_cumulative_challenger_bond r
    = ladder (rs_round_one_bond s) (if rd_counter_value r then rd_round r else rd_round r - 1);
  ro_challenger : rd_counter_value r <> None \/ 1 < rd_round r -> rd_challenger r <> None;
  ro_value : 0 <= rd_value r <= COMPONENT_VALUE_MAX;
  ro_counter : forall v, rd_counter_value r = Some v -> 0 <= v <= COMPONENT_VALUE_MAX;
}.

Record games_ok (o : Oracle) : Prop := {
  ga_keys : NoDup (keys round_key (oc_rounds o));
  ga_schedules : keys fst (oc_round_schedules o) = keys round_key (oc_rounds o);
  ga_len : (length (oc_rounds o) <= MAX_ROUNDS)%nat;
  ga_rows : forall r s, r ∈ oc_rounds o -> (round_key r, s) ∈ oc_round_schedules o -> round_ok r s;
  ga_values : NoDup (keys fst (oc_component_values o));
  ga_values_len : (length (oc_component_values o) <= MAX_COMPONENT_VALUES)%nat;
  ga_range : forall v, v ∈ oc_component_values o -> 0 <= sc_value v.2 <= COMPONENT_VALUE_MAX;
  ga_money : NoDup (oc_money_settled o);
  ga_money_in : forall k, k ∈ oc_money_settled o ->
    k ∈ keys round_key (oc_rounds o) /\ k ∈ keys fst (oc_component_values o);
  ga_shadow : forall k, k ∈ keys round_key (oc_rounds o) -> k ∈ keys fst (oc_component_values o) -> k ∈ oc_money_settled o;
  ga_acks : NoDup (oc_ack_records o);
  ga_acks_live : forall a, a ∈ oc_ack_records o -> exists r, r ∈ oc_rounds o /\ ack_counts r a;
  ga_count : forall r, r ∈ oc_rounds o -> rd_acks r = Z.min 255 (Z.of_nat (length (acks_for r (oc_ack_records o))));
}.

Record roster_ok (o : Oracle) : Prop := {
  rt_reporters : NoDup (keys fst (oc_reporters o));
  rt_reporters_len : (length (oc_reporters o) <= MAX_REPORTERS)%nat;
  rt_towers : NoDup (keys fst (oc_watchtowers o));
  rt_towers_len : (length (oc_watchtowers o) <= MAX_WATCHTOWERS)%nat;
  rt_active : NoDup (oc_watchtower_active o);
  rt_active_in : forall w, w ∈ oc_watchtower_active o -> w ∈ keys fst (oc_watchtowers o);
}.

Record probe_ok (h : ReserveHealth) : Prop := {
  pr_id : 0 <= rh_last_query_id h <= MAX_RESERVE_PROBE_QUERY_ID;
  pr_pending : rh_pending_since h <> None -> 0 < rh_last_query_id h;
  pr_fails : 0 <= rh_consecutive_fails h < U8;
  pr_passes : 0 <= rh_consecutive_passes h < U8;
  pr_one : rh_consecutive_fails h = 0 \/ rh_consecutive_passes h = 0;
}.

Record oracle_ok (o : Oracle) : Prop := {
  ok_games : games_ok o;
  ok_roster : roster_ok o;
  ok_probe : probe_ok (oc_reserve_health o);
}.

Lemma oracle_default_ok : oracle_ok oracle_default.
Proof.
  split; [constructor| constructor |constructor]; cbn; try apply NoDup_nil_2; try done; try lia;
    try (intros ? ?%elem_of_nil; done); try (by intros ? ? ?%elem_of_nil); auto.
Qed.

(** What the games are read from. *)
Lemma games_ok_ext o o' :
  games_ok o -> oc_rounds o' = oc_rounds o -> oc_round_schedules o' = oc_round_schedules o ->
  oc_component_values o' = oc_component_values o -> oc_money_settled o' = oc_money_settled o ->
  oc_ack_records o' = oc_ack_records o -> games_ok o'.
Proof. intros [] E1 E2 E3 E4 E5. constructor; rewrite ?E1, ?E2, ?E3, ?E4, ?E5; done. Qed.

Lemma roster_ok_ext o o' :
  roster_ok o -> oc_reporters o' = oc_reporters o -> oc_watchtowers o' = oc_watchtowers o ->
  oc_watchtower_active o' = oc_watchtower_active o -> roster_ok o'.
Proof. intros [] E1 E2 E3. constructor; rewrite ?E1, ?E2, ?E3; done. Qed.

(** ** Reading the tables *)

Lemma has_value_iff key o : has_value key o = true <-> key ∈ keys fst (oc_component_values o).
Proof. unfold has_value. rewrite existsb_elem, elem_of_keys. by setoid_rewrite bool_decide_eq_true. Qed.

Lemma has_value_false key o : has_value key o = false <-> key ∉ keys fst (oc_component_values o).
Proof. rewrite <- not_true_iff_false, has_value_iff. done. Qed.

Lemma is_watchtower_iff who o : is_watchtower who o = true <-> who ∈ keys fst (oc_watchtowers o).
Proof. unfold is_watchtower. rewrite existsb_elem, elem_of_keys. by setoid_rewrite Z.eqb_eq. Qed.

Lemma is_reporter_iff who o : is_reporter who o = true <-> who ∈ keys fst (oc_reporters o).
Proof. unfold is_reporter. rewrite existsb_elem, elem_of_keys. by setoid_rewrite Z.eqb_eq. Qed.

Lemma find_round_Some key o i : find_round key o = Some i -> exists r, oc_rounds o !! i = Some r /\ round_key r = key.
Proof. apply position_key. Qed.

Lemma find_round_None key o : find_round key o = None <-> key ∉ keys round_key (oc_rounds o).
Proof. apply position_key_None. Qed.

Lemma round_schedule_Ok key o s : round_schedule key o = Ok s -> (key, s) ∈ oc_round_schedules o.
Proof.
  unfold round_schedule. rewrite ok_or_Ok, fmap_Some. intros ([k s'] & H & ->). by apply find_key_Some in H as [<- ?].
Qed.

Lemma round_lookup_elem o i r : oc_rounds o !! i = Some r -> r ∈ oc_rounds o.
Proof. apply list_elem_of_lookup_2. Qed.

(** Every round has its schedule, at the same place. *)
Lemma round_has_schedule o i r :
  games_ok o -> oc_rounds o !! i = Some r -> exists s,
    oc_round_schedules o !! i = Some (round_key r, s) /\ round_schedule (round_key r) o = Ok s
    /\ round_schedule_index (round_key r) o = Some i /\ round_ok r s.
Proof.
  intros Hg Hi. assert (keys fst (oc_round_schedules o) !! i = Some (round_key r)) as Hk.
  { rewrite (ga_schedules _ Hg). unfold keys. by rewrite list_lookup_fmap, Hi. }
  unfold keys in Hk. rewrite list_lookup_fmap in Hk. apply fmap_Some in Hk as ([k s] & Hs & E). cbn in E. subst k.
  assert (NoDup (keys fst (oc_round_schedules o))) as Hn by (rewrite (ga_schedules _ Hg); apply Hg).
  exists s. split; [done|]. split; [|split].
  - unfold round_schedule. rewrite (find_key_elem fst _ (round_key r, s) Hn); [done|by eapply list_elem_of_lookup_2].
  - unfold round_schedule_index. exact (position_NoDup fst _ i (round_key r, s) Hn Hs).
  - eapply ga_rows; [done|by eapply round_lookup_elem|by eapply list_elem_of_lookup_2].
Qed.

(** ** Acknowledgements *)

Lemma acks_for_app r l a :
  acks_for r (l ++ [a]) = acks_for r l ++ (if decide (ack_counts r a) then [a] else []).
Proof. unfold acks_for. rewrite filter_app. f_equal. Qed.

Lemma acks_for_drop r k l : round_key r <> k -> acks_for r (filter (fun a => ac_key a <> k) l) = acks_for r l.
Proof.
  intros Hne. unfold acks_for. rewrite list_filter_filter. apply list_filter_iff. intros a. unfold ack_counts. naive_solver.
Qed.

Lemma acks_for_same r r' l :
  round_key r' = round_key r -> rd_round r' = rd_round r -> rd_report_hash r' = rd_report_hash r ->
  acks_for r' l = acks_for r l.
Proof. intros E1 E2 E3. apply list_filter_iff. intros a. unfold ack_counts. by rewrite E1, E2, E3. Qed.

Lemma live_ack_round o r a : games_ok o -> a ∈ oc_ack_records o -> r ∈ oc_rounds o -> ac_key a = round_key r -> ack_counts r a.
Proof.
  intros Hg Ha Hr E. destruct (ga_acks_live _ Hg a Ha) as (q & Hq & Hc). enough (q = r) by congruence.
  pose proof (find_key_elem round_key _ q (ga_keys _ Hg) Hq) as E1.
  pose proof (find_key_elem round_key _ r (ga_keys _ Hg) Hr) as E2.
  destruct Hc as (Hk & _). rewrite <- Hk, E in E1. congruence.
Qed.

(** ** The four ways a game moves *)

(** One round is rewritten; its records change with it. *)
Lemma games_update o o' i r f acks :
  games_ok o -> oc_rounds o !! i = Some r -> round_key (f r) = round_key r ->
  (forall s, round_schedule (round_key r) o = Ok s -> round_ok r s -> round_ok (f r) s) ->
  NoDup acks ->
  (forall a, a ∈ acks -> (a ∈ oc_ack_records o /\ ac_key a <> round_key r) \/ ack_counts (f r) a) ->
  (forall q, round_key q <> round_key r -> acks_for q acks = acks_for q (oc_ack_records o)) ->
  rd_acks (f r) = Z.min 255 (Z.of_nat (length (acks_for (f r) acks))) ->
  oc_rounds o' = alter f i (oc_rounds o) -> oc_round_schedules o' = oc_round_schedules o ->
  oc_component_values o' = oc_component_values o -> oc_money_settled o' = oc_money_settled o ->
  oc_ack_records o' = acks -> games_ok o'.
Proof.
  intros Hg Hi Hk Hok Hna Hin Hoth Hcnt E1 E2 E3 E4 E5.
  assert (keys round_key (oc_rounds o') = keys round_key (oc_rounds o)) as Ek.
  { rewrite E1. apply keys_alter_idx. intros v Hv. rewrite Hi in Hv. by injection Hv as <-. }
  assert (forall q, q ∈ oc_rounds o' <-> q = f r \/ (q ∈ oc_rounds o /\ round_key q <> round_key r)) as Hel.
  { intros q. rewrite E1. apply (elem_of_alter_idx round_key); [apply Hg|done]. }
  destruct (round_has_schedule o i r Hg Hi) as (s0 & Hs0 & Hs & _ & Hro).
  constructor; rewrite ?Ek, ?E2, ?E3, ?E4, ?E5; try apply Hg.
  - rewrite E1, length_alter. apply Hg.
  - intros q s [->|[Hq _]]%Hel Hqs; [|by eapply ga_rows]. rewrite Hk in Hqs.
    assert (s = s0) as ->; [|by apply Hok].
    assert (NoDup (keys fst (oc_round_schedules o))) as Hn by (rewrite (ga_schedules _ Hg); apply Hg).
    pose proof (find_key_elem fst _ _ Hn Hqs) as E. pose proof (find_key_elem fst _ _ Hn (list_elem_of_lookup_2 _ _ _ Hs0)) as E'.
    cbn in *. congruence.
  - done.
  - intros a Ha. destruct (Hin a Ha) as [[Ha' Hne]|Hc]; [|exists (f r); split; [apply Hel; by left|done]].
    destruct (ga_acks_live _ Hg a Ha') as (q & Hq & Hc). exists q. split; [|done]. apply Hel. right. split; [done|].
    destruct Hc as (E & _). congruence.
  - intros q [->|[Hq Hne]]%Hel; [done|]. rewrite Hoth by done. by apply Hg.
Qed.

(** The round stays at its place on the ladder, and so do its records. *)
Lemma games_rewrite o o' i r f :
  games_ok o -> oc_rounds o !! i = Some r -> round_key (f r) = round_key r ->
  rd_round (f r) = rd_round r -> rd_report_hash (f r) = rd_report_hash r -> rd_acks (f r) = rd_acks r ->
  (forall s, round_schedule (round_key r) o = Ok s -> round_ok r s -> round_ok (f r) s) ->
  oc_rounds o' = alter f i (oc_rounds o) -> oc_round_schedules o' = oc_round_schedules o ->
  oc_component_values o' = oc_component_values o -> oc_money_settled o' = oc_money_settled o ->
  oc_ack_records o' = oc_ack_records o -> games_ok o'.
Proof.
  intros Hg Hi Hk H1 H2 H3 Hok E1 E2 E3 E4 E5.
  eapply (games_update o o' i r f (oc_ack_records o)); try done; [apply Hg| |].
  - intros a Ha. destruct (decide (ac_key a = round_key r)) as [E|]; [right|by left].
    pose proof (live_ack_round o r a Hg Ha (round_lookup_elem _ _ _ Hi) E) as (? & ? & ?).
    unfold ack_counts. by rewrite Hk, H1, H2.
  - rewrite (acks_for_same r), H3 by done. apply Hg. by eapply round_lookup_elem.
Qed.

(** A game opens. *)
Lemma games_open o o' r s :
  games_ok o -> round_key r ∉ keys round_key (oc_rounds o) -> round_key r ∉ keys fst (oc_component_values o) ->
  (length (oc_rounds o) < MAX_ROUNDS)%nat -> round_ok r s -> rd_acks r = 0 ->
  oc_rounds o' = oc_rounds o ++ [r] -> oc_round_schedules o' = oc_round_schedules o ++ [(round_key r, s)] ->
  oc_component_values o' = oc_component_values o -> oc_money_settled o' = oc_money_settled o ->
  oc_ack_records o' = oc_ack_records o -> games_ok o'.
Proof.
  intros Hg Hfr Hfv Hlen Hok Hac E1 E2 E3 E4 E5.
  assert (keys round_key (oc_rounds o') = keys round_key (oc_rounds o) ++ [round_key r]) as Ek by (by rewrite E1, keys_app).
  constructor; rewrite ?Ek, ?E2, ?E3, ?E4, ?E5; try apply Hg.
  - apply NoDup_app. split_and!; [apply Hg| |apply NoDup_singleton]. intros k Hk ->%list_elem_of_singleton. done.
  - rewrite keys_app, (ga_schedules _ Hg). done.
  - rewrite E1, length_app. cbn. lia.
  - intros q s'. rewrite E1. intros [Hq| ->%list_elem_of_singleton]%elem_of_app [Hs|E%list_elem_of_singleton]%elem_of_app.
    + by eapply ga_rows.
    + exfalso. apply Hfr, elem_of_keys. exists q. split; [done|congruence].
    + exfalso. apply Hfr. rewrite <- (ga_schedules _ Hg). apply elem_of_keys. by eexists.
    + injection E as ->. done.
  - intros k Hk. destruct (ga_money_in _ Hg k Hk). rewrite elem_of_app. auto.
  - intros k [Hk| ->%list_elem_of_singleton]%elem_of_app Hv; [by apply Hg|done].
  - intros a Ha. destruct (ga_acks_live _ Hg a Ha) as (q & ? & ?). exists q. rewrite E1, elem_of_app. auto.
  - rewrite E1. intros q [Hq| ->%list_elem_of_singleton]%elem_of_app; [by apply Hg|].
    unfold acks_for. rewrite filter_all_false; [done|]. intros a Ha (E & _).
    destruct (ga_acks_live _ Hg a Ha) as (q & Hq & E' & _). apply Hfr, elem_of_keys. exists q. split; [done|congruence].
Qed.

(** A value enters the table, of a game that stays or has no round. *)
Definition put_value (k : RoundKey) (v : SettledComponent) (o : Oracle) : Oracle :=
  set_component_values (oc_component_values o ++ [(k, v)]) o.

(** A round leaves, with its schedule, its records and its retained mark. *)
Definition gone (i : nat) (k : RoundKey) (o : Oracle) : Oracle :=
  set_money_settled (filter (fun stored => stored <> k) (oc_money_settled o))
    (drop_acks k (set_round_schedules (delete i (oc_round_schedules o)) (set_rounds (delete i (oc_rounds o)) o))).

Lemma games_gone o i r :
  games_ok o -> oc_rounds o !! i = Some r ->
  games_ok (gone i (round_key r) o) /\ round_key r ∉ keys round_key (oc_rounds (gone i (round_key r) o)).
Proof.
  intros Hg Hi. set (k := round_key r).
  assert (forall q, q ∈ delete i (oc_rounds o) <-> q ∈ oc_rounds o /\ round_key q <> k) as Hel.
  { intros q. apply (elem_of_delete round_key); [apply Hg|done]. }
  assert (forall k', k' ∈ keys round_key (delete i (oc_rounds o)) <-> k' ∈ keys round_key (oc_rounds o) /\ k' <> k) as Hek.
  { intros k'. rewrite !elem_of_keys. setoid_rewrite Hel. naive_solver. }
  split; [|cbn -[keys]; rewrite Hek; tauto].
  constructor; cbn -[keys]; try apply Hg.
  - rewrite keys_delete. apply NoDup_delete, Hg.
  - rewrite !keys_delete. by rewrite (ga_schedules _ Hg).
  - pose proof (sublist_length _ _ (sublist_delete (oc_rounds o) i)). pose proof (ga_len _ Hg). lia.
  - intros q s [Hq _]%Hel Hs. eapply ga_rows; [done..|]. eapply elem_of_submseteq; [done|]. apply sublist_submseteq, sublist_delete.
  - apply NoDup_filter, Hg.
  - intros k' [Hne Hk]%list_elem_of_filter. rewrite Hek. destruct (ga_money_in _ Hg k' Hk). auto.
  - intros k' [Hk Hne]%Hek Hv. apply list_elem_of_filter. split; [done|]. by apply Hg.
  - apply NoDup_filter, Hg.
  - intros a [Hne Ha]%list_elem_of_filter. destruct (ga_acks_live _ Hg a Ha) as (q & Hq & Hc).
    exists q. split; [|done]. apply Hel. split; [done|]. destruct Hc as (E & _). congruence.
  - intros q [Hq Hne]%Hel. pose proof (acks_for_drop q k (oc_ack_records o) Hne) as E. unfold acks_for in E.
    rewrite (ga_count _ Hg q Hq). unfold acks_for. by rewrite <- E.
Qed.

Lemma games_put o k v :
  games_ok o -> k ∉ keys fst (oc_component_values o) -> k ∉ keys round_key (oc_rounds o) ->
  (length (oc_component_values o) < MAX_COMPONENT_VALUES)%nat -> 0 <= sc_value v <= COMPONENT_VALUE_MAX ->
  games_ok (put_value k v o).
Proof.
  intros Hg Hf Hr Hlen Hv. constructor; cbn -[keys]; rewrite ?keys_app; try apply Hg.
  - apply NoDup_app. split_and!; [apply Hg| |apply NoDup_singleton]. by intros k' Hk ->%list_elem_of_singleton.
  - rewrite length_app. cbn. lia.
  - intros w [Hw| ->%list_elem_of_singleton]%elem_of_app; [by apply Hg|done].
  - intros k' Hk. destruct (ga_money_in _ Hg k' Hk). rewrite elem_of_app. auto.
  - intros k' Hk [Hv'| ->%list_elem_of_singleton]%elem_of_app; [by apply Hg|done].
Qed.

Lemma games_neutral o k v :
  games_ok o -> k ∉ keys fst (oc_component_values o) -> k ∈ keys round_key (oc_rounds o) ->
  (length (oc_component_values o) < MAX_COMPONENT_VALUES)%nat -> 0 <= sc_value v <= COMPONENT_VALUE_MAX ->
  games_ok (set_money_settled (oc_money_settled o ++ [k]) (put_value k v o)).
Proof.
  intros Hg Hf Hr Hlen Hv. constructor; cbn -[keys]; rewrite ?keys_app; try apply Hg.
  - apply NoDup_app. split_and!; [apply Hg| |apply NoDup_singleton]. by intros k' Hk ->%list_elem_of_singleton.
  - rewrite length_app. cbn. lia.
  - intros w [Hw| ->%list_elem_of_singleton]%elem_of_app; [by apply Hg|done].
  - apply NoDup_app. split_and!; [apply Hg| |apply NoDup_singleton].
    intros k' Hk ->%list_elem_of_singleton. by destruct (ga_money_in _ Hg k Hk).
  - intros k' [Hk| ->%list_elem_of_singleton]%elem_of_app; rewrite !elem_of_app; [|split; [done|right; left]].
    destruct (ga_money_in _ Hg k' Hk). auto.
  - intros k' Hk [Hv'| ->%list_elem_of_singleton]%elem_of_app; rewrite elem_of_app; [|right; left].
    left. by apply Hg.
Qed.

(** ** What the closing operations do *)

(** What they leave alone. *)
Record frame (o o' : Oracle) : Prop := {
  fr_reporters : oc_reporters o' = oc_reporters o;
  fr_towers : oc_watchtowers o' = oc_watchtowers o;
  fr_active : oc_watchtower_active o' = oc_watchtower_active o;
  fr_health : oc_reserve_health o' = oc_reserve_health o;
}.

#[export] Instance frame_preorder : PreOrder frame.
Proof. split; [by intros o|]. intros o1 o2 o3 [] []. split; congruence. Qed.

Definition settled_row (r : RoundState) (value : FixedU64) (path : SettlePath) (flagged : bool) (o : Oracle) : list OracleEvent :=
  if has_value (round_key r) o then [] else [OcComponentSettled (rd_component r) (rd_epoch r) value path].

Definition settlement_of (r : RoundState) (wins : bool) : BondSettlement :=
  {| bs_reporter := rd_reporter r; bs_challenger := rd_challenger r; bs_reporter_bond := rd_cumulative_reporter_bond r;
     bs_challenger_bond := rd_cumulative_challenger_bond r; bs_reporter_wins := wins |}.

(** The state a round leaves behind when it closes. *)
Definition settled (i : nat) (r : RoundState) (value : FixedU64) (path : SettlePath) (flagged wins : bool) (o : Oracle) : Oracle :=
  set_bond_settlements (oc_bond_settlements o ++ [settlement_of r wins])
    (set_oc_events (oc_events o ++ settled_row r value path flagged o)
      (if has_value (round_key r) o then gone i (round_key r) o
       else put_value (round_key r) {| sc_value := value; sc_path := path; sc_flagged := flagged |} (gone i (round_key r) o))).

Lemma settle_at_Ok i value path flagged wins o u o' :
  games_ok o -> settle_at i value path flagged wins o = (Ok u, o') -> exists r,
    oc_rounds o !! i = Some r /\ o' = settled i r value path flagged wins o
    /\ (has_value (round_key r) o = false -> (length (oc_component_values o) < MAX_COMPONENT_VALUES)%nat).
Proof.
  intros Hg H. unfold settle_at in H. inv_all.
  match goal with H : round_at _ _ = Ok _ |- _ => unfold round_at in H; inv_all; rename H into Hi end.
  destruct (round_has_schedule _ _ _ Hg Hi) as (s & _ & _ & Hs & _).
  match goal with H : round_schedule_index _ _ = Some _ |- _ => rewrite Hs in H; injection H as <- end.
  eexists. split; [done|]. unfold settled, settled_row.
  match goal with H : (if negb (has_value ?k ?o1) then _ else _) _ = _ |- _ => change (has_value k o1) with (has_value k o) in H end.
  destruct (has_value _ o) eqn:Ev; cbn [negb] in *; inv_all; (split; [|try done]).
  - by rewrite app_nil_r.
  - reflexivity.
  - intros _. match goal with H : (_ <? _)%nat = true |- _ => apply Nat.ltb_lt in H; exact H end.
Qed.

Lemma settled_ok i r value path flagged wins o :
  games_ok o -> oc_rounds o !! i = Some r -> 0 <= value <= COMPONENT_VALUE_MAX ->
  (has_value (round_key r) o = false -> (length (oc_component_values o) < MAX_COMPONENT_VALUES)%nat) ->
  games_ok (settled i r value path flagged wins o) /\ frame o (settled i r value path flagged wins o).
Proof.
  intros Hg Hi Hv Hlen. destruct (games_gone o i r Hg Hi) as [Hgo Hgk]. unfold settled. split.
  - destruct (has_value (round_key r) o) eqn:E; [by eapply games_ok_ext; [exact Hgo|..]|].
    apply has_value_false in E. eapply games_ok_ext; [by eapply (games_put _ (round_key r) (Build_SettledComponent value path flagged) Hgo); [..|apply Hlen|]|..]; done.
  - by destruct (has_value _ o).
Qed.

Definition neutral_events (c : MetricId) (e : EpochId) (v : FixedU64) (n : Z) : list OracleEvent :=
  [OcNeutralSettlement c e v n; OcComponentSettled c e v PathNeutral].

Definition neutral (v : FixedU64) : SettledComponent := {| sc_value := v; sc_path := PathNeutral; sc_flagged := true |}.

Lemma neutral_at_Ok i v n o u o' :
  neutral_at i v n o = (Ok u, o') -> exists r, oc_rounds o !! i = Some r /\
    ((round_key r ∈ oc_money_settled o /\ o' = o)
     \/ (round_key r ∉ oc_money_settled o /\ (length (oc_component_values o) < MAX_COMPONENT_VALUES)%nat
         /\ exists evs, o' = set_oc_events evs (set_money_settled (oc_money_settled o ++ [round_key r])
                              (put_value (round_key r) (neutral v) o)))).
Proof.
  intros H. unfold neutral_at in H. inv_all. unfold round_at in *. inv_all. eexists. split; [done|].
  match goal with H : (if bool_decide ?P then _ else _) _ = _ |- _ => destruct (bool_decide P) eqn:E in H end; to_prop; inv_all.
  - by left.
  - right. split; [done|]. split; [by apply Nat.ltb_lt|]. eexists. reflexivity.
Qed.

Lemma neutral_no_report_Ok c e sv o u o' :
  neutral_no_report c e sv o = (Ok u, o') ->
  (length (oc_component_values o) < MAX_COMPONENT_VALUES)%nat
  /\ exists evs, o' = set_oc_events evs (put_value (c, e, sv) (neutral (last_valid_value c e o)) (drop_acks (c, e, sv) o)).
Proof. intros H. unfold neutral_no_report in H. inv_all. split; [by apply Nat.ltb_lt|]. eexists. reflexivity. Qed.

(** A carried value is the neutral one half or an earlier settled value. *)
Definition carried (c : MetricId) (e : EpochId) (v : FixedU64) (o : Oracle) : Prop :=
  v = COMPONENT_VALUE_MAX / 2 \/ exists w, w ∈ oc_component_values o /\ earlier_of c e w /\ v = sc_value w.2.

Lemma fold_later l best v : fold_left later l best = Some v -> best = Some v \/ v ∈ l.
Proof.
  revert best. induction l as [|w l IH]; intros best; cbn; [by left|]. intros [H|H]%IH; [|right; by right].
  unfold later in H. destruct best as [b|]; [|injection H as ->; right; left]. destruct (_ || _); [by left|]. injection H as <-. right. left.
Qed.

Lemma last_valid_carried c e o : carried c e (last_valid_value c e o) o.
Proof.
  unfold last_valid_value. destruct (fold_left _ _ _) as [v|] eqn:E; [right|by left].
  apply fold_later in E as [|[He Hv]%list_elem_of_filter]; [done|]. eauto.
Qed.

Lemma last_valid_range c e o : games_ok o -> 0 <= last_valid_value c e o <= COMPONENT_VALUE_MAX.
Proof.
  intros Hg. destruct (last_valid_carried c e o) as [->|(w & Hw & _ & ->)]; [|by apply Hg].
  split; vm_compute; discriminate.
Qed.
