(* ===== verification/OracleKeep.v ===== *)
(** * Every call of the oracle keeps its invariant

    The calls of the pallet around the core, one step per successful call, and
    the preservation of the tables, the roster and the probe. The closing crank
    is taken one iteration at a time: what an iteration may do is [closing]. *)

From S2P Require Import Prelude Keyed Primitives Proposals Origins Oracle OracleInv.

(** ** The system *)

(** [note_recomputable] of the pallet: the core only reads the declarations. *)
Definition MAX_RECOMPUTABLE_BOUND : nat := 64.

Definition note_recomputable (component : MetricId) (version : MetricSpecVersion) : OM unit :=
  let! o := get in
  if existsb (fun cv => (cv.1 =? component) && (cv.2 =? version)) (oc_recomputable_components o) then ret tt
  else
    do! lift (ensure (length (oc_recomputable_components o) <? MAX_RECOMPUTABLE_BOUND)%nat OeRoundLimit) in
    modify (fun o => {| o with oc_recomputable_components := oc_recomputable_components o ++ [(component, version)] |}).

Inductive OracleCall : Type :=
| ORegisterReporter (who : AccountId) (now : BlockNumber) (params : OracleParams)
| ODeregisterReporter (who : AccountId)
| ORegisterWatchtower (who : AccountId) (now : BlockNumber) (params : OracleParams)
| OReport (i : ReportInput) (params : OracleParams)
| OChallenge (who : AccountId) (now : BlockNumber) (key : RoundKey) (value : FixedU64) (evidence_hash : H256)
| OCounterReport (who : AccountId) (now : BlockNumber) (key : RoundKey) (value : FixedU64) (evidence_hash : H256)
    (params : OracleParams)
| OAckObserved (who : AccountId) (now : BlockNumber) (key : RoundKey) (round : Z) (report_hash : H256)
| OSweep (ended_epoch : EpochId) (had_open_round : bool)
| OCrankClose (now : BlockNumber) (batch : nat) (params : OracleParams)
| ORecompute (prover : AccountId) (key : RoundKey) (proof : list Z)
| ORequestAdjudication (key : RoundKey) (referendum : Z)
| OAdjudicate (origin : ClassOrigin) (key : RoundKey) (value : FixedU64) (reporter_wrong : bool)
| OForceNeutralize (epoch : EpochId) (expected : list (MetricId * MetricSpecVersion))
| OCrankProbe (now : BlockNumber) (params : OracleParams)
| OProbeResult (now : BlockNumber) (query_id : Z) (passed : bool) (params : OracleParams)
| OProbeTimeout (now : BlockNumber) (params : OracleParams)
| OMissedProbes (missed : Z) (params : OracleParams)
| ONoteRecomputable (component : MetricId) (version : MetricSpecVersion).

Definition oracle_exec (c : OracleCall) : OM unit :=
  match c with
  | ORegisterReporter who now p => register_reporter who now p
  | ODeregisterReporter who => deregister_reporter who
  | ORegisterWatchtower who now p => register_watchtower who now p
  | OReport i p => report i p
  | OChallenge who now key v h => oracle_challenge who now key v h
  | OCounterReport who now key v h p => counter_report who now key v h p
  | OAckObserved who now key n h => oracle_ack_observed who now key n h
  | OSweep e had => sweep_watchtower_liveness e had
  | OCrankClose now batch p => crank_round_close now batch p
  | ORecompute prover key proof => recompute_proof prover key proof
  | ORequestAdjudication key n => request_adjudication key n
  | OAdjudicate origin key v wrong => adjudicate origin key v wrong
  | OForceNeutralize e expected => force_neutralize_expired e expected
  | OCrankProbe now p => let! _ := crank_reserve_probe now p in ret tt
  | OProbeResult now id passed p => reserve_probe_result now id passed p
  | OProbeTimeout now p => crank_probe_timeout now p
  | OMissedProbes n p => modify (note_missed_reserve_probes n p)
  | ONoteRecomputable c v => note_recomputable c v
  end.

(** Unsigned integers are not negative. *)
Definition oracle_call_ok (c : OracleCall) : Prop :=
  match c with
  | OReport i p => 0 <= in_value i /\ 0 <= op_bond_floor p
  | OChallenge _ _ _ v _ | OCounterReport _ _ _ v _ _ | OAdjudicate _ _ v _ => 0 <= v
  | ORecompute _ _ proof => Forall (fun b => 0 <= b) proof
  | OMissedProbes n _ => 0 <= n
  | _ => True
  end.

Definition oracle_step (c : OracleCall) (o o' : Oracle) : Prop := oracle_call_ok c /\ oracle_exec c o = (Ok tt, o').

Definition oracle_next (o o' : Oracle) : Prop := exists c, oracle_step c o o'.

Definition oracle_reachable (o : Oracle) : Prop := rtc oracle_next oracle_default o.

(** ** Bonds *)

Lemma pow2_shift n : 0 <= n -> Z.shiftl 1 n = 2 ^ n.
Proof. intros. rewrite Z.shiftl_mul_pow2 by done. lia. Qed.

Lemma stored_round_bond_Ok b1 n cap b :
  stored_round_bond b1 n cap = Ok b <->
  ORC_ROUND_CAP_MIN <= cap <= ORC_ROUND_CAP_MAX /\ 1 <= n <= cap /\ b = b1 * 2 ^ (n - 1) /\ b1 * 2 ^ (n - 1) < U128.
Proof.
  unfold stored_round_bond, within, checked_shl_one, ORC_ROUND_CAP_MIN, ORC_ROUND_CAP_MAX. split.
  - intros H. inv_all. to_prop. assert (sat_sub n 1 = n - 1) as E by (unfold sat_sub; lia). rewrite E in *.
    destruct (n - 1 <? 128) eqn:En; [|done]. simplify_eq. rewrite pow2_shift in * by lia. split_and!; lia.
  - intros (Hc & Hn & -> & Hb). rewrite !ensure_true by (apply andb_true_intro; split; apply Z.leb_le; lia). cbn [rbind].
    replace (sat_sub n 1) with (n - 1) by (unfold sat_sub; lia). rewrite (proj2 (Z.ltb_lt _ _)) by lia. cbn [ok_or rbind].
    rewrite pow2_shift by lia. apply ok_or_Ok, checked_mul_Some. lia.
Qed.

Lemma ladder_next b1 n : 0 <= n -> ladder b1 (n + 1) = ladder b1 n + b1 * 2 ^ n.
Proof. intros. unfold ladder. rewrite Z.pow_add_r by lia. lia. Qed.

Lemma ladder_prev b1 n : 1 <= n -> ladder b1 n = ladder b1 (n - 1) + b1 * 2 ^ (n - 1).
Proof. intros. rewrite <- ladder_next by lia. f_equal. lia. Qed.

Lemma round_bond_nonneg stake n p b : round_bond stake n p = Ok b -> 0 <= op_bond_floor p -> 0 <= b.
Proof.
  unfold round_bond, checked_shl_one. intros H Hf. inv_all. destruct (_ <? 128) eqn:E; [|done]. simplify_eq.
  rewrite pow2_shift by (unfold sat_sub; lia). apply Z.mul_nonneg_nonneg; [lia|apply Z.pow_nonneg; lia].
Qed.

(** ** The games *)

Lemma report_keeps i p o u o' :
  report i p o = (Ok u, o') -> 0 <= in_value i -> 0 <= op_bond_floor p -> games_ok o -> games_ok o' /\ frame o o'.
Proof.
  intros H Hv Hf Hg. unfold report in H. inv_all. to_prop.
  match goal with H : stored_round_bond _ _ _ = Ok _ |- _ => apply stored_round_bond_Ok in H as (Hc & Hn & -> & Hb) end.
  match goal with H : round_bond _ _ _ = Ok ?b |- _ => pose proof (round_bond_nonneg _ _ _ _ H Hf) end.
  split; [|done].
  match goal with H : is_none (find_round ?k o) = true |- _ =>
    assert (k ∉ keys round_key (oc_rounds o)) as Hk
      by (apply find_round_None; destruct (find_round k o); [discriminate H|done]) end.
  match goal with H : has_value _ _ = false |- _ => apply has_value_false in H; rename H into Hfv end.
  match goal with H : (_ <? _)%nat = true |- _ => apply Nat.ltb_lt in H; rename H into Hlen end.
  eapply (games_open o); [exact Hg| | | | | |reflexivity|reflexivity|done..]; try done.
  split; cbn; unfold ladder; rewrite ?Z.pow_0_r; try done; try lia. intros [?|?]; [done|lia].
Qed.

(** The round a call works on. *)
Lemma found_round key o i r : find_round key o = Some i -> round_at i o = Ok r -> oc_rounds o !! i = Some r /\ round_key r = key.
Proof.
  intros (q & Hq & Hk)%find_round_Some H. unfold round_at in H. inv_all. simplify_eq. done.
Qed.

Ltac the_round :=
  match goal with
  | Hf : find_round ?key ?o = Some ?i, Hr : round_at ?i ?o = Ok ?r |- _ =>
      let Hi := fresh "Hi" in let Hk := fresh "Hk" in
      destruct (found_round key o i r Hf Hr) as [Hi Hk]
  end.

Lemma challenge_keeps who now key v h o u o' :
  oracle_challenge who now key v h o = (Ok u, o') -> 0 <= v -> games_ok o -> games_ok o' /\ frame o o'.
Proof.
  intros H Hv Hg. unfold oracle_challenge in H. inv_all. to_prop. the_round. split; [|done].
  match goal with H : is_none _ = true |- _ => rename H into Hcv end.
  match goal with Hi : oc_rounds o !! ?i = Some ?r |- _ =>
    eapply (games_rewrite o _ i r (set_challenger_bond (rd_cumulative_challenger_bond r + rd_bond r) ∘ take_challenge who v));
      [done..| | |done|done|done|done]; [|cbn; by rewrite list_alter_alter_eq] end.
  intros s _ []. destruct (rd_counter_value _) eqn:Ec; [done|].
  split; cbn; try done; try lia; [|intros ? [= <-]; lia].
  rewrite ro_challenger_bonds, ro_bond. symmetry. apply ladder_prev. lia.
Qed.

Lemma counter_report_keeps who now key v h p o u o' :
  counter_report who now key v h p o = (Ok u, o') -> 0 <= v -> games_ok o -> games_ok o' /\ frame o o'.
Proof.
  intros H Hv Hg. unfold counter_report in H. inv_all. to_prop. the_round. split; [|done]. subst key.
  match goal with H : stored_round_bond _ _ _ = Ok _ |- _ => apply stored_round_bond_Ok in H as (Hc & Hn & -> & Hb) end.
  match goal with H : negb _ = true |- _ => rename H into Hcv | H : is_none _ = false |- _ => rename H into Hcv end.
  match goal with H : round_schedule _ o = Ok _ |- _ => rename H into Hs end.
  match goal with H : oc_rounds o !! ?i = Some ?r, H' : round_schedule _ o = Ok ?s |- _ =>
    eapply (games_update o _ i r (set_reporter_bond (rd_cumulative_reporter_bond r + rs_round_one_bond s * 2 ^ (rd_round r + 1 - 1))
      ∘ next_report (rd_round r + 1) v h _ _ _)); [done|done|done| | | | | |cbn; by rewrite list_alter_alter_eq|done..]
  end.
  - intros s' Hs' []. rewrite Hs in Hs'. injection Hs' as <-. destruct (rd_counter_value _) eqn:Ec; [|done].
    split; cbn; try done; try lia.
    + rewrite ro_reporter_bonds, ladder_next by lia. do 3 f_equal. lia.
    + rewrite ro_challenger_bonds. f_equal. lia.
    + intros _. apply ro_challenger. by left.
  - apply NoDup_filter, Hg.
  - intros a [Hne Ha]%list_elem_of_filter. by left.
  - intros q Hq. by apply acks_for_drop.
  - cbn. unfold acks_for. rewrite filter_all_false; [done|]. intros a [Hne Ha]%list_elem_of_filter (E & _). by apply Hne.
Qed.

(** An acknowledgement, apart from the liveness mark. *)
Lemma ack_keeps who now key n h o u o' :
  oracle_ack_observed who now key n h o = (Ok u, o') -> games_ok o ->
  is_watchtower who o = true /\ exists o1, o' = mark_watchtower_active who o1 /\ games_ok o1 /\ frame o o1.
Proof.
  intros H Hg. unfold oracle_ack_observed in H. inv_all. to_prop. the_round. subst n h key. split; [done|].
  eexists. split; [reflexivity|]. split; [|done].
  match goal with H : oc_rounds o !! ?i = Some ?r |- _ => rename H into Hi; rename r into r0; rename i into i0 end.
  match goal with H : _ ∉ oc_ack_records o |- _ => rename H into Hfr end.
  set (a := {| ac_key := _; ac_round := _; ac_who := _; ac_hash := _ |}) in *.
  assert (ack_counts r0 a) as Ha by done.
  eapply (games_update o _ i0 r0 ack_round (oc_ack_records o ++ [a])); try done.
  - intros s _ []. by split.
  - apply NoDup_app. split_and!; [apply Hg| |apply NoDup_singleton]. by intros b Hb ->%list_elem_of_singleton.
  - intros b [Hb| ->%list_elem_of_singleton]%elem_of_app; [|by right].
    destruct (decide (ac_key b = round_key r0)) as [E|]; [right|by left].
    exact (live_ack_round o r0 b Hg Hb (round_lookup_elem _ _ _ Hi) E).
  - intros q Hq. rewrite acks_for_app, decide_False, app_nil_r; [done|]. intros (E & _). by apply Hq.
  - rewrite (acks_for_same r0) by done. rewrite acks_for_app, decide_True, length_app by done. cbn [ack_round rd_acks].
    rewrite (ga_count _ Hg r0) by (by eapply round_lookup_elem). unfold sat_add. cbn [length]. lia.
Qed.

(** ** Closing *)

Ltac split_settle Hg :=
  match goal with
  | H : settle_at _ _ _ _ _ ?o = (Ok _, _) |- _ => apply (settle_at_Ok _ _ _ _ _ o _ _ Hg) in H as (? & ? & -> & ?)
  end.

(** What one iteration of the closing crank does to the game at index [i]. *)
Inductive closing (now : BlockNumber) (p : OracleParams) (i : nat) (o : Oracle) : nat -> bool -> Oracle -> Prop :=
| closing_skip b : closing now p i o (S i) b o
| closing_extend r o' :
    oc_rounds o !! i = Some r -> rd_challenge_deadline r <= now -> rd_counter_value r = None ->
    rd_acks r < op_watchtower_quorum p -> rd_extended r = false -> round_key r ∉ oc_money_settled o ->
    o' = oc_push (OcWindowExtended (rd_component r) (rd_epoch r) (rd_round r) (sat_add U32 now ORC_EXT_WINDOW_BLOCKS))
          (update_round i (fun r => {| r with rd_extended := true;
             rd_challenge_deadline := sat_add U32 now ORC_EXT_WINDOW_BLOCKS |}) o) ->
    closing now p i o (S i) true o'
| closing_neutral r v evs :
    oc_rounds o !! i = Some r -> rd_challenge_deadline r <= now -> rd_counter_value r = None ->
    rd_acks r < op_watchtower_quorum p -> rd_extended r = true -> round_key r ∉ oc_money_settled o ->
    carried (rd_component r) (rd_epoch r) v o -> (length (oc_component_values o) < MAX_COMPONENT_VALUES)%nat ->
    closing now p i o i true (set_oc_events evs (set_money_settled (oc_money_settled o ++ [round_key r])
      (put_value (round_key r) (neutral v) o)))
| closing_quorum r :
    oc_rounds o !! i = Some r -> rd_challenge_deadline r <= now -> rd_counter_value r = None ->
    op_watchtower_quorum p <= rd_acks r -> round_key r ∉ oc_money_settled o ->
    (has_value (round_key r) o = false -> (length (oc_component_values o) < MAX_COMPONENT_VALUES)%nat) ->
    closing now p i o i true (settled i r (rd_value r) Unchallenged false true o)
| closing_default r s v :
    oc_rounds o !! i = Some r -> rd_challenge_deadline r <= now -> rd_counter_value r = Some v ->
    round_schedule (round_key r) o = Ok s -> rd_round r < rs_round_cap s -> round_key r ∉ oc_money_settled o ->
    (has_value (round_key r) o = false -> (length (oc_component_values o) < MAX_COMPONENT_VALUES)%nat) ->
    closing now p i o i true (settled i r v ChallengerDefault false false o)
| closing_retained r v path wins :
    oc_rounds o !! i = Some r -> round_key r ∈ oc_money_settled o ->
    (rd_counter_value r = None /\ v = rd_value r /\ wins = true
     \/ rd_counter_value r = Some v /\ wins = false
        /\ exists s, round_schedule (round_key r) o = Ok s /\ rd_round r < rs_round_cap s) ->
    (has_value (round_key r) o = false -> (length (oc_component_values o) < MAX_COMPONENT_VALUES)%nat) ->
    closing now p i o i true (settled i r v path true wins o).

Lemma close_one_Ok now p i o i' b o' :
  games_ok o -> close_one now p i o = (Ok (i', b), o') -> closing now p i o i' b o'.
Proof.
  intros Hg H. unfold close_one in H. inv_step H. inv_step H.
  match goal with H : lift (round_at _ _) _ = _ |- _ => inv_step H end.
  match goal with H : round_at _ _ = Ok ?r |- _ => unfold round_at in H; inv_all; rename H into Hi; rename r into r0 end.
  destruct (bool_decide (round_key r0 ∈ oc_money_settled o)) eqn:Em; to_prop.
  - inv_step H. destruct (rd_counter_value r0) as [v|] eqn:Ec.
    + inv_all. destruct x; inv_all; [split_settle Hg|by (simplify_eq; constructor)]. simplify_eq.
      eapply closing_retained; [done..| |done]. right. split_and!; [done..|]. eexists. split; [done|]. by apply Z.ltb_lt.
    + inv_all. split_settle Hg. simplify_eq. eapply closing_retained; [done..| |done]. by left.
  - destruct (now <? rd_challenge_deadline r0) eqn:Ed; to_prop; [inv_all; by (simplify_eq; constructor)|].
    inv_step H. destruct (rd_counter_value r0) as [v|] eqn:Ec.
    + destruct (rd_round r0 <? _) eqn:El; inv_all; to_prop; [split_settle Hg|]; [|by (simplify_eq; constructor)]. simplify_eq.
      by eapply closing_default.
    + destruct (op_watchtower_quorum p <=? rd_acks r0) eqn:Eq; to_prop; [inv_all; split_settle Hg; simplify_eq; by eapply closing_quorum|].
      destruct (rd_extended r0) eqn:Ex; cbn [negb] in H.
      * inv_all. match goal with H : neutral_at _ _ _ _ = _ |- _ => apply neutral_at_Ok in H as (q & Hq & [[Hin _]|(_ & Hlen & evs & ->)]) end.
        -- exfalso. cbn in Hq, Hin. simplify_eq. done.
        -- cbn in Hq, Hlen. simplify_eq. cbn. eapply (closing_neutral now p i o r0 _ evs); try done. exact (last_valid_carried _ _ o).
      * inv_all. simplify_eq. by eapply closing_extend.
Qed.

Lemma round_value_range o i r : games_ok o -> oc_rounds o !! i = Some r -> exists s,
  round_schedule (round_key r) o = Ok s /\ round_ok r s /\ 0 <= rd_value r <= COMPONENT_VALUE_MAX
  /\ forall v, rd_counter_value r = Some v -> 0 <= v <= COMPONENT_VALUE_MAX.
Proof. intros Hg Hi. destruct (round_has_schedule o i r Hg Hi) as (s & _ & ? & _ & Hro).
  exists s. split_and!; [done|done|apply Hro..]. Qed.

Lemma open_game_no_value o i r :
  games_ok o -> oc_rounds o !! i = Some r -> round_key r ∉ oc_money_settled o -> round_key r ∉ keys fst (oc_component_values o).
Proof.
  intros Hg Hi Hm Hv. apply Hm, (ga_shadow _ Hg); [|done]. apply elem_of_keys. exists r. split; [by eapply round_lookup_elem|done].
Qed.

Lemma carried_range c e v o : games_ok o -> carried c e v o -> 0 <= v <= COMPONENT_VALUE_MAX.
Proof. intros Hg [->|(w & Hw & _ & ->)]; [split; vm_compute; discriminate|by apply Hg]. Qed.

Lemma neutral_ok o i r v evs :
  games_ok o -> oc_rounds o !! i = Some r -> round_key r ∉ oc_money_settled o ->
  (length (oc_component_values o) < MAX_COMPONENT_VALUES)%nat -> 0 <= v <= COMPONENT_VALUE_MAX ->
  games_ok (set_oc_events evs (set_money_settled (oc_money_settled o ++ [round_key r]) (put_value (round_key r) (neutral v) o)))
  /\ frame o (set_oc_events evs (set_money_settled (oc_money_settled o ++ [round_key r]) (put_value (round_key r) (neutral v) o))).
Proof.
  intros Hg Hi Hm Hlen Hv. split; [|done]. eapply games_ok_ext; [eapply (games_neutral o (round_key r) (neutral v) Hg)|..]; try done.
  - by eapply open_game_no_value.
  - apply elem_of_keys. exists r. split; [by eapply round_lookup_elem|done].
Qed.

Lemma closing_keeps now p i o i' b o' : games_ok o -> closing now p i o i' b o' -> games_ok o' /\ frame o o'.
Proof.
  intros Hg Hc. destruct Hc as [b|r o' Hi|r v evs Hi ? ? ? ? Hm Hv Hlen|r Hi|r s v Hi ? Hcv|r v path wins Hi Hm Hcase Hlen].
  - done.
  - subst o'. split; [|done]. by eapply (games_rewrite o _ i r); [..|cbn; done|done|done|done|done]; [..|intros s _ []; split].
  - eapply neutral_ok; try done. by eapply carried_range.
  - destruct (round_value_range _ _ _ Hg Hi) as (_ & _ & _ & ? & _). by apply settled_ok.
  - destruct (round_value_range _ _ _ Hg Hi) as (_ & _ & _ & _ & Hr). apply settled_ok; auto.
  - destruct (round_value_range _ _ _ Hg Hi) as (_ & _ & _ & Hv & Hr). apply settled_ok; [done..| |done].
    destruct Hcase as [(_ & -> & _)|(? & _ & _)]; auto.
Qed.

(** What every iteration keeps, a successful crank keeps. *)
Lemma close_loop_ind (P : nat -> Oracle -> Prop) now p batch :
  (forall i o i' b o', games_ok o -> closing now p i o i' b o' -> P i o -> P i' o') ->
  forall fuel i n o u o', close_loop fuel now p batch i n o = Some (Ok u, o') -> games_ok o -> P i o ->
  games_ok o' /\ exists i', P i' o'.
Proof.
  intros HP. induction fuel as [|fuel IH]; intros i n o u o' H Hg Hi; cbn [close_loop] in H.
  - destruct (_ && _); [done|]. simplify_eq. eauto.
  - destruct (_ && _); [|simplify_eq; eauto]. destruct (close_one now p i o) as [[[i1 b]|e] o1] eqn:E; [|done].
    apply close_one_Ok in E; [|done]. eapply IH; [exact H|by eapply closing_keeps|by eapply HP].
Qed.

Lemma crank_ind (P : nat -> Oracle -> Prop) now p batch o u o' :
  (forall i o i' b o', games_ok o -> closing now p i o i' b o' -> P i o -> P i' o') ->
  crank_round_close now batch p o = (Ok u, o') -> games_ok o -> P 0%nat o -> games_ok o' /\ exists i', P i' o'.
Proof.
  intros HP H Hg H0. unfold crank_round_close in H. destruct (close_loop _ _ _ _ _ _ _) as [[r o1]|] eqn:E.
  - simplify_eq. by eapply (close_loop_ind P).
  - simplify_eq. eauto.
Qed.

Lemma crank_keeps now batch p o u o' : crank_round_close now batch p o = (Ok u, o') -> games_ok o -> games_ok o' /\ frame o o'.
Proof.
  intros H Hg. edestruct (crank_ind (fun _ o1 => frame o o1)) as [? [_ ?]]; [|exact H|done|done|done].
  intros i o1 i' b o2 Hg1 Hc Hf. etrans; [exact Hf|]. by eapply closing_keeps.
Qed.

(** ** Verdicts and the money deadline *)

Lemma offense_games who o : games_ok o -> games_ok (record_offense who o).
Proof.
  intros Hg. unfold record_offense. destruct (find_key fst who _) as [[? info]|]; [|done].
  destruct (_ =? 2), (3 <=? _); by eapply games_ok_ext.
Qed.

Lemma offense_roster who o : roster_ok o -> roster_ok (record_offense who o).
Proof.
  intros [Hr Hl Ht Htl Ha Hai]. unfold record_offense. destruct (find_key fst who _) as [[? info]|]; [|done].
  set (l1 := alter_key fst who _ (oc_reporters o)).
  assert (keys fst l1 = keys fst (oc_reporters o)) as E1 by (by apply keys_alter).
  assert (length l1 = length (oc_reporters o)) as L1 by apply length_alter_key.
  assert (forall l : list (AccountId * ReporterInfo), keys fst l = keys fst (oc_reporters o) -> length l = length (oc_reporters o) ->
    NoDup (keys fst l) /\ (length l <= MAX_REPORTERS)%nat
    /\ NoDup (keys fst (filter (fun a => a.1 <> who) l)) /\ (length (filter (fun a => a.1 <> who) l) <= MAX_REPORTERS)%nat) as Hk.
  { intros l E L. rewrite E, L. split_and!; [done|done|apply keys_filter_NoDup; by rewrite E|].
    pose proof (length_filter (fun a => a.1 <> who) l). lia. }
  destruct (Hk l1 E1 L1) as (A1 & A2 & A3 & A4).
  destruct (Hk (alter_key fst who (fun a => (a.1, cut_stake (ceil_div (rp_stake info) 2) a.2)) l1)) as (B1 & B2 & B3 & B4).
  { rewrite keys_alter by done. done. }
  { by rewrite length_alter_key. }
  destruct (_ =? 2), (3 <=? _); by split.
Qed.

Lemma offense_health who o : oc_reserve_health (record_offense who o) = oc_reserve_health o.
Proof. unfold record_offense. destruct (find_key _ _ _) as [[? ?]|]; [|done]. by destruct (_ =? 2), (3 <=? _). Qed.

(** A verdict on the round at [i], after a possible offense. *)
Definition verdict_pre (wrong : bool) (r : RoundState) (o : Oracle) : Oracle :=
  if wrong then record_offense (rd_reporter r) o else o.

Lemma verdict_keeps i value path flagged wins wrong r e o u o' :
  settle_at i value path flagged wins (oc_push e (verdict_pre wrong r o)) = (Ok u, o') -> oracle_ok o ->
  0 <= value <= COMPONENT_VALUE_MAX -> oracle_ok o'.
Proof.
  intros H [Hg Hr Hp] Hv.
  assert (games_ok (oc_push e (verdict_pre wrong r o))) as Hg1.
  { apply (games_ok_ext (verdict_pre wrong r o)); [|done..]. destruct wrong; [by apply offense_games|done]. }
  apply settle_at_Ok in H as (q & Hq & -> & Hlen); [|done].
  destruct (settled_ok i q value path flagged wins _ Hg1 Hq Hv Hlen) as [Hg2 [F1 F2 F3 F4]].
  assert (roster_ok (verdict_pre wrong r o)) as Hr1 by (destruct wrong; [by apply offense_roster|done]).
  split; [done|by apply (roster_ok_ext (verdict_pre wrong r o))|]. rewrite F4. destruct wrong; cbn; [by rewrite offense_health|done].
Qed.

Lemma recompute_value_range proof v :
  Forall (fun b => 0 <= b) proof -> recompute_value proof = Ok v -> 0 <= v <= COMPONENT_VALUE_MAX.
Proof.
  intros Hb H. unfold recompute_value in H. inv_all. to_prop.
  destruct (8 <=? length proof)%nat; [|done]. simplify_eq. split; [|done].
  pose proof (Forall_take _ 8 _ Hb) as Ht. revert Ht. generalize (take 8 proof). intros l. unfold from_le_bytes.
  induction 1; cbn [fold_right]; lia.
Qed.

Lemma offense_if (b : bool) who o u o' :
  (if b then record_reporter_offense who else ret tt) o = (Ok u, o') -> o' = if b then record_offense who o else o.
Proof. unfold record_reporter_offense. destruct b; intros H; inv_all; done. Qed.

Lemma recompute_keeps prover key proof o u o' :
  recompute_proof prover key proof o = (Ok u, o') -> Forall (fun b => 0 <= b) proof -> oracle_ok o -> oracle_ok o'.
Proof.
  intros H Hb Ho. unfold recompute_proof in H. inv_all. to_prop. the_round.
  match goal with H : (if _ then record_reporter_offense _ else _) _ = _ |- _ => apply offense_if in H; subst end.
  eapply (verdict_keeps _ _ _ _ _ (negb (_ =? rd_value _))); [exact H|done|]. by eapply recompute_value_range.
Qed.

Lemma adjudicate_keeps origin key value wrong o u o' :
  adjudicate origin key value wrong o = (Ok u, o') -> 0 <= value -> oracle_ok o -> oracle_ok o'.
Proof.
  intros H Hv Ho. unfold adjudicate in H. inv_all. to_prop. the_round.
  match goal with H : (if _ then record_reporter_offense _ else _) _ = _ |- _ => apply offense_if in H; subst end.
  by eapply (verdict_keeps _ _ _ _ _ wrong); [exact H|..].
Qed.

Lemma for_each_st_keeps {S E A} (f : A -> ST S E unit) (P : S -> Prop) l s u s' :
  for_each_st f l s = (Ok u, s') -> (forall x s u s', x ∈ l -> P s -> f x s = (Ok u, s') -> P s') -> P s -> P s'.
Proof.
  revert s. induction l as [|x l IH]; intros s H Hf Hs; cbn in H; [by inv_all|]. inv_all.
  eapply IH; [exact H| |]; [intros; eapply Hf; [by right|done..]|]. eapply Hf; [by left|exact Hs|done].
Qed.

Definition put_ok (o o' : Oracle) : Prop := games_ok o -> games_ok o' /\ frame o o'.

(** The two loops of the money deadline. *)
Definition neutralize_round (epoch : EpochId) (key : RoundKey) : OM unit :=
  let! o := get in
  match find_round key o with
  | Some idx => neutral_at idx (last_valid_value (rk_component key) epoch o) 1
  | None => ret tt
  end.

Definition neutralize_missing (epoch : EpochId) (cv : MetricId * MetricSpecVersion) : OM unit :=
  let! o := get in
  if negb (has_value (cv.1, epoch, cv.2) o) then neutral_no_report cv.1 epoch cv.2 else ret tt.

Lemma force_neutralize_unfold epoch expected o :
  force_neutralize_expired epoch expected o =
  (do! for_each_st (neutralize_round epoch) (round_key <$> filter (fun r => rd_epoch r = epoch) (oc_rounds o)) in
   for_each_st (neutralize_missing epoch) expected) o.
Proof. done. Qed.

(** What the deadline does to one game: nothing, or a neutral value, and then
    the round is retained. *)
Lemma neutralize_round_Ok epoch key o u o' :
  neutralize_round epoch key o = (Ok u, o') ->
  o' = o /\ (key ∈ keys round_key (oc_rounds o) -> key ∈ oc_money_settled o)
  \/ exists i r evs, oc_rounds o !! i = Some r /\ round_key r = key /\ key ∉ oc_money_settled o
      /\ (length (oc_component_values o) < MAX_COMPONENT_VALUES)%nat
      /\ o' = set_oc_events evs (set_money_settled (oc_money_settled o ++ [key])
                (put_value key (neutral (last_valid_value (rk_component key) epoch o)) o)).
Proof.
  unfold neutralize_round. intros H. inv_step H. destruct (find_round key o) as [i|] eqn:Ef.
  - apply find_round_Some in Ef as (r & Hi & <-).
    apply neutral_at_Ok in H as (q & Hq & [[Hm ->]|(Hm & Hlen & evs & ->)]); rewrite Hi in Hq; injection Hq as <-.
    + by left.
    + right. exists i, r, evs. done.
  - inv_all. left. split; [done|]. intros Hk. by apply find_round_None in Ef.
Qed.

Lemma neutralize_missing_Ok epoch cv o u o' :
  neutralize_missing epoch cv o = (Ok u, o') ->
  o' = o /\ (cv.1, epoch, cv.2) ∈ keys fst (oc_component_values o)
  \/ exists evs, (cv.1, epoch, cv.2) ∉ keys fst (oc_component_values o)
      /\ (length (oc_component_values o) < MAX_COMPONENT_VALUES)%nat
      /\ o' = set_oc_events evs (put_value (cv.1, epoch, cv.2) (neutral (last_valid_value cv.1 epoch o))
                (drop_acks (cv.1, epoch, cv.2) o)).
Proof.
  unfold neutralize_missing. intros H. inv_step H. destruct (has_value _ o) eqn:Ev; cbn [negb] in H.
  - inv_all. left. split; [done|]. by apply has_value_iff.
  - apply neutral_no_report_Ok in H as (? & evs & ->). right. exists evs. split; [by apply has_value_false|done].
Qed.

Lemma drop_acks_none k o : games_ok o -> k ∉ keys round_key (oc_rounds o) -> drop_acks k o = o.
Proof.
  intros Hg Hk. unfold drop_acks. rewrite filter_all_true; [by destruct o|]. intros a Ha E.
  destruct (ga_acks_live _ Hg a Ha) as (r & Hr & E' & _). apply Hk, elem_of_keys. exists r. split; [done|congruence].
Qed.

Lemma neutralize_round_keeps epoch key o u o' :
  neutralize_round epoch key o = (Ok u, o') -> games_ok o ->
  games_ok o' /\ frame o o' /\ oc_rounds o' = oc_rounds o /\ (key ∈ keys round_key (oc_rounds o) -> key ∈ oc_money_settled o')
  /\ forall k, k ∈ oc_money_settled o -> k ∈ oc_money_settled o'.
Proof.
  intros H Hg. apply neutralize_round_Ok in H as [[-> Hk]|(i & r & evs & Hi & <- & Hm & Hlen & ->)]; [done|].
  destruct (neutral_ok o i r (last_valid_value (rk_component (round_key r)) epoch o) evs Hg Hi Hm Hlen) as [Hg' Hf];
    [by apply last_valid_range|].
  split_and!; [done|done|done|intros _; apply elem_of_app; right; left|]. intros k Hk. cbn. apply elem_of_app. by left.
Qed.

Definition deadline_done (epoch : EpochId) (o : Oracle) : Prop :=
  forall k, k ∈ keys round_key (oc_rounds o) -> rk_epoch k = epoch -> k ∈ keys fst (oc_component_values o).

Lemma neutralize_missing_keeps epoch cv o u o' :
  neutralize_missing epoch cv o = (Ok u, o') -> games_ok o -> deadline_done epoch o ->
  games_ok o' /\ frame o o' /\ deadline_done epoch o' /\ (cv.1, epoch, cv.2) ∈ keys fst (oc_component_values o')
  /\ forall k, k ∈ keys fst (oc_component_values o) -> k ∈ keys fst (oc_component_values o').
Proof.
  intros H Hg Hd. apply neutralize_missing_Ok in H as [[-> ?]|(evs & Hf & Hlen & ->)]; [done|].
  assert ((cv.1, epoch, cv.2) ∉ keys round_key (oc_rounds o)) as Hr by (intros Hr; by apply Hf, Hd).
  rewrite (drop_acks_none _ _ Hg Hr). split_and!; [|done| | |].
  - eapply games_ok_ext; [by apply (games_put o (cv.1, epoch, cv.2) (neutral (last_valid_value cv.1 epoch o)) Hg Hf Hr Hlen), last_valid_range|done..].
  - intros k Hk E. cbn -[keys]. rewrite keys_app, elem_of_app. left. by apply Hd.
  - cbn -[keys]. rewrite keys_app, elem_of_app. right. left.
  - intros k Hk. cbn -[keys]. rewrite keys_app, elem_of_app. by left.
Qed.

(** After the first loop no round of the epoch holds money open. *)
Lemma first_loop epoch ks o u o' :
  for_each_st (neutralize_round epoch) ks o = (Ok u, o') -> games_ok o ->
  games_ok o' /\ frame o o' /\ oc_rounds o' = oc_rounds o
  /\ (forall k, k ∈ ks -> k ∈ keys round_key (oc_rounds o) -> k ∈ oc_money_settled o')
  /\ forall k, k ∈ oc_money_settled o -> k ∈ oc_money_settled o'.
Proof.
  revert o. induction ks as [|k ks IH]; intros o H Hg; cbn in H; inv_all.
  - split_and!; try done. by intros k ?%elem_of_nil.
  - match goal with H : neutralize_round _ _ _ = (Ok ?v, ?o1) |- _ =>
      destruct (neutralize_round_keeps _ _ _ _ _ H Hg) as (G1 & F1 & R1 & K1 & M1) end.
    edestruct IH as (G2 & F2 & R2 & K2 & M2); [exact H|done|]. rewrite R1 in R2, K2.
    split_and!; [done|by etrans|done| |auto]. intros k' [->|Hk']%elem_of_cons Hin; auto.
Qed.

Lemma second_loop epoch cvs o u o' :
  for_each_st (neutralize_missing epoch) cvs o = (Ok u, o') -> games_ok o -> deadline_done epoch o ->
  games_ok o' /\ frame o o' /\ deadline_done epoch o'
  /\ (forall cv, cv ∈ cvs -> (cv.1, epoch, cv.2) ∈ keys fst (oc_component_values o'))
  /\ forall k, k ∈ keys fst (oc_component_values o) -> k ∈ keys fst (oc_component_values o').
Proof.
  revert o. induction cvs as [|cv cvs IH]; intros o H Hg Hd; cbn in H; inv_all.
  - split_and!; try done. by intros k ?%elem_of_nil.
  - match goal with H : neutralize_missing _ _ _ = (Ok ?v, ?o1) |- _ =>
      destruct (neutralize_missing_keeps _ _ _ _ _ H Hg Hd) as (G1 & F1 & D1 & K1 & M1) end.
    edestruct IH as (G2 & F2 & D2 & K2 & M2); [exact H|done|done|].
    split_and!; [done|by etrans|done| |auto]. intros cv' [->|Hin]%elem_of_cons; auto.
Qed.

Lemma force_neutralize_keeps epoch expected o u o' :
  force_neutralize_expired epoch expected o = (Ok u, o') -> games_ok o ->
  games_ok o' /\ frame o o' /\ deadline_done epoch o'
  /\ forall cv, cv ∈ expected -> (cv.1, epoch, cv.2) ∈ keys fst (oc_component_values o').
Proof.
  rewrite force_neutralize_unfold. intros H Hg. inv_all.
  match goal with H : for_each_st (neutralize_round _) _ _ = _ |- _ =>
    destruct (first_loop _ _ _ _ _ H Hg) as (G1 & F1 & R1 & K1 & _) end.
  edestruct second_loop as (G2 & F2 & D2 & K2 & _); [exact H|done| |split_and!; [done|by etrans|done|done]].
  intros k Hk Ek. rewrite R1 in Hk. apply (ga_money_in _ G1), K1; [|done].
  apply elem_of_keys in Hk as (r & Hr & <-). apply list_elem_of_fmap_2, list_elem_of_filter. done.
Qed.

(** ** Registrations and the sweep *)

Lemma mark_active_ok who o :
  games_ok o -> roster_ok o -> who ∈ keys fst (oc_watchtowers o) ->
  games_ok (mark_watchtower_active who o) /\ roster_ok (mark_watchtower_active who o)
  /\ oc_reserve_health (mark_watchtower_active who o) = oc_reserve_health o.
Proof.
  intros Hg [Hr Hl Ht Htl Ha Hai] Hw. unfold mark_watchtower_active. destruct (bool_decide _) eqn:E; [done|]. to_prop. cbn [negb].
  split_and!; [by eapply games_ok_ext| |done]. split; try done; cbn -[keys].
  - apply NoDup_app. split_and!; [done| |apply NoDup_singleton]. by intros w Hw' ->%list_elem_of_singleton.
  - intros w [?| ->%list_elem_of_singleton]%elem_of_app; auto.
Qed.

Lemma register_reporter_keeps who now p o u o' : register_reporter who now p o = (Ok u, o') -> oracle_ok o -> oracle_ok o'.
Proof.
  intros H [Hg [Hr Hl Ht Htl Ha Hai] Hp]. unfold register_reporter in H. inv_all. to_prop.
  match goal with H : (_ <? _)%nat = true |- _ => apply Nat.ltb_lt in H end.
  split; [by eapply games_ok_ext| |done]. split; cbn -[keys]; rewrite ?keys_app; try done.
  - apply NoDup_app. split_and!; [done| |apply NoDup_singleton]. intros w Hw ->%list_elem_of_singleton.
    apply is_reporter_iff in Hw. cbn in Hw. congruence.
  - rewrite length_app. cbn. lia.
Qed.

Lemma register_watchtower_keeps who now p o u o' : register_watchtower who now p o = (Ok u, o') -> oracle_ok o -> oracle_ok o'.
Proof.
  intros H [Hg [Hr Hl Ht Htl Ha Hai] Hp]. unfold register_watchtower in H. inv_all. to_prop.
  match goal with H : (_ <? _)%nat = true |- _ => apply Nat.ltb_lt in H end.
  match goal with |- oracle_ok (mark_watchtower_active who ?o1) => destruct (mark_active_ok who o1) as (G & R & E) end.
  - by eapply games_ok_ext.
  - split; cbn -[keys]; rewrite ?keys_app; try done.
    + apply NoDup_app. split_and!; [done| |apply NoDup_singleton]. intros w Hw ->%list_elem_of_singleton.
      apply is_watchtower_iff in Hw. cbn in Hw. congruence.
    + rewrite length_app. cbn. lia.
    + intros w Hw. apply elem_of_app. left. auto.
  - cbn -[keys]. rewrite keys_app. apply elem_of_app. right. left.
  - split; [done|done|]. by rewrite E.
Qed.

Lemma deregister_keeps who o u o' : deregister_reporter who o = (Ok u, o') -> oracle_ok o -> oracle_ok o'.
Proof.
  intros H [Hg [Hr Hl Ht Htl Ha Hai] Hp]. unfold deregister_reporter in H. inv_all.
  split; [by eapply games_ok_ext| |done]. split; cbn -[keys]; try done.
  - rewrite keys_delete. by apply NoDup_delete.
  - etrans; [apply sublist_length, sublist_delete|done].
Qed.

Lemma oracle_ack_observed_keeps who now key n h o u o' : oracle_ack_observed who now key n h o = (Ok u, o') -> oracle_ok o -> oracle_ok o'.
Proof.
  intros H [Hg Hr Hp]. apply ack_keeps in H as (Hw & o1 & -> & Hg1 & [F1 F2 F3 F4]); [|done].
  apply is_watchtower_iff in Hw. destruct (mark_active_ok who o1) as (G & R & E); [done|by eapply roster_ok_ext|by rewrite F2|].
  split; [done|done|]. by rewrite E, F4.
Qed.

Lemma sweep_keeps e had o u o' : sweep_watchtower_liveness e had o = (Ok u, o') -> oracle_ok o -> oracle_ok o'.
Proof.
  intros H [Hg [Hr Hl Ht Htl Ha Hai] Hp]. unfold sweep_watchtower_liveness in H. inv_all.
  match goal with H : for_each_st _ _ ?o1 = (Ok _, ?o2) |- _ =>
    assert (games_ok o2 /\ oc_reporters o2 = oc_reporters o /\ oc_reserve_health o2 = oc_reserve_health o
      /\ NoDup (keys fst (oc_watchtowers o2)) /\ (length (oc_watchtowers o2) <= MAX_WATCHTOWERS)%nat)
      as (G & E1 & E2 & N & L); [revert H|] end.
  - intros H. eapply (for_each_st_keeps _ (fun s => games_ok s /\ oc_reporters s = oc_reporters o
      /\ oc_reserve_health s = oc_reserve_health o /\ NoDup (keys fst (oc_watchtowers s))
      /\ (length (oc_watchtowers s) <= MAX_WATCHTOWERS)%nat)); [exact H| |].
    + intros who s v s' _ (G & E1 & E2 & N & L) Hs. inv_all. split_and!; [by eapply games_ok_ext|done|done| |]; cbn -[keys].
      * by apply keys_filter_NoDup.
      * etrans; [apply length_filter|done].
    + split_and!; [by eapply games_ok_ext|done|done| |]; cbn -[keys].
      * enough (keys fst ((fun s => s.1.1) <$> (sweep_one e had (oc_watchtower_active o) <$> oc_watchtowers o))
          = keys fst (oc_watchtowers o)) as -> by done.
        unfold keys. rewrite <- !list_fmap_compose. apply list_fmap_ext. intros _ [w info] _. cbn. unfold sweep_one. cbn.
        destruct (bool_decide _), had; cbn; try done. by destruct (2 <=? _).
      * by rewrite !length_fmap.
  - split; [by eapply games_ok_ext| |cbn; by rewrite E2]. split; cbn -[keys]; rewrite ?E1; try done; [apply NoDup_nil_2|].
    by intros w ?%elem_of_nil.
Qed.

(** ** The probe *)

Lemma score_fails_health n p o :
  0 <= n -> probe_ok (oc_reserve_health o) -> probe_ok (oc_reserve_health (score_fails n p o)).
Proof.
  intros Hn []. unfold score_fails. destruct (_ && _); split; cbn; unfold sat_add; auto; lia.
Qed.

Lemma score_fails_rest n p o : games_ok o -> roster_ok o -> games_ok (score_fails n p o) /\ roster_ok (score_fails n p o).
Proof. intros. unfold score_fails. destruct (_ && _); (split; [by eapply games_ok_ext|by eapply roster_ok_ext]). Qed.

Lemma probe_result_keeps id passed p o : oracle_ok o -> oracle_ok (apply_probe_result id passed p o).
Proof.
  intros [Hg Hr []]. unfold apply_probe_result.
  set (o1 := set_health _ o). assert (oracle_ok o1) as [G R P].
  { split; [by eapply games_ok_ext|by eapply roster_ok_ext|]. by split. }
  destruct passed.
  - split; [| |].
    + unfold score_pass. destruct (_ && _); by eapply games_ok_ext; [exact G|..].
    + unfold score_pass. destruct (_ && _); by eapply roster_ok_ext; [exact R|..].
    + unfold score_pass. destruct P. destruct (_ && _); split; cbn in *; unfold sat_add; auto; lia.
  - destruct (score_fails_rest 1 p o1 G R). split; [by eapply games_ok_ext|by eapply roster_ok_ext|].
    apply (score_fails_health 1 p o1); [lia|done].
Qed.

Lemma crank_probe_keeps now p o u o' : crank_reserve_probe now p o = (Ok u, o') -> oracle_ok o -> oracle_ok o'.
Proof.
  intros H [Hg Hr []]. unfold crank_reserve_probe in H. inv_all. to_prop.
  split; [by eapply games_ok_ext|by eapply roster_ok_ext|]. split; cbn; auto; lia.
Qed.

(** ** All calls *)

Lemma oracle_step_ok c o o' : oracle_step c o o' -> oracle_ok o -> oracle_ok o'.
Proof.
  intros [Hc H] Ho. pose proof Ho as [Hg Hr Hp].
  assert (forall o', games_ok o' /\ frame o o' -> oracle_ok o') as Hfr.
  { intros o1 [G [F1 F2 F3 F4]]. split; [done|by eapply roster_ok_ext|by rewrite F4]. }
  destruct c; cbn [oracle_exec oracle_call_ok] in *.
  - by eapply register_reporter_keeps.
  - by eapply deregister_keeps.
  - by eapply register_watchtower_keeps.
  - destruct Hc. eapply Hfr. by eapply report_keeps.
  - eapply Hfr. by eapply challenge_keeps.
  - eapply Hfr. by eapply counter_report_keeps.
  - by eapply oracle_ack_observed_keeps.
  - by eapply sweep_keeps.
  - eapply Hfr. by eapply crank_keeps.
  - by eapply recompute_keeps.
  - unfold request_adjudication in H. inv_all. apply Hfr. split; [by eapply games_ok_ext|done].
  - by eapply adjudicate_keeps.
  - eapply Hfr. apply force_neutralize_keeps in H; tauto.
  - inv_all. by eapply crank_probe_keeps.
  - unfold reserve_probe_result in H. inv_all. by apply probe_result_keeps.
  - unfold crank_probe_timeout in H. inv_all. by apply probe_result_keeps.
  - inv_all. unfold note_missed_reserve_probes. destruct (_ =? 0); [done|].
    destruct (score_fails_rest (Z.min missed 255) params o Hg Hr). split; [done|done|]. apply score_fails_health; [lia|done].
  - unfold note_recomputable in H. inv_step H. destruct (existsb _ _); inv_all; [done|].
    apply Hfr. split; [by eapply games_ok_ext|done].
Qed.

Lemma oracle_reachable_ok o : oracle_reachable o -> oracle_ok o.
Proof.
  apply (rtc_ind_r oracle_ok); [apply oracle_default_ok|]. intros o1 o2 _ [c Hs] Ho. by eapply oracle_step_ok.
Qed.

(** ** How a value is earned, and what happens to the bonds

    Each call only appends to the settled values, and an appended value has a
    reason in the state before the call; the bonds of a game are posted by its
    own two parties and leave once, with the round. *)

(** ** Where a settled value comes from *)

(** The reasons, read in the state [o] before the call; a carried value is in
    the table [o'] after it. *)
Inductive earned (o o' : Oracle) : OracleCall -> RoundKey -> SettledComponent -> Prop :=
| earned_quorum now batch p r ws :
    r ∈ oc_rounds o -> rd_counter_value r = None -> rd_challenge_deadline r <= now ->
    NoDup ws -> op_watchtower_quorum p <= Z.of_nat (length ws) ->
    (forall w, w ∈ ws -> {| ac_key := round_key r; ac_round := rd_round r; ac_who := w; ac_hash := rd_report_hash r |}
                         ∈ oc_ack_records o) ->
    earned o o' (OCrankClose now batch p) (round_key r)
      {| sc_value := rd_value r; sc_path := Unchallenged; sc_flagged := false |}
| earned_default now batch p r s v :
    r ∈ oc_rounds o -> rd_counter_value r = Some v -> rd_challenge_deadline r <= now ->
    (round_key r, s) ∈ oc_round_schedules o -> rd_round r < rs_round_cap s ->
    earned o o' (OCrankClose now batch p) (round_key r)
      {| sc_value := v; sc_path := ChallengerDefault; sc_flagged := false |}
| earned_unobserved now batch p r v :
    r ∈ oc_rounds o -> rd_counter_value r = None -> rd_challenge_deadline r <= now ->
    rd_extended r = true -> rd_acks r < op_watchtower_quorum p -> carried (rd_component r) (rd_epoch r) v o' ->
    earned o o' (OCrankClose now batch p) (round_key r) (neutral v)
| earned_recomputed prover proof r v :
    r ∈ oc_rounds o -> (rd_component r, rd_spec_version r) ∈ oc_recomputable_components o ->
    hash_evidence proof = rd_evidence_hash r -> recompute_value proof = Ok v ->
    earned o o' (ORecompute prover (round_key r) proof) (round_key r)
      {| sc_value := v; sc_path := Recomputed; sc_flagged := false |}
| earned_adjudicated r s cv v wrong :
    r ∈ oc_rounds o -> (round_key r, s) ∈ oc_round_schedules o -> rd_round r = rs_round_cap s ->
    rd_counter_value r = Some cv ->
    earned o o' (OAdjudicate OracleResolution (round_key r) v wrong) (round_key r)
      {| sc_value := v; sc_path := PathAdjudicated; sc_flagged := false |}
| earned_deadline epoch expected k v :
    rk_epoch k = epoch -> (k ∈ keys round_key (oc_rounds o) \/ (rk_component k, rk_spec_version k) ∈ expected) ->
    carried (rk_component k) epoch v o' ->
    earned o o' (OForceNeutralize epoch expected) k (neutral v).

(** The table grew by values with a reason. *)
Definition grows (c : OracleCall) (o o1 o' : Oracle) : Prop :=
  exists new, oc_component_values o1 = oc_component_values o ++ new /\ forall k v, (k, v) ∈ new -> earned o o' c k v.

Lemma carried_mono c e v o o' :
  (forall w, w ∈ oc_component_values o -> w ∈ oc_component_values o') -> carried c e v o -> carried c e v o'.
Proof. intros Hi [->|(w & Hw & Hv)]; [by left|right]. exists w. auto. Qed.

Lemma earned_mono c k v o o1 o2 :
  (forall w, w ∈ oc_component_values o1 -> w ∈ oc_component_values o2) -> earned o o1 c k v -> earned o o2 c k v.
Proof. intros Hi []; econstructor; eauto using carried_mono. Qed.

Lemma grows_same c o o1 : oc_component_values o1 = oc_component_values o -> grows c o o1 o1.
Proof. intros E. exists []. rewrite app_nil_r. split; [done|]. by intros ? ? ?%elem_of_nil. Qed.

(** One more value. *)
Lemma grows_snoc c o o1 o2 k v :
  grows c o o1 o1 -> oc_component_values o2 = oc_component_values o1 ++ [(k, v)] -> earned o o2 c k v -> grows c o o2 o2.
Proof.
  intros (new & E & Hn) E2 Hk. exists (new ++ [(k, v)]). rewrite E2, E, <- app_assoc. split; [done|].
  intros k' v' [H|H%list_elem_of_singleton]%elem_of_app; [|by simplify_eq]. eapply earned_mono; [|by apply Hn].
  intros w Hw. rewrite E2. apply elem_of_app. by left.
Qed.

Lemma grows_eq c o o1 o2 : grows c o o1 o1 -> oc_component_values o2 = oc_component_values o1 -> grows c o o2 o2.
Proof.
  intros (new & E & Hn) E2. exists new. split; [congruence|]. intros k v H. eapply earned_mono; [|by apply Hn].
  intros w Hw. by rewrite E2.
Qed.

Lemma settled_values i r v path fl wins o :
  oc_component_values (settled i r v path fl wins o)
  = oc_component_values o ++ (if has_value (round_key r) o then []
      else [(round_key r, {| sc_value := v; sc_path := path; sc_flagged := fl |})]).
Proof. unfold settled. destruct (has_value _ o); cbn; [by rewrite app_nil_r|done]. Qed.

Lemma grows_settled c o o1 i r v path fl wins :
  grows c o o1 o1 ->
  (forall o2, (forall w, w ∈ oc_component_values o1 -> w ∈ oc_component_values o2) ->
     has_value (round_key r) o1 = false -> earned o o2 c (round_key r) {| sc_value := v; sc_path := path; sc_flagged := fl |}) ->
  grows c o (settled i r v path fl wins o1) (settled i r v path fl wins o1).
Proof.
  intros Hg Hk. pose proof (settled_values i r v path fl wins o1) as E. destruct (has_value (round_key r) o1) eqn:Ev.
  - eapply grows_eq; [exact Hg|]. by rewrite E, app_nil_r.
  - eapply grows_snoc; [exact Hg|exact E|]. apply Hk; [|done]. intros w Hw. rewrite E. apply elem_of_app. by left.
Qed.

(** The watchtowers behind a count. *)
Lemma quorum_witnesses o r q :
  games_ok o -> r ∈ oc_rounds o -> q <= rd_acks r -> exists ws, NoDup ws /\ q <= Z.of_nat (length ws)
  /\ forall w, w ∈ ws -> {| ac_key := round_key r; ac_round := rd_round r; ac_who := w; ac_hash := rd_report_hash r |}
                         ∈ oc_ack_records o.
Proof.
  intros Hg Hr Hq. rewrite (ga_count _ Hg r Hr) in Hq. exists (ac_who <$> acks_for r (oc_ack_records o)).
  rewrite length_fmap. split_and!; [|lia|].
  - apply NoDup_fmap_2_strong; [|apply NoDup_filter, Hg].
    intros [] [] [(E1 & E2 & E3) _]%list_elem_of_filter [(F1 & F2 & F3) _]%list_elem_of_filter E. cbn in *. congruence.
  - intros w ([] & -> & [(E1 & E2 & E3) Ha]%list_elem_of_filter)%list_elem_of_fmap. cbn in *. congruence.
Qed.

(** ** The closing crank *)

(** What stays of the starting state [o] as the crank reaches index [i]. *)
Record swept (c : OracleCall) (o : Oracle) (i : nat) (o1 : Oracle) : Prop := {
  sw_rounds : forall j r, (i <= j)%nat -> oc_rounds o1 !! j = Some r -> r ∈ oc_rounds o;
  sw_acks : forall a, a ∈ oc_ack_records o1 -> a ∈ oc_ack_records o;
  sw_schedules : forall s, s ∈ oc_round_schedules o1 -> s ∈ oc_round_schedules o;
  sw_values : grows c o o1 o1;
}.

Lemma swept_settled c o i o1 r v path fl wins :
  swept c o i o1 -> grows c o (settled i r v path fl wins o1) (settled i r v path fl wins o1) ->
  swept c o i (settled i r v path fl wins o1).
Proof.
  intros [H1 H2 H3 H4] Hg. split; [| | |done].
  - intros j q Hj Hq. apply (H1 (S j)); [lia|]. rewrite <- Hq. unfold settled.
    destruct (has_value _ o1); cbn; by rewrite list_lookup_delete_ge.
  - intros a Ha. apply H2. unfold settled in Ha. destruct (has_value _ o1); by apply list_elem_of_filter in Ha as [_ ?].
  - intros s Hs. apply H3. unfold settled in Hs. destruct (has_value _ o1);
      (eapply elem_of_submseteq; [exact Hs|]; apply sublist_submseteq, sublist_delete).
Qed.

Lemma closing_swept now batch p o i o1 i' b o2 :
  games_ok o1 -> closing now p i o1 i' b o2 ->
  swept (OCrankClose now batch p) o i o1 -> swept (OCrankClose now batch p) o i' o2.
Proof.
  intros Hg Hc Hs. pose proof Hs as [H1 H2 H3 H4].
  destruct Hc as [b|r o2 Hi ? ? ? ? ? ->|r v evs Hi Hd Hcv Hq Hx Hm Hv Hlen|r Hi Hd Hcv Hq Hm Hlen
                 |r s v Hi Hd Hcv Hsc Hr Hm Hlen|r v path wins Hi Hm Hcase Hlen].
  - split; [intros j r Hj; apply H1; lia|done..].
  - split; [|done|done|by eapply grows_eq]. intros j q Hj. cbn. rewrite list_lookup_alter_ne by lia. apply H1. lia.
  - split; [done|done|done|]. eapply grows_snoc; [exact H4|reflexivity|].
    apply earned_unobserved; try done; [by eapply H1|]. eapply carried_mono; [|exact Hv].
    intros w Hw. cbn. apply elem_of_app. by left.
  - apply swept_settled; [done|]. apply grows_settled; [done|]. intros o2 _ _.
    destruct (quorum_witnesses o1 r _ Hg (round_lookup_elem _ _ _ Hi) Hq) as (ws & Hn & Hl & Hw).
    eapply earned_quorum; eauto.
  - apply swept_settled; [done|]. apply grows_settled; [done|]. intros o2 _ _.
    eapply earned_default; eauto. by apply H3, round_schedule_Ok.
  - apply swept_settled; [done|]. apply grows_settled; [done|]. intros o2 _ Hf. exfalso.
    apply has_value_false in Hf. by destruct (ga_money_in _ Hg _ Hm).
Qed.

Lemma crank_grows now batch p o u o' :
  crank_round_close now batch p o = (Ok u, o') -> games_ok o -> grows (OCrankClose now batch p) o o' o'.
Proof.
  intros H Hg. edestruct (crank_ind (swept (OCrankClose now batch p) o)) as [_ [i' Hs]]; [|exact H|done| |apply Hs].
  - intros. by eapply closing_swept.
  - split; [|done|done|by apply grows_same]. intros j r _ Hr. by eapply round_lookup_elem.
Qed.

(** ** The money deadline *)

Lemma first_loop_grows epoch expected ks o0 o u o' :
  for_each_st (neutralize_round epoch) ks o = (Ok u, o') ->
  (forall k, k ∈ ks -> k ∈ keys round_key (oc_rounds o0) /\ rk_epoch k = epoch) ->
  grows (OForceNeutralize epoch expected) o0 o o -> grows (OForceNeutralize epoch expected) o0 o' o'.
Proof.
  revert o. induction ks as [|k ks IH]; intros o H Hk Hg; cbn in H; inv_all; [done|].
  eapply IH; [exact H|intros k' Hk'; apply Hk; by right|].
  match goal with H : neutralize_round _ _ _ = _ |- _ => apply neutralize_round_Ok in H as [[-> _]|(i & r & evs & Hi & <- & _ & _ & ->)] end; [done|].
  destruct (Hk (round_key r)) as [Hin He]; [left|]. eapply grows_snoc; [exact Hg|reflexivity|].
  apply earned_deadline; [done|by left|]. eapply carried_mono; [|apply last_valid_carried].
  intros w Hw. cbn. apply elem_of_app. by left.
Qed.

Lemma second_loop_grows epoch expected cvs o0 o u o' :
  for_each_st (neutralize_missing epoch) cvs o = (Ok u, o') -> (forall cv, cv ∈ cvs -> cv ∈ expected) ->
  grows (OForceNeutralize epoch expected) o0 o o -> grows (OForceNeutralize epoch expected) o0 o' o'.
Proof.
  revert o. induction cvs as [|cv cvs IH]; intros o H Hk Hg; cbn in H; inv_all; [done|].
  eapply IH; [exact H|intros k' Hk'; apply Hk; by right|].
  match goal with H : neutralize_missing _ _ _ = _ |- _ => apply neutralize_missing_Ok in H as [[-> _]|(evs & _ & _ & ->)] end; [done|].
  eapply grows_snoc; [exact Hg|reflexivity|].
  apply earned_deadline; [done|right; cbn; rewrite <- surjective_pairing; apply Hk; left|].
  eapply carried_mono; [|apply last_valid_carried]. intros w Hw. cbn. apply elem_of_app. by left.
Qed.

Lemma force_neutralize_grows epoch expected o u o' :
  force_neutralize_expired epoch expected o = (Ok u, o') -> grows (OForceNeutralize epoch expected) o o' o'.
Proof.
  rewrite force_neutralize_unfold. intros H. inv_all. eapply second_loop_grows; [exact H|done|].
  eapply first_loop_grows; [done| |by apply grows_same].
  intros k (r & -> & [<- Hr]%list_elem_of_filter)%list_elem_of_fmap. split; [|done]. apply elem_of_keys. eauto.
Qed.

(** ** Verdicts *)

Lemma verdict_pre_tables wrong r o :
  oc_rounds (verdict_pre wrong r o) = oc_rounds o /\ oc_component_values (verdict_pre wrong r o) = oc_component_values o
  /\ oc_bond_settlements (verdict_pre wrong r o) = oc_bond_settlements o.
Proof.
  unfold verdict_pre, record_offense. destruct wrong; [|done]. destruct (find_key _ _ _) as [[? ?]|]; [|done].
  by destruct (_ =? 2), (3 <=? _).
Qed.

Lemma verdict_games wrong r e o : games_ok o -> games_ok (oc_push e (verdict_pre wrong r o)).
Proof. intros Hg. apply (games_ok_ext (verdict_pre wrong r o)); [|done..]. destruct wrong; [by apply offense_games|done]. Qed.

Lemma verdict_Ok i value path flagged wins wrong r e o u o' :
  settle_at i value path flagged wins (oc_push e (verdict_pre wrong r o)) = (Ok u, o') -> games_ok o ->
  oc_rounds o !! i = Some r -> o' = settled i r value path flagged wins (oc_push e (verdict_pre wrong r o)).
Proof.
  intros H Hg Hi. apply settle_at_Ok in H as (q & Hq & -> & _); [|by apply verdict_games].
  cbn in Hq. destruct (verdict_pre_tables wrong r o) as (E & _ & _). rewrite E in Hq. by simplify_eq.
Qed.

Lemma verdict_grows c i value path wins wrong r e o u o' :
  settle_at i value path false wins (oc_push e (verdict_pre wrong r o)) = (Ok u, o') -> games_ok o ->
  oc_rounds o !! i = Some r ->
  (forall o2, earned o o2 c (round_key r) {| sc_value := value; sc_path := path; sc_flagged := false |}) -> grows c o o' o'.
Proof.
  intros H Hg Hi He. rewrite (verdict_Ok _ _ _ _ _ _ _ _ _ _ _ H Hg Hi). apply grows_settled; [|auto].
  apply grows_same. by destruct (verdict_pre_tables wrong r o) as (_ & ? & _).
Qed.

Lemma recompute_grows prover key proof o u o' :
  recompute_proof prover key proof o = (Ok u, o') -> games_ok o -> grows (ORecompute prover key proof) o o' o'.
Proof.
  intros H Hg. unfold recompute_proof in H. inv_all. to_prop. the_round. subst key.
  match goal with H : (if _ then record_reporter_offense _ else _) _ = _ |- _ => apply offense_if in H; subst end.
  eapply (verdict_grows _ _ _ _ _ (negb (_ =? rd_value _))); [exact H|done|done|]. intros o2.
  eapply earned_recomputed; [by eapply round_lookup_elem|done..].
Qed.

Lemma adjudicate_grows origin key value wrong o u o' :
  adjudicate origin key value wrong o = (Ok u, o') -> games_ok o -> grows (OAdjudicate origin key value wrong) o o' o'.
Proof.
  intros H Hg. unfold adjudicate in H. inv_all. to_prop. the_round. subst key origin.
  match goal with H : (if _ then record_reporter_offense _ else _) _ = _ |- _ => apply offense_if in H; subst end.
  match goal with Hs : round_schedule _ o = Ok ?s, Hi : oc_rounds o !! _ = Some ?r, Hc : is_none (rd_counter_value ?r) = false |- _ =>
    destruct (rd_counter_value r) as [cv|] eqn:Ec; [|done];
    apply round_schedule_Ok in Hs;
    pose proof (ro_round r s (ga_rows _ Hg r s (round_lookup_elem _ _ _ Hi) Hs)) end.
  eapply (verdict_grows _ _ _ _ _ wrong); [exact H|done|done|]. intros o2.
  eapply earned_adjudicated; [by eapply round_lookup_elem|done|lia|done].
Qed.

Lemma step_grows c o o' : oracle_step c o o' -> games_ok o -> grows c o o' o'.
Proof.
  intros [_ H] Hg. destruct c; cbn [oracle_exec] in H.
  - unfold register_reporter in H. inv_all. by apply grows_same.
  - unfold deregister_reporter in H. inv_all. by apply grows_same.
  - unfold register_watchtower, mark_watchtower_active in H. inv_all. apply grows_same. by destruct (bool_decide _).
  - unfold report in H. inv_all. by apply grows_same.
  - unfold oracle_challenge in H. inv_all. by apply grows_same.
  - unfold counter_report in H. inv_all. by apply grows_same.
  - unfold oracle_ack_observed, mark_watchtower_active in H. inv_all. apply grows_same. by repeat case_match.
  - unfold sweep_watchtower_liveness in H. inv_all. apply grows_same. cbn.
    match goal with H : for_each_st _ _ ?o1 = (Ok _, ?o2) |- _ =>
      eapply (for_each_st_keeps _ (fun s => oc_component_values s = oc_component_values o)); [exact H| |done] end.
    intros who s v s' _ E Hs. cbv beta in Hs. inv_all. exact E.
  - by eapply crank_grows.
  - by eapply recompute_grows.
  - unfold request_adjudication in H. inv_all. by apply grows_same.
  - by eapply adjudicate_grows.
  - by eapply force_neutralize_grows.
  - unfold crank_reserve_probe in H. inv_all. by apply grows_same.
  - unfold reserve_probe_result, apply_probe_result, score_pass, score_fails in H. inv_all. apply grows_same.
    by repeat case_match.
  - unfold crank_probe_timeout, apply_probe_result, score_fails in H. inv_all. apply grows_same. by repeat case_match.
  - inv_all. apply grows_same. unfold note_missed_reserve_probes, score_fails. by repeat case_match.
  - unfold note_recomputable in H. inv_step H. destruct (existsb _ _); inv_all; by apply grows_same.
Qed.

(** ** Bonds *)

(** Held for open games, and released with the closed ones. *)
Definition bonds_held (o : Oracle) : Z :=
  sum_by (fun r => rd_cumulative_reporter_bond r + rd_cumulative_challenger_bond r) (oc_rounds o).

Definition bonds_released (o : Oracle) : Z :=
  sum_by (fun b => bs_reporter_bond b + bs_challenger_bond b) (oc_bond_settlements o).

Definition bonds (o : Oracle) : Z := bonds_held o + bonds_released o.

(** What a call posts, and for whom: the caller. *)
Definition posts (c : OracleCall) (o : Oracle) (amount : Z) : Prop :=
  match c with
  | OReport i p => round_bond (in_stake_at_risk i) 1 p = Ok amount
  | OChallenge who _ key _ _ => exists r, r ∈ oc_rounds o /\ round_key r = key /\ amount = rd_bond r
      /\ (rd_challenger r = None \/ rd_challenger r = Some who)
  | OCounterReport who _ key _ _ _ => exists r, r ∈ oc_rounds o /\ round_key r = key /\ rd_reporter r = who
      /\ amount = 2 * rd_bond r
  | _ => amount = 0
  end.

Lemma sum_delete {V} (m : V -> Z) l i v : l !! i = Some v -> sum_by m (delete i l) = sum_by m l - m v.
Proof.
  intros (l1 & l2 & -> & ->)%list_elem_of_split_length. rewrite delete_middle, !sum_by_app. cbn. lia.
Qed.

Lemma sum_alter {V} (m : V -> Z) l i f v : l !! i = Some v -> sum_by m (alter f i l) = sum_by m l - m v + m (f v).
Proof.
  intros (l1 & l2 & -> & ->)%list_elem_of_split_length. replace (length l1) with (length l1 + 0)%nat by lia.
  rewrite alter_app_r, !sum_by_app. cbn. lia.
Qed.

Lemma settled_bonds i r v path fl wins o : oc_rounds o !! i = Some r -> bonds (settled i r v path fl wins o) = bonds o.
Proof.
  intros Hi. unfold bonds, bonds_held, bonds_released, settled.
  assert (forall x : Oracle, x = (if has_value (round_key r) o then gone i (round_key r) o
       else put_value (round_key r) {| sc_value := v; sc_path := path; sc_flagged := fl |} (gone i (round_key r) o)) ->
    oc_rounds x = delete i (oc_rounds o)) as Hx by (intros x ->; by destruct (has_value _ o)).
  cbn [oc_rounds oc_bond_settlements set_bond_settlements set_oc_events]. rewrite (Hx _ eq_refl), (sum_delete _ _ _ _ Hi), sum_by_app.
  cbn. lia.
Qed.

Lemma closing_bonds now p i o i' b o' : closing now p i o i' b o' -> bonds o' = bonds o.
Proof.
  intros [? |r o1 Hi ? ? ? ? ? ->|r v evs Hi ? ? ? ? ? ? ?|r Hi ? ? ? ? ?|r s v Hi ? ? ? ? ? ?|r v path wins Hi ? ? ?];
    try done; try by apply settled_bonds.
  unfold bonds, bonds_held, bonds_released. cbn. rewrite (sum_alter _ _ _ _ _ Hi). cbn. lia.
Qed.

Lemma crank_bonds now batch p o u o' : crank_round_close now batch p o = (Ok u, o') -> games_ok o -> bonds o' = bonds o.
Proof.
  intros H Hg. edestruct (crank_ind (fun _ o1 => bonds o1 = bonds o)) as [_ [_ Hb]]; [|exact H|done|done|exact Hb].
  intros i o1 i' b o2 _ Hc E. rewrite <- E. by eapply closing_bonds.
Qed.

Lemma verdict_bonds i value path flagged wins wrong r e o u o' :
  settle_at i value path flagged wins (oc_push e (verdict_pre wrong r o)) = (Ok u, o') -> games_ok o ->
  oc_rounds o !! i = Some r -> bonds o' = bonds o.
Proof.
  intros H Hg Hi. rewrite (verdict_Ok _ _ _ _ _ _ _ _ _ _ _ H Hg Hi). destruct (verdict_pre_tables wrong r o) as (E1 & _ & E2).
  rewrite settled_bonds by (cbn; by rewrite E1). unfold bonds, bonds_held, bonds_released. cbn. by rewrite E1, E2.
Qed.

Lemma force_neutralize_bonds epoch expected o u o' : force_neutralize_expired epoch expected o = (Ok u, o') -> bonds o' = bonds o.
Proof.
  rewrite force_neutralize_unfold. intros H. inv_all.
  eapply (for_each_st_keeps _ (fun s => bonds s = bonds o)); [exact H| |].
  - intros cv s v s' _ E Hs. apply neutralize_missing_Ok in Hs as [[-> _]|(evs & _ & _ & ->)]; done.
  - match goal with H : for_each_st (neutralize_round _) _ _ = _ |- _ =>
      eapply (for_each_st_keeps _ (fun s => bonds s = bonds o)); [exact H| |done] end.
    intros k s v s' _ E Hs. apply neutralize_round_Ok in Hs as [[-> _]|(i & r & evs & _ & _ & _ & _ & ->)]; done.
Qed.
