(* ===== verification/OracleTheorems.v ===== *)
(** * The properties of the oracle

    Each theorem with its witness on a run with a value of each kind. *)

From S2P Require Import Prelude Keyed Primitives Proposals Origins Oracle OracleInv OracleKeep.

(** ** The loop of the crank *)

Lemma settle_at_rounds i v path fl wins o u o' :
  settle_at i v path fl wins o = (Ok u, o') -> (i < length (oc_rounds o))%nat /\ oc_rounds o' = delete i (oc_rounds o).
Proof.
  intros H. unfold settle_at in H. inv_all. unfold round_at in *. inv_all.
  match goal with H : oc_rounds o !! i = Some _ |- _ => pose proof (lookup_lt_Some _ _ _ H) end. split; [done|].
  match goal with H : (if negb ?b then _ else _) _ = _ |- _ => destruct b; cbn [negb] in H; inv_all; done end.
Qed.

(** Twice the rounds ahead, less one when the next one is retained. *)
Definition ahead (i : nat) (o : Oracle) : nat :=
  (2 * (length (oc_rounds o) - i) -
   match oc_rounds o !! i with Some r => if bool_decide (round_key r ∈ oc_money_settled o) then 1 else 0 | None => 0 end)%nat.

Lemma ahead_bounds i o : (2 * (length (oc_rounds o) - i) - 1 <= ahead i o <= 2 * (length (oc_rounds o) - i))%nat.
Proof. unfold ahead. destruct (oc_rounds o !! i); [destruct (bool_decide _)|]; lia. Qed.

Lemma settle_ahead i v path fl wins o u o' :
  settle_at i v path fl wins o = (Ok u, o') -> (ahead i o' < ahead i o)%nat.
Proof.
  intros (Hi & E)%settle_at_rounds. pose proof (ahead_bounds i o). pose proof (ahead_bounds i o').
  assert (length (oc_rounds o') = length (oc_rounds o) - 1)%nat as L.
  { rewrite E. apply length_delete. by apply lookup_lt_is_Some. }
  lia.
Qed.

Lemma skip_ahead i o o' :
  (i < length (oc_rounds o))%nat -> length (oc_rounds o') = length (oc_rounds o) -> (ahead (S i) o' < ahead i o)%nat.
Proof. intros Hi E. pose proof (ahead_bounds i o). pose proof (ahead_bounds (S i) o'). lia. Qed.

Lemma close_one_ahead now p i o i' b o' :
  close_one now p i o = (Ok (i', b), o') -> (i < length (oc_rounds o))%nat -> (ahead i' o' < ahead i o)%nat.
Proof.
  intros H Hi. unfold close_one in H. inv_step H. inv_step H.
  match goal with H : lift (round_at _ _) _ = _ |- _ => inv_step H end.
  match goal with H : round_at _ _ = Ok ?r |- _ => unfold round_at in H; inv_all; rename H into Hr; rename r into r0 end.
  assert (forall o', length (oc_rounds o') = length (oc_rounds o) -> ahead (S i) o' < ahead i o)%nat as Hskip.
  { intros. by apply skip_ahead. }
  destruct (bool_decide (round_key r0 ∈ oc_money_settled o)) eqn:Em.
  - inv_step H. destruct (rd_counter_value r0) as [v|]; inv_all.
    + destruct x; inv_all; simplify_eq; [by eapply settle_ahead|by apply Hskip].
    + simplify_eq. by eapply settle_ahead.
  - destruct (now <? rd_challenge_deadline r0); [inv_all; simplify_eq; by apply Hskip|].
    inv_step H. destruct (rd_counter_value r0) as [v|].
    + destruct (rd_round r0 <? _); inv_all; simplify_eq; [by eapply settle_ahead|by apply Hskip].
    + destruct (op_watchtower_quorum p <=? rd_acks r0); [inv_all; simplify_eq; by eapply settle_ahead|].
      destruct (rd_extended r0); cbn [negb] in H; inv_all; simplify_eq.
      * match goal with H : neutral_at _ _ _ _ = _ |- _ => apply neutral_at_Ok in H as (q & Hq & [[Hin _]|(_ & _ & evs & ->)]) end.
        -- cbn in Hq, Hin. to_prop. simplify_eq. done.
        -- cbn in Hq. simplify_eq. unfold ahead. cbn. rewrite Hr, Em.
           rewrite bool_decide_eq_true_2 by (apply elem_of_app; right; left). lia.
      * apply Hskip. cbn. apply length_alter.
Qed.

Lemma close_loop_done now p batch fuel i n o :
  (ahead i o <= fuel)%nat -> exists r, forall fuel', (fuel <= fuel')%nat -> close_loop fuel' now p batch i n o = Some r.
Proof.
  revert i n o. induction fuel as [|fuel IH]; intros i n o Hf.
  - exists (Ok tt, o). intros fuel' _. assert (~ i < length (oc_rounds o))%nat as Hi.
    { intros Hi. pose proof (ahead_bounds i o). lia. }
    apply Nat.ltb_nlt in Hi. by destruct fuel'; cbn [close_loop]; rewrite Hi.
  - destruct ((i <? length (oc_rounds o)) && (n <? batch))%nat eqn:Ei.
    + destruct (close_one now p i o) as [[[i' b]|e] o'] eqn:E.
      * pose proof (andb_prop _ _ Ei) as [Hi _]. apply Nat.ltb_lt in Hi. pose proof (close_one_ahead _ _ _ _ _ _ _ E Hi).
        destruct (IH i' (if b then S n else n) o') as [r Hr]; [lia|]. exists r. intros [|fuel'] Hle; [lia|].
        cbn [close_loop]. rewrite Ei, E. apply Hr. lia.
      * exists (Err e, o'). intros [|fuel'] Hle; [lia|]. cbn [close_loop]. by rewrite Ei, E.
    + exists (Ok tt, o). intros [|fuel'] _; cbn [close_loop]; by rewrite Ei.
Qed.

(** ** The crank succeeds while there is room *)

(** Every game whose money is open has a free place among the values. *)
Definition room (n : nat) (o : Oracle) : Prop :=
  (length (oc_component_values o) + length (oc_rounds o) + n <= MAX_COMPONENT_VALUES + length (oc_money_settled o))%nat.

Lemma money_below_rounds o r : games_ok o -> r ∈ oc_rounds o -> round_key r ∉ oc_money_settled o ->
  (length (oc_money_settled o) < length (oc_rounds o))%nat.
Proof.
  intros Hg Hr Hm. rewrite <- (length_fmap round_key (oc_rounds o)). change (round_key <$> ?l) with (keys round_key l).
  assert (length (round_key r :: oc_money_settled o) <= length (keys round_key (oc_rounds o)))%nat; [|cbn in *; lia].
  apply submseteq_length, NoDup_submseteq; [apply NoDup_cons; split; [done|apply Hg]|].
  intros k [->|Hk]%elem_of_cons; [apply elem_of_keys; eauto|by apply (ga_money_in _ Hg)].
Qed.

Lemma room_for o r n : games_ok o -> room n o -> r ∈ oc_rounds o -> round_key r ∉ oc_money_settled o ->
  (length (oc_component_values o) < MAX_COMPONENT_VALUES)%nat.
Proof. intros Hg Hroom Hr Hm. pose proof (money_below_rounds o r Hg Hr Hm). unfold room in Hroom. lia. Qed.

Lemma settle_at_total i r v path fl wins n o :
  games_ok o -> room n o -> oc_rounds o !! i = Some r ->
  exists o', settle_at i v path fl wins o = (Ok tt, o') /\ o' = settled i r v path fl wins o /\ room n o'.
Proof.
  intros Hg Hroom Hi. pose proof (round_lookup_elem _ _ _ Hi) as Hr.
  assert (exists o', settle_at i v path fl wins o = (Ok tt, o')) as [o' H].
  { destruct (round_has_schedule o i r Hg Hi) as (s & _ & _ & Hs & _). unfold settle_at. rewrite bind_get.
    unfold round_at. rewrite Hi. cbn [ok_or]. erewrite lift_step by done. rewrite Hs. erewrite lift_step by done.
    rewrite !bind_modify, bind_get.
    match goal with |- context [has_value ?k ?o1] => change (has_value k o1) with (has_value k o); destruct (has_value k o) eqn:Ev end;
      cbn [negb]; [by eexists|].
    erewrite bind_step; [by eexists|]. erewrite lift_step; [reflexivity|]. apply ensure_true, Nat.ltb_lt.
    apply has_value_false in Ev. apply (room_for o r n Hg Hroom Hr). intros Hm. by destruct (ga_money_in _ Hg _ Hm). }
  exists o'. split; [done|]. apply settle_at_Ok in H as (q & Hq & -> & _); [|done]. simplify_eq. split; [done|].
  unfold room in *. rewrite settled_values, length_app.
  assert (oc_rounds (settled i r v path fl wins o) = delete i (oc_rounds o)) as -> by (unfold settled; by destruct (has_value _ o)).
  assert (oc_money_settled (settled i r v path fl wins o)
    = filter (fun k => k <> round_key r) (oc_money_settled o)) as -> by (unfold settled; by destruct (has_value _ o)).
  rewrite length_delete by (by eexists). pose proof (lookup_lt_Some _ _ _ Hi).
  destruct (has_value (round_key r) o) eqn:Ev; cbn [length].
  - apply has_value_iff in Ev. assert (round_key r ∈ oc_money_settled o) as Hm.
    { apply (ga_shadow _ Hg); [|done]. apply elem_of_keys. eauto. }
    apply list_elem_of_split in Hm as (l1 & l2 & E). pose proof (ga_money _ Hg) as Hn. rewrite E in *.
    rewrite filter_app, filter_cons_False by (by intros []). rewrite !length_app. cbn [length].
    apply NoDup_app in Hn as (_ & Hd & [Hf _]%NoDup_cons).
    rewrite (filter_all_true _ l1), (filter_all_true _ l2); [rewrite length_app in Hroom; cbn [length] in Hroom; lia|..].
    + intros k Hk ->. done.
    + intros k Hk ->. eapply Hd; [exact Hk|left].
  - apply has_value_false in Ev. rewrite (filter_all_true _ (oc_money_settled o)); [lia|].
    intros k Hk ->. by destruct (ga_money_in _ Hg _ Hk).
Qed.

Lemma neutral_at_total i r v n k o :
  games_ok o -> room k o -> oc_rounds o !! i = Some r -> exists o', neutral_at i v n o = (Ok tt, o') /\ room k o'.
Proof.
  intros Hg Hroom Hi. pose proof (round_lookup_elem _ _ _ Hi) as Hr. unfold neutral_at. rewrite bind_get.
  unfold round_at. rewrite Hi. cbn [ok_or]. erewrite lift_step by done.
  destruct (bool_decide (round_key r ∈ oc_money_settled o)) eqn:Em; to_prop; [by eexists|].
  erewrite lift_step by (apply ensure_true, Nat.ltb_lt; by eapply (room_for o r)). rewrite !bind_modify.
  eexists. split; [reflexivity|]. unfold room in *. cbn -[MAX_COMPONENT_VALUES Nat.add]. rewrite !length_app. cbn -[MAX_COMPONENT_VALUES Nat.add]. lia.
Qed.

Lemma close_one_total now p i r n o :
  games_ok o -> room n o -> oc_rounds o !! i = Some r -> exists i' b o', close_one now p i o = (Ok (i', b), o') /\ room n o'.
Proof.
  intros Hg Hroom Hi. destruct (round_has_schedule o i r Hg Hi) as (s & _ & Hs & _).
  unfold close_one. rewrite bind_get. unfold round_at. rewrite Hi. cbn [ok_or]. erewrite lift_step by done.
  assert (forall v path fl wins, exists o', (do! settle_at i v path fl wins in ret (i, true)) o = (Ok (i, true), o') /\ room n o') as Hset.
  { intros v path fl wins. destruct (settle_at_total i r v path fl wins n o Hg Hroom Hi) as (o' & E & _ & R).
    exists o'. split; [|done]. by erewrite bind_step by exact E. }
  destruct (bool_decide _).
  - destruct (rd_counter_value r) as [v|].
    + rewrite Hs. cbn [rmap]. erewrite lift_step by done. destruct (rd_round r <? _); [|by do 3 eexists].
      destruct (Hset v ChallengerDefault true false) as (o' & ? & ?). eauto.
    + erewrite lift_step by done. destruct (Hset (rd_value r) Unchallenged true true) as (o' & ? & ?). eauto.
  - destruct (now <? _); [by do 3 eexists|]. rewrite Hs. erewrite lift_step by done. destruct (rd_counter_value r) as [v|].
    + destruct (rd_round r <? _); [|by do 3 eexists]. destruct (Hset v ChallengerDefault false false) as (o' & ? & ?). eauto.
    + destruct (_ <=? rd_acks r); [destruct (Hset (rd_value r) Unchallenged false true) as (o' & ? & ?); eauto|].
      destruct (rd_extended r); cbn [negb].
      * rewrite bind_modify. erewrite bind_step by reflexivity.
        match goal with |- context [neutral_at i ?v 1] =>
          destruct (neutral_at_total i r v 1 n (oc_push (OcQuorumFailed (rd_component r) (rd_epoch r) (rd_round r)) o))
            as (o' & E & R); [by eapply games_ok_ext|done|done|] end.
        erewrite bind_step by exact E. do 3 eexists. split; [reflexivity|done].
      * rewrite !bind_modify. do 3 eexists. split; [reflexivity|]. unfold room in *. cbn -[MAX_COMPONENT_VALUES Nat.add]. by rewrite length_alter.
Qed.

Lemma close_loop_total now p batch fuel i n o r :
  games_ok o -> room 0 o -> close_loop fuel now p batch i n o = Some r -> exists o', r = (Ok tt, o').
Proof.
  revert i n o. induction fuel as [|fuel IH]; intros i n o Hg Hroom H; cbn [close_loop] in H;
    destruct ((i <? length (oc_rounds o)) && (n <? batch))%nat eqn:Ei; try done; try (injection H as <-; by eexists).
  apply andb_prop in Ei as [Hi%Nat.ltb_lt _]. apply lookup_lt_is_Some in Hi as [q Hq].
  destruct (close_one_total now p i q 0 o Hg Hroom Hq) as (i' & b & o' & E & R). rewrite E in H.
  eapply IH; [|exact R|exact H]. eapply closing_keeps; [exact Hg|]. by apply close_one_Ok.
Qed.

(** C9. The closing crank terminates: from any state whatever, two
    iterations a round are enough for its loop, and more fuel gives the same
    result. In a reachable state where each game with open money still has a
    place in the value table, it never fails: no stuck round can block the
    others. *)
Theorem crank_terminates now p batch o :
  (exists r, (forall fuel, (2 * length (oc_rounds o) <= fuel)%nat -> close_loop fuel now p batch 0 0 o = Some r)
             /\ crank_round_close now batch p o = r)
  /\ (oracle_reachable o -> room 0 o -> exists o', crank_round_close now batch p o = (Ok tt, o')).
Proof.
  pose proof (ahead_bounds 0 o). destruct (close_loop_done now p batch (2 * length (oc_rounds o)) 0 0 o) as [r Hr]; [lia|].
  assert (crank_round_close now batch p o = r) as E by (unfold crank_round_close; by rewrite Hr).
  split; [by exists r|]. intros [Hg _ _]%oracle_reachable_ok Hroom.
  destruct (close_loop_total now p batch _ 0 0 o r Hg Hroom (Hr _ (le_n _))) as [o' ->]. eauto.
Qed.

(** ** Settled values *)

(** C3. Settled money is final: along any run from a reachable state the value
    table only grows at its end, each game has at most one value, the values
    are on the [0, 1] grid, and a game found settled keeps the very same entry;
    a live round of a settled game only waits for its bonds. *)
Theorem settled_money_is_final o o' :
  oracle_reachable o -> rtc oracle_next o o' ->
  (exists new, oc_component_values o' = oc_component_values o ++ new)
  /\ NoDup (keys fst (oc_component_values o'))
  /\ (forall v, v ∈ oc_component_values o' -> 0 <= sc_value v.2 <= COMPONENT_VALUE_MAX)
  /\ (forall k v, find_key fst k (oc_component_values o) = Some v -> find_key fst k (oc_component_values o') = Some v)
  /\ (forall r v, r ∈ oc_rounds o' -> (round_key r, v) ∈ oc_component_values o' -> round_key r ∈ oc_money_settled o').
Proof.
  intros Ho Hrun. assert (oracle_reachable o') as [Hg' _ _]%oracle_reachable_ok by (unfold oracle_reachable in *; by etrans).
  assert (exists new, oc_component_values o' = oc_component_values o ++ new) as [new E].
  { clear Hg'. revert Ho. induction Hrun as [o|o o1 o2 [c Hs] _ IH]; intros Ho; [exists []; by rewrite app_nil_r|].
    destruct IH as [n2 E2]; [by eapply rtc_r; [|exists c]|].
    destruct (step_grows c o o1 Hs) as (n1 & E1 & _); [by apply oracle_reachable_ok|].
    exists (n1 ++ n2). by rewrite E2, E1, app_assoc. }
  split_and!; [by exists new|apply Hg'|apply Hg'| |].
  - intros k v Hv. rewrite E, find_key_app, Hv. done.
  - intros r v Hr Hv. apply (ga_shadow _ Hg'); apply elem_of_keys; eauto.
Qed.

(** C12. Every value is earned: a call that adds a value in a reachable state
    is the closing of a matured round with a quorum of distinct watchtowers'
    records on that very report, or by default to a challenger whose reporter
    let the deadline pass below the cap of the ladder; a mechanical
    recomputation from the committed evidence; the verdict on a challenged
    round at the cap; or a neutral value, which is one half or an earlier
    settled value of the component, after a window extended in vain or at the
    money deadline of its epoch. *)
Theorem values_are_earned c o o' :
  oracle_reachable o -> oracle_step c o o' ->
  exists new, oc_component_values o' = oc_component_values o ++ new
  /\ forall k v, (k, v) ∈ new -> earned o o' c k v /\ find_key fst k (oc_component_values o) = None.
Proof.
  intros [Hg Hr Hp]%oracle_reachable_ok Hs. pose proof (oracle_step_ok _ _ _ Hs (Build_oracle_ok _ Hg Hr Hp)) as [Hg' _ _].
  destruct (step_grows c o o' Hs Hg) as (new & E & Hn). exists new. split; [done|]. intros k v Hin. split; [auto|].
  apply find_key_None. intros Hk. pose proof (ga_values _ Hg') as Hd. rewrite E, keys_app in Hd.
  apply NoDup_app in Hd as (_ & Hd & _). apply (Hd k Hk), elem_of_keys. eauto.
Qed.

(** ** Bonds *)

Lemma update_bonds i r f o : oc_rounds o !! i = Some r ->
  bonds (update_round i f o) = bonds o
    + (rd_cumulative_reporter_bond (f r) + rd_cumulative_challenger_bond (f r)
       - (rd_cumulative_reporter_bond r + rd_cumulative_challenger_bond r)).
Proof. intros Hi. unfold bonds, bonds_held, bonds_released. cbn. rewrite (sum_alter _ _ _ _ _ Hi). lia. Qed.

Lemma bonds_eq o o' :
  oc_rounds o' = oc_rounds o -> oc_bond_settlements o' = oc_bond_settlements o -> bonds o' = bonds o.
Proof. intros E1 E2. unfold bonds, bonds_held, bonds_released. by rewrite E1, E2. Qed.

Lemma update_round_twice i f g o : update_round i f (update_round i g o) = update_round i (f ∘ g) o.
Proof. unfold update_round, set_rounds. cbn. by rewrite list_alter_alter_eq. Qed.

Lemma bonds_push e o : bonds (oc_push e o) = bonds o.
Proof. done. Qed.

Lemma bonds_drop k o : bonds (drop_acks k o) = bonds o.
Proof. done. Qed.

Lemma challenge_bonds who now key v h o u o' :
  oracle_challenge who now key v h o = (Ok u, o') ->
  exists amount, posts (OChallenge who now key v h) o amount /\ bonds o' = bonds o + amount.
Proof.
  intros H. unfold oracle_challenge in H. inv_all. the_round. rewrite update_round_twice, bonds_push.
  match goal with H : oc_rounds o !! _ = Some ?r |- _ => rename H into Hi; rename r into r0 end.
  exists (rd_bond r0). rewrite (update_bonds _ _ _ _ Hi). cbn. split; [|lia].
  exists r0. split_and!; [by eapply round_lookup_elem|done|done|]. destruct (rd_challenger r0) as [w|]; [right|by left].
  inv_all. to_prop. by subst.
Qed.

Lemma counter_report_bonds who now key v h p o u o' :
  counter_report who now key v h p o = (Ok u, o') -> games_ok o ->
  exists amount, posts (OCounterReport who now key v h p) o amount /\ bonds o' = bonds o + amount.
Proof.
  intros H Hg. unfold counter_report in H. inv_all. to_prop. the_round. subst key. rewrite update_round_twice, bonds_push, bonds_drop.
  match goal with H : stored_round_bond _ _ _ = Ok _ |- _ => apply stored_round_bond_Ok in H as (_ & Hn & -> & _) end.
  match goal with H : oc_rounds o !! _ = Some ?r, H' : round_schedule _ o = Ok ?s |- _ =>
    rename H into Hi; rename r into r0; rename s into s0; apply round_schedule_Ok in H' as Hs end.
  pose proof (ga_rows _ Hg r0 s0 (round_lookup_elem _ _ _ Hi) Hs) as [].
  exists (2 * rd_bond r0). rewrite (update_bonds _ _ _ _ Hi). cbn. rewrite ro_bond. split.
  - exists r0. split_and!; [by eapply round_lookup_elem|done|done|]. by rewrite ro_bond.
  - replace (rd_round r0 + 1 - 1) with (Z.succ (rd_round r0 - 1)) by lia. rewrite Z.pow_succ_r by lia. lia.
Qed.

(** C20. No bond moves without its owner: a call in a reachable state changes
    the sum of the bonds held for open games and released with closed ones
    only by what its caller posts, which is the first bond of a report, the
    current bond of a challenge by the game's one challenger, or the doubled
    bond of the reporter's own counter-report; no crank, verdict or deadline
    adds or drops a unit. What a game holds is the ladder of its frozen first
    bond: B (2^n - 1) from the reporter at round n, and the same from the
    challenger, one round less while the round is unchallenged. *)
Theorem bonds_are_posted_by_their_owners c o o' :
  oracle_reachable o -> oracle_step c o o' ->
  (exists amount, posts c o amount /\ bonds o' = bonds o + amount)
  /\ forall r, r ∈ oc_rounds o' -> exists s, (round_key r, s) ∈ oc_round_schedules o'
     /\ rd_bond r = rs_round_one_bond s * 2 ^ (rd_round r - 1)
     /\ rd_cumulative_reporter_bond r = ladder (rs_round_one_bond s) (rd_round r)
     /\ rd_cumulative_challenger_bond r
        = ladder (rs_round_one_bond s) (if rd_counter_value r then rd_round r else rd_round r - 1).
Proof.
  intros Ho%oracle_reachable_ok Hs. pose proof (oracle_step_ok _ _ _ Hs Ho) as [Hg' _ _]. destruct Ho as [Hg _ _]. split.
  2:{ intros r (i & Hi)%list_elem_of_lookup_1. destruct (round_has_schedule _ _ _ Hg' Hi) as (s & Hl & _ & _ & []).
      exists s. split_and!; try done. by eapply list_elem_of_lookup_2. }
  destruct Hs as [_ H]. destruct c; cbn [oracle_exec posts] in *;
    try (eexists; split; [reflexivity|]; rewrite Z.add_0_r).
  - unfold register_reporter in H. by inv_all.
  - unfold deregister_reporter in H. by inv_all.
  - unfold register_watchtower, mark_watchtower_active in H. inv_all. by case_match.
  - unfold report in H. inv_all. eexists. split; [done|]. unfold bonds, bonds_held, bonds_released. cbn.
    rewrite sum_by_app. cbn. lia.
  - by eapply challenge_bonds.
  - by eapply counter_report_bonds.
  - unfold oracle_ack_observed, mark_watchtower_active in H. inv_all. the_round.
    match goal with Hi : oc_rounds o !! ?i = Some _ |- _ =>
      transitivity (bonds (update_round i ack_round o)); [by case_match|rewrite (update_bonds _ _ _ _ Hi); cbn; lia] end.
  - unfold sweep_watchtower_liveness in H. inv_all.
    match goal with H : for_each_st _ _ ?o1 = (Ok _, ?o2) |- _ =>
      change (bonds o2 = bonds o); eapply (for_each_st_keeps _ (fun s => bonds s = bonds o)); [exact H| |done] end.
    intros who s v s' _ E Hx. cbv beta in Hx. inv_all. exact E.
  - by eapply crank_bonds.
  - unfold recompute_proof in H. inv_all. the_round.
    match goal with H : (if _ then record_reporter_offense _ else _) _ = _ |- _ => apply offense_if in H; subst end.
    by eapply (verdict_bonds _ _ _ _ _ (negb (_ =? rd_value _))); [exact H|..].
  - unfold request_adjudication in H. by inv_all.
  - unfold adjudicate in H. inv_all. the_round.
    match goal with H : (if _ then record_reporter_offense _ else _) _ = _ |- _ => apply offense_if in H; subst end.
    by eapply (verdict_bonds _ _ _ _ _ reporter_wrong); [exact H|..].
  - by eapply force_neutralize_bonds.
  - unfold crank_reserve_probe in H. by inv_all.
  - unfold reserve_probe_result, apply_probe_result, score_pass, score_fails in H. inv_all. by repeat case_match.
  - unfold crank_probe_timeout, apply_probe_result, score_fails in H. inv_all. by repeat case_match.
  - inv_all. unfold note_missed_reserve_probes, score_fails. by repeat case_match.
  - unfold note_recomputable in H. inv_step H. destruct (existsb _ _); by inv_all.
Qed.

(** ** The state checker *)

Lemma covered_length (rounds : list RoundState) (l : list AckRecord) :
  (forall a, a ∈ l -> exists r, r ∈ rounds /\ ack_counts r a) ->
  Z.of_nat (length l) <= sum_by (fun r => Z.of_nat (length (acks_for r l))) rounds.
Proof.
  induction l as [|a l IH]; intros Hl; [rewrite sum_by_zero; done|].
  specialize (IH ltac:(intros b Hb; apply Hl; by right)).
  destruct (Hl a) as (r & Hr & Ha); [left|]. apply list_elem_of_split in Hr as (r1 & r2 & ->).
  assert (forall q, Z.of_nat (length (acks_for q (a :: l))) = (if decide (ack_counts q a) then 1 else 0) + Z.of_nat (length (acks_for q l))) as Hc.
  { intros q. unfold acks_for. rewrite filter_cons. destruct (decide _); cbn; lia. }
  assert (forall rs, sum_by (fun r => Z.of_nat (length (acks_for r l))) rs
    <= sum_by (fun r => Z.of_nat (length (acks_for r (a :: l)))) rs) as Hm.
  { intros rs. induction rs as [|q rs IH']; [done|]. cbn [sum_by]. rewrite Hc. destruct (decide _); lia. }
  rewrite sum_by_app in *. cbn [sum_by length] in *. rewrite (Hc r), decide_True by done.
  pose proof (Hm r1). pose proof (Hm r2). lia.
Qed.

(** No round was acknowledged by more watchtowers than there are seats; only
    seats that change hands within one round can break it. *)
Definition uncrowded (o : Oracle) : Prop :=
  forall r, r ∈ oc_rounds o -> (length (acks_for r (oc_ack_records o)) <= MAX_WATCHTOWERS)%nat.

Lemma rt_active_len o : roster_ok o -> (length (oc_watchtower_active o) <= MAX_WATCHTOWERS)%nat.
Proof.
  intros [Hr Hl Ht Htl Ha Hai]. etrans; [|exact Htl]. rewrite <- (length_fmap fst (oc_watchtowers o)).
  apply submseteq_length, NoDup_submseteq; [done|exact Hai].
Qed.

Lemma check_round_ok o r : games_ok o -> uncrowded o -> r ∈ oc_rounds o -> check_round o r = Ok tt.
Proof.
  intros Hg Hu Hr. pose proof (list_elem_of_lookup_1 _ _ Hr) as [i Hi]. destruct (round_has_schedule o i r Hg Hi) as (s & _ & Hs & _ & []).
  unfold check_round, within. rewrite Hs. cbn [rbind].
  rewrite !ensure_true by (apply andb_true_intro; split; apply Z.leb_le; lia). cbn [rbind].
  assert (stored_round_bond (rs_round_one_bond s) (rd_round r) (rs_round_cap s) = Ok (rd_bond r)) as ->.
  { apply stored_round_bond_Ok. split_and!; try lia.
    assert (2 ^ (rd_round r - 1) <= 2 ^ (rs_round_cap s - 1)) by (apply Z.pow_le_mono_r; lia). nia. }
  cbn [rbind]. rewrite ensure_true by apply Z.eqb_refl. cbn [rbind].
  assert ((if has_value (round_key r) o then ensure (bool_decide (round_key r ∈ oc_money_settled o)) OeAlreadyFinal else Ok tt) = Ok tt) as ->.
  { destruct (has_value _ o) eqn:E; [|done]. apply ensure_true, bool_decide_eq_true. apply has_value_iff in E.
    apply (ga_shadow _ Hg); [apply elem_of_keys; eauto|done]. }
  cbn [rbind]. apply ensure_true, Z.eqb_eq. rewrite (ga_count _ Hg r Hr).
  change (filter (ack_counts r) (oc_ack_records o)) with (acks_for r (oc_ack_records o)).
  pose proof (Hu r Hr). unfold MAX_WATCHTOWERS in *. lia.
Qed.

(** The state checker of the oracle accepts every reachable state in
    which no round was acknowledged by more watchtowers than there are seats:
    the tables are within their bounds, every round has its schedule and the
    bond of its rung, its count is the number of its records, a live round of
    a settled game is marked, and the liveness set names seated watchtowers. *)
Theorem oracle_checker_accepts o : oracle_reachable o -> uncrowded o -> oracle_try_state o = Ok tt.
Proof.
  intros [Hg Hr Hp]%oracle_reachable_ok Hu. unfold oracle_try_state. pose proof (rt_active_len o Hr). destruct Hr, Hp.
  assert (length (oc_round_schedules o) = length (oc_rounds o)) as El.
  { rewrite <- (length_fmap fst (oc_round_schedules o)), <- (length_fmap round_key (oc_rounds o)).
    change (length (keys fst (oc_round_schedules o)) = length (keys round_key (oc_rounds o))). by rewrite (ga_schedules _ Hg). }
  assert (length (oc_ack_records o) <= MAX_ACK_RECORDS)%nat as Ha.
  { pose proof (covered_length _ _ (ga_acks_live _ Hg)) as Hc.
    pose proof (sum_by_le (fun r => Z.of_nat (length (acks_for r (oc_ack_records o)))) 16 (oc_rounds o)
      ltac:(intros r Hin; specialize (Hu r Hin); unfold MAX_WATCHTOWERS in Hu; lia)).
    pose proof (ga_len _ Hg). unfold MAX_ACK_RECORDS, MAX_WATCHTOWERS, MAX_ROUNDS in *. lia. }
  assert (length (oc_money_settled o) <= MAX_ROUNDS)%nat as Hm.
  { etrans; [|apply (ga_len _ Hg)]. rewrite <- (length_fmap round_key (oc_rounds o)).
    apply submseteq_length, NoDup_submseteq; [apply Hg|]. intros k Hk. by apply (ga_money_in _ Hg). }
  rewrite (ensure_true (_ <=? MAX_RESERVE_PROBE_QUERY_ID)) by (apply Z.leb_le; lia). cbn [rbind].
  rewrite !(ensure_true (_ <=? _)%nat) by (apply Nat.leb_le; first [done|apply Hg]).
  rewrite ensure_true by by apply Nat.eqb_eq. cbn [rbind].
  rewrite (proj2 (for_each_Ok _ (oc_watchtower_active o) tt)); cbn [rbind].
  2:{ intros w Hw. by apply ensure_true, is_watchtower_iff, rt_active_in. }
  rewrite (proj2 (for_each_Ok _ (oc_rounds o) tt)); cbn [rbind]; [|intros r Hin; by apply check_round_ok].
  assert (forall k, k ∈ keys round_key (oc_rounds o) -> is_none (find_round k o) = false) as Hfr.
  { intros k Hk. destruct (find_round k o) eqn:E; [done|]. by apply find_round_None in E. }
  rewrite (proj2 (for_each_Ok _ (oc_round_schedules o) tt)); cbn [rbind].
  2:{ intros s Hs. rewrite Hfr; [done|]. rewrite <- (ga_schedules _ Hg). apply elem_of_keys. eauto. }
  apply for_each_Ok. intros k Hk. destruct (ga_money_in _ Hg k Hk) as [H1 H2]. rewrite (Hfr k H1). cbn [negb ensure rbind].
  by apply ensure_true, has_value_iff.
Qed.

(** ** The money deadline *)

Lemma neutralize_round_total epoch k n o : games_ok o -> room n o -> exists o', neutralize_round epoch k o = (Ok tt, o') /\ room n o'.
Proof.
  intros Hg Hroom. unfold neutralize_round. rewrite bind_get. destruct (find_round k o) as [i|] eqn:E; [|by eexists].
  apply find_round_Some in E as (r & Hi & _). by eapply neutral_at_total.
Qed.

Lemma first_loop_total epoch ks n o :
  games_ok o -> room n o -> exists o', for_each_st (neutralize_round epoch) ks o = (Ok tt, o') /\ room n o'.
Proof.
  revert o. induction ks as [|k ks IH]; intros o Hg Hroom; [by eexists|].
  destruct (neutralize_round_total epoch k n o Hg Hroom) as (o1 & E & R). cbn [for_each_st]. erewrite bind_step by exact E.
  apply IH; [|done]. by apply (neutralize_round_keeps _ _ _ _ _ E).
Qed.

Lemma neutralize_missing_total epoch cv n o :
  games_ok o -> deadline_done epoch o -> room (S n) o -> exists o', neutralize_missing epoch cv o = (Ok tt, o') /\ room n o'.
Proof.
  intros Hg Hd Hroom. unfold neutralize_missing. rewrite bind_get. unfold room in *.
  destruct (has_value _ o) eqn:E; cbn [negb]; [eexists; split; [done|lia]|].
  pose proof (submseteq_length _ _ (NoDup_submseteq _ _ (ga_money _ Hg) (fun k Hk => proj1 (ga_money_in _ Hg k Hk)))) as Hm.
  unfold keys in Hm. rewrite length_fmap in Hm.
  unfold neutral_no_report. rewrite bind_get. erewrite lift_step by (apply ensure_true, Nat.ltb_lt; lia). rewrite !bind_modify.
  eexists. split; [reflexivity|]. cbn -[MAX_COMPONENT_VALUES Nat.add]. rewrite length_app. cbn -[MAX_COMPONENT_VALUES Nat.add]. lia.
Qed.

Lemma second_loop_total epoch cvs o :
  games_ok o -> deadline_done epoch o -> room (length cvs) o -> exists o', for_each_st (neutralize_missing epoch) cvs o = (Ok tt, o').
Proof.
  revert o. induction cvs as [|cv cvs IH]; intros o Hg Hd Hroom; [by eexists|].
  destruct (neutralize_missing_total epoch cv (length cvs) o Hg Hd Hroom) as (o1 & E & R). cbn [for_each_st].
  erewrite bind_step by exact E. destruct (neutralize_missing_keeps _ _ _ _ _ E Hg Hd) as (G & _ & D & _). by apply IH.
Qed.

(** C25. The money deadline leaves no gap: in a reachable state with room for
    the open games and the expected components the call succeeds, and after
    any success every expected component of the epoch has a value and every
    round of the epoch that is still open only waits for its bonds. *)
Theorem deadline_leaves_no_gap epoch expected o :
  oracle_reachable o ->
  (room (length expected) o -> exists o', force_neutralize_expired epoch expected o = (Ok tt, o'))
  /\ forall o', force_neutralize_expired epoch expected o = (Ok tt, o') ->
       (forall c v, (c, v) ∈ expected -> exists s, find_key fst (c, epoch, v) (oc_component_values o') = Some ((c, epoch, v), s))
       /\ (forall r, r ∈ oc_rounds o' -> rd_epoch r = epoch -> round_key r ∈ oc_money_settled o').
Proof.
  intros [Hg _ _]%oracle_reachable_ok. split.
  - intros Hroom. rewrite force_neutralize_unfold.
    destruct (first_loop_total epoch (round_key <$> filter (fun r => rd_epoch r = epoch) (oc_rounds o)) _ o Hg Hroom) as (o1 & E & R).
    erewrite bind_step by exact E. destruct (first_loop _ _ _ _ _ E Hg) as (G & _ & R1 & K & _). apply second_loop_total; [done| |done].
    intros k Hk Ek. rewrite R1 in Hk. apply (ga_money_in _ G), K; [|done].
    apply elem_of_keys in Hk as (r & Hr & <-). apply list_elem_of_fmap_2, list_elem_of_filter. done.
  - intros o' H. destruct (force_neutralize_keeps _ _ _ _ _ H Hg) as (G & _ & D & K). split.
    + intros c v Hcv. apply K in Hcv. cbn in Hcv. apply elem_of_keys in Hcv as ([k s] & Hin & E). cbn in E. subst k.
      exists s. exact (find_key_elem fst _ _ (ga_values _ G) Hin).
    + intros r Hr E. apply (ga_shadow _ G); [apply elem_of_keys; eauto|]. apply D; [apply elem_of_keys; eauto|done].
Qed.

(** ** Witnesses *)

Definition demo_report (component : MetricId) : ReportInput :=
  {| in_who := 1; in_now := 100; in_component := component; in_epoch := 5; in_spec_version := 1; in_value := 600000000;
     in_evidence_hash := 77; in_stake_at_risk := 0; in_report_window_end := 1000; in_expected_spec := 1 |}.

Definition demo_ack (who : AccountId) : OracleCall :=
  OAckObserved who 200 (1, 5, 1) 1 (hash_report 1 5 1 600000000 77).

(** Three reports: one seen by two watchtowers, one challenged, one nobody
    looked at. *)
Definition demo_game : list OracleCall :=
  let p := oracle_params_default in
  [ORegisterReporter 1 10 p; ORegisterWatchtower 20 10 p; ORegisterWatchtower 21 10 p;
   OReport (demo_report 1) p; OReport (demo_report 2) p; OReport (demo_report 3) p;
   demo_ack 20; demo_ack 21; OChallenge 2 300 (2, 5, 1) 400000000 78].

Fixpoint oracle_run (calls : list OracleCall) (o : Oracle) : option Oracle :=
  match calls with
  | [] => Some o
  | c :: rest => match oracle_exec c o with (Ok _, o) => oracle_run rest o | _ => None end
  end.

Lemma oracle_run_steps calls o o' : Forall oracle_call_ok calls -> oracle_run calls o = Some o' -> rtc oracle_next o o'.
Proof.
  revert o. induction calls as [|c calls IH]; intros o Hok H; cbn [oracle_run] in H; [by injection H as ->|].
  inversion_clear Hok. destruct (oracle_exec c o) as [[[]|e] o1] eqn:E; [|done].
  apply rtc_l with o1; [by exists c|by apply IH].
Qed.

Definition demo_open : Oracle := Eval vm_compute in default oracle_default (oracle_run demo_game oracle_default).

Definition demo_close : OracleCall := OCrankClose 50000 20 oracle_params_default.

Definition demo_settled : Oracle := Eval vm_compute in (oracle_exec demo_close demo_open).2.

Lemma demo_open_reachable : oracle_reachable demo_open.
Proof.
  apply (oracle_run_steps demo_game); [|by vm_compute].
  repeat constructor; cbn; unfold ORC_BOND_FLOOR; lia.
Qed.

Lemma demo_close_step : oracle_step demo_close demo_open demo_settled.
Proof. split; [done|by vm_compute]. Qed.

Lemma demo_settled_reachable : oracle_reachable demo_settled.
Proof. eapply rtc_r; [exact demo_open_reachable|]. eexists. exact demo_close_step. Qed.

Lemma demo_settles :
  (fun v => (v.1, sc_value v.2, sc_path v.2)) <$> oc_component_values demo_settled
  = [((1, 5, 1), 600000000, Unchallenged); ((2, 5, 1), 400000000, ChallengerDefault)].
Proof. done. Qed.

Lemma crank_terminates_witness :
  oracle_reachable demo_open /\ exists o', crank_round_close 50000 20 oracle_params_default demo_open = (Ok tt, o').
Proof.
  split; [exact demo_open_reachable|].
  apply (proj2 (crank_terminates 50000 oracle_params_default 20 demo_open)); [exact demo_open_reachable|].
  apply Nat.leb_le. vm_compute. reflexivity.
Defined.

Lemma settled_money_is_final_witness :
  find_key fst (1, 5, 1) (oc_component_values demo_settled)
  = Some ((1, 5, 1), {| sc_value := 600000000; sc_path := Unchallenged; sc_flagged := false |}).
Proof.
  destruct (settled_money_is_final demo_settled demo_settled demo_settled_reachable ltac:(reflexivity)) as (_ & _ & _ & H & _).
  apply H. reflexivity.
Defined.

Lemma values_are_earned_witness :
  earned demo_open demo_settled demo_close (1, 5, 1) {| sc_value := 600000000; sc_path := Unchallenged; sc_flagged := false |}.
Proof.
  destruct (values_are_earned demo_close demo_open demo_settled demo_open_reachable demo_close_step) as (new & E & H).
  apply (H (1, 5, 1)). cbn in E. rewrite <- E. left.
Defined.

Lemma bonds_are_posted_by_their_owners_witness : bonds demo_settled = bonds demo_open + 0.
Proof.
  destruct (bonds_are_posted_by_their_owners demo_close demo_open demo_settled demo_open_reachable demo_close_step)
    as [(amount & -> & H) _]. exact H.
Defined.

Lemma oracle_checker_accepts_witness : oracle_try_state demo_open = Ok tt.
Proof.
  apply (oracle_checker_accepts demo_open demo_open_reachable). unfold uncrowded.
  apply (proj1 (Forall_forall (fun r => (length (acks_for r (oc_ack_records demo_open)) <= MAX_WATCHTOWERS)%nat) _)).
  repeat constructor; apply Nat.leb_le; vm_compute; reflexivity.
Defined.

Lemma deadline_leaves_no_gap_witness :
  exists o', force_neutralize_expired 5 [(2, 1); (9, 1)] demo_open = (Ok tt, o')
  /\ exists s, find_key fst (9, 5, 1) (oc_component_values o') = Some ((9, 5, 1), s).
Proof.
  destruct (deadline_leaves_no_gap 5 [(2, 1); (9, 1)] demo_open demo_open_reachable) as [Ht Hc].
  destruct Ht as [o' E]; [apply Nat.leb_le; vm_compute; reflexivity|]. exists o'. split; [exact E|].
  apply (proj1 (Hc o' E)). right. left.
Defined.

(** The challenged round of a game whose money was settled neutrally: the next
    crank gives both bonds to the challenger at block 400, long before the
    reporter's deadline of block 43300 for the consenting counter-report. *)
Example retained_round_closes_early :
  (rd_challenge_deadline <$> oc_rounds demo_open) = [43300; 43300; 43300]
  /\ exists o1 o2, force_neutralize_expired 5 [] demo_open = (Ok tt, o1)
     /\ crank_round_close 400 20 oracle_params_default o1 = (Ok tt, o2)
     /\ {| bs_reporter := 1; bs_challenger := Some 2; bs_reporter_bond := 10000000000; bs_challenger_bond := 10000000000;
           bs_reporter_wins := false |} ∈ oc_bond_settlements o2.
Proof. split; [done|]. do 2 eexists. split; [by vm_compute|]. split; [by vm_compute|]. cbn. set_solver. Qed.
