(* ===== verification/Treasury.v ===== *)
(** * The treasury (crates/futarchy-treasury-core)

    Budget lines, vesting streams, rolling outflow and issuance meters, the
    net asset value, keeper rebates, Coretime renewals and probe fees. The
    account of the reserves themselves is custody of the pallet; the core
    keeps the amounts. An index found by [position] is used at once on the
    first matching row, here the row [find_key] and [alter_key] reach. *)

From S2P Require Import Prelude Keyed Primitives Proposals Origins.

Definition USDC : Balance := 1000000.
Definition VIT : Balance := 1000000000000.
Definition DOT_PLANCKS_PER_DOT : Balance := 10000000000.
Definition DEFAULT_VIT_SUPPLY : Balance := 1000000000 * VIT.
Definition MAX_BUDGET_LINES : nat := 32.
Definition MAX_STREAMS : nat := 128.
Definition MAX_PENDING_OUTFLOWS : nat := 64.
Definition MAX_POL_COMMITMENTS : nat := 196.
Definition TRS_CAP_PROPOSAL_BPS : Z := 500.
Definition TRS_CAP_30D_BPS : Z := 1000.
Definition TRS_CAP_180D_BPS : Z := 3000.
Definition TRS_STREAM_THRESHOLD_BPS : Z := 100.
Definition ISS_INFLATION_CAP_BPS : Z := 200.
Definition DAY_BLOCKS : BlockNumber := 14400.
Definition MAX_FUNDED_CORETIME_PERIODS : nat := 8.

Inductive KeeperMeterClass : Type :=
| DecisionCritical
| General.

Record KeeperMeter : Type := {
  km_epoch : EpochId;
  km_spent : Balance;
  km_general_spent : Balance;
  km_low_emitted : bool;
  km_exhausted_emitted : bool;
}.

Definition keeper_meter_default : KeeperMeter :=
  {| km_epoch := 0; km_spent := 0; km_general_spent := 0; km_low_emitted := false; km_exhausted_emitted := false |}.

Inductive TreasuryAccount : Type :=
| AccMain
| AccPol
| AccPolBaseline
| AccInsurance
| AccKeeper
| AccOracle
| AccRewards
| AccOps.

Inductive BudgetLine : Type :=
| LinePol
| LinePolBaseline
| LineKeeper
| LineOracle
| LineRewards
| OpsBootnodes
| OpsRpcArchive
| OpsCollators
| OpsKeepers
| OpsOracleEvidence
| OpsWatchtowers
| OpsMonitoring
| OpsArweave
| OpsCoretime
| OpsReserveProbe.

#[export] Instance BudgetLine_eq_dec : EqDecision BudgetLine.
Proof. solve_decision. Defined.

Definition line_account (l : BudgetLine) : TreasuryAccount :=
  match l with
  | LinePol => AccPol
  | LinePolBaseline => AccPolBaseline
  | LineKeeper => AccKeeper
  | LineOracle => AccOracle
  | LineRewards => AccRewards
  | _ => AccOps
  end.

Definition vit_issuance_allowed (l : BudgetLine) : bool :=
  match l with LinePol | LinePolBaseline | LineKeeper | LineOracle => false | _ => true end.

Inductive AssetKind : Type :=
| AssetUsdc
| AssetVit
| AssetForeign (id : H256).

Record NavComponents : Type := {
  nv_nav : Balance;
  nv_spendable_nav : Balance;
  nv_reserve_impaired : bool;
  nv_meter_utilization_bps : Z;
}.

Record StreamInput : Type := {
  si_line : BudgetLine;
  si_recipient : AccountId;
  si_total : Balance;
  si_start : BlockNumber;
  si_duration : BlockNumber;
}.

Record Stream : Type := {
  st_id : Z;
  st_recipient : AccountId;
  st_line : BudgetLine;
  st_total : Balance;
  st_claimed : Balance;
  st_start : BlockNumber;
  st_duration : BlockNumber;
  st_cancelled : bool;
}.

Record CoretimeQuote : Type := {
  cq_period_index : Z;
  cq_price : Balance;
  cq_noted_at : Z;
}.

(** The array of the code, a list of the length [BUCKETS]. *)
Record RollingMeter : Type := {
  rm_limit_bps : Z;
  rm_buckets : list Balance;
  rm_last_day : BlockNumber;
}.

Inductive TreasuryEvent : Type :=
| TrSpent (line : BudgetLine) (dest : AccountId) (amount : Balance)
| TrStreamOpened (id : Z) (recipient : AccountId) (total : Balance)
| TrStreamClaimed (id : Z) (recipient : AccountId) (amount : Balance)
| TrStreamCancelled (id : Z) (reverted : Balance)
| TrBudgetLineFunded (line : BudgetLine) (amount : Balance)
| TrVitIssued (amount : Balance) (line : BudgetLine) (meter_after : Balance)
| TrNavHaircutFlagged (epoch : EpochId) (flag : bool)
| TrForeignRecovered (asset : AssetKind) (dest : AccountId) (amount : Balance)
| TrCoretimeRenewalCalled (line : BudgetLine) (amount : Balance)
| TrReserveProbeFeeCharged (line : BudgetLine) (amount : Balance)
| TrCoretimeQuoteNoted (period_index : Z) (price : Balance)
| TrCoretimeQuotePruned (period_index : Z)
| TrNavFloorUnmet (class : ProposalClass) (nav floor : Balance)
| TrKeeperBudgetLow (remaining : Balance)
| TrKeeperBudgetExhausted (epoch : EpochId) (spent : Balance)
| TrInsuranceSwept (amount : Balance).

Inductive TreasuryError : Type :=
| TeBadOrigin
| TeUnknownBudgetLine
| TeInsufficientFunds
| TeReserveImpaired
| TeProposalCapExceeded
| TeStreamRequired
| TeMeterExhausted
| TeStreamNotFound
| TeStreamNotClaimable
| TeNotRecipient
| TeAlreadyCancelled
| TeBadDuration
| TeRenewalWindowClosed
| TePeriodAlreadyFunded
| TeTooManyStreams
| TeTooManyBudgetLines
| TeTooManyObligations
| TeIssuanceLineNotAllowed
| TeIssuanceCapExceeded
| TeUnknownForeignAsset
| TeNavFloorUnmet
| TeZeroQuote
| TeOverflow
| TeQuoteExpired
| TeQuoteNotExpired
| TeRateUnset
| TeFeeBudgetUnset
| TeQuoteTtlUnset
| TeQuoteTimestampInFuture.

Record Treasury : Type := {
  tr_main_usdc : Balance;
  tr_vit_supply : Balance;
  tr_reserve_impaired : bool;
  tr_lines : list (BudgetLine * Balance);
  tr_streams : list Stream;
  tr_pending_outflows : list Balance;
  tr_pol_commitments : list Balance;
  tr_meter_30d : RollingMeter;
  tr_meter_180d : RollingMeter;
  tr_issuance : RollingMeter;
  tr_events : list TreasuryEvent;
  tr_next_stream_id : Z;
  tr_vit_lines : list (BudgetLine * Balance);
  tr_funded_coretime_periods : list Z;
  tr_coretime_quotes : list CoretimeQuote;
  tr_cap_proposal_bps : Z;
  tr_stream_threshold_bps : Z;
  tr_keeper_meter : KeeperMeter;
}.

Definition set_main_usdc x t := {| t with tr_main_usdc := x |}.
Definition set_vit_supply x t := {| t with tr_vit_supply := x |}.
Definition set_impaired x t := {| t with tr_reserve_impaired := x |}.
Definition set_lines x t := {| t with tr_lines := x |}.
Definition set_streams x t := {| t with tr_streams := x |}.
Definition set_pending x t := {| t with tr_pending_outflows := x |}.
Definition set_pol x t := {| t with tr_pol_commitments := x |}.
Definition set_meters x y t := {| t with tr_meter_30d := x; tr_meter_180d := y |}.
Definition set_issuance x t := {| t with tr_issuance := x |}.
Definition set_tr_events x t := {| t with tr_events := x |}.
Definition set_next_stream_id x t := {| t with tr_next_stream_id := x |}.
Definition set_vit_lines x t := {| t with tr_vit_lines := x |}.
Definition set_funded_periods x t := {| t with tr_funded_coretime_periods := x |}.
Definition set_coretime_quotes x t := {| t with tr_coretime_quotes := x |}.
Definition set_keeper_meter x t := {| t with tr_keeper_meter := x |}.

Abbreviation TM A := (ST Treasury TreasuryError A).

Definition tr_push (e : TreasuryEvent) (t : Treasury) : Treasury := set_tr_events (tr_events t ++ [e]) t.

(** ** Arithmetic *)

Definition bps (amount : Balance) (b : Z) : Result TreasuryError Balance :=
  let? product := ok_or TeOverflow (checked_mul U128 amount b) in
  ok_or TeOverflow (checked_div product 10000).

Definition vested_amount (total : Balance) (start duration now : BlockNumber) : Balance :=
  if now <=? start then 0
  else
    let elapsed := Z.min (sat_sub now start) duration in
    sat_mul U128 total elapsed / duration.

(** [fold(0, Balance::saturating_add)]. *)
Definition sat_sum (l : list Balance) : Balance := fold_left (sat_add U128) l 0.

Definition sum_lines (l : list (BudgetLine * Balance)) : Balance := sat_sum (snd <$> l).

Definition dot_to_usdc_ceil (dot_amount dot_rate : Balance) : Result TreasuryError Balance :=
  let? numerator := ok_or TeOverflow (checked_mul U128 dot_amount dot_rate) in
  let quotient := numerator / DOT_PLANCKS_PER_DOT in
  if numerator mod DOT_PLANCKS_PER_DOT =? 0 then Ok quotient else ok_or TeOverflow (checked_add U128 quotient 1).

Definition reserve_probe_fee_debit (dot_fee dot_rate : Balance) : Result TreasuryError Balance :=
  do? ensure (0 <? dot_rate) TeRateUnset in
  do? ensure (0 <? dot_fee) TeFeeBudgetUnset in
  dot_to_usdc_ceil dot_fee dot_rate.

Definition reserve_probe_runway_debit (dot_fee dot_rate : Balance) (fail_threshold recover_threshold : Z)
    : Result TreasuryError Balance :=
  let? attempts := ok_or TeOverflow (checked_add U128 fail_threshold recover_threshold) in
  do? ensure (0 <? attempts) TeFeeBudgetUnset in
  let? debit := reserve_probe_fee_debit dot_fee dot_rate in
  ok_or TeOverflow (checked_mul U128 debit attempts).

(** ** The rolling meter *)

Definition meter_new (buckets : nat) (limit_bps : Z) : RollingMeter :=
  {| rm_limit_bps := limit_bps; rm_buckets := replicate buckets 0; rm_last_day := 0 |}.

Definition buckets_of (m : RollingMeter) : Z := Z.of_nat (length (rm_buckets m)).

(** [(x) as usize % BUCKETS]. *)
Definition bucket (m : RollingMeter) (day : Z) : nat := Z.to_nat (day mod buckets_of m).

Definition meter_roll (now : BlockNumber) (m : RollingMeter) : RollingMeter :=
  let day := now / DAY_BLOCKS in
  if day <=? rm_last_day m then m
  else
    let gap := day - rm_last_day m in
    let buckets :=
      if buckets_of m <=? gap then replicate (length (rm_buckets m)) 0
      else fold_left (fun buckets offset =>
             alter (fun _ => 0) (bucket m (sat_add U32 (rm_last_day m) (Z.of_nat offset))) buckets)
             (seq 1 (Z.to_nat gap)) (rm_buckets m) in
    {| rm_limit_bps := rm_limit_bps m; rm_buckets := buckets; rm_last_day := day |}.

Definition meter_spent (m : RollingMeter) : Balance := sat_sum (rm_buckets m).

Definition can_charge (nav amount : Balance) (m : RollingMeter) : Result TreasuryError unit :=
  let? limit := bps nav (rm_limit_bps m) in
  let? next := ok_or TeOverflow (checked_add U128 (meter_spent m) amount) in
  ensure (next <=? limit) TeMeterExhausted.

Definition meter_add (now : BlockNumber) (amount : Balance) (m : RollingMeter) : Result TreasuryError RollingMeter :=
  let index := bucket m (now / DAY_BLOCKS) in
  let? total := ok_or TeOverflow (checked_add U128 (nth index (rm_buckets m) 0) amount) in
  Ok {| rm_limit_bps := rm_limit_bps m; rm_buckets := alter (fun _ => total) index (rm_buckets m);
        rm_last_day := rm_last_day m |}.

Definition meter_charge (now : BlockNumber) (nav amount : Balance) (m : RollingMeter) : Result TreasuryError RollingMeter :=
  let m := meter_roll now m in
  do? can_charge nav amount m in
  meter_add now amount m.

Definition utilization_bps (nav : Balance) (m : RollingMeter) : Z :=
  let limit := match bps nav (rm_limit_bps m) with Ok l => l | Err _ => 0 end in
  if limit =? 0 then 0 else Z.min (sat_mul U128 (meter_spent m) 10000 / limit) 10000.

(** ** Queries *)

Definition treasury_default : Treasury :=
  {| tr_main_usdc := 0; tr_vit_supply := DEFAULT_VIT_SUPPLY; tr_reserve_impaired := false; tr_lines := [];
     tr_streams := []; tr_pending_outflows := []; tr_pol_commitments := [];
     tr_meter_30d := meter_new 31 TRS_CAP_30D_BPS; tr_meter_180d := meter_new 181 TRS_CAP_180D_BPS;
     tr_issuance := meter_new 366 ISS_INFLATION_CAP_BPS; tr_events := []; tr_next_stream_id := 0; tr_vit_lines := [];
     tr_funded_coretime_periods := []; tr_coretime_quotes := []; tr_cap_proposal_bps := TRS_CAP_PROPOSAL_BPS;
     tr_stream_threshold_bps := TRS_STREAM_THRESHOLD_BPS; tr_keeper_meter := keeper_meter_default |}.

Definition line_balance (line : BudgetLine) (t : Treasury) : Balance := default 0 (snd <$> find_key fst line (tr_lines t)).
Definition vit_line_balance (line : BudgetLine) (t : Treasury) : Balance :=
  default 0 (snd <$> find_key fst line (tr_vit_lines t)).

Definition open_stream_remainders (t : Treasury) : Balance :=
  fold_left (fun acc s => sat_add U128 acc (sat_sub (st_total s) (st_claimed s)))
    (filter (fun s => st_cancelled s = false) (tr_streams t)) 0.

Definition obligations (t : Treasury) : Balance :=
  sat_add U128 (sat_add U128 (open_stream_remainders t) (sat_sum (tr_pending_outflows t))) (sat_sum (tr_pol_commitments t)).

Definition nav (t : Treasury) : NavComponents :=
  let escrow := open_stream_remainders t in
  let assets := sat_add U128 (sat_add U128 (tr_main_usdc t) (sum_lines (tr_lines t))) escrow in
  let nav := sat_sub assets (obligations t) in
  {| nv_nav := nav; nv_spendable_nav := if tr_reserve_impaired t then 0 else nav;
     nv_reserve_impaired := tr_reserve_impaired t;
     nv_meter_utilization_bps := Z.max (utilization_bps nav (tr_meter_30d t)) (utilization_bps nav (tr_meter_180d t)) |}.

Definition floor (class : ProposalClass) : Balance :=
  match class with
  | Param => 4620989 * USDC
  | Proposals.Treasury => 7393600 * USDC
  | Code => 13862944 * USDC
  | Meta => 21256533 * USDC
  | Constitutional => 21256533 * USDC
  end.

Definition ensure_spendable (t : Treasury) : Result TreasuryError unit :=
  ensure (negb (tr_reserve_impaired t)) TeReserveImpaired.

Definition ensure_treasury (origin : ClassOrigin) : Result TreasuryError unit :=
  ensure (bool_decide (origin = FutarchyTreasury)) TeBadOrigin.

Definition debitable_line (line : BudgetLine) (amount : Balance) (t : Treasury) : Result TreasuryError unit :=
  let? row := ok_or TeUnknownBudgetLine (find_key fst line (tr_lines t)) in
  ensure (amount <=? row.2) TeInsufficientFunds.

Definition debit (line : BudgetLine) (amount : Balance) (t : Treasury) : Treasury :=
  set_lines (alter_key fst line (fun r => (r.1, r.2 - amount)) (tr_lines t)) t.

Definition debit_line (line : BudgetLine) (amount : Balance) : TM unit :=
  do! reads (debitable_line line amount) in
  modify (debit line amount).

(** Both meters are charged on copies. *)
Definition charge_meters (now : BlockNumber) (nav amount : Balance) : TM unit :=
  let! t := get in
  let m30 := meter_roll now (tr_meter_30d t) in
  let m180 := meter_roll now (tr_meter_180d t) in
  do! lift (can_charge nav amount m30) in
  do! lift (can_charge nav amount m180) in
  let! m30 := lift (meter_add now amount m30) in
  let! m180 := lift (meter_add now amount m180) in
  modify (set_meters m30 m180).

(** ** Rebates and rewards *)

Definition set_km_spent x k := {| k with km_spent := x |}.
Definition set_km_general x k := {| k with km_general_spent := x |}.
Definition set_km_low x k := {| k with km_low_emitted := x |}.
Definition set_km_exhausted x k := {| k with km_exhausted_emitted := x |}.

Definition emit_low (remaining : Balance) (t : Treasury) : Treasury :=
  if negb (km_low_emitted (tr_keeper_meter t))
  then set_keeper_meter (set_km_low true (tr_keeper_meter t)) (tr_push (TrKeeperBudgetLow remaining) t)
  else t.

Definition emit_exhausted (epoch : EpochId) (spent : Balance) (t : Treasury) : Treasury :=
  if negb (km_exhausted_emitted (tr_keeper_meter t))
  then set_keeper_meter (set_km_exhausted true (tr_keeper_meter t)) (tr_push (TrKeeperBudgetExhausted epoch spent) t)
  else t.

Definition is_general (class : KeeperMeterClass) : bool := match class with General => true | _ => false end.

(** The rebate of a class within its tranche: the new general total, if any. *)
Definition general_tranche (class : KeeperMeterClass) (rebate budget : Balance) (k : KeeperMeter) : option (option Balance) :=
  if is_general class then
    match checked_add U128 (km_general_spent k) rebate with
    | Some next => if budget / 5 <? next then None else Some (Some next)
    | None => None
    end
  else Some None.

(** The result is the amount paid. *)
Definition keeper_rebate (now_epoch : EpochId) (class : KeeperMeterClass) (rebate budget : Balance) (t : Treasury)
    : Balance * Treasury :=
  let t := if negb (km_epoch (tr_keeper_meter t) =? now_epoch)
           then set_keeper_meter {| keeper_meter_default with km_epoch := now_epoch |} t else t in
  let k := tr_keeper_meter t in
  if km_exhausted_emitted k then (0, t)
  else if (rebate =? 0) || (budget =? 0) then (0, t)
  else
    match checked_add U128 (km_spent k) rebate with
    | Some next_spent =>
        if budget <? next_spent
        then (0, emit_exhausted now_epoch (km_spent k) (emit_low (sat_sub budget (km_spent k)) t))
        else
          match general_tranche class rebate budget k with
          | None => (0, t)
          | Some next_general =>
              match debitable_line LineKeeper rebate t with
              | Err _ => (0, t)
              | Ok _ =>
                  let t := debit LineKeeper rebate t in
                  let k := set_km_spent next_spent k in
                  let k := match next_general with Some g => set_km_general g k | None => k end in
                  let t := set_keeper_meter k t in
                  let t := if sat_sub budget (budget / 5) <=? next_spent
                           then emit_low (sat_sub budget next_spent) t else t in
                  let t := if next_spent =? budget then emit_exhausted now_epoch next_spent t else t in
                  (rebate, t)
              end
          end
    | None => (0, emit_exhausted now_epoch (km_spent k) (emit_low (sat_sub budget (km_spent k)) t))
    end.

Definition oracle_line_rebate (rebate : Balance) (t : Treasury) : Balance * Treasury :=
  if rebate =? 0 then (0, t)
  else match debitable_line LineOracle rebate t with
       | Err _ => (0, t)
       | Ok _ => (rebate, debit LineOracle rebate t)
       end.

Definition proposer_reward (dest : AccountId) (amount : Balance) : TM unit :=
  if amount =? 0 then ret tt
  else
    do! reads (debitable_line LineRewards amount) in
    do! modify (debit LineRewards amount) in
    modify (tr_push (TrSpent LineRewards dest amount)).

Definition total_blocks (shares : list (AccountId * Z)) : Result TreasuryError Z :=
  try_fold (fun total (s : AccountId * Z) => ok_or TeOverflow (checked_add U128 total s.2)) 0 shares.

(** The loop over the shares: the payouts and their sum. *)
Fixpoint collator_payouts (pool blocks : Balance) (shares : list (AccountId * Z)) (payouts : list (AccountId * Balance))
    (total : Balance) : Result TreasuryError (list (AccountId * Balance) * Balance) :=
  match shares with
  | [] => Ok (payouts, total)
  | (account, n) :: shares =>
      if n =? 0 then collator_payouts pool blocks shares payouts total
      else
        let? product := ok_or TeOverflow (checked_mul U128 pool n) in
        let payout := product / blocks in
        if payout =? 0 then collator_payouts pool blocks shares payouts total
        else
          let? total := ok_or TeOverflow (checked_add U128 total payout) in
          collator_payouts pool blocks shares (payouts ++ [(account, payout)]) total
  end.

Definition collator_compensation (shares : list (AccountId * Z)) (amount_per_collator : Balance) (registered_collators : Z)
    : TM (list (AccountId * Balance)) :=
  if (amount_per_collator =? 0) || (registered_collators =? 0) || bool_decide (shares = []) then ret []
  else
    let! blocks := lift (total_blocks shares) in
    if blocks =? 0 then ret []
    else
      let! pool := lift (ok_or TeOverflow (checked_mul U128 amount_per_collator registered_collators)) in
      let! (payouts, total) := lift (collator_payouts pool blocks shares [] 0) in
      if total =? 0 then ret []
      else
        do! reads (debitable_line OpsCollators total) in
        do! modify (debit OpsCollators total) in
        do! modify (fun t => set_tr_events (tr_events t ++ ((fun p => TrSpent OpsCollators p.1 p.2) <$> payouts)) t) in
        ret payouts.

(** ** Spending *)

Definition fund_budget_line (origin : ClassOrigin) (line : BudgetLine) (amount : Balance) : TM unit :=
  do! lift (ensure_treasury origin) in
  let! t := get in
  do! match find_key fst line (tr_lines t) with
      | Some row =>
          let! credited := lift (ok_or TeOverflow (checked_add U128 row.2 amount)) in
          do! lift (ensure (amount <=? tr_main_usdc t) TeInsufficientFunds) in
          do! modify (set_main_usdc (tr_main_usdc t - amount)) in
          modify (fun t => set_lines (alter_key fst line (fun r => (r.1, credited)) (tr_lines t)) t)
      | None =>
          do! lift (ensure (length (tr_lines t) <? MAX_BUDGET_LINES)%nat TeTooManyBudgetLines) in
          do! lift (ensure (amount <=? tr_main_usdc t) TeInsufficientFunds) in
          do! modify (set_main_usdc (tr_main_usdc t - amount)) in
          modify (fun t => set_lines (tr_lines t ++ [(line, amount)]) t)
      end in
  modify (tr_push (TrBudgetLineFunded line amount)).

Definition spend (origin : ClassOrigin) (now : BlockNumber) (line : BudgetLine) (dest : AccountId) (amount : Balance) : TM unit :=
  do! lift (ensure_treasury origin) in
  do! reads ensure_spendable in
  let! t := get in
  let! threshold := lift (bps (nv_nav (nav t)) (tr_stream_threshold_bps t)) in
  do! lift (ensure (amount <=? threshold) TeStreamRequired) in
  let spendable := nv_spendable_nav (nav t) in
  let! cap := lift (bps spendable (tr_cap_proposal_bps t)) in
  do! lift (ensure (amount <=? cap) TeProposalCapExceeded) in
  do! reads (debitable_line line amount) in
  do! charge_meters now spendable amount in
  do! modify (debit line amount) in
  modify (tr_push (TrSpent line dest amount)).

Definition terminal (s : Stream) : bool := st_cancelled s || (st_total s <=? st_claimed s).

(** Rust's [position(..)] and [remove(i)]. *)
Fixpoint remove_first {A} (f : A -> bool) (l : list A) : list A :=
  match l with
  | [] => []
  | x :: l => if f x then l else x :: remove_first f l
  end.

Definition open_stream (origin : ClassOrigin) (now : BlockNumber) (input : StreamInput) : TM Z :=
  do! lift (ensure_treasury origin) in
  do! reads ensure_spendable in
  do! lift (ensure (0 <? si_duration input) TeBadDuration) in
  let! t := get in
  let! reap := lift (if (length (tr_streams t) <? MAX_STREAMS)%nat then Ok false
                     else do? ensure (existsb terminal (tr_streams t)) TeTooManyStreams in Ok true) in
  let! threshold := lift (bps (nv_nav (nav t)) (tr_stream_threshold_bps t)) in
  do! lift (ensure (threshold <? si_total input) TeStreamRequired) in
  let spendable := nv_spendable_nav (nav t) in
  let! cap := lift (bps spendable (tr_cap_proposal_bps t)) in
  do! lift (ensure (si_total input <=? cap) TeProposalCapExceeded) in
  do! reads (debitable_line (si_line input) (si_total input)) in
  let! next_id := lift (ok_or TeOverflow (checked_add U64 (tr_next_stream_id t) 1)) in
  do! charge_meters now spendable (si_total input) in
  do! modify (debit (si_line input) (si_total input)) in
  do! modify (fun t => if reap : bool then set_streams (remove_first terminal (tr_streams t)) t else t) in
  let! id := gets tr_next_stream_id in
  do! modify (set_next_stream_id next_id) in
  do! modify (fun t => set_streams (tr_streams t ++
    [{| st_id := id; st_recipient := si_recipient input; st_line := si_line input; st_total := si_total input;
        st_claimed := 0; st_start := si_start input; st_duration := si_duration input; st_cancelled := false |}]) t) in
  do! modify (tr_push (TrStreamOpened id (si_recipient input) (si_total input))) in
  ret id.

Definition set_claimed (x : Balance) (s : Stream) : Stream := {| s with st_claimed := x |}.
Definition set_cancelled (s : Stream) : Stream := {| s with st_cancelled := true |}.

Definition claim_stream (who : AccountId) (now : BlockNumber) (id : Z) : TM Balance :=
  let! t := get in
  let! s := lift (ok_or TeStreamNotFound (find_key st_id id (tr_streams t))) in
  do! lift (ensure (st_recipient s =? who) TeNotRecipient) in
  do! lift (ensure (negb (st_cancelled s)) TeAlreadyCancelled) in
  let vested := vested_amount (st_total s) (st_start s) (st_duration s) now in
  let! claimable := lift (ok_or TeOverflow (checked_sub vested (st_claimed s))) in
  do! lift (ensure (0 <? claimable) TeStreamNotClaimable) in
  do! modify (set_streams (alter_key st_id id (set_claimed vested) (tr_streams t))) in
  do! modify (tr_push (TrStreamClaimed id who claimable)) in
  ret claimable.

Definition cancel_stream (origin : ClassOrigin) (id : Z) : TM Balance :=
  do! lift (ensure_treasury origin) in
  let! t := get in
  let! s := lift (ok_or TeStreamNotFound (find_key st_id id (tr_streams t))) in
  do! lift (ensure (negb (st_cancelled s)) TeAlreadyCancelled) in
  let! remainder := lift (ok_or TeOverflow (checked_sub (st_total s) (st_claimed s))) in
  let! new_main := lift (ok_or TeOverflow (checked_add U128 (tr_main_usdc t) remainder)) in
  do! modify (set_streams (alter_key st_id id set_cancelled (tr_streams t))) in
  do! modify (set_main_usdc new_main) in
  do! modify (tr_push (TrStreamCancelled id remainder)) in
  ret remainder.

(** ** Issuance *)

Definition issue_vit (origin : ClassOrigin) (now : BlockNumber) (amount : Balance) (line : BudgetLine) : TM unit :=
  do! lift (ensure_treasury origin) in
  do! lift (ensure (vit_issuance_allowed line) TeIssuanceLineNotAllowed) in
  let! t := get in
  let meter := meter_roll now (tr_issuance t) in
  let reference_supply := sat_sub (tr_vit_supply t) (meter_spent meter) in
  let! cap := lift (bps reference_supply (rm_limit_bps meter)) in
  let! next := lift (ok_or TeOverflow (checked_add U128 (meter_spent meter) amount)) in
  do! lift (ensure (next <=? cap) TeIssuanceCapExceeded) in
  let! new_supply := lift (ok_or TeOverflow (checked_add U128 (tr_vit_supply t) amount)) in
  let row := find_key fst line (tr_vit_lines t) in
  do! lift (ensure (negb (is_none row) || (length (tr_vit_lines t) <? MAX_BUDGET_LINES)%nat) TeTooManyBudgetLines) in
  let! meter := lift (meter_add now amount meter) in
  do! modify (set_issuance meter) in
  do! modify (set_vit_supply new_supply) in
  do! match row with
      | Some r =>
          let! credited := lift (ok_or TeOverflow (checked_add U128 r.2 amount)) in
          modify (fun t => set_vit_lines (alter_key fst line (fun r => (r.1, credited)) (tr_vit_lines t)) t)
      | None => modify (fun t => set_vit_lines (tr_vit_lines t ++ [(line, amount)]) t)
      end in
  modify (tr_push (TrVitIssued amount line next)).

Definition sweep_insurance (origin : ClassOrigin) (amount : Balance) : TM unit :=
  do! lift (ensure_treasury origin) in
  let! t := get in
  let! main := lift (ok_or TeOverflow (checked_add U128 (tr_main_usdc t) amount)) in
  do! modify (set_main_usdc main) in
  modify (tr_push (TrInsuranceSwept amount)).

Definition recover_foreign (origin : ClassOrigin) (asset : AssetKind) (dest : AccountId) (amount : Balance) : TM unit :=
  do! lift (ensure_treasury origin) in
  do! lift (ensure (match asset with AssetUsdc | AssetVit => false | AssetForeign _ => true end) TeUnknownForeignAsset) in
  modify (tr_push (TrForeignRecovered asset dest amount)).

(** ** Coretime *)

Definition note_coretime_renewal_quote (period_index : Z) (price : Balance) (now : Z) : TM unit :=
  do! lift (ensure (0 <? price) TeZeroQuote) in
  let! t := get in
  do! lift (ensure (negb (bool_decide (period_index ∈ tr_funded_coretime_periods t))) TePeriodAlreadyFunded) in
  let quote := {| cq_period_index := period_index; cq_price := price; cq_noted_at := now |} in
  match find_key cq_period_index period_index (tr_coretime_quotes t) with
  | Some _ =>
      do! modify (set_coretime_quotes (alter_key cq_period_index period_index (fun _ => quote) (tr_coretime_quotes t))) in
      modify (tr_push (TrCoretimeQuoteNoted period_index price))
  | None =>
      do! lift (ensure (length (tr_coretime_quotes t) <? MAX_FUNDED_CORETIME_PERIODS)%nat TeTooManyObligations) in
      do! modify (set_coretime_quotes (tr_coretime_quotes t ++ [quote])) in
      modify (tr_push (TrCoretimeQuoteNoted period_index price))
  end.

Definition prune_coretime_quote (period_index now ttl : Z) (authority : bool) : TM unit :=
  let! t := get in
  let! quote := lift (ok_or TeRenewalWindowClosed (find_key cq_period_index period_index (tr_coretime_quotes t))) in
  do! lift (if negb authority then
              do? ensure (0 <? ttl) TeQuoteTtlUnset in
              let? age := ok_or TeQuoteTimestampInFuture (checked_sub now (cq_noted_at quote)) in
              ensure (ttl <? age) TeQuoteNotExpired
            else Ok tt) in
  do! modify (set_coretime_quotes (remove_key cq_period_index period_index (tr_coretime_quotes t))) in
  modify (tr_push (TrCoretimeQuotePruned period_index)).

Definition execute_coretime_renewal (keeper : AccountId) (period_index now ttl : Z) (dot_rate fee_budget : Balance) : TM Balance :=
  let! t := get in
  do! lift (ensure (negb (bool_decide (period_index ∈ tr_funded_coretime_periods t))) TePeriodAlreadyFunded) in
  let! quote := lift (ok_or TeRenewalWindowClosed (find_key cq_period_index period_index (tr_coretime_quotes t))) in
  do! lift (ensure (0 <? ttl) TeQuoteTtlUnset) in
  do! lift (ensure (0 <? dot_rate) TeRateUnset) in
  do! lift (ensure (0 <? fee_budget) TeFeeBudgetUnset) in
  let! age := lift (ok_or TeQuoteTimestampInFuture (checked_sub now (cq_noted_at quote))) in
  do! lift (ensure (age <=? ttl) TeQuoteExpired) in
  let! total_dot := lift (ok_or TeOverflow (checked_add U128 (cq_price quote) fee_budget)) in
  let! converted_debit := lift (dot_to_usdc_ceil total_dot dot_rate) in
  do! debit_line OpsCoretime converted_debit in
  do! modify (set_coretime_quotes (remove_key cq_period_index period_index (tr_coretime_quotes t))) in
  do! modify (fun t => if (MAX_FUNDED_CORETIME_PERIODS <=? length (tr_funded_coretime_periods t))%nat
                       then set_funded_periods (tail (tr_funded_coretime_periods t)) t else t) in
  do! modify (fun t => set_funded_periods (tr_funded_coretime_periods t ++ [period_index]) t) in
  do! modify (tr_push (TrCoretimeRenewalCalled OpsCoretime converted_debit)) in
  ret (cq_price quote).

Definition charge_reserve_probe_fee (dot_fee dot_rate : Balance) : TM Balance :=
  let! converted_debit := lift (reserve_probe_fee_debit dot_fee dot_rate) in
  do! debit_line OpsReserveProbe converted_debit in
  do! modify (tr_push (TrReserveProbeFeeCharged OpsReserveProbe converted_debit)) in
  ret converted_debit.

(** ** Flags and obligations *)

Definition set_reserve_impaired (epoch : EpochId) (flag : bool) (t : Treasury) : Treasury :=
  if negb (Bool.eqb (tr_reserve_impaired t) flag) then tr_push (TrNavHaircutFlagged epoch flag) (set_impaired flag t) else t.

Definition set_pol_commitments (commitments : list Balance) : TM unit :=
  do! lift (ensure (length commitments <=? MAX_POL_COMMITMENTS)%nat TeTooManyObligations) in
  modify (set_pol commitments).

Definition set_pending_outflows (outflows : list Balance) : TM unit :=
  do! lift (ensure (length outflows <=? MAX_PENDING_OUTFLOWS)%nat TeTooManyObligations) in
  modify (set_pending outflows).

(** The event is pushed also when the call fails. *)
Definition ensure_nav_floor (class : ProposalClass) : TM unit :=
  let! t := get in
  let n := nv_spendable_nav (nav t) in
  if n <? floor class then
    do! modify (tr_push (TrNavFloorUnmet class n (floor class))) in
    throw TeNavFloorUnmet
  else ret tt.

(** ** The state checker *)

Fixpoint check_quotes (funded : list Z) (quotes : list CoretimeQuote) : Result TreasuryError unit :=
  match quotes with
  | [] => Ok tt
  | q :: rest =>
      do? ensure (0 <? cq_price q) TeZeroQuote in
      do? ensure (negb (bool_decide (cq_period_index q ∈ funded))) TePeriodAlreadyFunded in
      do? ensure (negb (existsb (fun other => cq_period_index other =? cq_period_index q) rest)) TeTooManyObligations in
      check_quotes funded rest
  end.

Definition treasury_try_state (t : Treasury) : Result TreasuryError unit :=
  do? ensure (length (tr_lines t) <=? MAX_BUDGET_LINES)%nat TeTooManyBudgetLines in
  do? ensure (length (tr_streams t) <=? MAX_STREAMS)%nat TeTooManyStreams in
  do? ensure (length (tr_pending_outflows t) <=? MAX_PENDING_OUTFLOWS)%nat TeTooManyObligations in
  do? ensure (length (tr_pol_commitments t) <=? MAX_POL_COMMITMENTS)%nat TeTooManyObligations in
  do? for_each (fun s =>
    do? ensure (st_claimed s <=? st_total s) TeOverflow in
    ensure (0 <? st_duration s) TeBadDuration) (tr_streams t) in
  do? ensure (length (tr_vit_lines t) <=? MAX_BUDGET_LINES)%nat TeTooManyBudgetLines in
  do? ensure (sum_lines (tr_vit_lines t) <=? tr_vit_supply t) TeOverflow in
  let? issuance_ceiling := bps (tr_vit_supply t) ISS_INFLATION_CAP_BPS in
  do? ensure (meter_spent (tr_issuance t) <=? issuance_ceiling) TeIssuanceCapExceeded in
  do? ensure (length (tr_funded_coretime_periods t) <=? MAX_FUNDED_CORETIME_PERIODS)%nat TeTooManyObligations in
  do? ensure (length (tr_coretime_quotes t) <=? MAX_FUNDED_CORETIME_PERIODS)%nat TeTooManyObligations in
  do? check_quotes (tr_funded_coretime_periods t) (tr_coretime_quotes t) in
  do? for_pairs (fun x y => ensure (negb (bool_decide (x = y))) TeTooManyObligations) (tr_funded_coretime_periods t) in
  ensure (km_general_spent (tr_keeper_meter t) <=? km_spent (tr_keeper_meter t)) TeOverflow.

Definition treasury_try_state_at (now : Z) (t : Treasury) : Result TreasuryError unit :=
  do? treasury_try_state t in
  ensure (forallb (fun q => cq_noted_at q <=? now) (tr_coretime_quotes t)) TeQuoteTimestampInFuture.
