(* ===== verification/TreasuryInv.v ===== *)
(** * The rolling meter as a sum over a window, and the treasury as a system

    A meter of [B] buckets holds, per residue of the day modulo [B], what was
    charged on the last day of that residue; together that is the sum over the
    last [B] days. The system adds the clock and the history of the metered
    charges to the treasury, and its invariant ties the two. *)

From S2P Require Import Prelude Keyed Primitives Proposals Origins Treasury.

(** ** Charges and windows *)

(** A charge: its day and its amount. *)
Abbreviation history := (list (Z * Z)).

(** What was charged after the day [lo]. *)
Definition since (lo : Z) (h : history) : Z := sum_by (fun c => if lo <? c.1 then c.2 else 0) h.

Definition cell (B lo : Z) (h : history) (i : Z) : Z :=
  sum_by (fun c => if (lo <? c.1) && (c.1 mod B =? i) then c.2 else 0) h.

Record meter_ok (B : nat) (h : history) (m : RollingMeter) : Prop := {
  mo_size : (0 < B)%nat;
  mo_day : 0 <= rm_last_day m;
  mo_past : forall c, c ∈ h -> 0 <= c.1 <= rm_last_day m /\ 0 <= c.2;
  mo_buckets : rm_buckets m
    = (fun i => cell (Z.of_nat B) (rm_last_day m - Z.of_nat B) h (Z.of_nat i)) <$> seq 0 B;
}.

Lemma meter_new_ok B l : (0 < B)%nat -> meter_ok B [] (meter_new B l).
Proof.
  intros HB. constructor; cbn; try done; [by intros c ?%elem_of_nil|]. clear HB. generalize 0%nat.
  induction B as [|B IH]; intros k; cbn; [done|]. by rewrite (IH (S k)).
Qed.

Lemma mo_length B h m : meter_ok B h m -> length (rm_buckets m) = B.
Proof. intros Hm. rewrite (mo_buckets _ _ _ Hm), length_fmap. apply length_seq. Qed.

Lemma sat_sum_eq l : Forall (fun a => 0 <= a) l -> sat_sum l = Z.min (sum_by (fun a => a) l) (U128 - 1).
Proof.
  unfold sat_sum. intros Hl. enough (forall acc, 0 <= acc < U128 -> fold_left (sat_add U128) l acc
    = Z.min (acc + sum_by (fun a => a) l) (U128 - 1)) as -> by done.
  induction Hl as [|a l Ha Hl IH]; intros acc Hacc; cbn; [lia|]. rewrite IH by (unfold sat_add; lia).
  pose proof (sum_by_nonneg (fun a => a) l (proj1 (Forall_forall _ l) Hl)). unfold sat_add. lia.
Qed.

Lemma sum_residues B d a k : (0 < B)%nat -> 0 <= d -> (k <= B)%nat ->
  sum_by (fun i => if d mod Z.of_nat B =? Z.of_nat i then a else 0) (seq 0 k) = if d mod Z.of_nat B <? Z.of_nat k then a else 0.
Proof.
  intros HB Hd. induction k as [|k IH]; intros Hk; [cbn; pose proof (Z.mod_pos_bound d (Z.of_nat B)); destruct (_ <? _) eqn:E; to_prop; lia|].
  rewrite seq_S, sum_by_app, IH by lia. cbn.
  destruct (d mod Z.of_nat B <? Z.of_nat k) eqn:E1, (d mod Z.of_nat B =? Z.of_nat k) eqn:E2,
    (d mod Z.of_nat B <? Z.of_nat (S k)) eqn:E3; to_prop; lia.
Qed.

Lemma sum_by_add {V} (f g : V -> Z) l : sum_by (fun v => f v + g v) l = sum_by f l + sum_by g l.
Proof. induction l as [|v l IH]; cbn; [done|]. rewrite IH. lia. Qed.

Lemma sum_by_fmap {V W} (f : V -> W) (m : W -> Z) l : sum_by m (f <$> l) = sum_by (fun v => m (f v)) l.
Proof. induction l as [|v l IH]; cbn; [done|]. by rewrite IH. Qed.

(** The buckets together are the window. *)
Lemma cells_sum B lo h : (0 < B)%nat -> (forall c, c ∈ h -> 0 <= c.1) ->
  sum_by (fun i => cell (Z.of_nat B) lo h (Z.of_nat i)) (seq 0 B) = since lo h.
Proof.
  intros HB. induction h as [|[d a] h IH]; intros Hh; unfold cell, since; cbn [sum_by].
  - apply sum_by_zero. done.
  - rewrite sum_by_add. unfold cell, since in IH. rewrite IH by (intros c Hc; apply Hh; by right).
    f_equal. assert (0 <= d) as Hd by (apply (Hh (d, a)); left). cbn [fst snd].
    destruct (lo <? d); cbn [andb]; [|apply sum_by_zero; done].
    rewrite sum_residues by (done || lia). pose proof (Z.mod_pos_bound d (Z.of_nat B)).
    destruct (_ <? _) eqn:E; to_prop; lia.
Qed.

Lemma since_nonneg lo h : (forall c, c ∈ h -> 0 <= c.2) -> 0 <= since lo h.
Proof. intros Hh. apply sum_by_nonneg. intros c Hc. pose proof (Hh c Hc). destruct (_ <? _); lia. Qed.

Lemma since_mono lo lo' h : lo <= lo' -> (forall c, c ∈ h -> 0 <= c.2) -> since lo' h <= since lo h.
Proof.
  intros Hlo. unfold since. induction h as [|c h IH]; intros Hh; cbn; [lia|].
  assert (0 <= c.2) by (apply Hh; left). specialize (IH (fun c' Hc' => Hh c' (list_elem_of_further _ _ _ Hc'))).
  destruct (lo <? c.1) eqn:E1, (lo' <? c.1) eqn:E2; to_prop; lia.
Qed.

Lemma since_app lo h1 h2 : since lo (h1 ++ h2) = since lo h1 + since lo h2.
Proof. apply sum_by_app. Qed.

Lemma meter_spent_eq B h m : meter_ok B h m -> meter_spent m = Z.min (since (rm_last_day m - Z.of_nat B) h) (U128 - 1).
Proof.
  intros Hm. unfold meter_spent. rewrite sat_sum_eq.
  - rewrite (mo_buckets _ _ _ Hm) at 1. rewrite sum_by_fmap, cells_sum; [done|apply Hm|]. intros c Hc. by apply (mo_past _ _ _ Hm).
  - rewrite (mo_buckets _ _ _ Hm). apply Forall_fmap, Forall_forall. intros i _. cbn. apply sum_by_nonneg. intros c Hc.
    destruct (mo_past _ _ _ Hm c Hc). destruct (_ && _); lia.
Qed.

(** ** Rolling *)

Lemma zero_buckets (offs : list nat) (f : nat -> nat) (l : list Z) i :
  fold_left (fun l off => alter (fun _ => 0) (f off) l) offs l !! i
  = if decide (i ∈ f <$> offs) then (fun _ => 0) <$> l !! i else l !! i.
Proof.
  revert l. induction offs as [|off offs IH]; intros l; cbn [fold_left]; [by rewrite decide_False by apply not_elem_of_nil|].
  rewrite IH. destruct (decide (f off = i)) as [<-|Hne].
  - rewrite list_lookup_alter_eq, (decide_True (P := _ ∈ f <$> (off :: offs))) by (rewrite fmap_cons; left).
    destruct (decide _); [|done]. by destruct (l !! f off).
  - rewrite list_lookup_alter_ne by done. rewrite fmap_cons.
    destruct (decide (i ∈ f <$> offs)) as [H|H]; [by rewrite decide_True by (by right)|].
    rewrite decide_False; [done|]. intros [->|?]%elem_of_cons; done.
Qed.

Lemma meter_roll_ok B h m now :
  meter_ok B h m -> 0 <= now < U32 ->
  meter_ok B h (meter_roll now m) /\ rm_last_day (meter_roll now m) = Z.max (rm_last_day m) (now / DAY_BLOCKS)
  /\ rm_limit_bps (meter_roll now m) = rm_limit_bps m.
Proof.
  intros Hm Hnow. pose proof Hm as [HB Hd Hp Hb]. pose proof (mo_length _ _ _ Hm) as Hlen. unfold meter_roll.
  set (day := now / DAY_BLOCKS). assert (0 <= day < U32) as Hday.
  { unfold day, DAY_BLOCKS. split; [apply Z.div_pos; lia|apply Z.div_lt_upper_bound; lia]. }
  destruct (day <=? rm_last_day m) eqn:E; to_prop; [split; [done|split; [lia|done]]|].
  cbn [rm_last_day rm_limit_bps]. split; [|split; [lia|done]]. unfold buckets_of, bucket, buckets_of. rewrite Hlen.
  constructor; cbn [rm_last_day rm_buckets]; [done|lia|intros c Hc; destruct (Hp c Hc); lia|].
  apply list_eq. intros i. rewrite list_lookup_fmap.
  destruct (decide (i < B)%nat) as [Hi|Hi].
  2:{ rewrite (lookup_ge_None_2 (seq 0 B)) by (rewrite length_seq; lia). cbn. apply lookup_ge_None_2.
      destruct (_ <=? _); [rewrite length_replicate; lia|].
      enough (forall offs l, length (fold_left (fun l off => alter (fun _ => 0) (Z.to_nat (sat_add U32 (rm_last_day m) (Z.of_nat off)
        mod Z.of_nat B)) l) offs l) = length (l : list Z)) as -> by lia.
      induction offs as [|off offs IH]; intros l; cbn; [done|]. by rewrite IH, length_alter. }
  rewrite lookup_seq_lt by lia. cbn [fmap option_fmap option_map]. rewrite Nat.add_0_l.
  assert (rm_buckets m !! i = Some (cell (Z.of_nat B) (rm_last_day m - Z.of_nat B) h (Z.of_nat i))) as Hold.
  { rewrite Hb, list_lookup_fmap, lookup_seq_lt by lia. done. }
  assert (forall d, 0 <= d -> d mod Z.of_nat B = Z.of_nat i -> rm_last_day m - Z.of_nat B < d <= rm_last_day m ->
    forall d', rm_last_day m < d' <= rm_last_day m + Z.of_nat B -> d' mod Z.of_nat B = Z.of_nat i -> d' = d + Z.of_nat B) as Huniq.
  { intros d Hd0 Hdi Hr d' Hr' Hdi'. pose proof (Z.div_mod d (Z.of_nat B)). pose proof (Z.div_mod d' (Z.of_nat B)).
    assert (d' / Z.of_nat B = d / Z.of_nat B + 1); [|nia].
    assert (Z.of_nat B * (d' / Z.of_nat B - d / Z.of_nat B) = d' - d) by nia. nia. }
  destruct (Z.of_nat B <=? day - rm_last_day m) eqn:Eg; to_prop.
  - rewrite lookup_replicate_2 by done. f_equal. symmetry. apply sum_by_zero. intros c Hc. destruct (Hp c Hc).
    destruct (day - Z.of_nat B <? c.1) eqn:El; to_prop; [lia|done].
  - rewrite zero_buckets, Hold. destruct (decide _) as [(off & Ei & Ho%elem_of_seq)%list_elem_of_fmap|Hno]; cbn [fmap option_fmap option_map]; f_equal.
    + symmetry. apply sum_by_zero. intros c Hc. destruct (Hp c Hc) as [Hc1 _].
      destruct ((day - Z.of_nat B <? c.1) && (c.1 mod Z.of_nat B =? Z.of_nat i)) eqn:El; [|done]. to_prop. exfalso.
      unfold sat_add in Ei. rewrite Z.min_l in Ei by lia. pose proof (Z.mod_pos_bound (rm_last_day m + Z.of_nat off) (Z.of_nat B)).
      pose proof (Huniq c.1 ltac:(lia) ltac:(lia) ltac:(lia) (rm_last_day m + Z.of_nat off) ltac:(lia) ltac:(lia)). lia.
    + apply sum_by_ext. intros c Hc. destruct (Hp c Hc) as [Hc1 _].
      destruct (c.1 mod Z.of_nat B =? Z.of_nat i) eqn:Ei; [|by rewrite !andb_false_r]. to_prop. rewrite !andb_true_r.
      destruct (day - Z.of_nat B <? c.1) eqn:E1, (rm_last_day m - Z.of_nat B <? c.1) eqn:E2; to_prop; try done; [lia|]. exfalso.
      apply Hno, list_elem_of_fmap. exists (Z.to_nat (c.1 + Z.of_nat B - rm_last_day m)). split; [|apply elem_of_seq; lia].
      unfold sat_add. rewrite Z.min_l by lia. rewrite Z2Nat.id by lia.
      replace (rm_last_day m + (c.1 + Z.of_nat B - rm_last_day m)) with (c.1 + 1 * Z.of_nat B) by lia.
      rewrite Z.mod_add by lia. lia.
Qed.

(** ** Charging *)

Lemma bps_Ok a b l : bps a b = Ok l <-> a * b < U128 /\ l = a * b / 10000.
Proof.
  unfold bps, checked_div. change (10000 =? 0) with false. cbv iota. split.
  - intros H. inv_all. by simplify_eq.
  - intros [Hlt ->]. unfold checked_mul. by rewrite (proj2 (Z.ltb_lt _ _)).
Qed.

Lemma meter_add_ok B h m now amount m' :
  meter_ok B h m -> rm_last_day m = now / DAY_BLOCKS -> 0 <= amount -> meter_add now amount m = Ok m' ->
  meter_ok B (h ++ [(now / DAY_BLOCKS, amount)]) m' /\ rm_last_day m' = rm_last_day m /\ rm_limit_bps m' = rm_limit_bps m.
Proof.
  intros Hm Hnow Ha H. pose proof Hm as [HB Hd Hp Hb]. pose proof (mo_length _ _ _ Hm) as Hlen.
  unfold meter_add, bucket, buckets_of in H. rewrite Hlen, <- Hnow in H.
  pose proof (Z.mod_pos_bound (rm_last_day m) (Z.of_nat B)) as Hmod. inv_all. subst m'. cbn [rm_last_day rm_limit_bps]. split; [|done].
  rewrite <- Hnow. constructor; cbn [rm_last_day rm_buckets]; [done|done| |].
  - intros c [Hc| ->%list_elem_of_singleton]%elem_of_app; [by apply Hp|cbn; lia].
  - apply list_eq. intros i. rewrite list_lookup_fmap. destruct (decide (i < B)%nat) as [Hi|Hi].
    2:{ rewrite (lookup_ge_None_2 (seq 0 B)) by (rewrite length_seq; lia). cbn. apply lookup_ge_None_2. rewrite length_alter. lia. }
    rewrite lookup_seq_lt by lia. cbn [fmap option_fmap option_map]. rewrite Nat.add_0_l.
    assert (rm_buckets m !! i = Some (cell (Z.of_nat B) (rm_last_day m - Z.of_nat B) h (Z.of_nat i))) as Hold.
    { rewrite Hb, list_lookup_fmap, lookup_seq_lt by lia. done. }
    unfold cell. rewrite sum_by_app. cbn [sum_by fst snd].
    replace (rm_last_day m - Z.of_nat B <? rm_last_day m) with true by (symmetry; apply Z.ltb_lt; lia). cbn [andb].
    destruct (decide (Z.to_nat (rm_last_day m mod Z.of_nat B) = i)) as [E|Hne].
    + rewrite E, list_lookup_alter_eq, Hold. cbn [fmap option_fmap option_map].
      rewrite (nth_lookup_Some _ _ _ _ Hold). replace (rm_last_day m mod Z.of_nat B =? Z.of_nat i) with true by (symmetry; apply Z.eqb_eq; lia).
      f_equal. unfold cell. lia.
    + rewrite list_lookup_alter_ne, Hold by done. replace (rm_last_day m mod Z.of_nat B =? Z.of_nat i) with false by (symmetry; apply Z.eqb_neq; lia).
      f_equal. unfold cell. lia.
Qed.

Lemma can_charge_fits B h m nav amount u :
  meter_ok B h m -> 0 <= amount -> can_charge nav amount m = Ok u ->
  10000 * (since (rm_last_day m - Z.of_nat B) h + amount) <= nav * rm_limit_bps m.
Proof.
  intros Hm Ha H. unfold can_charge in H. inv_all. to_prop.
  match goal with H : bps _ _ = Ok _ |- _ => apply bps_Ok in H as [Hlt ->] end.
  rewrite (meter_spent_eq _ _ _ Hm) in *.
  assert (0 <= since (rm_last_day m - Z.of_nat B) h) by (apply since_nonneg; intros c Hc; by apply (mo_past _ _ _ Hm)).
  pose proof (Z.div_mod (nav * rm_limit_bps m) 10000). pose proof (Z.mod_pos_bound (nav * rm_limit_bps m) 10000).
  assert (nav * rm_limit_bps m / 10000 < 34028236692093846346337460743176822) by (apply Z.div_lt_upper_bound; lia). lia.
Qed.

(** A charge that the meter admits at [now], as the code composes it. *)
Lemma charge_ok B h m now nav amount u m' :
  meter_ok B h m -> 0 <= now < U32 -> rm_last_day m <= now / DAY_BLOCKS -> 0 <= amount ->
  can_charge nav amount (meter_roll now m) = Ok u -> meter_add now amount (meter_roll now m) = Ok m' ->
  meter_ok B (h ++ [(now / DAY_BLOCKS, amount)]) m' /\ rm_last_day m' = now / DAY_BLOCKS
  /\ rm_limit_bps m' = rm_limit_bps m
  /\ 10000 * since (now / DAY_BLOCKS - Z.of_nat B) (h ++ [(now / DAY_BLOCKS, amount)]) <= nav * rm_limit_bps m.
Proof.
  intros Hm Hnow Hle Ha Hc Hadd. destruct (meter_roll_ok _ _ _ _ Hm Hnow) as (Hr & Hd & Hl). rewrite Z.max_r in Hd by done.
  pose proof (can_charge_fits _ _ _ _ _ _ Hr Ha Hc) as Hfit. rewrite Hd, Hl in Hfit.
  destruct (meter_add_ok _ _ _ _ _ _ Hr Hd Ha Hadd) as (Ho & Hd' & Hl'). split_and!; [done|congruence|congruence|].
  rewrite since_app. unfold since at 2. cbn. pose proof (mo_size _ _ _ Hm).
  replace (now / DAY_BLOCKS - Z.of_nat B <? now / DAY_BLOCKS) with true by (symmetry; apply Z.ltb_lt; lia). lia.
Qed.

(** ** The system *)

(** The pallet refreshes the live limits when it loads the treasury. *)
Definition refresh_limits (cap_proposal stream_threshold cap_30d cap_180d inflation : Z) (t : Treasury) : Treasury :=
  {| t with tr_cap_proposal_bps := cap_proposal; tr_stream_threshold_bps := stream_threshold;
     tr_meter_30d := {| rm_limit_bps := cap_30d; rm_buckets := rm_buckets (tr_meter_30d t);
                        rm_last_day := rm_last_day (tr_meter_30d t) |};
     tr_meter_180d := {| rm_limit_bps := cap_180d; rm_buckets := rm_buckets (tr_meter_180d t);
                         rm_last_day := rm_last_day (tr_meter_180d t) |};
     tr_issuance := {| rm_limit_bps := inflation; rm_buckets := rm_buckets (tr_issuance t);
                       rm_last_day := rm_last_day (tr_issuance t) |} |}.

Inductive TreasuryCall : Type :=
| TKeeperRebate (now_epoch : EpochId) (class : KeeperMeterClass) (rebate budget : Balance)
| TOracleRebate (rebate : Balance)
| TProposerReward (dest : AccountId) (amount : Balance)
| TCollators (shares : list (AccountId * Z)) (amount_per_collator : Balance) (registered_collators : Z)
| TFund (origin : ClassOrigin) (line : BudgetLine) (amount : Balance)
| TSpend (origin : ClassOrigin) (now : BlockNumber) (line : BudgetLine) (dest : AccountId) (amount : Balance)
| TOpenStream (origin : ClassOrigin) (now : BlockNumber) (input : StreamInput)
| TClaim (who : AccountId) (now : BlockNumber) (id : Z)
| TCancel (origin : ClassOrigin) (id : Z)
| TIssue (origin : ClassOrigin) (now : BlockNumber) (amount : Balance) (line : BudgetLine)
| TSweep (origin : ClassOrigin) (amount : Balance)
| TRecover (origin : ClassOrigin) (asset : AssetKind) (dest : AccountId) (amount : Balance)
| TNoteQuote (period_index : Z) (price : Balance) (now : Z)
| TPruneQuote (period_index now ttl : Z) (authority : bool)
| TRenew (keeper : AccountId) (period_index now ttl : Z) (dot_rate fee_budget : Balance)
| TProbeFee (dot_fee dot_rate : Balance)
| TSetImpaired (epoch : EpochId) (flag : bool)
| TSetPol (commitments : list Balance)
| TSetPending (outflows : list Balance)
| TEnsureFloor (class : ProposalClass)
| TRefresh (cap_proposal stream_threshold cap_30d cap_180d inflation : Z).

(** The result of a call: what a rebate pays, and nothing to tell otherwise. *)
Definition treasury_exec (c : TreasuryCall) : TM Balance :=
  match c with
  | TKeeperRebate e class r b => fun t => let '(paid, t) := keeper_rebate e class r b t in (Ok paid, t)
  | TOracleRebate r => fun t => let '(paid, t) := oracle_line_rebate r t in (Ok paid, t)
  | TProposerReward d a => do! proposer_reward d a in ret 0
  | TCollators s a n => do! collator_compensation s a n in ret 0
  | TFund o l a => do! fund_budget_line o l a in ret 0
  | TSpend o now l d a => do! spend o now l d a in ret 0
  | TOpenStream o now i => do! open_stream o now i in ret 0
  | TClaim w now id => do! claim_stream w now id in ret 0
  | TCancel o id => do! cancel_stream o id in ret 0
  | TIssue o now a l => do! issue_vit o now a l in ret 0
  | TSweep o a => do! sweep_insurance o a in ret 0
  | TRecover o asset d a => do! recover_foreign o asset d a in ret 0
  | TNoteQuote p price now => do! note_coretime_renewal_quote p price now in ret 0
  | TPruneQuote p now ttl auth => do! prune_coretime_quote p now ttl auth in ret 0
  | TRenew k p now ttl rate fee => do! execute_coretime_renewal k p now ttl rate fee in ret 0
  | TProbeFee fee rate => do! charge_reserve_probe_fee fee rate in ret 0
  | TSetImpaired e flag => do! modify (set_reserve_impaired e flag) in ret 0
  | TSetPol l => do! set_pol_commitments l in ret 0
  | TSetPending l => do! set_pending_outflows l in ret 0
  | TEnsureFloor class => do! ensure_nav_floor class in ret 0
  | TRefresh a b c d e => do! modify (refresh_limits a b c d e) in ret 0
  end.

Record TreasurySystem : Type := {
  ty_now : BlockNumber;
  ty_out : history;
  ty_mints : history;
  ty_t : Treasury;
}.

Definition call_now (c : TreasuryCall) (now : BlockNumber) : BlockNumber :=
  match c with TSpend _ n _ _ _ | TOpenStream _ n _ | TClaim _ n _ | TIssue _ n _ _ => n | _ => now end.

Definition outflow (c : TreasuryCall) : history :=
  match c with
  | TSpend _ now _ _ a => [(now / DAY_BLOCKS, a)]
  | TOpenStream _ now i => [(now / DAY_BLOCKS, si_total i)]
  | _ => []
  end.

Definition minted (c : TreasuryCall) : history := match c with TIssue _ now a _ => [(now / DAY_BLOCKS, a)] | _ => [] end.

(** The clock does not run back, unsigned integers are not negative, and the
    inflation cap is amended downwards only. *)
Definition treasury_call_ok (c : TreasuryCall) (now : BlockNumber) : Prop :=
  now <= call_now c now < U32 /\
  match c with
  | TKeeperRebate _ _ r b => 0 <= r /\ 0 <= b
  | TOracleRebate a | TProposerReward _ a | TFund _ _ a | TSpend _ _ _ _ a | TIssue _ _ a _ | TSweep _ a => 0 <= a
  | TCollators shares a n => 0 <= a /\ 0 <= n /\ (forall s, s ∈ shares -> 0 <= s.2)
  | TOpenStream _ _ i => 0 <= si_total i < U128 /\ 0 <= si_start i /\ 0 <= si_duration i
  | TRenew _ _ _ _ rate fee | TProbeFee rate fee => 0 <= rate /\ 0 <= fee
  | TRefresh _ _ _ _ inflation => 0 <= inflation <= ISS_INFLATION_CAP_BPS
  | _ => True
  end.

Definition treasury_step (c : TreasuryCall) (r : Balance) (s s' : TreasurySystem) : Prop :=
  treasury_call_ok c (ty_now s) /\ exists t', treasury_exec c (ty_t s) = (Ok r, t') /\
  s' = {| ty_now := call_now c (ty_now s); ty_out := ty_out s ++ outflow c; ty_mints := ty_mints s ++ minted c; ty_t := t' |}.

Definition treasury_next (s s' : TreasurySystem) : Prop := exists c r, treasury_step c r s s'.

(** At genesis the main account holds anything. *)
Definition treasury_genesis (main : Balance) : TreasurySystem :=
  {| ty_now := 0; ty_out := []; ty_mints := []; ty_t := set_main_usdc main treasury_default |}.

Definition treasury_reachable (s : TreasurySystem) : Prop :=
  exists main, 0 <= main < U128 /\ rtc treasury_next (treasury_genesis main) s.

(** ** The invariant *)

Definition line_ok (l : list (BudgetLine * Balance)) : Prop :=
  NoDup (keys fst l) /\ (length l <= MAX_BUDGET_LINES)%nat /\ forall r, r ∈ l -> 0 <= r.2.

Record stream_ok (s : Stream) : Prop := {
  so_claimed : 0 <= st_claimed s <= st_total s;
  so_total : st_total s < U128;
  so_duration : 0 < st_duration s;
  so_start : 0 <= st_start s;
}.

Record usdc_ok (t : Treasury) : Prop := {
  us_main : 0 <= tr_main_usdc t < U128;
  us_lines : line_ok (tr_lines t);
  us_ids : NoDup (keys st_id (tr_streams t));
  us_next : forall s, s ∈ tr_streams t -> st_id s < tr_next_stream_id t;
  us_len : (length (tr_streams t) <= MAX_STREAMS)%nat;
  us_streams : forall s, s ∈ tr_streams t -> stream_ok s;
}.

(** A claim never runs ahead of the vesting schedule. *)
Definition vested_by (now : BlockNumber) (s : Stream) : Balance := vested_amount (st_total s) (st_start s) (st_duration s) now.

Definition all_of (h : history) : Z := sum_by snd h.

(** The window is at most 2% of the supply without it. *)
Record vit_ok (h : history) (t : Treasury) : Prop := {
  vi_lines : line_ok (tr_vit_lines t);
  vi_sum : sum_by snd (tr_vit_lines t) = all_of h;
  vi_supply : tr_vit_supply t = DEFAULT_VIT_SUPPLY + all_of h;
  vi_fits : tr_vit_supply t < U128;
  vi_limit : 0 <= rm_limit_bps (tr_issuance t) <= ISS_INFLATION_CAP_BPS;
  vi_meter : meter_ok 366 h (tr_issuance t);
  vi_capped : let w := since (rm_last_day (tr_issuance t) - 366) h in
    10000 * w <= ISS_INFLATION_CAP_BPS * (tr_vit_supply t - w);
}.

Record meters_ok (h : history) (t : Treasury) : Prop := {
  me_30 : meter_ok 31 h (tr_meter_30d t);
  me_180 : meter_ok 181 h (tr_meter_180d t);
}.

Record duties_ok (t : Treasury) : Prop := {
  du_pending : (length (tr_pending_outflows t) <= MAX_PENDING_OUTFLOWS)%nat;
  du_pol : (length (tr_pol_commitments t) <= MAX_POL_COMMITMENTS)%nat;
  du_keeper : 0 <= km_general_spent (tr_keeper_meter t) <= km_spent (tr_keeper_meter t);
  du_quotes : NoDup (keys cq_period_index (tr_coretime_quotes t));
  du_quotes_len : (length (tr_coretime_quotes t) <= MAX_FUNDED_CORETIME_PERIODS)%nat;
  du_price : forall q, q ∈ tr_coretime_quotes t -> 0 < cq_price q /\ cq_period_index q ∉ tr_funded_coretime_periods t;
  du_funded : NoDup (tr_funded_coretime_periods t);
  du_funded_len : (length (tr_funded_coretime_periods t) <= MAX_FUNDED_CORETIME_PERIODS)%nat;
}.

Record treasury_ok (s : TreasurySystem) : Prop := {
  to_now : 0 <= ty_now s < U32;
  to_clock : rm_last_day (tr_meter_30d (ty_t s)) <= ty_now s / DAY_BLOCKS
    /\ rm_last_day (tr_meter_180d (ty_t s)) <= ty_now s / DAY_BLOCKS
    /\ rm_last_day (tr_issuance (ty_t s)) <= ty_now s / DAY_BLOCKS;
  to_meters : meters_ok (ty_out s) (ty_t s);
  to_usdc : usdc_ok (ty_t s);
  to_vested : forall x, x ∈ tr_streams (ty_t s) -> st_claimed x <= vested_by (ty_now s) x;
  to_vit : vit_ok (ty_mints s) (ty_t s);
  to_duties : duties_ok (ty_t s);
}.

Lemma treasury_genesis_ok main : 0 <= main < U128 -> treasury_ok (treasury_genesis main).
Proof.
  intros Hm. constructor; cbn -[Z.div meter_new]; try lia.
  - split_and!; by vm_compute.
  - constructor; apply meter_new_ok; lia.
  - constructor; cbn; try apply NoDup_nil_2; try lia; try (by intros ? ?%elem_of_nil). split_and!; cbn; [by apply NoDup_nil_2|lia|by intros ? ?%elem_of_nil].
  - by intros x ?%elem_of_nil.
  - constructor; try (apply meter_new_ok; lia); cbn -[meter_new]; try done.
    split_and!; cbn; [by apply NoDup_nil_2|lia|by intros ? ?%elem_of_nil].
  - constructor; cbn; try apply NoDup_nil_2; try lia; by intros ? ?%elem_of_nil.
Qed.

(** ** The money *)

Definition open_value (s : Stream) : Z := if st_cancelled s then 0 else st_total s - st_claimed s.

Definition cash (t : Treasury) : Z := tr_main_usdc t + sum_by snd (tr_lines t) + sum_by open_value (tr_streams t).

(** What an event says the treasury received. *)
Definition event_cash (e : TreasuryEvent) : Z :=
  match e with
  | TrSpent _ _ a | TrStreamClaimed _ _ a | TrCoretimeRenewalCalled _ a | TrReserveProbeFeeCharged _ a => - a
  | TrInsuranceSwept a => a
  | _ => 0
  end.

(** The rebates, which have no event. *)
Definition rebate_of (c : TreasuryCall) (r : Balance) : Balance :=
  match c with TKeeperRebate _ _ _ _ | TOracleRebate _ => r | _ => 0 end.

Lemma usdc_same t t' :
  tr_main_usdc t' = tr_main_usdc t -> tr_lines t' = tr_lines t -> tr_streams t' = tr_streams t ->
  tr_next_stream_id t' = tr_next_stream_id t -> usdc_ok t -> usdc_ok t' /\ cash t' = cash t.
Proof. intros E1 E2 E3 E4 []. unfold cash. rewrite E1, E2, E3. split; [|done]. constructor; by rewrite ?E1, ?E2, ?E3, ?E4. Qed.

Lemma line_ok_alter l line row x :
  line_ok l -> find_key fst line l = Some row -> 0 <= x ->
  line_ok (alter_key fst line (fun r => (r.1, x)) l)
  /\ sum_by snd (alter_key fst line (fun r => (r.1, x)) l) = sum_by snd l - row.2 + x.
Proof.
  intros (Hn & Hl & H0) Hf Hx. split; [|by rewrite (sum_by_alter _ _ _ _ _ row)].
  split_and!; [by rewrite keys_alter|by rewrite length_alter_key|].
  intros r [?|(w & _ & ->)]%elem_of_alter; [auto|done].
Qed.

Lemma line_ok_app l line x :
  line_ok l -> find_key fst line l = None -> (length l < MAX_BUDGET_LINES)%nat -> 0 <= x ->
  line_ok (l ++ [(line, x)]) /\ sum_by snd (l ++ [(line, x)]) = sum_by snd l + x.
Proof.
  intros (Hn & Hl & H0) Hf%find_key_None Hlt Hx. split; [|rewrite sum_by_app; cbn; lia]. split_and!.
  - rewrite keys_app. apply NoDup_app. split_and!; [done| |apply NoDup_singleton].
    intros k Hk ->%list_elem_of_singleton. done.
  - rewrite length_app. cbn. lia.
  - intros r [?| ->%list_elem_of_singleton]%elem_of_app; [auto|done].
Qed.

Lemma debit_ok line a t u :
  usdc_ok t -> debitable_line line a t = Ok u -> usdc_ok (debit line a t) /\ cash (debit line a t) = cash t - a.
Proof.
  intros [] H. unfold debitable_line in H. inv_all. to_prop. match goal with H : find_key _ _ _ = Some ?row |- _ => rename H into Hf; rename row into r end.
  unfold debit, cash. rewrite (alter_key_ext _ _ _ (fun x => (x.1, r.2 - a)) _ r) by done.
  destruct (line_ok_alter _ _ _ (r.2 - a) us_lines0 Hf) as [Hok Hs]; [lia|]. cbn. rewrite Hs. split; [by constructor|lia].
Qed.

(** ** The keeper meter *)

Definition noted (k : KeeperMeter) (evs : list TreasuryEvent) (t : Treasury) : Treasury :=
  set_keeper_meter k (set_tr_events (tr_events t ++ evs) t).

Definition quiet (evs : list TreasuryEvent) : Prop := sum_by event_cash evs = 0.

Lemma noted_noted k1 e1 k2 e2 t : noted k2 e2 (noted k1 e1 t) = noted k2 (e1 ++ e2) t.
Proof. unfold noted. cbn. by rewrite <- app_assoc. Qed.

Lemma noted_self t : t = noted (tr_keeper_meter t) [] t.
Proof. unfold noted. rewrite app_nil_r. by destruct t. Qed.

(** [t'] is [t] with another keeper meter of the totals [sp] and [gen], and quiet events. *)
Definition renoted (sp gen : Balance) (t t' : Treasury) : Prop :=
  exists k evs, t' = noted k evs t /\ quiet evs /\ km_spent k = sp /\ km_general_spent k = gen.

Lemma renoted_self t : renoted (km_spent (tr_keeper_meter t)) (km_general_spent (tr_keeper_meter t)) t t.
Proof. eexists _, []. split_and!; [apply noted_self|done..]. Qed.

Lemma renoted_set k t : renoted (km_spent k) (km_general_spent k) t (set_keeper_meter k t).
Proof. eexists _, []. split_and!; [|done..]. unfold noted. rewrite app_nil_r. by destruct t. Qed.

Lemma emit_low_renoted x sp gen t t' : renoted sp gen t t' -> renoted sp gen t (emit_low x t').
Proof.
  intros (k & evs & -> & Hq & Hs & Hg). unfold emit_low. destruct (negb _); [|by exists k, evs].
  exists (set_km_low true k), (evs ++ [TrKeeperBudgetLow x]).
  split_and!; [by rewrite <- (noted_noted k)|unfold quiet; by rewrite sum_by_app, Hq|done..].
Qed.

Lemma emit_exhausted_renoted e x sp gen t t' : renoted sp gen t t' -> renoted sp gen t (emit_exhausted e x t').
Proof.
  intros (k & evs & -> & Hq & Hs & Hg). unfold emit_exhausted. destruct (negb _); [|by exists k, evs].
  exists (set_km_exhausted true k), (evs ++ [TrKeeperBudgetExhausted e x]).
  split_and!; [by rewrite <- (noted_noted k)|unfold quiet; by rewrite sum_by_app, Hq|done..].
Qed.
#[local] Hint Resolve renoted_self renoted_set emit_low_renoted emit_exhausted_renoted : core.

Lemma keeper_rebate_spec e class r b t paid t' :
  0 <= r -> 0 <= km_general_spent (tr_keeper_meter t) <= km_spent (tr_keeper_meter t) ->
  keeper_rebate e class r b t = (paid, t') ->
  exists sp gen, 0 <= gen <= sp /\
  ((paid = 0 /\ renoted sp gen t t')
   \/ (paid = r /\ debitable_line LineKeeper r t = Ok tt /\ renoted sp gen (debit LineKeeper r t) t')).
Proof.
  intros Hr Hk H. unfold keeper_rebate in H.
  set (t0 := if negb _ then _ else _) in H.
  assert (exists sp0 gen0, 0 <= gen0 <= sp0 /\ renoted sp0 gen0 t t0 /\ km_spent (tr_keeper_meter t0) = sp0
    /\ km_general_spent (tr_keeper_meter t0) = gen0 /\ tr_lines t0 = tr_lines t
    /\ debit LineKeeper r t0 = set_keeper_meter (tr_keeper_meter t0) (debit LineKeeper r t)) as (sp0 & gen0 & Hk0 & Hn0 & Es & Eg & El & Ed).
  { unfold t0. destruct (negb _).
    - exists 0, 0. split_and!; try done. apply renoted_set.
    - exists (km_spent (tr_keeper_meter t)), (km_general_spent (tr_keeper_meter t)).
      split_and!; try done; try lia. }
  clearbody t0.
  assert (forall t1, renoted sp0 gen0 t t1 -> exists sp gen, 0 <= gen <= sp /\ ((0 = 0 /\ renoted sp gen t t1)
    \/ (0 = r /\ debitable_line LineKeeper r t = Ok tt /\ renoted sp gen (debit LineKeeper r t) t1))) as Hnone by (intros t1 Ht1; exists sp0, gen0; eauto).
  destruct (km_exhausted_emitted _); [simplify_eq; eauto|]. destruct (_ || _); [simplify_eq; eauto|].
  destruct (checked_add _ _ _) as [next|] eqn:En; [|simplify_eq; eauto].
  destruct (b <? next); [simplify_eq; eauto|]. destruct (general_tranche _ _ _ _) as [g|] eqn:Eg'; [|simplify_eq; eauto].
  destruct (debitable_line _ _ _) as [[]|] eqn:Edl; [|simplify_eq; eauto]. unfold debitable_line in Edl. rewrite El in Edl.
  apply checked_add_Some in En as [-> _]. rewrite Ed in H. clear Ed El Hnone.
  injection H as Ep Et. subst paid t'.
  set (k1 := match g with Some _ => _ | None => _ end).
  assert (0 <= km_general_spent k1 <= km_spent k1) as Hk1.
  { unfold general_tranche in Eg'. destruct (is_general class); [|by simplify_eq; cbn; lia].
    destruct (checked_add _ _ _) as [n|] eqn:En; [|done]. apply checked_add_Some in En as [-> _].
    destruct (_ <? _); [done|]. simplify_eq. cbn. lia. }
  exists (km_spent k1), (km_general_spent k1). split; [done|]. right. split_and!; [done..|].
  assert (renoted (km_spent k1) (km_general_spent k1) (debit LineKeeper r t) (set_keeper_meter k1 (set_keeper_meter (tr_keeper_meter t0) (debit LineKeeper r t)))) as H1 by apply (renoted_set k1 (debit LineKeeper r t)).
  destruct (_ <=? _); destruct (_ =? b); eauto.
Qed.

(** ** What a call leaves alone *)

Definition same_streams (t t' : Treasury) : Prop := tr_streams t' = tr_streams t.
Definition same_meters (t t' : Treasury) : Prop := tr_meter_30d t' = tr_meter_30d t /\ tr_meter_180d t' = tr_meter_180d t.
Definition same_vit (t t' : Treasury) : Prop :=
  tr_vit_supply t' = tr_vit_supply t /\ tr_vit_lines t' = tr_vit_lines t /\ tr_issuance t' = tr_issuance t.
Definition same_duties (t t' : Treasury) : Prop :=
  tr_pending_outflows t' = tr_pending_outflows t /\ tr_pol_commitments t' = tr_pol_commitments t
  /\ tr_keeper_meter t' = tr_keeper_meter t /\ tr_coretime_quotes t' = tr_coretime_quotes t
  /\ tr_funded_coretime_periods t' = tr_funded_coretime_periods t.

Definition call_frame (c : TreasuryCall) (t t' : Treasury) : Prop :=
  match c with TOpenStream _ _ _ | TClaim _ _ _ | TCancel _ _ => True | _ => same_streams t t' end
  /\ match c with TSpend _ _ _ _ _ | TOpenStream _ _ _ | TRefresh _ _ _ _ _ => True | _ => same_meters t t' end
  /\ match c with TIssue _ _ _ _ | TRefresh _ _ _ _ _ => True | _ => same_vit t t' end
  /\ match c with
     | TKeeperRebate _ _ _ _ | TNoteQuote _ _ _ | TPruneQuote _ _ _ _ | TRenew _ _ _ _ _ _ | TSetPol _ | TSetPending _ => True
     | _ => same_duties t t'
     end.

Lemma charge_meters_Ok now n a u t t' :
  charge_meters now n a t = (Ok u, t') ->
  exists m30 m180, t' = set_meters m30 m180 t
  /\ can_charge n a (meter_roll now (tr_meter_30d t)) = Ok tt /\ meter_add now a (meter_roll now (tr_meter_30d t)) = Ok m30
  /\ can_charge n a (meter_roll now (tr_meter_180d t)) = Ok tt /\ meter_add now a (meter_roll now (tr_meter_180d t)) = Ok m180.
Proof.
  intros H. unfold charge_meters in H. inv_all. do 2 match goal with u : unit |- _ => destruct u end. eauto 10.
Qed.

Lemma exec_frame c r t t' : treasury_exec c t = (Ok r, t') -> call_frame c t t'.
Proof.
  intros H. destruct c; cbn [treasury_exec] in H;
    unfold proposer_reward, collator_compensation, fund_budget_line, spend, open_stream, claim_stream, cancel_stream, issue_vit,
      sweep_insurance, recover_foreign, note_coretime_renewal_quote, prune_coretime_quote, execute_coretime_renewal,
      charge_reserve_probe_fee, set_pol_commitments, set_pending_outflows, ensure_nav_floor, debit_line in H.
  1: { destruct (keeper_rebate _ _ _ _ _) as [paid t1] eqn:E. unfold keeper_rebate, emit_low, emit_exhausted in E.
       repeat case_match; simplify_eq; split_and!; done. }
  all: inv_all; repeat (case_match; inv_all; try discriminate); simplify_eq;
    try match goal with H : charge_meters _ _ _ _ = _ |- _ => apply charge_meters_Ok in H as (? & ? & -> & _) end;
    try (by split_and!).
  - unfold oracle_line_rebate in *. repeat case_match; simplify_eq; by split_and!.
  - unfold set_reserve_impaired. case_match; by split_and!.
Qed.

(** ** The money of every call *)

Definition booked (paid : Z) (t t' : Treasury) : Prop :=
  usdc_ok t' /\ exists evs, tr_events t' = tr_events t ++ evs /\ cash t' + paid = cash t + sum_by event_cash evs.

Lemma booked_same t t' evs :
  usdc_ok t -> tr_main_usdc t' = tr_main_usdc t -> tr_lines t' = tr_lines t -> tr_streams t' = tr_streams t ->
  tr_next_stream_id t' = tr_next_stream_id t -> tr_events t' = tr_events t ++ evs -> quiet evs -> booked 0 t t'.
Proof.
  intros Ht E1 E2 E3 E4 Ee Hq. destruct (usdc_same t t') as [Hok Hc]; try done. split; [done|]. exists evs. rewrite Hq. split; [done|lia].
Qed.

Lemma booked_debit t line a u t' evs p :
  usdc_ok t -> debitable_line line a t = Ok u -> p = a + sum_by event_cash evs ->
  tr_main_usdc t' = tr_main_usdc t -> tr_lines t' = tr_lines (debit line a t) -> tr_streams t' = tr_streams t ->
  tr_next_stream_id t' = tr_next_stream_id t -> tr_events t' = tr_events t ++ evs -> booked p t t'.
Proof.
  intros Ht Hd -> E1 E2 E3 E4 Ee. destruct (debit_ok _ _ _ _ Ht Hd) as [Hok Hc].
  destruct (usdc_same (debit line a t) t') as [Hok' Hc']; try done. split; [done|]. exists evs. split; [done|lia].
Qed.

Lemma collator_payouts_sum pool blocks shares ps tot ps' tot' :
  collator_payouts pool blocks shares ps tot = Ok (ps', tot') -> tot = sum_by snd ps -> tot' = sum_by snd ps'.
Proof.
  revert ps tot. induction shares as [|[who n] shares IH]; intros ps tot H E; cbn in H; [by simplify_eq|].
  destruct (n =? 0); [eauto|]. inv_all. destruct (_ =? 0); [eauto|]. inv_all. eapply IH; [done|]. rewrite sum_by_app. cbn. lia.
Qed.

Lemma rewards_cash (ps : list (AccountId * Balance)) :
  sum_by event_cash ((fun p => TrSpent OpsCollators p.1 p.2) <$> ps) = - sum_by snd ps.
Proof. induction ps as [|p ps IH]; cbn; [done|]. rewrite IH. lia. Qed.

Lemma keeper_rebate_booked e class r b t paid t' :
  usdc_ok t -> 0 <= r -> 0 <= km_general_spent (tr_keeper_meter t) <= km_spent (tr_keeper_meter t) ->
  keeper_rebate e class r b t = (paid, t') -> booked paid t t'.
Proof.
  intros Ht Hr Hk H. destruct (keeper_rebate_spec _ _ _ _ _ _ _ Hr Hk H) as (sp & gen & _ & [[-> Hn]|(-> & Hd & Hn)]);
    destruct Hn as (k & evs & -> & Hq & _).
  - by eapply booked_same.
  - apply (booked_debit t LineKeeper r tt _ evs); try done. rewrite Hq. lia.
Qed.

Lemma fund_booked o line a t u t' : usdc_ok t -> 0 <= a -> fund_budget_line o line a t = (Ok u, t') -> booked 0 t t'.
Proof.
  intros Ht Ha H. unfold fund_budget_line in H. inv_all. destruct Ht. split; cycle 1.
  - eexists [_]. destruct (find_key _ _ _) as [row|] eqn:Hf; inv_all; (split; [done|]); to_prop; unfold cash; cbn.
    + rewrite (sum_by_alter _ _ _ _ _ row) by done. cbn. lia.
    + rewrite sum_by_app. cbn. lia.
  - destruct (find_key _ _ _) as [row|] eqn:Hf; inv_all; to_prop.
    + destruct (line_ok_alter _ _ _ (row.2 + a) us_lines0 Hf) as [Hl _].
      { destruct us_lines0 as (_ & _ & Hpos). apply find_key_Some in Hf as [_ Hin]. specialize (Hpos _ Hin). lia. }
      constructor; cbn; try done. lia.
    + match goal with H : (_ <? _)%nat = true |- _ => apply Nat.ltb_lt in H end. destruct (line_ok_app _ _ a us_lines0 Hf) as [Hl _]; [done..|]. constructor; cbn; try done. lia.
Qed.

(** ** The streams *)

Lemma vested_bounds total start dur now :
  0 <= total < U128 -> 0 < dur -> 0 <= vested_amount total start dur now <= total.
Proof.
  intros Ht Hd. unfold vested_amount. destruct (now <=? start) eqn:E; to_prop; [lia|].
  unfold sat_mul, sat_sub. split; [apply Z.div_pos; nia|]. apply Z.div_le_upper_bound; nia.
Qed.

(** The straight line from the start to the end of the term, floored. *)
Lemma vested_linear total start dur now :
  0 <= total -> 0 < dur ->
  let elapsed := Z.max 0 (Z.min (now - start) dur) in
  dur * vested_amount total start dur now <= Z.min (total * elapsed) (U128 - 1)
    < dur * (vested_amount total start dur now + 1).
Proof.
  intros Ht Hd. cbv zeta. unfold vested_amount. destruct (now <=? start) eqn:E; to_prop.
  - rewrite (Z.max_l 0) by lia. lia.
  - unfold sat_mul, sat_sub. rewrite (Z.max_l (now - start) 0), (Z.max_r 0) by lia.
    pose proof (div_bounds (Z.min (total * Z.min (now - start) dur) (U128 - 1)) dur Hd). lia.
Qed.

Lemma vested_mono total start dur now now' :
  0 <= total -> 0 < dur -> now <= now' -> vested_amount total start dur now <= vested_amount total start dur now'.
Proof.
  intros Ht Hd Hn. unfold vested_amount, sat_mul, sat_sub.
  destruct (now <=? start) eqn:E1, (now' <=? start) eqn:E2; to_prop; [lia| |lia|].
  - apply Z.div_pos; nia.
  - apply Z.div_le_mono; nia.
Qed.

Lemma vested_at_end total start dur now :
  0 <= total -> 0 < dur -> total * dur < U128 -> start + dur <= now -> vested_amount total start dur now = total.
Proof.
  intros Ht Hd Hf Hn. unfold vested_amount, sat_mul, sat_sub. rewrite (proj2 (Z.leb_gt _ _)) by lia.
  rewrite (Z.min_r (Z.max _ _)) by lia. rewrite Z.min_l by lia. by rewrite Z.div_mul by lia.
Qed.

Lemma alter_stream_ok (f : Stream -> Stream) id t s :
  usdc_ok t -> find_key st_id id (tr_streams t) = Some s -> (forall x, st_id (f x) = st_id x) -> stream_ok (f s) ->
  usdc_ok (set_streams (alter_key st_id id f (tr_streams t)) t)
  /\ cash (set_streams (alter_key st_id id f (tr_streams t)) t) = cash t - open_value s + open_value (f s).
Proof.
  intros [] Hf Hid Hs. split; [|unfold cash; cbn; rewrite (sum_by_alter _ _ _ _ _ s) by done; lia].
  constructor; cbn -[keys]; try done; [by rewrite keys_alter| |by rewrite length_alter_key|].
  - intros x [?|(w & Hw & ->)]%elem_of_alter; [auto|]. rewrite Hid. apply find_key_Some in Hw as [_ ?]. auto.
  - intros x [?|(w & Hw & ->)]%elem_of_alter; [auto|]. by simplify_eq.
Qed.

Lemma booked_set_events t t1 evs d : usdc_ok t1 -> tr_events t1 = tr_events t -> cash t1 + d = cash t + sum_by event_cash evs ->
  booked d t (set_tr_events (tr_events t ++ evs) t1).
Proof.
  intros H1 He Hc. destruct (usdc_same t1 (set_tr_events (tr_events t ++ evs) t1)) as [Hok Hc']; try done. split; [done|].
  exists evs. split; [done|lia].
Qed.

Lemma claim_booked who now id t r t' : usdc_ok t -> claim_stream who now id t = (Ok r, t') -> booked 0 t t'.
Proof.
  intros Ht H. unfold claim_stream in H. inv_all. to_prop. match goal with H : find_key _ _ _ = Some ?x |- _ => rename H into Hf; rename x into s end.
  assert (stream_ok s) as [] by (eapply us_streams; [done|]; by apply find_key_Some in Hf as [_ ?]).
  pose proof (vested_bounds (st_total s) (st_start s) (st_duration s) now ltac:(lia) ltac:(lia)) as Hv.
  destruct (alter_stream_ok (set_claimed (vested_amount (st_total s) (st_start s) (st_duration s) now)) id t s) as [Hok Hc]; try done.
  apply (booked_set_events t (set_streams _ t) [TrStreamClaimed _ _ _]); [done..|]. rewrite Hc. unfold open_value. cbn.
  destruct (st_cancelled s); [done|lia].
Qed.

Lemma cancel_booked o id t r t' : usdc_ok t -> cancel_stream o id t = (Ok r, t') -> booked 0 t t'.
Proof.
  intros Ht H. unfold cancel_stream in H. inv_all. to_prop. match goal with H : find_key _ _ _ = Some ?x |- _ => rename H into Hf; rename x into s end.
  assert (stream_ok s) as Hs by (eapply us_streams; [done|]; by apply find_key_Some in Hf as [_ ?]).
  destruct (alter_stream_ok set_cancelled id t s) as [Hok Hc]; try done; [by destruct Hs|].
  apply (booked_set_events t (set_main_usdc (tr_main_usdc t + (st_total s - st_claimed s)) (set_streams _ t)) [TrStreamCancelled _ _]).
  - destruct Hok, Hs. pose proof (us_main _ Ht). constructor; cbn in *; try done. lia.
  - done.
  - unfold cash in *. cbn in *. unfold open_value in *. cbn in *. destruct (st_cancelled s); [done|]. lia.
Qed.

Lemma remove_first_sublist {A} (f : A -> bool) l : sublist (remove_first f l) l.
Proof. induction l as [|x l IH]; cbn; [constructor|]. destruct (f x); [by apply sublist_cons|by constructor]. Qed.

Lemma reap_value l : (forall s, s ∈ l -> stream_ok s) -> sum_by open_value (remove_first terminal l) = sum_by open_value l.
Proof.
  induction l as [|s l IH]; intros Hs; cbn; [done|]. destruct (terminal s) eqn:E; cbn; [|rewrite IH; [done|intros; apply Hs; by right]].
  destruct (Hs s ltac:(by left)). unfold terminal in E. unfold open_value. destruct (st_cancelled s); cbn in E; to_prop; lia.
Qed.

Definition new_stream (id : Z) (i : StreamInput) : Stream :=
  {| st_id := id; st_recipient := si_recipient i; st_line := si_line i; st_total := si_total i; st_claimed := 0;
     st_start := si_start i; st_duration := si_duration i; st_cancelled := false |}.

(** The table with a slot for a new stream: one terminal stream may go. *)
Definition with_slot (l l' : list Stream) : Prop :=
  (l' = l /\ (length l < MAX_STREAMS)%nat) \/ (l' = remove_first terminal l /\ existsb terminal l = true).

Lemma open_stream_Ok o now i t r t' :
  open_stream o now i t = (Ok r, t') ->
  ensure_spendable t = Ok tt /\ 0 < si_duration i
  /\ (exists x, bps (nv_nav (nav t)) (tr_stream_threshold_bps t) = Ok x /\ x < si_total i)
  /\ (exists x, bps (nv_spendable_nav (nav t)) (tr_cap_proposal_bps t) = Ok x /\ si_total i <= x)
  /\ debitable_line (si_line i) (si_total i) t = Ok tt
  /\ exists m1 m2 l, charge_meters now (nv_spendable_nav (nav t)) (si_total i) t = (Ok tt, set_meters m1 m2 t)
    /\ with_slot (tr_streams t) l
    /\ t' = tr_push (TrStreamOpened (tr_next_stream_id t) (si_recipient i) (si_total i))
              (set_streams (l ++ [new_stream (tr_next_stream_id t) i]) (set_next_stream_id (tr_next_stream_id t + 1)
                (debit (si_line i) (si_total i) (set_meters m1 m2 t)))).
Proof.
  intros H. unfold open_stream in H. inv_all. to_prop.
  repeat match goal with u : unit |- _ => destruct u end.
  match goal with H : charge_meters _ _ _ _ = _ |- _ => pose proof H as Hc; apply charge_meters_Ok in H as (m1 & m2 & -> & _) end.
  split_and!; try done; [by eexists..|]. exists m1, m2.
  match goal with H : (if (_ <? MAX_STREAMS)%nat then _ else _) = Ok ?b |- _ => rename H into Hr; rename b into reap end.
  destruct (_ <? _)%nat eqn:E in Hr; inv_all; subst reap.
  - exists (tr_streams t). split_and!; [done| |done]. left. split; [done|]. by apply Nat.ltb_lt.
  - exists (remove_first terminal (tr_streams t)). split_and!; [done| |done]. by right.
Qed.

Lemma with_slot_ok l l' : (forall s, s ∈ l -> stream_ok s) -> (length l <= MAX_STREAMS)%nat -> with_slot l l' ->
  sublist l' l /\ (length l' < MAX_STREAMS)%nat /\ sum_by open_value l' = sum_by open_value l.
Proof.
  intros Hs Hl [[-> Hlt]|[-> Hex]]; [done|]. split_and!; [apply remove_first_sublist| |by apply reap_value].
  enough (S (length (remove_first terminal l)) = length l) by lia. clear Hl Hs. revert Hex.
  induction l as [|s l IH]; cbn; [done|]. destruct (terminal s); [done|]. intros Hex. cbn. by rewrite IH.
Qed.

Lemma open_booked o now i t r t' :
  usdc_ok t -> 0 <= si_total i < U128 -> 0 <= si_start i -> open_stream o now i t = (Ok r, t') -> booked 0 t t'.
Proof.
  intros Ht Hi Hs H. apply open_stream_Ok in H as (_ & Hdur & _ & _ & Hd & m1 & m2 & l & _ & Hl & ->).
  destruct (debit_ok _ _ _ _ Ht Hd) as [[] Hc]. destruct Ht as [_ _ Hids Hnext Hlen Hst].
  destruct (with_slot_ok _ _ Hst Hlen Hl) as (Hsub & Hl' & Hv).
  assert (forall s, s ∈ l -> s ∈ tr_streams t) as Hin by (intros s Hsl; by eapply elem_of_sublist).
  split; cycle 1.
  - eexists [_]. split; [done|]. unfold cash in *. cbn in *. rewrite sum_by_app, Hv. unfold open_value at 2. cbn. lia.
  - constructor; cbn -[keys]; try done.
    + rewrite keys_app. apply NoDup_app. split_and!; [|intros k (s & Hs1 & <-)%elem_of_keys Hk%list_elem_of_singleton|apply NoDup_singleton].
      * eapply sublist_NoDup; [exact Hids|]. by apply fmap_sublist.
      * cbn in Hk. apply Hin, Hnext in Hs1. lia.
    + intros s [Hs1| ->%list_elem_of_singleton]%elem_of_app; [apply Hin, Hnext in Hs1|cbn]; lia.
    + rewrite length_app. cbn -[MAX_STREAMS]. lia.
    + intros s [Hs1| ->%list_elem_of_singleton]%elem_of_app; [by apply Hst, Hin|]. constructor; cbn; lia.
Qed.

(** A call that moves no money, without and with an event. *)
Ltac book_none := by apply (booked_same _ _ []); rewrite ?app_nil_r.
Ltac book_one := by eapply (booked_same _ _ [_]).

Lemma exec_booked c now r t t' :
  usdc_ok t -> 0 <= km_general_spent (tr_keeper_meter t) <= km_spent (tr_keeper_meter t) -> treasury_call_ok c now ->
  treasury_exec c t = (Ok r, t') -> booked (rebate_of c r) t t'.
Proof.
  intros Ht Hk [_ Hc] H. destruct c; cbn [treasury_exec rebate_of] in *.
  - destruct (keeper_rebate _ _ _ _ _) as [paid t1] eqn:E. simplify_eq. eapply keeper_rebate_booked; [done| |done..]. lia.
  - destruct (oracle_line_rebate _ _) as [paid t1] eqn:E. simplify_eq. unfold oracle_line_rebate in E.
    repeat case_match; simplify_eq; try book_none.
    eapply (booked_debit _ LineOracle r _ _ []); rewrite ?app_nil_r; try done. cbn. lia.
  - unfold proposer_reward in H. destruct (_ =? _); inv_all; [book_none|].
    eapply (booked_debit _ LineRewards amount _ _ [_]); try done. cbn. lia.
  - unfold collator_compensation in H. destruct (_ || _); inv_all; [book_none|].
    destruct (_ =? 0); inv_all; [book_none|]. case_match. inv_all.
    destruct (_ =? 0); inv_all; [book_none|].
    match goal with H : collator_payouts _ _ _ _ _ = _ |- _ => apply collator_payouts_sum in H as Hp; [|done] end.
    eapply booked_debit; try done. rewrite rewards_cash. lia.
  - inv_all. by eapply fund_booked.
  - unfold spend in H. inv_all.
    match goal with H : charge_meters _ _ _ _ = _ |- _ => apply charge_meters_Ok in H as (? & ? & -> & _) end.
    eapply (booked_debit _ line amount _ _ [_]); try done. cbn. lia.
  - inv_all. destruct Hc as (? & ? & ?). by eapply open_booked.
  - inv_all. by eapply claim_booked.
  - inv_all. by eapply cancel_booked.
  - unfold issue_vit in H. inv_all. case_match; inv_all; book_one.
  - unfold sweep_insurance in H. inv_all. destruct Ht. split; [constructor; cbn; try done; lia|]. exists [TrInsuranceSwept amount].
    split; [done|]. unfold cash. cbn. lia.
  - unfold recover_foreign in H. inv_all. book_one.
  - unfold note_coretime_renewal_quote in H. inv_all. case_match; inv_all; book_one.
  - unfold prune_coretime_quote in H. inv_all. book_one.
  - unfold execute_coretime_renewal, debit_line in H. inv_all.
    eapply (booked_debit _ OpsCoretime _ _ _ [_]); try done; try (by case_match). cbn. lia.
  - unfold charge_reserve_probe_fee, debit_line in H. inv_all. eapply (booked_debit _ OpsReserveProbe _ _ _ [_]); try done. cbn. lia.
  - inv_all. unfold set_reserve_impaired. destruct (negb _); [book_one|book_none].
  - unfold set_pol_commitments in H. inv_all. book_none.
  - unfold set_pending_outflows in H. inv_all. book_none.
  - unfold ensure_nav_floor in H. inv_all. case_match; inv_all. book_none.
  - inv_all. book_none.
Qed.

(** ** Every call of the treasury keeps its invariant

    The money is in TreasuryInv; here the vesting schedule, the outflow meters,
    the issuance meter with its cap, and the tables of the state checker. *)

(** ** The schedule *)

Definition vested_ok (now : BlockNumber) (t : Treasury) : Prop :=
  forall x, x ∈ tr_streams t -> st_claimed x <= vested_by now x.

Lemma vested_ok_later now now' t :
  (forall s, s ∈ tr_streams t -> stream_ok s) -> now <= now' -> vested_ok now t -> vested_ok now' t.
Proof.
  intros Hs Hn Hv x Hx. pose proof (Hv x Hx). destruct (Hs x Hx). unfold vested_by in *.
  pose proof (vested_mono (st_total x) (st_start x) (st_duration x) now now'). lia.
Qed.

Lemma exec_vested c now r t t' :
  usdc_ok t -> vested_ok now t -> treasury_call_ok c now -> treasury_exec c t = (Ok r, t') -> vested_ok (call_now c now) t'.
Proof.
  intros Ht Hv [Hnow Hc] H. pose proof (exec_frame _ _ _ _ H) as [Hsame _].
  pose proof (vested_ok_later _ (call_now c now) _ (us_streams _ Ht) (proj1 Hnow) Hv) as Hv'.
  destruct c; try (intros x Hx; rewrite Hsame in Hx; by apply Hv'); clear Hsame Hv; cbn [treasury_exec call_now] in *; inv_all.
  - match goal with H : open_stream _ _ _ _ = _ |- _ => apply open_stream_Ok in H as (_ & Hd & _ & _ & _ & m1 & m2 & l & _ & Hl & ->) end.
    destruct (with_slot_ok _ _ (us_streams _ Ht) (us_len _ Ht) Hl) as (Hsub & _).
    intros y [Hx| ->%list_elem_of_singleton]%elem_of_app; [apply Hv'; by eapply elem_of_sublist|].
    unfold vested_by. cbn. apply vested_bounds; lia.
  - match goal with H : claim_stream _ _ _ _ = _ |- _ => unfold claim_stream in H; inv_all end.
    intros y [Hx|(w & Hw & ->)]%elem_of_alter; [by apply Hv'|]. simplify_eq. unfold vested_by. cbn. lia.
  - match goal with H : cancel_stream _ _ _ = _ |- _ => unfold cancel_stream in H; inv_all end.
    intros y [Hx|(w & Hw & ->)]%elem_of_alter; [by apply Hv'|]. apply find_key_Some in Hw as [_ Hw]. by apply (Hv' w).
Qed.

(** ** The outflow meters *)

Definition clock_ok (now : BlockNumber) (t : Treasury) : Prop :=
  rm_last_day (tr_meter_30d t) <= now / DAY_BLOCKS /\ rm_last_day (tr_meter_180d t) <= now / DAY_BLOCKS
  /\ rm_last_day (tr_issuance t) <= now / DAY_BLOCKS.

Lemma day_mono now now' : now <= now' -> now / DAY_BLOCKS <= now' / DAY_BLOCKS.
Proof. intros. by apply Z.div_le_mono. Qed.

Lemma clock_ok_later now now' t : now <= now' -> clock_ok now t -> clock_ok now' t.
Proof. intros Hn (H1 & H2 & H3). pose proof (day_mono _ _ Hn). unfold clock_ok. lia. Qed.

(** The window of [B] days of a history is within the limit. *)
Definition window_fits (B : Z) (limit : Z) (nav : Balance) (now : BlockNumber) (h : history) : Prop :=
  10000 * since (now / DAY_BLOCKS - B) h <= nav * limit.

Lemma charge_meters_ok now n a h t u t' :
  meters_ok h t -> clock_ok now t -> 0 <= now < U32 -> 0 <= a -> charge_meters now n a t = (Ok u, t') ->
  let h' := h ++ [(now / DAY_BLOCKS, a)] in
  meters_ok h' t' /\ clock_ok now t'
  /\ window_fits 31 (rm_limit_bps (tr_meter_30d t)) n now h' /\ window_fits 181 (rm_limit_bps (tr_meter_180d t)) n now h'.
Proof.
  intros [H30 H180] (C1 & C2 & C3) Hnow Ha H. apply charge_meters_Ok in H as (m1 & m2 & -> & A1 & A2 & B1 & B2).
  destruct (charge_ok _ _ _ _ _ _ _ _ H30 Hnow C1 Ha A1 A2) as (H1 & H2 & _ & H3).
  destruct (charge_ok _ _ _ _ _ _ _ _ H180 Hnow C2 Ha B1 B2) as (H4 & H5 & _ & H6).
  cbv zeta. split; [by constructor|]. split; [unfold clock_ok; cbn; lia|done].
Qed.

Lemma meter_ok_limit B h m l : meter_ok B h m -> meter_ok B h {| rm_limit_bps := l; rm_buckets := rm_buckets m; rm_last_day := rm_last_day m |}.
Proof. by intros []. Qed.

Lemma spend_Ok o now line dest a u t t' :
  spend o now line dest a t = (Ok u, t') ->
  ensure_spendable t = Ok tt
  /\ (exists x, bps (nv_nav (nav t)) (tr_stream_threshold_bps t) = Ok x /\ a <= x)
  /\ (exists x, bps (nv_spendable_nav (nav t)) (tr_cap_proposal_bps t) = Ok x /\ a <= x)
  /\ debitable_line line a t = Ok tt
  /\ exists m1 m2, charge_meters now (nv_spendable_nav (nav t)) a t = (Ok tt, set_meters m1 m2 t)
    /\ t' = tr_push (TrSpent line dest a) (debit line a (set_meters m1 m2 t)).
Proof.
  intros H. unfold spend in H. inv_all. to_prop. repeat match goal with u : unit |- _ => destruct u end.
  match goal with H : charge_meters _ _ _ _ = _ |- _ => pose proof H as Hc; apply charge_meters_Ok in H as (m1 & m2 & -> & _) end.
  split_and!; try done; [by eexists..|]. by exists m1, m2.
Qed.

Lemma exec_meters c now h r t t' :
  meters_ok h t -> clock_ok now t -> 0 <= now -> treasury_call_ok c now -> treasury_exec c t = (Ok r, t') ->
  meters_ok (h ++ outflow c) t' /\ clock_ok (call_now c now) (set_issuance (tr_issuance t) t').
Proof.
  intros Hm Hk H0 [Hnow Hc] H. pose proof (exec_frame _ _ _ _ H) as (_ & Hsame & _).
  apply (clock_ok_later _ (call_now c now)) in Hk; [|lia].
  destruct c; cbn [outflow call_now] in *; rewrite ?app_nil_r;
    try (destruct Hsame as [E1 E2]; split; [destruct Hm; constructor; by rewrite ?E1, ?E2|unfold clock_ok in *; cbn; by rewrite E1, E2]);
    clear Hsame; cbn [treasury_exec] in H; inv_all.
  - match goal with H : spend _ _ _ _ _ _ = _ |- _ => apply spend_Ok in H as (_ & _ & _ & _ & m1 & m2 & H & ->) end.
    destruct (charge_meters_ok _ _ _ _ _ _ _ Hm Hk ltac:(lia) Hc ltac:(done)) as (Hm' & Hk' & _). by destruct Hm'.
  - match goal with H : open_stream _ _ _ _ = _ |- _ => apply open_stream_Ok in H as (_ & _ & _ & _ & _ & m1 & m2 & l & H & _ & ->) end.
    destruct (charge_meters_ok _ _ _ _ _ _ _ Hm Hk ltac:(lia) (proj1 (proj1 Hc)) ltac:(done)) as (Hm' & Hk' & _). by destruct Hm'.
  - destruct Hm. split; [constructor; by apply meter_ok_limit|done].
Qed.

(** ** Issuance *)

Lemma since_le_all lo h : (forall c, c ∈ h -> 0 <= c.2) -> since lo h <= all_of h.
Proof.
  intros Hh. unfold since, all_of. induction h as [|c h IH]; cbn; [lia|]. pose proof (Hh c ltac:(by left)).
  specialize (IH ltac:(intros; apply Hh; by right)). destruct (_ <? _); lia.
Qed.

Lemma issue_keeps h t t' o now a line u :
  vit_ok h t -> rm_last_day (tr_issuance t) <= now / DAY_BLOCKS -> 0 <= now < U32 -> 0 <= a ->
  issue_vit o now a line t = (Ok u, t') ->
  vit_ok (h ++ [(now / DAY_BLOCKS, a)]) t' /\ rm_last_day (tr_issuance t') = now / DAY_BLOCKS.
Proof.
  intros [Hl Hs He Hf Hlim Hm Hcap] Hd Hnow Ha H. unfold issue_vit in H. inv_all. to_prop.
  destruct (meter_roll_ok _ _ _ _ Hm Hnow) as (Hr & Hrd & Hrl). rewrite Z.max_r in Hrd by done.
  match goal with H : meter_add _ _ _ = Ok ?m |- _ => destruct (meter_add_ok _ _ _ _ _ _ Hr Hrd Ha H) as (Hr' & Hrd' & Hrl'); rename m into m' end.
  assert (forall c, c ∈ h -> 0 <= c.2) as Hpos by (intros c Hc; by apply (mo_past _ _ _ Hm)).
  set (w := since (now / DAY_BLOCKS - 366) h).
  assert (0 <= w <= all_of h) as Hw by (split; [by apply since_nonneg|by apply since_le_all]).
  assert (meter_spent (meter_roll now (tr_issuance t)) = w) as Hsp.
  { rewrite (meter_spent_eq _ _ _ Hr), Hrd. change (Z.of_nat 366) with 366. fold w. unfold DEFAULT_VIT_SUPPLY, VIT in He. lia. }
  match goal with H : bps _ _ = Ok _ |- _ => apply bps_Ok in H as [_ ->] end. rewrite Hsp, Hrl in *.
  assert (10000 * (w + a) <= ISS_INFLATION_CAP_BPS * (tr_vit_supply t - w)) as Hnew.
  { unfold sat_sub in *. rewrite Z.max_l in * by (unfold DEFAULT_VIT_SUPPLY, VIT in He; lia).
    pose proof (Z.div_mod ((tr_vit_supply t - w) * rm_limit_bps (tr_issuance t)) 10000).
    pose proof (Z.mod_pos_bound ((tr_vit_supply t - w) * rm_limit_bps (tr_issuance t)) 10000).
    unfold DEFAULT_VIT_SUPPLY, VIT in He. nia. }
  match goal with |- vit_ok _ ?s /\ _ => remember s as t' eqn:Et end.
  assert (line_ok (tr_vit_lines t') /\ sum_by snd (tr_vit_lines t') = sum_by snd (tr_vit_lines t) + a /\ tr_issuance t' = m'
    /\ tr_vit_supply t' = tr_vit_supply t + a) as (Hl' & Hs' & Em & Hsup).
  { subst t'. destruct (find_key _ _ _) as [row|] eqn:Hrow; inv_all; cbn.
    - pose proof (proj2 (find_key_Some _ _ _ _ Hrow)) as Hin.
      assert (0 <= row.2) by (destruct Hl as (_ & _ & Hp); exact (Hp _ Hin)).
      destruct (line_ok_alter _ _ _ (row.2 + a) Hl Hrow) as [? ->]; [lia|].
      split_and!; try done. lia.
    - match goal with H : _ || _ = true |- _ => cbn -[MAX_BUDGET_LINES] in H; apply Nat.ltb_lt in H end.
      by destruct (line_ok_app _ _ a Hl Hrow) as [? ->]. }
  rewrite Em. split; [|congruence]. clear Et. constructor; rewrite ?Em, ?Hs', ?Hsup, ?Hrd', ?Hrl', ?Hrl, ?Hrd; try done.
  - unfold all_of in *. rewrite sum_by_app. cbn. lia.
  - unfold all_of in *. rewrite sum_by_app. cbn. lia.
  - cbv zeta. rewrite since_app. fold w. unfold since. cbn.
    replace (now / DAY_BLOCKS - 366 <? now / DAY_BLOCKS) with true by (symmetry; apply Z.ltb_lt; lia). lia.
Qed.

Lemma exec_vit c now h r t t' :
  vit_ok h t -> clock_ok now t -> 0 <= now -> treasury_call_ok c now -> treasury_exec c t = (Ok r, t') ->
  vit_ok (h ++ minted c) t' /\ rm_last_day (tr_issuance t') <= call_now c now / DAY_BLOCKS.
Proof.
  intros Hv Hk H0 [Hnow Hc] H. pose proof (exec_frame _ _ _ _ H) as (_ & _ & Hsame & _).
  apply (clock_ok_later _ (call_now c now)) in Hk; [|lia]. destruct Hk as (_ & _ & Hk).
  destruct c; cbn [minted call_now] in *; rewrite ?app_nil_r;
    try (destruct Hsame as (E1 & E2 & E3); split; [destruct Hv; constructor; rewrite ?E1, ?E2, ?E3; done|by rewrite E3]);
    clear Hsame; cbn [treasury_exec] in H; inv_all.
  - match goal with H : issue_vit _ _ _ _ _ = _ |- _ => eapply issue_keeps in H as [Hv' ->]; [|done..|lia|done] end. split; [done|lia].
  - split; [|done]. destruct Hv. constructor; cbn; try done. by apply meter_ok_limit.
Qed.

(** ** The tables of the checker *)

Lemma keeper_rebate_km e class r b t paid t' :
  0 <= r -> 0 <= km_general_spent (tr_keeper_meter t) <= km_spent (tr_keeper_meter t) ->
  keeper_rebate e class r b t = (paid, t') ->
  (exists k evs t1, t' = noted k evs t1 /\ same_duties t t1) /\ 0 <= km_general_spent (tr_keeper_meter t') <= km_spent (tr_keeper_meter t').
Proof.
  intros Hr Hk H. destruct (keeper_rebate_spec _ _ _ _ _ _ _ Hr Hk H) as (sp & gen & Hb & [[-> Hn]|(-> & Hd & Hn)]);
    destruct Hn as (k & evs & -> & Hq & E1 & E2); (split; [by do 3 eexists|cbn; lia]).
Qed.

Lemma note_duties p price now u t t' :
  duties_ok t -> note_coretime_renewal_quote p price now t = (Ok u, t') -> duties_ok t'.
Proof.
  intros [] H. unfold note_coretime_renewal_quote in H. inv_all. to_prop.
  destruct (find_key _ _ _) as [q|] eqn:Hq; inv_all; constructor; cbn -[keys]; try done.
  - by rewrite keys_alter_row.
  - by rewrite length_alter_key.
  - intros q' [Hq'|(w & Hw & ->)]%elem_of_alter; auto.
  - rewrite keys_app. apply NoDup_app. split_and!; [done| |apply NoDup_singleton].
    intros k Hk ->%list_elem_of_singleton. by apply find_key_None in Hq.
  - rewrite length_app. cbn. match goal with H : (_ <? _)%nat = true |- _ => apply Nat.ltb_lt in H end. lia.
  - intros q' [Hq'| ->%list_elem_of_singleton]%elem_of_app; auto.
Qed.

(** Fewer quotes, and funded periods without a quote. *)
Lemma quotes_removed p t t' :
  duties_ok t -> tr_coretime_quotes t' = remove_key cq_period_index p (tr_coretime_quotes t) ->
  tr_pending_outflows t' = tr_pending_outflows t -> tr_pol_commitments t' = tr_pol_commitments t ->
  tr_keeper_meter t' = tr_keeper_meter t ->
  (forall q, q ∈ tr_funded_coretime_periods t' -> q ∈ tr_funded_coretime_periods t \/ q = p) ->
  NoDup (tr_funded_coretime_periods t') -> (length (tr_funded_coretime_periods t') <= MAX_FUNDED_CORETIME_PERIODS)%nat ->
  duties_ok t'.
Proof.
  intros [??? Hnd Hlen Hprice _ _] Eq E1 E2 E3 Hf Hn Hl. constructor; rewrite ?Eq, ?E1, ?E2, ?E3; try done.
  - by apply keys_remove_NoDup.
  - etrans; [|exact Hlen]. apply sublist_length, remove_sublist.
  - intros q Hq. apply elem_of_remove_key in Hq as [Hq Hne]; [|done]. destruct (Hprice q Hq) as [? Hnf]. split; [done|].
    intros [?|?]%Hf; done.
Qed.

Lemma renew_duties k p now ttl rate fee r t t' :
  duties_ok t -> execute_coretime_renewal k p now ttl rate fee t = (Ok r, t') -> duties_ok t'.
Proof.
  intros Ht H. unfold execute_coretime_renewal, debit_line in H. inv_all. to_prop.
  pose proof (du_funded _ Ht) as Hn. pose proof (du_funded_len _ Ht) as Hl.
  assert (forall l : list Z, NoDup l -> p ∉ l -> NoDup (l ++ [p])) as Happ.
  { intros l Hnl Hp. apply NoDup_app. split_and!; [done| |apply NoDup_singleton]. by intros y Hy ->%list_elem_of_singleton. }
  eapply (quotes_removed p t); [done|by case_match..| | |]; destruct (_ <=? _)%nat eqn:E;
    [apply Nat.leb_le in E|apply Nat.leb_gt in E|apply Nat.leb_le in E|apply Nat.leb_gt in E|apply Nat.leb_le in E|apply Nat.leb_gt in E];
    cbn -[MAX_FUNDED_CORETIME_PERIODS app] in *; destruct (tr_funded_coretime_periods t) as [|p0 l] eqn:El; cbn -[MAX_FUNDED_CORETIME_PERIODS app] in *.
  all: try (intros q [Hq| ->%list_elem_of_singleton]%elem_of_app; [left; (done || by right)|by right]).
  all: try (apply Happ; [by apply NoDup_cons in Hn as [_ Hn]|set_solver]).
  all: try (by apply Happ).
  all: rewrite ?length_app; cbn -[MAX_FUNDED_CORETIME_PERIODS] in *; unfold MAX_FUNDED_CORETIME_PERIODS in *; try lia.
Qed.

Lemma exec_duties c now r t t' :
  duties_ok t -> treasury_call_ok c now -> treasury_exec c t = (Ok r, t') -> duties_ok t'.
Proof.
  intros Ht [_ Hc] H. pose proof (exec_frame _ _ _ _ H) as (_ & _ & _ & Hsame).
  destruct c; try (destruct Hsame as (E1 & E2 & E3 & E4 & E5), Ht; constructor; rewrite ?E1, ?E2, ?E3, ?E4, ?E5; done);
    clear Hsame; cbn [treasury_exec] in H.
  - destruct (keeper_rebate _ _ _ _ _) as [paid t1] eqn:E. simplify_eq.
    apply keeper_rebate_km in E as [(k & evs & t1 & -> & E1 & E2 & E3 & E4 & E5) Hkm]; [|lia|apply Ht].
    destruct Ht. constructor; cbn -[keys] in *; rewrite ?E1, ?E2, ?E4, ?E5; done.
  - inv_all. by eapply note_duties.
  - inv_all. match goal with H : prune_coretime_quote _ _ _ _ _ = _ |- _ => unfold prune_coretime_quote in H; inv_all end.
    eapply (quotes_removed period_index t); try done; cbn; [by left|apply Ht..].
  - inv_all. by eapply renew_duties.
  - inv_all. match goal with H : set_pol_commitments _ _ = _ |- _ => unfold set_pol_commitments in H; inv_all end.
    match goal with H : (_ <=? _)%nat = true |- _ => apply Nat.leb_le in H end. by destruct Ht.
  - inv_all. match goal with H : set_pending_outflows _ _ = _ |- _ => unfold set_pending_outflows in H; inv_all end.
    match goal with H : (_ <=? _)%nat = true |- _ => apply Nat.leb_le in H end. by destruct Ht.
Qed.

(** ** The invariant *)

Lemma treasury_step_ok c r s s' : treasury_ok s -> treasury_step c r s s' -> treasury_ok s'.
Proof.
  intros [Hnow Hk Hm Hu Hs Hv Hd] (Hc & t' & H & ->).
  destruct (exec_meters _ _ _ _ _ _ Hm Hk (proj1 Hnow) Hc H) as [Hm' (C1 & C2 & _)].
  destruct (exec_vit _ _ _ _ _ _ Hv Hk (proj1 Hnow) Hc H) as [Hv' C3].
  destruct (exec_booked _ _ _ _ _ Hu (du_keeper _ Hd) Hc H) as [Hu' _].
  constructor; cbn; try done.
  - destruct Hc. lia.
  - exact (exec_vested _ _ _ _ _ Hu Hs Hc H).
  - exact (exec_duties _ _ _ _ _ Hd Hc H).
Qed.

Lemma treasury_reachable_ok s : treasury_reachable s -> treasury_ok s.
Proof.
  intros (main & Hmain & Hs). revert Hs. generalize (treasury_genesis_ok main Hmain). generalize (treasury_genesis main).
  intros s0 H0 Hs. induction Hs as [|s0 s1 s2 (c & r & H01) _ IH]; [done|]. apply IH. by eapply treasury_step_ok.
Qed.
