(* ===== verification/TreasuryTheorems.v ===== *)
(** * What the treasury promises

    The caps on what leaves it and on what it mints, the books that balance,
    the vesting of its streams, calls that fail without a trace, and the state
    checker. *)

From S2P Require Import Prelude Keyed Primitives Proposals Origins Treasury TreasuryInv.

(** ** Failing calls *)

Definition clean {A} (m : TM A) : Prop := forall t e t', m t = (Err e, t') -> t' = t.
Definition sure {A} (m : TM A) : Prop := forall t e t', m t <> (Err e, t').
(** A computation that leaves the state alone. *)
Definition looks {A} (m : TM A) : Prop := forall t r t', m t = (r, t') -> t' = t.

Lemma clean_bind {A B} (m : TM A) (k : A -> TM B) : looks m -> (forall a, clean (k a)) -> clean (bind m k).
Proof. intros Hm Hk t e t' [H|(a & t1 & H & H')]%bind_Err; [by eapply Hm|]. apply Hm in H as ->. by eapply Hk. Qed.

Lemma clean_then {A B} (m : TM A) (k : A -> TM B) : clean m -> (forall a, sure (k a)) -> clean (bind m k).
Proof. intros Hm Hk t e t' [H|(a & t1 & H & H')]%bind_Err; [by eapply Hm|]. by apply Hk in H'. Qed.

Lemma sure_bind {A B} (m : TM A) (k : A -> TM B) : sure m -> (forall a, sure (k a)) -> sure (bind m k).
Proof. intros Hm Hk t e t' [H|(a & t1 & H & H')]%bind_Err; [by apply Hm in H|by apply Hk in H']. Qed.

Lemma looks_lift {A} (r : Result TreasuryError A) : looks (lift r).
Proof. intros t x t' H. unfold lift in H. by simplify_eq. Qed.
Lemma looks_reads {A} (f : Treasury -> Result TreasuryError A) : looks (reads f).
Proof. intros t x t' H. unfold reads in H. by simplify_eq. Qed.
Lemma looks_get : looks get.
Proof. intros t x t' H. unfold get in H. by simplify_eq. Qed.
Lemma looks_ret {A} (a : A) : looks (ret a).
Proof. intros t x t' H. unfold ret in H. by simplify_eq. Qed.
Lemma looks_clean {A} (m : TM A) : looks m -> clean m.
Proof. intros Hm t e t' H. by eapply Hm. Qed.
Lemma sure_modify f : sure (modify f).
Proof. by intros t e t' H. Qed.
Lemma sure_gets {A} (f : Treasury -> A) : sure (gets f).
Proof. by intros t e t' H. Qed.
Lemma sure_ret {A} (a : A) : sure (ret a).
Proof. by intros t e t' H. Qed.
Lemma sure_clean {A} (m : TM A) : sure m -> clean m.
Proof. intros Hm t e t' H. by apply Hm in H. Qed.

Create HintDb fails.
#[local] Hint Resolve looks_lift looks_reads looks_get looks_ret sure_modify sure_gets sure_ret : fails.

(** Readers first, then writes that cannot fail. *)
Ltac clean_call :=
  repeat match goal with
  | |- forall _, _ => intros ?
  | |- sure (bind _ _) => apply sure_bind
  | |- clean (bind _ _) => first [apply clean_bind; [solve [auto with fails]|] | apply clean_then; [|solve [clean_call]] | apply sure_clean, sure_bind]
  | |- clean (if ?b then _ else _) => destruct b
  | |- clean (match ?o with _ => _ end) => destruct o
  | |- sure (match ?o with _ => _ end) => destruct o
  | _ => solve [auto with fails | apply looks_clean; auto with fails | apply sure_clean; auto with fails]
  end.

Lemma charge_meters_clean now n a : clean (charge_meters now n a).
Proof. unfold charge_meters. clean_call. Qed.
Lemma debit_line_clean l a : clean (debit_line l a).
Proof. unfold debit_line. clean_call. Qed.
#[local] Hint Resolve charge_meters_clean debit_line_clean : fails.

Lemma open_stream_clean o now i : clean (open_stream o now i).
Proof. unfold open_stream. clean_call. Qed.

Lemma issue_clean h o now a line t e t' :
  vit_ok h t -> 0 <= now < U32 -> issue_vit o now a line t = (Err e, t') -> t' = t.
Proof.
  intros Hv Hnow H. unfold issue_vit in H.
  repeat (apply bind_Err in H as [H|(? & ? & ? & H)]; [unfold lift, get in H; by simplify_eq|]; inv_all).
  apply bind_Err in H as [H|(? & ? & _ & H)]; [|by unfold modify in H].
  destruct (find_key _ _ _) as [row|] eqn:Hrow; [|by unfold modify in H].
  apply bind_Err in H as [H|(? & ? & _ & H)]; [|by unfold modify in H]. exfalso.
  unfold lift in H. destruct (checked_add _ _ _) eqn:Hadd; [done|]. apply checked_add_None in Hadd. clear H.
  destruct Hv as [(Hn & Hlen & Hp) Hs He Hf _ _ _]. pose proof (proj2 (find_key_Some _ _ _ _ Hrow)) as Hin.
  pose proof (sum_by_ge snd (tr_vit_lines t) row Hp Hin). unfold DEFAULT_VIT_SUPPLY, VIT in He. lia.
Qed.

Lemma exec_clean c s e t' :
  treasury_ok s -> treasury_call_ok c (ty_now s) -> (forall class, c <> TEnsureFloor class) ->
  treasury_exec c (ty_t s) = (Err e, t') -> t' = ty_t s.
Proof.
  intros Hs Hc Hne H.
  assert (forall o now a l, c = TIssue o now a l -> t' = ty_t s) as Hissue.
  { intros o now a l ->. apply bind_Err in H as [H|(? & ? & _ & H)]; [|done].
    eapply issue_clean in H; [done|by apply to_vit|]. destruct Hc as [Hc _]. cbn in Hc. pose proof (to_now _ Hs). lia. }
  destruct c; try (solve [eapply Hissue; reflexivity]); try (by destruct (Hne class)); clear Hissue Hne; revert H;
    match goal with |- treasury_exec ?c _ = _ -> _ => enough (clean (treasury_exec c)) as Hcl by (intros H; by eapply Hcl) end;
    cbn [treasury_exec].
  1: { intros t e0 t1 H. by destruct (keeper_rebate _ _ _ _ _). }
  1: { intros t e0 t1 H. by destruct (oracle_line_rebate _ _). }
  all: unfold proposer_reward, collator_compensation, fund_budget_line, spend, open_stream, claim_stream, cancel_stream,
    sweep_insurance, recover_foreign, note_coretime_renewal_quote, prune_coretime_quote, execute_coretime_renewal,
    charge_reserve_probe_fee, set_pol_commitments, set_pending_outflows; clean_call.
Qed.

(** ** The checker *)

Lemma check_quotes_Ok funded l :
  NoDup (keys cq_period_index l) -> (forall q, q ∈ l -> 0 < cq_price q /\ cq_period_index q ∉ funded) -> check_quotes funded l = Ok tt.
Proof.
  induction l as [|q l IH]; intros Hn Hq; [done|]. apply NoDup_cons in Hn as [Hk Hn].
  destruct (Hq q ltac:(by left)) as [Hp Hf]. cbn.
  rewrite (proj2 (Z.ltb_lt _ _) Hp), bool_decide_eq_false_2 by done. cbn. rewrite (proj2 (existsb_none _ _)); cbn.
  - apply IH; [done|]. intros. apply Hq. by right.
  - intros x Hx. apply Z.eqb_neq. intros E. apply Hk, elem_of_keys. eauto.
Qed.

(** ** The claims *)

(** C10. A spend, or the opening of a stream, leaves both outflow meters within
    their limits: what the last 31 days paid out, this call included, is at
    most the 30-day share of the spendable net asset value before the call,
    and the same holds for 181 days. The single amount is within the cap per
    proposal and on its side of the stream threshold. *)
Theorem outflows_are_capped c r s s' now amount :
  treasury_reachable s -> treasury_step c r s s' -> outflow c = [(now / DAY_BLOCKS, amount)] -> call_now c (ty_now s) = now ->
  let n := nav (ty_t s) in
  nv_reserve_impaired n = false
  /\ window_fits 31 (rm_limit_bps (tr_meter_30d (ty_t s))) (nv_spendable_nav n) now (ty_out s')
  /\ window_fits 181 (rm_limit_bps (tr_meter_180d (ty_t s))) (nv_spendable_nav n) now (ty_out s')
  /\ 10000 * amount <= nv_spendable_nav n * tr_cap_proposal_bps (ty_t s)
  /\ match c with
     | TOpenStream _ _ _ => nv_nav n * tr_stream_threshold_bps (ty_t s) < 10000 * amount
     | _ => 10000 * amount <= nv_nav n * tr_stream_threshold_bps (ty_t s)
     end.
Proof.
  intros [Hnow Hk Hm _ _ _ _]%treasury_reachable_ok ([Hc Ha] & t' & H & ->) Ho Hn. cbn [ty_out]. rewrite Ho.
  apply (clock_ok_later _ (call_now c (ty_now s))) in Hk; [|lia].
  assert (forall a b x y, bps a b = Ok x -> y <= x -> 10000 * y <= a * b) as Hle.
  { intros a b x y [_ ->]%bps_Ok Hy. pose proof (div_bounds (a * b) 10000). lia. }
  assert (forall a b x y, bps a b = Ok x -> x < y -> a * b < 10000 * y) as Hlt.
  { intros a b x y [_ ->]%bps_Ok Hy. pose proof (div_bounds (a * b) 10000). lia. }
  destruct c; try discriminate Ho; cbn [outflow call_now treasury_exec] in *; subst; injection Ho as <-; inv_all.
  - match goal with H : spend _ _ _ _ _ _ = _ |- _ => apply spend_Ok in H as (Hi & (thr & Hx & Hx') & (cap & Hy & Hy') & _ & m1 & m2 & H & _) end.
    destruct (charge_meters_ok _ _ _ _ _ _ _ Hm Hk ltac:(lia) Ha ltac:(done)) as (_ & _ & H1 & H2).
    split_and!; try done; try (by eapply Hle). unfold ensure_spendable in Hi. cbn. inv_all. by to_prop.
  - match goal with H : open_stream _ _ _ _ = _ |- _ =>
      apply open_stream_Ok in H as (Hi & _ & (thr & Hx & Hx') & (cap & Hy & Hy') & _ & m1 & m2 & l & H & _) end.
    destruct (charge_meters_ok _ _ _ _ _ _ _ Hm Hk ltac:(lia) (proj1 (proj1 Ha)) ltac:(done)) as (_ & _ & H1 & H2).
    split_and!; try done; [|by eapply Hle|by eapply Hlt]. unfold ensure_spendable in Hi. cbn. inv_all. by to_prop.
Qed.

(** C19. Minting is capped at 2% a year: at any time the amounts minted in the
    last 366 days are at most 200 basis points of the supply without them. The
    supply is the genesis supply with every mint, and the issued lines hold
    exactly the mints. *)
Theorem issuance_is_capped s :
  treasury_reachable s ->
  let minted := since (ty_now s / DAY_BLOCKS - 366) (ty_mints s) in
  10000 * minted <= 200 * (tr_vit_supply (ty_t s) - minted)
  /\ tr_vit_supply (ty_t s) = DEFAULT_VIT_SUPPLY + all_of (ty_mints s)
  /\ sum_by snd (tr_vit_lines (ty_t s)) = all_of (ty_mints s).
Proof.
  intros [_ (_ & _ & Hd) _ _ _ [_ Hl Hs _ _ Hm Hc] _]%treasury_reachable_ok. split; [|done]. cbv zeta in *.
  pose proof (since_mono (rm_last_day (tr_issuance (ty_t s)) - 366) (ty_now s / DAY_BLOCKS - 366) (ty_mints s) ltac:(lia)
    (fun c Hin => proj2 (mo_past _ _ _ Hm c Hin))). unfold ISS_INFLATION_CAP_BPS in Hc. lia.
Qed.

(** C14. The books balance: the main account, the budget lines and the
    unclaimed part of the open streams together change by exactly what the
    events of the call announce (amounts spent, claimed, paid for Coretime or
    probes; amounts swept in) and by the rebate it pays, which has no event. *)
Theorem treasury_conserves c r s s' :
  treasury_reachable s -> treasury_step c r s s' ->
  exists evs, tr_events (ty_t s') = tr_events (ty_t s) ++ evs
  /\ cash (ty_t s') + rebate_of c r = cash (ty_t s) + sum_by event_cash evs.
Proof.
  intros Hs%treasury_reachable_ok (Hc & t' & H & ->).
  by destruct (exec_booked _ _ _ _ _ (to_usdc _ Hs) (du_keeper _ (to_duties _ Hs)) Hc H) as [_ Hb].
Qed.

(** C24. A stream vests linearly. Let the elapsed time be the blocks since the
    start, at least 0 and at most the duration. At any later time the
    recipient of a running stream is paid the one amount that brings the
    claims to the floor of total times elapsed over duration (the product
    saturates at 2^128 - 1), and the claim fails only when that is nothing.
    Nothing more than the total is ever paid, and from the end of the term on
    everything is payable when total times duration is below 2^128. *)
Theorem streams_vest_exactly s x now :
  treasury_reachable s -> ty_now s <= now -> x ∈ tr_streams (ty_t s) -> st_cancelled x = false ->
  let elapsed := Z.max 0 (Z.min (now - st_start x) (st_duration x)) in
  exists due, let paid := st_claimed x + due in
  0 <= due /\ paid <= st_total x
  /\ st_duration x * paid <= Z.min (st_total x * elapsed) (U128 - 1) < st_duration x * (paid + 1)
  /\ (st_start x + st_duration x <= now -> st_total x * st_duration x < U128 -> paid = st_total x)
  /\ claim_stream (st_recipient x) now (st_id x) (ty_t s)
    = if due =? 0 then (Err TeStreamNotClaimable, ty_t s)
      else (Ok due, tr_push (TrStreamClaimed (st_id x) (st_recipient x) due)
              (set_streams (alter_key st_id (st_id x) (set_claimed paid) (tr_streams (ty_t s))) (ty_t s))).
Proof.
  intros Hs%treasury_reachable_ok Hnow Hx Hopen. destruct (us_streams _ (to_usdc _ Hs) _ Hx) as [Hc Ht Hd H0].
  pose proof (vested_ok_later _ now _ (us_streams _ (to_usdc _ Hs)) Hnow (to_vested _ Hs) _ Hx) as Hv.
  pose proof (vested_bounds (st_total x) (st_start x) (st_duration x) now ltac:(lia) Hd) as Hb. unfold vested_by in *.
  cbv zeta. exists (vested_amount (st_total x) (st_start x) (st_duration x) now - st_claimed x).
  rewrite Zplus_minus. split; [lia|]. split; [lia|]. split; [apply vested_linear; lia|].
  split; [intros; apply vested_at_end; lia|].
  unfold claim_stream. rewrite bind_get, (find_key_elem st_id _ _ (us_ids _ (to_usdc _ Hs)) Hx).
  unfold bind, lift, modify, ret. cbn [ok_or]. rewrite Z.eqb_refl, Hopen. cbn [ensure negb].
  unfold checked_sub. rewrite (proj2 (Z.leb_le _ _)) by done. cbn [ok_or].
  destruct (_ =? 0) eqn:E; to_prop; [rewrite E; done|]. by rewrite (proj2 (Z.ltb_lt _ _)) by lia.
Qed.

(** C8. A call that fails leaves no trace in the treasury: no partial debit, no
    charged meter, no event. The one exception is the floor check of a
    proposal, which records its failure as an event and nothing else. *)
Theorem failed_treasury_call_changes_nothing c e s t' :
  treasury_reachable s -> treasury_call_ok c (ty_now s) -> treasury_exec c (ty_t s) = (Err e, t') ->
  match c with
  | TEnsureFloor class => e = TeNavFloorUnmet
      /\ t' = tr_push (TrNavFloorUnmet class (nv_spendable_nav (nav (ty_t s))) (floor class)) (ty_t s)
  | _ => t' = ty_t s
  end.
Proof.
  intros Hs%treasury_reachable_ok Hc H. destruct c; try (by eapply exec_clean). cbn in H.
  unfold ensure_nav_floor in H. apply bind_Err in H as [H|(? & ? & _ & H)]; [|done]. rewrite bind_get in H.
  destruct (_ <? floor class); [|done]. unfold bind, modify, throw in H. by simplify_eq.
Qed.

(** The state checker accepts every reachable treasury, as long as the
    supply is small enough for its own multiplication. *)
Theorem treasury_checker_accepts s :
  treasury_reachable s -> tr_vit_supply (ty_t s) * ISS_INFLATION_CAP_BPS < U128 -> treasury_try_state (ty_t s) = Ok tt.
Proof.
  intros [_ _ _ [_ [_ [Hl _]] _ _ Hlen Hst] _ [[_ [Hvl Hvp]] Hs He Hf _ Hm Hc] []]%treasury_reachable_ok Hfit.
  assert (forall a b : nat, (a <= b)%nat -> (a <=? b)%nat = true) as Hle by (intros; by apply Nat.leb_le).
  assert (forall c, c ∈ ty_mints s -> 0 <= c.2) as Hpos by (intros c Hin; by apply (mo_past _ _ _ Hm)).
  pose proof (since_le_all (rm_last_day (tr_issuance (ty_t s)) - 366) _ Hpos) as Hw.
  pose proof (since_nonneg (rm_last_day (tr_issuance (ty_t s)) - 366) _ Hpos) as Hw0.
  unfold treasury_try_state. rewrite !Hle by done. cbn [ensure rbind].
  rewrite (proj2 (for_each_Ok _ _ tt)).
  2:{ intros x Hx. destruct (Hst x Hx). rewrite (proj2 (Z.leb_le _ _)), (proj2 (Z.ltb_lt _ _)) by lia. done. }
  cbn [rbind]. unfold sum_lines. rewrite sat_sum_eq, sum_by_fmap, (meter_spent_eq _ _ _ Hm).
  2:{ apply Forall_fmap, Forall_forall. intros r Hr. by apply Hvp. }
  rewrite (sum_by_ext _ snd) by done. rewrite Hs, (proj2 (Z.leb_le _ _)) by (unfold DEFAULT_VIT_SUPPLY, VIT in He; lia).
  cbn [ensure rbind]. rewrite (proj2 (bps_Ok _ _ _) (conj Hfit eq_refl)). cbn [rbind].
  rewrite (proj2 (Z.leb_le (Z.min _ _) _)).
  2:{ etrans; [apply Z.le_min_l|]. change (Z.of_nat 366) with 366. apply Z.div_le_lower_bound; [done|].
      cbv zeta in Hc. unfold ISS_INFLATION_CAP_BPS in *. lia. }
  cbn [ensure rbind]. rewrite check_quotes_Ok by done. cbn [rbind].
  rewrite (proj2 (for_pairs_NoDup (fun x : Z => x) _ _)) by (by rewrite list_fmap_id). cbn [rbind].
  rewrite (proj2 (Z.leb_le _ _)) by lia. done.
Qed.

(** ** A concrete treasury *)

Fixpoint treasury_run (cs : list TreasuryCall) (s : TreasurySystem) : option TreasurySystem :=
  match cs with
  | [] => Some s
  | c :: cs =>
      match treasury_exec c (ty_t s) with
      | (Ok _, t') => treasury_run cs {| ty_now := call_now c (ty_now s); ty_out := ty_out s ++ outflow c;
                                         ty_mints := ty_mints s ++ minted c; ty_t := t' |}
      | (Err _, _) => None
      end
  end.

Fixpoint calls_ok (cs : list TreasuryCall) (now : BlockNumber) : Prop :=
  match cs with
  | [] => True
  | c :: cs => treasury_call_ok c now /\ calls_ok cs (call_now c now)
  end.

Lemma treasury_run_steps cs s s' : calls_ok cs (ty_now s) -> treasury_run cs s = Some s' -> rtc treasury_next s s'.
Proof.
  revert s. induction cs as [|c cs IH]; intros s Hc H; cbn in *; [simplify_eq; apply rtc_refl|].
  destruct Hc as [Hc Hcs]. destruct (treasury_exec c (ty_t s)) as [[r|?] t'] eqn:E; [|done].
  eapply rtc_l; [|by apply IH in H]. exists c, r. split; [done|]. by exists t'.
Qed.

(** Ten million in the main account, two lines funded, one stream and one mint. *)
Definition demo_calls : list TreasuryCall :=
  [TFund FutarchyTreasury OpsCollators (500000 * USDC); TFund FutarchyTreasury LineKeeper (400000 * USDC);
   TIssue FutarchyTreasury 100 (1000000 * VIT) OpsMonitoring;
   TOpenStream FutarchyTreasury 14400 {| si_line := OpsCollators; si_recipient := 7; si_total := 200000 * USDC;
     si_start := 14400; si_duration := 100000 |};
   TClaim 7 39400 0].

Definition demo_start : TreasurySystem := treasury_genesis (10000000 * USDC).
Definition demo_treasury : TreasurySystem := default demo_start (treasury_run demo_calls demo_start).
Definition demo_spend : TreasuryCall := TSpend FutarchyTreasury 50000 OpsCollators 9 (90000 * USDC).
Definition demo_spent : TreasurySystem := default demo_start (treasury_run [demo_spend] demo_treasury).
Definition demo_stream : Stream :=
  {| st_id := 0; st_recipient := 7; st_line := OpsCollators; st_total := 200000 * USDC; st_claimed := 50000 * USDC;
     st_start := 14400; st_duration := 100000; st_cancelled := false |}.

Lemma demo_treasury_reachable : treasury_reachable demo_treasury.
Proof.
  exists (10000000 * USDC). split; [by vm_compute|]. apply (treasury_run_steps demo_calls).
  - repeat split; try done; cbn; unfold USDC, VIT; lia.
  - by vm_compute.
Qed.

Lemma demo_spend_step : treasury_step demo_spend 0 demo_treasury demo_spent.
Proof.
  split; [vm_compute; done|]. exists (ty_t demo_spent). split; by vm_compute.
Qed.

Lemma outflows_are_capped_witness :
  treasury_reachable demo_treasury
  /\ window_fits 31 (rm_limit_bps (tr_meter_30d (ty_t demo_treasury))) (nv_spendable_nav (nav (ty_t demo_treasury))) 50000 (ty_out demo_spent).
Proof.
  split; [exact demo_treasury_reachable|].
  apply (outflows_are_capped demo_spend 0 demo_treasury demo_spent 50000 (90000 * USDC) demo_treasury_reachable demo_spend_step eq_refl eq_refl).
Defined.

Lemma issuance_is_capped_witness : tr_vit_supply (ty_t demo_treasury) = 1001000000 * VIT.
Proof. destruct (issuance_is_capped demo_treasury demo_treasury_reachable) as (_ & E & _). rewrite E. by vm_compute. Defined.

Lemma treasury_conserves_witness : cash (ty_t demo_spent) = cash (ty_t demo_treasury) - 90000 * USDC.
Proof.
  destruct (treasury_conserves demo_spend 0 demo_treasury demo_spent demo_treasury_reachable demo_spend_step) as (evs & Ee & Ec).
  change (tr_events (ty_t demo_spent)) with (tr_events (ty_t demo_treasury) ++ [TrSpent OpsCollators 9 (90000 * USDC)]) in Ee.
  apply app_inv_head in Ee as <-. cbn [rebate_of demo_spend sum_by event_cash] in Ec. lia.
Defined.

(** Half of the term has passed and a quarter of the total was claimed: a
    quarter is due. *)
Lemma streams_vest_exactly_witness :
  (claim_stream 7 64400 0 (ty_t demo_treasury)).1 = Ok (50000 * USDC).
Proof.
  destruct (streams_vest_exactly demo_treasury demo_stream 64400 demo_treasury_reachable) as (due & H0 & _ & Hl & _ & E);
    [by vm_compute|vm_compute; left|reflexivity|].
  assert (due = 50000 * USDC) as ->.
  { cbn [demo_stream st_duration st_claimed st_total st_start] in Hl. unfold USDC in *. lia. }
  cbn [demo_stream st_recipient st_id] in E. rewrite E. by vm_compute.
Defined.

Lemma failed_treasury_call_changes_nothing_witness :
  (treasury_exec (TSpend FutarchyTreasury 50000 OpsCollators 9 (300000 * USDC)) (ty_t demo_treasury)).2 = ty_t demo_treasury.
Proof.
  apply (failed_treasury_call_changes_nothing (TSpend FutarchyTreasury 50000 OpsCollators 9 (300000 * USDC)) TeStreamRequired
    demo_treasury _ demo_treasury_reachable); [by vm_compute|]. by vm_compute.
Defined.

Lemma treasury_checker_accepts_witness : treasury_try_state (ty_t demo_treasury) = Ok tt.
Proof. apply (treasury_checker_accepts demo_treasury demo_treasury_reachable). by vm_compute. Defined.
