(* ===== verification/Constitution.v ===== *)
(** * The constitution (crates/constitution-core)

    The registry of governed parameters with their bounds, rate limits and
    authority classes, the kernel meters, the capability table, the phase flags
    and the fixed layout of the release channel. A lookup by key returns the
    first matching row, here the row [find_key] and [alter_key] reach. Byte
    strings are lists of their bytes; the arrays of 168 and 16 bytes are lists
    of these lengths. *)

From Stdlib Require Import Ascii.

From stdpp Require Import strings.
From S2P Require Import Prelude Keyed Primitives Proposals.

(** ** Kernel constants (crates/futarchy-primitives) *)

Definition PRODUCTION_MIN_EPOCH_LENGTH_BLOCKS : Z := 201600.
Definition DECISION_WINDOW_FLOOR_BLOCKS : Z := BLOCKS_PER_DAY.
Definition DECISION_DELTA_FLOOR : Z := 5000000.
Definition DECISION_SIGMA_FLOOR : Z := 0.
Definition ORC_ROUNDS_MIN : Z := 2.
Definition ORC_ROUNDS_MAX : Z := 4.
Definition GATE_EPS_FLOOR : Z := 5000000.
Definition EXECUTION_TIMELOCK_FLOOR_BLOCKS : Z := BLOCKS_PER_DAY.
Definition EXECUTION_GRACE_FLOOR_BLOCKS : Z := 7 * BLOCKS_PER_DAY.
Definition MAX_ARCHIVE_DELAY_BLOCKS : Z := 5256000.
Definition KEEPER_BUDGET_EPOCH_FLOOR_USDC : Z := 6000000000.
Definition KEEPER_REBATE_FEE_BASIS_USDC : Z := 30000.

(** ** Constants and keys *)

Definition RELEASE_CHANNEL_STORAGE_KEY : list Z :=
  [0xfb; 0x8c; 0xcb; 0xf6; 0x77; 0xa3; 0xd2; 0xce; 0x27; 0xab; 0x85; 0x16; 0x5f; 0x32; 0xdf; 0x6a;
   0xfe; 0xc7; 0x19; 0x4a; 0x53; 0x68; 0xa5; 0x8e; 0x1f; 0x6b; 0xf5; 0x74; 0x57; 0x13; 0x4a; 0x6c].
Definition RELEASE_CHANNEL_LEN : nat := 168.
(** The ranges of the layout, each as its first and its past-the-end offset. *)
Definition RELEASE_CHANNEL_UPDATED_AT : nat * nat := (108%nat, 112%nat).
Definition RELEASE_CHANNEL_SPEC_VERSION : nat * nat := (112%nat, 116%nat).
Definition RELEASE_CHANNEL_PENDING_AUTHORIZED_AT : nat * nat := (116%nat, 120%nat).
Definition RELEASE_CHANNEL_FLAGS : nat * nat := (164%nat, 168%nat).
Definition RELEASE_CHANNEL_FLAG_URGENT_UPGRADE : Z := Z.shiftl 1 2.
Definition MAX_PARAMS : nat := 128.
Definition MAX_CAPABILITIES : nat := 64.
Definition MAX_METERS : nat := 16.
Definition META_MAX_COOLDOWN_EPOCHS : Z := 8.
Definition POL_B_DEFAULTS : list Balance := [10000000000; 25000000000; 60000000000; 100000000000].
Definition POL_GATE_B_DEFAULT : Balance := 7500000000.
Definition POL_BUDGET_EPOCH_DEFAULT_PPB : Z := 7500000.

Abbreviation ParamKey := (list Z) (only parsing).

(** A byte-string literal of the source. *)
Definition bytes_of (s : String.string) : list Z :=
  (fun c => Z.of_N (N_of_ascii c)) <$> String.list_ascii_of_string s.

(** The code asserts that the name has at most 16 bytes. *)
Definition key16 (name : String.string) : ParamKey :=
  let bytes := bytes_of name in
  bytes ++ replicate (16 - length bytes) 0.

Definition starts_with (prefix l : list Z) : bool := bool_decide (take (length prefix) l = prefix).

Definition v_min_pairs : list (String.string * String.string) :=
  [("dec.v_min.param", "gate.v_min.param"); ("dec.v_min.trs", "gate.v_min.trs");
   ("dec.v_min.code", "gate.v_min.code"); ("dec.v_min.meta", "gate.v_min.meta")]%string.

(** The loop over the pairs, in order. *)
Fixpoint pair_in (pairs : list (String.string * String.string)) (key : ParamKey) : option ParamKey :=
  match pairs with
  | [] => None
  | (decision, gate) :: pairs =>
      if bool_decide (key = key16 decision) then Some (key16 gate)
      else if bool_decide (key = key16 gate) then Some (key16 decision)
      else pair_in pairs key
  end.

Definition gate_v_min_pair (key : ParamKey) : option ParamKey := pair_in v_min_pairs key.

Definition gate_v_min_coupled (decision gate : Balance) : bool := (decision / 20 <=? gate) && (gate <=? decision / 2).

(** ** Values, classes, rate limits *)

Inductive ParamValue : Type :=
| PvU8 (v : Z)
| PvU32 (v : Z)
| PvBalance (v : Balance)
| PvFixed (v : Z)
| PvPercent (v : Z)
| PvPerbill (v : Z).

#[export] Instance ParamValue_eq_dec : EqDecision ParamValue.
Proof. solve_decision. Defined.

Definition as_u128 (p : ParamValue) : Z :=
  match p with PvU8 v | PvU32 v | PvBalance v | PvFixed v | PvPercent v | PvPerbill v => v end.

Definition same_kind (p q : ParamValue) : bool :=
  match p, q with
  | PvU8 _, PvU8 _ | PvU32 _, PvU32 _ | PvBalance _, PvBalance _ | PvFixed _, PvFixed _ | PvPercent _, PvPercent _
  | PvPerbill _, PvPerbill _ => true
  | _, _ => false
  end.

Inductive ParamClass : Type :=
| PcParam
| PcTreasury
| PcMeta
| PcConst
| PcEntrenched
| PcMetaAndValues.

#[export] Instance ParamClass_eq_dec : EqDecision ParamClass.
Proof. solve_decision. Defined.

Definition as_proposal_class (c : ParamClass) : ProposalClass :=
  match c with
  | PcParam => Param
  | PcTreasury => Treasury
  | PcMeta | PcMetaAndValues => Meta
  | PcConst | PcEntrenched => Constitutional
  end.

Inductive MaxDelta : Type :=
| DAbsolute (bound : ParamValue)
| DPercent (percent : Z)
| DFactor (factor : Z).

#[export] Instance MaxDelta_eq_dec : EqDecision MaxDelta.
Proof. solve_decision. Defined.

Record ParamRecord : Type := {
  pr_key : ParamKey;
  pr_value : ParamValue;
  pr_min : ParamValue;
  pr_max : ParamValue;
  pr_max_delta : option MaxDelta;
  pr_cooldown_epochs : Z;
  pr_last_changed_epoch : Z;
  pr_last_change_block : BlockNumber;
  pr_class : ParamClass;
  pr_kernel_bounded : bool;
}.

Inductive ConstitutionError : Type :=
| CeUnknownParam
| CeUnknownMeter
| CeWrongType
| CeBelowMin
| CeAboveMax
| CeDeltaTooLarge
| CeCooldownActive
| CeMeterOverflow
| CeMeterExhausted
| CeReservedPhaseFlag
| CeFlagNotArmable
| CeKernelBoundImmutable
| CeMetaBoundViolation
| CeBadReleaseSchema
| CeTooManyParams
| CeTooManyMeters
| CeTooManyCapabilities
| CeBadOrigin
| CeTryStateViolation
| CeBudgetDerivationRequired.

(** [u128::from(bool)], [u128::abs_diff]. *)
Definition b2z (b : bool) : Z := if b then 1 else 0.
Definition abs_diff (a b : Z) : Z := Z.abs (a - b).

(** [checked_mul] with the maximum as its fallback. *)
Definition mul_or_max (a b : Z) : Z :=
  match checked_mul U128 a b with Some c => c | None => U128 - 1 end.

Definition max_delta_allowance (r : ParamRecord) : Result ConstitutionError Z :=
  match pr_max_delta r with
  | None => Ok 0
  | Some (DAbsolute bound) =>
      do? ensure (same_kind bound (pr_value r)) CeWrongType in
      Ok (as_u128 bound)
  | Some (DPercent percent) =>
      let value := as_u128 (pr_value r) in
      let scaled := mul_or_max value percent in
      Ok (scaled / 100)
  | Some (DFactor factor) =>
      do? ensure (1 <=? factor) CeMetaBoundViolation in
      let value := as_u128 (pr_value r) in
      let upper := mul_or_max value factor in
      let upward := default 0 (checked_sub upper value) in
      let lower_floor := value / factor in
      let lower := default value (checked_add U128 lower_floor (b2z (negb (value mod factor =? 0)))) in
      let downward := default 0 (checked_sub value lower) in
      Ok (Z.min upward downward)
  end.

Definition admissible_next_interval (r : ParamRecord) : Result ConstitutionError (Z * Z) :=
  do? ensure (same_kind (pr_value r) (pr_min r) && same_kind (pr_value r) (pr_max r)) CeWrongType in
  let value := as_u128 (pr_value r) in
  let record_min := as_u128 (pr_min r) in
  let record_max := as_u128 (pr_max r) in
  do? ensure (record_min <=? record_max) CeMetaBoundViolation in
  let? (delta_min, delta_max) :=
    match pr_max_delta r with
    | None => Ok (record_min, record_max)
    | Some (DAbsolute bound) =>
        do? ensure (same_kind bound (pr_value r)) CeWrongType in
        let allowance := as_u128 bound in
        Ok (sat_sub value allowance, sat_add U128 value allowance)
    | Some (DPercent _) =>
        let? allowance := max_delta_allowance r in
        Ok (sat_sub value allowance, sat_add U128 value allowance)
    | Some (DFactor factor) =>
        do? ensure (1 <=? factor) CeMetaBoundViolation in
        let quotient := value / factor in
        let lower := sat_add U128 quotient (b2z (negb (value mod factor =? 0))) in
        Ok (lower, sat_mul U128 value factor)
    end in
  let min_next := Z.max record_min delta_min in
  let max_next := Z.min record_max delta_max in
  do? ensure (min_next <=? max_next) CeMetaBoundViolation in
  Ok (min_next, max_next).

Definition with_value (next : ParamValue) (epoch : Z) (block : BlockNumber) (r : ParamRecord) : ParamRecord :=
  {| r with pr_value := next; pr_last_changed_epoch := epoch; pr_last_change_block := block |}.

Definition checked_update (next : ParamValue) (epoch : Z) (block : BlockNumber) (r : ParamRecord)
    : Result ConstitutionError ParamRecord :=
  do? ensure (same_kind (pr_value r) next) CeWrongType in
  do? ensure (same_kind (pr_min r) next && same_kind (pr_max r) next) CeWrongType in
  do? ensure (as_u128 (pr_min r) <=? as_u128 next) CeBelowMin in
  do? ensure (as_u128 next <=? as_u128 (pr_max r)) CeAboveMax in
  do? ensure (sat_add U32 (pr_last_changed_epoch r) (pr_cooldown_epochs r) <=? epoch) CeCooldownActive in
  do? match pr_max_delta r with
      | None => Ok tt
      | Some (DAbsolute bound) =>
          do? ensure (same_kind bound next) CeWrongType in
          ensure (abs_diff (as_u128 (pr_value r)) (as_u128 next) <=? as_u128 bound) CeDeltaTooLarge
      | Some (DPercent _) =>
          let? allowed := max_delta_allowance r in
          ensure (abs_diff (as_u128 (pr_value r)) (as_u128 next) <=? allowed) CeDeltaTooLarge
      | Some (DFactor factor) =>
          let value := as_u128 (pr_value r) in
          let next_raw := as_u128 next in
          ensure ((next_raw <=? sat_mul U128 value factor) && (value <=? sat_mul U128 next_raw factor)) CeDeltaTooLarge
      end in
  Ok (with_value next epoch block r).

Definition with_metadata (min max : ParamValue) (max_delta : option MaxDelta) (cooldown : Z) (r : ParamRecord) : ParamRecord :=
  {| r with pr_min := min; pr_max := max; pr_max_delta := max_delta; pr_cooldown_epochs := cooldown |}.

Definition checked_amend (min max : ParamValue) (max_delta : option MaxDelta) (cooldown : Z) (r : ParamRecord)
    : Result ConstitutionError ParamRecord :=
  do? ensure (same_kind (pr_value r) min && same_kind (pr_value r) max) CeWrongType in
  do? ensure (negb (pr_kernel_bounded r)) CeKernelBoundImmutable in
  do? ensure (as_u128 min <=? as_u128 max) CeMetaBoundViolation in
  do? ensure ((as_u128 min <=? as_u128 (pr_value r)) && (as_u128 (pr_value r) <=? as_u128 max)) CeMetaBoundViolation in
  do? match max_delta with
      | None => Ok tt
      | Some (DAbsolute bound) => ensure (same_kind (pr_value r) bound) CeWrongType
      | Some (DPercent percent) => ensure ((1 <=? percent) && (percent <=? 100)) CeMetaBoundViolation
      | Some (DFactor factor) => ensure (1 <=? factor) CeMetaBoundViolation
      end in
  do? ensure (cooldown <=? META_MAX_COOLDOWN_EPOCHS) CeMetaBoundViolation in
  Ok (with_metadata min max max_delta cooldown r).

(** ** Meters, capabilities, flags *)

Record Meter : Type := {
  mt_limit : Z;
  mt_spent : Z;
  mt_reset_epoch : Z;
}.

Definition Meter_new (limit reset_epoch : Z) : Meter := {| mt_limit := limit; mt_spent := 0; mt_reset_epoch := reset_epoch |}.

(** The copy is stored only when the charge is admitted. *)
Definition charge (amount epoch : Z) (m : Meter) : Result ConstitutionError Meter :=
  let next := if mt_reset_epoch m <? epoch
              then {| mt_limit := mt_limit m; mt_spent := 0; mt_reset_epoch := epoch |} else m in
  let? spent := ok_or CeMeterOverflow (checked_add U128 (mt_spent next) amount) in
  do? ensure (spent <=? mt_limit next) CeMeterExhausted in
  Ok {| next with mt_spent := spent |}.

Inductive Capability : Type :=
| CapSetParam (key : ParamKey)
| CapSetCapability
| CapAmendRegistry
| CapSetReleaseChannel
| CapAuthorizeUpgrade
| CapTreasurySpend
| CapOracleConfig
| CapMarketTemplate
| CapInsuranceSweep.

#[export] Instance Capability_eq_dec : EqDecision Capability.
Proof. solve_decision. Defined.

Record CapabilityRecord : Type := {
  cr_class : ProposalClass;
  cr_capability : Capability;
  cr_enabled : bool;
}.

(** The pair a row is looked up by. *)
Definition cr_key (c : CapabilityRecord) : ProposalClass * Capability := (cr_class c, cr_capability c).

Definition SHADOW_MODE : Z := Z.shiftl 1 0.
Definition PARAM_ARMED : Z := Z.shiftl 1 1.
Definition TREASURY_ARMED : Z := Z.shiftl 1 2.
Definition CODE_META_ARMED : Z := Z.shiftl 1 3.
Definition SUDO_PRESENT : Z := Z.shiftl 1 4.
Definition LEDGER_FROZEN : Z := Z.shiftl 1 5.
Definition DEAD_MAN_ENGAGED : Z := Z.shiftl 1 6.
Definition RESERVE_HEALTH_FLAG : Z := Z.shiftl 1 7.
(** [!0xff] on 32 bits. *)
Definition RESERVED_MASK : Z := U32 - 1 - 0xff.
Definition SUDO_ARMABLE_MASK : Z :=
  Z.lor (Z.lor (Z.lor (Z.lor SHADOW_MODE PARAM_ARMED) TREASURY_ARMED) CODE_META_ARMED) SUDO_PRESENT.

(** [PhaseFlags] is the newtype of its bits. *)
Definition flags_from_bits (bits : Z) : Result ConstitutionError Z :=
  if Z.land bits RESERVED_MASK =? 0 then Ok bits else Err CeReservedPhaseFlag.

Definition flags_contains (flags flag : Z) : bool := Z.land flags flag =? flag.

(** [a & !b] is [Z.ldiff a b]. *)
Definition flags_set (flag : Z) (enabled : bool) (flags : Z) : Result ConstitutionError Z :=
  do? ensure (Z.land flag RESERVED_MASK =? 0) CeReservedPhaseFlag in
  Ok (if enabled then Z.lor flags flag else Z.ldiff flags flag).

(** ** The release channel *)

Abbreviation ReleaseChannel := (list Z) (only parsing).

Definition FLAGS_MASK : Z := 0x7.

Definition byte_at (bytes : list Z) (i : nat) : Z := nth i bytes 0.

(** [u32::from_le_bytes] of four bytes, and [u32::to_le_bytes]. *)
Definition le_u32_at (bytes : list Z) (offset : nat) : Z :=
  byte_at bytes offset + 256 * byte_at bytes (offset + 1) + 65536 * byte_at bytes (offset + 2)
  + 16777216 * byte_at bytes (offset + 3).
Definition to_le_bytes (x : Z) : list Z := [x mod 256; x / 256 mod 256; x / 65536 mod 256; x / 16777216 mod 256].

(** [bytes[range].copy_from_slice(src)]. *)
Definition copy_at (range : nat * nat) (src bytes : list Z) : list Z :=
  take range.1 bytes ++ src ++ drop range.2 bytes.
Definition slice (range : nat * nat) (bytes : list Z) : list Z := take (range.2 - range.1) (drop range.1 bytes).

Definition channel_new (bytes : list Z) : Result ConstitutionError ReleaseChannel :=
  do? ensure (byte_at bytes 0 =? 1) CeBadReleaseSchema in
  let flags := le_u32_at bytes 164 in
  do? ensure (Z.ldiff flags FLAGS_MASK =? 0) CeBadReleaseSchema in
  Ok bytes.

Definition channel_updated_at (c : ReleaseChannel) : BlockNumber := le_u32_at c RELEASE_CHANNEL_UPDATED_AT.1.
Definition channel_spec_version (c : ReleaseChannel) : Z := le_u32_at c RELEASE_CHANNEL_SPEC_VERSION.1.
Definition channel_pending_authorized_at (c : ReleaseChannel) : Z := le_u32_at c RELEASE_CHANNEL_PENDING_AUTHORIZED_AT.1.
Definition channel_flags (c : ReleaseChannel) : Z := le_u32_at c RELEASE_CHANNEL_FLAGS.1.

Definition merge_writer_b (bytes : list Z) (updated_at : Z) (c : ReleaseChannel) : Result ConstitutionError ReleaseChannel :=
  let? caller := channel_new bytes in
  let merged := copy_at RELEASE_CHANNEL_UPDATED_AT (to_le_bytes updated_at) caller in
  let guard := (RELEASE_CHANNEL_SPEC_VERSION.1, RELEASE_CHANNEL_PENDING_AUTHORIZED_AT.2) in
  let merged := copy_at guard (slice guard c) merged in
  let flags := Z.lor (Z.ldiff (channel_flags caller) RELEASE_CHANNEL_FLAG_URGENT_UPGRADE)
                     (Z.land (channel_flags c) RELEASE_CHANNEL_FLAG_URGENT_UPGRADE) in
  let merged := copy_at RELEASE_CHANNEL_FLAGS (to_le_bytes flags) merged in
  channel_new merged.

(** ** Authority *)

Inductive ConstitutionOrigin : Type :=
| CoFutarchyParam
| CoFutarchyTreasury
| CoFutarchyCode
| CoFutarchyMeta
| CoConstitutionTrack
| CoEntrenchedTrack
| CoConstitutionalValues
| CoGuardianHold
| CoEmergencyPlaybook
| CoRoot
| CoSigned.

#[export] Instance ConstitutionOrigin_eq_dec : EqDecision ConstitutionOrigin.
Proof. solve_decision. Defined.

Definition can_set_param (o : ConstitutionOrigin) (c : ParamClass) : bool :=
  match o, c with
  | CoFutarchyParam, PcParam | CoFutarchyTreasury, PcTreasury | CoFutarchyMeta, PcMeta | CoFutarchyMeta, PcMetaAndValues
  | CoConstitutionTrack, PcConst | CoEntrenchedTrack, PcEntrenched | CoConstitutionalValues, PcConst
  | CoConstitutionalValues, PcEntrenched => true
  | _, _ => false
  end.
Definition can_set_capability (o : ConstitutionOrigin) : bool := match o with CoFutarchyMeta => true | _ => false end.
Definition can_amend_registry (o : ConstitutionOrigin) (_ : ParamClass) : bool :=
  match o with CoFutarchyMeta => true | _ => false end.
Definition can_set_release_channel (o : ConstitutionOrigin) : bool :=
  match o with CoConstitutionTrack | CoConstitutionalValues => true | _ => false end.
Definition can_set_phase_flag (o : ConstitutionOrigin) : bool := match o with CoRoot => true | _ => false end.
Definition can_charge_meter (o : ConstitutionOrigin) : bool :=
  match o with CoFutarchyTreasury | CoEmergencyPlaybook => true | _ => false end.

Definition is_welfare_low_knee (key : ParamKey) : bool :=
  bool_decide (key = key16 "welfare.thS_lo") || bool_decide (key = key16 "welfare.thC_lo").

Definition authorize_param_update (origin : ConstitutionOrigin) (r : ParamRecord) (next : ParamValue)
    : Result ConstitutionError unit :=
  let is_track o := bool_decide (origin = o) in
  if is_welfare_low_knee (pr_key r) then
    do? ensure (is_track CoConstitutionTrack || is_track CoEntrenchedTrack) CeBadOrigin in
    do? ensure (same_kind (pr_value r) next) CeWrongType in
    let current := as_u128 (pr_value r) in
    let proposed := as_u128 next in
    ensure (((current <=? proposed) && is_track CoConstitutionTrack) || ((proposed <? current) && is_track CoEntrenchedTrack))
      CeBadOrigin
  else ensure (can_set_param origin (pr_class r)) CeBadOrigin.

Definition is_one_of (key : ParamKey) (names : list String.string) : bool :=
  existsb (fun name => bool_decide (key = key16 name)) names.

Definition rederive_budgets_required (key : ParamKey) (current next : ParamValue) : bool :=
  let changed := negb (as_u128 current =? as_u128 next) in
  if negb changed then false
  else
    let increasing := as_u128 current <? as_u128 next in
    let decreasing := as_u128 next <? as_u128 current in
    if is_one_of key ["epoch.slots"; "mkt.obs_interval"; "dec.window"; "epoch.length"; "ledger.archive"]%string then true
    else
      let pol_budget := bool_decide (key = key16 "pol.budget_epoch") in
      let pol_floor := is_one_of key ["pol.b_gate"; "pol.b_baseline"; "pol.b.param"; "pol.b.trs"; "pol.b.code"; "pol.b.meta"]%string in
      (pol_budget && decreasing) || (pol_floor && increasing).

(** ** Genesis *)

Definition empty_release_channel : ReleaseChannel := 1 :: replicate (RELEASE_CHANNEL_LEN - 1) 0.

Definition genesis_meters : list Meter := [].

Definition genesis_capabilities : list CapabilityRecord :=
  [{| cr_class := Param; cr_capability := CapSetParam (key16 "mkt.obs_interval"); cr_enabled := true |};
   {| cr_class := Meta; cr_capability := CapSetCapability; cr_enabled := true |};
   {| cr_class := Code; cr_capability := CapAuthorizeUpgrade; cr_enabled := true |};
   {| cr_class := Treasury; cr_capability := CapTreasurySpend; cr_enabled := true |};
   {| cr_class := Treasury; cr_capability := CapInsuranceSweep; cr_enabled := true |}].

(** The timing defaults of the release build. *)
Definition EPOCH_LENGTH : Z := 302400.
Definition EPOCH_LENGTH_MAX : Z := 604800.
Definition DEC_WINDOW : Z := 43200.
Definition DEC_WINDOW_MAX : Z := 86400.
Definition DEC_TRAILING : Z := 14400.
Definition DEC_TRAILING_MIN : Z := 3600.
Definition DEC_TRAILING_MAX : Z := 28800.

Definition row (key : String.string) (value min max : ParamValue) (max_delta : option MaxDelta) (cooldown_epochs : Z)
    (class : ParamClass) (kernel_bounded : bool) : ParamRecord :=
  {| pr_key := key16 key; pr_value := value; pr_min := min; pr_max := max; pr_max_delta := max_delta;
     pr_cooldown_epochs := cooldown_epochs; pr_last_changed_epoch := 0; pr_last_change_block := 0; pr_class := class;
     pr_kernel_bounded := kernel_bounded |}.

(** The registry rows, in the order of the source. *)

Definition params_epoch_gate : list ParamRecord :=
  [row "epoch.length"%string (PvU32 EPOCH_LENGTH) (PvU32 MIN_EPOCH_LENGTH_BLOCKS) (PvU32 EPOCH_LENGTH_MAX) (Some (DPercent 10)) 2 PcMeta true;
   row "epoch.slots"%string (PvU8 5) (PvU8 1) (PvU8 12) (Some (DAbsolute (PvU8 2))) 1 PcMeta false;
   row "epoch.horizon_k"%string (PvU8 2) (PvU8 1) (PvU8 4) (Some (DAbsolute (PvU8 1))) 4 PcMetaAndValues false;
   row "mkt.obs_interval"%string (PvU32 10) (PvU32 5) (PvU32 50) (Some (DAbsolute (PvU32 5))) 1 PcParam false;
   row "mkt.kappa"%string (PvFixed 5000000) (PvFixed 1000000) (PvFixed 20000000) (Some (DAbsolute (PvFixed 2000000))) 2 PcMeta true;
   row "mkt.fee"%string (PvPerbill 3000000) (PvPerbill 500000) (PvPerbill 10000000) (Some (DAbsolute (PvPerbill 1000000))) 1 PcParam false;
   row "dec.window"%string (PvU32 DEC_WINDOW) (PvU32 DECISION_WINDOW_FLOOR_BLOCKS) (PvU32 DEC_WINDOW_MAX) (Some (DPercent 20)) 2 PcMeta true;
   row "dec.trailing"%string (PvU32 DEC_TRAILING) (PvU32 DEC_TRAILING_MIN) (PvU32 DEC_TRAILING_MAX) None 2 PcMeta false;
   row "dec.delta_max"%string (PvFixed 50000000) (PvFixed 20000000) (PvFixed 100000000) None 2 PcMeta false;
   row "dec.coverage"%string (PvPercent 95) (PvPercent 90) (PvPercent 99) None 2 PcMeta false;
   row "gate.p_max"%string (PvFixed 50000000) (PvFixed 0) (PvFixed GATE_P_MAX_CEILING_1E9) (Some (DAbsolute (PvFixed 10000000))) 4 PcMetaAndValues true;
   row "gate.eps"%string (PvFixed 20000000) (PvFixed GATE_EPS_FLOOR) (PvFixed 50000000) None 2 PcMeta true;
   row "gate.nb_coverage"%string (PvPercent 98) (PvPercent 95) (PvPercent 100) None 2 PcMeta false;
   row "gate.nb_conv"%string (PvFixed 10000000) (PvFixed 5000000) (PvFixed 20000000) None 2 PcMeta false].

Definition params_exec_dec : list ParamRecord :=
  [row "exec.grace"%string (PvU32 201600) (PvU32 EXECUTION_GRACE_FLOOR_BLOCKS) (PvU32 432000) None 2 PcMeta true;
   row "code.spacing"%string (PvU32 432000) (PvU32 201600) (PvU32 (U32 - 1)) None 2 PcMeta true;
   row "dec.delta.param"%string (PvFixed 37500000) (PvFixed DECISION_DELTA_FLOOR) (PvFixed 100000000) (Some (DAbsolute (PvFixed 5000000))) 2 PcMeta true;
   row "dec.delta.trs"%string (PvFixed 37500000) (PvFixed DECISION_DELTA_FLOOR) (PvFixed 100000000) (Some (DAbsolute (PvFixed 5000000))) 2 PcMeta true;
   row "dec.delta.code"%string (PvFixed 60000000) (PvFixed DECISION_DELTA_FLOOR) (PvFixed 100000000) (Some (DAbsolute (PvFixed 5000000))) 2 PcMeta true;
   row "dec.delta.meta"%string (PvFixed 90000000) (PvFixed DECISION_DELTA_FLOOR) (PvFixed 100000000) (Some (DAbsolute (PvFixed 5000000))) 2 PcMeta true;
   row "dec.sigma.param"%string (PvFixed 3000000) (PvFixed DECISION_SIGMA_FLOOR) (PvFixed 50000000) None 2 PcMeta true;
   row "dec.sigma.trs"%string (PvFixed 5000000) (PvFixed DECISION_SIGMA_FLOOR) (PvFixed 50000000) None 2 PcMeta true;
   row "dec.sigma.code"%string (PvFixed 8000000) (PvFixed DECISION_SIGMA_FLOOR) (PvFixed 50000000) None 2 PcMeta true;
   row "dec.sigma.meta"%string (PvFixed 10000000) (PvFixed DECISION_SIGMA_FLOOR) (PvFixed 50000000) None 2 PcMeta true;
   row "dec.v_min.param"%string (PvBalance 100000000000) (PvBalance 10000000000) (PvBalance 1000000000000) (Some (DFactor 2)) 2 PcMeta false;
   row "dec.v_min.trs"%string (PvBalance 250000000000) (PvBalance 25000000000) (PvBalance 2500000000000) (Some (DFactor 2)) 2 PcMeta false;
   row "dec.v_min.code"%string (PvBalance 600000000000) (PvBalance 60000000000) (PvBalance 6000000000000) (Some (DFactor 2)) 2 PcMeta false;
   row "dec.v_min.meta"%string (PvBalance 1200000000000) (PvBalance 120000000000) (PvBalance 12000000000000) (Some (DFactor 2)) 2 PcMeta false].

Definition params_gate_intake : list ParamRecord :=
  [row "gate.v_min.param"%string (PvBalance 10000000000) (PvBalance 5000000000) (PvBalance 50000000000) (Some (DFactor 2)) 2 PcMeta false;
   row "gate.v_min.trs"%string (PvBalance 25000000000) (PvBalance 12500000000) (PvBalance 125000000000) (Some (DFactor 2)) 2 PcMeta false;
   row "gate.v_min.code"%string (PvBalance 60000000000) (PvBalance 30000000000) (PvBalance 300000000000) (Some (DFactor 2)) 2 PcMeta false;
   row "gate.v_min.meta"%string (PvBalance 120000000000) (PvBalance 60000000000) (PvBalance 600000000000) (Some (DFactor 2)) 2 PcMeta false;
   row "prop.bond.param"%string (PvBalance 1000000000) (PvBalance 100000000) (PvBalance 10000000000) (Some (DFactor 2)) 2 PcMeta false;
   row "prop.bond.trs"%string (PvBalance 5000000000) (PvBalance 500000000) (PvBalance 50000000000) (Some (DFactor 2)) 2 PcMeta false;
   row "prop.bond.code"%string (PvBalance 25000000000) (PvBalance 2500000000) (PvBalance 250000000000) (Some (DFactor 2)) 2 PcMeta false;
   row "prop.bond.meta"%string (PvBalance 50000000000) (PvBalance 5000000000) (PvBalance 500000000000) (Some (DFactor 2)) 2 PcMeta false;
   row "exec.lock.param"%string (PvU32 28800) (PvU32 EXECUTION_TIMELOCK_FLOOR_BLOCKS) (PvU32 432000) (Some (DFactor 2)) 2 PcMeta true;
   row "exec.lock.trs"%string (PvU32 43200) (PvU32 EXECUTION_TIMELOCK_FLOOR_BLOCKS) (PvU32 432000) (Some (DFactor 2)) 2 PcMeta true;
   row "exec.lock.code"%string (PvU32 100800) (PvU32 EXECUTION_TIMELOCK_FLOOR_BLOCKS) (PvU32 432000) (Some (DFactor 2)) 2 PcMeta true;
   row "exec.lock.meta"%string (PvU32 201600) (PvU32 EXECUTION_TIMELOCK_FLOOR_BLOCKS) (PvU32 432000) (Some (DFactor 2)) 2 PcMeta true;
   row "intake.max_acct"%string (PvU8 4) (PvU8 2) (PvU8 8) (Some (DAbsolute (PvU8 2))) 2 PcMeta false;
   row "intake.slash_pct"%string (PvPercent 10) (PvPercent 5) (PvPercent 25) (Some (DAbsolute (PvPercent 5))) 2 PcMeta true].

Definition params_pol_trs : list ParamRecord :=
  [row "pol.b.param"%string (PvBalance (nth 0 POL_B_DEFAULTS 0)) (PvBalance 0) (PvBalance (U128 - 1)) (Some (DPercent 25)) 1 PcTreasury false;
   row "pol.b.trs"%string (PvBalance (nth 1 POL_B_DEFAULTS 0)) (PvBalance 0) (PvBalance (U128 - 1)) (Some (DPercent 25)) 1 PcTreasury false;
   row "pol.b.code"%string (PvBalance (nth 2 POL_B_DEFAULTS 0)) (PvBalance 0) (PvBalance (U128 - 1)) (Some (DPercent 25)) 1 PcTreasury false;
   row "pol.b.meta"%string (PvBalance (nth 3 POL_B_DEFAULTS 0)) (PvBalance 0) (PvBalance (U128 - 1)) (Some (DPercent 25)) 1 PcTreasury false;
   row "pol.b_gate"%string (PvBalance POL_GATE_B_DEFAULT) (PvBalance 0) (PvBalance (U128 - 1)) (Some (DPercent 25)) 1 PcTreasury false;
   row "pol.budget_epoch"%string (PvPerbill POL_BUDGET_EPOCH_DEFAULT_PPB) (PvPerbill 0) (PvPerbill 15000000) None 2 PcMeta true;
   row "trs.cap_proposal"%string (PvPercent 5) (PvPercent 0) (PvPercent 10) (Some (DAbsolute (PvPercent 1))) 2 PcMeta true;
   row "trs.cap_30d"%string (PvPercent 10) (PvPercent 0) (PvPercent 15) None 2 PcMeta true;
   row "trs.cap_180d"%string (PvPercent 30) (PvPercent 0) (PvPercent 40) None 2 PcMeta true;
   row "trs.stream_thr"%string (PvPerbill 10000000) (PvPerbill 5000000) (PvPerbill 50000000) None 2 PcMeta false;
   row "trs.reward.param"%string (PvBalance 500000000) (PvBalance 50000000) (PvBalance 5000000000) (Some (DFactor 2)) 2 PcMeta false;
   row "trs.reward.trs"%string (PvBalance 25000000000) (PvBalance 2500000000) (PvBalance 250000000000) (Some (DFactor 2)) 2 PcMeta false;
   row "trs.reward.code"%string (PvBalance 25000000000) (PvBalance 2500000000) (PvBalance 250000000000) (Some (DFactor 2)) 2 PcMeta false;
   row "trs.reward.meta"%string (PvBalance 25000000000) (PvBalance 2500000000) (PvBalance 250000000000) (Some (DFactor 2)) 2 PcMeta false].

Definition params_iss_orc : list ParamRecord :=
  [row "iss.inflation"%string (PvPercent 2) (PvPercent 0) (PvPercent 2) None 0 PcConst true;
   row "welfare.thS_lo"%string (PvFixed 900000000) (PvFixed 900000000) (PvFixed 1000000000) (Some (DAbsolute (PvFixed 10000000))) 4 PcConst true;
   row "welfare.thS_hi"%string (PvFixed 980000000) (PvFixed 900000000) (PvFixed 1000000000) (Some (DAbsolute (PvFixed 10000000))) 4 PcConst false;
   row "welfare.thC_lo"%string (PvFixed 850000000) (PvFixed 850000000) (PvFixed 1000000000) (Some (DAbsolute (PvFixed 10000000))) 4 PcConst true;
   row "welfare.thC_hi"%string (PvFixed 950000000) (PvFixed 850000000) (PvFixed 1000000000) (Some (DAbsolute (PvFixed 10000000))) 4 PcConst false;
   row "welfare.wP"%string (PvFixed 600000000) (PvFixed 300000000) (PvFixed 700000000) (Some (DAbsolute (PvFixed 50000000))) 4 PcConst false;
   row "welfare.wA"%string (PvFixed 400000000) (PvFixed 300000000) (PvFixed 700000000) (Some (DAbsolute (PvFixed 50000000))) 4 PcConst false;
   row "orc.bond_floor"%string (PvBalance 10000000000) (PvBalance 2500000000) (PvBalance 100000000000) None 2 PcMeta false;
   row "orc.bond_bps"%string (PvPerbill 25000000) (PvPerbill 15000000) (PvPerbill 100000000) (Some (DFactor 2)) 2 PcMeta true;
   row "orc.rounds"%string (PvU8 3) (PvU8 ORC_ROUNDS_MIN) (PvU8 ORC_ROUNDS_MAX) None 2 PcMeta false;
   row "orc.window"%string (PvU32 43200) (PvU32 43200) (PvU32 72000) None 2 PcMeta true;
   row "orc.rep_stake"%string (PvBalance 100000000000) (PvBalance 25000000000) (PvBalance 500000000000) (Some (DFactor 2)) 2 PcMeta false;
   row "orc.n_min"%string (PvU8 3) (PvU8 3) (PvU8 16) (Some (DAbsolute (PvU8 1))) 2 PcMeta true].

Definition params_wt_keeper : list ParamRecord :=
  [row "wt.quorum"%string (PvU8 2) (PvU8 2) (PvU8 5) (Some (DAbsolute (PvU8 1))) 2 PcMeta true;
   row "wt.stake"%string (PvBalance 25000000000) (PvBalance 10000000000) (PvBalance 100000000000) (Some (DFactor 2)) 2 PcMeta false;
   row "reg.bond_inc"%string (PvBalance 5000000000) (PvBalance 2500000000) (PvBalance 50000000000) (Some (DFactor 2)) 2 PcMeta false;
   row "reg.bond_mile"%string (PvBalance 2500000000) (PvBalance 1250000000) (PvBalance 25000000000) (Some (DFactor 2)) 2 PcMeta false;
   row "res.probe_int"%string (PvU32 14400) (PvU32 1) (PvU32 (U32 - 1)) None 1 PcParam true;
   row "res.probe_to"%string (PvU32 600) (PvU32 1) (PvU32 (U32 - 1)) None 1 PcParam true;
   row "res.probe_amount"%string (PvBalance 100000) (PvBalance 1) (PvBalance (U128 - 1)) None 1 PcParam true;
   row "res.fail_thr"%string (PvU8 2) (PvU8 1) (PvU8 (U8 - 1)) None 2 PcMeta true;
   row "res.recover_thr"%string (PvU8 3) (PvU8 1) (PvU8 (U8 - 1)) None 2 PcMeta true;
   row "grd.review_dl"%string (PvU32 2) (PvU32 1) (PvU32 4) (Some (DAbsolute (PvU32 1))) 2 PcMeta false;
   row "att.bond"%string (PvBalance 25000000000000000) (PvBalance 12500000000000000) (PvBalance 250000000000000000) (Some (DFactor 2)) 2 PcEntrenched false;
   row "att.window"%string (PvU32 43200) (PvU32 43200) (PvU32 72000) None 2 PcMeta true;
   row "keeper.budget"%string (PvBalance 12000000000) (PvBalance KEEPER_BUDGET_EPOCH_FLOOR_USDC) (PvBalance 60000000000) (Some (DFactor 2)) 1 PcParam true;
   row "keeper.rebate"%string (PvBalance (sat_mul U128 KEEPER_REBATE_FEE_BASIS_USDC 3)) (PvBalance KEEPER_REBATE_FEE_BASIS_USDC) (PvBalance (sat_mul U128 KEEPER_REBATE_FEE_BASIS_USDC 10)) None 1 PcParam false].

Definition params_dis_pol : list ParamRecord :=
  [row "dis.merit_min"%string (PvBalance 10000000000) (PvBalance 10000000000) (PvBalance (U128 - 1)) (Some (DFactor 2)) 2 PcMeta false;
   row "ops.ct_dot_rate"%string (PvBalance 5000000) (PvBalance 500000) (PvBalance 500000000) (Some (DFactor 2)) 1 PcTreasury false;
   row "ops.ct_fee_dot"%string (PvBalance 5000000000) (PvBalance 100000000) (PvBalance 100000000000) (Some (DFactor 2)) 1 PcTreasury false;
   row "ops.probe_fee"%string (PvBalance 5000000000) (PvBalance 100000000) (PvBalance 100000000000) (Some (DFactor 2)) 1 PcTreasury false;
   row "ops.probe_rate"%string (PvBalance 5000000) (PvBalance 500000) (PvBalance 500000000) (Some (DFactor 2)) 1 PcTreasury false;
   row "ops.ct_quote_ttl"%string (PvU32 100800) (PvU32 7200) (PvU32 403200) (Some (DFactor 2)) 1 PcTreasury false;
   row "collator.comp"%string (PvBalance 2000000000) (PvBalance 500000000) (PvBalance 10000000000) (Some (DFactor 2)) 1 PcParam false;
   row "collator.n_min"%string (PvU8 4) (PvU8 3) (PvU8 12) (Some (DAbsolute (PvU8 1))) 2 PcMeta false;
   row "ledger.min_split"%string (PvBalance MIN_SPLIT_USDC) (PvBalance MIN_SPLIT_USDC) (PvBalance 1000000) None 2 PcMeta true;
   row "ledger.archive"%string (PvU32 MAX_ARCHIVE_DELAY_BLOCKS) (PvU32 1296000) (PvU32 MAX_ARCHIVE_DELAY_BLOCKS) None 2 PcMeta true;
   row "ledger.pos_dep"%string (PvBalance 100000) (PvBalance 100000) (PvBalance 100000) None 2 PcMeta true;
   row "pol.b_baseline"%string (PvBalance 25000000000) (PvBalance 10000000000) (PvBalance 100000000000) (Some (DPercent 25)) 1 PcTreasury false;
   row "collator.n_tgt"%string (PvU8 5) (PvU8 4) (PvU8 12) (Some (DAbsolute (PvU8 1))) 2 PcMeta false].

Definition params_phase3_xcm : list ParamRecord :=
  [row "phase3.tvl_cap"%string (PvBalance 2000000000000) (PvBalance 0) (PvBalance (U128 - 1)) None 0 PcMetaAndValues false;
   row "phase3.dep_cap"%string (PvBalance 20000000000) (PvBalance 0) (PvBalance (U128 - 1)) None 0 PcMetaAndValues false;
   row "xcm.dot_per_sec"%string (PvBalance 100000000000) (PvBalance 1000000000) (PvBalance 10000000000000) (Some (DFactor 2)) 1 PcParam false;
   row "xcm.dot_per_mb"%string (PvBalance 10000000000) (PvBalance 100000000) (PvBalance 1000000000000) (Some (DFactor 2)) 1 PcParam false;
   row "xcm.usdc_per_sec"%string (PvBalance 50000000) (PvBalance 500000) (PvBalance 5000000000) (Some (DFactor 2)) 1 PcParam false;
   row "xcm.usdc_per_mb"%string (PvBalance 5000000) (PvBalance 50000) (PvBalance 500000000) (Some (DFactor 2)) 1 PcParam false].

Definition genesis_params : list ParamRecord :=
  params_epoch_gate ++ params_exec_dec ++ params_gate_intake ++ params_pol_trs ++ params_iss_orc ++ params_wt_keeper ++ params_dis_pol ++ params_phase3_xcm.

(** ** The state and its calls *)

Record ConstitutionState : Type := {
  cs_params : list ParamRecord;
  cs_meters : list Meter;
  cs_capabilities : list CapabilityRecord;
  cs_phase_flags : Z;
  cs_release_channel : ReleaseChannel;
}.

Definition set_params x s := {| s with cs_params := x |}.
Definition set_meters x s := {| s with cs_meters := x |}.
Definition set_capabilities x s := {| s with cs_capabilities := x |}.
Definition set_phase_flags x s := {| s with cs_phase_flags := x |}.
Definition set_channel x s := {| s with cs_release_channel := x |}.

Abbreviation CM A := (ST ConstitutionState ConstitutionError A).

Definition constitution_genesis : ConstitutionState :=
  {| cs_params := genesis_params; cs_meters := genesis_meters; cs_capabilities := genesis_capabilities;
     cs_phase_flags := 0; cs_release_channel := empty_release_channel |}.

(** The pair is coupled when both are balances in the ratio. *)
Definition coupled (e : ConstitutionError) (decision gate : ParamValue) : Result ConstitutionError unit :=
  match decision, gate with
  | PvBalance decision, PvBalance gate => ensure (gate_v_min_coupled decision gate) e
  | _, _ => Err CeWrongType
  end.

(** The row at the returned index is the row of the key. *)
Definition checked_set_param (key : ParamKey) (next : ParamValue) (epoch : Z) (block : BlockNumber) (s : ConstitutionState)
    : Result ConstitutionError ParamRecord :=
  let? record := ok_or CeUnknownParam (find_key pr_key key (cs_params s)) in
  let? updated := checked_update next epoch block record in
  do? match gate_v_min_pair key with
      | Some pair_key =>
          let? paired := ok_or CeTryStateViolation (find_key pr_key pair_key (cs_params s)) in
          let (decision, gate) := if starts_with (bytes_of "dec.") key then (pr_value updated, pr_value paired)
                                  else (pr_value paired, pr_value updated) in
          coupled CeMetaBoundViolation decision gate
      | None => Ok tt
      end in
  Ok updated.

Definition write_param (key : ParamKey) (updated : ParamRecord) (s : ConstitutionState) : ConstitutionState :=
  set_params (alter_key pr_key key (fun _ => updated) (cs_params s)) s.

Definition set_param (key : ParamKey) (next : ParamValue) (epoch : Z) (block : BlockNumber) : CM unit :=
  let! updated := reads (checked_set_param key next epoch block) in
  modify (write_param key updated).

Definition dispatch_set_param (origin : ConstitutionOrigin) (key : ParamKey) (next : ParamValue) (epoch : Z)
    (block : BlockNumber) : CM unit :=
  let! s := get in
  let! record := lift (ok_or CeUnknownParam (find_key pr_key key (cs_params s))) in
  do! lift (authorize_param_update origin record next) in
  let! updated := lift (checked_set_param key next epoch block s) in
  do! lift (ensure (negb (rederive_budgets_required key (pr_value record) next)) CeBudgetDerivationRequired) in
  modify (write_param key updated).

Definition set_capability (capability : CapabilityRecord) : CM unit :=
  let! s := get in
  match find_key cr_key (cr_key capability) (cs_capabilities s) with
  | Some _ => modify (set_capabilities (alter_key cr_key (cr_key capability) (fun _ => capability) (cs_capabilities s)))
  | None =>
      do! lift (ensure (length (cs_capabilities s) <? MAX_CAPABILITIES)%nat CeTooManyCapabilities) in
      modify (set_capabilities (cs_capabilities s ++ [capability]))
  end.

Definition dispatch_amend_registry (origin : ConstitutionOrigin) (key : ParamKey) (min max : ParamValue)
    (max_delta : option MaxDelta) (cooldown_epochs : Z) : CM unit :=
  let! s := get in
  let! record := lift (ok_or CeUnknownParam (find_key pr_key key (cs_params s))) in
  do! lift (ensure (can_amend_registry origin (pr_class record)) CeBadOrigin) in
  let! amended := lift (checked_amend min max max_delta cooldown_epochs record) in
  modify (write_param key amended).

Definition dispatch_set_capability (origin : ConstitutionOrigin) (capability : CapabilityRecord) : CM unit :=
  do! lift (ensure (can_set_capability origin) CeBadOrigin) in
  set_capability capability.

Definition capability_enabled (class : ProposalClass) (capability : Capability) (s : ConstitutionState) : bool :=
  existsb (fun c => bool_decide (cr_class c = class) && bool_decide (cr_capability c = capability) && cr_enabled c)
    (cs_capabilities s).

Definition dispatch_set_phase_flag (origin : ConstitutionOrigin) (flag : Z) (enabled : bool) : CM unit :=
  do! lift (ensure (can_set_phase_flag origin) CeBadOrigin) in
  do! lift (ensure (Z.ldiff flag SUDO_ARMABLE_MASK =? 0) CeFlagNotArmable) in
  let! s := get in
  let! flags := lift (flags_set flag enabled (cs_phase_flags s)) in
  modify (set_phase_flags flags).

Definition dispatch_set_release_channel (origin : ConstitutionOrigin) (bytes : list Z) (updated_at : Z) : CM unit :=
  do! lift (ensure (can_set_release_channel origin) CeBadOrigin) in
  let! s := get in
  let! channel := lift (merge_writer_b bytes updated_at (cs_release_channel s)) in
  modify (set_channel channel).

Definition dispatch_charge_meter (origin : ConstitutionOrigin) (index : nat) (amount epoch : Z) : CM unit :=
  do! lift (ensure (can_charge_meter origin) CeBadOrigin) in
  let! s := get in
  let! meter := lift (ok_or CeUnknownMeter (cs_meters s !! index)) in
  let! charged := lift (charge amount epoch meter) in
  modify (set_meters (<[index := charged]> (cs_meters s))).

(** ** The state checker *)

Definition check_record (r : ParamRecord) : Result ConstitutionError unit :=
  do? ensure (same_kind (pr_value r) (pr_min r) && same_kind (pr_value r) (pr_max r)) CeWrongType in
  do? ensure (as_u128 (pr_min r) <=? as_u128 (pr_max r)) CeTryStateViolation in
  do? ensure (as_u128 (pr_min r) <=? as_u128 (pr_value r)) CeBelowMin in
  do? ensure (as_u128 (pr_value r) <=? as_u128 (pr_max r)) CeAboveMax in
  match pr_max_delta r with
  | None => Ok tt
  | Some (DAbsolute bound) => ensure (same_kind (pr_value r) bound) CeWrongType
  | Some (DPercent percent) => ensure ((1 <=? percent) && (percent <=? 100)) CeWrongType
  | Some (DFactor factor) => ensure (1 <=? factor) CeWrongType
  end.

Definition check_pair (params : list ParamRecord) (name : String.string) : Result ConstitutionError unit :=
  let? decision := ok_or CeTryStateViolation (find_key pr_key (key16 name) params) in
  let? gate_key := ok_or CeTryStateViolation (gate_v_min_pair (pr_key decision)) in
  let? gate := ok_or CeTryStateViolation (find_key pr_key gate_key params) in
  coupled CeTryStateViolation (pr_value decision) (pr_value gate).

Definition constitution_try_state (s : ConstitutionState) : Result ConstitutionError unit :=
  do? ensure (length (cs_params s) <=? MAX_PARAMS)%nat CeTooManyParams in
  do? ensure (length (cs_capabilities s) <=? MAX_CAPABILITIES)%nat CeTooManyCapabilities in
  do? ensure (length (cs_meters s) <=? MAX_METERS)%nat CeTooManyMeters in
  do? flags_from_bits (cs_phase_flags s) in
  do? for_each check_record (cs_params s) in
  do? for_each (check_pair (cs_params s)) ["dec.v_min.param"; "dec.v_min.trs"; "dec.v_min.code"; "dec.v_min.meta"]%string in
  for_each (fun m => ensure (mt_spent m <=? mt_limit m) CeMeterExhausted) (cs_meters s).

(** Every name of the registry fits a key, and the genesis state is lawful. *)
Example names_fit : forallb (fun r => Nat.eqb (length (pr_key r)) 16) genesis_params = true.
Proof. by vm_compute. Qed.

Example genesis_is_lawful : constitution_try_state constitution_genesis = Ok tt.
Proof. by vm_compute. Qed.
