(* ===== verification/ConstitutionInv.v ===== *)
(** * The constitution as a transition system, and its invariant

    The calls, the internal writers of sibling pallets among them; the law of
    a parameter row and its descent from a genesis row; the layout of the
    release channel; and that every call keeps all of it. *)

From Stdlib Require Import Ascii.
From stdpp Require Import strings.
From S2P Require Import Prelude Keyed Primitives Proposals Constitution.

(** ** The system *)

Inductive ConstitutionCall : Type :=
| KSetParam (origin : ConstitutionOrigin) (key : ParamKey) (next : ParamValue) (epoch : Z) (block : BlockNumber)
| KSetParamInternal (key : ParamKey) (next : ParamValue) (epoch : Z) (block : BlockNumber)
| KAmend (origin : ConstitutionOrigin) (key : ParamKey) (min max : ParamValue) (max_delta : option MaxDelta) (cooldown : Z)
| KSetCapability (origin : ConstitutionOrigin) (capability : CapabilityRecord)
| KSetCapabilityInternal (capability : CapabilityRecord)
| KSetFlag (origin : ConstitutionOrigin) (flag : Z) (enabled : bool)
| KSetFlagInternal (flag : Z) (enabled : bool)
| KSetChannel (origin : ConstitutionOrigin) (bytes : list Z) (updated_at : Z)
| KNoteChannel (bytes : list Z)
| KCharge (origin : ConstitutionOrigin) (index : nat) (amount epoch : Z).

(** [PhaseFlags::set] and [ReleaseChannel::new], as the internal writers use them. *)
Definition write_flag (flag : Z) (enabled : bool) : CM unit :=
  let! s := get in
  let! flags := lift (flags_set flag enabled (cs_phase_flags s)) in
  modify (set_phase_flags flags).

Definition write_channel (bytes : list Z) : CM unit :=
  let! channel := lift (channel_new bytes) in
  modify (set_channel channel).

Definition constitution_exec (c : ConstitutionCall) : CM unit :=
  match c with
  | KSetParam o k v e b => dispatch_set_param o k v e b
  | KSetParamInternal k v e b => set_param k v e b
  | KAmend o k mn mx d c => dispatch_amend_registry o k mn mx d c
  | KSetCapability o r => dispatch_set_capability o r
  | KSetCapabilityInternal r => set_capability r
  | KSetFlag o f en => dispatch_set_phase_flag o f en
  | KSetFlagInternal f en => write_flag f en
  | KSetChannel o b at_ => dispatch_set_release_channel o b at_
  | KNoteChannel b => write_channel b
  | KCharge o i a e => dispatch_charge_meter o i a e
  end.

(** Values are unsigned integers, channels are 168 bytes. *)
Definition pv_ok (v : ParamValue) : Prop := 0 <= as_u128 v < U128.
Definition channel_bytes (b : list Z) : Prop := length b = RELEASE_CHANNEL_LEN /\ forall x, x ∈ b -> 0 <= x < 256.

Definition delta_unsigned (d : option MaxDelta) : Prop :=
  match d with Some (DAbsolute b) => 0 <= as_u128 b | _ => True end.

Definition constitution_call_ok (c : ConstitutionCall) : Prop :=
  match c with
  | KSetParam _ _ v e _ | KSetParamInternal _ v e _ => pv_ok v /\ 0 <= e < U32
  | KAmend _ _ mn mx d cd => pv_ok mn /\ pv_ok mx /\ delta_unsigned d /\ 0 <= cd
  | KSetFlag _ f _ | KSetFlagInternal f _ => 0 <= f < U32
  | KSetChannel _ b at_ => channel_bytes b /\ 0 <= at_ < U32
  | KNoteChannel b => channel_bytes b
  | KCharge _ _ a _ => 0 <= a
  | _ => True
  end.

Definition constitution_step (c : ConstitutionCall) (s s' : ConstitutionState) : Prop :=
  constitution_call_ok c /\ constitution_exec c s = (Ok tt, s').

Definition constitution_next (s s' : ConstitutionState) : Prop := exists c, constitution_step c s s'.

(** The genesis table with the meters, flags and channel of the deployment. *)
Definition constitution_start (meters : list Meter) (flags : Z) (channel : ReleaseChannel) : ConstitutionState :=
  {| cs_params := genesis_params; cs_meters := meters; cs_capabilities := genesis_capabilities; cs_phase_flags := flags;
     cs_release_channel := channel |}.

Definition start_ok (meters : list Meter) (flags : Z) (channel : ReleaseChannel) : Prop :=
  (length meters <= MAX_METERS)%nat /\ (forall m, m ∈ meters -> 0 <= mt_spent m <= mt_limit m)
  /\ 0 <= flags < U32 /\ flags_from_bits flags = Ok flags
  /\ channel_bytes channel /\ channel_new channel = Ok channel.

Definition constitution_reachable (s : ConstitutionState) : Prop :=
  exists meters flags channel, start_ok meters flags channel /\ rtc constitution_next (constitution_start meters flags channel) s.

(** ** The law of a row *)

Record record_ok (r : ParamRecord) : Prop := {
  ro_check : check_record r = Ok tt;
  ro_min : 0 <= as_u128 (pr_min r);
  ro_max : as_u128 (pr_max r) < U128;
  ro_delta : delta_unsigned (pr_max_delta r);
  ro_cooldown : 0 <= pr_cooldown_epochs r;
  ro_last : 0 <= pr_last_changed_epoch r < U32;
}.

(** [r] is the present row of the genesis row [g]. *)
Record descends (g r : ParamRecord) : Prop := {
  de_key : pr_key r = pr_key g;
  de_class : pr_class r = pr_class g;
  de_kernel : pr_kernel_bounded r = pr_kernel_bounded g;
  de_kind : same_kind (pr_value g) (pr_value r) = true;
  de_fixed : pr_kernel_bounded g = true ->
    pr_min r = pr_min g /\ pr_max r = pr_max g /\ pr_max_delta r = pr_max_delta g
    /\ pr_cooldown_epochs r = pr_cooldown_epochs g;
}.

Definition pairs_coupled (params : list ParamRecord) : Prop :=
  forall d g, (d, g) ∈ v_min_pairs -> exists rd rg,
    find_key pr_key (key16 d) params = Some rd /\ find_key pr_key (key16 g) params = Some rg
    /\ exists x y, pr_value rd = PvBalance x /\ pr_value rg = PvBalance y /\ gate_v_min_coupled x y = true.

Record constitution_ok (s : ConstitutionState) : Prop := {
  co_descent : Forall2 descends genesis_params (cs_params s);
  co_records : forall r, r ∈ cs_params s -> record_ok r;
  co_pairs : pairs_coupled (cs_params s);
  co_caps : NoDup (keys cr_key (cs_capabilities s));
  co_caps_len : (length (cs_capabilities s) <= MAX_CAPABILITIES)%nat;
  co_meters : forall m, m ∈ cs_meters s -> 0 <= mt_spent m <= mt_limit m;
  co_meters_len : (length (cs_meters s) <= MAX_METERS)%nat;
  co_flags : 0 <= cs_phase_flags s < U32 /\ flags_from_bits (cs_phase_flags s) = Ok (cs_phase_flags s);
  co_channel : channel_bytes (cs_release_channel s) /\ channel_new (cs_release_channel s) = Ok (cs_release_channel s);
}.

(** ** Kinds *)

Lemma same_kind_refl a : same_kind a a = true.
Proof. by destruct a. Qed.
Lemma same_kind_sym a b : same_kind a b = same_kind b a.
Proof. by destruct a, b. Qed.
Lemma same_kind_trans a b c : same_kind a b = true -> same_kind b c = true -> same_kind a c = true.
Proof. by destruct a, b, c. Qed.

(** The shape of a rate limit that the checker admits. *)
Definition delta_ok (v : ParamValue) (d : option MaxDelta) : Prop :=
  match d with
  | None => True
  | Some (DAbsolute bound) => same_kind v bound = true
  | Some (DPercent p) => 1 <= p <= 100
  | Some (DFactor f) => 1 <= f
  end.

Lemma check_record_Ok r :
  check_record r = Ok tt <->
  same_kind (pr_value r) (pr_min r) = true /\ same_kind (pr_value r) (pr_max r) = true
  /\ as_u128 (pr_min r) <= as_u128 (pr_value r) <= as_u128 (pr_max r) /\ delta_ok (pr_value r) (pr_max_delta r).
Proof.
  unfold check_record. split.
  - intros H. inv_all. to_prop. split_and!; try done. unfold delta_ok. destruct (pr_max_delta r) as [[]|]; inv_all; to_prop; done.
  - intros (-> & -> & Hb & Hd). cbn [andb ensure rbind]. rewrite !(proj2 (Z.leb_le _ _)) by lia. cbn [ensure rbind].
    unfold delta_ok in Hd. destruct (pr_max_delta r) as [[b|p|f]|]; [by rewrite Hd| | |done].
    + by rewrite !(proj2 (Z.leb_le _ _)) by lia.
    + by rewrite (proj2 (Z.leb_le _ _)).
Qed.

(** ** Updates and amendments of a row *)

Lemma checked_update_Ok next epoch block r r' :
  checked_update next epoch block r = Ok r' ->
  r' = with_value next epoch block r /\ same_kind (pr_value r) next = true
  /\ as_u128 (pr_min r) <= as_u128 next <= as_u128 (pr_max r)
  /\ sat_add U32 (pr_last_changed_epoch r) (pr_cooldown_epochs r) <= epoch.
Proof. intros H. unfold checked_update in H. inv_all. to_prop. split_and!; done. Qed.

Lemma delta_ok_kind v w d : same_kind v w = true -> delta_ok v d -> delta_ok w d.
Proof.
  intros Hk. destruct d as [[b|p|f]|]; cbn; try done. intros Hb. rewrite same_kind_sym in Hk. by eapply same_kind_trans.
Qed.

Lemma checked_update_ok next epoch block r r' g :
  record_ok r -> descends g r -> pv_ok next -> 0 <= epoch < U32 -> checked_update next epoch block r = Ok r' ->
  record_ok r' /\ descends g r'.
Proof.
  intros [Hc Hmin Hmax Hu Hcd Hl] [Hk Hcl Hkb Hkd Hf] Hn He (-> & Hkn & Hb & _)%checked_update_Ok.
  apply check_record_Ok in Hc as (K1 & K2 & _ & Hd). split; constructor; cbn; try done.
  - apply check_record_Ok. cbn. rewrite same_kind_sym in Hkn. split_and!; try lia; try (by eapply same_kind_trans).
    rewrite same_kind_sym in Hkn. by eapply delta_ok_kind.
  - by eapply same_kind_trans.
Qed.

Lemma checked_amend_Ok mn mx d cd r r' :
  checked_amend mn mx d cd r = Ok r' ->
  r' = with_metadata mn mx d cd r /\ pr_kernel_bounded r = false
  /\ same_kind (pr_value r) mn = true /\ same_kind (pr_value r) mx = true
  /\ as_u128 mn <= as_u128 (pr_value r) <= as_u128 mx /\ delta_ok (pr_value r) d /\ cd <= META_MAX_COOLDOWN_EPOCHS.
Proof.
  intros H. unfold checked_amend in H. inv_all. to_prop. split_and!; try done.
  unfold delta_ok. destruct d as [[]|]; inv_all; to_prop; done.
Qed.

Lemma checked_amend_ok mn mx d cd r r' g :
  record_ok r -> descends g r -> pv_ok mn -> pv_ok mx -> delta_unsigned d -> 0 <= cd -> checked_amend mn mx d cd r = Ok r' ->
  record_ok r' /\ descends g r'.
Proof.
  intros [Hc Hmin Hmax Hu Hcd Hl] [Hk Hcl Hkb Hkd Hf] [? ?] [? ?] Hdu Hcd' (-> & Hkf & K1 & K2 & Hb & Hd & _)%checked_amend_Ok.
  split; constructor; cbn; try done; try lia; [by apply check_record_Ok|]. intros Hg. congruence.
Qed.

(** ** The table of the rows *)

Lemma descends_refl g : descends g g.
Proof. constructor; try done. apply same_kind_refl. Qed.

Lemma genesis_keys_NoDup : NoDup (keys pr_key genesis_params).
Proof. apply (bool_decide_eq_true (NoDup (keys pr_key genesis_params))). by vm_compute. Qed.

Lemma descent_keys gs l : Forall2 descends gs l -> keys pr_key l = keys pr_key gs.
Proof. induction 1 as [|g r gs l Hd _ IH]; [done|]. unfold keys in *. cbn. by rewrite (de_key _ _ Hd), IH. Qed.

Lemma descent_find gs l k r :
  Forall2 descends gs l -> find_key pr_key k l = Some r -> exists g, find_key pr_key k gs = Some g /\ descends g r.
Proof.
  induction 1 as [|g r0 gs l Hd _ IH]; cbn; [done|]. rewrite <- (de_key _ _ Hd). case_decide; intros; simplify_eq; eauto.
Qed.

Lemma descent_alter gs l k (F : ParamRecord -> ParamRecord) r :
  Forall2 descends gs l -> find_key pr_key k l = Some r -> (forall g, descends g r -> descends g (F r)) ->
  Forall2 descends gs (alter_key pr_key k F l).
Proof.
  intros Hf Hk HF. revert Hk. induction Hf as [|g r0 gs l Hd Hf IH]; cbn; [done|].
  case_decide; intros; simplify_eq; constructor; eauto.
Qed.

(** A write at [key] is the update function at the row. *)
Lemma write_param_eq key (F : ParamRecord -> ParamRecord) r s :
  find_key pr_key key (cs_params s) = Some r ->
  write_param key (F r) s = set_params (alter_key pr_key key F (cs_params s)) s.
Proof. intros Hr. unfold write_param. f_equal. by eapply alter_key_ext. Qed.

(** The four pairs of the source. *)
Lemma v_min_pair_facts d g :
  (d, g) ∈ v_min_pairs ->
  gate_v_min_pair (key16 d) = Some (key16 g) /\ gate_v_min_pair (key16 g) = Some (key16 d)
  /\ starts_with (bytes_of "dec.") (key16 d) = true /\ starts_with (bytes_of "dec.") (key16 g) = false
  /\ key16 d <> key16 g.
Proof.
  unfold v_min_pairs. rewrite !elem_of_cons, elem_of_nil.
  intros [[= -> ->]|[[= -> ->]|[[= -> ->]|[[= -> ->]|[]]]]]; split_and!; by vm_compute.
Qed.

Lemma coupled_Ok e d g u :
  coupled e d g = Ok u <-> exists x y, d = PvBalance x /\ g = PvBalance y /\ gate_v_min_coupled x y = true.
Proof.
  unfold coupled. split.
  - destruct d, g; try done. intros H. inv_all. eauto.
  - intros (x & y & -> & -> & ->). by destruct u.
Qed.

Lemma write_keeps key F r s :
  constitution_ok s -> find_key pr_key key (cs_params s) = Some r -> (forall w, pr_key (F w) = pr_key w) ->
  record_ok (F r) -> (forall g, descends g r -> descends g (F r)) -> pairs_coupled (alter_key pr_key key F (cs_params s)) ->
  constitution_ok (write_param key (F r) s).
Proof.
  intros [] Hr HF Hok Hd Hp. rewrite (write_param_eq key F r) by done. constructor; cbn; try done.
  - by eapply descent_alter.
  - intros w [Hw|(w0 & Hw0 & ->)]%elem_of_alter; [auto|]. by simplify_eq.
Qed.

(** A write that leaves the value of the row alone leaves the pairs alone. *)
Lemma pairs_same_value key F r params :
  pairs_coupled params -> find_key pr_key key params = Some r -> (forall w, pr_key (F w) = pr_key w) ->
  pr_value (F r) = pr_value r -> pairs_coupled (alter_key pr_key key F params).
Proof.
  intros Hp Hr HF Hv d g Hdg. destruct (Hp d g Hdg) as (rd & rg & Hd & Hg & x & y & Hx & Hy & Hc).
  assert (forall k w, find_key pr_key k params = Some w ->
    exists w', find_key pr_key k (alter_key pr_key key F params) = Some w' /\ pr_value w' = pr_value w) as Hsame.
  { intros k w Hw. destruct (decide (key = k)) as [->|Hne].
    - rewrite (find_key_alter_eq pr_key k F params r) by done. simplify_eq. eauto.
    - rewrite find_key_alter_ne by done. eauto. }
  destruct (Hsame _ _ Hd) as (rd' & Hd' & Ed), (Hsame _ _ Hg) as (rg' & Hg' & Eg).
  exists rd', rg'. rewrite Ed, Eg. eauto 10.
Qed.

Lemma checked_set_param_Ok key next epoch block s r' :
  checked_set_param key next epoch block s = Ok r' ->
  exists r, find_key pr_key key (cs_params s) = Some r /\ checked_update next epoch block r = Ok r'
  /\ match gate_v_min_pair key with
     | Some pair_key => exists paired, find_key pr_key pair_key (cs_params s) = Some paired
         /\ exists x y, (if starts_with (bytes_of "dec.") key then next else pr_value paired) = PvBalance x
           /\ (if starts_with (bytes_of "dec.") key then pr_value paired else next) = PvBalance y
           /\ gate_v_min_coupled x y = true
     | None => True
     end.
Proof.
  intros H. unfold checked_set_param in H. inv_all. subst. eexists. split_and!; [done..|].
  match goal with H : checked_update _ _ _ _ = _ |- _ => apply checked_update_Ok in H as (-> & _) end.
  destruct (gate_v_min_pair key) as [k|]; [|done]. inv_all. eexists. split; [done|].
  destruct (starts_with _ key); match goal with H : coupled _ _ _ = _ |- _ => apply coupled_Ok in H end; done.
Qed.

Lemma set_param_pairs key next epoch block s r r' :
  pairs_coupled (cs_params s) -> find_key pr_key key (cs_params s) = Some r ->
  checked_set_param key next epoch block s = Ok r' ->
  pairs_coupled (alter_key pr_key key (with_value next epoch block) (cs_params s)).
Proof.
  intros Hp Hr (r0 & Hr0 & _ & Hm)%checked_set_param_Ok d g Hdg. simplify_eq.
  destruct (v_min_pair_facts d g Hdg) as (F1 & F2 & F3 & F4 & F5).
  destruct (decide (key = key16 d)) as [->|Hd].
  - rewrite F1, F3 in Hm. destruct Hm as (paired & Hg & x & y & -> & Hy & Hc).
    rewrite (find_key_alter_eq pr_key _ _ _ r) by done. rewrite find_key_alter_ne by done.
    do 2 eexists. split_and!; [done..|]. cbn. eauto.
  - destruct (decide (key = key16 g)) as [->|Hg].
    + rewrite F2, F4 in Hm. destruct Hm as (paired & Hd' & x & y & Hx & -> & Hc).
      rewrite find_key_alter_ne by done. rewrite (find_key_alter_eq pr_key _ _ _ r) by done.
      do 2 eexists. split_and!; [done..|]. cbn. eauto.
    + rewrite !find_key_alter_ne by done. by apply Hp.
Qed.

(** ** The release channel *)

Lemma channel_new_Ok b c : channel_new b = Ok c -> c = b /\ channel_new c = Ok c.
Proof. intros H. pose proof H as H'. unfold channel_new in H'. inv_all. by subst. Qed.

Lemma copy_at_bytes range src b :
  channel_bytes b -> (range.1 <= range.2 <= RELEASE_CHANNEL_LEN)%nat -> length src = (range.2 - range.1)%nat ->
  (forall x, x ∈ src -> 0 <= x < 256) -> channel_bytes (copy_at range src b).
Proof.
  intros [Hl Hb] Hr Hs Hx. unfold copy_at. split.
  - rewrite !length_app, length_take, length_drop, Hl, Hs. lia.
  - intros x [Hx'|[Hx'|Hx']%elem_of_app]%elem_of_app; [|auto|].
    + apply Hb. eapply elem_of_sublist; [exact Hx'|]. apply sublist_take.
    + apply Hb. eapply elem_of_sublist; [exact Hx'|]. apply sublist_drop.
Qed.

Lemma to_le_bytes_range x v : x ∈ to_le_bytes v -> 0 <= x < 256.
Proof. unfold to_le_bytes. rewrite !elem_of_cons, elem_of_nil. intros [->|[->|[->|[->|[]]]]]; by apply Z.mod_pos_bound. Qed.

Lemma slice_bytes range b : channel_bytes b -> (range.1 <= range.2 <= RELEASE_CHANNEL_LEN)%nat ->
  length (slice range b) = (range.2 - range.1)%nat /\ (forall x, x ∈ slice range b -> 0 <= x < 256).
Proof.
  intros [Hl Hb] Hr. unfold slice. split; [rewrite length_take, length_drop, Hl; lia|].
  intros x Hx. apply Hb. eapply elem_of_sublist; [exact Hx|]. etrans; [apply sublist_take|apply sublist_drop].
Qed.

Lemma merge_writer_b_bytes b at_ c c' :
  channel_bytes b -> channel_bytes c -> merge_writer_b b at_ c = Ok c' -> channel_bytes c' /\ channel_new c' = Ok c'.
Proof.
  intros Hb Hc H. unfold merge_writer_b in H. inv_all.
  repeat match goal with H : channel_new _ = Ok _ |- _ => apply channel_new_Ok in H as [-> ?] end. split; [|done].
  destruct (slice_bytes (RELEASE_CHANNEL_SPEC_VERSION.1, RELEASE_CHANNEL_PENDING_AUTHORIZED_AT.2) c Hc) as [Hl Hr]; [cbn; unfold RELEASE_CHANNEL_LEN; lia|].
  repeat apply copy_at_bytes; try done; try (cbn; unfold RELEASE_CHANNEL_LEN; lia); intros x; apply to_le_bytes_range.
Qed.

(** ** Meters and flags *)

Lemma charge_Ok a e m m' : 0 <= a -> 0 <= mt_spent m -> charge a e m = Ok m' -> 0 <= mt_spent m' <= mt_limit m'.
Proof. intros Ha Hm H. unfold charge in H. inv_all. to_prop. subst. cbn in *. destruct (_ <? e); cbn in *; lia. Qed.

Lemma land_reserved x : 0 <= x < U32 -> (Z.land x RESERVED_MASK =? 0) = (x <? 256).
Proof.
  intros Hx. replace RESERVED_MASK with (Z.shiftl (Z.ones 24) 8) by done.
  replace (Z.land x (Z.shiftl (Z.ones 24) 8)) with (Z.shiftl (Z.land (Z.shiftr x 8) (Z.ones 24)) 8).
  2:{ apply Z.bits_inj'. intros n Hn. rewrite Z.land_spec, !Z.shiftl_spec by lia.
      destruct (decide (n < 8)); [rewrite !(Z.testbit_neg_r _ (n - 8)) by lia; by rewrite andb_false_r|].
      rewrite Z.land_spec, Z.shiftr_spec by lia. do 2 f_equal. lia. }
  rewrite Z.land_ones, Z.shiftr_div_pow2, Z.shiftl_mul_pow2 by lia. change (2 ^ 8) with 256. change (2 ^ 24) with 16777216.
  rewrite (Z.mod_small (x / 256)) by (split; [apply Z.div_pos|apply Z.div_lt_upper_bound]; lia).
  destruct (x <? 256) eqn:E; to_prop.
  - by rewrite Z.div_small by lia.
  - apply Z.eqb_neq. assert (1 <= x / 256) by (apply Z.div_le_lower_bound; lia). lia.
Qed.

Lemma flags_from_bits_small x : 0 <= x < U32 -> flags_from_bits x = Ok x <-> x < 256.
Proof.
  intros Hx. unfold flags_from_bits. rewrite land_reserved by done. destruct (x <? 256) eqn:E; to_prop; split; (done || lia).
Qed.

Lemma small_bits x : 0 <= x -> x < 256 <-> Z.shiftr x 8 = 0.
Proof.
  intros Hx. rewrite Z.shiftr_div_pow2 by lia. change (2 ^ 8) with 256. split; [intros; apply Z.div_small; lia|].
  intros E. pose proof (Z.div_mod x 256). pose proof (Z.mod_pos_bound x 256). lia.
Qed.

Lemma flags_set_small flag en flags flags' :
  0 <= flags < 256 -> 0 <= flag < U32 -> flags_set flag en flags = Ok flags' -> 0 <= flags' < 256.
Proof.
  intros Hf Hg H. unfold flags_set in H. inv_all. rewrite land_reserved in * by done. to_prop. subst flags'.
  destruct en.
  - pose proof (Z.lor_nonneg flags flag). split; [lia|]. apply small_bits; [lia|].
    rewrite Z.shiftr_lor, (proj1 (small_bits flags ltac:(lia))), (proj1 (small_bits flag ltac:(lia))) by lia. done.
  - pose proof (Z.ldiff_nonneg flags flag). split; [lia|]. apply small_bits; [lia|].
    rewrite Z.shiftr_ldiff, (proj1 (small_bits flags ltac:(lia))) by lia. done.
Qed.

(** ** Every call keeps the invariant *)

Lemma write_flags_ok f s : constitution_ok s -> 0 <= f < 256 -> constitution_ok (set_phase_flags f s).
Proof. intros [] Hf. constructor; cbn; try done. split; [lia|]. apply flags_from_bits_small; lia. Qed.

Lemma set_flag_ok flag en s s' u :
  constitution_ok s -> 0 <= flag < U32 -> write_flag flag en s = (Ok u, s') -> constitution_ok s'.
Proof.
  intros Hs Hf H. unfold write_flag in H. inv_all. apply write_flags_ok; [done|]. destruct (co_flags _ Hs) as [Hr Hb].
  apply (flags_from_bits_small _ Hr) in Hb. eapply (flags_set_small flag en); [|done..]. lia.
Qed.

Lemma write_channel_ok c s :
  constitution_ok s -> channel_bytes c -> channel_new c = Ok c -> constitution_ok (set_channel c s).
Proof. intros [] Hc Hn. by constructor. Qed.

Lemma set_param_ok key next epoch block s r' :
  constitution_ok s -> pv_ok next -> 0 <= epoch < U32 -> checked_set_param key next epoch block s = Ok r' ->
  constitution_ok (write_param key r' s).
Proof.
  intros Hs Hn He H. pose proof H as (r & Hr & Hu & _)%checked_set_param_Ok.
  pose proof (checked_update_Ok _ _ _ _ _ Hu) as (-> & _). pose proof (find_key_Some _ _ _ _ Hr) as [Hk Hin].
  apply write_keeps; try done.
  - destruct (descent_find _ _ _ _ (co_descent _ Hs) Hr) as (g & _ & Hg).
    by destruct (checked_update_ok next epoch block r _ g (co_records _ Hs _ Hin) Hg Hn He Hu).
  - intros g Hg. by destruct (checked_update_ok next epoch block r _ g (co_records _ Hs _ Hin) Hg Hn He Hu).
  - eapply set_param_pairs; [apply Hs|done..].
Qed.

Lemma amend_ok o key mn mx d cd s s' u :
  constitution_ok s -> pv_ok mn -> pv_ok mx -> delta_unsigned d -> 0 <= cd -> dispatch_amend_registry o key mn mx d cd s = (Ok u, s') -> constitution_ok s'.
Proof.
  intros Hs Hmn Hmx Hdu Hcd H. unfold dispatch_amend_registry in H. inv_all.
  match goal with H : find_key _ _ _ = Some ?x |- _ => rename H into Hr; rename x into r end.
  match goal with H : checked_amend _ _ _ _ _ = Ok _ |- _ => rename H into Ha end.
  pose proof (checked_amend_Ok _ _ _ _ _ _ Ha) as (-> & _). pose proof (find_key_Some _ _ _ _ Hr) as [Hk Hin].
  apply write_keeps; try done.
  - destruct (descent_find _ _ _ _ (co_descent _ Hs) Hr) as (g & _ & Hg).
    by destruct (checked_amend_ok mn mx d cd r _ g (co_records _ Hs _ Hin) Hg Hmn Hmx Hdu Hcd Ha).
  - intros g Hg. by destruct (checked_amend_ok mn mx d cd r _ g (co_records _ Hs _ Hin) Hg Hmn Hmx Hdu Hcd Ha).
  - eapply pairs_same_value; [apply Hs|done..].
Qed.

Lemma set_capability_ok c s s' u : constitution_ok s -> set_capability c s = (Ok u, s') -> constitution_ok s'.
Proof.
  intros [] H. unfold set_capability in H. inv_all. destruct (find_key _ _ _) as [x|] eqn:Hf; inv_all; constructor; cbn -[keys]; try done.
  - by rewrite keys_alter_row.
  - by rewrite length_alter_key.
  - rewrite keys_app. apply NoDup_app. split_and!; [done| |apply NoDup_singleton].
    intros k Hk ->%list_elem_of_singleton. by apply find_key_None in Hf.
  - rewrite length_app. cbn -[MAX_CAPABILITIES]. match goal with H : (_ <? _)%nat = true |- _ => apply Nat.ltb_lt in H end. lia.
Qed.

Lemma charge_meter_ok o i a e s s' u :
  constitution_ok s -> 0 <= a -> dispatch_charge_meter o i a e s = (Ok u, s') -> constitution_ok s'.
Proof.
  intros [] Ha H. unfold dispatch_charge_meter in H. inv_all.
  match goal with H : _ !! _ = Some ?m |- _ => rename H into Hm; rename m into m0 end. constructor; cbn; try done.
  - apply Forall_forall, Forall_insert; [by apply Forall_forall|]. pose proof (co_meters0 m0 (list_elem_of_lookup_2 _ _ _ Hm)).
    eapply charge_Ok; [done| |done]. lia.
  - by rewrite length_insert.
Qed.

Lemma constitution_step_ok c s s' : constitution_ok s -> constitution_step c s s' -> constitution_ok s'.
Proof.
  intros Hs [Hc H]. destruct c; cbn [constitution_exec constitution_call_ok] in *.
  - unfold dispatch_set_param in H. inv_all. eapply (set_param_ok key next epoch block); [done|apply Hc|apply Hc|done].
  - unfold set_param in H. inv_all. eapply (set_param_ok key next epoch block); [done|apply Hc|apply Hc|done].
  - eapply (amend_ok origin key min max max_delta cooldown); [done|apply Hc|apply Hc|apply Hc|apply Hc|done].
  - unfold dispatch_set_capability in H. inv_all. by eapply set_capability_ok.
  - by eapply set_capability_ok.
  - eapply (set_flag_ok flag enabled); [done..|]. unfold dispatch_set_phase_flag in H. inv_all.
    unfold write_flag, bind, get, lift, modify. by match goal with H : flags_set _ _ _ = _ |- _ => rewrite H end.
  - by eapply set_flag_ok.
  - unfold dispatch_set_release_channel in H. inv_all.
    match goal with H : merge_writer_b _ _ _ = _ |- _ => apply merge_writer_b_bytes in H as [? ?]; [|apply Hc|apply Hs] end.
    by apply write_channel_ok.
  - unfold write_channel in H. inv_all. match goal with H : channel_new _ = _ |- _ => apply channel_new_Ok in H as [-> ?] end.
    by apply write_channel_ok.
  - by eapply charge_meter_ok.
Qed.

(** The genesis table obeys its law. *)
Lemma genesis_records r : r ∈ genesis_params -> record_ok r.
Proof.
  intros Hr. assert (forallb (fun r => match check_record r with Ok _ => true | Err _ => false end
    && (0 <=? as_u128 (pr_min r)) && (as_u128 (pr_max r) <? U128) && (0 <=? pr_cooldown_epochs r)
    && (pr_last_changed_epoch r =? 0)
    && match pr_max_delta r with Some (DAbsolute b) => 0 <=? as_u128 b | _ => true end) genesis_params = true) as Hall by by vm_compute.
  pose proof (proj1 (forallb_elem _ _) Hall r Hr) as H. cbv beta in H. to_prop.
  destruct (check_record r) as [[]|] eqn:Ec; [|done]. constructor; try done; try lia.
  unfold delta_unsigned. destruct (pr_max_delta r) as [[]|]; try done. lia.
Qed.

Lemma check_pair_Ok params d g :
  (d, g) ∈ v_min_pairs ->
  check_pair params d = Ok tt <-> exists rd rg,
    find_key pr_key (key16 d) params = Some rd /\ find_key pr_key (key16 g) params = Some rg
    /\ exists x y, pr_value rd = PvBalance x /\ pr_value rg = PvBalance y /\ gate_v_min_coupled x y = true.
Proof.
  intros (F1 & _)%v_min_pair_facts. unfold check_pair. split.
  - intros H. inv_all. match goal with H : find_key _ (key16 d) _ = Some ?x |- _ => pose proof H as [Hk _]%find_key_Some end.
    rewrite Hk in *. simplify_eq. match goal with H : coupled _ _ _ = _ |- _ => apply coupled_Ok in H end. eauto 10.
  - intros (rd & rg & Hd & Hg & Hc). rewrite Hd. cbn [ok_or rbind]. apply find_key_Some in Hd as [Hk _].
    rewrite Hk, F1. cbn [ok_or rbind]. rewrite Hg. cbn [ok_or rbind]. by apply coupled_Ok.
Qed.

Lemma genesis_pairs : pairs_coupled genesis_params.
Proof.
  intros d g Hdg. apply (check_pair_Ok _ _ _ Hdg).
  assert (forallb (fun p => is_ok (check_pair genesis_params p.1)) v_min_pairs = true) as Hall by by vm_compute.
  pose proof (proj1 (forallb_elem _ _) Hall _ Hdg) as H. cbn [fst] in H. by destruct (check_pair genesis_params d) as [[]|].
Qed.

Lemma start_is_ok meters flags channel : start_ok meters flags channel -> constitution_ok (constitution_start meters flags channel).
Proof.
  intros (Hl & Hm & Hf & Hfb & Hc & Hcn). constructor; cbn -[genesis_params genesis_capabilities]; try done.
  - generalize genesis_params as l. induction l; constructor; auto using descends_refl.
  - apply genesis_records.
  - apply genesis_pairs.
  - apply (bool_decide_eq_true (NoDup (keys cr_key genesis_capabilities))). by vm_compute.
  - apply Nat.leb_le. by vm_compute.
Qed.

Lemma constitution_reachable_ok s : constitution_reachable s -> constitution_ok s.
Proof.
  intros (ms & fl & ch & Hst & Hr). apply start_is_ok in Hst. revert Hst Hr. generalize (constitution_start ms fl ch).
  intros s0 H0 Hr. induction Hr as [|s0 s1 s2 (c & Hc) _ IH]; [done|]. apply IH. by eapply constitution_step_ok.
Qed.
