(* ===== verification/ConstitutionPallet.v ===== *)
(** * The constitution pallet (pallets/constitution)

    The FRAME shell over the core: the parameter map with its counter, the
    bounded vectors, the calls with their origins and events, the internal
    writers of the sibling pallets, genesis and the state check. The runtime
    configuration is an interface; what the calls read of the rest of the chain
    (the epoch, the block, which classes may be armed) comes with each call. *)

From Stdlib Require Import Ascii.
From stdpp Require Import strings gmap.
From S2P Require Import Prelude Keyed Primitives Proposals Constitution.

(** ** Storage, events, errors *)

Inductive ConstitutionEvent : Type :=
| EvParamUpdated (key : ParamKey) (value : ParamValue)
| EvCapabilitySet (class : ProposalClass) (capability : Capability) (enabled : bool)
| EvPhaseFlagSet (flag : Z) (enabled : bool) (bits : Z)
| EvReleaseChannelSet (spec_version updated_at : Z)
| EvRegistryAmended (key : ParamKey)
| EvMeterCharged (index : nat) (amount spent : Z).

(** The counter of [Params] is the size of the map. *)
Record PalletStorage : Type := {
  ps_version : Z;
  ps_params : gmap (list Z) ParamRecord;
  ps_phase_flags : Z;
  ps_release_channel : ReleaseChannel;
  ps_meters : list Meter;
  ps_capabilities : list CapabilityRecord;
  ps_events : list ConstitutionEvent;
}.

Definition put_params x s := {| s with ps_params := x |}.
Definition put_phase_flags x s := {| s with ps_phase_flags := x |}.
Definition put_channel x s := {| s with ps_release_channel := x |}.
Definition put_meters x s := {| s with ps_meters := x |}.
Definition put_capabilities x s := {| s with ps_capabilities := x |}.
Definition put_events x s := {| s with ps_events := x |}.

Inductive PalletError : Type :=
| PeUnknownParam
| PeUnknownMeter
| PeWrongType
| PeBelowMin
| PeAboveMax
| PeDeltaTooLarge
| PeCooldownActive
| PeMeterOverflow
| PeMeterExhausted
| PeReservedPhaseFlag
| PeFlagNotArmable
| PeBadReleaseSchema
| PeTooManyParams
| PeTooManyMeters
| PeTooManyCapabilities
| PeKernelBoundImmutable
| PeMetaBoundViolation
| PeTryStateViolation
| PeNavFloorUnmet
| PeBudgetDerivationRequired.

Inductive DispatchError : Type :=
| DeBadOrigin
| DeModule (e : PalletError).

Definition map_core_error (e : ConstitutionError) : DispatchError :=
  match e with
  | CeUnknownParam => DeModule PeUnknownParam
  | CeUnknownMeter => DeModule PeUnknownMeter
  | CeWrongType => DeModule PeWrongType
  | CeBelowMin => DeModule PeBelowMin
  | CeAboveMax => DeModule PeAboveMax
  | CeDeltaTooLarge => DeModule PeDeltaTooLarge
  | CeCooldownActive => DeModule PeCooldownActive
  | CeMeterOverflow => DeModule PeMeterOverflow
  | CeMeterExhausted => DeModule PeMeterExhausted
  | CeReservedPhaseFlag => DeModule PeReservedPhaseFlag
  | CeFlagNotArmable => DeModule PeFlagNotArmable
  | CeKernelBoundImmutable => DeModule PeKernelBoundImmutable
  | CeBudgetDerivationRequired => DeModule PeBudgetDerivationRequired
  | CeMetaBoundViolation => DeModule PeMetaBoundViolation
  | CeBadReleaseSchema => DeModule PeBadReleaseSchema
  | CeTooManyParams => DeModule PeTooManyParams
  | CeTooManyMeters => DeModule PeTooManyMeters
  | CeTooManyCapabilities => DeModule PeTooManyCapabilities
  | CeBadOrigin => DeBadOrigin
  | CeTryStateViolation => DeModule PeTryStateViolation
  end.

Abbreviation PM A := (ST PalletStorage DispatchError A).

Definition deposit_event (e : ConstitutionEvent) (s : PalletStorage) : PalletStorage := put_events (ps_events s ++ [e]) s.

(** ** Configuration *)

Class ConstitutionConfig := {
  RuntimeOrigin : Type;
  (** [EnsureOrigin]: [None] is the rejected origin. *)
  GovernanceOrigin : RuntimeOrigin -> option ConstitutionOrigin;
  (** [BudgetDerivationGuard::permits]. *)
  permits : ParamKey -> ParamValue -> ParamValue -> bool;
}.

(** What a call reads of the chain: [CurrentEpoch], the block number, and
    whether [PhaseArmingGate::ensure_armable] admits a class. *)
Record Env : Type := {
  en_epoch : Z;
  en_block : BlockNumber;
  en_armable : ProposalClass -> bool;
}.

(** The guard of the runtime (runtime/bleavit-runtime/src/configs.rs). *)
Definition runtime_permits (key : ParamKey) (current next : ParamValue) : bool :=
  negb (rederive_budgets_required key current next).

Section pallet.
Context `{!ConstitutionConfig}.

Definition ensure_origin (o : RuntimeOrigin) : Result DispatchError ConstitutionOrigin :=
  ok_or DeBadOrigin (GovernanceOrigin o).

(** [.map_err(Self::map_core_error)] *)
Definition core {A} (r : Result ConstitutionError A) : Result DispatchError A := map_err map_core_error r.

Definition pallet_set_param (origin : RuntimeOrigin) (key : ParamKey) (value : ParamValue) (env : Env) : PM unit :=
  let! authority := lift (ensure_origin origin) in
  let! s := get in
  let! record := lift (ok_or (DeModule PeUnknownParam) (ps_params s !! key)) in
  do! lift (core (authorize_param_update authority record value)) in
  let! updated := lift (core (checked_update value (en_epoch env) (en_block env) record)) in
  do! lift (match gate_v_min_pair key with
            | Some pair_key =>
                let? paired := ok_or (DeModule PeTryStateViolation) (ps_params s !! pair_key) in
                let (decision, gate) := if starts_with (bytes_of "dec.") key then (pr_value updated, pr_value paired)
                                        else (pr_value paired, pr_value updated) in
                match decision, gate with
                | PvBalance decision, PvBalance gate => ensure (gate_v_min_coupled decision gate) (DeModule PeTryStateViolation)
                | _, _ => Err (DeModule PeWrongType)
                end
            | None => Ok tt
            end) in
  do! lift (ensure (permits key (pr_value record) value) (DeModule PeBudgetDerivationRequired)) in
  do! modify (put_params (<[key := updated]> (ps_params s))) in
  modify (deposit_event (EvParamUpdated key value)).

Definition pallet_set_capability (origin : RuntimeOrigin) (record : CapabilityRecord) : PM unit :=
  let! authority := lift (ensure_origin origin) in
  do! lift (ensure (can_set_capability authority) DeBadOrigin) in
  let! s := get in
  do! match find_key cr_key (cr_key record) (ps_capabilities s) with
      | Some _ => modify (put_capabilities (alter_key cr_key (cr_key record) (fun _ => record) (ps_capabilities s)))
      | None =>
          do! lift (ensure (length (ps_capabilities s) <? MAX_CAPABILITIES)%nat (DeModule PeTooManyCapabilities)) in
          modify (put_capabilities (ps_capabilities s ++ [record]))
      end in
  modify (deposit_event (EvCapabilitySet (cr_class record) (cr_capability record) (cr_enabled record))).

Definition write_phase_flag (flag : Z) (enabled : bool) : PM unit :=
  let! s := get in
  let! flags := lift (core (flags_from_bits (ps_phase_flags s))) in
  let! flags := lift (core (flags_set flag enabled flags)) in
  do! modify (put_phase_flags flags) in
  modify (deposit_event (EvPhaseFlagSet flag enabled flags)).

Definition armed_bit_classes : list (Z * ProposalClass) :=
  [(PARAM_ARMED, Param); (TREASURY_ARMED, Treasury); (CODE_META_ARMED, Code); (CODE_META_ARMED, Meta)].

Definition pallet_set_phase_flag (origin : RuntimeOrigin) (flag : Z) (enabled : bool) (env : Env) : PM unit :=
  let! authority := lift (ensure_origin origin) in
  do! lift (ensure (can_set_phase_flag authority) DeBadOrigin) in
  do! lift (ensure (Z.ldiff flag SUDO_ARMABLE_MASK =? 0) (DeModule PeFlagNotArmable)) in
  do! lift (if enabled then
              for_each (fun bc : Z * ProposalClass =>
                if negb (Z.land flag bc.1 =? 0) then ensure (en_armable env bc.2) (DeModule PeNavFloorUnmet) else Ok tt)
                armed_bit_classes
            else Ok tt) in
  write_phase_flag flag enabled.

Definition write_release_channel (bytes : list Z) : PM unit :=
  let! channel := lift (core (channel_new bytes)) in
  do! modify (put_channel channel) in
  modify (deposit_event (EvReleaseChannelSet (channel_spec_version channel) (channel_updated_at channel))).

Definition pallet_set_release_channel (origin : RuntimeOrigin) (bytes : list Z) (env : Env) : PM unit :=
  let! authority := lift (ensure_origin origin) in
  do! lift (ensure (can_set_release_channel authority) DeBadOrigin) in
  let! s := get in
  let! channel := lift (core (merge_writer_b bytes (en_block env) (ps_release_channel s))) in
  write_release_channel channel.

Definition pallet_amend_registry (origin : RuntimeOrigin) (key : ParamKey) (min max : ParamValue)
    (max_delta : option MaxDelta) (cooldown_epochs : Z) : PM unit :=
  let! authority := lift (ensure_origin origin) in
  let! s := get in
  let! record := lift (ok_or (DeModule PeUnknownParam) (ps_params s !! key)) in
  do! lift (ensure (can_amend_registry authority (pr_class record)) DeBadOrigin) in
  let! amended := lift (core (checked_amend min max max_delta cooldown_epochs record)) in
  do! modify (put_params (<[key := amended]> (ps_params s))) in
  modify (deposit_event (EvRegistryAmended key)).

(** ** Internal writers *)

Definition note_release_channel (bytes : list Z) : PM unit := write_release_channel bytes.
Definition note_ledger_frozen (frozen : bool) : PM unit := write_phase_flag LEDGER_FROZEN frozen.
Definition note_dead_man_engaged (engaged : bool) : PM unit := write_phase_flag DEAD_MAN_ENGAGED engaged.
Definition note_reserve_health (unhealthy : bool) : PM unit := write_phase_flag RESERVE_HEALTH_FLAG unhealthy.

Definition charge_meter_internal (index : nat) (amount : Z) (env : Env) : PM unit :=
  let! s := get in
  let! meter := lift (ok_or (DeModule PeUnknownMeter) (ps_meters s !! index)) in
  let! charged := lift (core (charge amount (en_epoch env) meter)) in
  do! modify (put_meters (<[index := charged]> (ps_meters s))) in
  modify (deposit_event (EvMeterCharged index amount (mt_spent charged))).

Definition pallet_phase_flags (s : PalletStorage) : Z := ps_phase_flags s.
Definition pallet_param (key : ParamKey) (s : PalletStorage) : option ParamRecord := ps_params s !! key.
Definition pallet_capability_enabled (class : ProposalClass) (capability : Capability) (s : PalletStorage) : bool :=
  existsb (fun c => bool_decide (cr_class c = class) && bool_decide (cr_capability c = capability) && cr_enabled c)
    (ps_capabilities s).

End pallet.

(** ** The state check *)

Definition STORAGE_VERSION : Z := 2.

Inductive TryStateFailure : Type :=
| TsVersion
| TsPricingRowsAbsent
| TsControlDefinitionAbsent
| TsControlRowAbsent
| TsControlRowDiffers
| TsReservedBits
| TsKeyDiverges
| TsCore
| TsRawKey.

Definition probe_controls : list String.string :=
  ["res.probe_int"; "res.probe_to"; "res.probe_amount"; "res.fail_thr"; "res.recover_thr"]%string.

Definition check_control (params : gmap (list Z) ParamRecord) (name : String.string) : Result TryStateFailure unit :=
  let key := key16 name in
  let? expected := ok_or TsControlDefinitionAbsent (find_key pr_key key genesis_params) in
  let? actual := ok_or TsControlRowAbsent (params !! key) in
  let differs :=
    negb (bool_decide (pr_key actual = pr_key expected)) || negb (bool_decide (pr_min actual = pr_min expected))
    || negb (bool_decide (pr_max actual = pr_max expected)) || negb (bool_decide (pr_max_delta actual = pr_max_delta expected))
    || negb (pr_cooldown_epochs actual =? pr_cooldown_epochs expected)
    || negb (bool_decide (pr_class actual = pr_class expected))
    || negb (Bool.eqb (pr_kernel_bounded actual) (pr_kernel_bounded expected))
    || negb (same_kind (pr_value actual) (pr_value expected))
    || (as_u128 (pr_value actual) <? as_u128 (pr_min expected))
    || (as_u128 (pr_max expected) <? as_u128 (pr_value actual)) in
  ensure (negb differs) TsControlRowDiffers.

(** The rows of the map, with the check that each is filed under its key. *)
Definition filed_rows (params : gmap (list Z) ParamRecord) : Result TryStateFailure (list ParamRecord) :=
  try_fold (fun acc (kr : list Z * ParamRecord) =>
    do? ensure (bool_decide (kr.1 = pr_key kr.2)) TsKeyDiverges in
    Ok (acc ++ [kr.2])) [] (map_to_list params).

(** [final_key] is the raw storage key of the channel, which FRAME derives from
    the name of the pallet instance. The counter of the map agrees with its
    rows by construction. *)
Definition do_try_state (final_key : list Z) (s : PalletStorage) : Result TryStateFailure unit :=
  do? ensure (ps_version s =? STORAGE_VERSION) TsVersion in
  do? ensure (negb (is_none (ps_params s !! key16 "ops.probe_fee") || is_none (ps_params s !! key16 "ops.probe_rate")))
    TsPricingRowsAbsent in
  do? for_each (check_control (ps_params s)) probe_controls in
  let? phase_flags := map_err (fun _ => TsReservedBits) (flags_from_bits (ps_phase_flags s)) in
  let? params := filed_rows (ps_params s) in
  let state := {| cs_params := params; cs_meters := ps_meters s; cs_capabilities := ps_capabilities s;
                  cs_phase_flags := phase_flags; cs_release_channel := ps_release_channel s |} in
  do? map_err (fun _ => TsCore) (constitution_try_state state) in
  ensure (bool_decide (final_key = RELEASE_CHANNEL_STORAGE_KEY)) TsRawKey.

(** ** Genesis *)

Definition insert_all (records : list ParamRecord) : gmap (list Z) ParamRecord :=
  fold_left (fun m r => <[pr_key r := r]> m) records ∅.

(** [None] is a panic of the genesis build. *)
Definition genesis_build (final_key : list Z) (phase_flags : Z) (release_channel : list Z) : option PalletStorage :=
  let params := insert_all genesis_params in
  if negb (size params <=? MAX_PARAMS)%nat then None
  else
    let meters := take MAX_METERS genesis_meters in
    if negb (length meters =? length genesis_meters)%nat then None
    else
      let capabilities := take MAX_CAPABILITIES genesis_capabilities in
      if negb (length capabilities =? length genesis_capabilities)%nat then None
      else
        match flags_from_bits phase_flags with
        | Err _ => None
        | Ok flags =>
            match (if bool_decide (release_channel = []) then Some empty_release_channel
                   else if negb (length release_channel =? RELEASE_CHANNEL_LEN)%nat then None
                   else match channel_new release_channel with Ok c => Some c | Err _ => None end) with
            | None => None
            | Some channel =>
                let s := {| ps_version := STORAGE_VERSION; ps_params := params; ps_phase_flags := flags;
                            ps_release_channel := channel; ps_meters := meters; ps_capabilities := capabilities;
                            ps_events := [] |} in
                if is_ok (do_try_state final_key s) then Some s else None
            end
        end.

Example genesis_builds : is_none (genesis_build RELEASE_CHANNEL_STORAGE_KEY 0 []) = false.
Proof. by vm_compute. Qed.
