(* ===== verification/ConstitutionTheorems.v ===== *)
(** * What the constitution promises

    Rows keep their kind and their kernel bounds, the published interval is
    what an update admits, values move only on the authority of their class
    and only so fast, the release channel keeps its owners apart, and the
    pallet refines the core. *)

From Stdlib Require Import Ascii.
From stdpp Require Import strings gmap.
From S2P Require Import Prelude Keyed Primitives Proposals Constitution ConstitutionInv ConstitutionPallet.

(** ** The rate limit as an interval *)

Definition delta_range (r : ParamRecord) : Result ConstitutionError (Z * Z) :=
  let value := as_u128 (pr_value r) in
  match pr_max_delta r with
  | None => Ok (as_u128 (pr_min r), as_u128 (pr_max r))
  | Some (DAbsolute bound) =>
      do? ensure (same_kind bound (pr_value r)) CeWrongType in
      Ok (sat_sub value (as_u128 bound), sat_add U128 value (as_u128 bound))
  | Some (DPercent _) =>
      let? allowance := max_delta_allowance r in
      Ok (sat_sub value allowance, sat_add U128 value allowance)
  | Some (DFactor factor) =>
      do? ensure (1 <=? factor) CeMetaBoundViolation in
      Ok (sat_add U128 (value / factor) (b2z (negb (value mod factor =? 0))), sat_mul U128 value factor)
  end.

Definition delta_check (next : ParamValue) (r : ParamRecord) : Result ConstitutionError unit :=
  match pr_max_delta r with
  | None => Ok tt
  | Some (DAbsolute bound) =>
      do? ensure (same_kind bound next) CeWrongType in
      ensure (abs_diff (as_u128 (pr_value r)) (as_u128 next) <=? as_u128 bound) CeDeltaTooLarge
  | Some (DPercent _) =>
      let? allowed := max_delta_allowance r in
      ensure (abs_diff (as_u128 (pr_value r)) (as_u128 next) <=? allowed) CeDeltaTooLarge
  | Some (DFactor factor) =>
      ensure ((as_u128 next <=? sat_mul U128 (as_u128 (pr_value r)) factor)
              && (as_u128 (pr_value r) <=? sat_mul U128 (as_u128 next) factor)) CeDeltaTooLarge
  end.

(** Rounding up. *)
Lemma ceil_le v f n : 0 < f -> v / f + b2z (negb (v mod f =? 0)) <= n <-> v <= n * f.
Proof.
  intros Hf. pose proof (Z.div_mod v f ltac:(lia)) as E. pose proof (Z.mod_pos_bound v f Hf).
  destruct (v mod f =? 0) eqn:E0; cbn; to_prop; split; intros; nia.
Qed.

Lemma delta_range_spec r :
  record_ok r -> exists lo hi, delta_range r = Ok (lo, hi) /\ lo <= as_u128 (pr_value r) <= hi
  /\ forall next, pv_ok next -> same_kind (pr_value r) next = true -> as_u128 (pr_min r) <= as_u128 next <= as_u128 (pr_max r) ->
     delta_check next r = Ok tt <-> lo <= as_u128 next <= hi.
Proof.
  intros [(K1 & K2 & Hb & Hd)%check_record_Ok Hmin Hmax Hu _ _]. unfold delta_range, delta_check, delta_ok in *.
  set (v := as_u128 (pr_value r)) in *.
  destruct (pr_max_delta r) as [[b|p|f]|] eqn:Em.
  - rewrite same_kind_sym, Hd. cbn [ensure rbind]. do 2 eexists. split; [done|]. unfold sat_sub, sat_add.
    cbn in Hu. split; [lia|]. intros next Hn Hk Hr. unfold pv_ok in Hn.
    rewrite (same_kind_trans b (pr_value r) next) by (done || by rewrite same_kind_sym). cbn [ensure rbind].
    rewrite ensure_Ok, Z.leb_le. unfold abs_diff. fold v. lia.
  - unfold max_delta_allowance. rewrite Em. cbn [rbind]. fold v. do 2 eexists. split; [done|].
    assert (0 <= mul_or_max v p / 100) as Ha.
    { apply Z.div_pos; [|lia]. assert (0 <= v * p) by nia. unfold mul_or_max, checked_mul. destruct (_ <? _); lia. }
    unfold sat_sub, sat_add. split; [lia|]. intros next Hn _ Hr. rewrite ensure_Ok, Z.leb_le. unfold pv_ok, abs_diff in *. fold v. lia.
  - rewrite (proj2 (Z.leb_le _ _)) by lia. cbn [ensure rbind]. do 2 eexists. split; [done|].
    assert (v <= v * f) by nia. assert (v / f + b2z (negb (v mod f =? 0)) <= v) by (apply ceil_le; lia).
    split; [unfold sat_add, sat_mul; lia|].
    intros next Hn _ Hr. rewrite ensure_Ok. unfold pv_ok in Hn. rewrite andb_true_iff, !Z.leb_le.
    pose proof (ceil_le v f (as_u128 next) ltac:(lia)).
    unfold sat_add, sat_mul. lia.
  - do 2 eexists. split; [done|]. split; [done|]. intros next _ _ Hr. split; [lia|done].
Qed.

Lemma sub_interval r lo hi :
  record_ok r -> delta_range r = Ok (lo, hi) -> lo <= as_u128 (pr_value r) <= hi ->
  admissible_next_interval r = Ok (Z.max (as_u128 (pr_min r)) lo, Z.min (as_u128 (pr_max r)) hi).
Proof.
  intros [(K1 & K2 & Hb & Hd)%check_record_Ok _ _ _ _ _] Hr Hv. unfold admissible_next_interval.
  rewrite K1, K2. cbn [andb ensure rbind]. rewrite (proj2 (Z.leb_le _ _)) by lia. cbn [ensure rbind].
  change (rbind (delta_range r) (fun '(delta_min, delta_max) =>
    do? ensure (Z.max (as_u128 (pr_min r)) delta_min <=? Z.min (as_u128 (pr_max r)) delta_max) CeMetaBoundViolation in
    Ok (Z.max (as_u128 (pr_min r)) delta_min, Z.min (as_u128 (pr_max r)) delta_max))
    = Ok (Z.max (as_u128 (pr_min r)) lo, Z.min (as_u128 (pr_max r)) hi)).
  rewrite Hr. cbn [rbind]. by rewrite (proj2 (Z.leb_le _ _)) by lia.
Qed.

Lemma update_steps next epoch block r :
  checked_update next epoch block r =
  (do? ensure (same_kind (pr_value r) next) CeWrongType in
   do? ensure (same_kind (pr_min r) next && same_kind (pr_max r) next) CeWrongType in
   do? ensure (as_u128 (pr_min r) <=? as_u128 next) CeBelowMin in
   do? ensure (as_u128 next <=? as_u128 (pr_max r)) CeAboveMax in
   do? ensure (sat_add U32 (pr_last_changed_epoch r) (pr_cooldown_epochs r) <=? epoch) CeCooldownActive in
   do? delta_check next r in
   Ok (with_value next epoch block r)).
Proof. done. Qed.

Lemma update_iff next epoch block r lo hi :
  record_ok r -> delta_range r = Ok (lo, hi) ->
  (same_kind (pr_value r) next = true -> as_u128 (pr_min r) <= as_u128 next <= as_u128 (pr_max r) ->
   delta_check next r = Ok tt <-> lo <= as_u128 next <= hi) ->
  checked_update next epoch block r = Ok (with_value next epoch block r)
  <-> same_kind (pr_value r) next = true
      /\ Z.max (as_u128 (pr_min r)) lo <= as_u128 next <= Z.min (as_u128 (pr_max r)) hi
      /\ sat_add U32 (pr_last_changed_epoch r) (pr_cooldown_epochs r) <= epoch.
Proof.
  intros [(K1 & K2 & Hb & Hd)%check_record_Ok _ _ _ _ _] Hr Hdc. rewrite update_steps. split.
  - intros H. inv_all. to_prop. repeat match goal with u : unit |- _ => destruct u end.
    match goal with H : delta_check _ _ = _ |- _ => apply Hdc in H; [|done..] end. split_and!; (done || lia).
  - intros (Hk & Hn & Hc). rewrite Hk. cbn [ensure rbind].
    rewrite !(same_kind_trans _ (pr_value r) next) by (done || by rewrite same_kind_sym). cbn [andb ensure rbind].
    rewrite !(proj2 (Z.leb_le _ _)) by lia. cbn [ensure rbind]. rewrite (proj2 (Hdc Hk ltac:(lia))) by lia. done.
Qed.

Lemma allowance_spec r lo hi :
  record_ok r -> delta_range r = Ok (lo, hi) -> lo <= as_u128 (pr_value r) <= hi ->
  exists a, max_delta_allowance r = Ok a /\ 0 <= a
  /\ forall n, 0 <= n < U128 -> Z.abs (n - as_u128 (pr_value r)) <= a -> as_u128 (pr_min r) <= n <= as_u128 (pr_max r) -> lo <= n <= hi.
Proof.
  intros [(K1 & K2 & Hb & Hd)%check_record_Ok Hmin Hmax Hu _ _] Hr Hv. unfold delta_range, delta_ok, delta_unsigned in *.
  set (v := as_u128 (pr_value r)) in *. unfold sat_sub, sat_add in Hr.
  destruct (pr_max_delta r) as [[b|p|f]|] eqn:Em; inv_all; simplify_eq.
  - unfold max_delta_allowance. rewrite Em, same_kind_sym, Hd. cbn [ensure rbind]. eexists. split_and!; [done|lia|]. lia.
  - match goal with H : max_delta_allowance r = Ok ?a |- _ => exists a; split; [done|]; rename a into a0; pose proof H as Ha end.
    unfold max_delta_allowance in Ha. rewrite Em in Ha. cbv zeta in Ha. fold v in Ha.
    assert (0 <= v * p) by nia. assert (0 <= mul_or_max v p / 100).
    { apply Z.div_pos; [|lia]. unfold mul_or_max, checked_mul. destruct (_ <? _); lia. }
    simplify_eq. split; [lia|]. lia.
  - unfold max_delta_allowance. rewrite Em, (proj2 (Z.leb_le _ _)) by lia. cbn [ensure rbind]. fold v.
    assert (v <= v * f) by nia. assert (v / f + b2z (negb (v mod f =? 0)) <= v) by (apply ceil_le; lia).
    assert (v <= mul_or_max v f) by (unfold mul_or_max, checked_mul; destruct (_ <? _); lia).
    unfold checked_sub at 1. rewrite (proj2 (Z.leb_le _ _)) by done. cbn [default].
    unfold checked_add. rewrite (proj2 (Z.ltb_lt _ _)) by lia. cbn [default].
    unfold checked_sub. rewrite (proj2 (Z.leb_le _ _)) by done. cbn [default].
    unfold id. eexists. split_and!; [done|lia|]. intros n Hn Ha Hr'.
    assert (mul_or_max v f <= sat_mul U128 v f) by (unfold mul_or_max, checked_mul, sat_mul; destruct (_ <? _) eqn:E; to_prop; lia). lia.
  - unfold max_delta_allowance. rewrite Em. exists 0. split_and!; [done|lia|]. lia.
Qed.

(** ** What a call does to one row *)

Lemma row_written key k F r r0 s :
  (forall w, pr_key (F w) = pr_key w) -> find_key pr_key k (cs_params s) = Some r -> find_key pr_key key (cs_params s) = Some r0 ->
  find_key pr_key key (cs_params (write_param k (F r) s)) = Some (if decide (k = key) then F r0 else r0).
Proof.
  intros HF Hr Hr0. rewrite (write_param_eq k F r) by done. cbn. case_decide as E.
  - subst. by rewrite (find_key_alter_eq pr_key key F (cs_params s) r0).
  - by rewrite find_key_alter_ne.
Qed.

Inductive row_change (c : ConstitutionCall) (key : ParamKey) (r : ParamRecord) : ParamRecord -> Prop :=
| row_kept : row_change c key r r
| row_updated o next epoch block :
    c = KSetParam o key next epoch block -> authorize_param_update o r next = Ok tt ->
    rederive_budgets_required key (pr_value r) next = false ->
    checked_update next epoch block r = Ok (with_value next epoch block r) -> row_change c key r (with_value next epoch block r)
| row_updated_internally next epoch block :
    c = KSetParamInternal key next epoch block ->
    checked_update next epoch block r = Ok (with_value next epoch block r) -> row_change c key r (with_value next epoch block r)
| row_amended mn mx d cd :
    c = KAmend CoFutarchyMeta key mn mx d cd -> pr_kernel_bounded r = false -> row_change c key r (with_metadata mn mx d cd r).

Lemma row_step c s s' key r :
  constitution_step c s s' -> find_key pr_key key (cs_params s) = Some r ->
  exists r', find_key pr_key key (cs_params s') = Some r' /\ row_change c key r r'.
Proof.
  intros [_ H] Hr. destruct c; cbn [constitution_exec] in H.
  - unfold dispatch_set_param in H. inv_all. to_prop. repeat match goal with u : unit |- _ => destruct u end.
    match goal with H : checked_set_param _ _ _ _ _ = _ |- _ => pose proof H as (r1 & Hr1 & Hu & _)%checked_set_param_Ok end.
    pose proof (checked_update_Ok _ _ _ _ _ Hu) as (-> & _). simplify_eq.
    erewrite row_written by done. eexists. split; [done|]. case_decide as E; [|constructor]. simplify_eq. by eapply row_updated.
  - unfold set_param in H. inv_all.
    match goal with H : checked_set_param _ _ _ _ _ = _ |- _ => pose proof H as (r1 & Hr1 & Hu & _)%checked_set_param_Ok end.
    pose proof (checked_update_Ok _ _ _ _ _ Hu) as (-> & _).
    erewrite row_written by done. eexists. split; [done|]. case_decide as E; [|constructor]. simplify_eq.
    by eapply row_updated_internally.
  - unfold dispatch_amend_registry in H. inv_all.
    match goal with H : checked_amend _ _ _ _ _ = _ |- _ => apply checked_amend_Ok in H as (-> & Hk & _) end.
    erewrite row_written by done. eexists. split; [done|]. case_decide as E; [|constructor]. simplify_eq.
    match goal with H : can_amend_registry ?o _ = true |- _ => destruct o; try discriminate H end. by eapply row_amended.
  - exists r. split; [|constructor]. unfold dispatch_set_capability, set_capability in H. inv_all. case_match; inv_all; done.
  - exists r. split; [|constructor]. unfold set_capability in H. inv_all. case_match; inv_all; done.
  - exists r. split; [|constructor]. unfold dispatch_set_phase_flag in H. by inv_all.
  - exists r. split; [|constructor]. unfold write_flag in H. by inv_all.
  - exists r. split; [|constructor]. unfold dispatch_set_release_channel in H. by inv_all.
  - exists r. split; [|constructor]. unfold write_channel in H. by inv_all.
  - exists r. split; [|constructor]. unfold dispatch_charge_meter in H. by inv_all.
Qed.

(** ** The bytes of the release channel *)

Lemma byte_at_copy range src b i :
  length src = (range.2 - range.1)%nat -> (range.1 <= range.2 <= length b)%nat ->
  byte_at (copy_at range src b) i =
  if decide (range.1 <= i < range.2)%nat then byte_at src (i - range.1) else byte_at b i.
Proof.
  intros Hs Hr. unfold byte_at, copy_at. rewrite !nth_lookup. case_decide as Hi.
  - rewrite lookup_app_r by (rewrite length_take; lia). rewrite length_take, lookup_app_l by lia. do 2 f_equal. lia.
  - destruct (decide (i < range.1)%nat).
    + by rewrite lookup_app_l, lookup_take_lt by (rewrite ?length_take; lia).
    + rewrite lookup_app_r by (rewrite length_take; lia). rewrite lookup_app_r by (rewrite length_take; lia).
      rewrite length_take, lookup_drop. do 2 f_equal. lia.
Qed.

Lemma byte_at_slice range b i : (i < range.2 - range.1)%nat -> byte_at (slice range b) i = byte_at b (range.1 + i).
Proof. intros Hi. unfold byte_at, slice. by rewrite !nth_lookup, lookup_take_lt, lookup_drop by lia. Qed.

(** Little-endian words survive the round trip. *)
Lemma le_word x : 0 <= x < U32 ->
  x mod 256 + 256 * (x / 256 mod 256) + 65536 * (x / 65536 mod 256) + 16777216 * (x / 16777216 mod 256) = x.
Proof.
  intros Hx. replace (x / 65536) with (x / 256 / 256) by (by rewrite Z.div_div by lia).
  replace (x / 16777216) with (x / 256 / 256 / 256) by (by rewrite !Z.div_div by lia).
  pose proof (Z.div_mod x 256 ltac:(lia)). pose proof (Z.div_mod (x / 256) 256 ltac:(lia)).
  pose proof (Z.div_mod (x / 256 / 256) 256 ltac:(lia)).
  assert (0 <= x / 256 / 256 / 256 < 256); [|rewrite (Z.mod_small (x / 256 / 256 / 256)) by done; lia].
  rewrite !Z.div_div by lia. change (256 * 256 * 256) with 16777216. split; [apply Z.div_pos; lia|apply Z.div_lt_upper_bound; lia].
Qed.

Lemma le_u32_at_bytes c off x :
  0 <= x < U32 -> (forall i, (i < 4)%nat -> byte_at c (off + i) = byte_at (to_le_bytes x) i) -> le_u32_at c off = x.
Proof.
  intros Hx Hb. unfold le_u32_at. rewrite <- (Nat.add_0_r off) at 1.
  rewrite !Hb by lia. cbn -[Z.div Z.modulo Z.mul]. by apply le_word.
Qed.

Lemma le_u32_at_ext c c' off : (forall i, (i < 4)%nat -> byte_at c (off + i) = byte_at c' (off + i)) -> le_u32_at c off = le_u32_at c' off.
Proof. intros Hb. unfold le_u32_at. pose proof (Hb 0%nat ltac:(lia)) as H0. rewrite Nat.add_0_r in H0. by rewrite H0, !Hb by lia. Qed.

Lemma le_u32_at_range c off : (forall i, 0 <= byte_at c i < 256) -> 0 <= le_u32_at c off < U32.
Proof.
  intros Hb. unfold le_u32_at. pose proof (Hb off). pose proof (Hb (off + 1)%nat). pose proof (Hb (off + 2)%nat).
  pose proof (Hb (off + 3)%nat). lia.
Qed.

Lemma byte_at_range c i : channel_bytes c -> 0 <= byte_at c i < 256.
Proof.
  intros [_ Hb]. unfold byte_at. rewrite nth_lookup. destruct (c !! i) eqn:E; cbn; [|lia]. apply Hb. by eapply list_elem_of_lookup_2.
Qed.

Definition merged_flags (caller stored : Z) : Z :=
  Z.lor (Z.ldiff caller RELEASE_CHANNEL_FLAG_URGENT_UPGRADE) (Z.land stored RELEASE_CHANNEL_FLAG_URGENT_UPGRADE).

Lemma merged_flags_range caller stored : 0 <= caller < U32 -> 0 <= stored < U32 -> 0 <= merged_flags caller stored < U32.
Proof.
  intros Hc Hs. unfold merged_flags.
  assert (forall a, 0 <= a < U32 <-> 0 <= a /\ Z.shiftr a 32 = 0) as Hsh.
  { intros a. rewrite Z.shiftr_div_pow2 by lia. change (2 ^ 32) with U32. split; [intros; split; [lia|apply Z.div_small; lia]|].
    intros [H0 E]. pose proof (Z.div_mod a U32 ltac:(lia)). pose proof (Z.mod_pos_bound a U32). lia. }
  apply Hsh. apply Hsh in Hc as [Hc0 Hc], Hs as [Hs0 Hs]. split.
  - apply Z.lor_nonneg. split; [apply Z.ldiff_nonneg; lia|apply Z.land_nonneg; lia].
  - rewrite Z.shiftr_lor, Z.shiftr_ldiff, Z.shiftr_land, Hc, Hs by lia. done.
Qed.

(** The merged channel, byte by byte. *)
Lemma merge_bytes b at_ c c' :
  channel_bytes b -> channel_bytes c -> merge_writer_b b at_ c = Ok c' ->
  forall i, byte_at c' i =
    if decide (164 <= i < 168)%nat then byte_at (to_le_bytes (merged_flags (channel_flags b) (channel_flags c))) (i - 164)
    else if decide (112 <= i < 120)%nat then byte_at c i
    else if decide (108 <= i < 112)%nat then byte_at (to_le_bytes at_) (i - 108)
    else byte_at b i.
Proof.
  intros Hb Hc H i. unfold merge_writer_b in H. inv_all.
  repeat match goal with H : channel_new _ = Ok _ |- _ => apply channel_new_Ok in H as [-> _] end.
  assert (length b = 168%nat) as Lb by apply Hb. assert (length c = 168%nat) as Lc by apply Hc.
  assert (forall range src l, length src = (range.2 - range.1)%nat -> (range.1 <= range.2 <= length l)%nat ->
    length (copy_at range src l) = length (l : list Z)) as Hlen.
  { intros range src l Hs Hr. unfold copy_at. rewrite !length_app, length_take, length_drop, Hs. lia. }
  set (guard := (RELEASE_CHANNEL_SPEC_VERSION.1, RELEASE_CHANNEL_PENDING_AUTHORIZED_AT.2)).
  assert (length (slice guard c) = 8%nat) as Lg by (unfold slice; rewrite length_take, length_drop, Lc; done).
  assert (length (copy_at RELEASE_CHANNEL_UPDATED_AT (to_le_bytes at_) b) = 168%nat) as L1 by (rewrite Hlen by (done || (rewrite Lb; cbn; lia)); done).
  assert (length (copy_at guard (slice guard c) (copy_at RELEASE_CHANNEL_UPDATED_AT (to_le_bytes at_) b)) = 168%nat) as L2
    by (rewrite Hlen by (done || (rewrite L1; cbn; lia)); done).
  rewrite byte_at_copy by (done || (rewrite L2; cbn; lia)). cbn [RELEASE_CHANNEL_FLAGS fst snd]. case_decide; [done|].
  rewrite byte_at_copy by (done || (rewrite L1; cbn; lia)). cbn [guard RELEASE_CHANNEL_SPEC_VERSION RELEASE_CHANNEL_PENDING_AUTHORIZED_AT fst snd].
  case_decide as Hg; [rewrite byte_at_slice by (cbn; lia); cbn [guard fst]; f_equal; cbn; lia|].
  rewrite byte_at_copy by (done || (rewrite Lb; cbn; lia)). cbn [RELEASE_CHANNEL_UPDATED_AT fst snd]. by case_decide.
Qed.

(** ** Runs on the clock of the epochs *)

Definition call_epoch (c : ConstitutionCall) (now : Z) : Z :=
  match c with KSetParam _ _ _ e _ | KSetParamInternal _ _ e _ | KCharge _ _ _ e => e | _ => now end.

Definition value_of (key : ParamKey) (s : ConstitutionState) : option ParamValue := pr_value <$> find_key pr_key key (cs_params s).

(** A run from the epoch [e0], with the number of times the value under [key] changed. *)
Inductive timed_run (key : ParamKey) (e0 : Z) (s0 : ConstitutionState) : nat -> Z -> ConstitutionState -> Prop :=
| timed_here : timed_run key e0 s0 0 e0 s0
| timed_step n e s c s' :
    timed_run key e0 s0 n e s -> constitution_step c s s' -> e <= call_epoch c e ->
    timed_run key e0 s0 (if decide (value_of key s' = value_of key s) then n else S n) (call_epoch c e) s'.

Lemma timed_run_ok key e0 s0 n e s : constitution_ok s0 -> timed_run key e0 s0 n e s -> constitution_ok s /\ e0 <= e.
Proof.
  intros H0 H. induction H as [|n e s c s' _ [IH He] Hc Hle]; [split; [done|lia]|]. split; [by eapply constitution_step_ok|lia].
Qed.

(** One step of a kernel-bounded row: its value moves only after the cooldown,
    within the rate limit, and stamps the epoch. *)
Lemma kernel_row_step c s s' key r now :
  constitution_step c s s' -> find_key pr_key key (cs_params s) = Some r -> pr_kernel_bounded r = true ->
  pr_last_changed_epoch r <= now <= call_epoch c now ->
  exists r', find_key pr_key key (cs_params s') = Some r' /\ pr_kernel_bounded r' = true
  /\ pr_max_delta r' = pr_max_delta r /\ pr_cooldown_epochs r' = pr_cooldown_epochs r
  /\ pr_min r' = pr_min r /\ pr_max r' = pr_max r
  /\ pr_last_changed_epoch r <= pr_last_changed_epoch r' <= call_epoch c now
  /\ (pr_value r' <> pr_value r -> pr_last_changed_epoch r' = call_epoch c now
      /\ sat_add U32 (pr_last_changed_epoch r) (pr_cooldown_epochs r) <= pr_last_changed_epoch r'
      /\ exists next, pr_value r' = next /\ delta_check next r = Ok tt).
Proof.
  intros Hst Hr Hk Hl. destruct (row_step _ _ _ _ _ Hst Hr) as (r' & Hr' & Hch). exists r'. split; [done|].
  destruct Hch as [|o next epoch block -> _ _ Hu|next epoch block -> Hu|mn mx d cd -> Hf]; [|cbn in *..|congruence].
  - split_and!; try done; try lia.
  - rewrite update_steps in Hu. inv_all. to_prop. repeat match goal with u : unit |- _ => destruct u end. split_and!; try done; try lia. eauto.
  - rewrite update_steps in Hu. inv_all. to_prop. repeat match goal with u : unit |- _ => destruct u end. split_and!; try done; try lia. eauto.
Qed.

(** How far [n] changes can move a value under a rate limit: by [n] steps, by
    the [n]-th power of 1 plus or minus the percentage, or by the [n]-th power
    of the factor in either direction. *)
Definition drift (d : MaxDelta) (n : nat) (v v' : Z) : Prop :=
  match d with
  | DAbsolute b => Z.abs (v' - v) <= Z.of_nat n * as_u128 b
  | DPercent p => v * (100 - p) ^ Z.of_nat n <= v' * 100 ^ Z.of_nat n <= v * (100 + p) ^ Z.of_nat n
  | DFactor f => v' <= v * f ^ Z.of_nat n /\ v <= v' * f ^ Z.of_nat n
  end.

Lemma drift_zero d v : drift d 0 v v.
Proof. destruct d; cbn; lia. Qed.

(** One more step multiplies both ends of a percentage drift. *)
Lemma percent_step v v1 v2 p k :
  1 <= p <= 100 -> 0 <= k -> 0 <= v1 ->
  v * (100 - p) ^ k <= v1 * 100 ^ k <= v * (100 + p) ^ k ->
  v1 * (100 - p) <= v2 * 100 <= v1 * (100 + p) ->
  v * (100 - p) ^ (Z.succ k) <= v2 * 100 ^ (Z.succ k) <= v * (100 + p) ^ (Z.succ k).
Proof.
  intros Hp Hk Hv [L U] [l u]. rewrite !Z.pow_succ_r by done.
  pose proof (Z.pow_nonneg 100 k ltac:(lia)) as H100. set (h := 100 ^ k) in *. clearbody h.
  set (lo := (100 - p) ^ k) in *. set (hi := (100 + p) ^ k) in *. clearbody lo hi. split.
  - transitivity (v1 * h * (100 - p)); [replace (v * ((100 - p) * lo)) with (v * lo * (100 - p)) by ring;
      apply Z.mul_le_mono_nonneg_r; lia|].
    replace (v1 * h * (100 - p)) with (v1 * (100 - p) * h) by ring.
    replace (v2 * (100 * h)) with (v2 * 100 * h) by ring. by apply Z.mul_le_mono_nonneg_r.
  - transitivity (v1 * h * (100 + p)); [|replace (v * ((100 + p) * hi)) with (v * hi * (100 + p)) by ring;
      apply Z.mul_le_mono_nonneg_r; lia].
    replace (v1 * h * (100 + p)) with (v1 * (100 + p) * h) by ring.
    replace (v2 * (100 * h)) with (v2 * 100 * h) by ring. by apply Z.mul_le_mono_nonneg_r.
Qed.

Lemma percent_allowance v p : 100 * (mul_or_max v p / 100) <= v * p.
Proof.
  etransitivity; [apply Z.mul_div_le; lia|]. unfold mul_or_max, checked_mul.
  destruct (v * p <? U128) eqn:E; to_prop; lia.
Qed.

Lemma drift_step r d v0 n next :
  record_ok r -> pv_ok next -> pr_max_delta r = Some d -> drift d n v0 (as_u128 (pr_value r)) ->
  delta_check next r = Ok tt -> drift d (S n) v0 (as_u128 next).
Proof.
  intros [(K1 & K2 & Hb & Hd)%check_record_Ok Hmin Hmax Hu _ _] Hn Em Hdr Hc.
  unfold drift, delta_check, max_delta_allowance, delta_ok, pv_ok in *. rewrite Em in *.
  destruct d as [b|p|f]; inv_all; to_prop; unfold abs_diff in *.
  - lia.
  - rewrite Nat2Z.inj_succ. apply percent_step with (as_u128 (pr_value r)); try done; [lia..|].
    pose proof (percent_allowance (as_u128 (pr_value r)) p). lia.
  - rewrite Nat2Z.inj_succ, Z.pow_succ_r by lia. unfold sat_mul in *. destruct Hdr as [D1 D2].
    pose proof (Z.pow_pos_nonneg f (Z.of_nat n) ltac:(lia) ltac:(lia)). split; nia.
Qed.

Lemma value_of_eq key s s' r r' :
  find_key pr_key key (cs_params s) = Some r -> find_key pr_key key (cs_params s') = Some r' ->
  value_of key s' = value_of key s <-> pr_value r' = pr_value r.
Proof. intros Hr Hr'. unfold value_of. rewrite Hr, Hr'. cbn. split; [by intros [=]|by intros ->]. Qed.

Lemma change_rate key e0 s0 n e s r0 :
  constitution_ok s0 -> find_key pr_key key (cs_params s0) = Some r0 -> pr_kernel_bounded r0 = true ->
  pr_last_changed_epoch r0 <= e0 -> e < U32 - 1 -> timed_run key e0 s0 n e s ->
  exists r, find_key pr_key key (cs_params s) = Some r /\ pr_kernel_bounded r = true
  /\ (pr_max_delta r = pr_max_delta r0 /\ pr_cooldown_epochs r = pr_cooldown_epochs r0
      /\ pr_min r = pr_min r0 /\ pr_max r = pr_max r0)
  /\ pr_last_changed_epoch r <= e
  /\ (n = 0%nat -> pr_value r = pr_value r0)
  /\ ((0 < n)%nat -> (Z.of_nat n - 1) * pr_cooldown_epochs r0 <= pr_last_changed_epoch r - e0)
  /\ (forall d, pr_max_delta r0 = Some d -> drift d n (as_u128 (pr_value r0)) (as_u128 (pr_value r))).
Proof.
  intros H0 Hr0 Hk0 Hl0 Hmax H. induction H as [|n e s c s' Hrun IH Hc Hle].
  - exists r0. split_and!; try done; [lia|]. intros d _. apply drift_zero.
  - destruct (IH ltac:(lia)) as (r & Hr & Hk & (Hd & Hcd & Hmn & Hmx) & Hl & Hz & Hn & Hdr).
    destruct (timed_run_ok _ _ _ _ _ _ H0 Hrun) as [Hs He0].
    destruct (kernel_row_step _ _ _ _ _ _ Hc Hr Hk (conj Hl Hle)) as (r' & Hr' & Hk' & Hd' & Hcd' & Hmn' & Hmx' & Hl' & Hch).
    exists r'. rewrite (decide_ext _ (pr_value r' = pr_value r)) by (by apply value_of_eq).
    pose proof (co_records _ Hs _ (proj2 (find_key_Some _ _ _ _ Hr))) as Hok.
    pose proof (co_records _ (constitution_step_ok _ _ _ Hs Hc) _ (proj2 (find_key_Some _ _ _ _ Hr'))) as Hok'.
    case_decide as Ev.
    + rewrite Ev. split_and!; try done; try congruence; try lia.
    + destruct (Hch Ev) as (Elast & Hcool & next & Enext & Hchk). split_and!; try done; try congruence; try lia.
      * intros _. unfold sat_add in Hcool. rewrite Z.min_l in Hcool by lia. pose proof (ro_cooldown _ Hok).
        destruct n as [|n]; [lia|]. specialize (Hn ltac:(lia)). rewrite Hcd in *. nia.
      * intros d Ed. rewrite Enext. eapply drift_step; [exact Hok| |by rewrite Hd|by apply Hdr|exact Hchk].
        destruct Hok' as [(_ & _ & Hb & _)%check_record_Ok Hmin Hmax' _ _ _]. rewrite <- Enext. unfold pv_ok in *. lia.
Qed.

(** ** Flags and channel under a call *)

Lemma merged_flags_bit caller stored n : 0 <= n ->
  Z.testbit (merged_flags caller stored) n = if n =? 2 then Z.testbit stored 2 else Z.testbit caller n.
Proof.
  intros Hn. unfold merged_flags, RELEASE_CHANNEL_FLAG_URGENT_UPGRADE. rewrite Z.lor_spec, Z.ldiff_spec, Z.land_spec.
  change (Z.shiftl 1 2) with (2 ^ 2). destruct (n =? 2) eqn:E; to_prop.
  - subst. rewrite Z.pow2_bits_true by lia. by rewrite andb_false_r, andb_true_r.
  - rewrite Z.pow2_bits_false by lia. by rewrite andb_false_r, andb_true_r, orb_false_r.
Qed.

Lemma merge_flags b at_ c c' :
  channel_bytes b -> channel_bytes c -> merge_writer_b b at_ c = Ok c' -> channel_flags c' = merged_flags (channel_flags b) (channel_flags c).
Proof.
  intros Hb Hc H. apply le_u32_at_bytes.
  - apply merged_flags_range; apply le_u32_at_range; intros; by apply byte_at_range.
  - intros i Hi. rewrite (merge_bytes _ _ _ _ Hb Hc H). cbn [RELEASE_CHANNEL_FLAGS fst]. rewrite decide_True by lia. f_equal. lia.
Qed.

Lemma armable_bits flag n : 0 <= flag -> Z.ldiff flag SUDO_ARMABLE_MASK = 0 -> 5 <= n -> Z.testbit flag n = false.
Proof.
  intros H0 H Hn. assert (Z.testbit (Z.ldiff flag SUDO_ARMABLE_MASK) n = false) as Hb by (rewrite H; apply Z.bits_0).
  rewrite Z.ldiff_spec in Hb. change SUDO_ARMABLE_MASK with (Z.ones 5) in Hb. rewrite Z.ones_spec_high in Hb by lia.
  by rewrite andb_true_r in Hb.
Qed.

(** The calls that come with an origin. *)
Definition governed (c : ConstitutionCall) : bool :=
  match c with KSetParamInternal _ _ _ _ | KSetCapabilityInternal _ | KSetFlagInternal _ _ | KNoteChannel _ => false | _ => true end.

Definition authorized (o : ConstitutionOrigin) (r : ParamRecord) (next : ParamValue) : Prop :=
  if is_welfare_low_knee (pr_key r)
  then (o = CoConstitutionTrack /\ as_u128 (pr_value r) <= as_u128 next) \/ (o = CoEntrenchedTrack /\ as_u128 next < as_u128 (pr_value r))
  else can_set_param o (pr_class r) = true.

Lemma authorize_Ok o r next u : authorize_param_update o r next = Ok u -> authorized o r next.
Proof.
  unfold authorize_param_update, authorized. destruct (is_welfare_low_knee _); intros H; inv_all; [|done].
  repeat match goal with H : (_ || _) = true |- _ => apply orb_true_iff in H end. 
  match goal with H : _ && _ = true \/ _ |- _ => destruct H as [H|H]; to_prop; [left|right]; split; done end.
Qed.

(** ** The claims *)

(** C7. The registry is typed: at any time it has exactly the rows of genesis,
    each with its kind of value, class and kernel mark; every value lies
    within its bounds, and a kernel-bounded row has kept its bounds, rate
    limit and cooldown. *)
Theorem parameters_keep_their_kind s :
  constitution_reachable s ->
  Forall2 descends genesis_params (cs_params s)
  /\ forall r, r ∈ cs_params s -> same_kind (pr_value r) (pr_min r) = true /\ same_kind (pr_value r) (pr_max r) = true
     /\ as_u128 (pr_min r) <= as_u128 (pr_value r) <= as_u128 (pr_max r) /\ delta_ok (pr_value r) (pr_max_delta r).
Proof.
  intros Hs%constitution_reachable_ok. split; [apply Hs|]. intros r Hr. by apply check_record_Ok, (co_records _ Hs).
Qed.

(** C23. The interval a row publishes is exactly what an update admits: once the
    cooldown is over, a value of the row's kind is accepted if and only if it
    lies in [admissible_next_interval]; the present value always does, and any
    step of at most [max_delta_allowance] within the bounds does. *)
Theorem admission_is_the_interval s key r :
  constitution_reachable s -> find_key pr_key key (cs_params s) = Some r ->
  exists lo hi a, admissible_next_interval r = Ok (lo, hi) /\ max_delta_allowance r = Ok a
  /\ lo <= as_u128 (pr_value r) <= hi
  /\ (forall next, pv_ok next -> as_u128 (pr_min r) <= as_u128 next <= as_u128 (pr_max r) ->
      Z.abs (as_u128 next - as_u128 (pr_value r)) <= a -> lo <= as_u128 next <= hi)
  /\ forall next epoch block, pv_ok next ->
     checked_update next epoch block r = Ok (with_value next epoch block r)
     <-> same_kind (pr_value r) next = true /\ lo <= as_u128 next <= hi
         /\ sat_add U32 (pr_last_changed_epoch r) (pr_cooldown_epochs r) <= epoch.
Proof.
  intros Hs%constitution_reachable_ok Hr. pose proof (co_records _ Hs _ (proj2 (find_key_Some _ _ _ _ Hr))) as Hok.
  destruct (delta_range_spec r Hok) as (lo & hi & Hrange & Hv & Hdc).
  destruct (allowance_spec r lo hi Hok Hrange Hv) as (a & Ha & Ha0 & Hall).
  pose proof (ro_check _ Hok) as (_ & _ & Hb & _)%check_record_Ok.
  exists (Z.max (as_u128 (pr_min r)) lo), (Z.min (as_u128 (pr_max r)) hi), a. split_and!; try done; try lia.
  - by apply sub_interval.
  - intros next Hn Hbn Habs. unfold pv_ok in Hn. specialize (Hall _ Hn Habs Hbn). lia.
  - intros next epoch block Hn. apply update_iff; auto.
Qed.

(** C13. Who may change what: a call with an origin changes a row only as a value
    update by the origin of its class (the welfare low knees are raised by the
    constitution track and lowered by the entrenched track only), never in a
    direction the budget screen refuses, or as an amendment by FutarchyMeta of
    a row that is not kernel-bounded. Phase flags change by Root and below bit
    5, capabilities by FutarchyMeta, and nothing an origin can call touches the
    execution guard's bytes of the release channel. *)
Theorem changes_need_authority c s s' :
  constitution_reachable s -> constitution_step c s s' -> governed c = true ->
  (forall key r, find_key pr_key key (cs_params s) = Some r -> exists r', find_key pr_key key (cs_params s') = Some r'
     /\ (r' = r
         \/ (exists o next e b, c = KSetParam o key next e b /\ r' = with_value next e b r /\ authorized o r next
             /\ rederive_budgets_required key (pr_value r) next = false)
         \/ (exists mn mx d cd, c = KAmend CoFutarchyMeta key mn mx d cd /\ r' = with_metadata mn mx d cd r
             /\ pr_kernel_bounded r = false)))
  /\ (forall n, 5 <= n -> Z.testbit (cs_phase_flags s') n = Z.testbit (cs_phase_flags s) n)
  /\ (cs_phase_flags s' = cs_phase_flags s \/ exists f en, c = KSetFlag CoRoot f en)
  /\ (cs_capabilities s' = cs_capabilities s \/ exists r, c = KSetCapability CoFutarchyMeta r)
  /\ (forall i, (112 <= i < 120)%nat -> byte_at (cs_release_channel s') i = byte_at (cs_release_channel s) i)
  /\ Z.testbit (channel_flags (cs_release_channel s')) 2 = Z.testbit (channel_flags (cs_release_channel s)) 2.
Proof.
  intros Hs%constitution_reachable_ok Hst Hg. split.
  { intros key r Hr. destruct (row_step _ _ _ _ _ Hst Hr) as (r' & Hr' & Hch). exists r'. split; [done|].
    destruct Hch as [|o next e b -> Ha Hred _|next e b -> _|mn mx d cd -> Hk]; [by left| |done|].
    - right. left. exists o, next, e, b. split_and!; try done. by eapply authorize_Ok.
    - right. right. by exists mn, mx, d, cd. }
  destruct Hst as [Hc H]. destruct c; try discriminate Hg; cbn [constitution_exec constitution_call_ok] in *.
  - unfold dispatch_set_param in H. inv_all. split_and!; try done; by left.
  - unfold dispatch_amend_registry in H. inv_all. split_and!; try done; by left.
  - unfold dispatch_set_capability, set_capability in H. inv_all. destruct origin; try done.
    case_match; inv_all; split_and!; try done; try (by left); right; by eexists.
  - unfold dispatch_set_phase_flag in H. inv_all. to_prop. destruct origin; try done.
    match goal with H : flags_set _ _ _ = Ok _ |- _ => unfold flags_set in H; inv_all end. subst. split_and!; try done; try (by left).
    + intros n Hn. cbn. pose proof (armable_bits flag n ltac:(lia) ltac:(done) Hn) as Hz.
      destruct enabled; [by rewrite Z.lor_spec, Hz, orb_false_r|by rewrite Z.ldiff_spec, Hz, andb_true_r].
    + right. by do 2 eexists.
  - unfold dispatch_set_release_channel in H. inv_all. destruct Hc as [Hb Hat].
    match goal with H : merge_writer_b _ _ _ = Ok _ |- _ => rename H into Hmerge end.
    pose proof (proj1 (co_channel _ Hs)) as Hch. split_and!; try done; try (by left); cbn [set_channel cs_release_channel].
    + intros i Hi. rewrite (merge_bytes _ _ _ _ Hb Hch Hmerge), decide_False, decide_True by lia. done.
    + by rewrite (merge_flags _ _ _ _ Hb Hch Hmerge), merged_flags_bit by lia.
  - unfold dispatch_charge_meter in H. inv_all. split_and!; try done; by left.
Qed.

(** C21. The speed limit of a kernel-bounded row. Over any run of calls on the
    clock of the epochs the row stays inside its fixed interval and its value
    changes at most once per cooldown. When the row has a step limit, [n]
    changes move the value by at most [n] absolute steps; or, for a limit of
    [p] percent, to between the [n]-th powers of [1 - p/100] and [1 + p/100]
    times where it was; or by the [n]-th power of its factor in either
    direction. A row without a step limit is held by the interval alone. *)
Theorem change_rate_is_bounded key n e0 s0 e s r0 :
  constitution_reachable s0 -> find_key pr_key key (cs_params s0) = Some r0 -> pr_kernel_bounded r0 = true ->
  pr_last_changed_epoch r0 <= e0 -> e < U32 - 1 -> timed_run key e0 s0 n e s ->
  exists r, find_key pr_key key (cs_params s) = Some r
  /\ as_u128 (pr_min r0) <= as_u128 (pr_value r) <= as_u128 (pr_max r0)
  /\ (n = 0%nat -> pr_value r = pr_value r0)
  /\ (Z.of_nat n - 1) * pr_cooldown_epochs r0 <= e - e0
  /\ (forall d, pr_max_delta r0 = Some d -> drift d n (as_u128 (pr_value r0)) (as_u128 (pr_value r))).
Proof.
  intros Hs%constitution_reachable_ok Hr Hk Hl He H. pose proof (timed_run_ok _ _ _ _ _ _ Hs H) as [Hs' Hle].
  destruct (change_rate _ _ _ _ _ _ _ Hs Hr Hk Hl He H) as (r & Hr' & _ & (_ & _ & Emn & Emx) & Hlast & Hz & Hn & Hd).
  exists r. pose proof (co_records _ Hs' _ (proj2 (find_key_Some _ _ _ _ Hr'))) as [(_ & _ & Hb & _)%check_record_Ok _ _ _ _ _].
  rewrite Emn, Emx in Hb. split_and!; try done; [lia..|].
  pose proof (ro_cooldown _ (co_records _ Hs _ (proj2 (find_key_Some _ _ _ _ Hr)))).
  destruct n as [|n]; [nia|]. specialize (Hn ltac:(lia)). lia.
Qed.

(** C26. The release channel keeps its owners apart: a governed write stamps
    [updated_at] with the block of the call, keeps the execution guard's
    versions and its URGENT_UPGRADE bit, and takes every other byte and flag
    from the caller; the result is a valid channel of the frozen layout. *)
Theorem release_channel_keeps_owners o bytes updated_at s s' :
  constitution_reachable s -> constitution_step (KSetChannel o bytes updated_at) s s' ->
  let c := cs_release_channel s in
  let c' := cs_release_channel s' in
  channel_updated_at c' = updated_at /\ channel_spec_version c' = channel_spec_version c
  /\ channel_pending_authorized_at c' = channel_pending_authorized_at c
  /\ (forall n, 0 <= n -> Z.testbit (channel_flags c') n = Z.testbit (channel_flags (if n =? 2 then c else bytes)) n)
  /\ (forall i, (i < 108 \/ 120 <= i < 164)%nat -> byte_at c' i = byte_at bytes i)
  /\ channel_bytes c' /\ channel_new c' = Ok c'.
Proof.
  intros Hs%constitution_reachable_ok [[Hb Hat] H]. cbn [constitution_exec] in H. unfold dispatch_set_release_channel in H. inv_all.
  match goal with H : merge_writer_b _ _ _ = Ok ?x |- _ => rename H into Hm; rename x into c' end.
  pose proof (proj1 (co_channel _ Hs)) as Hc. pose proof (merge_bytes _ _ _ _ Hb Hc Hm) as Hbyte. cbn zeta.
  cbn [set_channel cs_release_channel]. split_and!; try apply (merge_writer_b_bytes _ _ _ _ Hb Hc Hm).
  - apply le_u32_at_bytes; [done|]. intros i Hi. cbn [RELEASE_CHANNEL_UPDATED_AT fst].
    rewrite Hbyte, decide_False, decide_False, decide_True by lia. f_equal. lia.
  - apply le_u32_at_ext. intros i Hi. cbn [RELEASE_CHANNEL_SPEC_VERSION fst]. by rewrite Hbyte, decide_False, decide_True by lia.
  - apply le_u32_at_ext. intros i Hi. cbn [RELEASE_CHANNEL_PENDING_AUTHORIZED_AT fst].
    by rewrite Hbyte, decide_False, decide_True by lia.
  - intros n Hn. rewrite (merge_flags _ _ _ _ Hb Hc Hm), merged_flags_bit by done. destruct (n =? 2) eqn:E; to_prop; by subst.
  - intros i Hi. by rewrite Hbyte, !decide_False by lia.
Qed.

Lemma check_pairs_ok params : pairs_coupled params ->
  for_each (check_pair params) ["dec.v_min.param"; "dec.v_min.trs"; "dec.v_min.code"; "dec.v_min.meta"]%string = Ok tt.
Proof.
  intros Hp. apply for_each_Ok. intros d Hd.
  assert (exists g, (d, g) ∈ v_min_pairs) as [g Hg].
  { change (d ∈ v_min_pairs.*1) in Hd. apply list_elem_of_fmap in Hd as ([d' g] & -> & Hg). by exists g. }
  apply (check_pair_Ok _ _ _ Hg). by apply Hp.
Qed.

Lemma genesis_size gs l : Forall2 descends gs l -> length l = length gs.
Proof. intros H. symmetry. by eapply Forall2_length. Qed.

Lemma try_state_ok s : constitution_ok s -> constitution_try_state s = Ok tt.
Proof.
  intros [Hd Hr Hp _ Hcl Hm Hml [Hf Hfb] _]. unfold constitution_try_state.
  rewrite !(proj2 (Nat.leb_le _ _)) by (done || (rewrite (genesis_size _ _ Hd); apply Nat.leb_le; by vm_compute)).
  cbn [ensure rbind]. rewrite Hfb. cbn [rbind]. rewrite (proj2 (for_each_Ok _ _ tt)) by (intros r Hin; apply Hr, Hin).
  cbn [rbind]. rewrite (check_pairs_ok _ Hp). cbn [rbind]. apply for_each_Ok. intros m Hin. apply ensure_true, Z.leb_le.
  by apply Hm.
Qed.

(** The state checker accepts every reachable constitution. *)
Theorem constitution_checker_accepts s : constitution_reachable s -> constitution_try_state s = Ok tt.
Proof. intros Hs%constitution_reachable_ok. by apply try_state_ok. Qed.

(** ** The pallet *)

Definition refines (t : PalletStorage) (s : ConstitutionState) : Prop :=
  (forall k, ps_params t !! k = find_key pr_key k (cs_params s)) /\ ps_meters t = cs_meters s
  /\ ps_capabilities t = cs_capabilities s /\ ps_phase_flags t = cs_phase_flags s /\ ps_release_channel t = cs_release_channel s.

Section pallet.
Context `{!ConstitutionConfig}.

Inductive PalletCall : Type :=
| PSetParam (origin : RuntimeOrigin) (key : ParamKey) (value : ParamValue)
| PSetCapability (origin : RuntimeOrigin) (record : CapabilityRecord)
| PSetPhaseFlag (origin : RuntimeOrigin) (flag : Z) (enabled : bool)
| PSetReleaseChannel (origin : RuntimeOrigin) (bytes : list Z)
| PAmendRegistry (origin : RuntimeOrigin) (key : ParamKey) (min max : ParamValue) (max_delta : option MaxDelta) (cooldown : Z)
| PNoteChannel (bytes : list Z)
| PNoteLedgerFrozen (frozen : bool)
| PNoteDeadMan (engaged : bool)
| PNoteReserveHealth (unhealthy : bool)
| PCharge (index : nat) (amount : Z).

Definition pallet_exec (env : Env) (c : PalletCall) : PM unit :=
  match c with
  | PSetParam o k v => pallet_set_param o k v env
  | PSetCapability o r => pallet_set_capability o r
  | PSetPhaseFlag o f en => pallet_set_phase_flag o f en env
  | PSetReleaseChannel o b => pallet_set_release_channel o b env
  | PAmendRegistry o k mn mx d cd => pallet_amend_registry o k mn mx d cd
  | PNoteChannel b => note_release_channel b
  | PNoteLedgerFrozen b => note_ledger_frozen b
  | PNoteDeadMan b => note_dead_man_engaged b
  | PNoteReserveHealth b => note_reserve_health b
  | PCharge i a => charge_meter_internal i a env
  end.

(** The call of the core, if the origin is one of governance. A charge comes
    from a sibling pallet, without an origin. *)
Definition core_call (env : Env) (c : PalletCall) : option ConstitutionCall :=
  match c with
  | PSetParam o k v => (fun a => KSetParam a k v (en_epoch env) (en_block env)) <$> GovernanceOrigin o
  | PSetCapability o r => (fun a => KSetCapability a r) <$> GovernanceOrigin o
  | PSetPhaseFlag o f en => (fun a => KSetFlag a f en) <$> GovernanceOrigin o
  | PSetReleaseChannel o b => (fun a => KSetChannel a b (en_block env)) <$> GovernanceOrigin o
  | PAmendRegistry o k mn mx d cd => (fun a => KAmend a k mn mx d cd) <$> GovernanceOrigin o
  | PNoteChannel b => Some (KNoteChannel b)
  | PNoteLedgerFrozen b => Some (KSetFlagInternal LEDGER_FROZEN b)
  | PNoteDeadMan b => Some (KSetFlagInternal DEAD_MAN_ENGAGED b)
  | PNoteReserveHealth b => Some (KSetFlagInternal RESERVE_HEALTH_FLAG b)
  | PCharge i a => Some (KCharge CoFutarchyTreasury i a (en_epoch env))
  end.

(** The arming gate admits every class whose bit the call sets. *)
Definition armable (env : Env) (c : PalletCall) : bool :=
  match c with
  | PSetPhaseFlag _ flag true =>
      forallb (fun bc : Z * ProposalClass => (Z.land flag bc.1 =? 0) || en_armable env bc.2) armed_bit_classes
  | _ => true
  end.

(** The pallet reports a pair out of its ratio under another error. *)
Definition pallet_error (c : PalletCall) (e : ConstitutionError) : DispatchError :=
  match c, e with
  | PSetParam _ _ _, CeMetaBoundViolation => DeModule PeTryStateViolation
  | _, _ => map_core_error e
  end.

Definition mirrors (env : Env) (c : PalletCall) (t : PalletStorage) (s : ConstitutionState) : Prop :=
  let (r, t') := pallet_exec env c t in
  match core_call env c with
  | None => r = Err DeBadOrigin /\ t' = t
  | Some k =>
      match constitution_exec k s with
      | (Ok _, s') =>
          if armable env c then r = Ok tt /\ refines t' s' /\ exists ev, ps_events t' = ps_events t ++ [ev]
          else r = Err (DeModule PeNavFloorUnmet) /\ t' = t
      | (Err e, _) => r = Err (pallet_error c e) /\ t' = t
      end
  end.

Lemma refines_write key r t s ev :
  refines t s -> is_Some (find_key pr_key key (cs_params s)) -> pr_key r = key ->
  refines (deposit_event ev (put_params (<[key := r]> (ps_params t)) t)) (write_param key r s).
Proof.
  intros (Hp & Hm & Hc & Hf & Hch) [r0 Hr0] Hk. split_and!; try done. intros k. cbn.
  destruct (decide (key = k)) as [<-|Hne].
  - rewrite lookup_insert_eq. pose proof (find_key_Some _ _ _ _ Hr0) as [E _].
    symmetry. apply (find_key_alter_eq pr_key key (fun _ => r) (cs_params s) r0); [congruence|done].
  - rewrite lookup_insert_ne, Hp by done. clear - Hne Hk. induction (cs_params s) as [|w l IH]; cbn; [done|].
    destruct (decide (pr_key w = key)) as [E|E]; cbn; [|by rewrite IH]. by rewrite !decide_False by congruence.
Qed.
(** The errors of the row checks pass through unchanged. *)
Lemma authorize_Err o r next e : authorize_param_update o r next = Err e -> e <> CeMetaBoundViolation.
Proof.
  unfold authorize_param_update. destruct (is_welfare_low_knee _).
  - destruct (_ || _); cbn [ensure rbind]; [|by intros [= <-]]. destruct (same_kind _ _); cbn [ensure rbind]; [|by intros [= <-]].
    destruct (_ || _); [done|by intros [= <-]].
  - destruct (can_set_param _ _); [done|by intros [= <-]].
Qed.

Lemma update_Err next epoch block r e : checked_update next epoch block r = Err e -> e <> CeMetaBoundViolation.
Proof.
  rewrite update_steps. do 5 (match goal with |- context [ensure ?b _] => destruct b end; cbn [ensure rbind]; [|by intros [= <-]]).
  unfold delta_check. destruct (pr_max_delta r) as [[b|p|f]|] eqn:Em; [| | |done].
  - destruct (same_kind b next); cbn [ensure rbind]; [|by intros [= <-]]. destruct (_ <=? _); [done|by intros [= <-]].
  - unfold max_delta_allowance. rewrite Em. cbn [rbind]. destruct (_ <=? _); [done|by intros [= <-]].
  - destruct (_ && _); [done|by intros [= <-]].
Qed.

Lemma set_param_error e o key value : e <> CeMetaBoundViolation -> map_core_error e = pallet_error (PSetParam o key value) e.
Proof. by destruct e. Qed.

Lemma mirrors_set_param env o key value t s :
  (forall k c n, permits k c n = runtime_permits k c n) -> refines t s -> mirrors env (PSetParam o key value) t s.
Proof.
  intros Hperm Hr. pose proof Hr as [Hp _]. unfold mirrors. cbn [pallet_exec core_call armable].
  unfold pallet_set_param, ensure_origin. destruct (GovernanceOrigin o) as [a|]; [|by cbn].
  cbn [fmap option_fmap option_map constitution_exec]. unfold dispatch_set_param, checked_set_param.
  unfold bind, lift, get, modify. cbn [ok_or]. rewrite Hp.
  destruct (find_key pr_key key (cs_params s)) as [r|] eqn:Er; cbn [ok_or rbind]; [|done].
  destruct (authorize_param_update a r value) as [[]|e] eqn:Ea; cbn [core map_err].
  2:{ split; [|done]. f_equal. apply set_param_error. by eapply authorize_Err. }
  destruct (checked_update value (en_epoch env) (en_block env) r) as [r'|e] eqn:Eu; cbn [core map_err rbind].
  2:{ split; [|done]. f_equal. apply set_param_error. by eapply update_Err. }
  pose proof (checked_update_Ok _ _ _ _ _ Eu) as (Er' & _). pose proof (find_key_Some _ _ _ _ Er) as [Ek _].
  rewrite Hperm. unfold runtime_permits.
  assert (forall ev, refines (deposit_event ev (put_params (<[key := r']> (ps_params t)) t)) (write_param key r' s)) as Hw.
  { intros ev. apply refines_write; [done|by rewrite Er|by subst]. }
  destruct (gate_v_min_pair key) as [pk|]; cbn [rbind].
  - rewrite Hp. destruct (find_key pr_key pk (cs_params s)) as [paired|]; cbn [ok_or rbind]; [|done].
    destruct (starts_with _ key); unfold coupled.
    + destruct (pr_value r'); try done. destruct (pr_value paired); try done.
      destruct (gate_v_min_coupled _ _); cbn [ensure rbind]; [|done].
      destruct (rederive_budgets_required _ _ _); cbn [ensure negb]; [done|]. split_and!; [done|apply Hw|by eexists].
    + destruct (pr_value paired); try done. destruct (pr_value r'); try done.
      destruct (gate_v_min_coupled _ _); cbn [ensure rbind]; [|done].
      destruct (rederive_budgets_required _ _ _); cbn [ensure negb]; [done|]. split_and!; [done|apply Hw|by eexists].
  - destruct (rederive_budgets_required _ _ _); cbn [ensure negb]; [done|]. split_and!; [done|apply Hw|by eexists].
Qed.

Lemma mirrors_amend env o key mn mx d cd t s : refines t s -> mirrors env (PAmendRegistry o key mn mx d cd) t s.
Proof.
  intros Hr. pose proof Hr as [Hp _]. unfold mirrors. cbn [pallet_exec core_call armable].
  unfold pallet_amend_registry, ensure_origin. destruct (GovernanceOrigin o) as [a|]; [|by cbn].
  cbn [fmap option_fmap option_map constitution_exec]. unfold dispatch_amend_registry.
  unfold bind, lift, get, modify. cbn [ok_or]. rewrite Hp.
  destruct (find_key pr_key key (cs_params s)) as [r|] eqn:Er; cbn [ok_or]; [|done].
  destruct (can_amend_registry _ _); cbn [ensure]; [|done].
  destruct (checked_amend mn mx d cd r) as [r'|e] eqn:Eu; cbn [core map_err]; [|by destruct e].
  pose proof (checked_amend_Ok _ _ _ _ _ _ Eu) as (Er' & _). pose proof (find_key_Some _ _ _ _ Er) as [Ek _].
  split_and!; [done| |by eexists]. apply refines_write; [done|by rewrite Er|by subst].
Qed.

Lemma mirrors_capability env o r t s : refines t s -> mirrors env (PSetCapability o r) t s.
Proof.
  intros (Hp & Hm & Hc & Hf & Hch). unfold mirrors. cbn [pallet_exec core_call armable].
  unfold pallet_set_capability, ensure_origin. destruct (GovernanceOrigin o) as [a|]; [|by cbn].
  cbn [fmap option_fmap option_map constitution_exec]. unfold dispatch_set_capability, set_capability.
  unfold bind, lift, get, modify. cbn [ok_or]. destruct (can_set_capability a); cbn [ensure]; [|done]. rewrite Hc.
  destruct (find_key cr_key _ _); [by split_and!; [done..|eexists]|].
  destruct (_ <? _)%nat; cbn [ensure]; [|done]. by split_and!; [done..|eexists].
Qed.

Lemma mirrors_flag flag en t s :
  flags_from_bits (cs_phase_flags s) = Ok (cs_phase_flags s) -> refines t s ->
  let (r, t') := write_phase_flag flag en t in
  match write_flag flag en s with
  | (Ok _, s') => r = Ok tt /\ refines t' s' /\ exists ev, ps_events t' = ps_events t ++ [ev]
  | (Err e, _) => r = Err (map_core_error e) /\ t' = t
  end.
Proof.
  intros Hfb (Hp & Hm & Hc & Hf & Hch). unfold write_phase_flag, write_flag, bind, lift, get, modify. rewrite Hf, Hfb. cbn [core map_err].
  destruct (flags_set _ _ _) as [f|e]; cbn [map_err]; [|done]. by split_and!; [done..|eexists].
Qed.

Lemma mirrors_channel bytes t s :
  refines t s ->
  let (r, t') := write_release_channel bytes t in
  match write_channel bytes s with
  | (Ok _, s') => r = Ok tt /\ refines t' s' /\ exists ev, ps_events t' = ps_events t ++ [ev]
  | (Err e, _) => r = Err (map_core_error e) /\ t' = t
  end.
Proof.
  intros (Hp & Hm & Hc & Hf & Hch). unfold write_release_channel, write_channel, bind, lift, modify.
  destruct (channel_new bytes) as [c|e]; cbn [core map_err]; [|done]. by split_and!; [done..|eexists].
Qed.

Lemma armed_check env flag :
  for_each (fun bc : Z * ProposalClass =>
    if negb (Z.land flag bc.1 =? 0) then ensure (en_armable env bc.2) (DeModule PeNavFloorUnmet) else Ok tt) armed_bit_classes
  = if forallb (fun bc : Z * ProposalClass => (Z.land flag bc.1 =? 0) || en_armable env bc.2) armed_bit_classes
    then Ok tt else Err (DeModule PeNavFloorUnmet).
Proof.
  induction armed_bit_classes as [|bc l IH]; cbn [for_each forallb]; [done|].
  destruct (Z.land flag bc.1 =? 0); cbn [negb orb andb rbind]; [done|]. destruct (en_armable env bc.2); cbn [ensure andb rbind]; done.
Qed.

Lemma armable_flag_fits flag en flags : Z.ldiff flag SUDO_ARMABLE_MASK = 0 -> is_ok (flags_set flag en flags) = true.
Proof.
  intros Hfl. unfold flags_set. enough (Z.land flag RESERVED_MASK = 0) as -> by done.
  apply Z.bits_inj'. intros n Hn. rewrite Z.land_spec, Z.bits_0. destruct (decide (5 <= n)) as [H5|H5].
  - assert (Z.testbit (Z.ldiff flag SUDO_ARMABLE_MASK) n = false) as Hb by (rewrite Hfl; apply Z.bits_0).
    rewrite Z.ldiff_spec in Hb. change SUDO_ARMABLE_MASK with (Z.ones 5) in Hb. rewrite Z.ones_spec_high in Hb by lia.
    rewrite andb_true_r in Hb. by rewrite Hb.
  - replace RESERVED_MASK with (Z.shiftl (Z.ones 24) 8) by done. rewrite Z.shiftl_spec, (Z.testbit_neg_r _ (n - 8)) by lia. by rewrite andb_false_r.
Qed.

Lemma mirrors_phase_flag env o flag en t s :
  flags_from_bits (cs_phase_flags s) = Ok (cs_phase_flags s) -> refines t s -> mirrors env (PSetPhaseFlag o flag en) t s.
Proof.
  intros Hfb Hr. pose proof (mirrors_flag flag en t s Hfb Hr) as Hw. unfold mirrors. cbn [pallet_exec core_call armable].
  unfold pallet_set_phase_flag, ensure_origin. destruct (GovernanceOrigin o) as [a|]; [|by cbn].
  cbn [fmap option_fmap option_map constitution_exec]. unfold dispatch_set_phase_flag.
  unfold bind at 1, lift at 1. cbn [ok_or]. unfold bind at 1 3, lift at 1 3. destruct (can_set_phase_flag a); cbn [ensure]; [|done].
  unfold bind at 1 2, lift at 1 2. destruct (Z.ldiff flag SUDO_ARMABLE_MASK =? 0) eqn:Em; cbn [ensure]; [|done]. to_prop.
  pose proof (armable_flag_fits flag en (cs_phase_flags s) Em) as Hok.
  change (let! s0 := get in let! flags := lift (flags_set flag en (cs_phase_flags s0)) in modify (set_phase_flags flags)) with (write_flag flag en).
  destruct (write_phase_flag flag en t) as [r t'] eqn:Ep.
  assert (exists s', write_flag flag en s = (Ok tt, s')) as [s' Es].
  { unfold write_flag, bind, get, lift, modify. destruct (flags_set _ _ _); [by eexists|done]. }
  change ((do! lift (Ok tt) in write_flag flag en) s) with (write_flag flag en s).
  rewrite Es in Hw |- *. destruct en; [|done].
  rewrite armed_check. by destruct (forallb _ _).
Qed.

Lemma mirrors_set_channel env o bytes t s : refines t s -> mirrors env (PSetReleaseChannel o bytes) t s.
Proof.
  intros Hr. pose proof Hr as (Hp & Hm & Hc & Hf & Hch). unfold mirrors. cbn [pallet_exec core_call armable].
  unfold pallet_set_release_channel, ensure_origin. destruct (GovernanceOrigin o) as [a|]; [|by cbn].
  cbn [fmap option_fmap option_map constitution_exec]. unfold dispatch_set_release_channel, write_release_channel.
  unfold bind, lift, get, modify. cbn [ok_or]. destruct (can_set_release_channel a); cbn [ensure]; [|done]. rewrite Hch.
  destruct (merge_writer_b _ _ _) as [c|e] eqn:Em; cbn [core map_err]; [|by destruct e].
  assert (channel_new c = Ok c) as -> by (unfold merge_writer_b in Em; inv_all; by eapply channel_new_Ok).
  cbn [map_err]. by split_and!; [done..|eexists].
Qed.

Lemma mirrors_charge env i a t s : refines t s -> mirrors env (PCharge i a) t s.
Proof.
  intros (Hp & Hm & Hc & Hf & Hch). unfold mirrors. cbn [pallet_exec core_call armable constitution_exec].
  unfold charge_meter_internal, dispatch_charge_meter, bind, lift, get, modify. cbn [can_charge_meter ensure]. rewrite Hm.
  destruct (cs_meters s !! i) as [m|]; cbn [ok_or]; [|done].
  destruct (charge _ _ _) as [m'|e]; cbn [core map_err]; [|by destruct e]. split; [done|]. split; [by split_and!|by eexists].
Qed.

(** C6. The pallet refines the core: on storage that holds a reachable
    constitution, each extrinsic and each internal write does what the core's
    call does for the origin's authority (the same success, the same new state,
    exactly one event) and fails exactly when it fails, with the corresponding
    error and the storage unchanged. Two differences are the pallet's own:
    arming a class below its floor is refused, and a pair of volume minima out
    of its ratio is reported under another error. *)
Theorem pallet_refines_core env c t s :
  (forall k current next, permits k current next = runtime_permits k current next) ->
  constitution_reachable s -> refines t s -> mirrors env c t s.
Proof.
  intros Hperm Hs%constitution_reachable_ok Hr. pose proof (proj2 (co_flags _ Hs)) as Hfb. destruct c.
  - by apply mirrors_set_param.
  - by apply mirrors_capability.
  - by apply mirrors_phase_flag.
  - by apply mirrors_set_channel.
  - by apply mirrors_amend.
  - exact (mirrors_channel bytes t s Hr).
  - exact (mirrors_flag LEDGER_FROZEN frozen t s Hfb Hr).
  - exact (mirrors_flag DEAD_MAN_ENGAGED engaged t s Hfb Hr).
  - exact (mirrors_flag RESERVE_HEALTH_FLAG unhealthy t s Hfb Hr).
  - by apply mirrors_charge.
Qed.

(** ** The storage over its life *)

Definition pallet_call_ok (env : Env) (c : PalletCall) : Prop :=
  match core_call env c with Some k => constitution_call_ok k | None => True end.

Definition pallet_next (t t' : PalletStorage) : Prop :=
  exists env c, pallet_call_ok env c /\ pallet_exec env c t = (Ok tt, t').

Definition pallet_reachable (final_key : list Z) (t : PalletStorage) : Prop :=
  exists flags channel t0, 0 <= flags < U32 /\ (forall x, x ∈ channel -> 0 <= x < 256)
  /\ genesis_build final_key flags channel = Some t0 /\ rtc pallet_next t0 t.

Definition holds_constitution (t : PalletStorage) : Prop :=
  ps_version t = STORAGE_VERSION /\ exists s, constitution_reachable s /\ refines t s.

Lemma insert_all_lookup l m k :
  NoDup (keys pr_key l) ->
  fold_left (fun (m : gmap (list Z) ParamRecord) r => <[pr_key r := r]> m) l m !! k
  = match find_key pr_key k l with Some r => Some r | None => m !! k end.
Proof.
  revert m. induction l as [|r l IH]; intros m Hn; cbn [fold_left find_key]; [done|].
  apply NoDup_cons in Hn as [Hr Hn]. rewrite IH by done. case_decide as E.
  - subst. rewrite lookup_insert_eq. by rewrite (proj2 (find_key_None pr_key _ l) Hr).
  - by rewrite lookup_insert_ne.
Qed.

Lemma empty_channel_ok : channel_bytes empty_release_channel /\ channel_new empty_release_channel = Ok empty_release_channel.
Proof.
  split; [|by vm_compute]. split; [done|]. intros x [->|Hx]%elem_of_cons; [lia|]. apply elem_of_replicate in Hx as [-> _]. lia.
Qed.

Lemma genesis_holds final_key flags channel t :
  0 <= flags < U32 -> (forall x, x ∈ channel -> 0 <= x < 256) -> genesis_build final_key flags channel = Some t -> holds_constitution t.
Proof.
  intros Hf Hc Hv0. unfold genesis_build in Hv0. cbv zeta in Hv0.
  do 3 (match type of Hv0 with (if ?b then _ else _) = _ => destruct b; [discriminate Hv0|] end).
  destruct (flags_from_bits flags) as [fl|] eqn:Ef; [|done].
  destruct (if bool_decide (channel = []) then _ else _) as [ch|] eqn:Ech; [|done].
  destruct (is_ok _); [|done]. simplify_eq. split; [done|].
  assert (fl = flags) as -> by (unfold flags_from_bits in Ef; destruct (_ =? 0); by simplify_eq).
  assert (channel_bytes ch /\ channel_new ch = Ok ch) as [Hb Hn].
  { destruct (bool_decide (channel = [])); [simplify_eq; apply empty_channel_ok|].
    destruct (length channel =? RELEASE_CHANNEL_LEN)%nat eqn:El; cbn [negb] in Ech; [|done].
    destruct (channel_new channel) as [c|] eqn:En; [|done]. simplify_eq. apply channel_new_Ok in En as [-> En].
    split; [|done]. split; [by apply Nat.eqb_eq|done]. }
  exists (constitution_start [] flags ch). split.
  - exists [], flags, ch. split; [|apply rtc_refl]. split_and!; try done; try (cbn; lia); try (by intros m ?%elem_of_nil); apply Hb.
  - split_and!; try done. intros k. cbn [ps_params]. unfold insert_all. rewrite insert_all_lookup by apply genesis_keys_NoDup.
    cbn [constitution_start cs_params]. by destruct (find_key _ _ _).
Qed.

Lemma pallet_next_version t t' : pallet_next t t' -> ps_version t' = ps_version t.
Proof.
  intros (env & c & _ & Hx). destruct c; cbn [pallet_exec] in Hx;
    unfold pallet_set_param, pallet_set_capability, pallet_set_phase_flag, pallet_set_release_channel, pallet_amend_registry,
      note_release_channel, note_ledger_frozen, note_dead_man_engaged, note_reserve_health, charge_meter_internal,
      write_phase_flag, write_release_channel in Hx; inv_all; try done; repeat (case_match; inv_all); done.
Qed.

Lemma pallet_reachable_holds final_key t :
  (forall k current next, permits k current next = runtime_permits k current next) ->
  pallet_reachable final_key t -> holds_constitution t.
Proof.
  intros Hperm (flags & ch & t0 & Hf & Hc & Hg & Hr). apply genesis_holds in Hg; [|done..]. revert Hg.
  induction Hr as [|t0 t1 t2 Hn _ IH]; [done|]. intros [Hv (s & Hs & Href)]. apply IH. split; [by rewrite (pallet_next_version _ _ Hn)|].
  destruct Hn as (env & c & Hok & Hex). pose proof (pallet_refines_core env c t0 s Hperm Hs Href) as Hm.
  unfold mirrors in Hm. rewrite Hex in Hm. unfold pallet_call_ok in Hok.
  destruct (core_call env c) as [k|]; [|by destruct Hm]. destruct (constitution_exec k s) as [[[]|e] s'] eqn:Ek; [|by destruct Hm].
  destruct (armable env c); [|by destruct Hm]. destruct Hm as (_ & Href' & _). exists s'. split; [|done].
  destruct Hs as (ms & fl & c0 & Hst & Hrun). exists ms, fl, c0. split; [done|]. eapply rtc_r; [done|]. by exists k.
Qed.

Lemma filed_rows_Ok (m : gmap (list Z) ParamRecord) :
  (forall k r, m !! k = Some r -> pr_key r = k) -> filed_rows m = Ok (map_to_list m).*2.
Proof.
  intros Hm. unfold filed_rows. assert (forall k r, (k, r) ∈ map_to_list m -> pr_key r = k) as Hl.
  { intros k r Hkr. by apply Hm, elem_of_map_to_list. }
  enough (forall l acc, (forall k r, (k, r) ∈ l -> pr_key r = k) ->
    try_fold (fun acc (kr : list Z * ParamRecord) => do? ensure (bool_decide (kr.1 = pr_key kr.2)) TsKeyDiverges in Ok (acc ++ [kr.2])) acc l
    = Ok (acc ++ l.*2)) as -> by done.
  clear Hl. induction l as [|[k r] l IH]; intros acc Hl; cbn [try_fold fmap list_fmap]; [by rewrite app_nil_r|].
  rewrite bool_decide_eq_true_2 by (symmetry; apply Hl; left). cbn [ensure rbind fst snd].
  rewrite IH by (intros; apply Hl; by right). by rewrite <- app_assoc.
Qed.

Lemma find_filed (m : gmap (list Z) ParamRecord) k :
  (forall k r, m !! k = Some r -> pr_key r = k) -> find_key pr_key k (map_to_list m).*2 = m !! k.
Proof.
  intros Hm. assert (keys pr_key (map_to_list m).*2 = (map_to_list m).*1) as Hk.
  { unfold keys. rewrite <- list_fmap_compose. apply list_fmap_ext. intros i [k' r] Hi. cbn. apply Hm.
    apply elem_of_map_to_list. by eapply list_elem_of_lookup_2. }
  assert (NoDup (keys pr_key (map_to_list m).*2)) as Hn by (rewrite Hk; apply NoDup_fst_map_to_list).
  destruct (m !! k) as [r|] eqn:E.
  - pose proof (Hm _ _ E) as <-. apply find_key_elem; [done|]. apply list_elem_of_fmap. exists (pr_key r, r). split; [done|].
    by apply elem_of_map_to_list.
  - apply find_key_None. rewrite Hk. intros ([k' r] & -> & Hin%elem_of_map_to_list)%list_elem_of_fmap. cbn in E. congruence.
Qed.

Lemma try_state_same s l :
  constitution_ok s -> (forall k, find_key pr_key k l = find_key pr_key k (cs_params s)) -> (forall r, r ∈ l -> r ∈ cs_params s) ->
  NoDup l -> constitution_try_state (set_params l s) = Ok tt.
Proof.
  intros [Hd Hr Hp _ Hcl Hm Hml [Hf Hfb] _] Hfind Hin Hn. unfold constitution_try_state. cbn [set_params cs_params cs_capabilities cs_meters cs_phase_flags].
  assert (length l <= length (cs_params s))%nat as Hlen by (apply submseteq_length, NoDup_submseteq; auto).
  rewrite (genesis_size _ _ Hd) in Hlen. assert (length genesis_params <= MAX_PARAMS)%nat by (apply Nat.leb_le; by vm_compute).
  rewrite !(proj2 (Nat.leb_le _ _)) by (done || lia). cbn [ensure rbind]. rewrite Hfb. cbn [rbind].
  rewrite (proj2 (for_each_Ok _ _ tt)) by (intros r Hrl; apply Hr, Hin, Hrl). cbn [rbind].
  rewrite check_pairs_ok; cbn [rbind].
  - apply for_each_Ok. intros m Hm'. apply ensure_true, Z.leb_le. by apply Hm.
  - intros d g Hdg. rewrite !Hfind. by apply Hp.
Qed.

(** The rows of the probe controls are kernel-bounded in genesis. *)
Lemma control_ok s t name :
  constitution_ok s -> refines t s -> name ∈ probe_controls -> check_control (ps_params t) name = Ok tt.
Proof.
  intros Hs (Hp & _) Hname. unfold check_control.
  assert (exists g, find_key pr_key (key16 name) genesis_params = Some g /\ pr_kernel_bounded g = true) as (g & Eg & Hk).
  { assert (forallb (fun name => match find_key pr_key (key16 name) genesis_params with Some g => pr_kernel_bounded g | None => false end)
      probe_controls = true) as Hall by by vm_compute.
    pose proof (proj1 (forallb_elem _ _) Hall _ Hname) as Hx. cbv beta in Hx.
    destruct (find_key _ _ genesis_params) as [g|]; [by exists g|done]. }
  rewrite Eg. cbn [ok_or rbind]. rewrite Hp.
  assert (key16 name ∈ keys pr_key (cs_params s)) as (r & Hr & Er)%elem_of_keys.
  { rewrite (descent_keys _ _ (co_descent _ Hs)). apply find_key_Some in Eg as [<- Hg]. by apply list_elem_of_fmap_2. }
  assert (NoDup (keys pr_key (cs_params s))) as Hn by (rewrite (descent_keys _ _ (co_descent _ Hs)); apply genesis_keys_NoDup).
  pose proof (find_key_elem pr_key _ _ Hn Hr) as Ef. rewrite Er in Ef. rewrite Ef. cbn [ok_or rbind].
  destruct (descent_find _ _ _ _ (co_descent _ Hs) Ef) as (g' & Eg' & [D1 D2 D3 D4 D5]). simplify_eq.
  destruct (D5 Hk) as (M1 & M2 & M3 & M4). pose proof (ro_check _ (co_records _ Hs _ Hr)) as (_ & _ & Hb & _)%check_record_Ok.
  rewrite M1, M2 in Hb. rewrite !bool_decide_eq_true_2 by done. rewrite M4, D3, Z.eqb_refl, eqb_reflx, same_kind_sym, D4.
  rewrite !(proj2 (Z.ltb_ge _ _)) by lia. done.
Qed.

Lemma pricing_rows_present s t name : constitution_ok s -> refines t s ->
  is_none (find_key pr_key (key16 name) genesis_params) = false -> is_none (ps_params t !! key16 name) = false.
Proof.
  intros Hs (Hp & _) Hg. rewrite Hp. destruct (find_key pr_key (key16 name) (cs_params s)) as [r|] eqn:E; [done|].
  apply find_key_None in E. rewrite (descent_keys _ _ (co_descent _ Hs)) in E. by rewrite (proj2 (find_key_None _ _ _) E) in Hg.
Qed.

(** The pallet's state check passes at any time after a genesis that built,
    on the instance whose raw storage key is the published one. *)
Theorem pallet_checker_accepts t :
  (forall k current next, permits k current next = runtime_permits k current next) ->
  pallet_reachable RELEASE_CHANNEL_STORAGE_KEY t -> do_try_state RELEASE_CHANNEL_STORAGE_KEY t = Ok tt.
Proof.
  intros Hperm Ht. destruct (pallet_reachable_holds _ _ Hperm Ht) as [Hv (s & Hs & Hr)].
  apply constitution_reachable_ok in Hs. pose proof Hr as (Hp & Hm & Hc & Hf & Hch). unfold do_try_state.
  rewrite Hv, Z.eqb_refl. cbn [ensure rbind]. rewrite !(pricing_rows_present s t) by done. cbn [orb negb ensure rbind].
  rewrite (proj2 (for_each_Ok _ _ tt)) by (intros name Hname; by eapply control_ok). cbn [rbind].
  rewrite Hf, (proj2 (co_flags _ Hs)). cbn [map_err rbind].
  assert (forall k r, ps_params t !! k = Some r -> pr_key r = k) as Hfiled by (intros k r; rewrite Hp; by intros [? _]%find_key_Some).
  rewrite (filed_rows_Ok _ Hfiled). cbn [rbind].
  rewrite Hm, Hc, Hch. pose proof (try_state_same s (map_to_list (ps_params t)).*2 Hs) as Htry.
  unfold set_params in Htry. rewrite Htry; [by rewrite bool_decide_eq_true_2| | |].
  - intros k. by rewrite (find_filed _ _ Hfiled).
  - intros r ([k r'] & -> & Hin%elem_of_map_to_list)%list_elem_of_fmap. rewrite Hp in Hin. by apply find_key_Some in Hin as [_ Hin].
  - apply (NoDup_fmap_1 pr_key). rewrite <- list_fmap_compose.
    erewrite list_fmap_ext; [apply (NoDup_fst_map_to_list (ps_params t))|]. intros i [k r] Hi. cbn. apply Hfiled.
    apply elem_of_map_to_list. by eapply list_elem_of_lookup_2.
Qed.

End pallet.

(** ** A concrete constitution *)

Fixpoint constitution_run (cs : list ConstitutionCall) (s : ConstitutionState) : option ConstitutionState :=
  match cs with
  | [] => Some s
  | c :: cs => match constitution_exec c s with (Ok _, s') => constitution_run cs s' | (Err _, _) => None end
  end.

Lemma constitution_run_steps cs s s' :
  Forall constitution_call_ok cs -> constitution_run cs s = Some s' -> rtc constitution_next s s'.
Proof.
  intros Hok. revert s. induction Hok as [|c cs Hc _ IH]; intros s H; cbn in H; [simplify_eq; apply rtc_refl|].
  destruct (constitution_exec c s) as [[[]|?] s1] eqn:E; [|done]. eapply rtc_l; [|by apply IH]. by exists c.
Qed.

Definition demo_bytes : list Z := [1] ++ replicate 107 7 ++ replicate 12 9 ++ replicate 44 5 ++ [3; 0; 0; 0].
Definition demo_kappa : ConstitutionCall := KSetParam CoFutarchyMeta (key16 "mkt.kappa") (PvFixed 7000000) 2 100.
Definition demo_kappa2 : ConstitutionCall := KSetParam CoFutarchyMeta (key16 "mkt.kappa") (PvFixed 8000000) 4 200.
Definition demo_channel : ConstitutionCall := KSetChannel CoConstitutionTrack demo_bytes 300.

Definition demo_genesis : ConstitutionState := constitution_start [Meter_new 1000 0] SUDO_PRESENT empty_release_channel.
Definition demo_first : ConstitutionState := default demo_genesis (constitution_run [demo_kappa] demo_genesis).
Definition demo_second : ConstitutionState := default demo_genesis (constitution_run [demo_kappa2] demo_first).
Definition demo_third : ConstitutionState := default demo_genesis (constitution_run [demo_channel] demo_second).

Lemma demo_start_ok : start_ok [Meter_new 1000 0] SUDO_PRESENT empty_release_channel.
Proof.
  split_and!; try by vm_compute.
  - cbn. unfold MAX_METERS. lia.
  - intros m ->%list_elem_of_singleton. cbn. lia.
  - apply empty_channel_ok.
Qed.

Lemma demo_genesis_reachable : constitution_reachable demo_genesis.
Proof. do 3 eexists. split; [apply demo_start_ok|apply rtc_refl]. Qed.

Lemma demo_bytes_ok : channel_bytes demo_bytes.
Proof.
  split; [done|]. intros x Hx. assert (forallb (fun x => (0 <=? x) && (x <? 256)) demo_bytes = true) as Hall by by vm_compute.
  pose proof (proj1 (forallb_elem _ _) Hall x Hx) as H. cbv beta in H. to_prop. lia.
Qed.

Lemma demo_kappa_step : constitution_step demo_kappa demo_genesis demo_first.
Proof. split; [by vm_compute|by vm_compute]. Qed.
Lemma demo_kappa2_step : constitution_step demo_kappa2 demo_first demo_second.
Proof. split; [by vm_compute|by vm_compute]. Qed.
Lemma demo_channel_step : constitution_step demo_channel demo_second demo_third.
Proof. split; [split; [apply demo_bytes_ok|lia]|by vm_compute]. Qed.

Lemma demo_second_reachable : constitution_reachable demo_second.
Proof.
  do 3 eexists. split; [apply demo_start_ok|]. eapply rtc_l; [exists demo_kappa; apply demo_kappa_step|].
  eapply rtc_l; [exists demo_kappa2; apply demo_kappa2_step|]. apply rtc_refl.
Qed.

Definition demo_row (s : ConstitutionState) : ParamRecord :=
  default (row "mkt.kappa" (PvU8 0) (PvU8 0) (PvU8 0) None 0 PcMeta true) (find_key pr_key (key16 "mkt.kappa") (cs_params s)).

Lemma demo_timed : timed_run (key16 "mkt.kappa") 0 demo_genesis 2 4 demo_second.
Proof.
  pose proof (timed_here (key16 "mkt.kappa") 0 demo_genesis) as H0.
  pose proof (timed_step _ _ _ _ _ _ demo_kappa _ H0 demo_kappa_step ltac:(cbn; lia)) as H1.
  pose proof (timed_step _ _ _ _ _ _ demo_kappa2 _ H1 demo_kappa2_step ltac:(cbn; lia)) as H2.
  rewrite !decide_False in H2 by (by vm_compute). exact H2.
Qed.

Lemma parameters_keep_their_kind_witness : Forall2 descends genesis_params (cs_params demo_second).
Proof. apply (parameters_keep_their_kind demo_second demo_second_reachable). Defined.

Lemma admission_is_the_interval_witness :
  checked_update (PvFixed 9000000) 6 300 (demo_row demo_second) = Ok (with_value (PvFixed 9000000) 6 300 (demo_row demo_second))
  /\ ~ checked_update (PvFixed 10000001) 6 300 (demo_row demo_second) = Ok (with_value (PvFixed 10000001) 6 300 (demo_row demo_second)).
Proof.
  destruct (admission_is_the_interval demo_second (key16 "mkt.kappa") (demo_row demo_second) demo_second_reachable)
    as (lo & hi & a & Hi & Ha & Hv & _ & H); [by vm_compute|].
  assert (lo = 6000000 /\ hi = 10000000) as [-> ->] by (vm_compute in Hi; by simplify_eq).
  pose proof (H (PvFixed 9000000) 6 300 ltac:(split; done)) as [_ H1]. pose proof (H (PvFixed 10000001) 6 300 ltac:(split; done)) as [H2 _].
  assert ((sat_add U32 (pr_last_changed_epoch (demo_row demo_second)) (pr_cooldown_epochs (demo_row demo_second)) <=? 6)
    && same_kind (pr_value (demo_row demo_second)) (PvFixed 9000000) = true) as [Hc%Z.leb_le Hk]%andb_prop by (by vm_compute).
  split; [apply H1; split; [exact Hk|split; [cbn; lia|exact Hc]]|]. intros Hup. destruct (H2 Hup) as (_ & Hr & _). cbn in Hr. lia.
Defined.

Lemma changes_need_authority_witness :
  Z.testbit (cs_phase_flags demo_third) 5 = false
  /\ forall i, (112 <= i < 120)%nat -> byte_at (cs_release_channel demo_third) i = byte_at (cs_release_channel demo_second) i.
Proof.
  destruct (changes_need_authority demo_channel demo_second demo_third demo_second_reachable demo_channel_step eq_refl)
    as (_ & Hf & _ & _ & Hb & _). split; [rewrite Hf by lia; by vm_compute|exact Hb].
Defined.

Lemma change_rate_is_bounded_witness :
  (2 - 1) * 2 <= 4 - 0 /\ Z.abs (as_u128 (pr_value (demo_row demo_second)) - 5000000) <= 2 * 2000000.
Proof.
  destruct (change_rate_is_bounded (key16 "mkt.kappa") 2 0 demo_genesis 4 demo_second (demo_row demo_genesis) demo_genesis_reachable)
    as (r & Hr & _ & _ & Hn & Hd); [by vm_compute..|exact demo_timed|].
  assert (r = demo_row demo_second) as -> by (vm_compute in Hr; simplify_eq; by vm_compute).
  split; [exact Hn|exact (Hd (DAbsolute (PvFixed 2000000)) eq_refl)].
Defined.

Lemma release_channel_keeps_owners_witness :
  channel_updated_at (cs_release_channel demo_third) = 300
  /\ channel_spec_version (cs_release_channel demo_third) = channel_spec_version (cs_release_channel demo_second).
Proof.
  destruct (release_channel_keeps_owners CoConstitutionTrack demo_bytes 300 demo_second demo_third demo_second_reachable demo_channel_step)
    as (H1 & H2 & _). split; [exact H1|exact H2].
Defined.

Lemma constitution_checker_accepts_witness : constitution_try_state demo_second = Ok tt.
Proof. apply (constitution_checker_accepts demo_second demo_second_reachable). Defined.

(** A runtime whose origins are those of governance, or nothing. *)
#[local] Instance demo_config : ConstitutionConfig :=
  {| RuntimeOrigin := option ConstitutionOrigin; GovernanceOrigin := fun o => o; permits := runtime_permits |}.

Definition demo_env : Env := {| en_epoch := 3; en_block := 5000; en_armable := fun _ => false |}.
Definition demo_storage : PalletStorage :=
  default {| ps_version := 0; ps_params := ∅; ps_phase_flags := 0; ps_release_channel := []; ps_meters := [];
             ps_capabilities := []; ps_events := [] |} (genesis_build RELEASE_CHANNEL_STORAGE_KEY 0 []).
Definition demo_fee : PalletCall := PSetParam (Some CoFutarchyParam) (key16 "mkt.fee") (PvPerbill 3500000).
Definition demo_arm : PalletCall := PSetPhaseFlag (Some CoRoot) PARAM_ARMED true.

Lemma demo_storage_built : genesis_build RELEASE_CHANNEL_STORAGE_KEY 0 [] = Some demo_storage.
Proof. unfold demo_storage. pose proof genesis_builds as H. by destruct (genesis_build _ _ _). Qed.

Lemma demo_storage_holds : exists s, constitution_reachable s /\ refines demo_storage s.
Proof.
  destruct (genesis_holds RELEASE_CHANNEL_STORAGE_KEY 0 [] demo_storage) as [_ H];
    [lia|by intros x ?%elem_of_nil|exact demo_storage_built|exact H].
Qed.

Lemma pallet_refines_core_witness :
  exists s, mirrors demo_env demo_fee demo_storage s /\ (pallet_exec demo_env demo_arm demo_storage).1 = Err (DeModule PeNavFloorUnmet).
Proof.
  destruct demo_storage_holds as (s & Hs & Hr). exists s. split; [|by vm_compute].
  exact (pallet_refines_core demo_env demo_fee demo_storage s (fun _ _ _ => eq_refl) Hs Hr).
Defined.

Definition demo_paid : PalletStorage := (pallet_exec demo_env demo_fee demo_storage).2.

Lemma demo_fee_result : pallet_exec demo_env demo_fee demo_storage = (Ok tt, demo_paid).
Proof.
  assert ((pallet_exec demo_env demo_fee demo_storage).1 = Ok tt) as H by by vm_compute.
  unfold demo_paid. destruct (pallet_exec demo_env demo_fee demo_storage) as [r t]. cbn [fst snd] in *. by rewrite H.
Qed.

Lemma demo_paid_reachable : pallet_reachable RELEASE_CHANNEL_STORAGE_KEY demo_paid.
Proof.
  exists 0, [], demo_storage. split; [lia|]. split; [by intros x ?%elem_of_nil|]. split; [exact demo_storage_built|].
  eapply rtc_l; [|apply rtc_refl]. exists demo_env, demo_fee. split; [|exact demo_fee_result].
  unfold pallet_call_ok. cbn [core_call demo_fee GovernanceOrigin demo_config fmap option_fmap option_map constitution_call_ok].
  split; [unfold pv_ok; cbn; lia|cbn; lia].
Qed.

Lemma pallet_checker_accepts_witness : do_try_state RELEASE_CHANNEL_STORAGE_KEY demo_paid = Ok tt.
Proof. exact (pallet_checker_accepts demo_paid (fun _ _ _ => eq_refl) demo_paid_reachable). Defined.
